(* ===== verification/_CoqProject ===== *)
-Q . S2P
Prelude.v
Crypto.v
Sha256.v
PyStr.v
Regex.v
PyText.v
PyVal.v
Utf8.v
Json.v
Digest.v
OsPath.v
Changeset.v
ChangesetRef.v
ChangesetFacts.v
ChangesetSim.v
ChangesetEmit.v
ChangesetGroups.v
ChangesetTheorems.v
ControlV2Wire.v
ControlV2Message.v
ControlV2Codec.v
ControlV2Session.v
ControlV2SessionInv.v
ControlV2Theorems.v
ControlV1.v
ControlV1Framing.v
ControlV1Message.v
ControlV1Session.v
ControlV1Theorems.v
Network.v
NetworkFacts.v
NetworkTheorems.v
Acl.v
AclTheorems.v
Process.v
ProcessFacts.v
ProcessTheorems.v
ProjectGraph.v
ProjectTheorems.v
LogStream.v
LogStreamTheorems.v
ExecControl.v
ExecControlFacts.v
ExecSession.v
ExecSessionFacts.v
ExecTheorems.v
Transport.v
TransportFacts.v
TransportInv.v
TransportTermination.v
TransportDemo.v
TransportTheorems.v
Names.v
NamesFacts.v
Provenance.v
ProvenanceFacts.v
Referrer.v
ProvenanceTheorems.v
Image.v
ImageFacts.v
ImageTheorems.v
Yaml.v
YamlFacts.v
YamlTheorems.v
Template.v
TemplateFacts.v
ProjectFiles.v
ProjectDoc.v
ProjectFacts.v
ProjectPayload.v
ProjectDocTheorems.v
ExecRecord.v
ExecRecordFacts.v
ExecRecordOS.v
ExecRecordWriter.v
ExecRecordDisk.v
ExecRecordReader.v
ExecRecordTheorems.v
HostJournal.v
HostJournalTheorems.v
