(* ===== verification/Prelude.v ===== *)
(** * Palimpsest: a verification development of its core

    Palimpsest ([src/src/palimpsest_local]) turns an OCI image into a virtual
    machine whose root is the image.  The host reduces the layers of the image to
    final file sets, plans the disks and the boot, launches QEMU with a network
    argument vector and private files, and drives the guest's first process with
    an authenticated control protocol; projects start several such machines in
    dependency order, and their consoles are streamed; what an execution did is
    recorded on disk, and every command is journaled.  This library models those
    pure or state-threading cores and proves what makes them correct.

    ** Files and what they model

    Foundations (no program file of their own; what the program uses of Python):
    - [Prelude]: results, the [let?]/[raise] notations, record update, tactics,
      the generic lemmas on lists, options and integers;
    - [Crypto] (the interface [Hash]; HMAC, hexadecimal text) and [Sha256] (its
      FIPS 180-4 instance); [PyStr], [PyText] ([str] as lists of code points,
      [int], [split], [sorted], ...), [Utf8], [Regex] ([re.fullmatch], by
      derivatives, proved equal to the denotation), [PyVal] (dynamic values),
      [Json] ([json.dumps]/[json.loads] as the program calls them), [OsPath].

    Components:
    - [Digest]: digest.py and [canonical_json_bytes] of oci_provenance.py;
    - [Changeset]: oci_changeset.py, layer changesets reduced to their final
      paths.  [cstate] has the four tables of [normalize_changeset] as fields; each
      branch of its loop is a handler.  [ChangesetRef] is the specification (one
      table, no index); [ChangesetFacts], [ChangesetSim] prove the refinement,
      [ChangesetEmit], [ChangesetGroups] the emission, [ChangesetTheorems] the properties;
    - [ControlV2Wire]: messages, envelopes and authentication of
      oci_control_protocol_v2.py, [ControlV2Session]: its [HostOCIControlV2Session],
      a record with a function per method that returns the object it leaves
      behind and its result, [ControlV2Message], [ControlV2Codec],
      [ControlV2SessionInv], [ControlV2Theorems]: their theory;
    - [ControlV1], [ControlV1Session]: oci_control_protocol.py, with
      [ControlV1Message], [ControlV1Framing], [ControlV1Theorems];
    - [Network] (+ [NetworkFacts], [NetworkTheorems]): oci_network.py;
    - [Acl] (+ [AclTheorems]): oci_acl.py;
    - [Process] (+ [ProcessFacts], [ProcessTheorems]): oci_process.py;
    - project.py: [Yaml] (+ [YamlFacts], [YamlTheorems]), its
      reader of the YAML subset; [Template] (+ [TemplateFacts]), interpolation and
      secrets; [ProjectFiles], names, paths and dotenv files; [ProjectDoc]
      (+ [ProjectFacts], [ProjectDocTheorems]), the document; [ProjectPayload], the
      payload and what is resolved; [ProjectGraph] (+ [ProjectTheorems]), the services;
    - [LogStream] (+ [LogStreamTheorems]): log_stream.py and the reads of
      [PinnedRunConsole] of state.py.
    - [ExecControl] (+ [ExecControlFacts]): oci_exec_control.py,
      oci_monitor_control.py and the effect of an exchange of oci_monitor_ipc.py;
      [ExecSession] (+ [ExecSessionFacts]): the client, oci_exec_session.py;
      [ExecTheorems]: both together.
    - [Transport]: oci_lifecycle_transport.py, a boot from HELLO to its
      receipt, over the session, the stop control and the mailbox.
      [TransportFacts] has what it needs of them, triples and the two loops over
      the stream, [TransportInv] the invariant, [TransportTermination] the end of the loops, [TransportDemo] a
      world, [TransportTheorems] the properties.
    - [Names] (+ [NamesFacts]): the registries,
      repositories, references and addresses of oci_provenance.py;
      [Provenance] (+ [ProvenanceFacts], [Referrer], [ProvenanceTheorems]): its
      descriptors, platforms, layers, provenance and referrer manifests;
      [Image] (+ [ImageFacts], [ImageTheorems]): oci_image.py.

    - [ExecRecord] (+ [ExecRecordFacts]): the facts of oci_exec_record.py and their
      three artifacts; [ExecRecordOS]: the calls of the system, the opening of the
      directories and the reader; [ExecRecordWriter]: the writer, a program of
      calls; [ExecRecordDisk]: a log of disk events, what a crash leaves of it and
      what the writer keeps of it at every moment; [ExecRecordReader]: the reader
      on any system, and on a directory at rest; [ExecRecordTheorems]: a concrete
      system and the properties.
    - [HostJournal]: host_journal.py, a command as a program of calls, and the
      machine that runs the calls of all commands in any order;
      [HostJournalTheorems]: three logics of programs (what a command knows of the
      file, what it printed, the clock), the invariant of the machine, the properties.

    A definition keeps the name of the function it models, without a leading
    underscore or with the class it belongs to as a prefix ([v1_accept] is
    [HostOCIControlSession.accept]); PROJECT.json gives its lines.

    ** How the code is read

    A call that returns or raises is a [result]; [Err] carries the message of the
    exception, or the name of its class where the message shows a value.  A method is a function
    from the object to the object and a result, so that what it changed before
    it raised is visible.  Text is a list of code points ([pystr]), so texts
    that UTF-8 cannot encode exist in the model as in Python.  Integers are
    unbounded as in Python, with the code's own bounds as guards.

    ** Interfaces

    - [Hash]: control protocols, network plans and digests are proved for any
      hash of 32 bytes; [Sha256.sha256_hash] discharges it.  No theorem assumes
      collision resistance or unforgeability: the theorems on authentication
      say what a tag covers, not that it cannot be forged.
    - [LogWorld] and [ConsoleSource], with the laws [WorldLaws] and
      [SourceLaws]: the stream is proved against any console that only grows;
      the pinned console discharges [SourceLaws] from [ConsoleOSLaws], the
      documented behaviour of [fstat], [stat] and [pread].
    - the access control lists are proved over the results of the commands that
      read and write them; the parameters of [Acl] are those commands.
    - [ExecWorld] and its laws [ExecLaws]: the client of guest executions is proved
      against any system in which a request reaches the mailbox zero or more
      times, its answer may be lost, and other clients, which do not hold its
      random token, and the transport act at any moment ([exchange], [call_ok]).
    - [TransportWorld] with [TransportLaws]: the clock, the stream and the
      callbacks of a boot, and what other threads do between two actions.  A wait
      may return at once, at most [spins] times in a row before the clock shows
      another millisecond; only termination uses this.  [MonitorLog] is the history
      of the other threads' calls.
    - the [reader] of [Image] is the store of blobs: any function from
      descriptors to bytes or an exception; nothing is assumed of it.
    - [UnicodeDB] says which characters beyond ASCII are letters or digits; the
      theorems on projects hold for any such table.  [project_fs] is what the
      file system holds below a project root; it does not change during a call.
    - [RecordOS] is the system an execution record is kept on.  The reader and the
      fail-stop of the writer are proved on any such system; the crash theorems
      against [RecordLaws], the effect of each call on a log of disk events of
      which a crash keeps what was made durable and any part of the rest; the
      completeness of the reader against [RestingLaws].  A concrete disk
      discharges them.

    ** The theorems

    - Control protocols: a message accepted is well formed and authenticated, a
      nonce and a sequence number are accepted once, decoding is canonical and
      independent of how the stream is cut, and inverts encoding; the
      session's invariant holds in every reachable state, a rejected frame
      changes nothing, a terminated or stopped session stays so, the budget of
      an execution's output is never exceeded, and the v1 host can reconnect from
      any state past its first HELLO, to exactly the SNAPSHOTs that continue it.
    - Changesets, of relative paths in which no hardlink that still waits is
      repeated ([regular_input]; without it the code loses a link, or does not end):
      the indexed normaliser refines the reference definition, ends, leaves a tree,
      hides exactly what a whiteout names, binds a hardlink to the regular member
      at its target when it occurs or to the first later one, and emits a link after
      its payload.
    - Networking, access control, processes: what is accepted or resolved
      is exactly what the code promises, and is read back from its text.
    - Projects: the reader of project files inverts a writer, on the documents that
      [writable] and the limits describe, and its values are bounded; interpolation is the semantics of a grammar; an accepted project
      is well formed, its payload holds no secret, its machines have safe names;
      the dependency check decides acyclicity, and the start order exists, is
      complete and depends only on the set of names selected.
    - Logs: every byte once, in order, one terminal event, after the bytes.
    - Guest executions: the mailbox hands out every accepted job at most once,
      whatever the order of calls; a client yields exactly the output the
      transport appended to its own job, in any interleaving.
    - Boots: a handoff that returns attests one complete authenticated boot; one
      that raises leaves the monitor's controls closed; the mailbox refuses a result
      only where another thread had closed it; with deadlines every loop ends.
    - Images: a resolved image is what the verified bytes say and depends on them
      alone; provenance has one text, its chain identity binds the layers, and
      referrer manifests are read back.
    - Execution records: artifacts and facts determine each other; a crash at any
      moment leaves no file or a record that is accepted, and what was published
      stays; a writer that failed never publishes again; a snapshot is valid
      whatever the system answers, and complete on a directory at rest.
    - The journal: the file stays numbered complete lines and at most one torn end,
      under any interleaving and failure; a command that ends in silence is in it;
      journaling fails no command, and ends.

    ** Fuel

    Where the code recurses or loops without a structural bound the model has
    fuel, and a theorem that it is enough: the byte count of the input for the
    decoders, the text and the lines for the YAML reader, the text for
    interpolation, the number of services for the project graph, the number of paths
    for the changeset.  [LogStream.next] bounds the polls of a followed console,
    which may be polled for ever; a snapshot is proved never to poll.  The reads of
    an execution record have the bytes asked for plus one as fuel, as every read but
    the last returns a byte; the wait for the journal's lock has its number of
    pauses within the deadline plus one; a handoff the bytes of a frame plus the waits
    that may return before its deadlines.

    ** Not modelled

    Whatever is mostly calls of the operating system, of QEMU, libvirt,
    BuildKit, a registry or OpenStack (run orchestration, stores, packers, image
    conversion, monitors, the web and command-line interfaces), the guest's C
    code, and threads: a lock's critical section is one step.  PROJECT.json lists
    these parts one by one with the reason.  Of the modelled files: floats of more than
    fifteen digits in JSON, the line numbers of messages of the YAML reader, the
    ledger validation of [PinnedRunConsole.current_status] and the opening of
    its descriptors; which [OSError] a call on an execution record raised; another
    process of the same owner that changes the private directory of a record during
    one of its calls; a crash of the host while the journal is written; UTF-16 and
    UTF-32 lines of the journal, which are refused. *)
From stdpp Require Export base tactics list gmap strings sorting.
From Stdlib Require Export ZArith Zwf Lia.

#[global] Open Scope Z_scope.

(** * Results: a Python call that returns or raises *)

(** [Ok a] is a normal return, [Err e] an exception; [e] is the exception's
    message as the source writes it (the class is fixed per module). *)
Inductive result (A : Type) : Type :=
| Ok (a : A)
| Err (e : string).
Arguments Ok {A} a.
Arguments Err {A} e.

#[global] Instance result_eq_dec {A} `{EqDecision A} : EqDecision (result A).
Proof. solve_decision. Defined.

#[global] Instance Ok_inj {A} : Inj (=) (=) (@Ok A).
Proof. by intros a b [= ->]. Qed.

Definition result_bind {A B} (r : result A) (f : A -> result B) : result B :=
  match r with Ok a => f a | Err e => Err e end.

Definition result_map {A B} (f : A -> B) (r : result A) : result B :=
  result_bind r (fun a => Ok (f a)).

Definition is_ok {A} (r : result A) : bool :=
  match r with Ok _ => true | Err _ => false end.

(** Notations of the development: [let? x := c in k] sequences two fallible
    calls, [raise e when b ;; k] is a guard followed by the rest of the body. *)
Declare Scope py_scope.
Delimit Scope py_scope with py.
#[global] Open Scope py_scope.

Notation "'let?' x ':=' c 'in' k" := (result_bind c (fun x => k))
  (at level 10, x binder, c at level 100, k at level 200) : py_scope.
Notation "'let?' ' p ':=' c 'in' k" := (result_bind c (fun x => match x with p => k end))
  (at level 10, p pattern, c at level 100, k at level 200) : py_scope.
Notation "'raise' e 'when' b ';;' k" := (if b then Err e else k)
  (at level 10, e at level 9, b at level 99, k at level 200) : py_scope.
(** The same two forms in a method of a mutable object: the state reached so
    far survives the exception. *)
Notation "'raise' e 'when' b 'from' s ';;' k" := (if b then (s, Err e) else k)
  (at level 10, e at level 9, b at level 99, s at level 9, k at level 200) : py_scope.
Notation "'let?' x ':=' c 'from' s 'in' k" :=
  (match c with Ok x => k | Err e => (s, Err e) end)
  (at level 10, x binder, c at level 100, s at level 9, k at level 200) : py_scope.

Lemma result_bind_Ok {A B} (r : result A) (f : A -> result B) b :
  result_bind r f = Ok b <-> exists a, r = Ok a /\ f a = Ok b.
Proof. destruct r; simpl; naive_solver. Qed.

(** * Record update: [r <| field := v |>] *)

Class Eta (R : Type) := eta : R -> R.
Class Setter {R F : Type} (proj : R -> F) := setter : F -> R -> R.

Ltac build_setter proj :=
  match type of proj with
  | ?R -> ?F =>
      let e := eval hnf in (_ : Eta R) in
      let e := eval pattern proj in e in
      match e with
      | ?k _ => exact (fun (v : F) => k (fun _ : R => v))
      end
  end.
#[export] Hint Extern 0 (Setter ?proj) => build_setter proj : typeclass_instances.

Notation "r <| f := v |>" := (setter (proj := f) v r)
  (at level 1, f at level 11, left associativity) : py_scope.

(** * Tactics *)

(** Invert the chain of binds, guards and matches of a successful call. *)
Ltac inv_ok_step :=
  match goal with
  | H : Ok _ = Ok _ |- _ => apply (inj Ok) in H; subst
  | H : Err _ = Ok _ |- _ => discriminate H
  | H : Ok _ = Err _ |- _ => discriminate H
  | H : (_, _) = (_, _) |- _ => apply pair_equal_spec in H as [? ?]; subst
  | H : result_bind ?c _ = Ok _ |- _ =>
      let a := fresh "a" in let E := fresh "E" in
      destruct c as [a|] eqn:E; simpl in H; [|discriminate H]
  | H : (if ?b then Err _ else _) = Ok _ |- _ =>
      let E := fresh "G" in destruct b eqn:E; [discriminate H|]
  | H : match ?c with _ => _ end = Ok _ |- _ =>
      let E := fresh "M" in destruct c eqn:E; try discriminate H
  end.
Ltac inv_ok := repeat inv_ok_step.

(** Boolean guards as propositions. *)
Ltac bool_norm_step :=
  match goal with
  | H : negb _ = true |- _ => apply negb_true_iff in H
  | H : negb _ = false |- _ => apply negb_false_iff in H
  | H : _ || _ = false |- _ => apply orb_false_iff in H as [? ?]
  | H : _ && _ = true |- _ => apply andb_true_iff in H as [? ?]
  | H : (_ <=? _) = true |- _ => apply Z.leb_le in H
  | H : (_ <=? _) = false |- _ => apply Z.leb_gt in H
  | H : (_ <? _) = true |- _ => apply Z.ltb_lt in H
  | H : (_ <? _) = false |- _ => apply Z.ltb_ge in H
  | H : (_ =? _) = true |- _ => apply Z.eqb_eq in H
  | H : (_ =? _) = false |- _ => apply Z.eqb_neq in H
  | H : bool_decide _ = true |- _ => apply bool_decide_eq_true in H
  | H : bool_decide _ = false |- _ => apply bool_decide_eq_false in H
  end.
Ltac bool_norm := repeat bool_norm_step.

(** * Lists *)

Definition zlen {A} (l : list A) : Z := Z.of_nat (length l).

Lemma zlen_nonneg {A} (l : list A) : 0 <= zlen l.
Proof. unfold zlen. lia. Qed.
Create HintDb palimpsest.
#[export] Hint Resolve zlen_nonneg : palimpsest.

Lemma to_nat_zlen {A} (l : list A) : Z.to_nat (zlen l) = length l.
Proof. apply Nat2Z.id. Qed.

Lemma zlen_nil {A} : zlen (@nil A) = 0.
Proof. reflexivity. Qed.

Lemma zlen_cons {A} (a : A) l : zlen (a :: l) = 1 + zlen l.
Proof. unfold zlen. simpl. lia. Qed.

Lemma zlen_app {A} (l k : list A) : zlen (l ++ k) = zlen l + zlen k.
Proof. unfold zlen. rewrite length_app. lia. Qed.

(** Lengths of literal concatenations. *)
#[global] Hint Rewrite @zlen_app @zlen_cons @zlen_nil : zlen.
Ltac zlen_norm := autorewrite with zlen in *.

(** [map] with a fallible function, left to right, stopping at the first error. *)
Fixpoint map_result {A B} (f : A -> result B) (l : list A) : result (list B) :=
  match l with
  | [] => Ok []
  | a :: l => let? b := f a in let? bs := map_result f l in Ok (b :: bs)
  end.

Lemma map_result_Ok {A B} (f : A -> result B) l k :
  map_result f l = Ok k <-> Forall2 (fun a b => f a = Ok b) l k.
Proof.
  revert k; induction l as [|a l IH]; intros k; simpl.
  - split; [intros [= <-]; constructor | inversion 1; reflexivity].
  - split.
    + intros H. inv_ok. constructor; [done|]. by apply IH.
    + inversion 1 as [|? b ? bs Hb Hbs]; subst. rewrite Hb. simpl.
      apply IH in Hbs. by rewrite Hbs.
Qed.
