(* ===== verification/Crypto.v ===== *)
(** [hashlib.sha256], [hmac.new(_, _, sha256)] and hexadecimal text, as the
    control protocol, the network plan and the artifact digests use them.
    Client theorems are proved for any [Hash] instance, that is for any
    32-byte hash; [Sha256.sha256_hash] is the FIPS 180-4 instance. *)
From S2P Require Import Prelude.

(** Strings are lists of code points, byte strings lists of integers below 256. *)
Abbreviation pystr := (list Z) (only parsing).
Abbreviation bytes := (list Z) (only parsing).

(** A literal of the source. *)
Fixpoint u (s : string) : pystr :=
  match s with
  | EmptyString => []
  | String c s => Z.of_N (Ascii.N_of_ascii c) :: u s
  end.

#[global] Arguments u : simpl never.

(** Evaluate the literals of a goal. *)
Ltac eval_lits :=
  repeat match goal with |- context [u ?s] =>
    let x := eval vm_compute in (u s) in change (u s) with x end.

Definition is_byte (b : Z) : Prop := 0 <= b < 256.

(** * Hexadecimal *)

Definition hex_digit (n : Z) : Z := if n <? 10 then 48 + n else 87 + n.

Definition hex_value (c : Z) : option Z :=
  if (48 <=? c) && (c <=? 57) then Some (c - 48)
  else if (97 <=? c) && (c <=? 102) then Some (c - 87)
  else if (65 <=? c) && (c <=? 70) then Some (c - 55)
  else None.

(** [bytes.hex] and [hexdigest]. *)
Definition hex (b : bytes) : pystr :=
  flat_map (fun x => [hex_digit (x / 16); hex_digit (x mod 16)]) b.

(** [bytes.fromhex], on the text the protocol's expressions admit (an even
    number of hexadecimal digits, no spaces). *)
Fixpoint fromhex (s : pystr) : option bytes :=
  match s with
  | [] => Some []
  | h :: l :: s =>
      match hex_value h, hex_value l, fromhex s with
      | Some h, Some l, Some b => Some (16 * h + l :: b)
      | _, _, _ => None
      end
  | _ :: _ => None
  end.

Lemma hex_value_digit n : 0 <= n < 16 -> hex_value (hex_digit n) = Some n.
Proof.
  intros Hn. unfold hex_digit, hex_value. destruct (Z.ltb_spec n 10) as [Hd|Hd].
  - rewrite !(proj2 (Z.leb_le _ _)) by lia. cbn [andb]. f_equal. lia.
  - rewrite (proj2 (Z.leb_gt (87 + n) 57)), andb_false_r, !(proj2 (Z.leb_le _ _)) by lia.
    cbn [andb]. f_equal. lia.
Qed.

Lemma fromhex_hex b : Forall is_byte b -> fromhex (hex b) = Some b.
Proof.
  induction 1 as [|x b Hx _ IH]; [done|]. unfold is_byte in Hx.
  change (hex (x :: b)) with (hex_digit (x / 16) :: hex_digit (x mod 16) :: hex b).
  cbn [fromhex].
  rewrite !hex_value_digit, IH by (first [apply Z.mod_pos_bound|split; [apply Z.div_pos|apply Z.div_lt_upper_bound]]; lia).
  do 2 f_equal. pose proof (Z.div_mod x 16). lia.
Qed.

Lemma length_hex b : length (hex b) = (2 * length b)%nat.
Proof. unfold hex. induction b; simpl; lia. Qed.

(** * Hash functions *)

Class Hash := {
  sha256 : bytes -> bytes;
  sha256_length m : length (sha256 m) = 32%nat;
  sha256_bytes m : Forall is_byte (sha256 m);
}.

Section hmac.
Context `{Hash}.

(** RFC 2104 over the 64-byte block of SHA-256. *)
Definition hmac_block (key : bytes) : bytes :=
  let key := if 64 <? zlen key then sha256 key else key in
  key ++ replicate (64 - length key) 0.

Definition hmac_sha256 (key msg : bytes) : bytes :=
  let k := hmac_block key in
  sha256 (map (Z.lxor 92) k ++ sha256 (map (Z.lxor 54) k ++ msg)).

Lemma hmac_sha256_length key msg : length (hmac_sha256 key msg) = 32%nat.
Proof. apply sha256_length. Qed.

Lemma hmac_sha256_bytes key msg : Forall is_byte (hmac_sha256 key msg).
Proof. apply sha256_bytes. Qed.

(** ["sha256:" + hashlib.sha256(payload).hexdigest()] *)
Definition digest_text (payload : bytes) : pystr := u "sha256:" ++ hex (sha256 payload).
End hmac.
#[export] Hint Resolve sha256_length sha256_bytes hmac_sha256_length hmac_sha256_bytes : palimpsest.

(** * [struct.pack(">I", n)] and [struct.unpack(">I", b)[0]] *)

Definition pack_u32 (n : Z) : bytes :=
  [n / 16777216 mod 256; n / 65536 mod 256; n / 256 mod 256; n mod 256].

Definition unpack_u32 (b : bytes) : Z :=
  match b with
  | [a; b; c; d] => a * 16777216 + b * 65536 + c * 256 + d
  | _ => 0
  end.

Lemma unpack_pack_u32 n : 0 <= n < 4294967296 -> unpack_u32 (pack_u32 n) = n.
Proof. intros Hn. unfold pack_u32, unpack_u32. Z.div_mod_to_equations. lia. Qed.

Lemma length_pack_u32 n : length (pack_u32 n) = 4%nat.
Proof. reflexivity. Qed.

(** Literals are distinguished by their text. *)
Lemma u_inj a b : u a = u b -> a = b.
Proof.
  revert b. induction a as [|c a IH]; intros [|c' b]; simpl; try done.
  intros H. pose proof (f_equal (hd 0) H) as Hc. pose proof (f_equal (@tl Z) H) as Ht. simpl in *.
  apply N2Z.inj in Hc. rewrite <- (Ascii.ascii_N_embedding c), Hc, Ascii.ascii_N_embedding.
  f_equal. by apply IH.
Qed.

Lemma u_nonneg s : Forall (Z.le 0) (u s).
Proof. induction s; simpl; constructor; [apply N2Z.is_nonneg|done]. Qed.
#[export] Hint Resolve u_nonneg : palimpsest.

Lemma unpack_u32_nonneg b : Forall is_byte b -> 0 <= unpack_u32 b.
Proof.
  unfold is_byte. intros Hb. unfold unpack_u32.
  destruct b as [|w [|x [|y [|z [|]]]]]; try lia.
  inversion_clear Hb as [|? ? Hw Hb1]. inversion_clear Hb1 as [|? ? Hx Hb2].
  inversion_clear Hb2 as [|? ? Hy Hb3]. inversion_clear Hb3 as [|? ? Hz _]. lia.
Qed.

Lemma pack_u32_bytes n : Forall is_byte (pack_u32 n).
Proof. unfold pack_u32, is_byte. repeat constructor; apply Z.mod_pos_bound; lia. Qed.
