(* ===== verification/Sha256.v ===== *)
(** SHA-256 (FIPS 180-4), the [Hash] instance behind [hashlib.sha256]. *)
From S2P Require Import Prelude Crypto.

Module Sha256.

Definition w32 (x : Z) : Z := x mod 4294967296.
Definition add32 (x y : Z) : Z := w32 (x + y).
Definition rotr (n x : Z) : Z := w32 (Z.lor (Z.shiftr x n) (Z.shiftl x (32 - n))).
Definition ch (x y z : Z) : Z := Z.lxor (Z.land x y) (Z.land (4294967295 - x) z).
Definition maj (x y z : Z) : Z := Z.lxor (Z.lxor (Z.land x y) (Z.land x z)) (Z.land y z).
Definition big0 (x : Z) : Z := Z.lxor (Z.lxor (rotr 2 x) (rotr 13 x)) (rotr 22 x).
Definition big1 (x : Z) : Z := Z.lxor (Z.lxor (rotr 6 x) (rotr 11 x)) (rotr 25 x).
Definition small0 (x : Z) : Z := Z.lxor (Z.lxor (rotr 7 x) (rotr 18 x)) (Z.shiftr x 3).
Definition small1 (x : Z) : Z := Z.lxor (Z.lxor (rotr 17 x) (rotr 19 x)) (Z.shiftr x 10).

Definition round_constants : list Z :=
  [1116352408; 1899447441; 3049323471; 3921009573; 961987163; 1508970993; 2453635748; 2870763221;
   3624381080; 310598401; 607225278; 1426881987; 1925078388; 2162078206; 2614888103; 3248222580;
   3835390401; 4022224774; 264347078; 604807628; 770255983; 1249150122; 1555081692; 1996064986;
   2554220882; 2821834349; 2952996808; 3210313671; 3336571891; 3584528711; 113926993; 338241895;
   666307205; 773529912; 1294757372; 1396182291; 1695183700; 1986661051; 2177026350; 2456956037;
   2730485921; 2820302411; 3259730800; 3345764771; 3516065817; 3600352804; 4094571909; 275423344;
   430227734; 506948616; 659060556; 883997877; 958139571; 1322822218; 1537002063; 1747873779;
   1955562222; 2024104815; 2227730452; 2361852424; 2428436474; 2756734187; 3204031479; 3329325298].

Definition initial_hash : list Z :=
  [1779033703; 3144134277; 1013904242; 2773480762; 1359893119; 2600822924; 528734635; 1541459225].

Definition be32 (x : Z) : bytes :=
  [x / 16777216 mod 256; x / 65536 mod 256; x / 256 mod 256; x mod 256].

Definition be64 (x : Z) : bytes := be32 (w32 (x / 4294967296)) ++ be32 (w32 x).

Fixpoint words (b : bytes) : list Z :=
  match b with
  | a :: b :: c :: d :: l => a * 16777216 + b * 65536 + c * 256 + d :: words l
  | _ => []
  end.

Definition pad (m : bytes) : bytes :=
  m ++ 128 :: replicate (Z.to_nat ((55 - zlen m) mod 64)) 0 ++ be64 (8 * zlen m).

(** The message schedule, newest word first. *)
Fixpoint schedule (n : nat) (l : list Z) : list Z :=
  match n with
  | O => l
  | S n => schedule n (add32 (add32 (small1 (nth 1 l 0)) (nth 6 l 0))
                             (add32 (small0 (nth 14 l 0)) (nth 15 l 0)) :: l)
  end.

Fixpoint rounds (h : list Z) (kw : list (Z * Z)) : list Z :=
  match kw, h with
  | (k, x) :: kw, [a; b; c; d; e; f; g; h] =>
      let t1 := add32 (add32 (add32 h (big1 e)) (add32 (ch e f g) k)) x in
      let t2 := add32 (big0 a) (maj a b c) in
      rounds [add32 t1 t2; a; b; c; add32 d t1; e; f; g] kw
  | _, _ => h
  end.

Definition compress (h : list Z) (block : bytes) : list Z :=
  zip_with add32 h (rounds h (zip round_constants (rev (schedule 48 (rev (words block)))))).

Fixpoint blocks (n : nat) (m : bytes) (h : list Z) : list Z :=
  match n with
  | O => h
  | S n => blocks n (drop 64 m) (compress h (take 64 m))
  end.

Definition digest (m : bytes) : bytes :=
  let p := pad m in
  flat_map be32 (blocks (length p / 64) p initial_hash).

Lemma length_rounds kw : forall h, length h = 8%nat -> length (rounds h kw) = 8%nat.
Proof.
  induction kw as [|[k x] kw IH]; intros h Hh; [done|].
  do 8 (destruct h as [|? h]; [done|]). destruct h; [|done]. by apply IH.
Qed.

Lemma length_blocks n : forall m h, length h = 8%nat -> length (blocks n m h) = 8%nat.
Proof.
  induction n as [|n IH]; intros m h Hh; [done|]. apply IH. unfold compress.
  rewrite length_zip_with, length_rounds by done. lia.
Qed.

Lemma length_digest m : length (digest m) = 32%nat.
Proof.
  unfold digest. pose proof (length_blocks (length (pad m) / 64) (pad m) initial_hash eq_refl) as Hl.
  revert Hl. generalize (blocks (length (pad m) / 64) (pad m) initial_hash). intros h Hh.
  do 8 (destruct h as [|? h]; [done|]). by destruct h.
Qed.

Lemma digest_bytes m : Forall is_byte (digest m).
Proof.
  unfold digest. generalize (blocks (length (pad m) / 64) (pad m) initial_hash). intros h.
  induction h as [|x h IH]; simpl; [constructor|].
  repeat (constructor; [apply Z.mod_pos_bound; lia|]). exact IH.
Qed.

#[export] Instance sha256_hash : Hash :=
  {| sha256 := digest; sha256_length := length_digest; sha256_bytes := digest_bytes |}.

(** FIPS 180-4 and RFC 4231 test vectors. *)
Example sha256_abc :
  hex (sha256 (u "abc")) = u "ba7816bf8f01cfea414140de5dae2223b00361a396177a9cb410ff61f20015ad".
Proof. vm_compute. reflexivity. Qed.

Example sha256_empty_object :
  digest_text (u "{}") = u "sha256:44136fa355b3678a1146ad16f7e8649e94fb4fc21fe77e8310c060f61caaff8a".
Proof. vm_compute. reflexivity. Qed.

Example hmac_rfc4231_2 :
  hex (hmac_sha256 (u "Jefe") (u "what do ya want for nothing?"))
  = u "5bdcc146bf60754e6a042426089575c75a003f089d2739839dec58b964ec3843".
Proof. vm_compute. reflexivity. Qed.

End Sha256.
