(* ===== verification/PyStr.v ===== *)
(** Python's [str] as the source uses it: comparison and [sorted], prefixes,
    [split] and [join] on one character, decimal integers. *)
From S2P Require Import Prelude Crypto.

(** * Order *)

(** [a <= b] on strings: lexicographic by code point. *)
Fixpoint str_leb (a b : pystr) : bool :=
  match a, b with
  | x :: a, y :: b => if x <? y then true else if x =? y then str_leb a b else false
  | _ :: _, [] => false
  | [], _ => true
  end.
Definition str_le (a b : pystr) : Prop := str_leb a b = true.

#[export] Instance str_le_dec : RelDecision str_le.
Proof. intros a b. unfold str_le. apply _. Defined.

Ltac zcmp :=
  repeat match goal with
  | |- context [?x <? ?y] => destruct (Z.ltb_spec x y)
  | H : context [?x <? ?y] |- _ => destruct (Z.ltb_spec x y)
  | |- context [?x =? ?y] => destruct (Z.eqb_spec x y)
  | H : context [?x =? ?y] |- _ => destruct (Z.eqb_spec x y)
  end; subst; try lia; try done.

#[export] Instance str_le_refl : Reflexive str_le.
Proof. intros a. unfold str_le. induction a as [|x a IH]; simpl; [done|]. zcmp. Qed.

#[export] Instance str_le_trans : Transitive str_le.
Proof.
  unfold str_le. intros a. induction a as [|x a IH]; intros [|y b] [|z c]; simpl; try done.
  intros. zcmp. eauto.
Qed.

#[export] Instance str_le_antisymm : AntiSymm (=) str_le.
Proof.
  unfold str_le. intros a. induction a as [|x a IH]; intros [|y b]; simpl; try done.
  intros. zcmp. f_equal. by apply IH.
Qed.

#[export] Instance str_le_total : Total str_le.
Proof.
  unfold str_le. intros a. induction a as [|x a IH]; intros [|y b]; simpl; [by left..|by right|].
  destruct (IH b); zcmp; auto.
Qed.

(** [sorted] of a collection of strings. *)
Definition sorted (l : list pystr) : list pystr := merge_sort str_le l.

Lemma sorted_permutation l : sorted l ≡ₚ l.
Proof. apply merge_sort_Permutation. Qed.

Lemma sorted_StronglySorted l : StronglySorted str_le (sorted l).
Proof. apply StronglySorted_merge_sort; apply _. Qed.

Lemma sorted_unique l k : l ≡ₚ k -> sorted l = sorted k.
Proof.
  intros Hp. apply (StronglySorted_unique str_le); [apply sorted_StronglySorted..|].
  by rewrite !sorted_permutation.
Qed.

(** * Prefixes and suffixes *)

Fixpoint startswith (p s : pystr) : bool :=
  match p, s with
  | [], _ => true
  | x :: p, y :: s => (x =? y) && startswith p s
  | _ :: _, [] => false
  end.

Lemma startswith_spec p s : startswith p s = true <-> exists t, s = p ++ t.
Proof.
  revert s; induction p as [|x p IH]; intros s; simpl; [naive_solver|].
  destruct s as [|y s]; [naive_solver|].
  rewrite andb_true_iff, Z.eqb_eq, IH. naive_solver.
Qed.

Lemma startswith_app p s : startswith p (p ++ s) = true.
Proof. apply startswith_spec. eauto. Qed.

Definition endswith (p s : pystr) : bool := startswith (rev p) (rev s).

Lemma endswith_app s p : endswith p (s ++ p) = true.
Proof. unfold endswith. rewrite rev_app_distr. apply startswith_app. Qed.

(** [needle in haystack] *)
Fixpoint contains (needle hay : pystr) : bool :=
  startswith needle hay ||
  match hay with [] => false | _ :: hay => contains needle hay end.

(** * [split] and [join] on one character *)

Fixpoint split (c : Z) (s : pystr) : list pystr :=
  match s with
  | [] => [[]]
  | x :: s =>
      if x =? c then [] :: split c s
      else match split c s with
           | w :: ws => (x :: w) :: ws
           | [] => [[x]]
           end
  end.

Fixpoint join (c : pystr) (l : list pystr) : pystr :=
  match l with
  | [] => []
  | [w] => w
  | w :: ws => w ++ c ++ join c ws
  end.

Lemma split_free c w : c ∉ w -> split c w = [w].
Proof.
  induction w as [|x w IH]; [done|]. rewrite not_elem_of_cons. intros [Hx Hw]. simpl.
  destruct (Z.eqb_spec x c); [congruence|]. by rewrite IH.
Qed.

Lemma split_app c w s : c ∉ w -> split c (w ++ c :: s) = w :: split c s.
Proof.
  induction w as [|x w IH]; simpl.
  - by rewrite Z.eqb_refl.
  - rewrite not_elem_of_cons. intros [Hx Hw]. destruct (Z.eqb_spec x c); [congruence|].
    by rewrite IH.
Qed.

Lemma split_join c l : l <> [] -> Forall (fun w => c ∉ w) l -> split c (join [c] l) = l.
Proof.
  intros Hl Hf. induction Hf as [|w l Hw Hf IH]; [done|]. simpl.
  destruct l as [|w' l]; [by apply split_free|].
  change (w ++ c :: join [c] (w' :: l)) with (w ++ c :: join [c] (w' :: l)).
  rewrite split_app by done. f_equal. by apply IH.
Qed.

Lemma join_split c s : join [c] (split c s) = s.
Proof.
  induction s as [|x s IH]; [done|]. cbn [split]. destruct (Z.eqb_spec x c) as [->|Hx].
  - destruct (split c s) as [|w ws] eqn:E; [by destruct s; cbn in E; repeat case_match|].
    cbn [join app]. by f_equal.
  - destruct (split c s) as [|w ws]; [cbn in IH; by subst s|].
    destruct ws; cbn [join app] in *; congruence.
Qed.

Lemma split_free_parts c s : Forall (fun w => c ∉ w) (split c s).
Proof.
  induction s as [|x s IH]; cbn [split]; [repeat constructor; apply not_elem_of_nil|].
  destruct (Z.eqb_spec x c) as [->|Hx]; [constructor; [apply not_elem_of_nil|done]|].
  destruct IH as [|w ws Hw Hws]; constructor; try done.
  - apply not_elem_of_cons. split; [congruence|apply not_elem_of_nil].
  - apply not_elem_of_cons. split; [congruence|done].
Qed.

Lemma join_snoc c l w : join [c] (l ++ [w]) = match l with [] => w | _ => join [c] l ++ c :: w end.
Proof.
  induction l as [|v l IH]; [done|]. cbn [app]. destruct l as [|v' l]; [done|].
  change (join [c] (v :: (v' :: l) ++ [w])) with (v ++ [c] ++ join [c] ((v' :: l) ++ [w])). rewrite IH.
  change (join [c] (v :: v' :: l)) with (v ++ [c] ++ join [c] (v' :: l)). by rewrite <- !app_assoc.
Qed.

(** * Decimal integers *)

Definition is_digit (c : Z) : bool := (48 <=? c) && (c <=? 57).

Fixpoint digits_fuel (fuel : nat) (n : Z) : pystr :=
  match fuel with
  | O => []
  | S fuel => if n <? 10 then [48 + n] else digits_fuel fuel (n / 10) ++ [48 + n mod 10]
  end.

(** The decimal digits of a nonnegative integer; one more than the number of
    its bits bounds the number of divisions. *)
Definition digits (n : Z) : pystr := digits_fuel (S (Z.to_nat (Z.log2 n))) n.

(** [str(n)] *)
Definition str_of_int (z : Z) : pystr := if z <? 0 then 45 :: digits (- z) else digits z.

(** [int(s)] for a nonempty string of ASCII digits. *)
Definition digits_value (s : pystr) : Z := fold_left (fun a c => 10 * a + (c - 48)) s 0.
Definition int_of_digits (s : pystr) : option Z :=
  if bool_decide (s <> []) && forallb is_digit s then Some (digits_value s) else None.

Lemma log2_div10 n : 10 <= n -> Z.log2 (n / 10) < Z.log2 n.
Proof.
  intros Hn. apply Z.log2_lt_pow2; [apply Z.div_str_pos; lia|].
  apply Z.div_lt_upper_bound; [lia|].
  pose proof (Z.log2_spec n ltac:(lia)) as [_ Hl]. rewrite Z.pow_succ_r in Hl by apply Z.log2_nonneg.
  pose proof (Z.pow_pos_nonneg 2 (Z.log2 n) ltac:(lia) (Z.log2_nonneg n)). lia.
Qed.

Lemma digits_fuel_indep f : forall g n, 0 <= n -> Z.log2 n < Z.of_nat f -> Z.log2 n < Z.of_nat g ->
  digits_fuel f n = digits_fuel g n.
Proof.
  induction f as [|f IH]; intros g n Hn Hf Hg; [pose proof (Z.log2_nonneg n); lia|].
  destruct g as [|g]; [pose proof (Z.log2_nonneg n); lia|]. simpl.
  destruct (Z.ltb_spec n 10); [done|]. f_equal. pose proof (log2_div10 n ltac:(lia)).
  apply IH; [apply Z.div_pos; lia|lia..].
Qed.

Lemma digits_unfold n : 0 <= n ->
  digits n = if n <? 10 then [48 + n] else digits (n / 10) ++ [48 + n mod 10].
Proof.
  intros Hn. unfold digits at 1. simpl. destruct (Z.ltb_spec n 10); [done|]. f_equal.
  pose proof (log2_div10 n ltac:(lia)). pose proof (Z.log2_nonneg (n / 10)).
  apply digits_fuel_indep; [apply Z.div_pos|..]; lia.
Qed.

(** Induction along the divisions by ten. *)
Lemma digits_ind (P : Z -> Prop) :
  (forall n, 0 <= n < 10 -> P n) -> (forall n, 10 <= n -> P (n / 10) -> P n) ->
  forall n, 0 <= n -> P n.
Proof.
  intros H0 H1 n Hn. revert Hn. pattern n. apply (well_founded_induction (Zwf_well_founded 0)).
  clear n. intros n IH Hn. destruct (Z.ltb_spec n 10); [apply H0; lia|].
  apply H1; [lia|]. apply IH; [|apply Z.div_pos; lia].
  split; [lia|]. apply Z.div_lt_upper_bound; lia.
Qed.

Lemma digits_digits n : 0 <= n -> Forall (fun c => is_digit c = true) (digits n).
Proof.
  revert n. apply digits_ind; intros n Hn; rewrite (digits_unfold n) by lia; zcmp.
  - repeat constructor. unfold is_digit. apply andb_true_iff. split; apply Z.leb_le; lia.
  - intros IH. apply Forall_app. split; [done|]. repeat constructor. unfold is_digit.
    pose proof (Z.mod_pos_bound n 10 ltac:(lia)). apply andb_true_iff. split; apply Z.leb_le; lia.
Qed.

Lemma digits_nonempty n : 0 <= n -> digits n <> [].
Proof. intros Hn. rewrite (digits_unfold n) by done. zcmp. by destruct (digits (n / 10)). Qed.

Lemma digits_value_app s c : digits_value (s ++ [c]) = 10 * digits_value s + (c - 48).
Proof. unfold digits_value. by rewrite fold_left_app. Qed.

Lemma digits_value_digits n : 0 <= n -> digits_value (digits n) = n.
Proof.
  revert n. apply digits_ind; intros n Hn; rewrite (digits_unfold n) by lia; zcmp.
  - unfold digits_value. simpl. lia.
  - intros IH. rewrite digits_value_app, IH. pose proof (Z.div_mod n 10 ltac:(lia)). lia.
Qed.

Lemma length_digits n k : 0 <= n -> n < 10 ^ Z.of_nat k -> (1 <= k)%nat -> (length (digits n) <= k)%nat.
Proof.
  intros Hn. revert k. revert n Hn. apply (digits_ind (fun n => forall k, _ -> _ -> (length (digits n) <= k)%nat)).
  - intros n Hn k _ Hk. rewrite (digits_unfold n) by lia. zcmp.
  - intros n Hn IH k Hk Hk1. rewrite (digits_unfold n) by lia. zcmp. rewrite length_app. simpl.
    destruct k as [|[|k]]; [lia|simpl in Hk; lia|].
    enough (length (digits (n / 10)) <= S k)%nat by lia. apply IH; [|lia].
    apply Z.div_lt_upper_bound; [lia|]. by rewrite Nat2Z.inj_succ, Z.pow_succ_r in Hk by lia.
Qed.

(** Only zero is written with a leading ["0"]. *)
Lemma digits_head n : 0 < n -> exists c s, digits n = c :: s /\ 49 <= c <= 57.
Proof.
  intros Hn. assert (0 <= n) as Hn' by lia. revert n Hn' Hn.
  apply (digits_ind (fun n => 0 < n -> exists c s, digits n = c :: s /\ 49 <= c <= 57));
    intros n Hn; [intros Hp|intros IH Hp]; rewrite (digits_unfold n) by lia; zcmp.
  - exists (48 + n), []. split; [done|lia].
  - destruct IH as (c & s & -> & Hc); [apply Z.div_str_pos; lia|].
    by exists c, (s ++ [48 + n mod 10]).
Qed.

Lemma str_of_int_nonneg n : 0 <= n -> str_of_int n = digits n.
Proof. intros Hn. unfold str_of_int. zcmp. Qed.

Lemma int_of_digits_str n : 0 <= n -> int_of_digits (str_of_int n) = Some n.
Proof.
  intros Hn. rewrite str_of_int_nonneg by done. unfold int_of_digits.
  rewrite bool_decide_eq_true_2 by by apply digits_nonempty.
  assert (forallb is_digit (digits n) = true) as ->.
  { apply forallb_forall. intros c Hc. pose proof (digits_digits n Hn) as Hd.
    rewrite List.Forall_forall in Hd. auto. }
  simpl. by rewrite digits_value_digits.
Qed.

Lemma str_of_int_inj a b : 0 <= a -> 0 <= b -> str_of_int a = str_of_int b -> a = b.
Proof.
  intros Ha Hb E. apply (f_equal int_of_digits) in E. rewrite !int_of_digits_str in E by done.
  congruence.
Qed.

Lemma digits_value_bounds s acc : Forall (fun c => is_digit c = true) s -> 0 <= acc ->
  0 <= fold_left (fun a c => 10 * a + (c - 48)) s acc.
Proof.
  intros Hs. revert acc. induction Hs as [|c s Hc _ IH]; intros acc Ha; simpl; [done|].
  apply IH. unfold is_digit in Hc. bool_norm. lia.
Qed.

(** A decimal without a leading zero is the one [str] prints: the canonicity
    test [str(int(s)) == s] of the source. *)
Lemma str_of_int_of_digits s n : int_of_digits s = Some n ->
  str_of_int n = s <-> (s = [48] \/ exists c t, s = c :: t /\ c <> 48).
Proof.
  unfold int_of_digits. destruct (bool_decide_reflect (s <> [])) as [Hs|]; [|done]. simpl.
  destruct (forallb is_digit s) eqn:Hd; [|done]. intros [= <-].
  assert (Forall (fun c => is_digit c = true) s) as Hf.
  { apply List.Forall_forall. intros c Hc. by eapply forallb_forall in Hd. }
  clear Hd. assert (0 <= digits_value s) as Hpos by (apply digits_value_bounds; [done|lia]).
  rewrite str_of_int_nonneg by done. split.
  - intros E. destruct (decide (digits_value s = 0)) as [E0|].
    + left. by rewrite <- E, E0.
    + right. destruct (digits_head (digits_value s)) as (c & t & E' & Hc); [lia|].
      exists c, t. split; [congruence|lia].
  - intros [->|(c & t & -> & Hc)]; [done|]. clear Hs Hpos.
    inversion Hf as [|?? Hc0 Ht]; subst. clear Hf.
    induction t as [|d t IH] using rev_ind.
    + unfold digits_value. simpl. unfold is_digit in Hc0. bool_norm.
      rewrite digits_unfold by lia. zcmp. f_equal. lia.
    + apply Forall_app in Ht as [Ht Hd]. inversion Hd as [|?? Hd' _]; subst. clear Hd.
      specialize (IH Ht). change (c :: t ++ [d]) with ((c :: t) ++ [d]). rewrite digits_value_app.
      assert (1 <= digits_value (c :: t)) as Hge.
      { destruct (decide (digits_value (c :: t) <= 0)) as [Hle|]; [|lia].
        assert (0 <= digits_value (c :: t)) by (apply digits_value_bounds; [by constructor|lia]).
        assert (digits_value (c :: t) = 0) as E0 by lia. rewrite E0 in IH. by injection IH. }
      unfold is_digit in Hd'. bool_norm.
      rewrite digits_unfold by lia. zcmp.
      replace ((10 * digits_value (c :: t) + (d - 48)) / 10) with (digits_value (c :: t)).
      2: { apply (Z.div_unique_pos _ 10 _ (d - 48)); lia. }
      replace ((10 * digits_value (c :: t) + (d - 48)) mod 10) with (d - 48).
      2: { apply (Z.mod_unique_pos _ 10 (digits_value (c :: t))); lia. }
      rewrite IH. do 2 f_equal. lia.
Qed.

(** Texts without a separator are recovered from their concatenation. *)
Lemma sep_inj (c : Z) a b x y : c ∉ a -> c ∉ b -> a ++ c :: x = b ++ c :: y -> a = b /\ x = y.
Proof.
  revert b. induction a as [|h a IH]; intros [|k b] Ha Hb E; cbn [app] in E.
  - split; [done|congruence].
  - exfalso. apply Hb. rewrite elem_of_cons. left. congruence.
  - exfalso. apply Ha. rewrite elem_of_cons. left. congruence.
  - apply not_elem_of_cons in Ha as [_ Ha], Hb as [_ Hb].
    assert (h = k) as -> by congruence. assert (a ++ c :: x = b ++ c :: y) as E' by congruence.
    destruct (IH b Ha Hb E') as [-> ->]. done.
Qed.
