(* ===== verification/Regex.v ===== *)
(** [re.fullmatch] for the regular expressions of the source: character
    classes, concatenation, alternation and repetition.  Matching is by
    derivatives and is proved equivalent to the denotation [lang]; groups are
    not captured (the callers that capture split the text instead). *)
From S2P Require Import Prelude Crypto.

(** A class is a list of inclusive ranges of code points. *)
Inductive re : Type :=
| RVoid
| REps
| RCls (l : list (Z * Z))
| RCat (r s : re)
| RAlt (r s : re)
| RStar (r : re).

Definition in_cls (l : list (Z * Z)) (c : Z) : bool :=
  existsb (fun ab => (ab.1 <=? c) && (c <=? ab.2)) l.

(** * Denotation *)

Inductive lang : re -> pystr -> Prop :=
| LEps : lang REps []
| LCls l c : in_cls l c = true -> lang (RCls l) [c]
| LCat r s a b : lang r a -> lang s b -> lang (RCat r s) (a ++ b)
| LAltL r s a : lang r a -> lang (RAlt r s) a
| LAltR r s a : lang s a -> lang (RAlt r s) a
| LStar0 r : lang (RStar r) []
| LStarS r a b : lang r a -> lang (RStar r) b -> lang (RStar r) (a ++ b).
#[export] Hint Constructors lang : palimpsest.

(** * Matching *)

Fixpoint nullable (r : re) : bool :=
  match r with
  | RVoid | RCls _ => false
  | REps | RStar _ => true
  | RCat r s => nullable r && nullable s
  | RAlt r s => nullable r || nullable s
  end.

Definition cat (r s : re) : re :=
  match r with RVoid => RVoid | REps => s | _ => RCat r s end.
Definition alt (r s : re) : re :=
  match r, s with RVoid, _ => s | _, RVoid => r | _, _ => RAlt r s end.

Fixpoint deriv (c : Z) (r : re) : re :=
  match r with
  | RVoid | REps => RVoid
  | RCls l => if in_cls l c then REps else RVoid
  | RCat r s =>
      if nullable r then alt (cat (deriv c r) s) (deriv c s) else cat (deriv c r) s
  | RAlt r s => alt (deriv c r) (deriv c s)
  | RStar r => cat (deriv c r) (RStar r)
  end.

Definition fullmatch (r : re) (s : pystr) : bool :=
  nullable (fold_left (fun r c => deriv c r) s r).

Lemma nullable_spec r : nullable r = true <-> lang r [].
Proof.
  split.
  - induction r; simpl; intros H; try discriminate; auto with palimpsest.
    + apply andb_true_iff in H as [? ?]. change (@nil Z) with (@nil Z ++ []). auto with palimpsest.
    + apply orb_true_iff in H as [?|?]; auto with palimpsest.
  - intros H. remember [] as s eqn:E. induction H; simpl; try discriminate; auto.
    + apply app_eq_nil in E as [-> ->]. by rewrite IHlang1, IHlang2.
    + by rewrite IHlang.
    + rewrite IHlang by done. apply orb_true_r.
Qed.

Lemma lang_cat r s a : lang (cat r s) a <-> lang (RCat r s) a.
Proof.
  destruct r; try reflexivity; simpl.
  - split; inversion 1 as [| |r' s' b c Hb| | | |]; subst; inversion Hb.
  - split.
    + intros H. change a with ([] ++ a). auto with palimpsest.
    + inversion 1 as [| |r' s' b c Hb Hc| | | |]; subst. by inversion Hb.
Qed.

Lemma lang_alt r s a : lang (alt r s) a <-> lang (RAlt r s) a.
Proof.
  assert (forall r, ~ lang RVoid r) as Hv by (intros ? H; inversion H).
  destruct r, s; simpl; (split; intros H; [auto with palimpsest|]); try done;
    inversion H; subst; try done; by edestruct Hv.
Qed.

Lemma lang_star_cons r c s : lang (RStar r) (c :: s) ->
  exists a b, s = a ++ b /\ lang r (c :: a) /\ lang (RStar r) b.
Proof.
  intros H. remember (RStar r) as q eqn:Eq. remember (c :: s) as t eqn:Et. revert Eq Et.
  induction H as [| | | | | |r' a b Ha _ Hb IH]; intros; simplify_eq.
  destruct a as [|c' a]; simpl in *; [by apply IH|]. simplify_eq. eauto.
Qed.

Lemma deriv_spec r : forall c s, lang (deriv c r) s <-> lang r (c :: s).
Proof.
  induction r as [| |l|r1 IH1 r2 IH2|r1 IH1 r2 IH2|r IH]; intros c s; simpl.
  - split; inversion 1.
  - split; inversion 1.
  - destruct (in_cls l c) eqn:E.
    + split; inversion 1; subst; auto with palimpsest.
    + split; inversion 1; subst. congruence.
  - assert (lang (cat (deriv c r1) r2) s <->
            exists a b, s = a ++ b /\ lang r1 (c :: a) /\ lang r2 b) as Hc.
    { rewrite lang_cat. split.
      - inversion 1; subst. setoid_rewrite <- IH1. eauto.
      - intros (a & b & -> & Ha & Hb). constructor; [by apply IH1|done]. }
    assert (lang (RCat r1 r2) (c :: s) <->
            (exists a b, s = a ++ b /\ lang r1 (c :: a) /\ lang r2 b) \/
            (lang r1 [] /\ lang r2 (c :: s))) as Hr.
    { split.
      - inversion 1 as [| |r s' a b Ha Hb| | | |]; subst. destruct a as [|x a]; simpl in *.
        + right. by subst.
        + simplify_eq. left. eauto.
      - intros [(a & b & -> & Ha & Hb)|[Ha Hb]].
        + change (c :: a ++ b) with ((c :: a) ++ b). by constructor.
        + change (c :: s) with ([] ++ c :: s). by constructor. }
    destruct (nullable r1) eqn:En.
    + rewrite lang_alt, Hr, <- Hc, <- IH2. apply nullable_spec in En. split.
      * inversion 1; subst; auto.
      * intros [?|[_ ?]]; auto with palimpsest.
    + rewrite Hr, Hc. split; [auto|]. intros [?|[Hn _]]; [done|].
      apply nullable_spec in Hn. congruence.
  - rewrite lang_alt. split; inversion 1; subst;
      (apply LAltL; by apply IH1) || (apply LAltR; by apply IH2).
  - rewrite lang_cat. split.
    + inversion 1; subst. change (c :: a ++ b) with ((c :: a) ++ b).
      constructor; [by apply IH|done].
    + intros (a & b & -> & Ha & Hb)%lang_star_cons. constructor; [by apply IH|done].
Qed.

(** The matcher decides the denotation. *)
Lemma fullmatch_spec r s : fullmatch r s = true <-> lang r s.
Proof.
  unfold fullmatch. revert r; induction s as [|c s IH]; intros r; simpl.
  - apply nullable_spec.
  - by rewrite IH, deriv_spec.
Qed.

(** * Derived forms *)

Definition chr (c : Z) : re := RCls [(c, c)].
Fixpoint lit (s : pystr) : re := match s with [] => REps | c :: s => RCat (chr c) (lit s) end.
Definition opt (r : re) : re := RAlt REps r.
Definition plus (r : re) : re := RCat r (RStar r).
Fixpoint rep (n : nat) (r : re) : re := match n with O => REps | S n => RCat r (rep n r) end.
(** [r{0,n}] *)
Fixpoint upto (n : nat) (r : re) : re := match n with O => REps | S n => opt (RCat r (upto n r)) end.
(** [r{m,m+n}] *)
Definition between (m n : nat) (r : re) : re := RCat (rep m r) (upto n r).

Definition digit_re : re := RCls [(48, 57)].
Definition hex_re : re := RCls [(48, 57); (97, 102)].

Lemma lang_cat_inv r s a : lang (RCat r s) a <-> exists b c, a = b ++ c /\ lang r b /\ lang s c.
Proof. split; [inversion 1; subst; eauto|intros (b & c & -> & ? & ?); by constructor]. Qed.

Lemma lang_alt_inv r s a : lang (RAlt r s) a <-> lang r a \/ lang s a.
Proof. split; [inversion 1; auto|intros [?|?]; auto with palimpsest]. Qed.

Lemma lang_eps a : lang REps a <-> a = [].
Proof. split; [by inversion 1|intros ->; constructor]. Qed.

Lemma lang_cls l a : lang (RCls l) a <-> exists c, a = [c] /\ in_cls l c = true.
Proof. split; [inversion 1; subst; eauto|intros (c & -> & ?); by constructor]. Qed.

Lemma lang_chr c a : lang (chr c) a <-> a = [c].
Proof.
  unfold chr. rewrite lang_cls. unfold in_cls. simpl. split.
  - intros (c' & -> & H). f_equal. rewrite orb_false_r in H. bool_norm. lia.
  - intros ->. exists c. by rewrite !Z.leb_refl.
Qed.

Lemma lang_lit s a : lang (lit s) a <-> a = s.
Proof.
  revert a; induction s as [|c s IH]; intros a; simpl; [apply lang_eps|].
  rewrite lang_cat_inv. setoid_rewrite lang_chr. setoid_rewrite IH. split.
  - by intros (? & ? & -> & -> & ->).
  - intros ->. by exists [c], s.
Qed.

Lemma lang_rep_cls n l a :
  lang (rep n (RCls l)) a <-> length a = n /\ Forall (fun c => in_cls l c = true) a.
Proof.
  revert a; induction n as [|n IH]; intros a; simpl.
  - rewrite lang_eps. split; [intros ->; auto|]. intros [? _]. by apply nil_length_inv.
  - rewrite lang_cat_inv. setoid_rewrite lang_cls. setoid_rewrite IH. split.
    + intros (? & b & -> & (c & -> & Hc) & <- & Hb). simpl. auto.
    + destruct a as [|c a]; simpl; [by intros [? _]|]. intros [[= <-] Hf].
      inversion Hf; subst. exists [c], a. split; [done|]. split; [eauto|done].
Qed.

Lemma lang_upto_cls n l a :
  lang (upto n (RCls l)) a <-> (length a <= n)%nat /\ Forall (fun c => in_cls l c = true) a.
Proof.
  revert a; induction n as [|n IH]; intros a; simpl.
  - rewrite lang_eps. split; [intros ->; auto|]. intros [? _]. apply nil_length_inv. lia.
  - unfold opt. rewrite lang_alt_inv, lang_eps, lang_cat_inv. setoid_rewrite lang_cls.
    setoid_rewrite IH. split.
    + intros [->|(? & b & -> & (c & -> & Hc) & ? & Hb)]; simpl; split; auto; lia.
    + destruct a as [|c a]; [by left|]. intros [? Hf]. right.
      inversion Hf; subst. exists [c], a. split; [done|]. simpl in *. split; [eauto|]. split; [lia|done].
Qed.

Lemma lang_between_cls m n l a : lang (between m n (RCls l)) a <->
  (m <= length a <= m + n)%nat /\ Forall (fun c => in_cls l c = true) a.
Proof.
  unfold between. rewrite lang_cat_inv. setoid_rewrite lang_rep_cls. setoid_rewrite lang_upto_cls.
  split.
  - intros (b & c & -> & [? ?] & [? ?]). rewrite length_app. split; [lia|]. by apply Forall_app.
  - intros [Hl Hf]. exists (take m a), (drop m a). rewrite take_drop, length_take, length_drop.
    rewrite <- (take_drop m a) in Hf. apply Forall_app in Hf as [? ?].
    split; [done|]. split; split; auto; lia.
Qed.

Lemma lang_star_cls l a : lang (RStar (RCls l)) a <-> Forall (fun c => in_cls l c = true) a.
Proof.
  split.
  - induction a as [|c a IH]; [auto|].
    intros (b & d & -> & (? & [= <- ->] & ?)%lang_cls & ?)%lang_star_cons. simpl in *. auto.
  - induction 1 as [|c a Hc _ IH]; [constructor|].
    change (c :: a) with ([c] ++ a). constructor; [by constructor|done].
Qed.

Lemma lang_plus_cls l a :
  lang (plus (RCls l)) a <-> a <> [] /\ Forall (fun c => in_cls l c = true) a.
Proof.
  unfold plus. rewrite lang_cat_inv. setoid_rewrite lang_cls. setoid_rewrite lang_star_cls. split.
  - intros (? & b & -> & (c & -> & ?) & ?). simpl. auto.
  - intros [Hne Hf]. destruct Hf as [|c a ? ?]; [done|]. exists [c], a. split; [done|]. split; [eauto|done].
Qed.

Lemma in_digit c : in_cls [(48, 57)] c = true <-> 48 <= c <= 57.
Proof. unfold in_cls. simpl. rewrite orb_false_r, andb_true_iff, !Z.leb_le. done. Qed.

Lemma in_hex c : in_cls [(48, 57); (97, 102)] c = true <-> 48 <= c <= 57 \/ 97 <= c <= 102.
Proof. unfold in_cls. simpl. rewrite orb_false_r, orb_true_iff, !andb_true_iff, !Z.leb_le. done. Qed.

(** Hexadecimal text of a byte string. *)
Lemma hex_in_hex b : Forall is_byte b -> Forall (fun c => in_cls [(48, 57); (97, 102)] c = true) (hex b).
Proof.
  induction 1 as [|x b Hx _ IH]; [constructor|]. unfold is_byte in Hx.
  assert (forall n, 0 <= n < 16 -> in_cls [(48, 57); (97, 102)] (hex_digit n) = true) as Hd.
  { intros n Hn. apply in_hex. unfold hex_digit. destruct (Z.ltb_spec n 10); lia. }
  change (hex (x :: b)) with ([hex_digit (x / 16); hex_digit (x mod 16)] ++ hex b).
  apply Forall_app; split; [|done]. repeat constructor; apply Hd.
  - split; [apply Z.div_pos|apply Z.div_lt_upper_bound]; lia.
  - apply Z.mod_pos_bound; lia.
Qed.

Lemma fullmatch_hex n b : Forall is_byte b -> length b = n ->
  fullmatch (rep (2 * n) hex_re) (hex b) = true.
Proof.
  intros Hb <-. apply fullmatch_spec, lang_rep_cls. split; [apply length_hex|by apply hex_in_hex].
Qed.

(** * The code points of a match *)

(** Every class of [r] lies between two code points. *)
Fixpoint re_within (lo hi : Z) (r : re) : bool :=
  match r with
  | RVoid | REps => true
  | RCls l => forallb (fun ab => (lo <=? ab.1) && (ab.2 <=? hi)) l
  | RCat r s | RAlt r s => re_within lo hi r && re_within lo hi s
  | RStar r => re_within lo hi r
  end.

Lemma lang_within lo hi r a : lang r a -> re_within lo hi r = true -> Forall (fun c => lo <= c <= hi) a.
Proof.
  induction 1; simpl; intros Hw; bool_norm; try (apply Forall_app; split); auto.
  constructor; [|done]. rewrite forallb_forall in Hw. unfold in_cls in *.
  match goal with Hc : existsb _ _ = true |- _ => apply existsb_exists in Hc as (ab & Hin & Hc) end.
  specialize (Hw ab Hin). simpl in *. bool_norm. lia.
Qed.

Lemma fullmatch_within lo hi r a : re_within lo hi r = true -> fullmatch r a = true ->
  Forall (fun c => lo <= c <= hi) a.
Proof. intros Hw Hm%fullmatch_spec. by eapply lang_within. Qed.

(** A text matched by ASCII classes is text. *)
Lemma fullmatch_nonneg r a : re_within 0 127 r = true -> fullmatch r a = true -> Forall (Z.le 0) a.
Proof.
  intros Hw Hm. eapply Forall_impl; [by eapply fullmatch_within|]. simpl. lia.
Qed.

(** Every range of the expression lies in a range of [l]. *)
Fixpoint re_in (l : list (Z * Z)) (r : re) : bool :=
  match r with
  | RVoid | REps => true
  | RCls k => forallb (fun ab => existsb (fun cd => (cd.1 <=? ab.1) && (ab.2 <=? cd.2)) l) k
  | RCat r s | RAlt r s => re_in l r && re_in l s
  | RStar r => re_in l r
  end.

Lemma lang_in l r a : lang r a -> re_in l r = true -> Forall (fun c => in_cls l c = true) a.
Proof.
  induction 1 as [|k c Hc|r s a b _ IHa _ IHb|r s a _ IH|r s a _ IH|r|r a b _ IHa _ IHb]; cbn [re_in]; intros H; bool_norm;
    try (apply Forall_app; auto); auto.
  constructor; [|done]. unfold in_cls in *. apply existsb_exists in Hc as ([x y] & Hin & Hxy).
  rewrite forallb_forall in H. specialize (H _ Hin). apply existsb_exists in H as ([x' y'] & Hin' & H).
  apply existsb_exists. exists (x', y'). split; [done|]. cbn [fst snd] in *. bool_norm.
  rewrite andb_true_iff, !Z.leb_le. lia.
Qed.

(** A character outside the ranges does not occur. *)
Lemma lang_not_in l r a c : lang r a -> re_in l r = true -> in_cls l c = false -> c ∉ a.
Proof.
  intros Ha Hr Hc Hin. pose proof (lang_in _ _ _ Ha Hr) as H. rewrite Forall_forall in H.
  apply H in Hin. congruence.
Qed.
