(* ===== verification/PyText.v ===== *)
(** String methods of Python that read text: decimal digits of every script,
    [upper], [partition], [count], [int] and POSIX [normpath]. *)
From S2P Require Import Prelude Crypto PyStr Regex.

(** * Decimal digits *)

(** The zeros of the scripts of category Nd (Unicode 14, the database of
    CPython 3.11); each is followed by its nine other digits. *)
Definition decimal_zeros : list Z :=
  [48; 1632; 1776; 1984; 2406; 2534; 2662; 2790; 2918; 3046; 3174; 3302; 3430; 3558; 3664; 3792; 3872; 4160; 4240; 6112;
   6160; 6470; 6608; 6784; 6800; 6992; 7088; 7232; 7248; 42528; 43216; 43264; 43472; 43504; 43600; 44016; 65296; 66720;
   68912; 69734; 69872; 69942; 70096; 70384; 70736; 70864; 71248; 71360; 71472; 71904; 72016; 72784; 73040; 73120; 92768;
   92864; 93008; 120782; 120792; 120802; 120812; 120822; 123200; 123632; 125264; 130032].

(** [unicodedata.decimal(c)] *)
Definition decimal (c : Z) : option Z :=
  match List.find (fun z => (z <=? c) && (c <=? z + 9)) decimal_zeros with
  | Some z => Some (c - z)
  | None => None
  end.

Definition isdecimal (s : pystr) : bool :=
  negb (bool_decide (s = [])) && forallb (fun c => bool_decide (is_Some (decimal c))) s.

(** [int(s)] of a string of decimals: CPython refuses more than 4300 digits. *)
Definition int_value (s : pystr) : Z := fold_left (fun a c => 10 * a + default 0 (decimal c)) s 0.
Definition py_int (s : pystr) : result Z :=
  if 4300 <? zlen s then Err "ValueError" else Ok (int_value s).

(** * [upper] *)

(** The characters whose upper case has an ASCII letter; a character whose upper
    case has none is kept, which no comparison with ASCII text distinguishes. *)
Definition upper_char (c : Z) : pystr :=
  if (97 <=? c) && (c <=? 122) then [c - 32]
  else match List.find (fun kv => kv.1 =? c)
         [(223, [83; 83]); (305, [73]); (329, [700; 78]); (383, [83]); (496, [74; 780]); (7830, [72; 817]);
          (7831, [84; 776]); (7832, [87; 778]); (7833, [89; 778]); (7834, [65; 702]); (64256, [70; 70]); (64257, [70; 73]);
          (64258, [70; 76]); (64259, [70; 70; 73]); (64260, [70; 70; 76]); (64261, [83; 84]); (64262, [83; 84])] with
       | Some kv => kv.2
       | None => [c]
       end.
Definition upper (s : pystr) : pystr := flat_map upper_char s.

(** * [partition] and [count] on one character *)

(** [s.partition(c)]: the text before, whether the separator is there, the text after. *)
Fixpoint partition (c : Z) (s : pystr) : pystr * bool * pystr :=
  match s with
  | [] => ([], false, [])
  | x :: s =>
      if x =? c then ([], true, s)
      else let ' (a, found, b) := partition c s in (x :: a, found, b)
  end.

Definition count (c : Z) (s : pystr) : Z := zlen (List.filter (Z.eqb c) s).

(** * [posixpath.normpath] *)

Definition dotdot : pystr := [46; 46].

(** The components kept by the loop, in reverse. *)
Definition norm_step (rooted : bool) (kept : list pystr) (comp : pystr) : list pystr :=
  if bool_decide (comp = []) || bool_decide (comp = [46]) then kept
  else if negb (bool_decide (comp = dotdot)) || (negb rooted && bool_decide (kept = [])) ||
          bool_decide (head kept = Some dotdot)
       then comp :: kept
       else match kept with [] => [] | _ :: kept => kept end.

Definition initial_slashes (path : pystr) : nat :=
  if startswith [47; 47] path && negb (startswith [47; 47; 47] path) then 2
  else if startswith [47] path then 1 else 0.

Definition normpath (path : pystr) : pystr :=
  if bool_decide (path = []) then [46]
  else
    let slashes := initial_slashes path in
    let comps := rev (fold_left (norm_step (negb (slashes =? 0)%nat)) (split 47 path) []) in
    let norm := replicate slashes 47 ++ join [47] comps in
    if bool_decide (norm = []) then [46] else norm.

(** * Facts *)

Lemma partition_found c s a b : partition c s = (a, true, b) <-> s = a ++ c :: b /\ c ∉ a.
Proof.
  revert a b; induction s as [|x s IH]; intros a b; cbn [partition].
  - split; [done|]. intros [E _]. by destruct a.
  - destruct (Z.eqb_spec x c) as [->|Hx].
    + split.
      * intros E. simplify_eq. split; [done|apply not_elem_of_nil].
      * intros [E Hn]. destruct a as [|y a]; cbn [app] in E; simplify_eq; [done|]. exfalso. apply Hn. by left.
    + destruct (partition c s) as [[a' f] b'] eqn:Ep. split.
      * intros E. simplify_eq. destruct (proj1 (IH a' b) eq_refl) as [-> Hn]. split; [done|].
        rewrite not_elem_of_cons. auto.
      * intros [E Hn]. destruct a as [|y a]; cbn [app] in E; simplify_eq. rewrite not_elem_of_cons in Hn.
        assert ((a', f, b') = (a, true, b)) as E by (apply IH; by destruct Hn). by simplify_eq.
Qed.

Lemma partition_missing c s : c ∉ s -> partition c s = (s, false, []).
Proof.
  induction s as [|x s IH]; [done|]. rewrite not_elem_of_cons. intros [Hx Hn]. cbn [partition].
  destruct (Z.eqb_spec x c); [congruence|]. by rewrite IH.
Qed.

Lemma decimal_digit c : is_digit c = true -> decimal c = Some (c - 48).
Proof.
  unfold is_digit. intros H. bool_norm. unfold decimal. cbn [decimal_zeros List.find].
  by rewrite (proj2 (andb_true_iff (48 <=? c) _)) by (rewrite !Z.leb_le; lia).
Qed.

Lemma int_value_digits s : Forall (fun c => is_digit c = true) s -> int_value s = digits_value s.
Proof.
  intros H. unfold int_value, digits_value.
  enough (forall a, fold_left (fun a c => 10 * a + default 0 (decimal c)) s a = fold_left (fun a c => 10 * a + (c - 48)) s a) as E by apply E.
  induction H as [|c s Hc _ IH]; intros a; [done|]. cbn [fold_left]. by rewrite (decimal_digit c) by done.
Qed.

Lemma isdecimal_digits s : s <> [] -> Forall (fun c => is_digit c = true) s -> isdecimal s = true.
Proof.
  intros Hs Hf. unfold isdecimal. rewrite bool_decide_eq_false_2 by done. apply forallb_forall. intros c Hc.
  apply bool_decide_eq_true. rewrite Forall_forall in Hf. rewrite decimal_digit by by apply Hf, list_elem_of_In. by eexists.
Qed.

Lemma isdecimal_str n : 0 <= n -> isdecimal (str_of_int n) = true.
Proof.
  intros Hn. rewrite str_of_int_nonneg by done. apply isdecimal_digits; [by apply digits_nonempty|by apply digits_digits].
Qed.

Lemma int_value_str n : 0 <= n -> int_value (str_of_int n) = n.
Proof.
  intros Hn. rewrite str_of_int_nonneg by done. rewrite int_value_digits by by apply digits_digits. by apply digits_value_digits.
Qed.

(** ** Normal paths *)

Definition plain_component (c : pystr) : Prop := c <> [] /\ c <> [46] /\ c <> dotdot /\ 47 ∉ c.

(** An absolute path is normal when it is the root or its components are names. *)
Definition normal_path (p : pystr) : Prop := exists comps, Forall plain_component comps /\ p = 47 :: join [47] comps.

Lemma norm_fold_rooted l : Forall (fun w => 47 ∉ w) l -> forall kept, Forall plain_component kept ->
  Forall plain_component (fold_left (norm_step true) l kept).
Proof.
  induction 1 as [|w l Hw _ IH]; intros kept Hk; cbn [fold_left]; [done|]. apply IH. unfold norm_step.
  destruct (bool_decide (w = []) || _) eqn:E1; [done|]. apply orb_false_iff in E1 as [E1 E2]. bool_norm. cbn [negb andb].
  destruct (_ || _) eqn:E3; [|destruct Hk; [constructor|done]].
  apply orb_true_iff in E3 as [E3|E3].
  - apply orb_true_iff in E3 as [E3|E3]; [|done]. bool_norm. by constructor.
  - bool_norm. destruct Hk as [|k kept (? & ? & Hk & ?) ?]; [done|]. cbn [head] in E3. congruence.
Qed.

Lemma norm_fold_plain l : Forall plain_component l -> forall kept, fold_left (norm_step true) l kept = rev l ++ kept.
Proof.
  induction 1 as [|w l (H1 & H2 & H3 & H4) _ IH]; intros kept; [done|]. cbn [fold_left rev]. rewrite <- app_assoc.
  unfold norm_step at 2. rewrite !bool_decide_eq_false_2 by done. cbn [orb negb]. apply IH.
Qed.

Lemma normpath_one s : startswith [47] s = true -> startswith [47; 47] (normpath s) = false -> normal_path (normpath s).
Proof.
  intros Hs. unfold normpath. destruct (bool_decide (s = [])) eqn:E; [bool_norm; by subst s|].
  unfold initial_slashes. rewrite Hs. destruct (startswith [47; 47] s && _).
  - cbn [replicate app Nat.eqb negb]. rewrite bool_decide_eq_false_2 by done. cbn [startswith]. done.
  - cbn [replicate app Nat.eqb negb]. rewrite bool_decide_eq_false_2 by done. intros _. eexists. split; [|reflexivity].
    apply Forall_rev, norm_fold_rooted; [apply split_free_parts|constructor].
Qed.

Lemma normpath_normal p : normal_path p -> normpath p = p /\ startswith [47] p = true /\ startswith [47; 47] p = false.
Proof.
  intros (comps & Hc & ->).
  assert (startswith [47; 47] (47 :: join [47] comps) = false) as H2.
  { cbn [startswith]. rewrite Z.eqb_refl. cbn [andb]. destruct Hc as [|w l (Hw & _ & _ & Hn) _]; [done|].
    destruct w as [|x w]; [done|]. rewrite not_elem_of_cons in Hn. destruct Hn as [Hn _].
    destruct l; cbn [join app startswith]; by destruct (Z.eqb_spec 47 x). }
  split; [|done]. unfold normpath. rewrite bool_decide_eq_false_2 by done. unfold initial_slashes. rewrite H2. cbn [andb].
  change (startswith [47] (47 :: join [47] comps)) with true. cbn [Nat.eqb negb replicate app].
  change (47 :: join [47] comps) with ([] ++ 47 :: join [47] comps). rewrite split_app by apply not_elem_of_nil.
  cbn [fold_left]. change (norm_step true [] []) with (@nil pystr). cbn [app].
  destruct (decide (comps = [])) as [->|Hne]; [done|].
  rewrite split_join; [|done|eapply Forall_impl; [exact Hc|]; by intros w (? & ? & ? & ?)].
  rewrite norm_fold_plain by done. rewrite app_nil_r, rev_involutive. by rewrite bool_decide_eq_false_2.
Qed.

(** ** Substrings *)

Lemma contains_spec needle hay : contains needle hay = true <-> exists a b, hay = a ++ needle ++ b.
Proof.
  induction hay as [|x hay IH].
  - cbn [contains]. rewrite orb_true_iff, startswith_spec. split.
    + intros [[t E]|?]; [|done]. by exists [], t.
    + intros (a & b & E). left. destruct a; [by exists b|done].
  - cbn [contains]. rewrite orb_true_iff, startswith_spec, IH. split.
    + intros [[t E]|(a & b & ->)]; [by exists [], t|by exists (x :: a), b].
    + intros ([|y a] & b & E); [left; by exists b|]. right. cbn [app] in E. exists a, b. congruence.
Qed.

Lemma split_ne c s : split c s <> [].
Proof. destruct s as [|x s]; cbn [split]; [done|]. destruct (_ =? _); [done|]. by destruct (split c s). Qed.

Lemma split_app_gen c a s : split c (a ++ c :: s) = split c a ++ split c s.
Proof.
  induction a as [|x a IH]; cbn [app split]; [by rewrite Z.eqb_refl|]. destruct (x =? c); [by rewrite IH|].
  rewrite IH. destruct (split c a) as [|w ws] eqn:E; [by apply split_ne in E|done].
Qed.

Lemma normal_path_no_dslash p : normal_path p -> contains [47; 47] p = false.
Proof.
  intros (comps & Hc & ->). destruct (contains _ _) eqn:E; [|done]. exfalso.
  apply contains_spec in E as (a & b & E). apply (f_equal (split 47)) in E.
  change (47 :: join [47] comps) with ([] ++ 47 :: join [47] comps) in E. rewrite split_app in E by apply not_elem_of_nil.
  change (a ++ [47; 47] ++ b) with (a ++ 47 :: [] ++ 47 :: b) in E. rewrite split_app_gen in E.
  rewrite split_app in E by apply not_elem_of_nil.
  destruct (decide (comps = [])) as [->|Hne].
  - cbn [join] in E. change (split 47 []) with [@nil Z] in E. apply (f_equal length) in E. rewrite length_app in E. cbn [length] in E.
    destruct (split 47 a) eqn:Ea; [by apply split_ne in Ea|]. destruct (split 47 b) eqn:Eb; [by apply split_ne in Eb|].
    cbn [length] in E. lia.
  - rewrite split_join in E; [|done|eapply Forall_impl; [exact Hc|]; by intros w (? & ? & ? & ?)].
    destruct (split 47 a) as [|w ws] eqn:Ea; [by apply split_ne in Ea|]. cbn [app] in E.
    assert (comps = ws ++ [] :: split 47 b) as -> by congruence. rewrite Forall_app, Forall_cons in Hc.
    destruct Hc as (_ & (Hx & _) & _). by apply Hx.
Qed.

(** * White space *)

(** [str.isspace] of one character; [str.lstrip], [str.rstrip], [str.strip] *)
Definition is_space (c : Z) : bool :=
  in_cls [(9, 13); (28, 32); (133, 133); (160, 160); (5760, 5760); (8192, 8202); (8232, 8233); (8239, 8239); (8287, 8287); (12288, 12288)] c.
Fixpoint lstrip (s : pystr) : pystr := match s with c :: r => if is_space c then lstrip r else s | [] => [] end.
Definition rstrip (s : pystr) : pystr := rev (lstrip (rev s)).
Definition strip (s : pystr) : pystr := rev (lstrip (rev (lstrip s))).

(** [s.lstrip(chars)] and [s.rstrip(chars)] *)
Fixpoint lstrip_of (chars : pystr) (s : pystr) : pystr :=
  match s with c :: r => if bool_decide (c ∈ chars) then lstrip_of chars r else s | [] => [] end.
Definition rstrip_of (chars s : pystr) : pystr := rev (lstrip_of chars (rev s)).
