(* ===== verification/PyVal.v ===== *)
(** The dynamic values the source passes between its layers ([Any]): the
    JSON-shaped values that [json] reads and writes and the mappings that
    [from_dict] and [to_dict] exchange. *)
From S2P Require Import Prelude Crypto PyStr.

(** A finite float is the decimal [(-1)^neg * mant * 10^expo] of its shortest
    representation: [mant] is zero or has no trailing zero. *)
Inductive pyfloat : Type :=
| FNaN
| FInf (neg : bool)
| FDec (neg : bool) (mant expo : Z).
#[export] Instance pyfloat_eq_dec : EqDecision pyfloat.
Proof. solve_decision. Defined.

Inductive pyval : Type :=
| VNone
| VBool (b : bool)
| VInt (z : Z)
| VFloat (f : pyfloat)
| VStr (s : pystr)
| VList (l : list pyval)
| VTuple (l : list pyval)
| VDict (d : list (pystr * pyval)).

(** Induction through the nested lists. *)
Section pyval_ind'.
Variable P : pyval -> Prop.
Hypothesis HNone : P VNone.
Hypothesis HBool : forall b, P (VBool b).
Hypothesis HInt : forall z, P (VInt z).
Hypothesis HFloat : forall f, P (VFloat f).
Hypothesis HStr : forall s, P (VStr s).
Hypothesis HList : forall l, Forall P l -> P (VList l).
Hypothesis HTuple : forall l, Forall P l -> P (VTuple l).
Hypothesis HDict : forall d, Forall (fun kv => P kv.2) d -> P (VDict d).

Fixpoint pyval_ind' (v : pyval) : P v :=
  match v with
  | VNone => HNone
  | VBool b => HBool b
  | VInt z => HInt z
  | VFloat f => HFloat f
  | VStr s => HStr s
  | VList l => HList l ((fix go l := match l return Forall P l with
                         | [] => List.Forall_nil P
                         | v :: l => List.Forall_cons P v l (pyval_ind' v) (go l)
                         end) l)
  | VTuple l => HTuple l ((fix go l := match l return Forall P l with
                         | [] => List.Forall_nil P
                         | v :: l => List.Forall_cons P v l (pyval_ind' v) (go l)
                         end) l)
  | VDict d => HDict d ((fix go d := match d return Forall (fun kv => P kv.2) d with
                         | [] => List.Forall_nil _
                         | kv :: d => List.Forall_cons (fun kv => P kv.2) kv d (pyval_ind' kv.2) (go d)
                         end) d)
  end.
End pyval_ind'.

(** [v is None] *)
Definition is_none (v : pyval) : bool := match v with VNone => true | _ => false end.

(** * Mappings *)

Abbreviation pydict := (list (pystr * pyval)) (only parsing).

(** [d[k]], [d.get(k)] *)
Fixpoint dict_get (d : pydict) (k : pystr) : option pyval :=
  match d with
  | [] => None
  | (k', v) :: d => if decide (k = k') then Some v else dict_get d k
  end.

Definition dict_keys (d : pydict) : list pystr := map fst d.

(** [d.get(k)] where a missing key reads as [None] *)
Definition dict_get_none (d : pydict) (k : pystr) : pyval :=
  match dict_get d k with Some v => v | None => VNone end.

(** [set(d) == fields], for a [fields] literal without repetition *)
Definition has_exactly (fields : list pystr) (d : pydict) : bool :=
  forallb (fun k => bool_decide (k ∈ fields)) (dict_keys d)
  && forallb (fun k => bool_decide (k ∈ dict_keys d)) fields.

Lemma has_exactly_spec fields d : has_exactly fields d = true <->
  forall k, k ∈ dict_keys d <-> k ∈ fields.
Proof.
  unfold has_exactly. rewrite andb_true_iff, !forallb_forall.
  setoid_rewrite bool_decide_eq_true. setoid_rewrite <- list_elem_of_In. naive_solver.
Qed.

Lemma dict_get_elem d k v : NoDup (dict_keys d) -> (k, v) ∈ d -> dict_get d k = Some v.
Proof.
  induction d as [|[k' v'] d IH]; intros Hn Hin; [by apply elem_of_nil in Hin|].
  simpl in *. apply NoDup_cons in Hn as [Hk Hn].
  apply elem_of_cons in Hin as [[= <- <-]|Hin]; [by rewrite decide_True|].
  destruct (decide (k = k')) as [->|]; [|by apply IH].
  destruct Hk. apply list_elem_of_fmap. by exists (k', v).
Qed.

Lemma dict_get_Some d k v : dict_get d k = Some v -> (k, v) ∈ d.
Proof.
  induction d as [|[k' v'] d IH]; simpl; [done|].
  destruct (decide (k = k')) as [->|]; intros H; [simplify_eq; by left|right; auto].
Qed.

Lemma dict_get_None d k : dict_get d k = None <-> k ∉ dict_keys d.
Proof.
  induction d as [|[k' v'] d IH]; simpl; [split; [intros _; apply not_elem_of_nil|done]|].
  rewrite not_elem_of_cons. destruct (decide (k = k')) as [->|]; naive_solver.
Qed.

Lemma dict_get_perm d e k : NoDup (dict_keys d) -> d ≡ₚ e -> dict_get d k = dict_get e k.
Proof.
  intros Hn Hp. assert (NoDup (dict_keys e)) as Hn'.
  { unfold dict_keys. by rewrite <- Hp. }
  destruct (dict_get e k) as [v|] eqn:E.
  - apply dict_get_Some in E. apply dict_get_elem; [done|]. by rewrite Hp.
  - apply dict_get_None. apply dict_get_None in E. unfold dict_keys in *. by rewrite Hp.
Qed.

(** ** Mappings to one type *)

(** [d.get(k)] and [d[k] = v] on the items of a dict, in insertion order *)
Fixpoint item_get {A} (l : list (pystr * A)) (k : pystr) : option A :=
  match l with [] => None | (k', v) :: l => if bool_decide (k = k') then Some v else item_get l k end.
Fixpoint item_set {A} (l : list (pystr * A)) (k : pystr) (v : A) : list (pystr * A) :=
  match l with
  | [] => [(k, v)]
  | (k', v') :: l => if bool_decide (k = k') then (k', v) :: l else (k', v') :: item_set l k v
  end.

Section items.
Context {A : Type}.
Implicit Types l : list (pystr * A).

Lemma item_get_set l k v : item_get (item_set l k v) k = Some v.
Proof.
  induction l as [|[k' v'] l IH]; cbn [item_set item_get]; [by rewrite bool_decide_eq_true_2|].
  destruct (bool_decide (k = k')) eqn:G; cbn [item_get]; rewrite G; done.
Qed.

Lemma item_get_set_ne l k k' v : k <> k' -> item_get (item_set l k v) k' = item_get l k'.
Proof.
  intros Hne. induction l as [|[x w] l IH]; cbn [item_set item_get]; [by rewrite bool_decide_eq_false_2|].
  destruct (bool_decide (k = x)) eqn:G; cbn [item_get]; bool_norm; [subst x; by rewrite !bool_decide_eq_false_2 by done|by rewrite IH].
Qed.

Lemma item_get_elem l k v : NoDup (map fst l) -> (k, v) ∈ l -> item_get l k = Some v.
Proof.
  induction l as [|[x w] l IH]; cbn [map fst item_get]; intros Hn Hin; [by apply elem_of_nil in Hin|]. apply NoDup_cons in Hn as [Hx Hn].
  apply elem_of_cons in Hin as [E|Hin]; [apply pair_equal_spec in E as [-> ->]; by rewrite bool_decide_eq_true_2|].
  rewrite bool_decide_eq_false_2; [by apply IH|]. intros ->. apply Hx, list_elem_of_fmap. by exists (x, v).
Qed.

Lemma item_get_Some l k v : item_get l k = Some v -> (k, v) ∈ l.
Proof.
  induction l as [|[x w] l IH]; cbn [item_get]; [done|]. destruct (bool_decide (k = x)) eqn:G; bool_norm; [intros E; assert (v = w) as -> by congruence; subst x; by left|].
  intros ?. right. by apply IH.
Qed.

Lemma item_get_None l k : item_get l k = None <-> k ∉ map fst l.
Proof.
  induction l as [|[x w] l IH]; cbn [item_get map fst]; [split; [intros _; apply not_elem_of_nil|done]|].
  rewrite not_elem_of_cons. destruct (bool_decide (k = x)) eqn:G; bool_norm; naive_solver.
Qed.

Lemma item_set_keys l k v : map fst (item_set l k v) = if bool_decide (k ∈ map fst l) then map fst l else map fst l ++ [k].
Proof.
  induction l as [|[k' v'] l IH]; [done|]. cbn [item_set map fst]. destruct (bool_decide (k = k')) eqn:G; bool_norm.
  - subst k'. rewrite bool_decide_eq_true_2 by by left. done.
  - cbn [map fst]. rewrite IH. destruct (bool_decide (k ∈ map fst l)) eqn:G2; bool_norm.
    + rewrite bool_decide_eq_true_2 by by right. done.
    + rewrite bool_decide_eq_false_2 by (by apply not_elem_of_cons). done.
Qed.

Lemma item_set_NoDup l k v : NoDup (map fst l) -> NoDup (map fst (item_set l k v)).
Proof.
  intros Hn. rewrite item_set_keys. destruct (bool_decide (k ∈ map fst l)) eqn:G; bool_norm; [done|]. apply NoDup_app. split; [done|].
  split; [intros x Hx ->%list_elem_of_singleton; done|apply NoDup_singleton].
Qed.
End items.

(** * Canonical form: keys sorted, tuples read back as lists *)

Definition key_le (a b : pystr * pyval) : Prop := str_le a.1 b.1.
#[export] Instance key_le_dec : RelDecision key_le.
Proof. intros a b. unfold key_le. apply _. Defined.
#[export] Instance key_le_total : Total key_le.
Proof. intros a b. apply (total str_le). Qed.
#[export] Instance key_le_trans : Transitive key_le.
Proof. intros a b c. apply (transitivity (R := str_le)). Qed.

Definition sort_items (d : pydict) : pydict := merge_sort key_le d.

Lemma sort_items_perm d : sort_items d ≡ₚ d.
Proof. apply merge_sort_Permutation. Qed.

Fixpoint canon (v : pyval) : pyval :=
  match v with
  | VList l | VTuple l => VList (map canon l)
  | VDict d => VDict (sort_items (map (fun kv => (kv.1, canon kv.2)) d))
  | v => v
  end.

(** Well-formed values: a dict has each key once (true of every Python dict). *)
Inductive wf_val : pyval -> Prop :=
| WfNone : wf_val VNone
| WfBool b : wf_val (VBool b)
| WfInt z : wf_val (VInt z)
| WfFloat f : wf_val (VFloat f)
| WfStr s : wf_val (VStr s)
| WfList l : Forall wf_val l -> wf_val (VList l)
| WfTuple l : Forall wf_val l -> wf_val (VTuple l)
| WfDict d : NoDup (dict_keys d) -> Forall (fun kv => wf_val kv.2) d -> wf_val (VDict d).

Definition canon_items (d : pydict) : pydict := map (fun kv => (kv.1, canon kv.2)) d.

Lemma dict_keys_canon_items d : dict_keys (canon_items d) = dict_keys d.
Proof. unfold dict_keys, canon_items. rewrite map_map. done. Qed.

Lemma dict_get_canon_items d k : dict_get (canon_items d) k = canon <$> dict_get d k.
Proof.
  induction d as [|[k' v] d IH]; simpl; [done|]. destruct (decide (k = k')); [done|exact IH].
Qed.

(** Reading a canonicalised dict is reading the dict. *)
Lemma dict_get_canon d k : NoDup (dict_keys d) ->
  dict_get (sort_items (canon_items d)) k = canon <$> dict_get d k.
Proof.
  intros Hn. rewrite <- dict_get_canon_items. symmetry. apply dict_get_perm.
  - by rewrite dict_keys_canon_items.
  - symmetry. apply sort_items_perm.
Qed.

Lemma has_exactly_canon fields d :
  has_exactly fields (sort_items (canon_items d)) = has_exactly fields d.
Proof.
  apply eq_true_iff_eq. rewrite !has_exactly_spec.
  assert (forall k, k ∈ dict_keys (sort_items (canon_items d)) <-> k ∈ dict_keys d) as Hk.
  { intros k. rewrite <- (dict_keys_canon_items d). unfold dict_keys. by rewrite sort_items_perm. }
  by setoid_rewrite Hk.
Qed.

(** * Python's [==] *)

Definition float_eq_int (f : pyfloat) (z : Z) : bool :=
  match f with
  | FDec neg m e =>
      let m := if neg then - m else m in
      if 0 <=? e then m * 10 ^ e =? z else m =? z * 10 ^ (- e)
  | _ => false
  end.

Definition float_eq (f g : pyfloat) : bool :=
  match f, g with
  | FNaN, _ | _, FNaN => false
  | FDec _ 0 _, FDec _ 0 _ => true
  | _, _ => bool_decide (f = g)
  end.

Definition z_of_bool (b : bool) : Z := if b then 1 else 0.

Fixpoint py_eqb (v w : pyval) : bool :=
  match v, w with
  | VNone, VNone => true
  | VBool a, VBool b => Bool.eqb a b
  | VBool a, VInt b => z_of_bool a =? b
  | VInt a, VBool b => a =? z_of_bool b
  | VInt a, VInt b => a =? b
  | VFloat f, VInt z | VInt z, VFloat f => float_eq_int f z
  | VFloat f, VBool b | VBool b, VFloat f => float_eq_int f (z_of_bool b)
  | VFloat f, VFloat g => float_eq f g
  | VStr s, VStr t => bool_decide (s = t)
  | VList l, VList k | VTuple l, VTuple k =>
      (fix go l k := match l, k with
       | [], [] => true
       | v :: l, w :: k => py_eqb v w && go l k
       | _, _ => false
       end) l k
  | VDict d, VDict e =>
      (length d =? length e)%nat &&
      (fix go d := match d with
       | [] => true
       | (k, v) :: d => match dict_get e k with Some w => py_eqb v w | None => false end && go d
       end) d
  | _, _ => false
  end.

Fixpoint no_nan (v : pyval) : bool :=
  match v with
  | VFloat FNaN => false
  | VList l | VTuple l => forallb no_nan l
  | VDict d => forallb (fun kv => no_nan kv.2) d
  | _ => true
  end.

Lemma py_eqb_refl v : wf_val v -> no_nan v = true -> py_eqb v v = true.
Proof.
  induction v as [|b|z|f|s|l IH|l IH|d IH] using pyval_ind'; intros Hwf Hn; simpl in *; try done.
  - apply Bool.eqb_reflx.
  - apply Z.eqb_refl.
  - destruct f as [|neg|neg [|m|m] e]; try done; simpl; by rewrite bool_decide_eq_true_2.
  - by apply bool_decide_eq_true_2.
  - inversion Hwf as [| | | | |? Hf| |]; subst. clear Hwf.
    induction IH as [|v l Hv _ IH]; [done|]. inversion Hf; subst. simpl in Hn. bool_norm.
    rewrite Hv by done. by apply IH.
  - inversion Hwf as [| | | | | |? Hf|]; subst. clear Hwf.
    induction IH as [|v l Hv _ IH]; [done|]. inversion Hf; subst. simpl in Hn. bool_norm.
    rewrite Hv by done. by apply IH.
  - inversion Hwf as [| | | | | | |? Hk Hf]; subst. clear Hwf.
    rewrite Nat.eqb_refl. simpl.
    match goal with |- ?g d = true =>
      enough (forall e, (forall kv, kv ∈ e -> kv ∈ d) -> g e = true) as Hg by (apply Hg; auto)
    end.
    induction e as [|[k v] e IHe]; intros Hsub; [done|].
    assert ((k, v) ∈ d) as Hin by (apply Hsub; by left).
    rewrite (dict_get_elem _ _ _ Hk Hin).
    rewrite Forall_forall in IH, Hf. rewrite forallb_forall in Hn.
    assert (py_eqb v v = true) as ->.
    { apply (IH (k, v) Hin); [by apply (Hf (k, v))|apply (Hn (k, v)); by apply list_elem_of_In]. }
    apply IHe. intros kv Hkv. apply Hsub. by right.
Qed.

(** * Reading validated mappings *)

Notation "d .[ k ]" := (dict_get_none d (u k)) (at level 1, k at level 9, format "d .[ k ]") : py_scope.

Lemma dict_get_none_canon d k : NoDup (dict_keys d) ->
  dict_get_none (sort_items (canon_items d)) k = canon (dict_get_none d k).
Proof. intros Hn. unfold dict_get_none. rewrite dict_get_canon by done. by destruct (dict_get d k). Qed.

(** [isinstance(value, Mapping) and set(value) == fields] as the helpers
    [_exact] and [_exact_object] check it. *)
Definition exact (value : pyval) (fields : list string) (error : string) : result (list (pystr * pyval)) :=
  match value with
  | VDict d => if has_exactly (map u fields) d then Ok d else Err error
  | _ => Err error
  end.

Lemma exact_Ok v fields e d : exact v fields e = Ok d <->
  v = VDict d /\ has_exactly (map u fields) d = true.
Proof.
  destruct v as [| | | | | | |d']; simpl; try (split; [done|by intros [? _]]).
  destruct (has_exactly (map u fields) d') eqn:E; split.
  - by intros ->%(inj Ok).
  - by intros [[= ->] _].
  - done.
  - intros [[= ->] ?]. congruence.
Qed.

(** Distinct keys of a literal dict are checked by evaluation. *)
Lemma NoDup_decide {A} `{EqDecision A} (l : list A) : bool_decide (NoDup l) = true -> NoDup l.
Proof. apply bool_decide_eq_true. Qed.

(** [exact] on the canonical form of a dict literal. *)
Lemma exact_canon d fields e : has_exactly (map u fields) d = true ->
  exact (canon (VDict d)) fields e = Ok (sort_items (canon_items d)).
Proof. intros H. cbn [canon exact]. fold (canon_items d). by rewrite has_exactly_canon, H. Qed.

Lemma exact_VDict d fields e : has_exactly (map u fields) d = true -> exact (VDict d) fields e = Ok d.
Proof. intros H. cbn [exact]. by rewrite H. Qed.

(** Reading a literal key of a literal mapping. *)
Lemma dict_get_none_u a b v d :
  dict_get_none ((u a, v) :: d) (u b) = if String.eqb a b then v else dict_get_none d (u b).
Proof.
  unfold dict_get_none. cbn [dict_get]. destruct (String.eqb_spec a b) as [->|Hne].
  - by rewrite decide_True.
  - rewrite decide_False; [done|]. intros E. by apply u_inj in E.
Qed.

(** Evaluate [canon (VDict literal)] read by [exact] and [.[key]]. *)
Ltac read_dict :=
  repeat (first [rewrite exact_canon by reflexivity | rewrite exact_VDict by reflexivity];
          cbn [result_bind]);
  repeat (rewrite dict_get_none_canon by (apply NoDup_decide; reflexivity));
  repeat (rewrite dict_get_none_u; cbn [String.eqb Ascii.eqb Bool.eqb]).
