(* ===== verification/Utf8.v ===== *)
(** [str.encode("utf-8")] and the strict [bytes.decode("utf-8")]. *)
From S2P Require Import Prelude Crypto PyStr.

Definition is_surrogate (c : Z) : bool := (55296 <=? c) && (c <=? 57343).

(** A code point is encoded unless it is a surrogate. *)
Definition utf8_char (c : Z) : option bytes :=
  if (c <? 0) || (1114111 <? c) || is_surrogate c then None
  else if c <? 128 then Some [c]
  else if c <? 2048 then Some [192 + c / 64; 128 + c mod 64]
  else if c <? 65536 then Some [224 + c / 4096; 128 + c / 64 mod 64; 128 + c mod 64]
  else Some [240 + c / 262144; 128 + c / 4096 mod 64; 128 + c / 64 mod 64; 128 + c mod 64].

Fixpoint utf8_encode (s : pystr) : option bytes :=
  match s with
  | [] => Some []
  | c :: s =>
      match utf8_char c, utf8_encode s with
      | Some b, Some r => Some (b ++ r)
      | _, _ => None
      end
  end.

Definition is_cont (b : Z) : bool := (128 <=? b) && (b <=? 191).

Fixpoint utf8_decode (b : bytes) : option pystr :=
  match b with
  | [] => Some []
  | x :: b =>
      if x <? 128 then cons x <$> utf8_decode b
      else if (194 <=? x) && (x <=? 223) then
        match b with
        | y :: b => if is_cont y then cons ((x - 192) * 64 + (y - 128)) <$> utf8_decode b else None
        | _ => None
        end
      else if (224 <=? x) && (x <=? 239) then
        match b with
        | y :: z :: b =>
            let c := (x - 224) * 4096 + (y - 128) * 64 + (z - 128) in
            if is_cont y && is_cont z && (2048 <=? c) && negb (is_surrogate c)
            then cons c <$> utf8_decode b else None
        | _ => None
        end
      else if (240 <=? x) && (x <=? 244) then
        match b with
        | y :: z :: w :: b =>
            let c := (x - 240) * 262144 + (y - 128) * 4096 + (z - 128) * 64 + (w - 128) in
            if is_cont y && is_cont z && is_cont w && (65536 <=? c) && (c <=? 1114111)
            then cons c <$> utf8_decode b else None
        | _ => None
        end
      else None
  end.

Ltac divmod := Z.div_mod_to_equations; lia.

(** Decide the comparisons of a goal by arithmetic. *)
Ltac decide_cmp :=
  repeat match goal with
  | |- context [?a <=? ?b] =>
      first [ replace (a <=? b) with true by (symmetry; apply Z.leb_le; divmod)
            | replace (a <=? b) with false by (symmetry; apply Z.leb_gt; divmod) ]
  | |- context [?a <? ?b] =>
      first [ replace (a <? b) with true by (symmetry; apply Z.ltb_lt; divmod)
            | replace (a <? b) with false by (symmetry; apply Z.ltb_ge; divmod) ]
  end.

Lemma utf8_decode_char c b r : utf8_char c = Some b ->
  utf8_decode (b ++ r) = cons c <$> utf8_decode r.
Proof.
  unfold utf8_char, is_surrogate.
  destruct (Z.ltb_spec c 0); [done|]. destruct (Z.ltb_spec 1114111 c); [done|]. simpl.
  destruct ((55296 <=? c) && (c <=? 57343)) eqn:Hs; [done|].
  assert (c < 55296 \/ 57343 < c) as Hs'.
  { apply andb_false_iff in Hs as [?|?]; bool_norm; lia. }
  clear Hs.
  destruct (Z.ltb_spec c 128); [|destruct (Z.ltb_spec c 2048); [|destruct (Z.ltb_spec c 65536)]];
    intros [= <-]; cbn [app utf8_decode].
  - by decide_cmp.
  - unfold is_cont. decide_cmp. cbn [andb]. f_equal. f_equal. divmod.
  - unfold is_cont, is_surrogate. decide_cmp. cbn [andb].
    replace ((224 + c / 4096 - 224) * 4096 + (128 + c / 64 mod 64 - 128) * 64 + (128 + c mod 64 - 128))
      with c by divmod.
    decide_cmp. cbn [andb]. destruct ((55296 <=? c) && (c <=? 57343)) eqn:E; [bool_norm; lia|done].
  - unfold is_cont. decide_cmp. cbn [andb].
    replace ((240 + c / 262144 - 240) * 262144 + (128 + c / 4096 mod 64 - 128) * 4096 +
             (128 + c / 64 mod 64 - 128) * 64 + (128 + c mod 64 - 128)) with c by divmod.
    by decide_cmp.
Qed.

(** Encoding is injective with the strict decoder as its inverse. *)
Lemma utf8_decode_encode s b : utf8_encode s = Some b -> utf8_decode b = Some s.
Proof.
  revert b; induction s as [|c s IH]; intros b; simpl; [by intros [= <-]|].
  destruct (utf8_char c) as [b1|] eqn:E1; [|done].
  destruct (utf8_encode s) as [b2|] eqn:E2; [|done]. intros [= <-].
  rewrite (utf8_decode_char _ _ _ E1), (IH b2 eq_refl). done.
Qed.

(** ASCII text is its own encoding. *)
Lemma utf8_encode_ascii s : Forall (fun c => 0 <= c < 128) s -> utf8_encode s = Some s.
Proof.
  induction 1 as [|c s Hc _ IH]; [done|]. cbn [utf8_encode]. unfold utf8_char, is_surrogate.
  decide_cmp. cbn [orb andb]. by rewrite IH.
Qed.

Lemma utf8_encode_app s t b c : utf8_encode s = Some b -> utf8_encode t = Some c ->
  utf8_encode (s ++ t) = Some (b ++ c).
Proof.
  revert b; induction s as [|x s IH]; intros b; simpl; [by intros [= <-]|].
  destruct (utf8_char x) as [b1|]; [|done]. destruct (utf8_encode s) as [b2|]; [|done].
  intros [= <-] Ht. by rewrite (IH b2 eq_refl Ht), app_assoc.
Qed.

Lemma utf8_encode_bytes s b : utf8_encode s = Some b -> Forall is_byte b.
Proof.
  revert b; induction s as [|c s IH]; intros b; simpl; [by intros [= <-]|].
  destruct (utf8_char c) as [b1|] eqn:E1; [|done].
  destruct (utf8_encode s) as [b2|] eqn:E2; [|done]. intros [= <-].
  apply Forall_app; split; [|by apply IH]. revert E1. unfold utf8_char.
  destruct ((c <? 0) || (1114111 <? c) || is_surrogate c) eqn:Eg; [done|]. bool_norm.
  repeat case_match; intros [= <-]; bool_norm; repeat (constructor; [unfold is_byte; divmod|]); constructor.
Qed.
