(* ===== verification/Json.v ===== *)
(** The standard library's [json] as the source uses it:
    [json.dumps(v, sort_keys=True, separators=(",", ":"), ensure_ascii=False,
    allow_nan=False)] and [json.loads(s, object_pairs_hook=hook)].

    A float literal of more than fifteen significant digits, or outside
    [1e-300, 1e300], is not modelled: the reader refuses it.  Nor are the limits
    of CPython on the digits of an integer (4300) and on the depth of nesting.  (Up to fifteen
    digits the double nearest to a decimal prints as that decimal.) *)
From S2P Require Import Prelude Crypto PyStr PyVal Utf8.

(** * Writing *)

Definition esc_char (c : Z) : pystr :=
  if c =? 34 then [92; 34]
  else if c =? 92 then [92; 92]
  else if c =? 10 then [92; 110]
  else if c =? 13 then [92; 114]
  else if c =? 9 then [92; 116]
  else if c =? 12 then [92; 102]
  else if c =? 8 then [92; 98]
  else if c <? 32 then [92; 117; 48; 48; hex_digit (c / 16); hex_digit (c mod 16)]
  else [c].

Definition dumps_str (s : pystr) : pystr := 34 :: flat_map esc_char s ++ [34].
#[global] Arguments dumps_str : simpl never.

Definition zeros (n : Z) : pystr := replicate (Z.to_nat n) 48.

(** [repr] of a finite float *)
Definition float_repr (neg : bool) (mant expo : Z) : pystr :=
  let sign := if neg then [45] else [] in
  let ds := digits mant in
  let point := zlen ds + expo in
  sign ++
  if mant =? 0 then u "0.0"
  else if (-4 <? point) && (point <=? 16) then
    if point <=? 0 then u "0." ++ zeros (- point) ++ ds
    else if zlen ds <=? point then ds ++ zeros (point - zlen ds) ++ u ".0"
    else take (Z.to_nat point) ds ++ u "." ++ drop (Z.to_nat point) ds
  else
    let e := point - 1 in
    let es := digits (Z.abs e) in
    take 1 ds ++ (if zlen ds =? 1 then [] else u "." ++ drop 1 ds) ++
    u "e" ++ (if e <? 0 then u "-" else u "+") ++ (if zlen es =? 1 then 48 :: es else es).

Section texts.
Variable text : pyval -> option pystr.

Fixpoint texts (l : list pyval) : option (list pystr) :=
  match l with
  | [] => Some []
  | v :: l => match text v, texts l with Some t, Some ts => Some (t :: ts) | _, _ => None end
  end.

Fixpoint member_texts (d : list (pystr * pyval)) : option (list pystr) :=
  match d with
  | [] => Some []
  | (k, v) :: d =>
      match text v, member_texts d with
      | Some t, Some ts => Some ((dumps_str k ++ 58 :: t) :: ts)
      | _, _ => None
      end
  end.
End texts.

(** [json.dumps] of a value whose keys are already in order; [None] is the
    [ValueError] of a NaN or an infinity. *)
Fixpoint dumps_raw (v : pyval) : option pystr :=
  match v with
  | VNone => Some (u "null")
  | VBool true => Some (u "true")
  | VBool false => Some (u "false")
  | VInt z => Some (str_of_int z)
  | VFloat (FDec neg m e) => Some (float_repr neg m e)
  | VFloat _ => None
  | VStr s => Some (dumps_str s)
  | VList l | VTuple l =>
      match texts dumps_raw l with Some ts => Some (91 :: join [44%Z] ts ++ [93]) | None => None end
  | VDict d =>
      match member_texts dumps_raw d with Some ts => Some (123 :: join [44%Z] ts ++ [125]) | None => None end
  end.

(** [sort_keys=True] orders every mapping first. *)
Definition dumps (v : pyval) : option pystr := dumps_raw (canon v).

(** * Reading *)

Definition JSONDecodeError : string := "JSONDecodeError".
Definition RecursionError : string := "RecursionError".
Definition syntax {A} : result A := Err JSONDecodeError.

Definition is_ws (c : Z) : bool := (c =? 32) || (c =? 9) || (c =? 10) || (c =? 13).
Fixpoint skip_ws (s : pystr) : pystr :=
  match s with
  | c :: r => if is_ws c then skip_ws r else s
  | [] => []
  end.

Definition hex4 (a b c d : Z) : option Z :=
  match hex_value a, hex_value b, hex_value c, hex_value d with
  | Some a, Some b, Some c, Some d => Some (4096 * a + 256 * b + 16 * c + d)
  | _, _, _, _ => None
  end.

Definition unescape (e : Z) : option Z :=
  if e =? 34 then Some 34 else if e =? 92 then Some 92 else if e =? 47 then Some 47
  else if e =? 98 then Some 8 else if e =? 102 then Some 12 else if e =? 110 then Some 10
  else if e =? 114 then Some 13 else if e =? 116 then Some 9 else None.

Definition push (c : Z) (r : option (pystr * pystr)) : option (pystr * pystr) :=
  match r with Some (s, rest) => Some (c :: s, rest) | None => None end.

(** The text up to the closing quote, and what follows it. *)
Fixpoint scanstring (s : pystr) : option (pystr * pystr) :=
  match s with
  | [] => None
  | c :: s =>
      if c =? 34 then Some ([], s)
      else if c =? 92 then
        match s with
        | [] => None
        | e :: s =>
            if e =? 117 then
              match s with
              | h1 :: h2 :: h3 :: h4 :: s =>
                  match hex4 h1 h2 h3 h4 with
                  | None => None
                  | Some x =>
                      if (55296 <=? x) && (x <=? 56319) then
                        match s with
                        | b :: n :: k1 :: k2 :: k3 :: k4 :: s' =>
                            if (b =? 92) && (n =? 117) then
                              match hex4 k1 k2 k3 k4 with
                              | None => None
                              | Some y =>
                                  if (56320 <=? y) && (y <=? 57343)
                                  then push (65536 + (x - 55296) * 1024 + (y - 56320)) (scanstring s')
                                  else push x (scanstring s)
                              end
                            else push x (scanstring s)
                        | _ => push x (scanstring s)
                        end
                      else push x (scanstring s)
                  end
              | _ => None
              end
            else match unescape e with Some x => push x (scanstring s) | None => None end
        end
      else if c <? 32 then None
      else push c (scanstring s)
  end.

Fixpoint span (f : Z -> bool) (s : pystr) : pystr * pystr :=
  match s with
  | c :: r => if f c then let (a, b) := span f r in (c :: a, b) else ([], s)
  | [] => ([], [])
  end.

(** Remove the trailing zeros of a decimal mantissa. *)
Fixpoint strip_zeros (fuel : nat) (m e : Z) : Z * Z :=
  match fuel with
  | O => (m, e)
  | S fuel => if (m =? 0) then (0, 0) else if m mod 10 =? 0 then strip_zeros fuel (m / 10) (e + 1) else (m, e)
  end.

Definition make_float (neg : bool) (ip fp : pystr) (e : Z) : option pyfloat :=
  let (m, e) := strip_zeros (length ip + length fp) (digits_value (ip ++ fp)) (e - zlen fp) in
  let point := zlen (digits m) + e in
  if (zlen (digits m) <=? 15) && (-300 <=? point) && (point <=? 300) then Some (FDec neg m e) else None.

Definition parse_exponent (s : pystr) : option (Z * pystr) :=
  match s with
  | c :: r =>
      if (c =? 101) || (c =? 69) then
        let '(sg, r) := match r with
                        | x :: r' => if x =? 45 then (-1, r') else if x =? 43 then (1, r') else (1, r)
                        | [] => (1, [])
                        end in
        let (ds, r) := span is_digit r in
        if bool_decide (ds = []) then None else Some (sg * digits_value ds, r)
      else None
  | [] => None
  end.

Definition parse_number (s : pystr) : option (pyval * pystr) :=
  let '(neg, s) := match s with
                   | c :: r => if c =? 45 then (true, r) else (false, s)
                   | [] => (false, [])
                   end in
  match s with
  | [] => None
  | c :: r =>
      if is_digit c then
        let (ip, r) := if c =? 48 then ([48], r) else span is_digit s in
        let (fp, r) := match r with
                       | p :: r' => if p =? 46 then
                                      let (ds, r'') := span is_digit r' in
                                      if bool_decide (ds = []) then ([], r) else (ds, r'')
                                    else ([], r)
                       | [] => ([], [])
                       end in
        match parse_exponent r, fp with
        | None, [] => Some (VInt (if neg then - digits_value ip else digits_value ip), r)
        | None, fp => option_map (fun f => (VFloat f, r)) (make_float neg ip fp 0)
        | Some (e, r), fp => option_map (fun f => (VFloat f, r)) (make_float neg ip fp e)
        end
      else None
  end.

(** [null], [true], [false] and the constants [json] accepts by default *)
Definition parse_constant (s : pystr) : option (pyval * pystr) :=
  if startswith (u "null") s then Some (VNone, drop 4 s)
  else if startswith (u "true") s then Some (VBool true, drop 4 s)
  else if startswith (u "false") s then Some (VBool false, drop 5 s)
  else if startswith (u "NaN") s then Some (VFloat FNaN, drop 3 s)
  else if startswith (u "Infinity") s then Some (VFloat (FInf false), drop 8 s)
  else if startswith (u "-Infinity") s then Some (VFloat (FInf true), drop 9 s)
  else None.

Definition constant_value (constant : pyval -> result pyval) (v : pyval) : result pyval :=
  match v with VFloat _ => constant v | _ => Ok v end.
#[global] Arguments constant_value : simpl never.

(** [object_pairs_hook]; [parse_constant], of the value [json] would give *)
Record json_hooks := JsonHooks { pairs_hook : list (pystr * pyval) -> result (list (pystr * pyval)); constant_hook : pyval -> result pyval }.

Section loads.
Variable hook : json_hooks.

Fixpoint parse_value (fuel : nat) (s : pystr) : result (pyval * pystr) :=
  match fuel with
  | O => Err RecursionError
  | S fuel =>
      match s with
      | [] => syntax
      | c :: r =>
          if c =? 34 then
            match scanstring r with Some (t, r) => Ok (VStr t, r) | None => syntax end
          else if c =? 123 then
            match skip_ws r with
            | d :: r =>
                if d =? 125 then let? d := pairs_hook hook [] in Ok (VDict d, r)
                else if d =? 34 then
                  let? ' (l, r) := parse_members fuel r in
                  let? d := pairs_hook hook l in Ok (VDict d, r)
                else syntax
            | [] => syntax
            end
          else if c =? 91 then
            match skip_ws r with
            | d :: r' =>
                if d =? 93 then Ok (VList [], r')
                else let? ' (l, r) := parse_elems fuel (d :: r') in Ok (VList l, r)
            | [] => syntax
            end
          else
            match parse_constant s with
            | Some (v, r) => let? v := constant_value (constant_hook hook) v in Ok (v, r)
            | None => match parse_number s with Some vr => Ok vr | None => syntax end
            end
      end
  end
(** the elements after the opening bracket *)
with parse_elems (fuel : nat) (s : pystr) : result (list pyval * pystr) :=
  match fuel with
  | O => Err RecursionError
  | S fuel =>
      let? ' (v, r) := parse_value fuel s in
      match skip_ws r with
      | c :: r =>
          if c =? 93 then Ok ([v], r)
          else if c =? 44 then
            let? ' (l, r) := parse_elems fuel (skip_ws r) in Ok (v :: l, r)
          else syntax
      | [] => syntax
      end
  end
(** the members after an opening quote *)
with parse_members (fuel : nat) (s : pystr) : result (list (pystr * pyval) * pystr) :=
  match fuel with
  | O => Err RecursionError
  | S fuel =>
      match scanstring s with
      | None => syntax
      | Some (k, r) =>
          match skip_ws r with
          | c :: r =>
              if c =? 58 then
                let? ' (v, r) := parse_value fuel (skip_ws r) in
                match skip_ws r with
                | c :: r =>
                    if c =? 125 then Ok ([(k, v)], r)
                    else if c =? 44 then
                      match skip_ws r with
                      | q :: r =>
                          if q =? 34 then
                            let? ' (l, r) := parse_members fuel r in Ok ((k, v) :: l, r)
                          else syntax
                      | [] => syntax
                      end
                    else syntax
                | [] => syntax
                end
              else syntax
          | [] => syntax
          end
      end
  end.

(** [json.loads]: one value between optional white space *)
Definition loads_with (s : pystr) : result pyval :=
  let s := skip_ws s in
  let? ' (v, r) := parse_value (2 * length s + 1) s in
  match skip_ws r with [] => Ok v | _ :: _ => syntax end.
End loads.
Definition loads (hook : list (pystr * pyval) -> result (list (pystr * pyval))) (s : pystr) : result pyval := loads_with (JsonHooks hook Ok) s.

(** * Reading back what was written *)

(** Values [json.loads] can produce, without floats. *)
Inductive json_val : pyval -> Prop :=
| JNone : json_val VNone
| JBool b : json_val (VBool b)
| JInt z : json_val (VInt z)
| JStr s : Forall (Z.le 0) s -> json_val (VStr s)
| JList l : Forall json_val l -> json_val (VList l)
| JDict d : NoDup (dict_keys d) -> Forall (fun kv => Forall (Z.le 0) kv.1 /\ json_val kv.2) d ->
    json_val (VDict d).

(** What may follow a value inside a document. *)
Definition delim (rest : pystr) : Prop :=
  match rest with [] => True | c :: _ => c = 44 \/ c = 93 \/ c = 125 end.

Lemma scanstring_plain c s : 32 <= c -> c <> 34 -> c <> 92 ->
  scanstring (c :: s) = push c (scanstring s).
Proof.
  intros H1 H2 H3. cbn [scanstring].
  rewrite (proj2 (Z.eqb_neq c 34)), (proj2 (Z.eqb_neq c 92)), (proj2 (Z.ltb_ge c 32)) by lia. done.
Qed.

Lemma scanstring_esc c r : 0 <= c ->
  scanstring (esc_char c ++ r) = push c (scanstring r).
Proof.
  intros Hc. unfold esc_char.
  repeat match goal with
  | |- context [if c =? ?k then _ else _] => destruct (Z.eqb_spec c k) as [->|]; [reflexivity|]
  end.
  destruct (Z.ltb_spec c 32); [|by apply scanstring_plain].
  cbn [app scanstring Z.eqb Pos.eqb].
  replace (hex4 48 48 (hex_digit (c / 16)) (hex_digit (c mod 16))) with (Some c).
  - by decide_cmp.
  - unfold hex4. rewrite !hex_value_digit by divmod.
    change (hex_value 48) with (Some 0). cbn. f_equal. divmod.
Qed.

Lemma scanstring_dumps s r : Forall (Z.le 0) s ->
  scanstring (flat_map esc_char s ++ 34 :: r) = Some (s, r).
Proof.
  induction 1 as [|c s Hc _ IH]; [reflexivity|]. cbn [flat_map].
  by rewrite <- app_assoc, scanstring_esc, IH.
Qed.

Lemma span_app f a r : Forall (fun c => f c = true) a ->
  match r with [] => True | c :: _ => f c = false end -> span f (a ++ r) = (a, r).
Proof.
  intros Ha Hr. induction Ha as [|c a Hc _ IH]; simpl.
  - destruct r as [|c r]; simpl; [done|]. by rewrite Hr.
  - by rewrite Hc, IH.
Qed.

Lemma delim_not_digit r : delim r -> match r with [] => True | c :: _ => is_digit c = false end.
Proof. destruct r; [done|]. intros [->|[->| ->]]; done. Qed.

Lemma parse_number_tail (neg : bool) ip r : delim r ->
  (let (fp, r) := match r with
                  | p :: r' => if p =? 46 then
                                 let (ds, r'') := span is_digit r' in
                                 if bool_decide (ds = []) then ([], r) else (ds, r'')
                               else ([], r)
                  | [] => ([], [])
                  end in
   match parse_exponent r, fp with
   | None, [] => Some (VInt (if neg then - digits_value ip else digits_value ip), r)
   | None, fp => option_map (fun f => (VFloat f, r)) (make_float neg ip fp 0)
   | Some (e, r), fp => option_map (fun f => (VFloat f, r)) (make_float neg ip fp e)
   end) = Some (VInt (if neg then - digits_value ip else digits_value ip), r).
Proof. destruct r as [|c r]; [done|]. intros [->|[->| ->]]; done. Qed.

(** A nonempty canonical digit string is read whole. *)
Lemma digits_cases n : 0 <= n -> (n = 0 /\ digits n = [48]) \/
  exists c t, digits n = c :: t /\ 49 <= c <= 57.
Proof.
  intros Hn. destruct (decide (n = 0)) as [->|]; [by left|right]. apply digits_head. lia.
Qed.

Lemma parse_number_digits n r : 0 <= n -> delim r ->
  parse_number (digits n ++ r) = Some (VInt n, r) /\
  parse_number (45 :: digits n ++ r) = Some (VInt (- n), r).
Proof.
  intros Hn Hr. pose proof (digits_value_digits n Hn) as Hv. pose proof (digits_digits n Hn) as Hd.
  destruct (digits_cases n Hn) as [[-> ->]|(c & t & E & Hc)].
  - cbn [app]. unfold parse_number. cbn [Z.eqb Pos.eqb is_digit].
    split; [exact (parse_number_tail false [48] r Hr)|exact (parse_number_tail true [48] r Hr)].
  - rewrite E in *. cbn [app]. unfold parse_number. rewrite (proj2 (Z.eqb_neq c 45)) by lia.
    cbn [Z.eqb Pos.eqb]. inversion Hd as [|?? Hc' Ht]; subst. rewrite Hc'.
    rewrite (proj2 (Z.eqb_neq c 48)) by lia.
    change (c :: t ++ r) with ((c :: t) ++ r). rewrite span_app by (done || by apply delim_not_digit).
    split; [apply (parse_number_tail false)|apply (parse_number_tail true)]; done.
Qed.

Lemma parse_constant_num c r : c = 45 \/ 48 <= c <= 57 ->
  (c = 45 -> match r with [] => True | d :: _ => d <> 73 end) -> parse_constant (c :: r) = None.
Proof.
  intros Hc Hr. unfold parse_constant. eval_lits. cbn [startswith].
  repeat match goal with |- context [?a =? c] => destruct (Z.eqb_spec a c); cbn [andb] end;
    try (exfalso; lia); try done.
  destruct r as [|d r]; [done|]. specialize (Hr ltac:(lia)). cbn [startswith].
  destruct (Z.eqb_spec 73 d); [congruence|done].
Qed.

Lemma str_of_int_cases z : (0 <= z /\ str_of_int z = digits z) \/
  (z < 0 /\ str_of_int z = 45 :: digits (- z)).
Proof. unfold str_of_int. destruct (Z.ltb_spec z 0); auto. Qed.

Lemma digits_head_digit n : 0 <= n -> exists c t, digits n = c :: t /\ 48 <= c <= 57.
Proof.
  intros Hn. destruct (digits_cases n Hn) as [[-> ->]|(c & t & -> & Hc)]; eauto with lia.
Qed.

Section roundtrip.
Variable hook : json_hooks.
Hypothesis hook_NoDup : forall d, NoDup (dict_keys d) -> pairs_hook hook d = Ok d.

Lemma parse_value_int fuel z r : delim r ->
  parse_value hook (S fuel) (str_of_int z ++ r) = Ok (VInt z, r).
Proof.
  intros Hr. destruct (str_of_int_cases z) as [[Hz ->]|[Hz ->]].
  - destruct (parse_number_digits z r Hz Hr) as [Hp _].
    destruct (digits_head_digit z Hz) as (c & t & E & Hc). rewrite E in *. cbn [app] in *.
    cbn [parse_value]. rewrite !(proj2 (Z.eqb_neq c _)) by lia.
    rewrite parse_constant_num by lia. by rewrite Hp.
  - destruct (parse_number_digits (- z) r) as [_ Hp]; [lia|done|].
    destruct (digits_head_digit (- z)) as (c & t & E & Hc); [lia|]. rewrite E in *. cbn [app] in *.
    cbn [parse_value Z.eqb Pos.eqb]. rewrite parse_constant_num by (cbn; lia).
    rewrite Hp. by rewrite Z.opp_involutive.
Qed.

(** The bound on the fuel a text needs. *)
Lemma length_join_cons w l : (length w <= length (join [44%Z] (w :: l)))%nat.
Proof. destruct l; simpl; [lia|]. rewrite length_app. lia. Qed.

Definition reads (v : pyval) : Prop := forall t fuel r,
  dumps_raw v = Some t -> delim r -> (2 * length t + 1 <= fuel)%nat ->
  parse_value hook fuel (t ++ r) = Ok (v, r).

Lemma dumps_raw_head v t : json_val v -> dumps_raw v = Some t ->
  exists c t', t = c :: t' /\ is_ws c = false /\ c <> 93.
Proof.
  intros Hv Ht. inversion Hv as [|b|z|s|l|d]; subst; simpl in Ht.
  - injection Ht as <-. by eexists _, _.
  - destruct b; injection Ht as <-; by eexists _, _.
  - injection Ht as <-. destruct (str_of_int_cases z) as [[Hz ->]|[Hz ->]]; [|by eexists _, _].
    destruct (digits_head_digit z Hz) as (c & t & -> & Hc). exists c, t. split; [done|].
    unfold is_ws. rewrite !(proj2 (Z.eqb_neq c _)) by lia. split; [done|lia].
  - injection Ht as <-. by eexists _, _.
  - destruct (texts dumps_raw l); [|done]. injection Ht as <-. by eexists _, _.
  - destruct (member_texts dumps_raw d); [|done]. injection Ht as <-. by eexists _, _.
Qed.

Lemma skip_ws_text v t r : json_val v -> dumps_raw v = Some t -> skip_ws (t ++ r) = t ++ r.
Proof.
  intros Hv Ht. destruct (dumps_raw_head v t Hv Ht) as (c & t' & -> & Hc & _).
  simpl. by rewrite Hc.
Qed.

Lemma parse_elems_texts l : forall ts fuel r,
  l <> [] -> Forall json_val l -> Forall reads l -> texts dumps_raw l = Some ts ->
  (2 * length (join [44%Z] ts) + 2 <= fuel)%nat ->
  parse_elems hook fuel (join [44%Z] ts ++ 93 :: r) = Ok (l, r).
Proof.
  induction l as [|v l IH]; intros ts fuel r Hne Hj Hl Ht Hf; [done|].
  inversion Hj as [|?? Hjv Hjl]; subst. inversion Hl as [|?? Hv Hl']; subst. simpl in Ht.
  destruct (dumps_raw v) as [t|] eqn:Et; [|done].
  destruct (texts dumps_raw l) as [ts'|] eqn:Ets; [|done]. injection Ht as <-.
  destruct fuel as [|fuel]; [lia|]. cbn [parse_elems].
  pose proof (length_join_cons t ts') as Hlen.
  destruct l as [|v' l].
  - simpl in Ets. injection Ets as <-. cbn [join] in *.
    rewrite (Hv t fuel (93 :: r) Et) by (simpl; auto; lia). reflexivity.
  - assert (exists t' ts'', ts' = t' :: ts'' /\ dumps_raw v' = Some t') as (t' & ts'' & -> & Et').
    { simpl in Ets. destruct (dumps_raw v'); [|done]. destruct (texts dumps_raw l); [|done].
      injection Ets as <-. eauto. }
    change (join [44%Z] (t :: t' :: ts'')) with (t ++ 44 :: join [44%Z] (t' :: ts'')) in *.
    rewrite length_app in Hf. cbn [length] in Hf.
    rewrite <- app_assoc. cbn [app].
    rewrite (Hv t fuel _ Et) by (simpl; auto; lia). cbn -[join parse_elems].
    assert (skip_ws (join [44%Z] (t' :: ts'') ++ 93 :: r) = join [44%Z] (t' :: ts'') ++ 93 :: r) as ->.
    { inversion Hjl as [|?? Hjv' _]; subst. destruct ts'' as [|t'' ts'']; cbn [join].
      - by apply (skip_ws_text v').
      - rewrite <- app_assoc. by apply (skip_ws_text v'). }
    rewrite (IH (t' :: ts'') fuel r) by (done || lia). reflexivity.
Qed.

Lemma parse_members_texts d : forall ts fuel r,
  d <> [] -> Forall (fun kv => Forall (Z.le 0) kv.1 /\ json_val kv.2) d ->
  Forall (fun kv => reads kv.2) d -> member_texts dumps_raw d = Some ts ->
  (2 * length (join [44%Z] ts) + 2 <= fuel)%nat ->
  exists s, join [44%Z] ts = 34 :: s /\ parse_members hook fuel (s ++ 125 :: r) = Ok (d, r).
Proof.
  induction d as [|[k v] d IH]; intros ts fuel r Hne Hj Hl Ht Hf; [done|].
  inversion Hj as [|?? [Hk Hjv] Hjl]; subst. inversion Hl as [|?? Hv Hl']; subst.
  cbn [member_texts] in Ht. simpl in Hk, Hjv, Hv.
  destruct (dumps_raw v) as [t|] eqn:Et; [|done].
  destruct (member_texts dumps_raw d) as [ts'|] eqn:Ets; [|done]. apply (inj Some) in Ht. subst ts.
  destruct fuel as [|fuel]; [lia|].
  pose proof (length_join_cons (dumps_str k ++ 58 :: t) ts') as Hlen.
  rewrite length_app in Hlen. cbn [length] in Hlen.
  assert (forall x, scanstring (flat_map esc_char k ++ 34 :: x) = Some (k, x)) as Hs
    by (intros; by apply scanstring_dumps).
  destruct d as [|[k' v'] d].
  - simpl in Ets. injection Ets as <-.
    change (join [44%Z] [dumps_str k ++ 58%Z :: t]) with (dumps_str k ++ 58%Z :: t) in *.
    rewrite length_app in Hf. cbn [length] in Hf.
    exists (flat_map esc_char k ++ 34 :: 58 :: t). split.
    { unfold dumps_str. cbn [app]. by rewrite <- app_assoc. }
    rewrite <- app_assoc. cbn [parse_members app]. rewrite Hs. cbn -[parse_value].
    rewrite (skip_ws_text v) by done. rewrite (Hv t fuel (125 :: r) Et) by (simpl; auto; lia).
    reflexivity.
  - destruct ts' as [|t' ts''].
    { simpl in Ets. destruct (dumps_raw v'); [|done]. by destruct (member_texts dumps_raw d). }
    change (join [44%Z] ((dumps_str k ++ 58 :: t) :: t' :: ts''))
      with ((dumps_str k ++ 58 :: t) ++ 44 :: join [44%Z] (t' :: ts'')) in *.
    rewrite !length_app in Hf. cbn [length] in Hf.
    destruct (IH (t' :: ts'') fuel r) as (s & Es & Hp); [done..|lia|].
    exists (flat_map esc_char k ++ 34 :: 58 :: t ++ 44 :: 34 :: s). split.
    { unfold dumps_str. cbn [app]. by rewrite Es, <- !app_assoc. }
    rewrite <- app_assoc. cbn [parse_members app]. rewrite <- app_assoc. rewrite Hs. cbn -[parse_value parse_members].
    rewrite (skip_ws_text v) by done. rewrite (Hv t fuel _ Et) by (simpl; auto; lia).
    cbn -[parse_members]. by rewrite Hp.
Qed.

Lemma reads_json v : json_val v -> reads v.
Proof.
  induction v as [|b|z|f|s|l IH|l IH|d IH] using pyval_ind'; intros Hv t fuel r Ht Hr Hf;
    inversion Hv as [|?|?|? Hs|? Hl|? Hk Hd]; subst; (destruct fuel as [|fuel]; [lia|]); simpl in Ht.
  - injection Ht as <-. reflexivity.
  - destruct b; injection Ht as <-; reflexivity.
  - injection Ht as <-. by apply parse_value_int.
  - injection Ht as <-. unfold dumps_str. cbn [app parse_value Z.eqb Pos.eqb].
    rewrite <- app_assoc. cbn [app]. by rewrite scanstring_dumps.
  - destruct (texts dumps_raw l) as [ts|] eqn:E; [|done]. injection Ht as <-.
    assert (Forall reads l) as Hr'.
    { rewrite Forall_forall in *. auto. }
    cbn [app parse_value Z.eqb Pos.eqb]. rewrite <- app_assoc. cbn [app length] in *.
    rewrite length_app in Hf. cbn [length] in Hf.
    destruct l as [|v l]; [simpl in E; injection E as <-; reflexivity|].
    pose proof (parse_elems_texts (v :: l) ts fuel r ltac:(done) Hl Hr' E ltac:(lia)) as Hp.
    simpl in E. destruct (dumps_raw v) as [tv|] eqn:Ev; [|done].
    destruct (texts dumps_raw l) as [ts'|] eqn:Es; [|done]. injection E as <-.
    inversion Hl as [|?? Hjv _]; subst.
    destruct (dumps_raw_head v tv Hjv Ev) as (c & t' & -> & Hc & H93).
    assert (exists x, join [44%Z] ((c :: t') :: ts') = c :: x) as [x Ex]
      by (destruct ts'; eexists; reflexivity).
    rewrite Ex in *. cbn [app skip_ws] in *. rewrite Hc, (proj2 (Z.eqb_neq c 93)) by done.
    by rewrite Hp.
  - destruct (member_texts dumps_raw d) as [ts|] eqn:E; [|done]. injection Ht as <-.
    assert (Forall (fun kv => reads kv.2) d) as Hr'.
    { rewrite Forall_forall in *. intros kv Hin. apply IH; [done|]. by apply Hd. }
    cbn [app parse_value Z.eqb Pos.eqb]. rewrite <- app_assoc. cbn [app length] in *.
    rewrite length_app in Hf. cbn [length] in Hf.
    destruct d as [|kv d].
    { simpl in E. injection E as <-. cbn -[parse_members]. by rewrite hook_NoDup. }
    destruct (parse_members_texts (kv :: d) ts fuel r ltac:(done) Hd Hr' E ltac:(lia)) as (s & -> & Hp).
    cbn -[parse_members]. rewrite Hp. cbn -[parse_members]. by rewrite hook_NoDup.
Qed.

(** [loads] inverts [dumps]: the keys come back in order. *)
Lemma loads_with_dumps_raw v t : json_val v -> dumps_raw v = Some t -> loads_with hook t = Ok v.
Proof.
  intros Hv Ht. unfold loads_with.
  replace (skip_ws t) with t.
  2: { pose proof (skip_ws_text v t [] Hv Ht) as H. by rewrite !app_nil_r in H. }
  pose proof (reads_json v Hv t (2 * length t + 1)%nat [] Ht I ltac:(lia)) as Hp.
  rewrite app_nil_r in Hp. rewrite Hp. reflexivity.
Qed.
End roundtrip.

Lemma loads_dumps_raw hook v t : (forall d, NoDup (dict_keys d) -> hook d = Ok d) -> json_val v -> dumps_raw v = Some t -> loads hook t = Ok v.
Proof. intros Hh. by apply loads_with_dumps_raw. Qed.

(** * The fuel is enough: every call consumes text *)

Lemma skip_ws_length s : (length (skip_ws s) <= length s)%nat.
Proof. induction s as [|c s IH]; simpl; [lia|]. destruct (is_ws c); simpl; lia. Qed.

Lemma push_Some c x t r : push c x = Some (t, r) -> exists t', x = Some (t', r).
Proof. destruct x as [[? ?]|]; [|done]. intros [= _ <-]. eauto. Qed.

Lemma scanstring_length s t r : scanstring s = Some (t, r) -> (length r < length s)%nat.
Proof.
  revert t r. induction s as [s IH] using (induction_ltof1 _ (@length Z)); unfold ltof in IH.
  intros t r. destruct s as [|c s]; [done|]. cbn [scanstring].
  destruct (c =? 34); [by intros [= _ <-]; simpl; lia|].
  assert (forall x s', (length s' < S (length s))%nat ->
          push x (scanstring s') = Some (t, r) -> (length r < S (length s))%nat) as Hp.
  { intros x s' Hs' [t' H]%push_Some. apply IH in H; simpl in *; lia. }
  repeat case_match; subst; try done; intros H'; (eapply Hp; [|exact H']); simpl; lia.
Qed.

Lemma span_length f s a b : span f s = (a, b) -> (length a + length b = length s)%nat.
Proof.
  revert a b; induction s as [|c s IH]; intros a b; simpl; [by intros [= <- <-]|].
  destruct (f c); [|by intros [= <- <-]]. destruct (span f s) as [a' b'].
  intros [= <- <-]. simpl. rewrite <- (IH a' b') by done. lia.
Qed.

Lemma parse_exponent_length s e r : parse_exponent s = Some (e, r) -> (length r <= length s)%nat.
Proof.
  unfold parse_exponent. destruct s as [|c s]; [done|]. destruct ((c =? 101) || (c =? 69)); [|done].
  destruct s as [|x s]; [done|].
  destruct (x =? 45); [|destruct (x =? 43)];
    (destruct (span is_digit _) as [ds r'] eqn:E; apply span_length in E;
     case_bool_decide; [done|]; intros [= _ <-]; simpl in *; lia).
Qed.

Lemma parse_number_length s v r : parse_number s = Some (v, r) -> (length r < length s)%nat.
Proof.
  unfold parse_number.
  assert (forall neg s' n, (length s' <= n)%nat ->
    match s' with
    | [] => None
    | c :: r0 =>
        if is_digit c then
          let (ip, r) := if c =? 48 then ([48], r0) else span is_digit s' in
          let (fp, r) := match r with
                         | p :: r' => if p =? 46 then
                                        let (ds, r'') := span is_digit r' in
                                        if bool_decide (ds = []) then ([], r) else (ds, r'')
                                      else ([], r)
                         | [] => ([], [])
                         end in
          match parse_exponent r, fp with
          | None, [] => Some (VInt (if neg : bool then - digits_value ip else digits_value ip), r)
          | None, fp => option_map (fun f => (VFloat f, r)) (make_float neg ip fp 0)
          | Some (e, r), fp => option_map (fun f => (VFloat f, r)) (make_float neg ip fp e)
          end
        else None
    end = Some (v, r) -> (length r < n)%nat) as Hmain.
  { intros neg [|c s'] n Hn; [done|]. destruct (is_digit c) eqn:Hd; [|done].
    assert (exists ip r1, (if c =? 48 then ([48], s') else span is_digit (c :: s')) = (ip, r1) /\
            (length r1 < n)%nat) as (ip & r1 & -> & Hr1).
    { destruct (c =? 48); [exists [48], s'; simpl in *; split; [done|lia]|].
      destruct (span is_digit (c :: s')) as [ip r1] eqn:E. exists ip, r1. split; [done|].
      pose proof (span_length _ _ _ _ E) as Hl. simpl in E. rewrite Hd in E.
      destruct (span is_digit s'). injection E as <- <-. simpl in *. lia. }
    assert (exists fp r2, match r1 with
                         | p :: r' => if p =? 46 then
                                        let (ds, r'') := span is_digit r' in
                                        if bool_decide (ds = []) then ([], r1) else (ds, r'')
                                      else ([], r1)
                         | [] => ([], [])
                         end = (fp, r2) /\ (length r2 < n)%nat) as (fp & r2 & -> & Hr2).
    { destruct r1 as [|p r']; [by eexists _, _|]. destruct (p =? 46); [|by eexists _, _].
      destruct (span is_digit r') as [ds r''] eqn:E. apply span_length in E.
      case_bool_decide; eexists _, _; (split; [done|]); simpl in *; lia. }
    destruct (parse_exponent r2) as [[e r3]|] eqn:Ee.
    - apply parse_exponent_length in Ee. destruct (make_float neg ip fp e); [|done].
      intros [= _ <-]. lia.
    - destruct fp; [by intros [= _ <-]|]. destruct (make_float _ _ _ _); [|done]. by intros [= _ <-]. }
  destruct s as [|c s]; [done|]. destruct (c =? 45).
  - intros H. apply (Hmain true s (S (length s))); [lia|exact H].
  - intros H. apply (Hmain false (c :: s) (S (length s))); [done|exact H].
Qed.

Lemma parse_constant_length s v r : parse_constant s = Some (v, r) -> (length r < length s)%nat.
Proof.
  assert (forall p n, startswith p s = true -> length p = n -> (0 < n)%nat ->
          (length (drop n s) < length s)%nat) as Hd.
  { intros p n [t ->]%startswith_spec <- Hn. rewrite length_drop, length_app. lia. }
  unfold parse_constant.
  repeat match goal with |- context [startswith ?p s] =>
    destruct (startswith p s) eqn:?; [intros [= _ <-]; eapply Hd; [eassumption|reflexivity|lia]|]
  end. done.
Qed.

Section fuel.
Variable hook : json_hooks.
Hypothesis hook_ok : forall d, pairs_hook hook d <> Err RecursionError.
Hypothesis constant_ok : forall v, constant_hook hook v <> Err RecursionError.

Definition consumes {A} (s : pystr) (x : result (A * pystr)) : Prop :=
  match x with Ok (_, r) => (length r < length s)%nat | Err e => e <> RecursionError end.

Lemma parse_consumes fuel :
  (forall s, (2 * length s + 1 <= fuel)%nat -> consumes s (parse_value hook fuel s)) /\
  (forall s, (2 * length s + 2 <= fuel)%nat -> consumes s (parse_elems hook fuel s)) /\
  (forall s, (2 * length s + 2 <= fuel)%nat -> consumes s (parse_members hook fuel s)).
Proof.
  induction fuel as [|fuel (IHv & IHe & IHm)]; [split; [|split]; intros; lia|].
  split; [|split]; intros s Hs.
  - cbn [parse_value]. destruct s as [|c r]; [done|]. cbn [length] in Hs.
    destruct (c =? 34).
    { destruct (scanstring r) as [[t r']|] eqn:E; [|done]. apply scanstring_length in E. simpl. lia. }
    destruct (c =? 123).
    { pose proof (skip_ws_length r) as Hw. destruct (skip_ws r) as [|d r1]; [done|]. cbn [length] in Hw.
      destruct (d =? 125).
      - pose proof (hook_ok []) as Hh. destruct (pairs_hook hook []); simpl in *; [lia|congruence].
      - destruct (d =? 34); [|done]. specialize (IHm r1 ltac:(lia)).
        destruct (parse_members hook fuel r1) as [[l r2]|e]; simpl in *; [|done].
        pose proof (hook_ok l) as Hh. destruct (pairs_hook hook l); simpl in *; [lia|congruence]. }
    destruct (c =? 91).
    { pose proof (skip_ws_length r) as Hw. destruct (skip_ws r) as [|d r1]; [done|]. cbn [length] in Hw.
      destruct (d =? 93); [simpl; lia|]. specialize (IHe (d :: r1) ltac:(simpl; lia)).
      destruct (parse_elems hook fuel (d :: r1)) as [[l r2]|e]; simpl in *; [lia|done]. }
    destruct (parse_constant (c :: r)) as [[v r1]|] eqn:E.
    { apply parse_constant_length in E. pose proof (constant_ok v) as Hc.
      unfold constant_value. destruct v; simpl; try done. destruct (constant_hook hook _); simpl in *; [done|congruence]. }
    destruct (parse_number (c :: r)) as [[v r1]|] eqn:E'; [by apply parse_number_length in E'|done].
  - cbn [parse_elems]. specialize (IHv s ltac:(lia)).
    destruct (parse_value hook fuel s) as [[v r]|e]; simpl in *; [|done].
    pose proof (skip_ws_length r) as Hw. destruct (skip_ws r) as [|c r1]; [done|]. cbn [length] in Hw.
    destruct (c =? 93); [simpl; lia|]. destruct (c =? 44); [|done].
    pose proof (skip_ws_length r1) as Hw1. specialize (IHe (skip_ws r1) ltac:(lia)).
    destruct (parse_elems hook fuel (skip_ws r1)) as [[l r2]|e]; simpl in *; [lia|done].
  - cbn [parse_members]. destruct (scanstring s) as [[k r]|] eqn:E; [|done].
    apply scanstring_length in E.
    pose proof (skip_ws_length r) as Hw. destruct (skip_ws r) as [|c r1]; [done|]. cbn [length] in Hw.
    destruct (c =? 58); [|done].
    pose proof (skip_ws_length r1) as Hw1. specialize (IHv (skip_ws r1) ltac:(lia)).
    destruct (parse_value hook fuel (skip_ws r1)) as [[v r2]|e]; simpl in *; [|done].
    pose proof (skip_ws_length r2) as Hw2. destruct (skip_ws r2) as [|c2 r3]; [done|]. cbn [length] in Hw2.
    destruct (c2 =? 125); [simpl; lia|]. destruct (c2 =? 44); [|done].
    pose proof (skip_ws_length r3) as Hw3. destruct (skip_ws r3) as [|q r4]; [done|]. cbn [length] in Hw3.
    destruct (q =? 34); [|done]. specialize (IHm r4 ltac:(lia)).
    destruct (parse_members hook fuel r4) as [[l r5]|e]; simpl in *; [lia|done].
Qed.

(** [loads] never runs out of fuel. *)
Lemma loads_with_fuel s : loads_with hook s <> Err RecursionError.
Proof.
  unfold loads_with. destruct (parse_consumes (2 * length (skip_ws s) + 1)) as (Hv & _ & _).
  specialize (Hv (skip_ws s) ltac:(lia)).
  destruct (parse_value _ _ _) as [[v r]|e]; simpl in *; [|congruence].
  by destruct (skip_ws r).
Qed.
End fuel.

Lemma loads_fuel hook s : (forall d, hook d <> Err RecursionError) -> loads hook s <> Err RecursionError.
Proof. intros Hh. by apply loads_with_fuel. Qed.
