(* ===== verification/Digest.v ===== *)
(** Artifact digests and canonical JSON: [digest.py] and the byte-level helpers
    at the top of [oci_provenance.py]. *)
From S2P Require Import Prelude Crypto PyStr PyVal Utf8 Json Regex.

(** * Canonical JSON bytes ([oci_provenance.canonical_json_bytes]) *)

Definition canonical_json_bytes (value : pyval) : result bytes :=
  match dumps value with
  | None => Err "value is not canonical JSON data"
  | Some text =>
      match utf8_encode text with
      | None => Err "value is not canonical JSON data"
      | Some payload => Ok payload
      end
  end.

(** Python values [json] can write: no NaN, keys without repetition. *)
Inductive jsonable : pyval -> Prop :=
| ANone : jsonable VNone
| ABool b : jsonable (VBool b)
| AInt z : jsonable (VInt z)
| AStr s : Forall (Z.le 0) s -> jsonable (VStr s)
| AList l : Forall jsonable l -> jsonable (VList l)
| ATuple l : Forall jsonable l -> jsonable (VTuple l)
| ADict d : NoDup (dict_keys d) -> Forall (fun kv => Forall (Z.le 0) kv.1 /\ jsonable kv.2) d ->
    jsonable (VDict d).
#[export] Hint Constructors jsonable : palimpsest.

(** A literal mapping is JSON when its values are. *)
Ltac jsonable_dict :=
  apply ADict; [by apply NoDup_decide|];
  repeat first [apply List.Forall_nil | apply List.Forall_cons; [split; cbn [fst snd]; [apply u_nonneg|]|]].

Lemma canon_json v : jsonable v -> json_val (canon v).
Proof.
  induction v as [|b|z|f|s|l IH|l IH|d IH] using pyval_ind'; inversion 1; subst; simpl;
    try (constructor; done).
  - constructor. rewrite Forall_fmap. rewrite Forall_forall in *. simpl. auto.
  - constructor. rewrite Forall_fmap. rewrite Forall_forall in *. simpl. auto.
  - fold (canon_items d). constructor.
    + unfold dict_keys. rewrite sort_items_perm. fold (dict_keys (canon_items d)).
      by rewrite dict_keys_canon_items.
    + rewrite sort_items_perm. unfold canon_items. rewrite Forall_fmap.
      rewrite Forall_forall in *. intros kv Hin. simpl.
      match goal with Hd : forall x, x ∈ d -> _ /\ jsonable _ |- _ => destruct (Hd kv Hin) as [Hk Hv] end.
      split; [done|by apply IH].
Qed.

(** Decoding canonical bytes gives the value back, keys in order. *)
Lemma loads_with_canonical hook v b :
  (forall d, NoDup (dict_keys d) -> pairs_hook hook d = Ok d) -> jsonable v ->
  canonical_json_bytes v = Ok b ->
  exists s, utf8_decode b = Some s /\ loads_with hook s = Ok (canon v).
Proof.
  intros Hh Hv. unfold canonical_json_bytes. destruct (dumps v) as [t|] eqn:E; [|done].
  destruct (utf8_encode t) as [p|] eqn:Eu; [|done]. intros [= <-].
  exists t. split; [by apply utf8_decode_encode|].
  apply loads_with_dumps_raw; [done|by apply canon_json|done].
Qed.

Lemma loads_canonical hook v b :
  (forall d, NoDup (dict_keys d) -> hook d = Ok d) -> jsonable v ->
  canonical_json_bytes v = Ok b ->
  exists s, utf8_decode b = Some s /\ loads hook s = Ok (canon v).
Proof. intros Hh. by apply loads_with_canonical. Qed.

(** * SHA-256 digests ([digest.py]) *)

Definition sha256_re : re :=
  RCat (opt (lit (u "sha256:"))) (rep 64 (RCls [(48, 57); (97, 102); (65, 70)])).

(** [str.lower] on hexadecimal digits *)
Definition lower_char (c : Z) : Z := if (65 <=? c) && (c <=? 90) then c + 32 else c.
Definition lower (s : pystr) : pystr := map lower_char s.

Definition normalize_digest (value : pystr) : result pystr :=
  if fullmatch sha256_re value then
    let group1 := if startswith (u "sha256:") value then drop 7 value else value in
    Ok (u "sha256:" ++ lower group1)
  else Err "invalid sha256 digest".

Definition require_digest (value : pystr) : result pystr := normalize_digest value.

(** [require_digest(value).split(":", 1)[1]] *)
Definition digest_hex (value : pystr) : result pystr :=
  let? d := require_digest value in
  match split 58 d with
  | _ :: rest => Ok (join [58] rest)
  | [] => Err "list index out of range"
  end.

Section file_digest.
Context `{Hash}.

(** [artifact.read(n)]: up to [n] bytes, all of them for a negative [n]. *)
Definition read_chunk (n : Z) (content : bytes) : bytes * bytes :=
  if n <? 0 then (content, []) else (take (Z.to_nat n) content, drop (Z.to_nat n) content).

(** The loop of [digest_file]: the hasher is the bytes fed to it so far; an
    empty chunk ends the loop. One turn more than there are bytes is enough. *)
Fixpoint hash_chunks (fuel : nat) (chunk_size : Z) (content hasher : bytes) : option bytes :=
  match fuel with
  | O => None
  | S fuel =>
      let (chunk, rest) := read_chunk chunk_size content in
      match chunk with
      | [] => Some hasher
      | _ => hash_chunks fuel chunk_size rest (hasher ++ chunk)
      end
  end.

Definition digest_file (content : bytes) (chunk_size : Z) : option pystr :=
  option_map digest_text (hash_chunks (S (length content)) chunk_size content []).

Definition require_file_digest (content : bytes) (expected : pystr) : result unit :=
  match digest_file content 1048576 with
  | None => Err "unreachable"
  | Some actual =>
      let? normalized := require_digest expected in
      raise "digest mismatch" when bool_decide (actual <> normalized) ;;
      Ok tt
  end.

Lemma hash_chunks_spec fuel : forall n content hasher,
  0 < n \/ n < 0 -> (length content < fuel)%nat ->
  hash_chunks fuel n content hasher = Some (hasher ++ content).
Proof.
  induction fuel as [|fuel IH]; intros n content hasher Hn Hf; [lia|]. simpl. unfold read_chunk.
  destruct (Z.ltb_spec n 0).
  - destruct content as [|c content]; [by rewrite app_nil_r|].
    rewrite IH by (simpl in *; lia). by rewrite app_nil_r.
  - destruct (take (Z.to_nat n) content) as [|c ch] eqn:E.
    + destruct content; [by rewrite app_nil_r|]. destruct (Z.to_nat n) eqn:En; [lia|done].
    + rewrite IH; [|done|].
      * rewrite <- app_assoc, <- E, take_drop. done.
      * rewrite length_drop. destruct content; [by rewrite take_nil in E|]. simpl in *. lia.
Qed.
End file_digest.

(** Streaming in chunks hashes the whole file, whatever the chunk size. *)
Lemma digest_file_whole `{Hash} content n : 0 < n ->
  digest_file content n = Some (digest_text content).
Proof. intros Hn. unfold digest_file. rewrite hash_chunks_spec by (auto; lia). done. Qed.

Lemma in_hexany c : in_cls [(48, 57); (97, 102); (65, 70)] c = true <->
  48 <= c <= 57 \/ 97 <= c <= 102 \/ 65 <= c <= 70.
Proof. unfold in_cls. simpl. rewrite orb_false_r, !orb_true_iff, !andb_true_iff, !Z.leb_le. done. Qed.

(** What [normalize_digest] accepts. *)
Lemma normalize_digest_inv value d : normalize_digest value = Ok d ->
  exists h, (value = h \/ value = u "sha256:" ++ h) /\ length h = 64%nat /\
    Forall (fun c => in_cls [(48, 57); (97, 102); (65, 70)] c = true) h /\ d = u "sha256:" ++ lower h.
Proof.
  unfold normalize_digest. destruct (fullmatch sha256_re value) eqn:E; [|done]. intros Hd. apply (inj Ok) in Hd as <-.
  apply fullmatch_spec in E. unfold sha256_re, opt in E.
  apply lang_cat_inv in E as (p & h & -> & Hp & [Hl Hf]%lang_rep_cls).
  exists h. apply lang_alt_inv in Hp as [->%lang_eps| ->%lang_lit].
  - cbn [app]. split; [by left|]. split; [done|]. split; [done|].
    destruct (startswith (u "sha256:") h) eqn:Es; [|done].
    apply startswith_spec in Es as [t ->]. apply Forall_app in Hf as [Hf _].
    inversion Hf as [|?? Hc _]; subst. apply in_hexany in Hc. cbn in Hc. lia.
  - split; [by right|]. split; [done|]. split; [done|]. by rewrite startswith_app.
Qed.

Lemma normalize_digest_ok h : length h = 64%nat ->
  Forall (fun c => in_cls [(48, 57); (97, 102); (65, 70)] c = true) h ->
  normalize_digest (u "sha256:" ++ h) = Ok (u "sha256:" ++ lower h).
Proof.
  intros Hl Hf. unfold normalize_digest.
  assert (fullmatch sha256_re (u "sha256:" ++ h) = true) as ->.
  { apply fullmatch_spec. apply LCat; [apply LAltR; by apply lang_lit|by apply lang_rep_cls]. }
  by rewrite startswith_app.
Qed.

Lemma lower_hex h : Forall (fun c => in_cls [(48, 57); (97, 102); (65, 70)] c = true) h ->
  Forall (fun c => in_cls [(48, 57); (97, 102)] c = true) (lower h).
Proof.
  unfold lower. rewrite Forall_fmap. intros Hf. eapply Forall_impl; [exact Hf|]. intros c Hc%in_hexany.
  apply in_hex. unfold lower_char. simpl.
  destruct ((65 <=? c) && (c <=? 90)) eqn:E; [bool_norm; lia|].
  apply andb_false_iff in E as [E|E]; bool_norm; lia.
Qed.

Lemma lower_lower_hex h : Forall (fun c => in_cls [(48, 57); (97, 102)] c = true) h -> lower h = h.
Proof.
  induction 1 as [|c h Hc _ IH]; [done|]. simpl. f_equal; [|exact IH].
  apply in_hex in Hc. unfold lower_char.
  destruct ((65 <=? c) && (c <=? 90)) eqn:E; [bool_norm; lia|done].
Qed.

Lemma hex_any h : Forall (fun c => in_cls [(48, 57); (97, 102)] c = true) h ->
  Forall (fun c => in_cls [(48, 57); (97, 102); (65, 70)] c = true) h.
Proof. intros Hf. eapply Forall_impl; [exact Hf|]. intros c [?|?]%in_hex; apply in_hexany; lia. Qed.

(** A canonical digest is a fixed point; normalising twice changes nothing. *)
Lemma normalize_digest_idem value d : normalize_digest value = Ok d -> normalize_digest d = Ok d.
Proof.
  intros (h & _ & Hl & Hf & ->)%normalize_digest_inv.
  pose proof (lower_hex h Hf) as Hlow. rewrite normalize_digest_ok.
  - by rewrite lower_lower_hex.
  - unfold lower. by rewrite length_map.
  - by apply hex_any.
Qed.

Lemma normalize_digest_text `{Hash} m : normalize_digest (digest_text m) = Ok (digest_text m).
Proof.
  unfold digest_text. pose proof (hex_in_hex _ (sha256_bytes m)) as Hh.
  rewrite normalize_digest_ok; [by rewrite lower_lower_hex| |by apply hex_any].
  by rewrite length_hex, sha256_length.
Qed.
