(* ===== verification/OsPath.v ===== *)
(** [os.path] on POSIX as the source uses it: [dirname], [basename], [join]. *)
From S2P Require Import Prelude Crypto PyStr.

(** The text up to and including the last slash, and the rest. *)
Fixpoint cut_last (p : pystr) : pystr * pystr :=
  match p with
  | [] => ([], [])
  | c :: r =>
      match cut_last r with
      | ([], _) => if c =? 47 then ([47], r) else ([], c :: r)
      | (h, t) => (c :: h, t)
      end
  end.

Fixpoint lstrip_slash (s : pystr) : pystr :=
  match s with c :: r => if c =? 47 then lstrip_slash r else s | [] => [] end.
Definition rstrip_slash (s : pystr) : pystr := rev (lstrip_slash (rev s)).

Definition basename (p : pystr) : pystr := (cut_last p).2.

Definition dirname (p : pystr) : pystr :=
  let head := (cut_last p).1 in
  if forallb (fun c => c =? 47) head then head else rstrip_slash head.

Definition path_join (a b : pystr) : pystr :=
  if startswith [47] b then b
  else if bool_decide (a = []) || endswith [47] a then a ++ b
  else a ++ 47 :: b.

(** * Relative paths with no empty component *)

Inductive rel_path : pystr -> Prop :=
| RelBase b : b <> [] -> 47 ∉ b -> rel_path b
| RelSub q b : rel_path q -> b <> [] -> 47 ∉ b -> rel_path (q ++ 47 :: b).

Definition is_rel_path (p : pystr) : bool := forallb (fun c => negb (bool_decide (c = []))) (split 47 p).

Lemma cut_last_base b : 47 ∉ b -> cut_last b = ([], b).
Proof.
  induction b as [|c b IH]; intros Hb; [done|]. apply not_elem_of_cons in Hb as [Hc Hb].
  cbn [cut_last]. rewrite IH by done. by rewrite (proj2 (Z.eqb_neq _ _)) by congruence.
Qed.

Lemma cut_last_sub q b : 47 ∉ b -> cut_last (q ++ 47 :: b) = (q ++ [47], b).
Proof.
  intros Hb. induction q as [|c q IH]; cbn [app cut_last].
  - by rewrite cut_last_base.
  - rewrite IH. by destruct q.
Qed.

Lemma rel_path_last q : rel_path q -> exists l c, q = l ++ [c] /\ c <> 47.
Proof.
  assert (forall b : pystr, b <> [] -> 47 ∉ b -> exists l c, b = l ++ [c] /\ c <> 47) as Hb.
  { intros b Hne Hb. destruct (exists_last Hne) as (l & c & ->). exists l, c. split; [done|].
    intros ->. apply Hb. apply elem_of_app. right. by left. }
  destruct 1 as [b Hne Hs|q b Hq Hne Hs]; [by apply Hb|].
  destruct (Hb b Hne Hs) as (l & c & -> & Hc). exists (q ++ 47 :: l), c. by rewrite <- app_assoc.
Qed.

Lemma rstrip_slash_one q c : c <> 47 -> rstrip_slash ((q ++ [c]) ++ [47]) = q ++ [c].
Proof.
  intros Hc. unfold rstrip_slash. rewrite rev_unit. cbn [lstrip_slash Z.eqb Pos.eqb].
  rewrite rev_unit. cbn [lstrip_slash]. rewrite (proj2 (Z.eqb_neq _ _)) by done.
  cbn [rev]. by rewrite rev_involutive.
Qed.

Lemma dirname_base b : 47 ∉ b -> dirname b = [].
Proof. intros Hb. unfold dirname. by rewrite cut_last_base. Qed.

Lemma dirname_sub q b : rel_path q -> 47 ∉ b -> dirname (q ++ 47 :: b) = q.
Proof.
  intros Hq Hb. unfold dirname. rewrite cut_last_sub by done. cbn [fst].
  destruct (rel_path_last q Hq) as (l & c & -> & Hc).
  rewrite !forallb_app. cbn [forallb]. rewrite (proj2 (Z.eqb_neq c 47)) by done. cbn [andb].
  rewrite andb_false_r. cbn [andb]. by apply rstrip_slash_one.
Qed.

Lemma basename_base b : 47 ∉ b -> basename b = b.
Proof. intros Hb. unfold basename. by rewrite cut_last_base. Qed.

Lemma basename_sub q b : 47 ∉ b -> basename (q ++ 47 :: b) = b.
Proof. intros Hb. unfold basename. by rewrite cut_last_sub. Qed.

Lemma rel_path_nonempty p : rel_path p -> p <> [].
Proof. destruct 1; [done|]. by destruct q. Qed.

Lemma path_join_rel q b : rel_path q -> b <> [] -> 47 ∉ b -> path_join q b = q ++ 47 :: b.
Proof.
  intros Hq Hne Hb. unfold path_join.
  assert (startswith [47] b = false) as ->.
  { destruct b as [|c b]; [done|]. cbn [startswith]. apply not_elem_of_cons in Hb as [Hc _].
    by rewrite (proj2 (Z.eqb_neq _ _)). }
  rewrite bool_decide_eq_false_2 by by apply rel_path_nonempty.
  destruct (rel_path_last q Hq) as (l & c & -> & Hc). unfold endswith. rewrite rev_unit. cbn [startswith rev app].
  by rewrite (proj2 (Z.eqb_neq _ _)) by congruence.
Qed.

Lemma split_cons_ne c s : split c s <> [].
Proof. destruct s as [|x s]; cbn [split]; [done|]. destruct (x =? c); [done|]. by destruct (split c s). Qed.

(** The decidable test agrees with the definition. *)
Lemma is_rel_path_spec p : is_rel_path p = true -> rel_path p.
Proof.
  unfold is_rel_path. rewrite <- (join_split 47 p) at 2. pose proof (split_free_parts 47 p) as Hf.
  pose proof (split_cons_ne 47 p) as Hne. set (l := split 47 p) in *. clearbody l. clear p.
  induction l as [|w l IH] using rev_ind; intros Ha; [done|].
  rewrite forallb_app in Ha. cbn [forallb] in Ha. bool_norm. apply Forall_app in Hf as [Hfl Hfw].
  inversion_clear Hfw as [|? ? Hw _]. rewrite join_snoc. destruct l as [|v l]; [by constructor|].
  apply RelSub; [by apply IH|done|done].
Qed.
