(* ===== verification/Changeset.v ===== *)
(** OCI changeset normalisation ([oci_changeset.py]): the archive members of a
    layer reduced, in order, to the final state of the paths they touch.

    The four mutable tables of [normalize_changeset] are the fields of [cstate];
    a node is reached only through its key of [table], so a mutated node is an
    updated entry.  Sets are finite sets: every use is either independent of
    their order or sorts them first. *)
From S2P Require Import Prelude Crypto PyStr OsPath.

Inductive entry_kind := FILE | DIRECTORY | HARDLINK | SYMLINK | CHAR | BLOCK | FIFO | WHITEOUT.
#[export] Instance entry_kind_eq_dec : EqDecision entry_kind.
Proof. solve_decision. Defined.

Section changeset.
(** [PayloadT] *)
Variable P : Type.

(** [ChangesetMember] *)
Record member := Member {
  ordinal : Z;
  path : pystr;
  kind : entry_kind;
  size : Z;
  mode : Z;
  uid : Z;
  gid : Z;
  mtime : Z;
  link_target : pystr;
  device_major : Z;
  device_minor : Z;
  xattrs : list (pystr * pystr);
  content : option P;
}.

(** [ChangesetMember.__post_init__] on values of the declared types *)
Definition member_init (m : member) : result member :=
  raise "oci-changeset-member: member ordinal is invalid" when ordinal m <? 0 ;;
  raise "oci-changeset-member: member path is invalid" when bool_decide (path m = []) ;;
  raise "oci-changeset-member: member numeric metadata is invalid"
    when existsb (fun z => z <? 0) [size m; mode m; uid m; gid m; mtime m; device_major m; device_minor m] ;;
  raise "oci-changeset-payload: regular member payload binding is missing"
    when bool_decide (kind m = FILE) && match content m with None => true | Some _ => false end ;;
  raise "oci-changeset-payload: non-regular member owns a payload binding"
    when bool_decide (kind m <> FILE) && match content m with None => false | Some _ => true end ;;
  Ok m.

(** [NormalizedEntry] *)
Record entry := Entry {
  e_path : pystr;
  e_kind : entry_kind;
  e_size : Z;
  e_mode : Z;
  e_uid : Z;
  e_gid : Z;
  e_mtime : Z;
  e_link_target : pystr;
  e_device_major : Z;
  e_device_minor : Z;
  e_xattrs : list (pystr * pystr);
  e_content : option P;
  e_opaque : bool;
  e_synthetic : bool;
  e_source_ordinal : option Z;
}.

(** [_Node] *)
Record node := Node {
  n_member : member;
  n_kind : entry_kind;
  group_id : option Z;
  pending_target : option pystr;
  opaque : bool;
  opaque_placeholder : bool;
  synthetic : bool;
}.
#[export] Instance node_eta : Eta node := fun n =>
  Node (n_member n) (n_kind n) (group_id n) (pending_target n) (opaque n) (opaque_placeholder n) (synthetic n).

Definition plain_node (m : member) (k : entry_kind) : node := Node m k None None false false false.

(** [_parent] *)
Definition parent_of (p : pystr) : option pystr :=
  if bool_decide (p = u ".") then None
  else let value := dirname p in Some (if bool_decide (value = []) then u "." else value).

(** [_synthetic_directory] *)
Definition synthetic_directory (p : pystr) (mtime ordinal : Z) : member :=
  Member ordinal p DIRECTORY 0 493 0 0 mtime [] 0 0 [] None.

(** The tables [normalize_changeset] mutates. *)
Record cstate := CState {
  table : gmap pystr node;
  children : gmap pystr (gset pystr);
  pending_by_target : gmap pystr (gset pystr);
  groups : gmap Z member;
}.
#[export] Instance cstate_eta : Eta cstate := fun s =>
  CState (table s) (children s) (pending_by_target s) (groups s).

Definition cstate_init : cstate := CState ∅ ∅ ∅ ∅.

(** [children.get(path, ())] *)
Definition children_of (s : cstate) (p : pystr) : gset pystr := default ∅ (children s !! p).
Definition waiting_for (s : cstate) (t : pystr) : gset pystr := default ∅ (pending_by_target s !! t).

(** * The nested helpers *)

Definition register (s : cstate) (p : pystr) : cstate :=
  match parent_of p with
  | Some q => s <| children := <[q := {[p]} ∪ children_of s q]> (children s) |>
  | None => s
  end.

Definition cancel_pending (s : cstate) (p : pystr) (n : node) : cstate :=
  match pending_target n with
  | None => s
  | Some t =>
      match pending_by_target s !! t with
      | None => s
      | Some waiting =>
          let waiting := waiting ∖ {[p]} in
          s <| pending_by_target := if bool_decide (waiting = ∅) then delete t (pending_by_target s)
                                    else <[t := waiting]> (pending_by_target s) |>
      end
  end.

Definition remove_exact (s : cstate) (p : pystr) (keep_children : bool) : cstate :=
  let prior := table s !! p in
  let s := s <| table := delete p (table s) |> in
  let s := match prior with Some n => cancel_pending s p n | None => s end in
  if keep_children then s
  else
    let s := s <| children := delete p (children s) |> in
    match parent_of p with
    | Some q => s <| children := alter (fun c => c ∖ {[p]}) q (children s) |>
    | None => s
    end.

(** [while pending: ...]: the list is a stack whose top is its last element in
    the source, its head here. *)
Fixpoint purge_loop (fuel : nat) (s : cstate) (pending : list pystr) : option cstate :=
  match pending with
  | [] => Some s
  | descendant :: pending =>
      match fuel with
      | O => None
      | S fuel =>
          purge_loop fuel (remove_exact s descendant false) (elements (children_of s descendant) ++ pending)
      end
  end.

(** Every turn removes a path of the table. *)
Definition purge_fuel (s : cstate) : nat := base.size (table s).

Definition purge_subtree (s : cstate) (p : pystr) (include_root : bool) : option cstate :=
  match purge_loop (purge_fuel s) s (elements (children_of s p)) with
  | None => None
  | Some s =>
      let s := s <| children := delete p (children s) |> in
      Some (if include_root then remove_exact s p false else s)
  end.

Definition set_node (s : cstate) (p : pystr) (n : node) (preserve_children : bool) : cstate :=
  let s := remove_exact s p preserve_children in
  let s := s <| table := <[p := n]> (table s) |> in
  register s p.

(** [while parent not in {None, "."}: chain.append(parent); ...]: the proper
    ancestors below the root, nearest first; [None] when the chain does not end
    (an absolute path: [_parent("/")] is ["/"]). *)
Fixpoint parent_chain (fuel : nat) (p : pystr) : option (list pystr) :=
  match parent_of p with
  | None => Some []
  | Some q =>
      if bool_decide (q = u ".") then Some []
      else match fuel with
           | O => None
           | S fuel => match parent_chain fuel q with Some c => Some (q :: c) | None => None end
           end
  end.

(** Failures of the model itself, not of the source: a loop that did not end. *)
Definition NonTermination : string := "NonTermination".
Definition or_loop {A} (o : option A) : result A := match o with Some a => Ok a | None => Err NonTermination end.

(** The body of [for directory in reversed(chain)]. *)
Definition ensure_directory (m : member) (refresh : bool) (s : cstate) (directory : pystr) : result cstate :=
  let fresh := (plain_node (synthetic_directory directory (mtime m) (ordinal m)) DIRECTORY) <| synthetic := true |> in
  let replace_it :=
    let? s := or_loop (purge_subtree s directory true) in
    Ok (set_node s directory fresh true) in
  match table s !! directory with
  | Some current =>
      if bool_decide (n_kind current = DIRECTORY) then
        if opaque_placeholder current && refresh then
          Ok (s <| table := <[directory := current <| n_member := n_member fresh |>
                                             <| opaque_placeholder := false |>]> (table s) |>)
        else Ok s
      else replace_it
  | None => replace_it
  end.

Fixpoint ensure_chain (m : member) (refresh : bool) (s : cstate) (chain : list pystr) : result cstate :=
  match chain with
  | [] => Ok s
  | directory :: chain => let? s := ensure_directory m refresh s directory in ensure_chain m refresh s chain
  end.

Definition ensure_parents (s : cstate) (p : pystr) (m : member) (refresh : bool) : result cstate :=
  let? chain := or_loop (parent_chain (length p) p) in
  ensure_chain m refresh s (rev chain).

(** The body of [for link_path in sorted(...)]; each path is visited once, so
    the updates commute. *)
Definition resolve_link (target : pystr) (g : Z) (t : gmap pystr node) (link : pystr) : gmap pystr node :=
  match t !! link with
  | Some n =>
      if bool_decide (pending_target n = Some target)
      then <[link := n <| pending_target := None |> <| group_id := Some g |>]> t
      else t
  | None => t
  end.

Definition resolve_forward (s : cstate) (target : pystr) (g : Z) : cstate :=
  let links := elements (waiting_for s target) in
  s <| pending_by_target := delete target (pending_by_target s) |>
    <| table := fold_left (resolve_link target g) links (table s) |>.

(** * One member *)

Definition empty_marker (m : member) : bool :=
  bool_decide (kind m = FILE) && (size m =? 0) && bool_decide (xattrs m = []).

Definition or_dot (p : pystr) : pystr := if bool_decide (p = []) then u "." else p.

Definition apply_opaque (s : cstate) (m : member) : result cstate :=
  raise "oci-whiteout-marker: OCI opaque marker must be an empty regular file without control metadata"
    when negb (empty_marker m) ;;
  let opaque_path := or_dot (dirname (path m)) in
  let? s := if bool_decide (opaque_path = u ".") then Ok s else ensure_parents s opaque_path m false in
  let replace_it :=
    let? s := or_loop (purge_subtree s opaque_path true) in
    let current := (plain_node (synthetic_directory opaque_path 0 (ordinal m)) DIRECTORY)
                     <| opaque_placeholder := bool_decide (opaque_path <> u ".") |> <| synthetic := true |> in
    Ok (set_node s opaque_path (current <| opaque := true |>) true) in
  match table s !! opaque_path with
  | Some current =>
      if bool_decide (n_kind current = DIRECTORY)
      then Ok (s <| table := <[opaque_path := current <| opaque := true |>]> (table s) |>)
      else replace_it
  | None => replace_it
  end.

Definition whiteout_prefix : pystr := u ".wh.".

Definition whiteout_member (m : member) (target : pystr) : member :=
  Member (ordinal m) target WHITEOUT (size m) 384 0 0 (mtime m) [] 0 0 [] None.

Definition apply_whiteout (s : cstate) (m : member) : result cstate :=
  let target_name := drop (length whiteout_prefix) (basename (path m)) in
  let parent := or_dot (dirname (path m)) in
  raise "oci-whiteout-target: Invalid OCI whiteout target"
    when bool_decide (target_name = []) || bool_decide (target_name = u ".") || bool_decide (target_name = u "..")
         || startswith whiteout_prefix target_name ;;
  raise "oci-whiteout-marker: OCI whiteout marker must be an empty regular file without control metadata"
    when negb (empty_marker m) ;;
  let target := if bool_decide (parent = u ".") then target_name else path_join parent target_name in
  let? s := ensure_parents s target m false in
  let? s := or_loop (purge_subtree s target true) in
  Ok (set_node s target (plain_node (whiteout_member m target) WHITEOUT) false).

Definition apply_plain (s : cstate) (m : member) : result cstate :=
  let p := path m in
  let? s := if bool_decide (p = u ".") then Ok s else ensure_parents s p m true in
  let? s := if bool_decide (kind m = DIRECTORY) then Ok s else or_loop (purge_subtree s p false) in
  let preserve_opaque :=
    match table s !! p with
    | Some prior => bool_decide (kind m = DIRECTORY) && bool_decide (n_kind prior = DIRECTORY) && opaque prior
    | None => false
    end in
  match kind m with
  | FILE =>
      let g := ordinal m in
      let s := s <| groups := <[g := m]> (groups s) |> in
      let s := set_node s p ((plain_node m FILE) <| group_id := Some g |>) false in
      Ok (resolve_forward s p g)
  | HARDLINK =>
      raise "oci-hardlink-self: OCI hardlink cannot target itself" when bool_decide (link_target m = p) ;;
      match table s !! link_target m with
      | Some target =>
          match n_kind target with
          | FILE => Ok (set_node s p ((plain_node m HARDLINK) <| group_id := group_id target |>) false)
          | HARDLINK => Err "oci-hardlink-chain: OCI hardlink target must be a same-layer regular file"
          | _ =>
              let s := s <| pending_by_target :=
                              <[link_target m := {[p]} ∪ waiting_for s (link_target m)]> (pending_by_target s) |> in
              Ok (set_node s p ((plain_node m HARDLINK) <| pending_target := Some (link_target m) |>) false)
          end
      | None =>
          let s := s <| pending_by_target :=
                          <[link_target m := {[p]} ∪ waiting_for s (link_target m)]> (pending_by_target s) |> in
          Ok (set_node s p ((plain_node m HARDLINK) <| pending_target := Some (link_target m) |>) false)
      end
  | k => Ok (set_node s p ((plain_node m k) <| opaque := preserve_opaque |>) (bool_decide (k = DIRECTORY)))
  end.

Definition apply_member (s : cstate) (m : member) : result cstate :=
  if bool_decide (basename (path m) = u ".wh..wh..opq") then apply_opaque s m
  else if startswith whiteout_prefix (basename (path m)) then apply_whiteout s m
  else apply_plain s m.

Fixpoint apply_members (s : cstate) (ms : list member) : result cstate :=
  match ms with
  | [] => Ok s
  | m :: ms => let? s := apply_member s m in apply_members s ms
  end.

(** * The final table *)

(** [if "." not in table] *)
Definition add_root (s : cstate) (count : Z) : gmap pystr node :=
  match table s !! u "." with
  | Some _ => table s
  | None => <[u "." := (plain_node (synthetic_directory (u ".") 0 count) DIRECTORY) <| synthetic := true |>]> (table s)
  end.

(** The paths of a table in order: [sorted(table)]. *)
Definition sorted_paths (t : gmap pystr node) : list pystr := sorted (map fst (map_to_list t)).

Definition node_at (t : gmap pystr node) (f : node -> bool) (p : pystr) : bool :=
  match t !! p with Some n => f n | None => false end.

Definition in_group (g : Z) (n : node) : bool := bool_decide (group_id n = Some g).

(** [group_paths[g]], sorted *)
Definition group_paths (t : gmap pystr node) (g : Z) : list pystr :=
  filter (fun p => node_at t (in_group g) p = true) (sorted_paths t).

(** [carriers[g]] *)
Definition carrier (t : gmap pystr node) (g : Z) : pystr :=
  let paths := group_paths t g in
  match filter (fun p => node_at t (fun n => bool_decide (n_kind n = FILE)) p = true) paths with
  | p :: _ => p
  | [] => hd [] paths
  end.

(** [tuple(sorted(dict(...).items()))]: the last value of a key counts. *)
Definition xattr_dict (l : list (pystr * pystr)) : gmap pystr pystr :=
  fold_left (fun d kv => <[kv.1 := kv.2]> d) l ∅.
Definition attr_le (a b : pystr * pystr) : Prop := str_le a.1 b.1.
#[export] Instance attr_le_dec : RelDecision attr_le.
Proof. intros a b. unfold attr_le. apply _. Defined.
Definition sorted_xattrs (d : gmap pystr pystr) : list (pystr * pystr) :=
  merge_sort attr_le (map_to_list d).

Definition opaque_xattr : pystr := u "trusted.overlay.opaque".

Definition normalize_node (t : gmap pystr node) (gs : gmap Z member) (count : Z) (p : pystr) (n : node) :
    result entry :=
  let m := n_member n in
  let xs := xattr_dict (xattrs m) in
  raise "oci-opaque-state: opaque state requires a directory"
    when opaque n && bool_decide (n_kind n <> DIRECTORY) ;;
  let xs := if opaque n then <[opaque_xattr := u "y"]> xs else xs in
  match group_id n with
  | Some g =>
      match gs !! g with
      | None => Err "oci-hardlink-group: hardlink payload group is missing"
      | Some source =>
          let c := carrier t g in
          if bool_decide (p = c) then
            Ok (Entry p FILE (size source) (mode source) (uid source) (gid source) (mtime source) [] 0 0
                  (xattrs source) (content source) false (bool_decide (p <> path source)) (Some (ordinal source)))
          else
            Ok (Entry p HARDLINK 0 (mode m) (uid m) (gid m) (mtime m) c 0 0 (xattrs m) None false false
                  (Some (ordinal m)))
      end
  | None =>
      Ok (Entry p (n_kind n) (size m) (mode m) (uid m) (gid m) (mtime m) (link_target m) (device_major m)
            (device_minor m) (sorted_xattrs xs) None (opaque n) (synthetic n)
            (if ordinal m <? count then Some (ordinal m) else None))
  end.

(** [normalized], in path order (the source builds a dict and sorts it after). *)
Definition normalize_nodes (t : gmap pystr node) (gs : gmap Z member) (count : Z) : result (list entry) :=
  map_result (fun p => match t !! p with
                       | Some n => normalize_node t gs count p n
                       | None => Err "KeyError"
                       end) (sorted_paths t).

(** * Emission order *)

(** One pass over [remaining]: what it emits, what it defers. *)
Fixpoint emit_pass (emitted : gset pystr) (remaining : list entry) : gset pystr * list entry * list entry :=
  match remaining with
  | [] => (emitted, [], [])
  | e :: remaining =>
      if bool_decide (e_kind e = HARDLINK) && negb (bool_decide (e_link_target e ∈ emitted)) then
        let ' (emitted, out, deferred) := emit_pass emitted remaining in (emitted, out, e :: deferred)
      else
        let ' (emitted, out, deferred) := emit_pass ({[e_path e]} ∪ emitted) remaining in
        (emitted, e :: out, deferred)
  end.

Fixpoint emit_loop (fuel : nat) (emitted : gset pystr) (remaining : list entry) : result (list entry) :=
  match remaining with
  | [] => Ok []
  | _ :: _ =>
      match fuel with
      | O => Err NonTermination
      | S fuel =>
          let ' (emitted, out, deferred) := emit_pass emitted remaining in
          raise "oci-hardlink-order: hardlink emission order cannot be resolved"
            when (length deferred =? length remaining)%nat ;;
          let? rest := emit_loop fuel emitted deferred in
          Ok (out ++ rest)
      end
  end.

Definition emit (entries : list entry) : result (list entry) := emit_loop (length entries) ∅ entries.

(** * [normalize_changeset] *)

Fixpoint ordinals_from (i : Z) (ms : list member) : bool :=
  match ms with
  | [] => true
  | m :: ms => (ordinal m =? i) && ordinals_from (i + 1) ms
  end.

Definition is_pending (n : node) : bool := bool_decide (pending_target n <> None).

Definition normalize_changeset (ms : list member) : result (list entry) :=
  raise "oci-changeset-input: member ordinals are not contiguous archive order"
    when negb (ordinals_from 0 ms) ;;
  let? s := apply_members cstate_init ms in
  let t := add_root s (zlen ms) in
  raise "oci-hardlink-target: OCI hardlink target must be a same-layer regular file"
    when existsb (node_at t is_pending) (sorted_paths t) ;;
  let? entries := normalize_nodes t (groups s) (zlen ms) in
  emit entries.
End changeset.

Arguments Member {P}.
Arguments Entry {P}.
Arguments Node {P}.
Arguments CState {P}.
Arguments ordinal {P}.
Arguments path {P}.
Arguments kind {P}.
Arguments size {P}.
Arguments mode {P}.
Arguments uid {P}.
Arguments gid {P}.
Arguments mtime {P}.
Arguments link_target {P}.
Arguments device_major {P}.
Arguments device_minor {P}.
Arguments xattrs {P}.
Arguments content {P}.
Arguments e_path {P}.
Arguments e_kind {P}.
Arguments e_size {P}.
Arguments e_mode {P}.
Arguments e_uid {P}.
Arguments e_gid {P}.
Arguments e_mtime {P}.
Arguments e_link_target {P}.
Arguments e_device_major {P}.
Arguments e_device_minor {P}.
Arguments e_xattrs {P}.
Arguments e_content {P}.
Arguments e_opaque {P}.
Arguments e_synthetic {P}.
Arguments e_source_ordinal {P}.
Arguments n_member {P}.
Arguments n_kind {P}.
Arguments group_id {P}.
Arguments pending_target {P}.
Arguments opaque {P}.
Arguments opaque_placeholder {P}.
Arguments synthetic {P}.
Arguments table {P}.
Arguments children {P}.
Arguments pending_by_target {P}.
Arguments groups {P}.
Arguments member_init {P}.
Arguments plain_node {P}.
Arguments synthetic_directory {P}.
Arguments cstate_init {P}.
Arguments children_of {P}.
Arguments waiting_for {P}.
Arguments register {P}.
Arguments cancel_pending {P}.
Arguments remove_exact {P}.
Arguments purge_loop {P}.
Arguments purge_fuel {P}.
Arguments purge_subtree {P}.
Arguments set_node {P}.
Arguments ensure_directory {P}.
Arguments ensure_chain {P}.
Arguments ensure_parents {P}.
Arguments resolve_link {P}.
Arguments resolve_forward {P}.
Arguments empty_marker {P}.
Arguments apply_opaque {P}.
Arguments whiteout_member {P}.
Arguments apply_whiteout {P}.
Arguments apply_plain {P}.
Arguments apply_member {P}.
Arguments apply_members {P}.
Arguments add_root {P}.
Arguments sorted_paths {P}.
Arguments node_at {P}.
Arguments in_group {P}.
Arguments group_paths {P}.
Arguments carrier {P}.
Arguments normalize_node {P}.
Arguments normalize_nodes {P}.
Arguments emit_pass {P}.
Arguments emit_loop {P}.
Arguments emit {P}.
Arguments ordinals_from {P}.
Arguments is_pending {P}.
Arguments normalize_changeset {P}.
