(* ===== verification/ChangesetRef.v ===== *)
(** A reference definition of changeset normalisation: one table, no index.
    A subtree is purged by filtering the paths below it, and a forward hardlink
    is resolved by updating every node that waits for its target. *)
From S2P Require Import Prelude Crypto PyStr OsPath Changeset.

(** * Ancestors *)

Fixpoint ancestors_fuel (fuel : nat) (p : pystr) : list pystr :=
  match parent_of p with
  | None => []
  | Some q => q :: match fuel with O => [] | S fuel => ancestors_fuel fuel q end
  end.

(** The parent of [p], its parent, and so on up to the root. *)
Definition ancestors (p : pystr) : list pystr := ancestors_fuel (length p) p.

Definition is_below (q p : pystr) : bool := bool_decide (q ∈ ancestors p).

Section reference.
Variable P : Type.
Notation member := (Changeset.member P).
Notation node := (Changeset.node P).
Notation tree := (gmap pystr node).

Definition ref_purge (t : tree) (q : pystr) (include_root : bool) : tree :=
  filter (fun kv => negb (is_below q kv.1 || (include_root && bool_decide (kv.1 = q))) = true) t.

Definition ref_directory (m : member) (refresh : bool) (t : tree) (d : pystr) : tree :=
  let fresh := (plain_node (synthetic_directory d (mtime m) (ordinal m)) DIRECTORY) <| synthetic := true |> in
  match t !! d with
  | Some current =>
      if bool_decide (n_kind current = DIRECTORY) then
        if opaque_placeholder current && refresh then
          <[d := current <| n_member := n_member fresh |> <| opaque_placeholder := false |>]> t
        else t
      else <[d := fresh]> (ref_purge t d true)
  | None => <[d := fresh]> (ref_purge t d true)
  end.

(** The proper ancestors of [p] below the root are directories, outermost first. *)
Definition ref_parents (t : tree) (p : pystr) (m : member) (refresh : bool) : tree :=
  fold_left (ref_directory m refresh) (rev (filter (fun q => q <> u ".") (ancestors p))) t.

Definition ref_resolve (t : tree) (target : pystr) (g : Z) : tree :=
  (fun n => if bool_decide (pending_target n = Some target)
            then n <| pending_target := None |> <| group_id := Some g |> else n) <$> t.

Definition ref_opaque (t : tree) (m : member) : result tree :=
  raise "oci-whiteout-marker: OCI opaque marker must be an empty regular file without control metadata"
    when negb (empty_marker m) ;;
  let p := or_dot (dirname (path m)) in
  let t := if bool_decide (p = u ".") then t else ref_parents t p m false in
  let fresh := (plain_node (synthetic_directory p 0 (ordinal m)) DIRECTORY)
                 <| opaque_placeholder := bool_decide (p <> u ".") |> <| synthetic := true |> in
  match t !! p with
  | Some current =>
      if bool_decide (n_kind current = DIRECTORY) then Ok (<[p := current <| opaque := true |>]> t)
      else Ok (<[p := fresh <| opaque := true |>]> (ref_purge t p true))
  | None => Ok (<[p := fresh <| opaque := true |>]> (ref_purge t p true))
  end.

Definition whiteout_path (m : member) : pystr :=
  let target_name := drop (length whiteout_prefix) (basename (path m)) in
  let parent := or_dot (dirname (path m)) in
  if bool_decide (parent = u ".") then target_name else path_join parent target_name.

Definition ref_whiteout (t : tree) (m : member) : result tree :=
  let target_name := drop (length whiteout_prefix) (basename (path m)) in
  raise "oci-whiteout-target: Invalid OCI whiteout target"
    when bool_decide (target_name = []) || bool_decide (target_name = u ".") || bool_decide (target_name = u "..")
         || startswith whiteout_prefix target_name ;;
  raise "oci-whiteout-marker: OCI whiteout marker must be an empty regular file without control metadata"
    when negb (empty_marker m) ;;
  let p := whiteout_path m in
  let t := ref_parents t p m false in
  Ok (<[p := plain_node (whiteout_member m p) WHITEOUT]> (ref_purge t p true)).

Definition ref_plain (t : tree) (m : member) : result tree :=
  let p := path m in
  let t := if bool_decide (p = u ".") then t else ref_parents t p m true in
  let t := if bool_decide (kind m = DIRECTORY) then t else ref_purge t p false in
  let preserve_opaque :=
    match t !! p with
    | Some prior => bool_decide (kind m = DIRECTORY) && bool_decide (n_kind prior = DIRECTORY) && opaque prior
    | None => false
    end in
  let waiting := <[p := (plain_node m HARDLINK) <| pending_target := Some (link_target m) |>]> t in
  match kind m with
  | FILE => Ok (ref_resolve (<[p := (plain_node m FILE) <| group_id := Some (ordinal m) |>]> t) p (ordinal m))
  | HARDLINK =>
      raise "oci-hardlink-self: OCI hardlink cannot target itself" when bool_decide (link_target m = p) ;;
      match t !! link_target m with
      | Some target =>
          match n_kind target with
          | FILE => Ok (<[p := (plain_node m HARDLINK) <| group_id := group_id target |>]> t)
          | HARDLINK => Err "oci-hardlink-chain: OCI hardlink target must be a same-layer regular file"
          | _ => Ok waiting
          end
      | None => Ok waiting
      end
  | k => Ok (<[p := (plain_node m k) <| opaque := preserve_opaque |>]> t)
  end.

Definition ref_member (t : tree) (m : member) : result tree :=
  if bool_decide (basename (path m) = u ".wh..wh..opq") then ref_opaque t m
  else if startswith whiteout_prefix (basename (path m)) then ref_whiteout t m
  else ref_plain t m.

Fixpoint ref_members (t : tree) (ms : list member) : result tree :=
  match ms with
  | [] => Ok t
  | m :: ms => let? t := ref_member t m in ref_members t ms
  end.

(** The regular members of the archive, by ordinal. *)
Definition regular (m : member) : bool :=
  bool_decide (kind m = FILE) && negb (startswith whiteout_prefix (basename (path m))).
Definition ref_groups (ms : list member) : gmap Z member :=
  fold_left (fun g m => if regular m then <[ordinal m := m]> g else g) ms ∅.

Definition normalize_ref (ms : list member) : result (list (entry P)) :=
  raise "oci-changeset-input: member ordinals are not contiguous archive order"
    when negb (ordinals_from 0 ms) ;;
  let? t := ref_members ∅ ms in
  let t := match t !! u "." with
           | Some _ => t
           | None => <[u "." := (plain_node (synthetic_directory (u ".") 0 (zlen ms)) DIRECTORY) <| synthetic := true |>]> t
           end in
  raise "oci-hardlink-target: OCI hardlink target must be a same-layer regular file"
    when existsb (node_at t is_pending) (sorted_paths t) ;;
  let? entries := normalize_nodes t (ref_groups ms) (zlen ms) in
  emit entries.

(** A HARDLINK that repeats a pending hardlink: same path, same target. *)
Definition repeats_pending (t : tree) (m : member) : bool :=
  bool_decide (kind m = HARDLINK) &&
  match t !! path m with Some n => bool_decide (pending_target n = Some (link_target m)) | None => false end.

Fixpoint no_repeats (t : tree) (ms : list member) : bool :=
  match ms with
  | [] => true
  | m :: ms =>
      negb (repeats_pending t m) &&
      match ref_member t m with Ok t => no_repeats t ms | Err _ => true end
  end.
End reference.
