(* ===== verification/ChangesetFacts.v ===== *)
(** The indexed tables of [normalize_changeset] implement the reference table:
    the child index purges exactly the paths below, the pending index resolves
    exactly the links that wait, and the loops end. *)
From S2P Require Import Prelude Crypto PyStr OsPath Changeset ChangesetRef.

(** * Parents and ancestors *)

Definition dot : pystr := u ".".

Lemma parent_dot : parent_of dot = None.
Proof. reflexivity. Qed.

Lemma rel_dot : rel_path dot.
Proof. constructor; [done|]. by apply (bool_decide_unpack _). Qed.

Definition rank (p : pystr) : nat := if bool_decide (p = dot) then 0 else S (length p).

Lemma parent_of_rel p : rel_path p -> p <> dot ->
  exists q, parent_of p = Some q /\ rel_path q /\ (rank q < rank p)%nat.
Proof.
  intros Hp Hne. unfold parent_of, rank. rewrite !(bool_decide_eq_false_2 (p = _)) by done.
  destruct Hp as [b Hb Hs|q b Hq Hb Hs].
  - exists dot. rewrite dirname_base by done. rewrite bool_decide_eq_true_2 by done.
    split; [done|]. split; [apply rel_dot|]. rewrite bool_decide_eq_true_2 by done. lia.
  - exists q. rewrite dirname_sub by done. rewrite bool_decide_eq_false_2 by (by apply rel_path_nonempty).
    split; [done|]. split; [done|]. case_bool_decide; [lia|]. rewrite length_app. simpl. lia.
Qed.

Lemma parent_of_Some p q : rel_path p -> parent_of p = Some q -> p <> dot /\ rel_path q /\ (rank q < rank p)%nat.
Proof.
  intros Hp Hq. assert (p <> dot) as Hne by (intros ->; done).
  destruct (parent_of_rel p Hp Hne) as (q' & Hq' & Hr & Hl). simplify_eq. done.
Qed.

Lemma parent_of_None p : rel_path p -> parent_of p = None -> p = dot.
Proof.
  intros Hp Hn. destruct (decide (p = dot)) as [|Hne]; [done|].
  destruct (parent_of_rel p Hp Hne) as (q & Hq & _). congruence.
Qed.

Lemma ancestors_fuel_enough f : forall g p, rel_path p -> (rank p <= S f)%nat -> (rank p <= S g)%nat ->
  ancestors_fuel f p = ancestors_fuel g p.
Proof.
  induction f as [|f IH]; intros g p Hp Hf Hg.
  - destruct g as [|g]; [done|]. cbn [ancestors_fuel]. destruct (parent_of p) as [q|] eqn:E; [|done].
    apply parent_of_Some in E as (_ & Hq & Hr); [|done]. f_equal.
    assert (q = dot) as ->; [|by destruct g].
    unfold rank in Hr, Hf. repeat case_bool_decide; try done; lia.
  - cbn [ancestors_fuel]. destruct (parent_of p) as [q|] eqn:E; [|by destruct g; cbn [ancestors_fuel]; rewrite E].
    apply parent_of_Some in E as E'; [|done]. destruct E' as (_ & Hq & Hr).
    destruct g as [|g].
    + cbn [ancestors_fuel]. rewrite E. f_equal. assert (q = dot) as ->; [|by destruct f].
      unfold rank in Hr, Hg. repeat case_bool_decide; try done; lia.
    + cbn [ancestors_fuel]. rewrite E. f_equal. apply IH; [done|lia|lia].
Qed.

Lemma rank_le p : (rank p <= S (length p))%nat.
Proof. unfold rank. case_bool_decide; lia. Qed.

Lemma ancestors_dot : ancestors dot = [].
Proof. reflexivity. Qed.

Lemma ancestors_parent p q : rel_path p -> parent_of p = Some q -> ancestors p = q :: ancestors q.
Proof.
  intros Hp Hq. apply parent_of_Some in Hq as Hq'; [|done]. destruct Hq' as (_ & Hrq & Hr).
  pose proof (rank_le p). pose proof (rank_le q). unfold ancestors.
  destruct (length p) as [|n] eqn:En.
  - destruct p; [|done]. by apply rel_path_nonempty in Hp.
  - cbn [ancestors_fuel]. rewrite Hq. f_equal. apply ancestors_fuel_enough; [done|lia|lia].
Qed.

(** Induction along the chain of parents. *)
Lemma rel_path_ind' (Q : pystr -> Prop) : Q dot ->
  (forall p q, rel_path p -> parent_of p = Some q -> rel_path q -> Q q -> Q p) ->
  forall p, rel_path p -> Q p.
Proof.
  intros Hd Hs p. remember (rank p) as n eqn:Hn. revert p Hn.
  induction n as [n IH] using lt_wf_ind. intros p -> Hp.
  destruct (decide (p = dot)) as [->|Hne]; [done|].
  destruct (parent_of_rel p Hp Hne) as (q & Hq & Hrq & Hr). eapply Hs; [done|done|done|]. by eapply IH.
Qed.

Lemma is_below_dot q : is_below q dot = false.
Proof. unfold is_below. rewrite ancestors_dot. apply bool_decide_eq_false_2, not_elem_of_nil. Qed.

Lemma is_below_parent p q r : rel_path p -> parent_of p = Some r ->
  is_below q p = bool_decide (r = q) || is_below q r.
Proof.
  intros Hp Hr. unfold is_below. rewrite (ancestors_parent p r Hp Hr). apply eq_true_iff_eq.
  rewrite orb_true_iff, !bool_decide_eq_true, elem_of_cons. naive_solver.
Qed.

Lemma is_below_rank p : rel_path p -> forall q, is_below q p = true -> (rank q < rank p)%nat /\ rel_path q.
Proof.
  intros Hp. induction Hp as [|p r Hp Hr Hrr IH] using rel_path_ind'; intros q Hq.
  - by rewrite is_below_dot in Hq.
  - rewrite (is_below_parent p q r Hp Hr) in Hq. apply parent_of_Some in Hr as (_ & Hrr' & Hlt); [|done].
    apply orb_true_iff in Hq as [Hq|Hq]; [bool_norm; by subst|]. destruct (IH q Hq). split; [lia|done].
Qed.

Lemma is_below_irrefl p : rel_path p -> is_below p p = false.
Proof.
  intros Hp. destruct (is_below p p) eqn:E; [|done]. apply is_below_rank in E as [Hlt _]; [lia|done].
Qed.

Lemma is_below_trans p q r : rel_path p -> is_below q p = true -> is_below r q = true -> is_below r p = true.
Proof.
  intros Hp. induction Hp as [|p s Hp Hs Hrs IH] using rel_path_ind'; intros Hq Hr.
  - by rewrite is_below_dot in Hq.
  - rewrite (is_below_parent p q s Hp Hs) in Hq. rewrite (is_below_parent p r s Hp Hs). apply orb_true_iff in Hq as [Hq|Hq].
    + bool_norm. subst s. rewrite Hr. apply orb_true_r.
    + rewrite IH by done. apply orb_true_r.
Qed.

(** The chain the source collects is the ancestors below the root. *)
Lemma parent_chain_ancestors f : forall p, rel_path p -> (rank p <= S f)%nat ->
  parent_chain f p = Some (filter (fun q => q <> dot) (ancestors p)).
Proof.
  induction f as [|f IH]; intros p Hp Hf.
  - cbn [parent_chain]. destruct (parent_of p) as [q|] eqn:E.
    + pose proof (ancestors_parent p q Hp E) as Ea. apply parent_of_Some in E as (_ & Hq & Hr); [|done].
      assert (q = dot) as -> by (unfold rank in Hr, Hf; repeat case_bool_decide; try done; lia).
      rewrite bool_decide_eq_true_2 by done. rewrite Ea, ancestors_dot. reflexivity.
    + apply parent_of_None in E as ->; [|done]. reflexivity.
  - cbn [parent_chain]. destruct (parent_of p) as [q|] eqn:E.
    + pose proof (ancestors_parent p q Hp E) as Ea. apply parent_of_Some in E as (_ & Hq & Hr); [|done].
      rewrite Ea. case_bool_decide as Hd.
      * assert (q = dot) as -> by done. rewrite ancestors_dot. reflexivity.
      * rewrite IH by (done || lia). rewrite filter_cons_True by done. done.
    + apply parent_of_None in E as ->; [|done]. reflexivity.
Qed.

Section facts.
Variable P : Type.
Notation member := (Changeset.member P).
Notation node := (Changeset.node P).
Notation cstate := (Changeset.cstate P).
Notation tree := (gmap pystr node).
Implicit Types (s : cstate) (n : node) (m : member).

(** * Invariants of the tables *)

(** Every key is a relative path whose parent, unless it is the root, is a
    directory of the table. *)
Definition is_dir (t : tree) (q : pystr) : Prop := exists n, t !! q = Some n /\ n_kind n = DIRECTORY.

Record tree_ok (t : tree) : Prop := {
  tree_rel : forall p, is_Some (t !! p) -> rel_path p;
  tree_closed : forall p q, is_Some (t !! p) -> parent_of p = Some q -> q = dot \/ is_dir t q;
}.

(** [children] is the inverse of [_parent] on the table, except under [X]. *)
Definition index_ok (s : cstate) (X : gset pystr) : Prop :=
  forall p q, q ∉ X -> p ∈ children_of s q <-> is_Some (table s !! p) /\ parent_of p = Some q.

(** [pending_by_target] lists the nodes that wait, by target. *)
Definition pending_ok (s : cstate) : Prop :=
  forall p t, p ∈ waiting_for s t <-> exists n, table s !! p = Some n /\ pending_target n = Some t.

Record tables_ok (s : cstate) : Prop := {
  ok_tree : tree_ok (table s);
  ok_index : index_ok s ∅;
  ok_pending : pending_ok s;
}.

(** * Removal of one path *)

Lemma cancel_pending_table s p n : table (cancel_pending s p n) = table s.
Proof. unfold cancel_pending. by repeat case_match. Qed.
Lemma cancel_pending_children s p n : children (cancel_pending s p n) = children s.
Proof. unfold cancel_pending. by repeat case_match. Qed.
Lemma cancel_pending_groups s p n : groups (cancel_pending s p n) = groups s.
Proof. unfold cancel_pending. by repeat case_match. Qed.

Lemma cancel_pending_waiting s p n t : waiting_for (cancel_pending s p n) t =
  if bool_decide (pending_target n = Some t) then waiting_for s t ∖ {[p]} else waiting_for s t.
Proof.
  unfold cancel_pending, waiting_for. destruct (pending_target n) as [t'|].
  2: { by rewrite bool_decide_eq_false_2. }
  destruct (pending_by_target s !! t') as [w|] eqn:E.
  - cbn [setter pending_by_target]. destruct (decide (t' = t)) as [->|Hne].
    + rewrite (bool_decide_eq_true_2 (Some t = Some t)) by done. rewrite E. cbn [default].
      case_bool_decide as Hw; [rewrite lookup_delete_eq; cbn; set_solver|by rewrite lookup_insert_eq].
    + rewrite (bool_decide_eq_false_2 (Some t' = Some t)) by congruence.
      case_bool_decide; [by rewrite lookup_delete_ne|by rewrite lookup_insert_ne].
  - case_bool_decide; [|done]. simplify_eq. rewrite E. set_solver.
Qed.

Lemma remove_exact_table s p k : table (remove_exact s p k) = delete p (table s).
Proof. unfold remove_exact. destruct (table s !! p), k, (parent_of p); cbn; by rewrite ?cancel_pending_table. Qed.

Lemma remove_exact_groups s p k : groups (remove_exact s p k) = groups s.
Proof. unfold remove_exact. destruct (table s !! p), k, (parent_of p); cbn; by rewrite ?cancel_pending_groups. Qed.

Lemma remove_exact_waiting s p k t : waiting_for (remove_exact s p k) t =
  match table s !! p with
  | Some n => if bool_decide (pending_target n = Some t) then waiting_for s t ∖ {[p]} else waiting_for s t
  | None => waiting_for s t
  end.
Proof.
  unfold remove_exact. destruct (table s !! p) as [n|]; [|by destruct k, (parent_of p)].
  pose proof (cancel_pending_waiting (s <| table := delete p (table s) |>) p n t) as Hc.
  change (waiting_for (s <| table := delete p (table s) |>) t) with (waiting_for s t) in Hc.
  rewrite <- Hc. by destruct k, (parent_of p).
Qed.

Lemma remove_exact_children_keep s p q : children_of (remove_exact s p true) q = children_of s q.
Proof. unfold remove_exact, children_of. destruct (table s !! p); [|done]. by rewrite cancel_pending_children. Qed.

Lemma remove_exact_children s p q : children_of (remove_exact s p false) q =
  if bool_decide (q = p) then ∅
  else if bool_decide (parent_of p = Some q) then children_of s q ∖ {[p]} else children_of s q.
Proof.
  unfold remove_exact, children_of.
  set (s1 := match table s !! p with Some n => _ | None => _ end).
  assert (children s1 = children s) as Hc.
  { unfold s1. destruct (table s !! p); [by rewrite cancel_pending_children|done]. }
  clearbody s1. destruct (parent_of p) as [r|]; cbn [setter children]; rewrite Hc.
  - destruct (decide (r = q)) as [->|Hr].
    + rewrite (bool_decide_eq_true_2 (Some q = Some q)), lookup_alter_eq by done.
      case_bool_decide as Hq; [subst; by rewrite lookup_delete_eq|].
      rewrite lookup_delete_ne by done. destruct (children s !! q); [done|]. cbn. set_solver.
    + rewrite (bool_decide_eq_false_2 (Some r = Some q)), lookup_alter_ne by congruence.
      case_bool_decide as Hq; [subst; by rewrite lookup_delete_eq|by rewrite lookup_delete_ne].
  - rewrite (bool_decide_eq_false_2 (None = Some q)) by done.
    case_bool_decide as Hq; [subst; by rewrite lookup_delete_eq|by rewrite lookup_delete_ne].
Qed.

Lemma remove_exact_pending_ok s p k : pending_ok s -> pending_ok (remove_exact s p k).
Proof.
  intros Hp q t. rewrite remove_exact_waiting, remove_exact_table.
  assert ((exists n, delete p (table s) !! q = Some n /\ pending_target n = Some t) <->
          p <> q /\ q ∈ waiting_for s t) as ->.
  { rewrite (Hp q t). setoid_rewrite lookup_delete_Some. naive_solver. }
  destruct (table s !! p) as [n|] eqn:E.
  - case_bool_decide as Ht; [set_solver|]. split; [|naive_solver]. intros Hq. split; [|done].
    intros <-. apply Hp in Hq as (n' & Hn' & Ht'). congruence.
  - split; [|naive_solver]. intros Hq. split; [|done]. intros <-. apply Hp in Hq as (n' & Hn' & _). congruence.
Qed.

(** * Purging a subtree *)

(** The state of [purge_subtree(path)] after [X] has been removed, with
    [pending] still to remove. *)
Record purging (path : pystr) (s : cstate) (pending : list pystr) (X : gset pystr) : Prop := {
  pg_rel : forall p, is_Some (table s !! p) -> rel_path p;
  pg_nodup : NoDup pending;
  pg_pending : forall d, d ∈ pending ->
    is_Some (table s !! d) /\ exists q, parent_of d = Some q /\ (q = path \/ q ∈ X);
  pg_index : index_ok s X;
  pg_removed : forall q, q ∈ X -> is_below path q = true /\ table s !! q = None /\ children_of s q = ∅;
  pg_complete : forall p q, is_Some (table s !! p) -> parent_of p = Some q -> q = path \/ q ∈ X -> p ∈ pending;
  pg_path : path ∉ X;
  pg_waiting : pending_ok s;
}.

Lemma purging_below path s pending X d : purging path s pending X -> d ∈ pending ->
  is_below path d = true /\ rel_path d /\ d ∉ X /\ d <> path.
Proof.
  intros H Hd. destruct (pg_pending _ _ _ _ H d Hd) as (Hs & q & Hq & Hqx).
  pose proof (pg_rel _ _ _ _ H d Hs) as Hr.
  assert (is_below path d = true) as Hb.
  { rewrite (is_below_parent d path q Hr Hq). destruct Hqx as [->|Hx]; [by rewrite bool_decide_eq_true_2|].
    destruct (pg_removed _ _ _ _ H q Hx) as [-> _]. apply orb_true_r. }
  split; [done|]. split; [done|]. split.
  - intros Hx. destruct (pg_removed _ _ _ _ H d Hx) as (_ & Hn & _). rewrite Hn in Hs. by destruct Hs.
  - intros ->. by rewrite is_below_irrefl in Hb.
Qed.

Lemma purging_step path s pending X d : purging path s (d :: pending) X ->
  purging path (remove_exact s d false) (elements (children_of s d) ++ pending) ({[d]} ∪ X).
Proof.
  intros H. destruct (purging_below _ _ _ _ d H ltac:(by left)) as (Hb & Hr & Hx & Hnp).
  destruct (pg_pending _ _ _ _ H d ltac:(by left)) as (Hd & qd & Hqd & Hqdx).
  pose proof (pg_nodup _ _ _ _ H) as Hn. apply NoDup_cons in Hn as [Hdn Hn].
  assert (forall p, p ∈ children_of s d <-> is_Some (table s !! p) /\ parent_of p = Some d) as Hkids
    by (intros p; by apply (pg_index _ _ _ _ H)).
  assert (forall p, parent_of p = Some d -> is_Some (table s !! p) -> p <> d) as Hirr.
  { intros p Hp Hs ->. apply parent_of_Some in Hp; [lia|done]. }
  split.
  - intros p. rewrite remove_exact_table, lookup_delete_is_Some. intros [_ Hs]. by eapply (pg_rel _ _ _ _ H).
  - apply NoDup_app. split; [apply NoDup_elements|]. split; [|done].
    intros p Hp Hp'. rewrite elem_of_elements in Hp. apply Hkids in Hp as [_ Hp].
    destruct (pg_pending _ _ _ _ H p ltac:(by right)) as (_ & q & Hq & [->|Hqx]); simplify_eq.
  - intros p. rewrite elem_of_app, elem_of_elements, remove_exact_table, lookup_delete_is_Some.
    intros [Hp|Hp].
    + apply Hkids in Hp as [Hs Hp]. split; [split; [by apply not_eq_sym, Hirr|done]|].
      exists d. split; [done|]. right. set_solver.
    + destruct (pg_pending _ _ _ _ H p ltac:(by right)) as (Hs & q & Hq & Hqx).
      split; [split; [intros ->; done|done]|]. exists q. split; [done|]. set_solver.
  - intros p q Hq. rewrite remove_exact_children, remove_exact_table, lookup_delete_is_Some.
    rewrite (bool_decide_eq_false_2 (q = d)) by set_solver.
    assert (p ∈ children_of s q <-> is_Some (table s !! p) /\ parent_of p = Some q) as Hi
      by (apply (pg_index _ _ _ _ H); set_solver).
    case_bool_decide as Hdq; [|split; [|tauto]].
    + rewrite elem_of_difference, elem_of_singleton, Hi. naive_solver.
    + intros Hp. apply Hi in Hp as Hp'. split; [split; [|tauto]|tauto]. intros ->. tauto.
  - intros q. rewrite elem_of_union, elem_of_singleton, remove_exact_table, remove_exact_children. intros [->|Hq].
    + split; [done|]. rewrite lookup_delete_eq, bool_decide_eq_true_2 by done. done.
    + destruct (pg_removed _ _ _ _ H q Hq) as (Hbq & Htq & Hcq). split; [done|]. split.
      * apply lookup_delete_None. by right.
      * rewrite Hcq. repeat case_bool_decide; set_solver.
  - intros p q. rewrite remove_exact_table, lookup_delete_is_Some, elem_of_app, elem_of_elements, Hkids.
    intros [Hne Hs] Hq Hqx. destruct (decide (q = d)) as [->|Hqd']; [by left|]. right.
    assert (p ∈ d :: pending) as Hin by (eapply (pg_complete _ _ _ _ H); [done|done|set_solver]).
    apply elem_of_cons in Hin as [->|]; done.
  - pose proof (pg_path _ _ _ _ H). set_solver.
  - apply remove_exact_pending_ok, (pg_waiting _ _ _ _ H).
Qed.

(** The loop ends with the table less what was removed. *)
Lemma purge_loop_spec path fuel : forall s pending X, purging path s pending X ->
  (base.size (table s) <= fuel)%nat ->
  exists s' X', purge_loop fuel s pending = Some s' /\ purging path s' [] X' /\ X ⊆ X' /\
    table s' = filter (fun kv => kv.1 ∉ X') (table s) /\ groups s' = groups s.
Proof.
  induction fuel as [|fuel IH]; intros s pending X H Hf.
  - destruct pending as [|d pending].
    + exists s, X. split; [done|]. split; [done|]. split; [done|]. split; [|done].
      symmetry. apply map_filter_id. intros p n Hp Hx. destruct (pg_removed _ _ _ _ H p Hx) as (_ & Hn & _).
      simpl in *. congruence.
    + destruct (pg_pending _ _ _ _ H d ltac:(by left)) as [[n Hn] _].
      assert (table s = ∅) as He by (apply map_size_empty_inv; lia). rewrite He in Hn. done.
  - destruct pending as [|d pending].
    + exists s, X. split; [done|]. split; [done|]. split; [done|]. split; [|done].
      symmetry. apply map_filter_id. intros p n Hp Hx. destruct (pg_removed _ _ _ _ H p Hx) as (_ & Hn & _).
      simpl in *. congruence.
    + destruct (pg_pending _ _ _ _ H d ltac:(by left)) as [Hs _].
      destruct (IH _ _ _ (purging_step _ _ _ _ _ H)) as (s' & X' & Hl & Hp & Hsub & Ht & Hg).
      { rewrite remove_exact_table, map_size_delete. destruct Hs as [n ->]. lia. }
      exists s', X'. cbn [purge_loop]. split; [done|]. split; [done|]. split; [set_solver|]. split.
      * rewrite Ht, remove_exact_table. apply map_eq. intros p. apply option_eq. intros n.
        rewrite !map_lookup_filter_Some, lookup_delete_Some. cbn. split; [tauto|]. intros [Hn Hx].
        split; [|done]. split; [|done]. intros ->. set_solver.
      * by rewrite Hg, remove_exact_groups.
Qed.

(** * The tables after each helper *)

Lemma tables_purging s p : tables_ok s -> rel_path p ->
  purging p s (elements (children_of s p)) ∅.
Proof.
  intros [Ht Hi Hp] Hr. split.
  - apply (tree_rel _ Ht).
  - apply NoDup_elements.
  - intros d Hd. rewrite elem_of_elements in Hd. apply Hi in Hd as [Hd Hq]; [|done]. split; [done|].
    exists p. split; [done|]. by left.
  - done.
  - intros q Hq. set_solver.
  - intros d q Hd Hq [->|Hx]; [|set_solver]. apply elem_of_elements. by apply Hi.
  - set_solver.
  - done.
Qed.

(** A purged table has lost exactly the paths below. *)
Lemma purging_done s p s' X : tables_ok s -> purging p s' [] X ->
  table s' = filter (fun kv => kv.1 ∉ X) (table s) ->
  table s' = ref_purge P (table s) p false /\ index_ok s' ∅ /\ pending_ok s'.
Proof.
  intros Hok H Ht. split; [|split; [|by apply (pg_waiting _ _ _ _ H)]].
  - assert (forall d, rel_path d -> is_below p d = true -> table s' !! d = None) as Hgone.
    { intros d Hd. induction Hd as [|d r Hd Hr Hrr IH] using rel_path_ind'; intros Hb; [by rewrite is_below_dot in Hb|].
      destruct (table s' !! d) as [n|] eqn:E; [|done]. exfalso.
      assert (r = p \/ r ∈ X) as Hx.
      { rewrite (is_below_parent d p r Hd Hr) in Hb. apply orb_true_iff in Hb as [Hb|Hb]; [bool_norm; by left|].
        right. rewrite Ht in E. apply map_lookup_filter_Some in E as [En _].
        destruct (tree_closed _ (ok_tree _ Hok) d r ltac:(by eexists) Hr) as [->|(n' & Hn' & _)].
        { by rewrite is_below_dot in Hb. }
        specialize (IH Hb). rewrite Ht in IH. apply map_lookup_filter_None in IH as [IH|IH]; [congruence|].
        specialize (IH n' Hn'). cbn in IH. by apply dec_stable. }
      pose proof (pg_complete _ _ _ _ H d r ltac:(by eexists) Hr Hx) as Hin. by apply elem_of_nil in Hin. }
    rewrite Ht. unfold ref_purge. apply map_eq. intros d. apply option_eq. intros n.
    rewrite !map_lookup_filter_Some. cbn [fst andb]. rewrite orb_false_r, negb_true_iff.
    split; intros [Hn Hx]; (split; [done|]).
    + destruct (is_below p d) eqn:E; [|done].
      pose proof (tree_rel _ (ok_tree _ Hok) d ltac:(by eexists)) as Hd. specialize (Hgone d Hd E).
      rewrite Ht in Hgone. apply map_lookup_filter_None in Hgone as [Hg|Hg]; [congruence|]. by specialize (Hg n Hn).
    + intros Hd. destruct (pg_removed _ _ _ _ H d Hd) as [Hb _]. congruence.
  - intros d q _. destruct (decide (q ∈ X)) as [Hq|Hq]; [|by apply (pg_index _ _ _ _ H)].
    destruct (pg_removed _ _ _ _ H q Hq) as (_ & _ & ->). split; [set_solver|]. intros [Hd Hp].
    pose proof (pg_complete _ _ _ _ H d q Hd Hp ltac:(by right)) as Hin. by apply elem_of_nil in Hin.
Qed.

Lemma ref_purge_lookup (t : tree) p r d : ref_purge P t p r !! d =
  if is_below p d || (r && bool_decide (d = p)) then None else t !! d.
Proof.
  unfold ref_purge. destruct (is_below p d || (r && bool_decide (d = p))) eqn:E.
  - apply map_lookup_filter_None. right. intros n Hn. cbn [fst]. by rewrite E.
  - destruct (t !! d) as [n|] eqn:En.
    + apply map_lookup_filter_Some. cbn [fst]. by rewrite E.
    + apply map_lookup_filter_None. by left.
Qed.

Lemma ref_purge_dir (t : tree) p r q : is_dir (ref_purge P t p r) q <->
  is_dir t q /\ is_below p q || (r && bool_decide (q = p)) = false.
Proof. unfold is_dir. rewrite ref_purge_lookup. case_match; naive_solver. Qed.

(** Purging keeps the tree closed. *)
Lemma ref_purge_tree_ok (t : tree) p r : tree_ok t -> tree_ok (ref_purge P t p r).
Proof.
  intros [Hr Hc]. split.
  - intros d. rewrite ref_purge_lookup. case_match; [by inversion 1|apply Hr].
  - intros d q. rewrite ref_purge_lookup. destruct (is_below p d || _) eqn:E; [by inversion 1|]. intros Hd Hq.
    destruct (Hc d q Hd Hq) as [->|Hdir]; [by left|]. right. apply ref_purge_dir. split; [done|].
    rewrite (is_below_parent d p q (Hr d Hd) Hq) in E. apply orb_false_iff in E as [E _].
    apply orb_false_iff in E as [Hne Hb]. rewrite Hb. bool_norm. rewrite bool_decide_eq_false_2 by done. by destruct r.
Qed.

Lemma ref_purge_root (t : tree) p : ref_purge P t p true = delete p (ref_purge P t p false).
Proof.
  apply map_eq. intros d. destruct (decide (d = p)) as [->|Hne].
  - rewrite lookup_delete_eq, ref_purge_lookup, bool_decide_eq_true_2, orb_true_r by done. done.
  - rewrite lookup_delete_ne, !ref_purge_lookup by done. cbn [andb]. by rewrite bool_decide_eq_false_2.
Qed.

Theorem purge_subtree_spec s p r : tables_ok s -> rel_path p ->
  exists s', purge_subtree s p r = Some s' /\ tables_ok s' /\ table s' = ref_purge P (table s) p r /\
    groups s' = groups s.
Proof.
  intros Hok Hr.
  destruct (purge_loop_spec p (purge_fuel s) s _ ∅ (tables_purging s p Hok Hr) ltac:(done))
    as (s1 & X & Hl & Hp & _ & Ht & Hg).
  destruct (purging_done s p s1 X Hok Hp Ht) as (Ht1 & Hi1 & Hw1).
  unfold purge_subtree. rewrite Hl.
  set (s2 := s1 <| children := delete p (children s1) |>).
  assert (forall d, is_Some (table s1 !! d) -> parent_of d = Some p -> False) as Hno.
  { intros d Hd Hq. pose proof (pg_complete _ _ _ _ Hp d p Hd Hq ltac:(by left)) as Hin. by apply elem_of_nil in Hin. }
  assert (index_ok s2 ∅) as Hi2.
  { intros d q Hq. change (table s2) with (table s1). unfold s2, children_of. cbn [setter children].
    destruct (decide (q = p)) as [->|Hne].
    - rewrite lookup_delete_eq. split; [set_solver|]. intros [Hd Hdp]. destruct (Hno d Hd Hdp).
    - rewrite lookup_delete_ne by done. by apply Hi1. }
  destruct r.
  - exists (remove_exact s2 p false). split; [done|].
    assert (table (remove_exact s2 p false) = ref_purge P (table s) p true) as Ht2.
    { rewrite remove_exact_table. change (table s2) with (table s1). by rewrite Ht1, ref_purge_root. }
    split; [|split; [done|by rewrite remove_exact_groups]]. split.
    + rewrite Ht2. apply ref_purge_tree_ok, Hok.
    + intros d q Hq. rewrite remove_exact_children, remove_exact_table, lookup_delete_is_Some.
      specialize (Hi2 d q Hq).
      destruct (decide (q = p)) as [->|Hne].
      { rewrite bool_decide_eq_true_2 by done. split; [set_solver|]. intros [[Hdp Hd] Hdq]. destruct (Hno d Hd Hdq). }
      rewrite (bool_decide_eq_false_2 (q = p)) by done. case_bool_decide as Hpq.
      * rewrite elem_of_difference, elem_of_singleton, Hi2. naive_solver.
      * rewrite Hi2. split; [intros [Hd Hdq]|tauto]. split; [|done]. split; [|done]. intros ->. congruence.
    + by apply remove_exact_pending_ok.
  - exists s2. split; [done|]. split; [|by split]. split; [|done|done].
    change (table s2) with (table s1). rewrite Ht1. apply ref_purge_tree_ok, Hok.
Qed.

(** ** [set_node] *)

Lemma register_table s p : table (register s p) = table s.
Proof. unfold register. by destruct (parent_of p). Qed.
Lemma register_groups s p : groups (register s p) = groups s.
Proof. unfold register. by destruct (parent_of p). Qed.
Lemma register_waiting s p t : waiting_for (register s p) t = waiting_for s t.
Proof. unfold register. by destruct (parent_of p). Qed.
Lemma register_children s p q : children_of (register s p) q =
  if bool_decide (parent_of p = Some q) then {[p]} ∪ children_of s q else children_of s q.
Proof.
  unfold register. destruct (parent_of p) as [r|]; [|by rewrite bool_decide_eq_false_2].
  unfold children_of at 1. cbn [setter children]. destruct (decide (r = q)) as [->|Hne].
  - by rewrite lookup_insert_eq, bool_decide_eq_true_2.
  - rewrite lookup_insert_ne, bool_decide_eq_false_2 by congruence. done.
Qed.

Lemma set_node_table s p n k : table (set_node s p n k) = <[p := n]> (table s).
Proof. unfold set_node. rewrite register_table. cbn [setter table]. by rewrite remove_exact_table, insert_delete_eq. Qed.

Lemma set_node_groups s p n k : groups (set_node s p n k) = groups s.
Proof. unfold set_node. rewrite register_groups. cbn [setter groups]. apply remove_exact_groups. Qed.

(** The node may be put in place: its parent is there, and nothing is below
    it unless it stays a directory. *)
Record placeable (t : tree) (p : pystr) (n : node) (keep : bool) : Prop := {
  pl_rel : rel_path p;
  pl_parent : forall q, parent_of p = Some q -> q = dot \/ is_dir t q;
  pl_leaf : n_kind n = DIRECTORY \/ p = dot \/ (forall d, is_Some (t !! d) -> parent_of d <> Some p);
  pl_keep : keep = true \/ (forall d, is_Some (t !! d) -> parent_of d <> Some p);
}.

Lemma set_node_tree_ok (t : tree) p n keep : tree_ok t -> placeable t p n keep -> tree_ok (<[p := n]> t).
Proof.
  intros [Hr Hc] [Hp Hq Hl _]. split.
  - intros d. rewrite lookup_insert_is_Some. intros [<-|[_ Hd]]; [done|by apply Hr].
  - assert (forall q, (q = dot \/ is_dir t q) -> q = p -> n_kind n = DIRECTORY \/ q = dot \/ ~ is_dir t p -> 
      q = dot \/ is_dir (<[p := n]> t) q) as Hhere.
    { intros q [->|Hd] -> Hk; [by left|]. destruct Hk as [Hk|[->|Hk]]; [|by left|done]. right.
      exists n. by rewrite lookup_insert_eq. }
    intros d q Hd Hdq. destruct (decide (q = p)) as [->|Hne].
    + destruct (decide (d = p)) as [->|Hdp].
      { apply parent_of_Some in Hdq; [lia|done]. }
      rewrite lookup_insert_ne in Hd by done. destruct Hl as [Hk|[->|Hno]]; [|by left|by destruct (Hno d Hd)].
      destruct (Hc d p Hd Hdq) as [->|Hdir]; [by left|]. right. exists n. by rewrite lookup_insert_eq.
    + assert (q = dot \/ is_dir t q) as Hdir.
      { destruct (decide (d = p)) as [->|Hdp]; [by apply Hq|].
        rewrite lookup_insert_ne in Hd by done. by apply (Hc d). }
      destruct Hdir as [->|(m & Hm & Hk)]; [by left|]. right. exists m. by rewrite lookup_insert_ne.
Qed.

(** Before a waiting link is put in place, it has been added to the waiting
    set of its target, and the node it replaces did not wait for that target. *)
Definition waits (s : cstate) (p : pystr) (n : node) : Prop :=
  (forall d t, d ∈ waiting_for s t <->
     (exists n', table s !! d = Some n' /\ pending_target n' = Some t) \/ (d = p /\ pending_target n = Some t)) /\
  (forall n' t, table s !! p = Some n' -> pending_target n' = Some t -> pending_target n <> Some t).

Lemma waits_none s p n : pending_ok s -> pending_target n = None -> waits s p n.
Proof. intros Hs Hn. split; [|congruence]. intros d t. rewrite (Hs d t). naive_solver congruence. Qed.

Lemma set_node_ok s p n k : tree_ok (table s) -> index_ok s ∅ -> waits s p n ->
  placeable (table s) p n k -> tables_ok (set_node s p n k).
Proof.
  intros Ht Hi [Hw Hnew] Hpl. split.
  - rewrite set_node_table. by eapply set_node_tree_ok.
  - intros d q _. rewrite set_node_table, lookup_insert_is_Some. unfold set_node. rewrite register_children.
    change (children_of ((remove_exact s p k) <| table := <[p := n]> (table (remove_exact s p k)) |>) q) with (children_of (remove_exact s p k) q).
    assert (forall x, x ∈ children_of s q <-> is_Some (table s !! x) /\ parent_of x = Some q) as Hiq
      by (intros x; by apply Hi).
    destruct k.
    + rewrite remove_exact_children_keep. case_bool_decide as Hpq.
      * rewrite elem_of_union, elem_of_singleton, Hiq. destruct (decide (p = d)); naive_solver.
      * rewrite Hiq. destruct (decide (p = d)); naive_solver.
    + destruct (pl_keep _ _ _ _ Hpl) as [|Hno]; [done|]. rewrite remove_exact_children.
      destruct (decide (q = p)) as [->|Hqp].
      * rewrite (bool_decide_eq_true_2 (p = p)) by done. case_bool_decide as Hpp.
        { apply parent_of_Some in Hpp; [lia|apply Hpl]. }
        split; [set_solver|]. intros [[->|[_ Hd]] Hdp]; [congruence|]. by destruct (Hno d Hd).
      * rewrite (bool_decide_eq_false_2 (q = p)) by done. case_bool_decide as Hpq.
        { rewrite elem_of_union, elem_of_difference, !elem_of_singleton, Hiq. destruct (decide (p = d)); naive_solver. }
        { rewrite Hiq. destruct (decide (p = d)); naive_solver. }
  - intros d t. rewrite set_node_table. unfold set_node. rewrite register_waiting.
    change (waiting_for ((remove_exact s p k) <| table := <[p := n]> (table (remove_exact s p k)) |>) t) with (waiting_for (remove_exact s p k) t).
    rewrite remove_exact_waiting.
    assert ((exists n', <[p := n]> (table s) !! d = Some n' /\ pending_target n' = Some t) <->
      (d = p /\ pending_target n = Some t) \/ (d <> p /\ exists n', table s !! d = Some n' /\ pending_target n' = Some t)) as ->.
    { setoid_rewrite lookup_insert_Some. naive_solver. }
    pose proof (Hw d t) as Hwd. pose proof (Hnew) as Hn.
    destruct (table s !! p) as [m|] eqn:E.
    + case_bool_decide as Hm.
      * rewrite elem_of_difference, elem_of_singleton, Hwd. specialize (Hn m t eq_refl Hm).
        destruct (decide (d = p)); naive_solver.
      * rewrite Hwd. destruct (decide (d = p)) as [->|]; [|naive_solver]. rewrite E. naive_solver.
    + rewrite Hwd. destruct (decide (d = p)) as [->|]; [|naive_solver]. rewrite E. naive_solver.
Qed.

(** A directory updated in place. *)
Lemma update_dir_ok s p n n' : tables_ok s -> table s !! p = Some n ->
  n_kind n' = n_kind n -> pending_target n' = pending_target n ->
  tables_ok (s <| table := <[p := n']> (table s) |>).
Proof.
  intros [[Hr Hc] Hi Hw] Hn Hk Hpt. split; cbn [setter table].
  - split.
    + intros d. rewrite lookup_insert_is_Some. intros [<-|[_ Hd]]; apply Hr; [by eexists|done].
    + intros d q Hd Hq. destruct (Hc d q) as [->|(m & Hm & Hmk)]; [|done|by left|].
      { apply lookup_insert_is_Some in Hd as [<-|[_ Hd]]; [by eexists|done]. }
      right. destruct (decide (q = p)) as [->|Hne].
      * exists n'. rewrite lookup_insert_eq. split; congruence.
      * exists m. by rewrite lookup_insert_ne.
  - intros d q Hq. change (children_of _ q) with (children_of s q). rewrite (Hi d q Hq). cbn [setter table].
    rewrite lookup_insert_is_Some. destruct (decide (p = d)) as [<-|Hne]; [|naive_solver].
    split; [naive_solver|]. intros [_ Hp]. split; [by eexists|done].
  - intros d t. change (waiting_for _ t) with (waiting_for s t). rewrite (Hw d t). cbn [setter table].
    destruct (decide (p = d)) as [<-|Hne]; [|by rewrite lookup_insert_ne].
    rewrite lookup_insert_eq, Hn. split; intros (m & [= <-] & Hm); eexists; (split; [done|congruence]).
Qed.
End facts.
