(* ===== verification/ChangesetSim.v ===== *)
(** Every member handler of [normalize_changeset] acts on the indexed tables as
    the reference handler acts on the plain table. *)
From S2P Require Import Prelude Crypto PyStr OsPath Changeset ChangesetRef ChangesetFacts.

Section sim.
Variable P : Type.
Notation member := (Changeset.member P).
Notation node := (Changeset.node P).
Notation cstate := (Changeset.cstate P).
Notation tree := (gmap pystr node).
Implicit Types (s : cstate) (n : node) (m : member) (t : tree).

(** [s'] is a well-formed state whose table is [t'], with the groups of [s]. *)
Definition reaches (s : cstate) (t' : tree) (r : result cstate) : Prop :=
  exists s', r = Ok s' /\ tables_ok P s' /\ table s' = t' /\ groups s' = groups s.

Lemma reaches_purge s p r k t' : tables_ok P s -> rel_path p ->
  (forall s', tables_ok P s' -> table s' = ref_purge P (table s) p r -> groups s' = groups s ->
     reaches s' t' (k s')) ->
  reaches s t' (let? s := or_loop (purge_subtree s p r) in k s).
Proof.
  intros Hok Hr Hk. destruct (purge_subtree_spec P s p r Hok Hr) as (s1 & -> & Hok1 & Ht1 & Hg1).
  destruct (Hk s1 Hok1 Ht1 Hg1) as (s2 & Hs & Hok2 & Ht2 & Hg2). exists s2. split; [done|].
  split; [done|]. split; [done|]. congruence.
Qed.

Lemma parent_not_below p q : rel_path p -> parent_of p = Some q -> is_below p q = false /\ q <> p.
Proof.
  intros Hp Hq. pose proof Hq as Hq'. apply parent_of_Some in Hq' as (_ & Hqr & Hlt); [|done].
  split; [|intros ->; lia]. destruct (is_below p q) eqn:E; [|done]. apply is_below_rank in E as [Hl _]; [lia|done].
Qed.

(** A node may replace a purged path. *)
Lemma placeable_purged t p n r : tree_ok P t -> rel_path p ->
  (forall q, parent_of p = Some q -> q = dot \/ is_dir P t q) ->
  forall keep, placeable P (ref_purge P t p r) p n keep.
Proof.
  intros Ht Hp Hq keep.
  assert (forall d, is_Some (ref_purge P t p r !! d) -> parent_of d <> Some p) as Hno.
  { intros d. rewrite ref_purge_lookup. destruct (is_below p d) eqn:E; [by inversion 1|]. cbn [orb].
    intros Hd Hdp. assert (rel_path d) as Hrd.
    { apply (tree_rel _ _ Ht). by destruct (r && bool_decide (d = p)); [inversion Hd|]. }
    rewrite (is_below_parent d p p Hrd Hdp), bool_decide_eq_true_2 in E by done. done. }
  split; [done| |by right; right|by right].
  intros q Hpq. destruct (Hq q Hpq) as [->|Hd]; [by left|]. right. apply ref_purge_dir. split; [done|].
  destruct (parent_not_below p q Hp Hpq) as [-> Hne]. rewrite bool_decide_eq_false_2 by done. by destruct r.
Qed.

Lemma placeable_dir t p n : rel_path p -> n_kind n = DIRECTORY ->
  (forall q, parent_of p = Some q -> q = dot \/ is_dir P t q) -> placeable P t p n true.
Proof. intros Hp Hn Hq. split; [done|done|by left|by left]. Qed.

Lemma reaches_set s p n keep : tables_ok P s -> pending_target n = None -> placeable P (table s) p n keep ->
  reaches s (<[p := n]> (table s)) (Ok (set_node s p n keep)).
Proof.
  intros [Ht Hi Hw] Hn Hpl. exists (set_node s p n keep). split; [done|].
  split; [apply set_node_ok; [done|done|by apply waits_none|done]|].
  by rewrite set_node_table, set_node_groups.
Qed.

(** ** Parents *)

Lemma ensure_directory_spec s d m refresh : tables_ok P s -> rel_path d ->
  (forall q, parent_of d = Some q -> q = dot \/ is_dir P (table s) q) ->
  reaches s (ref_directory P m refresh (table s) d) (ensure_directory m refresh s d).
Proof.
  intros Hok Hd Hq. unfold ensure_directory, ref_directory. cbv zeta.
  set (fresh := (plain_node _ _) <| synthetic := true |>).
  assert (reaches s (<[d := fresh]> (ref_purge P (table s) d true))
            (let? s := or_loop (purge_subtree s d true) in Ok (set_node s d fresh true))) as Hnew.
  { apply reaches_purge; [done|done|]. intros s1 Hok1 Ht1 _. rewrite <- Ht1. apply reaches_set; [done|done|].
    rewrite Ht1. apply placeable_purged; [apply Hok|done|done]. }
  destruct (table s !! d) as [n|] eqn:E; [|done]. case_bool_decide as Hk; [|done].
  destruct (opaque_placeholder n && refresh); eexists; (split; [done|]); [|done].
  split; [by eapply update_dir_ok|done].
Qed.

Lemma ref_directory_dir t d m refresh : is_dir P (ref_directory P m refresh t d) d.
Proof.
  unfold ref_directory. destruct (t !! d) as [n|] eqn:E.
  - case_bool_decide as Hk.
    + destruct (opaque_placeholder n && refresh); [|by exists n]. eexists. rewrite lookup_insert_eq. split; [done|]. done.
    + eexists. rewrite lookup_insert_eq. done.
  - eexists. rewrite lookup_insert_eq. done.
Qed.

Lemma ref_parents_step t p q m refresh : rel_path p -> parent_of p = Some q ->
  ref_parents P t p m refresh =
  if bool_decide (q = dot) then t else ref_directory P m refresh (ref_parents P t q m refresh) q.
Proof.
  intros Hp Hq. unfold ref_parents. rewrite (ancestors_parent p q Hp Hq).
  case_bool_decide as Hd.
  - subst q. rewrite ancestors_dot. rewrite filter_cons_False by (intros H; apply H; done). done.
  - rewrite filter_cons_True by done. cbn [rev]. by rewrite fold_left_app.
Qed.

Lemma ref_parents_dot t m refresh : ref_parents P t dot m refresh = t.
Proof. reflexivity. Qed.

Lemma ensure_chain_app m refresh k : forall s l,
  ensure_chain m refresh s (l ++ k) = let? s := ensure_chain m refresh s l in ensure_chain m refresh s k.
Proof.
  intros s l. revert s. induction l as [|d l IH]; intros s; [done|]. cbn [app ensure_chain].
  destruct (ensure_directory m refresh s d); [|done]. cbn [result_bind]. apply IH.
Qed.

Lemma ensure_parents_spec m refresh p : rel_path p -> forall s, tables_ok P s ->
  reaches s (ref_parents P (table s) p m refresh) (ensure_parents s p m refresh) /\
  (forall q, parent_of p = Some q -> q = dot \/ is_dir P (ref_parents P (table s) p m refresh) q).
Proof.
  intros Hp s Hok. unfold ensure_parents. rewrite parent_chain_ancestors by (try apply rank_le; done).
  cbn [or_loop result_bind].
  induction Hp as [|p q Hp Hq Hrq IH] using rel_path_ind'.
  - split; [|done]. by exists s.
  - rewrite (ref_parents_step _ p q m refresh Hp Hq). rewrite (ancestors_parent p q Hp Hq).
    destruct (decide (q = dot)) as [->|Hne].
    + rewrite bool_decide_eq_true_2 by done. rewrite ancestors_dot, filter_cons_False by (intros H; apply H; done).
      split; [by exists s|]. intros r Hr. left. congruence.
    + rewrite bool_decide_eq_false_2, filter_cons_True by done. cbn [rev]. rewrite ensure_chain_app.
      destruct IH as [(s1 & -> & Hok1 & Ht1 & Hg1) Hdir]. cbn [result_bind ensure_chain]. rewrite <- Ht1 in Hdir |- *.
      destruct (ensure_directory_spec s1 q m refresh Hok1 Hrq Hdir) as (s2 & -> & Hok2 & Ht2 & Hg2).
      split; [exists s2; split; [done|]; split; [done|]; split; [done|congruence]|].
      intros r Hr. right. assert (r = q) as -> by congruence. apply ref_directory_dir.
Qed.

(** Making the parents of [p] leaves [p] as it is, or removes it. *)
Lemma ref_directory_below t d p m refresh : p <> d ->
  ref_directory P m refresh t d !! p = t !! p \/ ref_directory P m refresh t d !! p = None.
Proof.
  intros Hne. unfold ref_directory. cbv zeta.
  assert (forall fresh, <[d := fresh]> (ref_purge P t d true) !! p = t !! p \/
          <[d := fresh]> (ref_purge P t d true) !! p = None) as Hnew.
  { intros fresh. rewrite lookup_insert_ne by done. rewrite ref_purge_lookup. case_match; [by right|by left]. }
  destruct (t !! d) as [n|]; [|apply Hnew]. case_bool_decide; [|apply Hnew].
  destruct (opaque_placeholder n && refresh); [|by left]. left. by rewrite lookup_insert_ne.
Qed.

Lemma ref_parents_self t p m refresh : rel_path p ->
  ref_parents P t p m refresh !! p = t !! p \/ ref_parents P t p m refresh !! p = None.
Proof.
  intros Hp. assert (forall l, Forall (fun d => d <> p) l ->
    fold_left (ref_directory P m refresh) l t !! p = t !! p \/
    fold_left (ref_directory P m refresh) l t !! p = None) as Hl.
  { intros l. induction l as [|d l IH] using rev_ind; intros Hf; [by left|].
    apply Forall_app in Hf as [Hf Hd]. rewrite Forall_singleton in Hd. rewrite fold_left_app. cbn [fold_left].
    destruct (ref_directory_below (fold_left (ref_directory P m refresh) l t) d p m refresh (not_eq_sym Hd))
      as [-> | ->]; [by apply IH|by right]. }
  apply Hl. apply Forall_forall. intros d Hd ->. apply list_elem_of_In, in_rev, list_elem_of_In in Hd.
  apply list_elem_of_filter in Hd as [_ Hd]. pose proof (is_below_irrefl p Hp) as Hi.
  unfold is_below in Hi. by apply bool_decide_eq_false in Hi.
Qed.

(** ** Forward links *)

Lemma resolve_link_fold target g l : NoDup l -> forall t d,
  fold_left (resolve_link target g) l t !! d =
  if bool_decide (d ∈ l) then ref_resolve P t target g !! d else t !! d.
Proof.
  induction l as [|x l IH]; intros Hnd t d; [by rewrite bool_decide_eq_false_2 by apply not_elem_of_nil|].
  apply NoDup_cons in Hnd as [Hx Hnd]. cbn [fold_left]. rewrite IH by done. unfold ref_resolve.
  rewrite !lookup_fmap.
  assert (forall d, resolve_link target g t x !! d =
            if bool_decide (d = x) then ref_resolve P t target g !! d else t !! d) as Hone.
  { intros y. unfold resolve_link, ref_resolve. rewrite lookup_fmap.
    destruct (t !! x) as [n|] eqn:E.
    - case_bool_decide as Hn; destruct (decide (y = x)) as [->|Hyx].
      + rewrite lookup_insert_eq, (bool_decide_eq_true_2 (x = x)), E by done. cbn. by rewrite bool_decide_eq_true_2.
      + by rewrite lookup_insert_ne, (bool_decide_eq_false_2 (y = x)) by done.
      + rewrite (bool_decide_eq_true_2 (x = x)), E by done. cbn. by rewrite bool_decide_eq_false_2.
      + by rewrite bool_decide_eq_false_2.
    - case_bool_decide as Hyx; [|done]. subst. by rewrite E. }
  rewrite Hone. destruct (decide (d = x)) as [->|Hdx].
  - rewrite (bool_decide_eq_false_2 (x ∈ l)) by done.
    rewrite (bool_decide_eq_true_2 (x = x)), (bool_decide_eq_true_2 (x ∈ x :: l)) by (done || by left).
    unfold ref_resolve. by rewrite lookup_fmap.
  - rewrite (bool_decide_eq_false_2 (d = x)) by done.
    rewrite (bool_decide_ext (d ∈ x :: l) (d ∈ l)) by (rewrite elem_of_cons; tauto). done.
Qed.

Lemma resolve_forward_table s p g : pending_ok P s ->
  table (resolve_forward s p g) = ref_resolve P (table s) p g.
Proof.
  intros Hw. unfold resolve_forward. cbn [setter table]. apply map_eq. intros d.
  rewrite resolve_link_fold by apply NoDup_elements. case_bool_decide as Hd; [done|].
  rewrite elem_of_elements in Hd. unfold ref_resolve. rewrite lookup_fmap.
  destruct (table s !! d) as [n|] eqn:E; [|done]. cbn. rewrite bool_decide_eq_false_2; [done|].
  intros Hn. apply Hd, Hw. by exists n.
Qed.

Lemma ref_resolve_lookup t p g d : ref_resolve P t p g !! d =
  (fun n => if bool_decide (pending_target n = Some p)
            then n <| pending_target := None |> <| group_id := Some g |> else n) <$> t !! d.
Proof. unfold ref_resolve. by rewrite lookup_fmap. Qed.

Lemma ref_resolve_dir t p g q : is_dir P t q -> is_dir P (ref_resolve P t p g) q.
Proof.
  intros (n & Hn & Hk). eexists. rewrite ref_resolve_lookup, Hn. cbn. split; [done|]. by case_bool_decide.
Qed.

Lemma resolve_forward_ok s p g : tables_ok P s -> tables_ok P (resolve_forward s p g).
Proof.
  intros [Ht Hi Hw]. pose proof (resolve_forward_table s p g Hw) as Hrt.
  assert (forall d, is_Some (ref_resolve P (table s) p g !! d) <-> is_Some (table s !! d)) as Hdom
    by (intros d; rewrite ref_resolve_lookup; apply fmap_is_Some).
  split.
  - rewrite Hrt. split.
    + intros d Hd. apply Hdom in Hd. by apply (tree_rel _ _ Ht).
    + intros d q Hd Hq. apply Hdom in Hd. destruct (tree_closed _ _ Ht d q Hd Hq) as [->|Hdir]; [by left|].
      right. by apply ref_resolve_dir.
  - intros d q Hq. rewrite Hrt. change (children_of (resolve_forward s p g) q) with (children_of s q).
    rewrite Hdom. by apply Hi.
  - intros d t. rewrite Hrt, ref_resolve_lookup. unfold resolve_forward, waiting_for. cbn [setter pending_by_target].
    destruct (decide (t = p)) as [->|Hne].
    + rewrite lookup_delete_eq. cbn [default]. split; [set_solver|]. intros (n & Hn & Hpt). exfalso.
      destruct (table s !! d) as [n0|]; [|done]. cbn in Hn. case_bool_decide; simplify_eq; done.
    + rewrite lookup_delete_ne by done. fold (waiting_for s t). rewrite (Hw d t).
      destruct (table s !! d) as [n|]; cbn; [|naive_solver].
      case_bool_decide as Hb; split; intros (n' & [= <-] & Hn'); eexists; (split; [done|]); try done; simplify_eq.
Qed.

(** ** Members *)

(** The indexed result agrees with the reference result: the same error, or a
    well-formed state with the reference table and the groups [g]. *)
Definition agrees (r : result cstate) (r' : result tree) (g : gmap Z member) : Prop :=
  match r' with
  | Ok t' => exists s', r = Ok s' /\ tables_ok P s' /\ table s' = t' /\ groups s' = g
  | Err e => r = Err e
  end.

Lemma reaches_bind s t1 (c : result cstate) (r2 : result tree) g (k : cstate -> result cstate) : reaches s t1 c ->
  (forall s1, tables_ok P s1 -> table s1 = t1 -> groups s1 = groups s -> agrees (k s1) r2 g) ->
  agrees (let? s := c in k s) r2 g.
Proof. intros (s1 & -> & Hok & Ht & Hg) Hk. by apply Hk. Qed.

Lemma reaches_agrees s t' r : reaches s t' r -> agrees r (Ok t') (groups s).
Proof. done. Qed.

Lemma marker_parent p : rel_path p -> p <> dot -> parent_of p = Some (or_dot (dirname p)) /\ rel_path (or_dot (dirname p)).
Proof.
  intros Hp Hne. destruct (parent_of_rel p Hp Hne) as (q & Hq & Hr & _).
  unfold parent_of in Hq |- *. rewrite bool_decide_eq_false_2 in Hq |- * by done. unfold or_dot.
  apply (inj Some) in Hq. by subst q.
Qed.

(** [ensure_parents] skipped for the root. *)
Lemma maybe_parents_spec s p m refresh : tables_ok P s -> rel_path p ->
  reaches s (if bool_decide (p = dot) then table s else ref_parents P (table s) p m refresh)
    (if bool_decide (p = dot) then Ok s else ensure_parents s p m refresh) /\
  (forall q, parent_of p = Some q ->
     q = dot \/ is_dir P (if bool_decide (p = dot) then table s else ref_parents P (table s) p m refresh) q).
Proof.
  intros Hok Hp. case_bool_decide as Hd; [|by apply ensure_parents_spec].
  subst p. split; [by exists s|done].
Qed.

Lemma apply_opaque_spec s m : tables_ok P s -> rel_path (path m) -> path m <> dot ->
  agrees (apply_opaque s m) (ref_opaque P (table s) m) (groups s).
Proof.
  intros Hok Hp Hne. destruct (marker_parent _ Hp Hne) as [_ Hr]. unfold apply_opaque, ref_opaque. cbv zeta.
  destruct (negb (empty_marker m)); [done|]. set (p := or_dot (dirname (path m))) in *. clearbody p.
  destruct (maybe_parents_spec s p m false Hok Hr) as [(s1 & Hs1 & Hok1 & Ht1 & Hg1) Hdir].
  unfold dot in Hs1, Hdir, Ht1. rewrite Hs1. cbn [result_bind]. rewrite <- Ht1 in Hdir |- *.
  set (fresh := ((plain_node _ _) <| opaque_placeholder := _ |> <| synthetic := true |>) <| opaque := true |>).
  assert (agrees (let? s := or_loop (purge_subtree s1 p true) in Ok (set_node s p fresh true))
            (Ok (<[p := fresh]> (ref_purge P (table s1) p true))) (groups s)) as Hnew.
  { rewrite <- Hg1. apply reaches_agrees, reaches_purge; [done|done|]. intros s2 Hok2 Ht2 _. rewrite <- Ht2.
    apply reaches_set; [done|done|]. rewrite Ht2. apply placeable_purged; [apply Hok1|done|done]. }
  destruct (table s1 !! p) as [n|] eqn:E; [|exact Hnew].
  destruct (bool_decide (n_kind n = DIRECTORY)); [|exact Hnew].
  eexists. split; [done|]. split; [by eapply update_dir_ok|done].
Qed.

Lemma whiteout_path_rel m : rel_path (path m) ->
  let target_name := drop (length whiteout_prefix) (basename (path m)) in
  target_name <> [] -> startswith whiteout_prefix (basename (path m)) = true -> rel_path (whiteout_path P m).
Proof.
  intros Hp target_name Hne Hs. unfold whiteout_path. cbv zeta. fold target_name.
  assert (47 ∉ basename (path m)) as Hfree.
  { destruct Hp as [b Hb Hf|q b Hq Hb Hf]; [by rewrite basename_base|by rewrite basename_sub]. }
  assert (47 ∉ target_name) as Ht.
  { intros Hin. apply Hfree. rewrite <- (take_drop (length whiteout_prefix) (basename (path m))).
    apply elem_of_app. by right. }
  case_bool_decide as Hd; [by constructor|].
  assert (path m <> dot) as Hpd by (intros Hpd; by rewrite Hpd in Hs).
  destruct (marker_parent _ Hp Hpd) as [_ Hr]. rewrite path_join_rel by done. by constructor.
Qed.

Lemma apply_whiteout_spec s m : tables_ok P s -> rel_path (path m) ->
  startswith whiteout_prefix (basename (path m)) = true ->
  agrees (apply_whiteout s m) (ref_whiteout P (table s) m) (groups s).
Proof.
  intros Hok Hp Hs. unfold apply_whiteout, ref_whiteout. cbv zeta.
  pose proof (whiteout_path_rel m Hp) as Hr. cbv zeta in Hr.
  set (target_name := drop (length whiteout_prefix) (basename (path m))) in *.
  destruct (bool_decide (target_name = []) || _ || _ || _) eqn:E; [done|].
  destruct (negb (empty_marker m)); [done|].
  apply orb_false_iff in E as [E _]. apply orb_false_iff in E as [E _]. apply orb_false_iff in E as [E _].
  bool_norm. specialize (Hr E Hs). fold target_name. change (if bool_decide (or_dot _ = u ".") then _ else _) with (whiteout_path P m).
  set (p := whiteout_path P m) in *. clearbody p.
  destruct (ensure_parents_spec m false p Hr s Hok) as [Hpar Hdir].
  eapply reaches_bind; [exact Hpar|]. intros s1 Hok1 Ht1 Hg1. rewrite <- Ht1 in Hdir |- *. rewrite <- Hg1.
  apply reaches_agrees, reaches_purge; [done|done|]. intros s2 Hok2 Ht2 _. rewrite <- Ht2.
  apply reaches_set; [done|done|]. rewrite Ht2. apply placeable_purged; [apply Hok1|done|done].
Qed.

(** A hardlink that starts to wait. *)
Lemma reaches_wait s p tg n : tables_ok P s -> pending_target n = Some tg ->
  (forall n', table s !! p = Some n' -> pending_target n' <> Some tg) ->
  placeable P (table s) p n false ->
  reaches s (<[p := n]> (table s))
    (Ok (set_node (s <| pending_by_target := <[tg := {[p]} ∪ waiting_for s tg]> (pending_by_target s) |>) p n false)).
Proof.
  intros [Ht Hi Hw] Hn Hnew Hpl. set (s1 := s <| pending_by_target := _ |>).
  exists (set_node s1 p n false). split; [done|]. rewrite set_node_table, set_node_groups. split; [|done].
  apply set_node_ok; [done|done| |done]. split.
  - intros d t0. change (table s1) with (table s). rewrite <- (Hw d t0), Hn. unfold waiting_for at 1, s1.
    cbn [setter pending_by_target]. destruct (decide (tg = t0)) as [->|Hne].
    + rewrite lookup_insert_eq. cbn [from_option id]. rewrite elem_of_union, elem_of_singleton. naive_solver.
    + rewrite lookup_insert_ne by done. fold (waiting_for s t0). naive_solver.
  - change (table s1) with (table s). rewrite Hn. intros n' t0 Hn' Hpt [= ->]. by apply (Hnew n').
Qed.

(** The parents and the purge that precede a plain member. *)
Lemma plain_prefix_spec s m : tables_ok P s -> rel_path (path m) ->
  let t1 := if bool_decide (path m = dot) then table s else ref_parents P (table s) (path m) m true in
  let t2 := if bool_decide (kind m = DIRECTORY) then t1 else ref_purge P t1 (path m) false in
  reaches s t2
    (let? s := if bool_decide (path m = dot) then Ok s else ensure_parents s (path m) m true in
     if bool_decide (kind m = DIRECTORY) then Ok s else or_loop (purge_subtree s (path m) false)) /\
  (forall n keep, kind m <> DIRECTORY -> placeable P t2 (path m) n keep) /\
  (forall n, n_kind n = DIRECTORY -> kind m = DIRECTORY -> placeable P t2 (path m) n true) /\
  (t2 !! path m = table s !! path m \/ t2 !! path m = None).
Proof.
  intros Hok Hp t1 t2.
  destruct (maybe_parents_spec s (path m) m true Hok Hp) as [(s1 & -> & Hok1 & Ht1 & Hg1) Hdir].
  fold t1 in Ht1, Hdir. cbn [result_bind].
  assert (t1 !! path m = table s !! path m \/ t1 !! path m = None) as Hself.
  { unfold t1. case_bool_decide; [by left|]. by apply ref_parents_self. }
  split; [|split; [|split]].
  - unfold t2. rewrite <- Ht1. case_bool_decide; [by exists s1|].
    destruct (purge_subtree_spec P s1 (path m) false Hok1 Hp) as (s2 & -> & Hok2 & Ht2 & Hg2).
    exists s2. split; [done|]. split; [done|]. split; [done|congruence].
  - intros n keep Hk. unfold t2. rewrite bool_decide_eq_false_2 by done. apply placeable_purged; [|done|done].
    rewrite <- Ht1. apply Hok1.
  - intros n Hn Hk. unfold t2. rewrite bool_decide_eq_true_2 by done. by apply placeable_dir.
  - unfold t2. case_bool_decide; [done|]. rewrite ref_purge_lookup, is_below_irrefl by done. done.
Qed.

Lemma plain_other_spec s m k : tables_ok P s -> k <> FILE -> k <> HARDLINK -> forall b : bool,
  placeable P (table s) (path m) ((plain_node m k) <| opaque := b |>) (bool_decide (k = DIRECTORY)) ->
  agrees (Ok (set_node s (path m) ((plain_node m k) <| opaque := b |>) (bool_decide (k = DIRECTORY))))
    (Ok (<[path m := (plain_node m k) <| opaque := b |>]> (table s))) (groups s).
Proof. intros Hok _ _ b Hpl. apply reaches_agrees, reaches_set; [done|done|done]. Qed.

Lemma plain_file_spec s m : tables_ok P s -> placeable P (table s) (path m) (plain_node m FILE) false ->
  let s1 := s <| groups := <[ordinal m := m]> (groups s) |> in
  let n := (plain_node m FILE) <| group_id := Some (ordinal m) |> in
  agrees (Ok (resolve_forward (set_node s1 (path m) n false) (path m) (ordinal m)))
    (Ok (ref_resolve P (<[path m := n]> (table s)) (path m) (ordinal m))) (<[ordinal m := m]> (groups s)).
Proof.
  intros Hok Hpl s1 n. assert (tables_ok P s1) as Hok1 by (destruct Hok as [? ? ?]; by split).
  assert (tables_ok P (set_node s1 (path m) n false)) as Hok2.
  { destruct Hok1 as [Ht Hi Hw]. apply set_node_ok; [done|done|by apply waits_none|].
    destruct Hpl as [H1 H2 H3 H4]. split; [done|done| |done]. destruct H3 as [|]; [done|by right]. }
  eexists. split; [done|]. split; [by apply resolve_forward_ok|].
  rewrite resolve_forward_table by apply Hok2. rewrite set_node_table. split; [done|].
  change (groups (resolve_forward (set_node s1 (path m) n false) (path m) (ordinal m)))
    with (groups (set_node s1 (path m) n false)). by rewrite set_node_groups.
Qed.

Lemma plain_link_spec s m : tables_ok P s ->
  (forall n, placeable P (table s) (path m) n false) ->
  (forall n, table s !! path m = Some n -> pending_target n <> Some (link_target m)) ->
  let wait := (plain_node m HARDLINK) <| pending_target := Some (link_target m) |> in
  let s1 := s <| pending_by_target :=
                  <[link_target m := {[path m]} ∪ waiting_for s (link_target m)]> (pending_by_target s) |> in
  agrees
    match table s !! link_target m with
    | Some target =>
        match n_kind target with
        | FILE => Ok (set_node s (path m) ((plain_node m HARDLINK) <| group_id := group_id target |>) false)
        | HARDLINK => Err "oci-hardlink-chain: OCI hardlink target must be a same-layer regular file"
        | _ => Ok (set_node s1 (path m) wait false)
        end
    | None => Ok (set_node s1 (path m) wait false)
    end
    match table s !! link_target m with
    | Some target =>
        match n_kind target with
        | FILE => Ok (<[path m := (plain_node m HARDLINK) <| group_id := group_id target |>]> (table s))
        | HARDLINK => Err "oci-hardlink-chain: OCI hardlink target must be a same-layer regular file"
        | _ => Ok (<[path m := wait]> (table s))
        end
    | None => Ok (<[path m := wait]> (table s))
    end (groups s).
Proof.
  intros Hok Hpl Hnew wait s1.
  assert (agrees (Ok (set_node s1 (path m) wait false)) (Ok (<[path m := wait]> (table s))) (groups s)) as Hwait.
  { apply reaches_agrees, reaches_wait; [done|done|done|done]. }
  destruct (table s !! link_target m) as [n|]; [|done].
  destruct (n_kind n); [|exact Hwait|done|exact Hwait..].
  apply reaches_agrees, reaches_set; [done|done|done].
Qed.

Lemma apply_plain_spec s m : tables_ok P s -> rel_path (path m) -> repeats_pending P (table s) m = false ->
  agrees (apply_plain s m) (ref_plain P (table s) m)
    (if bool_decide (kind m = FILE) then <[ordinal m := m]> (groups s) else groups s).
Proof.
  intros Hok Hp Hrep. destruct (plain_prefix_spec s m Hok Hp) as (Hs & Hpl & Hpd & Hself).
  destruct Hs as (s2 & Hs & Hok2 & Ht2 & Hg2).
  assert (kind m = HARDLINK -> forall n, table s2 !! path m = Some n -> pending_target n <> Some (link_target m)) as Hnew.
  { intros Hk n Hn Hpt. rewrite Ht2 in Hn. destruct Hself as [Hself|Hself]; [|congruence].
    unfold repeats_pending in Hrep. rewrite bool_decide_eq_true_2 in Hrep by done.
    rewrite <- Hself, Hn, bool_decide_eq_true_2 in Hrep by done. done. }
  unfold apply_plain, ref_plain. cbv zeta. change (u ".") with dot.
  cbv zeta in Hs, Ht2, Hpl, Hpd. rewrite <- Ht2, <- Hg2 in *. clear Ht2 Hg2 Hself.
  destruct (if bool_decide (path m = dot) then _ else _) as [s1|]; [|done]. cbn [result_bind] in Hs |- *.
  rewrite Hs. cbn [result_bind].
  destruct (kind m) eqn:Ek; cbn [bool_decide decide_rel] in *.
  - (* FILE *) by apply plain_file_spec, Hpl.
  - apply plain_other_spec; [done|done|done|]. by apply Hpd.
  - (* HARDLINK *) destruct (bool_decide (link_target m = path m)); [done|].
    apply plain_link_spec; [done|intros n; by apply Hpl|by apply Hnew].
  - apply plain_other_spec; [done|done|done|]. by apply Hpl.
  - apply plain_other_spec; [done|done|done|]. by apply Hpl.
  - apply plain_other_spec; [done|done|done|]. by apply Hpl.
  - apply plain_other_spec; [done|done|done|]. by apply Hpl.
  - apply plain_other_spec; [done|done|done|]. by apply Hpl.
Qed.

Theorem apply_member_spec s m : tables_ok P s -> rel_path (path m) -> repeats_pending P (table s) m = false ->
  agrees (apply_member s m) (ref_member P (table s) m) (if regular P m then <[ordinal m := m]> (groups s) else groups s).
Proof.
  intros Hok Hp Hrep. unfold apply_member, ref_member, regular.
  case_bool_decide as Ho.
  - rewrite Ho, andb_false_r by done. apply apply_opaque_spec; [done|done|]. intros Hd. by rewrite Hd in Ho.
  - destruct (startswith whiteout_prefix (basename (path m))) eqn:Ew.
    + rewrite andb_false_r. by apply apply_whiteout_spec.
    + rewrite andb_true_r. by apply apply_plain_spec.
Qed.

Definition add_regular (g : gmap Z member) (m : member) : gmap Z member :=
  if regular P m then <[ordinal m := m]> g else g.

Theorem apply_members_spec ms : forall s, tables_ok P s -> Forall (fun m => rel_path (path m)) ms ->
  no_repeats P (table s) ms = true ->
  agrees (apply_members s ms) (ref_members P (table s) ms) (fold_left add_regular ms (groups s)).
Proof.
  induction ms as [|m ms IH]; intros s Hok Hf Hrep.
  - by exists s.
  - inversion_clear Hf as [|? ? Hm Hms]. cbn [no_repeats apply_members ref_members fold_left] in *.
    apply andb_true_iff in Hrep as [Hr Hrep]. apply negb_true_iff in Hr.
    pose proof (apply_member_spec s m Hok Hm Hr) as Hs. fold (add_regular (groups s) m) in Hs.
    destruct (ref_member P (table s) m) as [t'|e]; cbn [agrees result_bind] in Hs |- *.
    + destruct Hs as (s1 & -> & Hok1 & <- & <-). cbn [result_bind]. by apply IH.
    + by rewrite Hs.
Qed.

Lemma tables_ok_init : tables_ok P cstate_init.
Proof.
  assert (forall p, table cstate_init !! p = @None node) as Ht by (intros p; apply lookup_empty).
  split.
  - split; [intros p|intros p q]; rewrite Ht; by intros [].
  - intros p q _. change (children_of cstate_init q) with (∅ : gset pystr). rewrite Ht.
    split; [set_solver|]. by intros [[] _].
  - intros p t. change (waiting_for cstate_init t) with (∅ : gset pystr). setoid_rewrite Ht.
    split; [set_solver|]. by intros (n & Hn & _).
Qed.
End sim.
