(* ===== verification/ChangesetEmit.v ===== *)
(** Emission order of [normalize_changeset]: two passes are enough, nothing is
    lost, and a hardlink follows its payload. *)
From S2P Require Import Prelude Crypto PyStr OsPath Changeset.

Section emission.
Variable P : Type.
Notation entry := (Changeset.entry P).
Implicit Types (e : entry) (l out : list entry).

Definition is_link (e : entry) : bool := bool_decide (e_kind e = HARDLINK).

(** The links of [out] follow their targets, which are in [em] or before them. *)
Definition links_follow (em : gset pystr) (out : list entry) : Prop :=
  forall a e b, out = a ++ e :: b -> e_kind e = HARDLINK ->
    e_link_target e ∈ em \/ e_link_target e ∈ map e_path a.

Lemma links_follow_cons em e out :
  (e_kind e = HARDLINK -> e_link_target e ∈ em) -> links_follow ({[e_path e]} ∪ em) out -> links_follow em (e :: out).
Proof.
  intros He Ho [|x a] e' b Heq Hk.
  - injection Heq as <- <-. left. by apply He.
  - injection Heq as <- Heq. destruct (Ho a e' b Heq Hk) as [H|H]; [|right; by right].
    apply elem_of_union in H as [H|H]; [|by left]. apply elem_of_singleton in H. right. rewrite H. by left.
Qed.

Lemma links_follow_app em out k :
  links_follow em out -> links_follow (em ∪ list_to_set (map e_path out)) k -> links_follow em (out ++ k).
Proof.
  revert em. induction out as [|e out IH]; intros em Ho Hk.
  - cbn in Hk. by rewrite right_id_L in Hk by apply _.
  - cbn [app]. apply links_follow_cons.
    + intros He. destruct (Ho [] e out eq_refl He) as [|Hn]; [done|]. by apply elem_of_nil in Hn.
    + apply IH.
      * intros a e' b -> Hk'. destruct (Ho (e :: a) e' b eq_refl Hk') as [H|H]; [left; set_solver|].
        cbn [map] in H. apply elem_of_cons in H as [->|H]; [left; set_solver|by right].
      * cbn [map list_to_set] in Hk. by rewrite (union_comm_L {[e_path e]} em), <- union_assoc_L.
Qed.

Record pass_ok (em : gset pystr) (l : list entry) (em' : gset pystr) (out deferred : list entry) : Prop := {
  pass_perm : out ++ deferred ≡ₚ l;
  pass_emitted : em' = em ∪ list_to_set (map e_path out);
  pass_follow : links_follow em out;
  pass_deferred : Forall (fun e => e_kind e = HARDLINK /\ e_link_target e ∉ em) deferred;
}.

Lemma emit_pass_ok l : forall em em' out deferred,
  emit_pass em l = (em', out, deferred) -> pass_ok em l em' out deferred.
Proof.
  induction l as [|e l IH]; intros em em' out deferred Hp; cbn [emit_pass] in Hp.
  - injection Hp as <- <- <-. split; [done| |intros [|? ?]; discriminate|constructor]. cbn. by rewrite right_id_L by apply _.
  - destruct (bool_decide (e_kind e = HARDLINK) && _) eqn:E.
    + destruct (emit_pass em l) as [[em1 out1] def1] eqn:E1. injection Hp as <- <- <-.
      destruct (IH _ _ _ _ E1) as [H1 H2 H3 H4]. bool_norm. split; [|done|done|by constructor].
      rewrite <- H1. symmetry. apply Permutation_middle.
    + destruct (emit_pass ({[e_path e]} ∪ em) l) as [[em1 out1] def1] eqn:E1. injection Hp as <- <- <-.
      destruct (IH _ _ _ _ E1) as [H1 H2 H3 H4]. split.
      * cbn [app]. by rewrite H1.
      * rewrite H2. cbn [map list_to_set]. by rewrite (union_comm_L {[e_path e]} em), union_assoc_L.
      * apply links_follow_cons; [|done]. intros Hk. rewrite bool_decide_eq_true_2 in E by done. cbn [andb] in E. by bool_norm.
      * eapply Forall_impl; [exact H4|]. intros x [Hk Hx]. split; [done|]. set_solver.
Qed.

(** Once every target is emitted, a pass emits everything. *)
Lemma emit_pass_all em l em' out deferred : emit_pass em l = (em', out, deferred) ->
  Forall (fun e => e_kind e = HARDLINK -> e_link_target e ∈ em) l -> deferred = [].
Proof.
  intros Hp Hl. destruct (emit_pass_ok _ _ _ _ _ Hp) as [H1 _ _ H4].
  destruct deferred as [|e deferred]; [done|]. inversion_clear H4 as [|? ? [Hk Hn] _].
  rewrite Forall_forall in Hl. destruct Hn. apply Hl; [|done]. rewrite <- H1. apply elem_of_app. right. by left.
Qed.

(** Every link of the list names an entry that is not a link. *)
Definition links_bound (l : list entry) : Prop :=
  forall e, e ∈ l -> e_kind e = HARDLINK -> exists c, c ∈ l /\ e_kind c <> HARDLINK /\ e_path c = e_link_target e.

Lemma emit_pass_first l em' out deferred : links_bound l -> emit_pass ∅ l = (em', out, deferred) ->
  Forall (fun e => e_kind e = HARDLINK -> e_link_target e ∈ em') deferred.
Proof.
  intros Hb Hp. destruct (emit_pass_ok _ _ _ _ _ Hp) as [H1 H2 _ H4]. rewrite Forall_forall in H4.
  apply Forall_forall. intros e He Hk. destruct (Hb e) as (c & Hc & Hck & Hcp); [|done|].
  { rewrite <- H1. apply elem_of_app. by right. }
  rewrite <- H1 in Hc. apply elem_of_app in Hc as [Hc|Hc]; [|by destruct (H4 c Hc)].
  rewrite H2, <- Hcp, elem_of_union, elem_of_list_to_set. right. by apply list_elem_of_fmap_2.
Qed.

Theorem emit_ok l : links_bound l -> exists out, emit l = Ok out /\ out ≡ₚ l /\ links_follow ∅ out.
Proof.
  intros Hb. unfold emit. destruct l as [|x l]; [exists []; split; [done|]; split; [done|by intros [|? ?]]|].
  cbn [length emit_loop].
  destruct (emit_pass ∅ (x :: l)) as [[em1 out1] def1] eqn:E1.
  pose proof (emit_pass_first _ _ _ _ Hb E1) as Hall. destruct (emit_pass_ok _ _ _ _ _ E1) as [H1 H2 H3 H4].
  rewrite left_id_L in H2 by apply _.
  assert (out1 <> []) as Hout.
  { intros ->. cbn [app] in H1. rewrite H1 in H4. destruct (Hb x) as (c & Hc & Hk & _); [by left| |].
    - by inversion_clear H4 as [|? ? [? ?] ?].
    - rewrite Forall_forall in H4. by destruct (H4 c Hc). }
  pose proof (Permutation_length H1) as Hlen. rewrite length_app in Hlen. cbn [length] in Hlen.
  assert (length def1 <> S (length l)) as Hne by (destruct out1; [done|cbn [length] in Hlen; lia]).
  rewrite (proj2 (Nat.eqb_neq _ _)) by done.
  destruct def1 as [|d def1]; cbn [emit_loop].
  - assert (emit_loop (length l) em1 (@nil entry) = Ok []) as -> by by destruct (length l).
    cbn [result_bind]. exists out1. rewrite app_nil_r in *. done.
  - destruct (length l) as [|n] eqn:El; [destruct out1; [done|cbn [length] in Hlen; lia]|]. cbn [emit_loop].
    destruct (emit_pass em1 (d :: def1)) as [[em2 out2] def2] eqn:E2.
    rewrite (emit_pass_all _ _ _ _ _ E2 Hall) in E2 |- *.
    destruct (emit_pass_ok _ _ _ _ _ E2) as [G1 G2 G3 G4]. rewrite app_nil_r in G1.
    cbn [length Nat.eqb]. assert (emit_loop n em2 (@nil entry) = Ok []) as -> by by destruct n.
    cbn [result_bind]. exists (out1 ++ out2). rewrite app_nil_r. split; [done|]. split; [by rewrite G1|].
    apply links_follow_app; [done|]. by rewrite left_id_L, <- H2 by apply _.
Qed.
End emission.
