(* ===== verification/ChangesetGroups.v ===== *)
(** Payload groups: every regular file and every bound hardlink belongs to a
    group with a regular member, and the final table always normalises. *)
From S2P Require Import Prelude Crypto PyStr OsPath Changeset ChangesetRef ChangesetFacts ChangesetSim ChangesetEmit.

Section groups_inv.
Variable P : Type.
Notation member := (Changeset.member P).
Notation node := (Changeset.node P).
Notation entry := (Changeset.entry P).
Notation tree := (gmap pystr node).
Implicit Types (n : node) (m : member) (t : tree) (g : gmap Z member) (e : entry).

Record node_ok (g : gmap Z member) (n : node) : Prop := {
  nd_opaque : opaque n = true -> n_kind n = DIRECTORY;
  nd_group : forall i, group_id n = Some i ->
    (exists m, g !! i = Some m /\ kind m = FILE) /\ (n_kind n = FILE \/ n_kind n = HARDLINK) /\ pending_target n = None;
  nd_file : n_kind n = FILE -> is_Some (group_id n);
  nd_link : n_kind n = HARDLINK -> is_Some (group_id n) \/ is_Some (pending_target n);
  nd_pending : is_Some (pending_target n) -> n_kind n = HARDLINK;
}.

Definition nodes_ok (g : gmap Z member) (t : tree) : Prop := forall p n, t !! p = Some n -> node_ok g n.

(** A node outside every group. *)
Lemma node_ok_plain g n : group_id n = None -> pending_target n = None ->
  (opaque n = true -> n_kind n = DIRECTORY) -> n_kind n <> FILE -> n_kind n <> HARDLINK -> node_ok g n.
Proof. intros Hg Hp Ho Hf Hl. split; [done|congruence|done|done|]. rewrite Hp. by intros []. Qed.

Lemma node_ok_dir g n n' : node_ok g n -> n_kind n = DIRECTORY -> n_kind n' = DIRECTORY ->
  group_id n' = group_id n -> pending_target n' = pending_target n -> node_ok g n'.
Proof.
  intros [H1 H2 H3 H4 H5] Hk Hk' Hg Hp. split; rewrite ?Hg, ?Hp, ?Hk'; try done.
  - intros i Hi. destruct (H2 i Hi) as (? & ? & ?). rewrite Hk in *. done.
  - intros H. rewrite (H5 H) in Hk. done.
Qed.

Lemma nodes_ok_insert g t p n : nodes_ok g t -> node_ok g n -> nodes_ok g (<[p := n]> t).
Proof. intros Ht Hn d n' Hd. apply lookup_insert_Some in Hd as [[_ <-]|[_ Hd]]; [done|by eapply Ht]. Qed.

Lemma nodes_ok_purge g t p r : nodes_ok g t -> nodes_ok g (ref_purge P t p r).
Proof. intros Ht d n Hd. rewrite ref_purge_lookup in Hd. case_match; [done|by eapply Ht]. Qed.

Lemma nodes_ok_group g t m : nodes_ok g t -> kind m = FILE -> nodes_ok (<[ordinal m := m]> g) t.
Proof.
  intros Ht Hm d n Hd. destruct (Ht d n Hd) as [H1 H2 H3 H4 H5]. split; try done.
  intros i Hi. destruct (H2 i Hi) as ((m' & Hm' & Hk) & Hrest). split; [|done].
  destruct (decide (i = ordinal m)) as [->|Hne].
  - exists m. by rewrite lookup_insert_eq.
  - exists m'. by rewrite lookup_insert_ne.
Qed.

Lemma nodes_ok_resolve g t p i : nodes_ok g t -> (exists m, g !! i = Some m /\ kind m = FILE) ->
  nodes_ok g (ref_resolve P t p i).
Proof.
  intros Ht Hi d n Hd. rewrite ref_resolve_lookup in Hd. apply fmap_Some in Hd as (n0 & Hn0 & ->).
  pose proof (Ht d n0 Hn0) as Hok. case_bool_decide as Hp; [|done]. destruct Hok as [H1 H2 H3 H4 H5].
  assert (n_kind n0 = HARDLINK) as Hk by (apply H5; by eexists).
  split; cbn.
  - done.
  - intros j [= <-]. split; [done|]. split; [by right|done].
  - congruence.
  - intros _. left. by eexists.
  - by intros [].
Qed.

Lemma nodes_ok_directory g t m refresh d : nodes_ok g t -> nodes_ok g (ref_directory P m refresh t d).
Proof.
  intros Ht. unfold ref_directory. cbv zeta.
  assert (forall n, n_kind n = DIRECTORY -> group_id n = None -> pending_target n = None -> 
            nodes_ok g (<[d := n]> (ref_purge P t d true))) as Hnew.
  { intros n Hk Hg Hp. apply nodes_ok_insert; [by apply nodes_ok_purge|]. apply node_ok_plain; congruence. }
  destruct (t !! d) as [n|] eqn:E; [|by apply Hnew]. case_bool_decide as Hk; [|by apply Hnew].
  destruct (opaque_placeholder n && refresh); [|done]. apply nodes_ok_insert; [done|].
  eapply node_ok_dir; [by eapply Ht|done|done|done|done].
Qed.

Lemma nodes_ok_parents g p m refresh : forall t, nodes_ok g t -> nodes_ok g (ref_parents P t p m refresh).
Proof.
  unfold ref_parents. intros t Ht. revert t Ht.
  induction (rev (filter (λ q, q <> u ".") (ancestors p))) as [|d l IH]; intros t Ht; [done|].
  cbn [fold_left]. by apply IH, nodes_ok_directory.
Qed.

Lemma nodes_ok_opaque g t m t' : nodes_ok g t -> ref_opaque P t m = Ok t' -> nodes_ok g t'.
Proof.
  intros Ht H. unfold ref_opaque in H. cbv zeta in H. destruct (negb (empty_marker m)); [done|].
  set (p := or_dot (dirname (path m))) in *. clearbody p.
  set (t1 := if bool_decide (p = u ".") then t else _) in *.
  assert (nodes_ok g t1) as Ht1 by (unfold t1; destruct (bool_decide _); [exact Ht|by apply nodes_ok_parents]). clearbody t1.
  assert (forall n, n_kind n = DIRECTORY -> group_id n = None -> pending_target n = None -> 
            nodes_ok g (<[p := n]> (ref_purge P t1 p true))) as Hnew.
  { intros n Hk Hg Hp. apply nodes_ok_insert; [by apply nodes_ok_purge|]. apply node_ok_plain; congruence. }
  destruct (t1 !! p) as [n|] eqn:E; [destruct (bool_decide (n_kind n = DIRECTORY)) eqn:Ek|];
    apply (inj Ok) in H; subst t'; [|by apply Hnew..].
  bool_norm. apply nodes_ok_insert; [done|]. eapply node_ok_dir; [by eapply Ht1|done|done|done|done].
Qed.

Lemma nodes_ok_whiteout g t m t' : nodes_ok g t -> ref_whiteout P t m = Ok t' -> nodes_ok g t'.
Proof.
  intros Ht H. unfold ref_whiteout in H. cbv zeta in H. inv_ok.
  apply nodes_ok_insert; [by apply nodes_ok_purge, nodes_ok_parents|]. by apply node_ok_plain.
Qed.

Lemma nodes_ok_plain_member g t m t' : nodes_ok g t -> ref_plain P t m = Ok t' ->
  nodes_ok (if bool_decide (kind m = FILE) then <[ordinal m := m]> g else g) t'.
Proof.
  intros Ht H. unfold ref_plain in H. cbv zeta in H.
  set (t1 := if bool_decide (path m = u ".") then t else _) in *.
  assert (nodes_ok g t1) as Ht1 by (unfold t1; destruct (bool_decide _); [exact Ht|by apply nodes_ok_parents]). clearbody t1.
  set (t2 := if bool_decide (kind m = DIRECTORY) then t1 else _) in *.
  assert (nodes_ok g t2) as Ht2 by (unfold t2; destruct (bool_decide _); [done|by apply nodes_ok_purge]). clearbody t2.
  assert (nodes_ok g (<[path m := (plain_node m HARDLINK) <| pending_target := Some (link_target m) |>]> t2)) as Hwait.
  { apply nodes_ok_insert; [done|]. split; cbn; try done. intros _. right. by eexists. }
  destruct (kind m) eqn:Ek; cbn [bool_decide decide_rel] in H |- *.
  1: { apply (inj Ok) in H. subst t'. assert (exists m', <[ordinal m := m]> g !! ordinal m = Some m' /\ kind m' = FILE) as Hg
         by (exists m; by rewrite lookup_insert_eq).
       apply nodes_ok_resolve; [|done]. apply nodes_ok_insert; [by apply nodes_ok_group|].
       split; cbn; try done. { intros i [= <-]. split; [done|]. split; [by left|done]. } }
  2: { destruct (bool_decide (link_target m = path m)); [done|].
       destruct (t2 !! link_target m) as [n|] eqn:El; [|apply (inj Ok) in H; by subst t'].
       destruct (n_kind n) eqn:En; try done; apply (inj Ok) in H; subst t'; try exact Hwait.
       apply nodes_ok_insert; [done|]. destruct (Ht2 _ _ El) as [_ H2 H3 _ _]. split; cbn; try done.
       - intros i Hi. destruct (H2 i Hi) as (? & _ & _). split; [done|]. split; [by right|done].
       - intros _. left. by apply H3. }
  all: apply (inj Ok) in H; subst t'; apply nodes_ok_insert; [done|]; apply node_ok_plain; cbn; try done.
  all: destruct (t2 !! path m); rewrite ?andb_false_l; try done.
Qed.

Theorem nodes_ok_member g t m t' : nodes_ok g t -> ref_member P t m = Ok t' -> nodes_ok (add_regular P g m) t'.
Proof.
  intros Ht H. unfold ref_member in H. unfold add_regular, regular. case_bool_decide as Ho.
  - rewrite Ho, andb_false_r. by eapply nodes_ok_opaque.
  - destruct (startswith whiteout_prefix (basename (path m))).
    + rewrite andb_false_r. by eapply nodes_ok_whiteout.
    + rewrite andb_true_r. by apply (nodes_ok_plain_member g t).
Qed.

Theorem nodes_ok_members ms : forall g t t', nodes_ok g t -> ref_members P t ms = Ok t' ->
  nodes_ok (fold_left (add_regular P) ms g) t'.
Proof.
  induction ms as [|m ms IH]; intros g t t' Ht H; cbn [ref_members fold_left] in *.
  - apply (inj Ok) in H. by subst.
  - destruct (ref_member P t m) as [t1|] eqn:E; [|done]. cbn [result_bind] in H.
    eapply IH; [|done]. by eapply nodes_ok_member.
Qed.

(** * The final table normalises *)

Definition final_table (t : tree) (count : Z) : tree :=
  match t !! u "." with
  | Some _ => t
  | None => <[u "." := (plain_node (synthetic_directory (u ".") 0 count) DIRECTORY) <| synthetic := true |>]> t
  end.

Lemma nodes_ok_final g t count : nodes_ok g t -> nodes_ok g (final_table t count).
Proof.
  intros Ht. unfold final_table. destruct (t !! u "."); [done|]. apply nodes_ok_insert; [done|]. by apply node_ok_plain.
Qed.

Lemma final_table_root t count : is_Some (final_table t count !! dot).
Proof.
  unfold final_table, dot. destruct (t !! u ".") eqn:E; [by rewrite E|]. rewrite lookup_insert_eq. by eexists.
Qed.

Lemma elem_of_sorted_paths t p : p ∈ sorted_paths t <-> is_Some (t !! p).
Proof.
  unfold sorted_paths. rewrite sorted_permutation, list_elem_of_fmap. split.
  - intros ([q n] & -> & Hn). apply elem_of_map_to_list in Hn. by exists n.
  - intros [n Hn]. exists (p, n). split; [done|]. by apply elem_of_map_to_list.
Qed.

Lemma NoDup_sorted_paths t : NoDup (sorted_paths t).
Proof. unfold sorted_paths. rewrite sorted_permutation. apply NoDup_fst_map_to_list. Qed.

(** The carrier of an occupied group belongs to the group. *)
Lemma carrier_in_group t p n i : t !! p = Some n -> group_id n = Some i ->
  exists c, t !! carrier t i = Some c /\ group_id c = Some i.
Proof.
  intros Hn Hi.
  assert (forall q, q ∈ group_paths t i -> exists c, t !! q = Some c /\ group_id c = Some i) as Hin.
  { intros q Hq. apply list_elem_of_filter in Hq as [Hq _]. unfold node_at in Hq. destruct (t !! q) as [c|]; [|done].
    exists c. unfold in_group in Hq. by bool_norm. }
  assert (p ∈ group_paths t i) as Hp.
  { apply list_elem_of_filter. split; [|apply elem_of_sorted_paths; by exists n].
    unfold node_at, in_group. rewrite Hn. by apply bool_decide_eq_true. }
  apply Hin. unfold carrier. cbv zeta.
  destruct (filter _ (group_paths t i)) as [|q l] eqn:E.
  - destruct (group_paths t i) as [|q l]; [by apply elem_of_nil in Hp|by left].
  - assert (q ∈ q :: l) as Hq by by left. rewrite <- E in Hq. by apply list_elem_of_filter in Hq as [_ Hq].
Qed.

(** What a node becomes. *)
Record entry_of (g : gmap Z member) (t : tree) (p : pystr) (n : node) (e : entry) : Prop := {
  eo_path : e_path e = p;
  eo_payload : forall i, group_id n = Some i -> p = carrier t i -> exists m,
    g !! i = Some m /\ kind m = FILE /\ e_kind e = FILE /\ e_content e = content m /\ e_size e = Changeset.size m /\
    e_mode e = mode m /\ e_source_ordinal e = Some (ordinal m);
  eo_link : forall i, group_id n = Some i -> p <> carrier t i ->
    e_kind e = HARDLINK /\ e_link_target e = carrier t i /\ e_content e = None;
  eo_other : group_id n = None ->
    e_kind e = n_kind n /\ e_content e = None /\ e_opaque e = opaque n /\ e_synthetic e = synthetic n;
}.

Lemma normalize_node_ok g t count p n : node_ok g n ->
  exists e, normalize_node t g count p n = Ok e /\ entry_of g t p n e.
Proof.
  intros [H1 H2 H3 H4 H5]. unfold normalize_node. cbv zeta.
  assert (opaque n && bool_decide (n_kind n <> DIRECTORY) = false) as ->.
  { destruct (opaque n); [|done]. cbn [andb]. apply bool_decide_eq_false. intros H. by apply H, H1. }
  destruct (group_id n) as [i|] eqn:Eg.
  - destruct (H2 i eq_refl) as ((m & Hm & Hk) & _). rewrite Hm. case_bool_decide as Hp.
    + eexists. split; [done|]. split; rewrite ?Eg; [done| | |done].
      * intros j [= <-] _. by exists m.
      * by intros j [= <-] Hne.
    + eexists. split; [done|]. split; rewrite ?Eg; [done| | |done].
      * by intros j [= <-] Heq.
      * by intros j [= <-] _.
  - eexists. split; [done|]. by split; rewrite ?Eg.
Qed.

Lemma normalize_nodes_ok g t count : nodes_ok g t ->
  exists es, normalize_nodes t g count = Ok es /\
    Forall2 (fun p e => exists n, t !! p = Some n /\ entry_of g t p n e) (sorted_paths t) es.
Proof.
  intros Ht. unfold normalize_nodes.
  assert (Forall (fun p => is_Some (t !! p)) (sorted_paths t)) as Hf.
  { apply Forall_forall. intros p. by rewrite elem_of_sorted_paths. }
  induction Hf as [|p l [n Hn] _ (es & IH & Hes)]; [by exists []|]. cbn [map_result]. rewrite Hn.
  destruct (normalize_node_ok g t count p n (Ht p n Hn)) as (e & -> & He). cbn [result_bind]. rewrite IH.
  exists (e :: es). split; [done|]. constructor; [|done]. by exists n.
Qed.

(** The entries of a table whose links are all bound. *)
Record entries_ok (g : gmap Z member) (t : tree) (es : list entry) : Prop := {
  es_paths : map e_path es = sorted_paths t;
  es_entry : forall e, e ∈ es -> exists n, t !! e_path e = Some n /\ entry_of g t (e_path e) n e;
}.

Lemma entries_ok_intro g t es :
  Forall2 (fun p e => exists n, t !! p = Some n /\ entry_of g t p n e) (sorted_paths t) es -> entries_ok g t es.
Proof.
  intros H. split.
  - induction H as [|p e l k (n & Hn & He) _ IH]; [done|]. cbn [map]. rewrite IH. by rewrite (eo_path _ _ _ _ _ He).
  - induction H as [|p e l k (n & Hn & He) _ IH]; [by intros ? ?%elem_of_nil|].
    intros e' [->|He']%elem_of_cons; [|by apply IH]. exists n. by rewrite (eo_path _ _ _ _ _ He).
Qed.

Lemma entries_at g t es p : entries_ok g t es -> is_Some (t !! p) -> exists e, e ∈ es /\ e_path e = p.
Proof.
  intros [H _] Hp. apply elem_of_sorted_paths in Hp. rewrite <- H in Hp. apply list_elem_of_fmap in Hp as (e & -> & He).
  by exists e.
Qed.

Lemma entries_links_bound g t es : nodes_ok g t -> (forall p n, t !! p = Some n -> pending_target n = None) ->
  entries_ok g t es -> links_bound P es.
Proof.
  intros Ht Hp Hes e He Hk. destruct (es_entry _ _ _ Hes e He) as (n & Hn & Ho).
  destruct (Ht _ _ Hn) as [_ H2 H3 H4 _].
  destruct (group_id n) as [i|] eqn:Eg.
  - destruct (decide (e_path e = carrier t i)) as [Hc|Hc].
    { destruct (eo_payload _ _ _ _ _ Ho i Eg Hc) as (m & _ & _ & Hf & _). congruence. }
    destruct (eo_link _ _ _ _ _ Ho i Eg Hc) as (_ & Hl & _).
    destruct (carrier_in_group t _ n i Hn Eg) as (c & Hcn & Hcg).
    destruct (entries_at g t es (carrier t i) Hes ltac:(by exists c)) as (ec & Hec & Hpc).
    exists ec. split; [done|]. split; [|congruence].
    destruct (es_entry _ _ _ Hes ec Hec) as (c' & Hc' & Hoc). rewrite Hpc in Hc', Hoc. simplify_eq.
    destruct (eo_payload _ _ _ _ _ Hoc i Hcg eq_refl) as (m & _ & _ & -> & _). done.
  - destruct (eo_other _ _ _ _ _ Ho Eg) as (Hk' & _). rewrite Hk in Hk'. symmetry in Hk'.
    destruct (H4 Hk') as [[? ?]|[? ?]]; [done|]. rewrite (Hp _ _ Hn) in *. done.
Qed.
End groups_inv.
