(* ===== verification/ChangesetTheorems.v ===== *)
(** The properties of changeset normalisation ([oci_changeset.py]), each with a
    concrete instance. *)
From S2P Require Import Prelude Crypto PyStr OsPath Changeset ChangesetRef ChangesetFacts ChangesetSim ChangesetEmit ChangesetGroups.

Section theorems.
Variable P : Type.
Notation member := (Changeset.member P).
Notation node := (Changeset.node P).
Notation entry := (Changeset.entry P).
Notation tree := (gmap pystr node).
Implicit Types (ms : list member) (es : list entry).

(** Relative paths of non-empty components, as both callers of [normalize_changeset]
    ensure (the parents of an absolute path do not end, below), and no hardlink
    repeated, at the same path to the same target, while it waits for that target
    (the code loses such a link: [repeated_forward_link_refused]). *)
Definition regular_input (ms : list member) : bool :=
  forallb (fun m => is_rel_path (path m)) ms && no_repeats P ∅ ms.

Lemma regular_input_paths ms : regular_input ms = true -> Forall (fun m => rel_path (path m)) ms.
Proof.
  intros [H _]%andb_true_iff. rewrite forallb_forall in H. apply Forall_forall. intros m Hm.
  by apply is_rel_path_spec, H, list_elem_of_In.
Qed.

Lemma members_agree ms : regular_input ms = true ->
  agrees P (apply_members cstate_init ms) (ref_members P ∅ ms) (ref_groups P ms).
Proof.
  intros H. apply (apply_members_spec P ms cstate_init).
  - apply tables_ok_init.
  - by apply regular_input_paths.
  - by apply andb_true_iff in H as [_ H].
Qed.

(** C13: on an archive of relative paths, in which no hardlink that still waits for
    its target is repeated, the indexed worklist algorithm computes the reference
    normalisation, which purges by filtering and resolves by updating one plain
    table.  On an archive that repeats a waiting hardlink the two may differ: the
    code loses the link and refuses the archive ([repeated_forward_link_refused]). *)
Theorem normalize_refines ms : regular_input ms = true -> normalize_changeset ms = normalize_ref P ms.
Proof.
  intros H. unfold normalize_changeset, normalize_ref. destruct (negb (ordinals_from 0 ms)); [done|].
  pose proof (members_agree ms H) as Ha. destruct (ref_members P ∅ ms) as [t|e]; cbn [agrees] in Ha.
  - destruct Ha as (s & -> & _ & Ht & Hg). cbn [result_bind]. cbv zeta. unfold add_root. by rewrite Ht, Hg.
  - by rewrite Ha.
Qed.

(** What an accepted archive goes through. *)
Record normalized (ms : list member) (t : tree) (es : list entry) : Prop := {
  nm_members : exists t0, ref_members P ∅ ms = Ok t0 /\ t = final_table P t0 (zlen ms);
  nm_nodes : nodes_ok P (ref_groups P ms) t;
  nm_bound : forall p n, t !! p = Some n -> pending_target n = None;
  nm_entries : exists l, es ≡ₚ l /\ entries_ok P (ref_groups P ms) t l /\ links_follow P ∅ es;
}.

Lemma no_pending (t : tree) : existsb (node_at t is_pending) (sorted_paths t) = false ->
  forall p n, t !! p = Some n -> pending_target n = None.
Proof.
  intros H p n Hn. destruct (pending_target n) eqn:E; [|done]. exfalso.
  assert (existsb (node_at t is_pending) (sorted_paths t) = true) as Ht; [|congruence].
  apply existsb_exists. exists p. split; [apply list_elem_of_In, elem_of_sorted_paths; by exists n|].
  unfold node_at, is_pending. rewrite Hn, E. by apply bool_decide_eq_true.
Qed.

Lemma nodes_ok_ref ms t : ref_members P ∅ ms = Ok t -> nodes_ok P (ref_groups P ms) t.
Proof. intros H. apply (nodes_ok_members P ms ∅ ∅); [by intros p n Hn|done]. Qed.

(** Past the members, nothing but an unbound hardlink is refused. *)
Lemma normalize_ref_tail ms t0 : ordinals_from 0 ms = true -> ref_members P ∅ ms = Ok t0 ->
  normalize_ref P ms = Err "oci-hardlink-target: OCI hardlink target must be a same-layer regular file" \/
  exists es, normalize_ref P ms = Ok es /\ normalized ms (final_table P t0 (zlen ms)) es.
Proof.
  intros Ho Hm. unfold normalize_ref. rewrite Ho, Hm. cbn [negb result_bind]. fold (final_table P t0 (zlen ms)).
  set (t := final_table P t0 (zlen ms)).
  destruct (existsb (node_at t is_pending) (sorted_paths t)) eqn:Ep; [by left|]. right.
  pose proof (no_pending t Ep) as Hp.
  assert (nodes_ok P (ref_groups P ms) t) as Hok by (by apply nodes_ok_final, nodes_ok_ref).
  destruct (normalize_nodes_ok P _ _ (zlen ms) Hok) as (l & -> & Hl). cbn [result_bind].
  apply entries_ok_intro in Hl as He.
  destruct (emit_ok P l) as (es & -> & Hperm & Hf); [by eapply entries_links_bound|].
  exists es. split; [done|]. split; [by exists t0|done|done|]. by exists l.
Qed.

Lemma normalized_intro ms es : regular_input ms = true -> normalize_changeset ms = Ok es ->
  exists t, normalized ms t es.
Proof.
  intros Hr H. rewrite (normalize_refines ms Hr) in H.
  destruct (ordinals_from 0 ms) eqn:Ho; [|by unfold normalize_ref in H; rewrite Ho in H].
  destruct (ref_members P ∅ ms) as [t|e] eqn:E; [|by unfold normalize_ref in H; rewrite Ho, E in H].
  destruct (normalize_ref_tail ms t Ho E) as [He|(es' & He & Hn)]; rewrite H in He; [done|].
  apply (inj Ok) in He. subst es'. by eexists.
Qed.

(** The documented rejections of an archive. *)
Definition member_rejections : list string :=
  ["oci-whiteout-marker: OCI opaque marker must be an empty regular file without control metadata";
   "oci-whiteout-target: Invalid OCI whiteout target";
   "oci-whiteout-marker: OCI whiteout marker must be an empty regular file without control metadata";
   "oci-hardlink-self: OCI hardlink cannot target itself";
   "oci-hardlink-chain: OCI hardlink target must be a same-layer regular file"].
Definition rejections : list string :=
  "oci-changeset-input: member ordinals are not contiguous archive order" ::
  "oci-hardlink-target: OCI hardlink target must be a same-layer regular file" :: member_rejections.

Lemma ref_member_err t (m : member) e : ref_member P t m = Err e -> e ∈ member_rejections.
Proof.
  assert (forall e e' : string, e = e' -> e' ∈ member_rejections -> e ∈ member_rejections) as Hin by by intros ? ? ->.
  unfold ref_member, ref_opaque, ref_whiteout, ref_plain. cbv zeta.
  repeat case_match; intros He; try discriminate He; injection He as He; (eapply Hin; [by symmetry; apply He|]);
    unfold member_rejections; rewrite !elem_of_cons; tauto.
Qed.

Lemma ref_members_err ms : forall t e, ref_members P t ms = Err e -> e ∈ member_rejections.
Proof.
  induction ms as [|m ms IH]; intros t e H; [done|]. cbn [ref_members] in H.
  destruct (ref_member P t m) as [t1|e1] eqn:E; cbn [result_bind] in H; [by eapply IH|].
  injection H as ->. by eapply ref_member_err.
Qed.

(** C27: on an archive of relative paths, in which no hardlink that still waits for
    its target is repeated, normalisation ends, with the entries or with one of the
    documented rejections: the internal consistency errors (a group without
    payload, an opaque file, an unresolvable emission order) cannot occur.  The paths
    must be relative: [absolute_parents_do_not_end]. *)
Theorem normalize_total ms : regular_input ms = true ->
  (exists es, normalize_changeset ms = Ok es) \/ (exists e, normalize_changeset ms = Err e /\ e ∈ rejections).
Proof.
  intros Hr. rewrite (normalize_refines ms Hr). unfold rejections.
  destruct (ordinals_from 0 ms) eqn:Ho.
  2: { right. unfold normalize_ref. rewrite Ho. eexists. split; [done|]. by left. }
  destruct (ref_members P ∅ ms) as [t|e] eqn:E.
  - destruct (normalize_ref_tail ms t Ho E) as [->|(es & -> & _)]; [right|by left; exists es].
    eexists. split; [done|]. right. by left.
  - right. unfold normalize_ref. rewrite Ho, E. exists e. split; [done|]. right. right. by eapply ref_members_err.
Qed.

(** ** The entries *)

Lemma group_member ms : forall (g : gmap Z member), (forall i m, g !! i = Some m -> ordinal m = i) ->
  forall i m, fold_left (add_regular P) ms g !! i = Some m -> (m ∈ ms \/ g !! i = Some m) /\ ordinal m = i.
Proof.
  induction ms as [|x ms IH]; intros g Hg i m H; cbn [fold_left] in H; [split; [by right|by apply Hg]|].
  destruct (IH (add_regular P g x)) with (i := i) (m := m) as [[Hm|Hm] Hi]; [|done|..].
  - intros j y. unfold add_regular. destruct (regular P x); [|apply Hg].
    intros [[<- <-]|[_ Hy]]%lookup_insert_Some; [done|by apply Hg].
  - split; [left; by right|done].
  - split; [|done]. unfold add_regular in Hm. destruct (regular P x); [|by right].
    apply lookup_insert_Some in Hm as [[_ <-]|[_ Hm]]; [left; by left|by right].
Qed.

Lemma ref_group_member ms i m : ref_groups P ms !! i = Some m -> m ∈ ms /\ ordinal m = i.
Proof.
  intros H. destruct (group_member ms ∅ ltac:(by intros ? ? ?%lookup_empty_Some) i m H) as [[Hm|Hm] Hi]; [done|].
  by apply lookup_empty_Some in Hm.
Qed.

(** The entry carries the payload and the metadata of the regular member [m]. *)
Definition carries (e : entry) (m : member) : Prop :=
  kind m = FILE /\ e_content e = content m /\ e_size e = Changeset.size m /\ e_mode e = mode m /\
  e_source_ordinal e = Some (ordinal m).

Lemma file_carries ms t es e : normalized ms t es -> e ∈ es -> e_kind e = FILE ->
  exists m, m ∈ ms /\ carries e m.
Proof.
  intros [_ Hn _ (l & Hp & Hl & _)] He Hk. rewrite Hp in He.
  destruct (es_entry _ _ _ _ Hl e He) as (n & Hnd & Ho). destruct (Hn _ _ Hnd) as [_ H2 H3 _ _].
  destruct (group_id n) as [i|] eqn:Eg.
  - destruct (decide (e_path e = carrier t i)) as [Hc|Hc].
    + destruct (eo_payload _ _ _ _ _ _ Ho i Eg Hc) as (m & Hm & Hrest). exists m.
      destruct (ref_group_member ms i m Hm) as [Hin _]. unfold carries. tauto.
    + destruct (eo_link _ _ _ _ _ _ Ho i Eg Hc) as (Hl' & _). congruence.
  - destruct (eo_other _ _ _ _ _ _ Ho Eg) as (Hk' & _). rewrite Hk in Hk'. destruct (H3 (eq_sym Hk')) as [? ?]. done.
Qed.

(** Every emitted hardlink comes after the regular entry it names, and
    every regular entry carries the payload of one regular member. *)
Theorem hardlinks_follow_payload ms es : regular_input ms = true -> normalize_changeset ms = Ok es ->
  (forall e, e ∈ es -> e_kind e = FILE -> exists m, m ∈ ms /\ carries e m) /\
  (forall a e b, es = a ++ e :: b -> e_kind e = HARDLINK ->
     exists c, c ∈ a /\ e_path c = e_link_target e /\ e_kind c = FILE).
Proof.
  intros Hr H. destruct (normalized_intro ms es Hr H) as [t Hn].
  split; [intros e He Hk; by eapply file_carries|].
  destruct Hn as [_ Hn Hpend (l & Hp & Hl & Hf)]. intros a e b -> Hk.
  destruct (Hf a e b eq_refl Hk) as [Hin|Hin]; [by apply not_elem_of_empty in Hin|].
  apply list_elem_of_fmap in Hin as (c & Hpc & Hc). exists c. split; [done|]. split; [done|].
  assert (e ∈ l) as He by (rewrite <- Hp; apply elem_of_app; right; by left).
  assert (c ∈ l) as Hcl by (rewrite <- Hp; apply elem_of_app; by left).
  destruct (es_entry _ _ _ _ Hl e He) as (n & Hnd & Ho). destruct (Hn _ _ Hnd) as [_ H2 H3 H4 _].
  destruct (es_entry _ _ _ _ Hl c Hcl) as (nc & Hncd & Hoc). rewrite <- Hpc in Hncd, Hoc.
  destruct (group_id n) as [i|] eqn:Eg.
  - destruct (decide (e_path e = carrier t i)) as [Hce|Hce].
    + destruct (eo_payload _ _ _ _ _ _ Ho i Eg Hce) as (m & _ & _ & Hfile & _). congruence.
    + destruct (eo_link _ _ _ _ _ _ Ho i Eg Hce) as (_ & Hlt & _). rewrite Hlt in Hncd, Hoc.
      destruct (carrier_in_group _ t _ n i Hnd Eg) as (nc' & Hnc' & Hg'). simplify_eq.
      by destruct (eo_payload _ _ _ _ _ _ Hoc i Hg' eq_refl) as (m & _ & _ & Hfile & _).
  - destruct (eo_other _ _ _ _ _ _ Ho Eg) as (Hk' & _). rewrite Hk in Hk'.
    destruct (H4 (eq_sym Hk')) as [[? ?]|[? ?]]; [done|]. rewrite (Hpend _ _ Hnd) in *. done.
Qed.

Lemma final_tree_ok ms t0 : regular_input ms = true -> ref_members P ∅ ms = Ok t0 ->
  tree_ok P (final_table P t0 (zlen ms)).
Proof.
  intros Hr H. pose proof (members_agree ms Hr) as Ha. rewrite H in Ha.
  destruct Ha as (s & _ & Hok & <- & _). unfold final_table. destruct (table s !! u "."); [apply Hok|].
  apply (set_node_tree_ok P (table s) dot _ true); [apply Hok|]. apply placeable_dir; [apply rel_dot|done|done].
Qed.

(** What holds of the root: a directory, unless [B]. *)
Definition rooted (B : Prop) (t : tree) : Prop := forall n, t !! dot = Some n -> n_kind n = DIRECTORY \/ B.

Lemma rooted_insert B t p (n : node) : rooted B t -> (p = dot -> n_kind n = DIRECTORY \/ B) -> rooted B (<[p := n]> t).
Proof. intros Ht Hn n' [[-> <-]|[_ Hd]]%lookup_insert_Some; [by apply Hn|by apply Ht]. Qed.

Lemma rooted_purge B t p r : rooted B t -> rooted B (ref_purge P t p r).
Proof. intros Ht n. rewrite ref_purge_lookup. case_match; [done|apply Ht]. Qed.

Lemma rooted_directory B m refresh t d : rooted B t -> rooted B (ref_directory P m refresh t d).
Proof.
  intros Ht. unfold ref_directory. cbv zeta.
  assert (forall n, n_kind n = DIRECTORY -> rooted B (<[d := n]> (ref_purge P t d true))) as Hnew
    by (intros n Hn; apply rooted_insert; [by apply rooted_purge|by left]).
  destruct (t !! d) as [n|] eqn:E; [|by apply Hnew]. case_bool_decide as Hk; [|by apply Hnew].
  destruct (opaque_placeholder n && refresh); [|done]. apply rooted_insert; [done|by left].
Qed.

Lemma rooted_parents B p m refresh t : rooted B t -> rooted B (ref_parents P t p m refresh).
Proof.
  unfold ref_parents. revert t. induction (rev (filter (λ q, q <> u ".") (ancestors p))) as [|d l IH]; intros t Ht; [done|].
  cbn [fold_left]. by apply IH, rooted_directory.
Qed.

Lemma rooted_resolve B t p i : rooted B t -> rooted B (ref_resolve P t p i).
Proof. intros Ht n. rewrite ref_resolve_lookup. intros (n0 & Hn & ->)%fmap_Some. specialize (Ht n0 Hn). by case_bool_decide. Qed.

Lemma rooted_plain (B : Prop) t m t' : (path m = dot -> kind m <> DIRECTORY -> B) -> rooted B t -> ref_plain P t m = Ok t' -> rooted B t'.
Proof.
  intros HB Ht H. unfold ref_plain in H. cbv zeta in H.
  set (t1 := if bool_decide (path m = u ".") then t else _) in *.
  assert (rooted B t1) as Ht1 by (unfold t1; destruct (bool_decide _); [exact Ht|by apply rooted_parents]). clearbody t1.
  set (t2 := if bool_decide (kind m = DIRECTORY) then t1 else _) in *.
  assert (rooted B t2) as Ht2 by (unfold t2; destruct (bool_decide _); [done|by apply rooted_purge]). clearbody t2.
  assert (forall n, n_kind n = kind m -> rooted B (<[path m := n]> t2)) as Hput.
  { intros n Hn. apply rooted_insert; [done|]. intros Hp. rewrite Hn.
    destruct (decide (kind m = DIRECTORY)) as [?|Hk]; [by left|right; by apply HB]. }
  destruct (kind m) eqn:Ek; cbn [bool_decide decide_rel] in H.
  1: { apply (inj Ok) in H. subst t'. by apply rooted_resolve, Hput. }
  2: { destruct (bool_decide (link_target m = path m)); [done|].
       destruct (t2 !! link_target m) as [x|]; [destruct (n_kind x); try done|]; apply (inj Ok) in H; subst t'; by apply Hput. }
  all: apply (inj Ok) in H; subst t'; by apply Hput.
Qed.

(** A whiteout never hides the root. *)
Lemma whiteout_path_not_root (m : member) : drop (length whiteout_prefix) (basename (path m)) <> [] ->
  drop (length whiteout_prefix) (basename (path m)) <> u "." -> whiteout_path P m <> dot.
Proof.
  intros Hne Hdot. unfold whiteout_path. cbv zeta. case_bool_decide as Hp; [done|].
  set (q := or_dot (dirname (path m))) in *. set (b := drop _ _) in *. clearbody b.
  assert (q <> []) as Hq by (unfold q, or_dot; by case_bool_decide). clearbody q.
  unfold path_join. destruct b as [|c b]; [done|]. destruct q as [|d q]; [done|].
  destruct (startswith _ _) eqn:Es; [|by case_match; intros [= _ E]; apply (f_equal length) in E; rewrite ?length_app in E; simpl in E; lia].
  intros E. rewrite E in Es. by vm_compute in Es.
Qed.

Lemma rooted_member (B : Prop) t m t' : rel_path (path m) -> (path m = dot -> kind m <> DIRECTORY -> B) ->
  rooted B t -> ref_member P t m = Ok t' -> rooted B t'.
Proof.
  intros Hp HB Ht H. unfold ref_member in H. destruct (bool_decide _).
  - unfold ref_opaque in H. cbv zeta in H. destruct (negb (empty_marker m)); [done|].
    set (q := or_dot (dirname (path m))) in *. clearbody q.
    set (t1 := if bool_decide (q = u ".") then t else _) in *.
    assert (rooted B t1) as Ht1 by (unfold t1; destruct (bool_decide _); [exact Ht|by apply rooted_parents]). clearbody t1.
    destruct (t1 !! q) as [x|]; [destruct (bool_decide (n_kind x = DIRECTORY)) eqn:Ek|]; apply (inj Ok) in H; subst t';
      [bool_norm; apply rooted_insert; [done|by left]|apply rooted_insert; [by apply rooted_purge|by left]..].
  - destruct (startswith whiteout_prefix (basename (path m))) eqn:Ew; [|by eapply rooted_plain].
    unfold ref_whiteout in H. cbv zeta in H. inv_ok. apply rooted_insert; [by apply rooted_purge, rooted_parents|].
    intros Hd. apply whiteout_path_not_root in Hd; [done|intros Ee..].
    all: match goal with G : _ || _ || _ || _ = false |- _ => rewrite Ee in G; by vm_compute in G end.
Qed.

Lemma rooted_members (B : Prop) ms : forall t t', Forall (fun m => rel_path (path m)) ms ->
  (forall m, m ∈ ms -> path m = dot -> kind m <> DIRECTORY -> B) -> rooted B t -> ref_members P t ms = Ok t' -> rooted B t'.
Proof.
  induction ms as [|m ms IH]; intros t t' Hp HB Ht H; cbn [ref_members] in H; [by apply (inj Ok) in H; subst|].
  inversion_clear Hp as [|? ? Hm Hms]. destruct (ref_member P t m) as [t1|] eqn:E; [|done]. cbn [result_bind] in H.
  apply (IH t1 t' Hms); [|by eapply (rooted_member B t m); [|apply (HB m); by left| |]|done].
  intros x Hx. apply HB. by right.
Qed.

Lemma root_directory ms t0 n : regular_input ms = true -> ref_members P ∅ ms = Ok t0 ->
  final_table P t0 (zlen ms) !! dot = Some n ->
  n_kind n = DIRECTORY \/ exists m, m ∈ ms /\ path m = dot /\ kind m <> DIRECTORY.
Proof.
  intros Hr H. set (B := exists m, m ∈ ms /\ _). assert (rooted B t0) as Ht0.
  { apply (rooted_members B ms ∅); [by apply regular_input_paths|by intros m; exists m|by intros ? ?%lookup_empty_Some|done]. }
  unfold final_table. destruct (t0 !! u ".") eqn:E; [apply Ht0|]. intros [[_ <-]|[? ?]]%lookup_insert_Some; [by left|done].
Qed.

(** The entry of a directory node is a directory. *)
Lemma entry_directory ms t l p d ed : nodes_ok P (ref_groups P ms) t -> entries_ok P (ref_groups P ms) t l ->
  t !! p = Some d -> n_kind d = DIRECTORY -> ed ∈ l -> e_path ed = p -> e_kind ed = DIRECTORY.
Proof.
  intros Hn Hl Hd Hdk Hed Hpd. destruct (es_entry _ _ _ _ Hl ed Hed) as (d' & Hd' & Hod). rewrite Hpd in Hd'. simplify_eq.
  destruct (Hn _ _ Hd) as [_ H2 _ _ _]. destruct (group_id d) as [i|] eqn:Eg.
  - destruct (H2 i eq_refl) as (_ & [?|?] & _); congruence.
  - destruct (eo_other _ _ _ _ _ _ Hod Eg) as (-> & _). done.
Qed.

(** C23: the entries of an accepted archive (of relative paths, in which no hardlink
    that still waits for its target is repeated) are a tree: one entry per path, the
    root among them, and the parent of every other entry is a directory entry, or
    the root where a member of the archive itself makes the root something else:
    [normalize_changeset] leaves that case to its callers, which refuse it. *)
Theorem entries_form_tree ms es : regular_input ms = true -> normalize_changeset ms = Ok es ->
  NoDup (map e_path es) /\ (exists e, e ∈ es /\ e_path e = u ".") /\
  (forall e q, e ∈ es -> parent_of (e_path e) = Some q ->
     exists d, d ∈ es /\ e_path d = q /\
       (e_kind d = DIRECTORY \/ q = u "." /\ exists m, m ∈ ms /\ path m = u "." /\ kind m <> DIRECTORY)).
Proof.
  intros Hr H. destruct (normalized_intro ms es Hr H) as [t [(t0 & Ht0 & ->) Hn _ (l & Hp & Hl & _)]].
  pose proof (final_tree_ok ms t0 Hr Ht0) as Hok. pose proof (fun n => root_directory ms t0 n Hr Ht0) as Hroot.
  destruct (final_table_root P t0 (zlen ms)) as [nr Hnr]. set (t := final_table P t0 (zlen ms)) in *.
  assert (forall p n, t !! p = Some n -> exists e, e ∈ es /\ e_path e = p) as Hat.
  { intros p n Hpn. destruct (entries_at P _ t l p Hl ltac:(by exists n)) as (e & He & Hep). exists e. by rewrite Hp. }
  split; [|split; [by apply (Hat dot nr)|]].
  - assert (map e_path es ≡ₚ map e_path l) as -> by (by apply fmap_Permutation).
    rewrite (es_paths _ _ _ _ Hl). apply NoDup_sorted_paths.
  - intros e q He Hq. rewrite Hp in He. destruct (es_entry _ _ _ _ Hl e He) as (n & Hnd & _).
    assert (exists d, t !! q = Some d /\ (n_kind d = DIRECTORY \/ q = u "." /\ exists m, m ∈ ms /\ path m = u "." /\ kind m <> DIRECTORY)) as (d & Hd & Hdk).
    { destruct (tree_closed _ _ Hok _ q ltac:(by exists n) Hq) as [->|(d & ? & ?)]; [|by eauto].
      exists nr. split; [done|]. destruct (Hroot nr Hnr); auto. }
    destruct (Hat q d Hd) as (ed & Hed & Hpd). exists ed. split; [done|]. split; [done|].
    destruct Hdk as [Hdk|?]; [left|by right]. rewrite Hp in Hed. by eapply entry_directory.
Qed.

(** ** One more member *)

Lemma no_repeats_app ms m t0 : no_repeats P t0 (ms ++ [m]) = true ->
  no_repeats P t0 ms = true /\ (forall t, ref_members P t0 ms = Ok t -> repeats_pending P t m = false).
Proof.
  revert t0. induction ms as [|x ms IH]; intros t0 H; cbn [no_repeats ref_members app] in *.
  - split; [done|]. intros t Ht. apply (inj Ok) in Ht. subst t. apply andb_true_iff in H as [H _]. by apply negb_true_iff in H.
  - apply andb_true_iff in H as [-> H]. destruct (ref_member P t0 x) as [t1|e]; [|done]. cbn [result_bind andb]. by apply IH.
Qed.

(** The state after [ms] and the member that follows. *)
Lemma one_more ms m s : regular_input (ms ++ [m]) = true -> apply_members cstate_init ms = Ok s ->
  tables_ok P s /\ rel_path (path m) /\ nodes_ok P (groups s) (table s) /\
  agrees P (apply_member s m) (ref_member P (table s) m) (add_regular P (groups s) m).
Proof.
  intros Hr Hs. pose proof (regular_input_paths _ Hr) as Hp. rewrite Forall_app, Forall_singleton in Hp.
  destruct Hp as [Hp Hm]. unfold regular_input in Hr. rewrite forallb_app in Hr. cbn [forallb] in Hr.
  apply andb_true_iff in Hr as [Hr Hnr]. apply andb_true_iff in Hr as [Hrp _].
  destruct (no_repeats_app _ _ _ Hnr) as [Hnr1 Hnr2].
  assert (regular_input ms = true) as Hri by (unfold regular_input; by rewrite Hrp, Hnr1).
  pose proof (members_agree ms Hri) as Ha. destruct (ref_members P ∅ ms) as [t|e] eqn:E; cbn [agrees] in Ha.
  2: congruence.
  destruct Ha as (s1 & Hs1 & Hok & Ht & Hg). rewrite Hs in Hs1. apply (inj Ok) in Hs1. subst s1.
  split; [done|]. split; [done|]. split; [rewrite Ht, Hg; by apply nodes_ok_ref|].
  apply apply_member_spec; [done|done|]. rewrite Ht. by apply Hnr2.
Qed.

(** The ancestors of [d] below the root are directories. *)
Definition ancestors_dirs (t : tree) (d : pystr) : Prop :=
  forall a, is_below a d = true -> a <> u "." -> is_dir P t a.

Lemma ref_parents_dirs t d m : ancestors_dirs t d -> ref_parents P t d m false = t.
Proof.
  intros Ha. unfold ref_parents.
  assert (forall l, Forall (fun a => is_dir P t a) l -> fold_left (ref_directory P m false) l t = t) as Hl.
  { intros l Hl. induction Hl as [|a l (n & Hn & Hk) _ IH]; [done|]. cbn [fold_left].
    assert (ref_directory P m false t a = t) as ->; [|done].
    unfold ref_directory. cbv zeta. by rewrite Hn, bool_decide_eq_true_2, andb_false_r. }
  apply Hl, Forall_forall. intros a Hin. apply list_elem_of_In, in_rev, list_elem_of_In in Hin.
  apply list_elem_of_filter in Hin as [Hne Hin]. apply Ha; [|done]. unfold is_below. by apply bool_decide_eq_true.
Qed.

(** After a whiteout [.wh.x] the path [x] is a whiteout entry with nothing
    below it; where its parents are directories, nothing else has changed. *)
Theorem whiteout_hides ms (m : member) s s' : regular_input (ms ++ [m]) = true ->
  apply_members cstate_init ms = Ok s ->
  startswith whiteout_prefix (basename (path m)) = true -> basename (path m) <> u ".wh..wh..opq" ->
  apply_member s m = Ok s' ->
  let p := whiteout_path P m in
  (exists n, table s' !! p = Some n /\ n_kind n = WHITEOUT) /\
  (forall d, is_below p d = true -> table s' !! d = None) /\
  (ancestors_dirs (table s) p -> forall d, d <> p -> is_below p d = false -> table s' !! d = table s !! d).
Proof.
  intros Hr Hs Hw Ho Hs' p. destruct (one_more ms m s Hr Hs) as (Hok & Hp & _ & Ha).
  unfold ref_member in Ha. rewrite bool_decide_eq_false_2, Hw in Ha by done.
  destruct (ref_whiteout P (table s) m) as [t'|e] eqn:E; cbn [agrees] in Ha; [|congruence].
  destruct Ha as (s1 & Hs1 & Hok1 & Ht & _). rewrite Hs' in Hs1. apply (inj Ok) in Hs1. subst s1.
  assert (rel_path p) as Hrp.
  { apply whiteout_path_rel; [done| |done]. intros Hn. unfold ref_whiteout in E. cbv zeta in E.
    by rewrite Hn in E. }
  unfold ref_whiteout in E. cbv zeta in E. fold p in E. inv_ok. rewrite Ht.
  split; [|split].
  - eexists. by rewrite lookup_insert_eq.
  - intros d Hd. destruct (decide (d = p)) as [->|Hne]; [by rewrite is_below_irrefl in Hd|].
    by rewrite lookup_insert_ne, ref_purge_lookup, Hd by done.
  - intros Hdir d Hne Hb. rewrite lookup_insert_ne, ref_purge_lookup, Hb, bool_decide_eq_false_2 by done.
    cbn [orb andb]. by rewrite ref_parents_dirs.
Qed.

(** ** Binding of hardlinks *)

(** A node of a payload group, or one that waits for its target. *)
Definition linked (n : node) : bool := bool_decide (group_id n <> None) || bool_decide (pending_target n <> None).

(** The linked nodes of the new table are those of the old one. *)
Definition old_linked (t t' : tree) : Prop :=
  forall p n, t' !! p = Some n -> linked n = true -> t !! p = Some n.

Lemma old_linked_refl t : old_linked t t.
Proof. by intros ? ? ? ?. Qed.

Lemma old_linked_trans (t1 t2 t3 : tree) : old_linked t1 t2 -> old_linked t2 t3 -> old_linked t1 t3.
Proof. intros H1 H2 p n Hn Hl. apply H1; [|done]. by apply H2. Qed.

Lemma old_linked_purge t p r : old_linked t (ref_purge P t p r).
Proof. intros d n. rewrite ref_purge_lookup. by case_match. Qed.

Lemma old_linked_insert (t t' : tree) p (n : node) : old_linked t t' -> linked n = false -> old_linked t (<[p := n]> t').
Proof. intros H Hn d n' [[<- <-]|[_ Hd]]%lookup_insert_Some Hl; [congruence|by eapply H]. Qed.

Lemma old_linked_directory g t m refresh d : nodes_ok P g t -> old_linked t (ref_directory P m refresh t d).
Proof.
  intros Ht. unfold ref_directory. cbv zeta.
  assert (forall n, linked n = false -> old_linked t (<[d := n]> (ref_purge P t d true))) as Hnew
    by (intros n Hn; by apply old_linked_insert; [apply old_linked_purge|]).
  destruct (t !! d) as [n|] eqn:E; [|by apply Hnew]. case_bool_decide as Hk; [|by apply Hnew].
  destruct (opaque_placeholder n && refresh); [|apply old_linked_refl].
  apply old_linked_insert; [apply old_linked_refl|]. destruct (Ht _ _ E) as [_ H2 _ _ H5].
  unfold linked. cbn. destruct (group_id n) as [i|]; [destruct (H2 i eq_refl) as (_ & [?|?] & _); congruence|].
  destruct (pending_target n) as [i|]; [|done]. pose proof (H5 ltac:(by eexists)); congruence.
Qed.

Lemma old_linked_parents g p m refresh t : nodes_ok P g t -> old_linked t (ref_parents P t p m refresh).
Proof.
  unfold ref_parents. revert t. induction (rev (filter (λ q, q <> u ".") (ancestors p))) as [|d l IH]; intros t Ht.
  - apply old_linked_refl.
  - cbn [fold_left]. eapply old_linked_trans; [by eapply old_linked_directory|]. by apply IH, nodes_ok_directory.
Qed.

(** How a linked node got to [p]: it was there, and [m] was not what it waits for;
    it is the regular member [m]; it waited for [m]; it is the hardlink [m], to the
    regular node visible now or to one that is still to come. *)
Inductive arises (t : tree) (m : member) (p : pystr) : node -> Prop :=
| arises_kept n : t !! p = Some n -> (regular P m = true -> pending_target n <> Some (path m)) -> arises t m p n
| arises_regular : regular P m = true -> p = path m ->
    arises t m p ((plain_node m FILE) <| group_id := Some (ordinal m) |>)
| arises_met w : regular P m = true -> t !! p = Some w -> pending_target w = Some (path m) ->
    arises t m p (w <| pending_target := None |> <| group_id := Some (ordinal m) |>)
| arises_bound target i : kind m = HARDLINK -> p = path m ->
    t !! link_target m = Some target -> n_kind target = FILE -> group_id target = Some i ->
    arises t m p ((plain_node m HARDLINK) <| group_id := Some i |>)
| arises_waiting : kind m = HARDLINK -> p = path m ->
    arises t m p ((plain_node m HARDLINK) <| pending_target := Some (link_target m) |>).

Lemma arises_old t t' m p n : regular P m = false -> old_linked t t' -> t' !! p = Some n -> linked n = true -> arises t m p n.
Proof. intros Hm H Hn Hl. apply arises_kept; [by apply H|congruence]. Qed.

Lemma marker_not_regular (m : member) : startswith whiteout_prefix (basename (path m)) = true -> regular P m = false.
Proof. intros H. unfold regular. by rewrite H, andb_false_r. Qed.

Lemma old_linked_opaque g t m t' : nodes_ok P g t -> ref_opaque P t m = Ok t' -> old_linked t t'.
Proof.
  intros Ht H. unfold ref_opaque in H. cbv zeta in H. destruct (negb (empty_marker m)); [done|].
  set (q := or_dot (dirname (path m))) in *. clearbody q.
  set (t1 := if bool_decide (q = u ".") then t else _) in *.
  assert (nodes_ok P g t1 /\ old_linked t t1) as [Ht1 Hold].
  { unfold t1. destruct (bool_decide _); [split; [done|apply old_linked_refl]|].
    split; [by apply nodes_ok_parents|by eapply old_linked_parents]. }
  clearbody t1.
  assert (forall x, linked x = false -> old_linked t (<[q := x]> (ref_purge P t1 q true))) as Hnew.
  { intros x Hx. apply old_linked_insert; [|done]. by eapply old_linked_trans; [|apply old_linked_purge]. }
  destruct (t1 !! q) as [x|] eqn:E; [destruct (bool_decide (n_kind x = DIRECTORY)) eqn:Ek|];
    apply (inj Ok) in H; subst t'; [|by apply Hnew..].
  bool_norm. apply old_linked_insert; [done|]. destruct (Ht1 _ _ E) as [_ H2 _ _ H5].
  unfold linked. cbn. destruct (group_id x) as [j|]; [destruct (H2 j eq_refl) as (_ & [?|?] & _); congruence|].
  destruct (pending_target x) as [j|]; [|done]. pose proof (H5 ltac:(by eexists)); congruence.
Qed.

Lemma old_linked_whiteout g t m t' : nodes_ok P g t -> ref_whiteout P t m = Ok t' -> old_linked t t'.
Proof.
  intros Ht H. unfold ref_whiteout in H. cbv zeta in H. inv_ok.
  apply old_linked_insert; [|done]. by eapply old_linked_trans; [eapply old_linked_parents|apply old_linked_purge].
Qed.

Lemma file_arises g t m p n : kind m = FILE -> regular P m = true -> forall t2, nodes_ok P g t2 -> old_linked t t2 ->
  ref_resolve P (<[path m := (plain_node m FILE) <| group_id := Some (ordinal m) |>]> t2) (path m) (ordinal m) !! p = Some n ->
  linked n = true -> arises t m p n.
Proof.
  intros Ek Hm t2 Ht2 H2 Hn Hl. rewrite ref_resolve_lookup in Hn. apply fmap_Some in Hn as (x & Hx & ->).
  case_bool_decide as Hpt.
  - apply lookup_insert_Some in Hx as [[_ <-]|[_ Hx]]; [done|].
    apply arises_met; [done| |done]. apply H2; [done|]. unfold linked. by rewrite Hpt, orb_true_r.
  - apply lookup_insert_Some in Hx as [[<- <-]|[_ Hx]]; [by apply arises_regular|].
    apply arises_kept; [by apply H2|done].
Qed.

Lemma link_arises g t m p n t' : kind m = HARDLINK -> forall t2, nodes_ok P g t2 -> old_linked t t2 ->
  match t2 !! link_target m with
  | Some target =>
      match n_kind target with
      | FILE => Ok (<[path m := (plain_node m HARDLINK) <| group_id := group_id target |>]> t2)
      | HARDLINK => Err "oci-hardlink-chain: OCI hardlink target must be a same-layer regular file"
      | _ => Ok (<[path m := (plain_node m HARDLINK) <| pending_target := Some (link_target m) |>]> t2)
      end
  | None => Ok (<[path m := (plain_node m HARDLINK) <| pending_target := Some (link_target m) |>]> t2)
  end = Ok t' -> t' !! p = Some n -> linked n = true -> arises t m p n.
Proof.
  intros Ek t2 Ht2 H2 H Hn Hl.
  assert (regular P m = false) as Hm by (unfold regular; by rewrite Ek).
  assert (<[path m := (plain_node m HARDLINK) <| pending_target := Some (link_target m) |>]> t2 !! p = Some n -> arises t m p n) as Hwait.
  { intros [[<- <-]|[_ Hd]]%lookup_insert_Some; [by apply arises_waiting|by eapply arises_old]. }
  destruct (t2 !! link_target m) as [x|] eqn:El; [|apply (inj Ok) in H; subst t'; by apply Hwait].
  destruct (n_kind x) eqn:En; try done; apply (inj Ok) in H; subst t'; try (by apply Hwait).
  apply lookup_insert_Some in Hn as [[<- <-]|[_ Hn]]; [|by eapply arises_old].
  destruct (nd_file _ _ _ (Ht2 _ _ El) En) as [i Hi]. rewrite Hi.
  apply (arises_bound _ _ _ x i); [done|done| |done|done]. apply H2; [done|]. unfold linked. by rewrite Hi.
Qed.

Lemma plain_arises g t m t' p n : nodes_ok P g t -> startswith whiteout_prefix (basename (path m)) = false ->
  ref_plain P t m = Ok t' -> t' !! p = Some n -> linked n = true -> arises t m p n.
Proof.
  intros Ht Hw H Hn Hl. unfold ref_plain in H. cbv zeta in H.
  set (t1 := if bool_decide (path m = u ".") then t else _) in *.
  assert (nodes_ok P g t1 /\ old_linked t t1) as [Ht1 H1].
  { unfold t1. destruct (bool_decide _); [split; [done|apply old_linked_refl]|].
    split; [by apply nodes_ok_parents|by eapply old_linked_parents]. }
  clearbody t1. set (t2 := if bool_decide (kind m = DIRECTORY) then t1 else _) in *.
  assert (nodes_ok P g t2 /\ old_linked t t2) as [Ht2 H2].
  { unfold t2. destruct (bool_decide _); [done|].
    split; [by apply nodes_ok_purge|by eapply old_linked_trans; [|apply old_linked_purge]]. }
  clearbody t2.
  destruct (kind m) eqn:Ek; cbn [bool_decide decide_rel] in H.
  1: { apply (inj Ok) in H. subst t'. eapply (file_arises g t m p n); try done. unfold regular. by rewrite Ek, Hw. }
  2: { destruct (bool_decide (link_target m = path m)); [done|]. by eapply (link_arises g t m p n t'). }
  all: apply (inj Ok) in H; subst t'; apply lookup_insert_Some in Hn as [[_ <-]|[_ Hd]]; [done|];
       (eapply arises_old; [|done|done|done]; unfold regular; by rewrite Ek).
Qed.

Lemma member_arises ms (m : member) s s' : regular_input (ms ++ [m]) = true ->
  apply_members cstate_init ms = Ok s -> apply_member s m = Ok s' ->
  forall p n, table s' !! p = Some n -> linked n = true -> arises (table s) m p n.
Proof.
  intros Hr Hs Hs' p n. destruct (one_more ms m s Hr Hs) as (_ & _ & Hn & Ha).
  destruct (ref_member P (table s) m) as [t'|e] eqn:E; cbn [agrees] in Ha; [|congruence].
  destruct Ha as (s1 & Hs1 & _ & <- & _). rewrite Hs' in Hs1. apply (inj Ok) in Hs1. subst s1.
  unfold ref_member in E. case_bool_decide as Ho.
  - intros Hp Hl. eapply arises_old; [|by eapply old_linked_opaque|done|done]. apply marker_not_regular. by rewrite Ho.
  - destruct (startswith _ _) eqn:Ew; [|by eapply plain_arises].
    intros Hp Hl. eapply arises_old; [by apply marker_not_regular|by eapply old_linked_whiteout|done|done].
Qed.

(** ** Where a link comes from *)

(** The hardlink [l] of the archive was put at [p] to wait for its target, which
    has not occurred since. *)
Definition waits_since ms (p : pystr) (n : node) : Prop :=
  exists a l b, ms = a ++ l :: b /\ kind l = HARDLINK /\ path l = p /\
    n = (plain_node l HARDLINK) <| pending_target := Some (link_target l) |> /\
    Forall (fun x => ~ (regular P x = true /\ path x = link_target l)) b.

(** The node at [p] is the regular member of ordinal [i]. *)
Definition regular_here ms (p : pystr) (n : node) (i : Z) : Prop :=
  exists m, m ∈ ms /\ regular P m = true /\ path m = p /\ ordinal m = i /\
    n = (plain_node m FILE) <| group_id := Some i |>.

(** The hardlink [l] found a regular node of the group [i] at its target. *)
Definition bound_before ms (p : pystr) (n : node) (i : Z) : Prop :=
  exists a l b s target, ms = a ++ l :: b /\ kind l = HARDLINK /\ path l = p /\
    apply_members cstate_init a = Ok s /\ table s !! link_target l = Some target /\
    n_kind target = FILE /\ group_id target = Some i /\
    n = (plain_node l HARDLINK) <| group_id := Some i |>.

(** The link waited until [f], the first regular member at its target after it. *)
Definition bound_after ms (p : pystr) (n : node) (i : Z) : Prop :=
  exists a f b w, ms = a ++ f :: b /\ waits_since a p w /\ regular P f = true /\
    pending_target w = Some (path f) /\ ordinal f = i /\
    n = w <| pending_target := None |> <| group_id := Some i |>.

Definition origin ms (p : pystr) (n : node) : Prop :=
  (is_Some (pending_target n) -> waits_since ms p n) /\
  (forall i, group_id n = Some i -> regular_here ms p n i \/ bound_before ms p n i \/ bound_after ms p n i).

Lemma origin_more ms m p n : origin ms p n -> (regular P m = true -> pending_target n <> Some (path m)) -> origin (ms ++ [m]) p n.
Proof.
  intros [Hw Hb] Hm. split.
  - intros Hp. destruct (Hw Hp) as (a & l & b & -> & Hk & Hl & -> & Hf). exists a, l, (b ++ [m]).
    rewrite <- app_assoc. split_and!; try done. apply Forall_app. split; [done|]. apply Forall_singleton.
    intros [Hr E]. apply (Hm Hr). cbn. by rewrite E.
  - intros i Hi. destruct (Hb i Hi) as [(x & Hx & ?)|[(a & l & b & s & g & -> & ?)|(a & f & b & w & -> & ?)]].
    + left. exists x. split; [apply elem_of_app; by left|done].
    + right. left. exists a, l, (b ++ [m]), s, g. by rewrite <- app_assoc.
    + right. right. exists a, f, (b ++ [m]), w. by rewrite <- app_assoc.
Qed.

Lemma origin_arises ms m s p n : apply_members cstate_init ms = Ok s ->
  (forall p n, table s !! p = Some n -> linked n = true -> origin ms p n) ->
  linked n = true -> arises (table s) m p n -> origin (ms ++ [m]) p n.
Proof.
  intros Hs Hold Hl Ha. destruct Ha as [n Hn Hm|Hm Hp|w Hm Hw Hpt|target i Hk Hp Ht Hf Hi|Hk Hp].
  - apply origin_more; [by apply Hold|done].
  - split; [by intros []|]. intros i [= <-]. left. exists m. split; [apply elem_of_app; right; by left|done].
  - split; [by intros []|]. intros i [= <-]. right. right. exists ms, m, [], w. split_and!; try done.
    apply Hold in Hw as [Hw _]; [|unfold linked; by rewrite Hpt, orb_true_r]. apply Hw. by eexists.
  - split; [by intros []|]. intros j [= <-]. right. left. by exists ms, m, [], s, target.
  - split; [|done]. intros _. exists ms, m, []. split_and!; try done.
Qed.

Lemma apply_members_snoc ms m : forall s, apply_members s (ms ++ [m]) = let? s := apply_members s ms in apply_member s m.
Proof.
  induction ms as [|x ms IH]; intros s; cbn [app apply_members].
  - cbn [result_bind]. by destruct (apply_member s m).
  - destruct (apply_member s x); [|done]. cbn [result_bind]. apply IH.
Qed.

Lemma regular_input_init ms m : regular_input (ms ++ [m]) = true -> regular_input ms = true.
Proof.
  unfold regular_input. rewrite forallb_app. intros [[-> _]%andb_true_iff Hn]%andb_true_iff.
  by apply no_repeats_app in Hn as [-> _].
Qed.

Lemma linked_origin ms : forall s, regular_input ms = true -> apply_members cstate_init ms = Ok s ->
  forall p n, table s !! p = Some n -> linked n = true -> origin ms p n.
Proof.
  induction ms as [|m ms IH] using rev_ind; intros s Hr Hs p n Hn Hl.
  - apply (inj Ok) in Hs. subst s. exfalso. by apply (lookup_empty_Some (M := gmap pystr) (A := node) p n).
  - rewrite apply_members_snoc in Hs. destruct (apply_members cstate_init ms) as [s0|] eqn:E; [|done]. cbn [result_bind] in Hs.
    apply (origin_arises ms m s0); [done| |done|by eapply member_arises].
    intros p' n'. by apply (IH s0 (regular_input_init _ _ Hr)).
Qed.

(** C14: after any part of an archive (of relative paths, in which no hardlink that
    still waits for its target is repeated) a node of the payload group [i] is the
    regular member [i] itself; a hardlink that found a regular node of that group at
    its own position; or a hardlink that waited, unbound, until [i] occurred, the
    first regular member at its target after the link.  It is as it was made or
    bound then, whatever happened to its target since: nothing retargets a bound
    link.  A link that waits belongs to no group, no regular member has occurred at
    its target since, and the waiting sets list exactly those links. *)
Theorem hardlink_binding ms s : regular_input ms = true -> apply_members cstate_init ms = Ok s ->
  (forall p n i, table s !! p = Some n -> group_id n = Some i ->
     regular_here ms p n i \/ bound_before ms p n i \/ bound_after ms p n i) /\
  (forall p n, table s !! p = Some n -> is_Some (pending_target n) -> group_id n = None /\ waits_since ms p n) /\
  (forall p target, p ∈ waiting_for s target <-> exists n, table s !! p = Some n /\ pending_target n = Some target).
Proof.
  intros Hr Hs. pose proof (linked_origin ms s Hr Hs) as Ho.
  split; [|split].
  - intros p n i Hn Hi. apply (Ho p n Hn); [|done]. unfold linked. by rewrite Hi.
  - intros p n Hn [g Hg]. assert (waits_since ms p n) as Hw.
    { apply (Ho p n Hn); [|by eexists]. unfold linked. by rewrite Hg, orb_true_r. }
    split; [|done]. by destruct Hw as (a & l & b & _ & _ & _ & -> & _).
  - pose proof (members_agree ms Hr) as Ha. destruct (ref_members P ∅ ms) as [t|e]; cbn [agrees] in Ha; [|congruence].
    destruct Ha as (s1 & Hs1 & Hok & _). rewrite Hs in Hs1. apply (inj Ok) in Hs1. subst s1. apply Hok.
Qed.
End theorems.

(** The chain of parents of an absolute path does not end: [_parent("/")] is ["/"]. *)
Example absolute_parents_do_not_end fuel : parent_chain fuel (u "/a") = None.
Proof.
  assert (forall f, parent_chain f (u "/") = None) as Hroot.
  { intros f. induction f as [|f IH]; [reflexivity|]. cbn [parent_chain]. assert (parent_of (u "/") = Some (u "/")) as -> by reflexivity.
    rewrite bool_decide_eq_false_2 by done. by rewrite IH. }
  destruct fuel as [|f]; [reflexivity|]. cbn [parent_chain]. assert (parent_of (u "/a") = Some (u "/")) as -> by reflexivity.
  rewrite bool_decide_eq_false_2 by done. by rewrite Hroot.
Qed.

(** * Instances *)

(** An archive member with empty metadata; the payloads are numbers. *)
Definition ex_member (i : Z) (p : string) (k : entry_kind) (link : string) (c : option Z) : Changeset.member Z :=
  Member i (u p) k 0 420 0 0 7 (u link) 0 0 [] c.

(** A directory, a payload with a link before and a link after it, an opaque
    marker, a whiteout, and a replacement of the payload's own path. *)
Definition ex_archive : list (Changeset.member Z) :=
  [ex_member 0 "a" HARDLINK "d/f" None; ex_member 1 "d/f" FILE "" (Some 11); ex_member 2 "d/g" HARDLINK "d/f" None;
   ex_member 3 "d/.wh..wh..opq" FILE "" (Some 0); ex_member 4 "d/f" FILE "" (Some 12); ex_member 5 "e/h" SYMLINK "x" None].

Definition ex_entries : list (Changeset.entry Z) :=
  Eval vm_compute in match normalize_changeset ex_archive with Ok es => es | Err _ => [] end.

Definition ex_state (ms : list (Changeset.member Z)) : cstate Z :=
  match apply_members cstate_init ms with Ok s => s | Err _ => cstate_init end.

Definition ex_whiteout : Changeset.member Z := ex_member 6 "d/.wh.g" FILE "" (Some 0).

Example ex_archive_regular : regular_input Z ex_archive = true.
Proof. vm_compute. reflexivity. Qed.

Example ex_archive_ok : normalize_changeset ex_archive = Ok ex_entries.
Proof. vm_compute. reflexivity. Qed.

Example ex_entries_paths : map e_path ex_entries = [u "."; u "a"; u "d"; u "d/f"; u "d/g"; u "e"; u "e/h"].
Proof. vm_compute. reflexivity. Qed.

Lemma normalize_refines_witness : normalize_changeset ex_archive = normalize_ref Z ex_archive.
Proof. apply (normalize_refines Z ex_archive). vm_compute. reflexivity. Defined.

Lemma normalize_total_witness : exists es, normalize_changeset ex_archive = Ok es.
Proof.
  destruct (normalize_total Z ex_archive) as [H|(e & He & _)]; [vm_compute; reflexivity|exact H|].
  rewrite ex_archive_ok in He. discriminate He.
Defined.

Definition ex_entry : Changeset.entry Z :=
  Eval vm_compute in match ex_entries with _ :: e :: _ => e | _ => Entry [] FIFO 0 0 0 0 0 [] 0 0 [] None false false None end.

Lemma hardlinks_follow_payload_witness :
  e_path ex_entry = [97] /\ exists m, m ∈ ex_archive /\ carries Z ex_entry m /\ content m = Some 11.
Proof.
  split; [reflexivity|].
  destruct (hardlinks_follow_payload Z ex_archive ex_entries ex_archive_regular ex_archive_ok) as [Hf _].
  destruct (Hf ex_entry) as (m & Hm & Hc); [right; left|reflexivity|].
  exists m. split; [exact Hm|]. split; [exact Hc|]. destruct Hc as (_ & <- & _). reflexivity.
Defined.

Lemma entries_form_tree_witness : NoDup (map e_path ex_entries) /\ u "d/g" ∈ map e_path ex_entries /\
  exists d, d ∈ ex_entries /\ e_path d = u "d" /\ e_kind d = DIRECTORY.
Proof.
  destruct (entries_form_tree Z ex_archive ex_entries ex_archive_regular ex_archive_ok) as (Hn & _ & Hp).
  assert (u "d/g" ∈ map e_path ex_entries) as Hg by (rewrite ex_entries_paths; apply (bool_decide_unpack _); vm_compute; exact I).
  split; [exact Hn|]. split; [exact Hg|].
  apply list_elem_of_fmap in Hg as (e & Ee & He). destruct (Hp e (u "d") He) as (d & Hd & Hdp & [Hk|[Hdot _]]).
  - rewrite <- Ee. vm_compute. reflexivity.
  - by exists d.
  - vm_compute in Hdot. discriminate Hdot.
Defined.

Lemma whiteout_hides_witness : exists s', apply_member (ex_state ex_archive) ex_whiteout = Ok s' /\
  (exists n, table s' !! u "d/g" = Some n /\ n_kind n = WHITEOUT).
Proof.
  destruct (apply_member (ex_state ex_archive) ex_whiteout) as [s'|e] eqn:E; [|vm_compute in E; discriminate E].
  exists s'. split; [done|].
  change (u "d/g") with (whiteout_path Z ex_whiteout).
  apply (whiteout_hides Z ex_archive ex_whiteout (ex_state ex_archive) s');
    [vm_compute; reflexivity|vm_compute; reflexivity|vm_compute; reflexivity|vm_compute; discriminate|exact E].
Defined.

(** The link [a] keeps the payload of the first member at [d/f], though another has
    taken that path since. *)
Lemma hardlink_binding_witness : exists s n, apply_members cstate_init ex_archive = Ok s /\
  table s !! u "a" = Some n /\ group_id n = Some 1 /\
  (regular_here Z ex_archive (u "a") n 1 \/ bound_before Z ex_archive (u "a") n 1 \/ bound_after Z ex_archive (u "a") n 1).
Proof.
  destruct (apply_members cstate_init ex_archive) as [s|e] eqn:E; [|vm_compute in E; discriminate E].
  assert (option_map group_id (table s !! u "a") = Some (Some 1)) as Hg.
  { assert (match apply_members cstate_init ex_archive with Ok s => option_map group_id (table s !! u "a") | Err _ => None end = Some (Some 1))
      as H by (vm_compute; reflexivity). by rewrite E in H. }
  destruct (table s !! u "a") as [n|] eqn:Hn; [|discriminate Hg]. apply (inj Some) in Hg.
  exists s, n. split; [done|]. split; [done|]. split; [done|].
  destruct (hardlink_binding Z ex_archive s) as [Hb _]; [vm_compute; reflexivity|exact E|]. by apply Hb.
Defined.

(** A forward hardlink that is repeated before its target arrives is lost:
    putting the second link in place cancels the wait it has just registered,
    so the target, though it follows, never binds it and the archive is
    refused.  The reference normalisation binds both occurrences. *)
Theorem repeated_forward_link_refused :
  let link i := ex_member i "a" HARDLINK "f" None in
  let target i := ex_member i "f" FILE "" (Some 1) in
  normalize_changeset [link 0; link 1; target 2] =
    Err "oci-hardlink-target: OCI hardlink target must be a same-layer regular file" /\
  is_ok (normalize_changeset [link 0; target 1]) = true /\
  is_ok (normalize_ref Z [link 0; link 1; target 2]) = true.
Proof. split; [|split]; vm_compute; reflexivity. Qed.
