(* ===== verification/ControlV2Wire.v ===== *)
(** The lifecycle control protocol v2 on the wire
    ([oci_control_protocol_v2.py], lines 1-640): message validation, the
    envelope and its authentication, the canonical encoding and its decoders. *)
From S2P Require Import Prelude Crypto PyStr PyVal Utf8 Json Regex Digest.

(** * Constants *)

Definition OCI_CONTROL_PROTOCOL_V2 : string := "palimpsest.oci-lifecycle-control.v2".
Definition OCI_CONTROL_BOUNDARY_PREFIX : bytes := u "palimpsest guest stage1: lifecycle boundary ack ".
Definition MAX_OCI_CONTROL_FRAME_BYTES : Z := 64 * 1024.
Definition MAX_OCI_CONTROL_CONNECTIONS : Z := 16.
Definition MAX_OCI_EXEC_ARGV_BYTES : Z := 8192.
Definition MAX_OCI_EXEC_ARGS : Z := 64.
Definition MAX_OCI_EXEC_OUTPUT_BYTES : Z := 65536.
Definition MAX_OCI_EXEC_TIMEOUT_MS : Z := 600000.
Definition DEFAULT_OCI_EXEC_TIMEOUT_MS : Z := 30000.
Definition MAX_PAYLOAD_BYTES : Z := MAX_OCI_CONTROL_FRAME_BYTES - 4.
Definition MAX_COUNTER : Z := 2 ^ 63 - 1.
Definition MAX_U64 : Z := 2 ^ 64 - 1.

Definition digest_re : re := RCat (lit (u "sha256:")) (rep 64 hex_re).
Definition hex32_re : re := rep 64 hex_re.

(** The two carriers of a frame. *)
Inductive carrier := CHANNEL_CARRIER | CONSOLE_CARRIER.
#[export] Instance carrier_eq_dec : EqDecision carrier.
Proof. solve_decision. Defined.
Definition carrier_name (c : carrier) : string :=
  match c with CHANNEL_CARRIER => "channel-frame" | CONSOLE_CARRIER => "console-line" end.

(** [_KINDS] *)
Inductive kind :=
| HELLO | BOOTSTRAP | KEY_ACK | RECONNECT | BOUNDARY_ACK | READY | SNAPSHOT | STOP
| TERMINAL | EXEC | EXEC_OUTPUT | EXEC_EXIT.
#[export] Instance kind_eq_dec : EqDecision kind.
Proof. solve_decision. Defined.

Definition kind_name (k : kind) : string :=
  match k with
  | HELLO => "HELLO" | BOOTSTRAP => "BOOTSTRAP" | KEY_ACK => "KEY_ACK" | RECONNECT => "RECONNECT"
  | BOUNDARY_ACK => "BOUNDARY_ACK" | READY => "READY" | SNAPSHOT => "SNAPSHOT" | STOP => "STOP"
  | TERMINAL => "TERMINAL" | EXEC => "EXEC" | EXEC_OUTPUT => "EXEC_OUTPUT" | EXEC_EXIT => "EXEC_EXIT"
  end.

Definition all_kinds : list kind :=
  [HELLO; BOOTSTRAP; KEY_ACK; RECONNECT; BOUNDARY_ACK; READY; SNAPSHOT; STOP; TERMINAL; EXEC;
   EXEC_OUTPUT; EXEC_EXIT].

Definition kind_of_str (s : pystr) : option kind :=
  List.find (fun k => bool_decide (s = u (kind_name k))) all_kinds.

(** [value not in _KINDS]: membership hashes its operand, so a list or a dict
    raises [TypeError] instead of answering. *)
Definition lookup_kind (value : pyval) : result kind :=
  match value with
  | VStr s => match kind_of_str s with
              | Some k => Ok k
              | None => Err "lifecycle message kind is invalid"
              end
  | VList _ | VDict _ => Err "TypeError: unhashable type"
  | _ => Err "lifecycle message kind is invalid"
  end.

Definition is_host_kind (k : kind) : bool :=
  match k with HELLO | KEY_ACK | RECONNECT | STOP | EXEC => true | _ => false end.

(** Kinds that carry a request ID. *)
Definition has_request_id (k : kind) : bool :=
  match k with HELLO | RECONNECT | STOP | EXEC => true | _ => false end.

(** * Field validators *)

Definition v_counter (value : pyval) (label : string) : result Z :=
  match value with
  | VInt z => if (1 <=? z) && (z <=? MAX_COUNTER) then Ok z else Err (label ++ " is invalid")
  | _ => Err (label ++ " is invalid")
  end.

(** An integer between two bounds; [bool] is not [int] for [type(v) is int]. *)
Definition v_int_range (value : pyval) (lo hi : Z) (error : string) : result Z :=
  match value with
  | VInt z => if (lo <=? z) && (z <=? hi) then Ok z else Err error
  | _ => Err error
  end.

Definition v_hex32 (value : pyval) (label : string) : result pystr :=
  match value with
  | VStr s => if fullmatch hex32_re s then Ok s else Err (label ++ " is invalid")
  | _ => Err (label ++ " is invalid")
  end.

Definition v_digest (value : pyval) (label : string) : result pystr :=
  match value with
  | VStr s => if fullmatch digest_re s then Ok s else Err (label ++ " is invalid")
  | _ => Err (label ++ " is invalid")
  end.

(** [str(uuid.UUID(value))]: [None] is the [ValueError] of a text that is not 32
    hexadecimal digits once [urn:], [uuid:], braces and hyphens are gone.  (Of
    the texts [int(_, 16)] accepts only plain digits are modelled: the others
    are refused here as invalid, by the source as not canonical.) *)
Fixpoint remove_sub (fuel : nat) (sub s : pystr) : pystr :=
  match fuel with
  | O => s
  | S fuel =>
      match s with
      | [] => []
      | c :: r => if startswith sub s then remove_sub fuel sub (drop (length sub) s)
                  else c :: remove_sub fuel sub r
      end
  end.
Fixpoint strip_left (cs s : pystr) : pystr :=
  match s with
  | c :: r => if bool_decide (c ∈ cs) then strip_left cs r else s
  | [] => []
  end.
Definition strip (cs s : pystr) : pystr := rev (strip_left cs (rev (strip_left cs s))).

Definition is_hex_digit (c : Z) : bool := match hex_value c with Some _ => true | None => false end.

Definition uuid_hex (s : pystr) : pystr :=
  let s := remove_sub (S (length s)) (u "urn:") s in
  let s := remove_sub (S (length s)) (u "uuid:") s in
  List.filter (fun c => negb (c =? 45)) (strip [123; 125] s).

Definition hyphenate (h : pystr) : pystr :=
  take 8 h ++ 45 :: take 4 (drop 8 h) ++ 45 :: take 4 (drop 12 h) ++ 45 ::
  take 4 (drop 16 h) ++ 45 :: drop 20 h.

Definition uuid_str (value : pystr) : option pystr :=
  let h := uuid_hex value in
  if (length h =? 32)%nat && forallb is_hex_digit h then Some (hyphenate (lower h)) else None.

Definition v_uuid (value : pyval) (label : string) : result pystr :=
  match value with
  | VStr s =>
      match uuid_str s with
      | None => Err (label ++ " is invalid")
      | Some canonical =>
          if bool_decide (canonical = s) then Ok s else Err (label ++ " is not canonical")
      end
  | _ => Err (label ++ " is invalid")
  end.

(** [_exact] *)
Definition v_exact (value : pyval) (fields : list string) (label : string) : result (list (pystr * pyval)) :=
  exact value fields (label ++ " fields are invalid").

(** * Terminal status, root identity, lifecycle state *)

Record terminal := Terminal { t_exit_code : option Z; t_signal : option Z }.
#[export] Instance terminal_eq_dec : EqDecision terminal.
Proof. solve_decision. Defined.

Definition v_terminal (value : pyval) : result terminal :=
  let? d := v_exact value ["exit_code"; "signal"] "terminal" in
  let exit_code := d.["exit_code"] in
  let signal := d.["signal"] in
  raise "terminal status must contain exactly one result"
    when Bool.eqb (is_none exit_code) (is_none signal) ;;
  match exit_code with
  | VNone =>
      let? s := v_int_range signal 1 64 "terminal signal is invalid" in
      Ok (Terminal None (Some s))
  | _ =>
      let? e := v_int_range exit_code 0 255 "terminal exit code is invalid" in
      Ok (Terminal (Some e) None)
  end.

Definition opt_int (o : option Z) : pyval := match o with Some z => VInt z | None => VNone end.
Definition opt_str (o : option pystr) : pyval := match o with Some s => VStr s | None => VNone end.

Definition terminal_value (t : terminal) : pyval :=
  VDict [(u "exit_code", opt_int (t_exit_code t)); (u "signal", opt_int (t_signal t))].

Record root_identity := RootIdentity { ri_device : Z; ri_inode : Z }.

Definition validate_root_identity (value : pyval) : result root_identity :=
  let? d := v_exact value ["schema"; "pid"; "filesystem"; "device"; "inode"] "root identity" in
  raise "root identity schema is invalid"
    when negb (py_eqb (d.["schema"]) (VStr (u "palimpsest.oci-root-identity.v1"))) ;;
  let? _ := v_int_range (d.["pid"]) 1 1 "root identity PID is invalid" in
  raise "root identity filesystem is invalid" when negb (py_eqb (d.["filesystem"]) (VStr (u "overlayfs"))) ;;
  let? device := v_int_range (d.["device"]) 0 MAX_U64 "root identity device is invalid" in
  let? inode := v_int_range (d.["inode"]) 1 MAX_U64 "root identity inode is invalid" in
  Ok (RootIdentity device inode).

Definition root_identity_value (r : root_identity) : pyval :=
  VDict [(u "schema", VStr (u "palimpsest.oci-root-identity.v1")); (u "pid", VInt 1);
         (u "filesystem", VStr (u "overlayfs")); (u "device", VInt (ri_device r));
         (u "inode", VInt (ri_inode r))].

(** The public lifecycle states of a snapshot or of a boundary commitment. *)
Inductive lname := SReady | SStopping | STerminal.
#[export] Instance lname_eq_dec : EqDecision lname.
Proof. solve_decision. Defined.
Definition lname_name (n : lname) : string :=
  match n with SReady => "ready" | SStopping => "stopping" | STerminal => "terminal" end.

(** [state], [stop_request_id] and [terminal] of a committed lifecycle state.
    The terminal is kept as the value received (a mapping, or a list of pairs
    that [dict] accepts), with its keys in order, which nothing observes. *)
Record lifecycle := Lifecycle { l_state : lname; l_stop_request_id : option Z; l_terminal : pyval }.

(** [a == b] of two such mappings *)
Definition lifecycle_eqb (a b : lifecycle) : bool :=
  bool_decide (l_state a = l_state b) &&
  bool_decide (l_stop_request_id a = l_stop_request_id b) &&
  py_eqb (l_terminal a) (l_terminal b).

Definition lifecycle_value (l : lifecycle) : pyval :=
  VDict [(u "state", VStr (u (lname_name (l_state l))));
         (u "stop_request_id", opt_int (l_stop_request_id l)); (u "terminal", l_terminal l)].

(** [dict(v)]: a mapping, or an iterable of pairs.  A key that is not a string
    is represented by a text no field has. *)
Definition pair_of (v : pyval) : result (pystr * pyval) :=
  let item k v := match k with
                  | VStr s => Ok (s, v)
                  | VList _ | VDict _ => Err "TypeError: unhashable type"
                  | _ => Ok ([-1], v)
                  end in
  match v with
  | VList [k; v] | VTuple [k; v] => item k v
  | VStr [a; b] => Ok ([a], VStr [b])
  | VDict [(k, _); (w, _)] => Ok (k, VStr w)
  | VList _ | VTuple _ | VStr _ | VDict _ => Err "ValueError: dictionary update sequence"
  | _ => Err "TypeError: cannot convert dictionary update sequence element"
  end.

Fixpoint dict_set (d : list (pystr * pyval)) (k : pystr) (v : pyval) : list (pystr * pyval) :=
  match d with
  | item :: d => if decide (item.1 = k) then (k, v) :: d else item :: dict_set d k v
  | [] => [(k, v)]
  end.

Definition dict_of (v : pyval) : result (list (pystr * pyval)) :=
  match v with
  | VDict d => Ok d
  | VList l | VTuple l =>
      let? ps := map_result pair_of l in
      Ok (fold_left (fun d kv => dict_set d kv.1 kv.2) ps [])
  | VStr [] => Ok []
  | VStr _ => Err "ValueError: dictionary update sequence"
  | _ => Err "TypeError: object is not iterable"
  end.

(** The validation at the head of [lifecycle_state_digest]. *)
Definition lifecycle_state_parts (state stop_request_id term : pyval) :
    result (lname * option Z * option terminal) :=
  if py_eqb state (VStr (u "ready")) && is_none stop_request_id && is_none term then
    Ok (SReady, None, None)
  else if py_eqb state (VStr (u "stopping")) && is_none term then
    let? c := v_counter stop_request_id "state STOP request ID" in
    Ok (SStopping, Some c, None)
  else if py_eqb state (VStr (u "terminal")) then
    let? stop := match stop_request_id with
                 | VNone => Ok None
                 | v => let? c := v_counter v "state STOP request ID" in Ok (Some c)
                 end in
    raise "terminal lifecycle state is invalid" when is_none term ;;
    let? d := dict_of term in
    let? t := v_terminal (VDict d) in
    Ok (STerminal, stop, Some t)
  else Err "lifecycle state is invalid".

Section wire.
Context `{Hash}.

Definition lifecycle_state_digest (state stop_request_id term : pyval) : result pystr :=
  let? ' (n, stop, t) := lifecycle_state_parts state stop_request_id term in
  let? b := canonical_json_bytes (VDict
    [(u "schema", VStr (u "palimpsest.oci-lifecycle-public-state.v1"));
     (u "state", VStr (u (lname_name n)));
     (u "stop_request_id", opt_int stop);
     (u "terminal", match t with Some t => terminal_value t | None => VNone end)]) in
  Ok (digest_text b).

(** * Exec arguments *)

Definition validate_exec_argv (argv : pyval) : result (list pystr) :=
  match argv with
  | VList items | VTuple items =>
      raise "exec argv is invalid"
        when negb ((1 <=? zlen items) && (zlen items <=? MAX_OCI_EXEC_ARGS)) ;;
      let? strs := map_result (fun v => match v with
                     | VStr s => if bool_decide (0 ∈ s) then Err "exec argv is invalid" else Ok s
                     | _ => Err "exec argv is invalid"
                     end) items in
      raise "exec argv is invalid" when bool_decide (head strs = Some []) ;;
      raise "exec argv encoding is invalid"
        when existsb (fun s => match utf8_encode s with None => true | Some _ => false end) strs ;;
      match canonical_json_bytes (VList items) with
      | Err _ => Err "exec argv encoding is invalid"
      | Ok encoded =>
          raise "exec argv exceeds its byte limit" when MAX_OCI_EXEC_ARGV_BYTES <? zlen encoded ;;
          Ok strs
      end
  | _ => Err "exec argv is invalid"
  end.

Definition validate_exec_timeout (timeout_ms : pyval) : result Z :=
  v_int_range timeout_ms 1 MAX_OCI_EXEC_TIMEOUT_MS "exec timeout is invalid".

(** * Messages *)

Record binding := Binding {
  run_id : pystr;
  domain_core_digest : pystr;
  stage1_artifact_digest : pystr;
}.
#[export] Instance binding_eq_dec : EqDecision binding.
Proof. solve_decision. Defined.

(** [OCIControlV2Binding.__post_init__] *)
Definition binding_init (r d s : pyval) : result binding :=
  let? r := v_uuid r "run ID" in
  let? d := v_digest d "domain-core digest" in
  let? s := v_digest s "stage-1 digest" in
  Ok (Binding r d s).

Record boundary := Boundary {
  b_boundary_id : pystr;
  b_discarded_header_bytes : Z;
  b_discarded_payload_bytes : Z;
  b_discarded_payload_expected : Z;
  b_last_accepted_h2g : Z;
  b_last_attempted_g2h : Z;
  b_lifecycle_state : lifecycle;
  b_previous_epoch : Z;
  b_state_digest : pystr;
}.

Inductive stream := Stdout | Stderr.
#[export] Instance stream_eq_dec : EqDecision stream.
Proof. solve_decision. Defined.
Definition stream_name (s : stream) : string := match s with Stdout => "stdout" | Stderr => "stderr" end.

Inductive reason := Completed | Timeout | OutputLimit | Cancelled.
#[export] Instance reason_eq_dec : EqDecision reason.
Proof. solve_decision. Defined.
Definition reason_name (r : reason) : string :=
  match r with
  | Completed => "completed" | Timeout => "timeout" | OutputLimit => "output-limit"
  | Cancelled => "cancelled"
  end.

(** The validated payload of each kind of message. *)
Inductive payload :=
| PHello
| PBootstrap (boot_key : pystr)
| PKeyAck
| PReconnect (boundary_ack_digest boundary_id : pystr)
| PBoundaryAck (b : boundary)
| PReady (root : option root_identity)
| PSnapshot (l : lifecycle)
| PStop (signal : pyval)
| PTerminal (t : terminal)
| PExec (argv : list pystr) (timeout_ms : Z)
| PExecOutput (s : stream) (offset : Z) (data_hex : pystr)
| PExecExit (t : option terminal) (stdout_bytes stderr_bytes : Z) (r : reason).

Definition payload_kind (p : payload) : kind :=
  match p with
  | PHello => HELLO | PBootstrap _ => BOOTSTRAP | PKeyAck => KEY_ACK | PReconnect _ _ => RECONNECT
  | PBoundaryAck _ => BOUNDARY_ACK | PReady _ => READY | PSnapshot _ => SNAPSHOT | PStop _ => STOP
  | PTerminal _ => TERMINAL | PExec _ _ => EXEC | PExecOutput _ _ _ => EXEC_OUTPUT
  | PExecExit _ _ _ _ => EXEC_EXIT
  end.

Record message := Message {
  m_binding : binding;
  m_boot_attempt_id : pystr;
  m_host_nonce : pystr;
  m_epoch : Z;
  m_wire_sequence : Z;
  m_payload : payload;
  m_request_id : option Z;
  m_boot_generation : option pystr;
  m_reply_to : option Z;
}.
Definition m_kind (m : message) : kind := payload_kind (m_payload m).

(** The branches of [OCIControlV2Message.__post_init__], one per kind: each
    returns the payload and the reply-to it admitted. *)
Definition check_bootstrap (data reply_to : pyval) (epoch : Z) : result (payload * option Z) :=
  let? d := v_exact data ["boot_key"] "BOOTSTRAP payload" in
  let? key := v_hex32 (d.["boot_key"]) "boot key" in
  let? r := v_counter reply_to "reply-to request ID" in
  raise "BOOTSTRAP epoch is invalid" when negb (epoch =? 1) ;;
  Ok (PBootstrap key, Some r).

Definition check_key_ack (data reply_to : pyval) (epoch : Z) : result (payload * option Z) :=
  let? _ := v_exact data [] "KEY_ACK payload" in
  let? r := v_counter reply_to "reply-to guest wire sequence" in
  raise "KEY_ACK epoch is invalid" when negb (epoch =? 1) ;;
  Ok (PKeyAck, Some r).

Definition check_reconnect (data : pyval) (epoch : Z) : result (payload * option Z) :=
  let? d := v_exact data ["boundary_ack_digest"; "boundary_id"] "RECONNECT payload" in
  let? digest := v_digest (d.["boundary_ack_digest"]) "boundary acknowledgement digest" in
  let? id := v_uuid (d.["boundary_id"]) "boundary ID" in
  raise "RECONNECT epoch is invalid" when epoch <=? 1 ;;
  Ok (PReconnect digest id, None).

(** The parser of the guest stopped between frames, inside a header, or inside
    a payload of a known length. *)
Definition parser_state_is_valid (header_bytes payload_bytes payload_expected : Z) : bool :=
  ((header_bytes =? 0) && (payload_bytes =? 0) && (payload_expected =? 0))
  || ((1 <=? header_bytes) && (header_bytes <=? 3) && (payload_bytes =? 0) && (payload_expected =? 0))
  || ((header_bytes =? 0) && (1 <=? payload_expected) && (payload_expected <=? MAX_PAYLOAD_BYTES)
      && (0 <=? payload_bytes) && (payload_bytes <? payload_expected)).

Definition check_boundary_ack (data reply_to : pyval) (epoch : Z) : result (payload * option Z) :=
  let? d := v_exact data
    ["boundary_id"; "discarded_header_bytes"; "discarded_payload_bytes"; "discarded_payload_expected";
     "last_accepted_h2g_wire_sequence"; "last_attempted_g2h_wire_sequence"; "lifecycle_state";
     "previous_epoch"; "state_digest"] "BOUNDARY_ACK payload" in
  let counter name := v_int_range (dict_get_none d (u name)) 0 MAX_COUNTER "BOUNDARY_ACK counter is invalid" in
  let? header_bytes := counter "discarded_header_bytes"%string in
  let? accepted := counter "last_accepted_h2g_wire_sequence"%string in
  let? attempted := counter "last_attempted_g2h_wire_sequence"%string in
  let? previous := counter "previous_epoch"%string in
  let parser name := v_int_range (dict_get_none d (u name)) 0 MAX_PAYLOAD_BYTES
                       "BOUNDARY_ACK parser state is invalid" in
  let? payload_bytes := parser "discarded_payload_bytes"%string in
  let? payload_expected := parser "discarded_payload_expected"%string in
  raise "BOUNDARY_ACK header state is invalid" when 3 <? header_bytes ;;
  raise "BOUNDARY_ACK payload state is invalid"
    when negb (parser_state_is_valid header_bytes payload_bytes payload_expected) ;;
  let? id := v_uuid (d.["boundary_id"]) "boundary ID" in
  let? ls := v_exact (d.["lifecycle_state"]) ["state"; "stop_request_id"; "terminal"]
               "BOUNDARY_ACK lifecycle state" in
  let? ' (name, stop, _) := lifecycle_state_parts (ls.["state"]) (ls.["stop_request_id"]) (ls.["terminal"]) in
  let? expected := lifecycle_state_digest (ls.["state"]) (ls.["stop_request_id"]) (ls.["terminal"]) in
  let? digest := v_digest (d.["state_digest"]) "lifecycle state digest" in
  raise "BOUNDARY_ACK lifecycle state digest is invalid" when bool_decide (digest <> expected) ;;
  let? r := v_counter reply_to "reply-to connection opener request ID" in
  raise "BOUNDARY_ACK fields are invalid" when epoch <=? 1 ;;
  Ok (PBoundaryAck (Boundary id header_bytes payload_bytes payload_expected accepted attempted
        (Lifecycle name stop (canon (ls.["terminal"]))) previous digest), Some r).

(** [payload] is a mapping here: the caller has checked it. *)
Definition check_ready (data : list (pystr * pyval)) (reply_to : pyval) : result (payload * option Z) :=
  let? root := match data with
               | [] => Ok None
               | _ =>
                   let? d := v_exact (VDict data) ["root_identity"] "READY payload" in
                   let? r := validate_root_identity (d.["root_identity"]) in
                   Ok (Some r)
               end in
  let? r := v_counter reply_to "reply-to host wire sequence" in
  Ok (PReady root, Some r).

Definition check_snapshot (data : list (pystr * pyval)) (reply_to : pyval) : result (payload * option Z) :=
  let? r := v_counter reply_to "reply-to request ID" in
  let state := data.["state"] in
  let? d := v_exact (VDict data) ["state"; "stop_request_id"; "terminal"] "SNAPSHOT payload" in
  let stop_id := d.["stop_request_id"] in
  let term := d.["terminal"] in
  if py_eqb state (VStr (u "ready")) && is_none stop_id && is_none term then
    Ok (PSnapshot (Lifecycle SReady None VNone), Some r)
  else if py_eqb state (VStr (u "stopping")) && is_none term then
    let? c := v_counter stop_id "snapshot STOP request ID" in
    Ok (PSnapshot (Lifecycle SStopping (Some c) VNone), Some r)
  else if py_eqb state (VStr (u "terminal")) then
    let? t := v_terminal term in
    let? stop := match stop_id with
                 | VNone => Ok None
                 | v => let? c := v_counter v "snapshot STOP request ID" in Ok (Some c)
                 end in
    Ok (PSnapshot (Lifecycle STerminal stop (terminal_value t)), Some r)
  else Err "SNAPSHOT state is invalid".

Definition check_exec (data : pyval) : result (payload * option Z) :=
  let? d := v_exact data ["argv"; "timeout_ms"] "EXEC payload" in
  let? argv := validate_exec_argv (d.["argv"]) in
  let? t := validate_exec_timeout (d.["timeout_ms"]) in
  Ok (PExec argv t, None).

(** [(?:[0-9a-f]{2}){1,1024}] *)
Definition exec_data_re : re := RCat (RCat hex_re hex_re) (upto 1023 (RCat hex_re hex_re)).

(** The same set of texts, decided without building the expression: an even
    number of hexadecimal digits, from 2 to 2048. *)
Definition exec_data_ok (s : pystr) : bool :=
  (2 <=? zlen s) && (zlen s <=? 2048) && (zlen s mod 2 =? 0) &&
  forallb (in_cls [(48, 57); (97, 102)]) s.

Definition stream_of (v : pyval) : option stream :=
  match v with
  | VStr s => if bool_decide (s = u "stdout") then Some Stdout
              else if bool_decide (s = u "stderr") then Some Stderr else None
  | _ => None
  end.

Definition check_exec_output (data reply_to : pyval) : result (payload * option Z) :=
  let? r := v_counter reply_to "exec reply request ID" in
  let? d := v_exact data ["stream"; "offset"; "data_hex"] "EXEC_OUTPUT payload" in
  match stream_of (d.["stream"]) with
  | None => Err "exec output stream is invalid"
  | Some s =>
      let? offset := v_int_range (d.["offset"]) 0 (MAX_OCI_EXEC_OUTPUT_BYTES - 1)
                       "exec output offset is invalid" in
      match d.["data_hex"] with
      | VStr h =>
          raise "exec output encoding is invalid" when negb (exec_data_ok h) ;;
          raise "exec output exceeds its byte limit"
            when MAX_OCI_EXEC_OUTPUT_BYTES <? offset + zlen h / 2 ;;
          Ok (PExecOutput s offset h, Some r)
      | _ => Err "exec output encoding is invalid"
      end
  end.

Definition reason_of (v : pyval) : option reason :=
  match v with
  | VStr s => List.find (fun r => bool_decide (s = u (reason_name r)))
                [Completed; Timeout; OutputLimit; Cancelled]
  | _ => None
  end.

Definition check_exec_exit (data reply_to : pyval) : result (payload * option Z) :=
  let? r := v_counter reply_to "exec reply request ID" in
  let? d := v_exact data ["terminal"; "stdout_bytes"; "stderr_bytes"; "reason"] "EXEC_EXIT payload" in
  let? t := match d.["terminal"] with
            | VNone => Ok None
            | v => let? t := v_terminal v in Ok (Some t)
            end in
  match reason_of (d.["reason"]) with
  | None => Err "exec completion reason is invalid"
  | Some why =>
      let? out := v_int_range (d.["stdout_bytes"]) 0 MAX_OCI_EXEC_OUTPUT_BYTES
                    "exec output count is invalid" in
      let? err := v_int_range (d.["stderr_bytes"]) 0 MAX_OCI_EXEC_OUTPUT_BYTES
                    "exec output count is invalid" in
      raise "exec combined output exceeds its byte limit" when MAX_OCI_EXEC_OUTPUT_BYTES <? out + err ;;
      raise "unstarted exec cancellation must have no output or invented exit"
        when bool_decide (t = None) &&
             (bool_decide (why <> Cancelled) || negb (out =? 0) || negb (err =? 0)) ;;
      Ok (PExecExit t out err why, Some r)
  end.

Definition check_terminal (data reply_to : pyval) : result (payload * option Z) :=
  let? d := v_exact data ["terminal"] "TERMINAL payload" in
  let? t := v_terminal (d.["terminal"]) in
  match reply_to with
  | VNone => Ok (PTerminal t, None)
  | v => let? r := v_counter v "reply-to request ID" in Ok (PTerminal t, Some r)
  end.

Definition check_stop (data : pyval) : result (payload * option Z) :=
  let? d := v_exact data ["signal"] "STOP payload" in
  raise "STOP signal must be SIGTERM" when negb (py_eqb (d.["signal"]) (VInt 15)) ;;
  Ok (PStop (d.["signal"]), None).

(** The branch of a kind other than [HELLO]; [STOP] is the final [else]. *)
Definition check_payload (k : kind) (items : list (pystr * pyval)) (reply_to : pyval) (epoch : Z) :
    result (payload * option Z) :=
  let data := VDict items in
  match k with
  | BOOTSTRAP => check_bootstrap data reply_to epoch
  | KEY_ACK => check_key_ack data reply_to epoch
  | RECONNECT => check_reconnect data epoch
  | BOUNDARY_ACK => check_boundary_ack data reply_to epoch
  | READY => check_ready items reply_to
  | SNAPSHOT => check_snapshot items reply_to
  | EXEC => check_exec data
  | EXEC_OUTPUT => check_exec_output data reply_to
  | EXEC_EXIT => check_exec_exit data reply_to
  | TERMINAL => check_terminal data reply_to
  | HELLO | STOP => check_stop data
  end.

(** [OCIControlV2Message(...)]: [__post_init__] on the given fields. *)
Definition message_init (kind_value : pyval) (b : binding) (boot_attempt_id host_nonce epoch wire_sequence
    data request_id boot_generation reply_to : pyval) : result message :=
  let? k := lookup_kind kind_value in
  let? attempt := v_uuid boot_attempt_id "boot attempt ID" in
  let? nonce := v_hex32 host_nonce "host nonce" in
  let? epoch := v_counter epoch "epoch" in
  let? wire := v_counter wire_sequence "wire sequence" in
  match data with
  | VDict items =>
      match k with
      | HELLO =>
          let? _ := v_exact data [] "HELLO payload" in
          let? request := v_counter request_id "request ID" in
          raise "HELLO fields are invalid"
            when negb (epoch =? 1) || negb (is_none boot_generation) || negb (is_none reply_to) ;;
          Ok (Message b attempt nonce epoch wire PHello (Some request) None None)
      | _ =>
          let? generation := v_uuid boot_generation "boot generation" in
          let? request :=
            if has_request_id k then
              let? request := v_counter request_id "request ID" in
              raise (kind_name k ++ " fields are invalid")%string when negb (is_none reply_to) ;;
              Ok (Some request)
            else
              raise (kind_name k ++ " fields are invalid")%string when negb (is_none request_id) ;;
              Ok None in
          let? ' (p, reply) :=
            check_payload k items reply_to epoch in
          Ok (Message b attempt nonce epoch wire p request (Some generation) reply)
      end
  | _ => Err "lifecycle payload is invalid"
  end.

(** [_plain(self.payload)] *)
Definition boundary_value (b : boundary) : pyval :=
  VDict [(u "boundary_id", VStr (b_boundary_id b));
         (u "discarded_header_bytes", VInt (b_discarded_header_bytes b));
         (u "discarded_payload_bytes", VInt (b_discarded_payload_bytes b));
         (u "discarded_payload_expected", VInt (b_discarded_payload_expected b));
         (u "last_accepted_h2g_wire_sequence", VInt (b_last_accepted_h2g b));
         (u "last_attempted_g2h_wire_sequence", VInt (b_last_attempted_g2h b));
         (u "lifecycle_state", lifecycle_value (b_lifecycle_state b));
         (u "previous_epoch", VInt (b_previous_epoch b));
         (u "state_digest", VStr (b_state_digest b))].

Definition payload_value (p : payload) : pyval :=
  match p with
  | PHello | PKeyAck | PReady None => VDict []
  | PBootstrap key => VDict [(u "boot_key", VStr key)]
  | PReconnect digest id => VDict [(u "boundary_ack_digest", VStr digest); (u "boundary_id", VStr id)]
  | PBoundaryAck b => boundary_value b
  | PReady (Some r) => VDict [(u "root_identity", root_identity_value r)]
  | PSnapshot l => lifecycle_value l
  | PStop signal => VDict [(u "signal", signal)]
  | PTerminal t => VDict [(u "terminal", terminal_value t)]
  | PExec argv t => VDict [(u "argv", VTuple (map VStr argv)); (u "timeout_ms", VInt t)]
  | PExecOutput s offset h =>
      VDict [(u "stream", VStr (u (stream_name s))); (u "offset", VInt offset); (u "data_hex", VStr h)]
  | PExecExit t out err why =>
      VDict [(u "terminal", match t with Some t => terminal_value t | None => VNone end);
             (u "stdout_bytes", VInt out); (u "stderr_bytes", VInt err);
             (u "reason", VStr (u (reason_name why)))]
  end.

(** [OCIControlV2Message.to_dict] *)
Definition message_to_dict (m : message) : list (pystr * pyval) :=
  [(u "boot_attempt_id", VStr (m_boot_attempt_id m));
   (u "domain_core_digest", VStr (domain_core_digest (m_binding m)));
   (u "epoch", VInt (m_epoch m));
   (u "host_nonce", VStr (m_host_nonce m));
   (u "kind", VStr (u (kind_name (m_kind m))));
   (u "payload", payload_value (m_payload m));
   (u "run_id", VStr (run_id (m_binding m)));
   (u "schema", VStr (u OCI_CONTROL_PROTOCOL_V2));
   (u "stage1_artifact_digest", VStr (stage1_artifact_digest (m_binding m)));
   (u "wire_sequence", VInt (m_wire_sequence m))]
  ++ (if has_request_id (m_kind m) then [(u "request_id", opt_int (m_request_id m))] else [])
  ++ (match m_kind m with
      | HELLO => []
      | _ => [(u "boot_generation", opt_str (m_boot_generation m)); (u "reply_to", opt_int (m_reply_to m))]
      end).

(** [_BODY_FIELDS] and the fields [from_dict] adds per kind *)
Definition BODY_FIELDS : list string :=
  ["boot_attempt_id"; "domain_core_digest"; "epoch"; "host_nonce"; "kind"; "payload"; "run_id"; "schema";
   "stage1_artifact_digest"; "wire_sequence"]%string.
Definition body_fields (k : kind) : list string :=
  BODY_FIELDS ++ (if has_request_id k then ["request_id"]%string else [])
  ++ (match k with HELLO => [] | _ => ["boot_generation"; "reply_to"]%string end).

(** [OCIControlV2Message.from_dict] *)
Definition message_from_dict (value : pyval) : result message :=
  match value with
  | VDict items =>
      let? k := lookup_kind (items.["kind"]) in
      let? d := v_exact value (body_fields k) "lifecycle message body" in
      raise "lifecycle protocol schema is unsupported"
        when negb (py_eqb (d.["schema"]) (VStr (u OCI_CONTROL_PROTOCOL_V2))) ;;
      let? b := binding_init (d.["run_id"]) (d.["domain_core_digest"]) (d.["stage1_artifact_digest"]) in
      message_init (d.["kind"]) b (d.["boot_attempt_id"]) (d.["host_nonce"]) (d.["epoch"])
        (d.["wire_sequence"]) (d.["payload"]) (d.["request_id"]) (d.["boot_generation"]) (d.["reply_to"])
  | _ => Err "lifecycle message kind is invalid"
  end.

(** * Well-formed messages *)

Definition is_counter (z : Z) : Prop := 1 <= z <= MAX_COUNTER.
Definition is_hex32 (s : pystr) : Prop := fullmatch hex32_re s = true.
Definition is_digest (s : pystr) : Prop := fullmatch digest_re s = true.
Definition is_uuid (s : pystr) : Prop := uuid_str s = Some s.

Definition terminal_ok (t : terminal) : Prop :=
  match t with
  | Terminal (Some e) None => 0 <= e <= 255
  | Terminal None (Some s) => 1 <= s <= 64
  | _ => False
  end.

Definition binding_ok (b : binding) : Prop :=
  is_uuid (run_id b) /\ is_digest (domain_core_digest b) /\ is_digest (stage1_artifact_digest b).

(** A committed lifecycle state: no STOP and no terminal when ready, a STOP when
    stopping, a terminal status when terminal. *)
Definition lifecycle_ok (l : lifecycle) : Prop :=
  match l_state l with
  | SReady => l_stop_request_id l = None /\ l_terminal l = VNone
  | SStopping => (exists r, l_stop_request_id l = Some r /\ is_counter r) /\ l_terminal l = VNone
  | STerminal => from_option is_counter True (l_stop_request_id l) /\
                 exists t, terminal_ok t /\ l_terminal l = terminal_value t
  end.

Definition boundary_ok (b : boundary) : Prop :=
  is_uuid (b_boundary_id b) /\
  parser_state_is_valid (b_discarded_header_bytes b) (b_discarded_payload_bytes b)
    (b_discarded_payload_expected b) = true /\
  0 <= b_last_accepted_h2g b <= MAX_COUNTER /\
  0 <= b_last_attempted_g2h b <= MAX_COUNTER /\
  0 <= b_previous_epoch b <= MAX_COUNTER /\
  lifecycle_ok (b_lifecycle_state b) /\
  is_digest (b_state_digest b) /\
  lifecycle_state_digest (VStr (u (lname_name (l_state (b_lifecycle_state b)))))
    (opt_int (l_stop_request_id (b_lifecycle_state b))) (l_terminal (b_lifecycle_state b))
  = Ok (b_state_digest b).

Definition argv_ok (argv : list pystr) : Prop :=
  1 <= zlen argv <= MAX_OCI_EXEC_ARGS /\ head argv <> Some [] /\
  Forall (fun s => 0 ∉ s /\ utf8_encode s <> None) argv /\
  exists b, canonical_json_bytes (VList (map VStr argv)) = Ok b /\ zlen b <= MAX_OCI_EXEC_ARGV_BYTES.

Definition payload_ok (p : payload) (epoch : Z) : Prop :=
  match p with
  | PHello | PKeyAck => epoch = 1
  | PBootstrap key => is_hex32 key /\ epoch = 1
  | PReconnect digest id => is_digest digest /\ is_uuid id /\ 1 < epoch
  | PBoundaryAck b => boundary_ok b /\ 1 < epoch
  | PReady None => True
  | PReady (Some r) => 0 <= ri_device r <= MAX_U64 /\ 1 <= ri_inode r <= MAX_U64
  | PSnapshot l => lifecycle_ok l
  | PStop signal => signal = VInt 15
  | PTerminal t => terminal_ok t
  | PExec argv t => argv_ok argv /\ 1 <= t <= MAX_OCI_EXEC_TIMEOUT_MS
  | PExecOutput _ offset h =>
      0 <= offset < MAX_OCI_EXEC_OUTPUT_BYTES /\ exec_data_ok h = true /\
      offset + zlen h / 2 <= MAX_OCI_EXEC_OUTPUT_BYTES
  | PExecExit t out err why =>
      0 <= out <= MAX_OCI_EXEC_OUTPUT_BYTES /\ 0 <= err <= MAX_OCI_EXEC_OUTPUT_BYTES /\
      out + err <= MAX_OCI_EXEC_OUTPUT_BYTES /\
      match t with
      | Some t => terminal_ok t
      | None => why = Cancelled /\ out = 0 /\ err = 0
      end
  end.

Definition message_ok (m : message) : Prop :=
  binding_ok (m_binding m) /\ is_uuid (m_boot_attempt_id m) /\ is_hex32 (m_host_nonce m) /\
  is_counter (m_epoch m) /\ is_counter (m_wire_sequence m) /\
  (if has_request_id (m_kind m) then exists r, m_request_id m = Some r /\ is_counter r
   else m_request_id m = None) /\
  (if bool_decide (m_kind m = HELLO) then m_boot_generation m = None
   else exists g, m_boot_generation m = Some g /\ is_uuid g) /\
  (if has_request_id (m_kind m) then m_reply_to m = None
   else match m_reply_to m with Some r => is_counter r | None => m_kind m = TERMINAL end) /\
  payload_ok (m_payload m) (m_epoch m).
End wire.
