(* ===== verification/ControlV2Message.v ===== *)
(** What the message validation of protocol v2 guarantees: a message that is
    accepted is well formed, and a well-formed message is read back from its
    own dictionary. *)
From S2P Require Import Prelude Crypto PyStr PyVal Utf8 Json Regex Digest ControlV2Wire.

(** * Validators *)

Lemma v_exact_Ok v fields l d : v_exact v fields l = Ok d <->
  v = VDict d /\ has_exactly (map u fields) d = true.
Proof. apply exact_Ok. Qed.

Lemma v_counter_Ok v l z : v_counter v l = Ok z <-> v = VInt z /\ is_counter z.
Proof.
  unfold v_counter, is_counter. destruct v as [|b|z'|f|s|k|k|d]; try (split; [done|by intros [? _]]).
  destruct ((1 <=? z') && (z' <=? MAX_COUNTER)) eqn:E; split.
  - intros ->%(inj Ok). bool_norm. split; [done|lia].
  - by intros [[= ->] _].
  - done.
  - intros [[= ->] ?]. apply andb_false_iff in E as [E|E]; bool_norm; lia.
Qed.

Lemma v_int_range_Ok v lo hi e z : v_int_range v lo hi e = Ok z <-> v = VInt z /\ lo <= z <= hi.
Proof.
  unfold v_int_range. destruct v as [|b|z'|f|s|k|k|d]; try (split; [done|by intros [? _]]).
  destruct ((lo <=? z') && (z' <=? hi)) eqn:E; split.
  - intros ->%(inj Ok). bool_norm. split; [done|lia].
  - by intros [[= ->] _].
  - done.
  - intros [[= ->] ?]. apply andb_false_iff in E as [E|E]; bool_norm; lia.
Qed.

Lemma v_hex32_Ok v l s : v_hex32 v l = Ok s <-> v = VStr s /\ is_hex32 s.
Proof.
  unfold v_hex32, is_hex32. destruct v as [|b|z|f|t|k|k|d]; try (split; [done|by intros [? _]]).
  destruct (fullmatch hex32_re t) eqn:E; (split; [try by intros ->%(inj Ok)|intros [[= ->] ?]; congruence]).
  done.
Qed.

Lemma v_digest_Ok v l s : v_digest v l = Ok s <-> v = VStr s /\ is_digest s.
Proof.
  unfold v_digest, is_digest. destruct v as [|b|z|f|t|k|k|d]; try (split; [done|by intros [? _]]).
  destruct (fullmatch digest_re t) eqn:E; (split; [try by intros ->%(inj Ok)|intros [[= ->] ?]; congruence]).
  done.
Qed.

Lemma v_uuid_Ok v l s : v_uuid v l = Ok s <-> v = VStr s /\ is_uuid s.
Proof.
  unfold v_uuid, is_uuid. destruct v as [|b|z|f|t|k|k|d]; try (split; [done|by intros [? _]]).
  destruct (uuid_str t) as [c|] eqn:E; [|split; [done|intros [[= ->] ?]; congruence]].
  destruct (bool_decide (c = t)) eqn:Ec; bool_norm.
  - subst c. split; [by intros ->%(inj Ok)|by intros [[= ->] _]].
  - split; [done|]. intros [[= ->] ?]. congruence.
Qed.

Lemma py_eqb_str v s : py_eqb v (VStr s) = true <-> v = VStr s.
Proof.
  destruct v as [|b|z|f|t|k|k|d]; simpl; try done. rewrite bool_decide_eq_true. naive_solver.
Qed.

Lemma is_none_true v : is_none v = true <-> v = VNone.
Proof. by destruct v. Qed.

(** Turn the validators of an accepted value into facts. *)
Ltac v_ok_step :=
  match goal with
  | H : v_counter _ _ = Ok _ |- _ => apply v_counter_Ok in H as [? ?]
  | H : v_int_range _ _ _ _ = Ok _ |- _ => apply v_int_range_Ok in H as [? ?]
  | H : v_hex32 _ _ = Ok _ |- _ => apply v_hex32_Ok in H as [? ?]
  | H : v_digest _ _ = Ok _ |- _ => apply v_digest_Ok in H as [? ?]
  | H : v_uuid _ _ = Ok _ |- _ => apply v_uuid_Ok in H as [? ?]
  | H : v_exact _ _ _ = Ok _ |- _ => apply v_exact_Ok in H as [? ?]
  | H : py_eqb _ (VStr _) = true |- _ => apply py_eqb_str in H
  | H : is_none _ = true |- _ => apply is_none_true in H
  end.
Ltac v_ok := repeat first [progress inv_ok | progress bool_norm | v_ok_step].

Lemma v_terminal_ok v t : v_terminal v = Ok t -> terminal_ok t.
Proof.
  unfold v_terminal. intros H. v_ok; cbn [terminal_ok]; lia.
Qed.


(** The mapping a terminal status was read from is, in key order, the mapping
    that prints it. *)
Lemma v_terminal_canon d t : NoDup (dict_keys d) -> v_terminal (VDict d) = Ok t ->
  canon (VDict d) = terminal_value t.
Proof.
  intros Hn H.
  assert (has_exactly (map u ["exit_code"; "signal"]) d = true) as Hk.
  { unfold v_terminal in H. destruct (v_exact _ _ _) eqn:E; [|done].
    by apply v_exact_Ok in E as [[= <-] ?]. }
  rewrite has_exactly_spec in Hk.
  assert (dict_keys d ≡ₚ map u ["exit_code"; "signal"]) as Hp.
  { apply NoDup_Permutation; [done|by apply NoDup_decide|exact Hk]. }
  destruct d as [|[k1 v1] [|[k2 v2] [|? ?]]]; try (apply Permutation_length in Hp; discriminate Hp).
  cbn [dict_keys map fst] in Hp. apply Permutation_length_2 in Hp as [[-> ->]|[-> ->]];
    unfold v_terminal, v_exact in H; cbn [exact] in H;
    rewrite (proj2 (has_exactly_spec _ _)) in H by exact Hk; cbn [result_bind] in H;
    repeat (rewrite !dict_get_none_u in H; cbn [String.eqb Ascii.eqb Bool.eqb] in H);
    v_ok; subst;
    repeat match goal with
    | G : Bool.eqb _ (is_none ?v) = false |- _ => is_var v; destruct v; try discriminate G
    | H : VInt _ = VInt _ |- _ => injection H as ->
    end; reflexivity.
Qed.

Lemma terminal_value_jsonable t : jsonable (terminal_value t).
Proof.
  unfold terminal_value. jsonable_dict; destruct t as [[|] [|]]; constructor.
Qed.
#[export] Hint Resolve terminal_value_jsonable : palimpsest.

Lemma v_terminal_value t : terminal_ok t -> v_terminal (terminal_value t) = Ok t.
Proof.
  destruct t as [[x|] [y|]]; cbn [terminal_ok]; intros Ht; try done;
    unfold v_terminal, terminal_value, v_exact; read_dict;
    cbn [opt_int is_none Bool.eqb t_exit_code t_signal];
    by rewrite (proj2 (v_int_range_Ok _ _ _ _ _) (conj eq_refl Ht)).
Qed.

(** What a committed lifecycle state must be, and is. *)
Lemma lifecycle_state_parts_ok state stop term n s t :
  lifecycle_state_parts state stop term = Ok (n, s, t) ->
  match term with VNone => True | VDict d => NoDup (dict_keys d) | _ => False end ->
  lifecycle_ok (Lifecycle n s (canon term)) /\ state = VStr (u (lname_name n)) /\ stop = opt_int s /\
  match t with Some t => canon term = terminal_value t | None => term = VNone end.
Proof.
  unfold lifecycle_state_parts, lifecycle_ok. intros H Ht.
  destruct (py_eqb state _ && is_none stop && is_none term) eqn:E1.
  { v_ok. subst. simpl. auto. }
  destruct (py_eqb state (VStr (u "stopping")) && is_none term) eqn:E2.
  { v_ok. subst. simpl. eauto 10. }
  destruct (py_eqb state (VStr (u "terminal"))) eqn:E3; [|done].
  apply py_eqb_str in E3. subst state.
  destruct (match stop with VNone => _ | _ => _ end) as [s'|] eqn:Es; cbn [result_bind] in H; [|done].
  assert (stop = opt_int s' /\ from_option is_counter True s') as [-> Hs].
  { destruct stop; v_ok; naive_solver. }
  destruct (is_none term) eqn:En; [done|].
  destruct term as [| | | | | | |d]; try done. cbn [dict_of result_bind] in H.
  destruct (v_terminal (VDict d)) as [t'|] eqn:Et; cbn [result_bind] in H; [|done].
  apply (inj Ok) in H. apply pair_equal_spec in H as [H <-]. apply pair_equal_spec in H as [<- <-].
  cbn [l_state l_stop_request_id l_terminal lname_name].
  pose proof (v_terminal_ok _ _ Et). apply v_terminal_canon in Et; [|done]. eauto 10.
Qed.

Lemma terminal_value_inj s t : terminal_value s = terminal_value t -> s = t.
Proof.
  destruct s as [a b], t as [c d]. unfold terminal_value. cbn [t_exit_code t_signal]. intros E.
  assert (opt_int a = opt_int c /\ opt_int b = opt_int d) as [H1 H2] by (split; congruence).
  f_equal; [destruct a, c|destruct b, d]; simpl in *; congruence.
Qed.

(** A well-formed state passes the validation again. *)
Lemma lifecycle_state_parts_complete l : lifecycle_ok l ->
  exists t, lifecycle_state_parts (VStr (u (lname_name (l_state l)))) (opt_int (l_stop_request_id l))
              (l_terminal l) = Ok (l_state l, l_stop_request_id l, t) /\
            match t with Some t => terminal_ok t /\ l_terminal l = terminal_value t
            | None => l_terminal l = VNone end.
Proof.
  destruct l as [n s v]. unfold lifecycle_ok, lifecycle_state_parts. cbn [l_state l_stop_request_id l_terminal].
  destruct n.
  - intros [-> ->]. by exists None.
  - intros [(r & -> & Hr) ->]. exists None. cbn [lname_name].
    change (py_eqb (VStr (u "stopping")) (VStr (u "ready"))) with false.
    change (py_eqb (VStr (u "stopping")) (VStr (u "stopping"))) with true. cbn [andb is_none opt_int].
    by rewrite (proj2 (v_counter_Ok _ _ _) (conj eq_refl Hr)).
  - intros [Hs (t & Ht & ->)]. exists (Some t). cbn [lname_name].
    change (py_eqb (VStr (u "terminal")) (VStr (u "ready"))) with false.
    change (py_eqb (VStr (u "terminal")) (VStr (u "stopping"))) with false.
    change (py_eqb (VStr (u "terminal")) (VStr (u "terminal"))) with true.
    change (is_none (terminal_value t)) with false. change (dict_of (terminal_value t)) with
      (Ok [(u "exit_code", opt_int (t_exit_code t)); (u "signal", opt_int (t_signal t))]).
    cbn [andb]. pose proof (v_terminal_value t Ht) as Hv. unfold terminal_value in Hv.
    destruct s as [r|]; cbn [opt_int result_bind from_option] in *.
    + rewrite (proj2 (v_counter_Ok _ _ _) (conj eq_refl Hs)). cbn [result_bind]. by rewrite Hv.
    + by rewrite Hv.
Qed.

(** The validators accept what is well formed. *)
Lemma counter_ok z l : is_counter z -> v_counter (VInt z) l = Ok z.
Proof. intros Hz. by apply v_counter_Ok. Qed.
Lemma int_range_ok z lo hi e : lo <= z <= hi -> v_int_range (VInt z) lo hi e = Ok z.
Proof. intros Hz. by apply v_int_range_Ok. Qed.
Lemma hex32_ok s l : is_hex32 s -> v_hex32 (VStr s) l = Ok s.
Proof. intros Hz. by apply v_hex32_Ok. Qed.
Lemma digest_ok s l : is_digest s -> v_digest (VStr s) l = Ok s.
Proof. intros Hz. by apply v_digest_Ok. Qed.
Lemma uuid_ok s l : is_uuid s -> v_uuid (VStr s) l = Ok s.
Proof. intros Hz. by apply v_uuid_Ok. Qed.

Ltac validate :=
  repeat first
    [ rewrite counter_ok by done | rewrite int_range_ok by (done || lia) | rewrite hex32_ok by done
    | rewrite digest_ok by done | rewrite uuid_ok by done | progress cbn [result_bind canon opt_int] ].

Section message.
Context `{Hash}.

(** * An accepted message is well formed *)

(** A payload the branch of kind [k] admitted, with its reply-to. *)
Definition admitted (k : kind) (p : payload) (reply : option Z) (epoch : Z) : Prop :=
  payload_kind p = k /\ payload_ok p epoch /\
  (if has_request_id k then reply = None
   else match reply with Some r => is_counter r | None => k = TERMINAL end).

(** The values outside JSON numbers and mappings that Python's [==] and [dict]
    let through: a STOP signal [15.0] and a committed terminal that is a list of
    pairs.  A payload is strict when it has neither. *)
Definition strict (data : list (pystr * pyval)) : Prop :=
  (forall f, data.["signal"] <> VFloat f) /\
  match data.["lifecycle_state"] with
  | VDict d => match d.["terminal"] with VNone => True | VDict t => NoDup (dict_keys t) | _ => False end
  | _ => True
  end.

Lemma check_bootstrap_ok data r epoch p q :
  check_bootstrap data r epoch = Ok (p, q) -> admitted BOOTSTRAP p q epoch.
Proof. unfold check_bootstrap. intros Hc. v_ok. subst. done. Qed.

Lemma check_key_ack_ok data r epoch p q :
  check_key_ack data r epoch = Ok (p, q) -> admitted KEY_ACK p q epoch.
Proof. unfold check_key_ack. intros Hc. v_ok. subst. done. Qed.

Lemma check_reconnect_ok data epoch p q :
  check_reconnect data epoch = Ok (p, q) -> admitted RECONNECT p q epoch.
Proof. unfold check_reconnect. intros Hc. v_ok. subst. done. Qed.

Lemma check_ready_ok data r epoch p q :
  check_ready data r = Ok (p, q) -> admitted READY p q epoch.
Proof.
  unfold check_ready. intros Hc. destruct data as [|kv data]; cbn [result_bind] in Hc.
  - v_ok. subst. done.
  - unfold validate_root_identity in Hc. v_ok. subst. done.
Qed.

Lemma check_exec_output_ok data r epoch p q :
  check_exec_output data r = Ok (p, q) -> admitted EXEC_OUTPUT p q epoch.
Proof.
  unfold check_exec_output. intros Hc. v_ok. subst. split; [done|]. split; [|done].
  cbn [payload_ok]. split; [lia|]. split; [done|lia].
Qed.

Lemma check_terminal_ok data r epoch p q :
  check_terminal data r = Ok (p, q) -> admitted TERMINAL p q epoch.
Proof.
  unfold check_terminal. intros Hc.
  destruct (v_exact _ _ _) eqn:E1; cbn [result_bind] in Hc; [|done].
  destruct (v_terminal _) eqn:E2; cbn [result_bind] in Hc; [|done]. apply v_terminal_ok in E2.
  destruct r; v_ok; done.
Qed.

Lemma check_stop_ok data epoch p q : (forall d f, data = VDict d -> d.["signal"] <> VFloat f) ->
  check_stop data = Ok (p, q) -> admitted STOP p q epoch.
Proof.
  unfold check_stop. intros Hf Hc.
  destruct (v_exact _ _ _) as [d|] eqn:E1; cbn [result_bind] in Hc; [|done].
  apply v_exact_Ok in E1 as [-> _]. specialize (Hf d).
  destruct (d.["signal"]) as [|[]|z|f| | | |] eqn:Es; simpl in Hc; try done.
  - destruct (Z.eqb_spec z 15); v_ok; subst; done.
  - by destruct (Hf f).
Qed.

Lemma check_snapshot_ok data r epoch p q :
  check_snapshot data r = Ok (p, q) -> admitted SNAPSHOT p q epoch.
Proof.
  unfold check_snapshot. intros Hc.
  destruct (v_counter r _) eqn:E1; cbn [result_bind] in Hc; [|done]. apply v_counter_Ok in E1 as [-> Hr].
  destruct (v_exact _ _ _) as [d|] eqn:E2; cbn [result_bind] in Hc; [|done].
  destruct (py_eqb _ (VStr (u "ready")) && _ && _) eqn:G1; [v_ok; done|].
  destruct (py_eqb _ (VStr (u "stopping")) && _) eqn:G2.
  { destruct (v_counter _ _) eqn:E3; cbn [result_bind] in Hc; [|done]. v_ok. unfold admitted, payload_ok, lifecycle_ok. simpl. eauto 10. }
  destruct (py_eqb _ (VStr (u "terminal"))) eqn:G3; [|done].
  destruct (v_terminal _) eqn:E4; cbn [result_bind] in Hc; [|done]. apply v_terminal_ok in E4.
  destruct (d.["stop_request_id"]); v_ok; unfold admitted, payload_ok, lifecycle_ok; simpl; eauto 10.
Qed.

Lemma check_exec_exit_ok data r epoch p q :
  check_exec_exit data r = Ok (p, q) -> admitted EXEC_EXIT p q epoch.
Proof.
  unfold check_exec_exit. intros Hc.
  destruct (v_counter r _) eqn:E1; cbn [result_bind] in Hc; [|done]. apply v_counter_Ok in E1 as [-> Hr].
  destruct (v_exact _ _ _) as [d|] eqn:E2; cbn [result_bind] in Hc; [|done].
  destruct (match d.["terminal"] with VNone => _ | _ => _ end) as [t|] eqn:E3; cbn [result_bind] in Hc; [|done].
  assert (from_option terminal_ok True t) as Ht.
  { destruct (d.["terminal"]); v_ok; simpl; try done;
      match goal with E : v_terminal _ = Ok _ |- _ => exact (v_terminal_ok _ _ E) end. }
  clear E3. v_ok. split; [done|]. split; [|done]. cbn [payload_ok]. repeat (split; [lia|]).
  destruct t as [t|]; [done|].
  match goal with G : bool_decide _ && _ = false |- _ => rename G into G' end.
  rewrite bool_decide_eq_true_2 in G' by done. cbn [andb] in G'. v_ok. split; [|done].
  by apply dec_stable.
Qed.

Lemma validate_exec_argv_ok v argv : validate_exec_argv v = Ok argv -> argv_ok argv.
Proof.
  unfold validate_exec_argv. intros Hc.
  assert (exists items, (v = VList items \/ v = VTuple items)) as [items Hv].
  { destruct v; try done; eauto. }
  assert (match v with VList items | VTuple items => Some items | _ => None end = Some items) as Hi
    by naive_solver.
  destruct v as [| | | | |items'|items'|]; simplify_eq/=;
  (destruct (negb _) eqn:G1; [done|]; bool_norm;
   destruct (map_result _ items) as [strs|] eqn:Em; cbn [result_bind] in Hc; [|done];
   destruct (bool_decide _) eqn:G2; [done|]; apply bool_decide_eq_false in G2;
   destruct (existsb _ strs) eqn:G3; [done|];
   destruct (canonical_json_bytes (VList items)) as [b|] eqn:Eb; [|done];
   destruct (MAX_OCI_EXEC_ARGV_BYTES <? zlen b) eqn:G4; [done|];
   apply (inj Ok) in Hc as <-; bool_norm;
   apply map_result_Ok in Em;
   assert (items = map VStr strs) as ->
     by (clear -Em; induction Em as [|x y l k Hx _ IH]; [done|]; simpl; f_equal; [|exact IH];
         destruct x; try done; destruct (bool_decide _); naive_solver);
   unfold zlen in *; rewrite length_map in *;
   split; [unfold zlen; lia|]; split; [done|]; split; [|by exists b]).
  all: apply Forall_forall; intros s Hs; split.
  1, 3: rewrite Forall2_fmap_l in Em; apply list_elem_of_lookup in Hs as [i Hs];
        eapply Forall2_lookup_lr in Em; [|exact Hs|exact Hs]; simpl in Em;
        destruct (bool_decide (0 ∈ s)) eqn:E0; [done|by apply bool_decide_eq_false in E0].
  all: intros E; apply not_true_iff_false in G3; apply G3, existsb_exists; exists s;
       split; [by apply list_elem_of_In|by rewrite E].
Qed.

Lemma check_exec_ok data epoch p q : check_exec data = Ok (p, q) -> admitted EXEC p q epoch.
Proof.
  unfold check_exec, validate_exec_timeout. intros Hc. 
  destruct (v_exact _ _ _) as [d|] eqn:E2; cbn [result_bind] in Hc; [|done].
  destruct (validate_exec_argv _) as [argv|] eqn:E3; cbn [result_bind] in Hc; [|done].
  apply validate_exec_argv_ok in E3. v_ok. done.
Qed.

Lemma check_boundary_ack_ok data r epoch p q : (forall d, data = VDict d -> strict d) ->
  check_boundary_ack data r epoch = Ok (p, q) -> admitted BOUNDARY_ACK p q epoch.
Proof.
  unfold check_boundary_ack. intros Hs Hc.
  destruct (v_exact data _ _) as [d|] eqn:Ed; cbn [result_bind] in Hc; [|done].
  apply v_exact_Ok in Ed as [-> _]. destruct (Hs d eq_refl) as [_ Hl]. clear Hs.
  destruct (v_int_range _ _ _ _) eqn:E1 in Hc; cbn [result_bind] in Hc; [|done].
  destruct (v_int_range _ _ _ _) eqn:E2 in Hc; cbn [result_bind] in Hc; [|done].
  destruct (v_int_range _ _ _ _) eqn:E3 in Hc; cbn [result_bind] in Hc; [|done].
  destruct (v_int_range _ _ _ _) eqn:E4 in Hc; cbn [result_bind] in Hc; [|done].
  destruct (v_int_range _ _ _ _) eqn:E5 in Hc; cbn [result_bind] in Hc; [|done].
  destruct (v_int_range _ _ _ _) eqn:E6 in Hc; cbn [result_bind] in Hc; [|done].
  destruct (3 <? a) eqn:G1; [done|]. destruct (negb (parser_state_is_valid _ _ _)) eqn:G2; [done|].
  destruct (v_uuid _ _) as [id|] eqn:E7; cbn [result_bind] in Hc; [|done].
  destruct (v_exact (d.["lifecycle_state"]) _ _) as [ls|] eqn:E8; cbn [result_bind] in Hc; [|done].
  apply v_exact_Ok in E8 as [E8 _]. rewrite E8 in Hl.
  destruct (lifecycle_state_parts _ _ _) as [[[n st] t]|] eqn:E9; cbn [result_bind] in Hc; [|done].
  destruct (lifecycle_state_digest _ _ _) as [ex|] eqn:E10; cbn [result_bind] in Hc; [|done].
  destruct (v_digest _ _) as [dg|] eqn:E11; cbn [result_bind] in Hc; [|done].
  destruct (bool_decide (dg <> ex)) eqn:G3; [done|]. apply bool_decide_eq_false in G3. apply dec_stable in G3 as ->.
  v_ok. pose proof (lifecycle_state_parts_ok _ _ _ _ _ _ E9 Hl) as (Hok & Hst & Hsp & Ht).
  split; [done|]. split; [|done]. cbn [payload_ok]. split; [|lia]. unfold boundary_ok; cbn -[u].
  repeat (split; [done|]).
  destruct (lifecycle_state_parts_complete _ Hok) as (t' & Hp & Ht'). cbn -[u] in Hp, Ht'.
  unfold lifecycle_state_digest in E10 |- *. rewrite E9 in E10. rewrite Hp.
  assert (t' = t) as ->; [|exact E10].
  clear -Ht Ht'. destruct t as [t|], t' as [t'|].
  - destruct Ht' as [_ Ht']. f_equal. apply terminal_value_inj. congruence.
  - by rewrite Ht' in Ht.
  - destruct Ht' as [_ Ht']. by rewrite Ht in Ht'.
  - done.
Qed.

Lemma check_payload_ok k items r epoch p q : k <> HELLO -> strict items ->
  check_payload k items r epoch = Ok (p, q) -> admitted k p q epoch.
Proof.
  intros Hk Hs. destruct k; cbn [check_payload]; intros Hc.
  - done.
  - by eapply check_bootstrap_ok.
  - by eapply check_key_ack_ok.
  - by eapply check_reconnect_ok.
  - eapply check_boundary_ack_ok; [|exact Hc]. by intros d [= <-].
  - by eapply check_ready_ok.
  - by eapply check_snapshot_ok.
  - eapply check_stop_ok; [|exact Hc]. intros d f [= <-]. apply Hs.
  - by eapply check_terminal_ok.
  - by eapply check_exec_ok.
  - by eapply check_exec_output_ok.
  - by eapply check_exec_exit_ok.
Qed.

Lemma lookup_kind_Ok v k : lookup_kind v = Ok k <-> v = VStr (u (kind_name k)).
Proof.
  split.
  - destruct v as [| | | |s| | |]; simpl; try done. destruct (kind_of_str s) eqn:E; [|done].
    intros ->%(inj Ok). unfold kind_of_str in E. apply List.find_some in E as [_ E].
    bool_norm. by subst s.
  - intros ->. by destruct k.
Qed.

(** The accepted fields of a message satisfy its invariant. *)
Lemma message_init_ok kv b attempt nonce epoch wire items request generation reply m :
  binding_ok b -> strict items ->
  message_init kv b attempt nonce epoch wire (VDict items) request generation reply = Ok m ->
  message_ok m.
Proof.
  intros Hb Hs. unfold message_init. intros Hc.
  destruct (lookup_kind kv) as [k|] eqn:Ek; cbn [result_bind] in Hc; [|done].
  destruct (v_uuid attempt _) eqn:E1; cbn [result_bind] in Hc; [|done].
  destruct (v_hex32 nonce _) eqn:E2; cbn [result_bind] in Hc; [|done].
  destruct (v_counter epoch _) as [ep|] eqn:E3; cbn [result_bind] in Hc; [|done].
  destruct (v_counter wire _) eqn:E4; cbn [result_bind] in Hc; [|done].
  destruct (decide (k = HELLO)) as [->|Hne].
  { v_ok. subst. unfold message_ok. cbn. rewrite bool_decide_eq_true_2 by done. eauto 15. }
  assert (exists g rq p q, v_uuid generation "boot generation" = Ok g /\
    (if has_request_id k then exists r, rq = Some r /\ is_counter r else rq = None) /\
    check_payload k items reply ep = Ok (p, q) /\
    Message b a a0 ep a1 p rq (Some g) q = m) as (g & rq & p & q & Eg & Hrq & Hp & <-).
  { assert (forall A (x y : A), match k with HELLO => x | _ => y end = y) as Hm by (by destruct k).
    rewrite Hm in Hc. clear Hm.
    destruct (v_uuid generation _) as [g|] eqn:Eg; cbn [result_bind] in Hc; [|done].
    destruct (has_request_id k).
    - destruct (v_counter request _) as [rq|] eqn:Er; cbn [result_bind] in Hc; [|done].
      destruct (negb (is_none reply)); cbn [result_bind] in Hc; [done|].
      destruct (check_payload _ _ _ _) as [[p q]|] eqn:Ep; cbn [result_bind] in Hc; [|done].
      apply (inj Ok) in Hc. v_ok. eexists g, (Some rq), p, q. eauto 10.
    - destruct (negb (is_none request)); cbn [result_bind] in Hc; [done|].
      destruct (check_payload _ _ _ _) as [[p q]|] eqn:Ep; cbn [result_bind] in Hc; [|done].
      apply (inj Ok) in Hc. v_ok. eexists g, None, p, q. eauto 10. }
  apply check_payload_ok in Hp as (Hk & Hp & Hq); [|done|done]. apply v_uuid_Ok in Eg as [_ ?], E1 as [_ ?]. apply v_hex32_Ok in E2 as [_ ?]. apply v_counter_Ok in E3 as [_ ?], E4 as [_ ?].
  unfold message_ok, m_kind. cbn. rewrite Hk. rewrite bool_decide_eq_false_2 by done. eauto 15.
Qed.

(** * A well-formed message is read back *)

(** The mapping a payload prints as. *)
Definition payload_items (p : payload) : list (pystr * pyval) :=
  match payload_value p with VDict d => d | _ => [] end.

Lemma payload_value_items p : payload_value p = VDict (payload_items p).
Proof. destruct p; try done. by destruct root. Qed.

Definition canon_payload (p : payload) : list (pystr * pyval) := sort_items (canon_items (payload_items p)).

Lemma canon_payload_value p : canon (payload_value p) = VDict (canon_payload p).
Proof. by rewrite payload_value_items. Qed.

Lemma canon_terminal_value t : canon (terminal_value t) = terminal_value t.
Proof. destruct t as [[|] [|]]; reflexivity. Qed.

(** The reply-to a kind admits. *)
Definition reply_ok (k : kind) (q : option Z) : Prop :=
  if has_request_id k then q = None else match q with Some r => is_counter r | None => k = TERMINAL end.

Definition reads_back (p : payload) : Prop :=
  forall epoch q, payload_ok p epoch -> reply_ok (payload_kind p) q ->
  check_payload (payload_kind p) (canon_payload p) (opt_int q) epoch = Ok (p, q).

Lemma reply_some k q : reply_ok k q -> has_request_id k = false -> k <> TERMINAL ->
  exists r, q = Some r /\ is_counter r.
Proof. unfold reply_ok. intros Hq Hk Ht. rewrite Hk in Hq. destruct q; [eauto|done]. Qed.

Ltac reply_to_some H := apply reply_some in H as (r & -> & H); [|done|done].
Ltac as_canon p := 
  change (VDict (canon_payload p)) with (canon (VDict (payload_items p)));
  cbn [payload_items payload_value].

Lemma reads_bootstrap key : reads_back (PBootstrap key).
Proof.
  intros epoch q [Hk ->] Hq. cbn [payload_kind] in Hq. reply_to_some Hq.
  cbn [check_payload payload_kind]. as_canon (PBootstrap key).
  unfold check_bootstrap, v_exact. read_dict. validate. done.
Qed.

Lemma reads_key_ack : reads_back PKeyAck.
Proof.
  intros epoch q Hk Hq. cbn [payload_ok] in Hk. subst epoch. cbn [payload_kind] in Hq. reply_to_some Hq.
  cbn [check_payload payload_kind]. as_canon PKeyAck. unfold check_key_ack, v_exact. read_dict. validate. done.
Qed.

Lemma reads_reconnect digest id : reads_back (PReconnect digest id).
Proof.
  intros epoch q (Hd & Hi & He) Hq. cbn in Hq. subst q.
  cbn [check_payload payload_kind]. as_canon (PReconnect digest id).
  unfold check_reconnect, v_exact. read_dict. validate.
  by rewrite (proj2 (Z.leb_gt _ _)) by lia.
Qed.

Lemma reads_ready root : reads_back (PReady root).
Proof.
  intros epoch q Hp Hq. cbn [payload_kind] in Hq. reply_to_some Hq. cbn [check_payload payload_kind].
  destruct root as [[dev ino]|]; [|cbn [check_ready canon_payload]; unfold check_ready; change (canon_payload (PReady None)) with (@nil (pystr * pyval)); cbv iota; cbn [result_bind]; by validate].
  destruct Hp as [Hd Hi]. cbn [ri_device ri_inode] in *.
  unfold check_ready.
  change (canon_payload (PReady (Some (RootIdentity dev ino)))) with
    [(u "root_identity", canon (root_identity_value (RootIdentity dev ino)))].
  cbv iota. unfold validate_root_identity, v_exact, root_identity_value. read_dict. read_dict.
  validate. cbn [ri_device ri_inode]. validate.
  rewrite !(proj2 (py_eqb_str _ _)) by done. cbn [negb]. by validate.
Qed.

Lemma reads_stop signal : reads_back (PStop signal).
Proof.
  intros epoch q Hp Hq. cbn in Hp, Hq. subst signal q. cbn [check_payload payload_kind].
  as_canon (PStop (VInt 15)). unfold check_stop, v_exact. by read_dict.
Qed.

Lemma reads_terminal t : reads_back (PTerminal t).
Proof.
  intros epoch q Hp Hq. cbn [payload_ok payload_kind] in Hp, Hq. unfold reply_ok in Hq. cbn in Hq.
  cbn [check_payload payload_kind]. as_canon (PTerminal t). unfold check_terminal, v_exact. read_dict.
  rewrite canon_terminal_value, v_terminal_value by done. cbn [result_bind].
  destruct q as [r|]; [|done]. cbn [opt_int]. by validate.
Qed.

Lemma reads_exec_output s offset h : reads_back (PExecOutput s offset h).
Proof.
  intros epoch q (Ho & Hh & Hl) Hq. cbn [payload_kind] in Hq. reply_to_some Hq.
  cbn [check_payload payload_kind]. as_canon (PExecOutput s offset h).
  unfold check_exec_output, v_exact. read_dict. validate.
  assert (stream_of (VStr (u (stream_name s))) = Some s) as -> by (by destruct s).
  validate. rewrite Hh. cbn [negb]. by rewrite (proj2 (Z.ltb_ge _ _)) by lia.
Qed.

Lemma canon_argv argv : canon (VTuple (map VStr argv)) = VList (map VStr argv).
Proof. cbn [canon]. f_equal. rewrite map_map. by apply map_ext. Qed.

Lemma validate_exec_argv_complete argv : argv_ok argv -> validate_exec_argv (VList (map VStr argv)) = Ok argv.
Proof.
  intros ((Hl1 & Hl2) & Hh & Hs & b & Hb & Hbl). unfold validate_exec_argv.
  assert (zlen (map VStr argv) = zlen argv) as -> by (unfold zlen; by rewrite length_map).
  rewrite (proj2 (Z.leb_le _ _)), (proj2 (Z.leb_le _ _)) by done. cbn [andb negb].
  rewrite (proj2 (map_result_Ok _ _ argv)).
  2: { apply Forall2_fmap_l, Forall_Forall2_diag. eapply Forall_impl; [exact Hs|]. intros s [H0 _].
       simpl. by rewrite bool_decide_eq_false_2. }
  cbn [result_bind]. rewrite bool_decide_eq_false_2 by done.
  assert (existsb (fun s => match utf8_encode s with None => true | Some _ => false end) argv = false) as ->.
  { apply not_true_iff_false. intros (s & Hin & Hu)%existsb_exists. rewrite Forall_forall in Hs.
    destruct (Hs s) as [_ Hne]; [by apply list_elem_of_In|]. by destruct (utf8_encode s). }
  rewrite Hb. by rewrite (proj2 (Z.ltb_ge _ _)).
Qed.

Lemma reads_exec argv t : reads_back (PExec argv t).
Proof.
  intros epoch q (Ha & Ht) Hq. cbn in Hq. subst q. cbn [check_payload payload_kind].
  as_canon (PExec argv t). unfold check_exec, v_exact, validate_exec_timeout. read_dict.
  rewrite canon_argv, validate_exec_argv_complete by done. by validate.
Qed.

Lemma reads_exec_exit t out err why : reads_back (PExecExit t out err why).
Proof.
  intros epoch q (Ho & He & Hs & Ht) Hq. cbn [payload_kind] in Hq. reply_to_some Hq.
  cbn [check_payload payload_kind]. as_canon (PExecExit t out err why).
  unfold check_exec_exit, v_exact. read_dict. validate.
  assert (reason_of (VStr (u (reason_name why))) = Some why) as -> by (by destruct why).
  validate. rewrite (proj2 (Z.ltb_ge _ _)) by done.
  destruct t as [t|].
  - rewrite canon_terminal_value. pose proof (v_terminal_value t Ht) as Hv.
    unfold terminal_value at 1. unfold terminal_value in Hv. by rewrite Hv.
  - destruct Ht as (-> & -> & ->). done.
Qed.

Lemma reads_snapshot l : reads_back (PSnapshot l).
Proof.
  intros epoch q Hp Hq. cbn [payload_kind payload_ok] in *. reply_to_some Hq. cbn [check_payload payload_kind].
  unfold check_snapshot.
  assert (dict_get_none (canon_payload (PSnapshot l)) (u "state") = VStr (u (lname_name (l_state l)))) as ->.
  { unfold canon_payload. cbn [payload_items payload_value lifecycle_value]. by read_dict. }
  as_canon (PSnapshot l). unfold v_exact. validate. read_dict.
  unfold payload_items, payload_value, lifecycle_value. read_dict.
  unfold lifecycle_ok in Hp. destruct l as [n s v]. cbn [l_state l_stop_request_id l_terminal] in *.
  destruct n; cbn [lname_name].
  - by destruct Hp as [-> ->].
  - destruct Hp as [(c & -> & Hc) ->].
    change (py_eqb (VStr (u "stopping")) (VStr (u "ready"))) with false.
    change (py_eqb (VStr (u "stopping")) (VStr (u "stopping"))) with true. cbn [andb is_none canon opt_int].
    by validate.
  - destruct Hp as [Hc (t & Ht & ->)]. rewrite canon_terminal_value.
    change (py_eqb (VStr (u "terminal")) (VStr (u "ready"))) with false.
    change (py_eqb (VStr (u "terminal")) (VStr (u "stopping"))) with false.
    change (py_eqb (VStr (u "terminal")) (VStr (u "terminal"))) with true. cbn [andb].
    rewrite v_terminal_value by done. destruct s as [c|]; cbn [opt_int canon from_option] in *; by validate.
Qed.

Lemma parser_state_bounds h p e : parser_state_is_valid h p e = true ->
  0 <= h <= 3 /\ 0 <= p <= MAX_PAYLOAD_BYTES /\ 0 <= e <= MAX_PAYLOAD_BYTES.
Proof.
  unfold parser_state_is_valid. change MAX_PAYLOAD_BYTES with 65532.
  rewrite !orb_true_iff, !andb_true_iff, !Z.eqb_eq, !Z.leb_le, Z.ltb_lt. lia.
Qed.

Lemma canon_lifecycle_terminal l : lifecycle_ok l -> canon (l_terminal l) = l_terminal l.
Proof.
  unfold lifecycle_ok. destruct l as [[] s v]; cbn.
  - by intros [_ ->].
  - by intros [_ ->].
  - intros [_ (t & _ & ->)]. apply canon_terminal_value.
Qed.

Lemma canon_opt_int o : canon (opt_int o) = opt_int o.
Proof. by destruct o. Qed.

Lemma reads_boundary_ack b : reads_back (PBoundaryAck b).
Proof.
  intros epoch q [Hp He] Hq. cbn [payload_kind] in *. reply_to_some Hq. cbn [check_payload payload_kind].
  destruct Hp as (Hid & Hv & Ha & Hg & Hpe & Hl & Hd & Hdig).
  destruct (parser_state_bounds _ _ _ Hv) as (Hh & Hpb & Hex).
  assert (0 <= b_discarded_header_bytes b <= MAX_COUNTER) as Hh' by (change MAX_COUNTER with 9223372036854775807; lia).
  as_canon (PBoundaryAck b). unfold check_boundary_ack, v_exact. read_dict.
  unfold payload_items, payload_value, boundary_value. read_dict. validate.
  rewrite (proj2 (Z.ltb_ge _ _)), Hv by lia. cbn [negb]. unfold lifecycle_value. read_dict.
  rewrite canon_opt_int, (canon_lifecycle_terminal _ Hl). cbn [canon].
  destruct (lifecycle_state_parts_complete _ Hl) as (t & -> & _). rewrite Hdig. validate.
  rewrite bool_decide_eq_false_2 by auto. rewrite (proj2 (Z.leb_gt _ _)) by lia.
  rewrite (canon_lifecycle_terminal _ Hl). by destruct b as [? ? ? ? ? ? [? ? ?] ? ?].
Qed.

Lemma reads_back_all p : payload_kind p <> HELLO -> reads_back p.
Proof.
  destruct p; intros Hk.
  - done.
  - apply reads_bootstrap.
  - apply reads_key_ack.
  - apply reads_reconnect.
  - apply reads_boundary_ack.
  - apply reads_ready.
  - apply reads_snapshot.
  - apply reads_stop.
  - apply reads_terminal.
  - apply reads_exec.
  - apply reads_exec_output.
  - apply reads_exec_exit.
Qed.

(** * Whole messages *)

Lemma message_keys m : dict_keys (message_to_dict m) = map u (body_fields (m_kind m)).
Proof. unfold message_to_dict, body_fields. by destruct (m_kind m). Qed.

Lemma message_keys_NoDup m : NoDup (dict_keys (message_to_dict m)).
Proof. rewrite message_keys. destruct (m_kind m); by apply NoDup_decide. Qed.

(** The fields of [to_dict], by name. *)
Lemma message_to_dict_get m :
  let d := message_to_dict m in
  d.["kind"] = VStr (u (kind_name (m_kind m))) /\
  d.["schema"] = VStr (u OCI_CONTROL_PROTOCOL_V2) /\
  d.["run_id"] = VStr (run_id (m_binding m)) /\
  d.["domain_core_digest"] = VStr (domain_core_digest (m_binding m)) /\
  d.["stage1_artifact_digest"] = VStr (stage1_artifact_digest (m_binding m)) /\
  d.["boot_attempt_id"] = VStr (m_boot_attempt_id m) /\
  d.["host_nonce"] = VStr (m_host_nonce m) /\
  d.["epoch"] = VInt (m_epoch m) /\
  d.["wire_sequence"] = VInt (m_wire_sequence m) /\
  d.["payload"] = payload_value (m_payload m) /\
  d.["request_id"] = (if has_request_id (m_kind m) then opt_int (m_request_id m) else VNone) /\
  d.["boot_generation"] = (if bool_decide (m_kind m = HELLO) then VNone else opt_str (m_boot_generation m)) /\
  d.["reply_to"] = (if bool_decide (m_kind m = HELLO) then VNone else opt_int (m_reply_to m)).
Proof.
  cbv zeta. unfold message_to_dict. cbn [app].
  destruct (m_kind m); cbn [app has_request_id bool_decide decide]; split_and!;
    repeat (rewrite dict_get_none_u; cbn [String.eqb Ascii.eqb Bool.eqb]); reflexivity.
Qed.

Lemma canon_message m : canon (VDict (message_to_dict m)) = VDict (sort_items (canon_items (message_to_dict m))).
Proof. reflexivity. Qed.

Lemma has_exactly_message m :
  has_exactly (map u (body_fields (m_kind m))) (message_to_dict m) = true.
Proof. apply has_exactly_spec. intros k. by rewrite message_keys. Qed.

(** [from_dict] inverts [to_dict], whatever the order of the keys. *)
Lemma message_from_dict_to_dict m : message_ok m ->
  message_from_dict (canon (VDict (message_to_dict m))) = Ok m.
Proof.
  intros ((Hr & Hd & Hs) & Ha & Hn & He & Hw & Hreq & Hgen & Hrep & Hp).
  pose proof (message_keys_NoDup m) as Hnd.
  destruct (message_to_dict_get m) as (Gk & Gs & Gr & Gd & Gst & Gb & Gn & Ge & Gw & Gp & Gq & Gg & Gt).
  rewrite canon_message. unfold message_from_dict.
  rewrite !(dict_get_none_canon _ _ Hnd), Gk. cbn [canon].
  rewrite (proj2 (lookup_kind_Ok _ (m_kind m))) by done. cbn [result_bind].
  unfold v_exact. rewrite <- canon_message, (exact_canon _ _ _ (has_exactly_message m)). cbn [result_bind].
  rewrite !(dict_get_none_canon _ _ Hnd), Gk, Gs, Gr, Gd, Gst, Gb, Gn, Ge, Gw, Gp, Gq, Gg, Gt. cbn [canon].
  rewrite (proj2 (py_eqb_str _ _)) by done. cbn [negb]. unfold binding_init. validate.
  rewrite canon_payload_value. unfold message_init.
  rewrite (proj2 (lookup_kind_Ok _ (m_kind m))) by done. validate.
  destruct m as [[r d s] a n e w p q g t]. unfold m_kind in *. cbn [m_binding run_id domain_core_digest
    stage1_artifact_digest m_boot_attempt_id m_host_nonce m_epoch m_wire_sequence m_payload m_request_id
    m_boot_generation m_reply_to] in *.
  destruct (decide (payload_kind p = HELLO)) as [Hk|Hk].
  { rewrite Hk in *. rewrite bool_decide_eq_true_2 in * by done. cbn [has_request_id] in *.
    destruct p; try discriminate Hk. destruct Hreq as (q' & -> & Hq). subst g t. cbn in Hp. subst e.
    unfold v_exact. cbn [opt_int canon]. by validate. }
  rewrite bool_decide_eq_false_2 in * by done. destruct Hgen as (g' & -> & Hg).
  assert (forall A (x y : A), match payload_kind p with HELLO => x | _ => y end = y) as Hm
    by (intros; by destruct (payload_kind p)).
  rewrite Hm. clear Hm. cbn [opt_str canon]. validate.
  destruct (has_request_id (payload_kind p)) eqn:Ek.
  - destruct Hreq as (q' & -> & Hq). subst t. cbn [opt_int canon]. validate. cbn [is_none negb]. validate.
    pose proof (reads_back_all p Hk e None Hp) as Hb. unfold reply_ok in Hb. rewrite Ek in Hb.
    cbn [opt_int] in Hb. by rewrite Hb.
  - subst q. cbn [canon is_none negb]. validate. rewrite canon_opt_int.
    pose proof (reads_back_all p Hk e t Hp) as Hb. unfold reply_ok in Hb. rewrite Ek in Hb. by rewrite Hb.
Qed.

(** A message is determined by its dictionary, in key order. *)
Lemma message_to_dict_inj m n : message_ok m -> message_ok n ->
  canon (VDict (message_to_dict m)) = canon (VDict (message_to_dict n)) -> m = n.
Proof.
  intros Hm Hn E. apply (inj Ok). rewrite <- (message_from_dict_to_dict m Hm), E.
  by apply message_from_dict_to_dict.
Qed.
End message.
