(* ===== verification/ControlV2Codec.v ===== *)
(** Envelopes, authentication and framing of protocol v2
    ([oci_control_protocol_v2.py], lines 424-730). *)
From S2P Require Import Prelude Crypto PyStr PyVal Utf8 Json Regex Digest ControlV2Wire ControlV2Message.

Section codec.
Context `{Hash}.

(** * Envelopes *)

Record envelope := Envelope { e_body : message; e_key_id : option pystr; e_tag : option pystr }.

(** [OCIControlV2Envelope(body, key_id, tag)] *)
Definition envelope_init (body : message) (key_id tag : pyval) : result envelope :=
  match m_kind body with
  | HELLO =>
      raise "initial HELLO envelope must be unsigned" when negb (is_none key_id) || negb (is_none tag) ;;
      Ok (Envelope body None None)
  | _ =>
      let? k := v_digest key_id "key ID" in
      let? t := v_hex32 tag "authentication tag" in
      Ok (Envelope body (Some k) (Some t))
  end.

Definition envelope_to_dict (e : envelope) : pyval :=
  VDict [(u "body", VDict (message_to_dict (e_body e)));
         (u "mac", match m_kind (e_body e) with
                   | HELLO => VNone
                   | _ => VDict [(u "key_id", opt_str (e_key_id e)); (u "tag", opt_str (e_tag e))]
                   end)].

(** [_reject_pairs]: the [object_pairs_hook] of the decoder *)
Definition duplicate_key : string := "lifecycle message contains a duplicate key".
Fixpoint reject_pairs_from (seen pairs : list (pystr * pyval)) : result (list (pystr * pyval)) :=
  match pairs with
  | [] => Ok seen
  | (key, value) :: pairs =>
      raise duplicate_key when bool_decide (key ∈ dict_keys seen) ;;
      reject_pairs_from (seen ++ [(key, value)]) pairs
  end.
Definition reject_pairs (pairs : list (pystr * pyval)) : result (list (pystr * pyval)) :=
  reject_pairs_from [] pairs.

(** * Authentication *)

Definition protocol_bytes : bytes := u OCI_CONTROL_PROTOCOL_V2.

Definition key_identifier (key : bytes) : result pystr :=
  raise "lifecycle key is invalid" when negb (zlen key =? 32) ;;
  Ok (digest_text (protocol_bytes ++ [0] ++ u "key-id" ++ [0] ++ key)).

Definition direction (m : message) : bytes :=
  if is_host_kind (m_kind m) then u "host-to-guest" else u "guest-to-host".

(** [_validate_carrier_kind]; a third carrier does not exist here. *)
Definition validate_carrier_kind (m : message) (c : carrier) : result unit :=
  match c with
  | CONSOLE_CARRIER =>
      raise "console carrier requires BOUNDARY_ACK" when bool_decide (m_kind m <> BOUNDARY_ACK) ;; Ok tt
  | CHANNEL_CARRIER =>
      raise "BOUNDARY_ACK requires console carrier" when bool_decide (m_kind m = BOUNDARY_ACK) ;; Ok tt
  end.

Definition subkey_binding (m : message) : pyval :=
  VDict [(u "boot_attempt_id", VStr (m_boot_attempt_id m));
         (u "boot_generation", opt_str (m_boot_generation m));
         (u "domain_core_digest", VStr (domain_core_digest (m_binding m)));
         (u "run_id", VStr (run_id (m_binding m)));
         (u "stage1_artifact_digest", VStr (stage1_artifact_digest (m_binding m)))].

Definition hkdf_info (m : message) (c : carrier) (binding : bytes) : bytes :=
  protocol_bytes ++ [0] ++ u "subkey" ++ [0] ++ direction m ++ [0] ++ u (carrier_name c) ++ [0] ++ binding.

Definition hkdf_subkey (key : bytes) (m : message) (c : carrier) : result bytes :=
  let? _ := validate_carrier_kind m c in
  let salt := sha256 (protocol_bytes ++ [0] ++ u "hkdf-salt" ++ [0]) in
  let prk := hmac_sha256 salt key in
  let? binding := canonical_json_bytes (subkey_binding m) in
  Ok (hmac_sha256 prk (hkdf_info m c binding ++ [1])).

Definition mac_input (m : message) (c : carrier) : result bytes :=
  let? body := canonical_json_bytes (VDict (message_to_dict m)) in
  raise "struct.error" when 4294967296 <=? zlen body ;;
  Ok (protocol_bytes ++ [0] ++ u "frame" ++ [0] ++ direction m ++ [0] ++ u (carrier_name c) ++ [0]
      ++ pack_u32 (zlen body) ++ body).

Definition authentication_tag (key : bytes) (m : message) (c : carrier) : result pystr :=
  let? subkey := hkdf_subkey key m c in
  let? input := mac_input m c in
  Ok (hex (hmac_sha256 subkey input)).

Definition sign_message (m : message) (key : bytes) (c : carrier) : result envelope :=
  raise "initial HELLO cannot be signed" when bool_decide (m_kind m = HELLO) ;;
  let? _ := validate_carrier_kind m c in
  let? tag := authentication_tag key m c in
  let? id := key_identifier key in
  envelope_init m (VStr id) (VStr tag).

(** [value or ""] of an optional text *)
Definition or_empty (o : option pystr) : pystr := match o with Some s => s | None => [] end.

Definition verify_message_authentication (e : envelope) (key : bytes) (c : carrier) : result unit :=
  raise "initial HELLO has no authentication tag" when bool_decide (m_kind (e_body e) = HELLO) ;;
  let? _ := validate_carrier_kind (e_body e) c in
  let? id := key_identifier key in
  raise "lifecycle key ID is invalid" when bool_decide (or_empty (e_key_id e) <> id) ;;
  let? expected := authentication_tag key (e_body e) c in
  raise "lifecycle authentication tag is invalid" when bool_decide (or_empty (e_tag e) <> expected) ;;
  Ok tt.

(** * Encoding and decoding *)

Definition encode_frame (e : envelope) : result bytes :=
  let? payload := canonical_json_bytes (envelope_to_dict e) in
  raise "lifecycle frame exceeds 64 KiB"
    when bool_decide (payload = []) || (MAX_PAYLOAD_BYTES <? zlen payload) ;;
  Ok (pack_u32 (zlen payload) ++ payload).

(** [json.loads(payload.decode("utf-8"), object_pairs_hook=_reject_pairs)] with
    every error but the duplicate key renamed *)
Definition load_payload (payload : bytes) : result pyval :=
  match utf8_decode payload with
  | None => Err "lifecycle payload JSON is invalid"
  | Some text =>
      match loads reject_pairs text with
      | Ok v => Ok v
      | Err e => if String.eqb e duplicate_key then Err duplicate_key
                 else Err "lifecycle payload JSON is invalid"
      end
  end.

(** [canonical_json_bytes(envelope.to_dict()) != payload] *)
Definition is_canonical_encoding (e : envelope) (payload : bytes) : result bool :=
  let? b := canonical_json_bytes (envelope_to_dict e) in
  Ok (bool_decide (b = payload)).

Definition decode_payload (payload : bytes) : result envelope :=
  raise "lifecycle payload size is invalid"
    when bool_decide (payload = []) || (MAX_PAYLOAD_BYTES <? zlen payload) ;;
  let? value := load_payload payload in
  let? outer := v_exact value ["body"; "mac"] "lifecycle envelope" in
  let? body := message_from_dict (outer.["body"]) in
  let? e :=
    match m_kind body with
    | HELLO =>
        raise "initial HELLO envelope must be unsigned" when negb (is_none (outer.["mac"])) ;;
        envelope_init body VNone VNone
    | _ =>
        let? mac := v_exact (outer.["mac"]) ["key_id"; "tag"] "lifecycle MAC" in
        envelope_init body (mac.["key_id"]) (mac.["tag"])
    end in
  let? same := is_canonical_encoding e payload in
  raise "lifecycle payload must be canonical UTF-8 JSON" when negb same ;;
  Ok e.

Definition decode_frame (frame : bytes) : result envelope :=
  raise "lifecycle frame is truncated" when zlen frame <? 4 ;;
  let length := unpack_u32 (take 4 frame) in
  raise "lifecycle frame length is invalid" when (length =? 0) || (MAX_PAYLOAD_BYTES <? length) ;;
  raise "lifecycle frame is truncated or contains trailing bytes" when negb (zlen frame =? length + 4) ;;
  decode_payload (drop 4 frame).

Definition encode_boundary_line (e : envelope) : result bytes :=
  let? _ := validate_carrier_kind (e_body e) CONSOLE_CARRIER in
  let? b := canonical_json_bytes (envelope_to_dict e) in
  Ok (OCI_CONTROL_BOUNDARY_PREFIX ++ b ++ [10]).

(** [line[len(prefix):-1]] *)
Definition decode_boundary_line (line : bytes) : result envelope :=
  raise "lifecycle boundary line is invalid"
    when negb (startswith OCI_CONTROL_BOUNDARY_PREFIX line) || negb (endswith [10] line) ;;
  let body := drop (length OCI_CONTROL_BOUNDARY_PREFIX) line in
  let? e := decode_payload (take (length body - 1) body) in
  raise "console message is not BOUNDARY_ACK" when bool_decide (m_kind (e_body e) <> BOUNDARY_ACK) ;;
  Ok e.

(** * Transcripts *)

Definition transcript_projection (e : envelope) (encoded : bytes) (c : carrier) (key : option bytes) :
    result (list (pystr * pyval)) :=
  let m := e_body e in
  let? _ := validate_carrier_kind m c in
  raise "lifecycle transcript input is invalid" when bool_decide (encoded = []) ;;
  let? verified :=
    match m_kind m, key with
    | HELLO, Some _ => Err "unsigned HELLO projection requires no key"
    | HELLO, None => Ok false
    | _, None => Err "signed lifecycle projection requires a key"
    | _, Some key => let? _ := verify_message_authentication e key c in Ok true
    end in
  let? canonical := match c with CHANNEL_CARRIER => encode_frame e | CONSOLE_CARRIER => encode_boundary_line e end in
  raise "lifecycle transcript encoding is not canonical" when bool_decide (encoded <> canonical) ;;
  let? body_bytes := canonical_json_bytes (VDict (message_to_dict m)) in
  let projection :=
    [(u "authentication_verified", VBool verified);
     (u "body_digest", VStr (digest_text body_bytes));
     (u "boot_attempt_id", VStr (m_boot_attempt_id m));
     (u "boot_generation", opt_str (m_boot_generation m));
     (u "carrier", VStr (u (carrier_name c)));
     (u "direction", VStr (direction m));
     (u "envelope_digest", VStr (digest_text encoded));
     (u "epoch", VInt (m_epoch m));
     (u "host_nonce", VStr (m_host_nonce m));
     (u "key_id", opt_str (e_key_id e));
     (u "kind", VStr (u (kind_name (m_kind m))));
     (u "reply_to", opt_int (m_reply_to m));
     (u "request_id", opt_int (m_request_id m));
     (u "size_bytes", VInt (zlen encoded));
     (u "wire_sequence", VInt (m_wire_sequence m))]
    ++ match m_payload m with
       | PReady (Some r) =>
           [(u "root_identity", root_identity_value r);
            (u "run_id", VStr (run_id (m_binding m)));
            (u "domain_core_digest", VStr (domain_core_digest (m_binding m)));
            (u "stage1_artifact_digest", VStr (stage1_artifact_digest (m_binding m)))]
       | _ => []
       end in
  let? digest := canonical_json_bytes (VDict projection) in
  Ok (projection ++ [(u "projection_digest", VStr (digest_text digest))]).

(** * The frame decoder ([OCIControlV2FrameDecoder]) *)

Record decoder := Decoder { d_header : bytes; d_payload : bytes; d_expected : option Z }.
#[export] Instance decoder_eta : Eta decoder := fun d => Decoder (d_header d) (d_payload d) (d_expected d).

Definition decoder_init : decoder := Decoder [] [] None.

Definition buffered_bytes (d : decoder) : Z := zlen (d_header d) + zlen (d_payload d).

(** The rest of one turn of the loop, once the length is known. *)
Definition feed_payload (d : decoder) (expected : Z) (data : bytes) (envelopes : list envelope) :
    decoder * result (list envelope * bytes) :=
  let count := Z.to_nat (Z.min (expected - zlen (d_payload d)) (zlen data)) in
  let d := d <| d_payload := d_payload d ++ take count data |> in
  let data := drop count data in
  if zlen (d_payload d) =? expected then
    let? e := decode_payload (d_payload d) from d in
    (d <| d_payload := [] |> <| d_expected := None |>, Ok (envelopes ++ [e], data))
  else (d, Ok (envelopes, data)).

(** One turn of [while cursor < len(data)]; [data] is what the cursor has not
    reached. *)
Definition feed_turn (d : decoder) (data : bytes) (envelopes : list envelope) :
    decoder * result (list envelope * bytes) :=
  match d_expected d with
  | Some expected => feed_payload d expected data envelopes
  | None =>
      let count := Z.to_nat (Z.min (4 - zlen (d_header d)) (zlen data)) in
      let d := d <| d_header := d_header d ++ take count data |> in
      let data := drop count data in
      if zlen (d_header d) =? 4 then
        let expected := unpack_u32 (d_header d) in
        let d := d <| d_header := [] |> <| d_expected := Some expected |> in
        if (expected =? 0) || (MAX_PAYLOAD_BYTES <? expected) then
          (d <| d_expected := None |>, Err "lifecycle frame length is invalid")
        else feed_payload d expected data envelopes
      else (d, Ok (envelopes, data))
  end.

Fixpoint feed_loop (fuel : nat) (d : decoder) (data : bytes) (envelopes : list envelope) :
    decoder * result (list envelope) :=
  match data with
  | [] => (d, Ok envelopes)
  | _ :: _ =>
      match fuel with
      | O => (d, Err RecursionError)
      | S fuel =>
          match feed_turn d data envelopes with
          | (d, Ok (envelopes, data)) => feed_loop fuel d data envelopes
          | (d, Err e) => (d, Err e)
          end
      end
  end.

(** Every turn but the last consumes a byte. *)
Definition feed (d : decoder) (data : bytes) : decoder * result (list envelope) :=
  feed_loop (length data) d data [].

Definition finish (d : decoder) : result unit :=
  raise "lifecycle frame stream is truncated"
    when negb (buffered_bytes d =? 0) || bool_decide (d_expected d <> None) ;;
  Ok tt.

(** The same decoder one byte at a time. *)
Definition feed_byte (d : decoder) (b : Z) : decoder * result (list envelope) :=
  match d_expected d with
  | None =>
      let h := d_header d ++ [b] in
      if zlen h =? 4 then
        let expected := unpack_u32 h in
        if (expected =? 0) || (MAX_PAYLOAD_BYTES <? expected) then
          (Decoder [] (d_payload d) None, Err "lifecycle frame length is invalid")
        else (Decoder [] (d_payload d) (Some expected), Ok [])
      else (Decoder h (d_payload d) None, Ok [])
  | Some expected =>
      let p := if zlen (d_payload d) <? expected then d_payload d ++ [b] else d_payload d in
      if zlen p =? expected then
        match decode_payload p with
        | Ok e => (Decoder (d_header d) [] None, Ok [e])
        | Err x => (Decoder (d_header d) p (Some expected), Err x)
        end
      else (Decoder (d_header d) p (Some expected), Ok [])
  end.

Fixpoint feed_bytes (d : decoder) (data : bytes) : decoder * result (list envelope) :=
  match data with
  | [] => (d, Ok [])
  | b :: data =>
      match feed_byte d b with
      | (d, Err e) => (d, Err e)
      | (d, Ok es) =>
          match feed_bytes d data with
          | (d, Ok fs) => (d, Ok (es ++ fs))
          | (d, Err e) => (d, Err e)
          end
      end
  end.

(** * Decoding what was encoded *)

Definition envelope_ok (e : envelope) : Prop :=
  message_ok (e_body e) /\
  if bool_decide (m_kind (e_body e) = HELLO) then e_key_id e = None /\ e_tag e = None
  else exists k t, e_key_id e = Some k /\ is_digest k /\ e_tag e = Some t /\ is_hex32 t.

Lemma reject_pairs_from_NoDup pairs : forall seen, NoDup (dict_keys (seen ++ pairs)) ->
  reject_pairs_from seen pairs = Ok (seen ++ pairs).
Proof.
  induction pairs as [|[k v] pairs IH]; intros seen Hn; cbn [reject_pairs_from]; [by rewrite app_nil_r|].
  rewrite bool_decide_eq_false_2.
  - rewrite IH; rewrite <- app_assoc; done.
  - unfold dict_keys in Hn. rewrite map_app in Hn. apply NoDup_app in Hn as (_ & Hn & _).
    intros Hin. apply (Hn k Hin). by left.
Qed.

Lemma reject_pairs_NoDup pairs : NoDup (dict_keys pairs) -> reject_pairs pairs = Ok pairs.
Proof. apply (reject_pairs_from_NoDup pairs []). Qed.

(** A repeated key is refused, wherever it is. *)
Lemma reject_pairs_from_dup pairs : forall seen, ~ NoDup (dict_keys (seen ++ pairs)) ->
  NoDup (dict_keys seen) -> reject_pairs_from seen pairs = Err duplicate_key.
Proof.
  induction pairs as [|[k v] pairs IH]; intros seen Hn Hs; cbn [reject_pairs_from];
    [by rewrite app_nil_r in Hn|].
  case_bool_decide as Hk; [done|]. apply IH; [by rewrite <- app_assoc|].
  unfold dict_keys in *. rewrite map_app. apply NoDup_app. split; [done|]. split.
  - intros x Hx Hx'. apply list_elem_of_singleton in Hx' as ->. done.
  - apply NoDup_singleton.
Qed.

(** * Validated values are JSON *)

Lemma is_uuid_nonneg s : is_uuid s -> Forall (Z.le 0) s.
Proof.
  unfold is_uuid, uuid_str. destruct (_ && forallb is_hex_digit (uuid_hex s)) eqn:E; [|done].
  intros Hs. apply (inj Some) in Hs. bool_norm. rewrite forallb_forall in *.
  rewrite <- Hs. assert (Forall (Z.le 0) (lower (uuid_hex s))) as Hl.
  { unfold lower. rewrite Forall_fmap. apply Forall_forall. intros c Hc.
    match goal with Hf : forall x, In x _ -> is_hex_digit x = true |- _ =>
      specialize (Hf c (proj1 (list_elem_of_In _ _) Hc)); rename Hf into Hd end.
    simpl. unfold is_hex_digit, hex_value in Hd. unfold lower_char.
    repeat case_match; try done; bool_norm; lia. }
  unfold hyphenate.
  repeat first [apply Forall_app; split | apply List.Forall_cons; [lia|] | apply Forall_take | apply Forall_drop];
    exact Hl.
Qed.

Lemma is_hex32_nonneg s : is_hex32 s -> Forall (Z.le 0) s.
Proof. by apply fullmatch_nonneg. Qed.
Lemma is_digest_nonneg s : is_digest s -> Forall (Z.le 0) s.
Proof. by apply fullmatch_nonneg. Qed.
#[local] Hint Resolve is_uuid_nonneg is_hex32_nonneg is_digest_nonneg : palimpsest.
#[local] Hint Extern 1 (Forall (Z.le 0) (u _)) => apply u_nonneg : palimpsest.

Lemma utf8_encode_nonneg s : utf8_encode s <> None -> Forall (Z.le 0) s.
Proof.
  induction s as [|c s IH]; [constructor|]. cbn [utf8_encode]. intros Hs.
  destruct (utf8_char c) as [b|] eqn:E; [|done]. destruct (utf8_encode s) eqn:Es; [|done].
  constructor; [|by apply IH]. unfold utf8_char in E.
  destruct ((c <? 0) || (1114111 <? c) || is_surrogate c) eqn:Ec; [done|]. bool_norm. lia.
Qed.

Lemma exec_data_nonneg s : exec_data_ok s = true -> Forall (Z.le 0) s.
Proof.
  unfold exec_data_ok. intros Hd. bool_norm.
  match goal with Hf : forallb _ _ = true |- _ => rewrite forallb_forall in Hf; rename Hf into Hf' end.
  apply Forall_forall. intros c Hc. specialize (Hf' c (proj1 (list_elem_of_In _ _) Hc)).
  apply in_hex in Hf'. lia.
Qed.

Lemma jsonable_opt_int o : jsonable (opt_int o).
Proof. destruct o; constructor. Qed.
#[local] Hint Resolve jsonable_opt_int utf8_encode_nonneg exec_data_nonneg : palimpsest.
#[local] Hint Constructors jsonable : palimpsest.

Lemma lifecycle_value_jsonable l : lifecycle_ok l -> jsonable (lifecycle_value l).
Proof.
  intros Hl. unfold lifecycle_value. jsonable_dict; auto with palimpsest.
  unfold lifecycle_ok in Hl. destruct (l_state l).
  - destruct Hl as [_ ->]. constructor.
  - destruct Hl as [_ ->]. constructor.
  - destruct Hl as [_ (t & _ & ->)]. auto with palimpsest.
Qed.

Lemma payload_value_jsonable p epoch : payload_ok p epoch -> jsonable (payload_value p).
Proof.
  destruct p; cbn [payload_ok payload_value]; intros Hp.
  - jsonable_dict.
  - destruct Hp. jsonable_dict; auto with palimpsest.
  - jsonable_dict.
  - destruct Hp as (? & ? & ?). jsonable_dict; auto with palimpsest.
  - destruct Hp as [(? & ? & ? & ? & ? & ? & ? & ?) ?]. unfold boundary_value.
    jsonable_dict; auto using lifecycle_value_jsonable with palimpsest.
  - destruct root as [r|]; [|jsonable_dict]. unfold root_identity_value.
    jsonable_dict; auto with palimpsest. jsonable_dict; auto with palimpsest.
  - by apply lifecycle_value_jsonable.
  - subst signal. jsonable_dict; auto with palimpsest.
  - jsonable_dict; auto with palimpsest.
  - destruct Hp as [(_ & _ & Ha & _) _]. jsonable_dict; auto with palimpsest.
    constructor. rewrite Forall_fmap. eapply Forall_impl; [exact Ha|]. intros s [_ Hs]. simpl.
    auto with palimpsest.
  - destruct Hp as (_ & Hh & _). jsonable_dict; auto with palimpsest.
  - jsonable_dict; auto with palimpsest. destruct t; auto with palimpsest.
Qed.

Lemma message_jsonable m : message_ok m -> jsonable (VDict (message_to_dict m)).
Proof.
  intros ((Hr & Hd & Hs) & Ha & Hn & _ & _ & Hreq & Hgen & _ & Hp). apply ADict; [apply message_keys_NoDup|].
  unfold message_to_dict. apply Forall_app. split.
  - apply payload_value_jsonable in Hp.
    repeat first [apply List.Forall_nil | apply List.Forall_cons; [split; cbn [fst snd]; [apply u_nonneg|]|]];
      auto with palimpsest.
  - apply Forall_app. split; [destruct (has_request_id _)|destruct (decide (m_kind m = HELLO)) as [E|E]].
    + apply List.Forall_cons; [|constructor]. split; [apply u_nonneg|]. cbn [snd]. auto with palimpsest.
    + constructor.
    + rewrite E. constructor.
    + rewrite bool_decide_eq_false_2 in Hgen by done. destruct Hgen as (g & -> & Hg).
      assert (jsonable (VStr g)) by auto with palimpsest.
      destruct (m_kind m); try done;
      repeat first [apply List.Forall_nil | apply List.Forall_cons; [split; cbn [fst snd]; [apply u_nonneg|]|]];
        cbn [opt_str]; auto with palimpsest.
Qed.

Lemma envelope_jsonable e : envelope_ok e -> jsonable (envelope_to_dict e).
Proof.
  intros [Hm Ht]. unfold envelope_to_dict. jsonable_dict; [by apply message_jsonable|].
  destruct (decide (m_kind (e_body e) = HELLO)) as [E|E]; [rewrite E; constructor|].
  rewrite bool_decide_eq_false_2 in Ht by done. destruct Ht as (k & t & -> & Hk & -> & Ht').
  assert (forall x y : pyval, match m_kind (e_body e) with HELLO => x | _ => y end = y) as ->
    by (intros; by destruct (m_kind (e_body e))).
  cbn [opt_str]. jsonable_dict; auto with palimpsest.
Qed.
(** * The codec inverts itself *)

Lemma not_hello_match {A} k (x y : A) : k <> HELLO -> match k with HELLO => x | _ => y end = y.
Proof. by destruct k. Qed.

Lemma canon_opt_str o : canon (opt_str o) = opt_str o.
Proof. by destruct o. Qed.

Lemma decode_payload_complete e p : envelope_ok e -> canonical_json_bytes (envelope_to_dict e) = Ok p ->
  zlen p <= MAX_PAYLOAD_BYTES -> decode_payload p = Ok e.
Proof.
  intros He Hp Hl. pose proof (envelope_jsonable _ He) as Hj.
  destruct (loads_canonical reject_pairs _ _ reject_pairs_NoDup Hj Hp) as (s & Hs & Hload).
  destruct He as [Hm Ht].
  assert (p <> []) as Hne.
  { intros ->. injection Hs as <-. discriminate Hload. }
  unfold decode_payload. rewrite bool_decide_eq_false_2 by done. rewrite (proj2 (Z.ltb_ge _ _)) by done.
  cbn [orb]. unfold load_payload. rewrite Hs, Hload. cbn [result_bind].
  unfold v_exact, envelope_to_dict. read_dict. rewrite (message_from_dict_to_dict _ Hm). cbn [result_bind].
  unfold is_canonical_encoding. destruct e as [m k t]. cbn [e_body e_key_id e_tag] in *.
  destruct (decide (m_kind m = HELLO)) as [E|E].
  - rewrite bool_decide_eq_true_2 in Ht by done. destruct Ht as [-> ->].
    rewrite E. cbn [canon is_none negb]. unfold envelope_init. rewrite E. cbn [is_none negb orb result_bind].
    rewrite Hp. cbn [result_bind]. by rewrite bool_decide_eq_true_2.
  - rewrite bool_decide_eq_false_2 in Ht by done. destruct Ht as (k' & t' & -> & Hk & -> & Ht').
    rewrite !(not_hello_match (m_kind m)) by done. read_dict. unfold envelope_init.
    rewrite (not_hello_match (m_kind m)) by done. cbn [opt_str]. validate.
    rewrite Hp. cbn [result_bind]. by rewrite bool_decide_eq_true_2.
Qed.

(** What the decoder accepts is the canonical encoding of what it returns. *)
Lemma decode_payload_sound p e : decode_payload p = Ok e ->
  canonical_json_bytes (envelope_to_dict e) = Ok p /\ 0 < zlen p <= MAX_PAYLOAD_BYTES.
Proof.
  unfold decode_payload. destruct (bool_decide (p = []) || _) eqn:G; [done|]. bool_norm.
  intros Hd. destruct (load_payload p) as [v|]; cbn [result_bind] in Hd; [|done].
  destruct (v_exact v _ _) as [outer|]; cbn [result_bind] in Hd; [|done].
  destruct (message_from_dict _) as [m|]; cbn [result_bind] in Hd; [|done].
  destruct (match m_kind m with HELLO => _ | _ => _ end) as [e'|]; cbn [result_bind] in Hd; [|done].
  destruct (is_canonical_encoding e' p) as [[]|] eqn:E; cbn [result_bind negb] in Hd; try done.
  apply (inj Ok) in Hd as <-. unfold is_canonical_encoding in E.
  destruct (canonical_json_bytes _) as [b|]; cbn [result_bind] in E; [|done].
  apply (inj Ok) in E. bool_norm. subst b. split; [done|]. split; [|done].
  destruct p; [done|]. rewrite zlen_cons. pose proof (zlen_nonneg p). lia.
Qed.

Lemma encode_frame_Ok e f : encode_frame e = Ok f <->
  exists p, canonical_json_bytes (envelope_to_dict e) = Ok p /\ p <> [] /\ zlen p <= MAX_PAYLOAD_BYTES /\
    f = pack_u32 (zlen p) ++ p.
Proof.
  unfold encode_frame. destruct (canonical_json_bytes _) as [p|]; cbn [result_bind].
  - split.
    + destruct (bool_decide (p = []) || _) eqn:G; [done|]. bool_norm.
      intros Hf. apply (inj Ok) in Hf as <-. eauto.
    + intros (p' & Hp & Hne & Hl & ->). apply (inj Ok) in Hp as ->.
      rewrite bool_decide_eq_false_2, (proj2 (Z.ltb_ge _ _)) by done. done.
  - split; [done|]. by intros (p & ? & _).
Qed.

Lemma unpack_pack_payload (p : bytes) : zlen p <= MAX_PAYLOAD_BYTES -> unpack_u32 (pack_u32 (zlen p)) = zlen p.
Proof.
  intros Hl. apply unpack_pack_u32. pose proof (zlen_nonneg p). change MAX_PAYLOAD_BYTES with 65532 in Hl. lia.
Qed.

(** The tag that verifies is the tag that signing computes. *)
Lemma verify_is_sign e key c : envelope_ok e ->
  verify_message_authentication e key c = Ok tt <-> sign_message (e_body e) key c = Ok e.
Proof.
  intros [Hm Ht]. unfold verify_message_authentication, sign_message.
  destruct (decide (m_kind (e_body e) = HELLO)) as [Hh|Hh]; [by rewrite !bool_decide_eq_true_2|].
  rewrite !bool_decide_eq_false_2 in * by done. destruct Ht as (k & t & Hk & Hdk & Htag & Hht).
  destruct (validate_carrier_kind (e_body e) c); cbn [result_bind]; [|done].
  unfold key_identifier. generalize (digest_text (protocol_bytes ++ [0] ++ u "key-id" ++ [0] ++ key)) as id.
  intros id. destruct (negb (zlen key =? 32)); cbn [result_bind].
  { destruct (authentication_tag _ _ _); done. }
  rewrite Hk, Htag. cbn [or_empty].
  destruct (authentication_tag key (e_body e) c) as [tag|] eqn:Et; cbn [result_bind].
  2: { case_bool_decide; done. }
  unfold envelope_init. rewrite (not_hello_match (m_kind (e_body e))) by done.
  destruct e as [m k' t']. cbn [e_key_id e_tag e_body] in *. subst k' t'. split.
  - case_bool_decide as E1; [done|]. case_bool_decide as E2; [done|]. intros _. subst tag. rewrite <- E1. by validate.
  - intros Hs. destruct (v_digest _ _) eqn:E1; cbn [result_bind] in Hs; [|done].
    destruct (v_hex32 _ _) eqn:E2; cbn [result_bind] in Hs; [|done]. apply v_digest_Ok in E1 as [E1 _].
    apply v_hex32_Ok in E2 as [E2 _].
    injection E1 as ->. injection E2 as ->.
    apply (inj Ok) in Hs. injection Hs as <- <-.
    rewrite !bool_decide_eq_false_2; [done|tauto|tauto].
Qed.
(** * What a tag covers *)

Lemma direction_free m : 0 ∉ direction m.
Proof. unfold direction. destruct (is_host_kind _); by apply (bool_decide_unpack _). Qed.

Lemma carrier_free c : 0 ∉ u (carrier_name c).
Proof. destruct c; by apply (bool_decide_unpack _). Qed.

Lemma carrier_name_inj c c' : u (carrier_name c) = u (carrier_name c') -> c = c'.
Proof. by destruct c, c'. Qed.

Lemma canonical_json_inj v w b : jsonable v -> jsonable w ->
  canonical_json_bytes v = Ok b -> canonical_json_bytes w = Ok b -> canon v = canon w.
Proof.
  intros Hv Hw Ev Ew.
  destruct (loads_canonical reject_pairs v b reject_pairs_NoDup Hv Ev) as (s & Hs & Hl).
  destruct (loads_canonical reject_pairs w b reject_pairs_NoDup Hw Ew) as (s' & Hs' & Hl').
  congruence.
Qed.

Lemma mac_input_Ok m c b : mac_input m c = Ok b -> exists body,
  canonical_json_bytes (VDict (message_to_dict m)) = Ok body /\ zlen body < 4294967296 /\
  b = protocol_bytes ++ [0] ++ u "frame" ++ [0] ++ direction m ++ [0] ++ u (carrier_name c) ++ [0]
      ++ pack_u32 (zlen body) ++ body.
Proof.
  unfold mac_input. destruct (canonical_json_bytes _) as [body|]; cbn [result_bind]; [|done].
  destruct (4294967296 <=? zlen body) eqn:E; [done|]. bool_norm. intros Hb. apply (inj Ok) in Hb. eauto.
Qed.

(** The authenticated bytes determine the message and its carrier. *)
Lemma mac_input_injective m n c c' b : message_ok m -> message_ok n ->
  mac_input m c = Ok b -> mac_input n c' = Ok b -> m = n /\ c = c'.
Proof.
  intros Hm Hn (x & Hx & Hlx & ->)%mac_input_Ok (y & Hy & Hly & E)%mac_input_Ok.
  do 4 apply app_inv_head in E. change ([0] ++ ?l) with (0 :: l) in E. cbn [app] in E.
  apply sep_inj in E as [_ E]; [|apply direction_free..].
  apply sep_inj in E as [Ec E]; [|apply carrier_free..].
  apply carrier_name_inj in Ec as ->.
  apply app_inj_1 in E as [_ ->]; [|by rewrite !length_pack_u32].
  split; [|done]. apply message_to_dict_inj; [done|done|].
  by apply (canonical_json_inj _ _ y); [apply message_jsonable..| |].
Qed.

(** The subkey's context determines the boot it belongs to, the direction and
    the carrier. *)
Lemma hkdf_info_injective m n c c' b b' :
  canonical_json_bytes (subkey_binding m) = Ok b -> canonical_json_bytes (subkey_binding n) = Ok b' ->
  message_ok m -> message_ok n -> hkdf_info m c b = hkdf_info n c' b' ->
  direction m = direction n /\ c = c' /\ m_binding m = m_binding n /\
  m_boot_attempt_id m = m_boot_attempt_id n /\ m_boot_generation m = m_boot_generation n.
Proof.
  intros Hb Hb' Hm Hn E. unfold hkdf_info in E. do 4 apply app_inv_head in E. cbn [app] in E.
  apply sep_inj in E as [Ed E]; [|apply direction_free..].
  apply sep_inj in E as [Ec E]; [|apply carrier_free..]. apply carrier_name_inj in Ec as ->. subst b'.
  assert (forall m, message_ok m -> jsonable (subkey_binding m)) as Hj.
  { intros k ((? & ? & ?) & ? & _ & _ & _ & _ & Hg & _). unfold subkey_binding.
    jsonable_dict; auto with palimpsest. case_bool_decide.
    - rewrite Hg. constructor.
    - destruct Hg as (g & -> & ?). cbn [opt_str]. auto with palimpsest. }
  pose proof (canonical_json_inj _ _ _ (Hj m Hm) (Hj n Hn) Hb Hb') as E.
  unfold subkey_binding in E. cbn [canon map fst snd] in E. rewrite !canon_opt_str in E.
  split; [done|]. split; [done|]. destruct m as [[r d s] a ? ? ? ? ? g ?], n as [[r' d' s'] a' ? ? ? ? ? g' ?].
  cbn [m_binding run_id domain_core_digest stage1_artifact_digest m_boot_attempt_id m_boot_generation] in *.
  apply (f_equal (fun v => match v with VDict d => map snd d | _ => [] end)) in E.
  vm_compute in E. destruct g, g'; injection E; intros; subst; done.
Qed.
(** * The frame decoder, byte by byte *)

(** Reachable decoders: between frames or inside a header, or inside a payload
    of an announced length; a payload that is complete is one that
    [decode_payload] has refused. *)
Definition decoder_ok (d : decoder) : Prop :=
  match d_expected d with
  | None => d_payload d = [] /\ zlen (d_header d) < 4 /\ Forall is_byte (d_header d)
  | Some n => d_header d = [] /\ 0 < n <= MAX_PAYLOAD_BYTES /\ zlen (d_payload d) <= n /\
              (zlen (d_payload d) = n -> exists e, decode_payload (d_payload d) = Err e)
  end.

Lemma decoder_init_ok : decoder_ok decoder_init.
Proof. split_and!; [done|done|constructor]. Qed.

Lemma feed_byte_ok d b : decoder_ok d -> is_byte b -> decoder_ok (feed_byte d b).1.
Proof.
  intros Hd Hb. unfold decoder_ok, feed_byte in *. destruct d as [h p [n|]]; cbn [d_header d_payload d_expected] in *.
  - destruct Hd as (-> & Hn & Hp & Hbad). destruct (zlen p <? n) eqn:E; bool_norm; zlen_norm.
    + destruct (zlen p + (1 + 0) =? n) eqn:En; bool_norm.
      * destruct (decode_payload (p ++ [b])) eqn:Ed; cbn [fst d_header d_payload d_expected].
        { split_and!; done. }
        split; [done|]. split; [lia|]. split; [zlen_norm; lia|eauto].
      * cbn [fst d_header d_payload d_expected]. zlen_norm. split; [done|]. split; [done|]. split; [lia|]. intros; exfalso; lia.
    + assert (zlen p = n) as <- by lia. rewrite Z.eqb_refl.
      destruct (Hbad eq_refl) as (x & Ex). rewrite Ex. cbn [fst d_header d_payload d_expected].
      split_and!; try lia; eauto.
  - destruct Hd as (-> & Hh & Hbs). zlen_norm.
    assert (Forall is_byte (h ++ [b])) as Hbs' by (apply Forall_app; auto).
    destruct (zlen h + (1 + 0) =? 4) eqn:E; bool_norm.
    + pose proof (unpack_u32_nonneg _ Hbs').
      destruct ((unpack_u32 (h ++ [b]) =? 0) || _) eqn:G; cbn [fst d_header d_payload d_expected].
      { split_and!; done. }
      bool_norm. zlen_norm. split; [done|]. split; [lia|]. split; [lia|]. intros; exfalso; lia.
    + cbn [fst d_header d_payload d_expected]. zlen_norm. split_and!; [done|lia|done].
Qed.

Lemma feed_bytes_ok data : forall d, decoder_ok d -> Forall is_byte data -> decoder_ok (feed_bytes d data).1.
Proof.
  induction data as [|b data IH]; intros d Hd Hb; [done|]. inversion_clear Hb as [|? ? Hb1 Hb2].
  cbn [feed_bytes]. pose proof (feed_byte_ok d b Hd Hb1) as Hd'.
  destruct (feed_byte d b) as [d' [es|e]]; [|done]. cbn [fst] in Hd'. specialize (IH d' Hd' Hb2).
  destruct (feed_bytes d' data) as [d2 [fs|e]]; done.
Qed.

(** Continue a decoder with more data unless it has failed. *)
Definition then_feed (r : decoder * result (list envelope)) (data : bytes) : decoder * result (list envelope) :=
  match r with
  | (d, Err e) => (d, Err e)
  | (d, Ok es) => match feed_bytes d data with
                  | (d, Ok fs) => (d, Ok (es ++ fs))
                  | (d, Err e) => (d, Err e)
                  end
  end.

Lemma feed_bytes_app a : forall d b, feed_bytes d (a ++ b) = then_feed (feed_bytes d a) b.
Proof.
  induction a as [|x a IH]; intros d b; cbn [app feed_bytes then_feed].
  - by destruct (feed_bytes d b) as [d' [fs|]].
  - destruct (feed_byte d x) as [d' [es|]]; [|done]. rewrite IH.
    destruct (feed_bytes d' a) as [d2 [fs|]]; [|done]. cbn [then_feed].
    destruct (feed_bytes d2 b) as [d3 [gs|]]; [by rewrite app_assoc|done].
Qed.

(** A payload, or a header, that is not complete is stored. *)
Lemma feed_bytes_payload data : forall h p n, zlen p + zlen data < n ->
  feed_bytes (Decoder h p (Some n)) data = (Decoder h (p ++ data) (Some n), Ok []).
Proof.
  induction data as [|b data IH]; intros h p n Hl; cbn [feed_bytes]; [by rewrite app_nil_r|].
  zlen_norm. unfold feed_byte. cbn [d_expected d_payload d_header]. pose proof (zlen_nonneg data).
  rewrite (proj2 (Z.ltb_lt _ _)) by lia. rewrite (proj2 (Z.eqb_neq _ _)) by (zlen_norm; lia).
  rewrite IH by (zlen_norm; lia). rewrite <- app_assoc. done.
Qed.

Lemma feed_bytes_header data : forall h p, zlen h + zlen data < 4 ->
  feed_bytes (Decoder h p None) data = (Decoder (h ++ data) p None, Ok []).
Proof.
  induction data as [|b data IH]; intros h p Hl; cbn [feed_bytes]; [by rewrite app_nil_r|].
  zlen_norm. unfold feed_byte. cbn [d_expected d_payload d_header]. pose proof (zlen_nonneg data).
  rewrite (proj2 (Z.eqb_neq _ _)) by (zlen_norm; lia).
  rewrite IH by (zlen_norm; lia). rewrite <- app_assoc. done.
Qed.

(** A payload completed by its last byte. *)
Lemma feed_bytes_complete h p n c b : zlen p + zlen c + 1 = n ->
  feed_bytes (Decoder h p (Some n)) (c ++ [b]) =
  match decode_payload (p ++ c ++ [b]) with
  | Ok e => (Decoder h [] None, Ok [e])
  | Err x => (Decoder h (p ++ c ++ [b]) (Some n), Err x)
  end.
Proof.
  intros Hl. rewrite feed_bytes_app, feed_bytes_payload by lia. cbn [then_feed feed_bytes].
  unfold feed_byte. cbn [d_expected d_payload d_header]. rewrite (proj2 (Z.ltb_lt _ _)) by (zlen_norm; lia).
  rewrite (proj2 (Z.eqb_eq _ _)) by (zlen_norm; lia). rewrite <- !app_assoc.
  by destruct (decode_payload (p ++ c ++ [b])).
Qed.

(** One turn of the loop does what its bytes do one at a time. *)
Definition turn_spec (d : decoder) (data : bytes) (es : list envelope)
    (r : decoder * result (list envelope * bytes)) : Prop :=
  match r with
  | (d', Ok (es', rest)) =>
      exists c fs, data = c ++ rest /\ (data <> [] -> c <> []) /\ feed_bytes d c = (d', Ok fs) /\ es' = es ++ fs
  | (d', Err x) => feed_bytes d data = (d', Err x)
  end.

Lemma take_last (p : bytes) k : (0 < k <= length p)%nat ->
  exists c b, take k p = c ++ [b] /\ length c = (k - 1)%nat.
Proof.
  intros Hk. destruct (exists_last (l := take k p)) as (c & b & E).
  - intros E. apply (f_equal length) in E. rewrite length_take in E. simpl in E. lia.
  - exists c, b. split; [done|]. apply (f_equal length) in E. rewrite length_take, length_app in E. simpl in E. lia.
Qed.

Lemma feed_bytes_err d a b d' x : feed_bytes d a = (d', Err x) -> feed_bytes d (a ++ b) = (d', Err x).
Proof. intros E. by rewrite feed_bytes_app, E. Qed.

Lemma feed_payload_spec p n data es : decoder_ok (Decoder [] p (Some n)) -> data <> [] \/ zlen p < n ->
  turn_spec (Decoder [] p (Some n)) data es (feed_payload (Decoder [] p (Some n)) n data es).
Proof.
  intros (_ & Hn & Hp & Hbad) Hd. cbn [d_payload] in Hp, Hbad. unfold feed_payload.
  cbn [d_payload setter d_header d_expected].
  destruct (Z.lt_trichotomy (zlen p) n) as [Hlt|[<-|]]; [| |lia].
  - destruct (Z.lt_ge_cases (zlen data) (n - zlen p)) as [Hs|Hs].
    + rewrite Z.min_r, to_nat_zlen, firstn_all, drop_all by lia.
      rewrite (proj2 (Z.eqb_neq _ _)) by (zlen_norm; lia). exists data, [].
      rewrite !app_nil_r. split_and!; [done|done| |done]. apply feed_bytes_payload. lia.
    + rewrite Z.min_l by lia.
      destruct (take_last data (Z.to_nat (n - zlen p))) as (c & b & Ec & Hc); [unfold zlen in *; lia|].
      pose proof (take_drop (Z.to_nat (n - zlen p)) data) as Etd. rewrite Ec in Etd |- *.
      assert (zlen p + zlen c + 1 = n) as Hl by (unfold zlen in *; lia).
      rewrite (proj2 (Z.eqb_eq _ _)) by (zlen_norm; lia).
      pose proof (feed_bytes_complete [] p n c b Hl) as Hf.
      destruct (decode_payload (p ++ c ++ [b])) as [e|x].
      * exists (c ++ [b]), [e]. split_and!; [done| |done|done]. intros _ E. by destruct c.
      * cbn [turn_spec]. rewrite <- Etd. by apply feed_bytes_err.
  - destruct Hd as [Hd|]; [|lia]. rewrite Z.sub_diag, Z.min_l by apply zlen_nonneg.
    cbn [Z.to_nat take drop]. rewrite app_nil_r, Z.eqb_refl. destruct (Hbad eq_refl) as (x & Ex). rewrite Ex.
    destruct data as [|b data]; [done|]. cbn [turn_spec feed_bytes]. unfold feed_byte. cbn [d_expected d_payload d_header].
    rewrite (proj2 (Z.ltb_ge _ _)) by lia. by rewrite Z.eqb_refl, Ex.
Qed.

Lemma feed_turn_spec d data es : decoder_ok d -> Forall is_byte data -> data <> [] ->
  turn_spec d data es (feed_turn d data es).
Proof.
  intros Hd Hb Hne. unfold feed_turn. destruct d as [h p [n|]]; cbn [d_expected].
  { destruct Hd as (Hh & Hd). cbn in Hh. subst h. apply feed_payload_spec; [by split|by left]. }
  destruct Hd as (Hp & Hh & Hbs). cbn [d_payload d_header] in *. subst p.
  cbn [d_payload setter d_header d_expected].
  destruct (Z.lt_ge_cases (zlen data) (4 - zlen h)) as [Hs|Hs].
  - rewrite Z.min_r, to_nat_zlen, firstn_all, drop_all by lia.
    rewrite (proj2 (Z.eqb_neq _ _)) by (zlen_norm; lia). exists data, [].
    rewrite !app_nil_r. split_and!; [done|done| |done]. apply feed_bytes_header. lia.
  - rewrite Z.min_l by lia.
    destruct (take_last data (Z.to_nat (4 - zlen h))) as (c & b & Ec & Hc); [unfold zlen in *; lia|].
    pose proof (take_drop (Z.to_nat (4 - zlen h)) data) as Etd. rewrite Ec in Etd |- *.
    set (rest := drop _ data) in *. clearbody rest.
    assert (zlen h + zlen c + 1 = 4) as Hl by (unfold zlen in *; lia).
    rewrite (proj2 (Z.eqb_eq _ _)) by (zlen_norm; lia).
    assert (Forall is_byte (h ++ c ++ [b])) as Hbs'.
    { apply Forall_app. split; [done|]. rewrite <- Etd in Hb. by apply Forall_app in Hb as [? _]. }
    pose proof (unpack_u32_nonneg _ Hbs') as Hpos.
    assert (feed_bytes (Decoder h [] None) (c ++ [b]) =
      if (unpack_u32 (h ++ c ++ [b]) =? 0) || (MAX_PAYLOAD_BYTES <? unpack_u32 (h ++ c ++ [b]))
      then (Decoder [] [] None, Err "lifecycle frame length is invalid")
      else (Decoder [] [] (Some (unpack_u32 (h ++ c ++ [b]))), Ok [])) as Hf.
    { rewrite feed_bytes_app, feed_bytes_header by lia. cbn [then_feed feed_bytes]. unfold feed_byte.
      cbn [d_expected d_payload d_header]. rewrite (proj2 (Z.eqb_eq _ _)) by (zlen_norm; lia).
      rewrite <- app_assoc. by destruct (_ || _). }
    destruct ((unpack_u32 (h ++ c ++ [b]) =? 0) || _) eqn:G.
    + cbn [turn_spec]. rewrite <- Etd. by apply feed_bytes_err.
    + bool_norm. set (n := unpack_u32 (h ++ c ++ [b])) in *. clearbody n.
      assert (decoder_ok (Decoder [] [] (Some n))) as Hok.
      { split; [done|]. split; [lia|]. cbn [d_payload]. zlen_norm. split; [lia|]. intros; exfalso; lia. }
      pose proof (feed_payload_spec [] n rest es Hok) as Hspec.
      specialize (Hspec ltac:(right; zlen_norm; lia)).
      destruct (feed_payload _ n rest es) as [d' [[es' rest']|x]]; cbn [turn_spec] in *.
      * destruct Hspec as (c' & fs & -> & _ & Hf' & ->). exists ((c ++ [b]) ++ c'), fs.
        split_and!; [by rewrite <- Etd, !app_assoc| |by rewrite feed_bytes_app, Hf; cbn [then_feed]; rewrite Hf'|done].
        intros _ E. by destruct c.
      * rewrite <- Etd, feed_bytes_app, Hf. cbn [then_feed]. by rewrite Hspec.
Qed.

(** The loop is its bytes one at a time, and never runs out of turns. *)
Lemma feed_loop_spec fuel : forall d data es, (length data <= fuel)%nat -> decoder_ok d -> Forall is_byte data ->
  feed_loop fuel d data es =
  match feed_bytes d data with (d', Ok fs) => (d', Ok (es ++ fs)) | (d', Err x) => (d', Err x) end.
Proof.
  induction fuel as [|fuel IH]; intros d data es Hl Hd Hb.
  { destruct data; [|simpl in Hl; lia]. cbn. by rewrite app_nil_r. }
  destruct data as [|b data]; [cbn; by rewrite app_nil_r|]. cbn [feed_loop].
  pose proof (feed_turn_spec d (b :: data) es Hd Hb ltac:(done)) as Ht.
  destruct (feed_turn d (b :: data) es) as [d' [[es' rest]|x]]; cbn [turn_spec] in Ht; [|by rewrite Ht].
  destruct Ht as (c & fs & E & Hc & Hf & ->). specialize (Hc ltac:(done)). rewrite E in *.
  apply Forall_app in Hb as [Hbc Hbr]. pose proof (feed_bytes_ok c d Hd Hbc) as Hd'. rewrite Hf in Hd'.
  rewrite length_app in Hl. destruct c as [|c0 c]; [by destruct Hc|].
  rewrite IH; [|simpl in Hl; lia|done|done]. rewrite feed_bytes_app, Hf. cbn [then_feed].
  destruct (feed_bytes d' rest) as [d2 [gs|]]; [by rewrite app_assoc|done].
Qed.

Lemma feed_is_feed_bytes d data : decoder_ok d -> Forall is_byte data -> feed d data = feed_bytes d data.
Proof.
  intros Hd Hb. unfold feed. rewrite feed_loop_spec by done. by destruct (feed_bytes d data) as [? []].
Qed.

(** * Streams of frames *)

(** Feeding a stream in chunks, stopping at the first failure. *)
Fixpoint feed_chunks (d : decoder) (chunks : list bytes) : decoder * result (list envelope) :=
  match chunks with
  | [] => (d, Ok [])
  | chunk :: chunks =>
      match feed d chunk with
      | (d, Err e) => (d, Err e)
      | (d, Ok es) =>
          match feed_chunks d chunks with
          | (d, Ok fs) => (d, Ok (es ++ fs))
          | (d, Err e) => (d, Err e)
          end
      end
  end.

Lemma feed_chunks_bytes chunks : forall d, decoder_ok d -> Forall (Forall is_byte) chunks ->
  feed_chunks d chunks = feed_bytes d (concat chunks).
Proof.
  induction chunks as [|c chunks IH]; intros d Hd Hb; [done|]. inversion_clear Hb as [|? ? Hc Hcs].
  cbn [feed_chunks concat]. rewrite feed_is_feed_bytes by done. rewrite feed_bytes_app.
  pose proof (feed_bytes_ok c d Hd Hc) as Hd'. destruct (feed_bytes d c) as [d' [es|]]; [|done].
  cbn [then_feed]. by rewrite IH.
Qed.

Lemma canonical_bytes v b : canonical_json_bytes v = Ok b -> Forall is_byte b.
Proof.
  unfold canonical_json_bytes. destruct (dumps v) as [t|]; [|done].
  destruct (utf8_encode t) as [p|] eqn:E; [|done]. intros Hp. apply (inj Ok) in Hp as <-.
  by eapply utf8_encode_bytes.
Qed.

Lemma encode_frame_bytes e f : encode_frame e = Ok f -> Forall is_byte f.
Proof.
  intros (p & Hp & _ & _ & ->)%encode_frame_Ok. apply Forall_app. split; [apply pack_u32_bytes|].
  by eapply canonical_bytes.
Qed.

Lemma feed_bytes_frame e f : envelope_ok e -> encode_frame e = Ok f ->
  feed_bytes decoder_init f = (decoder_init, Ok [e]).
Proof.
  intros He (p & Hp & Hne & Hl & ->)%encode_frame_Ok.
  assert (0 < zlen p) as Hpos by (destruct p; [done|]; zlen_norm; pose proof (zlen_nonneg p); lia).
  assert (feed_bytes decoder_init (pack_u32 (zlen p)) = (Decoder [] [] (Some (zlen p)), Ok [])) as Hh.
  { destruct (take_last (pack_u32 (zlen p)) 4) as (c & b & Ec & Hc); [cbn; lia|].
    rewrite firstn_all2 in Ec by (cbn; lia). pose proof (unpack_pack_payload p Hl) as Hu.
    rewrite Ec in Hu |- *. rewrite feed_bytes_app. unfold decoder_init.
    rewrite feed_bytes_header by (unfold zlen; rewrite Hc; cbn; lia).
    cbn [then_feed feed_bytes]. unfold feed_byte. cbn [d_expected d_payload d_header app].
    rewrite (proj2 (Z.eqb_eq _ _)) by (zlen_norm; unfold zlen; rewrite Hc; cbn; lia). rewrite Hu.
    by rewrite (proj2 (Z.eqb_neq _ _)), (proj2 (Z.ltb_ge _ _)) by lia. }
  rewrite feed_bytes_app, Hh. cbn [then_feed]. destruct (exists_last Hne) as (c & b & ->).
  rewrite feed_bytes_complete by (zlen_norm; lia). cbn [app].
  by rewrite (decode_payload_complete e _ He Hp Hl).
Qed.

Lemma feed_bytes_frames es : forall fs, Forall envelope_ok es -> Forall2 (fun e f => encode_frame e = Ok f) es fs ->
  feed_bytes decoder_init (concat fs) = (decoder_init, Ok es).
Proof.
  induction es as [|e es IH]; intros fs He Hf; inversion_clear Hf as [|? ? ? ? Hf1 Hf2]; [done|].
  inversion_clear He as [|? ? He1 He2]. cbn [concat].
  rewrite feed_bytes_app, (feed_bytes_frame _ _ He1 Hf1). cbn [then_feed]. by rewrite (IH _ He2 Hf2).
Qed.

(** After a refused frame no byte is accepted any more. *)
Lemma feed_bytes_poisoned p n x data : zlen p = n -> decode_payload p = Err x -> data <> [] ->
  feed_bytes (Decoder [] p (Some n)) data = (Decoder [] p (Some n), Err x).
Proof.
  intros <- Hx Hne. destruct data as [|b data]; [done|]. cbn [feed_bytes]. unfold feed_byte.
  cbn [d_expected d_payload d_header]. rewrite (proj2 (Z.ltb_ge _ _)) by lia. by rewrite Z.eqb_refl, Hx.
Qed.
End codec.
