(* ===== verification/ControlV2Session.v ===== *)
(** The host side of a protocol v2 lifecycle session
    ([HostOCIControlV2Session], oci_control_protocol_v2.py, lines 733-1262): the
    session object as a record, each method as a function from the object to the
    object it leaves behind and its result. *)
From S2P Require Import Prelude Crypto PyStr PyVal Utf8 Json Regex Digest ControlV2Wire ControlV2Message ControlV2Codec.

Section session.
Context `{Hash}.

(** * State *)

(** [self.state] *)
Inductive sstate :=
| New | HelloSent | BootstrapReceived | KeyAckSent | Ready | StopSent | Terminated | ReconnectSent.
#[export] Instance sstate_eq_dec : EqDecision sstate.
Proof. solve_decision. Defined.

Record session := Session {
  s_binding : binding;
  s_boot_attempt_id : pystr;
  used_nonces : list pystr;
  used_boundary_ids : list pystr;
  nonce : option pystr;
  key : option bytes;
  key_id : option pystr;
  boot_generation : option pystr;
  host_wire : Z;
  accepted_host_wire : Z;
  accepted_host_wire_candidates : option (list Z);
  guest_wire : Z;
  request : Z;
  pending_request : option Z;
  stop_request : option Z;
  s_terminal : pyval;
  terminal_stop_request : option Z;
  s_epoch : Z;
  s_boundary : option (pystr * pystr);
  boundary_state : option lifecycle;
  reconnect_expected_state : option lifecycle;
  connection_opener_request : option Z;
  accepted_connection_opener_request : option Z;
  accepted_nonce : option pystr;
  pending_host_wire : option Z;
  stop_wire : option Z;
  stop_wire_candidates : list Z;
  retry_reconnect_request : option Z;
  reconnect_from : option sstate;
  exec_request : option Z;
  exec_wire : option Z;
  stdout_count : Z;
  stderr_count : Z;
  state : sstate;
}.
#[export] Instance session_eta : Eta session := fun s =>
  Session (s_binding s) (s_boot_attempt_id s) (used_nonces s) (used_boundary_ids s) (nonce s) (key s)
    (key_id s) (boot_generation s) (host_wire s) (accepted_host_wire s) (accepted_host_wire_candidates s)
    (guest_wire s) (request s) (pending_request s) (stop_request s) (s_terminal s)
    (terminal_stop_request s) (s_epoch s) (s_boundary s) (boundary_state s) (reconnect_expected_state s)
    (connection_opener_request s) (accepted_connection_opener_request s) (accepted_nonce s)
    (pending_host_wire s) (stop_wire s) (stop_wire_candidates s) (retry_reconnect_request s)
    (reconnect_from s) (exec_request s) (exec_wire s) (stdout_count s) (stderr_count s) (state s).

(** [HostOCIControlV2Session(binding, boot_attempt_factory=...)]; [attempt] is
    what the factory returned. *)
Definition session_init (b : binding) (attempt : pyval) : result session :=
  let? a := v_uuid attempt "boot attempt ID" in
  Ok (Session b a [] [] None None None None 0 0 None 0 0 None None VNone None 1 None None None None None None
        None None [] None None None None 0 0 New).

(** Sets of wire numbers *)
Definition set_add (z : Z) (l : list Z) : list Z := if bool_decide (z ∈ l) then l else z :: l.
Definition set_max (l : list Z) : Z := fold_right Z.max 0 l.
Definition or_zero (o : option Z) : Z := match o with Some z => z | None => 0 end.

(** [bytes in bytes] *)
Definition is_substring (needle hay : bytes) : bool := contains needle hay.

(** [assert_receipt_safe]; the tags in the order the set is traversed *)
Fixpoint tags_are_absent (serialized : bytes) (tags : list pyval) : result unit :=
  match tags with
  | [] => Ok tt
  | VStr tag :: tags =>
      raise "observed lifecycle tag is invalid" when negb (fullmatch hex32_re tag) ;;
      raise "serialized lifecycle evidence exposes a MAC tag" when is_substring tag serialized ;;
      tags_are_absent serialized tags
  | _ :: _ => Err "observed lifecycle tag is invalid"
  end.

Definition assert_receipt_safe (s : session) (serialized : bytes) (observed_tags : list pyval) : result unit :=
  raise "serialized lifecycle evidence exposes the boot key"
    when match key s with Some k => is_substring (hex k) serialized | None => false end ;;
  tags_are_absent serialized observed_tags.

(** * Host operations *)

(** [_fresh_nonce]; [drawn] is what the factory returns if it is called. *)
Definition fresh_nonce (s : session) (drawn : pyval) : session * result pystr :=
  raise "lifecycle connection limit was exhausted"
    when MAX_OCI_CONTROL_CONNECTIONS <=? zlen (used_nonces s) from s ;;
  match drawn with
  | VStr n =>
      raise "nonce factory did not produce a fresh canonical nonce"
        when negb (fullmatch hex32_re n) || bool_decide (n ∈ used_nonces s) from s ;;
      (s <| used_nonces := n :: used_nonces s |>, Ok n)
  | _ => (s, Err "nonce factory did not produce a fresh canonical nonce")
  end.

Definition hello (s : session) (drawn : pyval) : session * result envelope :=
  raise "session HELLO was already sent" when bool_decide (state s <> New) from s ;;
  match fresh_nonce s drawn with
  | (s, Err e) => (s, Err e)
  | (s, Ok n) =>
      let s := s <| nonce := Some n |> in
      let s := s <| request := request s + 1 |> in
      let s := s <| host_wire := host_wire s + 1 |> in
      let s := s <| pending_request := Some (request s) |> <| pending_host_wire := Some (host_wire s) |>
                 <| state := HelloSent |> <| connection_opener_request := Some (request s) |> in
      let? m := message_init (VStr (u "HELLO")) (s_binding s) (VStr (s_boot_attempt_id s)) (VStr n) (VInt 1)
                  (VInt (host_wire s)) (VDict []) (VInt (request s)) VNone VNone from s in
      (s, envelope_init m VNone VNone)
  end.

Definition key_ack (s : session) : session * result envelope :=
  match key s, boot_generation s with
  | Some k, Some g =>
      raise "KEY_ACK requires authenticated BOOTSTRAP" when bool_decide (state s <> BootstrapReceived) from s ;;
      let s := s <| host_wire := host_wire s + 1 |> in
      let s := s <| pending_host_wire := Some (host_wire s) |> in
      let? m := message_init (VStr (u "KEY_ACK")) (s_binding s) (VStr (s_boot_attempt_id s))
                  (VStr (or_empty (nonce s))) (VInt 1) (VInt (host_wire s)) (VDict []) VNone (VStr g)
                  (VInt (guest_wire s)) from s in
      let? e := sign_message m k CHANNEL_CARRIER from s in
      (s <| state := KeyAckSent |>, Ok e)
  | _, _ => (s, Err "KEY_ACK requires authenticated BOOTSTRAP")
  end.

Definition reconnect (s : session) (drawn : pyval) : session * result envelope :=
  raise "exec reconnect is unsupported" when bool_decide (exec_request s <> None) from s ;;
  match key s, boot_generation s, s_boundary s with
  | Some k, Some g, Some (boundary_id, digest) =>
      raise "session is not reconnectable"
        when negb (bool_decide (state s ∈ [Ready; StopSent; Terminated])) from s ;;
      let s := s <| reconnect_from := Some (state s) |> in
      match fresh_nonce s drawn with
      | (s, Err e) => (s, Err e)
      | (s, Ok n) =>
          let s := s <| nonce := Some n |> in
          let ' (s, reconnect_request) :=
            match retry_reconnect_request s with
            | None => let s := s <| request := request s + 1 |> in (s, request s)
            | Some r => (s <| retry_reconnect_request := None |>, r)
            end in
          let s := s <| host_wire := host_wire s + 1 |> in
          let s := s <| pending_request := Some reconnect_request |> <| pending_host_wire := Some (host_wire s) |>
                     <| s_boundary := None |> <| reconnect_expected_state := boundary_state s |>
                     <| boundary_state := None |> <| state := ReconnectSent |>
                     <| connection_opener_request := Some reconnect_request |> in
          let? m := message_init (VStr (u "RECONNECT")) (s_binding s) (VStr (s_boot_attempt_id s)) (VStr n)
                      (VInt (s_epoch s)) (VInt (host_wire s))
                      (VDict [(u "boundary_ack_digest", VStr digest); (u "boundary_id", VStr boundary_id)])
                      (VInt reconnect_request) (VStr g) VNone from s in
          (s, sign_message m k CHANNEL_CARRIER)
      end
  | _, _, _ => (s, Err "RECONNECT requires authenticated BOUNDARY_ACK")
  end.

Definition exec (s : session) (argv timeout_ms : pyval) : session * result envelope :=
  let? args := validate_exec_argv argv from s in
  let? t := validate_exec_timeout timeout_ms from s in
  match key s, boot_generation s with
  | Some k, Some g =>
      raise "exec requires ready state and no outstanding command"
        when bool_decide (state s <> Ready) || bool_decide (exec_request s <> None) from s ;;
      raise "exec sequence is exhausted"
        when (MAX_COUNTER <=? request s) || (MAX_COUNTER <=? host_wire s) from s ;;
      let? m := message_init (VStr (u "EXEC")) (s_binding s) (VStr (s_boot_attempt_id s))
                  (VStr (or_empty (nonce s))) (VInt (s_epoch s)) (VInt (host_wire s + 1))
                  (VDict [(u "argv", VTuple (map VStr args)); (u "timeout_ms", VInt t)])
                  (VInt (request s + 1)) (VStr g) VNone from s in
      let? e := sign_message m k CHANNEL_CARRIER from s in
      let s := s <| request := request s + 1 |> <| host_wire := host_wire s + 1 |> in
      (s <| exec_request := Some (request s) |> <| exec_wire := Some (host_wire s) |>
         <| stdout_count := 0 |> <| stderr_count := 0 |>, Ok e)
  | _, _ => (s, Err "exec requires ready state and no outstanding command")
  end.

(** The wire of a STOP attempt, new or retried. *)
Definition stop_attempt (s : session) : session :=
  let s := s <| host_wire := host_wire s + 1 |> in
  s <| stop_wire := Some (host_wire s) |>
    <| stop_wire_candidates := set_add (host_wire s) (stop_wire_candidates s) |>.

Definition stop_message (s : session) (g : pystr) (r : Z) : result message :=
  message_init (VStr (u "STOP")) (s_binding s) (VStr (s_boot_attempt_id s)) (VStr (or_empty (nonce s)))
    (VInt (s_epoch s)) (VInt (host_wire s)) (VDict [(u "signal", VInt 15)]) (VInt r) (VStr g) VNone.

Definition stop (s : session) : session * result envelope :=
  match key s, boot_generation s with
  | Some k, Some g =>
      raise "STOP requires a current ready snapshot" when bool_decide (state s <> Ready) from s ;;
      let s := stop_attempt s in
      let ' (s, r) :=
        match stop_request s with
        | None => let s := s <| request := request s + 1 |> in (s <| stop_request := Some (request s) |>, request s)
        | Some r => (s, r)
        end in
      let? m := stop_message s g r from s in
      let? e := sign_message m k CHANNEL_CARRIER from s in
      (s <| state := StopSent |>, Ok e)
  | _, _ => (s, Err "STOP requires a current ready snapshot")
  end.

Definition retry_stop (s : session) : session * result envelope :=
  match key s, boot_generation s, stop_request s with
  | Some k, Some g, Some r =>
      raise "STOP retry requires an outstanding logical STOP" when bool_decide (state s <> StopSent) from s ;;
      let s := stop_attempt s in
      let? m := stop_message s g r from s in
      (s, sign_message m k CHANNEL_CARRIER)
  | _, _, _ => (s, Err "STOP retry requires an outstanding logical STOP")
  end.

(** * Boundary admission ([admit_boundary]) *)

Definition states_for_boundary : list sstate := [KeyAckSent; Ready; StopSent; Terminated; ReconnectSent].

(** The checks on identity and order that precede the state-specific ones. *)
Definition check_boundary_identity (s : session) (e : envelope) : result boundary :=
  let m := e_body e in
  match key s, boot_generation s with
  | Some k, Some g =>
      let? _ := verify_message_authentication e k CONSOLE_CARRIER in
      match m_payload m with
      | PBoundaryAck b =>
          raise "BOUNDARY_ACK binding is invalid" when bool_decide (m_binding m <> s_binding s) ;;
          raise "BOUNDARY_ACK boot identity is stale"
            when bool_decide (m_boot_attempt_id m <> s_boot_attempt_id s)
                 || bool_decide (m_boot_generation m <> Some g) ;;
          raise "BOUNDARY_ACK epoch is stale" when negb (m_epoch m =? s_epoch s + 1) ;;
          raise "BOUNDARY_ACK ordering is stale" when m_wire_sequence m <=? guest_wire s ;;
          raise "BOUNDARY_ACK guest sequence is stale"
            when negb (b_last_attempted_g2h b =? m_wire_sequence m) ;;
          raise "BOUNDARY_ACK previous epoch is stale" when negb (b_previous_epoch b =? s_epoch s) ;;
          raise "BOUNDARY_ACK transition is invalid" when negb (bool_decide (state s ∈ states_for_boundary)) ;;
          Ok b
      | _ => Err "BOUNDARY_ACK binding is invalid"
      end
  | _, _ => Err "BOUNDARY_ACK arrived before BOOTSTRAP"
  end.

(** [allowed], [expected_host_wires] and [reconnect_was_accepted] *)
Record expectation := Expectation {
  allowed : bool; expected_host_wires : list Z; reconnect_was_accepted : option bool }.

(** [x in {None, y}] *)
Definition in_none_or (x y : option Z) : bool := bool_decide (x = None) || bool_decide (x = y).

Definition reconnect_allowed (previous : option lifecycle) (l : lifecycle) : bool :=
  match previous with
  | None => false
  | Some p =>
      match l_state p with
      | SReady =>
          bool_decide (l_state l = SReady)
          || (bool_decide (l_state l = STerminal) && bool_decide (l_stop_request_id l = None))
      | SStopping =>
          (bool_decide (l_state l = SStopping) && bool_decide (l_stop_request_id l = l_stop_request_id p))
          || (bool_decide (l_state l = STerminal) && in_none_or (l_stop_request_id l) (l_stop_request_id p))
      | STerminal => lifecycle_eqb l p
      end
  end.

Definition ready_allowed (l : lifecycle) : bool :=
  bool_decide (l_state l = SReady)
  || (bool_decide (l_state l = STerminal) && bool_decide (l_stop_request_id l = None)).

(** The host wires a boundary may commit while a STOP is outstanding. *)
Definition stop_sent_host_wires (s : session) (l : lifecycle) : list Z :=
  let own_stop := bool_decide (l_stop_request_id l <> None)
                  && bool_decide (l_stop_request_id l = stop_request s) in
  if own_stop && bool_decide (l_state l <> SReady) then
    if bool_decide (stop_wire_candidates s <> []) && (set_max (stop_wire_candidates s) <? accepted_host_wire s)
    then set_add (accepted_host_wire s) (stop_wire_candidates s)
    else stop_wire_candidates s
  else
    let all := set_add (accepted_host_wire s) (stop_wire_candidates s) in
    if bool_decide (l_state l = STerminal) && bool_decide (l_stop_request_id l = None)
    then set_add (or_zero (stop_wire s)) all else all.

Definition boundary_expectation (s : session) (m : message) (b : boundary) : result expectation :=
  let l := b_lifecycle_state b in
  match state s with
  | ReconnectSent =>
      let unaccepted_identity :=
        bool_decide (Some (m_host_nonce m) = accepted_nonce s)
        && bool_decide (m_reply_to m = accepted_connection_opener_request s)
        && (b_last_accepted_h2g b =? accepted_host_wire s) in
      let accepted_identity :=
        bool_decide (Some (m_host_nonce m) = nonce s)
        && bool_decide (m_reply_to m = connection_opener_request s)
        && bool_decide (Some (b_last_accepted_h2g b) = pending_host_wire s) in
      raise "BOUNDARY_ACK reconnect commitment is stale" when Bool.eqb unaccepted_identity accepted_identity ;;
      Ok (Expectation (reconnect_allowed (reconnect_expected_state s) l)
            [if accepted_identity then or_zero (pending_host_wire s) else accepted_host_wire s]
            (Some accepted_identity))
  | KeyAckSent =>
      Ok (Expectation ((bool_decide (l_state l = SReady) && bool_decide (l_stop_request_id l = None))
                       || (bool_decide (l_state l = STerminal) && bool_decide (l_stop_request_id l = None)))
            [or_zero (pending_host_wire s)] None)
  | Ready => Ok (Expectation (ready_allowed l) [accepted_host_wire s] None)
  | StopSent =>
      Ok (Expectation
            ((bool_decide (l_state l = SReady) && bool_decide (l_stop_request_id l = None))
             || (bool_decide (l_state l = SStopping) && bool_decide (l_stop_request_id l = stop_request s))
             || (bool_decide (l_state l = STerminal) && in_none_or (l_stop_request_id l) (stop_request s)))
            (stop_sent_host_wires s l) None)
  | _ =>
      Ok (Expectation (bool_decide (l_state l = STerminal)
                       && bool_decide (l_stop_request_id l = terminal_stop_request s)
                       && py_eqb (l_terminal l) (s_terminal s))
            (match accepted_host_wire_candidates s with
             | Some (z :: zs) => z :: zs
             | _ => [accepted_host_wire s]
             end) None)
  end.

(** Every check before the first assignment: the boundary, what was expected of
    it and its digest. *)
Definition check_boundary (s : session) (e : envelope) (encoded_line : bytes) :
    result (boundary * expectation * pystr) :=
  let m := e_body e in
  raise "exec reconnect is unsupported; command outcome is uncertain" when bool_decide (exec_request s <> None) ;;
  let? b := check_boundary_identity s e in
  let? x := boundary_expectation s m b in
  raise "BOUNDARY_ACK connection opener is stale"
    when bool_decide (state s <> ReconnectSent)
         && (bool_decide (Some (m_host_nonce m) <> accepted_nonce s)
             || bool_decide (m_reply_to m <> accepted_connection_opener_request s)) ;;
  raise "BOUNDARY_ACK lifecycle state is stale" when negb (allowed x) ;;
  raise "BOUNDARY_ACK host sequence is stale"
    when negb (bool_decide (b_last_accepted_h2g b ∈ expected_host_wires x)) ;;
  let? canonical_line := encode_boundary_line e in
  raise "BOUNDARY_ACK console encoding is invalid" when bool_decide (encoded_line <> canonical_line) ;;
  raise "BOUNDARY_ACK boundary ID was reused" when bool_decide (b_boundary_id b ∈ used_boundary_ids s) ;;
  let? canonical_envelope := canonical_json_bytes (envelope_to_dict e) in
  Ok (b, x, digest_text canonical_envelope).

(** [{"ready": "ready", "stopping": "stop-sent", "terminal": "terminal"}] *)
Definition lname_state (n : lname) : sstate :=
  match n with SReady => Ready | SStopping => StopSent | STerminal => Terminated end.

(** The STOP wires still possible after the boundary; [None] is the late
    "STOP wire commitment is stale". *)
Definition settle_stop_wires (s : session) (l : lifecycle) (committed : Z) : option (list Z) :=
  if bool_decide (l_state l <> SReady) && bool_decide (l_stop_request_id l <> None)
     && bool_decide (l_stop_request_id l = stop_request s) then
    if bool_decide (committed ∈ stop_wire_candidates s) then Some [committed]
    else if bool_decide (stop_wire_candidates s = []) || (committed <=? set_max (stop_wire_candidates s)) then None
    else Some (stop_wire_candidates s)
  else Some [].

(** The assignments that end [admit_boundary]. *)
Definition finish_boundary (s : session) (x : expectation) (l : lifecycle) : session :=
  match state s with
  | KeyAckSent =>
      let s := s <| state := match l_state l with SReady => Ready | _ => Terminated end |> in
      let s := match l_state l with
               | STerminal => s <| s_terminal := l_terminal l |> <| terminal_stop_request := None |>
               | _ => s
               end in
      s <| pending_request := None |> <| pending_host_wire := None |>
  | ReconnectSent =>
      let s := s <| state := lname_state (l_state l) |> in
      let s := match l_state l with
               | STerminal => s <| s_terminal := l_terminal l |>
                                <| terminal_stop_request := l_stop_request_id l |>
               | _ => s
               end in
      let s := s <| retry_reconnect_request :=
                      match reconnect_was_accepted x with Some true => None | _ => pending_request s end |> in
      s <| pending_request := None |> <| pending_host_wire := None |> <| reconnect_from := None |>
        <| reconnect_expected_state := None |>
  | _ => s
  end.

Definition admit_boundary (s : session) (e : envelope) (encoded_line : bytes) : session * result unit :=
  let? bxd := check_boundary s e encoded_line from s in
  let ' (b, x, digest) := bxd in
  let m := e_body e in
  let l := b_lifecycle_state b in
  let committed := b_last_accepted_h2g b in
  let s := s <| used_boundary_ids := b_boundary_id b :: used_boundary_ids s |> <| s_epoch := m_epoch m |>
             <| guest_wire := m_wire_sequence m |> <| accepted_host_wire := committed |>
             <| accepted_host_wire_candidates := None |> in
  match settle_stop_wires s l committed with
  | None => (s, Err "BOUNDARY_ACK STOP wire commitment is stale")
  | Some wires =>
      let s := s <| stop_wire_candidates := wires |> in
      let s := match reconnect_was_accepted x with
               | Some true => s <| accepted_nonce := nonce s |>
                                <| accepted_connection_opener_request := connection_opener_request s |>
               | _ => s
               end in
      let s := s <| s_boundary := Some (b_boundary_id b, digest) |> <| boundary_state := Some l |> in
      (finish_boundary s x l, Ok tt)
  end.

(** * Guest messages ([accept]) *)

(** [bytes.fromhex] of a validated key *)
Definition key_of_hex (h : pystr) : result bytes :=
  match fromhex h with Some k => Ok k | None => Err "ValueError: non-hexadecimal number" end.

Definition accept_bootstrap (s : session) (e : envelope) (boot_key : pystr) : session * result unit :=
  let m := e_body e in
  raise "BOOTSTRAP transition is invalid"
    when bool_decide (state s <> HelloSent) || bool_decide (m_reply_to m <> pending_request s) from s ;;
  raise "BOOTSTRAP identity is stale"
    when bool_decide (m_boot_attempt_id m <> s_boot_attempt_id s)
         || bool_decide (Some (m_host_nonce m) <> nonce s) from s ;;
  let? k := key_of_hex boot_key from s in
  let? _ := verify_message_authentication e k CHANNEL_CARRIER from s in
  raise "BOOTSTRAP ordering is stale" when negb (m_epoch m =? 1) || negb (m_wire_sequence m =? 1) from s ;;
  (s <| key := Some k |> <| key_id := e_key_id e |> <| boot_generation := m_boot_generation m |>
     <| guest_wire := m_wire_sequence m |> <| accepted_host_wire := or_zero (pending_host_wire s) |>
     <| accepted_nonce := nonce s |> <| accepted_connection_opener_request := connection_opener_request s |>
     <| pending_host_wire := None |> <| state := BootstrapReceived |>, Ok tt).

Definition stream_count (s : session) (st : stream) : Z :=
  match st with Stdout => stdout_count s | Stderr => stderr_count s end.

Definition add_output (s : session) (st : stream) (count : Z) : session :=
  match st with
  | Stdout => s <| stdout_count := stdout_count s + count |>
  | Stderr => s <| stderr_count := stderr_count s + count |>
  end.

(** The EXEC_OUTPUT and EXEC_EXIT branch. *)
Definition accept_exec (s : session) (m : message) : session * result unit :=
  raise "guest exec request identity is stale"
    when negb (bool_decide (state s ∈ [Ready; StopSent])) || bool_decide (exec_request s = None)
         || bool_decide (m_reply_to m <> exec_request s) from s ;;
  let done s := (s <| guest_wire := m_wire_sequence m |>
                   <| accepted_host_wire := Z.max (accepted_host_wire s) (or_zero (exec_wire s)) |>, Ok tt) in
  match m_payload m with
  | PExecOutput st offset h =>
      let count := zlen h / 2 in
      raise "guest exec output offset is not contiguous" when negb (offset =? stream_count s st) from s ;;
      raise "guest exec combined output exceeds limit"
        when MAX_OCI_EXEC_OUTPUT_BYTES <? stdout_count s + stderr_count s + count from s ;;
      done (add_output s st count)
  | PExecExit _ out err _ =>
      raise "guest exec completion output counts differ"
        when negb (out =? stdout_count s) || negb (err =? stderr_count s) from s ;;
      done (s <| exec_request := None |>)
  | _ => (s, Err "unreachable")
  end.

(** The transition of READY, SNAPSHOT and TERMINAL: the next state, the host
    wire that was accepted, its candidates, and the session with the terminal
    status recorded. *)
Definition transition : Type := sstate * option Z * option (list Z) * session.

Definition accept_snapshot (s : session) (l : lifecycle) : result transition :=
  raise "reconnect SNAPSHOT differs from BOUNDARY_ACK state"
    when negb (match reconnect_expected_state s with Some x => lifecycle_eqb l x | None => false end) ;;
  raise "reconnect lifecycle state regressed"
    when bool_decide (l_state l = SReady)
         && negb (bool_decide (reconnect_from s ∈ [Some Ready; Some StopSent])) ;;
  raise "reconnect STOP identity is invalid"
    when bool_decide (l_state l = SStopping)
         && (bool_decide (reconnect_from s <> Some StopSent)
             || bool_decide (l_stop_request_id l <> stop_request s)) ;;
  raise "natural terminal snapshot has STOP identity"
    when bool_decide (l_state l = STerminal) && bool_decide (reconnect_from s = Some Ready)
         && bool_decide (l_stop_request_id l <> None) ;;
  raise "terminal snapshot STOP identity is invalid"
    when bool_decide (l_state l = STerminal) && bool_decide (reconnect_from s = Some StopSent)
         && negb (in_none_or (l_stop_request_id l) (stop_request s)) ;;
  raise "terminal snapshot changed"
    when bool_decide (l_state l = STerminal) && bool_decide (reconnect_from s = Some Terminated)
         && (negb (py_eqb (l_terminal l) (s_terminal s))
             || bool_decide (l_stop_request_id l <> terminal_stop_request s)) ;;
  Ok (lname_state (l_state l), pending_host_wire s, None,
      match l_state l with
      | STerminal => s <| s_terminal := l_terminal l |> <| terminal_stop_request := l_stop_request_id l |>
      | _ => s
      end).

(** A TERMINAL while a STOP is outstanding. *)
Definition accept_stop_terminal (s : session) (m : message) (t : terminal) : transition :=
  let s' := s <| s_terminal := terminal_value t |> <| terminal_stop_request := m_reply_to m |> in
  match m_reply_to m with
  | None =>
      (Terminated, Some (accepted_host_wire s),
       Some (set_add (accepted_host_wire s) [or_zero (stop_wire s)]), s')
  | Some _ =>
      if bool_decide (stop_wire_candidates s <> []) && (set_max (stop_wire_candidates s) <? accepted_host_wire s)
      then (Terminated, Some (accepted_host_wire s), Some [accepted_host_wire s], s')
      else (Terminated, stop_wire s, Some (stop_wire_candidates s), s')
  end.

Definition accept_transition (s : session) (m : message) : result transition :=
  let invalid := Err "guest lifecycle transition is invalid" in
  match state s, m_payload m with
  | KeyAckSent, PReady _ =>
      if bool_decide (m_reply_to m = Some (host_wire s)) then Ok (Ready, Some (host_wire s), None, s) else invalid
  | ReconnectSent, PSnapshot l =>
      if bool_decide (m_reply_to m = pending_request s) then accept_snapshot s l else invalid
  | Ready, PTerminal t =>
      if bool_decide (m_reply_to m = None) then
        Ok (Terminated, Some (accepted_host_wire s), None,
            s <| s_terminal := terminal_value t |> <| terminal_stop_request := None |>)
      else invalid
  | StopSent, PTerminal t =>
      if in_none_or (m_reply_to m) (stop_request s) then Ok (accept_stop_terminal s m t) else invalid
  | _, _ => invalid
  end.

(** The assignments that end [accept]. *)
Definition settle (m : message) (t : transition) : session :=
  let ' (next_state, accepted, candidates, s) := t in
  let s := s <| guest_wire := m_wire_sequence m |> <| accepted_host_wire := or_zero accepted |>
             <| accepted_host_wire_candidates := candidates |> in
  let s := match m_payload m with
           | PReady _ | PSnapshot _ =>
               s <| accepted_nonce := nonce s |>
                 <| accepted_connection_opener_request := connection_opener_request s |>
           | _ => s
           end in
  let s := match m_payload m with
           | PReady _ | PSnapshot (Lifecycle SReady _ _) => s <| stop_wire_candidates := [] |>
           | _ => s
           end in
  s <| pending_request := None |> <| pending_host_wire := None |> <| reconnect_from := None |>
    <| reconnect_expected_state := None |> <| state := next_state |>.

(** [accept] of a message other than BOOTSTRAP, its binding checked. *)
Definition accept_guest (s : session) (e : envelope) : session * result unit :=
  let m := e_body e in
  match key s, boot_generation s with
  | Some k, Some g =>
      let? _ := verify_message_authentication e k CHANNEL_CARRIER from s in
      raise "guest lifecycle boot identity is stale"
        when bool_decide (m_boot_attempt_id m <> s_boot_attempt_id s)
             || bool_decide (m_boot_generation m <> Some g) from s ;;
      raise "guest lifecycle nonce or epoch is stale"
        when bool_decide (Some (m_host_nonce m) <> nonce s) || negb (m_epoch m =? s_epoch s) from s ;;
      raise "guest lifecycle wire ordering is stale" when m_wire_sequence m <=? guest_wire s from s ;;
      match m_kind m with
      | EXEC_OUTPUT | EXEC_EXIT => accept_exec s m
      | _ =>
          raise "VM terminal preceded exec completion; command outcome uncertain"
            when bool_decide (m_kind m = TERMINAL) && bool_decide (exec_request s <> None) from s ;;
          let? t := accept_transition s m from s in
          (settle m t, Ok tt)
      end
  | _, _ => (s, Err "guest message arrived before BOOTSTRAP")
  end.

Definition accept (s : session) (e : envelope) : session * result unit :=
  let m := e_body e in
  raise "guest lifecycle binding is invalid" when bool_decide (m_binding m <> s_binding s) from s ;;
  match m_payload m with
  | PBootstrap boot_key => accept_bootstrap s e boot_key
  | _ => accept_guest s e
  end.

End session.

(** Split a method into its paths. *)
Ltac paths :=
  repeat match goal with
  | H : (_, _) = (_, _) |- _ => apply pair_equal_spec in H as [? ?]
  | H : Ok _ = Err _ |- _ => discriminate H
  | H : Err _ = Ok _ |- _ => discriminate H
  | H : context [match ?x with _ => _ end] |- _ =>
      lazymatch type of H with
      | _ = (_, _) => destruct x eqn:?
      | _ = Ok _ => destruct x eqn:?
      end
  end.
