(* ===== verification/ControlV2SessionInv.v ===== *)
(** Correctness of the host session of protocol v2: what a rejected call leaves
    unchanged, the invariant every call preserves, and what no call undoes. *)
From S2P Require Import Prelude Crypto PyStr PyVal Utf8 Json Regex Digest ControlV2Wire ControlV2Message ControlV2Codec ControlV2Session.

Section session.
Context `{Hash}.

(** * Rejection *)

Lemma accept_exec_err s m s' x : accept_exec s m = (s', Err x) -> s' = s.
Proof. unfold accept_exec. intros Hx. paths; congruence. Qed.

Lemma accept_bootstrap_err s e k s' x : accept_bootstrap s e k = (s', Err x) -> s' = s.
Proof. unfold accept_bootstrap. intros Hx. paths; congruence. Qed.

Lemma accept_guest_err s e s' x : accept_guest s e = (s', Err x) -> s' = s.
Proof. unfold accept_guest. intros Hx. paths; try congruence; eauto using accept_exec_err. Qed.

Lemma accept_err s e s' x : accept s e = (s', Err x) -> s' = s.
Proof.
  unfold accept. intros Hx. paths; try congruence; eauto using accept_guest_err, accept_bootstrap_err.
Qed.

Lemma exec_err s argv t s' x : exec s argv t = (s', Err x) -> s' = s.
Proof. unfold exec. intros Hx. paths; congruence. Qed.

(** * The invariant *)

Definition before_bootstrap (st : sstate) : bool := match st with New | HelloSent => true | _ => false end.
Definition at_most (bound : Z) (o : option Z) : Prop := match o with Some z => 0 <= z <= bound | None => True end.
Definition all_at_most (bound : Z) (l : list Z) : Prop := Forall (fun z => 0 <= z <= bound) l.

Record session_inv (s : session) : Prop := {
  inv_accepted : 0 <= accepted_host_wire s <= host_wire s;
  inv_pending_wire : at_most (host_wire s) (pending_host_wire s);
  inv_stop_wire : at_most (host_wire s) (stop_wire s);
  inv_exec_wire : at_most (host_wire s) (exec_wire s);
  inv_candidates : all_at_most (host_wire s) (stop_wire_candidates s);
  inv_accepted_candidates :
    all_at_most (host_wire s) (default [] (accepted_host_wire_candidates s));
  inv_guest_wire : 0 <= guest_wire s;
  inv_epoch : 1 <= s_epoch s;
  inv_request : 0 <= request s;
  inv_stop_request : at_most (request s) (stop_request s);
  inv_pending_request : at_most (request s) (pending_request s);
  inv_retry_request : at_most (request s) (retry_reconnect_request s);
  inv_nonces : NoDup (used_nonces s);
  inv_nonce_count : zlen (used_nonces s) <= MAX_OCI_CONTROL_CONNECTIONS;
  inv_nonce_hex : Forall is_hex32 (used_nonces s);
  inv_boundaries : NoDup (used_boundary_ids s);
  inv_output : 0 <= stdout_count s /\ 0 <= stderr_count s /\
    stdout_count s + stderr_count s <= MAX_OCI_EXEC_OUTPUT_BYTES;
  inv_key : key s = None <-> before_bootstrap (state s) = true;
  inv_silent : before_bootstrap (state s) = true -> guest_wire s = 0;
}.

(** What no method undoes. *)
Record progress (s s' : session) : Prop := {
  pr_binding : s_binding s' = s_binding s;
  pr_attempt : s_boot_attempt_id s' = s_boot_attempt_id s;
  pr_host_wire : host_wire s <= host_wire s';
  pr_guest_wire : guest_wire s <= guest_wire s';
  pr_epoch : s_epoch s <= s_epoch s';
  pr_request : request s <= request s';
  pr_nonces : used_nonces s `suffix_of` used_nonces s';
  pr_boundaries : used_boundary_ids s `suffix_of` used_boundary_ids s';
  pr_started : state s <> New -> state s' <> New;
  pr_key : before_bootstrap (state s) = false ->
    before_bootstrap (state s') = false /\ key s' = key s /\ key_id s' = key_id s /\
    boot_generation s' = boot_generation s;
}.

#[export] Instance progress_preorder : PreOrder progress.
Proof.
  split.
  - intros s. split; try done; try lia.
  - intros s1 s2 s3 H1 H2. pose proof (pr_key _ _ H1) as K1. pose proof (pr_key _ _ H2) as K2.
    destruct H1, H2. split; try congruence; try lia; try (by etransitivity).
    + auto.
    + intros Hb. destruct (K1 Hb) as (Hb' & <- & <- & <-). by apply K2.
Qed.

(** One call of a method, whatever it answers. *)
Inductive step (s : session) : session -> Prop :=
| step_hello drawn s' r : hello s drawn = (s', r) -> step s s'
| step_key_ack s' r : key_ack s = (s', r) -> step s s'
| step_admit_boundary e line s' r : admit_boundary s e line = (s', r) -> step s s'
| step_reconnect drawn s' r : reconnect s drawn = (s', r) -> step s s'
| step_exec argv t s' r : exec s argv t = (s', r) -> step s s'
| step_stop s' r : stop s = (s', r) -> step s s'
| step_retry_stop s' r : retry_stop s = (s', r) -> step s s'
| step_accept e s' r : accept s e = (s', r) -> step s s'.

Definition steps : session -> session -> Prop := rtc step.

Definition keeps (s s' : session) : Prop := session_inv s -> session_inv s' /\ progress s s'.

Lemma keeps_refl s : keeps s s.
Proof. intros Hs. split; [done|reflexivity]. Qed.

Lemma keeps_trans s1 s2 s3 : keeps s1 s2 -> keeps s2 s3 -> keeps s1 s3.
Proof.
  intros H1 H2 Hs. destruct (H1 Hs) as [Hs2 P1]. destruct (H2 Hs2) as [Hs3 P2].
  split; [done|by transitivity s2].
Qed.

Lemma at_most_le a b o : a <= b -> at_most a o -> at_most b o.
Proof. destruct o; simpl; lia. Qed.

Lemma candidates_le a b l : a <= b -> all_at_most a l -> all_at_most b l.
Proof. intros Hle Hf. eapply Forall_impl; [exact Hf|]. simpl. lia. Qed.

Lemma set_add_Forall (P : Z -> Prop) z l : P z -> Forall P l -> Forall P (set_add z l).
Proof. intros Hz Hl. unfold set_add. case_bool_decide; [done|by constructor]. Qed.

Lemma or_zero_at_most b o : at_most b o -> 0 <= b -> 0 <= or_zero o <= b.
Proof. destruct o; simpl; lia. Qed.

(** Reduce a projection of an updated session. *)
Ltac proj := cbn [setter session_eta eta s_binding s_boot_attempt_id used_nonces used_boundary_ids nonce key
  key_id boot_generation host_wire accepted_host_wire accepted_host_wire_candidates guest_wire request
  pending_request stop_request s_terminal terminal_stop_request s_epoch s_boundary boundary_state
  reconnect_expected_state connection_opener_request accepted_connection_opener_request accepted_nonce
  pending_host_wire stop_wire stop_wire_candidates retry_reconnect_request reconnect_from exec_request
  exec_wire stdout_count stderr_count state before_bootstrap at_most] in *.

Ltac keep_field :=
  proj; first [ done | lia | congruence | by auto
              | by (eapply at_most_le; [|eassumption]; lia)
              | by (eapply candidates_le; [|eassumption]; lia) | idtac ].

Ltac rejected := paths; subst; apply keeps_refl.

(** * Host operations *)

Lemma fresh_nonce_keeps s drawn s' r : fresh_nonce s drawn = (s', r) ->
  keeps s s' /\ state s' = state s /\ (forall n, r = Ok n -> is_hex32 n).
Proof.
  unfold fresh_nonce. intros Hf. paths; subst; try (split; [apply keeps_refl|split; [done|congruence]]).
  bool_norm. match goal with Hh : fullmatch _ _ = true |- _ => rename Hh into Hh' end.
  split; [|split; [done|intros n [= ->]; done]].
  intros []. split; split; keep_field; [by constructor|zlen_norm; lia|by exists [s0]].
Qed.

Lemma hello_keeps s drawn s' r : hello s drawn = (s', r) -> keeps s s'.
Proof.
  unfold hello. intros Hh. destruct (bool_decide (state s <> New)) eqn:G; [rejected|].
  bool_norm. apply dec_stable in G. destruct (fresh_nonce s drawn) as [s1 [n|x]] eqn:Ef.
  2: { apply fresh_nonce_keeps in Ef as [Hk _]. paths. by subst. }
  apply fresh_nonce_keeps in Ef as (Hk & Hst & _). eapply keeps_trans; [exact Hk|].
  paths; subst; intros []; split; split; keep_field; rewrite Hst, G in *; done.
Qed.

Lemma key_ack_keeps s s' r : key_ack s = (s', r) -> keeps s s'.
Proof.
  unfold key_ack. intros Hh. paths; subst; try apply keeps_refl; bool_norm;
    repeat match goal with Hs : ~ (state s <> _) |- _ => apply dec_stable in Hs end;
    intros []; split; split; keep_field; repeat match goal with Hs : state s = _ |- _ => rewrite Hs in * end; done.
Qed.

Lemma exec_keeps s argv t s' r : exec s argv t = (s', r) -> keeps s s'.
Proof.
  unfold exec. intros Hh. paths; subst; try apply keeps_refl; bool_norm;
    intros []; split; split; keep_field.
Qed.

Lemma stop_attempt_keeps s : keeps s (stop_attempt s).
Proof.
  unfold stop_attempt. intros []. split; split; keep_field.
  apply set_add_Forall; [lia|]. by (eapply candidates_le; [|eassumption]; lia).
Qed.

Lemma stop_keeps s s' r : stop s = (s', r) -> keeps s s'.
Proof.
  unfold stop. intros Hh. destruct (key s); [|rejected].
  destruct (boot_generation s); [|rejected].
  destruct (bool_decide (state s <> Ready)) eqn:G; [rejected|].
  bool_norm. apply dec_stable in G. eapply keeps_trans; [apply stop_attempt_keeps|].
  assert (state (stop_attempt s) = Ready) as Hst by done. set (s1 := stop_attempt s) in *. clearbody s1.
  paths; subst; try apply keeps_refl; intros []; split; split; keep_field; rewrite Hst in *; done.
Qed.

Lemma retry_stop_keeps s s' r : retry_stop s = (s', r) -> keeps s s'.
Proof.
  unfold retry_stop. intros Hh. paths; subst; try apply keeps_refl; apply stop_attempt_keeps.
Qed.

Lemma reconnect_keeps s drawn s' r : reconnect s drawn = (s', r) -> keeps s s'.
Proof.
  unfold reconnect. intros Hh. destruct (bool_decide (exec_request s <> None)); [rejected|].
  destruct (key s); [|rejected]. destruct (boot_generation s); [|rejected].
  destruct (s_boundary s) as [[id digest]|]; [|rejected].
  destruct (bool_decide (state s ∈ [Ready; StopSent; Terminated])) eqn:G; cbn [negb] in Hh; [|rejected].
  bool_norm. set (s1 := s <| reconnect_from := Some (state s) |>) in *.
  assert (keeps s s1) as Hk1. { intros []. split; split; keep_field. }
  eapply keeps_trans; [exact Hk1|].
  assert (before_bootstrap (state s1) = false) as Hb.
  { change (state s1) with (state s). clear -G. destruct (state s); set_solver. }
  clearbody s1. destruct (fresh_nonce s1 drawn) as [s2 [n|x]] eqn:Ef.
  2: { apply fresh_nonce_keeps in Ef as [Hk _]. paths. by subst. }
  apply fresh_nonce_keeps in Ef as (Hk & Hst & _). eapply keeps_trans; [exact Hk|]. rewrite <- Hst in Hb.
  paths; subst; intros []; split; split; keep_field; rewrite ?Hb in *; try done.
  all: match goal with E : retry_reconnect_request _ = Some _, I : at_most _ (retry_reconnect_request _) |- _ =>
         rewrite E in I; exact I end.
Qed.

(** * Guest messages *)

Lemma accept_bootstrap_keeps s e k s' r : accept_bootstrap s e k = (s', r) -> keeps s s'.
Proof.
  unfold accept_bootstrap. intros Hh. paths; subst; try apply keeps_refl. bool_norm.
  intros Hi. pose proof (inv_key _ Hi) as Hkey. destruct Hi.
  assert (state s = HelloSent) as Hst by (by apply dec_stable).
  split; split; keep_field; rewrite ?Hst in *; try done.
  - destruct (pending_host_wire s); cbn in *; lia.
  - pose proof (inv_silent0 eq_refl). lia.
Qed.

Lemma add_output_keeps s st c : 0 <= c -> stdout_count s + stderr_count s + c <= MAX_OCI_EXEC_OUTPUT_BYTES ->
  keeps s (add_output s st c).
Proof. intros Hc Hm. destruct st; unfold add_output; intros []; split; split; keep_field. Qed.

Lemma received_keeps s w : guest_wire s <= w -> before_bootstrap (state s) = false ->
  keeps s (s <| guest_wire := w |> <| accepted_host_wire := Z.max (accepted_host_wire s) (or_zero (exec_wire s)) |>).
Proof.
  intros Hw Hb []. pose proof (or_zero_at_most _ _ inv_exec_wire0 ltac:(lia)).
  split; split; keep_field.
Qed.

Lemma accept_exec_keeps s m s' r : guest_wire s < m_wire_sequence m -> before_bootstrap (state s) = false ->
  accept_exec s m = (s', r) -> keeps s s'.
Proof.
  unfold accept_exec. intros Hw Hb Hh.
  destruct (negb _ || _ || _); [rejected|].
  destruct (m_payload m); try rejected.
  - destruct (negb (_ =? _)); [rejected|].
    destruct (MAX_OCI_EXEC_OUTPUT_BYTES <? _) eqn:G; [rejected|]. bool_norm.
    eapply keeps_trans; [apply (add_output_keeps s s0 (zlen data_hex / 2)); [|done]|].
    { apply Z.div_pos; [apply zlen_nonneg|lia]. }
    paths; subst. apply received_keeps; destruct s0; unfold add_output; proj; (lia || done).
  - destruct (negb _ || _); [rejected|].
    eapply keeps_trans; [|paths; subst; apply received_keeps; proj; (lia || done)].
    intros []. split; split; keep_field.
Qed.

Ltac transition_goals := proj; cbn [default]; split_and!;
  first [done | lia | by apply keeps_refl | eassumption | by auto | by constructor ].

(** What a transition may do to the session before it is settled. *)
Lemma accept_transition_spec s m n w c s' : session_inv s -> before_bootstrap (state s) = false ->
  accept_transition s m = Ok (n, w, c, s') ->
  keeps s s' /\ state s' = state s /\ guest_wire s' = guest_wire s /\ before_bootstrap n = false /\
  at_most (host_wire s') w /\ all_at_most (host_wire s') (default [] c).
Proof.
  intros Hi Hb Ht.
  assert (forall t r, keeps s (s <| s_terminal := t |> <| terminal_stop_request := r |>)) as Hk
    by (intros t r []; split; split; keep_field).
  assert (at_most (host_wire s) (Some (accepted_host_wire s))) as Ha by apply (inv_accepted _ Hi).
  pose proof (inv_candidates _ Hi) as Hc. pose proof (inv_stop_wire _ Hi) as Hs.
  pose proof (or_zero_at_most _ _ Hs) as Hs0. pose proof (inv_pending_wire _ Hi) as Hp. pose proof (inv_accepted _ Hi).
  unfold accept_transition in Ht. destruct (state s) eqn:Es; try done; destruct (m_payload m); try done.
  - destruct (bool_decide _); [|done]. paths. simplify_eq. transition_goals.
  - destruct (bool_decide _); [|done]. paths. simplify_eq. transition_goals.
  - destruct (in_none_or _ _); [|done]. apply (inj Ok) in Ht. unfold accept_stop_terminal in Ht.
    assert (all_at_most (host_wire s) (set_add (accepted_host_wire s) [or_zero (stop_wire s)])) as Hb1.
    { apply set_add_Forall; [lia|]. constructor; [|done]. apply Hs0. lia. }
    assert (all_at_most (host_wire s) [accepted_host_wire s]) as Hb2 by (constructor; [lia|done]).
    destruct (m_reply_to m); [destruct (_ && _)|]; simplify_eq; transition_goals.
  - destruct (bool_decide _); [|done]. unfold accept_snapshot in Ht.
    repeat match type of Ht with (if ?b then _ else _) = _ => destruct b; [discriminate Ht|] end.
    apply (inj Ok) in Ht. destruct (l_state l); simplify_eq; transition_goals.
Qed.

Lemma settle_keeps s m n a c : guest_wire s <= m_wire_sequence m -> before_bootstrap (state s) = false ->
  before_bootstrap n = false -> at_most (host_wire s) a -> all_at_most (host_wire s) (default [] c) ->
  keeps s (settle m (n, a, c, s)).
Proof.
  intros Hw Hb Hn Ha Hc []. pose proof (or_zero_at_most _ _ Ha ltac:(lia)).
  assert (n <> New) as Hne by (by intros ->).
  unfold settle. destruct (m_payload m); try destruct l as [[] ? ?];
    split; split; keep_field; rewrite ?Hb, ?Hn in *; try done; constructor.
Qed.

Lemma key_after_bootstrap s k : session_inv s -> key s = Some k -> before_bootstrap (state s) = false.
Proof.
  intros Hi Ek. pose proof (inv_key _ Hi) as Hk. rewrite Ek in Hk.
  destruct (before_bootstrap (state s)); [|done]. by pose proof (proj2 Hk eq_refl).
Qed.

Lemma accept_guest_keeps s e s' r : accept_guest s e = (s', r) -> keeps s s'.
Proof.
  intros Hh Hi. revert Hh. unfold accept_guest.
  destruct (key s) as [k|] eqn:Ek; [|intros Hh; revert Hi; fold (keeps s s'); rejected].
  pose proof (key_after_bootstrap _ _ Hi Ek) as Hb.
  intros Hh. destruct (boot_generation s); [|revert Hi; fold (keeps s s'); rejected].
  destruct (verify_message_authentication _ _ _); [|revert Hi; fold (keeps s s'); rejected].
  destruct (_ || _); [revert Hi; fold (keeps s s'); rejected|].
  destruct (_ || _); [revert Hi; fold (keeps s s'); rejected|].
  destruct (m_wire_sequence (e_body e) <=? guest_wire s) eqn:G; [revert Hi; fold (keeps s s'); rejected|].
  bool_norm.
  assert (forall r', (match accept_transition s (e_body e) with
                 | Ok t => (settle (e_body e) t, Ok tt) | Err x => (s, Err x) end) = (s', r') ->
    keeps s s') as Ht.
  { clear Hh. intros r' Hr. destruct (accept_transition s (e_body e)) as [[[[n w] c] s1]|x] eqn:Et; [|rejected].
    destruct (accept_transition_spec _ _ _ _ _ _ Hi Hb Et) as (Hk & Hs & Hg & Hn & Hw & Hc).
    eapply keeps_trans; [exact Hk|]. paths; subst. apply settle_keeps; first [done | lia | by rewrite Hs]. }
  revert Hi. fold (keeps s s').
  destruct (m_kind (e_body e));
    first [ eapply accept_exec_keeps; [done|done|exact Hh]
          | destruct (bool_decide _ && bool_decide _); [rejected|by eapply Ht] ].
Qed.

Lemma accept_keeps s e s' r : accept s e = (s', r) -> keeps s s'.
Proof.
  unfold accept. intros Hh. destruct (bool_decide _); [rejected|].
  destruct (m_payload (e_body e)); first [by eapply accept_bootstrap_keeps | by eapply accept_guest_keeps].
Qed.

(** * Boundaries *)

Lemma boundary_expectation_bound s m b x : session_inv s -> boundary_expectation s m b = Ok x ->
  all_at_most (host_wire s) (expected_host_wires x).
Proof.
  intros Hi Hx. pose proof (inv_accepted _ Hi) as Ha. pose proof (inv_candidates _ Hi) as Hc.
  pose proof (or_zero_at_most _ _ (inv_pending_wire _ Hi) ltac:(lia)) as Hp.
  pose proof (or_zero_at_most _ _ (inv_stop_wire _ Hi) ltac:(lia)) as Hs.
  pose proof (inv_accepted_candidates _ Hi) as Hac.
  assert (forall z, 0 <= z <= host_wire s -> all_at_most (host_wire s) [z]) as H1
    by (intros z Hz; by apply Forall_singleton).
  assert (all_at_most (host_wire s) match accepted_host_wire_candidates s with
             | Some (z :: zs) => z :: zs | _ => [accepted_host_wire s] end) as H2.
  { destruct (accepted_host_wire_candidates s) as [[|]|]; auto. }
  unfold boundary_expectation in Hx. destruct (state s).
  all: try (apply (inj Ok) in Hx as <-; cbn [expected_host_wires]; by auto).
  - apply (inj Ok) in Hx as <-. cbn [expected_host_wires]. unfold stop_sent_host_wires.
    repeat case_match; try done; repeat apply set_add_Forall; auto.
  - destruct (Bool.eqb _ _); [done|]. apply (inj Ok) in Hx as <-. cbn [expected_host_wires].
    assert (forall c : bool, 0 <= (if c then or_zero (pending_host_wire s) else accepted_host_wire s) <= host_wire s)
      as Hif by (intros []; lia). apply H1, Hif.
Qed.

Lemma settle_stop_wires_bound s l c w b : all_at_most b (stop_wire_candidates s) -> 0 <= c <= b ->
  settle_stop_wires s l c = Some w -> all_at_most b w.
Proof.
  intros Hs Hc. unfold settle_stop_wires. repeat case_match; intros Hw; simplify_eq; try done;
    first [by apply Forall_singleton | constructor].
Qed.

(** What a boundary that passes every check satisfies. *)
Lemma check_boundary_spec s e line b x d : check_boundary s e line = Ok (b, x, d) ->
  exec_request s = None /\ key s <> None /\ m_payload (e_body e) = PBoundaryAck b /\
  m_epoch (e_body e) = s_epoch s + 1 /\ guest_wire s < m_wire_sequence (e_body e) /\
  state s ∈ states_for_boundary /\ boundary_expectation s (e_body e) b = Ok x /\ allowed x = true /\
  b_last_accepted_h2g b ∈ expected_host_wires x /\ encode_boundary_line e = Ok line /\
  b_boundary_id b ∉ used_boundary_ids s.
Proof.
  unfold check_boundary. intros Hc.
  destruct (bool_decide (exec_request s <> None)) eqn:G0; [done|]. bool_norm. apply dec_stable in G0.
  destruct (check_boundary_identity s e) as [b'|] eqn:Ei; cbn [result_bind] in Hc; [|done].
  destruct (boundary_expectation s (e_body e) b') as [x'|] eqn:Ex; cbn [result_bind] in Hc; [|done].
  destruct (_ && _); [done|]. destruct (negb (allowed x')) eqn:Ga; [done|].
  destruct (negb (bool_decide (_ ∈ expected_host_wires x'))) eqn:Gw; [done|].
  destruct (encode_boundary_line e) as [cl|] eqn:El; cbn [result_bind] in Hc; [|done].
  destruct (bool_decide (line <> cl)) eqn:Gl; [done|].
  destruct (bool_decide (_ ∈ used_boundary_ids s)) eqn:Gb; [done|].
  destruct (canonical_json_bytes _); cbn [result_bind] in Hc; [|done].
  apply (inj Ok) in Hc. simplify_eq. bool_norm. apply dec_stable in Gl as ->.
  unfold check_boundary_identity in Ei. destruct (key s); [|done]. destruct (boot_generation s); [|done].
  destruct (verify_message_authentication _ _ _); cbn [result_bind] in Ei; [|done].
  destruct (m_payload (e_body e)); try done.
  repeat match type of Ei with (if ?g then _ else _) = _ => destruct g eqn:?; [discriminate Ei|] end.
  apply (inj Ok) in Ei as <-. bool_norm. done.
Qed.

Lemma finish_boundary_keeps s x l : keeps s (finish_boundary s x l).
Proof.
  unfold finish_boundary. destruct (state s) eqn:Es; try apply keeps_refl.
  - destruct (l_state l); intros []; split; split; keep_field; rewrite Es in *; done.
  - assert (at_most (request s) (pending_request s) -> at_most (request s)
      match reconnect_was_accepted x with Some true => None | _ => pending_request s end) as Hr
      by (intros; by destruct (reconnect_was_accepted x) as [[]|]).
    destruct (l_state l); intros []; specialize (Hr inv_pending_request0); split; split; keep_field;
      rewrite Es in *; done.
Qed.

Lemma admit_boundary_keeps s e line s' r : admit_boundary s e line = (s', r) -> keeps s s'.
Proof.
  unfold admit_boundary. intros Hh.
  destruct (check_boundary s e line) as [[[b x] d]|] eqn:Ec; [|rejected].
  apply check_boundary_spec in Ec as (_ & Hk & _ & He & Hg & Hst & Hx & _ & Hc & _ & Hid).
  intros Hi. pose proof (boundary_expectation_bound _ _ _ _ Hi Hx) as Hb.
  unfold all_at_most in Hb. rewrite Forall_forall in Hb. specialize (Hb _ Hc). cbn beta in Hb.
  assert (before_bootstrap (state s) = false) as Hbb.
  { clear -Hst. unfold states_for_boundary in Hst. destruct (state s); set_solver. }
  set (s1 := s <| used_boundary_ids := _ |> <| s_epoch := _ |> <| guest_wire := _ |>
               <| accepted_host_wire := _ |> <| accepted_host_wire_candidates := _ |>) in Hh.
  assert (keeps s s1 /\ before_bootstrap (state s1) = false) as [Hk1 Hb1].
  { split; [|done]. unfold s1. clear Hh. intros []. split; split; keep_field; rewrite ?Hbb in *; try constructor; try done. by exists [b_boundary_id b]. }
  revert Hi. fold (keeps s s'). eapply keeps_trans; [exact Hk1|].
  assert (host_wire s1 = host_wire s) as Hhw by done. rewrite <- Hhw in Hb.
  clearbody s1.
  destruct (settle_stop_wires s1 _ _) as [w|] eqn:Ew; [|rejected].
  intros Hi. pose proof (settle_stop_wires_bound _ _ _ _ _ (inv_candidates _ Hi) Hb Ew) as Hw. revert Hi.
  fold (keeps s1 s').
  apply pair_equal_spec in Hh as [<- _].
  eapply keeps_trans; [|apply finish_boundary_keeps].
  set (s2 := s1 <| stop_wire_candidates := w |>).
  assert (keeps s1 s2) as Hk2 by (intros []; split; split; keep_field).
  eapply keeps_trans; [exact Hk2|]. clearbody s2. destruct (reconnect_was_accepted x) as [[]|];
    intros []; split; split; keep_field.
Qed.

(** * Runs *)

Lemma session_init_inv b a s : session_init b a = Ok s -> session_inv s.
Proof.
  unfold session_init. intros Hs. destruct (v_uuid a _); cbn [result_bind] in Hs; [|done].
  apply (inj Ok) in Hs as <-. split; proj; try done; try lia; constructor.
Qed.

Lemma step_keeps s s' : step s s' -> keeps s s'.
Proof.
  destruct 1; eauto using hello_keeps, key_ack_keeps, admit_boundary_keeps, reconnect_keeps, exec_keeps,
    stop_keeps, retry_stop_keeps, accept_keeps.
Qed.

Lemma steps_keep s s' : steps s s' -> keeps s s'.
Proof.
  induction 1 as [s|s1 s2 s3 Hs _ IH]; [apply keeps_refl|].
  eapply keeps_trans; [by apply step_keeps|exact IH].
Qed.

(** * No message is accepted twice *)

Lemma accept_bootstrap_Ok s e k s' u : accept_bootstrap s e k = (s', Ok u) ->
  state s = HelloSent /\ before_bootstrap (state s') = false.
Proof.
  unfold accept_bootstrap. intros Hh. paths; subst; bool_norm. split; [by apply dec_stable|done].
Qed.

Lemma accept_exec_Ok s m s' u : accept_exec s m = (s', Ok u) -> guest_wire s' = m_wire_sequence m.
Proof.
  unfold accept_exec. intros Hh. paths; subst; done.
Qed.

Lemma settle_guest_wire m t : guest_wire (settle m t) = m_wire_sequence m.
Proof. destruct t as [[[n a] c] s]. unfold settle. destruct (m_payload m) as [| | | | | |[[] ? ?]| | | | |]; done. Qed.

Lemma accept_guest_Ok s e s' u : accept_guest s e = (s', Ok u) -> guest_wire s' = m_wire_sequence (e_body e).
Proof.
  unfold accept_guest. intros Hh. destruct (key s); [|paths]. destruct (boot_generation s); [|paths].
  destruct (verify_message_authentication _ _ _); [|paths].
  destruct (_ || _); [paths|]. destruct (_ || _); [paths|]. destruct (_ <=? _); [paths|].
  destruct (m_kind (e_body e));
    try (destruct (bool_decide _ && bool_decide _); [paths|];
         destruct (accept_transition s (e_body e)); paths; subst; apply settle_guest_wire).
  all: by eapply accept_exec_Ok.
Qed.

(** A message whose number is not new is refused. *)
Lemma accept_guest_stale s e : m_wire_sequence (e_body e) <= guest_wire s -> exists x, accept_guest s e = (s, Err x).
Proof.
  intros Hw. unfold accept_guest. destruct (key s); [|eauto]. destruct (boot_generation s); [|eauto].
  destruct (verify_message_authentication _ _ _); [|eauto].
  destruct (_ || _); [eauto|]. destruct (_ || _); [eauto|]. rewrite (proj2 (Z.leb_le _ _)) by done. eauto.
Qed.

Lemma accept_once s e s1 u s2 : session_inv s -> accept s e = (s1, Ok u) -> steps s1 s2 ->
  exists x, accept s2 e = (s2, Err x).
Proof.
  intros Hi Ha Hs. destruct (accept_keeps _ _ _ _ Ha Hi) as [Hi1 P1].
  destruct (steps_keep _ _ Hs Hi1) as [Hi2 P2].
  unfold accept in Ha |- *. destruct (bool_decide (m_binding (e_body e) <> s_binding s)) eqn:G; [paths|].
  rewrite (pr_binding _ _ P2), (pr_binding _ _ P1), G.
  assert (accept_guest s e = (s1, Ok u) -> exists x, accept_guest s2 e = (s2, Err x)) as Hg.
  { intros Hg%accept_guest_Ok. apply accept_guest_stale. rewrite <- Hg. apply (pr_guest_wire _ _ P2). }
  destruct (m_payload (e_body e)); try exact (Hg Ha).
  apply accept_bootstrap_Ok in Ha as [_ Hb]. destruct (pr_key _ _ P2 Hb) as (Hb2 & _).
  unfold accept_bootstrap. rewrite bool_decide_eq_true_2; [cbn [orb]; eauto|]. by destruct (state s2).
Qed.

(** A boundary is admitted at most once. *)
Lemma admit_boundary_id s e line s' u : admit_boundary s e line = (s', Ok u) ->
  exists b, m_payload (e_body e) = PBoundaryAck b /\ b_boundary_id b ∈ used_boundary_ids s'.
Proof.
  unfold admit_boundary. intros Hh. destruct (check_boundary s e line) as [[[b x] d]|] eqn:Ec; [|paths].
  apply check_boundary_spec in Ec as (_ & _ & Hp & _). exists b. split; [done|].
  destruct (settle_stop_wires _ _ _); [|paths]. apply pair_equal_spec in Hh as [<- _].
  unfold finish_boundary.
  destruct (reconnect_was_accepted x) as [[]|]; proj; destruct (state s), (l_state (b_lifecycle_state b)); proj;
    by left.
Qed.

Lemma admit_boundary_once s e line s1 u s2 line2 : session_inv s -> admit_boundary s e line = (s1, Ok u) ->
  steps s1 s2 -> exists x, admit_boundary s2 e line2 = (s2, Err x).
Proof.
  intros Hi Ha Hs. destruct (admit_boundary_keeps _ _ _ _ _ Ha Hi) as [Hi1 _].
  destruct (steps_keep _ _ Hs Hi1) as [_ P2]. destruct (admit_boundary_id _ _ _ _ _ Ha) as (b & Hb & Hid).
  unfold admit_boundary. destruct (check_boundary s2 e line2) as [[[b' x] d]|x] eqn:Ec; [|eauto].
  apply check_boundary_spec in Ec as (_ & _ & Hb' & _ & _ & _ & _ & _ & _ & _ & Hn).
  assert (b' = b) as -> by congruence. destruct Hn.
  destruct (pr_boundaries _ _ P2) as [k ->]. apply elem_of_app. by right.
Qed.

(** * Command output *)

(** The hexadecimal text an EXEC_OUTPUT message carries on a stream. *)
Definition output_of (st : stream) (e : envelope) : pystr :=
  match m_payload (e_body e) with
  | PExecOutput st' _ h => if bool_decide (st' = st) then h else []
  | _ => []
  end.

Fixpoint accept_all (s : session) (es : list envelope) : session * result unit :=
  match es with
  | [] => (s, Ok tt)
  | e :: es => match accept s e with
               | (s, Ok _) => accept_all s es
               | (s, Err x) => (s, Err x)
               end
  end.

Definition is_output (e : envelope) : Prop :=
  exists st offset h, m_payload (e_body e) = PExecOutput st offset h /\ exec_data_ok h = true.

Lemma accept_guest_exec s e s' u : accept_guest s e = (s', Ok u) -> m_kind (e_body e) ∈ [EXEC_OUTPUT; EXEC_EXIT] ->
  accept_exec s (e_body e) = (s', Ok u).
Proof.
  unfold accept_guest. intros Hh Hk. destruct (key s); [|paths]. destruct (boot_generation s); [|paths].
  destruct (verify_message_authentication _ _ _); [|paths].
  destruct (_ || _); [paths|]. destruct (_ || _); [paths|]. destruct (_ <=? _); [paths|].
  destruct (m_kind (e_body e)); set_solver.
Qed.

Lemma accept_output s e s' u st offset h : m_payload (e_body e) = PExecOutput st offset h ->
  accept s e = (s', Ok u) -> offset = stream_count s st /\
  stdout_count s' = stdout_count s + (if bool_decide (st = Stdout) then zlen h / 2 else 0) /\
  stderr_count s' = stderr_count s + (if bool_decide (st = Stderr) then zlen h / 2 else 0) /\
  exec_request s' = exec_request s.
Proof.
  intros Hp. unfold accept. destruct (bool_decide _); [done|]. rewrite Hp. intros Ha%accept_guest_exec.
  2: { unfold m_kind. rewrite Hp. by left. }
  unfold accept_exec in Ha. rewrite Hp in Ha. destruct (negb _ || _ || _); [paths|].
  destruct (negb (offset =? stream_count s st)) eqn:G; [paths|]. bool_norm.
  destruct (MAX_OCI_EXEC_OUTPUT_BYTES <? _); [paths|]. apply pair_equal_spec in Ha as [<- _].
  split; [done|]. destruct st; unfold add_output; proj; repeat case_bool_decide; try done; split_and!; lia || done.
Qed.

Lemma zlen_hex_half h : exec_data_ok h = true -> 2 * (zlen h / 2) = zlen h.
Proof.
  unfold exec_data_ok. intros Hh. bool_norm. pose proof (Z.div_mod (zlen h) 2 ltac:(lia)). lia.
Qed.

(** After any accepted outputs the counts are the lengths of what arrived. *)
Lemma accept_all_outputs es : forall s s', Forall is_output es -> accept_all s es = (s', Ok tt) ->
  2 * (stdout_count s' - stdout_count s) = zlen (concat (map (output_of Stdout) es)) /\
  2 * (stderr_count s' - stderr_count s) = zlen (concat (map (output_of Stderr) es)).
Proof.
  induction es as [|e es IH]; intros s s' Ho Ha; cbn [accept_all] in Ha.
  - paths; subst. cbn [map concat]. zlen_norm. lia.
  - inversion_clear Ho as [|? ? Ho1 Ho2]. destruct (accept s e) as [s1 [u|x]] eqn:E; [|paths].
    specialize (IH s1 s' Ho2 Ha). destruct Ho1 as (st & offset & h & Hp & Hh).
    destruct (accept_output _ _ _ _ _ _ _ Hp E) as (_ & H1 & H2 & _).
    pose proof (zlen_hex_half _ Hh). cbn [map concat]. rewrite !zlen_app. unfold output_of at 1 3. rewrite Hp.
    destruct st; repeat case_bool_decide; try done; zlen_norm; lia.
Qed.

Lemma accept_exit s e s' u t out err why : m_payload (e_body e) = PExecExit t out err why ->
  accept s e = (s', Ok u) -> out = stdout_count s /\ err = stderr_count s /\ exec_request s' = None.
Proof.
  intros Hp. unfold accept. destruct (bool_decide _); [done|]. rewrite Hp. intros Ha%accept_guest_exec.
  2: { unfold m_kind. rewrite Hp. right. by left. }
  unfold accept_exec in Ha. rewrite Hp in Ha. destruct (negb _ || _ || _); [paths|].
  destruct (negb (out =? stdout_count s) || negb (err =? stderr_count s)) eqn:G; [paths|]. bool_norm.
  by apply pair_equal_spec in Ha as [<- _].
Qed.

Lemma exec_starts_counts s argv t s' e : exec s argv t = (s', Ok e) ->
  stdout_count s' = 0 /\ stderr_count s' = 0 /\ exec_request s' = Some (request s') /\ request s' = request s + 1.
Proof. unfold exec. intros Hh. paths; subst; done. Qed.
End session.
