(* ===== verification/ControlV2Theorems.v ===== *)
(** The properties of the lifecycle control protocol v2 (wire, codec and host
    session), each with a concrete instance.  The instances hash with a checksum, which
    keeps their evaluation cheap; the theorems hold for any hash, FIPS SHA-256
    ([Sha256]) among them. *)
From S2P Require Import Prelude Crypto PyStr PyVal Utf8 Json Regex Digest ControlV2Wire ControlV2Message ControlV2Codec ControlV2Session ControlV2SessionInv.

Section theorems.
Context `{Hash}.

(** * Wire *)

(** C4: a frame written for a well-formed envelope is decoded to that envelope. *)
Theorem frame_roundtrip e f : envelope_ok e -> encode_frame e = Ok f -> decode_frame f = Ok e.
Proof.
  intros He (p & Hp & Hne & Hl & ->)%encode_frame_Ok. unfold decode_frame.
  assert (take 4 (pack_u32 (zlen p) ++ p) = pack_u32 (zlen p)) as -> by done.
  assert (drop 4 (pack_u32 (zlen p) ++ p) = p) as -> by done.
  rewrite unpack_pack_payload by done. zlen_norm. change (zlen (pack_u32 (zlen p))) with 4.
  assert (0 < zlen p) by (destruct p; [done|]; zlen_norm; pose proof (zlen_nonneg p); lia).
  rewrite (proj2 (Z.ltb_ge _ _)), (proj2 (Z.eqb_neq _ _)), (proj2 (Z.ltb_ge _ _)) by lia.
  rewrite (proj2 (Z.eqb_eq (4 + zlen p) _)) by lia. by apply decode_payload_complete.
Qed.

(** What the decoder accepts is exactly the canonical encoding of the
    envelope it returns, within the size limit: no two payloads decode alike. *)
Theorem decode_payload_canonical p e : decode_payload p = Ok e ->
  canonical_json_bytes (envelope_to_dict e) = Ok p /\ 0 < zlen p <= MAX_PAYLOAD_BYTES /\
  forall q, decode_payload q = Ok e -> q = p.
Proof.
  intros Hd. destruct (decode_payload_sound _ _ Hd) as [Hp Hl]. split; [done|]. split; [done|].
  intros q [Hq _]%decode_payload_sound. congruence.
Qed.

(** C30: the constructor of a message establishes the protocol's field invariant,
    per kind, on a strict payload: one whose ["signal"] is no float and whose
    committed ["terminal"], under ["lifecycle_state"], is absent or a mapping.
    Without it the code admits, by Python's [==] and [dict], a STOP signal [15.0] and
    a terminal that is a list of pairs, which the invariant excludes. *)
Theorem message_init_well_formed kv b attempt nonce epoch wire items request generation reply m :
  binding_ok b -> strict items ->
  message_init kv b attempt nonce epoch wire (VDict items) request generation reply = Ok m ->
  message_ok m.
Proof. apply message_init_ok. Qed.

(** [from_dict] reads back what [to_dict] wrote, with the keys in any order. *)
Theorem message_dict_roundtrip m : message_ok m ->
  message_from_dict (canon (VDict (message_to_dict m))) = Ok m.
Proof. apply message_from_dict_to_dict. Qed.

(** The incremental decoder, fed a chunk, is the byte-at-a-time parser. *)
Theorem feed_refines_bytes d data : decoder_ok d -> Forall is_byte data ->
  feed d data = feed_bytes d data /\ decoder_ok (feed d data).1 /\
  buffered_bytes (feed d data).1 <= MAX_PAYLOAD_BYTES.
Proof.
  intros Hd Hb. rewrite feed_is_feed_bytes by done. pose proof (feed_bytes_ok data d Hd Hb) as Hd'.
  split; [done|]. split; [done|]. unfold decoder_ok, buffered_bytes in *.
  destruct (d_expected (feed_bytes d data).1).
  - destruct Hd' as (-> & Hn & Hp & _). zlen_norm. lia.
  - destruct Hd' as (-> & Hh & _). zlen_norm. change MAX_PAYLOAD_BYTES with 65532. lia.
Qed.

(** C5: a stream of frames is decoded to its envelopes however it is cut. *)
Theorem chunked_stream_decodes es fs chunks : Forall envelope_ok es ->
  Forall2 (fun e f => encode_frame e = Ok f) es fs -> concat chunks = concat fs ->
  feed_chunks decoder_init chunks = (decoder_init, Ok es).
Proof.
  intros He Hf Hc. rewrite feed_chunks_bytes, Hc; [by apply feed_bytes_frames|apply decoder_init_ok|].
  assert (Forall is_byte (concat chunks)) as Hb.
  { rewrite Hc. apply Forall_concat. clear -Hf. induction Hf as [|e f es fs Hf _ IH]; constructor; [|done].
    by eapply encode_frame_bytes. }
  by apply Forall_concat.
Qed.

(** C17: the bytes under a tag determine the message and the carrier it was
    authenticated for. *)
Theorem mac_input_determines_message m n c c' b : message_ok m -> message_ok n ->
  mac_input m c = Ok b -> mac_input n c' = Ok b -> m = n /\ c = c'.
Proof. apply mac_input_injective. Qed.

(** An envelope verifies exactly when it is what signing its message yields. *)
Theorem verify_iff_signed e k c : envelope_ok e ->
  verify_message_authentication e k c = Ok tt <-> sign_message (e_body e) k c = Ok e.
Proof. apply verify_is_sign. Qed.

(** Subkeys are derived from contexts that separate boots, directions and
    carriers. *)
Theorem subkey_context_injective m n c c' b b' :
  canonical_json_bytes (subkey_binding m) = Ok b -> canonical_json_bytes (subkey_binding n) = Ok b' ->
  message_ok m -> message_ok n -> hkdf_info m c b = hkdf_info n c' b' ->
  direction m = direction n /\ c = c' /\ m_binding m = m_binding n /\
  m_boot_attempt_id m = m_boot_attempt_id n /\ m_boot_generation m = m_boot_generation n.
Proof. apply hkdf_info_injective. Qed.

(** The fields of a receipt: neither the payload nor the boot key nor the tag. *)
Definition receipt_fields : list pystr := map u
  ["authentication_verified"; "body_digest"; "boot_attempt_id"; "boot_generation"; "carrier"; "direction";
   "envelope_digest"; "epoch"; "host_nonce"; "key_id"; "kind"; "reply_to"; "request_id"; "size_bytes";
   "wire_sequence"; "root_identity"; "run_id"; "domain_core_digest"; "stage1_artifact_digest";
   "projection_digest"]%string.

(** A transcript is made only of an authenticated message (or an unsigned
    HELLO) in its canonical encoding, and exposes neither payload, key nor tag. *)
Theorem transcript_receipt_safe e encoded c k d : transcript_projection e encoded c k = Ok d ->
  dict_keys d ⊆ receipt_fields /\
  (m_kind (e_body e) <> HELLO ->
   exists key, k = Some key /\ verify_message_authentication e key c = Ok tt) /\
  (match c with CHANNEL_CARRIER => encode_frame e | CONSOLE_CARRIER => encode_boundary_line e end) = Ok encoded.
Proof.
  unfold transcript_projection. intros Ht.
  destruct (validate_carrier_kind _ _); cbn [result_bind] in Ht; [|done].
  destruct (bool_decide (encoded = [])); [done|].
  destruct (match m_kind (e_body e) with HELLO => _ | _ => _ end) as [v|] eqn:Ev; cbn [result_bind] in Ht; [|done].
  destruct (match c with CHANNEL_CARRIER => _ | CONSOLE_CARRIER => _ end) as [cn|] eqn:Ec;
    cbn [result_bind] in Ht; [|done].
  destruct (bool_decide (encoded <> cn)) eqn:G; [done|]. bool_norm. apply dec_stable in G as ->.
  destruct (canonical_json_bytes _); cbn [result_bind] in Ht; [|done].
  destruct (canonical_json_bytes _); cbn [result_bind] in Ht; [|done].
  apply (inj Ok) in Ht as <-. split; [|split; [|done]].
  - unfold dict_keys. destruct (m_payload (e_body e)) as [| | | | |[r|]| | | | | |]; cbn [app map fst];
      match goal with |- ?P => by apply (proj1 (bool_decide_eq_true P)) end.
  - intros Hk. rewrite not_hello_match in Ev by done. destruct k as [key|]; [|done]. exists key. split; [done|].
    destruct (verify_message_authentication e key c) as [[]|]; done.
Qed.

(** * Host session *)

(** A rejected guest message, or a rejected command, leaves the session as
    it was. *)
Theorem rejection_changes_nothing s e argv t s' x :
  accept s e = (s', Err x) \/ exec s argv t = (s', Err x) -> s' = s.
Proof. intros [Hx|Hx]; [by eapply accept_err|by eapply exec_err]. Qed.

(** C8: every reachable session satisfies the invariant: accepted wires were
    sent, nonces and boundaries are fresh and bounded, output within limits, a
    key exactly once BOOTSTRAP was authenticated. *)
Theorem reachable_session_inv b attempt s s' : session_init b attempt = Ok s -> steps s s' -> session_inv s'.
Proof. intros Hs Hr. apply (steps_keep _ _ Hr). by eapply session_init_inv. Qed.

(** No run of calls, accepted or refused, turns a counter back, forgets a
    nonce or a boundary, or replaces an authenticated key or boot generation. *)
Theorem reachable_progress s s' : session_inv s -> steps s s' -> progress s s'.
Proof. intros Hi Hr. by apply (steps_keep _ _ Hr). Qed.

(** C2: an accepted guest message is never accepted again. *)
Theorem accepted_once s e s1 s2 : session_inv s -> accept s e = (s1, Ok tt) -> steps s1 s2 ->
  exists x, accept s2 e = (s2, Err x).
Proof. intros Hi Ha Hr. by eapply accept_once. Qed.

(** An admitted boundary acknowledgement is never admitted again, whatever
    line presents it. *)
Theorem boundary_admitted_once s e line s1 s2 line2 : session_inv s ->
  admit_boundary s e line = (s1, Ok tt) -> steps s1 s2 -> exists x, admit_boundary s2 e line2 = (s2, Err x).
Proof. intros Hi Ha Hr. by eapply admit_boundary_once. Qed.

(** When a command's exit is accepted, the counts it reports are those of
    the bytes received on each stream since the command was sent. *)
Theorem exec_output_accounted s argv t s1 e outputs s2 x s3 term out err why :
  exec s argv t = (s1, Ok e) -> Forall is_output outputs -> accept_all s1 outputs = (s2, Ok tt) ->
  m_payload (e_body x) = PExecExit term out err why -> accept s2 x = (s3, Ok tt) ->
  2 * out = zlen (concat (map (output_of Stdout) outputs)) /\
  2 * err = zlen (concat (map (output_of Stderr) outputs)) /\ exec_request s3 = None.
Proof.
  intros He Ho Ha Hp Hx. destruct (exec_starts_counts _ _ _ _ _ He) as (H1 & H2 & _).
  destruct (accept_all_outputs _ _ _ Ho Ha) as [H3 H4].
  destruct (accept_exit _ _ _ _ _ _ _ _ Hp Hx) as (-> & -> & Hr).
  rewrite H1, H2, !Z.sub_0_r in *. done.
Qed.
End theorems.

(** * A concrete session *)

(** Thirty-two copies of a rolling checksum. *)
Definition checksum (m : bytes) : bytes :=
  replicate 32 (fold_left (fun a b => (31 * a + b + 7) mod 256) m 0).
Lemma checksum_length m : length (checksum m) = 32%nat.
Proof. apply length_replicate. Qed.
Lemma checksum_bytes m : Forall is_byte (checksum m).
Proof.
  apply Forall_replicate. unfold is_byte. assert (forall a, 0 <= a < 256 ->
    0 <= fold_left (fun a b => (31 * a + b + 7) mod 256) m a < 256) as Hf; [|by apply Hf].
  induction m as [|b m IH]; intros a Ha; [done|]. apply IH, Z.mod_pos_bound. lia.
Qed.
#[local] Instance checksum_hash : Hash :=
  {| sha256 := checksum; sha256_length := checksum_length; sha256_bytes := checksum_bytes |}.

Definition ex_uuid : pystr := u "00000000-0000-4000-8000-000000000001".
Definition ex_generation : pystr := u "00000000-0000-4000-8000-000000000002".
Definition ex_digest : pystr := u "sha256:" ++ replicate 64 97.
Definition ex_nonce : pystr := replicate 64 49.
Definition ex_key_hex : pystr := replicate 64 98.
Definition ex_key : bytes := replicate 32 187.
Definition ex_binding : binding := Binding ex_uuid ex_digest ex_digest.

Definition force {A} (d : A) (r : result A) : A := match r with Ok a => a | Err _ => d end.
Definition ex_hello : message :=
  Message ex_binding ex_uuid ex_nonce 1 1 PHello (Some 1) None None.
Definition ex_bootstrap : message :=
  Message ex_binding ex_uuid ex_nonce 1 1 (PBootstrap ex_key_hex) None (Some ex_generation) (Some 1).
Definition ex_output (wire offset : Z) : message :=
  Message ex_binding ex_uuid ex_nonce 1 wire (PExecOutput Stdout offset (u "6869")) None (Some ex_generation) (Some 2).
Definition ex_exit : message :=
  Message ex_binding ex_uuid ex_nonce 1 4 (PExecExit (Some (Terminal (Some 0) None)) 2 0 Completed) None
    (Some ex_generation) (Some 2).
Definition ex_ready : message :=
  Message ex_binding ex_uuid ex_nonce 1 2 (PReady None) None (Some ex_generation) (Some 2).
Definition signed (m : message) : envelope :=
  force (Envelope m None None) (sign_message m ex_key CHANNEL_CARRIER).
Definition plain (m : message) : envelope := Envelope m None None.

Definition ex_new : session :=
  force (Session ex_binding [] [] [] None None None None 0 0 None 0 0 None None VNone None 1 None None None None
           None None None None [] None None None None 0 0 New)
    (session_init ex_binding (VStr ex_uuid)).
Definition ex_hello_sent : session := (hello ex_new (VStr ex_nonce)).1.
Definition ex_keyed : session := (accept ex_hello_sent (signed ex_bootstrap)).1.
Definition ex_ready_session : session := (accept (key_ack ex_keyed).1 (signed ex_ready)).1.
Definition ex_running : session := (exec ex_ready_session (VTuple [VStr (u "id")]) (VInt 1000)).1.

Example ex_run :
  (accept ex_hello_sent (signed ex_bootstrap)).2 = Ok tt /\
  (accept (key_ack ex_keyed).1 (signed ex_ready)).2 = Ok tt /\
  is_ok (exec ex_ready_session (VTuple [VStr (u "id")]) (VInt 1000)).2 = true /\
  (accept_all ex_running [signed (ex_output 3 0); signed ex_exit]).2 = Ok tt.
Proof. vm_compute. repeat split. Qed.

Definition ex_frame : bytes := force [] (encode_frame (plain ex_hello)).
Definition ex_payload : bytes := drop 4 ex_frame.
Definition ex_boundary_state : lifecycle := Lifecycle SReady None VNone.
Definition ex_boundary : message :=
  Message ex_binding ex_uuid ex_nonce 2 3
    (PBoundaryAck (Boundary ex_uuid 0 0 0 2 3 ex_boundary_state 1
       (force [] (lifecycle_state_digest (VStr (u "ready")) VNone VNone))))
    None (Some ex_generation) (Some 1).
Definition signed_boundary : envelope := force (plain ex_boundary) (sign_message ex_boundary ex_key CONSOLE_CARRIER).
Definition ex_boundary_line : bytes := force [] (encode_boundary_line signed_boundary).
Definition ex_bounded : session := (admit_boundary ex_ready_session signed_boundary ex_boundary_line).1.

Lemma ex_binding_ok : binding_ok ex_binding.
Proof. split; [|split]; by vm_compute. Qed.

Lemma strict_nil : strict [].
Proof. split; [by intros f|exact I]. Qed.

Lemma ex_hello_ok : message_ok ex_hello.
Proof.
  apply (message_init_ok (VStr (u "HELLO")) ex_binding (VStr ex_uuid) (VStr ex_nonce) (VInt 1) (VInt 1) []
           (VInt 1) VNone VNone); [apply ex_binding_ok|apply strict_nil|by vm_compute].
Qed.

Lemma ex_ready_ok : message_ok ex_ready.
Proof.
  apply (message_init_ok (VStr (u "READY")) ex_binding (VStr ex_uuid) (VStr ex_nonce) (VInt 1) (VInt 2) []
           VNone (VStr ex_generation) (VInt 2)); [apply ex_binding_ok|apply strict_nil|by vm_compute].
Qed.

Lemma ex_plain_ok : envelope_ok (plain ex_hello).
Proof. split; [apply ex_hello_ok|done]. Qed.

Lemma ex_signed_ok : envelope_ok (signed ex_ready).
Proof.
  assert (e_body (signed ex_ready) = ex_ready) as Hb by (by vm_compute).
  split; rewrite Hb; [apply ex_ready_ok|]. cbn [m_kind payload_kind ex_ready m_payload].
  exists (force [] (key_identifier ex_key)), (force [] (authentication_tag ex_key ex_ready CHANNEL_CARRIER)).
  split; [by vm_compute|]. split; [by vm_compute|]. split; by vm_compute.
Qed.

(** * Instances *)

Lemma frame_roundtrip_witness :
  encode_frame (plain ex_hello) = Ok ex_frame /\ decode_frame ex_frame = Ok (plain ex_hello).
Proof.
  assert (encode_frame (plain ex_hello) = Ok ex_frame) as E by (by vm_compute).
  split; [exact E|]. exact (frame_roundtrip _ _ ex_plain_ok E).
Defined.

Lemma decode_payload_canonical_witness :
  canonical_json_bytes (envelope_to_dict (plain ex_hello)) = Ok ex_payload /\ 0 < zlen ex_payload <= MAX_PAYLOAD_BYTES /\
  forall q, decode_payload q = Ok (plain ex_hello) -> q = ex_payload.
Proof. apply (decode_payload_canonical ex_payload (plain ex_hello)). by vm_compute. Defined.

(** A BOUNDARY_ACK that commits a terminal state. *)
Definition ex_final_boundary : boundary :=
  Boundary ex_uuid 0 0 0 2 3 (Lifecycle STerminal (Some 7) (terminal_value (Terminal (Some 0) None))) 1
    (force [] (lifecycle_state_digest (VStr (u "terminal")) (VInt 7) (terminal_value (Terminal (Some 0) None)))).
Definition ex_final_items : list (pystr * pyval) :=
  match boundary_value ex_final_boundary with VDict items => items | _ => [] end.
Definition ex_final : message :=
  Message ex_binding ex_uuid ex_nonce 2 3 (PBoundaryAck ex_final_boundary) None (Some ex_generation) (Some 1).

Lemma message_init_well_formed_witness : binding_ok ex_binding /\ strict ex_final_items /\
  message_init (VStr (u "BOUNDARY_ACK")) ex_binding (VStr ex_uuid) (VStr ex_nonce) (VInt 2) (VInt 3) (VDict ex_final_items)
    VNone (VStr ex_generation) (VInt 1) = Ok ex_final /\ message_ok ex_final.
Proof.
  assert (strict ex_final_items) as Hs.
  { split; [intros f E; vm_compute in E; discriminate E|]. vm_compute. repeat constructor; set_solver. }
  assert (message_init (VStr (u "BOUNDARY_ACK")) ex_binding (VStr ex_uuid) (VStr ex_nonce) (VInt 2) (VInt 3) (VDict ex_final_items)
            VNone (VStr ex_generation) (VInt 1) = Ok ex_final) as Hi by (by vm_compute).
  split; [apply ex_binding_ok|]. split; [exact Hs|]. split; [exact Hi|].
  exact (message_init_well_formed _ _ _ _ _ _ _ _ _ _ _ ex_binding_ok Hs Hi).
Defined.

Lemma message_dict_roundtrip_witness :
  message_from_dict (canon (VDict (message_to_dict ex_ready))) = Ok ex_ready.
Proof. exact (message_dict_roundtrip ex_ready ex_ready_ok). Defined.

Lemma feed_refines_bytes_witness :
  feed decoder_init [0; 0; 1] = feed_bytes decoder_init [0; 0; 1] /\
  decoder_ok (feed decoder_init [0; 0; 1]).1 /\
  buffered_bytes (feed decoder_init [0; 0; 1]).1 <= MAX_PAYLOAD_BYTES.
Proof.
  apply (feed_refines_bytes decoder_init [0; 0; 1] decoder_init_ok).
  unfold is_byte. repeat (constructor; [lia|]). constructor.
Defined.

Lemma chunked_stream_decodes_witness :
  feed_chunks decoder_init [take 7 ex_frame; drop 7 ex_frame ++ ex_frame] =
  (decoder_init, Ok [plain ex_hello; plain ex_hello]).
Proof.
  apply (chunked_stream_decodes [plain ex_hello; plain ex_hello] [ex_frame; ex_frame]).
  - repeat constructor; apply ex_plain_ok.
  - repeat constructor; by vm_compute.
  - by vm_compute.
Defined.

(** The bytes under the tag of a READY are those of no other message, and of no other
    carrier. *)
Lemma mac_input_determines_message_witness : exists b,
  message_ok ex_ready /\ mac_input ex_ready CHANNEL_CARRIER = Ok b /\ is_ok (mac_input ex_ready CONSOLE_CARRIER) = true /\
  mac_input ex_ready CONSOLE_CARRIER <> Ok b /\
  forall n c, message_ok n -> mac_input n c = Ok b -> n = ex_ready /\ c = CHANNEL_CARRIER.
Proof.
  assert (is_ok (mac_input ex_ready CHANNEL_CARRIER) = true) as Hok by (by vm_compute).
  destruct (mac_input ex_ready CHANNEL_CARRIER) as [b|e] eqn:Eb; [|discriminate Hok].
  exists b. split; [exact ex_ready_ok|]. split; [exact eq_refl|]. split; [by vm_compute|].
  assert (forall n c, message_ok n -> mac_input n c = Ok b -> n = ex_ready /\ c = CHANNEL_CARRIER) as Hall
    by (intros n c Hn E; exact (mac_input_determines_message n ex_ready c CHANNEL_CARRIER b Hn ex_ready_ok E Eb)).
  split; [|exact Hall]. intros E. destruct (Hall ex_ready CONSOLE_CARRIER ex_ready_ok E) as [_ Hc].
  assert (bool_decide (CONSOLE_CARRIER = CHANNEL_CARRIER) = false) as Hd by (by vm_compute). by rewrite Hc, bool_decide_eq_true_2 in Hd.
Defined.

Lemma verify_iff_signed_witness :
  verify_message_authentication (signed ex_ready) ex_key CHANNEL_CARRIER = Ok tt <->
  sign_message (e_body (signed ex_ready)) ex_key CHANNEL_CARRIER = Ok (signed ex_ready).
Proof. exact (verify_iff_signed _ _ _ ex_signed_ok). Defined.

Lemma subkey_context_injective_witness :
  direction ex_ready = direction ex_ready /\ CHANNEL_CARRIER = CHANNEL_CARRIER /\
  m_binding ex_ready = m_binding ex_ready /\ m_boot_attempt_id ex_ready = m_boot_attempt_id ex_ready /\
  m_boot_generation ex_ready = m_boot_generation ex_ready.
Proof.
  apply (subkey_context_injective ex_ready ex_ready CHANNEL_CARRIER CHANNEL_CARRIER
           (force [] (canonical_json_bytes (subkey_binding ex_ready)))
           (force [] (canonical_json_bytes (subkey_binding ex_ready)))); try (by vm_compute); apply ex_ready_ok.
Defined.

Lemma transcript_receipt_safe_witness :
  let d := force [] (transcript_projection (signed ex_ready) (force [] (encode_frame (signed ex_ready)))
                       CHANNEL_CARRIER (Some ex_key)) in
  dict_keys d ⊆ receipt_fields /\
  (m_kind (e_body (signed ex_ready)) <> HELLO ->
   exists key, Some ex_key = Some key /\
     verify_message_authentication (signed ex_ready) key CHANNEL_CARRIER = Ok tt) /\
  encode_frame (signed ex_ready) = Ok (force [] (encode_frame (signed ex_ready))).
Proof.
  apply (transcript_receipt_safe (signed ex_ready) (force [] (encode_frame (signed ex_ready))) CHANNEL_CARRIER).
  by vm_compute.
Defined.

Lemma ex_keyed_inv : session_inv ex_keyed.
Proof.
  apply (accept_keeps ex_hello_sent (signed ex_bootstrap) _ (Ok tt)); [by vm_compute|].
  apply (hello_keeps ex_new (VStr ex_nonce) _ (hello ex_new (VStr ex_nonce)).2); [by vm_compute|].
  apply (session_init_inv ex_binding (VStr ex_uuid)). by vm_compute.
Qed.

Lemma rejection_changes_nothing_witness : ex_ready_session = ex_ready_session.
Proof.
  apply (rejection_changes_nothing ex_ready_session (signed ex_ready) VNone VNone _
           "guest lifecycle wire ordering is stale"). left. by vm_compute.
Defined.

Lemma reachable_session_inv_witness : session_inv ex_hello_sent.
Proof.
  apply (reachable_session_inv ex_binding (VStr ex_uuid) ex_new); [by vm_compute|].
  apply rtc_once, (step_hello ex_new (VStr ex_nonce) _ (hello ex_new (VStr ex_nonce)).2). by vm_compute.
Defined.

Lemma reachable_progress_witness : progress ex_keyed (key_ack ex_keyed).1.
Proof.
  apply (reachable_progress _ _ ex_keyed_inv). apply rtc_once, (step_key_ack _ _ (key_ack ex_keyed).2).
  by vm_compute.
Defined.

Lemma ex_acked_inv : session_inv (key_ack ex_keyed).1.
Proof. apply (key_ack_keeps ex_keyed _ (key_ack ex_keyed).2); [by vm_compute|apply ex_keyed_inv]. Qed.

Lemma ex_ready_inv : session_inv ex_ready_session.
Proof.
  apply (accept_keeps (key_ack ex_keyed).1 (signed ex_ready) _ (Ok tt)); [by vm_compute|apply ex_acked_inv].
Qed.

Lemma accepted_once_witness : exists x, accept ex_ready_session (signed ex_ready) = (ex_ready_session, Err x).
Proof.
  apply (accepted_once (key_ack ex_keyed).1 (signed ex_ready) ex_ready_session ex_ready_session ex_acked_inv);
    [by vm_compute|apply rtc_refl].
Defined.

Lemma boundary_admitted_once_witness :
  exists x, admit_boundary ex_bounded signed_boundary ex_boundary_line = (ex_bounded, Err x).
Proof.
  apply (boundary_admitted_once ex_ready_session signed_boundary ex_boundary_line ex_bounded ex_bounded
           ex_boundary_line ex_ready_inv); [by vm_compute|apply rtc_refl].
Defined.

Lemma exec_output_accounted_witness :
  let outputs := [signed (ex_output 3 0)] in
  let s2 := (accept_all ex_running outputs).1 in
  2 * 2 = zlen (concat (map (output_of Stdout) outputs)) /\
  2 * 0 = zlen (concat (map (output_of Stderr) outputs)) /\ exec_request (accept s2 (signed ex_exit)).1 = None.
Proof.
  apply (exec_output_accounted ex_ready_session (VTuple [VStr (u "id")]) (VInt 1000) ex_running
           (force (plain ex_hello) (exec ex_ready_session (VTuple [VStr (u "id")]) (VInt 1000)).2)
           [signed (ex_output 3 0)] (accept_all ex_running [signed (ex_output 3 0)]).1 (signed ex_exit)
           (accept (accept_all ex_running [signed (ex_output 3 0)]).1 (signed ex_exit)).1 (Some (Terminal (Some 0) None)) 2 0 Completed);
    try (by vm_compute).
  constructor; [|constructor]. exists Stdout, 0, (u "6869"). by vm_compute.
Defined.

(** * A boundary after the end

    Once a guest has reported TERMINAL, [accept] refuses a SNAPSHOT that says
    otherwise ("reconnect lifecycle state regressed").  [admit_boundary] has no
    such check: in the run below the session is terminated by an authenticated
    message, reconnects with the boundary it holds from before, and the next
    authenticated boundary makes it ready again. *)
Definition ex_terminal : message :=
  Message ex_binding ex_uuid ex_nonce 2 4 (PTerminal (Terminal (Some 0) None)) None (Some ex_generation) None.
Definition ex_terminated : session := (accept ex_bounded (signed ex_terminal)).1.
Definition ex_reconnecting : session := (reconnect ex_terminated (VStr (replicate 64 50))).1.
Definition ex_boundary2 : message :=
  Message ex_binding ex_uuid ex_nonce 3 5
    (PBoundaryAck (Boundary ex_generation 0 0 0 2 5 ex_boundary_state 2
       (force [] (lifecycle_state_digest (VStr (u "ready")) VNone VNone))))
    None (Some ex_generation) (Some 1).
Definition signed_boundary2 : envelope :=
  force (plain ex_boundary2) (sign_message ex_boundary2 ex_key CONSOLE_CARRIER).

(** A session ended by an authenticated TERMINAL can become ready again
    through an authenticated boundary. *)
Lemma terminated_session_is_ready_again :
  (accept ex_bounded (signed ex_terminal)).2 = Ok tt /\ state ex_terminated = Terminated /\
  let s := admit_boundary ex_reconnecting signed_boundary2 (force [] (encode_boundary_line signed_boundary2)) in
  s.2 = Ok tt /\ state s.1 = Ready.
Proof. split; [by vm_compute|]. split; [by vm_compute|]. split; by vm_compute. Qed.
