(* ===== verification/ControlV1.v ===== *)
(** The lifecycle control protocol v1 ([oci_control_protocol.py]): messages,
    the canonical encoding, the incremental decoder and the host session.  The
    field validators are those of protocol v2, which the two modules write out
    with the same code. *)
From S2P Require Import Prelude Crypto PyStr PyVal Utf8 Json Regex Digest ControlV2Wire.

(** * Constants and validators *)

Definition OCI_CONTROL_PROTOCOL : string := "palimpsest.oci-lifecycle-control.v1".
Definition OCI_CONTROL_CHANNEL_NAME : string := "org.palimpsest.oci.lifecycle.0".
Definition v1_MAX_PAYLOAD_BYTES : Z := 64 * 1024 - 4.

(** [_KINDS] *)
Inductive v1_kind := V1_HELLO | V1_READY | V1_SNAPSHOT | V1_STOP | V1_TERMINAL.
#[export] Instance v1_kind_eq_dec : EqDecision v1_kind.
Proof. solve_decision. Defined.
Definition v1_kind_name (k : v1_kind) : string :=
  match k with
  | V1_HELLO => "HELLO" | V1_READY => "READY" | V1_SNAPSHOT => "SNAPSHOT" | V1_STOP => "STOP"
  | V1_TERMINAL => "TERMINAL"
  end.
Definition v1_kinds : list v1_kind := [V1_HELLO; V1_READY; V1_SNAPSHOT; V1_STOP; V1_TERMINAL].

(** [kind not in _KINDS]: a list or a mapping is not hashable. *)
Definition v1_lookup_kind (value : pyval) : result v1_kind :=
  match value with
  | VStr s => match List.find (fun k => bool_decide (s = u (v1_kind_name k))) v1_kinds with
              | Some k => Ok k
              | None => Err "lifecycle message kind is invalid"
              end
  | VList _ | VDict _ => Err "TypeError: unhashable type"
  | _ => Err "lifecycle message kind is invalid"
  end.

(** [_exact_object], [_canonical_uuid], [_counter], [_digest], the nonce check *)
Definition exact_object : pyval -> list string -> string -> result (list (pystr * pyval)) := v_exact.
Definition canonical_uuid : pyval -> string -> result pystr := v_uuid.
Definition v1_counter : pyval -> string -> result Z := v_counter.
Definition v1_digest : pyval -> string -> result pystr := v_digest.
Definition v1_nonce (value : pyval) : result pystr := v_hex32 value "host nonce".

(** [_terminal] *)
Definition v1_terminal (value : pyval) : result terminal :=
  let? d := exact_object value ["exit_code"; "signal"] "terminal" in
  let exit_code := d.["exit_code"] in
  let signal := d.["signal"] in
  raise "terminal status must contain exactly one result"
    when Bool.eqb (is_none exit_code) (is_none signal) ;;
  match exit_code with
  | VNone =>
      let? s := v_int_range signal 1 64 "terminal signal is invalid" in
      Ok (Terminal None (Some s))
  | _ =>
      let? e := v_int_range exit_code 0 255 "terminal exit code is invalid" in
      Ok (Terminal (Some e) None)
  end.

(** [OCIControlBinding.__post_init__] *)
Definition v1_binding_init (r d s : pyval) : result binding :=
  let? r := canonical_uuid r "run ID" in
  let? d := v1_digest d "domain-core digest" in
  let? s := v1_digest s "stage-1 artifact digest" in
  Ok (Binding r d s).

(** * Messages *)

(** The payload of each kind; a snapshot is the state, the STOP request and the
    terminal status. The STOP signal is kept as received. *)
Inductive v1_payload :=
| P1Hello
| P1Ready
| P1Snapshot (state : lname) (stop_request_id : option Z) (term : option terminal)
| P1Stop (signal : pyval)
| P1Terminal (term : terminal).

Definition v1_payload_kind (p : v1_payload) : v1_kind :=
  match p with
  | P1Hello => V1_HELLO | P1Ready => V1_READY | P1Snapshot _ _ _ => V1_SNAPSHOT | P1Stop _ => V1_STOP
  | P1Terminal _ => V1_TERMINAL
  end.

Record v1_message := Message1 {
  m1_binding : binding;
  m1_host_nonce : pystr;
  m1_payload : v1_payload;
  m1_request_id : option Z;
  m1_sequence : option Z;
  m1_boot_generation : option pystr;
  m1_reply_to : option Z;
}.
Definition m1_kind (m : v1_message) : v1_kind := v1_payload_kind (m1_payload m).

(** The [SNAPSHOT] branch. *)
Definition v1_check_snapshot (items : list (pystr * pyval)) : result v1_payload :=
  let state := items.["state"] in
  let? d := exact_object (VDict items) ["state"; "stop_request_id"; "terminal"] "SNAPSHOT payload" in
  let stop_id := d.["stop_request_id"] in
  let term := d.["terminal"] in
  if py_eqb state (VStr (u "ready")) && is_none term && is_none stop_id then
    Ok (P1Snapshot SReady None None)
  else if py_eqb state (VStr (u "terminal")) then
    let? t := v1_terminal term in
    let? stop := match stop_id with
                 | VNone => Ok None
                 | v => let? c := v1_counter v "snapshot STOP request ID" in Ok (Some c)
                 end in
    Ok (P1Snapshot STerminal stop (Some t))
  else if py_eqb state (VStr (u "stopping")) && is_none term then
    let? c := v1_counter stop_id "snapshot STOP request ID" in
    Ok (P1Snapshot SStopping (Some c) None)
  else Err "SNAPSHOT state is invalid".

(** The branch of a kind the guest sends. *)
Definition v1_check_event (k : v1_kind) (items : list (pystr * pyval))
    (request_id sequence boot_generation reply_to : pyval) : result (v1_payload * Z * pystr * option Z) :=
  let? seq := v1_counter sequence "sequence" in
  let? generation := canonical_uuid boot_generation "boot generation" in
  raise (v1_kind_name k ++ " fields are invalid")%string when negb (is_none request_id) ;;
  let? reply :=
    match k, reply_to with
    | V1_TERMINAL, VNone => Ok None
    | _, v => let? r := v1_counter v "reply-to request ID" in Ok (Some r)
    end in
  let? p :=
    match k with
    | V1_READY => let? _ := exact_object (VDict items) [] "READY payload" in Ok P1Ready
    | V1_TERMINAL =>
        let? d := exact_object (VDict items) ["terminal"] "TERMINAL payload" in
        let? t := v1_terminal (d.["terminal"]) in
        Ok (P1Terminal t)
    | _ => v1_check_snapshot items
    end in
  Ok (p, seq, generation, reply).

(** [OCIControlMessage.__post_init__] *)
Definition v1_message_init (kind_value : pyval) (b : binding) (host_nonce data request_id sequence
    boot_generation reply_to : pyval) : result v1_message :=
  let? k := v1_lookup_kind kind_value in
  let? nonce := v1_nonce host_nonce in
  match data with
  | VDict items =>
      match k with
      | V1_HELLO =>
          let? _ := exact_object data [] "HELLO payload" in
          let? request := v1_counter request_id "request ID" in
          raise "HELLO fields are invalid"
            when negb (is_none sequence) || negb (is_none boot_generation) || negb (is_none reply_to) ;;
          Ok (Message1 b nonce P1Hello (Some request) None None None)
      | V1_STOP =>
          let? d := exact_object data ["signal"] "STOP payload" in
          raise "STOP signal must be SIGTERM" when negb (py_eqb (d.["signal"]) (VInt 15)) ;;
          let? request := v1_counter request_id "request ID" in
          let? generation := canonical_uuid boot_generation "boot generation" in
          raise "STOP fields are invalid" when negb (is_none sequence) || negb (is_none reply_to) ;;
          Ok (Message1 b nonce (P1Stop (d.["signal"])) (Some request) None (Some generation) None)
      | _ =>
          let? ' (p, seq, generation, reply) := v1_check_event k items request_id sequence boot_generation reply_to in
          Ok (Message1 b nonce p None (Some seq) (Some generation) reply)
      end
  | _ => Err "lifecycle message payload is invalid"
  end.

(** [_plain_object(self.payload)] *)
Definition v1_payload_value (p : v1_payload) : pyval :=
  match p with
  | P1Hello | P1Ready => VDict []
  | P1Snapshot state stop term =>
      VDict [(u "state", VStr (u (lname_name state))); (u "stop_request_id", opt_int stop);
             (u "terminal", match term with Some t => terminal_value t | None => VNone end)]
  | P1Stop signal => VDict [(u "signal", signal)]
  | P1Terminal t => VDict [(u "terminal", terminal_value t)]
  end.

(** [OCIControlMessage.to_dict] *)
Definition v1_to_dict (m : v1_message) : list (pystr * pyval) :=
  [(u "domain_core_digest", VStr (domain_core_digest (m1_binding m)));
   (u "host_nonce", VStr (m1_host_nonce m));
   (u "kind", VStr (u (v1_kind_name (m1_kind m))));
   (u "payload", v1_payload_value (m1_payload m));
   (u "run_id", VStr (run_id (m1_binding m)));
   (u "schema", VStr (u OCI_CONTROL_PROTOCOL));
   (u "stage1_artifact_digest", VStr (stage1_artifact_digest (m1_binding m)))]
  ++ match m1_kind m with
     | V1_HELLO => [(u "request_id", opt_int (m1_request_id m))]
     | V1_STOP => [(u "request_id", opt_int (m1_request_id m)); (u "boot_generation", opt_str (m1_boot_generation m))]
     | _ => [(u "boot_generation", opt_str (m1_boot_generation m)); (u "reply_to", opt_int (m1_reply_to m));
             (u "sequence", opt_int (m1_sequence m))]
     end.

(** [_COMMON_FIELDS] and the fields [from_dict] adds per kind *)
Definition COMMON_FIELDS : list string :=
  ["domain_core_digest"; "host_nonce"; "kind"; "run_id"; "schema"; "stage1_artifact_digest"].
Definition v1_fields (k : v1_kind) : list string :=
  COMMON_FIELDS ++ ["payload"%string] ++
  match k with
  | V1_HELLO => ["request_id"]
  | V1_STOP => ["boot_generation"; "request_id"]
  | _ => ["boot_generation"; "reply_to"; "sequence"]
  end%string.

(** [OCIControlMessage.from_dict] *)
Definition v1_from_dict (value : pyval) : result v1_message :=
  match value with
  | VDict items =>
      let? k := v1_lookup_kind (items.["kind"]) in
      let? d := exact_object value (v1_fields k) "lifecycle message" in
      raise "lifecycle protocol schema is unsupported"
        when negb (py_eqb (d.["schema"]) (VStr (u OCI_CONTROL_PROTOCOL))) ;;
      let? b := v1_binding_init (d.["run_id"]) (d.["domain_core_digest"]) (d.["stage1_artifact_digest"]) in
      v1_message_init (items.["kind"]) b (d.["host_nonce"]) (d.["payload"]) (d.["request_id"]) (d.["sequence"])
        (d.["boot_generation"]) (d.["reply_to"])
  | _ => Err "lifecycle message fields are invalid"
  end.

(** * Encoding and decoding *)

(** [_reject_pairs]: the [object_pairs_hook] of the decoder *)
Definition v1_duplicate_key : string := "lifecycle message contains a duplicate key".
Fixpoint v1_reject_pairs_from (seen pairs : list (pystr * pyval)) : result (list (pystr * pyval)) :=
  match pairs with
  | [] => Ok seen
  | (key, value) :: pairs =>
      raise v1_duplicate_key when bool_decide (key ∈ dict_keys seen) ;;
      v1_reject_pairs_from (seen ++ [(key, value)]) pairs
  end.
Definition v1_reject_pairs (pairs : list (pystr * pyval)) : result (list (pystr * pyval)) :=
  v1_reject_pairs_from [] pairs.

(** [json.loads] with every error but the duplicate key renamed *)
Definition v1_load_payload (payload : bytes) : result pyval :=
  match utf8_decode payload with
  | None => Err "lifecycle payload JSON is invalid"
  | Some text =>
      match loads v1_reject_pairs text with
      | Ok v => Ok v
      | Err e => if String.eqb e v1_duplicate_key then Err v1_duplicate_key
                 else Err "lifecycle payload JSON is invalid"
      end
  end.

Definition v1_decode_payload (payload : bytes) : result v1_message :=
  raise "lifecycle payload size is invalid"
    when bool_decide (payload = []) || (v1_MAX_PAYLOAD_BYTES <? zlen payload) ;;
  let? value := v1_load_payload payload in
  let? m := v1_from_dict value in
  match canonical_json_bytes (VDict (v1_to_dict m)) with
  | Err _ => Err "lifecycle payload is not canonical JSON"
  | Ok encoded =>
      raise "lifecycle payload must be canonical UTF-8 JSON" when bool_decide (encoded <> payload) ;;
      Ok m
  end.

Definition v1_encode_frame (m : v1_message) : result bytes :=
  match canonical_json_bytes (VDict (v1_to_dict m)) with
  | Err _ => Err "lifecycle message is not canonical JSON"
  | Ok payload =>
      raise "lifecycle frame exceeds 64 KiB"
        when bool_decide (payload = []) || (v1_MAX_PAYLOAD_BYTES <? zlen payload) ;;
      Ok (pack_u32 (zlen payload) ++ payload)
  end.

Definition v1_decode_frame (frame : bytes) : result v1_message :=
  raise "lifecycle frame is truncated" when zlen frame <? 4 ;;
  let length := unpack_u32 (take 4 frame) in
  raise "lifecycle frame length is invalid" when (length =? 0) || (v1_MAX_PAYLOAD_BYTES <? length) ;;
  raise "lifecycle frame is truncated or contains trailing bytes" when negb (zlen frame =? 4 + length) ;;
  v1_decode_payload (drop 4 frame).
