(* ===== verification/ControlV1Framing.v ===== *)
(** The incremental decoder of protocol v1 ([OCIControlFrameDecoder]), over any
    payload decoder: it is the byte-at-a-time parser, and a stream of frames is
    decoded alike however it is cut. *)
From S2P Require Import Prelude Crypto ControlV1.

Record v1_decoder := Decoder1 { d1_header : bytes; d1_payload : bytes; d1_expected : option Z }.
#[export] Instance v1_decoder_eta : Eta v1_decoder := fun d => Decoder1 (d1_header d) (d1_payload d) (d1_expected d).

Definition v1_decoder_init : v1_decoder := Decoder1 [] [] None.

Definition v1_buffered_bytes (d : v1_decoder) : Z := zlen (d1_header d) + zlen (d1_payload d).

Section framing.
Variable A : Type.
Variable decode : bytes -> result A.

(** The rest of one turn of the loop, once the length is known: the buffer is
    emptied before the payload is decoded. *)
Definition v1_feed_payload (d : v1_decoder) (expected : Z) (data : bytes) (messages : list A) :
    v1_decoder * result (list A * bytes) :=
  let count := Z.to_nat (Z.min (expected - zlen (d1_payload d)) (zlen data)) in
  let d := d <| d1_payload := d1_payload d ++ take count data |> in
  let data := drop count data in
  if zlen (d1_payload d) <? expected then (d, Ok (messages, data))
  else
    let payload := d1_payload d in
    let d := d <| d1_payload := [] |> <| d1_expected := None |> in
    let? m := decode payload from d in
    (d, Ok (messages ++ [m], data)).

(** One turn of [while cursor < len(view)]; [data] is what the cursor has not
    reached. *)
Definition v1_feed_turn (d : v1_decoder) (data : bytes) (messages : list A) :
    v1_decoder * result (list A * bytes) :=
  match d1_expected d with
  | Some expected => v1_feed_payload d expected data messages
  | None =>
      let count := Z.to_nat (Z.min (4 - zlen (d1_header d)) (zlen data)) in
      let d := d <| d1_header := d1_header d ++ take count data |> in
      let data := drop count data in
      if zlen (d1_header d) <? 4 then (d, Ok (messages, data))
      else
        let expected := unpack_u32 (d1_header d) in
        let d := d <| d1_header := [] |> <| d1_expected := Some expected |> in
        if (expected =? 0) || (v1_MAX_PAYLOAD_BYTES <? expected) then
          (d <| d1_expected := None |>, Err "lifecycle frame length is invalid")
        else v1_feed_payload d expected data messages
  end.

Fixpoint v1_feed_loop (fuel : nat) (d : v1_decoder) (data : bytes) (messages : list A) :
    v1_decoder * result (list A) :=
  match data with
  | [] => (d, Ok messages)
  | _ :: _ =>
      match fuel with
      | O => (d, Err "NonTermination")
      | S fuel =>
          match v1_feed_turn d data messages with
          | (d, Ok (messages, data)) => v1_feed_loop fuel d data messages
          | (d, Err e) => (d, Err e)
          end
      end
  end.

(** Every turn consumes a byte. *)
Definition v1_feed (d : v1_decoder) (data : bytes) : v1_decoder * result (list A) :=
  v1_feed_loop (length data) d data [].

Definition v1_finish (d : v1_decoder) : result unit :=
  raise "lifecycle frame stream is truncated"
    when bool_decide (d1_expected d <> None) || negb (bool_decide (d1_header d = []))
         || negb (bool_decide (d1_payload d = [])) ;;
  Ok tt.

(** * The same decoder one byte at a time *)

Definition v1_feed_byte (d : v1_decoder) (b : Z) : v1_decoder * result (list A) :=
  match d1_expected d with
  | None =>
      let h := d1_header d ++ [b] in
      if zlen h <? 4 then (Decoder1 h [] None, Ok [])
      else if (unpack_u32 h =? 0) || (v1_MAX_PAYLOAD_BYTES <? unpack_u32 h)
           then (v1_decoder_init, Err "lifecycle frame length is invalid")
           else (Decoder1 [] [] (Some (unpack_u32 h)), Ok [])
  | Some expected =>
      let p := d1_payload d ++ [b] in
      if zlen p <? expected then (Decoder1 [] p (Some expected), Ok [])
      else (v1_decoder_init, let? m := decode p in Ok [m])
  end.

Fixpoint v1_feed_bytes (d : v1_decoder) (data : bytes) : v1_decoder * result (list A) :=
  match data with
  | [] => (d, Ok [])
  | b :: data =>
      match v1_feed_byte d b with
      | (d, Err e) => (d, Err e)
      | (d, Ok es) =>
          match v1_feed_bytes d data with
          | (d, Ok fs) => (d, Ok (es ++ fs))
          | (d, Err e) => (d, Err e)
          end
      end
  end.

(** The decoder is inside a header, or inside a payload of a legal length. *)
Definition v1_decoder_ok (d : v1_decoder) : Prop :=
  match d1_expected d with
  | None => d1_payload d = [] /\ zlen (d1_header d) < 4 /\ Forall is_byte (d1_header d)
  | Some n => d1_header d = [] /\ zlen (d1_payload d) < n /\ n <= v1_MAX_PAYLOAD_BYTES
  end.

Lemma v1_decoder_init_ok : v1_decoder_ok v1_decoder_init.
Proof. split; [done|]. split; [done|constructor]. Qed.

Lemma v1_buffered_bound d : v1_decoder_ok d -> v1_buffered_bytes d < v1_MAX_PAYLOAD_BYTES.
Proof.
  unfold v1_decoder_ok, v1_buffered_bytes. change v1_MAX_PAYLOAD_BYTES with 65532.
  destruct (d1_expected d); [intros (-> & ? & ?)|intros (-> & ? & _)]; zlen_norm; lia.
Qed.

Lemma v1_feed_byte_ok d b : v1_decoder_ok d -> is_byte b -> v1_decoder_ok (v1_feed_byte d b).1.
Proof.
  intros Hd Hb. unfold v1_feed_byte. destruct d as [h p [n|]]; unfold v1_decoder_ok in Hd;
    cbn [d1_header d1_payload d1_expected] in *.
  - destruct Hd as (-> & _ & Hn). case_match eqn:E; bool_norm; [by split|]. apply v1_decoder_init_ok.
  - destruct Hd as (-> & Hh & Hbs). case_match eqn:E; bool_norm.
    + split; [done|]. split; [done|]. apply Forall_app; auto.
    + destruct (_ || _) eqn:G; [apply v1_decoder_init_ok|]. bool_norm.
      assert (0 <= unpack_u32 (h ++ [b])) by (apply unpack_u32_nonneg, Forall_app; auto).
      split; [done|]. cbn [fst d1_header d1_payload d1_expected]. zlen_norm. split; [lia|done].
Qed.

Lemma v1_feed_bytes_ok data : forall d, v1_decoder_ok d -> Forall is_byte data -> v1_decoder_ok (v1_feed_bytes d data).1.
Proof.
  induction data as [|b data IH]; intros d Hd Hb; [done|]. inversion_clear Hb as [|? ? Hb1 Hb2].
  cbn [v1_feed_bytes]. pose proof (v1_feed_byte_ok d b Hd Hb1) as Hd'.
  destruct (v1_feed_byte d b) as [d' [es|e]]; [|done]. cbn [fst] in Hd'. specialize (IH d' Hd' Hb2).
  destruct (v1_feed_bytes d' data) as [d2 [fs|e]]; done.
Qed.

Definition v1_then_feed (r : v1_decoder * result (list A)) (data : bytes) : v1_decoder * result (list A) :=
  match r with
  | (d, Err e) => (d, Err e)
  | (d, Ok es) => match v1_feed_bytes d data with
                  | (d, Ok fs) => (d, Ok (es ++ fs))
                  | (d, Err e) => (d, Err e)
                  end
  end.

Lemma v1_feed_bytes_app a : forall d b, v1_feed_bytes d (a ++ b) = v1_then_feed (v1_feed_bytes d a) b.
Proof.
  induction a as [|x a IH]; intros d b; cbn [app v1_feed_bytes v1_then_feed].
  - by destruct (v1_feed_bytes d b) as [d' [fs|]].
  - destruct (v1_feed_byte d x) as [d' [es|]]; [|done]. rewrite IH.
    destruct (v1_feed_bytes d' a) as [d2 [fs|]]; [|done]. cbn [v1_then_feed].
    destruct (v1_feed_bytes d2 b) as [d3 [gs|]]; [by rewrite app_assoc|done].
Qed.

(** A part of a header or of a payload is stored. *)
Lemma v1_feed_bytes_header data : forall h, zlen h + zlen data < 4 ->
  v1_feed_bytes (Decoder1 h [] None) data = (Decoder1 (h ++ data) [] None, Ok []).
Proof.
  induction data as [|b data IH]; intros h Hl; cbn [v1_feed_bytes]; [by rewrite app_nil_r|].
  zlen_norm. unfold v1_feed_byte. cbn [d1_expected d1_header]. pose proof (zlen_nonneg data).
  rewrite (proj2 (Z.ltb_lt _ _)) by (zlen_norm; lia).
  rewrite IH by (zlen_norm; lia). by rewrite <- app_assoc.
Qed.

Lemma v1_feed_bytes_payload data : forall p n, zlen p + zlen data < n ->
  v1_feed_bytes (Decoder1 [] p (Some n)) data = (Decoder1 [] (p ++ data) (Some n), Ok []).
Proof.
  induction data as [|b data IH]; intros p n Hl; cbn [v1_feed_bytes]; [by rewrite app_nil_r|].
  zlen_norm. unfold v1_feed_byte. cbn [d1_expected d1_payload]. pose proof (zlen_nonneg data).
  rewrite (proj2 (Z.ltb_lt _ _)) by (zlen_norm; lia).
  rewrite IH by (zlen_norm; lia). by rewrite <- app_assoc.
Qed.

(** The last byte of a header or of a payload. *)
Lemma v1_feed_bytes_length h c b : zlen h + zlen c = 3 ->
  v1_feed_bytes (Decoder1 h [] None) (c ++ [b]) =
  let n := unpack_u32 (h ++ c ++ [b]) in
  if (n =? 0) || (v1_MAX_PAYLOAD_BYTES <? n) then (v1_decoder_init, Err "lifecycle frame length is invalid")
  else (Decoder1 [] [] (Some n), Ok []).
Proof.
  intros Hl. rewrite v1_feed_bytes_app, v1_feed_bytes_header by lia. cbn [v1_then_feed v1_feed_bytes].
  unfold v1_feed_byte. cbn [d1_expected d1_header]. rewrite (proj2 (Z.ltb_ge _ _)) by (zlen_norm; lia).
  rewrite <- app_assoc. cbv zeta. by destruct (_ || _).
Qed.

Lemma v1_feed_bytes_complete p n c b : zlen p + zlen c + 1 = n ->
  v1_feed_bytes (Decoder1 [] p (Some n)) (c ++ [b]) = (v1_decoder_init, let? m := decode (p ++ c ++ [b]) in Ok [m]).
Proof.
  intros Hl. rewrite v1_feed_bytes_app, v1_feed_bytes_payload by lia. cbn [v1_then_feed v1_feed_bytes].
  unfold v1_feed_byte. cbn [d1_expected d1_payload]. rewrite (proj2 (Z.ltb_ge _ _)) by (zlen_norm; lia).
  rewrite <- app_assoc. by destruct (decode (p ++ c ++ [b])).
Qed.

(** * One turn of the loop does what its bytes do one at a time *)

Definition v1_turn_spec (d : v1_decoder) (data : bytes) (es : list A)
    (r : v1_decoder * result (list A * bytes)) : Prop :=
  match r with
  | (d', Ok (es', rest)) =>
      exists c fs, data = c ++ rest /\ (data <> [] -> c <> []) /\ v1_feed_bytes d c = (d', Ok fs) /\ es' = es ++ fs
  | (d', Err x) => v1_feed_bytes d data = (d', Err x)
  end.

(** A prefix of at least one byte ends in a byte. *)
Lemma take_snoc (data : bytes) k : 0 < k <= zlen data ->
  exists c b rest, data = (c ++ [b]) ++ rest /\ take (Z.to_nat k) data = c ++ [b] /\
    drop (Z.to_nat k) data = rest /\ zlen c = k - 1.
Proof.
  intros Hk. destruct (exists_last (l := take (Z.to_nat k) data)) as (c & b & E).
  - intros E. apply (f_equal length) in E. rewrite length_take in E. unfold zlen in *. simpl in E. lia.
  - exists c, b, (drop (Z.to_nat k) data). rewrite <- E, take_drop. split; [done|]. split; [done|]. split; [done|].
    apply (f_equal length) in E. rewrite length_take, length_app in E. unfold zlen in *. simpl in E. lia.
Qed.

Lemma v1_feed_bytes_err d a b d' x : v1_feed_bytes d a = (d', Err x) -> v1_feed_bytes d (a ++ b) = (d', Err x).
Proof. intros E. by rewrite v1_feed_bytes_app, E. Qed.

Lemma v1_feed_payload_spec p n data es : zlen p < n ->
  v1_turn_spec (Decoder1 [] p (Some n)) data es (v1_feed_payload (Decoder1 [] p (Some n)) n data es).
Proof.
  intros Hp. unfold v1_feed_payload. cbn [d1_payload setter d1_header d1_expected]. cbv zeta.
  destruct (Z.lt_ge_cases (zlen data) (n - zlen p)) as [Hs|Hs].
  - rewrite Z.min_r, to_nat_zlen, firstn_all, drop_all by lia.
    rewrite (proj2 (Z.ltb_lt _ _)) by (zlen_norm; lia). exists data, [].
    rewrite !app_nil_r. split_and!; [done|done| |done]. apply v1_feed_bytes_payload. lia.
  - rewrite Z.min_l by lia. destruct (take_snoc data (n - zlen p)) as (c & b & rest & Ed & -> & -> & Hc); [lia|].
    rewrite (proj2 (Z.ltb_ge _ _)) by (zlen_norm; lia).
    pose proof (v1_feed_bytes_complete p n c b ltac:(lia)) as Hf.
    destruct (decode (p ++ c ++ [b])) as [m|x]; cbn [v1_turn_spec result_bind] in *.
    + exists (c ++ [b]), [m]. split_and!; [done| |done|done]. intros _ E. by destruct c.
    + rewrite Ed. by apply v1_feed_bytes_err.
Qed.

Lemma v1_feed_turn_spec d data es : v1_decoder_ok d -> Forall is_byte data -> data <> [] ->
  v1_turn_spec d data es (v1_feed_turn d data es).
Proof.
  intros Hd Hb Hne. unfold v1_feed_turn. destruct d as [h p [n|]]; unfold v1_decoder_ok in Hd;
    cbn [d1_header d1_payload d1_expected] in *.
  { destruct Hd as (-> & Hp & _). by apply v1_feed_payload_spec. }
  destruct Hd as (-> & Hh & Hbs). cbn [setter d1_header d1_payload d1_expected]. cbv zeta.
  destruct (Z.lt_ge_cases (zlen data) (4 - zlen h)) as [Hs|Hs].
  - rewrite Z.min_r, to_nat_zlen, firstn_all, drop_all by lia.
    rewrite (proj2 (Z.ltb_lt _ _)) by (zlen_norm; lia). exists data, [].
    rewrite !app_nil_r. split_and!; [done|done| |done]. apply v1_feed_bytes_header. lia.
  - rewrite Z.min_l by lia. destruct (take_snoc data (4 - zlen h)) as (c & b & rest & Ed & -> & -> & Hc); [lia|].
    rewrite (proj2 (Z.ltb_ge _ _)) by (zlen_norm; lia).
    pose proof (v1_feed_bytes_length h c b ltac:(lia)) as Hf. cbv zeta in Hf.
    assert (Forall is_byte (h ++ c ++ [b])) as Hhb.
    { rewrite Ed in Hb. apply Forall_app in Hb as [? _]. by apply Forall_app. }
    pose proof (unpack_u32_nonneg _ Hhb). set (n := unpack_u32 (h ++ c ++ [b])) in *.
    destruct ((n =? 0) || (v1_MAX_PAYLOAD_BYTES <? n)) eqn:G.
    { cbn [v1_turn_spec]. rewrite Ed. by apply v1_feed_bytes_err. }
    bool_norm. pose proof (v1_feed_payload_spec [] n rest es ltac:(zlen_norm; lia)) as Hspec.
    change (v1_feed_payload _ n rest es) with (v1_feed_payload (Decoder1 [] [] (Some n)) n rest es).
    destruct (v1_feed_payload (Decoder1 [] [] (Some n)) n rest es) as [d' [[es' rest']|x]]; cbn [v1_turn_spec] in *.
    + destruct Hspec as (c' & fs & -> & _ & Hf' & ->). exists ((c ++ [b]) ++ c'), fs.
      split_and!; [by rewrite Ed, !app_assoc| |by rewrite v1_feed_bytes_app, Hf; cbn [v1_then_feed]; rewrite Hf'|done].
      intros _ E. by destruct c.
    + rewrite Ed, v1_feed_bytes_app, Hf. cbn [v1_then_feed]. by rewrite Hspec.
Qed.

Lemma v1_feed_loop_spec fuel : forall d data es, (length data <= fuel)%nat -> v1_decoder_ok d -> Forall is_byte data ->
  v1_feed_loop fuel d data es =
  match v1_feed_bytes d data with (d', Ok fs) => (d', Ok (es ++ fs)) | (d', Err x) => (d', Err x) end.
Proof.
  induction fuel as [|fuel IH]; intros d data es Hl Hd Hb.
  { destruct data; [|simpl in Hl; lia]. cbn. by rewrite app_nil_r. }
  destruct data as [|b data]; [cbn; by rewrite app_nil_r|]. cbn [v1_feed_loop].
  pose proof (v1_feed_turn_spec d (b :: data) es Hd Hb ltac:(done)) as Ht.
  destruct (v1_feed_turn d (b :: data) es) as [d' [[es' rest]|x]]; cbn [v1_turn_spec] in Ht; [|by rewrite Ht].
  destruct Ht as (c & fs & E & Hc & Hf & ->). specialize (Hc ltac:(done)). rewrite E in *.
  apply Forall_app in Hb as [Hbc Hbr]. pose proof (v1_feed_bytes_ok c d Hd Hbc) as Hd'. rewrite Hf in Hd'.
  rewrite length_app in Hl. destruct c as [|c0 c]; [by destruct Hc|].
  rewrite IH; [|simpl in Hl; lia|done|done]. rewrite v1_feed_bytes_app, Hf. cbn [v1_then_feed].
  destruct (v1_feed_bytes d' rest) as [d2 [gs|]]; [by rewrite app_assoc|done].
Qed.

Lemma v1_feed_is_feed_bytes d data : v1_decoder_ok d -> Forall is_byte data -> v1_feed d data = v1_feed_bytes d data.
Proof.
  intros Hd Hb. unfold v1_feed. rewrite v1_feed_loop_spec by done. by destruct (v1_feed_bytes d data) as [? []].
Qed.

(** * Streams of frames *)

(** Feeding a stream in chunks, stopping at the first failure. *)
Fixpoint v1_feed_chunks (d : v1_decoder) (chunks : list bytes) : v1_decoder * result (list A) :=
  match chunks with
  | [] => (d, Ok [])
  | chunk :: chunks =>
      match v1_feed d chunk with
      | (d, Err e) => (d, Err e)
      | (d, Ok es) =>
          match v1_feed_chunks d chunks with
          | (d, Ok fs) => (d, Ok (es ++ fs))
          | (d, Err e) => (d, Err e)
          end
      end
  end.

Lemma v1_feed_chunks_bytes chunks : forall d, v1_decoder_ok d -> Forall (Forall is_byte) chunks ->
  v1_feed_chunks d chunks = v1_feed_bytes d (concat chunks).
Proof.
  induction chunks as [|c chunks IH]; intros d Hd Hb; [done|]. inversion_clear Hb as [|? ? Hc Hcs].
  cbn [v1_feed_chunks concat]. rewrite v1_feed_is_feed_bytes by done. rewrite v1_feed_bytes_app.
  pose proof (v1_feed_bytes_ok c d Hd Hc) as Hd'. destruct (v1_feed_bytes d c) as [d' [es|]]; [|done].
  cbn [v1_then_feed]. by rewrite IH.
Qed.

(** A frame whose payload decodes. *)
Lemma v1_feed_bytes_frame p m : 0 < zlen p <= v1_MAX_PAYLOAD_BYTES -> decode p = Ok m ->
  v1_feed_bytes v1_decoder_init (pack_u32 (zlen p) ++ p) = (v1_decoder_init, Ok [m]).
Proof.
  intros Hl Hd. change v1_MAX_PAYLOAD_BYTES with 65532 in Hl. rewrite v1_feed_bytes_app. unfold v1_decoder_init at 1.
  destruct (take_snoc (pack_u32 (zlen p)) 4) as (c & b & rest & E & _ & Er & Hc);
    [unfold zlen; rewrite length_pack_u32; lia|].
  assert (rest = []) as ->.
  { rewrite <- Er. apply drop_ge. by rewrite length_pack_u32. }
  rewrite app_nil_r in E. rewrite E, v1_feed_bytes_length by (rewrite Hc; done). cbn [app]. rewrite <- E.
  rewrite unpack_pack_u32 by lia. cbv zeta. change v1_MAX_PAYLOAD_BYTES with 65532.
  rewrite (proj2 (Z.eqb_neq _ _)), (proj2 (Z.ltb_ge _ _)) by lia. cbn [orb v1_then_feed].
  destruct (exists_last (l := p)) as (c' & b' & Ep); [intros ->; zlen_norm; lia|].
  assert (zlen c' + 1 = zlen p) as Hc' by (rewrite Ep; zlen_norm; lia).
  rewrite Ep at 2. rewrite v1_feed_bytes_complete by (zlen_norm; lia). cbn [app]. by rewrite <- Ep, Hd.
Qed.
End framing.

Arguments v1_feed_payload {A}.
Arguments v1_feed_turn {A}.
Arguments v1_feed_loop {A}.
Arguments v1_feed {A}.
Arguments v1_feed_byte {A}.
Arguments v1_feed_bytes {A}.
Arguments v1_feed_chunks {A}.
