(* ===== verification/ControlV1Message.v ===== *)
(** Messages of protocol v1: what construction guarantees, and the round trip
    through [to_dict], canonical JSON and frames. *)
From S2P Require Import Prelude Crypto PyStr PyVal Utf8 Json Regex Digest ControlV2Wire ControlV2Message ControlV2Codec ControlV1 ControlV1Framing.

(** * Well-formed messages *)

Definition v1_payload_ok (p : v1_payload) : Prop :=
  match p with
  | P1Hello | P1Ready => True
  | P1Snapshot SReady stop t => stop = None /\ t = None
  | P1Snapshot SStopping stop t => (exists c, stop = Some c /\ is_counter c) /\ t = None
  | P1Snapshot STerminal stop t => from_option is_counter True stop /\ exists t', t = Some t' /\ terminal_ok t'
  | P1Stop signal => signal = VInt 15
  | P1Terminal t => terminal_ok t
  end.

Definition some_counter (o : option Z) : Prop := exists z, o = Some z /\ is_counter z.
Definition some_uuid (o : option pystr) : Prop := exists g, o = Some g /\ is_uuid g.

Definition v1_message_ok (m : v1_message) : Prop :=
  binding_ok (m1_binding m) /\ is_hex32 (m1_host_nonce m) /\ v1_payload_ok (m1_payload m) /\
  match m1_kind m with
  | V1_HELLO => some_counter (m1_request_id m) /\ m1_sequence m = None /\ m1_boot_generation m = None /\ m1_reply_to m = None
  | V1_STOP => some_counter (m1_request_id m) /\ m1_sequence m = None /\ some_uuid (m1_boot_generation m) /\ m1_reply_to m = None
  | k => m1_request_id m = None /\ some_counter (m1_sequence m) /\ some_uuid (m1_boot_generation m) /\
         match m1_reply_to m with Some r => is_counter r | None => k = V1_TERMINAL end
  end.

Lemma v1_lookup_kind_Ok v k : v1_lookup_kind v = Ok k <-> v = VStr (u (v1_kind_name k)).
Proof.
  split.
  - destruct v as [| | | |s| | |]; cbn [v1_lookup_kind]; try done.
    match goal with |- context [List.find ?f ?l] => destruct (List.find f l) eqn:E end; [|done].
    intros ->%(inj Ok). apply List.find_some in E as [_ E]. bool_norm. by subst s.
  - intros ->. by destruct k.
Qed.

Lemma v1_terminal_v_terminal v : v1_terminal v = v_terminal v.
Proof. reflexivity. Qed.

Lemma v1_check_snapshot_ok items p : v1_check_snapshot items = Ok p ->
  v1_payload_kind p = V1_SNAPSHOT /\ v1_payload_ok p.
Proof.
  unfold v1_check_snapshot, exact_object, v1_counter. intros Hc.
  destruct (v_exact _ _ _) as [d|] eqn:E2; cbn [result_bind] in Hc; [|done].
  destruct (py_eqb _ (VStr (u "ready")) && _ && _) eqn:G1; [by v_ok|].
  destruct (py_eqb _ (VStr (u "terminal"))) eqn:G3.
  { rewrite v1_terminal_v_terminal in Hc. destruct (v_terminal _) eqn:E4; cbn [result_bind] in Hc; [|done].
    apply v_terminal_ok in E4. destruct (d.["stop_request_id"]); v_ok; simpl; eauto 10. }
  destruct (py_eqb _ (VStr (u "stopping")) && _) eqn:G2; [|done]. v_ok. simpl. eauto 10.
Qed.

Lemma v1_check_event_ok k items rq sq gen rp p s g r : k <> V1_HELLO -> k <> V1_STOP ->
  v1_check_event k items rq sq gen rp = Ok (p, s, g, r) ->
  v1_payload_kind p = k /\ v1_payload_ok p /\ is_counter s /\ is_uuid g /\
  match r with Some r => is_counter r | None => k = V1_TERMINAL end.
Proof.
  intros Hh Hst. unfold v1_check_event, v1_counter, canonical_uuid, exact_object. intros Hc.
  destruct (v_counter sq _) eqn:E1; cbn [result_bind] in Hc; [|done]. apply v_counter_Ok in E1 as [_ ?].
  destruct (v_uuid gen _) eqn:E2; cbn [result_bind] in Hc; [|done]. apply v_uuid_Ok in E2 as [_ ?].
  destruct (negb (is_none rq)); [done|].
  destruct k; try done.
  - destruct (v_counter rp _) eqn:E3; cbn [result_bind] in Hc; [|done]. apply v_counter_Ok in E3 as [_ ?].
    destruct (v_exact _ _ _); cbn [result_bind] in Hc; [|done]. apply (inj Ok) in Hc. by simplify_eq.
  - destruct (v_counter rp _) eqn:E3; cbn [result_bind] in Hc; [|done]. apply v_counter_Ok in E3 as [_ ?].
    destruct (v1_check_snapshot items) eqn:E4; cbn [result_bind] in Hc; [|done].
    apply v1_check_snapshot_ok in E4 as [? ?]. apply (inj Ok) in Hc. by simplify_eq.
  - destruct (match rp with VNone => _ | _ => _ end) as [r'|] eqn:E3; cbn [result_bind] in Hc; [|done].
    assert (match r' with Some r => is_counter r | None => V1_TERMINAL = V1_TERMINAL end)
      by (destruct rp; v_ok; naive_solver).
    destruct (v_exact _ _ _) as [d|]; cbn [result_bind] in Hc; [|done]. rewrite v1_terminal_v_terminal in Hc.
    destruct (v_terminal _) eqn:E4; cbn [result_bind] in Hc; [|done]. apply v_terminal_ok in E4.
    apply (inj Ok) in Hc. by simplify_eq.
Qed.

(** The signal of a STOP is the integer 15, not a float equal to it. *)
Definition v1_strict (data : pyval) : Prop :=
  match data with VDict items => forall f, items.["signal"] <> VFloat f | _ => True end.

Lemma v1_message_init_ok kv b nonce data rq sq gen rp m : binding_ok b -> v1_strict data ->
  v1_message_init kv b nonce data rq sq gen rp = Ok m -> v1_message_ok m.
Proof.
  intros Hb Hs Hc. unfold v1_message_init, v1_nonce, v1_counter, canonical_uuid, exact_object in Hc.
  destruct (v1_lookup_kind kv) as [k|]; cbn [result_bind] in Hc; [|done].
  destruct (v_hex32 nonce _) eqn:E2; cbn [result_bind] in Hc; [|done]. apply v_hex32_Ok in E2 as [_ ?].
  destruct data as [| | | | | | |items]; try done.
  destruct (decide (k = V1_HELLO)) as [->|Hh].
  { v_ok. subst. unfold v1_message_ok, some_counter. cbn. eauto 10. }
  destruct (decide (k = V1_STOP)) as [->|Hst].
  { destruct (v_exact _ _ _) as [d|] eqn:E3; cbn [result_bind] in Hc; [|done].
    apply v_exact_Ok in E3 as [[= ->] _].
    destruct (negb (py_eqb (d.["signal"]) (VInt 15))) eqn:E4; [done|]. apply negb_false_iff in E4.
    assert (d.["signal"] = VInt 15) as Hsig.
    { destruct (d.["signal"]) as [|[]|z|f| | | |] eqn:Es; simpl in E4; try done; [|by destruct (Hs f)].
      apply Z.eqb_eq in E4. by subst. }
    rewrite Hsig in Hc. v_ok. subst. unfold v1_message_ok, some_counter, some_uuid. cbn. eauto 15. }
  assert (exists p s g r, v1_check_event k items rq sq gen rp = Ok (p, s, g, r) /\
          Message1 b a p None (Some s) (Some g) r = m) as (p & s & g & r & He & <-).
  { destruct k; try done; destruct (v1_check_event _ _ _ _ _ _) as [[[[p s] g] r]|]; cbn [result_bind] in Hc; try done;
      apply (inj Ok) in Hc; subst m; by eexists p, s, g, r. }
  apply v1_check_event_ok in He as (Hk & Hp & Hsq & Hg & Hr); [|done|done].
  unfold v1_message_ok, m1_kind, some_counter, some_uuid.
  cbn [m1_binding m1_host_nonce m1_payload m1_request_id m1_sequence m1_boot_generation m1_reply_to].
  rewrite Hk. split; [done|]. split; [done|]. split; [done|]. destruct k; try done; eauto 10.
Qed.

(** * Reading back *)

Lemma v1_keys m : dict_keys (v1_to_dict m) ≡ₚ map u (v1_fields (m1_kind m)).
Proof.
  unfold v1_to_dict, v1_fields. destruct (m1_kind m); (apply NoDup_Permutation; [by apply NoDup_decide..|]);
    intros k; cbn [app dict_keys map fst COMMON_FIELDS]; rewrite !elem_of_cons; tauto.
Qed.

Lemma v1_keys_NoDup m : NoDup (dict_keys (v1_to_dict m)).
Proof. rewrite v1_keys. destruct (m1_kind m); by apply NoDup_decide. Qed.

Lemma v1_has_exactly m : has_exactly (map u (v1_fields (m1_kind m))) (v1_to_dict m) = true.
Proof. apply has_exactly_spec. intros k. by rewrite v1_keys. Qed.

Lemma v1_to_dict_get m :
  let d := v1_to_dict m in
  d.["kind"] = VStr (u (v1_kind_name (m1_kind m))) /\
  d.["schema"] = VStr (u OCI_CONTROL_PROTOCOL) /\
  d.["run_id"] = VStr (run_id (m1_binding m)) /\
  d.["domain_core_digest"] = VStr (domain_core_digest (m1_binding m)) /\
  d.["stage1_artifact_digest"] = VStr (stage1_artifact_digest (m1_binding m)) /\
  d.["host_nonce"] = VStr (m1_host_nonce m) /\
  d.["payload"] = v1_payload_value (m1_payload m) /\
  d.["request_id"] = match m1_kind m with V1_HELLO | V1_STOP => opt_int (m1_request_id m) | _ => VNone end /\
  d.["sequence"] = match m1_kind m with V1_HELLO | V1_STOP => VNone | _ => opt_int (m1_sequence m) end /\
  d.["boot_generation"] = match m1_kind m with V1_HELLO => VNone | _ => opt_str (m1_boot_generation m) end /\
  d.["reply_to"] = match m1_kind m with V1_HELLO | V1_STOP => VNone | _ => opt_int (m1_reply_to m) end.
Proof.
  cbv zeta. unfold v1_to_dict. cbn [app].
  destruct (m1_kind m); cbn [app]; split_and!;
    repeat (rewrite dict_get_none_u; cbn [String.eqb Ascii.eqb Bool.eqb]); reflexivity.
Qed.

Definition v1_items (p : v1_payload) : list (pystr * pyval) :=
  match v1_payload_value p with VDict d => d | _ => [] end.
Definition v1_canon_payload (p : v1_payload) : list (pystr * pyval) := sort_items (canon_items (v1_items p)).

Lemma v1_canon_payload_value p : canon (v1_payload_value p) = VDict (v1_canon_payload p).
Proof. by destruct p. Qed.

Lemma v1_reads_snapshot state stop t : v1_payload_ok (P1Snapshot state stop t) ->
  v1_check_snapshot (v1_canon_payload (P1Snapshot state stop t)) = Ok (P1Snapshot state stop t).
Proof.
  intros Hp. unfold v1_check_snapshot.
  assert (dict_get_none (v1_canon_payload (P1Snapshot state stop t)) (u "state") = VStr (u (lname_name state))) as ->.
  { unfold v1_canon_payload, v1_items. cbn [v1_payload_value]. by read_dict. }
  change (VDict (v1_canon_payload (P1Snapshot state stop t))) with (canon (v1_payload_value (P1Snapshot state stop t))).
  unfold exact_object, v_exact, v1_counter. cbn [v1_payload_value]. read_dict. rewrite canon_opt_int. cbn [canon].
  destruct state; cbn [lname_name v1_payload_ok] in *.
  - by destruct Hp as [-> ->].
  - destruct Hp as [(c & -> & Hc) ->].
    change (py_eqb (VStr (u "stopping")) (VStr (u "ready"))) with false.
    change (py_eqb (VStr (u "stopping")) (VStr (u "terminal"))) with false.
    change (py_eqb (VStr (u "stopping")) (VStr (u "stopping"))) with true. cbn [andb is_none canon opt_int].
    by validate.
  - destruct Hp as [Hc (t' & -> & Ht)].
    change (py_eqb (VStr (u "terminal")) (VStr (u "ready"))) with false.
    change (py_eqb (VStr (u "terminal")) (VStr (u "terminal"))) with true. cbn [andb].
    rewrite canon_terminal_value, v1_terminal_v_terminal, v_terminal_value by done.
    destruct stop as [c|]; cbn [opt_int from_option] in *; by validate.
Qed.

Lemma v1_reads_terminal t : terminal_ok t ->
  (let? d := exact_object (VDict (v1_canon_payload (P1Terminal t))) ["terminal"] "TERMINAL payload" in
   let? t := v1_terminal (d.["terminal"]) in Ok (P1Terminal t)) = Ok (P1Terminal t).
Proof.
  intros Ht. change (VDict (v1_canon_payload (P1Terminal t))) with (canon (v1_payload_value (P1Terminal t))).
  unfold exact_object, v_exact. cbn [v1_payload_value]. read_dict.
  by rewrite canon_terminal_value, v1_terminal_v_terminal, v_terminal_value by done.
Qed.

(** Construction from the plain fields of a well-formed message. *)
Lemma v1_init_complete m : v1_message_ok m ->
  v1_message_init (VStr (u (v1_kind_name (m1_kind m)))) (m1_binding m) (VStr (m1_host_nonce m))
    (VDict (v1_canon_payload (m1_payload m)))
    (opt_int (m1_request_id m)) (opt_int (m1_sequence m)) (opt_str (m1_boot_generation m)) (opt_int (m1_reply_to m))
  = Ok m.
Proof.
  destruct m as [b n p rq sq gen rp]. unfold v1_message_ok, m1_kind.
  cbn [m1_binding m1_host_nonce m1_payload m1_request_id m1_sequence m1_boot_generation m1_reply_to].
  intros (_ & Hn & Hp & Hf). unfold v1_message_init.
  rewrite (proj2 (v1_lookup_kind_Ok _ (v1_payload_kind p))) by done. unfold v1_nonce, v1_counter, canonical_uuid.
  validate. destruct p as [| |state stop t|signal|t]; cbn [v1_payload_kind v1_payload_ok] in *.
  - destruct Hf as ((r & -> & Hr) & -> & -> & ->). cbn [opt_int opt_str is_none negb orb]. unfold exact_object, v_exact.
    cbn [v1_canon_payload]. change (v1_canon_payload P1Hello) with (@nil (pystr * pyval)). read_dict. by validate.
  - destruct Hf as (-> & (s & -> & Hs) & (g & -> & Hg) & Hr). unfold v1_check_event, v1_counter, canonical_uuid.
    cbn [opt_int opt_str is_none negb]. validate. destruct rp as [r|]; [|done]. cbn [opt_int]. validate.
    unfold exact_object, v_exact. change (v1_canon_payload P1Ready) with (@nil (pystr * pyval)). by read_dict.
  - destruct Hf as (-> & (s & -> & Hs) & (g & -> & Hg) & Hr). unfold v1_check_event, v1_counter, canonical_uuid.
    cbn [opt_int opt_str is_none negb]. validate. destruct rp as [r|]; [|done]. cbn [opt_int]. validate.
    by rewrite v1_reads_snapshot.
  - destruct Hf as ((r & -> & Hr) & -> & (g & -> & Hg) & ->). subst signal. cbn [opt_int opt_str is_none negb orb].
    change (VDict (v1_canon_payload (P1Stop (VInt 15)))) with (canon (v1_payload_value (P1Stop (VInt 15)))).
    unfold exact_object, v_exact. cbn [v1_payload_value]. read_dict. cbn [canon py_eqb Z.eqb Pos.eqb negb]. by validate.
  - destruct Hf as (-> & (s & -> & Hs) & (g & -> & Hg) & Hr). unfold v1_check_event, v1_counter, canonical_uuid.
    cbn [opt_int opt_str is_none negb]. validate.
    destruct rp as [r|]; cbn [opt_int]; validate; rewrite v1_reads_terminal by done; done.
Qed.

Lemma v1_from_dict_to_dict m : v1_message_ok m -> v1_from_dict (canon (VDict (v1_to_dict m))) = Ok m.
Proof.
  intros Hm. pose proof Hm as ((Hr & Hd & Hs) & _ & _ & Hf). pose proof (v1_keys_NoDup m) as Hnd.
  destruct (v1_to_dict_get m) as (Gk & Gs & Gr & Gd & Gst & Gn & Gp & Gq & Gsq & Gg & Gt).
  change (canon (VDict (v1_to_dict m))) with (VDict (sort_items (canon_items (v1_to_dict m)))). unfold v1_from_dict.
  rewrite !(dict_get_none_canon _ _ Hnd), Gk. cbn [canon].
  rewrite (proj2 (v1_lookup_kind_Ok _ (m1_kind m))) by done. cbn [result_bind]. unfold exact_object, v_exact.
  change (VDict (sort_items (canon_items (v1_to_dict m)))) with (canon (VDict (v1_to_dict m))).
  rewrite (exact_canon _ _ _ (v1_has_exactly m)). cbn [result_bind].
  rewrite !(dict_get_none_canon _ _ Hnd), Gs, Gr, Gd, Gst, Gn, Gp, Gq, Gsq, Gg, Gt. cbn [canon].
  rewrite (proj2 (py_eqb_str _ _)) by done. cbn [negb]. unfold v1_binding_init, v1_digest, canonical_uuid. validate.
  rewrite v1_canon_payload_value. pose proof (v1_init_complete m Hm) as Hi. rewrite <- Hi.
  assert (forall g, canon (opt_str g) = opt_str g) as Hstr by by intros [g|].
  destruct m as [[r d s] n p rq sq gen rp]. unfold m1_kind in *. cbn in Hf.
  cbn [m1_binding m1_host_nonce m1_payload m1_request_id m1_sequence m1_boot_generation m1_reply_to run_id
       domain_core_digest stage1_artifact_digest] in *.
  destruct p; cbn [v1_payload_kind] in *; destruct_and!; subst;
    repeat match goal with H : some_counter _ |- _ => destruct H as (? & -> & ?)
                         | H : some_uuid _ |- _ => destruct H as (? & -> & ?) end;
    rewrite ?canon_opt_int, ?Hstr; reflexivity.
Qed.

(** * Frames *)

#[local] Hint Resolve is_uuid_nonneg is_hex32_nonneg is_digest_nonneg jsonable_opt_int : palimpsest.
#[local] Hint Extern 1 (Forall (Z.le 0) (u _)) => apply u_nonneg : palimpsest.

Lemma v1_payload_value_jsonable p : v1_payload_ok p -> jsonable (v1_payload_value p).
Proof.
  destruct p as [| |state stop t|signal|t]; cbn [v1_payload_ok v1_payload_value]; intros Hp; jsonable_dict;
    auto with palimpsest.
  - destruct t; auto with palimpsest.
  - by subst signal; constructor.
Qed.

Lemma v1_message_jsonable m : v1_message_ok m -> jsonable (VDict (v1_to_dict m)).
Proof.
  intros ((Hr & Hd & Hs) & Hn & Hp & Hf). apply v1_payload_value_jsonable in Hp.
  assert (forall o, (forall g, o = Some g -> is_uuid g) -> jsonable (opt_str o)) as Hstr.
  { intros [g|] Hg; cbn [opt_str]; constructor. by apply is_uuid_nonneg, Hg. }
  assert (jsonable (opt_str (m1_boot_generation m))) as Hg.
  { apply Hstr. intros g Hg. destruct (m1_kind m); destruct_and!;
      repeat match goal with H : some_uuid _ |- _ => destruct H as (? & ? & ?) end; congruence. }
  clear Hf Hstr. unfold v1_to_dict. destruct (m1_kind m); cbn [app].
  all: apply ADict; [by apply NoDup_decide|].
  all: repeat (apply List.Forall_cons; [split; cbn [fst snd]; [apply u_nonneg|auto with palimpsest]|]); apply List.Forall_nil.
Qed.

Lemma v1_load_complete m p : v1_message_ok m -> canonical_json_bytes (VDict (v1_to_dict m)) = Ok p ->
  v1_load_payload p = Ok (canon (VDict (v1_to_dict m))).
Proof.
  intros Hm Hp. destruct (loads_canonical v1_reject_pairs _ p reject_pairs_NoDup (v1_message_jsonable m Hm) Hp)
    as (t & Ht & Hl). unfold v1_load_payload. by rewrite Ht, Hl.
Qed.

Lemma v1_encode_frame_Ok m f : v1_encode_frame m = Ok f <-> exists p,
  canonical_json_bytes (VDict (v1_to_dict m)) = Ok p /\ 0 < zlen p <= v1_MAX_PAYLOAD_BYTES /\ f = pack_u32 (zlen p) ++ p.
Proof.
  unfold v1_encode_frame. destruct (canonical_json_bytes _) as [p|]; [|split; [done|by intros (? & ? & _)]].
  destruct (bool_decide (p = []) || _) eqn:E.
  - split; [done|]. intros (p' & Hp' & Hl & _). apply (inj Ok) in Hp'. subst p'.
    apply orb_true_iff in E as [E|E]; bool_norm; [subst; zlen_norm; lia|lia].
  - bool_norm. split.
    + intros Hf. apply (inj Ok) in Hf. subst f. exists p. split; [done|]. split; [|done].
      destruct p; [done|]. zlen_norm. pose proof (zlen_nonneg p). lia.
    + intros (p' & Hp' & _ & ->). apply (inj Ok) in Hp'. by subst p'.
Qed.

(** A message is decoded from its own canonical bytes. *)
Lemma v1_decode_payload_complete m p : v1_message_ok m -> canonical_json_bytes (VDict (v1_to_dict m)) = Ok p ->
  0 < zlen p <= v1_MAX_PAYLOAD_BYTES -> v1_decode_payload p = Ok m.
Proof.
  intros Hm Hp Hl. unfold v1_decode_payload.
  rewrite bool_decide_eq_false_2 by (intros ->; zlen_norm; lia). rewrite (proj2 (Z.ltb_ge _ _)) by lia. cbn [orb].
  rewrite (v1_load_complete m p Hm Hp). cbn [result_bind]. rewrite v1_from_dict_to_dict by done. cbn [result_bind].
  rewrite Hp. case_bool_decide as Hb; [by destruct Hb|done].
Qed.

(** What is accepted is the canonical encoding of what is returned. *)
Lemma v1_decode_payload_sound p m : v1_decode_payload p = Ok m ->
  canonical_json_bytes (VDict (v1_to_dict m)) = Ok p /\ 0 < zlen p <= v1_MAX_PAYLOAD_BYTES.
Proof.
  unfold v1_decode_payload. destruct (bool_decide (p = []) || _) eqn:E; [done|]. bool_norm.
  destruct (v1_load_payload p); cbn [result_bind]; [|done]. destruct (v1_from_dict _) as [m'|]; cbn [result_bind]; [|done].
  destruct (canonical_json_bytes _) as [b|] eqn:Eb; [|done]. case_bool_decide as Hb; [done|].
  intros Hm. apply (inj Ok) in Hm. subst. split; [done|]. split; [|done].
  destruct p; [done|]. zlen_norm. pose proof (zlen_nonneg p). lia.
Qed.

Lemma v1_frames_decode ms : forall fs, Forall v1_message_ok ms ->
  Forall2 (fun m f => v1_encode_frame m = Ok f) ms fs ->
  v1_feed_bytes v1_decode_payload v1_decoder_init (concat fs) = (v1_decoder_init, Ok ms).
Proof.
  induction ms as [|m ms IH]; intros fs Hm Hf; inversion_clear Hf as [|? ? ? ? Hf1 Hf2]; [done|].
  inversion_clear Hm as [|? ? Hm1 Hm2]. cbn [concat]. apply v1_encode_frame_Ok in Hf1 as (p & Hp & Hl & ->).
  rewrite v1_feed_bytes_app, (v1_feed_bytes_frame _ _ p m Hl (v1_decode_payload_complete m p Hm1 Hp Hl)).
  cbn [v1_then_feed]. by rewrite (IH _ Hm2 Hf2).
Qed.

Lemma v1_encode_frame_bytes m f : v1_encode_frame m = Ok f -> Forall is_byte f.
Proof.
  intros (p & Hp & _ & ->)%v1_encode_frame_Ok. apply Forall_app. split; [apply pack_u32_bytes|].
  by eapply canonical_bytes.
Qed.
