(* ===== verification/ControlV1Session.v ===== *)
(** The host session of protocol v1 ([HostOCIControlSession]): nonces, requests,
    reconnection and the lifecycle state machine.  A method takes the session
    and returns it with its result: what a method changed before it raised
    stays changed.  The nonce factory is the value it draws. *)
From S2P Require Import Prelude Crypto PyStr PyVal Utf8 Json Regex Digest ControlV2Wire ControlV1.

Inductive v1_state := S1New | S1HelloSent | S1Ready | S1StopSent | S1Terminal.
#[export] Instance v1_state_eq_dec : EqDecision v1_state.
Proof. solve_decision. Defined.

Record v1_session := Session1 {
  s1_binding : binding;
  s1_used_nonces : list pystr;
  s1_nonce : option pystr;
  sent_request_id : Z;
  received_sequence : Z;
  s1_boot_generation : option pystr;
  pending_request_id : option Z;
  s1_stop_request_id : option Z;
  s1_terminal : option terminal;
  terminal_stop_request_id : option Z;
  reconnecting : bool;
  reconnect_from : option v1_state;
  initial_hello_retry : bool;
  s1_state : v1_state;
}.
#[export] Instance v1_session_eta : Eta v1_session := fun s =>
  Session1 (s1_binding s) (s1_used_nonces s) (s1_nonce s) (sent_request_id s) (received_sequence s)
    (s1_boot_generation s) (pending_request_id s) (s1_stop_request_id s) (s1_terminal s)
    (terminal_stop_request_id s) (reconnecting s) (reconnect_from s) (initial_hello_retry s) (s1_state s).

(** [HostOCIControlSession.__init__] *)
Definition v1_session_init (b : binding) : v1_session :=
  Session1 b [] None 0 0 None None None None None false None false S1New.

(** [_next_request] *)
Definition v1_next_request (s : v1_session) (k : v1_kind) (data : pyval) : v1_session * result v1_message :=
  match s1_nonce s with
  | None => (s, Err "session has no active nonce")
  | Some nonce =>
      let s := s <| sent_request_id := sent_request_id s + 1 |> in
      let s := s <| pending_request_id := Some (sent_request_id s) |> in
      (s, v1_message_init (VStr (u (v1_kind_name k))) (s1_binding s) (VStr nonce) data (VInt (sent_request_id s)) VNone
            (if bool_decide (k = V1_STOP) then opt_str (s1_boot_generation s) else VNone) VNone)
  end.

(** The guards of [hello], with what they change. *)
Definition v1_hello_mode (s : v1_session) (reconnect : bool) : v1_session * result unit :=
  if reconnect then
    match s1_state s with
    | S1HelloSent => (if reconnecting s then s else s <| initial_hello_retry := true |>, Ok tt)
    | S1Ready | S1StopSent | S1Terminal =>
        (s <| reconnecting := true |> <| reconnect_from := Some (s1_state s) |>, Ok tt)
    | S1New => (s, Err "session is not reconnectable")
    end
  else
    raise "session HELLO was already sent" when bool_decide (s1_state s <> S1New) from s ;; (s, Ok tt).

(** [hello(reconnect=...)]; [drawn] is what the nonce factory returned. *)
Definition v1_hello (s : v1_session) (reconnect : bool) (drawn : pyval) : v1_session * result v1_message :=
  let ' (s, r) := v1_hello_mode s reconnect in
  match r with
  | Err e => (s, Err e)
  | Ok _ =>
      match drawn with
      | VStr nonce =>
          raise "nonce factory did not produce a fresh canonical nonce"
            when negb (fullmatch hex32_re nonce) || bool_decide (nonce ∈ s1_used_nonces s) from s ;;
          let s := s <| s1_used_nonces := nonce :: s1_used_nonces s |> <| s1_nonce := Some nonce |> in
          let s := if reconnect then s
                   else s <| reconnecting := false |> <| reconnect_from := None |> <| initial_hello_retry := false |> in
          v1_next_request (s <| s1_state := S1HelloSent |>) V1_HELLO (VDict [])
      | _ => (s, Err "nonce factory did not produce a fresh canonical nonce")
      end
  end.

Definition stop_data : pyval := VDict [(u "signal", VInt 15)].

(** [stop] *)
Definition v1_stop (s : v1_session) : v1_session * result v1_message :=
  raise "STOP requires a current ready snapshot"
    when bool_decide (s1_state s <> S1Ready) || reconnecting s from s ;;
  let s := s <| s1_state := S1StopSent |> in
  match s1_stop_request_id s with
  | None =>
      let ' (s, r) := v1_next_request s V1_STOP stop_data in
      let? m := r from s in
      (s <| s1_stop_request_id := m1_request_id m |>, Ok m)
  | Some request =>
      match s1_nonce s, s1_boot_generation s with
      | Some nonce, Some generation =>
          (s, v1_message_init (VStr (u "STOP")) (s1_binding s) (VStr nonce) stop_data (VInt request) VNone
                (VStr generation) VNone)
      | _, _ => (s, Err "STOP retransmission state is invalid")
      end
  end.

(** The state a current SNAPSHOT reports to a reconnecting session. *)
Definition v1_accept_reconnect (s : v1_session) (state : lname) (stop : option Z) (term : option terminal) :
    v1_session * result unit :=
  let from_ready := bool_decide (reconnect_from s = Some S1Ready) in
  let from_stop := bool_decide (reconnect_from s = Some S1StopSent) in
  let from_terminal := bool_decide (reconnect_from s = Some S1Terminal) in
  let finish s := (s <| reconnecting := false |> <| reconnect_from := None |>, Ok tt) in
  match state with
  | SReady =>
      raise "reconnect SNAPSHOT regressed lifecycle state" when negb (from_ready || from_stop) from s ;;
      finish (s <| s1_state := S1Ready |>)
  | SStopping =>
      raise "reconnect SNAPSHOT STOP request is invalid"
        when negb from_stop || bool_decide (stop <> s1_stop_request_id s) from s ;;
      finish (s <| s1_state := S1StopSent |>)
  | STerminal =>
      raise "reconnect terminal SNAPSHOT STOP request is invalid"
        when from_stop && negb (bool_decide (stop = None) || bool_decide (stop = s1_stop_request_id s)) from s ;;
      raise "reconnect natural terminal SNAPSHOT has a STOP request"
        when from_ready && bool_decide (stop <> None) from s ;;
      raise "reconnect terminal SNAPSHOT changed"
        when from_terminal && (bool_decide (term <> s1_terminal s) || bool_decide (stop <> terminal_stop_request_id s))
        from s ;;
      finish (s <| s1_terminal := term |> <| terminal_stop_request_id := stop |> <| s1_state := S1Terminal |>)
  end.

(** The transitions of [accept] by state and kind of message. *)
Definition v1_accept_transition (s : v1_session) (m : v1_message) : v1_session * result unit :=
  let current := bool_decide (m1_reply_to m = pending_request_id s) in
  if reconnecting s then
    match m1_payload m with
    | P1Snapshot state stop term =>
        raise "reconnect requires a current SNAPSHOT" when negb current from s ;;
        v1_accept_reconnect s state stop term
    | _ => (s, Err "reconnect requires a current SNAPSHOT")
    end
  else
    match s1_state s, m1_payload m with
    | S1HelloSent, P1Ready =>
        raise "guest lifecycle transition is invalid" when negb current from s ;;
        (s <| s1_state := S1Ready |> <| initial_hello_retry := false |>, Ok tt)
    | S1HelloSent, P1Snapshot SReady _ _ =>
        raise "guest lifecycle transition is invalid" when negb (initial_hello_retry s && current) from s ;;
        (s <| s1_state := S1Ready |> <| initial_hello_retry := false |>, Ok tt)
    | S1Ready, P1Terminal t =>
        raise "guest lifecycle transition is invalid" when bool_decide (m1_reply_to m <> None) from s ;;
        (s <| s1_terminal := Some t |> <| terminal_stop_request_id := None |> <| s1_state := S1Terminal |>, Ok tt)
    | S1StopSent, P1Terminal t =>
        raise "guest lifecycle transition is invalid"
          when negb (bool_decide (m1_reply_to m = None) || bool_decide (m1_reply_to m = s1_stop_request_id s)) from s ;;
        (s <| s1_terminal := Some t |> <| terminal_stop_request_id := m1_reply_to m |> <| s1_state := S1Terminal |>, Ok tt)
    | _, _ => (s, Err "guest lifecycle transition is invalid")
    end.

(** [accept] *)
Definition v1_accept (s : v1_session) (m : v1_message) : v1_session * result unit :=
  raise "guest lifecycle binding is invalid" when bool_decide (m1_binding m <> s1_binding s) from s ;;
  raise "guest lifecycle nonce is stale"
    when bool_decide (s1_nonce s = None) || bool_decide (Some (m1_host_nonce m) <> s1_nonce s) from s ;;
  match m1_sequence m with
  | None => (s, Err "guest lifecycle ordering is stale")
  | Some sequence =>
      raise "guest lifecycle ordering is stale" when sequence <=? received_sequence s from s ;;
      raise "guest boot generation is stale"
        when bool_decide (s1_boot_generation s <> None) && bool_decide (m1_boot_generation m <> s1_boot_generation s)
        from s ;;
      let ' (s, r) := v1_accept_transition s m in
      let? _ := r from s in
      let s := match s1_boot_generation s with
               | None => s <| s1_boot_generation := m1_boot_generation m |>
               | Some _ => s
               end in
      (s <| received_sequence := sequence |> <| pending_request_id := None |>, Ok tt)
  end.
