(* ===== verification/ControlV1Theorems.v ===== *)
(** The properties of protocol v1: frames and streams, and the host session
    over any run of calls, each with a concrete instance. *)
From S2P Require Import Prelude Crypto PyStr PyVal Utf8 Json Regex Digest ControlV2Wire ControlV2Message ControlV2Codec ControlV2Session ControlV1 ControlV1Framing ControlV1Message ControlV1Session.

(** * Streams *)

(** A stream of v1 frames is decoded to its messages however it is cut
    into chunks, and leaves the decoder empty. *)
Theorem v1_chunked_stream_decodes ms fs chunks : Forall v1_message_ok ms ->
  Forall2 (fun m f => v1_encode_frame m = Ok f) ms fs -> concat chunks = concat fs ->
  v1_feed_chunks v1_decode_payload v1_decoder_init chunks = (v1_decoder_init, Ok ms).
Proof.
  intros Hm Hf Hc. assert (Forall is_byte (concat fs)) as Hb.
  { clear Hc Hm. induction Hf as [|m f ms fs Hmf _ IH]; [constructor|]. cbn [concat]. apply Forall_app.
    split; [by eapply v1_encode_frame_bytes|done]. }
  rewrite v1_feed_chunks_bytes; [rewrite Hc; by apply v1_frames_decode|apply v1_decoder_init_ok|].
  rewrite <- Hc in Hb. clear -Hb. induction chunks as [|c chunks IH]; [constructor|]. cbn [concat] in Hb.
  apply Forall_app in Hb as [? ?]. by constructor; [|apply IH].
Qed.

(** * Runs of the session *)

(** A message object: what the constructor returned. *)
Definition v1_constructed (m : v1_message) : Prop :=
  exists kv b nonce data rq sq gen rp, v1_message_init kv b nonce data rq sq gen rp = Ok m.

Lemma v1_constructed_guest m sq : v1_constructed m -> m1_sequence m = Some sq ->
  v1_payload_ok (m1_payload m) /\ is_counter sq /\ some_uuid (m1_boot_generation m).
Proof.
  intros (kv & b & nonce & data & rq & sq' & gen & rp & Hc) Hs. unfold v1_message_init in Hc.
  destruct (v1_lookup_kind kv) as [k|]; cbn [result_bind] in Hc; [|done].
  destruct (v1_nonce nonce); cbn [result_bind] in Hc; [|done].
  destruct data as [| | | | | | |items]; try done.
  destruct (decide (k = V1_HELLO)) as [->|Hh]; [by v_ok; subst|].
  destruct (decide (k = V1_STOP)) as [->|Hst]; [by v_ok; subst|].
  assert (exists p s g r, v1_check_event k items rq sq' gen rp = Ok (p, s, g, r) /\
          Message1 b a p None (Some s) (Some g) r = m) as (p & s & g & r & He & <-).
  { destruct k; try done; destruct (v1_check_event _ _ _ _ _ _) as [[[[p s] g] r]|]; cbn [result_bind] in Hc; try done;
      apply (inj Ok) in Hc; subst m; by eexists p, s, g, r. }
  apply v1_check_event_ok in He as (_ & Hp & Hsq & Hg & _); [|done|done].
  cbn in Hs. simplify_eq. split; [done|]. split; [done|]. by exists g.
Qed.

(** One call of a method, whatever it answers. *)
Inductive v1_step (s : v1_session) : v1_session -> Prop :=
| v1_step_hello reconnect drawn s' r : v1_hello s reconnect drawn = (s', r) -> v1_step s s'
| v1_step_stop s' r : v1_stop s = (s', r) -> v1_step s s'
| v1_step_accept m s' r : v1_constructed m -> v1_accept s m = (s', r) -> v1_step s s'.
Definition v1_steps : v1_session -> v1_session -> Prop := rtc v1_step.

(** The invariant of the session. *)
Record v1_inv (s : v1_session) : Prop := {
  iv_received : 0 <= received_sequence s;
  iv_sent : 0 <= sent_request_id s;
  iv_nonces : NoDup (s1_used_nonces s);
  iv_nonce : s1_state s <> S1New -> exists n, s1_nonce s = Some n /\ n ∈ s1_used_nonces s;
  iv_new : s1_state s = S1New -> reconnecting s = false /\ s1_terminal s = None;
  iv_retry : initial_hello_retry s = true -> s1_state s = S1HelloSent /\ reconnecting s = false;
  iv_from : reconnecting s = true -> exists f, reconnect_from s = Some f /\ f <> S1New /\ f <> S1HelloSent /\
    (s1_state s = S1HelloSent \/ s1_state s = f);
  iv_terminal : is_Some (s1_terminal s) <->
    s1_state s = S1Terminal \/ (s1_state s = S1HelloSent /\ reconnecting s = true /\ reconnect_from s = Some S1Terminal);
  iv_generation : s1_state s = S1Ready \/ s1_state s = S1StopSent \/ s1_state s = S1Terminal \/ reconnecting s = true ->
    is_Some (s1_boot_generation s);
}.

(** What no method undoes. *)
Record v1_progress (s s' : v1_session) : Prop := {
  pg1_received : received_sequence s <= received_sequence s';
  pg1_sent : sent_request_id s <= sent_request_id s';
  pg1_nonces : s1_used_nonces s `suffix_of` s1_used_nonces s';
  pg1_binding : s1_binding s' = s1_binding s;
  pg1_generation : is_Some (s1_boot_generation s) -> s1_boot_generation s' = s1_boot_generation s;
  pg1_stop : is_Some (s1_stop_request_id s) -> s1_stop_request_id s' = s1_stop_request_id s;
  pg1_terminal : is_Some (s1_terminal s) ->
    s1_terminal s' = s1_terminal s /\ terminal_stop_request_id s' = terminal_stop_request_id s;
}.

#[export] Instance v1_progress_preorder : PreOrder v1_progress.
Proof.
  split.
  - intros s. by split; try lia.
  - intros s1 s2 s3 [A1 A2 A3 A4 A5 A6 A7] [B1 B2 B3 B4 B5 B6 B7]. split; [lia|lia|by etransitivity|congruence|..].
    + intros H. rewrite B5; [by apply A5|]. by rewrite A5.
    + intros H. rewrite B6; [by apply A6|]. by rewrite A6.
    + intros H. destruct (A7 H) as [-> ->] || idtac. destruct (A7 H) as [E1 E2]. rewrite <- E1 in H.
      destruct (B7 H) as [E3 E4]. split; congruence.
Qed.

Definition v1_keeps (s s' : v1_session) : Prop := v1_inv s -> v1_inv s' /\ v1_progress s s'.

Lemma v1_keeps_refl s : v1_keeps s s.
Proof. intros Hs. split; [done|reflexivity]. Qed.
Lemma v1_keeps_trans s1 s2 s3 : v1_keeps s1 s2 -> v1_keeps s2 s3 -> v1_keeps s1 s3.
Proof.
  intros H1 H2 Hs. destruct (H1 Hs) as [Hs2 P1]. destruct (H2 Hs2) as [Hs3 P2]. split; [done|by transitivity s2].
Qed.

(** Reduce a projection of an updated session. *)
Ltac proj1 := cbn [setter v1_session_eta eta s1_binding s1_used_nonces s1_nonce sent_request_id received_sequence
  s1_boot_generation pending_request_id s1_stop_request_id s1_terminal terminal_stop_request_id reconnecting
  reconnect_from initial_hello_retry s1_state] in *.

(** A call that changes nothing [v1_progress] speaks of. *)
Ltac v1_pg := split; proj1; first [lia|done|reflexivity|intros _; split; reflexivity|idtac].

Lemma v1_keeps_next_request s k data s' r : v1_next_request s k data = (s', r) -> v1_keeps s s'.
Proof.
  unfold v1_next_request. intros H. destruct (s1_nonce s) as [n|] eqn:En;
    apply pair_equal_spec in H as [<- _]; [|apply v1_keeps_refl].
  intros [A1 A2 A3 A4 A5 A6 A7 A8 A9]. split; [|v1_pg]. split; proj1; try done. lia.
Qed.

Lemma v1_keeps_mode s b s' r : v1_hello_mode s b = (s', r) -> v1_keeps s s'.
Proof.
  assert (forall f, s1_state s = f -> f <> S1New -> f <> S1HelloSent ->
    v1_keeps s (s <| reconnecting := true |> <| reconnect_from := Some f |>)) as Hfrom.
  { intros f Hf Hn Hh [A1 A2 A3 A4 A5 A6 A7 A8 A9]. split; [|v1_pg]. split; proj1; try done.
    - intros Hs. congruence.
    - intros Hi. destruct (A6 Hi). congruence.
    - intros _. by exists f; auto.
    - rewrite A8. split; [|naive_solver]. intros [?|(Hs & _)]; [by left|congruence].
    - intros _. apply A9. destruct f; auto; congruence. }
  unfold v1_hello_mode. intros H. destruct b.
  - destruct (s1_state s) eqn:Es; apply pair_equal_spec in H as [<- _];
      [apply v1_keeps_refl| |by apply Hfrom..].
    destruct (reconnecting s) eqn:Er; [apply v1_keeps_refl|].
    intros [A1 A2 A3 A4 A5 A6 A7 A8 A9]. split; [|v1_pg]. by split; proj1.
  - destruct (bool_decide _); apply pair_equal_spec in H as [<- _]; apply v1_keeps_refl.
Qed.

Lemma v1_keeps_hello s b drawn s' r : v1_hello s b drawn = (s', r) -> v1_keeps s s'.
Proof.
  unfold v1_hello. intros H. destruct (v1_hello_mode s b) as [s1 r1] eqn:Em.
  pose proof (v1_keeps_mode _ _ _ _ Em) as Hk. destruct r1 as [x|e]; [|apply pair_equal_spec in H as [<- _]; done].
  destruct drawn as [| | | |n| | |]; try (apply pair_equal_spec in H as [<- _]; done).
  destruct (negb (fullmatch hex32_re n) || _) eqn:G; [apply pair_equal_spec in H as [<- _]; done|]. bool_norm.
  eapply v1_keeps_trans; [exact Hk|]. clear Hk. eapply v1_keeps_trans; [|by eapply v1_keeps_next_request].
  assert (b = false -> s1_state s1 = S1New) as Hb.
  { intros ->. unfold v1_hello_mode in Em. case_bool_decide as Hs; [done|]. by apply pair_equal_spec in Em as [<- _]. }
  assert (b = true -> s1_state s1 = S1HelloSent \/ reconnecting s1 = true /\ reconnect_from s1 = Some (s1_state s1)) as Ht.
  { intros ->. unfold v1_hello_mode in Em. destruct (s1_state s) eqn:Es; try done;
      apply pair_equal_spec in Em as [<- _]; proj1; [left|by rewrite Es; right..].
    by destruct (reconnecting s). }
  intros [A1 A2 A3 A4 A5 A6 A7 A8 A9]. destruct b; (split; [|v1_pg; by apply suffix_cons_r]).
  - destruct (Ht eq_refl) as [Hs|[Hr Hf]].
    + rewrite Hs in *. split; proj1; try done; [by constructor|by exists n; split; [|left]].
    + destruct (A7 Hr) as (f & Hf' & Hn & Hh & _). rewrite Hf in Hf'. apply (inj Some) in Hf'. subst f.
      split; proj1; try done; [by constructor|by exists n; split; [|left]| | | |].
      * intros Hi. destruct (A6 Hi). congruence.
      * intros _. exists (s1_state s1). auto.
      * rewrite A8. split; [|naive_solver congruence]. intros [E|(E & _)]; [|congruence]. right. rewrite Hf, E. done.
      * intros _. apply A9. auto.
  - specialize (Hb eq_refl). destruct (A5 Hb) as [_ Hterm]. split; proj1; try done.
    + by constructor.
    + by exists n; split; [|left].
    + rewrite Hterm. split; [by intros []|]. intros [?|(_ & ? & _)]; done.
    + intros [?|[?|[?|?]]]; done.
Qed.

Lemma v1_keeps_stop s s' r : v1_stop s = (s', r) -> v1_keeps s s'.
Proof.
  unfold v1_stop. intros H.
  destruct (bool_decide (s1_state s <> S1Ready) || reconnecting s) eqn:G;
    [apply pair_equal_spec in H as [<- _]; apply v1_keeps_refl|].
  apply orb_false_iff in G as [G Hr]. bool_norm. apply dec_stable in G.
  assert (v1_keeps s (s <| s1_state := S1StopSent |>)) as Hk.
  { intros [A1 A2 A3 A4 A5 A6 A7 A8 A9]. split; [|v1_pg]. rewrite G, Hr in *. split; proj1; rewrite ?Hr; try done; naive_solver. }
  eapply v1_keeps_trans; [exact Hk|]. clear Hk. proj1.
  destruct (s1_stop_request_id s) as [q|] eqn:Eq.
  - destruct (s1_nonce s), (s1_boot_generation s); apply pair_equal_spec in H as [<- _]; apply v1_keeps_refl.
  - destruct (v1_next_request _ _ _) as [s2 r2] eqn:En. pose proof (v1_keeps_next_request _ _ _ _ _ En) as Hn.
    assert (s1_stop_request_id s2 = None) as Hs2.
    { unfold v1_next_request in En. proj1. destruct (s1_nonce s); apply pair_equal_spec in En as [<- _]; done. }
    destruct r2 as [m|]; apply pair_equal_spec in H as [<- _]; [|done].
    eapply v1_keeps_trans; [exact Hn|]. intros [A1 A2 A3 A4 A5 A6 A7 A8 A9]. split; [by split|].
    v1_pg. rewrite Hs2. by intros [].
Qed.

Lemma v1_keeps_transition s m s' r : v1_payload_ok (m1_payload m) -> v1_inv s ->
  v1_accept_transition s m = (s', Ok r) ->
  v1_progress s s' /\ s1_boot_generation s' = s1_boot_generation s /\ received_sequence s' = received_sequence s /\
  (forall g, is_Some g -> v1_inv (s' <| s1_boot_generation := g |>)).
Proof.
  intros Hp [A1 A2 A3 A4 A5 A6 A7 A8 A9] H. unfold v1_accept_transition in H.
  destruct (reconnecting s) eqn:Er.
  - destruct (A7 eq_refl) as (f & Hf & Hfn & Hfh & Hst). rewrite Hf in *.
    assert (s1_state s <> S1New) as Hnew by (destruct Hst; congruence).
    assert (initial_hello_retry s = false) as Hretry
      by (destruct (initial_hello_retry s); [by destruct (A6 eq_refl)|done]).
    assert (f <> S1Terminal -> ~ is_Some (s1_terminal s)) as Hnt.
    { intros Hne Ht. apply A8 in Ht as [E|(_ & _ & E)]; [destruct Hst; congruence|congruence]. }
    destruct (m1_payload m) as [| |state stop term| |]; try done.
    destruct (negb _); [done|]. unfold v1_accept_reconnect in H. rewrite Hf in H. destruct state; cbn [v1_payload_ok] in Hp.
    + destruct (negb _) eqn:G; [done|]. apply pair_equal_spec in H as [<- _]. apply negb_false_iff, orb_true_iff in G.
      assert (~ is_Some (s1_terminal s)) as Ht by (apply Hnt; destruct G as [G|G]; bool_norm; congruence).
      split; [v1_pg; tauto|]. split; [done|]. split; [done|]. intros g Hg.
      split; proj1; try done; [auto|congruence|]. split; [tauto|]. intros [?|(? & _)]; done.
    + destruct (negb _ || _) eqn:G; [done|]. apply pair_equal_spec in H as [<- _]. bool_norm.
      assert (~ is_Some (s1_terminal s)) as Ht by (apply Hnt; congruence).
      split; [v1_pg; tauto|]. split; [done|]. split; [done|]. intros g Hg.
      split; proj1; try done; [auto|congruence|]. split; [tauto|]. intros [?|(? & _)]; done.
    + destruct Hp as [_ (t & -> & _)]. destruct (_ && negb _); [done|]. destruct (_ && bool_decide (stop <> None)); [done|].
      destruct (_ && (_ || _)) eqn:G; [done|]. apply pair_equal_spec in H as [<- _].
      assert (is_Some (s1_terminal s) -> Some t = s1_terminal s /\ stop = terminal_stop_request_id s) as Ht.
      { intros Ht. destruct (decide (f = S1Terminal)) as [->|Hne]; [|by destruct (Hnt Hne)].
        rewrite bool_decide_eq_true_2 in G by done. cbn [andb] in G. bool_norm. split; by apply dec_stable. }
      split; [v1_pg; intros H; by destruct (Ht H) as [<- <-]|]. split; [done|]. split; [done|]. intros g Hg.
      split; proj1; try done; [auto|congruence|]. split; [by left|by eexists].
  - assert (is_Some (s1_terminal s) <-> s1_state s = S1Terminal) as Ht.
    { rewrite A8. split; [intros [?|(_ & ? & _)]; done|by left]. }
    destruct (s1_state s) eqn:Es; destruct (m1_payload m) as [| |[]stop term| |t]; try done;
      match type of H with (if ?b then _ else _) = _ => destruct b eqn:G; [done|] end;
      apply pair_equal_spec in H as [<- _];
      (split; [v1_pg; intros Hs; by apply Ht in Hs|]; split; [done|]; split; [done|]; intros g Hg; split; proj1; try done);
      try (by auto); try (by rewrite Er).
    all: try (rewrite Ht; split; [done|]; by intros [?|(? & _)]).
    all: try (split; [by left|by eexists]).
    all: try (intros Hi; by destruct (A6 Hi)).
Qed.

(** An accepted message: what was checked, and what follows. *)
Lemma v1_accept_Ok s m s' : v1_accept s m = (s', Ok tt) -> exists sequence s1,
  m1_sequence m = Some sequence /\ received_sequence s < sequence /\
  (is_Some (s1_boot_generation s) -> m1_boot_generation m = s1_boot_generation s) /\
  v1_accept_transition s m = (s1, Ok tt) /\
  s' = (match s1_boot_generation s1 with
        | None => s1 <| s1_boot_generation := m1_boot_generation m |>
        | Some _ => s1
        end) <| received_sequence := sequence |> <| pending_request_id := None |>.
Proof.
  unfold v1_accept. intros H.
  destruct (bool_decide (m1_binding m <> _)); [done|]. destruct (bool_decide (s1_nonce s = None) || _); [done|].
  destruct (m1_sequence m) as [sequence|]; [|done]. destruct (sequence <=? received_sequence s) eqn:G; [done|].
  destruct (bool_decide (s1_boot_generation s <> None) && _) eqn:Gg; [done|]. bool_norm.
  destruct (v1_accept_transition s m) as [s1 [[]|e]] eqn:Et; [|done]. apply pair_equal_spec in H as [<- _].
  exists sequence, s1. split; [done|]. split; [done|]. split; [|done].
  intros [g Hg]. rewrite bool_decide_eq_true_2 in Gg by congruence. cbn [andb] in Gg. bool_norm. by apply dec_stable.
Qed.

Lemma v1_transition_err s m s' e : v1_accept_transition s m = (s', Err e) -> s' = s.
Proof. unfold v1_accept_transition, v1_accept_reconnect. intros H. paths; congruence. Qed.

(** A refused message changes nothing. *)
Lemma v1_accept_err s m s' e : v1_accept s m = (s', Err e) -> s' = s.
Proof.
  unfold v1_accept. intros H. destruct (bool_decide _); [by apply pair_equal_spec in H as [<- _]|].
  destruct (_ || _); [by apply pair_equal_spec in H as [<- _]|].
  destruct (m1_sequence m); [|by apply pair_equal_spec in H as [<- _]].
  destruct (_ <=? _); [by apply pair_equal_spec in H as [<- _]|].
  destruct (_ && _); [by apply pair_equal_spec in H as [<- _]|].
  destruct (v1_accept_transition s m) as [s1 [[]|x]] eqn:Et; [done|]. apply pair_equal_spec in H as [<- _].
  by eapply v1_transition_err.
Qed.

Lemma v1_keeps_accept s m s' r : v1_constructed m -> v1_accept s m = (s', r) -> v1_keeps s s'.
Proof.
  intros Hm H. destruct r as [[]|e]; [|apply v1_accept_err in H as ->; apply v1_keeps_refl].
  apply v1_accept_Ok in H as (sq & s1 & Hsq & Hlt & Hg & Ht & ->).
  destruct (v1_constructed_guest m sq Hm Hsq) as (Hp & _ & g & Hgm & _). intros Hs.
  destruct (v1_keeps_transition s m s1 tt Hp Hs Ht) as ([B1 B2 B3 B4 B5 B6 B7] & Hgen & Hrec & Hinv).
  pose proof (iv_received _ Hs) as Hr. rewrite Hgen. destruct (s1_boot_generation s) as [g0|] eqn:Eg.
  - pose proof (Hinv (Some g0) ltac:(by eexists)) as [A1 A2 A3 A4 A5 A6 A7 A8 A9].
    split; split; proj1; rewrite ?Hgen; try done; lia.
  - pose proof (Hinv (Some g) ltac:(by eexists)) as [A1 A2 A3 A4 A5 A6 A7 A8 A9].
    split; split; proj1; rewrite ?Hgm, ?Eg; try done; try lia.
Qed.

Lemma v1_keeps_step s s' : v1_step s s' -> v1_keeps s s'.
Proof. destruct 1; eauto using v1_keeps_hello, v1_keeps_stop, v1_keeps_accept. Qed.

Lemma v1_keeps_steps s s' : v1_steps s s' -> v1_keeps s s'.
Proof.
  induction 1 as [s|s1 s2 s3 H1 _ IH]; [apply v1_keeps_refl|].
  eapply v1_keeps_trans; [by apply v1_keeps_step|exact IH].
Qed.

Lemma v1_inv_init b : v1_inv (v1_session_init b).
Proof.
  split; cbn; try done; try constructor.
  - by intros [].
  - intros [?|(? & _)]; done.
  - by intros [?|[?|[?|?]]].
Qed.

Lemma v1_reachable_inv b s : v1_steps (v1_session_init b) s -> v1_inv s.
Proof. intros H. by apply (v1_keeps_steps _ _ H), v1_inv_init. Qed.

(** Over any run of calls, a guest message that was accepted is never
    accepted again. *)
Theorem v1_accepted_once b s m s1 s2 : v1_steps (v1_session_init b) s -> v1_constructed m ->
  v1_accept s m = (s1, Ok tt) -> v1_steps s1 s2 -> exists e, v1_accept s2 m = (s2, Err e).
Proof.
  intros Hr Hm Ha Hs. pose proof (v1_keeps_accept _ _ _ _ Hm Ha (v1_reachable_inv _ _ Hr)) as [Hi1 _].
  destruct (v1_keeps_steps _ _ Hs Hi1) as [_ Hpg]. apply pg1_received in Hpg.
  apply v1_accept_Ok in Ha as (sq & s1' & Hsq & _ & _ & _ & ->).
  assert (sq <= received_sequence s2) as Hle by (destruct (s1_boot_generation s1'); exact Hpg).
  destruct (v1_accept s2 m) as [s' [[]|e]] eqn:E.
  - apply v1_accept_Ok in E as (sq' & _ & Hsq' & Hlt & _). rewrite Hsq in Hsq'. simplify_eq. lia.
  - exists e. by rewrite (v1_accept_err _ _ _ _ E).
Qed.

(** A session that has learnt a terminal outcome keeps it, with the STOP it
    answers, through every later call, reconnections included. *)
Theorem v1_terminal_is_final b s s' t : v1_steps (v1_session_init b) s -> s1_terminal s = Some t -> v1_steps s s' ->
  s1_terminal s' = Some t /\ terminal_stop_request_id s' = terminal_stop_request_id s /\
  (s1_state s' = S1Terminal \/ (s1_state s' = S1HelloSent /\ reconnecting s' = true /\ reconnect_from s' = Some S1Terminal)).
Proof.
  intros Hr Ht Hs. destruct (v1_keeps_steps _ _ Hs (v1_reachable_inv _ _ Hr)) as [Hi Hpg].
  destruct (pg1_terminal _ _ Hpg) as [E1 E2]; [by rewrite Ht|]. rewrite Ht in E1. split; [done|]. split; [done|].
  apply (iv_terminal _ Hi). by rewrite E1.
Qed.

Lemma v1_stop_Ok s s' m : v1_stop s = (s', Ok m) ->
  s1_stop_request_id s' = m1_request_id m /\ is_Some (m1_request_id m) /\ m1_payload m = P1Stop (VInt 15).
Proof.
  unfold v1_stop. intros H. destruct (_ || _); [done|]. proj1.
  assert (forall nonce data rq gen m', v1_message_init (VStr (u "STOP")) (s1_binding s) nonce data (VInt rq) VNone gen VNone = Ok m' ->
    data = stop_data -> m1_request_id m' = Some rq /\ m1_payload m' = P1Stop (VInt 15)) as Hinit.
  { intros nonce data rq gen m' Hm ->. unfold v1_message_init in Hm. change (v1_lookup_kind _) with (Ok V1_STOP) in Hm.
    cbn [result_bind] in Hm. destruct (v1_nonce nonce); cbn [result_bind] in Hm; [|done].
    unfold stop_data, v1_counter in Hm. v_ok. subst. cbn [m1_payload m1_request_id]. split; [congruence|].
    match goal with E : exact_object _ _ _ = Ok _ |- _ => apply v_exact_Ok in E as [E _]; injection E as <- end. done. }
  destruct (s1_stop_request_id s) as [q|] eqn:Eq.
  - destruct (s1_nonce s) as [n|], (s1_boot_generation s) as [g|]; try done. apply pair_equal_spec in H as [<- H].
    destruct (Hinit _ _ _ _ _ H eq_refl) as [-> ->]. proj1. done.
  - unfold v1_next_request in H. proj1. destruct (s1_nonce s) as [n|]; [|done].
    destruct (v1_message_init _ _ _ _ _ _ _ _) as [m'|] eqn:Em; [|done].
    apply pair_equal_spec in H as [<- H]. apply (inj Ok) in H. subst m'. proj1.
    destruct (Hinit _ _ _ _ _ Em eq_refl) as [-> ->]. split; [done|]. split; [by eexists|done].
Qed.

(** A STOP that is sent again, after any run of calls, is the same logical
    request: same request number, same signal. *)
Theorem v1_stop_is_retransmitted b s m1 s1 s2 m2 s3 : v1_steps (v1_session_init b) s ->
  v1_stop s = (s1, Ok m1) -> v1_steps s1 s2 -> v1_stop s2 = (s3, Ok m2) ->
  m1_request_id m2 = m1_request_id m1 /\ m1_payload m2 = m1_payload m1.
Proof.
  intros Hr H1 Hs H2. pose proof (v1_keeps_stop _ _ _ H1 (v1_reachable_inv _ _ Hr)) as [Hi1 _].
  destruct (v1_stop_Ok _ _ _ H1) as (E1 & Hq1 & P1). destruct (v1_stop_Ok _ _ _ H2) as (E2 & Hq2 & P2).
  destruct (v1_keeps_steps _ _ Hs Hi1) as [Hi2 Hpg]. destruct (v1_keeps_stop _ _ _ H2 Hi2) as [_ Hpg2].
  split; [|congruence]. rewrite <- E2, <- E1.
  assert (s1_stop_request_id s2 = s1_stop_request_id s1) as E by (apply (pg1_stop _ _ Hpg); by rewrite E1).
  rewrite <- E. apply (pg1_stop _ _ Hpg2). by rewrite E, E1.
Qed.

(** ** Reconnection *)

(** The state from which a reconnecting session resumes. *)
Definition v1_resumption (s : v1_session) : option v1_state :=
  if reconnecting s then reconnect_from s else Some (s1_state s).

(** The states a SNAPSHOT may report to a session that resumes: the session had seen
    nothing of the guest yet, had seen it ready, had sent STOP, knew its outcome. *)
Definition v1_continues (s : v1_session) (state : lname) (stop : option Z) (term : option terminal) : Prop :=
  match v1_resumption s with
  | Some S1Ready => state = SReady \/ state = STerminal /\ stop = None
  | Some S1StopSent =>
      state = SReady \/ state = SStopping /\ stop = s1_stop_request_id s \/
      state = STerminal /\ (stop = None \/ stop = s1_stop_request_id s)
  | Some S1Terminal => state = STerminal /\ stop = terminal_stop_request_id s /\ term = s1_terminal s
  | _ => state = SReady
  end.

(** A message that answers the HELLO [m] of [s]: of the same binding and nonce, in
    reply to it, later than what [s] received, and of the boot [s] has seen, if any. *)
Record v1_answers (s : v1_session) (m r : v1_message) : Prop := {
  an_binding : m1_binding r = m1_binding m;
  an_nonce : m1_host_nonce r = m1_host_nonce m;
  an_reply : m1_reply_to r = m1_request_id m;
  an_sequence : exists q, m1_sequence r = Some q /\ received_sequence s < q;
  an_generation : is_Some (s1_boot_generation s) -> m1_boot_generation r = s1_boot_generation s;
}.

(** What a reconnecting HELLO with a fresh nonce leaves. *)
Record v1_restarted (s : v1_session) (n : pystr) (s1 : v1_session) (m : v1_message) : Prop := {
  rs_binding : m1_binding m = s1_binding s1 /\ s1_binding s1 = s1_binding s;
  rs_nonce : m1_host_nonce m = n /\ s1_nonce s1 = Some n;
  rs_request : m1_request_id m = pending_request_id s1;
  rs_received : received_sequence s1 = received_sequence s;
  rs_generation : s1_boot_generation s1 = s1_boot_generation s;
  rs_stop : s1_stop_request_id s1 = s1_stop_request_id s;
  rs_terminal : s1_terminal s1 = s1_terminal s /\ terminal_stop_request_id s1 = terminal_stop_request_id s;
  rs_state : s1_state s1 = S1HelloSent;
  rs_mode : if reconnecting s1 then
              exists f, reconnect_from s1 = Some f /\ v1_resumption s = Some f /\ f <> S1New /\ f <> S1HelloSent
            else initial_hello_retry s1 = true /\ v1_resumption s = Some S1HelloSent;
}.

Lemma v1_hello_restarts s n : v1_inv s -> s1_state s <> S1New -> is_hex32 n -> n ∉ s1_used_nonces s ->
  sent_request_id s < MAX_COUNTER -> exists s1 m, v1_hello s true (VStr n) = (s1, Ok m) /\ m1_kind m = V1_HELLO /\
    m1_request_id m = Some (sent_request_id s + 1) /\ v1_restarted s n s1 m.
Proof.
  intros Hi Hs Hn Hu Hc. pose proof (iv_sent _ Hi) as Hp.
  assert (v1_counter (VInt (sent_request_id s + 1)) "request ID" = Ok (sent_request_id s + 1)) as Hcnt
    by (apply counter_ok; unfold is_counter; lia).
  assert (v1_nonce (VStr n) = Ok n) as Hnonce by by apply hex32_ok.
  destruct (v1_hello_mode s true) as [s' r] eqn:Em.
  assert (r = Ok tt /\ exists c f i, s' = s <| reconnecting := c |> <| reconnect_from := f |> <| initial_hello_retry := i |> /\
    if c then exists f0, f = Some f0 /\ v1_resumption s = Some f0 /\ f0 <> S1New /\ f0 <> S1HelloSent
    else i = true /\ v1_resumption s = Some S1HelloSent) as (-> & c & f & i & -> & Hmode).
  { pose proof (iv_from _ Hi) as Hf. unfold v1_resumption, v1_hello_mode in *.
    destruct (s1_state s) eqn:Es; rewrite ?Es in *; try done; apply pair_equal_spec in Em as [<- <-]; (split; [done|]).
    2-4: eexists true, (Some _), (initial_hello_retry s); (split; [destruct s; reflexivity|]); eexists; (split; [done|]);
      destruct (reconnecting s); [|done]; destruct (Hf eq_refl) as (f & -> & ? & ? & [?|<-]); done.
    destruct (reconnecting s) eqn:Er.
    - exists true, (reconnect_from s), (initial_hello_retry s). split; [rewrite <- Er; destruct s; reflexivity|].
      destruct (Hf eq_refl) as (f & -> & ? & ? & _). by exists f.
    - exists false, (reconnect_from s), true. split; [rewrite <- Er; destruct s; reflexivity|done]. }
  unfold v1_hello. rewrite Em. proj1. rewrite bool_decide_eq_false_2, Hn by done. cbn [negb orb]. unfold v1_next_request. proj1.
  unfold v1_message_init. rewrite Hnonce, Hcnt.
  change (v1_lookup_kind (VStr (u (v1_kind_name V1_HELLO)))) with (Ok V1_HELLO).
  change (exact_object (VDict []) [] "HELLO payload") with (Ok (@nil (pystr * pyval))).
  cbn [result_bind bool_decide decide_rel is_none negb orb].
  eexists _, _. split; [reflexivity|]. split; [reflexivity|]. split; [reflexivity|]. by split; proj1.
Qed.

#[local] Ltac eval_states :=
  repeat match goal with |- context [@bool_decide (@eq (option v1_state) ?x ?y) ?d] =>
    let r := eval vm_compute in (@bool_decide (@eq (option v1_state) x y) d) in change (@bool_decide (@eq (option v1_state) x y) d) with r end;
  cbn [negb andb orb].

(** What a session that resumes from [f] makes of a SNAPSHOT. *)
Lemma v1_reconnect_continues s f state stop term : reconnect_from s = Some f -> f <> S1New -> f <> S1HelloSent ->
  (f <> S1Terminal -> s1_terminal s = None) ->
  let ' (s2, o) := v1_accept_reconnect s state stop term in
  (o = Ok tt <->
   match f with
   | S1Ready => state = SReady \/ state = STerminal /\ stop = None
   | S1StopSent => state = SReady \/ state = SStopping /\ stop = s1_stop_request_id s \/
       state = STerminal /\ (stop = None \/ stop = s1_stop_request_id s)
   | S1Terminal => state = STerminal /\ stop = terminal_stop_request_id s /\ term = s1_terminal s
   | _ => state = SReady
   end) /\
  (o = Ok tt -> s1_state s2 = (match state with SReady => S1Ready | SStopping => S1StopSent | STerminal => S1Terminal end) /\
     s1_terminal s2 = (match state with STerminal => term | _ => None end)).
Proof.
  intros Hf Hfn Hfh Hno. unfold v1_accept_reconnect. rewrite Hf. destruct f; try done; [specialize (Hno ltac:(done))..|]; clear Hf Hfn Hfh;
    destruct state; eval_states; repeat case_bool_decide; cbn [negb andb orb]; proj1; (split; [split; intros; try done; try tauto; intuition congruence|done]).
Qed.

(** What the answer to the HELLO does. *)
Lemma v1_transition_continues s n s1 m r state stop term : v1_inv s -> v1_restarted s n s1 m -> v1_answers s m r ->
  m1_payload r = P1Snapshot state stop term ->
  let ' (s2, o) := v1_accept_transition s1 r in
  (o = Ok tt <-> v1_continues s state stop term) /\
  (o = Ok tt -> s1_state s2 = (match state with SReady => S1Ready | SStopping => S1StopSent | STerminal => S1Terminal end) /\
     s1_terminal s2 = (match state with STerminal => term | _ => None end)).
Proof.
  intros Hi [_ _ Hreq _ _ Hstop [Ht Hts] Hst Hmode] [_ _ Hrep _ _] Hp. unfold v1_accept_transition. rewrite Hp, Hst.
  rewrite (bool_decide_eq_true_2 (m1_reply_to r = _)) by congruence. cbn [negb].
  pose proof (iv_terminal _ Hi) as Hterm. unfold v1_continues, v1_resumption in *.
  destruct (reconnecting s1) eqn:Er.
  - destruct Hmode as (f & Hf & Hr & Hfn & Hfh). rewrite Hr.
    assert (f <> S1Terminal -> s1_terminal s = None) as Hno.
    { intros Hne. destruct (s1_terminal s); [|done]. destruct (proj1 Hterm ltac:(by eexists)) as [E|(_ & Ec & E)].
      - destruct (reconnecting s) eqn:Ec; [|congruence]. destruct (iv_from _ Hi Ec) as (f' & ? & ? & ? & [?|?]); congruence.
      - rewrite Ec in Hr. congruence. }
    pose proof (v1_reconnect_continues s1 f state stop term Hf Hfn Hfh) as Hc. rewrite Ht, Hts, Hstop in Hc. specialize (Hc Hno).
    destruct (v1_accept_reconnect s1 state stop term). by destruct f.
  - destruct Hmode as [-> Hr]. rewrite Hr. assert (s1_terminal s = None) as Hno.
    { destruct (s1_terminal s); [|done]. destruct (proj1 Hterm ltac:(by eexists)) as [E|(_ & Ec & E)].
      - destruct (reconnecting s) eqn:Ec; [|congruence]. destruct (iv_from _ Hi Ec) as (f' & ? & ? & ? & [?|?]); congruence.
      - rewrite Ec in Hr. congruence. }
    destruct state; cbn [negb andb]; proj1; rewrite ?Ht; done.
Qed.

(** C25: from every session reachable past its first HELLO, with a fresh nonce and a
    request number left, a reconnecting HELLO is produced; and a SNAPSHOT that answers
    it (same binding and nonce, in reply to it, later in sequence than what was
    received, of the boot that was seen) is accepted exactly where what it reports
    continues what the session knew: readiness alone where nothing of the guest had
    been seen; readiness or an end without STOP where the guest had been seen ready;
    readiness, the STOP under way, or an end by that STOP or without one, where STOP
    had been sent; the same end, where it was known.  The session is then in the state
    that the SNAPSHOT reports. *)
Theorem v1_can_always_reconnect b s n : v1_steps (v1_session_init b) s -> s1_state s <> S1New ->
  is_hex32 n -> n ∉ s1_used_nonces s -> sent_request_id s < MAX_COUNTER ->
  exists s1 m, v1_hello s true (VStr n) = (s1, Ok m) /\
    m1_kind m = V1_HELLO /\ m1_binding m = b /\ m1_host_nonce m = n /\ m1_request_id m = Some (sent_request_id s + 1) /\
    forall r state stop term, v1_answers s m r -> m1_payload r = P1Snapshot state stop term ->
      let ' (s2, o) := v1_accept s1 r in
      (o = Ok tt <-> v1_continues s state stop term) /\
      (o = Ok tt -> s1_state s2 = (match state with SReady => S1Ready | SStopping => S1StopSent | STerminal => S1Terminal end) /\
         s1_terminal s2 = (match state with STerminal => term | _ => None end)).
Proof.
  intros Hr Hs Hn Hu Hc. pose proof (v1_reachable_inv _ _ Hr) as Hi.
  assert (s1_binding s = b) as Eb.
  { destruct (v1_keeps_steps _ _ Hr (v1_inv_init b)) as [_ Hpg]. by rewrite (pg1_binding _ _ Hpg). }
  destruct (v1_hello_restarts s n Hi Hs Hn Hu Hc) as (s1 & m & Hh & Hk & Hq & Hm). exists s1, m. split; [done|].
  pose proof Hm as [[Em Em1] [En En1] Erq Ercv Egen _ _ _ _]. split; [done|]. split; [congruence|]. split; [done|]. split; [done|].
  intros r state stop term Ha Hp. pose proof Ha as [Ab An Ar (q & Aq & Alt) Ag].
  unfold v1_accept. rewrite Ab, An, Aq, En, En1, Em. 
  rewrite (bool_decide_eq_false_2 (s1_binding s1 <> s1_binding s1)) by (intros H; by apply H).
  rewrite (bool_decide_eq_false_2 (Some n <> Some n)) by (intros H; by apply H).
  rewrite (bool_decide_eq_false_2 (Some n = None)) by done. rewrite (proj2 (Z.leb_gt _ _)) by lia. cbn [orb].
  assert (bool_decide (s1_boot_generation s1 <> None) && bool_decide (m1_boot_generation r <> s1_boot_generation s1) = false) as ->.
  { rewrite Egen. destruct (s1_boot_generation s) as [g|]; [|done]. rewrite Ag by (by eexists).
    by rewrite (bool_decide_eq_false_2 (Some g <> Some g)) by (intros H; by apply H). }
  pose proof (v1_transition_continues s n s1 m r state stop term Hi Hm Ha Hp) as Ht.
  destruct (v1_accept_transition s1 r) as [s2 [[]|e]]; cbn [result_bind]; [|exact Ht].
  destruct (s1_boot_generation s2); proj1; exact Ht.
Qed.

(** * Concrete instances *)

Definition result_get {A} (r : result A) (d : A) : A := match r with Ok a => a | Err _ => d end.

Definition ex1_binding : binding :=
  Eval vm_compute in Binding (u "11111111-1111-4111-8111-111111111111") (u ("sha256:" ++ String.concat "" (repeat "ab" 32)))
    (u ("sha256:" ++ String.concat "" (repeat "cd" 32))).
Definition ex1_nonce (c : string) : pystr := u (String.concat "" (repeat c 64)).
Definition ex1_a : pystr := Eval vm_compute in ex1_nonce "a".
Definition ex1_b : pystr := Eval vm_compute in ex1_nonce "b".
Definition ex1_generation : pystr := Eval vm_compute in u "22222222-2222-4222-8222-222222222222".
Definition ex1_none : v1_message := Message1 ex1_binding [] P1Hello None None None None.
Definition ex1_ready : v1_message :=
  Eval vm_compute in result_get (v1_message_init (VStr (u "READY")) ex1_binding (VStr ex1_a) (VDict []) VNone (VInt 1)
                                   (VStr ex1_generation) (VInt 1)) ex1_none.
Definition ex1_exit : pyval := VDict [(u "exit_code", VInt 0); (u "signal", VNone)].
Definition ex1_terminal : v1_message :=
  Eval vm_compute in result_get (v1_message_init (VStr (u "TERMINAL")) ex1_binding (VStr ex1_a)
    (VDict [(u "terminal", ex1_exit)]) VNone (VInt 2) (VStr ex1_generation) (VInt 2)) ex1_none.
Definition ex1_frame (m : v1_message) : bytes := result_get (v1_encode_frame m) [].
Definition ex1_ready_frame : bytes := Eval vm_compute in ex1_frame ex1_ready.
Definition ex1_terminal_frame : bytes := Eval vm_compute in ex1_frame ex1_terminal.

(** A run: HELLO, READY, STOP, TERMINAL. *)
Definition ex1_s0 : v1_session := Eval vm_compute in v1_session_init ex1_binding.
Definition ex1_s1 : v1_session := Eval vm_compute in (v1_hello ex1_s0 false (VStr ex1_a)).1.
Definition ex1_s2 : v1_session := Eval vm_compute in (v1_accept ex1_s1 ex1_ready).1.
Definition ex1_s3 : v1_session := Eval vm_compute in (v1_stop ex1_s2).1.
Definition ex1_stop : v1_message := Eval vm_compute in result_get (v1_stop ex1_s2).2 ex1_none.
Definition ex1_s4 : v1_session := Eval vm_compute in (v1_accept ex1_s3 ex1_terminal).1.
(** The transport is lost after STOP: HELLO again, the guest is still ready, and STOP again. *)
Definition ex1_s5 : v1_session := Eval vm_compute in (v1_hello ex1_s3 true (VStr ex1_b)).1.
Definition ex1_snap : v1_message :=
  Eval vm_compute in result_get (v1_message_init (VStr (u "SNAPSHOT")) ex1_binding (VStr ex1_b)
    (VDict [(u "state", VStr (u "ready")); (u "stop_request_id", VNone); (u "terminal", VNone)]) VNone (VInt 3)
    (VStr ex1_generation) (VInt 3)) ex1_none.
Definition ex1_s6 : v1_session := Eval vm_compute in (v1_accept ex1_s5 ex1_snap).1.
Definition ex1_s7 : v1_session := Eval vm_compute in (v1_stop ex1_s6).1.
Definition ex1_stop' : v1_message := Eval vm_compute in result_get (v1_stop ex1_s6).2 ex1_none.

Lemma ex1_init : v1_message_init (VStr (u "READY")) ex1_binding (VStr ex1_a) (VDict []) VNone (VInt 1)
    (VStr ex1_generation) (VInt 1) = Ok ex1_ready /\
  v1_message_init (VStr (u "TERMINAL")) ex1_binding (VStr ex1_a) (VDict [(u "terminal", ex1_exit)]) VNone (VInt 2)
    (VStr ex1_generation) (VInt 2) = Ok ex1_terminal /\
  v1_message_init (VStr (u "SNAPSHOT")) ex1_binding (VStr ex1_b)
    (VDict [(u "state", VStr (u "ready")); (u "stop_request_id", VNone); (u "terminal", VNone)]) VNone (VInt 3)
    (VStr ex1_generation) (VInt 3) = Ok ex1_snap.
Proof. by vm_compute. Qed.

Lemma ex1_messages : v1_constructed ex1_ready /\ v1_constructed ex1_terminal /\ v1_constructed ex1_snap.
Proof. destruct ex1_init as (H1 & H2 & H3). repeat split; repeat eexists; eassumption. Qed.

Lemma ex1_accept_ready : v1_accept ex1_s1 ex1_ready = (ex1_s2, Ok tt).
Proof. by vm_compute. Qed.
Lemma ex1_send_stop : v1_stop ex1_s2 = (ex1_s3, Ok ex1_stop).
Proof. by vm_compute. Qed.
Lemma ex1_send_stop' : v1_stop ex1_s6 = (ex1_s7, Ok ex1_stop').
Proof. by vm_compute. Qed.

Lemma ex1_run_hello : v1_steps (v1_session_init ex1_binding) ex1_s1.
Proof. apply rtc_once. eapply (v1_step_hello _ false (VStr ex1_a)). by vm_compute. Qed.
Lemma ex1_run_ready : v1_steps ex1_s1 ex1_s2.
Proof. apply rtc_once. eapply (v1_step_accept _ ex1_ready); [apply ex1_messages|apply ex1_accept_ready]. Qed.
Lemma ex1_run_stop : v1_steps ex1_s2 ex1_s3.
Proof. apply rtc_once. eapply v1_step_stop. apply ex1_send_stop. Qed.
Lemma ex1_run_terminal : v1_steps ex1_s3 ex1_s4.
Proof. apply rtc_once. eapply (v1_step_accept _ ex1_terminal); [apply ex1_messages|by vm_compute]. Qed.
Lemma ex1_run_reconnect : v1_steps ex1_s3 ex1_s6.
Proof.
  eapply rtc_l; [eapply (v1_step_hello _ true (VStr ex1_b)); by vm_compute|]. apply rtc_once.
  eapply (v1_step_accept _ ex1_snap); [apply ex1_messages|by vm_compute].
Qed.
Lemma ex1_reach_ready : v1_steps (v1_session_init ex1_binding) ex1_s2.
Proof. etrans; [exact ex1_run_hello|exact ex1_run_ready]. Qed.
Lemma ex1_reach_terminal : v1_steps (v1_session_init ex1_binding) ex1_s4.
Proof.
  etrans; [exact ex1_reach_ready|]. etrans; [exact ex1_run_stop|exact ex1_run_terminal].
Qed.

Lemma ex1_binding_ok : binding_ok ex1_binding.
Proof. split; [|split]; by vm_compute. Qed.

Lemma ex1_frames : Forall v1_message_ok [ex1_ready; ex1_terminal] /\
  Forall2 (fun m f => v1_encode_frame m = Ok f) [ex1_ready; ex1_terminal] [ex1_ready_frame; ex1_terminal_frame].
Proof.
  destruct ex1_init as (H1 & H2 & _). split.
  - apply Forall_cons. split; [by eapply v1_message_init_ok; [apply ex1_binding_ok| |exact H1]|].
    apply Forall_singleton. by eapply v1_message_init_ok; [apply ex1_binding_ok| |exact H2].
  - repeat constructor; by vm_compute.
Qed.

Lemma v1_chunked_stream_decodes_witness :
  v1_feed_chunks v1_decode_payload v1_decoder_init
    [take 2 ex1_ready_frame; drop 2 ex1_ready_frame ++ take 9 ex1_terminal_frame; drop 9 ex1_terminal_frame] =
  (v1_decoder_init, Ok [ex1_ready; ex1_terminal]).
Proof.
  exact (v1_chunked_stream_decodes _ _
    [take 2 ex1_ready_frame; drop 2 ex1_ready_frame ++ take 9 ex1_terminal_frame; drop 9 ex1_terminal_frame]
    (proj1 ex1_frames) (proj2 ex1_frames) eq_refl).
Defined.

Lemma v1_accepted_once_witness : exists e, v1_accept ex1_s6 ex1_ready = (ex1_s6, Err e).
Proof.
  refine (v1_accepted_once ex1_binding ex1_s1 ex1_ready ex1_s2 ex1_s6 ex1_run_hello _ ex1_accept_ready _).
  - apply ex1_messages.
  - etrans; [exact ex1_run_stop|exact ex1_run_reconnect].
Defined.

Lemma v1_terminal_is_final_witness :
  s1_terminal ex1_s4 = Some (Terminal (Some 0) None) /\ terminal_stop_request_id ex1_s4 = Some 2.
Proof.
  destruct (v1_terminal_is_final ex1_binding ex1_s4 ex1_s4 (Terminal (Some 0) None) ex1_reach_terminal eq_refl
              (rtc_refl _ _)) as (H & _).
  split; [exact H|reflexivity].
Defined.

Lemma v1_stop_is_retransmitted_witness :
  m1_request_id ex1_stop' = m1_request_id ex1_stop /\ m1_payload ex1_stop' = m1_payload ex1_stop.
Proof.
  exact (v1_stop_is_retransmitted ex1_binding ex1_s2 ex1_stop ex1_s3 ex1_s6 ex1_stop' ex1_s7 ex1_reach_ready
           ex1_send_stop ex1_run_reconnect ex1_send_stop').
Defined.

(** STOP was sent and the transport lost: the guest may be ready still, may be
    stopping, or may have ended; it may not report another STOP. *)
Lemma v1_can_always_reconnect_witness : exists s1 m, v1_hello ex1_s3 true (VStr ex1_b) = (s1, Ok m) /\
  v1_answers ex1_s3 m ex1_snap /\ (v1_accept s1 ex1_snap).2 = Ok tt /\ s1_state (v1_accept s1 ex1_snap).1 = S1Ready /\
  (forall r, v1_answers ex1_s3 m r -> m1_payload r = P1Snapshot SStopping (Some 2) None -> (v1_accept s1 r).2 = Ok tt) /\
  (forall r, v1_answers ex1_s3 m r -> m1_payload r = P1Snapshot SStopping (Some 3) None -> (v1_accept s1 r).2 <> Ok tt).
Proof.
  destruct (v1_can_always_reconnect ex1_binding ex1_s3 ex1_b) as (s1 & m & Hh & _ & Eb & En & Er & Hall).
  - etrans; [exact ex1_reach_ready|exact ex1_run_stop].
  - discriminate.
  - by vm_compute.
  - apply (bool_decide_unpack _). by vm_compute.
  - done.
  - exists s1, m. split; [exact Hh|].
    assert (v1_answers ex1_s3 m ex1_snap) as Ha by (split; [by rewrite Eb|by rewrite En|by rewrite Er|by exists 3|done]).
    split; [exact Ha|]. pose proof (Hall ex1_snap SReady None None Ha eq_refl) as Hs. destruct (v1_accept s1 ex1_snap) as [s2 o].
    assert (o = Ok tt) as Ho by (apply Hs; by left). split; [exact Ho|]. split; [by apply Hs|]. split.
    + intros r Hr Hp. specialize (Hall r _ _ _ Hr Hp). destruct (v1_accept s1 r). apply Hall. right. by left.
    + intros r Hr Hp. specialize (Hall r _ _ _ Hr Hp). destruct (v1_accept s1 r) as [s3 o3]. intros Ho3. apply Hall in Ho3 as [?|[[_ ?]|[? _]]]; discriminate.
Defined.
