(* ===== verification/Network.v ===== *)
(** Guest networking of an OCI-root run ([oci_network.py]): published ports, the
    network configuration, the QEMU argument vector it renders and the
    re-validation of a vector recovered from a domain. *)
From S2P Require Import Prelude Crypto PyStr PyVal Json Regex Digest ControlV2Wire.

(** * Constants *)

Definition OCI_NETWORK_SCHEMA : string := "palimpsest.oci-root-network.v1".
Definition OCI_NETWORK_BACKEND : string := "qemu-user-mode-slirp.v1".
Definition OCI_NETWORK_SUBNET : string := "10.0.2.0/24".
Definition OCI_NETWORK_GUEST_ADDRESS : string := "10.0.2.15".
Definition OCI_NETWORK_GATEWAY : string := "10.0.2.2".
Definition OCI_NETWORK_NETMASK : string := "255.255.255.0".
Definition OCI_NETWORK_NAMESERVER : string := "10.0.2.3".
Definition OCI_NETWORK_INTERFACE : string := "eth0".
Definition OCI_NETWORK_NETDEV_ID : string := "pnet0".
Definition OCI_NETWORK_PCI_BUS : string := "pcie.0".
Definition OCI_NETWORK_PCI_ADDRESS : string := "0x14".
Definition OCI_NETWORK_MAC_PREFIX : string := "52:54:00".
Definition OCI_NETWORK_LOOPBACK_HOST_IP : string := "127.0.0.1".
Definition OCI_NETWORK_WILDCARD_HOST_IP : string := "0.0.0.0".
Definition MAX_OCI_PUBLISHED_PORTS : Z := 32.
Definition MIN_OCI_PUBLISHED_HOST_PORT : Z := 1024.
Definition MAX_OCI_PORT : Z := 65535.

(** [OCI_NETWORK_MODES] *)
Inductive network_mode := NONE | NAT | HOST_ONLY.
#[export] Instance network_mode_eq_dec : EqDecision network_mode.
Proof. solve_decision. Defined.
Definition OCI_NETWORK_MODES : list network_mode := [NONE; NAT; HOST_ONLY].
Definition mode_name (m : network_mode) : string :=
  match m with NONE => "none" | NAT => "nat" | HOST_ONLY => "host-only" end.
Definition OCI_NETWORK_DEFAULT_MODE : network_mode := NAT.

(** [OCI_NETWORK_PROTOCOLS] *)
Inductive port_protocol := TCP | UDP.
#[export] Instance port_protocol_eq_dec : EqDecision port_protocol.
Proof. solve_decision. Defined.
Definition OCI_NETWORK_PROTOCOLS : list port_protocol := [TCP; UDP].
Definition protocol_name (p : port_protocol) : string := match p with TCP => "tcp" | UDP => "udp" end.

(** [value in NAMES]: the member of an enumeration a value names. *)
Definition lookup_name {A} (name : A -> string) (all : list A) (value : pyval) : option A :=
  match value with
  | VStr s => List.find (fun a => bool_decide (s = u (name a))) all
  | _ => None
  end.

(** [_IPV4_RE], [_MAC_SUFFIX_RE], [_PUBLISH_RE] *)
Definition seq_re (l : list re) : re := fold_right RCat REps l.
Definition octet_re : re := RAlt (chr 48) (RCat (RCls [(49, 57)]) (between 0 2 digit_re)).
Definition ipv4_re : re := RCat octet_re (rep 3 (RCat (chr 46) octet_re)).
Definition mac_suffix_re : re :=
  seq_re [rep 2 hex_re; chr 58; rep 2 hex_re; chr 58; rep 2 hex_re].
Definition host_ip_re : re := plus (RCls [(48, 57); (46, 46)]).
Definition port_re : re := between 1 4 digit_re.
Definition protocol_re : re := rep 3 (RCls [(97, 122)]).
Definition publish_re : re :=
  seq_re [opt (RCat host_ip_re (chr 58)); port_re; chr 58; port_re; opt (RCat (chr 47) protocol_re)].

(** * Host addresses *)

(** [_octets] *)
Definition octets (value : pyval) : option (list Z) :=
  match value with
  | VStr s =>
      if negb (fullmatch ipv4_re s) then None
      else
        let parts := map digits_value (split 46 s) in
        if existsb (fun item => 255 <? item) parts then None else Some parts
  | _ => None
  end.

Definition valid_host_bind_address (value : pyval) : bool :=
  match octets value with
  | None => false
  | Some parts => negb (224 <=? default 0 (head parts))
  end.

Definition loopback_host_bind_address (value : pyval) : bool :=
  match octets value with
  | None => false
  | Some parts => default 0 (head parts) =? 127
  end.

(** * [OCIPublishedPort] *)

Record published_port := PublishedPort {
  host_ip : pystr;
  host_port : Z;
  guest_port : Z;
  protocol : port_protocol;
}.
#[export] Instance published_port_eq_dec : EqDecision published_port.
Proof. solve_decision. Defined.

Definition port_number (label : string) (port : pyval) : result Z :=
  match port with
  | VInt p =>
      if (1 <=? p) && (p <=? MAX_OCI_PORT) then Ok p
      else Err ("published " ++ label ++ " port must be between 1 and 65535")%string
  | _ => Err ("published " ++ label ++ " port must be between 1 and 65535")%string
  end.

(** [OCIPublishedPort.__post_init__] *)
Definition published_port_init (ip hp gp proto : pyval) : result published_port :=
  match ip with
  | VStr address =>
      raise "published port host address must be an IPv4 literal" when negb (valid_host_bind_address ip) ;;
      let? h := port_number "host" hp in
      let? g := port_number "guest" gp in
      raise "published host port must be 1024 or above; the VM process never receives privileged-port authority"
        when h <? MIN_OCI_PUBLISHED_HOST_PORT ;;
      match lookup_name protocol_name OCI_NETWORK_PROTOCOLS proto with
      | None => Err "published port protocol must be tcp or udp"
      | Some p => Ok (PublishedPort address h g p)
      end
  | _ => Err "published port host address must be an IPv4 literal"
  end.

Definition external (p : published_port) : bool := negb (loopback_host_bind_address (VStr (host_ip p))).

Definition identity (p : published_port) : pystr * Z * port_protocol := (host_ip p, host_port p, protocol p).

Definition port_to_dict (p : published_port) : list (pystr * pyval) :=
  [(u "guest_port", VInt (guest_port p)); (u "host_ip", VStr (host_ip p)); (u "host_port", VInt (host_port p));
   (u "protocol", VStr (u (protocol_name (protocol p))))].

Definition port_from_dict (value : pyval) : result published_port :=
  let? d := exact value ["guest_port"; "host_ip"; "host_port"; "protocol"] "published port fields are invalid" in
  published_port_init (d.["host_ip"]) (d.["host_port"]) (d.["guest_port"]) (d.["protocol"]).

(** [_PUBLISH_RE.fullmatch(value)] with its groups: the protocol follows the
    only slash, the address is present when there are two colons. *)
Definition publish_match (s : pystr) : option (option pystr * pystr * pystr * option pystr) :=
  if negb (fullmatch publish_re s) then None
  else
    let ' (front, proto) := match split 47 s with [f; p] => (f, Some p) | _ => (s, None) end in
    match split 58 front with
    | [hp; gp] => Some (None, hp, gp, proto)
    | [ip; hp; gp] => Some (Some ip, hp, gp, proto)
    | _ => None
    end.

(** [text or default] *)
Definition or_default (o : option pystr) (d : pystr) : pystr :=
  match o with Some (c :: s) => c :: s | _ => d end.

Definition from_override_value (value : pyval) : result published_port :=
  match value with
  | VStr s =>
      match publish_match s with
      | None => Err "published port must be [HOST_IP:]HOST_PORT:GUEST_PORT[/tcp|/udp]; port ranges and container-only ports are unsupported"
      | Some (ip, hp, gp, proto) =>
          raise "published port numbers must be canonical decimals"
            when negb (bool_decide (hp = str_of_int (digits_value hp))) ||
                 negb (bool_decide (gp = str_of_int (digits_value gp))) ;;
          published_port_init (VStr (or_default ip (u OCI_NETWORK_LOOPBACK_HOST_IP))) (VInt (digits_value hp))
            (VInt (digits_value gp)) (VStr (or_default proto (u "tcp")))
      end
  | _ => Err "published port must be a string"
  end.

(** * [OCINetworkConfig] *)

Record network_config := NetworkConfig { mode : network_mode; published_ports : list published_port }.

Definition is_wildcard (p : published_port) : bool := bool_decide (host_ip p = u OCI_NETWORK_WILDCARD_HOST_IP).
Definition endpoint_key (p : published_port) : Z * port_protocol := (host_port p, protocol p).

(** [OCINetworkConfig.__post_init__] *)
Definition network_config_init (mode_value : pyval) (ports : list published_port) : result network_config :=
  match lookup_name mode_name OCI_NETWORK_MODES mode_value with
  | None => Err "OCI run network mode must be nat, host-only, or none"
  | Some m =>
      raise "at most 32 ports can be published for one run" when MAX_OCI_PUBLISHED_PORTS <? zlen ports ;;
      raise "--publish requires --network nat or --network host-only"
        when bool_decide (m = NONE) && negb (bool_decide (ports = [])) ;;
      raise "host-only networking publishes to loopback addresses only; use --network nat for external exposure"
        when bool_decide (m = HOST_ONLY) && existsb external ports ;;
      raise "published host listeners must be unique" when negb (bool_decide (NoDup (map identity ports))) ;;
      let wildcard := map endpoint_key (List.filter is_wildcard ports) in
      let specific := map endpoint_key (List.filter (fun p => negb (is_wildcard p)) ports) in
      raise "a published port cannot use both a wildcard and a specific host address"
        when existsb (fun k => bool_decide (k ∈ specific)) wildcard ;;
      Ok (NetworkConfig m ports)
  end.

Definition enabled (c : network_config) : bool := bool_decide (mode c <> NONE).
Definition egress (c : network_config) : bool := bool_decide (mode c = NAT).
Definition nameservers (c : network_config) : list pystr :=
  if egress c then [u OCI_NETWORK_NAMESERVER] else [].
Definition external_ports (c : network_config) : list published_port := List.filter external (published_ports c).

Definition if_enabled (c : network_config) (s : string) : pystr := if enabled c then u s else [].

Definition network_to_dict (c : network_config) : list (pystr * pyval) :=
  [(u "backend", if enabled c then VStr (u OCI_NETWORK_BACKEND) else VNone);
   (u "mode", VStr (u (mode_name (mode c))));
   (u "published_ports", VList (map (fun p => VDict (port_to_dict p)) (published_ports c)));
   (u "schema", VStr (u OCI_NETWORK_SCHEMA));
   (u "subnet", if enabled c then VStr (u OCI_NETWORK_SUBNET) else VNone)].

(** [kernel_cmdline_fragment] *)
Definition kernel_cmdline_fragment (c : network_config) : pystr :=
  if negb (enabled c) then []
  else fold_left (fun fragment nameserver => fragment ++ u ":" ++ nameserver) (nameservers c)
         (u "ip=" ++ u OCI_NETWORK_GUEST_ADDRESS ++ u "::" ++ u OCI_NETWORK_GATEWAY ++ u ":" ++
          u OCI_NETWORK_NETMASK ++ u "::" ++ u OCI_NETWORK_INTERFACE ++ u ":off").

(** [endpoints] *)
Definition endpoints (c : network_config) : list pystr :=
  map (fun p => host_ip p ++ u ":" ++ str_of_int (host_port p) ++ u "->" ++ u OCI_NETWORK_GUEST_ADDRESS ++ u ":" ++
                str_of_int (guest_port p) ++ u "/" ++ u (protocol_name (protocol p))) (published_ports c).

(** One [hostfwd] option. *)
Definition hostfwd (p : published_port) : pystr :=
  u "hostfwd=" ++ u (protocol_name (protocol p)) ++ u ":" ++ host_ip p ++ u ":" ++ str_of_int (host_port p) ++
  u "-:" ++ str_of_int (guest_port p).

Section mac.
Context `{Hash}.

Definition mac_error : string := "OCI network MAC derivation requires a canonical run ID".

Definition guest_mac_address (run_id : pystr) : result pystr :=
  match v_uuid (VStr run_id) "run ID" with
  | Err _ => Err mac_error
  | Ok canonical =>
      let digest := hex (sha256 (u "palimpsest-oci-root-network-mac-v1" ++ [0] ++ canonical)) in
      let suffix := join (u ":") [take 2 digest; take 2 (drop 2 digest); take 2 (drop 4 digest)] in
      raise "derived OCI network MAC is invalid" when negb (fullmatch mac_suffix_re suffix) ;;
      Ok (u OCI_NETWORK_MAC_PREFIX ++ u ":" ++ suffix)
  end.

Definition guest_contract (c : network_config) (run_id : pystr) : result (list (pystr * pyval)) :=
  let? mac := if enabled c then guest_mac_address run_id else Ok [] in
  Ok [(u "address", VStr (if_enabled c OCI_NETWORK_GUEST_ADDRESS));
      (u "gateway", VStr (if_enabled c OCI_NETWORK_GATEWAY));
      (u "interface", VStr (u OCI_NETWORK_INTERFACE));
      (u "mac", VStr mac);
      (u "mode", VStr (u (mode_name (mode c))));
      (u "nameservers", VList (map VStr (nameservers c)));
      (u "netmask", VStr (if_enabled c OCI_NETWORK_NETMASK))].

(** The options of the netdev before the forwards, and the device. *)
Definition netdev_options (nat : bool) : list pystr :=
  [u "user"; u "id=" ++ u OCI_NETWORK_NETDEV_ID; u "net=" ++ u OCI_NETWORK_SUBNET; u "host=" ++ u OCI_NETWORK_GATEWAY] ++
  (if nat then [u "dns=" ++ u OCI_NETWORK_NAMESERVER] else [u "restrict=on"]).

Definition device_option (mac : pystr) : pystr :=
  u "virtio-net-pci,netdev=" ++ u OCI_NETWORK_NETDEV_ID ++ u ",mac=" ++ mac ++ u ",bus=" ++ u OCI_NETWORK_PCI_BUS ++
  u ",addr=" ++ u OCI_NETWORK_PCI_ADDRESS.

Definition qemu_arguments (c : network_config) (run_id : pystr) : result (list pystr) :=
  if negb (enabled c) then Ok []
  else
    let options := netdev_options (egress c) ++ map hostfwd (published_ports c) in
    let? mac := guest_mac_address run_id in
    Ok [u "-netdev"; join (u ",") options; u "-device"; device_option mac].

(** [_plain] *)
Fixpoint plain (v : pyval) : pyval :=
  match v with
  | VDict d => VDict (map (fun kv => (kv.1, plain kv.2)) d)
  | VList l | VTuple l => VList (map plain l)
  | v => v
  end.

Definition network_from_dict (value : pyval) : result network_config :=
  let? d := exact value ["backend"; "mode"; "published_ports"; "schema"; "subnet"] "OCI run network fields are invalid" in
  raise "OCI run network schema is invalid" when negb (py_eqb (d.["schema"]) (VStr (u OCI_NETWORK_SCHEMA))) ;;
  match d.["published_ports"] with
  | VList raw | VTuple raw =>
      let? ports := map_result port_from_dict raw in
      let? c := network_config_init (d.["mode"]) ports in
      raise "OCI run network contract is not canonical"
        when negb (py_eqb (VDict (network_to_dict c)) (plain (VDict d))) ;;
      Ok c
  | _ => Err "OCI run published ports are invalid"
  end.

Definition from_guest_contract (value : pyval) (run_id : pystr) : result network_config :=
  let? d := exact value ["address"; "gateway"; "interface"; "mac"; "mode"; "nameservers"; "netmask"]
              "OCI guest network fields are invalid" in
  let? c := network_config_init (d.["mode"]) [] in
  let? contract := guest_contract c run_id in
  raise "OCI guest network contract is not canonical" when negb (py_eqb (VDict contract) (plain (VDict d))) ;;
  Ok c.

(** [resolve]; [None] is the missing argument *)
Definition resolve (mode_value published : pyval) : result network_config :=
  let mode_value := match mode_value with VNone => VStr (u (mode_name OCI_NETWORK_DEFAULT_MODE)) | v => v end in
  match published with
  | VNone => network_config_init mode_value []
  | VList items | VTuple items =>
      let? ports := map_result from_override_value items in
      network_config_init mode_value ports
  | _ => Err "OCI run published ports must be a sequence of strings"
  end.

(** * Re-validation of a QEMU argument vector *)

(** [_NETDEV_RE] and [_DEVICE_RE] *)
Definition dotted_re : re := RCat (rep 3 (RCat (between 1 2 digit_re) (chr 46))) (between 1 2 digit_re).
Definition hostfwd_re : re :=
  seq_re [lit (u ",hostfwd="); RAlt (lit (u "tcp")) (lit (u "udp")); chr 58; dotted_re; chr 58; port_re; lit (u "-:"); port_re].
Definition netdev_re : re :=
  seq_re [lit (u "user,id=" ++ u OCI_NETWORK_NETDEV_ID ++ u ",net=" ++ u OCI_NETWORK_SUBNET ++ u ",host=" ++
               u OCI_NETWORK_GATEWAY);
          RAlt (lit (u ",dns=" ++ u OCI_NETWORK_NAMESERVER)) (lit (u ",restrict=on")); RStar hostfwd_re].
Definition device_re : re :=
  seq_re [lit (u "virtio-net-pci,netdev=" ++ u OCI_NETWORK_NETDEV_ID ++ u ",mac=" ++ u OCI_NETWORK_MAC_PREFIX);
          rep 3 (RCat (chr 58) (rep 2 hex_re));
          lit (u ",bus=" ++ u OCI_NETWORK_PCI_BUS ++ u ",addr=" ++ u OCI_NETWORK_PCI_ADDRESS)].

(** [s.split(c, n)]: at most [n] cuts *)
Fixpoint split_max (n : nat) (c : Z) (s : pystr) : list pystr :=
  match n with
  | O => [s]
  | S n =>
      (fix go s := match s with
       | [] => [[]]
       | x :: s =>
           if x =? c then [] :: split_max n c s
           else match go s with w :: ws => (x :: w) :: ws | [] => [[x]] end
       end) s
  end.

(** [s.split(sep, 1)] on a separator of several characters *)
Fixpoint cut_at (sep s : pystr) : option (pystr * pystr) :=
  if startswith sep s then Some ([], drop (length sep) s)
  else match s with
       | [] => None
       | x :: s => match cut_at sep s with Some (a, b) => Some (x :: a, b) | None => None end
       end.

(** The body of the loop over the forwards; a failed unpacking is Python's [ValueError]. *)
Definition check_forward (forward : pystr) : result published_port :=
  match split_max 2 58 (drop (length (u "hostfwd=")) forward) with
  | [proto; ip; endpoint] =>
      match cut_at (u "-:") endpoint with
      | Some (hp, gp) => published_port_init (VStr ip) (VInt (digits_value hp)) (VInt (digits_value gp)) (VStr proto)
      | None => Err "ValueError"
      end
  | _ => Err "ValueError"
  end.

Definition as_str (v : pyval) : result pystr :=
  match v with VStr s => Ok s | _ => Err "OCI-root QEMU network argument vector is invalid" end.

Definition validated_qemu_arguments (values : pyval) : result (list pystr) :=
  match values with
  | VList items | VTuple items =>
      raise "OCI-root QEMU network argument vector is invalid" when negb (length items =? 4)%nat ;;
      let? arguments := map_result as_str items in
      match arguments with
      | [a0; a1; a2; a3] =>
          raise "OCI-root QEMU network argument order is invalid"
            when negb (bool_decide (a0 = u "-netdev")) || negb (bool_decide (a2 = u "-device")) ;;
          raise "OCI-root QEMU network argument value is invalid"
            when negb (fullmatch netdev_re a1) || negb (fullmatch device_re a3) ;;
          let forwards := List.filter (startswith (u "hostfwd=")) (split 44 a1) in
          raise "OCI-root QEMU network forwarding set is invalid"
            when (MAX_OCI_PUBLISHED_PORTS <? zlen forwards) || negb (bool_decide (NoDup forwards)) ;;
          let? _ := map_result check_forward forwards in
          Ok arguments
      | _ => Err "OCI-root QEMU network argument vector is invalid"
      end
  | _ => Err "OCI-root QEMU network arguments are invalid"
  end.
End mac.
