(* ===== verification/NetworkFacts.v ===== *)
(** Published ports and network configurations: what construction guarantees,
    and the text of addresses, forwards and option vectors. *)
From S2P Require Import Prelude Crypto PyStr PyVal Json Regex Digest ControlV2Wire ControlV2Message Network.

(** * Construction *)

Lemma lookup_name_Some {A} (name : A -> string) all v a : lookup_name name all v = Some a ->
  a ∈ all /\ v = VStr (u (name a)).
Proof.
  unfold lookup_name. destruct v; try done. intros H. apply List.find_some in H as [? H]. bool_norm. subst.
  split; [by apply list_elem_of_In|done].
Qed.

Lemma lookup_mode m : lookup_name mode_name OCI_NETWORK_MODES (VStr (u (mode_name m))) = Some m.
Proof. by destruct m. Qed.
Lemma lookup_protocol p : lookup_name protocol_name OCI_NETWORK_PROTOCOLS (VStr (u (protocol_name p))) = Some p.
Proof. by destruct p. Qed.

Definition port_ok (p : published_port) : Prop :=
  valid_host_bind_address (VStr (host_ip p)) = true /\
  MIN_OCI_PUBLISHED_HOST_PORT <= host_port p <= MAX_OCI_PORT /\ 1 <= guest_port p <= MAX_OCI_PORT.

Lemma port_number_Ok l v p : port_number l v = Ok p <-> v = VInt p /\ 1 <= p <= MAX_OCI_PORT.
Proof.
  destruct v as [| |z| | | | |]; cbn [port_number]; try (split; [done|by intros [? _]]).
  destruct (_ && _) eqn:E; split.
  - intros [= ->]. bool_norm. done.
  - by intros [[= ->] _].
  - done.
  - intros [[= ->] [H1 H2]]. apply andb_false_iff in E as [E|E]; bool_norm; lia.
Qed.

Lemma published_port_init_Ok ip hp gp proto p : published_port_init ip hp gp proto = Ok p <->
  ip = VStr (host_ip p) /\ hp = VInt (host_port p) /\ gp = VInt (guest_port p) /\
  proto = VStr (u (protocol_name (protocol p))) /\ port_ok p.
Proof.
  split.
  - unfold published_port_init. destruct ip; try done. intros H.
    inv_ok. bool_norm. apply port_number_Ok in E as [-> ?], E0 as [-> ?].
    match goal with M : lookup_name _ _ _ = Some _ |- _ => apply lookup_name_Some in M as [_ ->] end.
    unfold port_ok, MIN_OCI_PUBLISHED_HOST_PORT in *. cbn. repeat split; try done; lia.
  - intros (-> & -> & -> & -> & Hv & Hh & Hg). unfold published_port_init, port_number.
    rewrite Hv, lookup_protocol. unfold MIN_OCI_PUBLISHED_HOST_PORT, MAX_OCI_PORT in *. cbn [negb].
    rewrite !(proj2 (Z.leb_le _ _)) by lia. cbn [andb result_bind].
    rewrite (proj2 (Z.ltb_ge _ _)) by lia. by destruct p.
Qed.

(** The invariant of a configuration. *)
Record config_ok (c : network_config) : Prop := {
  co_ports : Forall port_ok (published_ports c);
  co_length : zlen (published_ports c) <= MAX_OCI_PUBLISHED_PORTS;
  co_none : mode c = NONE -> published_ports c = [];
  co_loopback : mode c = HOST_ONLY -> Forall (fun p => external p = false) (published_ports c);
  co_unique : NoDup (map identity (published_ports c));
  co_wildcard p q : p ∈ published_ports c -> q ∈ published_ports c -> is_wildcard p = true ->
    endpoint_key p = endpoint_key q -> is_wildcard q = true;
}.

Lemma existsb_false {A} (f : A -> bool) l : existsb f l = false <-> Forall (fun a => f a = false) l.
Proof.
  induction l as [|a l IH]; simpl; [by split|]. rewrite orb_false_iff, IH, Forall_cons. done.
Qed.

Lemma elem_of_filter_map {A B} (f : A -> B) (g : A -> bool) l b :
  b ∈ map f (List.filter g l) <-> exists a, a ∈ l /\ g a = true /\ b = f a.
Proof.
  rewrite list_elem_of_In, in_map_iff. setoid_rewrite filter_In. setoid_rewrite list_elem_of_In. naive_solver.
Qed.

Lemma network_config_init_Ok mv ports c : Forall port_ok ports ->
  network_config_init mv ports = Ok c <->
  mv = VStr (u (mode_name (mode c))) /\ ports = published_ports c /\ config_ok c.
Proof.
  intros Hp. unfold network_config_init. split.
  - intros H. inv_ok. apply lookup_name_Some in M as [_ ->]. cbn [mode published_ports]. split; [done|]. split; [done|].
    bool_norm. apply existsb_false in G3. rewrite Forall_forall in G3. apply andb_false_iff in G0, G1.
    split; cbn [mode published_ports]; try done.
    + intros ->. destruct G0 as [G0|G0]; bool_norm; done.
    + intros ->. destruct G1 as [G1|G1]; bool_norm; [done|]. by apply existsb_false.
    + intros p q Hpp Hq Hw He. destruct (is_wildcard q) eqn:Eq; [done|]. exfalso.
      specialize (G3 (endpoint_key p)). rewrite elem_of_filter_map in G3.
      specialize (G3 (ex_intro _ p (conj Hpp (conj Hw eq_refl)))). apply bool_decide_eq_false in G3. apply G3.
      apply elem_of_filter_map. exists q. by rewrite Eq.
  - intros (-> & -> & Hc). rewrite lookup_mode. rewrite (proj2 (Z.ltb_ge _ _)) by apply Hc.
    assert (bool_decide (mode c = NONE) && negb (bool_decide (published_ports c = [])) = false) as ->.
    { apply andb_false_iff. destruct (decide (mode c = NONE)) as [E|E]; [right|left].
      - apply negb_false_iff, bool_decide_eq_true. by apply Hc.
      - by apply bool_decide_eq_false. }
    assert (bool_decide (mode c = HOST_ONLY) && existsb external (published_ports c) = false) as ->.
    { apply andb_false_iff. destruct (decide (mode c = HOST_ONLY)) as [E|E]; [right|left].
      - apply existsb_false. by apply Hc.
      - by apply bool_decide_eq_false. }
    rewrite (bool_decide_eq_true_2 (NoDup _)) by apply Hc. cbn [negb].
    assert (forall x y, existsb (fun k : Z * port_protocol => bool_decide (k ∈ map endpoint_key (List.filter x (published_ports c))))
      (map endpoint_key (List.filter y (published_ports c))) = false <->
      forall p q, p ∈ published_ports c -> q ∈ published_ports c -> y p = true -> x q = true ->
        endpoint_key p <> endpoint_key q) as Hex.
    { intros x y. rewrite existsb_false, Forall_forall. split.
      - intros H p q Hpp Hq Hy Hx E. specialize (H (endpoint_key p)). rewrite elem_of_filter_map in H.
        specialize (H (ex_intro _ p (conj Hpp (conj Hy eq_refl)))). apply bool_decide_eq_false in H. apply H.
        apply elem_of_filter_map. by exists q.
      - intros H k (p & Hpp & Hy & ->)%elem_of_filter_map. apply bool_decide_eq_false.
        intros (q & Hq & Hx & E)%elem_of_filter_map. by apply (H p q). }
    rewrite (proj2 (Hex _ _)); [by destruct c|].
    intros p q Hpp Hq Hw Hnw E. apply negb_true_iff in Hnw. rewrite (co_wildcard _ Hc p q) in Hnw; done.
Qed.

Lemma port_from_dict_Ok v p : port_from_dict v = Ok p -> port_ok p.
Proof. unfold port_from_dict. intros H. inv_ok. by apply published_port_init_Ok in H as (_ & _ & _ & _ & ?). Qed.

Lemma port_from_to_dict p : port_ok p -> port_from_dict (VDict (port_to_dict p)) = Ok p.
Proof.
  intros Hp. unfold port_from_dict, port_to_dict. read_dict. by apply published_port_init_Ok.
Qed.

(** * Round trips *)

Lemma map_result_ports ports : Forall port_ok ports ->
  map_result port_from_dict (map (fun p => VDict (port_to_dict p)) ports) = Ok ports.
Proof. intros H. apply map_result_Ok. induction H; constructor; [by apply port_from_to_dict|done]. Qed.

Lemma wf_strings l : Forall wf_val (map VStr l).
Proof. induction l; constructor; [constructor|done]. Qed.

(** A dict literal is well formed when its keys are distinct. *)
Ltac wf_dict := apply WfDict; [apply NoDup_decide; vm_compute; reflexivity|repeat constructor].

Lemma wf_port p : wf_val (VDict (port_to_dict p)).
Proof. wf_dict. Qed.

Lemma wf_network c : wf_val (VDict (network_to_dict c)).
Proof.
  unfold network_to_dict. wf_dict; cbn [snd]; try by destruct (enabled c); constructor.
  induction (published_ports c); constructor; [apply wf_port|done].
Qed.

(** [_plain] leaves a value without tuples as it is. *)
Fixpoint no_tuple (v : pyval) : bool :=
  match v with
  | VTuple _ => false
  | VList l => forallb no_tuple l
  | VDict d => forallb (fun kv => no_tuple kv.2) d
  | _ => true
  end.

Lemma plain_id v : no_tuple v = true -> plain v = v.
Proof.
  induction v as [|b|z|f|t|l IH|l IH|d IH] using pyval_ind'; intros Hn; cbn [plain no_tuple] in *; try done; f_equal.
  - induction IH as [|v l Hv _ IHl]; [done|]. cbn [forallb map] in *. bool_norm. f_equal; auto.
  - induction IH as [|[k v] d Hv _ IHd]; [done|]. cbn [forallb map fst snd] in *. bool_norm. f_equal; [|by auto].
    f_equal. auto.
Qed.

Lemma plain_network c : plain (VDict (network_to_dict c)) = VDict (network_to_dict c).
Proof.
  apply plain_id. unfold network_to_dict. cbn [no_tuple forallb snd]. rewrite !andb_true_iff.
  repeat split; try by destruct (enabled c). induction (published_ports c); done.
Qed.

Lemma no_nan_network c : no_nan (VDict (network_to_dict c)) = true.
Proof.
  unfold network_to_dict. cbn [no_nan forallb snd]. rewrite !andb_true_iff. repeat split; try by destruct (enabled c).
  induction (published_ports c); done.
Qed.

Lemma network_from_to_dict c : config_ok c -> network_from_dict (VDict (network_to_dict c)) = Ok c.
Proof.
  intros Hc. unfold network_from_dict.
  assert (py_eqb (VDict (network_to_dict c)) (plain (VDict (network_to_dict c))) = true) as Heq
    by (rewrite plain_network; apply py_eqb_refl; [apply wf_network|apply no_nan_network]).
  rewrite exact_VDict by reflexivity. cbn [result_bind].
  assert (forall k, In k ["mode"; "published_ports"; "schema"] -> dict_get_none (network_to_dict c) (u k) =
    if String.eqb k "mode" then VStr (u (mode_name (mode c)))
    else if String.eqb k "schema" then VStr (u OCI_NETWORK_SCHEMA)
    else VList (map (fun p => VDict (port_to_dict p)) (published_ports c))) as Hread.
  { intros k [<-|[<-|[<-|[]]]]; unfold network_to_dict; by read_dict. }
  rewrite !Hread by (simpl; auto). cbn [String.eqb Ascii.eqb Bool.eqb].
  rewrite (proj2 (py_eqb_str _ _)) by done. cbn [negb]. rewrite map_result_ports by apply Hc. cbn [result_bind].
  rewrite (proj2 (network_config_init_Ok _ _ c (co_ports _ Hc))) by done. cbn [result_bind]. by rewrite Heq.
Qed.

Lemma network_from_dict_Ok v c : network_from_dict v = Ok c ->
  config_ok c /\ py_eqb (VDict (network_to_dict c)) (plain v) = true.
Proof.
  unfold network_from_dict. intros H. apply result_bind_Ok in H as (d & Hd & H). apply exact_Ok in Hd as [-> _].
  destruct (negb (py_eqb _ _)); [done|].
  assert (exists raw, (let? ports := map_result port_from_dict raw in
      let? c := network_config_init (d.["mode"]) ports in
      raise "OCI run network contract is not canonical"
        when negb (py_eqb (VDict (network_to_dict c)) (plain (VDict d))) ;; Ok c) = Ok c) as [raw H']
    by (destruct (d.["published_ports"]); try done; eauto).
  clear H. apply result_bind_Ok in H' as (ports & Hp & H). apply result_bind_Ok in H as (c' & Hc & H).
  inv_ok. bool_norm. split; [|done].
  apply network_config_init_Ok in Hc as (_ & _ & ?); [done|].
  apply map_result_Ok in Hp. clear -Hp. induction Hp; constructor; [by eapply port_from_dict_Ok|done].
Qed.

Section guest.
Context `{Hash}.

Lemma guest_from_contract c run_id d : config_ok c -> guest_contract c run_id = Ok d ->
  from_guest_contract (VDict d) run_id = Ok (NetworkConfig (mode c) []).
Proof.
  intros Hc Hd.
  assert (guest_contract (NetworkConfig (mode c) []) run_id = Ok d) as Hd' by exact Hd.
  unfold guest_contract in Hd. apply result_bind_Ok in Hd as (mac & _ & Hd). apply (inj Ok) in Hd.
  assert (py_eqb (VDict d) (plain (VDict d)) = true) as Heq.
  { rewrite plain_id by (subst d; unfold nameservers; by destruct (egress c)).
    apply py_eqb_refl; subst d; [|unfold nameservers; by destruct (egress c)].
    wf_dict. apply wf_strings. }
  unfold from_guest_contract. rewrite exact_VDict by by subst d. cbn [result_bind].
  assert (d.["mode"] = VStr (u (mode_name (mode c)))) as -> by (subst d; by read_dict).
  rewrite (proj2 (network_config_init_Ok _ [] (NetworkConfig (mode c) []) (Forall_nil_2 _))).
  2: { split; [done|]. split; [done|]. split; cbn; try done; try constructor. intros p q Hp. by apply not_elem_of_nil in Hp. }
  cbn [result_bind]. rewrite Hd'. cbn [result_bind]. by rewrite Heq.
Qed.
End guest.

(** * The text of addresses and numbers *)

Definition number_text (s : pystr) : Prop := lang port_re s.

Lemma number_text_int n : 0 <= n <= MAX_OCI_PORT -> number_text (str_of_int n).
Proof.
  intros Hn. rewrite str_of_int_nonneg by lia. apply lang_between_cls. split.
  - split; [pose proof (digits_nonempty n ltac:(lia)); destruct (digits n); [done|cbn; lia]|].
    apply length_digits; [lia|unfold MAX_OCI_PORT in *; simpl; lia|lia].
  - eapply Forall_impl; [apply digits_digits; lia|]. intros c Hc. unfold is_digit in Hc. bool_norm. apply in_digit. lia.
Qed.

Lemma digits_value_str n : 0 <= n -> digits_value (str_of_int n) = n.
Proof. intros Hn. rewrite str_of_int_nonneg by done. by apply digits_value_digits. Qed.

Definition octet_text (s : pystr) : Prop := lang (between 1 2 digit_re) s.

Lemma octet_re_text s : lang octet_re s -> octet_text s.
Proof.
  intros [->%lang_chr|(a & b & -> & (c & -> & Hc)%lang_cls & [Hl Hb]%lang_between_cls)%lang_cat_inv]%lang_alt_inv;
    apply lang_between_cls.
  - split; [cbn; lia|]. by constructor.
  - split; [cbn in *; lia|]. constructor; [|done]. unfold in_cls in Hc. cbn in Hc. rewrite orb_false_r in Hc. bool_norm.
    apply in_digit. lia.
Qed.

(** A dotted quad. *)
Definition quad (s a b c d : pystr) : Prop :=
  s = a ++ 46 :: b ++ 46 :: c ++ 46 :: d /\ octet_text a /\ octet_text b /\ octet_text c /\ octet_text d.

Lemma ipv4_quad s : lang ipv4_re s -> exists a b c d, quad s a b c d.
Proof.
  unfold ipv4_re. cbn [rep]. intros (a & r & -> & Ha & Hr)%lang_cat_inv.
  assert (forall n x, lang (RCat (RCat (chr 46) octet_re) n) x -> exists y z, x = 46 :: y ++ z /\ octet_text y /\ lang n z) as Hstep.
  { intros n x (dy & z & -> & (dot & y & -> & ->%lang_chr & Hy)%lang_cat_inv & Hz)%lang_cat_inv.
    exists y, z. by split; [|split; [apply octet_re_text|]]. }
  apply Hstep in Hr as (b & r1 & -> & Hb & Hr). apply Hstep in Hr as (c & r2 & -> & Hc & Hr).
  apply Hstep in Hr as (d & r3 & -> & Hd & ->%lang_eps). rewrite app_nil_r.
  exists a, b, c, d. split; [done|]. split; [by apply octet_re_text|done].
Qed.

Lemma quad_dotted s a b c d : quad s a b c d -> lang dotted_re s.
Proof.
  intros (-> & Ha & Hb & Hc & Hd). unfold dotted_re. cbn [rep].
  assert (forall x y n, octet_text x -> lang n y -> lang (RCat (RCat (between 1 2 digit_re) (chr 46)) n) (x ++ 46 :: y)) as Hstep.
  { intros x y n Hx Hy. change (x ++ 46 :: y) with (x ++ [46] ++ y). rewrite app_assoc. constructor; [|done].
    constructor; [done|by apply lang_chr]. }
  replace (a ++ 46 :: b ++ 46 :: c ++ 46 :: d) with ((a ++ 46 :: b ++ 46 :: c ++ [46]) ++ d)
    by (rewrite <- !app_assoc; cbn; rewrite <- !app_assoc; cbn; by rewrite <- !app_assoc).
  constructor; [|done]. apply Hstep; [done|]. apply Hstep; [done|]. apply (Hstep c []); [done|constructor].
Qed.

Lemma valid_address_text ip : valid_host_bind_address (VStr ip) = true -> lang ipv4_re ip.
Proof.
  unfold valid_host_bind_address, octets. destruct (fullmatch ipv4_re ip) eqn:E; [|done]. intros _. by apply fullmatch_spec.
Qed.

Lemma address_chars ip : lang ipv4_re ip -> lang host_ip_re ip.
Proof.
  intros H. apply lang_plus_cls. split; [|by eapply lang_in].
  destruct (ipv4_quad _ H) as (a & ? & ? & ? & -> & _). by destruct a.
Qed.

(** * Publishing *)

Definition publish_text (ip : option pystr) (hp gp : pystr) (proto : option pystr) : pystr :=
  match ip with Some i => i ++ [58] | None => [] end ++ hp ++ 58 :: gp ++ match proto with Some p => 47 :: p | None => [] end.

Definition publish_parts (ip : option pystr) (hp gp : pystr) (proto : option pystr) : Prop :=
  (forall i, ip = Some i -> lang host_ip_re i) /\ number_text hp /\ number_text gp /\ (forall p, proto = Some p -> lang protocol_re p).

Lemma lang_publish s : lang publish_re s <-> exists ip hp gp proto, s = publish_text ip hp gp proto /\ publish_parts ip hp gp proto.
Proof.
  unfold publish_re, seq_re. cbn [fold_right]. unfold publish_text, publish_parts. split.
  - intros (pre & r & -> & Hpre & Hr)%lang_cat_inv. apply lang_cat_inv in Hr as (hp & r1 & -> & Hh & Hr).
    apply lang_cat_inv in Hr as (x & r2 & -> & ->%lang_chr & Hr). apply lang_cat_inv in Hr as (gp & r3 & -> & Hg & Hr).
    apply lang_cat_inv in Hr as (suf & e & -> & Hs & ->%lang_eps). rewrite app_nil_r.
    assert (exists ip, pre = match ip with Some i => i ++ [58] | None => [] end /\ forall i, ip = Some i -> lang host_ip_re i) as (ip & -> & Hip).
    { apply lang_alt_inv in Hpre as [->%lang_eps|(i & c & -> & Hi & ->%lang_chr)%lang_cat_inv];
        [by exists None|]. exists (Some i). split; [done|]. by intros ? [= <-]. }
    assert (exists proto, suf = match proto with Some p => 47 :: p | None => [] end /\ forall p, proto = Some p -> lang protocol_re p) as (proto & -> & Hp).
    { apply lang_alt_inv in Hs as [->%lang_eps|(c & p & -> & ->%lang_chr & Hp)%lang_cat_inv];
        [by exists None|]. exists (Some p). split; [done|]. by intros ? [= <-]. }
    by exists ip, hp, gp, proto.
  - intros (ip & hp & gp & proto & -> & Hip & Hh & Hg & Hp). constructor.
    { destruct ip as [i|]; [|by apply LAltL, LEps]. apply LAltR. constructor; [by apply Hip|by apply lang_chr]. }
    constructor; [done|]. change (58 :: ?x) with ([58] ++ x). constructor; [by apply lang_chr|]. constructor; [done|].
    rewrite <- (app_nil_r (match proto with Some _ => _ | None => _ end)). constructor; [|constructor].
    destruct proto as [p|]; [|by apply LAltL, LEps]. apply LAltR. change (47 :: p) with ([47] ++ p).
    constructor; [by apply lang_chr|by apply Hp].
Qed.

Lemma publish_match_text ip hp gp proto : publish_parts ip hp gp proto ->
  publish_match (publish_text ip hp gp proto) = Some (ip, hp, gp, proto).
Proof.
  intros Hparts. assert (lang publish_re (publish_text ip hp gp proto)) as Hl by (apply lang_publish; by exists ip, hp, gp, proto).
  destruct Hparts as (Hip & Hh & Hg & Hp). unfold publish_match. rewrite (proj2 (fullmatch_spec _ _) Hl). cbn [negb].
  assert (forall c, in_cls [(48, 57)] c = false -> c ∉ hp /\ c ∉ gp) as Hnum
    by (intros c Hc; split; by eapply (lang_not_in [(48, 57)] port_re)).
  assert (forall i, ip = Some i -> 47 ∉ i /\ 58 ∉ i) as Hi
    by (intros i E; split; by eapply (lang_not_in [(48, 57); (46, 46)] host_ip_re); [by apply Hip| |]).
  destruct (Hnum 47 eq_refl) as [Hh47 Hg47], (Hnum 58 eq_refl) as [Hh58 Hg58].
  set (pre := match ip with Some i => i ++ [58] | None => [] end).
  assert (47 ∉ pre ++ hp ++ 58 :: gp) as H47.
  { rewrite !not_elem_of_app, not_elem_of_cons. split; [|done]. subst pre. destruct ip as [i|]; [|apply not_elem_of_nil].
    destruct (Hi i eq_refl). rewrite not_elem_of_app. split; [done|]. by rewrite list_elem_of_singleton. }
  assert (match split 47 (publish_text ip hp gp proto) with [f; p] => (f, Some p) | _ => (publish_text ip hp gp proto, None) end =
          (pre ++ hp ++ 58 :: gp, proto)) as ->.
  { unfold publish_text. fold pre. destruct proto as [p|].
    - replace (pre ++ hp ++ 58 :: gp ++ 47 :: p) with ((pre ++ hp ++ 58 :: gp) ++ 47 :: p)
        by (rewrite <- (app_assoc pre); cbn [app]; by rewrite <- (app_assoc hp)).
      rewrite split_app by done. rewrite split_free; [done|]. eapply (lang_not_in [(97, 122)] protocol_re); [by apply Hp| |]; done.
    - rewrite app_nil_r. by rewrite split_free. }
  subst pre. destruct ip as [i|]; cbn [app]; [|by rewrite split_app, split_free].
  replace ((i ++ [58]) ++ hp ++ 58 :: gp) with (i ++ 58 :: hp ++ 58 :: gp) by by rewrite <- app_assoc. destruct (Hi i eq_refl). by rewrite !split_app, split_free.
Qed.

Lemma publish_match_Some s ip hp gp proto : publish_match s = Some (ip, hp, gp, proto) <->
  s = publish_text ip hp gp proto /\ publish_parts ip hp gp proto.
Proof.
  split; [|intros [-> ?]; by apply publish_match_text].
  intros H. destruct (fullmatch publish_re s) eqn:E; [|unfold publish_match in H; by rewrite E in H].
  apply fullmatch_spec, lang_publish in E as (ip' & hp' & gp' & proto' & -> & Hp).
  rewrite publish_match_text in H by done. by simplify_eq.
Qed.

(** The prefixes and suffixes with which a publication can be written. *)
Definition address_prefix (p : published_port) (pre : pystr) : Prop :=
  pre = host_ip p ++ [58] \/ pre = [] /\ host_ip p = u OCI_NETWORK_LOOPBACK_HOST_IP.
Definition protocol_suffix (p : published_port) (suf : pystr) : Prop :=
  suf = 47 :: u (protocol_name (protocol p)) \/ suf = [] /\ protocol p = TCP.

Lemma override_Ok s p : from_override_value (VStr s) = Ok p -> port_ok p /\ exists pre suf,
  address_prefix p pre /\ protocol_suffix p suf /\ s = pre ++ str_of_int (host_port p) ++ 58 :: str_of_int (guest_port p) ++ suf.
Proof.
  cbn [from_override_value]. intros H. destruct (publish_match s) as [[[[ip hp] gp] proto]|] eqn:E; [|done].
  apply publish_match_Some in E as [-> (Hip & _ & _ & Hpr)].
  destruct (_ || _) eqn:G; [done|]. apply orb_false_iff in G as [G1 G2].
  apply negb_false_iff, bool_decide_eq_true in G1, G2. apply published_port_init_Ok in H as (Ei & Eh & Eg & Ep & Hok).
  assert (or_default ip (u OCI_NETWORK_LOOPBACK_HOST_IP) = host_ip p) as Ei' by congruence.
  assert (or_default proto (u "tcp") = u (protocol_name (protocol p))) as Ep' by congruence.
  assert (digits_value hp = host_port p) as Eh' by congruence. assert (digits_value gp = guest_port p) as Eg' by congruence.
  clear Ei Ep Eh Eg. rewrite Eh' in G1. rewrite Eg' in G2. rewrite <- G1, <- G2. split; [done|].
  exists (match ip with Some i => i ++ [58] | None => [] end), (match proto with Some q => 47 :: q | None => [] end).
  split; [|split; [|done]].
  - destruct ip as [[|c i]|]; [|left|right].
    + exfalso. specialize (Hip [] eq_refl). by apply lang_plus_cls in Hip as [? _].
    + by rewrite <- Ei'.
    + by rewrite <- Ei'.
  - destruct proto as [[|c q]|]; [|left|right].
    + exfalso. specialize (Hpr [] eq_refl). by apply lang_rep_cls in Hpr as [? _].
    + by rewrite <- Ep'.
    + split; [done|]. destruct (protocol p); [done|]. by vm_compute in Ep'.
Qed.

Lemma override_text p pre suf : port_ok p -> address_prefix p pre -> protocol_suffix p suf ->
  from_override_value (VStr (pre ++ str_of_int (host_port p) ++ 58 :: str_of_int (guest_port p) ++ suf)) = Ok p.
Proof.
  intros Hok Hpre Hsuf. pose proof Hok as (Hv & Hh & Hg). unfold MIN_OCI_PUBLISHED_HOST_PORT in Hh.
  assert (exists ip, pre = match ip with Some i => i ++ [58] | None => [] end /\ (forall i, ip = Some i -> lang host_ip_re i) /\
          or_default ip (u OCI_NETWORK_LOOPBACK_HOST_IP) = host_ip p) as (ip & -> & Hip & Ei).
  { destruct Hpre as [->|[-> E]]; [|by exists None]. exists (Some (host_ip p)).
    assert (lang host_ip_re (host_ip p)) as Hc by by apply address_chars, valid_address_text.
    split; [done|]. split; [by intros ? [= <-]|]. destruct (host_ip p); [|done]. by apply lang_plus_cls in Hc as [? _]. }
  assert (exists proto, suf = match proto with Some q => 47 :: q | None => [] end /\ (forall q, proto = Some q -> lang protocol_re q) /\
          or_default proto (u "tcp") = u (protocol_name (protocol p))) as (proto & -> & Hpr & Ep).
  { destruct Hsuf as [->|[-> ->]]; [|by exists None]. exists (Some (u (protocol_name (protocol p)))).
    split; [done|]. split; [|by destruct (protocol p)]. intros ? [= <-]. apply fullmatch_spec. by destruct (protocol p). }
  cbn [from_override_value]. fold (publish_text ip (str_of_int (host_port p)) (str_of_int (guest_port p)) proto).
  rewrite publish_match_text by (split; [done|]; split; [apply number_text_int; lia|]; split; [apply number_text_int; lia|done]).
  rewrite !digits_value_str by lia. rewrite !bool_decide_eq_true_2 by done. cbn [negb orb]. rewrite Ei, Ep.
  by apply published_port_init_Ok.
Qed.

(** * Forwards *)

Lemma split_max_free n c w : c ∉ w -> split_max n c w = [w].
Proof.
  destruct n as [|n]; [done|]. induction w as [|x w IH]; [done|]. rewrite not_elem_of_cons. intros [Hx Hw].
  cbn [split_max]. destruct (Z.eqb_spec x c); [congruence|]. cbn [split_max] in IH. by rewrite IH.
Qed.

Lemma split_max_app n c w s : c ∉ w -> split_max (S n) c (w ++ c :: s) = w :: split_max n c s.
Proof.
  induction w as [|x w IH]; cbn [split_max app].
  - by rewrite Z.eqb_refl.
  - rewrite not_elem_of_cons. intros [Hx Hw]. destruct (Z.eqb_spec x c); [congruence|]. cbn [split_max] in IH. by rewrite IH.
Qed.

Lemma cut_at_first c w s t : c ∉ w -> cut_at (c :: t) (w ++ c :: t ++ s) = Some (w, s).
Proof.
  induction w as [|x w IH]; intros Hn.
  - cbn [app]. change (c :: t ++ s) with ((c :: t) ++ s). unfold cut_at.
    destruct ((c :: t) ++ s) eqn:E; [done|]. rewrite <- E, startswith_app, drop_app_length. done.
  - apply not_elem_of_cons in Hn as [Hx Hw]. cbn [app cut_at]. 
    assert (startswith (c :: t) (x :: w ++ c :: t ++ s) = false) as ->.
    { cbn [startswith]. by destruct (Z.eqb_spec c x). }
    by rewrite IH.
Qed.
