(* ===== verification/NetworkTheorems.v ===== *)
(** The properties of guest networking: configurations and publications read
    back as they are written, and the QEMU vector is closed under the values
    interpolated in it. *)
From S2P Require Import Prelude Crypto PyStr PyVal Json Regex Digest ControlV2Wire ControlV2Message Network NetworkFacts Sha256.

(** * The option vector *)

Definition forward_text (proto ip hp gp : pystr) : pystr :=
  u "hostfwd=" ++ proto ++ 58 :: ip ++ 58 :: hp ++ u "-:" ++ gp.

Definition forward_parts (proto ip hp gp : pystr) : Prop :=
  proto ∈ [u "tcp"; u "udp"] /\ lang dotted_re ip /\ number_text hp /\ number_text gp.

Lemma lang_not_elem l r a c : lang r a -> re_in l r && negb (in_cls l c) = true -> c ∉ a.
Proof. intros Ha H. bool_norm. by eapply lang_not_in. Qed.

Lemma forward_free c proto ip hp gp : forward_parts proto ip hp gp -> c = 44 \/ c = 58 \/ c = 45 ->
  c ∉ proto /\ c ∉ ip /\ c ∉ hp /\ c ∉ gp.
Proof.
  intros (Hp & Hi & Hh & Hg) Hc. repeat split.
  - rewrite !elem_of_cons, elem_of_nil in Hp.
    destruct Hp as [->|[->|[]]]; apply (bool_decide_unpack _); by destruct Hc as [->|[->| ->]].
  - apply (lang_not_elem [(46, 46); (48, 57)] _ _ _ Hi). by destruct Hc as [->|[->| ->]].
  - apply (lang_not_elem [(48, 57)] _ _ _ Hh). by destruct Hc as [->|[->| ->]].
  - apply (lang_not_elem [(48, 57)] _ _ _ Hg). by destruct Hc as [->|[->| ->]].
Qed.

Lemma check_forward_text proto ip hp gp : forward_parts proto ip hp gp ->
  check_forward (forward_text proto ip hp gp) =
  published_port_init (VStr ip) (VInt (digits_value hp)) (VInt (digits_value gp)) (VStr proto).
Proof.
  intros H. destruct (forward_free 58 _ _ _ _ H) as (Hp & Hi & _ & _); [auto|].
  destruct (forward_free 45 _ _ _ _ H) as (_ & _ & Hh & _); [auto|].
  unfold check_forward, forward_text. rewrite drop_app_length, !split_max_app by done. cbn [split_max].
  change (u "-:") with (45 :: [58]). change ((45 :: [58]) ++ gp) with (45 :: [58] ++ gp).
  by rewrite (cut_at_first 45 hp gp [58] Hh).
Qed.

Lemma lang_hostfwd t : lang hostfwd_re t <->
  exists proto ip hp gp, t = 44 :: forward_text proto ip hp gp /\ forward_parts proto ip hp gp.
Proof.
  unfold hostfwd_re, seq_re. cbn [fold_right]. split.
  - intros (x & r & -> & ->%lang_lit & Hr)%lang_cat_inv. apply lang_cat_inv in Hr as (proto & r1 & -> & Hp & Hr).
    apply lang_cat_inv in Hr as (x & r2 & -> & ->%lang_chr & Hr). apply lang_cat_inv in Hr as (ip & r3 & -> & Hi & Hr).
    apply lang_cat_inv in Hr as (x & r4 & -> & ->%lang_chr & Hr). apply lang_cat_inv in Hr as (hp & r5 & -> & Hh & Hr).
    apply lang_cat_inv in Hr as (x & r6 & -> & ->%lang_lit & Hr). apply lang_cat_inv in Hr as (gp & x & -> & Hg & ->%lang_eps).
    exists proto, ip, hp, gp. rewrite app_nil_r. split; [done|]. split; [|done].
    apply lang_alt_inv in Hp as [->%lang_lit | ->%lang_lit]; rewrite !elem_of_cons; auto.
  - intros (proto & ip & hp & gp & -> & Hp & Hi & Hh & Hg). unfold forward_text.
    change (44 :: u "hostfwd=" ++ ?x) with (u ",hostfwd=" ++ x). constructor; [by apply lang_lit|].
    constructor. { apply lang_alt_inv. rewrite !elem_of_cons, elem_of_nil in Hp. rewrite !lang_lit. naive_solver. }
    change (58 :: ?x) with ([58] ++ x). constructor; [by apply lang_chr|]. constructor; [done|].
    change (58 :: ?x) with ([58] ++ x). constructor; [by apply lang_chr|]. constructor; [done|].
    constructor; [by apply lang_lit|]. rewrite <- (app_nil_r gp). constructor; [done|constructor].
Qed.

(** The forwards of a vector: texts of the shape [hostfwd_re] admits. *)
Definition forward_shape (t : pystr) : Prop := exists proto ip hp gp, t = forward_text proto ip hp gp /\ forward_parts proto ip hp gp.

Lemma join_cons c w ws : join [c] (w :: ws) = w ++ concat (map (cons c) ws).
Proof.
  revert w; induction ws as [|v ws IH]; intros w; [by rewrite app_nil_r|].
  change (join [c] (w :: v :: ws)) with (w ++ [c] ++ join [c] (v :: ws)). by rewrite IH.
Qed.

Lemma join_options nat fws : join [44] (netdev_options nat ++ fws) = join [44] (netdev_options nat) ++ concat (map (cons 44) fws).
Proof.
  unfold netdev_options. cbn [app]. rewrite !join_cons. rewrite <- app_assoc. f_equal. rewrite <- concat_app, <- map_app. done.
Qed.

Lemma lang_star_concat r l : Forall (lang r) l -> lang (RStar r) (concat l).
Proof. induction 1; cbn [concat]; by constructor. Qed.

Lemma lang_star_inv r a : lang (RStar r) a -> exists l, a = concat l /\ Forall (lang r) l.
Proof.
  remember (RStar r) as q eqn:Eq. induction 1 as [| | | | | |r' a b Ha _ Hb IHb]; try done.
  - by exists [].
  - injection Eq as ->. destruct (IHb eq_refl) as (l & -> & Hl). exists (a :: l). by split; [|constructor].
Qed.

Lemma lang_netdev t : lang netdev_re t <->
  exists nat fws, t = join [44] (netdev_options nat ++ fws) /\ Forall forward_shape fws.
Proof.
  unfold netdev_re, seq_re. cbn [fold_right]. split.
  - intros (x & r & -> & ->%lang_lit & (o & r1 & -> & Ho & (fs & y & -> & Hf & ->%lang_eps)%lang_cat_inv)%lang_cat_inv)%lang_cat_inv.
    rewrite app_nil_r. apply lang_star_inv in Hf as (l & -> & Hl).
    assert (exists fws, l = map (cons 44) fws /\ Forall forward_shape fws) as (fws & -> & Hfws).
    { clear -Hl. induction Hl as [|t l Ht _ (fws & -> & Hf)]; [by exists []|].
      apply lang_hostfwd in Ht as (proto & ip & hp & gp & -> & Hp). exists (forward_text proto ip hp gp :: fws).
      split; [done|]. constructor; [by exists proto, ip, hp, gp|done]. }
    apply lang_alt_inv in Ho as [->%lang_lit | ->%lang_lit]; [exists true, fws|exists false, fws]; (split; [|done]);
      rewrite join_options, app_assoc; done.
  - intros (nat & fws & -> & Hf). rewrite join_options.
    assert (join [44] (netdev_options nat) = (u "user,id=" ++ u OCI_NETWORK_NETDEV_ID ++ u ",net=" ++ u OCI_NETWORK_SUBNET ++
      u ",host=" ++ u OCI_NETWORK_GATEWAY) ++ (if nat then u ",dns=" ++ u OCI_NETWORK_NAMESERVER else u ",restrict=on")) as ->
      by by destruct nat.
    rewrite <- app_assoc. constructor; [by apply lang_lit|]. constructor.
    { destruct nat; [apply LAltL|apply LAltR]; by apply lang_lit. }
    rewrite <- (app_nil_r (concat _)). constructor; [|constructor]. apply lang_star_concat, Forall_map.
    eapply Forall_impl; [exact Hf|]. intros t (proto & ip & hp & gp & -> & Hp). apply lang_hostfwd. by exists proto, ip, hp, gp.
Qed.

Lemma netdev_split nat fws : Forall forward_shape fws ->
  List.filter (startswith (u "hostfwd=")) (split 44 (join [44] (netdev_options nat ++ fws))) = fws.
Proof.
  intros Hf. rewrite split_join.
  - rewrite List.filter_app. assert (List.filter (startswith (u "hostfwd=")) (netdev_options nat) = []) as -> by by destruct nat.
    cbn [app]. induction Hf as [|t fws (proto & ip & hp & gp & -> & _) _ IH]; [done|]. cbn [List.filter].
    unfold forward_text at 1. by rewrite startswith_app, IH.
  - by destruct nat.
  - apply Forall_app. split; [apply Forall_forall; intros w Hw; revert w Hw; apply Forall_forall, (bool_decide_unpack _); by destruct nat|].
    eapply Forall_impl; [exact Hf|]. intros t (proto & ip & hp & gp & -> & Hp).
    destruct (forward_free 44 _ _ _ _ Hp) as (? & ? & ? & ?); [auto|]. unfold forward_text.
    rewrite !not_elem_of_app, !not_elem_of_cons, !not_elem_of_app, !not_elem_of_cons, !not_elem_of_app.
    repeat split; try done; apply (bool_decide_unpack _); done.
Qed.

(** * The rendered vector *)

Lemma hostfwd_text p : hostfwd p =
  forward_text (u (protocol_name (protocol p))) (host_ip p) (str_of_int (host_port p)) (str_of_int (guest_port p)).
Proof. done. Qed.

Lemma port_forward_parts p : port_ok p ->
  forward_parts (u (protocol_name (protocol p))) (host_ip p) (str_of_int (host_port p)) (str_of_int (guest_port p)).
Proof.
  intros (Hv & Hh & Hg). unfold MIN_OCI_PUBLISHED_HOST_PORT in Hh. apply valid_address_text, ipv4_quad in Hv as (a & b & c & d & Hq).
  split; [destruct (protocol p); rewrite !elem_of_cons; auto|].
  split; [by eapply quad_dotted|]. split; apply number_text_int; lia.
Qed.

Lemma check_forward_hostfwd p : port_ok p -> check_forward (hostfwd p) = Ok p.
Proof.
  intros Hp. rewrite hostfwd_text, check_forward_text by by apply port_forward_parts.
  pose proof Hp as (_ & Hh & Hg). unfold MIN_OCI_PUBLISHED_HOST_PORT in Hh. rewrite !digits_value_str by lia.
  by apply published_port_init_Ok.
Qed.

Lemma check_forwards ports : Forall port_ok ports -> map_result check_forward (map hostfwd ports) = Ok ports.
Proof. intros H. apply map_result_Ok. induction H; constructor; [by apply check_forward_hostfwd|done]. Qed.

Lemma hostfwd_nodup ports : Forall port_ok ports -> NoDup (map identity ports) -> NoDup (map hostfwd ports).
Proof.
  intros Hp Hn. induction Hp as [|p ports Hok Hp IH]; [constructor|]. cbn [map] in *. apply NoDup_cons in Hn as [Hn Hnd].
  constructor; [|by apply IH]. intros Hin. apply Hn. apply list_elem_of_In, in_map_iff in Hin as (q & E & Hq).
  apply list_elem_of_In in Hq. assert (port_ok q) as Hqok by (rewrite Forall_forall in Hp; auto).
  apply (f_equal check_forward) in E. rewrite !check_forward_hostfwd in E by done. apply (inj Ok) in E. subst q.
  apply list_elem_of_In, in_map_iff. exists p. by rewrite <- list_elem_of_In.
Qed.

Definition mac_text (mac : pystr) : Prop := exists suffix, mac = u OCI_NETWORK_MAC_PREFIX ++ u ":" ++ suffix /\ lang mac_suffix_re suffix.

Lemma lang_device t : lang device_re t <-> exists mac, t = device_option mac /\ mac_text mac.
Proof.
  unfold device_re, device_option, mac_text, mac_suffix_re, seq_re. cbn [fold_right rep].
  assert (forall a b c, lang (rep 2 hex_re) a -> lang (rep 2 hex_re) b -> lang (rep 2 hex_re) c ->
    lang (RCat (rep 2 hex_re) (RCat (chr 58) (RCat (rep 2 hex_re) (RCat (chr 58) (RCat (rep 2 hex_re) REps))))) (a ++ [58] ++ b ++ [58] ++ c ++ []))
    as Hmake by (intros; repeat (constructor; try done; try by apply lang_chr)).
  split.
  - intros (x & r & -> & ->%lang_lit & (m & r1 & -> & Hm & (y & z & -> & ->%lang_lit & ->%lang_eps)%lang_cat_inv)%lang_cat_inv)%lang_cat_inv.
    apply lang_cat_inv in Hm as (a' & m1 & -> & (c1 & a & -> & ->%lang_chr & Ha)%lang_cat_inv & Hm).
    apply lang_cat_inv in Hm as (b' & m2 & -> & (c2 & b & -> & ->%lang_chr & Hb)%lang_cat_inv & Hm).
    apply lang_cat_inv in Hm as (c' & m3 & -> & (c3 & c & -> & ->%lang_chr & Hc)%lang_cat_inv & ->%lang_eps).
    exists (u OCI_NETWORK_MAC_PREFIX ++ u ":" ++ a ++ [58] ++ b ++ [58] ++ c ++ []). split; [by rewrite !app_nil_r, <- !app_assoc|].
    eexists. split; [done|]. by apply Hmake.
  - intros (mac & -> & suffix & -> & (a & r & -> & Ha & Hr)%lang_cat_inv).
    apply lang_cat_inv in Hr as (x & r1 & -> & ->%lang_chr & Hr). apply lang_cat_inv in Hr as (b & r2 & -> & Hb & Hr).
    apply lang_cat_inv in Hr as (x & r3 & -> & ->%lang_chr & Hr). apply lang_cat_inv in Hr as (c & x & -> & Hc & ->%lang_eps).
    match goal with |- lang _ ?t =>
      replace t with ((u "virtio-net-pci,netdev=" ++ u OCI_NETWORK_NETDEV_ID ++ u ",mac=" ++ u OCI_NETWORK_MAC_PREFIX) ++
        (([58] ++ a) ++ ([58] ++ b) ++ ([58] ++ c) ++ []) ++ (u ",bus=" ++ u OCI_NETWORK_PCI_BUS ++ u ",addr=" ++ u OCI_NETWORK_PCI_ADDRESS) ++ [])
        by (rewrite !app_nil_r, <- !app_assoc; reflexivity) end.
    constructor; [by apply lang_lit|]. constructor; [|constructor; [by apply lang_lit|constructor]].
    repeat (constructor; [constructor; [by apply lang_chr|done]|]). constructor.
Qed.

Section hashed.
Context `{Hash}.

Lemma mac_of_uuid run_id : is_uuid run_id -> exists mac, guest_mac_address run_id = Ok mac /\ mac_text mac.
Proof.
  intros Hu. unfold guest_mac_address. rewrite uuid_ok by done.
  set (m := u "palimpsest-oci-root-network-mac-v1" ++ [0] ++ run_id).
  assert (Forall (fun c => in_cls [(48, 57); (97, 102)] c = true) (hex (sha256 m))) as Hx by (apply hex_in_hex, sha256_bytes).
  assert (length (hex (sha256 m)) = 64%nat) as Hl by by rewrite length_hex, sha256_length.
  generalize dependent (hex (sha256 m)). intros d Hd Hl.
  do 6 (destruct d as [|? d]; [done|]; apply Forall_cons in Hd as [? Hd]). cbn [take drop].
  assert (forall a b, in_cls [(48, 57); (97, 102)] a = true -> in_cls [(48, 57); (97, 102)] b = true -> lang (rep 2 hex_re) [a; b]) as Hpair
    by (intros; apply lang_rep_cls; by repeat constructor).
  match goal with |- context [fullmatch mac_suffix_re ?s] => assert (lang mac_suffix_re s) as Hs end.
  { change (u ":") with [58]. cbn [join app]. unfold mac_suffix_re, seq_re. cbn [fold_right].
    rewrite take_0. match goal with |- lang _ [?a; ?b; ?x; ?c; ?e; ?y; ?f; ?g] => change [a; b; x; c; e; y; f; g] with
      ([a; b] ++ [58] ++ [c; e] ++ [58] ++ [f; g] ++ []) end.
    repeat (constructor; [first [by apply lang_chr|by apply Hpair]|]). constructor. }
  rewrite (proj2 (fullmatch_spec _ _) Hs). eexists. split; [done|]. by eexists.
Qed.

(** * Properties *)

(** A valid configuration is read back from its authority, what is read is
    a valid configuration whose authority is the value it was read from, and the
    guest contract determines the mode. *)
Theorem network_roundtrip c : config_ok c ->
  network_from_dict (VDict (network_to_dict c)) = Ok c /\
  (forall v c', network_from_dict v = Ok c' -> config_ok c' /\ py_eqb (VDict (network_to_dict c')) (plain v) = true) /\
  (forall run_id d, guest_contract c run_id = Ok d ->
     from_guest_contract (VDict d) run_id = Ok (NetworkConfig (mode c) [])).
Proof.
  intros Hc. split; [by apply network_from_to_dict|]. split; [apply network_from_dict_Ok|].
  intros run_id d. by apply guest_from_contract.
Qed.

(** A publication string is accepted exactly when it is
    [[HOST_IP:]HOST_PORT:GUEST_PORT[/PROTOCOL]] with canonical decimals in
    bounds; an address that is not written is the loopback address. *)
Theorem publish_bounds v p : from_override_value v = Ok p <->
  port_ok p /\ exists pre suf, address_prefix p pre /\ protocol_suffix p suf /\
    v = VStr (pre ++ str_of_int (host_port p) ++ 58 :: str_of_int (guest_port p) ++ suf).
Proof.
  split.
  - intros Hv. destruct v as [| | | |s| | |]; try done. apply override_Ok in Hv as (? & pre & suf & ? & ? & ->). eauto 10.
  - intros (Hok & pre & suf & Hpre & Hsuf & ->). by apply override_text.
Qed.

(** The QEMU vector of a valid configuration with a NIC is rendered for
    every run, passes the re-validation, and its forwarding options read back
    as exactly the published ports. *)
Theorem qemu_vector_admitted c run_id : config_ok c -> enabled c = true -> is_uuid run_id ->
  exists netdev device, qemu_arguments c run_id = Ok [u "-netdev"; netdev; u "-device"; device] /\
    validated_qemu_arguments (VTuple (map VStr [u "-netdev"; netdev; u "-device"; device])) =
      Ok [u "-netdev"; netdev; u "-device"; device] /\
    map_result check_forward (List.filter (startswith (u "hostfwd=")) (split 44 netdev)) = Ok (published_ports c).
Proof.
  intros Hc He Hu. destruct (mac_of_uuid _ Hu) as (mac & Hm & Ht).
  assert (Forall forward_shape (map hostfwd (published_ports c))) as Hf.
  { apply Forall_map. eapply Forall_impl; [apply Hc|]. intros p Hp. do 4 eexists. split; [apply hostfwd_text|].
    by apply port_forward_parts. }
  exists (join [44] (netdev_options (egress c) ++ map hostfwd (published_ports c))), (device_option mac).
  split; [|split].
  - unfold qemu_arguments. rewrite He, Hm. done.
  - unfold validated_qemu_arguments. cbn [map length map_result as_str result_bind Nat.eqb negb].
    rewrite !bool_decide_eq_true_2 by done. rewrite (proj2 (fullmatch_spec netdev_re _)) by (apply lang_netdev; eauto).
    rewrite (proj2 (fullmatch_spec device_re _)) by (apply lang_device; eauto). cbn [negb orb].
    rewrite netdev_split by done. rewrite bool_decide_eq_true_2 by (apply hostfwd_nodup; apply Hc).
    unfold zlen at 1. rewrite length_map. rewrite (proj2 (Z.ltb_ge _ _)) by apply Hc. cbn [negb orb].
    by rewrite check_forwards by apply Hc.
  - rewrite netdev_split by done. apply check_forwards, Hc.
Qed.

(** A forwarding option that states the port [p], leading zeros allowed. *)
Definition states_port (p : published_port) (t : pystr) : Prop := exists hp gp,
  t = forward_text (u (protocol_name (protocol p))) (host_ip p) hp gp /\
  number_text hp /\ number_text gp /\ digits_value hp = host_port p /\ digits_value gp = guest_port p.

Lemma check_forward_Ok p t : forward_shape t -> check_forward t = Ok p -> port_ok p /\ states_port p t.
Proof.
  intros (proto & ip & hp & gp & -> & Hp) Hc. rewrite check_forward_text in Hc by done.
  apply published_port_init_Ok in Hc as (Ei & Eh & Eg & Ep & Hok). split; [done|].
  exists hp, gp. destruct Hp as (_ & _ & Hh & Hg).
  assert (proto = u (protocol_name (protocol p))) as -> by congruence. assert (ip = host_ip p) as -> by congruence.
  repeat split; try done; congruence.
Qed.

(** C36: a recovered vector that is admitted is the closed user-mode netdev and
    its device and nothing else: at most 32 distinct forwards, each of a valid
    unprivileged listener. *)
Theorem qemu_vector_closed v args : validated_qemu_arguments v = Ok args ->
  exists nat fws ports mac,
    args = [u "-netdev"; join [44] (netdev_options nat ++ fws); u "-device"; device_option mac] /\ mac_text mac /\
    Forall2 states_port ports fws /\ Forall port_ok ports /\ zlen ports <= MAX_OCI_PUBLISHED_PORTS /\ NoDup fws.
Proof.
  intros Hv. assert (exists items, validated_qemu_arguments (VList items) = Ok args) as [items Hi]
    by (destruct v as [| | | | |l|l|]; try discriminate Hv; exists l; exact Hv).
  clear Hv. unfold validated_qemu_arguments in Hi. destruct (negb (length items =? 4)%nat); [done|].
  apply result_bind_Ok in Hi as (as' & _ & Hi).
  destruct as' as [|a0 [|a1 [|a2 [|a3 [|]]]]]; try done.
  destruct (negb (bool_decide (a0 = _)) || _) eqn:G1; [done|]. destruct (negb (fullmatch netdev_re a1) || _) eqn:G2; [done|].
  destruct (_ || _) eqn:G3 in Hi; [done|]. apply result_bind_Ok in Hi as (ports & Hp & Hi). apply (inj Ok) in Hi. subst args.
  bool_norm. subst a0 a2.
  match goal with G : fullmatch netdev_re _ = true |- _ => apply fullmatch_spec, lang_netdev in G as (nat & fws & -> & Hf) end.
  match goal with G : fullmatch device_re _ = true |- _ => apply fullmatch_spec, lang_device in G as (mac & -> & Hm) end.
  rewrite netdev_split in * by done. exists nat, fws, ports, mac. split; [done|]. split; [done|].
  apply map_result_Ok in Hp. pose proof (Forall2_length _ _ _ Hp) as Hlen.
  assert (Forall2 states_port ports fws /\ Forall port_ok ports) as [? ?].
  { clear -Hp Hf. revert Hf. induction Hp as [|t p fws ports Ht _ IH]; intros Hf; [by repeat constructor|].
    apply Forall_cons in Hf as [Hs Hf]. destruct (IH Hf), (check_forward_Ok _ _ Hs Ht). split; by constructor. }
  split; [done|]. split; [done|]. split; [|done]. unfold zlen in *. by rewrite <- Hlen.
Qed.
End hashed.

(** * Concrete instances *)

Definition ex_web : published_port := PublishedPort (u "127.0.0.1") 8080 80 TCP.
Definition ex_dns : published_port := PublishedPort (u "0.0.0.0") 5353 53 UDP.
Definition ex_network : network_config := NetworkConfig NAT [ex_web; ex_dns].
Definition ex_run : pystr := u "11111111-1111-4111-8111-111111111111".

Lemma ex_ports_ok : Forall port_ok (published_ports ex_network).
Proof.
  repeat constructor; try by apply (bool_decide_unpack _).
Qed.

Lemma ex_network_ok : config_ok ex_network.
Proof.
  by apply (network_config_init_Ok (VStr (u "nat")) _ ex_network ex_ports_ok).
Qed.

(** A vector of a host-only network that listens on every address, with a
    leading zero in the port: no configuration renders it, and it is admitted. *)
Definition ex_unauthored : list pystr :=
  [u "-netdev"; u "user,id=pnet0,net=10.0.2.0/24,host=10.0.2.2,restrict=on,hostfwd=tcp:0.0.0.0:08080-:80"; u "-device";
   u "virtio-net-pci,netdev=pnet0,mac=52:54:00:00:00:00,bus=pcie.0,addr=0x14"].
Example unauthored_vector_admitted : validated_qemu_arguments (VTuple (map VStr ex_unauthored)) = Ok ex_unauthored.
Proof. by vm_compute. Qed.

Lemma network_roundtrip_witness : network_from_dict (VDict (network_to_dict ex_network)) = Ok ex_network.
Proof. exact (proj1 (network_roundtrip (H := Sha256.sha256_hash) ex_network ex_network_ok)). Defined.

Lemma publish_bounds_witness : from_override_value (VStr (u "8080:80")) = Ok ex_web.
Proof.
  apply publish_bounds. split; [exact (proj1 (proj1 (Forall_cons _ _ _) ex_ports_ok))|].
  exists [], []. split; [right|split; [right|]]; done.
Defined.

Lemma qemu_vector_admitted_witness : exists netdev device,
  validated_qemu_arguments (VTuple (map VStr [u "-netdev"; netdev; u "-device"; device])) =
  Ok [u "-netdev"; netdev; u "-device"; device].
Proof.
  destruct (qemu_vector_admitted (H := Sha256.sha256_hash) ex_network ex_run ex_network_ok eq_refl) as (n & d & _ & E & _);
    [by vm_compute|]. exists n, d. exact E.
Defined.

Lemma qemu_vector_closed_witness : exists nat fws ports mac,
  ex_unauthored = [u "-netdev"; join [44] (netdev_options nat ++ fws); u "-device"; device_option mac] /\ mac_text mac /\
  Forall2 states_port ports fws /\ Forall port_ok ports /\ zlen ports <= MAX_OCI_PUBLISHED_PORTS /\ NoDup fws.
Proof. exact (qemu_vector_closed (VTuple (map VStr ex_unauthored)) ex_unauthored unauthored_vector_admitted). Defined.
