(* ===== verification/Acl.v ===== *)
(** Private access control lists of the runtime's files ([oci_acl.py]): the
    structures it understands, their text, the commands that read and write
    them on a descriptor, and the QEMU base label. *)
From S2P Require Import Prelude Crypto PyStr PyText PyVal Utf8 Regex Network.

Definition MAX_DAC_ID : Z := 2 ^ 32 - 2.
Definition MAX_ACL_BYTES : Z := 4096.
Definition invalid : string := "OCI runtime ACL is invalid or changed".
Definition command_failed : string := "OCI runtime ACL command failed".

(** * [ACLStructure] *)

Record acl := ACL {
  acl_user : pystr;
  named_users : list (Z * pystr);
  acl_group : pystr;
  acl_mask : option pystr;
  acl_other : pystr;
}.
#[export] Instance acl_eq_dec : EqDecision acl.
Proof. solve_decision. Defined.

(** Values a set can look up; the others raise [TypeError]. *)
Fixpoint hashable (v : pyval) : bool :=
  match v with
  | VList _ | VDict _ => false
  | VTuple l => forallb hashable l
  | _ => true
  end.

(** [text in {...}] *)
Definition one_of (s : pystr) (names : list string) : bool := existsb (fun n => bool_decide (s = u n)) names.

(** The permissions of a named user, by the permissions of the owner. *)
Definition named_permissions (user : pystr) : list pystr :=
  if bool_decide (user = u "rwx") then [u "-wx"; u "--x"] else [user].

(** [ACLStructure.__post_init__]: the entry of the named user *)
Definition check_named (user : pystr) (entry : list pyval) (mask : option pystr) : result (Z * pystr) :=
  match entry with
  | [VInt uid; permission] =>
      raise invalid when negb ((0 <=? uid) && (uid <=? MAX_DAC_ID)) ;;
      raise "TypeError" when negb (hashable permission) ;;
      match permission with
      | VStr p =>
          raise invalid when negb (bool_decide (p ∈ named_permissions user)) ;;
          raise invalid when negb (bool_decide (mask = Some p)) ;;
          Ok (uid, p)
      | _ => Err invalid
      end
  | _ => Err invalid
  end.

(** [ACLStructure.__post_init__]; the named users are tuples already *)
Definition acl_init (user : pyval) (named : list (list pyval)) (group mask other : pyval) : result acl :=
  match user, group, other with
  | VStr us, VStr g, VStr o =>
      let? m := match mask with VNone => Ok None | VStr m => Ok (Some m) | _ => Err invalid end in
      raise invalid when negb (one_of us ["rwx"; "rw-"; "r--"]) || negb (bool_decide (g = u "---")) ||
                         negb (bool_decide (o = u "---")) ;;
      match named with
      | [] => raise invalid when negb (bool_decide (m = None)) ;; Ok (ACL us [] g m o)
      | [entry] => let? e := check_named us entry m in Ok (ACL us [e] g m o)
      | _ => Err invalid
      end
  | _, _, _ => Err invalid
  end.

Definition opt_text (o : option pystr) : pyval := match o with Some s => VStr s | None => VNone end.

(** [self.__post_init__()] on an existing structure *)
Definition acl_check (a : acl) : result acl :=
  acl_init (VStr (acl_user a)) (map (fun e => [VInt e.1; VStr e.2]) (named_users a)) (VStr (acl_group a))
    (opt_text (acl_mask a)) (VStr (acl_other a)).

(** The lines of [setfile_text]. *)
Definition acl_lines (a : acl) : list pystr :=
  [u "user::" ++ acl_user a] ++
  map (fun e => u "user:" ++ str_of_int e.1 ++ u ":" ++ e.2) (named_users a) ++
  [u "group::" ++ acl_group a] ++
  match acl_mask a with Some m => [u "mask::" ++ m] | None => [] end ++
  [u "other::" ++ acl_other a].

Definition setfile_text (a : acl) : result pystr :=
  let? _ := acl_check a in
  Ok (join (u (String (Ascii.ascii_of_nat 10) "")) (acl_lines a) ++ [10]).

Definition acl_to_dict (a : acl) : result (list (pystr * pyval)) :=
  let? _ := acl_check a in
  Ok [(u "user", VStr (acl_user a));
      (u "named_users", VList (map (fun e => VList [VInt e.1; VStr e.2]) (named_users a)));
      (u "group", VStr (acl_group a)); (u "mask", opt_text (acl_mask a)); (u "other", VStr (acl_other a))].

(** A list or a tuple, as a sequence. *)
Definition as_seq (v : pyval) : option (list pyval) :=
  match v with VList l | VTuple l => Some l | _ => None end.
Fixpoint as_seqs (l : list pyval) : option (list (list pyval)) :=
  match l with
  | [] => Some []
  | v :: l => match as_seq v, as_seqs l with Some s, Some ss => Some (s :: ss) | _, _ => None end
  end.

Definition acl_from_dict (value : pyval) : result acl :=
  let? d := exact value ["user"; "named_users"; "group"; "mask"; "other"] invalid in
  match as_seq (d.["named_users"]) with
  | None => Err invalid
  | Some entries =>
      match as_seqs entries with
      | None => Err invalid
      | Some named =>
          match acl_init (d.["user"]) named (d.["group"]) (d.["mask"]) (d.["other"]) with
          | Ok a => Ok a
          | Err _ => Err invalid
          end
      end
  end.

(** * The structures the runtime uses *)

Definition baseline_acl (directory : bool) : result acl :=
  acl_init (VStr (u (if directory then "rwx" else "rw-"))) [] (VStr (u "---")) VNone (VStr (u "---")).

Definition named_acl (user : pystr) (uid : Z) (permission : string) : result acl :=
  acl_init (VStr user) [[VInt uid; VStr (u permission)]] (VStr (u "---")) (VStr (u permission)) (VStr (u "---")).

Definition grant_acl (baseline : acl) (uid : Z) : result acl :=
  let? _ := acl_check baseline in
  raise invalid when negb (bool_decide (named_users baseline = [])) || negb (one_of (acl_user baseline) ["rwx"; "rw-"]) ;;
  named_acl (acl_user baseline) uid (if bool_decide (acl_user baseline = u "rwx") then "-wx" else "rw-").

Definition traversal_acl (baseline : acl) (uid : Z) : result acl :=
  let? b := baseline_acl true in
  raise invalid when negb (bool_decide (baseline = b)) ;;
  named_acl (u "rwx") uid "--x".

Definition readonly_baseline_acl : result acl :=
  acl_init (VStr (u "r--")) [] (VStr (u "---")) VNone (VStr (u "---")).
Definition readonly_grant_acl (uid : Z) : result acl := named_acl (u "r--") uid "r--".

(** * [parse_acl] *)

Definition user_line_re : re := RCat (lit (u "user::")) (RAlt (lit (u "rwx")) (RAlt (lit (u "rw-")) (lit (u "r--")))).
Definition uid_re : re := RAlt (chr 48) (RCat (RCls [(49, 57)]) (between 0 9 digit_re)).
Definition permission_re : re :=
  RAlt (lit (u "-wx")) (RAlt (lit (u "rw-")) (RAlt (lit (u "--x")) (lit (u "r--")))).
Definition named_line_re : re := seq_re [lit (u "user:"); uid_re; chr 58; permission_re].
Definition mask_line_re : re := RCat (lit (u "mask::")) permission_re.

(** [re.fullmatch(prefix + group, line)] with its only group *)
Definition match_suffix (r : re) (prefix : string) (line : pystr) : option pystr :=
  if fullmatch r line then Some (drop (length (u prefix)) line) else None.

(** The groups of the named entry: no group contains a colon. *)
Definition match_named (line : pystr) : option (pystr * pystr) :=
  if negb (fullmatch named_line_re line) then None
  else match split 58 line with [_; uid; permission] => Some (uid, permission) | _ => None end.

(** [lines.pop()] *)
Definition pop {A} (l : list A) : list A := take (length l - 1) l.

(** The lines of the payload, one blank tail dropped. *)
Definition acl_payload_lines (payload : pystr) : list pystr :=
  let lines := pop (split 10 payload) in
  if bool_decide (last lines = Some []) then pop lines else lines.

Definition parse_acl (payload : pystr) : result acl :=
  raise invalid when negb (endswith [10] payload) || (MAX_ACL_BYTES <? zlen payload) || bool_decide (13 ∈ payload) ;;
  match acl_payload_lines payload with
  | [l0; l1; l2] =>
      match match_suffix user_line_re "user::" l0 with
      | None => Err invalid
      | Some user =>
          raise invalid when negb (bool_decide (l1 = u "group::---")) ;;
          raise invalid when negb (bool_decide (l2 = u "other::---")) ;;
          acl_init (VStr user) [] (VStr (u "---")) VNone (VStr (u "---"))
      end
  | [l0; l1; l2; l3; l4] =>
      match match_suffix user_line_re "user::" l0 with
      | None => Err invalid
      | Some user =>
          match match_named l1, match_suffix mask_line_re "mask::" l3 with
          | Some (uid, permission), Some mask =>
              raise invalid when negb (bool_decide (l2 = u "group::---")) ;;
              raise invalid when negb (bool_decide (l4 = u "other::---")) ;;
              acl_init (VStr user) [[VInt (digits_value uid); VStr permission]] (VStr (u "---")) (VStr mask) (VStr (u "---"))
          | _, _ => Err invalid
          end
      end
  | _ => Err invalid
  end.

(** * [LinuxFdACLBackend] *)

(** What [subprocess.run] or the injected runner did. *)
Inductive outcome :=
| Raised
| OtherObject
| CompletedProcess (returncode stdout stderr : pyval).

Section backend.
(** The state of the host, the runner and [os.fstat] on it, whether the runner
    is the default one and the platform is Linux. *)
Context {W : Type} (runner : W -> list pystr -> option pystr -> W * outcome) (fstat : W -> Z -> bool)
  (native linux : bool).

Definition target (fd : Z) : pystr := u "/proc/self/fd/" ++ str_of_int fd.
Definition getfacl (fd : Z) : list pystr := [u "/usr/bin/getfacl"; u "-cpn"; u "--"; target fd].
Definition setfacl (fd : Z) : list pystr := [u "/usr/bin/setfacl"; u "--no-mask"; u "--set-file=-"; u "--"; target fd].

(** [_command]; the text of the structure is rendered inside the [try] *)
Definition command (w : W) (fd : Z) (a : option acl) : W * result pystr :=
  raise invalid when negb ((3 <=? fd) && (fd <=? 2 ^ 31 - 1)) || (native && negb linux) from w ;;
  raise invalid when negb (fstat w fd) from w ;;
  let run argv input :=
    let ' (w, r) := runner w argv input in
    match r with
    | CompletedProcess (VInt returncode) (VStr stdout) stderr =>
        let output_valid := match utf8_encode stdout with Some b => zlen b <=? MAX_ACL_BYTES | None => false end in
        raise command_failed
          when negb (returncode =? 0) || negb (py_eqb stderr (VStr [])) || negb output_valid ||
               (bool_decide (a <> None) && negb (bool_decide (stdout = []))) from w ;;
        (w, Ok stdout)
    | _ => (w, Err command_failed)
    end in
  match a with
  | None => run (getfacl fd) None
  | Some a =>
      match setfile_text a with
      | Ok text => run (setfacl fd) (Some text)
      | Err _ => (w, Err command_failed)
      end
  end.

Definition read_acl (w : W) (fd : Z) : W * result acl :=
  let ' (w, r) := command w fd None in
  let? out := r from w in
  (w, parse_acl out).

Definition write_acl (w : W) (fd : Z) (a : acl) : W * result acl :=
  match acl_check a with
  | Err e => (w, Err e)
  | Ok _ =>
      let ' (w, r) := command w fd (Some a) in
      let? _ := r from w in
      let ' (w, r) := read_acl w fd in
      let? observed := r from w in
      raise "OCI runtime ACL readback changed" when negb (bool_decide (observed = a)) from w ;;
      (w, Ok observed)
  end.
End backend.

(** * [parse_qemu_dac_baselabel] *)

(** An element of [xml.etree.ElementTree]. *)
Inductive element := Element {
  tag : pystr;
  attrib : list (pystr * pystr);
  text : option pystr;
  tail : option pystr;
  children : list element;
}.

(** No text, or only white space *)
Definition blank (o : option pystr) : bool :=
  match o with Some s => bool_decide (strip s = []) | None => true end.

(** [attributes or {}] as a mapping: the keys of an element are distinct *)
Definition attrib_is (a b : list (pystr * pystr)) : bool :=
  (length a =? length b)%nat && forallb (fun kv => bool_decide (kv ∈ b)) a.

(** [_scalar] *)
Definition scalar (e : element) (attributes : list (pystr * pystr)) : result pystr :=
  raise invalid when negb (attrib_is (attrib e) attributes) || negb (bool_decide (length (children e) = 0%nat)) ;;
  match text e with
  | None => Err invalid
  | Some t =>
      raise invalid when negb (bool_decide (strip t = t)) || negb (blank (tail e)) ;;
      Ok t
  end.

Definition has_tag (name : string) (e : element) : bool := bool_decide (tag e = u name).
Definition get_attribute (e : element) (key : pystr) : option pystr :=
  snd <$> List.find (fun kv => bool_decide (kv.1 = key)) (attrib e).

Definition baselabel_re : re := seq_re [chr 43; uid_re; lit (u ":+"); uid_re].

(** [child.tag == "model" and child.text is not None and child.text.strip() == "dac"] *)
Definition names_dac (child : element) : bool :=
  has_tag "model" child && match text child with Some t => bool_decide (strip t = u "dac") | None => false end.

(** The label of the only DAC security model of the host. *)
Definition parse_dac_model (model : element) : result (Z * Z) :=
  raise invalid
    when negb (bool_decide (attrib model = [])) || negb (blank (text model)) ||
         existsb (fun c => negb (one_of (tag c) ["model"; "doi"; "baselabel"])) (children model) ;;
  let names := List.filter (has_tag "model") (children model) in
  let dois := List.filter (has_tag "doi") (children model) in
  let labels := List.filter (fun c => has_tag "baselabel" c && bool_decide (get_attribute c (u "type") = Some (u "kvm")))
                  (children model) in
  match names with
  | [name] =>
      let? n := scalar name [] in
      raise invalid when negb (bool_decide (n = u "dac")) ;;
      match dois with
      | [doi] =>
          let? d := scalar doi [] in
          raise invalid when negb (bool_decide (d = u "0")) ;;
          match labels with
          | [label] =>
              let? l := scalar label [(u "type", u "kvm")] in
              raise invalid when negb (fullmatch baselabel_re l) ;;
              match split 58 l with
              | [up; gp] =>
                  let uid := digits_value (drop 1 up) in
                  let gid := digits_value (drop 1 gp) in
                  raise invalid when (MAX_DAC_ID <? uid) || (MAX_DAC_ID <? gid) ;;
                  Ok (uid, gid)
              | _ => Err invalid
              end
          | _ => Err invalid
          end
      | _ => Err invalid
      end
  | _ => Err invalid
  end.

(** [fromstring] is [ET.fromstring], [None] when it raises [ParseError]. *)
Definition parse_qemu_dac_baselabel (fromstring : pystr -> option element) (capabilities : pystr) : result (Z * Z) :=
  raise invalid when (1024 * 1024 <? zlen capabilities) || contains (u "<!") capabilities ;;
  match fromstring capabilities with
  | None => Err invalid
  | Some root =>
      raise invalid
        when negb (has_tag "capabilities" root) || negb (bool_decide (attrib root = [])) || negb (blank (text root)) ;;
      match List.filter (has_tag "host") (children root) with
      | [host] =>
          match List.filter (fun m => has_tag "secmodel" m && existsb names_dac (children m)) (children host) with
          | [model] => parse_dac_model model
          | _ => Err invalid
          end
      | _ => Err invalid
      end
  end.
