(* ===== verification/AclTheorems.v ===== *)
(** The properties of the runtime's access control lists: the structures are
    exactly the private ones, their text is canonical and is read back, and a
    successful write was read back from the descriptor. *)
From S2P Require Import Prelude Crypto PyStr PyText PyVal Utf8 Regex Digest OsPath Network NetworkFacts Acl.

(** * Valid structures *)

Inductive acl_ok : acl -> Prop :=
| ok_baseline us : us ∈ [u "rwx"; u "rw-"; u "r--"] -> acl_ok (ACL us [] (u "---") None (u "---"))
| ok_named us uid p : us ∈ [u "rwx"; u "rw-"; u "r--"] -> 0 <= uid <= MAX_DAC_ID -> p ∈ named_permissions us ->
    acl_ok (ACL us [(uid, p)] (u "---") (Some p) (u "---")).

Lemma one_of_elem s names : one_of s names = true <-> s ∈ map u names.
Proof.
  unfold one_of. rewrite existsb_exists. setoid_rewrite bool_decide_eq_true. rewrite list_elem_of_In, in_map_iff. naive_solver.
Qed.

Lemma check_named_Ok us entry m uid p : check_named us entry m = Ok (uid, p) <->
  entry = [VInt uid; VStr p] /\ 0 <= uid <= MAX_DAC_ID /\ p ∈ named_permissions us /\ m = Some p.
Proof.
  unfold check_named. split.
  - destruct entry as [|[| |z| | | | |] [|q [|]]]; try done. intros H.
    destruct (negb _) eqn:G1 in H; [done|]. destruct (negb (hashable q)) in H; [done|]. destruct q as [| | | |s| | |]; try done.
    destruct (negb _) eqn:G2 in H; [done|]. destruct (negb _) eqn:G3 in H; [done|]. bool_norm. apply (inj Ok) in H. by simplify_eq.
  - intros (-> & Hu & Hp & ->). rewrite !(proj2 (Z.leb_le _ _)) by lia. cbn [andb negb hashable].
    rewrite bool_decide_eq_true_2 by done. by rewrite bool_decide_eq_true_2.
Qed.

Lemma acl_init_Ok us named g m o a : acl_init us named g m o = Ok a <->
  acl_ok a /\ us = VStr (acl_user a) /\ named = map (fun e => [VInt e.1; VStr e.2]) (named_users a) /\
  g = VStr (acl_group a) /\ m = opt_text (acl_mask a) /\ o = VStr (acl_other a).
Proof.
  split.
  - unfold acl_init. destruct us as [| | | |us| | |]; try done. destruct g as [| | | |g| | |]; try done.
    destruct o as [| | | |o| | |]; try done. intros H. apply result_bind_Ok in H as (mk & Hm & H).
    assert (m = opt_text mk) as -> by (destruct m; try done; apply (inj Ok) in Hm; by subst mk). clear Hm.
    destruct (_ || _) eqn:G; [done|]. apply orb_false_iff in G as [G G3]. apply orb_false_iff in G as [G1 G2].
    apply negb_false_iff in G1, G2, G3. apply one_of_elem in G1. apply bool_decide_eq_true in G2, G3. subst g o.
    destruct named as [|entry [|]]; try done.
    + destruct (negb _) eqn:G4; [done|]. apply negb_false_iff, bool_decide_eq_true in G4. subst mk. apply (inj Ok) in H. subst a.
      split; [by constructor|done].
    + apply result_bind_Ok in H as ([uid p] & He & H). apply check_named_Ok in He as (-> & Hu & Hp & ->).
      apply (inj Ok) in H. subst a. split; [by constructor|done].
  - intros (Ha & -> & -> & -> & -> & ->). unfold acl_init.
    destruct Ha as [us Hu|us uid p Hu Hi Hp]; cbn [acl_user acl_group acl_mask acl_other named_users opt_text result_bind map fst snd];
      rewrite (proj2 (one_of_elem us ["rwx"; "rw-"; "r--"]) Hu); cbn [negb orb]; rewrite ?bool_decide_eq_true_2 by done; cbn [negb orb].
    + done.
    + rewrite (proj2 (check_named_Ok _ _ _ uid p)); done.
Qed.

Lemma acl_check_ok a : acl_ok a -> acl_check a = Ok a.
Proof. intros Ha. by apply acl_init_Ok. Qed.

Lemma acl_check_Ok a b : acl_check a = Ok b -> acl_ok a.
Proof.
  unfold acl_check. intros H. apply acl_init_Ok in H as (Hb & E1 & E2 & E3 & E4 & E5). replace a with b; [done|].
  destruct a as [au an ag am ao], b as [bu bn bg bm bo]. cbn [acl_user named_users acl_group acl_mask acl_other] in *.
  f_equal; try congruence.
  - clear -E2. revert bn E2. induction an as [|[z p] an IH]; intros [|[z' p'] bn] E; cbn [map fst snd] in E; try done.
    f_equal; [congruence|]. apply IH. congruence.
  - destruct am, bm; cbn in E4; congruence.
Qed.

Lemma acl_dict_roundtrip a : acl_ok a -> exists d, acl_to_dict a = Ok d /\ acl_from_dict (VDict d) = Ok a.
Proof.
  intros Ha. unfold acl_to_dict. rewrite acl_check_ok by done. eexists. split; [done|].
  unfold acl_from_dict. read_dict. cbn [as_seq].
  assert (as_seqs (map (fun e => VList [VInt e.1; VStr e.2]) (named_users a)) =
          Some (map (fun e => [VInt e.1; VStr e.2]) (named_users a))) as ->.
  { induction (named_users a) as [|e l IH]; [done|]. cbn [map as_seqs as_seq]. by rewrite IH. }
  fold (acl_check a). by rewrite acl_check_ok.
Qed.

(** The constructors of the runtime: the private baselines, the grant of I/O,
    the search of the run directory and the read of an artifact. *)
Definition runtime_acl (a : acl) : Prop :=
  (exists d, baseline_acl d = Ok a) \/ readonly_baseline_acl = Ok a \/
  (exists b uid, grant_acl b uid = Ok a) \/ (exists b uid, traversal_acl b uid = Ok a) \/
  (exists uid, readonly_grant_acl uid = Ok a).

Lemma acl_ok_runtime a : acl_ok a <-> runtime_acl a.
Proof.
  split.
  - intros Ha. assert (forall us, us ∈ [u "rwx"; u "rw-"; u "r--"] -> us = u "rwx" \/ us = u "rw-" \/ us = u "r--") as Hus
      by (intros us; rewrite !elem_of_cons, elem_of_nil; naive_solver).
    destruct Ha as [us Hu|us uid p Hu Hi Hp].
    + destruct (Hus _ Hu) as [->|[->| ->]]; [left; by exists true|left; by exists false|right; by left].
    + assert (forall d b, baseline_acl d = Ok b -> forall q : string, (q = if d then "-wx" else "rw-")%string ->
        acl_ok (ACL (acl_user b) [(uid, u q)] (u "---") (Some (u q)) (u "---")) ->
        grant_acl b uid = Ok (ACL (acl_user b) [(uid, u q)] (u "---") (Some (u q)) (u "---"))) as Hgrant.
      { intros d b Hb q Hq Hok. unfold grant_acl. rewrite acl_check_ok by (unfold baseline_acl in Hb; by apply acl_init_Ok in Hb as [? _]).
        cbn [result_bind]. destruct d; apply (f_equal (fun r => match r with Ok a => a | Err _ => b end)) in Hb;
          vm_compute in Hb; subst b q; by apply acl_init_Ok. }
      pose proof (ok_named us uid p Hu Hi Hp) as Hok.
      destruct (Hus _ Hu) as [->|[->| ->]].
      * change (named_permissions (u "rwx")) with [u "-wx"; u "--x"] in Hp. rewrite !elem_of_cons, elem_of_nil in Hp.
        destruct Hp as [->|[->|[]]].
        -- right. right. left. eexists _, uid. apply (Hgrant true _ eq_refl); done.
        -- right. right. right. left. eexists (ACL _ _ _ _ _), uid. unfold traversal_acl. cbn [result_bind].
           change (baseline_acl true) with (Ok (ACL (u "rwx") [] (u "---") None (u "---"))). cbn [result_bind].
           rewrite bool_decide_eq_true_2 by reflexivity. by apply acl_init_Ok.
      * change (named_permissions (u "rw-")) with [u "rw-"] in Hp. rewrite !elem_of_cons, elem_of_nil in Hp.
        destruct Hp as [->|[]]. right. right. left. eexists _, uid. apply (Hgrant false _ eq_refl); done.
      * change (named_permissions (u "r--")) with [u "r--"] in Hp. rewrite !elem_of_cons, elem_of_nil in Hp.
        destruct Hp as [->|[]]. do 4 right. exists uid. by apply acl_init_Ok.
  - intros [[d H]|[H|[(b & uid & H)|[(b & uid & H)|[uid H]]]]].
    1, 2, 5: unfold baseline_acl, readonly_baseline_acl, readonly_grant_acl, named_acl in H; by apply acl_init_Ok in H as [? _].
    + unfold grant_acl in H. apply result_bind_Ok in H as (? & _ & H). destruct (_ || _); [done|]. unfold named_acl in H. by apply acl_init_Ok in H as [? _].
    + unfold traversal_acl in H. apply result_bind_Ok in H as (? & _ & H). destruct (negb _); [done|]. unfold named_acl in H. by apply acl_init_Ok in H as [? _].
Qed.

(** * Text *)

Definition acl_text (a : acl) : pystr := join [10] (acl_lines a) ++ [10].

Lemma setfile_text_ok a : acl_ok a -> setfile_text a = Ok (acl_text a).
Proof. intros Ha. unfold setfile_text. by rewrite acl_check_ok. Qed.

Lemma match_suffix_Some r p l x : match_suffix (RCat (lit (u p)) r) p l = Some x <-> l = u p ++ x /\ lang r x.
Proof.
  unfold match_suffix. split.
  - destruct (fullmatch _ l) eqn:E; [|done]. apply fullmatch_spec, lang_cat_inv in E as (a & b & -> & ->%lang_lit & Hb).
    rewrite drop_app_length. intros [= <-]. done.
  - intros [-> Hx]. rewrite (proj2 (fullmatch_spec _ _)) by (constructor; [by apply lang_lit|done]). by rewrite drop_app_length.
Qed.

Lemma user_group x : lang (RAlt (lit (u "rwx")) (RAlt (lit (u "rw-")) (lit (u "r--")))) x <-> x ∈ [u "rwx"; u "rw-"; u "r--"].
Proof. rewrite !lang_alt_inv, !lang_lit, !elem_of_cons, elem_of_nil. tauto. Qed.

Lemma permission_group x : lang permission_re x <-> x ∈ [u "-wx"; u "rw-"; u "--x"; u "r--"].
Proof. unfold permission_re. rewrite !lang_alt_inv, !lang_lit, !elem_of_cons, elem_of_nil. tauto. Qed.

Lemma uid_group x : lang uid_re x -> x = str_of_int (digits_value x).
Proof.
  intros H. symmetry. apply (str_of_int_of_digits x (digits_value x)).
  - unfold int_of_digits. assert (Forall (fun c => in_cls [(48, 57)] c = true) x) as Hd by by eapply lang_in.
    assert (forallb is_digit x = true) as ->.
    { apply forallb_forall. intros c Hc. rewrite Forall_forall in Hd. apply list_elem_of_In, Hd, in_digit in Hc.
      unfold is_digit. rewrite andb_true_iff, !Z.leb_le. lia. }
    rewrite bool_decide_eq_true_2; [done|]. intros ->. apply lang_alt_inv in H as [H%lang_chr|H%lang_cat_inv]; [done|].
    destruct H as (a & b & E & (c & -> & _)%lang_cls & _). done.
  - apply lang_alt_inv in H as [->%lang_chr|(a & b & -> & (c & -> & Hc)%lang_cls & _)%lang_cat_inv]; [by left|].
    right. exists c, b. split; [done|]. unfold in_cls in Hc. cbn in Hc. rewrite orb_false_r in Hc. bool_norm. lia.
Qed.

Lemma uid_text n : 0 <= n <= MAX_DAC_ID -> lang uid_re (str_of_int n).
Proof.
  intros Hn. unfold MAX_DAC_ID in Hn. rewrite str_of_int_nonneg by lia. apply lang_alt_inv.
  destruct (decide (n = 0)) as [->|]; [left; by apply lang_chr|]. right.
  pose proof (digits_digits n ltac:(lia)) as Hd. pose proof (length_digits n 10 ltac:(lia) ltac:(simpl; lia) ltac:(lia)) as Hl.
  destruct (digits_head n ltac:(lia)) as (c & s & E & Hc). rewrite E in *. apply Forall_cons in Hd as [_ Hd].
  change (c :: s) with ([c] ++ s). constructor; [apply LCls; unfold in_cls; cbn; rewrite orb_false_r, andb_true_iff, !Z.leb_le; lia|].
  apply lang_between_cls. cbn [length] in Hl. split; [lia|]. eapply Forall_impl; [exact Hd|]. intros d Hdd.
  unfold is_digit in Hdd. bool_norm. apply in_digit. lia.
Qed.

Lemma match_named_Some l x p : match_named l = Some (x, p) <-> l = u "user:" ++ x ++ 58 :: p /\ lang uid_re x /\ lang permission_re p.
Proof.
  assert (forall y q, lang uid_re y -> lang permission_re q -> split 58 (u "user:" ++ y ++ 58 :: q) = [u "user"; y; q]) as Hsplit.
  { intros y q Hy Hq. change (u "user:" ++ ?x) with (u "user" ++ 58 :: x). rewrite split_app by by apply (bool_decide_unpack _).
    rewrite split_app by by eapply (lang_not_in [(48, 57)] uid_re). rewrite split_free; [done|].
    by eapply (lang_not_in [(45, 45); (114, 120)] permission_re). }
  unfold match_named, named_line_re, seq_re. cbn [fold_right]. split.
  - destruct (fullmatch _ l) eqn:E; [|done]. apply fullmatch_spec, lang_cat_inv in E as (a & r & -> & ->%lang_lit & Hr).
    apply lang_cat_inv in Hr as (y & r1 & -> & Hy & Hr). apply lang_cat_inv in Hr as (c & r2 & -> & ->%lang_chr & Hr).
    apply lang_cat_inv in Hr as (q & e & -> & Hq & ->%lang_eps). rewrite app_nil_r. cbn [negb app]. rewrite Hsplit by done.
    intros E. by simplify_eq.
  - intros (-> & Hx & Hp). rewrite (proj2 (fullmatch_spec _ _)); [cbn [negb]; by rewrite Hsplit|].
    constructor; [by apply lang_lit|]. constructor; [done|]. change (58 :: p) with ([58] ++ p).
    constructor; [by apply lang_chr|]. rewrite <- (app_nil_r p). constructor; [done|constructor].
Qed.

Lemma join_blank ls : ls <> [] -> join [10] (ls ++ [[]]) = join [10] ls ++ [10].
Proof. intros H. rewrite join_snoc. by destruct ls. Qed.

Lemma pop_snoc {A} (l : list A) a : pop (l ++ [a]) = l.
Proof. unfold pop. rewrite length_app. cbn [length]. by rewrite Nat.add_sub, take_app_length. Qed.

(** The payload lines of a text with or without the blank tail. *)
Lemma payload_lines ls w : Forall (fun l => 10 ∉ l) (ls ++ [w]) -> w <> [] ->
  acl_payload_lines (join [10] (ls ++ [w]) ++ [10]) = ls ++ [w] /\
  acl_payload_lines ((join [10] (ls ++ [w]) ++ [10]) ++ [10]) = ls ++ [w].
Proof.
  intros Hf Hw. set (all := ls ++ [w]) in *. assert (all <> []) as Hne by (subst all; by destruct ls).
  assert (last all = Some w) as Hl by apply last_snoc.
  unfold acl_payload_lines. rewrite <- join_blank by done. split.
  - rewrite split_join; [|by destruct all|apply Forall_app; split; [done|repeat constructor; apply not_elem_of_nil]].
    rewrite pop_snoc, Hl. rewrite bool_decide_eq_false_2; [done|]. congruence.
  - rewrite <- join_blank by by destruct all. rewrite split_join.
    + rewrite pop_snoc, last_snoc, bool_decide_eq_true_2 by done. by rewrite pop_snoc.
    + by destruct all.
    + rewrite !Forall_app. repeat split; [done|repeat constructor; apply not_elem_of_nil..].
Qed.

Lemma payload_text s : endswith [10] s = true -> acl_payload_lines s <> [] ->
  s = join [10] (acl_payload_lines s) ++ [10] \/ s = (join [10] (acl_payload_lines s) ++ [10]) ++ [10].
Proof.
  intros He Hne. unfold acl_payload_lines in *.
  assert (exists L, split 10 s = L ++ [[]]) as [L HL].
  { unfold endswith in He. apply startswith_spec in He as [t Ht]. cbn [rev app] in Ht.
    apply (f_equal (@rev Z)) in Ht. rewrite rev_involutive in Ht. cbn [rev] in Ht. subst s.
    exists (split 10 (rev t)). rewrite <- (join_split 10 (rev t)) at 1. rewrite <- join_blank by apply split_cons_ne.
    apply split_join; [by destruct (split 10 (rev t))|]. apply Forall_app. split; [apply split_free_parts|].
    repeat constructor. apply not_elem_of_nil. }
  pose proof (join_split 10 s) as Hs. rewrite HL in *. rewrite pop_snoc in *.
  destruct (bool_decide (last L = Some [])) eqn:E.
  - right. apply bool_decide_eq_true in E. apply last_Some in E as [L' ->]. rewrite pop_snoc in *.
    rewrite <- Hs at 1. rewrite join_blank by by destruct L'. by rewrite join_blank.
  - left. rewrite <- Hs at 1. by rewrite join_blank.
Qed.

Lemma named_permission us p : p ∈ named_permissions us -> us ∈ [u "rwx"; u "rw-"; u "r--"] -> p ∈ [u "-wx"; u "rw-"; u "--x"; u "r--"].
Proof.
  intros Hp Hu. unfold named_permissions in Hp. apply list_elem_of_In in Hu. 
  assert (us = u "rwx" \/ us = u "rw-" \/ us = u "r--") as [->|[->| ->]] by (destruct Hu as [?|[?|[?|[]]]]; auto);
    cbn [bool_decide] in Hp; [rewrite bool_decide_eq_true_2 in Hp by done|rewrite bool_decide_eq_false_2 in Hp by done..];
    repeat (apply elem_of_cons in Hp as [->|Hp]; [apply (bool_decide_unpack _); reflexivity|]); by apply not_elem_of_nil in Hp.
Qed.

(** The characters of the lines. *)
Definition acl_char : list (Z * Z) := [(32, 126)].

Lemma acl_lines_chars a : acl_ok a -> Forall (Forall (fun c => in_cls acl_char c = true)) (acl_lines a).
Proof.
  assert (forall l : pystr, bool_decide (Forall (fun c => in_cls acl_char c = true) l) = true -> Forall (fun c => in_cls acl_char c = true) l) as Hlit
    by (intros l; apply bool_decide_eq_true).
  assert (forall us, us ∈ [u "rwx"; u "rw-"; u "r--"] -> Forall (fun c => in_cls acl_char c = true) us) as Hus.
  { intros us. rewrite !elem_of_cons, elem_of_nil. intros [->|[->|[->|[]]]]; by apply Hlit. }
  intros [us Hu|us uid p Hu Hi Hp]; unfold acl_lines; cbn [acl_user named_users acl_group acl_mask acl_other map app fst snd].
  - repeat (constructor; [first [by apply Hlit|apply Forall_app; split; [by apply Hlit|by apply Hus]]|]). constructor.
  - assert (Forall (fun c => in_cls acl_char c = true) p) as Hpc.
    { pose proof (named_permission _ _ Hp Hu) as H. rewrite !elem_of_cons, elem_of_nil in H.
      destruct H as [->|[->|[->|[->|[]]]]]; by apply Hlit. }
    assert (Forall (fun c => in_cls acl_char c = true) (str_of_int uid)) as Huid by (eapply lang_in; [by apply uid_text|done]).
    repeat (constructor; [first [by apply Hlit|repeat (apply Forall_app; split); first [by apply Hlit|by apply Hus|done]]|]). constructor.
Qed.

Lemma acl_lines_no_newline a c : acl_ok a -> in_cls acl_char c = false -> Forall (fun l => c ∉ l) (acl_lines a).
Proof.
  intros Ha Hc. eapply Forall_impl; [by apply acl_lines_chars|]. intros l Hl Hin. rewrite Forall_forall in Hl.
  apply Hl in Hin. congruence.
Qed.

Lemma join_elem c l x : x ∈ join [c] l -> x = c \/ exists w, w ∈ l /\ x ∈ w.
Proof.
  induction l as [|w l IH]; [by intros ?%not_elem_of_nil|]. destruct l as [|v l].
  - cbn [join]. intros H. right. exists w. split; [by left|done].
  - change (join [c] (w :: v :: l)) with (w ++ [c] ++ join [c] (v :: l)). rewrite !elem_of_app, list_elem_of_singleton.
    intros [H|[H|H]]; [right; exists w; split; [by left|done]|by left|].
    destruct (IH H) as [?|(w' & ? & ?)]; [by left|]. right. exists w'. split; [by right|done].
Qed.

Lemma acl_text_no_return a : acl_ok a -> 13 ∉ acl_text a.
Proof.
  intros Ha. unfold acl_text. rewrite elem_of_app, list_elem_of_singleton. intros [H|H]; [|done].
  apply join_elem in H as [H|(w & Hw & H)]; [done|].
  pose proof (acl_lines_no_newline a 13 Ha eq_refl) as Hf. rewrite Forall_forall in Hf. by apply (Hf w).
Qed.

Lemma acl_text_length a : acl_ok a -> zlen (acl_text a) <= 100.
Proof.
  assert (forall us, us ∈ [u "rwx"; u "rw-"; u "r--"] -> length us = 3%nat) as Hus.
  { intros us. by rewrite !elem_of_cons, elem_of_nil; intros [->|[->|[->|[]]]]. }
  intros [us Hu|us uid p Hu Hi Hp]; unfold acl_text, acl_lines, zlen; cbn [acl_user named_users acl_group acl_mask acl_other map app fst snd join];
    repeat first [rewrite length_app|rewrite length_cons]; rewrite (Hus us Hu); [by vm_compute|].
  assert (length p = 3%nat) as ->.
  { pose proof (named_permission _ _ Hp Hu) as H. by rewrite !elem_of_cons, elem_of_nil in H; destruct H as [->|[->|[->|[->|[]]]]]. }
  unfold MAX_DAC_ID in Hi. rewrite str_of_int_nonneg by lia.
  pose proof (length_digits uid 10 ltac:(lia) ltac:(simpl; lia) ltac:(lia)).
  repeat match goal with |- context [length (u ?s)] => let n := eval vm_compute in (length (u s)) in change (length (u s)) with n end.
  cbn [length]. lia.
Qed.

Lemma acl_lines_last a : exists ls, acl_lines a = ls ++ [u "other::" ++ acl_other a].
Proof. unfold acl_lines. eexists. rewrite !app_assoc. done. Qed.

Lemma parse_acl_text a s : acl_ok a -> s = acl_text a \/ s = acl_text a ++ [10] -> parse_acl s = Ok a.
Proof.
  intros Ha Hs. assert (acl_payload_lines s = acl_lines a) as Hl.
  { pose proof (acl_lines_no_newline a 10 Ha eq_refl) as Hf. destruct (acl_lines_last a) as [ls E]. unfold acl_text in Hs. rewrite E in *.
    destruct (payload_lines ls _ Hf ltac:(done)). by destruct Hs as [->| ->]. }
  assert (endswith [10] s = true /\ 13 ∉ s /\ zlen s <= 101) as (He & Hr & Hlen).
  { pose proof (acl_text_no_return a Ha). pose proof (acl_text_length a Ha).
    destruct Hs as [->| ->]; (split; [unfold acl_text; apply endswith_app|]); (split; [|rewrite ?zlen_app, ?zlen_cons, ?zlen_nil; lia]); [done|].
    rewrite elem_of_app, list_elem_of_singleton. naive_solver. }
  unfold parse_acl, user_line_re, mask_line_re. rewrite He, Hl, bool_decide_eq_false_2 by done. unfold MAX_ACL_BYTES. rewrite (proj2 (Z.ltb_ge _ _)) by lia. cbn [negb orb].
  destruct Ha as [us Hu|us uid p Hu Hi Hp]; unfold acl_lines; cbn [acl_user named_users acl_group acl_mask acl_other map app fst snd];
    rewrite (proj2 (match_suffix_Some _ _ _ us)) by (by rewrite user_group).
  - rewrite !bool_decide_eq_true_2 by done. cbn [negb]. by apply acl_init_Ok; split; [constructor|].
  - pose proof (named_permission _ _ Hp Hu) as Hp'. unfold MAX_DAC_ID in Hi. 
    rewrite (proj2 (match_named_Some _ (str_of_int uid) p)) by (split; [done|]; rewrite permission_group; split; [by apply uid_text|done]).
    rewrite (proj2 (match_suffix_Some permission_re "mask::" _ p)) by (by rewrite permission_group).
    rewrite !bool_decide_eq_true_2 by done. cbn [negb]. rewrite digits_value_str by lia. by apply acl_init_Ok; split; [constructor|].
Qed.

Lemma parse_acl_Ok s a : parse_acl s = Ok a -> acl_ok a /\ (s = acl_text a \/ s = acl_text a ++ [10]).
Proof.
  unfold parse_acl, user_line_re, mask_line_re. destruct (_ || _) eqn:G; [done|]. apply orb_false_iff in G as [G _]. apply orb_false_iff in G as [G _].
  apply negb_false_iff in G. intros H.
  enough (acl_ok a /\ acl_payload_lines s = acl_lines a) as [Ha Hl].
  { split; [done|]. unfold acl_text. rewrite <- Hl. apply payload_text; [done|]. rewrite Hl. by destruct (acl_lines_last a) as [[] ->]. }
  clear G. destruct (acl_payload_lines s) as [|l0 [|l1 [|l2 [|l3 [|l4 [|]]]]]]; try done;
    (destruct (match_suffix _ "user::" l0) as [us|] eqn:E0; [|done]); apply match_suffix_Some in E0 as [-> _].
  - destruct (negb _) eqn:G1 in H; [done|]. destruct (negb _) eqn:G2 in H; [done|]. bool_norm. subst l1 l2.
    apply acl_init_Ok in H as (Ha & E1 & E2 & E3 & E4 & E5). split; [done|].
    destruct a as [au an ag am ao]. cbn [acl_user named_users acl_group acl_mask acl_other opt_text] in *.
    destruct an; [|done]. destruct am; [done|]. unfold acl_lines. cbn [acl_user named_users acl_group acl_mask acl_other map app].
    by simplify_eq.
  - destruct (match_named l1) as [[x p]|] eqn:E1; [|done]. apply match_named_Some in E1 as (-> & Hx & _).
    destruct (match_suffix _ "mask::" l3) as [mk|] eqn:E3; [|done]. apply match_suffix_Some in E3 as [-> _].
    destruct (negb _) eqn:G1 in H; [done|]. destruct (negb _) eqn:G2 in H; [done|]. bool_norm. subst l2 l4.
    apply acl_init_Ok in H as (Ha & E1 & E2 & E3 & E4 & E5). split; [done|].
    destruct a as [au an ag am ao]. cbn [acl_user named_users acl_group acl_mask acl_other opt_text] in *.
    destruct an as [|[z q] [|]]; try done. destruct am as [am|]; [|done]. cbn [map fst snd] in E2. cbn [opt_text] in E4.
    assert (z = digits_value x) as -> by congruence. assert (q = p) as -> by congruence. assert (am = mk) as -> by congruence.
    assert (au = us) as -> by congruence. assert (ag = u "---") as -> by congruence. assert (ao = u "---") as -> by congruence.
    unfold acl_lines. cbn [acl_user named_users acl_group acl_mask acl_other map app fst snd]. by rewrite <- uid_group.
Qed.

(** * The base label *)

Lemma parse_dac_bounds fromstring s uid gid : parse_qemu_dac_baselabel fromstring s = Ok (uid, gid) ->
  0 <= uid <= MAX_DAC_ID /\ 0 <= gid <= MAX_DAC_ID /\
  exists root host model label, fromstring s = Some root /\ host ∈ children root /\ model ∈ children host /\ label ∈ children model /\
    text label = Some (u "+" ++ str_of_int uid ++ u ":+" ++ str_of_int gid).
Proof.
  unfold parse_qemu_dac_baselabel. intros H. destruct (_ || _); [done|]. destruct (fromstring s) as [root|]; [|done].
  destruct (_ || _); [done|]. destruct (List.filter _ _) as [|host [|]] eqn:E1 in H; try done.
  destruct (List.filter _ _) as [|model [|]] eqn:E2 in H; try done.
  assert (forall (f : element -> bool) l a, List.filter f l = [a] -> a ∈ l) as Hin.
  { intros f l a E. apply list_elem_of_In. apply (filter_In f). rewrite E. by left. }
  apply Hin in E1, E2. unfold parse_dac_model in H. destruct (_ || _); [done|].
  destruct (List.filter (has_tag "model") _) as [|name [|]]; try done. apply result_bind_Ok in H as (n & _ & H).
  destruct (negb _); [done|]. destruct (List.filter (has_tag "doi") _) as [|doi [|]]; try done.
  apply result_bind_Ok in H as (d & _ & H). destruct (negb _); [done|].
  destruct (List.filter _ _) as [|label [|]] eqn:E3 in H; try done. apply Hin in E3.
  apply result_bind_Ok in H as (l & Hl & H). destruct (negb (fullmatch _ _)) eqn:G in H; [done|]. apply negb_false_iff in G.
  apply fullmatch_spec in G. unfold baselabel_re, seq_re in G. cbn [fold_right] in G.
  apply lang_cat_inv in G as (x & r & -> & ->%lang_chr & G). apply lang_cat_inv in G as (us & r1 & -> & Hu & G).
  apply lang_cat_inv in G as (y & r2 & -> & ->%lang_lit & G). apply lang_cat_inv in G as (gs & e & -> & Hg & ->%lang_eps).
  rewrite app_nil_r in *. change (u ":+" ++ gs) with (58 :: 43 :: gs) in *. rewrite app_assoc in H.
  assert (58 ∉ us /\ 58 ∉ gs) as [Hus Hgs] by (split; by eapply (lang_not_in [(48, 57)] uid_re)).
  rewrite split_app, split_free in H.
  2: { rewrite not_elem_of_cons. done. }
  2: { cbn [app]. rewrite not_elem_of_cons. done. }
  cbn [app drop] in H. rewrite !drop_0 in H. destruct (_ || _) eqn:G2 in H; [done|]. bool_norm. apply (inj Ok) in H. apply pair_equal_spec in H as [<- <-].
  pose proof (lang_in [(48, 57)] _ _ Hu eq_refl) as Hdu. pose proof (lang_in [(48, 57)] _ _ Hg eq_refl) as Hdg.
  assert (forall z, Forall (fun c => in_cls [(48, 57)] c = true) z -> 0 <= digits_value z) as Hnn.
  { intros z Hz. apply digits_value_bounds; [|lia]. eapply Forall_impl; [exact Hz|]. intros c Hc%in_digit. unfold is_digit.
    rewrite andb_true_iff, !Z.leb_le. lia. }
  split; [split; [by apply Hnn|lia]|]. split; [split; [by apply Hnn|lia]|].
  exists root, host, model, label. do 4 (split; [done|]). unfold scalar in Hl. destruct (_ || _); [done|].
  destruct (text label) as [t|]; [|done]. destruct (_ || _); [done|]. apply (inj Ok) in Hl. subst t.
  rewrite <- (uid_group us), <- (uid_group gs) by done. done.
Qed.

(** * Properties *)

(** C33: [parse_acl] accepts exactly the canonical text of a structure the
    runtime constructs - a private baseline, a grant, the search of a run
    directory or a read - with or without one blank tail, and that text is what
    [setfile_text] writes. *)
Theorem parse_acl_canonical s a : parse_acl s = Ok a <->
  runtime_acl a /\ exists t, setfile_text a = Ok t /\ (s = t \/ s = t ++ [10]).
Proof.
  rewrite <- acl_ok_runtime. split.
  - intros H. apply parse_acl_Ok in H as [Ha Hs]. split; [done|]. exists (acl_text a). by rewrite setfile_text_ok.
  - intros (Ha & t & Ht & Hs). rewrite setfile_text_ok in Ht by done. apply (inj Ok) in Ht. subst t. by apply parse_acl_text.
Qed.

(** A write that succeeds ran [setfacl] on the descriptor with the
    canonical text and then [getfacl], whose output was that text: the returned
    structure is the one observed, and the one requested. *)
Theorem write_acl_readback {W} (runner : W -> list pystr -> option pystr -> W * outcome) fstat native linux w fd a w' b :
  write_acl runner fstat native linux w fd a = (w', Ok b) ->
  b = a /\ runtime_acl a /\ exists t w1 out,
    setfile_text a = Ok t /\ runner w (setfacl fd) (Some t) = (w1, CompletedProcess (VInt 0) (VStr []) (VStr [])) /\
    runner w1 (getfacl fd) None = (w', CompletedProcess (VInt 0) (VStr out) (VStr [])) /\ (out = t \/ out = t ++ [10]) /\
    3 <= fd <= 2 ^ 31 - 1 /\ fstat w fd = true /\ fstat w1 fd = true.
Proof.
  unfold write_acl. intros H. destruct (acl_check a) as [a'|] eqn:Ea; [|done]. apply acl_check_Ok in Ea.
  assert (forall w2 r w3 s x, command runner fstat native linux w2 fd x = (w3, r) -> r = Ok s ->
    3 <= fd <= 2 ^ 31 - 1 /\ fstat w2 fd = true /\ (x <> None -> s = []) /\
    forall t, (forall b, x = Some b -> setfile_text b = Ok t) ->
      runner w2 (match x with None => getfacl fd | Some _ => setfacl fd end) (match x with None => None | Some _ => Some t end)
        = (w3, CompletedProcess (VInt 0) (VStr s) (VStr []))) as Hcmd.
  { intros w2 r w3 s x Hc ->. unfold command in Hc.
    destruct (negb _ || _) eqn:G1; [done|]. apply orb_false_iff in G1 as [G1 _]. destruct (negb (fstat w2 fd)) eqn:G2; [done|]. bool_norm.
    assert (forall argv input, (let ' (w, r) := runner w2 argv input in
      match r with
      | CompletedProcess (VInt returncode) (VStr stdout) stderr =>
          raise command_failed
            when negb (returncode =? 0) || negb (py_eqb stderr (VStr [])) ||
                 negb match utf8_encode stdout with Some b => zlen b <=? MAX_ACL_BYTES | None => false end ||
                 (bool_decide (x <> None) && negb (bool_decide (stdout = []))) from w ;;
          (w, Ok stdout)
      | _ => (w, Err command_failed)
      end) = (w3, Ok s) ->
      (x <> None -> s = []) /\ runner w2 argv input = (w3, CompletedProcess (VInt 0) (VStr s) (VStr []))) as Hrun.
    { clear Hc. intros argv input Hc. destruct (runner w2 argv input) as [w4 o]. destruct o as [| |code out err]; try done.
      destruct code as [| |z| | | | |]; try done. destruct out as [| | | |out| | |]; try done.
      destruct (_ || _) eqn:G3 in Hc; [done|]. apply pair_equal_spec in Hc as [<- Hc]. apply (inj Ok) in Hc. subst out.
      apply orb_false_iff in G3 as [G3 G4]. apply orb_false_iff in G3 as [G3 _]. apply orb_false_iff in G3 as [G3 G5]. bool_norm.
      subst z. split.
      - intros Hx. rewrite bool_decide_eq_true_2 in G4 by done. cbn [andb] in G4. by bool_norm.
      - match goal with G : py_eqb err _ = true |- _ => destruct err as [| | | |e| | |]; cbn [py_eqb] in G; try done; bool_norm; by subst e end. }
    split; [done|]. split; [done|]. destruct x as [x|].
    - destruct (setfile_text x) as [t0|] eqn:Et; [|done]. apply Hrun in Hc as [Hs Hc]. split; [done|].
      intros t Ht. specialize (Ht x eq_refl). rewrite Et in Ht. apply (inj Ok) in Ht. by subst t0.
    - apply Hrun in Hc as [Hs Hc]. split; [done|]. done. }
  destruct (command _ _ _ _ w fd (Some a)) as [w1 r1] eqn:E1. destruct r1 as [s1|]; [|done].
  unfold read_acl in H. destruct (command _ _ _ _ w1 fd None) as [w2 r2] eqn:E2. destruct r2 as [out|]; [|done].
  destruct (parse_acl out) as [obs|] eqn:E3; [|done]. destruct (negb _) eqn:G; [done|].
  apply pair_equal_spec in H as [<- H]. apply (inj Ok) in H. bool_norm. subst obs b.
  destruct (Hcmd _ _ _ _ _ E1 eq_refl) as (Hfd & Hf1 & Hs1 & R1). destruct (Hcmd _ _ _ _ _ E2 eq_refl) as (_ & Hf2 & _ & R2).
  rewrite Hs1 in R1 by done. split; [done|]. split; [by apply acl_ok_runtime|].
  apply parse_acl_Ok in E3 as [_ Ho]. exists (acl_text a), w1, out. split; [by apply setfile_text_ok|].
  split; [apply R1; intros ? [= <-]; by apply setfile_text_ok|]. split; [by apply (R2 [])|]. done.
Qed.

(** * Concrete instances *)

(** A host whose runner answers [setfacl] silently and [getfacl] with what was set. *)
Definition ex_runner (w : pystr) (argv : list pystr) (input : option pystr) : pystr * outcome :=
  match input with
  | Some t => (t, CompletedProcess (VInt 0) (VStr []) (VStr []))
  | None => (w, CompletedProcess (VInt 0) (VStr (w ++ [10])) (VStr []))
  end.
Definition ex_grant : acl := ACL (u "rwx") [(107, u "-wx")] (u "---") (Some (u "-wx")) (u "---").

Lemma write_acl_readback_witness :
  (write_acl ex_runner (fun _ _ => true) false false [] 5 ex_grant).2 = Ok ex_grant /\ runtime_acl ex_grant.
Proof.
  assert (write_acl ex_runner (fun _ _ => true) false false [] 5 ex_grant =
          (fst (write_acl ex_runner (fun _ _ => true) false false [] 5 ex_grant), Ok ex_grant)) as E by by vm_compute.
  split; [by rewrite E|]. exact (proj1 (proj2 (write_acl_readback _ _ _ _ _ _ _ _ _ E))).
Defined.
