(* ===== verification/Process.v ===== *)
(** The process of an OCI image ([oci_process.py]): its user, argument vector,
    environment, directory and stop signal; the resolution of its user in the
    account databases of the image; the candidates of its command. *)
From stdpp Require Import pretty.
From S2P Require Import Prelude Crypto PyStr PyText PyVal Utf8 Regex Network.

Definition MAX_PROCESS_ARGUMENTS : Z := 4096.
Definition MAX_PROCESS_ENVIRONMENT : Z := 4096.
Definition MAX_PROCESS_BYTES : Z := 256 * 1024.
Definition MAX_ACCOUNT_DATABASE_BYTES : Z := 64 * 1024.
Definition MAX_USER_OVERRIDE_LENGTH : Z := 65.
Definition MAX_ACCOUNT_ID : Z := 2 ^ 32 - 2.
Definition OCI_DEFAULT_PATH : string := "/usr/local/sbin:/usr/local/bin:/usr/sbin:/usr/bin:/sbin:/bin".

(** [_ENV_NAME_RE], [_ACCOUNT_RE] *)
Definition name_start_re : re := RCls [(65, 90); (97, 122); (95, 95)].
Definition env_name_re : re := RCat name_start_re (RStar (RCls [(65, 90); (97, 122); (48, 57); (95, 95)])).
Definition account_re : re :=
  RCat name_start_re (between 0 31 (RCls [(65, 90); (97, 122); (48, 57); (95, 95); (46, 46); (45, 45)])).

Definition SIGNALS : list (string * Z) :=
  [("SIGHUP", 1); ("SIGINT", 2); ("SIGQUIT", 3); ("SIGABRT", 6); ("SIGKILL", 9); ("SIGUSR1", 10); ("SIGUSR2", 12);
   ("SIGPIPE", 13); ("SIGALRM", 14); ("SIGTERM", 15); ("SIGCHLD", 17); ("SIGCONT", 18); ("SIGSTOP", 19); ("SIGTSTP", 20);
   ("SIGTTIN", 21); ("SIGTTOU", 22)]%string.

(** * Validation *)

(** [_plain_string]; a lone surrogate cannot be encoded *)
Definition plain_string (value : pyval) (field_name : string) (allow_empty : bool) : result pystr :=
  match value with
  | VStr s =>
      raise (field_name ++ " is invalid")%string when (negb allow_empty && bool_decide (s = [])) || bool_decide (0 ∈ s) ;;
      match utf8_encode s with
      | None => Err "UnicodeEncodeError"
      | Some b => raise (field_name ++ " is too large")%string when 32 * 1024 <? zlen b ;; Ok s
      end
  | _ => Err (field_name ++ " is invalid")%string
  end.

(** [_account] *)
Definition account (value : pyval) (field_name : string) : result pystr :=
  match value with
  | VStr s =>
      if isdecimal s then
        let? number := py_int s in
        raise (field_name ++ " is not canonical")%string
          when (MAX_ACCOUNT_ID <? number) || negb (bool_decide (str_of_int number = s)) ;;
        Ok s
      else
        raise (field_name ++ " is invalid")%string when negb (fullmatch account_re s) ;; Ok s
  | _ => Err (field_name ++ " is invalid")%string
  end.

Definition signal_range (number : Z) : result Z :=
  raise "image process stop signal is unsupported" when negb ((1 <=? number) && (number <=? 64)) ;; Ok number.

(** [_SIGNALS.get(rendered, 0)] *)
Definition signal_number (rendered : pystr) : Z :=
  match List.find (fun kv => bool_decide (rendered = u kv.1)) SIGNALS with Some kv => kv.2 | None => 0 end.

(** [_stop_signal] *)
Definition stop_signal_of (value : pyval) : result Z :=
  match value with
  | VNone | VStr [] => Ok 15
  | VInt number => signal_range number
  | VStr s =>
      let rendered := upper s in
      if isdecimal rendered then
        let? number := py_int rendered in
        raise "image process stop signal is not canonical" when negb (bool_decide (str_of_int number = rendered)) ;;
        signal_range number
      else
        signal_range (signal_number (if startswith (u "SIG") rendered then rendered else u "SIG" ++ rendered))
  | _ => signal_range 0
  end.

(** * [OCIUserSpec] *)

Record oci_user := OCIUser { user_name : pystr; user_group : option pystr }.
#[export] Instance oci_user_eq_dec : EqDecision oci_user.
Proof. solve_decision. Defined.

Definition user_init (user group : pyval) : result oci_user :=
  let? us := account user "image process user" in
  match group with
  | VNone => Ok (OCIUser us None)
  | _ => let? g := account group "image process group" in Ok (OCIUser us (Some g))
  end.

Definition opt_pystr (o : option pystr) : pyval := match o with Some s => VStr s | None => VNone end.

Definition user_to_dict (us : oci_user) : list (pystr * pyval) :=
  [(u "group", opt_pystr (user_group us)); (u "user", VStr (user_name us))].

Definition user_from_value (value : pyval) : result oci_user :=
  match value with
  | VNone | VStr [] => user_init (VStr (u "0")) (VStr (u "0"))
  | VStr s =>
      raise "image process user is invalid" when 1 <? count 58 s ;;
      let ' (user, separator, group) := partition 58 s in
      raise "image process user is invalid" when bool_decide (user = []) || (separator && bool_decide (group = [])) ;;
      user_init (VStr user) (if separator then VStr group else VNone)
  | _ => Err "image process user is invalid"
  end.

(** [OCIUserSpec.from_override_value] *)
Definition user_override (value : pyval) : result oci_user :=
  match value with
  | VStr (c :: s) =>
      raise "OCI run user override is invalid" when MAX_USER_OVERRIDE_LENGTH <? zlen (c :: s) ;;
      user_from_value value
  | _ => Err "OCI run user override is invalid"
  end.

Definition user_from_dict (value : pyval) : result oci_user :=
  let? d := exact value ["group"; "user"] "image process user fields are invalid" in
  let? us := user_init (d.["user"]) (d.["group"]) in
  raise "image process user is not canonical" when negb (py_eqb (VDict (user_to_dict us)) (VDict d)) ;;
  Ok us.

(** * [OCIProcessSpec] *)

Record process := Process {
  argv : list pystr;
  environment : list (pystr * pystr);
  cwd : pystr;
  p_user : oci_user;
  stop_signal : Z;
}.
#[export] Instance process_eq_dec : EqDecision process.
Proof. solve_decision. Defined.

(** [f"{field}[{index}]"] *)
Definition indexed (field : string) (index : N) : string := (field ++ "[" ++ pretty index ++ "]")%string.

Fixpoint plain_strings (field : string) (index : N) (values : list pyval) : result (list pystr) :=
  match values with
  | [] => Ok []
  | v :: values =>
      let? s := plain_string v (indexed field index) true in
      let? rest := plain_strings field (N.succ index) values in
      Ok (s :: rest)
  end.

(** The loop over the environment. *)
Fixpoint check_environment (index : N) (names : list pystr) (items : list (pyval * pyval)) : result (list (pystr * pystr)) :=
  match items with
  | [] => Ok []
  | (name, raw_value) :: items =>
      match name with
      | VStr n =>
          raise "image process environment name is invalid or duplicated"
            when negb (fullmatch env_name_re n) || bool_decide (n ∈ names) ;;
          let? value := plain_string raw_value (indexed "image process environment" index ++ ".value") true in
          let? rest := check_environment (N.succ index) (n :: names) items in
          Ok ((n, value) :: rest)
      | _ => Err "image process environment name is invalid or duplicated"
      end
  end.

(** [len(text.encode("utf-8"))] of a text that was encoded before *)
Definition utf8_len (s : pystr) : Z := match utf8_encode s with Some b => zlen b | None => 0 end.

(** [str(user.to_dict())]: names and numbers of accounts print between quotes *)
Definition user_repr (us : oci_user) : pystr :=
  u "{'group': " ++ match user_group us with Some g => u "'" ++ g ++ u "'" | None => u "None" end ++
  u ", 'user': '" ++ user_name us ++ u "'}".

Definition sum (l : list Z) : Z := fold_right Z.add 0 l.

Definition process_size (arguments : list pystr) (env : list (pystr * pystr)) (dir : pystr) (us : oci_user) : Z :=
  sum (map (fun a => utf8_len a + 1) arguments) +
  sum (map (fun nv => utf8_len nv.1 + utf8_len nv.2 + 2) env) +
  (utf8_len dir + utf8_len (user_repr us)).

(** [OCIProcessSpec.__post_init__] *)
Definition process_init (argv_values : list pyval) (items : list (pyval * pyval)) (cwd_value : pyval) (us : oci_user)
    (signal : pyval) : result process :=
  raise "image process argv is invalid" when MAX_PROCESS_ARGUMENTS <? zlen argv_values ;;
  let? arguments := plain_strings "image process argv" 0 argv_values in
  raise "image process environment is invalid" when MAX_PROCESS_ENVIRONMENT <? zlen items ;;
  let? env := check_environment 0 [] items in
  let? env :=
    if bool_decide (u "PATH" ∈ map fst env) then Ok env
    else raise "image process environment leaves no room for default PATH" when MAX_PROCESS_ENVIRONMENT <=? zlen env ;;
         Ok (env ++ [(u "PATH", u OCI_DEFAULT_PATH)]) in
  let? dir := plain_string cwd_value "image process cwd" false in
  raise "image process cwd must be a canonical absolute path"
    when negb (startswith [47] dir) || negb (bool_decide (normpath dir = dir)) || contains [47; 47] dir ;;
  let? number := stop_signal_of signal in
  raise "image process contract is too large" when MAX_PROCESS_BYTES <? process_size arguments env dir us ;;
  Ok (Process arguments env dir us number).

Definition bootable (p : process) : bool := match argv p with a :: _ => negb (bool_decide (a = [])) | [] => false end.
Definition require_bootable (p : process) : result unit :=
  raise "OCI image has no Entrypoint or Cmd to execute" when negb (bootable p) ;; Ok tt.

Definition env_values (env : list (pystr * pystr)) : list (pyval * pyval) := map (fun nv => (VStr nv.1, VStr nv.2)) env.

Definition with_user (p : process) (us : oci_user) : result process :=
  process_init (map VStr (argv p)) (env_values (environment p)) (VStr (cwd p)) us (VInt (stop_signal p)).

Definition with_command (p : process) (entrypoint command : list pyval) : result process :=
  match command with
  | [] => Err "OCI process command override is invalid"
  | _ => process_init (entrypoint ++ command) (env_values (environment p)) (VStr (cwd p)) (p_user p) (VInt (stop_signal p))
  end.

Definition process_to_dict (p : process) : list (pystr * pyval) :=
  [(u "argv", VList (map VStr (argv p))); (u "cwd", VStr (cwd p));
   (u "environment", VList (map (fun nv => VDict [(u "name", VStr nv.1); (u "value", VStr nv.2)]) (environment p)));
   (u "stop_signal", VInt (stop_signal p)); (u "user", VDict (user_to_dict (p_user p)))].

(** [OCIProcessSpec.empty] *)
Definition process_empty : result process :=
  let? us := user_init (VStr (u "0")) (VStr (u "0")) in
  process_init [] [] (VStr (u "/")) us (VInt 15).

(** [string_array] of [from_config], and the loop of [image_process_vectors] *)
Definition string_array (d : list (pystr * pyval)) (field_name : string) : result (list pystr) :=
  match d.[field_name] with
  | VNone => Ok []
  | VList raw => plain_strings ("image process " ++ field_name) 0 raw
  | _ => Err ("image process " ++ field_name ++ " must be an array or null")%string
  end.

Definition env_entry (item : pyval) : result (pyval * pyval) :=
  let? rendered := plain_string item "image process Env entry" true in
  let ' (name, separator, value) := partition 61 rendered in
  raise "image process Env entry must contain '='" when negb separator ;;
  Ok (VStr name, VStr value).

Definition process_from_config (value : pyval) : result process :=
  match value with
  | VNone => process_empty
  | VDict d =>
      let? _ := match d.["ArgsEscaped"] with
                | VNone | VBool _ => Ok tt
                | _ => Err "image process ArgsEscaped must be a boolean or null"
                end in
      let? entrypoint := string_array d "Entrypoint" in
      let? command := string_array d "Cmd" in
      let? env := match d.["Env"] with
                  | VNone => Ok []
                  | VList items => map_result env_entry items
                  | _ => Err "image process Env must be an array or null"
                  end in
      let raw_cwd := match d.["WorkingDir"] with VNone | VStr [] => VStr (u "/") | v => v end in
      let? dir := plain_string raw_cwd "image process WorkingDir" false in
      let? us := user_from_value (d.["User"]) in
      let? signal := stop_signal_of (d.["StopSignal"]) in
      process_init (map VStr (entrypoint ++ command)) env (VStr (normpath dir)) us (VInt signal)
  | _ => Err "image config.config must be an object or null"
  end.

Definition env_dict_entry (item : pyval) : result (pyval * pyval) :=
  let? d := exact item ["name"; "value"] "image process environment fields are invalid" in
  Ok (d.["name"], d.["value"]).

Definition process_from_dict (value : pyval) : result process :=
  let? d := exact value ["argv"; "cwd"; "environment"; "stop_signal"; "user"] "image process fields are invalid" in
  match d.["argv"], d.["environment"] with
  | VList arguments, VList raw_environment =>
      let? env := map_result env_dict_entry raw_environment in
      let? us := user_from_dict (d.["user"]) in
      let? p := process_init arguments env (d.["cwd"]) us (d.["stop_signal"]) in
      raise "image process contract is not canonical" when negb (py_eqb (VDict (process_to_dict p)) (VDict d)) ;;
      Ok p
  | _, _ => Err "image process arrays are invalid"
  end.

Definition image_process_vectors (value : pyval) : result (list pystr * list pystr) :=
  match value with
  | VDict d =>
      let? entrypoint := string_array d "Entrypoint" in
      let? command := string_array d "Cmd" in
      Ok (entrypoint, command)
  | _ => Err "image config.config must be an object"
  end.

(** * The user in the account databases of the image *)

Definition account_number (value : pystr) (field_name : string) : result Z :=
  let? canonical := account (VStr value) field_name in
  raise (field_name ++ " is not numeric")%string when negb (isdecimal canonical) ;;
  py_int canonical.

(** [_account_lines]: the lines that are neither empty nor comments *)
Definition account_lines (payload : bytes) (field_name : string) : result (list pystr) :=
  raise ("image-root " ++ field_name ++ " database is invalid")%string
    when (MAX_ACCOUNT_DATABASE_BYTES <? zlen payload) || bool_decide (0 ∈ payload) ;;
  raise ("image-root " ++ field_name ++ " database is not ASCII")%string when negb (forallb (fun b => b <? 128) payload) ;;
  raise ("image-root " ++ field_name ++ " database is unterminated")%string
    when negb (bool_decide (payload = [])) && negb (endswith [10] payload) ;;
  let lines := match payload with [] => [] | _ => split 10 (take (length payload - 1) payload) end in
  Ok (List.filter (fun line => negb (bool_decide (line = [])) && negb (startswith (u "#") line)) lines).

Definition passwd_record (line : pystr) : result (pystr * Z * Z) :=
  match split 58 line with
  | [name; _; uid; gid; _; _; _] =>
      raise "image-root passwd entry is invalid" when negb (fullmatch account_re name) ;;
      let? uid := account_number uid "image-root passwd UID" in
      let? gid := account_number gid "image-root passwd GID" in
      Ok (name, uid, gid)
  | _ => Err "image-root passwd entry is invalid"
  end.

Definition group_record (line : pystr) : result (pystr * Z) :=
  match split 58 line with
  | [name; _; gid; _] =>
      raise "image-root group entry is invalid" when negb (fullmatch account_re name) ;;
      let? gid := account_number gid "image-root group GID" in
      Ok (name, gid)
  | _ => Err "image-root group entry is invalid"
  end.

(** The group, given the records of [passwd] that match the user. *)
Definition resolve_group (us : oci_user) (matches : list (pystr * Z * Z)) (group : option bytes) : result Z :=
  match user_group us with
  | None => Ok (match matches with (_, _, gid) :: _ => gid | [] => 0 end)
  | Some g =>
      if isdecimal g then py_int g
      else
        match group with
        | None => Err "image process group is absent from image-root group"
        | Some payload =>
            let? lines := account_lines payload "group" in
            let? records := map_result group_record lines in
            match List.filter (fun r => bool_decide (r.1 = g)) records with
            | [(_, gid)] => Ok gid
            | [] => Err "image process group is absent from image-root group"
            | _ => Err "image process group is ambiguous in image-root group"
            end
        end
  end.

Definition resolve_oci_user (us : oci_user) (passwd group : option bytes) : result (Z * Z) :=
  let needs_passwd := negb (isdecimal (user_name us)) || bool_decide (user_group us = None) in
  let? records :=
    match passwd with
    | Some payload =>
        if needs_passwd then let? lines := account_lines payload "passwd" in map_result passwd_record lines else Ok []
    | None => Ok []
    end in
  let? ' (uid, matches) :=
    if isdecimal (user_name us) then
      let? uid := py_int (user_name us) in
      Ok (uid, List.filter (fun r : pystr * Z * Z => r.1.2 =? uid) records)
    else
      match List.filter (fun r : pystr * Z * Z => bool_decide (r.1.1 = user_name us)) records with
      | [] => Err "image process user is absent from image-root passwd"
      | r :: rs => Ok (r.1.2, r :: rs)
      end in
  raise "image process user is ambiguous in image-root passwd" when (1 <? zlen matches) ;;
  let? gid := resolve_group us matches group in
  Ok (uid, gid).

(** * The candidates of the command *)

Definition oci_path_candidates (p : process) : result (list pystr) :=
  let? _ := require_bootable p in
  let command := default [] (head (argv p)) in
  if contains [47] command then Ok [command]
  else
    let path := match List.find (fun nv => bool_decide (nv.1 = u "PATH")) (environment p) with
                | Some nv => nv.2
                | None => u OCI_DEFAULT_PATH
                end in
    Ok (map (fun directory => if bool_decide (directory = []) then command else directory ++ [47] ++ command) (split 58 path)).
