(* ===== verification/ProcessFacts.v ===== *)
(** Processes: what construction guarantees, the round trip through [to_dict],
    and where the resolved numbers of a user come from. *)
From stdpp Require Import pretty.
From S2P Require Import Prelude Crypto PyStr PyText PyVal Utf8 Regex Digest ControlV2Message Network NetworkFacts Process.

(** * Texts *)

Definition plain_ok (s : pystr) : Prop :=
  0 ∉ s /\ exists b, utf8_encode s = Some b /\ zlen b <= 32 * 1024.

Lemma plain_string_Ok v f e s : plain_string v f e = Ok s <-> v = VStr s /\ (e = false -> s <> []) /\ plain_ok s.
Proof.
  unfold plain_string, plain_ok. split.
  - destruct v as [| | | |t| | |]; try done. destruct (_ || _) eqn:G; [done|]. apply orb_false_iff in G as [G1 G2].
    destruct (utf8_encode t) as [b|] eqn:Eb; [|done]. destruct (_ <? _) eqn:G3; [done|]. intros [= ->]. bool_norm.
    split; [done|]. split; [|by eauto]. intros ->. cbn [negb andb] in G1. by bool_norm.
  - intros (-> & He & Hz & b & -> & Hb). rewrite (bool_decide_eq_false_2 (0 ∈ s)) by done. rewrite (proj2 (Z.ltb_ge _ _)) by done.
    destruct e; [done|]. cbn [negb andb]. by rewrite bool_decide_eq_false_2 by by apply He.
Qed.

Lemma plain_strings_Ok f i vs l : plain_strings f i vs = Ok l <-> vs = map VStr l /\ Forall plain_ok l.
Proof.
  revert i l; induction vs as [|v vs IH]; intros i l; cbn [plain_strings].
  - split; [by intros [= <-]|]. intros [E _]. by destruct l.
  - split.
    + intros H. inv_ok. apply plain_string_Ok in E as (-> & _ & ?). apply IH in E0 as [-> ?]. split; [done|by constructor].
    + intros [E Hl]. destruct l as [|s l]; [done|]. cbn [map] in E. apply Forall_cons in Hl as [Hs Hl].
      assert (v = VStr s) as -> by congruence. assert (vs = map VStr l) as Evs by congruence.
      rewrite (proj2 (plain_string_Ok (VStr s) _ true s)) by done. cbn [result_bind].
      by rewrite (proj2 (IH _ l) (conj Evs Hl)).
Qed.

Definition env_ok (nv : pystr * pystr) : Prop := fullmatch env_name_re nv.1 = true /\ plain_ok nv.2.

Lemma check_environment_Ok i names items l : check_environment i names items = Ok l <->
  items = env_values l /\ Forall env_ok l /\ NoDup (map fst l) /\ Forall (fun n => n ∉ names) (map fst l).
Proof.
  revert i names l; induction items as [|[n v] items IH]; intros i names l; cbn [check_environment].
  - split; [intros [= <-]; repeat split; constructor|]. intros [E _]. by destruct l.
  - split.
    + destruct n as [| | | |n| | |]; try done. destruct (_ || _) eqn:G; [done|]. intros H. inv_ok.
      apply orb_false_iff in G as [G1 G2]. bool_norm. apply plain_string_Ok in E as (-> & _ & ?).
      apply IH in E0 as (-> & Hf & Hn & Hnn). split; [done|]. split; [by constructor|]. cbn [map fst].
      split; [constructor; [|done]|constructor; [done|]].
      * intros Hin. rewrite Forall_forall in Hnn. apply (Hnn _ Hin). by left.
      * eapply Forall_impl; [exact Hnn|]. intros x Hx Hin. apply Hx. by right.
    + intros (E & Hf & Hn & Hnn). destruct l as [|[n' v'] l]; [done|]. cbn [env_values map fst snd] in *.
      apply Forall_cons in Hf as [[H1 H2] Hf]. apply NoDup_cons in Hn as [Hn Hnd]. apply Forall_cons in Hnn as [Hnm Hnn].
      cbn [fst snd] in *. simplify_eq. rewrite H1, bool_decide_eq_false_2 by done. cbn [negb orb].
      rewrite (proj2 (plain_string_Ok (VStr v') _ true v')) by done. cbn [result_bind].
      rewrite (proj2 (IH (N.succ i) (n' :: names) l)); [done|]. split; [done|]. split; [done|]. split; [done|].
      rewrite Forall_forall in Hnn |- *. intros x Hx. rewrite not_elem_of_cons. split; [|by apply Hnn]. by intros ->.
Qed.

Lemma signal_range_Ok z n : signal_range z = Ok n <-> n = z /\ 1 <= z <= 64.
Proof.
  unfold signal_range. destruct (negb _) eqn:G; split.
  - done.
  - intros [_ H]. apply negb_true_iff, andb_false_iff in G. destruct G as [G|G]; bool_norm; lia.
  - intros [= <-]. by bool_norm.
  - by intros [-> _].
Qed.

Lemma stop_signal_bounds v n : stop_signal_of v = Ok n -> 1 <= n <= 64.
Proof.
  unfold stop_signal_of. destruct v as [| |z| |[|c s]| | |]; intros H; try (by apply signal_range_Ok in H as [-> ?]);
    try (apply (inj Ok) in H; subst n; lia).
  destruct (isdecimal _).
  - apply result_bind_Ok in H as (z & _ & H). destruct (negb _); [done|]. by apply signal_range_Ok in H as [-> ?].
  - by apply signal_range_Ok in H as [-> ?].
Qed.

(** * Accounts *)

(** An account is a name or a canonical number in range. *)
Definition account_ok (s : pystr) : Prop :=
  (exists n, 0 <= n <= MAX_ACCOUNT_ID /\ s = str_of_int n) \/ (isdecimal s = false /\ fullmatch account_re s = true).

Lemma int_value_nonneg s : 0 <= int_value s.
Proof.
  unfold int_value. enough (forall a, 0 <= a -> 0 <= fold_left (fun a c => 10 * a + default 0 (decimal c)) s a) as H by by apply H.
  induction s as [|c s IH]; intros a Ha; cbn [fold_left]; [done|]. apply IH.
  assert (0 <= default 0 (decimal c)); [|lia]. unfold decimal.
  destruct (List.find _ _) as [z|] eqn:E; cbn [default]; [|done]. apply List.find_some in E as [_ E]. bool_norm.
  cbn [from_option id]. lia.
Qed.

Lemma py_int_Ok s n : py_int s = Ok n -> n = int_value s /\ 0 <= n.
Proof. unfold py_int. destruct (_ <? _); [done|]. intros [= <-]. split; [done|apply int_value_nonneg]. Qed.

Lemma py_int_str n : 0 <= n <= MAX_ACCOUNT_ID -> py_int (str_of_int n) = Ok n.
Proof.
  intros Hn. unfold MAX_ACCOUNT_ID in Hn. unfold py_int. rewrite int_value_str by lia.
  pose proof (length_digits n 10 ltac:(lia) ltac:(simpl; lia) ltac:(lia)).
  rewrite str_of_int_nonneg by lia. rewrite (proj2 (Z.ltb_ge _ _)); [done|]. unfold zlen. lia.
Qed.

Lemma account_Ok v f s : account v f = Ok s <-> v = VStr s /\ account_ok s.
Proof.
  unfold account, account_ok. split.
  - destruct v as [| | | |t| | |]; try done. destruct (isdecimal t) eqn:Ed; intros H.
    + apply result_bind_Ok in H as (n & Hn & H). destruct (_ || _) eqn:G; [done|]. apply (inj Ok) in H. subst t.
      apply orb_false_iff in G as [G1 G2]. bool_norm. apply py_int_Ok in Hn as [_ ?]. split; [done|]. left. exists n. by split.
    + destruct (negb _) eqn:G; [done|]. apply (inj Ok) in H. subst t. bool_norm. split; [done|by right].
  - intros [-> [(n & Hn & ->)|[Hd Hm]]].
    + rewrite isdecimal_str by lia. rewrite py_int_str by done. cbn [result_bind].
      rewrite (proj2 (Z.ltb_ge _ _)) by lia. by rewrite bool_decide_eq_true_2.
    + by rewrite Hd, Hm.
Qed.

Definition user_ok (us : oci_user) : Prop :=
  account_ok (user_name us) /\ match user_group us with Some g => account_ok g | None => True end.

Lemma user_init_Ok uv gv us : user_init uv gv = Ok us <->
  uv = VStr (user_name us) /\ gv = opt_pystr (user_group us) /\ user_ok us.
Proof.
  unfold user_init, user_ok. split.
  - intros H. apply result_bind_Ok in H as (n & Hn & H). apply account_Ok in Hn as [-> Hn].
    destruct gv; try (apply (inj Ok) in H; by subst us); apply result_bind_Ok in H as (g & Hg & H); apply account_Ok in Hg as [E Hg];
      try done; apply (inj Ok) in H; subst us; cbn [user_name user_group opt_pystr]; by rewrite E.
  - intros (-> & -> & Hn & Hg). rewrite (proj2 (account_Ok _ _ _) (conj eq_refl Hn)). cbn [result_bind].
    destruct us as [n [g|]]; cbn [opt_pystr user_group user_name] in *; [|done].
    by rewrite (proj2 (account_Ok _ _ _) (conj eq_refl Hg)).
Qed.

Lemma user_dict_eq us : py_eqb (VDict (user_to_dict us)) (VDict (user_to_dict us)) = true.
Proof.
  apply py_eqb_refl; [|by destruct us as [? []]].
  unfold user_to_dict. apply WfDict; [apply NoDup_decide; vm_compute; reflexivity|]. destruct us as [? []]; repeat constructor.
Qed.

Lemma user_from_to_dict us : user_ok us -> user_from_dict (VDict (user_to_dict us)) = Ok us.
Proof.
  intros Hu. unfold user_from_dict. rewrite exact_VDict by reflexivity. cbn [result_bind].
  assert (user_init ((user_to_dict us).["user"]) ((user_to_dict us).["group"]) = Ok us) as ->.
  { unfold user_to_dict. read_dict. by apply user_init_Ok. }
  cbn [result_bind]. by rewrite user_dict_eq.
Qed.

Lemma user_from_value_ok v us : user_from_value v = Ok us -> user_ok us.
Proof.
  unfold user_from_value. destruct v as [| | | |[|c s]| | |]; try done; intros H; try (by apply user_init_Ok in H as (_ & _ & ?)).
  destruct (_ <? _); [done|]. destruct (partition 58 (c :: s)) as [[a f] b]. destruct (_ || _); [done|].
  by apply user_init_Ok in H as (_ & _ & ?).
Qed.

Lemma user_from_dict_ok v us : user_from_dict v = Ok us -> user_ok us.
Proof.
  unfold user_from_dict. intros H. apply result_bind_Ok in H as (d & _ & H). apply result_bind_Ok in H as (us' & Hu & H).
  destruct (negb _); [done|]. apply (inj Ok) in H. subst us'. by apply user_init_Ok in Hu as (_ & _ & ?).
Qed.

(** * Processes *)

Record process_ok (p : process) : Prop := {
  po_arguments : zlen (argv p) <= MAX_PROCESS_ARGUMENTS /\ Forall plain_ok (argv p);
  po_environment : zlen (environment p) <= MAX_PROCESS_ENVIRONMENT /\ Forall env_ok (environment p);
  po_names : NoDup (map fst (environment p));
  po_path : u "PATH" ∈ map fst (environment p);
  po_cwd : plain_ok (cwd p) /\ normal_path (cwd p);
  po_user : user_ok (p_user p);
  po_signal : 1 <= stop_signal p <= 64;
  po_size : process_size (argv p) (environment p) (cwd p) (p_user p) <= MAX_PROCESS_BYTES;
}.

Lemma cwd_check s : negb (startswith [47] s) || negb (bool_decide (normpath s = s)) || contains [47; 47] s = false <-> normal_path s.
Proof.
  split.
  - intros H. apply orb_false_iff in H as [H H3]. apply orb_false_iff in H as [H1 H2]. bool_norm.
    rewrite <- H2. apply normpath_one; [done|]. rewrite H2. destruct (startswith [47; 47] s) eqn:E; [|done].
    apply startswith_spec in E as [t ->]. exfalso. 
    assert (contains [47; 47] ([47; 47] ++ t) = true) by (apply contains_spec; by exists [], t). congruence.
  - intros Hn. destruct (normpath_normal _ Hn) as (-> & -> & _). rewrite bool_decide_eq_true_2 by done.
    by rewrite normal_path_no_dslash.
Qed.

Lemma default_path_ok : env_ok (u "PATH", u OCI_DEFAULT_PATH).
Proof.
  split; [by vm_compute|]. split; [by apply (bool_decide_unpack _)|]. eexists. split; [by vm_compute|]. by vm_compute.
Qed.

Lemma process_init_ok avs items cv us sv p : user_ok us -> process_init avs items cv us sv = Ok p ->
  process_ok p /\ avs = map VStr (argv p) /\ p_user p = us /\ cv = VStr (cwd p) /\ stop_signal_of sv = Ok (stop_signal p) /\
  exists env, items = env_values env /\ environment p = env ++ (if bool_decide (u "PATH" ∈ map fst env) then [] else [(u "PATH", u OCI_DEFAULT_PATH)]).
Proof.
  intros Hu. unfold process_init. destruct (_ <? _) eqn:G1; [done|]. intros H. apply result_bind_Ok in H as (l & Hl & H).
  apply plain_strings_Ok in Hl as [-> Hl]. destruct (_ <? _) eqn:G2 in H; [done|]. apply result_bind_Ok in H as (env & He & H).
  apply check_environment_Ok in He as (-> & He & Hn & _). apply result_bind_Ok in H as (env' & He' & H).
  apply result_bind_Ok in H as (dir & Hd & H). apply plain_string_Ok in Hd as (-> & _ & Hd). destruct (_ || _) eqn:G3 in H; [done|].
  apply cwd_check in G3. apply result_bind_Ok in H as (n & Hs & H). destruct (_ <? _) eqn:G4 in H; [done|]. apply (inj Ok) in H. subst p.
  cbn [argv p_user cwd stop_signal environment]. unfold env_values in G2. unfold zlen in G1, G2. rewrite length_map in G1, G2.
  assert (env' = env ++ (if bool_decide (u "PATH" ∈ map fst env) then [] else [(u "PATH", u OCI_DEFAULT_PATH)]) /\
          zlen env' <= MAX_PROCESS_ENVIRONMENT /\ Forall env_ok env' /\ NoDup (map fst env') /\ u "PATH" ∈ map fst env') as (E & ? & ? & ? & ?).
  { unfold zlen. destruct (bool_decide_reflect (u "PATH" ∈ map fst env)) as [Hp|Hp].
    - apply (inj Ok) in He'. subst env'. rewrite app_nil_r. bool_norm. done.
    - destruct (_ <=? _) eqn:G5 in He'; [done|]. apply (inj Ok) in He'. subst env'. bool_norm. split; [done|].
      rewrite length_app. cbn [length]. unfold zlen in G5. split; [lia|]. split; [apply Forall_app; split; [done|]; repeat constructor; apply default_path_ok|].
      rewrite map_app. cbn [map fst]. split; [|apply elem_of_app; right; by left].
      apply NoDup_app. split; [done|]. split; [|repeat constructor; apply not_elem_of_nil].
      intros x Hx. rewrite list_elem_of_singleton. by intros ->. }
  split; [|by eauto 10]. bool_norm. split; cbn [argv environment cwd p_user stop_signal]; try done.
  by eapply stop_signal_bounds.
Qed.

Lemma process_init_own p : process_ok p ->
  process_init (map VStr (argv p)) (env_values (environment p)) (VStr (cwd p)) (p_user p) (VInt (stop_signal p)) = Ok p.
Proof.
  intros [[Ha Hal] [He Hel] Hn Hp [Hc Hcn] Hu Hs Hz]. unfold process_init, env_values. unfold zlen at 1 2. rewrite !length_map.
  fold (zlen (argv p)) (zlen (environment p)). rewrite !(proj2 (Z.ltb_ge _ _)) by done.
  rewrite (proj2 (plain_strings_Ok _ _ _ (argv p)) (conj eq_refl Hal)). cbn [result_bind].
  rewrite (proj2 (check_environment_Ok 0 [] _ (environment p))).
  2: { split; [done|]. split; [done|]. split; [done|]. apply Forall_forall. intros x _. apply not_elem_of_nil. }
  cbn [result_bind]. rewrite bool_decide_eq_true_2 by done. cbn [result_bind].
  rewrite (proj2 (plain_string_Ok (VStr (cwd p)) _ false (cwd p))).
  2: { split; [done|]. split; [|done]. intros _ E. destruct Hcn as (? & _ & Ec). by rewrite Ec in E. }
  cbn [result_bind]. rewrite (proj2 (cwd_check _) Hcn).
  change (stop_signal_of (VInt (stop_signal p))) with (signal_range (stop_signal p)).
  rewrite (proj2 (signal_range_Ok _ (stop_signal p))) by done. cbn [result_bind].
  rewrite (proj2 (Z.ltb_ge _ _)) by done. by destruct p.
Qed.

Lemma wf_process p : wf_val (VDict (process_to_dict p)) /\ no_nan (VDict (process_to_dict p)) = true.
Proof.
  unfold process_to_dict. split.
  - apply WfDict; [apply NoDup_decide; vm_compute; reflexivity|].
    repeat apply Forall_cons_2; cbn [snd]; try constructor.
    + apply wf_strings.
    + induction (environment p) as [|nv l IH]; constructor; [|done].
      apply WfDict; [apply NoDup_decide; vm_compute; reflexivity|repeat constructor].
    + apply NoDup_decide. vm_compute. reflexivity.
    + destruct (p_user p) as [? []]; repeat constructor.
  - cbn [no_nan forallb snd]. rewrite !andb_true_iff. repeat split.
    + induction (argv p); done.
    + induction (environment p); done.
    + by destruct (p_user p) as [? []].
Qed.

Lemma env_dict_entries l : map_result env_dict_entry (map (fun nv => VDict [(u "name", VStr nv.1); (u "value", VStr nv.2)]) l) = Ok (env_values l).
Proof.
  apply map_result_Ok. induction l as [|nv l IH]; constructor; [|done]. unfold env_dict_entry. by read_dict.
Qed.

Lemma process_from_to_dict p : process_ok p -> process_from_dict (VDict (process_to_dict p)) = Ok p.
Proof.
  intros Hp. destruct (wf_process p) as [Hw Hn]. pose proof (py_eqb_refl _ Hw Hn) as Heq. clear Hw Hn.
  unfold process_from_dict. rewrite exact_VDict by reflexivity. cbn [result_bind].
  assert (forall k v, In (k, v) [("argv"%string, VList (map VStr (argv p))); ("cwd"%string, VStr (cwd p));
     ("environment"%string, VList (map (fun nv => VDict [(u "name", VStr nv.1); (u "value", VStr nv.2)]) (environment p)));
     ("stop_signal"%string, VInt (stop_signal p)); ("user"%string, VDict (user_to_dict (p_user p)))] ->
     (process_to_dict p).[k] = v) as Hread.
  { intros k v H. unfold process_to_dict. cbn [In] in H.
    destruct H as [E|[E|[E|[E|[E|[]]]]]]; apply pair_equal_spec in E as [<- <-]; by read_dict. }
  rewrite (Hread "argv" _ (or_introl eq_refl)), (Hread "cwd" _ (or_intror (or_introl eq_refl))),
    (Hread "environment" _ (or_intror (or_intror (or_introl eq_refl)))),
    (Hread "stop_signal" _ (or_intror (or_intror (or_intror (or_introl eq_refl))))),
    (Hread "user" _ (or_intror (or_intror (or_intror (or_intror (or_introl eq_refl)))))). clear Hread.
  rewrite env_dict_entries. cbn [result_bind]. rewrite user_from_to_dict by apply Hp. cbn [result_bind].
  rewrite process_init_own by done. cbn [result_bind]. by rewrite Heq.
Qed.

Lemma process_from_dict_ok v p : process_from_dict v = Ok p -> process_ok p /\ py_eqb (VDict (process_to_dict p)) v = true.
Proof.
  unfold process_from_dict. intros H. apply result_bind_Ok in H as (d & Hd & H). apply exact_Ok in Hd as [-> _].
  destruct (d.["argv"]) as [| | | | |arguments| |]; try done. destruct (d.["environment"]) as [| | | | |raw| |]; try done.
  apply result_bind_Ok in H as (env & _ & H). apply result_bind_Ok in H as (us & Hu & H). apply result_bind_Ok in H as (p' & Hp & H).
  destruct (negb _) eqn:G; [done|]. apply (inj Ok) in H. subst p'. bool_norm. split; [|done].
  apply process_init_ok in Hp as [? _]; [done|]. by eapply user_from_dict_ok.
Qed.

Lemma process_from_config_ok v p : process_from_config v = Ok p -> process_ok p.
Proof.
  unfold process_from_config. destruct v; try done; intros H.
  - unfold process_empty in H. apply result_bind_Ok in H as (us & Hu & H). apply process_init_ok in H as [? _]; [done|].
    by apply user_init_Ok in Hu as (_ & _ & ?).
  - apply result_bind_Ok in H as (? & _ & H). apply result_bind_Ok in H as (e & _ & H). apply result_bind_Ok in H as (c & _ & H).
    apply result_bind_Ok in H as (env & _ & H). cbv zeta in H. apply result_bind_Ok in H as (dir & _ & H).
    apply result_bind_Ok in H as (us & Hu & H). apply result_bind_Ok in H as (sg & _ & H).
    apply process_init_ok in H as [? _]; [done|]. by eapply user_from_value_ok.
Qed.
