(* ===== verification/ProcessTheorems.v ===== *)
(** The properties of image processes: every constructor yields a well-formed
    process, which is read back from its dictionary; the numbers a user resolves
    to come from unique entries of the image's databases; the candidates of a
    command. *)
From S2P Require Import Prelude Crypto PyStr PyText PyVal Utf8 Regex Digest ControlV2Message Network NetworkFacts Process ProcessFacts.

(** * The account databases *)

(** A line of a database that is neither empty nor a comment. *)
Definition line_of (payload : bytes) (line : pystr) : Prop :=
  line ∈ split 10 payload /\ line <> [] /\ startswith (u "#") line = false.

Definition passwd_entry (passwd : option bytes) (name : pystr) (uid gid : Z) : Prop :=
  exists payload line x g h s, passwd = Some payload /\ line_of payload line /\
    split 58 line = [name; x; str_of_int uid; str_of_int gid; g; h; s].

Definition group_entry (group : option bytes) (name : pystr) (gid : Z) : Prop :=
  exists payload line x m, group = Some payload /\ line_of payload line /\ split 58 line = [name; x; str_of_int gid; m].

Lemma account_lines_Ok payload f lines : account_lines payload f = Ok lines -> forall line, line ∈ lines <-> line_of payload line.
Proof.
  unfold account_lines, line_of. destruct (_ || _); [done|]. destruct (negb (forallb _ _)); [done|]. destruct (_ && _) eqn:G; [done|].
  intros H line. apply (inj Ok) in H. subst lines. rewrite list_elem_of_In, filter_In, <- list_elem_of_In, andb_true_iff, !negb_true_iff, bool_decide_eq_false.
  enough (line <> [] -> line ∈ match payload with [] => [] | _ => split 10 (take (length payload - 1) payload) end <-> line ∈ split 10 payload) by tauto.
  intros Hl. destruct payload as [|b payload']; [cbn [split]; rewrite list_elem_of_singleton, elem_of_nil; naive_solver|].
  set (payload := b :: payload') in *. apply andb_false_iff in G as [G|G]; [by apply negb_false_iff, bool_decide_eq_true in G|].
  apply negb_false_iff in G. unfold endswith in G. apply startswith_spec in G as [t Ht]. apply (f_equal (@rev Z)) in Ht.
  rewrite rev_involutive in Ht. cbn [rev app] in Ht. rewrite Ht, length_app. cbn [length]. rewrite Nat.add_sub, take_app_length.
  change (rev t ++ [10]) with (rev t ++ 10 :: []). rewrite split_app_gen, elem_of_app. cbn [split]. rewrite list_elem_of_singleton. tauto.
Qed.

Lemma account_number_Ok s f n : account_number s f = Ok n <-> s = str_of_int n /\ 0 <= n <= MAX_ACCOUNT_ID.
Proof.
  unfold account_number. split.
  - intros H. apply result_bind_Ok in H as (c & Hc & H). apply account_Ok in Hc as [Ec Hc].
    assert (s = c) as -> by congruence. destruct (negb _) eqn:G; [done|]. bool_norm. destruct Hc as [(m & Hm & ->)|[Hd _]]; [|congruence].
    rewrite py_int_str in H by done. apply (inj Ok) in H. by subst m.
  - intros [-> Hn]. rewrite (proj2 (account_Ok _ _ _) (conj eq_refl (or_introl (ex_intro _ n (conj Hn eq_refl))))). cbn [result_bind].
    rewrite isdecimal_str by lia. by apply py_int_str.
Qed.

Lemma passwd_record_Ok line name uid gid : passwd_record line = Ok (name, uid, gid) ->
  0 <= uid <= MAX_ACCOUNT_ID /\ 0 <= gid <= MAX_ACCOUNT_ID /\
  exists x g h s, split 58 line = [name; x; str_of_int uid; str_of_int gid; g; h; s].
Proof.
  unfold passwd_record. intros H. destruct (split 58 line) as [|n [|x [|us [|gs [|g [|h [|s [|]]]]]]]]; try done.
  destruct (negb _); [done|]. apply result_bind_Ok in H as (a & Ha & H). apply result_bind_Ok in H as (b & Hb & H).
  apply account_number_Ok in Ha as [-> ?], Hb as [-> ?]. apply (inj Ok) in H. simplify_eq. split; [done|]. split; [done|]. eauto 10.
Qed.

Lemma group_record_Ok line name gid : group_record line = Ok (name, gid) ->
  0 <= gid <= MAX_ACCOUNT_ID /\ exists x m, split 58 line = [name; x; str_of_int gid; m].
Proof.
  unfold group_record. intros H. destruct (split 58 line) as [|n [|x [|gs [|m [|]]]]]; try done.
  destruct (negb _); [done|]. apply result_bind_Ok in H as (b & Hb & H). apply account_number_Ok in Hb as [-> ?].
  apply (inj Ok) in H. simplify_eq. eauto 10.
Qed.

Lemma str_of_int_inj' a b : 0 <= a -> str_of_int a = str_of_int b -> a = b.
Proof.
  intros Ha E. destruct (decide (0 <= b)); [by apply str_of_int_inj|]. exfalso.
  unfold str_of_int in E. rewrite (proj2 (Z.ltb_ge _ _)), (proj2 (Z.ltb_lt b 0)) in E by lia.
  pose proof (digits_digits a Ha) as Hd. rewrite E in Hd. apply Forall_cons in Hd as [Hd _]. by vm_compute in Hd.
Qed.

(** The records read from a database are its entries. *)
Lemma passwd_records payload lines records : account_lines payload "passwd" = Ok lines ->
  map_result passwd_record lines = Ok records ->
  forall n u' g, (n, u', g) ∈ records <-> passwd_entry (Some payload) n u' g.
Proof.
  intros Hl Hr n u' g. apply map_result_Ok in Hr. split.
  - intros Hin. apply list_elem_of_lookup in Hin as [i Hi]. destruct (Forall2_lookup_r _ _ _ _ _ Hr Hi) as (line & Hline & E).
    apply passwd_record_Ok in E as (_ & _ & x & a & b & c & E). exists payload, line, x, a, b, c. split; [done|]. split; [|done].
    eapply account_lines_Ok; [done|]. by eapply list_elem_of_lookup_2.
  - intros (p & line & x & a & b & c & [= <-] & Hline & E). eapply account_lines_Ok in Hline; [|done].
    apply list_elem_of_lookup in Hline as [i Hi]. destruct (Forall2_lookup_l _ _ _ _ _ Hr Hi) as ([[n0 u0] g0] & H0 & E0).
    apply passwd_record_Ok in E0 as (Hu & Hg & ? & ? & ? & ? & E0). rewrite E in E0.
    assert (n = n0) as -> by congruence. assert (u0 = u') as -> by (apply str_of_int_inj'; [lia|congruence]).
    assert (g0 = g) as -> by (apply str_of_int_inj'; [lia|congruence]). by eapply list_elem_of_lookup_2.
Qed.

Lemma group_records payload lines records : account_lines payload "group" = Ok lines ->
  map_result group_record lines = Ok records ->
  forall n g, (n, g) ∈ records <-> group_entry (Some payload) n g.
Proof.
  intros Hl Hr n g. apply map_result_Ok in Hr. split.
  - intros Hin. apply list_elem_of_lookup in Hin as [i Hi]. destruct (Forall2_lookup_r _ _ _ _ _ Hr Hi) as (line & Hline & E).
    apply group_record_Ok in E as (_ & x & m & E). exists payload, line, x, m. split; [done|]. split; [|done].
    eapply account_lines_Ok; [done|]. by eapply list_elem_of_lookup_2.
  - intros (p & line & x & m & [= <-] & Hline & E). eapply account_lines_Ok in Hline; [|done].
    apply list_elem_of_lookup in Hline as [i Hi]. destruct (Forall2_lookup_l _ _ _ _ _ Hr Hi) as ([n0 g0] & H0 & E0).
    apply group_record_Ok in E0 as (Hg & ? & ? & E0). rewrite E in E0.
    assert (n = n0) as -> by congruence. assert (g0 = g) as -> by (apply str_of_int_inj'; [lia|congruence]).
    by eapply list_elem_of_lookup_2.
Qed.

Lemma passwd_bounds payload lines records n u' g : account_lines payload "passwd" = Ok lines ->
  map_result passwd_record lines = Ok records -> (n, u', g) ∈ records -> 0 <= u' <= MAX_ACCOUNT_ID /\ 0 <= g <= MAX_ACCOUNT_ID.
Proof.
  intros _ Hr Hin. apply map_result_Ok in Hr. apply list_elem_of_lookup in Hin as [i Hi].
  destruct (Forall2_lookup_r _ _ _ _ _ Hr Hi) as (line & _ & E). by apply passwd_record_Ok in E as (? & ? & _).
Qed.

Lemma decimal_account s : account_ok s -> isdecimal s = true -> exists n, 0 <= n <= MAX_ACCOUNT_ID /\ s = str_of_int n.
Proof. intros [?|[E _]] Hd; [done|congruence]. Qed.

Lemma filter_single {A} (f : A -> bool) l a b : List.filter f l = [a] -> b ∈ l -> f b = true -> b = a.
Proof.
  intros E Hb Hf. assert (b ∈ List.filter f l) as H by (apply list_elem_of_In, filter_In; by rewrite <- list_elem_of_In).
  rewrite E in H. by apply list_elem_of_singleton in H.
Qed.

Lemma filter_elem {A} (f : A -> bool) l a r : List.filter f l = a :: r -> a ∈ l /\ f a = true.
Proof. intros E. rewrite list_elem_of_In. apply (filter_In f a l). rewrite E. by left. Qed.

(** The group that is named. *)
Definition group_part (g : pystr) (group : option bytes) (gid : Z) : Prop :=
  if isdecimal g then g = str_of_int gid
  else group_entry group g gid /\ forall gid', group_entry group g gid' -> gid' = gid.

Lemma resolve_group_named us g matches group gid : user_group us = Some g -> account_ok g ->
  resolve_group us matches group = Ok gid -> 0 <= gid <= MAX_ACCOUNT_ID /\ group_part g group gid.
Proof.
  unfold resolve_group, group_part. intros -> Hg H. destruct (isdecimal g) eqn:Ed.
  - destruct (decimal_account _ Hg Ed) as (n & Hn & ->). rewrite py_int_str in H by done. apply (inj Ok) in H. by subst n.
  - destruct group as [payload|]; [|done]. apply result_bind_Ok in H as (lines & Hl & H). apply result_bind_Ok in H as (records & Hr & H).
    destruct (List.filter _ _) as [|[n g0] [|]] eqn:Ef; try done. apply (inj Ok) in H. subst g0.
    destruct (filter_elem _ _ _ _ Ef) as [Hin Hn]. cbn [fst] in Hn. apply bool_decide_eq_true in Hn. subst n.
    split; [|split].
    + apply map_result_Ok in Hr. apply list_elem_of_lookup in Hin as [i Hi].
      destruct (Forall2_lookup_r _ _ _ _ _ Hr Hi) as (line & _ & E). by apply group_record_Ok in E as [? _].
    + by apply (group_records _ _ _ Hl Hr).
    + intros g' Hg'. apply (group_records _ _ _ Hl Hr) in Hg'.
      pose proof (filter_single _ _ _ _ Ef Hg') as E. cbn [fst] in E. rewrite bool_decide_eq_true_2 in E by done. specialize (E eq_refl). congruence.
Qed.

(** The part of [passwd]: the uid and the records that match the user. *)
Definition passwd_part (us : oci_user) (passwd : option bytes) (uid : Z) (matches : list (pystr * Z * Z)) : Prop :=
  if isdecimal (user_name us) then user_name us = str_of_int uid else exists g, matches = [(user_name us, uid, g)].

Lemma resolve_oci_user_inv us passwd group uid gid : user_ok us -> resolve_oci_user us passwd group = Ok (uid, gid) ->
  exists matches, (length matches <= 1)%nat /\ passwd_part us passwd uid matches /\ 0 <= uid <= MAX_ACCOUNT_ID /\
    resolve_group us matches group = Ok gid /\
    (forall n u' g, (n, u', g) ∈ matches -> passwd_entry passwd n u' g /\ u' = uid /\ 0 <= g <= MAX_ACCOUNT_ID) /\
    (isdecimal (user_name us) = false \/ user_group us = None -> forall n u' g, passwd_entry passwd n u' g ->
       (if isdecimal (user_name us) then u' = uid else n = user_name us) -> (n, u', g) ∈ matches).
Proof.
  intros [Hu _] H. unfold resolve_oci_user in H. apply result_bind_Ok in H as (records & Hr & H).
  apply result_bind_Ok in H as ([uid0 matches] & Hm & H). destruct (1 <? _) eqn:G; [done|]. apply Z.ltb_ge in G.
  apply result_bind_Ok in H as (gid0 & Hg & H). apply (inj Ok) in H. simplify_eq.
  assert (forall n u' g, (n, u', g) ∈ records -> passwd_entry passwd n u' g /\ 0 <= u' <= MAX_ACCOUNT_ID /\ 0 <= g <= MAX_ACCOUNT_ID) as Hsound.
  { destruct passwd as [payload|]; [|apply (inj Ok) in Hr; subst records; by intros ? ? ? ?%not_elem_of_nil].
    destruct (_ || _); [|apply (inj Ok) in Hr; subst records; by intros ? ? ? ?%not_elem_of_nil].
    apply result_bind_Ok in Hr as (lines & Hl & Hr). intros n u' g Hin.
    destruct (passwd_bounds _ _ _ _ _ _ Hl Hr Hin). by apply (passwd_records _ _ _ Hl Hr) in Hin. }
  assert (isdecimal (user_name us) = false \/ user_group us = None -> forall n u' g, passwd_entry passwd n u' g -> (n, u', g) ∈ records) as Hcomplete.
  { intros Hneed n u' g He. destruct passwd as [payload|]; [|by destruct He as (? & ? & ? & ? & ? & ? & [=] & _)].
    assert (negb (isdecimal (user_name us)) || bool_decide (user_group us = None) = true) as E.
    { destruct Hneed as [->| ->]; [done|]. rewrite bool_decide_eq_true_2 by done. by rewrite orb_true_r. }
    rewrite E in Hr. apply result_bind_Ok in Hr as (lines & Hl & Hr). by apply (passwd_records _ _ _ Hl Hr). }
  clear Hr. exists matches. assert (length matches <= 1)%nat as Hlen by (unfold zlen in G; lia). split; [done|].
  unfold passwd_part. destruct (isdecimal (user_name us)) eqn:Ed.
  - destruct (decimal_account _ Hu Ed) as (m & Hm' & En). rewrite En in *. rewrite py_int_str in Hm by done.
    cbn [result_bind] in Hm. apply (inj Ok) in Hm. apply pair_equal_spec in Hm as [<- <-].
    split; [done|]. split; [done|]. split; [done|]. split.
    + intros n u' g Hin. apply list_elem_of_In, filter_In in Hin as [Hin Ef]. apply list_elem_of_In in Hin.
      cbn [fst snd] in Ef. apply Z.eqb_eq in Ef. destruct (Hsound _ _ _ Hin) as (? & ? & ?). done.
    + intros Hneed n u' g He ->. apply list_elem_of_In, filter_In. cbn [fst snd]. rewrite Z.eqb_refl. split; [|done].
      apply list_elem_of_In. by apply Hcomplete.
  - destruct (List.filter _ records) as [|[[n0 u0] g0] rs] eqn:Ef; [done|]. apply (inj Ok) in Hm.
    cbn [fst snd] in Hm. apply pair_equal_spec in Hm as [<- <-]. destruct rs; [|cbn in Hlen; lia].
    destruct (filter_elem _ _ _ _ Ef) as [Hin Hn]. cbn [fst snd] in Hn. apply bool_decide_eq_true in Hn. subst n0.
    destruct (Hsound _ _ _ Hin) as (He & Hub & Hgb). split; [by exists g0|]. split; [done|]. split; [done|]. split.
    + intros n u' g Hx. apply list_elem_of_singleton in Hx. by simplify_eq.
    + intros Hneed n u' g He' ->. specialize (Hcomplete Hneed _ _ _ He').
      pose proof (filter_single _ _ _ _ Ef Hcomplete) as E. cbn [fst snd] in E. rewrite bool_decide_eq_true_2 in E by done.
      rewrite E by done. by left.
Qed.

(** * Properties *)

(** A resolved user has numbers in range; a named user, a named group and a
    primary group come from the one entry of the image's databases that has the
    name or the number; a numeric user without an entry has group 0. *)
Theorem resolve_oci_user_unique us passwd group uid gid : user_ok us ->
  resolve_oci_user us passwd group = Ok (uid, gid) ->
  0 <= uid <= MAX_ACCOUNT_ID /\ 0 <= gid <= MAX_ACCOUNT_ID /\
  (if isdecimal (user_name us) then user_name us = str_of_int uid
   else exists g, passwd_entry passwd (user_name us) uid g /\
     forall u' g', passwd_entry passwd (user_name us) u' g' -> u' = uid /\ g' = g) /\
  match user_group us with
  | Some g => group_part g group gid
  | None =>
      (exists n, passwd_entry passwd n uid gid /\
         forall n' g', passwd_entry passwd n' uid g' -> isdecimal (user_name us) = true \/ n' = user_name us -> g' = gid) \/
      (isdecimal (user_name us) = true /\ gid = 0 /\ forall n g, ~ passwd_entry passwd n uid g)
  end.
Proof.
  intros Hu H. destruct (resolve_oci_user_inv _ _ _ _ _ Hu H) as (matches & Hlen & Hp & Hub & Hg & Hsound & Hcomplete).
  destruct Hu as [_ Hgu]. split; [done|].
  assert (if isdecimal (user_name us) then user_name us = str_of_int uid
   else exists g, passwd_entry passwd (user_name us) uid g /\
     forall u' g', passwd_entry passwd (user_name us) u' g' -> u' = uid /\ g' = g) as Huser.
  { unfold passwd_part in Hp. destruct (isdecimal (user_name us)) eqn:Ed; [done|]. destruct Hp as [g ->]. exists g.
    split; [apply (Hsound (user_name us) uid g); by left|]. intros u' g' He.
    specialize (Hcomplete (or_introl eq_refl) _ _ _ He eq_refl). apply list_elem_of_singleton in Hcomplete. by simplify_eq. }
  destruct (user_group us) as [g|] eqn:Eg.
  - destruct (resolve_group_named _ _ _ _ _ Eg Hgu Hg). done.
  - unfold resolve_group in Hg. rewrite Eg in Hg. specialize (Hcomplete (or_intror eq_refl)).
    destruct matches as [|[[n u'] g'] [|]]; [| |cbn in Hlen; lia].
    + apply (inj Ok) in Hg. subst gid. unfold MAX_ACCOUNT_ID in *. split; [lia|]. split; [done|]. right.
      unfold passwd_part in Hp. destruct (isdecimal (user_name us)) eqn:Ed; [|by destruct Hp].
      split; [done|]. split; [done|]. intros n g He. specialize (Hcomplete _ _ _ He eq_refl). by apply not_elem_of_nil in Hcomplete.
    + apply (inj Ok) in Hg. subst gid. destruct (Hsound n u' g') as (He & -> & Hgb); [by left|]. split; [done|]. split; [done|]. left.
      exists n. split; [done|]. intros n' g0 He' Hsel.
      assert ((n', uid, g0) ∈ [(n, uid, g')]) as Hin.
      { apply Hcomplete; [done|]. destruct (isdecimal (user_name us)); [done|]. by destruct Hsel. }
      apply list_elem_of_singleton in Hin. by simplify_eq.
Qed.

(** An override replaces its field and nothing else. *)
Lemma with_user_only p us q : process_ok p -> user_ok us -> with_user p us = Ok q ->
  process_ok q /\ q = Process (argv p) (environment p) (cwd p) us (stop_signal p).
Proof.
  intros Hp Hu H. unfold with_user in H. apply process_init_ok in H as (Hq & Ha & Hus & Hc & Hs & env & He & Hen); [|done].
  split; [done|]. destruct q as [qa qe qc qu qs]. cbn [argv environment cwd p_user stop_signal] in *.
  assert (forall l k : list pystr, map VStr l = map VStr k -> l = k) as Hinj.
  { intros l. induction l as [|x l IH]; intros [|y k] E; cbn [map] in E; try done. f_equal; [congruence|]. apply IH. congruence. }
  assert (env = environment p) as ->.
  { symmetry. revert He. generalize (environment p) env. unfold env_values.
    intros l. induction l as [|[a b] l IH]; intros [|[a' b'] k] E; cbn [map fst snd] in E; try done.
    assert (VStr a = VStr a' /\ VStr b = VStr b') as [E1 E2] by (split; congruence).
    f_equal; [f_equal; congruence|]. apply IH. congruence. }
  rewrite bool_decide_eq_true_2 in Hen by apply Hp. rewrite app_nil_r in Hen.
  assert (signal_range (stop_signal p) = Ok qs) as Hs' by exact Hs. apply signal_range_Ok in Hs' as [-> _].
  f_equal; [by apply Hinj|done|congruence|done].
Qed.

Lemma with_command_only p entrypoint command q : process_ok p -> with_command p entrypoint command = Ok q ->
  process_ok q /\ entrypoint ++ command = map VStr (argv q) /\ p_user q = p_user p /\ cwd q = cwd p.
Proof.
  intros Hp H. unfold with_command in H. destruct command; [done|].
  apply process_init_ok in H as (Hq & Ha & Hus & Hc & _); [|apply Hp]. split; [done|]. split; [done|]. split; [done|congruence].
Qed.

(** The processes the module builds. *)
Inductive process_built : process -> Prop :=
| built_config v p : process_from_config v = Ok p -> process_built p
| built_dict v p : process_from_dict v = Ok p -> process_built p
| built_user p v us q : process_built p -> user_override v = Ok us -> with_user p us = Ok q -> process_built q
| built_command p e c q : process_built p -> with_command p e c = Ok q -> process_built q.

(** C39: every process that is built - from an image, from its dictionary or by
    overrides - is well formed: bounded, with unique names and a PATH, in a
    normal absolute directory, with a signal in range; and it is read back from
    the dictionary it is written to. *)
Theorem process_built_roundtrip p : process_built p -> process_ok p /\ process_from_dict (VDict (process_to_dict p)) = Ok p.
Proof.
  intros H. enough (process_ok p) by (split; [done|by apply process_from_to_dict]).
  induction H as [v p H|v p H|p v us q _ IH Hv Hq|p e c q _ IH Hq].
  - by eapply process_from_config_ok.
  - by eapply process_from_dict_ok.
  - eapply with_user_only in Hq; [apply Hq|done|]. unfold user_override in Hv. destruct v as [| | | |[|c s]| | |]; try done.
    destruct (_ <? _); [done|]. by eapply user_from_value_ok.
  - by eapply with_command_only in Hq; [apply Hq|].
Qed.

(** A numeric user and group need no database. *)
Lemma numeric_user_needs_no_database us g passwd group uid gid : user_group us = Some g ->
  0 <= uid <= MAX_ACCOUNT_ID -> 0 <= gid <= MAX_ACCOUNT_ID -> user_name us = str_of_int uid -> g = str_of_int gid ->
  resolve_oci_user us passwd group = Ok (uid, gid).
Proof.
  intros Hg Hu Hgb En ->. unfold resolve_oci_user. rewrite En, Hg, isdecimal_str by lia. rewrite bool_decide_eq_false_2 by done. cbn [negb orb].
  assert (match passwd with Some _ | _ => Ok [] end = Ok (@nil (pystr * Z * Z))) as -> by by destruct passwd.
  cbn [result_bind]. rewrite py_int_str by done. cbn [result_bind List.filter].
  rewrite (proj2 (Z.ltb_ge _ _)) by by vm_compute. unfold resolve_group. rewrite Hg, isdecimal_str by lia. by rewrite py_int_str.
Qed.

(** The candidates of a command: itself when it has a slash, else one per
    directory of PATH, in order. *)
Lemma oci_path_candidates_Ok p l : process_ok p -> oci_path_candidates p = Ok l ->
  exists command rest, argv p = command :: rest /\ command <> [] /\ l <> [] /\
    (l = [command] /\ contains [47] command = true \/
     contains [47] command = false /\ exists path, (u "PATH", path) ∈ environment p /\
       l = map (fun d => if bool_decide (d = []) then command else d ++ [47] ++ command) (split 58 path)).
Proof.
  intros Hp. unfold oci_path_candidates, require_bootable, bootable. destruct (argv p) as [|c rest] eqn:Ea; [done|].
  destruct (bool_decide_reflect (c = [])) as [|Hc]; [done|]. cbn [negb result_bind head default from_option id].
  intros H. exists c, rest. split; [done|]. split; [done|]. destruct (contains [47] c) eqn:Es.
  - apply (inj Ok) in H. subst l. split; [done|]. by left.
  - destruct (List.find _ _) as [[n path]|] eqn:Ef.
    + apply (inj Ok) in H. cbn [snd] in H. subst l. split.
      * destruct (split 58 path) eqn:E; [by apply split_ne in E|done].
      * right. split; [done|]. exists path. apply List.find_some in Ef as [Hin En]. cbn [fst] in En. bool_norm. subst n.
        split; [by apply list_elem_of_In|done].
    + exfalso. destruct Hp as [_ _ _ Hpath _ _ _ _]. apply list_elem_of_In, in_map_iff in Hpath as ([n v] & En & Hin). cbn [fst] in En. subst n.
      pose proof (List.find_none _ _ Ef _ Hin) as Hf. cbn [fst] in Hf. by bool_norm.
Qed.

(** * Concrete instances *)

Definition ex_passwd : bytes := Eval vm_compute in
  u "root:x:0:0:root:/root:/bin/sh" ++ [10] ++ u "# services" ++ [10] ++ u "web:x:101:33:web:/srv:/bin/false" ++ [10].
Definition ex_user : oci_user := OCIUser (u "web") None.
Definition ex_config : pyval :=
  VDict [(u "Cmd", VList [VStr (u "nginx")]); (u "Env", VList [VStr (u "LANG=C")]); (u "User", VStr (u "web"));
         (u "WorkingDir", VStr (u "/srv/../www/.")); (u "StopSignal", VStr (u "quit"))].
Definition ex_process : process := Process [u "nginx"] [(u "LANG", u "C"); (u "PATH", u OCI_DEFAULT_PATH)] (u "/www") ex_user 3.

Lemma ex_config_built : process_from_config ex_config = Ok ex_process.
Proof. by vm_compute. Qed.

Lemma resolve_oci_user_unique_witness : resolve_oci_user ex_user (Some ex_passwd) None = Ok (101, 33) /\
  0 <= 33 <= MAX_ACCOUNT_ID /\ exists g, passwd_entry (Some ex_passwd) (u "web") 101 g.
Proof.
  assert (resolve_oci_user ex_user (Some ex_passwd) None = Ok (101, 33)) as E by by vm_compute.
  assert (user_ok ex_user) as Hu by (split; [right; by vm_compute|done]).
  destruct (resolve_oci_user_unique ex_user (Some ex_passwd) None 101 33 Hu E) as (_ & Hg & Hn & _).
  split; [exact E|]. split; [exact Hg|]. change (isdecimal (user_name ex_user)) with false in Hn. cbv iota in Hn.
  destruct Hn as (g & Hn & _). exists g. exact Hn.
Defined.

Lemma process_built_roundtrip_witness : process_from_dict (VDict (process_to_dict ex_process)) = Ok ex_process.
Proof. exact (proj2 (process_built_roundtrip ex_process (built_config ex_config ex_process ex_config_built))). Defined.
