(* ===== verification/ProjectGraph.v ===== *)
(** The services of a project ([project.py]): the dependency check, the check of
    host ports, the start order and the names of the virtual machines. *)
From S2P Require Import Prelude Crypto PyStr Regex Network.

(** * Services *)

(** The fields of [ServiceSpec] and [PortSpec] the checks read. *)
Record port_spec := PortSpec { ps_host_port : Z; ps_guest_port : Z; ps_protocol : port_protocol; ps_host_ip : pystr }.
Record service := Service { ports : list port_spec; depends_on : list pystr }.

(** [dict[str, ServiceSpec]], in insertion order, each name once. *)
Definition services_map := list (pystr * service).

Fixpoint service_of (services : services_map) (name : pystr) : option service :=
  match services with
  | [] => None
  | (n, s) :: services => if bool_decide (n = name) then Some s else service_of services name
  end.

Definition names (services : services_map) : list pystr := map fst services.

(** * [_validate_dependencies] *)

Definition unknown_service : string := "depends_on references unknown service".
Definition self_reference : string := "depends_on cannot reference itself".
Definition cycle_detected : string := "service dependency cycle detected".

(** The first loop, over the dependencies of every service. *)
Fixpoint check_references (known : list pystr) (services : services_map) : result unit :=
  match services with
  | [] => Ok tt
  | (name, s) :: services =>
      let? _ := (fix go deps := match deps with
                 | [] => Ok tt
                 | d :: deps =>
                     raise unknown_service when negb (bool_decide (d ∈ known)) ;;
                     raise self_reference when bool_decide (d = name) ;;
                     go deps
                 end) (depends_on s) in
      check_references known services
  end.

(** [visit]: the names being visited, the names visited; the result is the names
    visited after the call. [fuel] bounds the depth of the recursion. *)
Fixpoint visit (fuel : nat) (services : services_map) (name : pystr) (visiting visited : list pystr) : result (list pystr) :=
  match fuel with
  | O => Err "RecursionError"
  | S fuel =>
      if bool_decide (name ∈ visited) then Ok visited
      else if bool_decide (name ∈ visiting) then Err cycle_detected
      else match service_of services name with
           | None => Err "KeyError"
           | Some s =>
               let? visited := (fix go deps visited := match deps with
                                | [] => Ok visited
                                | d :: deps => let? visited := visit fuel services d (visiting ++ [name]) visited in go deps visited
                                end) (sorted (depends_on s)) visited in
               Ok (name :: visited)
           end
  end.

(** One call per name, threading the names visited. *)
Fixpoint visit_all (fuel : nat) (services : services_map) (l visiting visited : list pystr) : result (list pystr) :=
  match l with
  | [] => Ok visited
  | name :: l => let? visited := visit fuel services name visiting visited in visit_all fuel services l visiting visited
  end.

Definition validate_dependencies (services : services_map) : result unit :=
  let? _ := check_references (names services) services in
  let? _ := visit_all (S (length services)) services (sorted (names services)) [] [] in
  Ok tt.

(** * [_validate_host_port_collisions] *)

Definition wildcard_ip (ip : pystr) : bool := bool_decide (ip = u "0.0.0.0") || bool_decide (ip = u "::").

Definition ports_conflict (port existing : port_spec) : bool :=
  bool_decide (ps_host_port port = ps_host_port existing) && bool_decide (ps_protocol port = ps_protocol existing) &&
  (wildcard_ip (ps_host_ip port) || wildcard_ip (ps_host_ip existing) || bool_decide (ps_host_ip port = ps_host_ip existing)).

Fixpoint claim_ports (claimed l : list port_spec) : result (list port_spec) :=
  match l with
  | [] => Ok claimed
  | port :: l =>
      raise "host port conflicts" when existsb (ports_conflict port) claimed ;;
      claim_ports (claimed ++ [port]) l
  end.

(** The ports in the order they are claimed. *)
Definition project_ports (services : services_map) : list port_spec :=
  flat_map (fun name => match service_of services name with Some s => ports s | None => [] end) (sorted (names services)).

Definition validate_host_port_collisions (services : services_map) : result unit :=
  let? _ := claim_ports [] (project_ports services) in Ok tt.

(** * [service_start_order] *)

Definition deps_of (services : services_map) (name : pystr) : list pystr :=
  match service_of services name with Some s => depends_on s | None => [] end.

(** [include]: the closure grows after the dependencies *)
Fixpoint include (fuel : nat) (services : services_map) (name : pystr) (closure : list pystr) : result (list pystr) :=
  match fuel with
  | O => Err "RecursionError"
  | S fuel =>
      if bool_decide (name ∈ closure) then Ok closure
      else match service_of services name with
           | None => Err "KeyError"
           | Some s =>
               let? closure := (fix go deps closure := match deps with
                                | [] => Ok closure
                                | d :: deps => let? closure := include fuel services d closure in go deps closure
                                end) (depends_on s) closure in
               Ok (if bool_decide (name ∈ closure) then closure else closure ++ [name])
           end
  end.

Fixpoint include_all (fuel : nat) (services : services_map) (l closure : list pystr) : result (list pystr) :=
  match l with
  | [] => Ok closure
  | name :: l => let? closure := include fuel services name closure in include_all fuel services l closure
  end.

(** The names that can start after those emitted. *)
Definition ready_names (services : services_map) (closure emitted : list pystr) : list pystr :=
  sorted (List.filter (fun name => negb (bool_decide (name ∈ emitted)) &&
                                   forallb (fun d => bool_decide (d ∈ emitted)) (deps_of services name)) closure).

(** The loop; [emitted] is the order so far, and each turn emits a name. *)
Fixpoint start_rounds (fuel : nat) (services : services_map) (closure emitted : list pystr) : result (list pystr) :=
  if (length closure <=? length emitted)%nat then Ok emitted
  else match fuel with
       | O => Err "RecursionError"
       | S fuel =>
           match ready_names services closure emitted with
           | [] => Err "service dependency graph has no runnable node"
           | ready => start_rounds fuel services closure (emitted ++ ready)
           end
       end.

(** [selected] is [None] or a sequence of names; the names of the set are taken
    in the order of the sequence. *)
Definition service_start_order (services : services_map) (selected : option (list pystr)) : result (list pystr) :=
  let requested := match selected with None => names services | Some l => l end in
  raise "unknown selected service(s)" when negb (forallb (fun n => bool_decide (n ∈ names services)) requested) ;;
  let? closure := include_all (S (length services)) services requested [] in
  start_rounds (length closure) services closure [].
