(* ===== verification/ProjectTheorems.v ===== *)
(** The properties of a project's services: the dependency check accepts exactly
    the acyclic graphs of known services, and the start order of an accepted
    project lists what is needed, dependencies first. *)
From S2P Require Import Prelude Crypto PyStr Regex Network ProjectGraph.

Section graph.
Context (services : services_map) (Hnames : NoDup (names services)).

(** [dep x y]: the service [x] depends on [y]. *)
Definition dep (x y : pystr) : Prop := y ∈ deps_of services x.
Definition acyclic : Prop := forall x, ~ tc dep x x.
Definition references_ok : Prop := forall x d, dep x d -> d ∈ names services /\ d <> x.

Lemma service_of_Some name s : service_of services name = Some s <-> (name, s) ∈ services.
Proof using Hnames.
  clear -Hnames. induction services as [|[n t] l IH]; [split; [done|by intros ?%not_elem_of_nil]|].
  cbn [names map fst] in Hnames. apply NoDup_cons in Hnames as [Hn Hl]. cbn [service_of]. case_bool_decide as E.
  - subst n. rewrite elem_of_cons. split; [intros [= ->]; by left|]. intros [?|Hin]; [by simplify_eq|].
    exfalso. apply Hn. apply list_elem_of_In, in_map_iff. exists (name, s). split; [done|]. by apply list_elem_of_In.
  - rewrite IH, elem_of_cons by done. naive_solver.
Qed.

Lemma service_of_None name : service_of services name = None <-> name ∉ names services.
Proof.
  clear. induction services as [|[n t] l IH]; cbn [service_of names map fst]; [split; [intros _; apply not_elem_of_nil|done]|].
  rewrite not_elem_of_cons. case_bool_decide as E; [naive_solver|]. rewrite IH. unfold names. naive_solver.
Qed.

Lemma dep_known x d : dep x d -> x ∈ names services.
Proof.
  unfold dep, deps_of. destruct (service_of services x) eqn:E; [|by intros ?%not_elem_of_nil].
  intros _. destruct (decide (x ∈ names services)) as [|Hn]; [done|]. apply service_of_None in Hn. congruence.
Qed.

(** ** References *)

Lemma check_references_Ok known l : check_references known l = Ok tt <->
  forall n s d, (n, s) ∈ l -> d ∈ depends_on s -> d ∈ known /\ d <> n.
Proof.
  induction l as [|[name s] l IH]; cbn [check_references]; [split; [by intros _ ? ? ? ?%not_elem_of_nil|done]|].
  match goal with |- context [result_bind (?f (depends_on s)) _] => assert (forall deps, f deps = Ok tt <-> forall d, d ∈ deps -> d ∈ known /\ d <> name) as Hgo end.
  { induction deps as [|d deps IHd]; [split; [by intros _ ? ?%not_elem_of_nil|done]|].
    setoid_rewrite elem_of_cons. destruct (bool_decide_reflect (d ∈ known)); cbn [negb]; [|split; [done|naive_solver]].
    destruct (bool_decide_reflect (d = name)); [split; [done|naive_solver]|]. rewrite IHd. naive_solver. }
  split.
  - intros H. apply result_bind_Ok in H as ([] & H1 & H2). rewrite Hgo in H1. rewrite IH in H2.
    intros n t d [E|Hin]%elem_of_cons Hd; [|by eapply H2]. apply pair_equal_spec in E as [-> ->]. by apply H1.
  - intros H. rewrite (proj2 (Hgo _)) by (intros d; apply (H name s); by left). cbn [result_bind]. apply IH.
    intros n t d Hin. apply H. by right.
Qed.

Lemma check_references_result known l : check_references known l = Ok tt \/ exists e, check_references known l = Err e.
Proof. destruct (check_references known l) as [[]|e]; [by left|right; by exists e]. Qed.

Lemma references_iff : check_references (names services) services = Ok tt <-> references_ok.
Proof using Hnames.
  rewrite check_references_Ok. unfold references_ok, dep, deps_of. split.
  - intros H x d Hd. destruct (service_of services x) as [s|] eqn:E; [|by apply not_elem_of_nil in Hd].
    apply service_of_Some in E. by apply (H x s d).
  - intros H n s d Hin Hd. apply (H n d). apply service_of_Some in Hin. by rewrite Hin.
Qed.

(** ** The visit *)

(** A list of names, the dependencies of each after it. *)
Inductive topo : list pystr -> Prop :=
| topo_nil : topo []
| topo_cons n l : n ∉ l -> n ∈ names services -> (forall d, dep n d -> d ∈ l) -> topo l -> topo (n :: l).

Lemma topo_closed l : topo l -> forall x y, x ∈ l -> dep x y -> y ∈ l.
Proof.
  induction 1 as [|n l _ _ Hd _ IH]; intros x y Hx Hxy; [by apply not_elem_of_nil in Hx|].
  apply elem_of_cons in Hx as [->|Hx]; right; [by apply Hd|by eapply IH].
Qed.

Lemma topo_suffix a l : topo (a ++ l) -> topo l.
Proof. induction a as [|x a IH]; [done|]. cbn [app]. inversion 1; subst. by apply IH. Qed.

Lemma topo_acyclic l : topo l -> forall x, x ∈ l -> ~ tc dep x x.
Proof.
  induction 1 as [|n l Hn _ Hd Hl IH]; intros x Hx Ht; [by apply not_elem_of_nil in Hx|].
  assert (forall a b, rtc dep a b -> a ∈ l -> b ∈ l) as Hr.
  { induction 1 as [|a b c Hab _ IHab]; [done|]. intros Ha. apply IHab. by eapply topo_closed. }
  apply elem_of_cons in Hx as [->|Hx]; [|by eapply IH].
  assert (exists y, dep n y /\ rtc dep y n) as (y & Hy & Hr').
  { inversion Ht as [? y Hy|? y ? Hy Hyn]; subst; [by exists n|]. exists y. split; [done|]. by apply tc_rtc. }
  apply Hn. eapply Hr; [done|]. by apply Hd.
Qed.

Lemma visit_unfold fuel name visiting visited : visit (S fuel) services name visiting visited =
  if bool_decide (name ∈ visited) then Ok visited
  else if bool_decide (name ∈ visiting) then Err cycle_detected
  else match service_of services name with
       | None => Err "KeyError"
       | Some s => let? visited := visit_all fuel services (sorted (depends_on s)) (visiting ++ [name]) visited in
                   Ok (name :: visited)
       end.
Proof.
  cbn [visit]. destruct (bool_decide _); [done|]. destruct (bool_decide _); [done|]. destruct (service_of services name) as [s|]; [|done].
  match goal with |- result_bind ?a _ = result_bind ?b _ => assert (a = b) as ->; [|done] end.
  generalize (sorted (depends_on s)). intros l. revert visited. induction l as [|d l IH]; intros visited; [done|].
  cbn [visit_all]. destruct (visit fuel services d _ _); [|done]. cbn [result_bind]. apply IH.
Qed.

Lemma elem_of_sorted x l : x ∈ sorted l <-> x ∈ l.
Proof. by rewrite sorted_permutation. Qed.

Lemma deps_of_Some name s : service_of services name = Some s -> deps_of services name = depends_on s.
Proof. unfold deps_of. by intros ->. Qed.

(** What a call that returns has established. *)
Definition visited_ok (visiting visited visited' : list pystr) (l : list pystr) : Prop :=
  topo visited' /\ visited ⊆ visited' /\ (forall x, x ∈ l -> x ∈ visited') /\ (forall x, x ∈ visiting -> x ∉ visited').

Lemma visit_sound fuel : forall name visiting visited visited', topo visited -> (forall x, x ∈ visiting -> x ∉ visited) ->
  visit fuel services name visiting visited = Ok visited' -> visited_ok visiting visited visited' [name].
Proof.
  induction fuel as [|fuel IH]; intros name visiting visited visited' Ht Hv H; [done|]. rewrite visit_unfold in H.
  destruct (bool_decide_reflect (name ∈ visited)) as [Hin|Hin].
  { apply (inj Ok) in H. subst visited'. repeat split; try done. by intros x ->%list_elem_of_singleton. }
  destruct (bool_decide_reflect (name ∈ visiting)) as [|Hnv]; [done|].
  destruct (service_of services name) as [s|] eqn:Es; [|done]. apply result_bind_Ok in H as (v & Hall & H). apply (inj Ok) in H. subst visited'.
  assert (forall l visited0 v0, topo visited0 -> (forall x, x ∈ visiting ++ [name] -> x ∉ visited0) ->
    visit_all fuel services l (visiting ++ [name]) visited0 = Ok v0 -> visited_ok (visiting ++ [name]) visited0 v0 l) as Hlist.
  { clear -IH. induction l as [|d l IHl]; intros visited0 v0 Ht Hv H; cbn [visit_all] in H.
    - apply (inj Ok) in H. subst v0. repeat split; try done. by intros x ?%not_elem_of_nil.
    - apply result_bind_Ok in H as (v1 & H1 & H). destruct (IH _ _ _ _ Ht Hv H1) as (T1 & S1 & D1 & V1).
      destruct (IHl _ _ T1 V1 H) as (T2 & S2 & D2 & V2). repeat split; try done; [set_solver|].
      intros x [->|Hx]%elem_of_cons; [|by apply D2]. apply S2, D1. by left. }
  destruct (fun Hx => Hlist _ _ _ Ht Hx Hall) as (T & S & D & V).
  { intros x [Hx| ->%list_elem_of_singleton]%elem_of_app; [by apply Hv|done]. }
  assert (name ∉ v) as Hnv' by (apply V; apply elem_of_app; right; by left).
  split; [constructor; [done| |intros d Hd|done]|split; [set_solver|split; [by intros x ->%list_elem_of_singleton; left|]]].
  - destruct (decide (name ∈ names services)) as [|Hn]; [done|]. apply service_of_None in Hn. congruence.
  - apply D. rewrite elem_of_sorted. unfold dep in Hd. by rewrite (deps_of_Some _ _ Es) in Hd.
  - intros x Hx. rewrite not_elem_of_cons. split; [by intros ->|]. apply V. apply elem_of_app. by left.
Qed.

Lemma visit_all_sound fuel l visited v : topo visited -> visit_all fuel services l [] visited = Ok v ->
  topo v /\ forall x, x ∈ l \/ x ∈ visited -> x ∈ v.
Proof.
  revert visited. induction l as [|n l IH]; intros visited Ht H; cbn [visit_all] in H.
  - apply (inj Ok) in H. subst v. split; [done|]. by intros x [?%not_elem_of_nil|?].
  - apply result_bind_Ok in H as (v1 & H1 & H). eapply visit_sound in H1 as (T1 & S1 & D1 & _); [|done|by intros ? ?%not_elem_of_nil].
    destruct (IH _ T1 H) as [T D]. split; [done|]. intros x [[->|Hx]%elem_of_cons|Hx].
    + apply D. right. apply D1. by left.
    + apply D. by left.
    + apply D. right. by apply S1.
Qed.

Lemma names_bound l : NoDup l -> (forall x, x ∈ l -> x ∈ names services) -> (length l <= length services)%nat.
Proof.
  intros Hl Hin. unfold names in Hin. rewrite <- (length_map fst services). apply submseteq_length, NoDup_submseteq; [done|].
  intros x Hx. by apply Hin.
Qed.

(** A call with enough fuel fails only on a cycle. *)
Lemma visit_error fuel : forall name visiting visited e, references_ok -> name ∈ names services ->
  NoDup visiting -> (forall x, x ∈ visiting -> x ∈ names services /\ tc dep x name) ->
  (length services < fuel + length visiting)%nat ->
  visit fuel services name visiting visited = Err e -> exists x, tc dep x x.
Proof.
  induction fuel as [|fuel IH]; intros name visiting visited e Href Hn Hv Hp Hf H.
  { exfalso. pose proof (names_bound visiting Hv (fun x Hx => proj1 (Hp x Hx))). lia. }
  rewrite visit_unfold in H. destruct (bool_decide (name ∈ visited)); [done|].
  destruct (bool_decide_reflect (name ∈ visiting)) as [Hin|Hin]; [exists name; by apply Hp|].
  destruct (service_of services name) as [s|] eqn:Es; [|by apply service_of_None in Es].
  assert (forall l visited0, (forall d, d ∈ l -> dep name d) -> visit_all fuel services l (visiting ++ [name]) visited0 = Err e ->
    exists x, tc dep x x) as Hlist.
  { clear H. induction l as [|d l IHl]; intros visited0 Hl H; cbn [visit_all] in H; [done|].
    destruct (visit fuel services d (visiting ++ [name]) visited0) as [v1|e1] eqn:E; cbn [result_bind] in H.
    - eapply IHl; [|done]. intros x Hx. apply Hl. by right.
    - assert (dep name d) as Hd by (apply Hl; by left). eapply (IH d (visiting ++ [name]) visited0 e1); [done| | | |rewrite length_app; cbn [length]; lia|done].
      + by apply (Href name d).
      + apply NoDup_app. split; [done|]. split; [|repeat constructor; apply not_elem_of_nil]. intros x Hx ->%list_elem_of_singleton. done.
      + intros x [Hx| ->%list_elem_of_singleton]%elem_of_app; [|split; [done|by apply tc_once]].
        destruct (Hp x Hx). split; [done|]. by eapply tc_r. }
  destruct (visit_all fuel services (sorted (depends_on s)) (visiting ++ [name]) visited) as [|e0] eqn:E; [done|]. cbn [result_bind] in H.
  assert (e0 = e) as -> by congruence. eapply Hlist; [|exact E]. intros d Hd. rewrite elem_of_sorted in Hd. unfold dep. by rewrite (deps_of_Some _ _ Es).
Qed.

Lemma visit_all_error l visited e : references_ok -> (forall x, x ∈ l -> x ∈ names services) ->
  visit_all (S (length services)) services l [] visited = Err e -> exists x, tc dep x x.
Proof.
  intros Href. revert visited. induction l as [|n l IH]; intros visited Hl H; cbn [visit_all] in H; [done|].
  destruct (visit _ services n [] visited) as [v|e1] eqn:E; cbn [result_bind] in H.
  - eapply IH; [|done]. intros x Hx. apply Hl. by right.
  - eapply visit_error; [done| | | | |exact E]; [apply Hl; by left|constructor|by intros ? ?%not_elem_of_nil|cbn [length]; lia].
Qed.

(** An accepted project has its names in a list, dependencies after dependents. *)
Lemma validated_topo : validate_dependencies services = Ok tt -> references_ok /\ exists T, topo T /\ forall x, x ∈ names services -> x ∈ T.
Proof using Hnames.
  unfold validate_dependencies. intros H. apply result_bind_Ok in H as ([] & Hr & H). apply references_iff in Hr.
  apply result_bind_Ok in H as (T & HT & _). split; [done|]. apply visit_all_sound in HT as [? HT]; [|constructor].
  exists T. split; [done|]. intros x Hx. apply HT. left. by rewrite elem_of_sorted.
Qed.

(** ** The closure *)

Lemma include_unfold fuel name closure : include (S fuel) services name closure =
  if bool_decide (name ∈ closure) then Ok closure
  else match service_of services name with
       | None => Err "KeyError"
       | Some s => let? closure := include_all fuel services (depends_on s) closure in
                   Ok (if bool_decide (name ∈ closure) then closure else closure ++ [name])
       end.
Proof.
  cbn [include]. destruct (bool_decide _); [done|]. destruct (service_of services name) as [s|]; [|done].
  match goal with |- result_bind ?a _ = result_bind ?b _ => assert (a = b) as ->; [|done] end.
  generalize (depends_on s). intros l. revert closure. induction l as [|d l IH]; intros closure; [done|].
  cbn [include_all]. destruct (include fuel services d _); [|done]. cbn [result_bind]. apply IH.
Qed.

Definition dep_closed (l : list pystr) : Prop := forall x y, x ∈ l -> dep x y -> y ∈ l.

(** What adding the names [l] to a closure [c] yields. *)
Record included (l c c' : list pystr) : Prop := {
  in_nodup : NoDup c';
  in_known : forall x, x ∈ c' -> x ∈ names services;
  in_grow : c ⊆ c';
  in_all : forall x, x ∈ l -> x ∈ c';
  in_closed : dep_closed c';
  in_reach : forall x, x ∈ c' -> x ∈ c \/ exists r, r ∈ l /\ rtc dep r x;
}.

Definition closure_ok (c : list pystr) : Prop := NoDup c /\ (forall x, x ∈ c -> x ∈ names services) /\ dep_closed c.

Lemma included_ok l c c' : included l c c' -> closure_ok c'.
Proof. intros []. by split. Qed.

Lemma included_nil c : closure_ok c -> included [] c c.
Proof. intros (? & ? & ?). split; try done; [by intros x ?%not_elem_of_nil|by left]. Qed.

Lemma included_cons n l c c1 c2 : included [n] c c1 -> included l c1 c2 -> included (n :: l) c c2.
Proof.
  intros [] []. split; try done.
  - set_solver.
  - intros x [->|Hx]%elem_of_cons; [|by auto]. apply in_grow1, in_all0. by left.
  - intros x Hx. destruct (in_reach1 x Hx) as [Hc|(r & Hr & Hrx)].
    + destruct (in_reach0 x Hc) as [?|(r & ->%list_elem_of_singleton & Hrx)]; [by left|]. right. exists n. split; [by left|done].
    + right. exists r. split; [by right|done].
Qed.

Lemma include_ok fuel : forall name B c, topo (name :: B) -> (length B < fuel)%nat -> closure_ok c ->
  exists c', include fuel services name c = Ok c' /\ included [name] c c'.
Proof.
  induction fuel as [|fuel IH]; intros name B c Ht Hl Hc; [lia|]. rewrite include_unfold.
  destruct (bool_decide_reflect (name ∈ c)) as [Hin|Hin].
  { exists c. split; [done|]. destruct Hc as (? & ? & ?). split; try done; [by intros x ->%list_elem_of_singleton|by left]. }
  inversion Ht as [|? ? HnB Hn Hd HB]; subst. destruct (service_of services name) as [s|] eqn:Es; [|by apply service_of_None in Es].
  assert (forall l c0, (forall d, d ∈ l -> d ∈ B) -> closure_ok c0 -> exists c', include_all fuel services l c0 = Ok c' /\ included l c0 c') as Hlist.
  { clear Hc Hin. induction l as [|d l IHl]; intros c0 Hsub Hc0; cbn [include_all]; [exists c0; split; [done|by apply included_nil]|].
    assert (d ∈ B) as HdB by (apply Hsub; by left). apply list_elem_of_split in HdB as (B1 & B2 & EB).
    destruct (IH d B2 c0) as (c1 & E1 & I1); [|rewrite EB, length_app in Hl; cbn [length] in Hl; lia|done|].
    { rewrite EB in HB. by eapply topo_suffix. }
    destruct (IHl c1) as (c2 & E2 & I2); [intros x Hx; apply Hsub; by right|by eapply included_ok|].
    exists c2. rewrite E1. cbn [result_bind]. split; [done|]. by eapply included_cons. }
  destruct (Hlist (depends_on s) c) as (c' & E & I); [|done|].
  { intros d Hdd. apply Hd. unfold dep. by rewrite (deps_of_Some _ _ Es). }
  rewrite E. cbn [result_bind]. eexists. split; [done|]. destruct I as [I1 I2 I3 I4 I5 I6].
  assert (forall x, dep name x -> x ∈ c') as Hdeps by (intros x Hx; apply I4; unfold dep in Hx; by rewrite (deps_of_Some _ _ Es) in Hx).
  assert (forall x, x ∈ c' -> x ∈ c \/ exists r, r ∈ [name] /\ rtc dep r x) as Hreach.
  { intros x Hx. destruct (I6 x Hx) as [?|(r & Hr & Hrx)]; [by left|]. right. exists name. split; [by left|].
    eapply rtc_l; [|done]. unfold dep. by rewrite (deps_of_Some _ _ Es). }
  destruct (bool_decide_reflect (name ∈ c')) as [Hnc|Hnc].
  - split; try done. by intros x ->%list_elem_of_singleton.
  - split.
    + apply NoDup_app. split; [done|]. split; [by intros x Hx ->%list_elem_of_singleton|repeat constructor; apply not_elem_of_nil].
    + intros x [Hx| ->%list_elem_of_singleton]%elem_of_app; [by apply I2|done].
    + set_solver.
    + intros x ->%list_elem_of_singleton. apply elem_of_app. right. by left.
    + intros x y [Hx| ->%list_elem_of_singleton]%elem_of_app Hxy; apply elem_of_app; left; [by eapply I5|by apply Hdeps].
    + intros x [Hx| ->%list_elem_of_singleton]%elem_of_app; [by apply Hreach|]. right. exists name. split; [by left|done].
Qed.

Lemma include_all_ok T l c : topo T -> (forall x, x ∈ names services -> x ∈ T) -> (forall x, x ∈ l -> x ∈ names services) ->
  closure_ok c -> exists c', include_all (S (length services)) services l c = Ok c' /\ included l c c'.
Proof.
  intros HT HTn. revert c. induction l as [|n l IH]; intros c Hl Hc; cbn [include_all]; [exists c; split; [done|by apply included_nil]|].
  assert (n ∈ T) as HnT by (apply HTn, Hl; by left). apply list_elem_of_split in HnT as (A & B & ET).
  rewrite ET in HT. pose proof (topo_suffix _ _ HT) as HB.
  destruct (include_ok (S (length services)) n B c HB) as (c1 & E1 & I1); [|done|].
  { assert (NoDup (n :: B) /\ forall x, x ∈ n :: B -> x ∈ names services) as [Hnd Hk].
    { clear -HB. induction HB as [|m k Hm Hmn _ _ [IH1 IH2]]; [split; [constructor|by intros ? ?%not_elem_of_nil]|].
      split; [by constructor|]. intros x [->|?]%elem_of_cons; auto. }
    pose proof (names_bound _ Hnd Hk). cbn [length] in *. lia. }
  destruct (IH c1) as (c2 & E2 & I2); [intros x Hx; apply Hl; by right|by eapply included_ok|].
  exists c2. cbn [include_all] in *. rewrite E1. cbn [result_bind]. split; [done|]. by eapply included_cons.
Qed.

(** ** The rounds *)

(** Dependencies come first. *)
Inductive ordered : list pystr -> Prop :=
| ordered_nil : ordered []
| ordered_snoc l n : ordered l -> (forall d, dep n d -> d ∈ l) -> ordered (l ++ [n]).

Lemma ordered_app l r : ordered l -> (forall n d, n ∈ r -> dep n d -> d ∈ l) -> ordered (l ++ r).
Proof.
  intros Hl. induction r as [|n r IH] using rev_ind; intros Hr; [by rewrite app_nil_r|].
  rewrite app_assoc. constructor; [apply IH; intros m d Hm; apply Hr; apply elem_of_app; by left|].
  intros d Hd. apply elem_of_app. left. apply (Hr n); [apply elem_of_app; right; by left|done].
Qed.

Lemma ordered_prefix l : ordered l -> forall a n b, l = a ++ n :: b -> forall d, dep n d -> d ∈ a.
Proof.
  induction 1 as [|l m Hl IH Hm]; intros a n b E d Hd; [by destruct a|].
  destruct b as [|y b _] using rev_ind.
  - apply app_inj_tail in E as [-> ->]. by apply Hm.
  - rewrite app_comm_cons, app_assoc in E. apply app_inj_tail in E as [-> ->]. by eapply IH.
Qed.

(** A name with no dependency in a set of names, for a set that meets a topological list. *)
Lemma topo_minimal T (P : pystr -> bool) : topo T -> (exists x, x ∈ T /\ P x = true) ->
  exists x, x ∈ T /\ P x = true /\ forall d, dep x d -> P d = false.
Proof.
  induction 1 as [|n l Hn _ Hd _ IH]; intros (x & Hx & Px); [by apply not_elem_of_nil in Hx|].
  destruct (existsb P l) eqn:E.
  - apply existsb_exists in E as (y & Hy & Py). destruct IH as (z & Hz & Pz & Hmin); [exists y; by rewrite list_elem_of_In|].
    exists z. split; [by right|done].
  - apply elem_of_cons in Hx as [->|Hx].
    + exists n. split; [by left|]. split; [done|]. intros d Hdd. apply Hd in Hdd. destruct (P d) eqn:Pd; [|done].
      assert (existsb P l = true) by (apply existsb_exists; exists d; by rewrite <- list_elem_of_In). congruence.
    + assert (existsb P l = true) by (apply existsb_exists; exists x; by rewrite <- list_elem_of_In). congruence.
Qed.

Lemma elem_of_ready closure emitted n : n ∈ ready_names services closure emitted <->
  n ∈ closure /\ n ∉ emitted /\ forall d, dep n d -> d ∈ emitted.
Proof.
  unfold ready_names, dep. rewrite elem_of_sorted, list_elem_of_In, filter_In, <- list_elem_of_In, andb_true_iff, negb_true_iff, bool_decide_eq_false, forallb_forall.
  setoid_rewrite bool_decide_eq_true. setoid_rewrite <- list_elem_of_In. done.
Qed.

Lemma NoDup_filter {A} (f : A -> bool) l : NoDup l -> NoDup (List.filter f l).
Proof.
  induction 1 as [|a l Ha _ IH]; cbn [List.filter]; [constructor|]. destruct (f a); [|done]. constructor; [|done].
  rewrite list_elem_of_In, filter_In, <- list_elem_of_In. naive_solver.
Qed.

Lemma ready_nodup closure emitted : NoDup closure -> NoDup (ready_names services closure emitted).
Proof. intros H. unfold ready_names. rewrite sorted_permutation. by apply NoDup_filter. Qed.

Lemma start_rounds_ok T closure : topo T -> (forall x, x ∈ names services -> x ∈ T) -> closure_ok closure ->
  forall fuel emitted, NoDup emitted -> (forall x, x ∈ emitted -> x ∈ closure) -> ordered emitted ->
  (length closure <= fuel + length emitted)%nat ->
  exists order, start_rounds fuel services closure emitted = Ok order /\ order ≡ₚ closure /\ ordered order.
Proof.
  intros HT HTn (Hnd & Hk & Hcl) fuel. induction fuel as [|fuel IH]; intros emitted He Hsub Ho Hf; cbn [start_rounds].
  - rewrite (proj2 (Nat.leb_le _ _)) by lia. exists emitted. split; [done|]. split; [|done].
    apply submseteq_length_Permutation; [by apply NoDup_submseteq|lia].
  - destruct (Nat.leb_spec (length closure) (length emitted)) as [Hle|Hlt].
    { exists emitted. split; [done|]. split; [|done]. apply submseteq_length_Permutation; [by apply NoDup_submseteq|lia]. }
    assert (exists x, x ∈ closure /\ x ∉ emitted) as (x & Hx & Hxe).
    { destruct (List.filter (fun x => negb (bool_decide (x ∈ emitted))) closure) as [|x l] eqn:Ef.
      - exfalso. assert (closure ⊆+ emitted) as Hs.
        { apply NoDup_submseteq; [done|]. intros y Hy. destruct (decide (y ∈ emitted)) as [|Hn]; [done|].
          assert (y ∈ List.filter (fun x => negb (bool_decide (x ∈ emitted))) closure) as Hin.
          { apply list_elem_of_In, filter_In. split; [by apply list_elem_of_In|]. by rewrite bool_decide_eq_false_2. }
          rewrite Ef in Hin. by apply not_elem_of_nil in Hin. }
        apply submseteq_length in Hs. lia.
      - exists x. assert (x ∈ x :: l) as Hin by by left. rewrite <- Ef in Hin. apply list_elem_of_In, filter_In in Hin as [Hin Hb].
        split; [by apply list_elem_of_In|]. by bool_norm. }
    destruct (topo_minimal T (fun x => bool_decide (x ∈ closure) && negb (bool_decide (x ∈ emitted))) HT) as (y & _ & Py & Hmin).
    { exists x. split; [by apply HTn, Hk|]. by rewrite bool_decide_eq_true_2, bool_decide_eq_false_2. }
    bool_norm. assert (y ∈ ready_names services closure emitted) as Hy.
    { apply elem_of_ready. split; [done|]. split; [done|]. intros d Hd. pose proof (Hmin d Hd) as Hp. apply andb_false_iff in Hp as [Hp|Hp].
      - bool_norm. exfalso. apply Hp. by eapply Hcl.
      - apply negb_false_iff in Hp. by bool_norm. }
    pose proof (ready_nodup closure emitted Hnd) as Hrn.
    assert (forall n, n ∈ ready_names services closure emitted -> n ∈ closure /\ n ∉ emitted /\ forall d, dep n d -> d ∈ emitted) as Hready
      by (intros n; apply elem_of_ready).
    destruct (ready_names services closure emitted) as [|r rs]; [by apply not_elem_of_nil in Hy|].
    apply IH.
    + apply NoDup_app. split; [done|]. split; [|done]. intros n Hn Hn'. by apply Hready in Hn' as (_ & ? & _).
    + intros n [Hn|Hn]%elem_of_app; [by apply Hsub|by apply Hready].
    + apply ordered_app; [done|]. intros n d Hn. by apply Hready.
    + rewrite length_app. cbn [length]. lia.
Qed.

Lemma ready_perm c1 c2 emitted : c1 ≡ₚ c2 -> ready_names services c1 emitted = ready_names services c2 emitted.
Proof.
  intros Hp. unfold ready_names. apply sorted_unique. induction Hp; cbn [List.filter]; try done.
  - destruct (_ && _); [by constructor|done].
  - destruct (negb (bool_decide (y ∈ emitted)) && _), (negb (bool_decide (x ∈ emitted)) && _); try done. constructor.
  - by etrans.
Qed.

Lemma start_rounds_perm c1 c2 fuel emitted : c1 ≡ₚ c2 -> start_rounds fuel services c1 emitted = start_rounds fuel services c2 emitted.
Proof.
  intros Hp. revert emitted. induction fuel as [|fuel IH]; intros emitted; cbn [start_rounds]; rewrite (Permutation_length Hp); [done|].
  rewrite (ready_perm _ _ _ Hp). destruct (_ <=? _)%nat; [done|]. destruct (ready_names _ _ _); [done|apply IH].
Qed.

(** * Properties *)

(** The check of dependencies ends, and accepts exactly the projects whose
    dependencies name other known services and have no cycle. *)
Theorem dependencies_accepted_iff : validate_dependencies services = Ok tt <-> references_ok /\ acyclic.
Proof using Hnames.
  split.
  - intros H. destruct (validated_topo H) as (Hr & T & HT & HTn). split; [done|]. intros x Hx.
    eapply topo_acyclic; [exact HT| |exact Hx]. apply HTn.
    assert (exists y, dep x y) as [y Hy] by (inversion Hx; subst; by eexists). by eapply dep_known.
  - intros [Hr Ha]. unfold validate_dependencies. rewrite (proj2 references_iff Hr). cbn [result_bind].
    destruct (visit_all _ _ _ _ _) as [v|e] eqn:E; [done|]. exfalso.
    apply visit_all_error in E as [x Hx]; [by apply (Ha x)|done|]. intros x. by rewrite elem_of_sorted.
Qed.

(** C38: in an accepted project the start order of known services exists; it has
    no repetition, lists exactly the services the selected ones need, each after
    its dependencies, and depends only on the set of selected names. *)
Theorem start_order_complete selected : validate_dependencies services = Ok tt -> (forall n, n ∈ selected -> n ∈ names services) ->
  exists order, service_start_order services (Some selected) = Ok order /\ NoDup order /\
    (forall n, n ∈ order <-> exists r, r ∈ selected /\ rtc dep r n) /\
    (forall before n after, order = before ++ n :: after -> forall d, dep n d -> d ∈ before) /\
    (forall selected', (forall n, n ∈ selected' <-> n ∈ selected) -> service_start_order services (Some selected') = Ok order).
Proof using Hnames.
  intros Hv Hsel. destruct (validated_topo Hv) as (_ & T & HT & HTn).
  assert (closure_ok []) as H0 by (split; [constructor|split; [by intros ? ?%not_elem_of_nil|by intros ? ? ?%not_elem_of_nil]]).
  assert (forall sel c', included sel [] c' -> forall n, n ∈ c' <-> exists r, r ∈ sel /\ rtc dep r n) as Hreach.
  { intros sel c' [_ _ _ Hall Hcl Hr] n. split.
    - intros Hn. by destruct (Hr n Hn) as [?%not_elem_of_nil|?].
    - intros (r & Hrs & Hrn). apply Hall in Hrs. induction Hrn as [|a b c Hab _ IH]; [done|]. apply IH. by eapply Hcl. }
  destruct (include_all_ok T selected [] HT HTn Hsel H0) as (closure & Ec & Ic).
  destruct (start_rounds_ok T closure HT HTn (included_ok _ _ _ Ic) (length closure) []) as (order & Eo & Hp & Ho);
    [constructor|by intros ? ?%not_elem_of_nil|constructor|lia|].
  assert (forall sel c', (forall n, n ∈ sel -> n ∈ names services) -> include_all (S (length services)) services sel [] = Ok c' ->
    service_start_order services (Some sel) = start_rounds (length c') services c' []) as Hrun.
  { intros sel c' Hs E. unfold service_start_order.
    assert (forallb (fun n => bool_decide (n ∈ names services)) sel = true) as ->.
    { apply forallb_forall. intros n Hn. apply bool_decide_eq_true, Hs. by apply list_elem_of_In. }
    cbn [negb]. by rewrite E. }
  exists order. split; [by rewrite (Hrun selected closure)|]. split; [rewrite Hp; apply Ic|].
  split; [intros n; rewrite Hp; by apply Hreach|]. split; [intros before n after E; by eapply ordered_prefix|].
  intros selected' Hs. destruct (include_all_ok T selected' [] HT HTn) as (closure' & Ec' & Ic'); [intros n Hn; by apply Hsel, Hs|done|].
  rewrite (Hrun selected' closure') by (try done; intros n Hn; by apply Hsel, Hs).
  assert (closure' ≡ₚ closure) as Hpp.
  { apply NoDup_Permutation; [apply Ic'|apply Ic|]. intros n. rewrite (Hreach _ _ Ic'), (Hreach _ _ Ic). by setoid_rewrite Hs. }
  rewrite (start_rounds_perm closure' closure) by done. by rewrite (Permutation_length Hpp).
Qed.

(** Accepted host ports do not conflict pairwise. *)
Lemma claim_ports_Ok claimed l out : claim_ports claimed l = Ok out <->
  out = claimed ++ l /\ forall i j p q, (i < j)%nat -> (length claimed <= j)%nat ->
    (claimed ++ l) !! i = Some p -> (claimed ++ l) !! j = Some q -> ports_conflict q p = false.
Proof.
  clear. revert claimed. induction l as [|port l IH]; intros claimed; cbn [claim_ports].
  - rewrite app_nil_r. split.
    + intros [= <-]. split; [done|]. intros i j p q _ Hj _ Hq. apply lookup_lt_Some in Hq. lia.
    + by intros [-> _].
  - destruct (existsb (ports_conflict port) claimed) eqn:E.
    + split; [done|]. intros [_ H]. apply existsb_exists in E as (p & Hp & Hc). apply list_elem_of_In, list_elem_of_lookup in Hp as [i Hi].
      pose proof (lookup_lt_Some _ _ _ Hi). rewrite (H i (length claimed) p port) in Hc; [done|lia|lia| |].
      * by rewrite lookup_app_l.
      * by rewrite list_lookup_middle.
    + rewrite IH, <- app_assoc. cbn [app]. split; intros [-> H]; (split; [done|]); intros i j p q Hij Hj Hp Hq.
      * destruct (decide (j = length claimed)) as [->|Hne].
        -- rewrite list_lookup_middle in Hq by done. rewrite lookup_app_l in Hp by done. simplify_eq.
           destruct (ports_conflict q p) eqn:Ec; [|done]. assert (existsb (ports_conflict q) claimed = true); [|congruence].
           apply existsb_exists. exists p. split; [|done]. apply list_elem_of_In. by eapply list_elem_of_lookup_2.
        -- apply (H i j p q); [done|rewrite length_app; cbn [length]; lia|done|done].
      * apply (H i j p q); [done|rewrite length_app in Hj; cbn [length] in Hj; lia|done|done].
Qed.

Lemma host_ports_accepted : validate_host_port_collisions services = Ok tt <->
  forall i j p q, (i < j)%nat -> project_ports services !! i = Some p -> project_ports services !! j = Some q -> ports_conflict q p = false.
Proof.
  clear. unfold validate_host_port_collisions. destruct (claim_ports [] (project_ports services)) as [out|e] eqn:E; cbn [result_bind].
  - apply claim_ports_Ok in E as [_ H]. split; [|done]. intros _ i j p q Hij. apply H; [done|cbn; lia].
  - split; [done|]. intros H.
    assert (claim_ports [] (project_ports services) = Ok ([] ++ project_ports services)) as E2; [|congruence].
    apply claim_ports_Ok. split; [done|]. intros i j p q Hij _. by apply H.
Qed.
End graph.

(** * Concrete instances *)

Definition ex_services : services_map :=
  [(u "web", Service [] [u "db"; u "cache"]); (u "db", Service [] []); (u "cache", Service [] [u "db"]); (u "batch", Service [] [])].

Lemma ex_services_names : NoDup (names ex_services).
Proof. apply (bool_decide_unpack _). by vm_compute. Qed.
Lemma ex_services_accepted : validate_dependencies ex_services = Ok tt.
Proof. by vm_compute. Qed.

Lemma dependencies_accepted_iff_witness : references_ok ex_services /\ acyclic ex_services.
Proof. exact (proj1 (dependencies_accepted_iff ex_services ex_services_names) ex_services_accepted). Defined.

Lemma start_order_complete_witness : exists order, service_start_order ex_services (Some [u "web"]) = Ok order /\ NoDup order.
Proof.
  destruct (start_order_complete ex_services ex_services_names [u "web"] ex_services_accepted) as (order & E & Hn & _).
  - intros n Hn. apply list_elem_of_singleton in Hn as ->. apply (bool_decide_unpack _). by vm_compute.
  - exists order. split; [exact E|exact Hn].
Defined.

Example ex_start_order : service_start_order ex_services (Some [u "web"]) = Ok [u "db"; u "cache"; u "web"].
Proof. by vm_compute. Qed.
