(* ===== verification/LogStream.v ===== *)
(** The stream of a retained console ([log_stream.py]) over a pinned console
    ([PinnedRunConsole] of [state.py]).  The stream is proved against the
    interface [ConsoleSource], which the pinned console implements.  The
    generator of the stream is a machine: its phase is the point where it is
    suspended, and [next] runs it to its next event. *)
From S2P Require Import Prelude Crypto PyStr.

(** * Events *)

Inductive log_mode := SNAPSHOT | FOLLOW.
#[export] Instance log_mode_eq_dec : EqDecision log_mode.
Proof. solve_decision. Defined.

Inductive log_category := SNAPSHOT_COMPLETE | RUN_TERMINAL | CANCELLED | ERROR.
#[export] Instance log_category_eq_dec : EqDecision log_category.
Proof. solve_decision. Defined.

Inductive log_event :=
| LogData (cursor sequence observed_at : Z) (data : bytes)
| LogTerminal (cursor observed_at : Z) (category : log_category) (error : option string) (status : option pystr).

Definition CHUNK_SIZE : Z := 64 * 1024.
Definition TERMINAL_STATUSES : list pystr := [u "stopped"; u "removed"; u "failed"; u "exited"].

(** * The interface of the source *)

(** [W] is the state of the system: the file, the clock, the cancellation event. *)
Class LogWorld (W : Type) := {
  now : W -> W * Z;                      (** [datetime.now(UTC)] *)
  cancelled : W -> bool;                 (** [_cancelled.is_set()] *)
  wait_cancelled : W -> W * bool;        (** [_cancelled.wait(_FOLLOW_POLL_SECONDS)] *)
  set_cancelled : W -> W;                (** [_cancelled.set()] *)
}.

(** An error is the value of its [LogErrorCategory]. *)
Class ConsoleSource (S W : Type) := {
  source_read : S -> W -> Z -> bool -> S * W * result bytes;
  source_status : S -> W -> S * W * result pystr;
  source_close : S -> W -> S * W;
}.

(** * [RetainedConsoleLogStream] *)

Section stream.
Context {S W : Type} `{LogWorld W} `{ConsoleSource S W}.

(** Where the generator is suspended: before its first statement, at the head of
    its loop, after it yielded data, after it yielded its last event, ended. *)
Inductive phase := Started | Looping | AfterData | AfterTerminal | Ended.

Record stream := Stream {
  source : S;
  mode : log_mode;
  consumed : bool;
  iterating : bool;
  closed : bool;
  cursor_position : Z;
  stream_sequence : Z;
  last_observed_at : option Z;
  generator : option phase;
}.
#[export] Instance stream_eta : Eta stream := fun s =>
  Stream (source s) (mode s) (consumed s) (iterating s) (closed s) (cursor_position s) (stream_sequence s)
    (last_observed_at s) (generator s).

Definition stream_init (src : S) (m : log_mode) : stream := Stream src m false false false 0 0 None None.

Definition observed_at (s : stream) (w : W) : stream * W * Z :=
  let ' (w, observed) := now w in
  let observed := match last_observed_at s with
                  | Some t => if observed <? t then t else observed
                  | None => observed
                  end in
  (s <| last_observed_at := Some observed |>, w, observed).

(** [_cursor]: the position after the call *)
Definition next_cursor (s : stream) : stream := s <| cursor_position := cursor_position s + 1 |>.

Definition terminal_event (s : stream) (w : W) (c : log_category) (error : option string) (status : option pystr) :
    stream * W * log_event :=
  let s := next_cursor s in
  let position := cursor_position s in
  let ' (s, w, t) := observed_at s w in
  (s <| generator := Some AfterTerminal |>, w, LogTerminal position t c error status).

Definition data_event (s : stream) (w : W) (content : bytes) : stream * W * log_event :=
  let s := s <| stream_sequence := stream_sequence s + 1 |> in
  let s := next_cursor s in
  let position := cursor_position s in
  let ' (s, w, t) := observed_at s w in
  (s <| generator := Some AfterData |>, w, LogData position (stream_sequence s) t content).

(** [events()]: the generator is created, nothing of its body runs *)
Definition events (s : stream) : stream * result unit :=
  raise "already-consumed" when consumed s from s ;;
  (s <| consumed := true |> <| generator := Some Started |>, Ok tt).

(** What a resumption of the generator gives: an event, its end, or, when the
    fuel is spent, a stream that is still polling. *)
Inductive resumption := Yield (e : log_event) | Return | Polling.

Definition yield_terminal (s : stream) (w : W) c error status : stream * W * resumption :=
  let ' (s, w, e) := terminal_event s w c error status in (s, w, Yield e).

(** The body of the [while] loop; [fuel] bounds the polls of a followed console. *)
Fixpoint loop (fuel : nat) (s : stream) (w : W) : stream * W * resumption :=
  match fuel with
  | O => (s <| generator := Some Looping |>, w, Polling)
  | Datatypes.S fuel =>
      let ' (src, w, r) := source_read (source s) w CHUNK_SIZE (bool_decide (mode s = SNAPSHOT)) in
      let s := s <| source := src |> in
      match r with
      | Err category => yield_terminal s w ERROR (Some category) None
      | Ok (b :: content) => let ' (s, w, e) := data_event s w (b :: content) in (s, w, Yield e)
      | Ok [] =>
          let ' (src, w, r) := source_status (source s) w in
          let s := s <| source := src |> in
          match r with
          | Err category => yield_terminal s w ERROR (Some category) None
          | Ok status =>
              if bool_decide (mode s = SNAPSHOT) then yield_terminal s w SNAPSHOT_COMPLETE None None
              else if bool_decide (status ∈ TERMINAL_STATUSES) then
                let ' (src, w, r) := source_read (source s) w CHUNK_SIZE false in
                let s := s <| source := src |> in
                match r with
                | Err category => yield_terminal s w ERROR (Some category) None
                | Ok (b :: content) => let ' (s, w, e) := data_event s w (b :: content) in (s, w, Yield e)
                | Ok [] => yield_terminal s w RUN_TERMINAL None (Some status)
                end
              else
                let ' (w, stop) := wait_cancelled w in
                if stop then yield_terminal s w CANCELLED None None else loop fuel s w
          end
      end
  end.

(** [next(generator)] *)
Definition next (fuel : nat) (s : stream) (w : W) : stream * W * resumption :=
  match generator s with
  | None | Some Ended => (s, w, Return)
  | Some Started =>
      let s := s <| iterating := true |> in
      if closed s || cancelled w then yield_terminal s w CANCELLED None None else loop fuel s w
  | Some Looping => loop fuel s w
  | Some AfterData => if cancelled w then yield_terminal s w CANCELLED None None else loop fuel s w
  | Some AfterTerminal =>
      let s := s <| iterating := false |> <| closed := true |> in
      let ' (src, w) := source_close (source s) w in
      (s <| source := src |> <| generator := Some Ended |>, w, Return)
  end.

Definition cancel (s : stream) (w : W) : stream * W := (s, set_cancelled w).

Definition close (s : stream) (w : W) : stream * W :=
  let w := set_cancelled w in
  if closed s then (s, w)
  else
    let s := s <| closed := true |> in
    if iterating s then (s, w)
    else let ' (src, w) := source_close (source s) w in (s <| source := src |>, w).
End stream.

(** * [PinnedRunConsole] *)

(** What [stat] says of a file, as far as the console reads it. *)
Record file_stat := FileStat { st_regular : bool; st_own : bool; st_nlink : Z; st_private : bool; st_identity : Z * Z; st_size : Z }.

(** The system calls of the console: [fstat] of its descriptor, [stat] of its
    name, [pread] and the validation of the run's ledger. *)
Class ConsoleOS (W : Type) := {
  os_fstat : W -> W * option file_stat;
  os_stat : W -> W * option file_stat;
  os_pread : W -> Z -> Z -> W * option bytes;
  os_ledger_status : W -> W * result pystr;
  os_close : W -> W;
}.

Record console := Console { console_identity : Z * Z; initial_size : Z; position : Z; console_closed : bool }.
#[export] Instance console_eta : Eta console := fun c => Console (console_identity c) (initial_size c) (position c) (console_closed c).

Section console.
Context {W : Type} `{ConsoleOS W}.

(** [_opened_console_size] *)
Definition opened_console_size (c : console) (w : W) (allow_unlinked : bool) : W * result Z :=
  raise "read-failed" when console_closed c from w ;;
  let ' (w, opened) := os_fstat w in
  match opened with
  | None => (w, Err "console-changed")
  | Some st =>
      raise "console-changed"
        when negb (st_regular st) || negb (st_own st) ||
             negb (bool_decide (st_nlink st = 1) || (allow_unlinked && bool_decide (st_nlink st = 0))) || negb (st_private st) ||
             negb (bool_decide (st_identity st = console_identity c)) || (st_size st <? initial_size c) || (st_size st <? position c)
        from w ;;
      (w, Ok (st_size st))
  end.

(** [_console_size] *)
Definition console_size (c : console) (w : W) (allow_unlinked : bool) : W * result Z :=
  let ' (w, r) := opened_console_size c w allow_unlinked in
  let? size := r from w in
  let ' (w, current) := os_stat w in
  match current with
  | None => if allow_unlinked then (w, Ok size) else (w, Err "console-changed")
  | Some st =>
      raise "console-changed" when negb (st_regular st) || negb (bool_decide (st_identity st = console_identity c)) from w ;;
      (w, Ok size)
  end.

(** [read] *)
Definition console_read (c : console) (w : W) (maximum : Z) (snapshot : bool) : console * W * result bytes :=
  raise "ValueError" when negb ((1 <=? maximum) && (maximum <=? 64 * 1024)) from (c, w) ;;
  let ' (w, r) := console_size c w (negb snapshot) in
  match r with
  | Err e => (c, w, Err e)
  | Ok size =>
      let boundary := if snapshot then Z.min size (initial_size c) else size in
      let remaining := boundary - position c in
      if remaining <=? 0 then (c, w, Ok [])
      else
        let ' (w, content) := os_pread w (Z.min maximum remaining) (position c) in
        match content with
        | None => (c, w, Err "read-failed")
        | Some [] => (c, w, Err "console-changed")
        | Some content => (c <| position := position c + zlen content |>, w, Ok content)
        end
  end.

Definition console_close (c : console) (w : W) : console * W :=
  if console_closed c then (c, w) else (c <| console_closed := true |>, os_close w).

#[export] Instance console_source : ConsoleSource console W := {
  source_read := console_read;
  source_status c w := let ' (w, r) := os_ledger_status w in (c, w, r);
  source_close := console_close;
}.
End console.
