(* ===== verification/LogStreamTheorems.v ===== *)
(** The events of a retained console: every byte once, in order, with
    consecutive positions and times that do not go back, one terminal event at
    the end, and nothing lost before it.  The laws of a source are a class; the
    pinned console satisfies them when the system calls mean what they document. *)
From S2P Require Import Prelude Crypto PyStr LogStream.

(** * Laws *)

(** The bytes of the console in a state of the system: they are only appended. *)
Class WorldLaws (W : Type) `{LogWorld W} := {
  content : W -> bytes;
  now_content w : content w `prefix_of` content (now w).1;
  wait_content w : content w `prefix_of` content (wait_cancelled w).1;
  cancel_content w : content w `prefix_of` content (set_cancelled w);
}.

Class SourceLaws (S W : Type) `{WorldLaws W} `{ConsoleSource S W} := {
  delivered : S -> Z;
  snapshot_end : S -> Z;
  read_laws s w n snap s' w' r : source_read s w n snap = (s', w', r) -> 0 <= delivered s ->
    content w `prefix_of` content w' /\ snapshot_end s' = snapshot_end s /\
    match r with
    | Err _ => delivered s' = delivered s
    | Ok b => delivered s' = delivered s + zlen b /\ b = take (length b) (drop (Z.to_nat (delivered s)) (content w')) /\
        zlen b <= n /\
        (snap = true -> delivered s <= snapshot_end s -> delivered s' <= snapshot_end s) /\
        (b = [] -> if snap then snapshot_end s <= delivered s else zlen (content w) <= delivered s)
    end;
  status_laws s w s' w' r : source_status s w = (s', w', r) ->
    content w `prefix_of` content w' /\ delivered s' = delivered s /\ snapshot_end s' = snapshot_end s;
  close_laws s w s' w' : source_close s w = (s', w') ->
    content w `prefix_of` content w' /\ delivered s' = delivered s /\ snapshot_end s' = snapshot_end s;
}.

(** * Events of a run *)

Definition event_cursor (e : log_event) : Z := match e with LogData c _ _ _ | LogTerminal c _ _ _ _ => c end.
Definition event_time (e : log_event) : Z := match e with LogData _ _ t _ | LogTerminal _ t _ _ _ => t end.
Definition is_data (e : log_event) : bool := match e with LogData _ _ _ _ => true | _ => false end.
Definition event_data (e : log_event) : bytes := match e with LogData _ _ _ b => b | _ => [] end.
Definition event_sequence (e : log_event) : list Z := match e with LogData _ q _ _ => [q] | _ => [] end.

Definition data_of (evs : list log_event) : bytes := concat (map event_data evs).
Definition sequences (evs : list log_event) : list Z := concat (map event_sequence evs).
Definition one_to (n : nat) : list Z := map Z.of_nat (seq 1 n).

Section run.
Context {S W : Type} `{SourceLaws S W}.
Implicit Types s : @stream S.
Implicit Types w : W.

(** One operation of the consumer, or a step of the rest of the system: the
    console grows, time passes, another thread cancels. *)
Inductive log_step : @stream S * W -> list log_event -> @stream S * W -> Prop :=
| step_events s w s' r : events s = (s', r) -> log_step (s, w) [] (s', w)
| step_yield fuel s w s' w' e : next (Datatypes.S fuel) s w = (s', w', Yield e) -> log_step (s, w) [e] (s', w')
| step_silent fuel s w s' w' r : next (Datatypes.S fuel) s w = (s', w', r) -> r = Return \/ r = Polling -> log_step (s, w) [] (s', w')
| step_cancel s w : log_step (s, w) [] (cancel s w)
| step_close s w : log_step (s, w) [] (close s w)
| step_world s w w' : content w `prefix_of` content w' -> log_step (s, w) [] (s, w').

Inductive log_run (x : @stream S * W) : list log_event -> @stream S * W -> Prop :=
| run_nil : log_run x [] x
| run_snoc evs y evs' z : log_run x evs y -> log_step y evs' z -> log_run x (evs ++ evs') z.

(** The part of the invariant that holds in the middle of a call. *)
Record core (m : log_mode) (limit : Z) (s : @stream S) (w : W) (evs : list log_event) : Prop := {
  c_mode : mode s = m;
  c_limit : snapshot_end (source s) = limit;
  c_data : data_of evs `prefix_of` content w;
  c_delivered : delivered (source s) = zlen (data_of evs);
  c_snapshot : m = SNAPSHOT -> zlen (data_of evs) <= limit;
  c_cursor : cursor_position s = zlen evs;
  c_cursors : map event_cursor evs = one_to (length evs);
  c_sequence : stream_sequence s = zlen (sequences evs);
  c_sequences : sequences evs = one_to (length (sequences evs));
  c_last : last_observed_at s = last (map event_time evs);
  c_times : Sorted Z.le (map event_time evs);
  c_nonempty : Forall (fun e => is_data e = true -> event_data e <> []) evs;
}.

(** The last event of a stream and what it implies. *)
Definition cause (m : log_mode) (limit : Z) (w : W) (data : bytes) (cat : log_category) (err : option string) (status : option pystr) : Prop :=
  match cat with
  | SNAPSHOT_COMPLETE => m = SNAPSHOT /\ zlen data = limit
  | RUN_TERMINAL => m = FOLLOW /\ exists src w0 src' w1 st, status = Some st /\ st ∈ TERMINAL_STATUSES /\
      source_status src w0 = (src', w1, Ok st) /\ data = content w1 /\ content w1 `prefix_of` content w
  | CANCELLED => True
  | ERROR => err <> None
  end.

Definition final_ok (m : log_mode) (limit : Z) (w : W) (evs : list log_event) : Prop :=
  exists pre c t cat err status, evs = pre ++ [LogTerminal c t cat err status] /\ Forall (fun e => is_data e = true) pre /\
    cause m limit w (data_of evs) cat err status.

Definition open_phase (g : option phase) : bool := match g with Some AfterTerminal | Some Ended => false | _ => true end.

Definition log_inv (m : log_mode) (limit : Z) (s : @stream S) (w : W) (evs : list log_event) : Prop :=
  core m limit s w evs /\ (generator s = None \/ consumed s = true) /\
  if open_phase (generator s) then Forall (fun e => is_data e = true) evs else final_ok m limit w evs.

(** ** Lists *)

Lemma one_to_snoc n : one_to (n + 1) = one_to n ++ [Z.of_nat n + 1].
Proof. clear. unfold one_to. rewrite seq_app, map_app. cbn [seq map]. f_equal. f_equal. lia. Qed.

Lemma data_of_app a b : data_of (a ++ b) = data_of a ++ data_of b.
Proof. clear. unfold data_of. by rewrite map_app, concat_app. Qed.

Lemma sequences_app a b : sequences (a ++ b) = sequences a ++ sequences b.
Proof. clear. unfold sequences. by rewrite map_app, concat_app. Qed.

Lemma Sorted_snoc_le l t : Sorted Z.le l -> (forall x, last l = Some x -> x <= t) -> Sorted Z.le (l ++ [t]).
Proof.
  clear. intros Hs Hl. induction Hs as [|x l Hs IH Hx]; [by repeat constructor|]. cbn [app].
  destruct l as [|y l]; [constructor; [by repeat constructor|constructor; by apply Hl]|].
  constructor; [apply IH; intros z Hz; apply Hl; done|]. inversion Hx; subst. by constructor.
Qed.

(** ** Calls *)

Lemma core_world m limit s w w' evs : core m limit s w evs -> content w `prefix_of` content w' -> core m limit s w' evs.
Proof. intros [] Hp. split; try done. by etrans. Qed.

Lemma core_source m limit s src w evs : core m limit s w evs -> delivered src = delivered (source s) ->
  snapshot_end src = snapshot_end (source s) -> core m limit (s <| source := src |>) w evs.
Proof. intros [] Hd Hl. split; cbn [source mode cursor_position stream_sequence last_observed_at setter]; try done; congruence. Qed.

Lemma core_flags m limit s s' w evs : core m limit s w evs -> source s' = source s -> mode s' = mode s ->
  cursor_position s' = cursor_position s -> stream_sequence s' = stream_sequence s -> last_observed_at s' = last_observed_at s ->
  core m limit s' w evs.
Proof. intros [] E1 E2 E3 E4 E5. split; try done; congruence. Qed.

Lemma observed_at_spec s w s' w' t : observed_at s w = (s', w', t) ->
  s' = s <| last_observed_at := Some t |> /\ content w `prefix_of` content w' /\ (forall x, last_observed_at s = Some x -> x <= t).
Proof.
  unfold observed_at. pose proof (now_content w) as Hp. destruct (now w) as [w1 o]. cbn [fst] in Hp.
  destruct (last_observed_at s) as [x|]; [|intros E; simplify_eq; done].
  destruct (Z.ltb_spec o x); intros E; simplify_eq; (split; [done|]); (split; [done|]); intros y [= <-]; lia.
Qed.

(** The invariant after an event, whatever the event. *)
Lemma core_event m limit s w evs e : core m limit s w evs -> event_cursor e = zlen evs + 1 ->
  (forall x, last (map event_time evs) = Some x -> x <= event_time e) ->
  data_of evs ++ event_data e `prefix_of` content w ->
  forall s', mode s' = m -> snapshot_end (source s') = limit -> delivered (source s') = zlen (data_of evs) + zlen (event_data e) ->
  (m = SNAPSHOT -> zlen (data_of evs) + zlen (event_data e) <= limit) ->
  cursor_position s' = zlen evs + 1 -> last_observed_at s' = Some (event_time e) ->
  event_sequence e = [] /\ stream_sequence s' = stream_sequence s \/
  event_sequence e = [zlen (sequences evs) + 1] /\ stream_sequence s' = zlen (sequences evs) + 1 ->
  (is_data e = true -> event_data e <> []) ->
  core m limit s' w (evs ++ [e]).
Proof.
  intros [_ _ _ _ _ _ C7 C8 C9 _ C11 C12] Hc Ht Hd s' Hm Hl Hdel Hsn Hcur Hlast Hseq Hne.
  assert (data_of (evs ++ [e]) = data_of evs ++ event_data e) as Ed by (rewrite data_of_app; unfold data_of; cbn; by rewrite app_nil_r).
  assert (sequences (evs ++ [e]) = sequences evs ++ event_sequence e) as Es by (rewrite sequences_app; unfold sequences; cbn; by rewrite app_nil_r).
  split; rewrite ?Ed, ?Es, ?map_app, ?length_app; cbn [map length]; try done.
  - by rewrite zlen_app.
  - by rewrite zlen_app.
  - by rewrite zlen_app, zlen_cons, zlen_nil.
  - rewrite one_to_snoc, C7, Hc. unfold zlen. done.
  - destruct Hseq as [[-> ->]|[-> ->]]; [by rewrite app_nil_r|]. by rewrite zlen_app, zlen_cons, zlen_nil.
  - destruct Hseq as [[-> _]|[-> _]]; [by rewrite app_nil_r, Nat.add_0_r|]. rewrite one_to_snoc, <- C9. by unfold zlen.
  - by rewrite last_snoc.
  - by apply Sorted_snoc_le.
  - apply Forall_app. split; [done|]. by apply Forall_singleton.
Qed.

Lemma yield_terminal_spec m limit s w evs c err st s' w' r : core m limit s w evs -> yield_terminal s w c err st = (s', w', r) ->
  exists p t, r = Yield (LogTerminal p t c err st) /\ core m limit s' w' (evs ++ [LogTerminal p t c err st]) /\
    generator s' = Some AfterTerminal /\ content w `prefix_of` content w'.
Proof.
  intros Hc. unfold yield_terminal, terminal_event. destruct (observed_at (next_cursor s) w) as [[s1 w1] t] eqn:E.
  intros H3. apply pair_equal_spec in H3 as [H3 <-]. apply pair_equal_spec in H3 as [<- <-].
  apply observed_at_spec in E as (-> & Hp & Hle). do 2 eexists. split; [done|]. split; [|done].
  pose proof (core_world _ _ _ _ _ _ Hc Hp) as Hc'. destruct Hc. eapply (core_event _ _ _ _ _ _ Hc'); cbn [event_cursor event_time event_data event_sequence]; try done.
  - unfold next_cursor. cbn [cursor_position setter]. lia.
  - intros x Hx. apply Hle. unfold next_cursor. cbn [last_observed_at setter]. congruence.
  - rewrite app_nil_r. by etrans.
  - rewrite zlen_nil. cbn [source setter next_cursor]. unfold next_cursor. cbn [source setter]. lia.
  - intros Hm. rewrite zlen_nil. specialize (c_snapshot0 Hm). lia.
  - unfold next_cursor. cbn [cursor_position setter]. lia.
  - by left.
Qed.

Lemma data_event_spec m limit s w evs b s' w' e : core m limit s w evs -> b <> [] -> forall src : S,
  data_of evs ++ b `prefix_of` content w -> delivered src = zlen (data_of evs) + zlen b -> snapshot_end src = limit ->
  (m = SNAPSHOT -> zlen (data_of evs) + zlen b <= limit) ->
  data_event (s <| source := src |>) w b = (s', w', e) ->
  is_data e = true /\ core m limit s' w' (evs ++ [e]) /\ generator s' = Some AfterData /\ content w `prefix_of` content w'.
Proof.
  intros Hc Hb src Hd Hdel Hl Hsn. unfold data_event. destruct (observed_at _ w) as [[s1 w1] t] eqn:E.
  intros H3. apply pair_equal_spec in H3 as [H3 <-]. apply pair_equal_spec in H3 as [<- <-].
  apply observed_at_spec in E as (-> & Hp & Hle). split; [done|]. split; [|done].
  pose proof (core_world _ _ _ _ _ _ Hc Hp) as Hc'. destruct Hc. eapply (core_event _ _ _ _ _ _ Hc'); cbn [event_cursor event_time event_data event_sequence]; try done.
  - unfold next_cursor. cbn [cursor_position setter]. lia.
  - intros x Hx. apply Hle. unfold next_cursor. cbn [last_observed_at setter]. congruence.
  - by etrans.
  - unfold next_cursor. cbn [cursor_position setter]. lia.
  - right. unfold next_cursor. cbn [stream_sequence setter]. rewrite c_sequence0. done.
Qed.

(** A read that returns bytes appends them to what was delivered. *)
Lemma read_prefix s w evs m limit n snap src w' b : core m limit s w evs -> source_read (source s) w n snap = (src, w', Ok b) ->
  content w `prefix_of` content w' /\ snapshot_end src = limit /\ delivered src = zlen (data_of evs) + zlen b /\
  data_of evs ++ b `prefix_of` content w' /\ (m = SNAPSHOT -> snap = true -> zlen (data_of evs) + zlen b <= limit) /\
  (b = [] -> if snap then limit <= zlen (data_of evs) else zlen (content w) <= zlen (data_of evs)).
Proof.
  intros [] E. apply read_laws in E as (Hp & Hl & Hd & Hb & _ & Hs & He); [|rewrite c_delivered0; apply zlen_nonneg].
  rewrite c_delivered0, c_limit0 in *. rewrite to_nat_zlen in Hb. split; [done|]. split; [done|]. split; [done|]. split.
  - destruct c_data0 as [k Ek]. destruct Hp as [k' Ek']. rewrite Ek, <- app_assoc in Ek'. rewrite Ek' in Hb |- *.
    rewrite drop_app_length in Hb. rewrite Hb at 1. apply prefix_app. exists (drop (length b) (k ++ k')). by rewrite take_drop.
  - split; [|done]. intros Hm Hsnap. rewrite <- Hd. apply Hs; [done|]. by apply c_snapshot0.
Qed.

Lemma cause_world m limit w w' d cat err st : cause m limit w d cat err st -> content w `prefix_of` content w' -> cause m limit w' d cat err st.
Proof.
  destruct cat; cbn [cause]; try done. intros (Hm & src & w0 & src' & w1 & st' & E1 & E2 & E3 & E4 & Hp) Hw.
  split; [done|]. exists src, w0, src', w1, st'. split_and!; try done. by etrans.
Qed.

Lemma log_inv_world m limit s w w' evs : log_inv m limit s w evs -> content w `prefix_of` content w' -> log_inv m limit s w' evs.
Proof.
  intros (Hc & Hg & Ho) Hw. split; [by eapply core_world|]. split; [done|]. destruct (open_phase _); [done|].
  destruct Ho as (pre & c & t & cat & err & st & E & Hf & Hca). exists pre, c, t, cat, err, st. split_and!; try done. by eapply cause_world.
Qed.

(** What a call that resumes the generator gives. *)
Definition resumed (m : log_mode) (limit : Z) (evs : list log_event) (s' : @stream S) (w' : W) (r : resumption) : Prop :=
  match r with
  | Yield e => log_inv m limit s' w' (evs ++ [e])
  | Return => log_inv m limit s' w' evs
  | Polling => log_inv m limit s' w' evs /\ m = FOLLOW
  end.

Lemma data_of_data evs : Forall (fun e => is_data e = true -> event_data e <> []) evs -> Forall (fun e => is_data e = true) evs ->
  zlen evs <= zlen (data_of evs).
Proof.
  clear. induction 1 as [|e evs He _ IH]; intros Hd; [done|]. apply Forall_cons in Hd as [Hd Hds]. specialize (IH Hds). specialize (He Hd).
  unfold data_of in *. cbn [map concat]. rewrite zlen_cons, zlen_app. destruct (event_data e); [done|]. rewrite zlen_cons.
  pose proof (zlen_nonneg l). lia.
Qed.

Lemma yield_terminal_inv m limit s w evs c err st s' w' r : core m limit s w evs -> Forall (fun e => is_data e = true) evs ->
  consumed s = true -> cause m limit w (data_of evs) c err st -> yield_terminal s w c err st = (s', w', r) -> resumed m limit evs s' w' r.
Proof.
  intros Hc Hd Hs Hca E. pose proof E as E2. eapply yield_terminal_spec in E as (p & t & -> & Hc' & Hg & Hp); [|done].
  split; [done|]. split.
  - right. revert E2. unfold yield_terminal, terminal_event. destruct (observed_at (next_cursor s) w) as [[s1 w1] t'] eqn:E.
    apply observed_at_spec in E as (-> & _). intros H3. apply pair_equal_spec in H3 as [H3 _]. apply pair_equal_spec in H3 as [<- _]. done.
  - rewrite Hg. cbn [open_phase]. exists evs, p, t, c, err, st. split; [done|]. split; [done|].
    rewrite data_of_app. unfold data_of at 2. cbn [map concat event_data]. rewrite !app_nil_r. by eapply cause_world.
Qed.

Lemma data_event_inv m limit s w evs b s' w' e : core m limit s w evs -> Forall (fun e => is_data e = true) evs -> consumed s = true ->
  b <> [] -> forall src : S, data_of evs ++ b `prefix_of` content w -> delivered src = zlen (data_of evs) + zlen b -> snapshot_end src = limit ->
  (m = SNAPSHOT -> zlen (data_of evs) + zlen b <= limit) ->
  data_event (s <| source := src |>) w b = (s', w', e) -> resumed m limit evs s' w' (Yield e).
Proof.
  intros Hc Hd Hs Hb src H1' H2' H3' H4' E. pose proof E as E2. eapply data_event_spec in E as (He & Hc' & Hg & _); try done. split; [done|]. split.
  - right. revert E2. unfold data_event. destruct (observed_at _ w) as [[s1 w1] t'] eqn:E.
    apply observed_at_spec in E as (-> & _). intros H3. apply pair_equal_spec in H3 as [H3 _]. apply pair_equal_spec in H3 as [<- _]. done.
  - rewrite Hg. cbn [open_phase]. apply Forall_app. split; [done|]. by apply Forall_singleton.
Qed.

Lemma core_read_err m limit s w evs n snap src w' e : core m limit s w evs -> source_read (source s) w n snap = (src, w', Err e) ->
  core m limit (s <| source := src |>) w' evs.
Proof.
  intros Hc E. pose proof Hc as []. apply read_laws in E as (Hp & Hl & Hd); [|rewrite c_delivered0; apply zlen_nonneg].
  apply core_source; [by eapply core_world|done|done].
Qed.

Lemma core_status m limit s w evs src w' r : core m limit s w evs -> source_status (source s) w = (src, w', r) ->
  core m limit (s <| source := src |>) w' evs.
Proof. intros Hc E. apply status_laws in E as (Hp & Hd & Hl). apply core_source; [by eapply core_world|done|done]. Qed.

Lemma cancelled_inv m limit s w evs s' w' r : core m limit s w evs -> Forall (fun e => is_data e = true) evs ->
  consumed s = true -> yield_terminal s w CANCELLED None None = (s', w', r) -> resumed m limit evs s' w' r.
Proof. intros Hc Hf Hs. by apply yield_terminal_inv. Qed.

Lemma error_inv m limit s w evs err s' w' r : core m limit s w evs -> Forall (fun e => is_data e = true) evs ->
  consumed s = true -> yield_terminal s w ERROR (Some err) None = (s', w', r) -> resumed m limit evs s' w' r.
Proof. intros Hc Hf Hs. by apply yield_terminal_inv. Qed.

(** A read by the loop, as the loop uses it. *)
Lemma read_spec m limit s w evs snap src w' r : core m limit s w evs -> (m = SNAPSHOT -> snap = true) ->
  source_read (source s) w CHUNK_SIZE snap = (src, w', r) ->
  core m limit (s <| source := src |>) w' evs \/
  exists b content', r = Ok (b :: content') /\
    forall s' w'' e, Forall (fun e => is_data e = true) evs -> consumed s = true ->
      data_event (s <| source := src |>) w' (b :: content') = (s', w'', e) -> resumed m limit evs s' w'' (Yield e).
Proof.
  intros Hc Hm E. destruct r as [[|b content']|e].
  - left. eapply read_prefix in E as (Hp & Hl & Hd & _); [|done]. pose proof Hc as [].
    apply core_source; [by eapply core_world| |congruence]. rewrite Hd, c_delivered0, zlen_nil. lia.
  - right. exists b, content'. split; [done|]. intros s' w'' e Hf Hs Ed.
    eapply read_prefix in E as (Hp & Hl & Hd & Hpre & Hlim & _); [|done].
    eapply (data_event_inv m limit s w' evs (b :: content')); try done; [by eapply core_world|]. intros Hsn. by apply Hlim; [|apply Hm].
  - left. by eapply core_read_err.
Qed.

Lemma loop_spec m limit evs fuel s w s' w' r : core m limit s w evs -> Forall (fun e => is_data e = true) evs -> consumed s = true ->
  (m = SNAPSHOT -> fuel <> O) -> loop fuel s w = (s', w', r) -> resumed m limit evs s' w' r.
Proof.
  revert s w. induction fuel as [|fuel IH]; intros s w Hc Hf Hs Hfuel E; cbn [loop] in E.
  - apply pair_equal_spec in E as [E <-]. apply pair_equal_spec in E as [<- <-]. split; [|destruct m; [by destruct Hfuel|done]].
    split; [by eapply core_flags|]. split; [by right|]. done.
  - destruct (source_read (source s) w CHUNK_SIZE _) as [[src w1] r1] eqn:Er. pose proof (c_mode _ _ _ _ _ Hc) as Hm.
    pose proof (read_spec _ _ _ _ _ _ _ _ _ Hc (fun E => bool_decide_eq_true_2 _ (eq_trans Hm E)) Er) as Hr.
    pose proof Er as Er'. destruct r1 as [[|b b1]|e1]; cbn [result_bind] in E.
    2:{ destruct Hr as [Hr|(b' & c' & Eb & Hr)].
        - exfalso. apply read_prefix with (1 := Hc) in Er as (_ & _ & Hd & _). destruct Hr. cbn [source setter] in *.
          rewrite zlen_cons in Hd. pose proof (zlen_nonneg b1). lia.
        - apply (inj Ok) in Eb. apply (inj2 cons) in Eb as [<- <-]. destruct (data_event _ w1 (b :: b1)) as [[s2 w2] e] eqn:Ed.
          apply pair_equal_spec in E as [E <-]. apply pair_equal_spec in E as [<- <-]. by apply Hr. }
    2:{ destruct Hr as [Hr|(b' & c' & Eb & _)]; [|done]. exact (error_inv _ _ _ _ _ _ _ _ _ Hr Hf Hs E). }
    destruct Hr as [Hr|(b' & c' & Eb & _)]; [|done]. cbn [source mode setter] in E.
    destruct (source_status src w1) as [[src2 w2] r2] eqn:Es.
    pose proof (core_status _ _ (s <| source := src |>) _ _ src2 _ _ Hr Es) as Hr2.
    apply read_prefix with (1 := Hc) in Er' as (_ & _ & _ & _ & _ & Hend). specialize (Hend eq_refl).
    destruct r2 as [status|e2]; [|exact (error_inv _ _ _ _ _ _ _ _ _ Hr2 Hf Hs E)].
    cbn [source mode setter] in E. case_bool_decide as Hsnap.
    { assert (m = SNAPSHOT) as Em by congruence. eapply (yield_terminal_inv _ _ _ _ _ _ _ _ _ _ _ Hr2 Hf Hs); [|exact E].
      cbn [cause]. split; [done|]. pose proof (c_snapshot _ _ _ _ _ Hc Em). lia. }
    case_bool_decide as Hterm.
    + destruct (source_read src2 w2 CHUNK_SIZE false) as [[src3 w3] r3] eqn:Er3.
      assert (m = SNAPSHOT -> false = true) as Hff by (intros ->; done).
      pose proof (read_spec _ _ _ _ _ _ _ _ _ Hr2 Hff Er3) as Hr3.
      destruct r3 as [[|b b3]|e3].
      * destruct Hr3 as [Hr3|(b' & c' & Eb & _)]; [|done].
        apply read_prefix with (1 := Hr2) in Er3 as (Hp3 & _ & _ & _ & _ & Hend3). specialize (Hend3 eq_refl).
        eapply (yield_terminal_inv _ _ _ _ _ _ _ _ _ _ _ Hr3 Hf Hs); [|exact E].
        cbn [cause]. split; [by destruct m|]. exists src, w1, src2, w2, status. split_and!; try done.
        destruct (c_data _ _ _ _ _ Hr2) as [k Ek]. rewrite Ek, zlen_app in Hend3. destruct k as [|x k]; [by rewrite app_nil_r in Ek|].
        rewrite zlen_cons in Hend3. pose proof (zlen_nonneg k). lia.
      * destruct Hr3 as [Hr3|(b' & c' & Eb & Hr3)].
        -- exfalso. apply read_prefix with (1 := Hr2) in Er3 as (_ & _ & Hd & _). destruct Hr3. cbn [source setter] in *.
           rewrite zlen_cons in Hd. pose proof (zlen_nonneg b3). lia.
        -- apply (inj Ok) in Eb. apply (inj2 cons) in Eb as [<- <-]. destruct (data_event _ w3 (b :: b3)) as [[s4 w4] e] eqn:Ed.
           apply pair_equal_spec in E as [E <-]. apply pair_equal_spec in E as [<- <-]. by apply Hr3.
      * destruct Hr3 as [Hr3|(b' & c' & Eb & _)]; [|done]. exact (error_inv _ _ _ _ _ _ _ _ _ Hr3 Hf Hs E).
    + pose proof (wait_content w2) as Hw. destruct (wait_cancelled w2) as [w3 stop]. cbn [fst] in Hw.
      pose proof (core_world _ _ _ _ _ _ Hr2 Hw) as Hr3. destruct stop; [exact (cancelled_inv _ _ _ _ _ _ _ _ Hr3 Hf Hs E)|].
      eapply IH in E; try done. intros ->. congruence.
Qed.

Lemma next_spec m limit evs fuel s w s' w' r : log_inv m limit s w evs -> (m = SNAPSHOT -> fuel <> O) ->
  next fuel s w = (s', w', r) -> resumed m limit evs s' w' r.
Proof.
  intros Hi Hfuel E. pose proof Hi as (Hc & Hg & Ho). unfold next in E. destruct (generator s) as [ph|] eqn:Eg.
  2:{ apply pair_equal_spec in E as [E <-]. apply pair_equal_spec in E as [<- <-]. done. }
  assert (consumed s = true) as Hs by (destruct Hg; done). destruct ph; cbn [open_phase] in Ho.
  - assert (core m limit (s <| iterating := true |>) w evs) as Hc' by (by eapply core_flags). cbn [closed setter] in E.
    destruct (closed s || cancelled w); [exact (cancelled_inv _ _ _ _ _ _ _ _ Hc' Ho Hs E)|].
    by eapply (loop_spec _ _ _ _ _ _ _ _ _ Hc').
  - by eapply (loop_spec _ _ _ _ _ _ _ _ _ Hc).
  - destruct (cancelled w); [exact (cancelled_inv _ _ _ _ _ _ _ _ Hc Ho Hs E)|]. by eapply (loop_spec _ _ _ _ _ _ _ _ _ Hc).
  - cbn [source setter] in E. destruct (source_close (source s) w) as [src w1] eqn:Ecl.
    apply pair_equal_spec in E as [E <-]. apply pair_equal_spec in E as [<- <-]. apply close_laws in Ecl as (Hp & Hd & Hl).
    pose proof (log_inv_world _ _ _ _ _ _ Hi Hp) as (Hc' & _ & Ho'). rewrite Eg in Ho'. split; [|split; [by right|done]].
    eapply (core_flags m limit (s <| source := src |>)); try done. by apply core_source.
  - apply pair_equal_spec in E as [E <-]. apply pair_equal_spec in E as [<- <-]. done.
Qed.

Lemma log_step_inv m limit x evs evs' y : log_step x evs' y -> log_inv m limit x.1 x.2 evs -> log_inv m limit y.1 y.2 (evs ++ evs').
Proof.
  intros Hstep Hi. destruct Hstep as [s w s' r E|fuel s w s' w' e E|fuel s w s' w' r E Hr|s w|s w|s w w' Hp]; cbn [fst snd] in *.
  - rewrite app_nil_r. pose proof Hi as (Hc & Hg & Ho). unfold events in E. destruct (consumed s) eqn:Es; cbn in E.
    + apply pair_equal_spec in E as [<- _]. done.
    + apply pair_equal_spec in E as [<- _]. destruct Hg as [Hg|Hg]; [|congruence]. rewrite Hg in Ho.
      split; [by eapply core_flags|]. split; [by right|exact Ho].
  - by eapply (next_spec _ _ _ _ _ _ _ _ (Yield e)) in E.
  - rewrite app_nil_r. eapply next_spec in E; [|done|done]. destruct Hr as [-> | ->]; [exact E|exact (proj1 E)].
  - rewrite app_nil_r. eapply log_inv_world; [done|apply cancel_content].
  - rewrite app_nil_r. unfold close. pose proof (log_inv_world _ _ _ _ _ _ Hi (cancel_content w)) as Hi'.
    pose proof Hi' as (Hc & Hg & Ho). destruct (closed s); [done|]. cbn [iterating source setter]. destruct (iterating s).
    + split; [by eapply core_flags|]. by split.
    + destruct (source_close (source s) (set_cancelled w)) as [src w1] eqn:Ecl. cbn [fst snd].
      apply close_laws in Ecl as (Hp & Hd & Hl). pose proof (log_inv_world _ _ _ _ _ _ Hi' Hp) as (Hc' & _ & Ho').
      split; [|by split]. eapply (core_flags m limit (s <| source := src |>)); try done. by apply core_source.
  - rewrite app_nil_r. by eapply log_inv_world.
Qed.

Lemma log_inv_init src m w : delivered src = 0 -> 0 <= snapshot_end src -> log_inv m (snapshot_end src) (stream_init src m) w [].
Proof.
  intros Hd Hl. split; [|split; [by left|exact (Forall_nil_2 _)]]. split; cbn; try done; try apply prefix_nil.
Qed.

(** C28: whatever the consumer, the canceller and the producer of the console do, the
    events of a stream hold every byte of the console once and in order; their
    cursors and sequence numbers are consecutive and their times do not go back. A
    snapshot never exceeds the size pinned at the start and never polls. At most the
    last event is terminal: a complete snapshot holds exactly the pinned bytes, and a
    terminal status is reported only after every byte the console held at that point. *)
Theorem log_stream_exact src m w0 evs s w : delivered src = 0 -> 0 <= snapshot_end src -> log_run (stream_init src m, w0) evs (s, w) ->
  (data_of evs `prefix_of` content w /\ map event_cursor evs = one_to (length evs) /\
   sequences evs = one_to (length (sequences evs)) /\ Sorted Z.le (map event_time evs)) /\
  (m = SNAPSHOT -> zlen (data_of evs) <= snapshot_end src /\ zlen evs <= snapshot_end src + 1 /\
   forall fuel, (next (Datatypes.S fuel) s w).2 <> Polling) /\
  (Forall (fun e => is_data e = true) evs \/ final_ok m (snapshot_end src) w evs).
Proof.
  intros Hd Hl Hrun. assert (log_inv m (snapshot_end src) s w evs) as Hi.
  { change (log_inv m (snapshot_end src) (s, w).1 (s, w).2 evs). induction Hrun as [|evs y evs' z _ IH Hstep].
    - by apply log_inv_init.
    - by eapply log_step_inv. }
  pose proof Hi as ([] & _ & Ho). split; [done|]. split.
  - intros Hm. split; [by apply c_snapshot0|]. split.
    + destruct (open_phase (generator s)).
      * pose proof (data_of_data evs c_nonempty0 Ho). specialize (c_snapshot0 Hm). lia.
      * destruct Ho as (pre & c & t & cat & err & st & -> & Hf & _). apply Forall_app in c_nonempty0 as [Hne _].
        pose proof (data_of_data pre Hne Hf). specialize (c_snapshot0 Hm). rewrite data_of_app, zlen_app in c_snapshot0.
        pose proof (zlen_nonneg (data_of [LogTerminal c t cat err st])). rewrite zlen_app, zlen_cons, zlen_nil. lia.
    + intros fuel. destruct (next (Datatypes.S fuel) s w) as [[s' w'] r] eqn:E. eapply next_spec in E; [|done|done].
      cbn [snd]. intros ->. destruct E as [_ E]. congruence.
  - destruct (open_phase (generator s)); [by left|by right].
Qed.
End run.

(** * The pinned console *)

(** What the system calls of a file that is only appended to document. *)
Class ConsoleOSLaws (W : Type) `{WorldLaws W} `{ConsoleOS W} := {
  fstat_laws w w' o : os_fstat w = (w', o) -> content w `prefix_of` content w' /\ forall st, o = Some st -> zlen (content w) <= st_size st;
  stat_laws w w' o : os_stat w = (w', o) -> content w `prefix_of` content w';
  pread_laws w n off w' o : os_pread w n off = (w', o) -> content w `prefix_of` content w' /\
    forall b, o = Some b -> 0 <= n -> 0 <= off -> zlen b <= n /\ b = take (length b) (drop (Z.to_nat off) (content w'));
  ledger_laws w w' r : os_ledger_status w = (w', r) -> content w `prefix_of` content w';
  os_close_laws w : content w `prefix_of` content (os_close w);
}.

Section pinned.
Context {W : Type} `{ConsoleOSLaws W}.

Lemma opened_size_spec c w allow w' r : opened_console_size c w allow = (w', r) ->
  content w `prefix_of` content w' /\ forall n, r = Ok n -> zlen (content w) <= n /\ initial_size c <= n /\ position c <= n.
Proof.
  unfold opened_console_size. destruct (console_closed c); [intros E; by simplify_eq|].
  destruct (os_fstat w) as [w1 [st|]] eqn:E; apply fstat_laws in E as [Hp Hn].
  2:{ intros E. by simplify_eq. }
  specialize (Hn _ eq_refl). destruct (Z.ltb_spec (st_size st) (initial_size c)), (Z.ltb_spec (st_size st) (position c));
    rewrite ?orb_true_r, ?orb_false_r; try (intros E; by simplify_eq).
  destruct (_ || _); intros E; simplify_eq; (split; [done|]); intros n En; simplify_eq. lia.
Qed.

Lemma size_spec c w allow w' r : console_size c w allow = (w', r) ->
  content w `prefix_of` content w' /\ forall n, r = Ok n -> zlen (content w) <= n /\ initial_size c <= n /\ position c <= n.
Proof.
  unfold console_size. destruct (opened_console_size c w allow) as [w1 [n|e]] eqn:E; apply opened_size_spec in E as [Hp Hn].
  2:{ intros E. by simplify_eq. }
  specialize (Hn _ eq_refl). destruct (os_stat w1) as [w2 o] eqn:E. apply stat_laws in E.
  assert (content w `prefix_of` content w2) as Hp2 by (by etrans).
  destruct o as [st|]; [destruct (_ || _)|destruct allow]; intros E'; simplify_eq; (split; [done|]); intros k Ek; by simplify_eq.
Qed.

#[export] Program Instance console_laws : SourceLaws console W :=
  {| delivered := position; snapshot_end := initial_size |}.
Next Obligation.
  intros c w n snap c' w' r. cbn [source_read console_source]. unfold console_read.
  destruct ((1 <=? n) && (n <=? 64 * 1024)) eqn:En; cbn [negb]; [|intros E _; by simplify_eq].
  apply andb_true_iff in En as [En _]. apply Z.leb_le in En.
  destruct (console_size c w (negb snap)) as [w1 [size|e]] eqn:E; apply size_spec in E as [Hp Hs]; [|intros E' _; by simplify_eq].
  specialize (Hs _ eq_refl) as (Hs1 & Hs2 & Hs3). destruct (Z.leb_spec ((if snap then Z.min size (initial_size c) else size) - position c) 0) as [Hle|Hgt].
  - intros E Hd. simplify_eq. rewrite zlen_nil. split_and!; try done; [lia|lia|]. intros _. destruct snap; cbn beta iota in *; lia.
  - destruct (os_pread w1 _ (position c)) as [w2 o] eqn:E. apply pread_laws in E as [Hp2 Hb].
    assert (content w `prefix_of` content w2) as Hpp by (by etrans).
    destruct o as [[|b bs]|]; intros E' Hd; simplify_eq; try done. specialize (Hb _ eq_refl ltac:(lia) Hd) as [Hb1 Hb2].
    cbn [position initial_size setter]. split_and!; try done; [lia|]. intros -> _. lia.
Qed.
Next Obligation.
  intros c w c' w' r. cbn [source_status console_source]. destruct (os_ledger_status w) as [w1 r1] eqn:E. apply ledger_laws in E. intros E'. by simplify_eq.
Qed.
Next Obligation.
  intros c w c' w'. cbn [source_close console_source]. unfold console_close. pose proof (os_close_laws w).
  destruct (console_closed c); intros E'; by simplify_eq.
Qed.
End pinned.

(** * A concrete run *)

(** A console that grows, and ends, while the stream waits. *)
Record demo := Demo { d_file : bytes; d_status : pystr; d_time : Z; d_cancelled : bool }.

Definition demo_tick (w : demo) : demo := Demo (d_file w) (d_status w) (d_time w + 1) (d_cancelled w).
Definition demo_stat (w : demo) : file_stat := FileStat true true 1 true (1, 2) (zlen (d_file w)).

#[export] Instance demo_world : LogWorld demo := {
  now w := (demo_tick w, d_time w);
  cancelled := d_cancelled;
  wait_cancelled w := (Demo (d_file w ++ u "bye") (u "stopped") (d_time w + 1) (d_cancelled w), d_cancelled w);
  set_cancelled w := Demo (d_file w) (d_status w) (d_time w) true;
}.
#[export] Instance demo_os : ConsoleOS demo := {
  os_fstat w := (w, Some (demo_stat w));
  os_stat w := (w, Some (demo_stat w));
  os_pread w n off := (w, Some (take (Z.to_nat n) (drop (Z.to_nat off) (d_file w))));
  os_ledger_status w := (w, Ok (d_status w));
  os_close w := w;
}.
#[export] Program Instance demo_world_laws : WorldLaws demo := {| content := d_file |}.
Solve Obligations with (intros; cbn; by try apply prefix_app_r).

#[export] Instance demo_os_laws : ConsoleOSLaws demo.
Proof.
  split; cbn; intros; simplify_eq; try done.
  - split; [done|]. intros st [= <-]. done.
  - split; [done|]. intros b Hb Hn Hoff. simplify_eq. split.
    + unfold zlen. rewrite length_take. lia.
    + rewrite length_take. set (l := drop _ _). by rewrite <- firstn_firstn, firstn_all.
Qed.

Definition ex_console : console := Console (1, 2) 5 0 false.
Definition ex_world : demo := Demo (u "hello") (u "running") 7 false.
Definition ex_start : @stream console * demo := ((events (stream_init ex_console FOLLOW)).1, ex_world).
Definition ex_next (x : @stream console * demo) : @stream console * demo := (next 9 x.1 x.2).1.

Lemma ex_next_step x e : (next 9 x.1 x.2).2 = Yield e -> log_step x [e] (ex_next x).
Proof. destruct x as [s w]. unfold ex_next. cbn [fst snd]. destruct (next 9 s w) as [[s' w'] r] eqn:E. cbn [fst snd]. intros ->. by eapply step_yield. Qed.

Definition ex_end : @stream console * demo := ex_next (ex_next (ex_next ex_start)).

Definition ex_events : list log_event :=
  [LogData 1 1 7 (u "hello"); LogData 2 2 9 (u "bye"); LogTerminal 3 10 RUN_TERMINAL None (Some (u "stopped"))].

Lemma ex_log_run : log_run (stream_init ex_console FOLLOW, ex_world) ex_events ex_end.
Proof.
  apply (run_snoc _ [LogData 1 1 7 (u "hello"); LogData 2 2 9 (u "bye")] (ex_next (ex_next ex_start)) [_]);
    [|apply ex_next_step; by vm_compute].
  apply (run_snoc _ [LogData 1 1 7 (u "hello")] (ex_next ex_start) [_]); [|apply ex_next_step; by vm_compute].
  apply (run_snoc _ [] ex_start [_]); [|apply ex_next_step; by vm_compute].
  apply (run_snoc _ [] (stream_init ex_console FOLLOW, ex_world) []); [apply run_nil|].
  eapply step_events. apply surjective_pairing.
Qed.

Lemma log_stream_exact_witness : data_of ex_events = u "hellobye" /\ data_of ex_events `prefix_of` content ex_end.2.
Proof.
  split; [by vm_compute|]. destruct (log_stream_exact ex_console FOLLOW ex_world ex_events ex_end.1 ex_end.2) as ((Hd & _) & _).
  - reflexivity.
  - by vm_compute.
  - rewrite <- surjective_pairing. exact ex_log_run.
  - exact Hd.
Defined.
