(* ===== verification/ExecControl.v ===== *)
(** The mailbox of guest executions in the monitor ([MonitorExecControl] of
    [oci_exec_control.py]), the stop control beside it
    ([oci_monitor_control.py]) and the part of the monitor's exchange that acts on
    them ([oci_monitor_ipc.py]).  A method returns the object it leaves behind;
    its lock makes it one step. *)
From S2P Require Import Prelude Crypto PyStr PyVal Json Digest ControlV2Wire.

Definition MAX_EXEC_OUTPUT : Z := 65536.
Definition MAX_EXEC_CHUNK : Z := 1024.
Definition MAX_EXEC_SEQUENCE : Z := 2 ^ 63 - 1.

(** * Requests *)

(** [_identity]; the error is the category of [MonitorExecControlError]. *)
Definition exec_identity (sequence token : pyval) : result (Z * pystr) :=
  let? sequence := v_int_range sequence 1 MAX_EXEC_SEQUENCE "invalid-request" in
  match token with
  | VStr s => if bool_decide (uuid_str s = Some s) then Ok (sequence, s) else Err "invalid-request"
  | _ => Err "invalid-request"
  end.

Definition validate_exec_request (argv timeout_ms : pyval) : result (list pystr * Z) :=
  match validate_exec_argv argv, validate_exec_timeout timeout_ms with
  | Ok argv, Ok timeout_ms => Ok (argv, timeout_ms)
  | _, _ => Err "invalid-request"
  end.

(** [MonitorExecJob] *)
Record exec_job := ExecJob { job_sequence : Z; job_token : pystr; job_argv : list pystr; job_timeout_ms : Z }.
#[export] Instance exec_job_eq_dec : EqDecision exec_job.
Proof. solve_decision. Defined.

(** * [MonitorExecControl] *)

Inductive mailbox_state := NOT_READY | READY_STATE | STOPPING | TERMINAL_STATE | CONTROL_LOST.
#[export] Instance mailbox_state_eq_dec : EqDecision mailbox_state.
Proof. solve_decision. Defined.
Definition mailbox_state_name (s : mailbox_state) : string :=
  match s with
  | NOT_READY => "not-ready" | READY_STATE => "ready" | STOPPING => "stopping" | TERMINAL_STATE => "terminal"
  | CONTROL_LOST => "control-lost"
  end.

Inductive job_state := QUEUED | RUNNING | COMPLETED | JOB_LOST.
#[export] Instance job_state_eq_dec : EqDecision job_state.
Proof. solve_decision. Defined.
Definition job_state_name (s : job_state) : string :=
  match s with QUEUED => "queued" | RUNNING => "running" | COMPLETED => "completed" | JOB_LOST => "control-lost" end.

Inductive exec_stream := STDOUT | STDERR.
#[export] Instance exec_stream_eq_dec : EqDecision exec_stream.
Proof. solve_decision. Defined.

Record mailbox := Mailbox {
  mb_state : mailbox_state;
  mb_next : Z;
  mb_job : option exec_job;
  mb_job_state : option job_state;
  mb_stdout : bytes;
  mb_stderr : bytes;
  mb_terminal : option terminal;
  mb_reason : option pystr;
  mb_last_ack : option (Z * pystr);
}.
#[export] Instance mailbox_eta : Eta mailbox := fun m =>
  Mailbox (mb_state m) (mb_next m) (mb_job m) (mb_job_state m) (mb_stdout m) (mb_stderr m) (mb_terminal m) (mb_reason m)
    (mb_last_ack m).

Definition mailbox_init : mailbox := Mailbox NOT_READY 1 None None [] [] None None None.

Definition status_value (m : mailbox) : pyval :=
  VDict [(u "state", VStr (u (mailbox_state_name (mb_state m)))); (u "next_sequence", VInt (mb_next m));
         (u "occupied", VBool (bool_decide (mb_job m <> None)))].

Definition mark_ready (m : mailbox) : mailbox :=
  if bool_decide (mb_state m = NOT_READY) then m <| mb_state := READY_STATE |> else m.

(** [reason] is one of the three states the source admits. *)
Definition close_to_exec (m : mailbox) (reason : mailbox_state) : mailbox * result unit :=
  raise "invalid-state" when negb (bool_decide (reason ∈ [STOPPING; TERMINAL_STATE; CONTROL_LOST])) from m ;;
  let m := if bool_decide (mb_state m ∈ [TERMINAL_STATE; CONTROL_LOST]) then m else m <| mb_state := reason |> in
  if bool_decide (reason ∈ [TERMINAL_STATE; CONTROL_LOST]) &&
     (bool_decide (mb_job_state m = Some QUEUED) || bool_decide (mb_job_state m = Some RUNNING))
  then (m <| mb_job_state := Some JOB_LOST |> <| mb_reason := Some (u "control-lost") |>, Ok tt)
  else (m, Ok tt).

Definition opt_value (o : option pystr) : pyval := match o with Some s => VStr s | None => VNone end.

Definition offset_ok (offset : pyval) (output : bytes) : result Z := v_int_range offset 0 (zlen output) "invalid-offset".

Definition chunk (output : bytes) (offset : Z) : bytes := take (Z.to_nat MAX_EXEC_CHUNK) (drop (Z.to_nat offset) output).

(** [_poll]: the caller has checked that there is a job. *)
Definition poll_value (m : mailbox) (stdout_offset stderr_offset : pyval) : result pyval :=
  let? out := offset_ok stdout_offset (mb_stdout m) in
  let? err := offset_ok stderr_offset (mb_stderr m) in
  match mb_job m with
  | None => Err "AttributeError"
  | Some job =>
      Ok (VDict [(u "sequence", VInt (job_sequence job)); (u "token", VStr (job_token job));
                 (u "state", opt_value ((fun s => u (job_state_name s)) <$> mb_job_state m));
                 (u "stdout_offset", VInt out); (u "stderr_offset", VInt err);
                 (u "stdout_hex", VStr (hex (chunk (mb_stdout m) out))); (u "stderr_hex", VStr (hex (chunk (mb_stderr m) err)));
                 (u "stdout_size", VInt (zlen (mb_stdout m))); (u "stderr_size", VInt (zlen (mb_stderr m)));
                 (u "terminal", match mb_terminal m with Some t => terminal_value t | None => VNone end);
                 (u "reason", opt_value (mb_reason m))])
  end.

Definition submit (m : mailbox) (sequence token argv timeout_ms : pyval) : mailbox * result pyval :=
  let? id := exec_identity sequence token from m in
  let? request := validate_exec_request argv timeout_ms from m in
  let candidate := ExecJob id.1 id.2 request.1 request.2 in
  raise "stale-sequence" when negb (bool_decide (id.1 = mb_next m)) from m ;;
  match mb_job m with
  | Some job =>
      raise "busy" when negb (bool_decide (job = candidate)) from m ;;
      (m, poll_value m (VInt 0) (VInt 0))
  | None =>
      raise "not-ready" when negb (bool_decide (mb_state m = READY_STATE)) || bool_decide (mb_next m = MAX_EXEC_SEQUENCE) from m ;;
      let m := m <| mb_job := Some candidate |> <| mb_job_state := Some QUEUED |> in
      (m, poll_value m (VInt 0) (VInt 0))
  end.

(** [_require] *)
Definition is_current (m : mailbox) (id : Z * pystr) : bool :=
  match mb_job m with Some job => bool_decide ((job_sequence job, job_token job) = id) | None => false end.

Definition poll (m : mailbox) (sequence token stdout_offset stderr_offset : pyval) : mailbox * result pyval :=
  let? id := exec_identity sequence token from m in
  raise "unknown-job" when negb (is_current m id) from m ;;
  (m, poll_value m stdout_offset stderr_offset).

Definition acknowledge (m : mailbox) (sequence token : pyval) : mailbox * result pyval :=
  let? id := exec_identity sequence token from m in
  if bool_decide (mb_last_ack m = Some id) then (m, Ok (status_value m))
  else
    raise "unknown-job" when negb (is_current m id) from m ;;
    raise "not-completed" when negb (bool_decide (mb_job_state m = Some COMPLETED)) from m ;;
    let m := Mailbox (mb_state m) (mb_next m + 1) None None [] [] None None (Some id) in
    (m, Ok (status_value m)).

Definition take_exec (m : mailbox) : mailbox * option exec_job :=
  if negb (bool_decide (mb_state m = READY_STATE)) || negb (bool_decide (mb_job_state m = Some QUEUED)) then (m, None)
  else (m <| mb_job_state := Some RUNNING |>, mb_job m).

Definition output_of (m : mailbox) (stream : exec_stream) : bytes := match stream with STDOUT => mb_stdout m | STDERR => mb_stderr m end.
Definition extend_output (m : mailbox) (stream : exec_stream) (data : bytes) : mailbox :=
  match stream with
  | STDOUT => m <| mb_stdout := mb_stdout m ++ data |>
  | STDERR => m <| mb_stderr := mb_stderr m ++ data |>
  end.

(** The arguments have the types its caller, the lifecycle transport, gives them. *)
Definition append_output (m : mailbox) (job : exec_job) (stream : exec_stream) (offset : Z) (data : bytes) : mailbox * result unit :=
  raise "invalid-output" when negb (bool_decide (mb_job m = Some job)) || negb (bool_decide (mb_job_state m = Some RUNNING)) from m ;;
  raise "invalid-output"
    when negb (bool_decide (offset = zlen (output_of m stream))) || negb ((1 <=? zlen data) && (zlen data <=? MAX_EXEC_CHUNK)) ||
         (MAX_EXEC_OUTPUT <? zlen (mb_stdout m) + zlen (mb_stderr m) + zlen data) from m ;;
  (extend_output m stream data, Ok tt).

Definition COMPLETION_REASONS : list pystr := [u "completed"; u "timeout"; u "output-limit"; u "cancelled"].

(** The check of a terminal that [complete] and the client share: a dict with
    one exit code or one signal. *)
Definition exec_terminal (value : pyval) : option terminal :=
  match value with
  | VDict d =>
      if has_exactly [u "exit_code"; u "signal"] d then
        match d.["exit_code"], d.["signal"] with
        | VInt code, VNone => if (0 <=? code) && (code <=? 255) then Some (Terminal (Some code) None) else None
        | VNone, VInt number => if (1 <=? number) && (number <=? 64) then Some (Terminal None (Some number)) else None
        | _, _ => None
        end
      else None
  | _ => None
  end.

Definition complete (m : mailbox) (job : exec_job) (terminal : pyval) (stdout_bytes stderr_bytes : Z) (reason : pystr) :
    mailbox * result unit :=
  raise "invalid-result" when negb (bool_decide (reason ∈ COMPLETION_REASONS)) from m ;;
  raise "invalid-result"
    when if is_none terminal
         then negb (bool_decide (reason = u "cancelled")) || negb (stdout_bytes =? 0) || negb (stderr_bytes =? 0)
         else bool_decide (exec_terminal terminal = None) from m ;;
  raise "invalid-result"
    when negb (bool_decide (mb_job m = Some job)) || negb (bool_decide (mb_job_state m = Some RUNNING)) ||
         negb (stdout_bytes =? zlen (mb_stdout m)) || negb (stderr_bytes =? zlen (mb_stderr m)) from m ;;
  (m <| mb_terminal := exec_terminal terminal |> <| mb_reason := Some reason |> <| mb_job_state := Some COMPLETED |>, Ok tt).

(** * [MonitorStopControl] *)

Inductive stop_state := STOP_NOT_READY | STOP_READY | STOP_OBSERVED_TERMINAL | STOP_TERMINAL | STOP_CONTROL_LOST.
#[export] Instance stop_state_eq_dec : EqDecision stop_state.
Proof. solve_decision. Defined.

Record stop_control := StopControl { sc_state : stop_state; sc_accepted : bool; sc_taken : bool; sc_deadline : option Z }.
#[export] Instance stop_control_eta : Eta stop_control := fun c =>
  StopControl (sc_state c) (sc_accepted c) (sc_taken c) (sc_deadline c).
Definition stop_control_init : stop_control := StopControl STOP_NOT_READY false false None.

(** [request]; [deadline] is the clock's reading plus the timeout. *)
Definition stop_request (c : stop_control) (deadline : Z) : stop_control * string :=
  if bool_decide (sc_state c = STOP_TERMINAL) then (c, "stop-terminal"%string)
  else if bool_decide (sc_state c = STOP_CONTROL_LOST) then (c, "control-lost"%string)
  else if sc_accepted c then (c, "stop-accepted"%string)
  else if negb (bool_decide (sc_state c = STOP_READY)) then (c, "stop-refused"%string)
  else (c <| sc_accepted := true |> <| sc_deadline := Some deadline |>, "stop-accepted"%string).

Definition stop_mark_ready (c : stop_control) : stop_control :=
  if bool_decide (sc_state c = STOP_NOT_READY) then c <| sc_state := STOP_READY |> else c.
Definition take_stop (c : stop_control) : stop_control * bool :=
  if negb (bool_decide (sc_state c = STOP_READY)) || negb (sc_accepted c) || sc_taken c then (c, false)
  else (c <| sc_taken := true |>, true).
Definition mark_observed_terminal (c : stop_control) : stop_control :=
  if bool_decide (sc_state c = STOP_READY) then c <| sc_state := STOP_OBSERVED_TERMINAL |> else c.
Definition mark_terminal (c : stop_control) : stop_control :=
  if bool_decide (sc_state c = STOP_OBSERVED_TERMINAL) then c <| sc_state := STOP_TERMINAL |> else c.
Definition mark_control_lost (c : stop_control) : stop_control :=
  if bool_decide (sc_state c = STOP_TERMINAL) then c else c <| sc_state := STOP_CONTROL_LOST |>.

(** * The exchange *)

(** The operations of an exchange, with their payloads. *)
Inductive exec_operation :=
| OpStatus
| OpSubmit (sequence token argv timeout_ms : pyval)
| OpPoll (sequence token stdout_offset stderr_offset : pyval)
| OpAcknowledge (sequence token : pyval).

(** [_decode_exec_request], after the identity of the exchange was checked. *)
Definition decode_exec_operation (operation : string) (d : list (pystr * pyval)) : result exec_operation :=
  let invalid {A} (r : result A) : result unit := match r with Ok _ => Ok tt | Err _ => Err "invalid-frame" end in
  if String.eqb operation "status" then
    raise "invalid-frame" when negb (has_exactly [] d) ;; Ok OpStatus
  else if String.eqb operation "submit" then
    raise "invalid-frame" when negb (has_exactly [u "sequence"; u "token"; u "argv"; u "timeout_ms"] d) ;;
    let? _ := invalid (exec_identity (d.["sequence"]) (d.["token"])) in
    let? _ := invalid (validate_exec_request (d.["argv"]) (d.["timeout_ms"])) in
    Ok (OpSubmit (d.["sequence"]) (d.["token"]) (d.["argv"]) (d.["timeout_ms"]))
  else if String.eqb operation "poll" then
    raise "invalid-frame" when negb (has_exactly [u "sequence"; u "token"; u "stdout_offset"; u "stderr_offset"] d) ;;
    let? _ := invalid (exec_identity (d.["sequence"]) (d.["token"])) in
    let? _ := v_int_range (d.["stdout_offset"]) 0 65536 "invalid-frame" in
    let? _ := v_int_range (d.["stderr_offset"]) 0 65536 "invalid-frame" in
    Ok (OpPoll (d.["sequence"]) (d.["token"]) (d.["stdout_offset"]) (d.["stderr_offset"]))
  else if String.eqb operation "acknowledge" then
    raise "invalid-frame" when negb (has_exactly [u "sequence"; u "token"] d) ;;
    let? _ := invalid (exec_identity (d.["sequence"]) (d.["token"])) in
    Ok (OpAcknowledge (d.["sequence"]) (d.["token"]))
  else Err "invalid-frame".

(** What [_serve_exec_request] reads of the worker and of the lease. *)
Record worker_view := WorkerView { wk_failed : bool; wk_done : bool; wk_stop_accepted : bool; lease_phase : string }.

Definition perform (m : mailbox) (op : exec_operation) : mailbox * result pyval :=
  match op with
  | OpStatus => (m, Ok (status_value m))
  | OpSubmit sequence token argv timeout_ms => submit m sequence token argv timeout_ms
  | OpPoll sequence token out err => poll m sequence token out err
  | OpAcknowledge sequence token => acknowledge m sequence token
  end.

(** [_serve_exec_request], from the lock to the answer: [None] is a monitor
    without a worker. *)
Definition serve_exec_request (worker : option worker_view) (op : exec_operation) (m : mailbox) : mailbox * result pyval :=
  match worker with
  | None => (m, Err "not-ready")
  | Some w =>
      let live := String.eqb (lease_phase w) "ready" && negb (wk_failed w) && negb (wk_done w) && negb (wk_stop_accepted w) in
      let m := if wk_failed w then (close_to_exec m CONTROL_LOST).1
               else if String.eqb (lease_phase w) "terminal" then (close_to_exec m TERMINAL_STATE).1
               else if live then mark_ready m else m in
      match op with
      | OpSubmit _ _ _ _ =>
          raise "not-ready" when negb live from m ;;
          perform (mark_ready m) op
      | _ => perform m op
      end
  end.
