(* ===== verification/ExecControlFacts.v ===== *)
(** The mailbox of guest executions under any sequence of calls: its events, the
    transitions they make, and the invariant of a mailbox and its history. *)
From S2P Require Import Prelude Crypto PyStr PyVal Json Digest ControlV2Wire ExecControl.

(** * Calls and their events *)

(** The calls the monitor's threads make: exchanges of clients, and the
    lifecycle transport. *)
Inductive call :=
| CServe (worker : option worker_view) (op : exec_operation)
| CReady
| CClose (reason : mailbox_state)
| CTake
| CAppend (job : exec_job) (stream : exec_stream) (offset : Z) (data : bytes)
| CComplete (job : exec_job) (terminal : pyval) (stdout_bytes stderr_bytes : Z) (reason : pystr).

(** What a call accomplished. *)
Inductive exec_event :=
| Submitted (job : exec_job)
| Taken (job : exec_job)
| Appended (job : exec_job) (stream : exec_stream) (data : bytes)
| Completed (job : exec_job) (t : option terminal) (stdout_bytes stderr_bytes : Z) (reason : pystr)
| Acknowledged (sequence : Z) (token : pystr).

Definition operation_events (op : exec_operation) : list exec_event :=
  match op with
  | OpSubmit sequence token argv timeout_ms =>
      match exec_identity sequence token, validate_exec_request argv timeout_ms with
      | Ok id, Ok request => [Submitted (ExecJob id.1 id.2 request.1 request.2)]
      | _, _ => []
      end
  | OpAcknowledge sequence token => match exec_identity sequence token with Ok id => [Acknowledged id.1 id.2] | Err _ => [] end
  | _ => []
  end.

Definition apply_call (m : mailbox) (c : call) : mailbox * list exec_event :=
  match c with
  | CServe worker op => let ' (m, r) := serve_exec_request worker op m in (m, if is_ok r then operation_events op else [])
  | CReady => (mark_ready m, [])
  | CClose reason => ((close_to_exec m reason).1, [])
  | CTake => let ' (m, r) := take_exec m in (m, match r with Some job => [Taken job] | None => [] end)
  | CAppend job stream offset data =>
      let ' (m, r) := append_output m job stream offset data in (m, if is_ok r then [Appended job stream data] else [])
  | CComplete job terminal out err reason =>
      let ' (m, r) := complete m job terminal out err reason in
      (m, if is_ok r then [Completed job (exec_terminal terminal) out err reason] else [])
  end.

(** A mailbox and the events so far. *)
Definition system := (mailbox * list exec_event)%type.
Definition sys_call (x : system) (c : call) : system := let ' (m, evs) := apply_call x.1 c in (m, x.2 ++ evs).
Definition sys_run (x : system) (cs : list call) : system := foldl sys_call x cs.

Definition taken (h : list exec_event) : list exec_job := omap (fun e => match e with Taken j => Some j | _ => None end) h.
Definition appended (h : list exec_event) (job : exec_job) (stream : exec_stream) : bytes :=
  concat (map (fun e => match e with
                        | Appended j s d => if bool_decide (j = job /\ s = stream) then d else []
                        | _ => []
                        end) h).

(** * Transitions *)

Inductive transition (m : mailbox) : list exec_event -> mailbox -> Prop :=
| tr_state s : transition m [] (m <| mb_state := s |>)
| tr_lost : mb_job_state m = Some QUEUED \/ mb_job_state m = Some RUNNING ->
    transition m [] (m <| mb_job_state := Some JOB_LOST |> <| mb_reason := Some (u "control-lost") |>)
| tr_resubmit j : mb_job m = Some j -> transition m [Submitted j] m
| tr_submit j : mb_job m = None -> job_sequence j = mb_next m -> mb_next m <> MAX_EXEC_SEQUENCE ->
    transition m [Submitted j] (m <| mb_job := Some j |> <| mb_job_state := Some QUEUED |>)
| tr_take j : mb_job m = Some j -> mb_job_state m = Some QUEUED -> transition m [Taken j] (m <| mb_job_state := Some RUNNING |>)
| tr_append j s d : mb_job m = Some j -> mb_job_state m = Some RUNNING ->
    zlen (mb_stdout m) + zlen (mb_stderr m) + zlen d <= MAX_EXEC_OUTPUT -> transition m [Appended j s d] (extend_output m s d)
| tr_complete j t reason : mb_job m = Some j -> mb_job_state m = Some RUNNING ->
    transition m [Completed j t (zlen (mb_stdout m)) (zlen (mb_stderr m)) reason]
      (m <| mb_terminal := t |> <| mb_reason := Some reason |> <| mb_job_state := Some COMPLETED |>)
| tr_ack j : mb_job m = Some j -> mb_job_state m = Some COMPLETED ->
    transition m [Acknowledged (job_sequence j) (job_token j)]
      (Mailbox (mb_state m) (mb_next m + 1) None None [] [] None None (Some (job_sequence j, job_token j)))
| tr_reack s t : mb_last_ack m = Some (s, t) -> transition m [Acknowledged s t] m.

Inductive transitions : mailbox -> list exec_event -> mailbox -> Prop :=
| trs_nil m : transitions m [] m
| trs_cons m evs m' evs' m'' : transition m evs m' -> transitions m' evs' m'' -> transitions m (evs ++ evs') m''.

Lemma trs_one m evs m' : transition m evs m' -> transitions m evs m'.
Proof. intros H. rewrite <- (app_nil_r evs). eapply trs_cons; [exact H|constructor]. Qed.

Lemma trs_app m evs m' evs' m'' : transitions m evs m' -> transitions m' evs' m'' -> transitions m (evs ++ evs') m''.
Proof. induction 1 as [|m evs1 m1 evs2 m2 Hs _ IH]; intros H; [done|]. rewrite <- app_assoc. eapply trs_cons; [exact Hs|by apply IH]. Qed.

Lemma trs_silent m m' evs m'' : transitions m [] m' -> transitions m' evs m'' -> transitions m evs m''.
Proof. apply (trs_app m []). Qed.

Lemma mark_ready_tr m : transitions m [] (mark_ready m).
Proof. unfold mark_ready. case_bool_decide; [apply trs_one, tr_state|constructor]. Qed.

Lemma close_to_exec_tr m reason : transitions m [] (close_to_exec m reason).1.
Proof.
  unfold close_to_exec. destruct (negb _); [constructor|].
  set (m1 := if bool_decide (mb_state m ∈ _) then m else _).
  assert (transitions m [] m1) as H1 by (unfold m1; case_bool_decide; [constructor|apply trs_one, tr_state]).
  destruct (_ && _) eqn:E; [|done]. apply andb_true_iff in E as [_ E]. apply orb_true_iff in E.
  eapply trs_silent; [exact H1|]. apply trs_one, tr_lost. destruct E; [left|right]; by bool_norm.
Qed.

Lemma is_current_spec m id : is_current m id = true <-> exists j, mb_job m = Some j /\ id = (job_sequence j, job_token j).
Proof.
  unfold is_current. destruct (mb_job m) as [j|]; [|split; [done|intros (? & ? & _); done]].
  rewrite bool_decide_eq_true. split; [intros <-; by exists j|]. intros (j' & E & ->). by simplify_eq.
Qed.

Ltac exec_if := match goal with |- context [if ?b then _ else _] => let E := fresh "G" in destruct b eqn:E end.

(** An exchange makes the transition of its events. *)
Lemma perform_tr m op : let ' (m', r) := perform m op in transitions m (if is_ok r then operation_events op else []) m'.
Proof.
  destruct op as [|sequence token argv timeout|sequence token out err|sequence token]; cbn [perform operation_events].
  - constructor.
  - unfold submit. destruct (exec_identity sequence token) as [[s t]|e]; [|constructor].
    destruct (validate_exec_request argv timeout) as [[a ms]|e]; [|constructor]. cbn [fst snd].
    exec_if; [constructor|]. destruct (mb_job m) as [j|] eqn:Ej.
    + exec_if; [constructor|]. bool_norm. subst j. destruct (poll_value _ _ _); [|constructor]. by apply trs_one, tr_resubmit.
    + exec_if; [constructor|]. bool_norm. destruct (poll_value _ _ _) eqn:E; [by apply trs_one, tr_submit|].
      exfalso. revert E. unfold poll_value, offset_ok, v_int_range. cbn [mb_stdout mb_stderr mb_job setter].
      rewrite !(proj2 (Z.leb_le 0 _)) by (auto using zlen_nonneg with lia). done.
  - unfold poll. destruct (exec_identity sequence token) as [id|e]; [|constructor]. exec_if; [constructor|].
    destruct (poll_value _ _ _); constructor.
  - unfold acknowledge. destruct (exec_identity sequence token) as [[s t]|e]; [|constructor].
    exec_if; bool_norm; [by apply trs_one, tr_reack|]. exec_if; [constructor|]. exec_if; [constructor|]. bool_norm.
    apply is_current_spec in G0 as (j & Ej & [= -> ->]). by apply trs_one, (tr_ack m j).
Qed.

Lemma serve_tr worker op m : let ' (m', r) := serve_exec_request worker op m in
  transitions m (if is_ok r then operation_events op else []) m'.
Proof.
  unfold serve_exec_request. destruct worker as [w|]; [|constructor]. set (live := _ && negb (wk_stop_accepted w)).
  set (m1 := if wk_failed w then _ else _).
  assert (transitions m [] m1) as H1.
  { unfold m1. repeat case_match; try apply close_to_exec_tr; [apply mark_ready_tr|constructor]. }
  assert (forall op m2, transitions m [] m2 -> let ' (m', r) := perform m2 op in transitions m (if is_ok r then operation_events op else []) m') as Hp.
  { intros op' m2 H2. pose proof (perform_tr m2 op') as H. destruct (perform m2 op'). by eapply trs_silent. }
  destruct op; try by apply Hp. destruct (negb live); [done|]. apply Hp. eapply trs_silent; [exact H1|]. apply mark_ready_tr.
Qed.

Lemma apply_call_tr m c : (mb_job m = None -> mb_job_state m = None) -> transitions m (apply_call m c).2 (apply_call m c).1.
Proof.
  intros Hj. destruct c as [worker op| |reason| |job stream offset data|job t out err reason]; cbn [apply_call].
  - pose proof (serve_tr worker op m) as H. by destruct (serve_exec_request worker op m).
  - apply mark_ready_tr.
  - apply close_to_exec_tr.
  - unfold take_exec. exec_if; [constructor|]. bool_norm. destruct (mb_job m) as [j|] eqn:Ej; [by apply trs_one, tr_take|].
    rewrite Hj in * by done. done.
  - unfold append_output. exec_if; [constructor|]. exec_if; [constructor|]. bool_norm. by apply trs_one, tr_append.
  - unfold complete. exec_if; [constructor|]. exec_if; [constructor|]. exec_if; [constructor|]. bool_norm. subst.
    by apply trs_one, tr_complete.
Qed.

(** * The invariant *)

Definition completed (h : list exec_event) (j : exec_job) (t : option terminal) (out err : Z) (reason : pystr) : Prop :=
  Completed j t out err reason ∈ h.

(** The job of the mailbox, against the history. *)
Definition job_inv (m : mailbox) (h : list exec_event) : Prop :=
  match mb_job m, mb_job_state m with
  | None, None => mb_stdout m = [] /\ mb_stderr m = []
  | Some j, Some st =>
      job_sequence j = mb_next m /\ mb_next m < MAX_EXEC_SEQUENCE /\ Submitted j ∈ h /\
      match st with
      | QUEUED => j ∉ taken h
      | RUNNING => j ∈ taken h
      | COMPLETED => exists reason, mb_reason m = Some reason /\ completed h j (mb_terminal m) (zlen (mb_stdout m)) (zlen (mb_stderr m)) reason
      | JOB_LOST => True
      end
  | _, _ => False
  end.

Record sys_inv (x : system) : Prop := {
  i_next : 1 <= mb_next x.1 <= MAX_EXEC_SEQUENCE;
  i_job : job_inv x.1 x.2;
  i_sorted : StronglySorted Z.lt (map job_sequence (taken x.2));
  i_taken j : j ∈ taken x.2 -> Submitted j ∈ x.2 /\ (job_sequence j < mb_next x.1 \/ mb_job x.1 = Some j);
  i_appended j s : mb_next x.1 <= job_sequence j -> appended x.2 j s = if bool_decide (mb_job x.1 = Some j) then output_of x.1 s else [];
  i_completed j t out err reason : completed x.2 j t out err reason ->
    j ∈ taken x.2 /\ out = zlen (appended x.2 j STDOUT) /\ err = zlen (appended x.2 j STDERR) /\
    (job_sequence j < mb_next x.1 \/ mb_job x.1 = Some j /\ mb_job_state x.1 = Some COMPLETED);
  i_unique j t out err r t' out' err' r' : completed x.2 j t out err r -> completed x.2 j t' out' err' r' -> t = t' /\ out = out' /\ err = err' /\ r = r';
  i_size : zlen (mb_stdout x.1) + zlen (mb_stderr x.1) <= MAX_EXEC_OUTPUT;
  i_ack s t : mb_last_ack x.1 = Some (s, t) -> s < mb_next x.1;
}.

Lemma taken_app a b : taken (a ++ b) = taken a ++ taken b.
Proof. apply omap_app. Qed.

Lemma appended_app a b j s : appended (a ++ b) j s = appended a j s ++ appended b j s.
Proof. unfold appended. by rewrite map_app, concat_app. Qed.

Lemma completed_app a b j t out err r : completed (a ++ b) j t out err r <-> completed a j t out err r \/ completed b j t out err r.
Proof. apply elem_of_app. Qed.

(** An event that is neither a job taken, nor output, nor a completion. *)
Definition inert (e : exec_event) : Prop := match e with Submitted _ | Acknowledged _ _ => True | _ => False end.

Lemma inert_facts e h j s : inert e -> taken (h ++ [e]) = taken h /\ appended (h ++ [e]) j s = appended h j s /\
  (forall t out err r, completed (h ++ [e]) j t out err r <-> completed h j t out err r).
Proof.
  intros He. split; [rewrite taken_app|split; [rewrite appended_app|]]; destruct e; try done; cbn; rewrite ?app_nil_r; try done.
  all: intros; rewrite completed_app; unfold completed; rewrite list_elem_of_singleton; naive_solver.
Qed.

(** Only [mb_state], or nothing, changes. *)
Lemma inv_state m h s : sys_inv (m, h) -> sys_inv (m <| mb_state := s |>, h).
Proof. by intros []. Qed.

Lemma inv_inert m h e : sys_inv (m, h) -> inert e -> sys_inv (m, h ++ [e]).
Proof.
  intros [] He. cbn [fst snd] in *. pose proof (fun j s => inert_facts e h j s He) as Hf.
  assert (taken (h ++ [e]) = taken h) as Ht by apply (Hf (ExecJob 0 [] [] 0) STDOUT). split; cbn [fst snd]; try done.
  - unfold job_inv in *. destruct (mb_job m), (mb_job_state m) as [st|]; try done. destruct i_job0 as (? & ? & ? & Hst).
    split; [done|]. split; [done|]. split; [apply elem_of_app; by left|]. destruct st; rewrite ?Ht; try done.
    destruct Hst as (r & Er & Hc). exists r. split; [done|]. by apply (Hf e0 STDOUT).
  - by rewrite Ht.
  - intros j. rewrite Ht. intros [? ?]%i_taken0. split; [apply elem_of_app; by left|done].
  - intros j s. rewrite (proj1 (proj2 (Hf j s))). apply i_appended0.
  - intros j t out err r. rewrite (proj2 (proj2 (Hf j STDOUT))), Ht, (proj1 (proj2 (Hf j STDOUT))), (proj1 (proj2 (Hf j STDERR))). apply i_completed0.
  - intros j t out err r t' out' err' r'. rewrite !(proj2 (proj2 (Hf j STDOUT))). apply i_unique0.
Qed.

(** A completed job other than the one that runs is in the past. *)
Lemma completed_past m h j t out err r : sys_inv (m, h) -> mb_job_state m <> Some COMPLETED -> completed h j t out err r -> job_sequence j < mb_next m.
Proof. intros [] Hs Hc. apply i_completed0 in Hc as (_ & _ & _ & [H|[_ H]]); done. Qed.

Lemma inv_lost m h : sys_inv (m, h) -> mb_job_state m = Some QUEUED \/ mb_job_state m = Some RUNNING ->
  sys_inv (m <| mb_job_state := Some JOB_LOST |> <| mb_reason := Some (u "control-lost") |>, h).
Proof.
  intros Hi Hs. assert (mb_job_state m <> Some COMPLETED) as Hn by (destruct Hs; congruence).
  pose proof (completed_past m h) as Hp. destruct Hi as []. cbn [fst snd] in *. split; cbn [fst snd]; try done.
  - unfold job_inv in *. cbn [mb_job mb_job_state mb_next setter]. destruct (mb_job m), Hs as [E|E]; rewrite E in i_job0; naive_solver.
  - intros j t out err r Hc. pose proof (i_completed0 _ _ _ _ _ Hc) as (? & ? & ? & _). split_and!; try done. left.
    eapply Hp; [by split|done|done].
Qed.

Lemma inv_submit m h j : sys_inv (m, h) -> mb_job m = None -> job_sequence j = mb_next m -> mb_next m <> MAX_EXEC_SEQUENCE ->
  sys_inv (m <| mb_job := Some j |> <| mb_job_state := Some QUEUED |>, h ++ [Submitted j]).
Proof.
  intros Hi Hj Hs Hn. apply (inv_inert _ _ (Submitted j)) in Hi; [|done].
  assert (Submitted j ∈ h ++ [Submitted j]) as Hin by (apply elem_of_app; right; apply list_elem_of_singleton; done).
  set (h' := h ++ _) in *. clearbody h'. clear h.
  pose proof Hi as []. cbn [fst snd] in *. unfold job_inv in i_job0. rewrite Hj in *. destruct (mb_job_state m) eqn:Est; [done|].
  split; cbn [fst snd mb_job mb_job_state mb_next setter]; try done.
  - unfold job_inv. cbn [mb_job mb_job_state mb_next setter]. split_and!; [done|lia|done|]. intros [_ [?|?]]%i_taken0; [lia|done].
  - intros j' [? [?|?]]%i_taken0; [|done]. split; [done|by left].
  - intros j' s Hle. rewrite i_appended0 by done. cbn [mb_job setter output_of]. destruct i_job0 as [E1 E2].
    case_bool_decide; [done|]. case_bool_decide; [|done]. by destruct s; cbn.
  - intros j' t out err r Hc. pose proof (completed_past _ _ _ _ _ _ _ Hi ltac:(congruence) Hc).
    apply i_completed0 in Hc as (? & ? & ? & _). split_and!; try done. by left.
Qed.

Lemma StronglySorted_snoc {A} (R : A -> A -> Prop) l a : StronglySorted R l -> Forall (fun b => R b a) l -> StronglySorted R (l ++ [a]).
Proof.
  induction 1 as [|b l Hs IH Hb]; intros Ha; [by repeat constructor|]. inversion Ha; subst. cbn [app]. constructor; [by apply IH|].
  apply Forall_app. split; [done|]. by apply Forall_singleton.
Qed.

Lemma inv_take m h j : sys_inv (m, h) -> mb_job m = Some j -> mb_job_state m = Some QUEUED ->
  sys_inv (m <| mb_job_state := Some RUNNING |>, h ++ [Taken j]).
Proof.
  intros Hi Hj Hs. assert (forall i t out err r, completed (h ++ [Taken j]) i t out err r <-> completed h i t out err r) as Hc.
  { intros. rewrite completed_app. unfold completed. rewrite list_elem_of_singleton. naive_solver. }
  assert (forall i s, appended (h ++ [Taken j]) i s = appended h i s) as Ha by (intros; rewrite appended_app; cbn; by rewrite app_nil_r).
  assert (taken (h ++ [Taken j]) = taken h ++ [j]) as Ht by (by rewrite taken_app).
  pose proof (completed_past m h) as Hp. pose proof Hi as []. cbn [fst snd] in *. unfold job_inv in i_job0. rewrite Hj, Hs in i_job0.
  destruct i_job0 as (Hseq & Hmax & Hsub & Hnot).
  split; cbn [fst snd mb_job mb_job_state mb_next mb_stdout mb_stderr mb_last_ack setter]; try done.
  - unfold job_inv. cbn [mb_job mb_job_state mb_next setter]. rewrite Hj, Ht. split_and!; try done.
    + apply elem_of_app. by left.
    + apply elem_of_app. right. by apply list_elem_of_singleton.
  - rewrite Ht, map_app. apply StronglySorted_snoc; [done|]. apply Forall_map, Forall_forall. intros i Hin.
    destruct (i_taken0 i Hin) as [_ [Hlt|Heq]]; [lia|]. rewrite Hj in Heq. by simplify_eq.
  - intros i. rewrite Ht. intros [Hin|Hin]%elem_of_app.
    + destruct (i_taken0 i Hin) as [? ?]. split; [apply elem_of_app; by left|done].
    + apply list_elem_of_singleton in Hin as ->. split; [apply elem_of_app; by left|by right].
  - intros i s Hle. rewrite Ha, i_appended0 by done. done.
  - intros i t out err r Hc'%Hc. rewrite Ht, !Ha. pose proof (Hp _ _ _ _ _ Hi ltac:(congruence) Hc').
    apply i_completed0 in Hc' as (? & ? & ? & _). split_and!; try done; [apply elem_of_app; by left|by left].
  - intros i t out err r t' out' err' r'. rewrite !Hc. apply i_unique0.
Qed.

Lemma inv_append m h j s d : sys_inv (m, h) -> mb_job m = Some j -> mb_job_state m = Some RUNNING ->
  zlen (mb_stdout m) + zlen (mb_stderr m) + zlen d <= MAX_EXEC_OUTPUT -> sys_inv (extend_output m s d, h ++ [Appended j s d]).
Proof.
  intros Hi Hj Hs Hsize. assert (forall j' t out err r, completed (h ++ [Appended j s d]) j' t out err r <-> completed h j' t out err r) as Hc.
  { intros. rewrite completed_app. unfold completed. rewrite list_elem_of_singleton. naive_solver. }
  assert (forall i s', appended (h ++ [Appended j s d]) i s' = appended h i s' ++ if bool_decide (j = i /\ s = s') then d else []) as Ha.
  { intros. rewrite appended_app. unfold appended at 2. cbn. by rewrite app_nil_r. }
  assert (taken (h ++ [Appended j s d]) = taken h) as Ht by (rewrite taken_app; cbn; by rewrite app_nil_r).
  pose proof (completed_past m h) as Hp. pose proof Hi as []. cbn [fst snd] in *. unfold job_inv in i_job0. rewrite Hj, Hs in i_job0.
  destruct i_job0 as (Hseq & Hmax & Hsub & Hin).
  assert (mb_next (extend_output m s d) = mb_next m /\ mb_job (extend_output m s d) = Some j /\ mb_job_state (extend_output m s d) = Some RUNNING /\
          mb_last_ack (extend_output m s d) = mb_last_ack m) as (E1 & E2 & E3 & E4) by (destruct s; cbn; done).
  split; cbn [fst snd]; rewrite ?E1, ?E2, ?E3, ?E4, ?Ht; try done.
  - unfold job_inv. rewrite E1, E2, E3, Ht. split_and!; try done. apply elem_of_app. by left.
  - intros i Hi'. destruct (i_taken0 i Hi') as [? Hor]. rewrite Hj in Hor. split; [apply elem_of_app; by left|done].
  - intros i s' Hle. rewrite Ha, i_appended0 by done. rewrite Hj. case_bool_decide as Hd.
    + simplify_eq. destruct s, s'; cbn; case_bool_decide; try done; naive_solver (by rewrite app_nil_r).
    + rewrite bool_decide_eq_false_2; [done|]. intros [-> _]. done.
  - intros i t out err r Hc'%Hc. pose proof (Hp _ _ _ _ _ Hi ltac:(congruence) Hc') as Hlt.
    assert (forall s', appended (h ++ [Appended j s d]) i s' = appended h i s') as Ha'.
    { intros s'. rewrite Ha, bool_decide_eq_false_2, app_nil_r; [done|]. intros [-> _]. lia. }
    rewrite !Ha'. apply i_completed0 in Hc' as (? & ? & ? & _). split_and!; try done. by left.
  - intros i t out err r t' out' err' r'. rewrite !Hc. apply i_unique0.
  - destruct s; cbn; rewrite zlen_app; lia.
Qed.

Lemma inv_complete m h j t r : sys_inv (m, h) -> mb_job m = Some j -> mb_job_state m = Some RUNNING ->
  sys_inv (m <| mb_terminal := t |> <| mb_reason := Some r |> <| mb_job_state := Some COMPLETED |>,
           h ++ [Completed j t (zlen (mb_stdout m)) (zlen (mb_stderr m)) r]).
Proof.
  intros Hi Hj Hs. set (e := Completed _ _ _ _ _).
  assert (forall i s, appended (h ++ [e]) i s = appended h i s) as Ha by (intros; rewrite appended_app; cbn; by rewrite app_nil_r).
  assert (taken (h ++ [e]) = taken h) as Ht by (rewrite taken_app; cbn; by rewrite app_nil_r).
  assert (forall i t' out err r', completed (h ++ [e]) i t' out err r' <-> completed h i t' out err r' \/
    i = j /\ t' = t /\ out = zlen (mb_stdout m) /\ err = zlen (mb_stderr m) /\ r' = r) as Hc.
  { intros. rewrite completed_app. unfold completed at 2. rewrite list_elem_of_singleton. unfold e. naive_solver. }
  pose proof (completed_past m h) as Hp. pose proof Hi as []. cbn [fst snd] in *. unfold job_inv in i_job0. rewrite Hj, Hs in i_job0.
  destruct i_job0 as (Hseq & Hmax & Hsub & Hin).
  assert (forall i t' out err r', completed h i t' out err r' -> i <> j) as Hne.
  { intros i t' out err r' Hc' ->. pose proof (Hp _ _ _ _ _ Hi ltac:(congruence) Hc'). lia. }
  assert (forall s, appended h j s = output_of m s) as Hout by (intros s; rewrite i_appended0 by lia; by rewrite Hj, bool_decide_eq_true_2).
  split; cbn [fst snd mb_job mb_job_state mb_next mb_stdout mb_stderr mb_last_ack setter]; rewrite ?Ht; try done.
  - unfold job_inv. cbn [mb_job mb_job_state mb_next mb_reason mb_terminal mb_stdout mb_stderr setter]. rewrite Hj.
    split_and!; try done; [apply elem_of_app; by left|]. exists r. split; [done|]. apply Hc. by right.
  - intros i Hi'. destruct (i_taken0 i Hi') as [? ?]. split; [apply elem_of_app; by left|done].
  - intros i s Hle. rewrite Ha, i_appended0 by done. done.
  - intros i t' out err r' [Hc'|(-> & -> & -> & -> & ->)]%Hc; rewrite !Ha.
    + pose proof (Hp _ _ _ _ _ Hi ltac:(congruence) Hc'). apply i_completed0 in Hc' as (? & ? & ? & _). split_and!; try done. by left.
    + rewrite !Hout. split_and!; try done. by right.
  - intros i t1 out1 err1 r1 t2 out2 err2 r2 [H1|H1]%Hc [H2|H2]%Hc; [by eapply i_unique0| | |naive_solver].
    + destruct H2 as [-> _]. by apply Hne in H1.
    + destruct H1 as [-> _]. by apply Hne in H2.
Qed.

Lemma inv_ack m h j : sys_inv (m, h) -> mb_job m = Some j -> mb_job_state m = Some COMPLETED ->
  sys_inv (Mailbox (mb_state m) (mb_next m + 1) None None [] [] None None (Some (job_sequence j, job_token j)),
           h ++ [Acknowledged (job_sequence j) (job_token j)]).
Proof.
  intros Hi Hj Hs. apply (inv_inert _ _ (Acknowledged (job_sequence j) (job_token j))) in Hi; [|done].
  set (h' := h ++ _) in *. clearbody h'. clear h. pose proof Hi as []. cbn [fst snd] in *. unfold job_inv in i_job0. rewrite Hj, Hs in *.
  destruct i_job0 as (Hseq & Hmax & Hsub & Hin).
  split; cbn [fst snd mb_job mb_job_state mb_next mb_stdout mb_stderr mb_last_ack]; try done.
  - lia.
  - intros i Hi'. destruct (i_taken0 i Hi') as [? Hor]. split; [done|]. left. destruct Hor as [?|?]; [lia|simplify_eq; lia].
  - intros i s Hle. rewrite i_appended0 by lia. rewrite !bool_decide_eq_false_2; [done|done|]. intros ?. simplify_eq. lia.
  - intros i t out err r Hc. apply i_completed0 in Hc as (? & ? & ? & Hor). split_and!; try done. left.
    destruct Hor as [?|[? _]]; [lia|simplify_eq; lia].
  - intros s t [= <- <-]. lia.
Qed.

Lemma transition_inv m h evs m' : transition m evs m' -> sys_inv (m, h) -> sys_inv (m', h ++ evs).
Proof.
  destruct 1; intros Hi; rewrite ?app_nil_r.
  - by apply inv_state.
  - by apply inv_lost.
  - by apply inv_inert.
  - by apply inv_submit.
  - by apply inv_take.
  - by apply inv_append.
  - by apply inv_complete.
  - by apply inv_ack.
  - by apply inv_inert.
Qed.

Lemma transitions_inv m h evs m' : transitions m evs m' -> sys_inv (m, h) -> sys_inv (m', h ++ evs).
Proof.
  intros H. revert h. induction H as [|m evs m' evs' m'' Hs _ IH]; intros h Hi; [by rewrite app_nil_r|].
  rewrite app_assoc. apply IH. by eapply transition_inv.
Qed.

Lemma job_state_of m h : job_inv m h -> mb_job m = None -> mb_job_state m = None.
Proof. unfold job_inv. intros H E. rewrite E in H. by destruct (mb_job_state m). Qed.

Lemma sys_call_inv x c : sys_inv x -> sys_inv (sys_call x c).
Proof.
  destruct x as [m h]. intros Hi. unfold sys_call. cbn [fst snd]. pose proof (apply_call_tr m c) as H.
  destruct (apply_call m c) as [m' evs]. cbn [fst snd] in H. eapply transitions_inv; [apply H|done].
  intros E. eapply job_state_of; [apply Hi|done].
Qed.

Lemma sys_run_inv x cs : sys_inv x -> sys_inv (sys_run x cs).
Proof. revert x. induction cs as [|c cs IH]; intros x Hi; [done|]. apply IH. by apply sys_call_inv. Qed.

Lemma sys_init_inv : sys_inv (mailbox_init, []).
Proof. split; cbn; try done; try (by intros; rewrite ?bool_decide_eq_false_2); try (intros; by apply not_elem_of_nil in H). by constructor. Qed.
