(* ===== verification/ExecSession.v ===== *)
(** The client of the mailbox: one noninteractive execution in the guest
    ([OCIExecProcessSession] of [oci_exec_session.py]).  Its generator is a machine
    suspended where the code yields; the monitor, the clock and the record writer
    are the operations of [ExecWorld]. *)
From S2P Require Import Prelude Crypto PyStr PyVal Json Digest ControlV2Wire ExecControl.

(** * Results *)

(** [ProcessExit]: the return code, the exit code, the signal; its category is
    determined by which of the two is given. *)
Record process_exit := ProcessExit { pe_returncode : Z; pe_exit_code : option Z; pe_signal : option Z }.
#[export] Instance process_exit_eq_dec : EqDecision process_exit.
Proof. solve_decision. Defined.

Definition process_exit_of (t : terminal) : process_exit :=
  ProcessExit (match t_exit_code t, t_signal t with
               | Some code, _ => code
               | None, Some number => - number
               | None, None => 0
               end) (t_exit_code t) (t_signal t).

Inductive process_event :=
| ProcessOutput (stream : exec_stream) (data : bytes)
| ProcessStatus (result : process_exit).

(** [OCIExecCompletionObservation]; [ob_confirmed] is [acknowledgement == "confirmed"]. *)
Record observation := Observation {
  ob_terminal : option process_exit;
  ob_reason : pystr;
  ob_stdout_bytes : Z;
  ob_stderr_bytes : Z;
  ob_confirmed : bool;
}.
#[export] Instance observation_eta : Eta observation := fun o =>
  Observation (ob_terminal o) (ob_reason o) (ob_stdout_bytes o) (ob_stderr_bytes o) (ob_confirmed o).

(** [__post_init__] *)
Definition observation_init (t : option process_exit) (reason : pystr) (out err : Z) (confirmed : bool) : result observation :=
  raise "OCI exec completion observation reason is invalid" when negb (bool_decide (reason ∈ COMPLETION_REASONS)) ;;
  raise "OCI exec completion observation output bounds are invalid"
    when (out <? 0) || (err <? 0) || (MAX_EXEC_OUTPUT <? out + err) ;;
  match t with
  | None =>
      raise "OCI exec completion observation terminal is invalid"
        when negb (bool_decide (reason = u "cancelled")) || negb (out =? 0) || negb (err =? 0) ;;
      Ok (Observation t reason out err confirmed)
  | Some p =>
      raise "OCI exec completion observation terminal is invalid"
        when negb match pe_exit_code p, pe_signal p with
                  | Some code, None => (0 <=? code) && (code <=? 255)
                  | None, Some number => (1 <=? number) && (number <=? 64)
                  | _, _ => false
                  end ;;
      Ok (Observation t reason out err confirmed)
  end.

(** * Status *)

Record exec_status := ExecStatus { st_state : mailbox_state; st_next_sequence : Z; st_occupied : bool }.

Definition mailbox_state_of (s : pystr) : option mailbox_state :=
  List.find (fun k => bool_decide (s = u (mailbox_state_name k))) [NOT_READY; READY_STATE; STOPPING; TERMINAL_STATE; CONTROL_LOST].

Definition validate_exec_status (value : pyval) : result exec_status :=
  let invalid := "OCI exec mailbox status is invalid" in
  match value with
  | VDict d =>
      raise invalid when negb (has_exactly [u "state"; u "next_sequence"; u "occupied"] d) ;;
      match d.["state"] with
      | VStr s =>
          match mailbox_state_of s with
          | None => Err invalid
          | Some state =>
              let? next := v_int_range (d.["next_sequence"]) 1 MAX_EXEC_SEQUENCE invalid in
              match d.["occupied"] with VBool b => Ok (ExecStatus state next b) | _ => Err invalid end
          end
      | _ => Err invalid
      end
  | _ => Err invalid
  end.

Definition require_ready (s : exec_status) : result unit :=
  match st_state s with
  | NOT_READY => Err "OCI exec is not ready"
  | STOPPING => Err "OCI exec is unavailable while the run is stopping"
  | TERMINAL_STATE => Err "OCI exec is unavailable because the run has ended"
  | CONTROL_LOST => Err "OCI exec control was lost"
  | READY_STATE => if st_occupied s then Err "OCI exec is occupied" else Ok tt
  end.

(** * The session *)

(** The operations of the system: [_fork] is [os.getpid() != self._pid], a request
    goes through [MonitorClient.exec_request] (which raises when the deadline is
    past), the writer is the [OCIExecRecordWriter]. *)
Class ExecWorld (W : Type) := {
  forked : W -> bool;
  new_token : W -> W * pystr;
  client_open : W -> W * result unit;
  client_request : W -> string -> list (pystr * pyval) -> W * result pyval;
  client_close : W -> W;
  idle_sleep : W -> W * result unit;
  publish_observed : W -> observation -> W * result unit;
  publish_confirmed : W -> observation -> W * result unit;
  writer_close : W -> W;
}.

(** The completion kept by [_decode]: terminal, reason, sizes. *)
Definition evidence := (option terminal * pystr * Z * Z)%type.

Inductive iter_phase := ItStarted | ItLooping | ItStdout (lost : bool) (stderr : bytes) | ItStderr (lost : bool) | ItStatus | ItEnded.

Record session := Session {
  x_recording : bool;
  x_writer : bool;
  x_client : bool;
  x_closed : bool;
  x_consumed : bool;
  x_result : option process_exit;
  x_stdout : Z;
  x_stderr : Z;
  x_sizes : Z * Z;
  x_phase : Z;
  x_terminal : option evidence;
  x_observed : option observation;
  x_token : pystr;
  x_sequence : Z;
  x_iter : option iter_phase;
}.
#[export] Instance session_eta : Eta session := fun s =>
  Session (x_recording s) (x_writer s) (x_client s) (x_closed s) (x_consumed s) (x_result s) (x_stdout s) (x_stderr s) (x_sizes s)
    (x_phase s) (x_terminal s) (x_observed s) (x_token s) (x_sequence s) (x_iter s).

Definition identity_fields (s : session) : list (pystr * pyval) :=
  [(u "sequence", VInt (x_sequence s)); (u "token", VStr (x_token s))].

(** ** [_decode] *)

(** [bytes.fromhex]: white space is skipped before each pair of digits. *)
Definition ascii_space (c : Z) : bool := ((9 <=? c) && (c <=? 13)) || (c =? 32).
Fixpoint bytes_fromhex (s : pystr) : option bytes :=
  match s with
  | [] => Some []
  | c :: s =>
      if ascii_space c then bytes_fromhex s
      else match s with
           | l :: s =>
               match hex_value c, hex_value l, bytes_fromhex s with
               | Some h, Some l, Some b => Some (16 * h + l :: b)
               | _, _, _ => None
               end
           | [] => None
           end
  end.

Definition phase_of (state : pystr) : option Z :=
  if bool_decide (state = u "queued") then Some 0
  else if bool_decide (state = u "running") then Some 1
  else if bool_decide (state = u "completed") then Some 2
  else if bool_decide (state = u "control-lost") then Some 3
  else None.

(** One turn of the loop over the two streams: its fields and what it delivers. *)
Definition decode_stream (d : list (pystr * pyval)) (hex_key size_key offset_key : string) (offset previous : Z) : result (bytes * Z) :=
  let changed := "OCI exec output bounds changed" in
  let? size := v_int_range (d.[size_key]) previous MAX_EXEC_OUTPUT changed in
  let? _ := v_int_range (d.[offset_key]) offset offset changed in
  match d.[hex_key] with
  | VStr encoded =>
      raise changed when MAX_EXEC_CHUNK * 2 <? zlen encoded ;;
      match bytes_fromhex encoded with
      | None => Err "OCI exec output encoding is invalid"
      | Some data =>
          raise "OCI exec output offset changed"
            when negb (bool_decide (hex data = encoded)) || negb (zlen data =? Z.min MAX_EXEC_CHUNK (size - offset)) ;;
          Ok (data, size)
      end
  | _ => Err changed
  end.

(** [value["reason"] in {...}]: a list or a dict is not hashable. *)
Definition reason_in (reason : pyval) (reasons : list pystr) (error : string) : result pystr :=
  match reason with
  | VStr s => if bool_decide (s ∈ reasons) then Ok s else Err error
  | VList _ | VDict _ => Err "TypeError: unhashable type"
  | _ => Err error
  end.

(** The evidence of a completed job, or nothing for a pending one. *)
Definition decode_completion (d : list (pystr * pyval)) (state : pystr) (out err : Z) : result (option evidence) :=
  let terminal := d.["terminal"] in
  if bool_decide (state = u "completed") then
    raise "OCI exec terminal is invalid"
      when (if is_none terminal
            then negb (py_eqb (d.["reason"]) (VStr (u "cancelled"))) || negb (out =? 0) || negb (err =? 0)
            else bool_decide (exec_terminal terminal = None)) ;;
    let? reason := reason_in (d.["reason"]) COMPLETION_REASONS "OCI exec completion reason is invalid" in
    Ok (Some (exec_terminal terminal, reason, out, err))
  else
    let pending := "OCI exec pending result is invalid" in
    raise pending when negb (is_none terminal) ;;
    if bool_decide (state = u "control-lost") then let? _ := reason_in (d.["reason"]) [u "control-lost"] pending in Ok None
    else match d.["reason"] with
         | VNone => Ok None
         | VList _ | VDict _ => Err "TypeError: unhashable type"
         | _ => Err pending
         end.

Definition RESULT_FIELDS : list pystr :=
  [u "sequence"; u "token"; u "state"; u "stdout_offset"; u "stderr_offset"; u "stdout_hex"; u "stderr_hex"; u "stdout_size";
   u "stderr_size"; u "terminal"; u "reason"].

Definition decode (s : session) (value : pyval) : result (session * bytes * bytes) :=
  let changed := "OCI exec result identity changed" in
  match value with
  | VDict d =>
      raise changed when negb (has_exactly RESULT_FIELDS d) ;;
      let? _ := v_int_range (d.["sequence"]) (x_sequence s) (x_sequence s) changed in
      raise changed when negb (py_eqb (d.["token"]) (VStr (x_token s))) ;;
      match d.["state"] with
      | VStr state =>
          match phase_of state with
          | None => Err changed
          | Some phase =>
              raise changed when phase <? x_phase s ;;
              let? stdout := decode_stream d "stdout_hex" "stdout_size" "stdout_offset" (x_stdout s) (x_sizes s).1 in
              let? stderr := decode_stream d "stderr_hex" "stderr_size" "stderr_offset" (x_stderr s) (x_sizes s).2 in
              raise "OCI exec output limit exceeded" when MAX_EXEC_OUTPUT <? stdout.2 + stderr.2 ;;
              let? completion := decode_completion d state stdout.2 stderr.2 in
              raise "OCI exec terminal changed"
                when match completion, x_terminal s with
                     | Some e, Some previous => negb (bool_decide (e = previous))
                     | _, _ => false
                     end ;;
              let s := match completion with Some e => s <| x_terminal := Some e |> | None => s end in
              Ok (s <| x_phase := phase |> <| x_sizes := (stdout.2, stderr.2) |>, stdout.1, stderr.1)
          end
      | _ => Err changed
      end
  | _ => Err changed
  end.

(** ** Requests, construction, end *)

Section session.
Context {W : Type} `{ExecWorld W}.

Definition session_dead (s : session) (w : W) : bool := x_closed s || forked w.

(** [_request] *)
Definition session_request (s : session) (w : W) (operation : string) (payload : list (pystr * pyval)) : W * result pyval :=
  raise "OCI exec session is closed" when session_dead s w from w ;;
  client_request w operation payload.

(** [close] *)
Definition session_close (s : session) (w : W) : session * W :=
  let w := if x_client s then client_close w else w in
  let w := if x_writer s then writer_close w else w in
  (s <| x_closed := true |> <| x_client := false |> <| x_writer := false |>, w).

Definition submit_fields (s : session) (argv : list pystr) (timeout_ms : Z) : list (pystr * pyval) :=
  identity_fields s ++ [(u "argv", VList (map VStr argv)); (u "timeout_ms", VInt timeout_ms)].

(** The body of [__init__] after its fields are set. *)
Definition session_open (s : session) (w : W) (argv timeout_ms : pyval) : session * W * result unit :=
  let? request := validate_exec_request argv timeout_ms from (s, w) in
  let ' (w, token) := new_token w in
  let s := s <| x_token := token |> in
  let ' (w, r) := client_open w in
  let? _ := r from (s, w) in
  let s := s <| x_client := true |> in
  let ' (w, r) := session_request s w "status" [] in
  let? value := r from (s, w) in
  let? status := validate_exec_status value from (s, w) in
  let? _ := require_ready status from (s, w) in
  let s := s <| x_sequence := st_next_sequence status |> in
  let ' (w, r) := session_request s w "submit" (submit_fields s request.1 request.2) in
  let? value := r from (s, w) in
  let? decoded := decode s value from (s, w) in
  (decoded.1.1, w, Ok tt).

Definition session_init (w : W) (argv timeout_ms : pyval) (writer : bool) : session * W * result unit :=
  let s := Session writer writer false false false None 0 0 (0, 0) 0 None None [] 0 None in
  match session_open s w argv timeout_ms with
  | (s, w, Ok _) => (s, w, Ok tt)
  | (s, w, Err e) => let ' (s, w) := session_close s w in (s, w, Err e)
  end.

(** ** [_iterate] *)

Inductive resumption := Yield (e : process_event) | Return | Raise (e : string) | Polling.

(** [except BaseException]: a recording session closes at once. *)
Definition iter_fail (s : session) (w : W) (e : string) : session * W * resumption :=
  let ' (s, w) := if x_recording s then session_close s w else (s, w) in
  (s <| x_iter := Some ItEnded |>, w, Raise e).

(** [self.close()] before a recording error is raised *)
Definition recording_fail (s : session) (w : W) (e : string) : session * W * resumption :=
  let ' (s, w) := session_close s w in iter_fail s w e.

(** The acknowledgement: the exception of any of its steps. *)
Definition acknowledge_completion (s : session) (w : W) : W * result unit :=
  let ' (w, r) := session_request s w "acknowledge" (identity_fields s) in
  let? value := r from w in
  let? status := validate_exec_status value from w in
  raise "OCI exec acknowledgement identity changed" when negb (st_next_sequence status =? x_sequence s + 1) from w ;;
  (w, Ok tt).

(** The completion, once everything was delivered. *)
Definition finish (s : session) (w : W) (e : evidence) : session * W * resumption :=
  let ' (t, reason, out, err) := e in
  if session_dead s w then iter_fail s w "OCI exec session is closed"
  else
    let result := process_exit_of <$> t in
    match observation_init result reason out err false with
    | Err error => iter_fail s w error
    | Ok o =>
        let s := s <| x_observed := Some o |> in
        let ' (w, r) := if x_writer s then publish_observed w o else (w, Ok tt) in
        match r with
        | Err _ => recording_fail s w "OCI exec completion recording failed before acknowledgement"
        | Ok _ =>
            let ' (w, r) := acknowledge_completion s w in
            match r with
            | Err _ => iter_fail s w "OCI exec terminal observed but acknowledgement is unconfirmed"
            | Ok _ =>
                let o := o <| ob_confirmed := true |> in
                let s := s <| x_observed := Some o |> in
                let ' (w, r) := if x_writer s then publish_confirmed w o else (w, Ok tt) in
                match r with
                | Err _ => recording_fail s w "OCI exec completion recording failed after validated acknowledgement"
                | Ok _ =>
                    let ' (s, w) := session_close s w in
                    if negb (bool_decide (reason = u "completed")) then iter_fail s w "OCI exec did not complete"
                    else match result with
                         | None => iter_fail s w "AssertionError"
                         | Some p => (s <| x_result := Some p |> <| x_iter := Some ItStatus |>, w, Yield (ProcessStatus p))
                         end
                end
            end
        end
    end.

(** After the output of a turn was yielded: [None] goes on to the next turn. *)
Definition settle (s : session) (w : W) (lost : bool) : session * W * option resumption :=
  if lost then let ' (s, w, r) := iter_fail s w "OCI exec control was lost" in (s, w, Some r)
  else match x_terminal s with
       | Some e =>
           if bool_decide ((x_stdout s, x_stderr s) = x_sizes s)
           then let ' (s, w, r) := finish s w e in (s, w, Some r) else (s, w, None)
       | None => (s, w, None)
       end.

Definition yield_stderr (s : session) (w : W) (lost : bool) (stderr : bytes) : session * W * option resumption :=
  match stderr with
  | _ :: _ => (s <| x_iter := Some (ItStderr lost) |>, w, Some (Yield (ProcessOutput STDERR stderr)))
  | [] => settle s w lost
  end.

Definition poll_fields (s : session) : list (pystr * pyval) :=
  identity_fields s ++ [(u "stdout_offset", VInt (x_stdout s)); (u "stderr_offset", VInt (x_stderr s))].

(** The [while] loop; [fuel] bounds the polls that bring nothing. *)
Fixpoint iter_loop (fuel : nat) (s : session) (w : W) : session * W * resumption :=
  match fuel with
  | O => (s <| x_iter := Some ItLooping |>, w, Polling)
  | S fuel =>
      let ' (w, r) := session_request s w "poll" (poll_fields s) in
      match r with
      | Err e => iter_fail s w e
      | Ok value =>
          match decode s value with
          | Err e => iter_fail s w e
          | Ok (s, stdout, stderr) =>
              let s := s <| x_stdout := x_stdout s + zlen stdout |> <| x_stderr := x_stderr s + zlen stderr |> in
              let lost := x_phase s =? 3 in
              match stdout with
              | _ :: _ => (s <| x_iter := Some (ItStdout lost stderr) |>, w, Yield (ProcessOutput STDOUT stdout))
              | [] =>
                  match yield_stderr s w lost stderr with
                  | (s, w, Some r) => (s, w, r)
                  | (s, w, None) =>
                      let ' (w, r) := idle_sleep w in
                      match r with Err e => iter_fail s w e | Ok _ => iter_loop fuel s w end
                  end
              end
          end
      end
  end.

Definition session_next (fuel : nat) (s : session) (w : W) : session * W * resumption :=
  let continue x := match x with (s, w, Some r) => (s, w, r) | (s, w, None) => iter_loop fuel s w end in
  match x_iter s with
  | None | Some ItEnded => (s, w, Return)
  | Some ItStarted | Some ItLooping => iter_loop fuel s w
  | Some (ItStdout lost stderr) =>
      if session_dead s w then iter_fail s w "OCI exec session is closed" else continue (yield_stderr s w lost stderr)
  | Some (ItStderr lost) =>
      if session_dead s w then iter_fail s w "OCI exec session is closed" else continue (settle s w lost)
  | Some ItStatus => (s <| x_iter := Some ItEnded |>, w, Return)
  end.

Definition session_events (s : session) (w : W) : session * result unit :=
  raise "OCI exec session is closed or already consumed" when x_consumed s || session_dead s w from s ;;
  (s <| x_consumed := true |> <| x_iter := Some ItStarted |>, Ok tt).

(** The [for] loop of [wait]; [rounds] bounds the events, [fuel] the polls of each. *)
Fixpoint drain (rounds fuel : nat) (s : session) (w : W) : session * W * result unit :=
  match rounds with
  | O => (s, w, Err "RecursionError")
  | S rounds =>
      match session_next fuel s w with
      | (s, w, Yield _) => drain rounds fuel s w
      | (s, w, Return) => (s, w, Ok tt)
      | (s, w, Raise e) => (s, w, Err e)
      | (s, w, Polling) => drain rounds fuel s w
      end
  end.

Definition session_wait (rounds fuel : nat) (s : session) (w : W) : session * W * result (option process_exit) :=
  match x_result s with
  | Some p => (s, w, Ok (Some p))
  | None =>
      if x_consumed s then (s, w, Err "OCI exec events are still active")
      else
        let ' (s, r) := session_events s w in
        match r with
        | Err e => (s, w, Err e)
        | Ok _ =>
            let ' (s, w, r) := drain rounds fuel s w in
            (s, w, match r with Ok _ => Ok (x_result s) | Err e => Err e end)
        end
  end.
End session.
