(* ===== verification/ExecSessionFacts.v ===== *)
(** The client of the mailbox against the mailbox: what an exchange returns,
    what a reply decodes to, and what the rest of the system leaves in place. *)
From S2P Require Import Prelude Crypto PyStr PyVal Json Digest ControlV2Wire ControlV2Message ExecControl ExecControlFacts ExecSession.

(** * Decoding a reply of the mailbox *)

Definition reply_dict (sq tk st so se sh eh ss es t r : pyval) : list (pystr * pyval) :=
  [(u "sequence", sq); (u "token", tk); (u "state", st); (u "stdout_offset", so); (u "stderr_offset", se); (u "stdout_hex", sh);
   (u "stderr_hex", eh); (u "stdout_size", ss); (u "stderr_size", es); (u "terminal", t); (u "reason", r)].

Lemma reply_dict_fields sq tk st so se sh eh ss es t r : let d := reply_dict sq tk st so se sh eh ss es t r in
  has_exactly RESULT_FIELDS d = true /\ d.["sequence"] = sq /\ d.["token"] = tk /\ d.["state"] = st /\ d.["stdout_offset"] = so /\
  d.["stderr_offset"] = se /\ d.["stdout_hex"] = sh /\ d.["stderr_hex"] = eh /\ d.["stdout_size"] = ss /\ d.["stderr_size"] = es /\
  d.["terminal"] = t /\ d.["reason"] = r.
Proof. split; [by vm_compute|]. split_and!; by vm_compute. Qed.

Lemma hex_digit_space n : 0 <= n < 16 -> ascii_space (hex_digit n) = false.
Proof.
  intros Hn. unfold ascii_space, hex_digit. destruct (Z.ltb_spec n 10); apply orb_false_iff;
    (split; [apply andb_false_iff|apply Z.eqb_neq; lia]); right; apply Z.leb_gt; lia.
Qed.

Lemma bytes_fromhex_hex b : Forall is_byte b -> bytes_fromhex (hex b) = Some b.
Proof.
  induction 1 as [|x b Hx _ IH]; [done|]. unfold is_byte in Hx.
  assert (0 <= x / 16 < 16 /\ 0 <= x mod 16 < 16) as [H1 H2] by (Z.div_mod_to_equations; lia).
  change (hex (x :: b)) with (hex_digit (x / 16) :: hex_digit (x mod 16) :: hex b). cbn [bytes_fromhex].
  rewrite hex_digit_space, !hex_value_digit, IH by done. do 2 f_equal. pose proof (Z.div_mod x 16). lia.
Qed.

Lemma phase_of_job st : phase_of (u (job_state_name st)) = Some (match st with QUEUED => 0 | RUNNING => 1 | COMPLETED => 2 | JOB_LOST => 3 end).
Proof. destruct st; by vm_compute. Qed.

Lemma exec_terminal_value t t' : exec_terminal (terminal_value t) = Some t' -> t' = t.
Proof.
  unfold exec_terminal, terminal_value. replace (has_exactly _ _) with true by (by vm_compute).
  assert (forall a b, [(u "exit_code", a); (u "signal", b)].["exit_code"] = a /\ [(u "exit_code", a); (u "signal", b)].["signal"] = b) as Hd
    by (intros; split; by vm_compute).
  rewrite (proj1 (Hd _ _)), (proj2 (Hd _ _)). destruct t as [[c|] [n|]]; cbn [t_exit_code t_signal opt_int]; try done.
  - destruct (_ && _); [|done]. intros E. by simplify_eq.
  - destruct (_ && _); [|done]. intros E. by simplify_eq.
Qed.

Lemma offset_ok_Ok z out a : offset_ok (VInt z) out = Ok a -> a = z.
Proof. unfold offset_ok. intros [[= ->] _]%v_int_range_Ok. done. Qed.

(** The reply of a poll. *)
Lemma poll_value_Ok m j so se v : mb_job m = Some j -> poll_value m (VInt so) (VInt se) = Ok v ->
  0 <= so <= zlen (mb_stdout m) /\ 0 <= se <= zlen (mb_stderr m) /\
  v = VDict (reply_dict (VInt (job_sequence j)) (VStr (job_token j)) (opt_value ((fun s => u (job_state_name s)) <$> mb_job_state m))
    (VInt so) (VInt se) (VStr (hex (chunk (mb_stdout m) so))) (VStr (hex (chunk (mb_stderr m) se)))
    (VInt (zlen (mb_stdout m))) (VInt (zlen (mb_stderr m)))
    (match mb_terminal m with Some t => terminal_value t | None => VNone end) (opt_value (mb_reason m))).
Proof.
  intros Hj. unfold poll_value, offset_ok. destruct (v_int_range (VInt so) _ _ _) as [a|] eqn:E1; [|done].
  destruct (v_int_range (VInt se) _ _ _) as [b|] eqn:E2; [|done]. apply v_int_range_Ok in E1 as [[= <-] ?], E2 as [[= <-] ?].
  cbn [result_bind]. rewrite Hj. intros H%(inj Ok). subst v. done.
Qed.

Lemma chunk_bytes b n : Forall is_byte b -> Forall is_byte (chunk b n).
Proof. intros. unfold chunk. by apply Forall_take, Forall_drop. Qed.

Lemma decode_stream_Ok d hk sk ok off prev data size b : d.[hk] = VStr (hex (chunk b off)) -> d.[sk] = VInt (zlen b) -> Forall is_byte b ->
  decode_stream d hk sk ok off prev = Ok (data, size) -> data = chunk b off /\ size = zlen b.
Proof.
  intros E1 E2 Hb. unfold decode_stream. rewrite E1, E2. destruct (v_int_range (VInt (zlen b)) _ _ _) as [z|] eqn:E; [|done].
  apply v_int_range_Ok in E as [[= <-] _]. cbn [result_bind]. destruct (v_int_range _ off off _); [|done]. cbn [result_bind].
  rewrite bytes_fromhex_hex by (by apply chunk_bytes). destruct (_ <? _); [done|]. destruct (_ || _); [done|]. intros H%(inj Ok). by simplify_eq.
Qed.

Definition job_phase (st : job_state) : Z := match st with QUEUED => 0 | RUNNING => 1 | COMPLETED => 2 | JOB_LOST => 3 end.

(** What a session keeps of a reply. *)
Definition absorbed (m : mailbox) (s s' : session) : Prop :=
  exists st tm, mb_job_state m = Some st /\
    s' = s <| x_terminal := tm |> <| x_phase := job_phase st |> <| x_sizes := (zlen (mb_stdout m), zlen (mb_stderr m)) |> /\
    match st with
    | COMPLETED => exists r, mb_reason m = Some r /\ tm = Some (mb_terminal m, r, zlen (mb_stdout m), zlen (mb_stderr m))
    | _ => tm = x_terminal s
    end.

Lemma decode_completion_Ok d st out err c m : d.["terminal"] = match mb_terminal m with Some t => terminal_value t | None => VNone end ->
  d.["reason"] = opt_value (mb_reason m) -> decode_completion d (u (job_state_name st)) out err = Ok c ->
  match st with COMPLETED => exists r, mb_reason m = Some r /\ c = Some (mb_terminal m, r, out, err) | _ => c = None end.
Proof.
  intros Et Er. unfold decode_completion. rewrite Et, Er.
  assert (bool_decide (u (job_state_name st) = u "completed") = bool_decide (st = COMPLETED)) as -> by (destruct st; by vm_compute).
  case_bool_decide as Hst.
  - subst st. destruct (if is_none _ then _ else _) eqn:G; [done|]. unfold reason_in, opt_value. destruct (mb_reason m) as [r|]; [|done].
    destruct (bool_decide (r ∈ COMPLETION_REASONS)); cbn [result_bind]; [|done]. intros H1%(inj Ok). exists r. split; [done|]. subst c. do 4 f_equal.
    destruct (mb_terminal m) as [t|]; [|done]. cbn [is_none terminal_value] in G. apply bool_decide_eq_false in G.
    change (VDict _) with (terminal_value t) in *. destruct (exec_terminal (terminal_value t)) as [t'|] eqn:E; [|done].
    by apply exec_terminal_value in E as ->.
  - destruct (negb _); [done|]. intros H. assert (c = None) as ->; [|by destruct st].
    destruct (bool_decide _), (mb_reason m); cbn [opt_value reason_in] in H; try done; try (by apply (inj Ok) in H).
    destruct (bool_decide _); [|done]. cbn [result_bind] in H. by apply (inj Ok) in H.
Qed.

Lemma decode_reply m j s v s' o e : mb_job m = Some j -> Forall is_byte (mb_stdout m) -> Forall is_byte (mb_stderr m) ->
  poll_value m (VInt (x_stdout s)) (VInt (x_stderr s)) = Ok v -> decode s v = Ok (s', o, e) ->
  o = chunk (mb_stdout m) (x_stdout s) /\ e = chunk (mb_stderr m) (x_stderr s) /\ x_sequence s = job_sequence j /\ x_token s = job_token j /\
  absorbed m s s'.
Proof.
  intros Hj Hb1 Hb2 Hv. apply (poll_value_Ok _ _ _ _ _ Hj) in Hv as (_ & _ & ->).
  destruct (reply_dict_fields (VInt (job_sequence j)) (VStr (job_token j)) (opt_value ((fun s => u (job_state_name s)) <$> mb_job_state m))
    (VInt (x_stdout s)) (VInt (x_stderr s)) (VStr (hex (chunk (mb_stdout m) (x_stdout s)))) (VStr (hex (chunk (mb_stderr m) (x_stderr s))))
    (VInt (zlen (mb_stdout m))) (VInt (zlen (mb_stderr m))) (match mb_terminal m with Some t => terminal_value t | None => VNone end)
    (opt_value (mb_reason m))) as (F0 & F1 & F2 & F3 & F4 & F5 & F6 & F7 & F8 & F9 & F10 & F11).
  set (d := reply_dict _ _ _ _ _ _ _ _ _ _ _) in *. clearbody d. unfold decode. rewrite F0, F1, F2, F3. cbn [negb].
  destruct (v_int_range (VInt (job_sequence j)) _ _ _) as [q|] eqn:E; [|done]. apply v_int_range_Ok in E as [[= <-] Hq]. cbn [result_bind].
  destruct (py_eqb _ _) eqn:Etok; [|done]. apply py_eqb_str in Etok as [= Htok]. cbn [negb].
  destruct (mb_job_state m) as [st|] eqn:Est; [|done]. cbn [fmap option_fmap option_map opt_value]. rewrite phase_of_job.
  destruct (_ <? x_phase s); [done|].
  destruct (decode_stream d "stdout_hex" _ _ _ _) as [[o1 s1]|] eqn:D1; [|done]. cbn [result_bind].
  destruct (decode_stream d "stderr_hex" _ _ _ _) as [[o2 s2]|] eqn:D2; [|done]. cbn [result_bind fst snd].
  apply (decode_stream_Ok _ _ _ _ _ _ _ _ _ F6 F8 Hb1) in D1 as [-> ->]. apply (decode_stream_Ok _ _ _ _ _ _ _ _ _ F7 F9 Hb2) in D2 as [-> ->].
  destruct (_ <? _); [done|]. destruct (decode_completion _ _ _ _) as [c|] eqn:Dc; [|done]. cbn [result_bind].
  apply (decode_completion_Ok _ _ _ _ _ _ F10 F11) in Dc. destruct (match c with Some _ => _ | None => _ end); [done|].
  intros H%(inj Ok). apply pair_equal_spec in H as [H <-]. apply pair_equal_spec in H as [<- <-].
  split; [done|]. split; [done|]. split; [lia|]. split; [done|]. exists st, (match c with Some e => Some e | None => x_terminal s end).
  split; [done|]. split; [destruct c, s; by destruct st|]. destruct st; try (by subst c). destruct Dc as (r & Er & ->). by exists r.
Qed.

(** * Exchanges *)

(** The calls the rest of the system makes beside a session that owns [tok]: no
    other client submits or acknowledges under this token, and the transport
    appends bytes. *)
Definition call_ok (tok : pystr) (c : call) : Prop :=
  match c with
  | CServe _ (OpSubmit _ token _ _) => token <> VStr tok
  | CServe _ (OpAcknowledge _ token) => token <> VStr tok
  | CAppend _ _ _ data => Forall is_byte data
  | _ => True
  end.

Definition env (tok : pystr) (x y : system) : Prop := exists cs, Forall (call_ok tok) cs /\ y = sys_run x cs.

(** A request of the session: it may be lost, served without its answer (and then
    retried as it is), or served and answered; meanwhile the rest goes on. *)
Inductive exchange (tok : pystr) (op : exec_operation) : system -> result pyval -> system -> Prop :=
| ex_fail x e : exchange tok op x (Err e) x
| ex_env x c r z : call_ok tok c -> exchange tok op (sys_call x c) r z -> exchange tok op x r z
| ex_lost x worker r z : exchange tok op (sys_call x (CServe worker op)) r z -> exchange tok op x r z
| ex_reply x worker v z : (serve_exec_request worker op x.1).2 = Ok v -> env tok (sys_call x (CServe worker op)) z -> exchange tok op x (Ok v) z.

Class ExecLaws (W : Type) `{ExecWorld W} (tok : pystr) := {
  sys : W -> system;
  token_law w w' t : new_token w = (w', t) -> t = tok /\ env tok (sys w) (sys w');
  request_law w operation payload w' r : client_request w operation payload = (w', r) ->
    match decode_exec_operation operation payload with
    | Err _ => (exists e, r = Err e) /\ env tok (sys w) (sys w')
    | Ok op => exchange tok op (sys w) r (sys w')
    end;
  open_law w w' r : client_open w = (w', r) -> env tok (sys w) (sys w');
  client_close_law w : env tok (sys w) (sys (client_close w));
  sleep_law w w' r : idle_sleep w = (w', r) -> env tok (sys w) (sys w');
  observed_law w o w' r : publish_observed w o = (w', r) -> env tok (sys w) (sys w');
  confirmed_law w o w' r : publish_confirmed w o = (w', r) -> env tok (sys w) (sys w');
  writer_close_law w : env tok (sys w) (sys (writer_close w));
}.

(** ** What a call leaves in place *)

(** The history only grows, and its invariant holds. *)
Definition hist_bytes (h : list exec_event) : Prop := forall j s d, Appended j s d ∈ h -> Forall is_byte d.
Definition sys_ok (x : system) : Prop := sys_inv x /\ hist_bytes x.2.
Definition extends (x y : system) : Prop := sys_ok x -> sys_ok y /\ exists k, y.2 = x.2 ++ k.

Lemma extends_refl x : extends x x.
Proof. intros Hx. split; [done|]. exists []. by rewrite app_nil_r. Qed.
Lemma extends_trans x y z : extends x y -> extends y z -> extends x z.
Proof.
  intros H1 H2 Hx. destruct (H1 Hx) as [Hy [k Ek]]. destruct (H2 Hy) as [Hz [k' Ek']]. split; [done|].
  exists (k ++ k'). by rewrite Ek', Ek, app_assoc.
Qed.

Lemma elem_if {A} (b : bool) (l : list A) e : e ∈ (if b then l else []) -> e ∈ l.
Proof. destruct b; [done|]. intros H. by apply not_elem_of_nil in H. Qed.

(** The events of a call are those of its kind. *)
Lemma apply_call_events m c e : e ∈ (apply_call m c).2 ->
  match c with
  | CServe _ op => e ∈ operation_events op
  | CTake => exists j, e = Taken j
  | CAppend j s _ d => e = Appended j s d
  | CComplete j t out err r => e = Completed j (exec_terminal t) out err r
  | _ => False
  end.
Proof.
  destruct c as [worker op| |reason| |i s o d|i t o err r]; cbn [apply_call].
  - destruct (serve_exec_request worker op m). apply elem_if.
  - apply not_elem_of_nil.
  - apply not_elem_of_nil.
  - destruct (take_exec m) as [m' [q|]]; cbn [snd]; [intros ->%list_elem_of_singleton; by exists q|intros H; by apply not_elem_of_nil in H].
  - destruct (append_output _ _ _ _ _). by intros H%elem_if%list_elem_of_singleton.
  - destruct (complete _ _ _ _ _ _). by intros H%elem_if%list_elem_of_singleton.
Qed.

Lemma operation_events_spec op e : e ∈ operation_events op ->
  match op with
  | OpSubmit _ _ _ _ => exists j, e = Submitted j
  | OpAcknowledge sequence token => exists s t, e = Acknowledged s t /\ sequence = VInt s /\ token = VStr t
  | _ => False
  end.
Proof.
  destruct op as [|? ? ? ?|? ? ? ?|sequence token]; cbn [operation_events]; try apply not_elem_of_nil.
  - destruct (exec_identity _ _); [|by intros ?%not_elem_of_nil].
    destruct (validate_exec_request _ _); [|by intros ?%not_elem_of_nil]. intros ->%list_elem_of_singleton. by eexists.
  - unfold exec_identity. destruct (v_int_range sequence _ _ _) as [q|] eqn:E; [|by intros ?%not_elem_of_nil].
    apply v_int_range_Ok in E as [-> _]. cbn [result_bind]. destruct token as [| | | |t| | |]; try by intros ?%not_elem_of_nil.
    destruct (bool_decide _); [|by intros ?%not_elem_of_nil]. intros ->%list_elem_of_singleton. by exists q, t.
Qed.

Lemma call_extends x c : match c with CAppend _ _ _ d => Forall is_byte d | _ => True end -> extends x (sys_call x c).
Proof.
  intros Hc [Hi Hb]. pose proof (apply_call_events x.1 c) as He. pose proof (sys_call_inv x c Hi) as Hi'. unfold sys_call in *.
  destruct (apply_call x.1 c) as [m evs]. cbn [fst snd] in *. split; [split; [done|]|by exists evs].
  intros j s d [Hin|Hin]%elem_of_app; [by eapply Hb|]. apply He in Hin. destruct c as [worker op| | | | |]; try naive_solver.
  apply operation_events_spec in Hin. destruct op; naive_solver.
Qed.

Lemma env_extends tok x y : env tok x y -> extends x y.
Proof.
  intros (cs & Hcs & ->). revert x. induction Hcs as [|c cs Hc _ IH]; intros x; [apply extends_refl|].
  eapply extends_trans; [|apply IH]. apply call_extends. by destruct c.
Qed.

Lemma exchange_extends tok op x r z : exchange tok op x r z -> extends x z.
Proof.
  induction 1 as [x e|x c r z Hc _ IH|x worker r z _ IH|x worker v z _ Henv].
  - apply extends_refl.
  - eapply extends_trans; [|exact IH]. apply call_extends. by destruct c.
  - eapply extends_trans; [|exact IH]. by apply call_extends.
  - eapply extends_trans; [|by eapply env_extends]. by apply call_extends.
Qed.

(** The job of the session stays until the session acknowledges it. *)
Lemma transitions_keep m evs m' j : transitions m evs m' -> mb_job m = Some j -> Acknowledged (job_sequence j) (job_token j) ∉ evs ->
  mb_job m' = Some j.
Proof.
  induction 1 as [|m evs m1 evs' m2 Hs _ IH]; intros Hj Hn; [done|]. apply not_elem_of_app in Hn as [Hn1 Hn2]. apply IH; [|done].
  destruct Hs; try done; try congruence.
  - by destruct s.
  - exfalso. apply Hn1. simplify_eq. by apply list_elem_of_singleton.
Qed.

Lemma call_keep x c j : sys_ok x -> mb_job x.1 = Some j -> Acknowledged (job_sequence j) (job_token j) ∉ (apply_call x.1 c).2 ->
  mb_job (sys_call x c).1 = Some j.
Proof.
  intros [Hi _] Hj Hn. pose proof (apply_call_tr x.1 c ltac:(congruence)) as H. unfold sys_call.
  destruct (apply_call x.1 c) as [m evs]. cbn [fst snd] in *. by eapply transitions_keep.
Qed.

Lemma foreign_no_ack tok x c s : call_ok tok c -> Acknowledged s tok ∉ (apply_call x c).2.
Proof.
  intros Hc Hin%apply_call_events. destruct c as [worker op| | | | |]; try naive_solver.
  apply operation_events_spec in Hin. destruct op; naive_solver.
Qed.

Lemma env_keep tok x y j : env tok x y -> sys_ok x -> mb_job x.1 = Some j -> job_token j = tok -> mb_job y.1 = Some j.
Proof.
  intros (cs & Hcs & ->). revert x. induction Hcs as [|c cs Hc _ IH]; intros x Hx Hj Ht; [done|].
  assert (extends x (sys_call x c)) as He by (apply call_extends; by destruct c).
  apply IH; [by apply He| |done]. apply call_keep; [done|done|]. rewrite Ht. by apply foreign_no_ack.
Qed.

Lemma serve_performs worker op m m' v : serve_exec_request worker op m = (m', Ok v) -> exists m1, perform m1 op = (m', Ok v).
Proof.
  unfold serve_exec_request. destruct worker as [w|]; [|done].
  destruct op; cbv zeta; try (destruct (negb _); [done|]); intros E; by eexists.
Qed.

Lemma exchange_keep tok op x r z j : exchange tok op x r z -> (forall s t, Acknowledged s t ∉ operation_events op) -> sys_ok x ->
  mb_job x.1 = Some j -> job_token j = tok -> mb_job z.1 = Some j.
Proof.
  intros He Hop. assert (forall x worker, Acknowledged (job_sequence j) (job_token j) ∉ (apply_call x (CServe worker op)).2) as Hn.
  { intros m worker Hin%apply_call_events. by eapply Hop. }
  induction He as [x e|x c r z Hc _ IH|x worker r z _ IH|x worker v z _ Henv]; intros Hx Hj Ht; [done| | |].
  - apply IH; [apply (call_extends x c); [by destruct c|done]| |done]. apply call_keep; [done|done|]. rewrite Ht. by apply foreign_no_ack.
  - apply IH; [by apply (call_extends x (CServe worker op))| |done]. by apply call_keep.
  - eapply env_keep; [exact Henv|by apply (call_extends x (CServe worker op))| |done]. by apply call_keep.
Qed.

(** An answered exchange was served once, with the answer, before the rest went on. *)
Lemma exchange_answered tok op x v z : exchange tok op x (Ok v) z -> sys_ok x -> exists x0 x1 m1,
  extends x x0 /\ sys_ok x0 /\ sys_ok x1 /\ perform m1 op = (x1.1, Ok v) /\ x1.2 = x0.2 ++ operation_events op /\ env tok x1 z /\
  ((forall s t, Acknowledged s t ∉ operation_events op) -> forall j, mb_job x.1 = Some j -> job_token j = tok -> mb_job x1.1 = Some j).
Proof.
  intros He. remember (Ok v) as r eqn:Er. induction He as [x e|x c r z Hc _ IH|x worker r z _ IH|x worker v' z Hs Henv]; intros Hx; [done| | |].
  - assert (extends x (sys_call x c)) as Hext by (apply call_extends; by destruct c).
    destruct (IH Er) as (x0 & x1 & m1 & E1 & E2 & E3 & E4 & E5 & E6 & E7); [by apply Hext|]. exists x0, x1, m1. split_and!; try done.
    + by eapply extends_trans.
    + intros Hop j Hj Ht. apply E7; [done| |done]. apply call_keep; [done|done|]. rewrite Ht. by apply foreign_no_ack.
  - assert (extends x (sys_call x (CServe worker op))) as Hext by (by apply call_extends).
    destruct (IH Er) as (x0 & x1 & m1 & E1 & E2 & E3 & E4 & E5 & E6 & E7); [by apply Hext|]. exists x0, x1, m1. split_and!; try done.
    + by eapply extends_trans.
    + intros Hop j Hj Ht. apply E7; [done| |done]. apply call_keep; [done|done|]. intros Hin%apply_call_events. by eapply Hop.
  - apply (inj Ok) in Er. subst v'. assert (extends x (sys_call x (CServe worker op))) as Hext by (by apply call_extends).
    destruct (serve_exec_request worker op x.1) as [m' r'] eqn:E. cbn [snd] in Hs. subst r'.
    assert (sys_call x (CServe worker op) = (m', x.2 ++ operation_events op)) as Ec by (unfold sys_call; cbn [apply_call]; by rewrite E).
    destruct (serve_performs _ _ _ _ _ E) as [m1 Em]. exists x, (sys_call x (CServe worker op)), m1. split_and!; try done.
    + apply extends_refl.
    + by apply Hext.
    + by rewrite Ec.
    + by rewrite Ec.
    + intros Hop j Hj Ht. apply call_keep; [done|done|]. intros Hin%apply_call_events. by eapply Hop.
Qed.

Lemma exchange_poll tok q t a b x v z j : exchange tok (OpPoll q t (VInt a) (VInt b)) x (Ok v) z -> sys_ok x ->
  mb_job x.1 = Some j -> job_token j = tok ->
  exists x1, sys_ok x1 /\ mb_job x1.1 = Some j /\ poll_value x1.1 (VInt a) (VInt b) = Ok v /\ (exists k, x1.2 = x.2 ++ k) /\ exists k, z.2 = x1.2 ++ k.
Proof.
  intros He Hx Hj Ht. apply exchange_answered in He as (x0 & x1 & m1 & E1 & E2 & E3 & E4 & E5 & E6 & E7); [|done]. exists x1.
  split; [done|]. split; [apply E7; try done; intros; apply not_elem_of_nil|]. split.
  - cbn [perform] in E4. unfold poll in E4. destruct (exec_identity q t); [|done]. destruct (negb _); [done|].
    apply pair_equal_spec in E4 as [-> E4]. done.
  - split; [destruct (E1 Hx) as [_ [k Ek]]; exists (k ++ []); by rewrite E5, Ek, app_assoc|]. by apply (env_extends _ _ _ E6).
Qed.

Lemma perform_submit m m' q t a ms id rq v : exec_identity q t = Ok id -> validate_exec_request a ms = Ok rq ->
  perform m (OpSubmit q t a ms) = (m', Ok v) ->
  mb_job m' = Some (ExecJob id.1 id.2 rq.1 rq.2) /\ poll_value m' (VInt 0) (VInt 0) = Ok v.
Proof.
  intros Hid Hrq. cbn [perform]. unfold submit. rewrite Hid, Hrq. destruct (negb _); [done|]. destruct (mb_job m) as [j|] eqn:Ej.
  - case_bool_decide as Hc; [|done]. intros E. apply pair_equal_spec in E as [<- E]. split; [by rewrite Ej, Hc|done].
  - destruct (_ || _); [done|]. intros E. apply pair_equal_spec in E as [<- E]. split; [done|done].
Qed.

Lemma exchange_submit tok q t a ms id rq x v z : exchange tok (OpSubmit q t a ms) x (Ok v) z -> sys_ok x ->
  exec_identity q t = Ok id -> validate_exec_request a ms = Ok rq -> let j := ExecJob id.1 id.2 rq.1 rq.2 in
  exists x1, sys_ok x1 /\ mb_job x1.1 = Some j /\ Submitted j ∈ x1.2 /\ poll_value x1.1 (VInt 0) (VInt 0) = Ok v /\ env tok x1 z.
Proof.
  intros He Hx Hid Hrq. apply exchange_answered in He as (x0 & x1 & m1 & E1 & E2 & E3 & E4 & E5 & E6 & _); [|done]. exists x1.
  destruct (perform_submit _ _ _ _ _ _ _ _ _ Hid Hrq E4) as [Hj Hv]. split_and!; try done.
  rewrite E5. cbn [operation_events]. rewrite Hid, Hrq. apply elem_of_app. right. by apply list_elem_of_singleton.
Qed.

Lemma exchange_ack tok s t x v z : exchange tok (OpAcknowledge (VInt s) (VStr t)) x (Ok v) z -> sys_ok x -> Acknowledged s t ∈ z.2.
Proof.
  intros He Hx. apply exchange_answered in He as (x0 & x1 & m1 & E1 & E2 & E3 & E4 & E5 & E6 & _); [|done].
  apply env_extends in E6. destruct (E6 E3) as [_ [k ->]]. rewrite E5. cbn [perform operation_events] in *. unfold acknowledge in E4.
  destruct (exec_identity (VInt s) (VStr t)) as [id|] eqn:Eid; [|done].
  assert (id = (s, t)) as ->.
  { revert Eid. unfold exec_identity. destruct (v_int_range _ _ _ _) as [q|] eqn:Eq; [|done]. apply v_int_range_Ok in Eq as [[= <-] _].
    cbn [result_bind]. destruct (bool_decide (uuid_str t = Some t)); [by intros <-%(inj Ok)|done]. }
  apply elem_of_app. left. apply elem_of_app. right. by apply list_elem_of_singleton.
Qed.
