(* ===== verification/ExecTheorems.v ===== *)
(** The properties of guest executions: the mailbox runs every accepted request
    at most once, and a session delivers exactly the output the guest's transport
    appended to its job. *)
From S2P Require Import Prelude Crypto PyStr PyVal Json Digest ControlV2Wire ControlV2Message ExecControl ExecControlFacts ExecSession ExecSessionFacts.

(** * Runs of a session *)

Definition out_of (e : process_event) (st : exec_stream) : bytes :=
  match e with ProcessOutput s d => if bool_decide (s = st) then d else [] | ProcessStatus _ => [] end.
Definition outs (evs : list process_event) (st : exec_stream) : bytes := concat (map (fun e => out_of e st) evs).
Definition is_output (e : process_event) : Prop := match e with ProcessOutput _ _ => True | ProcessStatus _ => False end.

Lemma outs_snoc evs e st : outs (evs ++ [e]) st = outs evs st ++ out_of e st.
Proof. unfold outs. rewrite map_app, concat_app. cbn. by rewrite app_nil_r. Qed.

Lemma take_chunk_prefix (a : bytes) b n : a `prefix_of` b -> n = zlen a -> a ++ chunk b n `prefix_of` b.
Proof.
  intros [k ->] ->. unfold chunk. rewrite to_nat_zlen, drop_app_length. apply prefix_app. exists (drop (Z.to_nat MAX_EXEC_CHUNK) k).
  by rewrite take_drop.
Qed.

Section run.
Context {W : Type} {tok : pystr} `{ExecLaws W tok}.
Context (j : exec_job) (Hj : job_token j = tok).
Implicit Types w : W.
Implicit Types s : session.

(** What a session has observed, in the history of the mailbox. *)
Definition observed_ok (evs : list process_event) (h : list exec_event) (o : observation) : Prop :=
  exists t out err r, completed h j t out err r /\ ob_terminal o = process_exit_of <$> t /\ ob_reason o = r /\
    ob_stdout_bytes o = out /\ ob_stderr_bytes o = err /\ zlen (outs evs STDOUT) = out /\ zlen (outs evs STDERR) = err.

Definition status_ok (s : session) (evs : list process_event) (h : list exec_event) (p : process_exit) : Prop :=
  exists o pre, x_observed s = Some o /\ ob_confirmed o = true /\ ob_reason o = u "completed" /\ ob_terminal o = Some p /\
    Acknowledged (job_sequence j) (job_token j) ∈ h /\ evs = pre ++ [ProcessStatus p] /\ Forall is_output pre.

(** A session that has ended. *)
Record ended (x : system) (s : session) (evs : list process_event) : Prop := {
  e_ok : sys_ok x;
  e_sub : Submitted j ∈ x.2;
  e_pre st : outs evs st `prefix_of` appended x.2 j st;
  e_obs o : x_observed s = Some o -> observed_ok evs x.2 o;
  e_status p : ProcessStatus p ∈ evs -> status_ok s evs x.2 p;
  e_result p : x_result s = Some p -> ProcessStatus p ∈ evs;
}.

(** A session that polls; [pend] was received and waits to be yielded. *)
Record active (x : system) (s : session) (evs : list process_event) (pend : bytes) : Prop := {
  a_ok : sys_ok x;
  a_sub : Submitted j ∈ x.2;
  a_cur : mb_job x.1 = Some j;
  a_id : x_sequence s = job_sequence j /\ x_token s = job_token j;
  a_out : x_stdout s = zlen (outs evs STDOUT);
  a_err : x_stderr s = zlen (outs evs STDERR ++ pend);
  a_pre : outs evs STDOUT `prefix_of` appended x.2 j STDOUT /\ outs evs STDERR ++ pend `prefix_of` appended x.2 j STDERR;
  a_term t r o e : x_terminal s = Some (t, r, o, e) -> completed x.2 j t o e r /\ (x_phase s <> 3 -> x_sizes s = (o, e));
  a_obs : x_observed s = None /\ x_result s = None;
  a_evs : Forall is_output evs;
}.

Lemma history_keeps x y st : extends x y -> sys_ok x -> appended x.2 j st `prefix_of` appended y.2 j st /\ (forall e, e ∈ x.2 -> e ∈ y.2).
Proof.
  intros He Hx. destruct (He Hx) as [_ [k ->]]. split; [rewrite appended_app; by eexists|]. intros e Hin. apply elem_of_app. by left.
Qed.

Lemma ended_ext x y s s' evs : ended x s evs -> extends x y -> x_observed s' = x_observed s -> x_result s' = x_result s -> ended y s' evs.
Proof.
  intros [] He Eo Er. pose proof (history_keeps x y STDOUT He e_ok0) as [_ Hin]. split.
  - by apply He.
  - by apply Hin.
  - intros st. etrans; [apply e_pre0|]. by apply history_keeps.
  - intros o. rewrite Eo. intros (t & out & err & r & Hc & Hrest)%e_obs0. exists t, out, err, r. split; [by apply Hin|done].
  - intros p (o & pre & Ho & ? & ? & ? & ? & ? & ?)%e_status0. exists o, pre. split_and!; [congruence|done|done|done|by apply Hin|done|done].
  - intros p. rewrite Er. apply e_result0.
Qed.

Lemma active_ended x s evs pend : active x s evs pend -> ended x s evs.
Proof.
  intros []. destruct a_obs0 as [Eo Er]. split; try done.
  - intros [|]; [apply a_pre0|]. etrans; [|apply a_pre0]. by apply prefix_app_r.
  - intros o. congruence.
  - intros p Hp. rewrite Forall_forall in a_evs0. by apply a_evs0 in Hp.
  - intros p. congruence.
Qed.

Lemma active_env x y s evs pend : active x s evs pend -> env tok x y -> active y s evs pend.
Proof.
  intros [] He. pose proof (env_extends _ _ _ He) as Hext. pose proof (fun st => history_keeps x y st Hext a_ok0) as Hh. split; try done.
  - by apply Hext.
  - by apply (Hh STDOUT).
  - by eapply env_keep.
  - split; (etrans; [apply a_pre0|apply Hh]).
  - intros t r o e [Hc Hs]%a_term0. split; [by apply (Hh STDOUT)|done].
Qed.

(** ** Ends *)

Lemma close_spec s w s' w' : session_close s w = (s', w') -> env tok (sys w) (sys w') /\ x_observed s' = x_observed s /\ x_result s' = x_result s.
Proof.
  unfold session_close. intros E. apply pair_equal_spec in E as [<- <-]. split; [|done].
  assert (forall x, env tok x x) as Hr by (intros x; by exists []).
  assert (forall x y z, env tok x y -> env tok y z -> env tok x z) as Ht.
  { intros x y z (a & Ha & ->) (b & Hb & ->). exists (a ++ b). split; [by apply Forall_app|]. unfold sys_run. by rewrite foldl_app. }
  destruct (x_client s), (x_writer s); eauto using client_close_law, writer_close_law.
Qed.

Lemma iter_fail_spec s w e evs s' w' r : ended (sys w) s evs -> iter_fail s w e = (s', w', r) ->
  r = Raise e /\ ended (sys w') s' evs /\ x_iter s' = Some ItEnded.
Proof.
  unfold iter_fail. intros He. destruct (x_recording s).
  - destruct (session_close s w) as [s1 w1] eqn:E. apply close_spec in E as (Henv & Eo & Er). intros H3. apply pair_equal_spec in H3 as [H3 <-].
    apply pair_equal_spec in H3 as [<- <-]. split; [done|]. split; [|done]. eapply ended_ext; [exact He|by eapply env_extends|done|done].
  - intros H3. apply pair_equal_spec in H3 as [H3 <-]. apply pair_equal_spec in H3 as [<- <-]. split; [done|]. split; [|done].
    eapply ended_ext; [exact He|apply extends_refl|done|done].
Qed.

Lemma recording_fail_spec s w e evs s' w' r : ended (sys w) s evs -> recording_fail s w e = (s', w', r) ->
  r = Raise e /\ ended (sys w') s' evs /\ x_iter s' = Some ItEnded.
Proof.
  unfold recording_fail. intros He. destruct (session_close s w) as [s1 w1] eqn:E. apply close_spec in E as (Henv & Eo & Er).
  apply iter_fail_spec. eapply ended_ext; [exact He|by eapply env_extends|done|done].
Qed.

(** ** Requests *)

Lemma decode_poll a b c d op : decode_exec_operation "poll" [(u "sequence", a); (u "token", b); (u "stdout_offset", c); (u "stderr_offset", d)] = Ok op ->
  op = OpPoll a b c d.
Proof.
  unfold decode_exec_operation. set (l := [_; _; _; _]).
  assert (l.["sequence"] = a /\ l.["token"] = b /\ l.["stdout_offset"] = c /\ l.["stderr_offset"] = d) as (-> & -> & -> & ->) by (split_and!; by vm_compute).
  cbn [String.eqb Ascii.eqb Bool.eqb]. destruct (negb _); [done|]. destruct (match exec_identity a b with Ok _ => _ | _ => _ end); [|done].
  cbn [result_bind]. destruct (v_int_range c _ _ _); [|done]. cbn [result_bind]. destruct (v_int_range d _ _ _); [|done].
  cbn [result_bind]. by intros <-%(inj Ok).
Qed.

Lemma decode_ack a b op : decode_exec_operation "acknowledge" [(u "sequence", a); (u "token", b)] = Ok op -> op = OpAcknowledge a b.
Proof.
  unfold decode_exec_operation. set (l := [_; _]).
  assert (l.["sequence"] = a /\ l.["token"] = b) as (-> & ->) by (split; by vm_compute).
  cbn [String.eqb Ascii.eqb Bool.eqb]. destruct (negb _); [done|]. destruct (match exec_identity a b with Ok _ => _ | _ => _ end); [|done].
  cbn [result_bind]. by intros <-%(inj Ok).
Qed.

Lemma request_extends w operation payload w' r : client_request w operation payload = (w', r) -> extends (sys w) (sys w').
Proof.
  intros E. apply request_law in E. destruct (decode_exec_operation _ _); [by eapply exchange_extends|]. destruct E as [_ E]. by eapply env_extends.
Qed.

Lemma request_exchange w operation payload w' v : client_request w operation payload = (w', Ok v) ->
  exists op, decode_exec_operation operation payload = Ok op /\ exchange tok op (sys w) (Ok v) (sys w').
Proof.
  intros E. apply request_law in E. destruct (decode_exec_operation _ _) as [op|]; [by exists op|]. by destruct E as [[? ?] _].
Qed.

Lemma acknowledge_spec s w w' r : acknowledge_completion s w = (w', r) -> extends (sys w) (sys w') /\
  (r = Ok tt -> sys_ok (sys w) -> Acknowledged (x_sequence s) (x_token s) ∈ (sys w').2).
Proof.
  unfold acknowledge_completion, session_request. destruct (session_dead s w).
  { intros E. apply pair_equal_spec in E as [<- <-]. split; [apply extends_refl|done]. }
  destruct (client_request _ _ _) as [w1 [v|e]] eqn:E; intros E2.
  2:{ apply pair_equal_spec in E2 as [<- <-]. split; [by eapply request_extends|done]. }
  assert (w1 = w') as -> by (destruct (validate_exec_status v); [destruct (negb _)|]; by apply pair_equal_spec in E2 as [<- _]).
  split; [by eapply request_extends|]. intros _ Hok. apply request_exchange in E as (op & Hop & E). apply decode_ack in Hop as ->.
  by eapply exchange_ack.
Qed.

(** ** The completion *)

Lemma ended_observed x s evs o o' : ended x s evs -> observed_ok evs x.2 o -> x_result s = None -> Forall is_output evs ->
  ob_terminal o' = ob_terminal o -> ob_reason o' = ob_reason o -> ob_stdout_bytes o' = ob_stdout_bytes o -> ob_stderr_bytes o' = ob_stderr_bytes o ->
  ended x (s <| x_observed := Some o' |>) evs.
Proof.
  intros [] Ho Hr Hf E1 E2 E3 E4. split; try done.
  - intros o1. cbn [x_observed setter]. intros H3. assert (o' = o1) as <- by congruence. destruct Ho as (t & out & err & r & Ho).
    exists t, out, err, r. by rewrite E1, E2, E3, E4.
  - intros p Hp. rewrite Forall_forall in Hf. by apply Hf in Hp.
Qed.

Lemma observation_init_Ok t reason out err c o : observation_init t reason out err c = Ok o -> o = Observation t reason out err c.
Proof. unfold observation_init. intros E. destruct t; repeat (case_match; [done|]); repeat (destruct (_ : bool); [done|]); by inv_ok. Qed.

(** How a turn that ends the session leaves it. *)
Definition failed (evs : list process_event) (s : session) (w : W) (r : resumption) : Prop :=
  exists e, r = Raise e /\ ended (sys w) s evs /\ x_iter s = Some ItEnded.
Definition finished (evs : list process_event) (s : session) (w : W) (r : resumption) : Prop :=
  exists p, r = Yield (ProcessStatus p) /\ ended (sys w) s (evs ++ [ProcessStatus p]) /\ x_iter s = Some ItStatus.

Lemma iter_fails s w e evs s' w' r : ended (sys w) s evs -> iter_fail s w e = (s', w', r) -> failed evs s' w' r.
Proof. intros He E. apply (iter_fail_spec _ _ _ _ _ _ _ He) in E as (-> & ? & ?). by exists e. Qed.

Lemma recording_fails s w e evs s' w' r : ended (sys w) s evs -> recording_fail s w e = (s', w', r) -> failed evs s' w' r.
Proof. intros He E. apply (recording_fail_spec _ _ _ _ _ _ _ He) in E as (-> & ? & ?). by exists e. Qed.

(** A writer's call, when there is a writer. *)
Lemma writer_extends (b : bool) w (c : W * result unit) w' r : (forall w' r, c = (w', r) -> env tok (sys w) (sys w')) ->
  (if b then c else (w, Ok tt)) = (w', r) -> extends (sys w) (sys w').
Proof. intros Hc E. destruct b; [by eapply env_extends, Hc|]. apply pair_equal_spec in E as [<- _]. apply extends_refl. Qed.

(** The status event. *)
Lemma ended_status x s s' evs o p : ended x s evs -> x_observed s = Some o -> ob_confirmed o = true -> ob_reason o = u "completed" ->
  ob_terminal o = Some p -> Acknowledged (job_sequence j) (job_token j) ∈ x.2 -> Forall is_output evs ->
  x_observed s' = x_observed s -> x_result s' = Some p -> ended x s' (evs ++ [ProcessStatus p]).
Proof.
  intros [] Ho Hc Hr Ht Ha Hf Eo Er.
  assert (forall st, outs (evs ++ [ProcessStatus p]) st = outs evs st) as Houts by (intros st; rewrite outs_snoc; cbn; by rewrite app_nil_r).
  assert (forall q, ProcessStatus q ∈ evs ++ [ProcessStatus p] -> q = p) as Hq.
  { intros q [Hin|Hin]%elem_of_app; [rewrite Forall_forall in Hf; by apply Hf in Hin|]. apply list_elem_of_singleton in Hin. congruence. }
  split; try done.
  - intros st. by rewrite Houts.
  - intros o1. rewrite Eo. intros (t & out & err & r & Hrest)%e_obs0. exists t, out, err, r. by rewrite !Houts.
  - intros q ->%Hq. exists o, evs. split; [congruence|done].
  - intros q. rewrite Er. intros [= <-]. apply elem_of_app. right. by apply list_elem_of_singleton.
Qed.

Lemma finish_spec s w evs t reason out err s' w' r : active (sys w) s evs [] -> x_terminal s = Some (t, reason, out, err) ->
  x_stdout s = out -> x_stderr s = err -> finish s w (t, reason, out, err) = (s', w', r) -> failed evs s' w' r \/ finished evs s' w' r.
Proof.
  intros Ha Ht Hout Herr. pose proof (active_ended _ _ _ _ Ha) as He. pose proof Ha as [Hok Hsub _ [Hseq Htok] Ho1 Ho2 _ Hterm [Hobs Hres] Hevs].
  rewrite app_nil_r in Ho2. pose proof (Hterm _ _ _ _ Ht) as [Hcomp _]. unfold finish.
  destruct (session_dead s w); [intros E; left; by eapply iter_fails|].
  destruct (observation_init _ _ _ _ _) as [o|e] eqn:Eo; [|intros E; left; by eapply iter_fails].
  apply observation_init_Ok in Eo.
  assert (observed_ok evs (sys w).2 o) as Hobs_ok by (exists t, out, err, reason; subst o; cbn; split_and!; try done; congruence).
  assert (ended (sys w) (s <| x_observed := Some o |>) evs) as He1 by (by eapply ended_observed).
  destruct (if x_writer _ then _ else _) as [w1 r1] eqn:Ew1. cbn [x_writer setter] in Ew1.
  apply (writer_extends _ _ _ _ _ (observed_law w o)) in Ew1. pose proof (ended_ext _ _ _ _ _ He1 Ew1 eq_refl eq_refl) as He2.
  destruct r1 as [[]|e1]; [|intros E; left; by eapply recording_fails].
  destruct (acknowledge_completion _ w1) as [w2 r2] eqn:Ew2. apply acknowledge_spec in Ew2 as [Hext2 Hack]. cbn [x_sequence x_token setter] in Hack.
  pose proof (ended_ext _ _ _ _ _ He2 Hext2 eq_refl eq_refl) as He3. destruct r2 as [[]|e2]; [|intros E; left; by eapply iter_fails].
  specialize (Hack eq_refl (e_ok _ _ _ He2)). rewrite Hseq, Htok in Hack.
  assert (ended (sys w2) (s <| x_observed := Some o |> <| x_observed := Some (o <| ob_confirmed := true |>) |>) evs) as He4.
  { eapply (ended_observed _ _ _ o); try done. apply (e_obs _ _ _ He3). done. }
  destruct (if x_writer _ then _ else _) as [w3 r3] eqn:Ew3. cbn [x_writer setter] in Ew3.
  apply (writer_extends _ _ _ _ _ (confirmed_law w2 (o <| ob_confirmed := true |>))) in Ew3.
  pose proof (ended_ext _ _ _ _ _ He4 Ew3 eq_refl eq_refl) as He5. destruct r3 as [[]|e3]; [|intros E; left; by eapply recording_fails].
  destruct (session_close _ w3) as [s4 w4] eqn:Ecl. apply close_spec in Ecl as (Henv4 & Eo4 & Er4). apply env_extends in Henv4.
  pose proof (ended_ext _ _ _ s4 _ He5 Henv4 Eo4 Er4) as He6. destruct (bool_decide (reason = u "completed")) eqn:Ereason; cbn [negb].
  2:{ intros E. left. by eapply iter_fails. }
  apply bool_decide_eq_true in Ereason. destruct t as [t|]; cbn [fmap option_fmap option_map] in *; [|intros E; left; by eapply iter_fails].
  intros E. apply pair_equal_spec in E as [E <-]. apply pair_equal_spec in E as [<- <-]. right. exists (process_exit_of t).
  split; [done|]. split; [|done]. eapply (ended_status _ s4 _ _ (o <| ob_confirmed := true |>)); try done; try (by subst o).
  destruct (history_keeps (sys w2) (sys w4) STDOUT) as [_ Hin]; [by eapply extends_trans|apply He4|by apply Hin].
Qed.

(** ** Turns *)

Lemma appended_bytes h st : hist_bytes h -> Forall is_byte (appended h j st).
Proof.
  intros Hb. unfold appended. apply Forall_concat, Forall_forall. intros d Hd. apply list_elem_of_In, in_map_iff in Hd as (e & <- & He).
  apply list_elem_of_In in He. destruct e as [| |i s' d| |]; try constructor. case_bool_decide; [by eapply Hb|constructor].
Qed.

(** The output of the current job is in the mailbox. *)
Lemma current_output x st : sys_ok x -> mb_job x.1 = Some j -> appended x.2 j st = output_of x.1 st.
Proof.
  intros [Hi _] Hcur. assert (job_sequence j = mb_next x.1) as Hseq.
  { pose proof (i_job _ Hi) as Hjob. unfold job_inv in Hjob. rewrite Hcur in Hjob. destruct (mb_job_state x.1); [|done]. apply Hjob. }
  rewrite (i_appended _ Hi) by lia. by rewrite bool_decide_eq_true_2.
Qed.

(** What a reply leaves of the completion kept. *)
Lemma absorbed_term x s s' : sys_ok x -> mb_job x.1 = Some j -> absorbed x.1 s s' ->
  (forall t r o e, x_terminal s = Some (t, r, o, e) -> completed x.2 j t o e r) ->
  forall t r o e, x_terminal s' = Some (t, r, o, e) -> completed x.2 j t o e r /\ (x_phase s' <> 3 -> x_sizes s' = (o, e)).
Proof.
  intros [Hi _] Hcur (st & tm & Hst & -> & Htm) Hold t r o e. cbn [x_terminal x_phase x_sizes setter].
  pose proof (i_job _ Hi) as Hjob. unfold job_inv in Hjob. rewrite Hcur, Hst in Hjob. destruct Hjob as (Hseq & _ & _ & Hjob).
  destruct (decide (st = COMPLETED)) as [->|Hne].
  - destruct Htm as (r' & Er & ->), Hjob as (r'' & Er' & Hc). intros E. simplify_eq. done.
  - assert (tm = x_terminal s) as -> by (by destruct st). intros Ht%Hold. split; [done|].
    apply (i_completed _ Hi) in Ht as (_ & _ & _ & [?|[_ ?]]); [lia|]. congruence.
Qed.

Lemma poll_active s w w1 v s1 so se evs evs' : active (sys w) s evs [] -> client_request w "poll" (poll_fields s) = (w1, Ok v) ->
  decode s v = Ok (s1, so, se) -> outs evs' STDOUT = outs evs STDOUT ++ so -> outs evs' STDERR = outs evs STDERR -> Forall is_output evs' ->
  active (sys w1) (s1 <| x_stdout := x_stdout s1 + zlen so |> <| x_stderr := x_stderr s1 + zlen se |>) evs' se.
Proof.
  intros Ha E Hd Eo Ee Hf. pose proof (request_extends _ _ _ _ _ E) as Hext. apply request_exchange in E as (op & Hop & E). apply decode_poll in Hop as ->.
  pose proof Ha as [Hok Hsub Hcur [Hseq Htok] Ho1 Ho2 [Hp1 Hp2] Hterm [Hobs Hres] Hevs]. rewrite app_nil_r in *.
  destruct (exchange_poll _ _ _ _ _ _ _ _ _ E Hok Hcur Hj) as (x1 & Hok1 & Hcur1 & Hv & [k1 Ek1] & [k2 Ek2]).
  pose proof (current_output x1 STDOUT Hok1 Hcur1) as Eout. pose proof (current_output x1 STDERR Hok1 Hcur1) as Eerr. cbn [output_of] in *.
  destruct (decode_reply x1.1 j s v s1 so se) as (-> & -> & _ & _ & Habs); try done;
    [rewrite <- Eout; by apply appended_bytes, Hok1|rewrite <- Eerr; by apply appended_bytes, Hok1|].
  assert (forall st, appended (sys w).2 j st `prefix_of` appended x1.2 j st) as Hx1 by (intros st; rewrite Ek1, appended_app; by eexists).
  assert (forall st, appended x1.2 j st `prefix_of` appended (sys w1).2 j st) as Hz by (intros st; rewrite Ek2, appended_app; by eexists).
  assert (forall t r o e, x_terminal s = Some (t, r, o, e) -> completed x1.2 j t o e r) as Hold.
  { intros t r o e [Hc _]%Hterm. unfold completed. rewrite Ek1. apply elem_of_app. by left. }
  pose proof (absorbed_term x1 s s1 Hok1 Hcur1 Habs Hold) as Hnew. destruct Habs as (st & tm & Hst & Es1 & _).
  assert (x_stdout s1 = x_stdout s /\ x_stderr s1 = x_stderr s /\ x_sequence s1 = x_sequence s /\ x_token s1 = x_token s /\
          x_observed s1 = x_observed s /\ x_result s1 = x_result s) as (F1 & F2 & F3 & F4 & F5 & F6) by (by subst s1).
  clear Es1. split; cbn [x_sequence x_token x_stdout x_stderr x_terminal x_phase x_sizes x_observed x_result setter];
    rewrite ?F1, ?F2, ?F3, ?F4, ?F5, ?F6, ?Eo, ?Ee; try done.
  - by apply Hext.
  - by apply (history_keeps (sys w) (sys w1) STDOUT Hext Hok).
  - eapply exchange_keep; [exact E| |done|done|done]. intros. apply not_elem_of_nil.
  - rewrite Ho1, zlen_app. done.
  - rewrite Ho2, zlen_app. done.
  - split; (etrans; [|apply Hz]); [rewrite <- Eout|rewrite <- Eerr]; (apply take_chunk_prefix; [by etrans|done]).
  - intros t r o e [Hc Hs]%Hnew. split; [|done]. unfold completed. rewrite Ek2. apply elem_of_app. by left.
Qed.

(** ** The generator *)

Definition waits (x : system) (s : session) (evs : list process_event) : Prop :=
  match x_iter s with
  | None | Some ItStarted | Some ItLooping => active x s evs []
  | Some (ItStdout lost b) => active x s evs b /\ lost = (x_phase s =? 3)
  | Some (ItStderr lost) => active x s evs [] /\ lost = (x_phase s =? 3)
  | Some ItStatus | Some ItEnded => ended x s evs
  end.

Definition resumed (evs : list process_event) (s : session) (w : W) (r : resumption) : Prop :=
  match r with Yield e => waits (sys w) s (evs ++ [e]) | _ => waits (sys w) s evs end.

Lemma failed_resumed evs s w r : failed evs s w r -> resumed evs s w r.
Proof. intros (e & -> & He & Ei). unfold resumed, waits. by rewrite Ei. Qed.

Lemma finished_resumed evs s w r : finished evs s w r -> resumed evs s w r.
Proof. intros (p & -> & He & Ei). unfold resumed, waits. by rewrite Ei. Qed.

(** The fields the generator's position does not touch. *)
Lemma active_iter x s evs pend it : active x s evs pend -> active x (s <| x_iter := it |>) evs pend.
Proof. by intros []. Qed.

Lemma settle_spec s w evs lost s' w' o : active (sys w) s evs [] -> lost = (x_phase s =? 3) -> settle s w lost = (s', w', o) ->
  match o with None => s' = s /\ w' = w | Some r => resumed evs s' w' r end.
Proof.
  intros Ha Hl. unfold settle. destruct lost.
  - destruct (iter_fail s w _) as [[s1 w1] r] eqn:E. intros H3. apply pair_equal_spec in H3 as [H3 <-]. apply pair_equal_spec in H3 as [<- <-].
    apply failed_resumed. eapply iter_fails; [by eapply active_ended|exact E].
  - destruct (x_terminal s) as [[[[t reason] out] err]|] eqn:Et.
    2:{ intros H3. apply pair_equal_spec in H3 as [H3 <-]. by apply pair_equal_spec in H3 as [<- <-]. }
    case_bool_decide as Hs.
    2:{ intros H3. apply pair_equal_spec in H3 as [H3 <-]. by apply pair_equal_spec in H3 as [<- <-]. }
    destruct (finish s w _) as [[s1 w1] r] eqn:E. intros H3. apply pair_equal_spec in H3 as [H3 <-]. apply pair_equal_spec in H3 as [<- <-].
    destruct (a_term _ _ _ _ Ha _ _ _ _ Et) as [_ Hsz]. rewrite Hsz in Hs by (by apply Z.eqb_neq). apply pair_equal_spec in Hs as [H1 H2].
    eapply finish_spec in E as [E|E]; [by apply failed_resumed|by apply finished_resumed|done|done|done|done].
Qed.

Lemma active_yield x s evs b st it : active x s evs (if decide (st = STDERR) then b else []) -> st = STDERR ->
  active x (s <| x_iter := it |>) (evs ++ [ProcessOutput st b]) [].
Proof.
  intros [] ->. cbn in *. split; try done; rewrite ?outs_snoc; cbn [out_of]; rewrite ?app_nil_r; try done.
  apply Forall_app. split; [done|]. by apply Forall_singleton.
Qed.

Lemma yield_stderr_spec s w evs lost b s' w' o : active (sys w) s evs b -> lost = (x_phase s =? 3) -> yield_stderr s w lost b = (s', w', o) ->
  match o with None => active (sys w') s' evs [] | Some r => resumed evs s' w' r end.
Proof.
  intros Ha Hl. unfold yield_stderr. destruct b as [|c b].
  - intros E. eapply settle_spec in E; [|done|done]. destruct o; [done|]. by destruct E as [-> ->].
  - intros H3. apply pair_equal_spec in H3 as [H3 <-]. apply pair_equal_spec in H3 as [<- <-]. unfold resumed, waits. cbn [x_iter setter].
    split; [|done]. by apply active_yield.
Qed.

Lemma iter_loop_spec fuel s w evs s' w' r : active (sys w) s evs [] -> iter_loop fuel s w = (s', w', r) -> resumed evs s' w' r.
Proof.
  revert s w. induction fuel as [|fuel IH]; intros s w Ha E; cbn [iter_loop] in E.
  { apply pair_equal_spec in E as [E <-]. apply pair_equal_spec in E as [<- <-]. unfold resumed, waits. cbn [x_iter setter]. by apply active_iter. }
  unfold session_request in E. destruct (session_dead s w).
  { apply failed_resumed. eapply iter_fails; [by eapply active_ended|exact E]. }
  destruct (client_request w "poll" (poll_fields s)) as [w1 [v|e]] eqn:Er.
  2:{ apply failed_resumed. eapply iter_fails; [|exact E]. eapply ended_ext; [by eapply active_ended|by eapply request_extends|done|done]. }
  destruct (decode s v) as [[[s1 so] se]|e] eqn:Ed.
  2:{ apply failed_resumed. eapply iter_fails; [|exact E]. eapply ended_ext; [by eapply active_ended|by eapply request_extends|done|done]. }
  cbv zeta in E. set (s2 := s1 <| x_stdout := _ |> <| x_stderr := _ |>) in E.
  destruct so as [|c so].
  - assert (active (sys w1) s2 evs se) as Ha1.
    { eapply (poll_active _ _ _ _ _ _ _ evs); try done; [by rewrite app_nil_r|apply Ha]. }
    destruct (yield_stderr s2 w1 _ se) as [[s3 w3] o] eqn:Ey.
    eapply yield_stderr_spec in Ey; [|exact Ha1|done]. destruct o as [r0|].
    { apply pair_equal_spec in E as [E <-]. by apply pair_equal_spec in E as [<- <-]. }
    destruct (idle_sleep w3) as [w4 [[]|e]] eqn:Es; apply sleep_law in Es; pose proof (active_env _ _ _ _ _ Ey Es) as Ha4.
    + by eapply IH.
    + apply failed_resumed. eapply iter_fails; [by eapply active_ended|exact E].
  - apply pair_equal_spec in E as [E <-]. apply pair_equal_spec in E as [<- <-]. unfold resumed, waits. cbn [x_iter setter]. split; [|done].
    apply active_iter. eapply (poll_active _ _ _ _ _ _ _ evs); try done.
    + by rewrite outs_snoc.
    + rewrite outs_snoc. cbn. by rewrite app_nil_r.
    + apply Forall_app. split; [apply Ha|]. by apply Forall_singleton.
Qed.

Lemma session_next_spec fuel s w evs s' w' r : waits (sys w) s evs -> session_next fuel s w = (s', w', r) -> resumed evs s' w' r.
Proof.
  intros Hw E. pose proof Hw as Hwaits. unfold session_next in E. cbv zeta in E. unfold waits in Hw. destruct (x_iter s) as [[| |lost b|lost| |]|] eqn:Ei.
  - by eapply iter_loop_spec.
  - by eapply iter_loop_spec.
  - destruct Hw as [Ha Hl]. destruct (session_dead s w).
    { apply failed_resumed. eapply iter_fails; [by eapply active_ended|exact E]. }
    destruct (yield_stderr s w lost b) as [[s1 w1] o] eqn:Ey. eapply yield_stderr_spec in Ey; [|done|done].
    destruct o as [r0|]; [|by eapply iter_loop_spec]. apply pair_equal_spec in E as [E <-]. by apply pair_equal_spec in E as [<- <-].
  - destruct Hw as [Ha Hl]. destruct (session_dead s w).
    { apply failed_resumed. eapply iter_fails; [by eapply active_ended|exact E]. }
    destruct (settle s w lost) as [[s1 w1] o] eqn:Ey. eapply settle_spec in Ey; [|done|done].
    destruct o as [r0|]; [|destruct Ey as [-> ->]; by eapply iter_loop_spec]. apply pair_equal_spec in E as [E <-]. by apply pair_equal_spec in E as [<- <-].
  - apply pair_equal_spec in E as [E <-]. apply pair_equal_spec in E as [<- <-]. unfold resumed, waits. cbn [x_iter setter].
    eapply ended_ext; [exact Hw|apply extends_refl|done|done].
  - apply pair_equal_spec in E as [E <-]. by apply pair_equal_spec in E as [<- <-].
  - apply pair_equal_spec in E as [E <-]. by apply pair_equal_spec in E as [<- <-].
Qed.
End run.

(** * Construction *)

Section init.
Context {W : Type} {tok : pystr} `{ExecLaws W tok}.
Implicit Types w : W.
Implicit Types s : session.

Lemma map_result_VStr (f : pyval -> result pystr) l k : (forall (x r : pystr), f (VStr x) = Ok r -> r = x) -> map_result f (map VStr l) = Ok k -> k = l.
Proof.
  intros Hf Hm. apply map_result_Ok in Hm. revert k Hm. induction l as [|a l IH]; intros k Hk; inversion Hk; subst; [done|]. f_equal; [by apply Hf|by apply IH].
Qed.

(** The request a session sends is read back as it was validated. *)
Lemma validate_again l ms rq : validate_exec_request (VList (map VStr l)) (VInt ms) = Ok rq -> rq = (l, ms).
Proof.
  unfold validate_exec_request. destruct (validate_exec_argv _) as [a|] eqn:Ea; [|done]. destruct (validate_exec_timeout _) as [t|] eqn:Et; [|done].
  intros <-%(inj Ok). unfold validate_exec_timeout in Et; apply v_int_range_Ok in Et as [[= <-] _]. f_equal. unfold validate_exec_argv in Ea. destruct (negb _); [done|].
  destruct (map_result _ _) as [k|] eqn:Ek; [|done]. apply map_result_VStr in Ek as ->.
  2:{ intros x r. destruct (bool_decide _); [done|]. by intros <-%(inj Ok). }
  cbn [result_bind] in Ea. destruct (bool_decide _); [done|]. destruct (existsb _ _); [done|]. destruct (canonical_json_bytes _); [|done].
  destruct (_ <? _); [done|]. by apply (inj Ok) in Ea.
Qed.

Lemma decode_submit a b c d op : decode_exec_operation "submit" [(u "sequence", a); (u "token", b); (u "argv", c); (u "timeout_ms", d)] = Ok op ->
  op = OpSubmit a b c d /\ is_ok (exec_identity a b) = true /\ is_ok (validate_exec_request c d) = true.
Proof.
  unfold decode_exec_operation. set (l := [_; _; _; _]).
  assert (l.["sequence"] = a /\ l.["token"] = b /\ l.["argv"] = c /\ l.["timeout_ms"] = d) as (-> & -> & -> & ->) by (split_and!; by vm_compute).
  cbn [String.eqb Ascii.eqb Bool.eqb]. destruct (negb _); [done|]. destruct (exec_identity a b); [|done].
  cbn [result_bind]. destruct (validate_exec_request c d); [|done]. cbn [result_bind is_ok]. by intros <-%(inj Ok).
Qed.

Lemma exec_identity_Ok q t id : exec_identity (VInt q) (VStr t) = Ok id -> id = (q, t).
Proof.
  unfold exec_identity. destruct (v_int_range _ _ _ _) as [q'|] eqn:E; [|done]. apply v_int_range_Ok in E as [[= <-] _]. cbn [result_bind].
  destruct (bool_decide (uuid_str t = Some t)); [by intros <-%(inj Ok)|done].
Qed.

(** A session that was constructed owns a job of the mailbox. *)
Lemma open_spec s w argv ms s' w' : sys_ok (sys w) -> x_stdout s = 0 -> x_stderr s = 0 -> x_terminal s = None -> x_observed s = None ->
  x_result s = None -> x_iter s = None -> x_consumed s = false -> session_open s w argv ms = (s', w', Ok tt) ->
  exists j rq, validate_exec_request argv ms = Ok rq /\ j = ExecJob (job_sequence j) tok rq.1 rq.2 /\ active j (sys w') s' [] [] /\
    x_iter s' = None /\ x_consumed s' = false.
Proof.
  intros Hok P1 P2 P3 P4 P5 P6 P7. unfold session_open. destruct (validate_exec_request argv ms) as [rq|] eqn:Erq; [|done].
  destruct (new_token w) as [w1 t] eqn:Et. apply token_law in Et as [-> Henv1].
  destruct (client_open w1) as [w2 [[]|]] eqn:Eop; [|done]. apply open_law in Eop. unfold session_request at 1.
  destruct (session_dead _ w2); [done|]. destruct (client_request w2 "status" []) as [w3 [v|]] eqn:Est; [|done]. apply request_extends in Est.
  destruct (validate_exec_status v) as [st|]; [|done]. destruct (require_ready st) as [[]|]; [|done].
  set (s1 := s <| x_token := tok |> <| x_client := true |> <| x_sequence := st_next_sequence st |>). unfold session_request.
  destruct (session_dead s1 w3); [done|]. destruct (client_request w3 "submit" _) as [w4 [v2|]] eqn:Esub; [|done].
  destruct (decode s1 v2) as [[[s2 so] se]|] eqn:Ed; [|done]. intros E. apply pair_equal_spec in E as [E _]. apply pair_equal_spec in E as [<- <-].
  assert (sys_ok (sys w3)) as Hok3 by (apply Est, (env_extends _ _ _ Eop), (env_extends _ _ _ Henv1); done).
  apply request_exchange in Esub as (op & Hop & Ex). apply decode_submit in Hop as (-> & Hid & Hrq).
  destruct (exec_identity _ _) as [id|] eqn:Eid; [|done]. destruct (validate_exec_request (VList _) _) as [rq'|] eqn:Erq'; [|done].
  destruct (exchange_submit _ _ _ _ _ _ _ _ _ _ Ex Hok3 Eid Erq') as (x1 & Hok1 & Hcur & Hsub & Hv & Henv). clear Ex.
  apply exec_identity_Ok in Eid as ->. apply validate_again in Erq' as ->. cbn [fst snd x_sequence x_token s1 setter] in *.
  set (j := ExecJob _ _ _ _) in *. exists j, rq. split; [done|]. split; [done|].
  pose proof (current_output j x1 STDOUT Hok1 Hcur) as Eout. pose proof (current_output j x1 STDERR Hok1 Hcur) as Eerr. cbn [output_of] in *.
  destruct (decode_reply x1.1 j s1 v2 s2 so se) as (_ & _ & Hseq & Htok & Habs); try done.
  { rewrite <- Eout. by apply appended_bytes, Hok1. }
  { rewrite <- Eerr. by apply appended_bytes, Hok1. }
  { unfold s1. cbn [x_stdout x_stderr setter]. by rewrite P1, P2. }
  assert (forall t r o e, x_terminal s1 = Some (t, r, o, e) -> completed x1.2 j t o e r) as Hold by (unfold s1; cbn [x_terminal setter]; congruence).
  pose proof (absorbed_term j (eq_refl : job_token j = tok) x1 s1 s2 Hok1 Hcur Habs Hold) as Hnew. destruct Habs as (jst & tm & _ & Es2 & _).
  split; [|by subst s2]. apply (active_env j eq_refl x1); [|exact Henv].
  split; try done; try (subst s2; unfold s1; cbn; done). all: subst s2; unfold s1; cbn [x_stdout x_stderr setter]; try (by rewrite P1); try (by rewrite P2).
  split; apply prefix_nil.
Qed.
End init.

(** * Runs *)

Section runs.
Context {W : Type} {tok : pystr} `{ExecLaws W tok}.
Implicit Types w : W.
Implicit Types s : session.

(** One operation of the session's owner, or a step of the rest of the system. *)
Inductive session_step : session * W -> list process_event -> session * W -> Prop :=
| ss_events s w s' r : session_events s w = (s', r) -> session_step (s, w) [] (s', w)
| ss_yield fuel s w s' w' e : session_next fuel s w = (s', w', Yield e) -> session_step (s, w) [e] (s', w')
| ss_silent fuel s w s' w' r : session_next fuel s w = (s', w', r) -> (forall e, r <> Yield e) -> session_step (s, w) [] (s', w')
| ss_close s w : session_step (s, w) [] (session_close s w)
| ss_world s w w' : env tok (sys w) (sys w') -> session_step (s, w) [] (s, w').

Inductive session_run (x : session * W) : list process_event -> session * W -> Prop :=
| sr_nil : session_run x [] x
| sr_snoc evs y evs' z : session_run x evs y -> session_step y evs' z -> session_run x (evs ++ evs') z.

(** ** [consumed] is set once *)

Definition same_consumed {A} (s : session) (x : session * W * A) : Prop := x_consumed x.1.1 = x_consumed s.

Lemma close_consumed s w : x_consumed (session_close s w).1 = x_consumed s.
Proof. done. Qed.

Lemma fail_consumed s w e : same_consumed s (iter_fail s w e).
Proof. unfold same_consumed, iter_fail. destruct (x_recording s); [|done]. by destruct (session_close s w) eqn:E; apply pair_equal_spec in E as [<- _]. Qed.

Lemma recording_consumed s w e : same_consumed s (recording_fail s w e).
Proof.
  unfold recording_fail. pose proof (close_consumed s w) as Hc. destruct (session_close s w) as [s1 w1]. cbn [fst] in Hc.
  unfold same_consumed. rewrite <- Hc. apply fail_consumed.
Qed.

Lemma finish_consumed s w e : same_consumed s (finish s w e).
Proof.
  destruct e as [[[t reason] out] err]. unfold finish. destruct (session_dead s w); [by etrans; [apply fail_consumed|]|].
  destruct (observation_init _ _ _ _ _) as [o|]; [|by etrans; [apply fail_consumed|]].
  destruct (if x_writer _ then _ else _) as [w1 [[]|]]; [|by etrans; [apply recording_consumed|]]. destruct (acknowledge_completion _ _) as [w2 [[]|]]; [|by etrans; [apply fail_consumed|]].
  destruct (if x_writer _ then _ else _) as [w3 [[]|]]; [|by etrans; [apply recording_consumed|]].
  destruct (session_close _ w3) as [s4 w4] eqn:E. pose proof (f_equal fst E) as Ec. cbn [fst] in Ec.
  assert (x_consumed s4 = x_consumed s) as Hs by (by rewrite <- Ec). unfold same_consumed. rewrite <- Hs.
  destruct (negb _); [by etrans; [apply fail_consumed|]|]. destruct t; [done|by etrans; [apply fail_consumed|]].
Qed.

Lemma settle_consumed s w lost : same_consumed s (settle s w lost).
Proof.
  unfold settle. destruct lost; [pose proof (fail_consumed s w "OCI exec control was lost") as Hf; by destruct (iter_fail _ _ _) as [[? ?] ?]|].
  destruct (x_terminal s) as [e|]; [|done]. destruct (bool_decide _); [|done]. pose proof (finish_consumed s w e) as Hf. by destruct (finish s w e) as [[? ?] ?].
Qed.

Lemma yield_consumed s w lost b : same_consumed s (yield_stderr s w lost b).
Proof. unfold yield_stderr. destruct b; [apply settle_consumed|done]. Qed.

Lemma decode_consumed s v s' so se : decode s v = Ok (s', so, se) -> x_consumed s' = x_consumed s.
Proof.
  unfold decode. intros E. destruct v; try done. destruct (negb _); [done|]. destruct (v_int_range _ _ _ _); [|done]. cbn [result_bind] in E.
  destruct (negb _); [done|]. destruct (d.["state"]); try done. destruct (phase_of _); [|done]. destruct (_ <? _); [done|].
  destruct (decode_stream _ _ _ _ _ _); [|done]. cbn [result_bind] in E. destruct (decode_stream _ _ _ _ _ _); [|done]. cbn [result_bind] in E.
  destruct (_ <? _); [done|]. destruct (decode_completion _ _ _ _) as [c|]; [|done]. cbn [result_bind] in E.
  destruct (match c with Some _ => _ | None => _ end); [done|]. apply (inj Ok) in E. apply pair_equal_spec in E as [E _].
  apply pair_equal_spec in E as [<- _]. by destruct c.
Qed.

Lemma loop_consumed fuel s w : same_consumed s (iter_loop fuel s w).
Proof.
  revert s w. induction fuel as [|fuel IH]; intros s w; [done|]. cbn [iter_loop]. destruct (session_request _ _ _ _) as [w1 [v|]]; [|apply fail_consumed].
  destruct (decode s v) as [[[s1 so] se]|] eqn:Ed; [|apply fail_consumed]. apply decode_consumed in Ed. cbv zeta. set (s2 := s1 <| x_stdout := _ |> <| x_stderr := _ |>).
  assert (x_consumed s2 = x_consumed s) as Hs by done. destruct so; [|done]. pose proof (yield_consumed s2 w1 (x_phase s2 =? 3) se) as Hy.
  destruct (yield_stderr s2 w1 _ se) as [[s3 w3] [r|]]; unfold same_consumed in *; cbn [fst] in *; [congruence|].
  destruct (idle_sleep w3) as [w4 [[]|]]; [rewrite IH; congruence|]. rewrite fail_consumed. congruence.
Qed.

Lemma next_consumed fuel s w : same_consumed s (session_next fuel s w).
Proof.
  unfold session_next. cbv zeta. destruct (x_iter s) as [[| |lost b|lost| |]|]; try apply loop_consumed; try done.
  - destruct (session_dead s w); [apply fail_consumed|]. pose proof (yield_consumed s w lost b) as Hy.
    destruct (yield_stderr s w lost b) as [[s1 w1] [r|]]; unfold same_consumed in *; cbn [fst] in *; [done|]. by rewrite loop_consumed.
  - destruct (session_dead s w); [apply fail_consumed|]. pose proof (settle_consumed s w lost) as Hy.
    destruct (settle s w lost) as [[s1 w1] [r|]]; unfold same_consumed in *; cbn [fst] in *; [done|]. by rewrite loop_consumed.
Qed.

(** ** The invariant of a run *)

Definition session_inv (j : exec_job) (x : session * W) (evs : list process_event) : Prop :=
  waits j (sys x.2) x.1 evs /\ (x_iter x.1 = None \/ x_consumed x.1 = true).

Lemma waits_env j x y s s' evs : job_token j = tok -> waits j x s evs -> env tok x y -> x_iter s' = x_iter s ->
  (forall pend, active j y s evs pend -> active j y s' evs pend) -> x_phase s' = x_phase s -> x_observed s' = x_observed s -> x_result s' = x_result s ->
  waits j y s' evs.
Proof.
  intros Hj Hw He Ei Ha Ep Eo Er. unfold waits in *. rewrite Ei, Ep. destruct (x_iter s) as [[| |lost b|lost| |]|].
  all: try (apply Ha; by eapply active_env). all: try (destruct Hw as [Hw Hl]; split; [|done]; apply Ha; by eapply active_env).
  all: by eapply ended_ext; [exact Hw|eapply env_extends; exact He| |].
Qed.

Lemma session_step_inv j x evs evs' y : job_token j = tok -> session_step x evs' y -> session_inv j x evs -> session_inv j y (evs ++ evs').
Proof.
  intros Hj Hs [Hw Hc]. destruct Hs as [s w s' r E|fuel s w s' w' e E|fuel s w s' w' r E Hr|s w|s w w' E]; cbn [fst snd] in *.
  - rewrite app_nil_r. unfold session_events in E. destruct (x_consumed s) eqn:Ec; cbn [orb] in E.
    { apply pair_equal_spec in E as [<- _]. split; [done|by right]. }
    destruct (session_dead s w); [apply pair_equal_spec in E as [<- _]; unfold session_inv; cbn [fst snd]; rewrite Ec; done|]. destruct Hc as [Hc|Hc]; [|congruence].
    apply pair_equal_spec in E as [<- _]. split; [|by right]. unfold waits in *. rewrite Hc in Hw. cbn [fst x_iter setter]. by destruct Hw.
  - pose proof (next_consumed fuel s w) as Hn. rewrite E in Hn. split.
    + eapply session_next_spec in E; [exact E|done|done].
    + right. cbn [fst]. unfold same_consumed in Hn. cbn [fst] in Hn. rewrite Hn. destruct Hc as [Hc|Hc]; [|done].
      exfalso. unfold session_next in E. rewrite Hc in E. done.
  - pose proof (next_consumed fuel s w) as Hn. rewrite E in Hn. rewrite app_nil_r. destruct Hc as [Hc|Hc].
    + unfold session_next in E. rewrite Hc in E. apply pair_equal_spec in E as [E _]. apply pair_equal_spec in E as [<- <-]. split; [done|by left].
    + split; [|right; unfold same_consumed in Hn; cbn [fst] in *; congruence]. eapply session_next_spec in E; [|done|done]. unfold resumed in E. destruct r; try done. by destruct (Hr e).
  - rewrite app_nil_r. destruct (session_close s w) as [s' w'] eqn:E. pose proof (close_spec _ _ _ _ E) as (Henv & Eo & Er).
    unfold session_close in E. apply pair_equal_spec in E as [<- _]. split; [|done]. eapply waits_env; try done. by intros pend [].
  - rewrite app_nil_r. split; [|done]. by eapply waits_env.
Qed.
End runs.

(** * Properties *)

Lemma sorted_NoDup l : StronglySorted Z.lt l -> NoDup l.
Proof.
  induction 1 as [|a l _ IH Ha]; constructor; [|done]. intros Hin. rewrite Forall_forall in Ha. specialize (Ha a Hin). lia.
Qed.

Lemma run_extends x cs : sys_inv x -> exists k, (sys_run x cs).2 = x.2 ++ k.
Proof.
  revert x. induction cs as [|c cs IH]; intros x Hi; [exists []; by rewrite app_nil_r|]. cbn [sys_run foldl].
  destruct (IH (sys_call x c) (sys_call_inv _ _ Hi)) as [k Ek]. unfold sys_run in Ek. rewrite Ek. unfold sys_call.
  destruct (apply_call x.1 c) as [m evs]. exists (evs ++ k). by rewrite app_assoc.
Qed.

(** The output of a completed job does not change any more. *)
Lemma completed_output x y j t out err r st : sys_inv x -> sys_inv y -> (exists k, y.2 = x.2 ++ k) -> completed x.2 j t out err r ->
  appended y.2 j st = appended x.2 j st.
Proof.
  intros Hx Hy [k Ek] Hc. pose proof (i_completed _ Hx _ _ _ _ _ Hc) as (_ & E1 & E2 & _).
  assert (completed y.2 j t out err r) as Hc' by (unfold completed; rewrite Ek; apply elem_of_app; by left).
  apply (i_completed _ Hy) in Hc' as (_ & E1' & E2' & _). rewrite Ek in E1', E2' |- *. rewrite appended_app in E1', E2' |- *.
  rewrite zlen_app in E1', E2'. destruct st.
  - destruct (appended k j STDOUT); [by rewrite app_nil_r|]. rewrite zlen_cons in E1'. pose proof (zlen_nonneg l). lia.
  - destruct (appended k j STDERR); [by rewrite app_nil_r|]. rewrite zlen_cons in E2'. pose proof (zlen_nonneg l). lia.
Qed.

(** C21: whatever calls the clients and the transport make in whatever order, the jobs
    handed to the guest were submitted and have increasing sequences, so none is
    executed twice; the output kept never exceeds its limit; the output of a
    completed job is final; a resubmission of the current request changes nothing
    and answers with its state; a submission under another sequence is refused. *)
Theorem exec_at_most_once cs : let x := sys_run (mailbox_init, []) cs in
  StronglySorted Z.lt (map job_sequence (taken x.2)) /\ (forall j, j ∈ taken x.2 -> Submitted j ∈ x.2) /\
  zlen (mb_stdout x.1) + zlen (mb_stderr x.1) <= MAX_EXEC_OUTPUT /\
  (forall j t out err r, Completed j t out err r ∈ x.2 -> j ∈ taken x.2 /\ forall cs' st, appended (sys_run x cs').2 j st = appended x.2 j st) /\
  (forall sequence token argv timeout id rq, exec_identity sequence token = Ok id -> validate_exec_request argv timeout = Ok rq ->
    (mb_job x.1 = Some (ExecJob id.1 id.2 rq.1 rq.2) -> exists v, submit x.1 sequence token argv timeout = (x.1, Ok v)) /\
    (id.1 <> mb_next x.1 -> submit x.1 sequence token argv timeout = (x.1, Err "stale-sequence"))).
Proof.
  intros x. pose proof (sys_run_inv _ cs sys_init_inv) as Hi. fold x in Hi. split; [apply Hi|]. split; [intros j Hin; by apply (i_taken _ Hi)|].
  split; [apply Hi|]. split.
  - intros j t out err r Hc. split; [apply (i_completed _ Hi _ _ _ _ _ Hc)|]. intros cs' st.
    eapply completed_output; [exact Hi|by apply sys_run_inv|by apply run_extends|exact Hc].
  - intros sequence token argv timeout id rq Hid Hrq. unfold submit. rewrite Hid, Hrq. split.
    + intros Hcur. pose proof (i_job _ Hi) as Hjob. unfold job_inv in Hjob. rewrite Hcur in *. destruct (mb_job_state x.1); [|done].
      destruct Hjob as (Hseq & _). cbn [job_sequence] in Hseq. rewrite (bool_decide_eq_true_2 (id.1 = _)) by done. cbn [negb].
      rewrite (bool_decide_eq_true_2 (ExecJob _ _ _ _ = _)) by done. cbn [negb]. unfold poll_value, offset_ok, v_int_range. rewrite Hcur.
      rewrite !(proj2 (Z.leb_le 0 _)) by (auto using zlen_nonneg with lia). cbn [andb result_bind]. by eexists.
    + intros Hne. by rewrite (bool_decide_eq_false_2 (id.1 = _)).
Qed.

Section properties.
Context {W : Type} {tok : pystr} `{ExecLaws W tok}.
Implicit Types w : W.

(** C11: a session that was constructed owns one job of the mailbox, with the argv
    and the timeout it validated. Under any interleaving with other clients, the
    transport and lost or repeated exchanges, the output it yields is a prefix of
    the output appended to that job; once it observed a completion, the output is
    all of it and the observation is the completion the transport reported; and
    its status event comes last, after the acknowledgement. The job is executed at
    most once. *)
Theorem exec_session_exact w0 argv timeout writer s0 w1 evs s w : sys_ok (sys w0) -> session_init w0 argv timeout writer = (s0, w1, Ok tt) ->
  session_run (s0, w1) evs (s, w) -> let h := (sys w).2 in
  exists j rq, validate_exec_request argv timeout = Ok rq /\ j = ExecJob (job_sequence j) tok rq.1 rq.2 /\ Submitted j ∈ h /\ NoDup (taken h) /\
    (forall st, outs evs st `prefix_of` appended h j st) /\
    (forall o, x_observed s = Some o -> j ∈ taken h /\ (forall st, outs evs st = appended h j st) /\
      exists t, Completed j t (ob_stdout_bytes o) (ob_stderr_bytes o) (ob_reason o) ∈ h /\ ob_terminal o = process_exit_of <$> t) /\
    (forall p, ProcessStatus p ∈ evs -> status_ok j s evs h p).
Proof.
  intros Hok Hinit Hrun h. unfold session_init in Hinit. destruct (session_open _ w0 argv timeout) as [[s1 w2] [[]|e]] eqn:Eo.
  2:{ by destruct (session_close s1 w2). }
  apply pair_equal_spec in Hinit as [Hinit _]. apply pair_equal_spec in Hinit as [-> ->].
  apply open_spec in Eo as (j & rq & Hrq & Ej & Ha & Ei & Ec); try done. exists j, rq. split; [done|]. split; [done|].
  assert (job_token j = tok) as Hj by (by rewrite Ej).
  assert (session_inv j (s, w) evs) as [Hw _].
  { induction Hrun as [|evs y evs' z _ IH Hstep]; [split; [by unfold waits; cbn [fst]; rewrite Ei|by left]|]. by eapply session_step_inv. }
  cbn [fst snd] in Hw. assert (ended j (sys w) s evs) as [[Hi _] Hsub Hpre Hobs Hst _].
  { unfold waits in Hw. destruct (x_iter s) as [[| |lost b|lost| |]|]; try done; try (by eapply active_ended). all: destruct Hw as [Hw _]; by eapply active_ended. }
  split; [done|]. split; [by eapply NoDup_fmap_1, sorted_NoDup, (i_sorted _ Hi)|]. split; [done|]. split; [|done].
  intros o (t & out & err & r & Hc & Et & Er & Eout & Eerr & Lo & Le)%Hobs. pose proof (i_completed _ Hi _ _ _ _ _ Hc) as (Htaken & Ao & Ae & _).
  split; [done|]. split; [|exists t; split; [by rewrite Er, Eout, Eerr|done]].
  intros st. destruct (Hpre st) as [k Ek]. assert (zlen (outs evs st) = zlen (appended h j st)) as El by (destruct st; [by rewrite Lo, Ao|by rewrite Le, Ae]).
  change (sys w).2 with h in Ek. rewrite Ek in El |- *. rewrite zlen_app in El. destruct k; [by rewrite app_nil_r|]. rewrite zlen_cons in El. pose proof (zlen_nonneg k). lia.
Qed.
End properties.

(** * A concrete run *)

Definition ex_token : pystr := u "12345678-1234-1234-1234-123456789abc".

(** What the transport does between two exchanges of the session. *)
Inductive demo_act := DTake | DAppend (stream : exec_stream) (text : string) | DComplete (code : Z).

Definition demo_job (m : mailbox) : exec_job := match mb_job m with Some job => job | None => ExecJob 0 [] [] 0 end.
Definition demo_call (m : mailbox) (a : demo_act) : call :=
  match a with
  | DTake => CTake
  | DAppend stream text => CAppend (demo_job m) stream (zlen (output_of m stream)) (map (fun c => c mod 256) (u text))
  | DComplete code => CComplete (demo_job m) (terminal_value (Terminal (Some code) None)) (zlen (mb_stdout m)) (zlen (mb_stderr m)) (u "completed")
  end.
Definition demo_acts (x : system) (l : list demo_act) : system := foldl (fun x a => sys_call x (demo_call x.1 a)) x l.

Record demo := Demo { demo_sys : system; demo_script : list (list demo_act) }.

(** Every exchange is served twice: its first answer is lost. *)
Definition demo_serve (x : system) (op : exec_operation) : system * result pyval :=
  let worker := Some (WorkerView false false false "ready") in
  let x := sys_call x (CServe worker op) in
  (sys_call x (CServe worker op), (serve_exec_request worker op x.1).2).

Definition demo_request (w : demo) (operation : string) (payload : list (pystr * pyval)) : demo * result pyval :=
  let x := demo_acts (demo_sys w) (hd [] (demo_script w)) in
  match decode_exec_operation operation payload with
  | Err e => (Demo x (tl (demo_script w)), Err e)
  | Ok op => let ' (x, r) := demo_serve x op in (Demo x (tl (demo_script w)), r)
  end.

#[export] Instance demo_world : ExecWorld demo := {
  forked _ := false;
  new_token w := (w, ex_token);
  client_open w := (w, Ok tt);
  client_request := demo_request;
  client_close w := w;
  idle_sleep w := (w, Ok tt);
  publish_observed w _ := (w, Ok tt);
  publish_confirmed w _ := (w, Ok tt);
  writer_close w := w;
}.

Lemma demo_call_ok m a : call_ok ex_token (demo_call m a).
Proof.
  destruct a as [|stream text|code]; try done. cbn. apply Forall_map, Forall_forall. intros c _. unfold is_byte. apply Z.mod_pos_bound. lia.
Qed.

Lemma env_refl tok x : env tok x x.
Proof. by exists []. Qed.

Lemma demo_acts_env x l : env ex_token x (demo_acts x l).
Proof.
  revert x. induction l as [|a l IH]; intros x; [apply env_refl|]. destruct (IH (sys_call x (demo_call x.1 a))) as (cs & Hcs & E).
  exists (demo_call x.1 a :: cs). split; [constructor; [apply demo_call_ok|done]|done].
Qed.

Lemma exchange_env tok op x y r z : env tok x y -> exchange tok op y r z -> exchange tok op x r z.
Proof. intros (cs & Hcs & ->). revert x. induction Hcs as [|c cs Hc _ IH]; intros x H; [done|]. eapply ex_env; [done|]. by apply IH. Qed.

#[export] Instance demo_laws : ExecLaws demo ex_token.
Proof.
  refine {| sys := demo_sys |}; cbn; try (intros; simplify_eq; apply env_refl).
  - intros w w' t E. simplify_eq. split; [done|apply env_refl].
  - intros w operation payload w' r. unfold demo_request. set (x := demo_acts _ _).
    assert (env ex_token (demo_sys w) x) as He by apply demo_acts_env.
    destruct (decode_exec_operation operation payload) as [op|e]; [|intros E; apply pair_equal_spec in E as [<- <-]; split; [by exists e|done]].
    unfold demo_serve. set (worker := Some _). intros E. apply pair_equal_spec in E as [<- <-]. cbn [demo_sys].
    eapply exchange_env; [exact He|]. apply (ex_lost _ _ _ worker). set (y := sys_call x _).
    destruct (serve_exec_request worker op y.1) as [m' r'] eqn:Es. cbn [snd]. destruct r' as [v|e].
    + eapply (ex_reply _ _ _ worker); [by rewrite Es|apply env_refl].
    + apply (ex_lost _ _ _ worker), ex_fail.
Defined.

Definition ex_script : list (list demo_act) := [[]; []; [DTake; DAppend STDOUT "hi"]; [DAppend STDERR "!"; DComplete 0]].
Definition ex_world : demo := Demo (mark_ready mailbox_init, []) ex_script.
Definition ex_argv : pyval := VTuple [VStr (u "ls"); VStr (u "-l")].
Definition ex_init : session * demo * result unit := session_init ex_world ex_argv (VInt 1000) false.
Definition ex_start : session * demo := ((session_events ex_init.1.1 ex_init.1.2).1, ex_init.1.2).
Definition ex_next (x : session * demo) : session * demo := (session_next 9 x.1 x.2).1.
Definition ex_end : session * demo := ex_next (ex_next (ex_next ex_start)).
Definition ex_exit : process_exit := ProcessExit 0 (Some 0) None.
Definition ex_events : list process_event := [ProcessOutput STDOUT (u "hi"); ProcessOutput STDERR (u "!"); ProcessStatus ex_exit].

Lemma demo_next_step x e : (session_next 9 x.1 x.2).2 = Yield e -> session_step x [e] (ex_next x).
Proof.
  destruct x as [s w]. unfold ex_next. cbn [fst snd]. destruct (session_next 9 s w) as [[s' w'] r] eqn:E. cbn [fst snd]. intros ->.
  by eapply (ss_yield (tok := ex_token)).
Qed.

Lemma demo_run : session_run (tok := ex_token) (ex_init.1.1, ex_init.1.2) ex_events ex_end.
Proof.
  apply (sr_snoc _ [ProcessOutput STDOUT (u "hi"); ProcessOutput STDERR (u "!")] (ex_next (ex_next ex_start)) [_]);
    [|apply demo_next_step; by vm_compute].
  apply (sr_snoc _ [ProcessOutput STDOUT (u "hi")] (ex_next ex_start) [_]); [|apply demo_next_step; by vm_compute].
  apply (sr_snoc _ [] ex_start [_]); [|apply demo_next_step; by vm_compute].
  apply (sr_snoc _ [] (ex_init.1.1, ex_init.1.2) []); [apply sr_nil|]. eapply ss_events. apply surjective_pairing.
Qed.

Lemma ex_init_Ok : ex_init.2 = Ok tt.
Proof. by vm_compute. Qed.

Lemma ex_sys_ok : sys_ok (sys ex_world).
Proof.
  split; [|intros j s d Hin; change (Appended j s d ∈ []) in Hin; by apply not_elem_of_nil in Hin].
  change (sys ex_world) with (sys_call (mailbox_init, []) CReady). apply sys_call_inv, sys_init_inv.
Qed.

Lemma exec_session_exact_witness : exists j, Submitted j ∈ (sys ex_end.2).2 /\ outs ex_events STDOUT `prefix_of` appended (sys ex_end.2).2 j STDOUT /\
  outs ex_events STDOUT = u "hi".
Proof.
  destruct (exec_session_exact (tok := ex_token) ex_world ex_argv (VInt 1000) false ex_init.1.1 ex_init.1.2 ex_events ex_end.1 ex_end.2)
    as (j & rq & _ & _ & Hsub & _ & Hpre & _).
  - exact ex_sys_ok.
  - rewrite <- ex_init_Ok. unfold ex_init. destruct (session_init _ _ _ _) as [[? ?] ?]. reflexivity.
  - rewrite <- (surjective_pairing ex_end). exact demo_run.
  - exists j. split; [exact Hsub|]. split; [exact (Hpre STDOUT)|by vm_compute].
Defined.

(** The stop control hands its request over once. *)
Inductive stop_call := StopRequest (deadline : Z) | StopReady | StopTake | StopObserved | StopTerminal | StopLost.
Definition apply_stop (c : stop_control) (k : stop_call) : stop_control * bool :=
  match k with
  | StopRequest deadline => ((stop_request c deadline).1, false)
  | StopReady => (stop_mark_ready c, false)
  | StopTake => take_stop c
  | StopObserved => (mark_observed_terminal c, false)
  | StopTerminal => (mark_terminal c, false)
  | StopLost => (mark_control_lost c, false)
  end.

Definition stop_step (x : stop_control * nat) (k : stop_call) : stop_control * nat :=
  let ' (c, b) := apply_stop x.1 k in (c, if b then S x.2 else x.2).
Definition stop_run (x : stop_control * nat) (ks : list stop_call) : stop_control * nat := foldl stop_step x ks.

Definition stop_inv (x : stop_control * nat) : Prop :=
  x.2 = (if sc_taken x.1 then 1 else 0)%nat /\ (sc_taken x.1 = true -> sc_accepted x.1 = true) /\ (sc_accepted x.1 = true -> sc_deadline x.1 <> None).

Lemma stop_step_inv x k : stop_inv x -> stop_inv (stop_step x k).
Proof.
  destruct x as [[st acc tk dl] n]. unfold stop_inv, stop_step. cbn [fst snd sc_taken sc_accepted sc_deadline]. intros (-> & H1 & H2).
  destruct k, st, acc, tk; cbn; naive_solver.
Qed.

Definition stop_final (s : stop_state) : Prop := s = STOP_TERMINAL \/ s = STOP_CONTROL_LOST.

Lemma stop_run_final x ks : stop_final (sc_state x.1) -> sc_state (stop_run x ks).1 = sc_state x.1.
Proof.
  revert x. induction ks as [|k ks IH]; intros x Hx; [done|]. cbn [stop_run foldl].
  assert (sc_state (stop_step x k).1 = sc_state x.1) as E.
  { destruct x as [[st acc tk dl] n]. unfold stop_step. cbn in Hx. destruct Hx as [-> | ->]; destruct k, acc, tk; done. }
  unfold stop_run in IH. rewrite IH by (by rewrite E). done.
Qed.

Lemma stop_run_inv x ks : stop_inv x -> stop_inv (stop_run x ks).
Proof. revert x. induction ks as [|k ks IH]; intros x Hx; [done|]. apply IH. by apply stop_step_inv. Qed.

(** Whatever the order of requests, of the transport's reports and of its
    takes, a stop is handed to the transport at most once, and only after it was
    accepted, with a deadline; a request answered "stop-accepted" is accepted; and
    a terminal or lost control stays so. *)
Theorem stop_taken_once ks : let x := stop_run (stop_control_init, O) ks in
  (x.2 <= 1)%nat /\ (x.2 = 1%nat -> sc_accepted x.1 = true /\ sc_deadline x.1 <> None) /\
  (forall deadline, let ' (c, answer) := stop_request x.1 deadline in answer = "stop-accepted"%string -> sc_accepted c = true) /\
  (forall ks', stop_final (sc_state x.1) -> sc_state (stop_run x ks').1 = sc_state x.1).
Proof.
  intros x. assert (stop_inv x) as (Hn & Ht & Hd) by (apply stop_run_inv; by split_and!).
  split; [rewrite Hn; destruct (sc_taken x.1); lia|]. split.
  - intros E. rewrite E in Hn. destruct (sc_taken x.1); [|done]. specialize (Ht eq_refl). split; [done|by apply Hd].
  - split; [|intros ks'; apply stop_run_final]. intros deadline. destruct x.1 as [st acc tk dl]. by destruct st, acc.
Qed.
