(* ===== verification/Transport.v ===== *)
(** The transport of a boot's lifecycle ([oci_lifecycle_transport.py]): the bridge
    between a host session of protocol v2, the stream of the guest, and the two
    objects the monitor shares with it, the stop control and the mailbox of guest
    executions.

    The stream, the clock and the callbacks are the interface [TransportWorld].
    The clock counts milliseconds.  Other threads of the monitor act on the shared
    objects between any two actions of the transport: before each access the
    transport catches up with what they did ([sync]). *)
From S2P Require Import Prelude Crypto PyStr PyVal Regex Json Digest ExecControl ExecSession ControlV2Wire ControlV2Codec ControlV2Session.

(** * Receipts *)

Inductive receipt_phase := PhaseReady | PhaseTerminal.
#[export] Instance receipt_phase_eq_dec : EqDecision receipt_phase.
Proof. solve_decision. Defined.
Definition receipt_phase_name (p : receipt_phase) : string := match p with PhaseReady => "ready" | PhaseTerminal => "terminal" end.

(** [OCILifecycleHandoffReceipt] *)
Record receipt := Receipt {
  rc_boot_attempt_id : pystr;
  rc_boot_generation : pystr;
  rc_key_id : pystr;
  rc_phase : receipt_phase;
  rc_transcript : list (list (pystr * pyval));
  rc_terminal : option process_exit;
}.

(** [__post_init__] *)
Definition receipt_init (attempt generation key_id : pystr) (phase : receipt_phase) (transcript : list (list (pystr * pyval)))
    (terminal : option process_exit) : result receipt :=
  raise "OCI-root lifecycle receipt boot identity is invalid"
    when negb (bool_decide (uuid_str attempt = Some attempt)) || negb (bool_decide (uuid_str generation = Some generation)) ;;
  raise "OCI-root lifecycle receipt key ID is invalid" when negb (fullmatch digest_re key_id) ;;
  raise "OCI-root lifecycle receipt phase is invalid"
    when negb match phase, terminal with PhaseReady, None | PhaseTerminal, Some _ => true | _, _ => false end ;;
  Ok (Receipt attempt generation key_id phase transcript terminal).

Definition process_exit_value (p : process_exit) : pyval :=
  VDict [(u "category", VStr (u (match pe_exit_code p with Some _ => "exited" | None => "signaled" end)));
         (u "exit_code", opt_int (pe_exit_code p)); (u "returncode", VInt (pe_returncode p));
         (u "signal_number", opt_int (pe_signal p))].

(** [to_dict] *)
Definition receipt_value (r : receipt) : pyval :=
  VDict [(u "boot_attempt_id", VStr (rc_boot_attempt_id r)); (u "boot_generation", VStr (rc_boot_generation r));
         (u "key_id", VStr (rc_key_id r)); (u "phase", VStr (u (receipt_phase_name (rc_phase r))));
         (u "schema", VStr (u "palimpsest.oci-root-handoff.v1"));
         (u "terminal", match rc_terminal r with Some p => process_exit_value p | None => VNone end);
         (u "transcript", VList (map VDict (rc_transcript r)))].

(** [_terminal_result], with the checks of [ProcessExit] *)
Definition terminal_result (e : envelope) : result process_exit :=
  match m_payload (e_body e) with
  | PTerminal t =>
      match t_exit_code t, t_signal t with
      | Some code, _ => raise "signaled process result has inconsistent fields" when code <? 0 ;; Ok (ProcessExit code (Some code) None)
      | None, Some number =>
          raise "exited process result has inconsistent fields" when number <=? 0 ;; Ok (ProcessExit (- number) None (Some number))
      | None, None => Err "TypeError"
      end
  | _ => Err "KeyError"
  end.

(** * Exceptions *)

(** [OCILifecycleFailureCategory] *)
Inductive failure_category :=
| TIMEOUT | STREAM_SEND | STREAM_RECEIVE | STREAM_ENDED | FRAME_INVALID | PROTOCOL_REJECTED | CONTROL_INVALID | EVENT_PUMP
| CLEANUP | RECEIPT_INVALID | INTERNAL.
#[export] Instance failure_category_eq_dec : EqDecision failure_category.
Proof. solve_decision. Defined.

(** [OCILifecycleTransportError], its subclass
    [OCILifecycleStreamCallbackCleanupError], any other class. *)
Inductive raised := TransportFailure (category : failure_category) | CallbackCleanup | OtherFailure (e : string).
(** [MonitorExecControlError] is the exception of the mailbox; the model can also
    run out of fuel. *)
Inductive failure := Raised (r : raised) | MailboxFailure (category : string) | OutOfFuel.
Inductive outcome (A : Type) := Value (a : A) | Raise (f : failure).
Arguments Value {A}. Arguments Raise {A}.

Definition category_failure (c : failure_category) : failure := Raised (TransportFailure c).
Definition other_failure (e : string) : failure := Raised (OtherFailure e).
Definition outcome_of {A} (f : string -> failure) (r : result A) : outcome A := match r with Ok a => Value a | Err e => Raise (f e) end.

(** * The environment *)

(** What [send] gave: an exception, an integer, something else. *)
Inductive sent := SendRaised | SendInt (n : Z) | SendOther.
(** What [recv] gave: an exception, [-2], [b""] or [0], bytes, something else. *)
Inductive received := RecvRaised | RecvAgain | RecvEnd | RecvBytes (b : bytes) | RecvOther.

(** What the other threads of the monitor do with the shared objects. *)
Inductive monitor_call :=
| MServe (worker : option worker_view) (op : exec_operation)
| MExecReady
| MExecClose (reason : mailbox_state)
| MStopRequest (deadline : Z)
| MStopReady
| MStopTerminal
| MStopLost.

Definition monitor_exec (m : mailbox) (c : monitor_call) : mailbox :=
  match c with
  | MServe worker op => (serve_exec_request worker op m).1
  | MExecReady => mark_ready m
  | MExecClose reason => (close_to_exec m reason).1
  | _ => m
  end.

Definition monitor_stop (s : stop_control) (c : monitor_call) : stop_control :=
  match c with
  | MStopRequest deadline => (ExecControl.stop_request s deadline).1
  | MStopReady => stop_mark_ready s
  | MStopTerminal => mark_terminal s
  | MStopLost => mark_control_lost s
  | _ => s
  end.

(** A callback answers what it raised, if it raised; [before_stream_close],
    [stream_abort] and [stream_free] answer whether they returned. *)
Class TransportWorld (W : Type) := {
  monotonic : W -> W * Z;
  wait : W -> Z -> W * option raised;
  wait_writable : W -> Z -> W * option raised;
  stream_send : W -> bytes -> W * sent;
  stream_recv : W -> W * received;
  before_stop_send : W -> W * option raised;
  on_ready : W -> receipt -> W * option raised;
  before_stream_close : W -> W * bool;
  stream_abort : W -> W * bool;
  stream_free : W -> W * bool;
  draw_nonce : W -> W * pyval;
  monitor_calls : W -> W * list monitor_call;
}.

Section transport.
Context `{Hash} {W : Type} `{TransportWorld W}.

(** * State *)

(** The local variables of the handoff and the objects it holds. *)
Record transport := Transport {
  t_world : W;
  t_session : session;
  t_decoder : decoder;
  t_pending : list envelope;
  t_transcript : list (list (pystr * pyval));
  t_tags : list pystr;
  t_stop : option stop_control;
  t_exec : option mailbox;
  t_job : option exec_job;
  t_exec_deadline : option Z;
}.
#[export] Instance transport_eta : Eta transport := fun t =>
  Transport (t_world t) (t_session t) (t_decoder t) (t_pending t) (t_transcript t) (t_tags t) (t_stop t) (t_exec t) (t_job t)
    (t_exec_deadline t).

(** A computation that may raise; the state reached survives. *)
Definition M (A : Type) : Type := transport -> transport * outcome A.
Definition ret {A} (a : A) : M A := fun t => (t, Value a).
Definition fail {A} (f : failure) : M A := fun t => (t, Raise f).
Definition bind {A B} (m : M A) (k : A -> M B) : M B := fun t =>
  match m t with (t, Value a) => k a t | (t, Raise f) => (t, Raise f) end.
Definition gets {A} (f : transport -> A) : M A := fun t => (t, Value (f t)).
Definition modify (f : transport -> transport) : M unit := fun t => (f t, Value tt).
(** A call of another module, with the class of its exceptions. *)
Definition lift {A} (f : string -> failure) (r : result A) : M A := fun t => (t, outcome_of f r).

(** An action of the world, a callback, a method of the session. *)
Definition io {A} (f : W -> W * A) : M A := fun t => let ' (w, a) := f (t_world t) in (t <| t_world := w |>, Value a).
Definition call (f : W -> W * option raised) : M unit := fun t =>
  let ' (w, r) := f (t_world t) in (t <| t_world := w |>, match r with None => Value tt | Some r => Raise (Raised r) end).
Definition on_session {A} (f : string -> failure) (g : session -> session * result A) : M A := fun t =>
  let ' (s, r) := g (t_session t) in (t <| t_session := s |>, outcome_of f r).

(** The other threads' calls since the last access. *)
Definition sync : M unit := fun t =>
  let ' (w, calls) := monitor_calls (t_world t) in
  (t <| t_world := w |> <| t_stop := (fun s => foldl monitor_stop s calls) <$> t_stop t |>
     <| t_exec := (fun m => foldl monitor_exec m calls) <$> t_exec t |>, Value tt).

(** A method of the stop control, of the mailbox; [absent] where there is none. *)
Definition on_stop {A} (absent : A) (f : stop_control -> stop_control * A) : M A := bind sync (fun _ t =>
  match t_stop t with
  | Some s => let ' (s, a) := f s in (t <| t_stop := Some s |>, Value a)
  | None => (t, Value absent)
  end).
Definition on_exec {A} (absent : A) (f : mailbox -> mailbox * result A) : M A := bind sync (fun _ t =>
  match t_exec t with
  | Some m => let ' (m, r) := f m in (t <| t_exec := Some m |>, outcome_of MailboxFailure r)
  | None => (t, Value absent)
  end).

End transport.

#[global] Arguments transport : clear implicits.
Notation "'do' x <- m ';;' k" := (bind m (fun x => k)) (at level 10, x binder, m at level 99, k at level 200) : py_scope.
Notation "'reject' e 'when' b ';;' k" := (if b then fail (category_failure e) else k)
  (at level 10, e at level 9, b at level 99, k at level 200) : py_scope.

(** What the caller passes: whether the stream has [send] and [recv], a callable
    [abort] and, if any, a callable [free]; the timeouts in milliseconds; whether
    [before_stop_send] is callable; whether there is a [before_stream_close]. *)
Record config := Config {
  c_send_recv : bool;
  c_abort : bool;
  c_free : option bool;
  c_timeout : Z;
  c_terminal_timeout : option Z;
  c_before_stop : bool;
  c_before_close : bool;
  c_binding : binding;
}.

Section handoff.
Context `{Hash} {W : Type} `{TransportWorld W}.
#[local] Notation M := (@M W).

(** * Sending and receiving *)

(** [_remaining]: without a deadline a hundredth of a second *)
Definition remaining (deadline : option Z) : M Z :=
  match deadline with
  | None => ret 10
  | Some deadline =>
      do now <- io monotonic ;;
      reject TIMEOUT when deadline - now <=? 0 ;; ret (deadline - now)
  end.

(** [_pause] *)
Definition pause (deadline : option Z) (waiter : W -> Z -> W * option raised) : M unit :=
  do time_left <- remaining deadline ;; call (fun w => waiter w (Z.min 10 time_left)).

(** [_send_all]; [payload] is what is left to send. *)
Fixpoint send_all (fuel : nat) (payload : bytes) (deadline : option Z) (before : option (W -> W * option raised)) : M unit :=
  match payload with
  | [] => ret tt
  | _ :: _ =>
      match fuel with
      | O => fail OutOfFuel
      | S fuel =>
          do _ <- remaining deadline ;;
          do _ <- match before with
                  | Some f => do _ <- call f ;; do _ <- remaining deadline ;; ret tt
                  | None => ret tt
                  end ;;
          do answer <- io (fun w => stream_send w payload) ;;
          match answer with
          | SendInt n =>
              if n =? -2 then do _ <- pause deadline wait_writable ;; send_all fuel payload deadline before
              else
                reject STREAM_SEND when (n <=? 0) || (zlen payload <? n) ;;
                send_all fuel (drop (Z.to_nat n) payload) deadline before
          | _ => fail (category_failure STREAM_SEND)
          end
      end
  end.

Definition at_boundary (t : transport W) : bool := is_ok (finish (t_decoder t)).

(** [decoder.feed] and [pending.extend]; an error leaves the decoder as it is. *)
Definition feed_pending (data : bytes) : M unit := fun t =>
  let ' (d, r) := feed (t_decoder t) data in
  let t := t <| t_decoder := d |> in
  match r with
  | Ok es => (t <| t_pending := t_pending t ++ es |>, Value tt)
  | Err _ => (t, Raise (category_failure FRAME_INVALID))
  end.

(** [_receive_one]; [poll] is [control_poll]. *)
Fixpoint receive_one (fuel : nat) (deadline : option Z) (poll : option (bool -> M unit)) : M envelope := fun t =>
  match t_pending t with
  | e :: es => (t <| t_pending := es |>, Value e)
  | [] =>
      match fuel with
      | O => (t, Raise OutOfFuel)
      | S fuel =>
          (do _ <- match poll with Some f => f false | None => ret tt end ;;
           do _ <- remaining deadline ;;
           do chunk <- io stream_recv ;;
           match chunk with
           | RecvRaised | RecvOther => fail (category_failure STREAM_RECEIVE)
           | RecvAgain =>
               do _ <- match poll with Some f => do boundary <- gets at_boundary ;; f boundary | None => ret tt end ;;
               do _ <- pause deadline wait ;;
               receive_one fuel deadline poll
           | RecvEnd => fail (category_failure STREAM_ENDED)
           | RecvBytes data => do _ <- feed_pending data ;; receive_one fuel deadline poll
           end) t
      end
  end.

(** * The transcript *)

(** [session.transcript_projection] and [transcript.append] *)
Definition record_frame (e : envelope) (encoded : bytes) : M unit := fun t =>
  let k := match m_kind (e_body e) with HELLO => None | _ => key (t_session t) end in
  match transcript_projection e encoded CHANNEL_CARRIER k with
  | Ok d => (t <| t_transcript := t_transcript t ++ [d] |>, Value tt)
  | Err x => (t, Raise (other_failure x))
  end.

(** [observed_tags.add] *)
Definition observe_tag (tag : pystr) : M unit := modify (fun t =>
  if bool_decide (tag ∈ t_tags t) then t else t <| t_tags := tag :: t_tags t |>).
Definition observe_tag_of (e : envelope) : M unit := match e_tag e with Some tag => observe_tag tag | None => ret tt end.

(** [_receipt]; every string of a receipt is ASCII, which [json.dumps] leaves as it is. *)
Definition make_receipt (phase : receipt_phase) (terminal : option process_exit) : M receipt :=
  do s <- gets t_session ;;
  do transcript <- gets t_transcript ;;
  do tags <- gets t_tags ;;
  match boot_generation s, key_id s with
  | Some generation, Some id =>
      do r <- lift other_failure (receipt_init (s_boot_attempt_id s) generation id phase transcript terminal) ;;
      do serialized <- lift other_failure (canonical_json_bytes (receipt_value r)) ;;
      do _ <- lift (fun _ => category_failure RECEIPT_INVALID) (assert_receipt_safe s serialized (map VStr tags)) ;;
      ret r
  | _, _ => fail (category_failure RECEIPT_INVALID)
  end.

(** * The monitor's requests *)

Definition has_exec (t : transport W) : bool := match t_exec t with Some _ => true | None => false end.
Definition has_stop (t : transport W) : bool := match t_stop t with Some _ => true | None => false end.
(** [exec_job is None and not pending] *)
Definition idle (t : transport W) : bool := bool_decide (t_job t = None) && bool_decide (t_pending t = []).

(** [stop_control.accepted], [stop_control.deadline] *)
Definition stop_accepted : M bool := on_stop false (fun s => (s, sc_accepted s)).
Definition stop_deadline : M (option Z) := on_stop None (fun s => (s, sc_deadline s)).

Definition min_deadline (a b : option Z) : option Z :=
  match a, b with Some a, Some b => Some (Z.min a b) | Some a, None => Some a | None, b => b end.

(** The execution of a job that was taken. *)
Definition start_exec (fuel : nat) (job : exec_job) : M unit :=
  do _ <- modify (fun t => t <| t_job := Some job |>) ;;
  do now <- io monotonic ;;
  let deadline := now + job_timeout_ms job + 15000 in
  do _ <- modify (fun t => t <| t_exec_deadline := Some deadline |>) ;;
  do request <- on_session other_failure (fun s => exec s (VTuple (map VStr (job_argv job))) (VInt (job_timeout_ms job))) ;;
  do frame <- lift other_failure (encode_frame request) ;;
  do now <- io monotonic ;;
  send_all fuel frame (Some (Z.min deadline (now + 5000))) (Some before_stop_send).

(** Take a job, if the transport is free for one. *)
Definition poll_exec (fuel : nat) : M unit := fun t =>
  if has_exec t then
    (do accepted <- stop_accepted ;;
     do free <- gets idle ;;
     if negb accepted && free then
       do job <- on_exec None (fun m => let ' (m, job) := take_exec m in (m, Ok job)) ;;
       match job with Some job => start_exec fuel job | None => ret tt end
     else ret tt) t
  else (t, Value tt).

(** A STOP that was taken. *)
Definition send_stop (fuel : nat) (terminal_deadline : option Z) : M unit :=
  do _ <- on_exec tt (fun m => close_to_exec m STOPPING) ;;
  do deadline <- stop_deadline ;;
  match deadline with
  | None => fail (category_failure CONTROL_INVALID)
  | Some deadline =>
      do _ <- remaining (Some deadline) ;;
      do e <- on_session other_failure stop ;;
      do frame <- lift other_failure (encode_frame e) ;;
      do _ <- send_all fuel frame (min_deadline terminal_deadline (Some deadline)) (Some before_stop_send) ;;
      do _ <- observe_tag (or_empty (e_tag e)) ;;
      record_frame e frame
  end.

(** [poll_stop] *)
Definition poll_stop (fuel : nat) (terminal_deadline : option Z) (can_send : bool) : M unit :=
  do exec_deadline <- gets t_exec_deadline ;;
  do _ <- match exec_deadline with Some _ => do _ <- remaining exec_deadline ;; ret tt | None => ret tt end ;;
  do stoppable <- gets has_stop ;;
  if negb stoppable then ret tt
  else
    do deadline <- stop_deadline ;;
    do _ <- match deadline with Some _ => do _ <- remaining deadline ;; ret tt | None => ret tt end ;;
    if negb can_send then ret tt
    else
      do took <- on_stop false take_stop ;;
      if took then send_stop fuel terminal_deadline else poll_exec fuel.

(** * Results of an execution *)

Definition stream_of_frame (s : stream) : exec_stream := match s with Stdout => STDOUT | Stderr => STDERR end.
Definition opt_terminal_value (t : option terminal) : pyval := match t with Some t => terminal_value t | None => VNone end.

(** An accepted EXEC_OUTPUT or EXEC_EXIT goes to the mailbox. *)
Definition deliver (e : envelope) : M unit := fun t =>
  match t_exec t, t_job t, m_payload (e_body e) with
  | Some _, Some job, PExecOutput st offset h =>
      (do data <- lift other_failure (key_of_hex h) ;;
       on_exec tt (fun m => append_output m job (stream_of_frame st) offset data)) t
  | Some _, Some job, PExecExit term out err why =>
      (do _ <- on_exec tt (fun m => complete m job (opt_terminal_value term) out err (u (reason_name why))) ;;
       modify (fun t => t <| t_job := None |> <| t_exec_deadline := None |>)) t
  | Some _, Some _, _ => (t, Raise (other_failure "KeyError"))
  | _, _, _ => (t, Raise (category_failure CONTROL_INVALID))
  end.

Definition is_exec_frame (e : envelope) : bool := bool_decide (m_kind (e_body e) ∈ [EXEC_OUTPUT; EXEC_EXIT]).

(** The loop after READY: the first message that is no result of an execution.
    [inner] is the fuel of the loops of one turn. *)
Fixpoint await_terminal (inner fuel : nat) (terminal_deadline : option Z) (after_exec_output : bool) : M envelope := fun t =>
  match fuel with
  | O => (t, Raise OutOfFuel)
  | S fuel =>
      (do boundary <- gets at_boundary ;;
       do _ <- poll_stop inner terminal_deadline (boundary && after_exec_output) ;;
       do e <- receive_one inner terminal_deadline (Some (poll_stop inner terminal_deadline)) ;;
       do _ <- on_session (fun _ => category_failure PROTOCOL_REJECTED) (fun s => accept s e) ;;
       if is_exec_frame e then
         do _ <- deliver e ;;
         await_terminal inner fuel terminal_deadline (bool_decide (m_kind (e_body e) = EXEC_OUTPUT))
       else ret e) t
  end.

(** * The handoff ([complete_initial_lifecycle_handoff]) *)

(** The checks of the arguments. *)
Definition check_arguments (c : config) : M unit := fun t =>
  if negb (c_send_recv c) || negb (c_abort c) || bool_decide (c_free c = Some false)
     || (c_timeout c <=? 0) || match c_terminal_timeout c with Some z => z <=? 0 | None => false end
     || (has_stop t && negb (c_before_stop c))
     || (has_exec t && (negb (has_stop t) || negb (c_before_stop c)))
  then (t, Raise (category_failure CONTROL_INVALID)) else (t, Value tt).

(** Receive one message and let the session accept it. *)
Definition receive_accept (fuel : nat) (deadline : option Z) : M envelope :=
  do e <- receive_one fuel deadline None ;;
  do _ <- on_session (fun _ => category_failure PROTOCOL_REJECTED) (fun s => accept s e) ;;
  ret e.

(** HELLO to READY *)
Definition boot (fuel : nat) (deadline : option Z) : M unit :=
  do drawn <- io draw_nonce ;;
  do e <- on_session other_failure (fun s => hello s drawn) ;;
  do frame <- lift other_failure (encode_frame e) ;;
  do _ <- send_all fuel frame deadline None ;;
  do _ <- record_frame e frame ;;
  do e <- receive_accept fuel deadline ;;
  do _ <- observe_tag_of e ;;
  do frame <- lift other_failure (encode_frame e) ;;
  do _ <- record_frame e frame ;;
  do e <- on_session other_failure key_ack ;;
  do frame <- lift other_failure (encode_frame e) ;;
  do _ <- send_all fuel frame deadline None ;;
  do _ <- observe_tag (or_empty (e_tag e)) ;;
  do _ <- record_frame e frame ;;
  do e <- receive_accept fuel deadline ;;
  do s <- gets t_session ;;
  reject PROTOCOL_REJECTED when negb (bool_decide (state s = Ready)) ;;
  do _ <- observe_tag_of e ;;
  do frame <- lift other_failure (encode_frame e) ;;
  do _ <- record_frame e frame ;;
  do r <- make_receipt PhaseReady None ;;
  call (fun w => on_ready w r).

(** READY to TERMINAL *)
Definition finish_run (inner fuel : nat) (terminal_deadline : option Z) : M receipt :=
  do e <- await_terminal inner fuel terminal_deadline false ;;
  do s <- gets t_session ;;
  reject PROTOCOL_REJECTED when negb (bool_decide (state s = Terminated)) || negb (bool_decide (m_kind (e_body e) = TERMINAL)) ;;
  do _ <- on_stop tt (fun s => (mark_observed_terminal s, tt)) ;;
  do _ <- on_exec tt (fun m => close_to_exec m TERMINAL_STATE) ;;
  do pending <- gets t_pending ;;
  do boundary <- gets at_boundary ;;
  reject FRAME_INVALID when negb (bool_decide (pending = [])) || negb boundary ;;
  do _ <- observe_tag_of e ;;
  do frame <- lift other_failure (encode_frame e) ;;
  do _ <- record_frame e frame ;;
  do p <- lift other_failure (terminal_result e) ;;
  make_receipt PhaseTerminal (Some p).

(** The body of the [try] statement; its local variables are new. *)
Definition handoff_body (inner fuel : nat) (c : config) : M receipt :=
  do _ <- check_arguments c ;;
  do now <- io monotonic ;;
  do _ <- modify (fun t => t <| t_decoder := decoder_init |> <| t_pending := [] |> <| t_transcript := [] |> <| t_tags := [] |>
                             <| t_job := None |> <| t_exec_deadline := None |>) ;;
  do s <- gets t_session ;;
  reject INTERNAL when bool_decide (s_binding s <> c_binding c) || negb (bool_decide (state s = New)) ;;
  do _ <- boot inner (Some (now + c_timeout c)) ;;
  do terminal_deadline <- match c_terminal_timeout c with
                          | Some z => do now <- io monotonic ;; ret (Some (now + z))
                          | None => ret None
                          end ;;
  finish_run inner fuel terminal_deadline.

(** The [except] clause. *)
Definition lose_stop (t : transport W) : transport W := (on_stop tt (fun s => (mark_control_lost s, tt)) t).1.
Definition lose_control (t : transport W) : transport W := (on_exec tt (fun m => close_to_exec m CONTROL_LOST) (lose_stop t)).1.

(** An operation of the stream that is closed; whether it returned. *)
Definition close_with (present : bool) (f : W -> W * bool) (t : transport W) : transport W * bool :=
  if present then let ' (w, ok) := f (t_world t) in (t <| t_world := w |>, ok) else (t, true).

Definition complete_initial_lifecycle_handoff (inner fuel : nat) (c : config) (t : transport W) : transport W * outcome receipt :=
  let ' (t, r) := handoff_body inner fuel c t in
  let t := match r with Value _ => t | Raise _ => lose_control t end in
  match r with
  | Raise (Raised CallbackCleanup) => (t, r)
  | _ =>
      let ' (t, cleaned) := close_with (c_before_close c) before_stream_close t in
      if negb cleaned then (lose_stop t, Raise (Raised CallbackCleanup))
      else
        let ' (t, aborted) := close_with (c_abort c) stream_abort t in
        let ' (t, freed) := close_with (bool_decide (c_free c = Some true)) stream_free t in
        match r with
        | Raise f => (t, Raise f)
        | Value r => if aborted && freed then (t, Value r) else (lose_stop t, Raise (category_failure CLEANUP))
        end
  end.
End handoff.
