(* ===== verification/TransportFacts.v ===== *)
(** Facts of the lifecycle transport: the laws of its environment, a small logic
    for its computations, what its shared objects keep under the other threads,
    and what the messages of its decoder satisfy. *)
From S2P Require Import Prelude Crypto PyStr PyVal Regex Json Digest ExecControl ExecControlFacts ExecSession ControlV2Wire ControlV2Message ControlV2Codec ControlV2Session ControlV2SessionInv Transport.

Section facts.
Context `{Hash}.

(** * Decoded execution results *)

Definition exec_payload_ok (e : envelope) : Prop :=
  match m_payload (e_body e) with
  | PExecOutput _ _ _ | PExecExit _ _ _ _ => payload_ok (m_payload (e_body e)) (m_epoch (e_body e))
  | _ => True
  end.

Lemma check_payload_exec k items r epoch p q : check_payload k items r epoch = Ok (p, q) ->
  match p with PExecOutput _ _ _ | PExecExit _ _ _ _ => payload_ok p epoch | _ => True end.
Proof.
  intros Hc. destruct k; cbn [check_payload] in Hc.
  all: first [ apply check_bootstrap_ok with (epoch := epoch) in Hc | apply check_key_ack_ok with (epoch := epoch) in Hc
             | apply check_reconnect_ok in Hc | apply check_ready_ok with (epoch := epoch) in Hc
             | apply check_snapshot_ok with (epoch := epoch) in Hc | apply check_terminal_ok with (epoch := epoch) in Hc
             | apply check_exec_ok with (epoch := epoch) in Hc | apply check_exec_output_ok with (epoch := epoch) in Hc
             | apply check_exec_exit_ok with (epoch := epoch) in Hc | idtac ].
  all: try (destruct Hc as (Hk & Hp & _); destruct p; done).
  - unfold check_stop in Hc. inv_ok. done.
  - unfold check_boundary_ack in Hc. inv_ok. done.
  - unfold check_stop in Hc. inv_ok. done.
Qed.

Lemma message_init_exec kv b attempt nonce epoch wire data request generation reply m :
  message_init kv b attempt nonce epoch wire data request generation reply = Ok m ->
  match m_payload m with PExecOutput _ _ _ | PExecExit _ _ _ _ => payload_ok (m_payload m) (m_epoch m) | _ => True end.
Proof.
  unfold message_init. intros Hc. destruct (lookup_kind kv) as [k|]; cbn [result_bind] in Hc; [|done].
  do 4 (match type of Hc with result_bind ?x _ = _ => destruct x; cbn [result_bind] in Hc; [|done] end).
  destruct data as [| | | | | | |items]; try done. destruct (decide (k = HELLO)) as [->|Hne].
  { inv_ok. done. }
  rewrite (not_hello_match k) in Hc by done.
  do 2 (match type of Hc with result_bind ?x _ = _ => destruct x; cbn [result_bind] in Hc; [|done] end).
  destruct (check_payload _ _ _ _) as [[p q]|] eqn:Ep; cbn [result_bind] in Hc; [|done].
  apply (inj Ok) in Hc as <-. by eapply check_payload_exec.
Qed.

Lemma decode_payload_exec p e : decode_payload p = Ok e -> exec_payload_ok e.
Proof.
  unfold decode_payload. destruct (bool_decide (p = []) || _); [done|]. intros Hd.
  destruct (load_payload p) as [v|]; cbn [result_bind] in Hd; [|done].
  destruct (v_exact v _ _) as [outer|]; cbn [result_bind] in Hd; [|done].
  destruct (message_from_dict _) as [m|] eqn:Em; cbn [result_bind] in Hd; [|done].
  destruct (match m_kind m with HELLO => _ | _ => _ end) as [e'|] eqn:Ee; cbn [result_bind] in Hd; [|done].
  destruct (is_canonical_encoding e' p) as [[]|]; cbn [result_bind negb] in Hd; try done.
  apply (inj Ok) in Hd as <-.
  assert (e_body e' = m) as Hb.
  { unfold envelope_init in Ee. destruct (m_kind m); inv_ok; done. }
  unfold exec_payload_ok. rewrite Hb. unfold message_from_dict in Em. destruct (outer.["body"]) as [| | | | | | |items]; try done.
  repeat (match type of Em with result_bind ?x _ = _ => destruct x; cbn [result_bind] in Em; [|done] end || (destruct (negb _); [done|])).
  by eapply message_init_exec.
Qed.

Lemma feed_payload_exec d n data es d' es' rest : feed_payload d n data es = (d', Ok (es', rest)) ->
  Forall exec_payload_ok es -> Forall exec_payload_ok es'.
Proof.
  unfold feed_payload. intros Hf He. destruct (_ =? _).
  - destruct (decode_payload _) as [e|] eqn:Ed; [|done]. apply pair_equal_spec in Hf as [_ Hf]. apply (inj Ok) in Hf.
    apply pair_equal_spec in Hf as [<- _]. apply Forall_app. split; [done|]. apply Forall_singleton. by eapply decode_payload_exec.
  - apply pair_equal_spec in Hf as [_ Hf]. apply (inj Ok) in Hf. by apply pair_equal_spec in Hf as [<- _].
Qed.

Lemma feed_turn_exec d data es d' es' rest : feed_turn d data es = (d', Ok (es', rest)) ->
  Forall exec_payload_ok es -> Forall exec_payload_ok es'.
Proof.
  unfold feed_turn. destruct (d_expected d); [apply feed_payload_exec|]. intros Hf He. destruct (_ =? 4).
  - destruct (_ || _); [done|]. by eapply feed_payload_exec.
  - apply pair_equal_spec in Hf as [_ Hf]. apply (inj Ok) in Hf. by apply pair_equal_spec in Hf as [<- _].
Qed.

Lemma feed_loop_exec fuel : forall d data es d' es', feed_loop fuel d data es = (d', Ok es') ->
  Forall exec_payload_ok es -> Forall exec_payload_ok es'.
Proof.
  assert (forall (d d' : decoder) (es es' : list envelope), (d, Ok es) = (d', Ok es') -> Forall exec_payload_ok es -> Forall exec_payload_ok es') as Hb.
  { intros d d' es es' Hf ?. apply pair_equal_spec in Hf as [_ Hf]. by apply (inj Ok) in Hf as <-. }
  induction fuel as [|fuel IH]; intros d data es d' es' Hf He; cbn [feed_loop] in Hf; destruct data as [|b data]; try done; try by eapply Hb.
  destruct (feed_turn d (b :: data) es) as [d1 [[es1 rest]|]] eqn:Et; [|done]. eapply IH; [exact Hf|]. by eapply feed_turn_exec.
Qed.

Lemma feed_exec d data d' es : feed d data = (d', Ok es) -> Forall exec_payload_ok es.
Proof. intros Hf. eapply feed_loop_exec; [exact Hf|constructor]. Qed.

Lemma fromhex_total h : exec_data_ok h = true -> exists b, fromhex h = Some b /\ 2 * zlen b = zlen h.
Proof.
  intros Ho. pose proof (zlen_hex_half h Ho) as Hl. unfold exec_data_ok in Ho. apply andb_true_iff in Ho as [_ Hx].
  remember (length h) as n eqn:En. revert h En Hl Hx.
  induction n as [n IH] using lt_wf_ind. intros h -> Hl Hx. destruct h as [|a [|b h]].
  - by exists [].
  - cbn in Hl. done.
  - cbn [forallb] in Hx. bool_norm.
    assert (forall c, in_cls [(48, 57); (97, 102)] c = true -> exists v, hex_value c = Some v) as Hv.
    { intros c [?|?]%in_hex; unfold hex_value; [rewrite !(proj2 (Z.leb_le _ _)) by lia; eauto|].
      rewrite (proj2 (Z.leb_gt c 57)), andb_false_r, !(proj2 (Z.leb_le _ _)) by lia. eauto. }
    destruct (IH (length h)) with (h := h) as (d & Ed & Hd); [cbn; lia|done| |done|].
    { rewrite !zlen_cons in Hl. replace (1 + (1 + zlen h)) with (zlen h + 1 * 2) in Hl by lia. rewrite Z.div_add in Hl by lia. lia. }
    destruct (Hv a) as [va Ea]; [done|]. destruct (Hv b) as [vb Eb]; [done|]. exists (16 * va + vb :: d). cbn [fromhex]. rewrite Ea, Eb, Ed.
    split; [done|]. rewrite !zlen_cons. lia.
Qed.

(** * The mailbox under the other threads *)

(** What every mailbox satisfies: no job, no state; no output before it runs. *)
Definition box_ok (m : mailbox) : Prop :=
  (mb_job m = None -> mb_job_state m = None) /\
  (mb_job_state m = None \/ mb_job_state m = Some QUEUED -> mb_stdout m = [] /\ mb_stderr m = []).

(** The transport's job in the mailbox, with the outputs' sizes, or lost. *)
Definition holds (m : mailbox) (j : exec_job) (out err : Z) : Prop :=
  mb_job m = Some j /\
  (mb_job_state m = Some JOB_LOST \/ mb_job_state m = Some RUNNING /\ zlen (mb_stdout m) = out /\ zlen (mb_stderr m) = err).

(** No request is accepted any more, and none waits or runs. *)
Definition box_closed (m : mailbox) : Prop :=
  (mb_state m = TERMINAL_STATE \/ mb_state m = CONTROL_LOST) /\ mb_job_state m <> Some QUEUED /\ mb_job_state m <> Some RUNNING.

Definition stop_closed (s : stop_control) : Prop := sc_state s = STOP_CONTROL_LOST \/ sc_state s = STOP_TERMINAL.

Lemma box_ok_transition m evs m' : ExecControlFacts.transition m evs m' -> box_ok m -> box_ok m'.
Proof.
  unfold box_ok. intros Ht [Hj Ho]. destruct Ht as [| | | | |j st| | |]; try destruct st; cbn; split; (done || naive_solver).
Qed.

Lemma box_ok_transitions m evs m' : transitions m evs m' -> box_ok m -> box_ok m'.
Proof. induction 1; eauto using box_ok_transition. Qed.

Lemma holds_transition m evs m' j out err : ExecControlFacts.transition m evs m' -> Forall inert evs -> holds m j out err -> holds m' j out err.
Proof.
  unfold holds. destruct 1; intros Hi [Hj Hs]; try (by inversion_clear Hi); cbn; try done.
  - split; [done|]. by left.
  - congruence.
  - destruct Hs as [Hs|[Hs _]]; congruence.
Qed.

Lemma holds_transitions m evs m' j out err : transitions m evs m' -> Forall inert evs -> holds m j out err -> holds m' j out err.
Proof. induction 1; [done|]. intros [? ?]%Forall_app ?. eauto using holds_transition. Qed.

Lemma lost_transitions m evs m' j : transitions m evs m' -> Forall inert evs -> mb_job m = Some j -> mb_job_state m = Some JOB_LOST ->
  mb_job m' = Some j /\ mb_job_state m' = Some JOB_LOST.
Proof.
  induction 1 as [|m evs m' evs' m'' Ht _ IH]; [done|]. intros [Hi ?]%Forall_app Hj Hs. apply IH; [done|..]; destruct Ht; cbn; try done; try congruence;
    by inversion_clear Hi.
Qed.

Lemma operation_inert op : Forall inert (operation_events op).
Proof. destruct op; cbn; repeat case_match; repeat constructor. Qed.

Lemma monitor_exec_tr m c : exists evs, transitions m evs (monitor_exec m c) /\ Forall inert evs.
Proof.
  destruct c as [worker op| |reason| | | |]; cbn [monitor_exec]; [|exists []; split; [|constructor]..].
  - pose proof (serve_tr worker op m) as Ht. destruct (serve_exec_request worker op m) as [m' r].
    exists (if is_ok r then operation_events op else []). split; [done|]. destruct (is_ok r); [apply operation_inert|constructor].
  - apply mark_ready_tr.
  - apply close_to_exec_tr.
  - constructor.
  - constructor.
  - constructor.
  - constructor.
Qed.

Lemma monitor_box_ok calls m : box_ok m -> box_ok (foldl monitor_exec m calls).
Proof.
  revert m. induction calls as [|c calls IH]; intros m Hm; [done|]. apply IH.
  destruct (monitor_exec_tr m c) as (evs & Ht & _). by eapply box_ok_transitions.
Qed.

Lemma monitor_holds calls m j out err : holds m j out err -> holds (foldl monitor_exec m calls) j out err.
Proof.
  revert m. induction calls as [|c calls IH]; intros m Hm; [done|]. apply IH.
  destruct (monitor_exec_tr m c) as (evs & Ht & Hi). by eapply holds_transitions.
Qed.

Lemma monitor_lost calls m j : mb_job m = Some j -> mb_job_state m = Some JOB_LOST ->
  mb_job (foldl monitor_exec m calls) = Some j /\ mb_job_state (foldl monitor_exec m calls) = Some JOB_LOST.
Proof.
  revert m. induction calls as [|c calls IH]; intros m Hj Hs; [done|]. cbn [foldl].
  destruct (monitor_exec_tr m c) as (evs & Ht & Hi). destruct (lost_transitions _ _ _ _ Ht Hi Hj Hs). by apply IH.
Qed.

Lemma mark_ready_closed m : box_closed m -> box_closed (mark_ready m).
Proof. unfold mark_ready. intros [Hs ?]. case_bool_decide; [|done]. destruct Hs; congruence. Qed.

Lemma close_to_exec_closes m reason : box_closed m \/ reason = TERMINAL_STATE \/ reason = CONTROL_LOST -> box_closed (close_to_exec m reason).1.
Proof.
  unfold close_to_exec, box_closed. intros Hc.
  destruct (bool_decide (reason ∈ [STOPPING; TERMINAL_STATE; CONTROL_LOST])) eqn:Er; cbn [negb fst]; bool_norm; [|set_solver].
  set (m1 := if bool_decide (mb_state m ∈ _) then m else _).
  assert (mb_job_state m1 = mb_job_state m /\ (mb_state m1 = TERMINAL_STATE \/ mb_state m1 = CONTROL_LOST)) as [E1 E2].
  { unfold m1. case_bool_decide as Hm; cbn; [split; [done|set_solver]|]. split; [done|]. destruct Hc as [[Hc _]|Hc]; [set_solver|done]. }
  clearbody m1. destruct (bool_decide (reason ∈ [TERMINAL_STATE; CONTROL_LOST]) && _) eqn:E; cbn; rewrite ?E1.
  - split; [done|]. by split.
  - split; [done|]. apply andb_false_iff in E as [E|E]; [|apply orb_false_iff in E as [? ?]; bool_norm; by rewrite <- E1].
    bool_norm. destruct Hc as [[_ Hc]|Hc]; [done|set_solver].
Qed.

Lemma perform_closed m op : box_closed m -> box_closed (perform m op).1.
Proof.
  intros Hc. destruct op; cbn [perform fst]; try done.
  - assert (bool_decide (mb_state m = READY_STATE) = false) as E.
    { apply bool_decide_eq_false_2. destruct Hc as [[Hc|Hc] _]; congruence. }
    unfold submit. rewrite E. destruct (exec_identity sequence token); [|done]. destruct (validate_exec_request argv timeout_ms); [|done].
    destruct (negb (bool_decide (_ = mb_next m))); [done|]. destruct (mb_job m); [|done]. by destruct (negb _).
  - unfold poll. destruct (exec_identity _ _); [|done]. by destruct (negb _).
  - unfold acknowledge. destruct (exec_identity _ _); [|done]. destruct (bool_decide _); [done|].
    destruct (negb (is_current _ _)); [done|]. destruct (negb (bool_decide _)); [done|]. cbn. unfold box_closed in *. cbn. naive_solver.
Qed.

Lemma monitor_closed calls m : box_closed m -> box_closed (foldl monitor_exec m calls).
Proof.
  revert m. induction calls as [|c calls IH]; intros m Hm; [done|]. apply IH.
  destruct c as [worker op| |reason| | | |]; cbn [monitor_exec]; try done.
  - unfold serve_exec_request. destruct worker as [w|]; [|done]. set (live := _ && negb (wk_stop_accepted w)). set (m1 := if wk_failed w then _ else _).
    assert (box_closed m1) as H1.
    { unfold m1. destruct (wk_failed w); [apply close_to_exec_closes; by left|].
      destruct (String.eqb _ "terminal"); [apply close_to_exec_closes; by left|]. destruct live; [by apply mark_ready_closed|done]. }
    destruct op; try by apply perform_closed. destruct (negb live); [done|]. by apply perform_closed, mark_ready_closed.
  - by apply mark_ready_closed.
  - apply close_to_exec_closes. by left.
Qed.

Lemma monitor_stop_closed calls s : stop_closed s -> stop_closed (foldl monitor_stop s calls).
Proof.
  revert s. induction calls as [|c calls IH]; intros s Hs; [done|]. apply IH.
  unfold stop_closed in *. destruct c; cbn [monitor_stop]; try done.
  - unfold ExecControl.stop_request. destruct Hs as [Hs|Hs]; rewrite Hs; cbn [bool_decide]; by auto.
  - unfold stop_mark_ready. case_bool_decide; cbn; [destruct Hs; congruence|done].
  - unfold mark_terminal. case_bool_decide; cbn; [by right|done].
  - unfold mark_control_lost. case_bool_decide; cbn; [by right|by left].
Qed.

(** Nobody gives a STOP back. *)
Lemma monitor_taken calls s : sc_taken (foldl monitor_stop s calls) = sc_taken s.
Proof.
  revert s. induction calls as [|c calls IH]; intros s; [done|]. cbn [foldl]. rewrite IH. destruct c; cbn [monitor_stop]; try done.
  - unfold ExecControl.stop_request. do 2 (destruct (bool_decide _); [done|]). destruct (sc_accepted s); [done|]. by destruct (negb _).
  - unfold stop_mark_ready. by case_bool_decide.
  - unfold mark_terminal. by case_bool_decide.
  - unfold mark_control_lost. by case_bool_decide.
Qed.
End facts.

(** * A small logic for the computations of the lifecycle transport, and what its
    two loops over the stream do: [_send_all] and [_receive_one]. *)

(** * The laws of the environment *)

(** What is observed of a world: its clock, how many more waits it may let return at
    once, and how many in a row at most; the bytes its stream accepted, the bytes it
    delivered. *)
Class TransportView (W : Type) := { clock : W -> Z; burst : W -> Z; spins : Z; accepted_bytes : W -> bytes; delivered_bytes : W -> bytes }.
#[global] Arguments spins W {_}.

Section laws.
Context {W : Type} `{TransportView W}.

(** Time does not go back, and while it stands still only waits count. *)
Definition later (w w' : W) : Prop := clock w < clock w' \/ clock w = clock w' /\ burst w' <= burst w.

#[export] Instance later_preorder : PreOrder later.
Proof. unfold later. split; [intros w; lia|intros w1 w2 w3; lia]. Qed.

Lemma later_clock w w' : later w w' -> clock w <= clock w'.
Proof. unfold later. lia. Qed.

(** Nothing passes on the stream. *)
Definition quiet (w w' : W) : Prop :=
  accepted_bytes w' = accepted_bytes w /\ delivered_bytes w' = delivered_bytes w /\ later w w'.

#[export] Instance quiet_preorder : PreOrder quiet.
Proof.
  split; [by intros w; split_and!|]. intros w1 w2 w3 (E1 & E2 & ?) (E3 & E4 & ?). unfold quiet. rewrite E3, E4. split_and!; [done|done|by transitivity w2].
Qed.

(** [time.monotonic] never goes back, a non-blocking [send] takes the front of what
    it is given, and [recv] delivers at least one byte.  A wait may return at once,
    as one turn of the event loop does, but no more than [spins] of them in a row
    before the clock shows another millisecond. *)
Class TransportLaws `{TransportWorld W} := {
  law_monotonic w w' z : monotonic w = (w', z) -> quiet w w' /\ z = clock w';
  law_burst w : 0 <= burst w <= spins W;
  law_wait w n w' r : wait w n = (w', r) -> quiet w w' /\ (r = None -> clock w < clock w' \/ burst w' < burst w);
  law_wait_writable w n w' r : wait_writable w n = (w', r) -> quiet w w' /\ (r = None -> clock w < clock w' \/ burst w' < burst w);
  law_send w p w' a : stream_send w p = (w', a) ->
    delivered_bytes w' = delivered_bytes w /\ later w w' /\
    accepted_bytes w' = accepted_bytes w ++ match a with SendInt n => if n <=? zlen p then take (Z.to_nat n) p else [] | _ => [] end;
  law_recv w w' a : stream_recv w = (w', a) ->
    accepted_bytes w' = accepted_bytes w /\ later w w' /\
    delivered_bytes w' = delivered_bytes w ++ match a with RecvBytes b => b | _ => [] end /\
    match a with RecvBytes b => Forall is_byte b /\ b <> [] | _ => True end;
  law_before_stop_send w w' r : before_stop_send w = (w', r) -> quiet w w';
  law_on_ready w x w' r : on_ready w x = (w', r) -> quiet w w';
  law_before_close w w' r : before_stream_close w = (w', r) -> quiet w w';
  law_abort w w' r : stream_abort w = (w', r) -> quiet w w';
  law_free w w' r : stream_free w = (w', r) -> quiet w w';
  law_nonce w w' r : draw_nonce w = (w', r) -> quiet w w';
  law_monitor w w' r : monitor_calls w = (w', r) -> quiet w w';
}.
End laws.
Arguments TransportLaws : clear implicits.
Arguments TransportLaws W {_ _}.

(** What the other threads have done with the shared objects, in order: a history
    that only their calls extend. *)
Class MonitorLog (W : Type) `{TransportWorld W} := {
  monitor_log : W -> list monitor_call;
  log_calls w w' calls : monitor_calls w = (w', calls) -> monitor_log w' = monitor_log w ++ calls;
  log_monotonic w w' z : monotonic w = (w', z) -> monitor_log w' = monitor_log w;
  log_wait w n w' r : wait w n = (w', r) -> monitor_log w' = monitor_log w;
  log_wait_writable w n w' r : wait_writable w n = (w', r) -> monitor_log w' = monitor_log w;
  log_send w p w' a : stream_send w p = (w', a) -> monitor_log w' = monitor_log w;
  log_recv w w' a : stream_recv w = (w', a) -> monitor_log w' = monitor_log w;
  log_before_stop_send w w' r : before_stop_send w = (w', r) -> monitor_log w' = monitor_log w;
  log_on_ready w x w' r : on_ready w x = (w', r) -> monitor_log w' = monitor_log w;
  log_nonce w w' r : draw_nonce w = (w', r) -> monitor_log w' = monitor_log w;
}.

(** A call by which the mailbox is closed for good: the monitor's own, or the
    answer to a request when the worker has failed or has ended. *)
Definition closes_box (c : monitor_call) : bool :=
  match c with
  | MExecClose reason => bool_decide (reason ∈ [TERMINAL_STATE; CONTROL_LOST])
  | MServe (Some w) _ => wk_failed w || String.eqb (lease_phase w) "terminal"
  | _ => false
  end.

(** Nothing else loses a job. *)
Lemma close_to_exec_spares m reason : bool_decide (reason ∈ [TERMINAL_STATE; CONTROL_LOST]) = false -> mb_job_state (close_to_exec m reason).1 = mb_job_state m.
Proof.
  intros Hr. unfold close_to_exec. destruct (negb _); [done|]. rewrite Hr. cbn [andb fst]. by destruct (bool_decide (mb_state m ∈ _)).
Qed.

Lemma perform_spares m op : mb_job_state m <> Some JOB_LOST -> mb_job_state (perform m op).1 <> Some JOB_LOST.
Proof.
  intros Hm. destruct op; cbn [perform fst]; [done|..].
  - unfold submit. destruct (exec_identity _ _); [|done]. destruct (validate_exec_request _ _); [|done]. destruct (negb _); [done|].
    destruct (mb_job m); [by destruct (negb _)|]. by destruct (negb _ || _).
  - unfold poll. destruct (exec_identity _ _); [|done]. by destruct (negb _).
  - unfold acknowledge. destruct (exec_identity _ _); [|done]. destruct (bool_decide _); [done|]. destruct (negb _); [done|]. by destruct (negb _).
Qed.

Lemma mark_ready_job_state m : mb_job_state (mark_ready m) = mb_job_state m.
Proof. unfold mark_ready. by case_bool_decide. Qed.

Lemma monitor_exec_spares m c : closes_box c = false -> mb_job_state m <> Some JOB_LOST -> mb_job_state (monitor_exec m c) <> Some JOB_LOST.
Proof.
  intros Hc Hm. destruct c as [[w|] op| |reason| | | |]; cbn [monitor_exec closes_box serve_exec_request] in *; try done.
  - apply orb_false_iff in Hc as [-> ->]. set (live := _ && _ && _ && _). set (m1 := if live then mark_ready m else m).
    assert (mb_job_state m1 <> Some JOB_LOST) as H1 by (unfold m1; destruct live; [by rewrite mark_ready_job_state|done]).
    destruct op; try by apply perform_spares. destruct (negb live); [done|]. apply perform_spares. by rewrite mark_ready_job_state.
  - by rewrite mark_ready_job_state.
  - by rewrite close_to_exec_spares.
Qed.

Lemma monitor_spares calls m : existsb closes_box calls = false -> mb_job_state m <> Some JOB_LOST -> mb_job_state (foldl monitor_exec m calls) <> Some JOB_LOST.
Proof.
  revert m. induction calls as [|c calls IH]; intros m Hc Hm; [done|]. cbn [existsb foldl] in *. apply orb_false_iff in Hc as [Hc Hcs].
  by apply IH, monitor_exec_spares.
Qed.

Section logic.
Context `{Hash} {W : Type} `{TransportWorld W}.
#[local] Notation M := (@M W).
Implicit Types t : transport W.

(** * Triples: [E] holds where the computation raises *)

Definition ensures {A} (P : transport W -> Prop) (m : M A) (Q : A -> transport W -> Prop) (E : failure -> transport W -> Prop) : Prop :=
  forall t, P t -> match m t with (t', Value a) => Q a t' | (t', Raise f) => E f t' end.

Lemma ensures_bind {A B} P (m : M A) (k : A -> M B) R Q E :
  ensures P m R E -> (forall a, ensures (R a) (k a) Q E) -> ensures P (bind m k) Q E.
Proof.
  intros Hm Hk t Ht. specialize (Hm t Ht). unfold bind. destruct (m t) as [t' [a|f]]; [|done]. by apply Hk.
Qed.

Lemma ensures_ret {A} (P : transport W -> Prop) (a : A) (Q : A -> transport W -> Prop) E : (forall t, P t -> Q a t) -> ensures P (ret a) Q E.
Proof. intros HQ t Ht. by apply HQ. Qed.

Lemma ensures_fail {A} (P : transport W -> Prop) f (Q : A -> transport W -> Prop) (E : failure -> transport W -> Prop) :
  (forall t, P t -> E f t) -> ensures P (fail f) Q E.
Proof. intros HE t Ht. by apply HE. Qed.

Lemma ensures_weaken {A} (P P' : transport W -> Prop) (m : M A) (Q Q' : A -> transport W -> Prop) (E E' : failure -> transport W -> Prop) :
  ensures P' m Q' E' -> (forall t, P t -> P' t) -> (forall a t, Q' a t -> Q a t) -> (forall f t, E' f t -> E f t) -> ensures P m Q E.
Proof. intros Hm HP HQ HE t Ht. specialize (Hm t (HP t Ht)). destruct (m t) as [t' [a|f]]; auto. Qed.

Lemma ensures_gets {A} (P : transport W -> Prop) (f : transport W -> A) E : ensures P (gets f) (fun a t => P t /\ a = f t) E.
Proof. intros t Ht. by split. Qed.

Lemma ensures_if {A} P (b : bool) (m n : M A) Q E :
  (b = true -> ensures P m Q E) -> (b = false -> ensures P n Q E) -> ensures P (if b then m else n) Q E.
Proof. destruct b; auto. Qed.

Lemma ensures_modify (P : transport W -> Prop) f (Q : unit -> transport W -> Prop) E : (forall t, P t -> Q tt (f t)) -> ensures P (modify f) Q E.
Proof. intros HQ t Ht. by apply HQ. Qed.

Lemma ensures_lift {A} (P : transport W -> Prop) f (r : result A) (Q : A -> transport W -> Prop) (E : failure -> transport W -> Prop) :
  (forall t a, P t -> r = Ok a -> Q a t) -> (forall t e, P t -> r = Err e -> E (f e) t) -> ensures P (lift f r) Q E.
Proof. intros HQ HE t Ht. unfold lift. destruct r; cbn; auto. Qed.

Lemma ensures_io {A} (P : transport W -> Prop) (f : W -> W * A) (Q : A -> transport W -> Prop) E :
  (forall t w a, P t -> f (t_world t) = (w, a) -> Q a (t <| t_world := w |>)) -> ensures P (io f) Q E.
Proof. intros HQ t Ht. unfold io. destruct (f (t_world t)) eqn:Ef. by apply HQ. Qed.

Lemma ensures_call (P : transport W -> Prop) f (Q : unit -> transport W -> Prop) (E : failure -> transport W -> Prop) :
  (forall t w, P t -> f (t_world t) = (w, None) -> Q tt (t <| t_world := w |>)) ->
  (forall t w r, P t -> f (t_world t) = (w, Some r) -> E (Raised r) (t <| t_world := w |>)) -> ensures P (call f) Q E.
Proof. intros HQ HE t Ht. unfold call. destruct (f (t_world t)) as [w [r|]] eqn:Ef; auto. Qed.

Lemma ensures_session {A} (P : transport W -> Prop) f (g : session -> session * result A) (Q : A -> transport W -> Prop) (E : failure -> transport W -> Prop) :
  (forall t s a, P t -> g (t_session t) = (s, Ok a) -> Q a (t <| t_session := s |>)) ->
  (forall t s e, P t -> g (t_session t) = (s, Err e) -> E (f e) (t <| t_session := s |>)) -> ensures P (on_session f g) Q E.
Proof. intros HQ HE t Ht. unfold on_session. destruct (g (t_session t)) as [s [a|e]] eqn:Eg; cbn; auto. Qed.

(** A precondition that is a fact about the environment of the computation. *)
Lemma ensures_pure {A} (P : transport W -> Prop) (X : Prop) (m : M A) Q E : (X -> ensures P m Q E) -> ensures (fun t => P t /\ X) m Q E.
Proof. intros Hm t [Ht Hx]. by apply Hm. Qed.

(** The world alone changes, on a quiet stream. *)
Definition silent `{TransportView W} (t t' : transport W) : Prop := quiet (t_world t) (t_world t') /\ t' = t <| t_world := t_world t' |>.

#[export] Instance silent_preorder `{TransportView W} : PreOrder silent.
Proof.
  split; [by intros []|]. intros t1 t2 t3 [Q1 E1] [Q2 E2]. split; [by transitivity (t_world t2)|]. rewrite E2, E1. done.
Qed.

Context `{TransportView W} `{!TransportLaws W}.

Lemma silent_world t w : quiet (t_world t) w -> silent t (t <| t_world := w |>).
Proof. intros Hq. by split. Qed.

(** ** Clock *)

(** The waits that may return before the deadline *)
Definition time_left (dl : Z) (t : transport W) : Z :=
  if clock (t_world t) <? dl then (spins W + 1) * (dl - clock (t_world t)) + burst (t_world t) else 0.

Lemma time_left_nonneg dl t : 0 <= time_left dl t.
Proof. unfold time_left. pose proof (law_burst (t_world t)). case Z.ltb_spec; nia. Qed.

Lemma time_left_bound c dl t : c <= clock (t_world t) -> time_left dl t <= (spins W + 1) * Z.max 0 (dl - c) + spins W.
Proof. intros Hc. unfold time_left. pose proof (law_burst (t_world t)). case Z.ltb_spec; nia. Qed.

Lemma time_left_later dl t t' : later (t_world t) (t_world t') -> time_left dl t' <= time_left dl t.
Proof.
  unfold later, time_left. pose proof (law_burst (t_world t)). pose proof (law_burst (t_world t')).
  intros Hl. do 2 case Z.ltb_spec; intros; nia.
Qed.

Lemma time_left_wait dl t t' : clock (t_world t) < dl -> later (t_world t) (t_world t') ->
  clock (t_world t) < clock (t_world t') \/ burst (t_world t') < burst (t_world t) -> time_left dl t' + 1 <= time_left dl t.
Proof.
  unfold later, time_left. intros Hd Hl Hw. pose proof (law_burst (t_world t)). pose proof (law_burst (t_world t')).
  do 2 case Z.ltb_spec; intros; nia.
Qed.

Lemma remaining_spec t d : let ' (t', r) := remaining d t in silent t t' /\
  match r, d with
  | Value z, None => z = 10
  | Value z, Some d => z = d - clock (t_world t') /\ 0 < z
  | Raise f, Some d => f = category_failure TIMEOUT /\ d <= clock (t_world t')
  | Raise _, None => False
  end.
Proof.
  destruct d as [d|]; [|done]. cbn [remaining]. unfold bind, io. destruct (monotonic (t_world t)) as [w z] eqn:Em.
  apply law_monotonic in Em as [Hq ->]. destruct (d - clock w <=? 0) eqn:G; cbn; bool_norm; (split; [by apply silent_world|]); [split; [done|lia]|lia].
Qed.

Lemma pause_spec t d waiter : (forall w n w' r, waiter w n = (w', r) -> quiet w w' /\ (r = None -> clock w < clock w' \/ burst w' < burst w)) ->
  let ' (t', r) := pause d waiter t in silent t t' /\
  match r with Value _ => match d with Some dl => time_left dl t' + 1 <= time_left dl t | None => True end | Raise f => exists x, f = Raised x end.
Proof.
  intros Hw. unfold pause, bind. pose proof (remaining_spec t d) as Hr. destruct (remaining d t) as [t1 [z|f]]; destruct Hr as [Hs Hr].
  2: { split; [done|]. destruct d; [|done]. destruct Hr as [-> _]. by eexists. }
  unfold call. destruct (waiter (t_world t1) (Z.min 10 z)) as [w r] eqn:Ew. apply Hw in Ew as [Hq Hn].
  assert (silent t (t1 <| t_world := w |>)) as Hs' by (etrans; [exact Hs|by apply silent_world]).
  destruct r; (split; [done|]); [by eauto|]. specialize (Hn eq_refl). destruct Hs as [(_ & _ & Hc) _]. destruct d as [dl|]; [|done].
  apply (time_left_later dl) in Hc. etrans; [|exact Hc]. destruct Hr as [-> Hr]. apply time_left_wait; cbn; [lia|apply Hq|done].
Qed.

(** ** Sending *)

(** A failure that is not the mailbox's. *)
Definition plain (f : failure) : Prop := match f with MailboxFailure _ => False | _ => True end.

(** The stream took [pre]; nothing else of the transport changed. *)
Definition sends (t t' : transport W) (pre : bytes) : Prop :=
  t' = t <| t_world := t_world t' |> /\ delivered_bytes (t_world t') = delivered_bytes (t_world t) /\
  later (t_world t) (t_world t') /\ accepted_bytes (t_world t') = accepted_bytes (t_world t) ++ pre.

Definition quiet_callback (f : W -> W * option raised) : Prop := forall w w' r, f w = (w', r) -> quiet w w'.

Lemma silent_sends t t' : silent t t' -> sends t t' [].
Proof. intros [(? & ? & ?) ?]. split_and!; try done. by rewrite app_nil_r. Qed.

Lemma sends_trans t1 t2 t3 p q : sends t1 t2 p -> sends t2 t3 q -> sends t1 t3 (p ++ q).
Proof.
  intros (E1 & D1 & C1 & A1) (E2 & D2 & C2 & A2). split_and!; [by rewrite E2, E1|congruence|by transitivity (t_world t2)|]. by rewrite A2, A1, app_assoc.
Qed.

(** One turn of the loop: the answer of [send], after quiet actions. *)
Lemma send_prelude t d before : from_option quiet_callback True before ->
  let ' (t', r) := (do _ <- remaining d ;;
    match before with Some f => do _ <- call f ;; do _ <- remaining d ;; ret tt | None => ret tt end) t in
  silent t t' /\ match r with Raise f => plain f /\ f <> OutOfFuel | Value _ => match d with Some d => clock (t_world t) < d | None => True end end.
Proof.
  intros Hb. unfold bind at 1. pose proof (remaining_spec t d) as Hr. destruct (remaining d t) as [t1 [z|f]]; destruct Hr as [Hs Hr].
  2: { split; [done|]. destruct d; [|done]. by destruct Hr as [-> _]. }
  assert (match d with Some d => clock (t_world t) < d | None => True end) as Hd.
  { destruct d; [|done]. destruct Hs as [(_ & _ & ?%later_clock) _]. lia. }
  destruct before as [g|]; [|done]. unfold bind at 1, call. destruct (g (t_world t1)) as [w [x|]] eqn:Eg; apply Hb in Eg.
  { split; [|done]. etrans; [exact Hs|by apply silent_world]. }
  unfold bind. pose proof (remaining_spec (t1 <| t_world := w |>) d) as Hr'. destruct (remaining d _) as [t2 [z'|f]]; destruct Hr' as [Hs' Hr'].
  - split; [|done]. etrans; [exact Hs|]. etrans; [by apply silent_world|done].
  - split; [etrans; [exact Hs|]; etrans; [by apply silent_world|done]|]. destruct d; [|done]. by destruct Hr' as [-> _].
Qed.

Lemma bind_assoc {A B C} (m : M A) (k : A -> M B) (k' : B -> M C) t : bind (bind m k) k' t = bind m (fun a => bind (k a) k') t.
Proof. unfold bind. destruct (m t) as [t' [a|f]]; done. Qed.

(** Any number of turns; with a deadline, enough of them end the loop. *)
Lemma send_all_spec fuel : forall payload d before t, from_option quiet_callback True before ->
  let ' (t', r) := send_all fuel payload d before t in
  exists pre, sends t t' pre /\ pre `prefix_of` payload /\
  match r with
  | Value _ => pre = payload
  | Raise f => plain f /\ (forall dl, d = Some dl -> zlen payload + time_left dl t < Z.of_nat fuel -> f <> OutOfFuel)
  end.
Proof.
  induction fuel as [|fuel IH]; intros payload d before t Hb; (destruct payload as [|b payload]; [exists []; split; [by apply silent_sends|done]|]).
  { exists []. split; [by apply silent_sends|]. split; [apply prefix_nil|]. split; [done|]. intros dl _. pose proof (zlen_nonneg (b :: payload)). pose proof (time_left_nonneg dl t). lia. }
  cbn [send_all]. set (all := b :: payload). rewrite <- bind_assoc.
  pose proof (send_prelude t d before Hb) as Hp. unfold bind at 1.
  match type of Hp with match ?x with _ => _ end => destruct x as [t1 [z|f]] end; destruct Hp as [Hs Hp].
  2: { exists []. split; [by apply silent_sends|]. split; [apply prefix_nil|]. destruct Hp as [? ?]. by split. }
  unfold bind at 1, io. destruct (stream_send (t_world t1) all) as [w a] eqn:Es. apply law_send in Es as (Ed & Hc & Ea).
  set (t2 := t1 <| t_world := w |>).
  assert (forall n, 0 < n <= zlen all -> a = SendInt n -> sends t t2 (take (Z.to_nat n) all)) as Htake.
  { intros n Hn ->. rewrite (proj2 (Z.leb_le _ _)) in Ea by lia. eapply (sends_trans t t1 t2 []); [by apply silent_sends|]. by split_and!. }
  assert (match a with SendInt n => n <= 0 \/ zlen all < n | _ => True end -> sends t t2 []) as Hnone.
  { intros Hn. eapply (sends_trans t t1 t2 []); [by apply silent_sends|]. split_and!; try done. cbn [t_world setter t2 transport_eta].
    rewrite Ea. destruct a as [|n|]; try done. destruct (n <=? zlen all) eqn:G; bool_norm; [|done]. destruct Hn; [|lia].
    by rewrite Z2Nat.nonpos by lia. }
  assert (forall f, plain f -> f <> OutOfFuel -> (match a with SendInt n => n <= 0 \/ zlen all < n | _ => True end) ->
    exists pre, sends t t2 pre /\ pre `prefix_of` all /\ plain f /\
      (forall dl, d = Some dl -> zlen all + time_left dl t < Z.of_nat (S fuel) -> f <> OutOfFuel)) as Hfail.
  { intros f ? ? Hn. exists []. split; [by apply Hnone|]. split; [apply prefix_nil|]. by split. }
  destruct a as [|n|]; [by apply Hfail| |by apply Hfail].
  destruct (n =? -2) eqn:En; bool_norm.
  - subst n. specialize (Hnone ltac:(lia)). unfold bind at 1.
    pose proof (pause_spec t2 d wait_writable law_wait_writable) as Hw. destruct (pause d wait_writable t2) as [t3 [u|f]]; destruct Hw as [Hs3 Hw].
    + specialize (IH all d before t3 Hb). destruct (send_all fuel all d before t3) as [t4 r]. destruct IH as (pre & Hp4 & Hpre & Hr).
      exists pre. split; [eapply (sends_trans _ _ _ []); [|exact Hp4]; eapply (sends_trans _ _ _ [] []); [exact Hnone|by apply silent_sends]|].
      split; [done|]. destruct r; [done|]. destruct Hr as [? Hr]. split; [done|]. intros dl -> Hf. apply (Hr dl eq_refl).
      destruct Hnone as (_ & _ & Hl & _). apply (time_left_later dl) in Hl. lia.
    + exists []. split; [eapply (sends_trans _ _ _ [] []); [exact Hnone|by apply silent_sends]|]. split; [apply prefix_nil|].
      by destruct Hw as [x ->].
  - destruct ((n <=? 0) || (zlen all <? n)) eqn:G.
    { apply Hfail; [done|done|]. apply orb_true_iff in G as [G|G]; bool_norm; lia. }
    bool_norm. specialize (Htake n ltac:(lia) eq_refl). pose proof (IH (drop (Z.to_nat n) all) d before t2 Hb) as IH'.
    destruct (send_all fuel _ d before t2) as [t3 r]. destruct IH' as (pre & Hp4 & Hpre & Hr).
    exists (take (Z.to_nat n) all ++ pre). split; [by eapply sends_trans|]. split.
    { destruct Hpre as [k Ek]. exists k. by rewrite <- app_assoc, <- Ek, take_drop. }
    destruct r; [by rewrite Hr, take_drop|]. destruct Hr as [? Hr]. split; [done|]. intros dl -> Hf. apply (Hr dl eq_refl).
    destruct Htake as (_ & _ & Hl & _). apply (time_left_later dl) in Hl. unfold zlen in *. rewrite length_drop. lia.
Qed.

(** ** Receiving *)

(** The messages decoded so far are [got] and those that are pending. *)
Definition stream_ok (got : list envelope) (t : transport W) : Prop :=
  decoder_ok (t_decoder t) /\ Forall exec_payload_ok (t_pending t) /\
  feed_bytes decoder_init (delivered_bytes (t_world t)) = (t_decoder t, Ok (got ++ t_pending t)).

(** Only what is received changes. *)
Definition listens (t t' : transport W) : Prop :=
  accepted_bytes (t_world t') = accepted_bytes (t_world t) /\ later (t_world t) (t_world t') /\
  t' = t <| t_world := t_world t' |> <| t_decoder := t_decoder t' |> <| t_pending := t_pending t' |>.

Lemma silent_listens t t' : silent t t' -> listens t t'.
Proof. intros [(? & ? & ?) E]. split_and!; try done. rewrite E. by destruct t. Qed.

Lemma silent_stream t t' got : silent t t' -> stream_ok got t -> stream_ok got t' /\ t_pending t' = t_pending t.
Proof. intros [(_ & Ed & _) E] (? & ? & Hf). rewrite E. split; [|done]. split_and!; cbn; try done. by rewrite Ed. Qed.

Lemma feed_stream t w data got d r : stream_ok got t -> delivered_bytes w = delivered_bytes (t_world t) ++ data -> Forall is_byte data ->
  feed (t_decoder t) data = (d, r) ->
  match r with
  | Ok es => stream_ok got (t <| t_world := w |> <| t_decoder := d |> <| t_pending := t_pending t ++ es |>)
  | Err _ => True
  end.
Proof.
  intros (Hd & Hp & Hf) Ew Hb Hr. destruct r as [es|]; [|done]. pose proof (feed_exec _ _ _ _ Hr) as He.
  rewrite feed_is_feed_bytes in Hr by done. split_and!; cbn.
  - replace d with (feed_bytes (t_decoder t) data).1 by (by rewrite Hr). by apply feed_bytes_ok.
  - by apply Forall_app.
  - rewrite Ew, feed_bytes_app, Hf. cbn [then_feed]. by rewrite Hr, app_assoc.
Qed.

Section receive.
Context (J : transport W -> Prop) (E : failure -> transport W -> Prop).
Context (HJ : forall t t', J t -> listens t t' -> J t') (HE : forall f t, plain f -> J t -> E f t).

Definition receiving (got : list envelope) (t : transport W) : Prop := J t /\ stream_ok got t.

Lemma ensures_silent {A} (m : M A) got :
  (forall t, let ' (t', r) := m t in silent t t' /\ match r with Raise f => plain f | Value _ => True end) ->
  ensures (fun t => receiving got t /\ t_pending t = []) m (fun _ t => receiving got t /\ t_pending t = []) E.
Proof.
  intros Hm t [[Hj Hs] Hp]. specialize (Hm t). destruct (m t) as [t' [a|f]]; destruct Hm as [Hsil Hf].
  - destruct (silent_stream _ _ got Hsil Hs) as [? ->]. split; [split; [|done]|done]. apply (HJ t); [done|by apply silent_listens].
  - apply HE; [done|]. apply (HJ t); [done|by apply silent_listens].
Qed.

Lemma remaining_silent d t : let ' (t', r) := remaining d t in silent t t' /\ match r with Raise f => plain f | Value _ => True end.
Proof.
  pose proof (remaining_spec t d) as Hr. destruct (remaining d t) as [t' [z|f]]; destruct Hr as [? Hr]; (split; [done|]); [done|].
  destruct d; [|done]. by destruct Hr as [-> _].
Qed.

Lemma pause_silent d t : let ' (t', r) := pause d wait t in silent t t' /\ match r with Raise f => plain f | Value _ => True end.
Proof.
  pose proof (pause_spec t d wait law_wait) as Hr. destruct (pause d wait t) as [t' [z|f]]; destruct Hr as [? Hr]; (split; [done|]); [done|].
  by destruct Hr as [x ->].
Qed.

Lemma receive_one_spec fuel d poll got :
  (forall f b, poll = Some f -> ensures (fun t => receiving got t /\ t_pending t = []) (f b) (fun _ t => receiving got t /\ t_pending t = []) E) ->
  ensures (receiving got) (receive_one fuel d poll) (fun e t => receiving (got ++ [e]) t /\ exec_payload_ok e) E.
Proof.
  intros Hpoll. induction fuel as [|fuel IH]; intros t [Hj Hs]; cbn [receive_one]; (destruct (t_pending t) as [|e es] eqn:Ep).
  1: { by apply HE. }
  1, 3: destruct Hs as (Hd & Hp & Hf); rewrite Ep in *; inversion_clear Hp as [|? ? He Hes];
    (split; [split|done]; [apply (HJ t); [done|split_and!; cbn; [done|reflexivity|by destruct t]]|]);
    split_and!; cbn; [done|done|by rewrite <- app_assoc].
  revert t Hj Hs Ep. cut (ensures (fun t => receiving got t /\ t_pending t = [])
    (do _ <- match poll with Some f => f false | None => ret () end ;;
     do _ <- remaining d ;;
     do chunk <- io stream_recv ;;
     match chunk with
     | RecvRaised | RecvOther => fail (category_failure STREAM_RECEIVE)
     | RecvAgain =>
         do _ <- match poll with Some f => do boundary <- gets at_boundary ;; f boundary | None => ret () end ;;
         do _ <- pause d wait ;; receive_one fuel d poll
     | RecvEnd => fail (category_failure STREAM_ENDED)
     | RecvBytes data => do _ <- feed_pending data ;; receive_one fuel d poll
     end) (fun e t => receiving (got ++ [e]) t /\ exec_payload_ok e) E).
  { intros Hc t Hj Hs Ep. by apply Hc. }
  eapply ensures_bind with (R := fun _ t => receiving got t /\ t_pending t = []).
  { destruct poll; [by apply Hpoll|by apply ensures_ret]. }
  intros _. eapply ensures_bind; [apply ensures_silent, remaining_silent|]. intros _ t [[Hj Hs] Ep].
  unfold bind at 1, io. destruct (stream_recv (t_world t)) as [w a] eqn:Er. apply law_recv in Er as (Ea & Hc & Ed & Hb).
  set (t1 := t <| t_world := w |>).
  assert (J t1) as Hj1 by (apply (HJ t); [done|]; split_and!; [done|done|by destruct t]).
  assert (match a with RecvBytes _ => True | _ => stream_ok got t1 end) as Hs1.
  { destruct a; try done; rewrite app_nil_r in Ed; destruct Hs as (? & ? & Hf); split_and!; cbn; try done; by rewrite Ed. }
  destruct a as [| | |data|]; try (by apply HE).
  - apply (ensures_bind (fun t => receiving got t /\ t_pending t = []) _ _ (fun _ t => receiving got t /\ t_pending t = [])); [| |done].
    + destruct poll as [f|]; [|by apply ensures_ret]. eapply ensures_bind; [apply ensures_gets|]. intros b.
      intros t' [Ht' _]. by apply Hpoll.
    + intros _. eapply ensures_bind; [apply ensures_silent, pause_silent|]. intros _ t' [Ht' _]. by apply IH.
  - destruct Hb as [Hb _]. unfold bind, feed_pending. destruct (feed (t_decoder t1) data) as [d' r] eqn:Ef.
    pose proof (feed_stream t w data got d' r Hs Ed Hb Ef) as Hf. destruct r as [es|x].
    + apply IH. split; [|done]. apply (HJ t1); [done|]. split_and!; cbn; [done|reflexivity|by destruct t].
    + apply HE; [done|]. apply (HJ t1); [done|]. split_and!; cbn; [done|reflexivity|by destruct t].
Qed.
End receive.
End logic.
