(* ===== verification/TransportInv.v ===== *)
(** The invariant of a handoff after READY: the mailbox holds the transport's job
    with exactly the output the session has counted, and the transcript is that
    of a boot with at most one STOP. *)
From S2P Require Import Prelude Crypto PyStr PyVal Json Digest ExecControl ExecControlFacts ExecSession ControlV2Wire ControlV2Message ControlV2Codec ControlV2Session ControlV2SessionInv Transport TransportFacts.

(** * What the session does *)

Section session.
Context `{Hash}.

Lemma accept_after_ready s e s' x : state s = Ready \/ state s = StopSent -> accept s e = (s', Ok x) ->
  key s' = key s /\ boot_generation s' = boot_generation s /\ key_id s' = key_id s /\ s_boot_attempt_id s' = s_boot_attempt_id s /\
  match m_payload (e_body e) with
  | PExecOutput st offset h =>
      state s' = state s /\ exec_request s' = exec_request s /\ exec_request s <> None /\ offset = stream_count s st /\
      stdout_count s' = stdout_count s + (if bool_decide (st = Stdout) then zlen h / 2 else 0) /\
      stderr_count s' = stderr_count s + (if bool_decide (st = Stderr) then zlen h / 2 else 0) /\
      stdout_count s + stderr_count s + zlen h / 2 <= MAX_OCI_EXEC_OUTPUT_BYTES
  | PExecExit _ out err _ =>
      state s' = state s /\ exec_request s' = None /\ exec_request s <> None /\ out = stdout_count s /\ err = stderr_count s
  | PTerminal _ => state s' = Terminated /\ exec_request s = None /\ exec_request s' = None
  | _ => False
  end.
Proof.
  intros Hst. unfold accept. destruct (bool_decide _); [done|]. destruct (m_payload (e_body e)) eqn:Ep; intros Ha.
  2: { unfold accept_bootstrap in Ha. destruct (bool_decide (state s <> HelloSent)) eqn:G; [done|]. bool_norm.
       apply dec_stable in G. destruct Hst; congruence. }
  all: unfold accept_guest in Ha; destruct (key s) as [k|] eqn:Ek; [|done]; destruct (boot_generation s) as [g|] eqn:Eg; [|done];
    destruct (verify_message_authentication _ _ _); [|done]; do 2 (destruct (_ || _); [done|]); destruct (_ <=? _); [done|];
    unfold m_kind in Ha; rewrite Ep in Ha; cbn [payload_kind] in Ha.
  all: try (unfold accept_transition in Ha; rewrite Ep in Ha; destruct Hst as [E|E]; rewrite E in Ha; cbn in Ha; repeat case_bool_decide; done).
  - rewrite bool_decide_eq_true_2, andb_true_l in Ha by done. destruct (bool_decide (exec_request s <> None)) eqn:G; [done|].
    bool_norm. apply dec_stable in G. unfold accept_transition in Ha. rewrite Ep in Ha.
    assert (forall st w c s1, settle (e_body e) (st, w, c, s1) = s' -> s1 = s <| s_terminal := s_terminal s1 |> <| terminal_stop_request := terminal_stop_request s1 |> ->
      st = Terminated -> key s' = Some k /\ boot_generation s' = Some g /\ key_id s' = key_id s /\ s_boot_attempt_id s' = s_boot_attempt_id s /\
        state s' = Terminated /\ exec_request s = None /\ exec_request s' = None) as Hsettle.
    { intros st w c s1 <- Es ->. unfold settle. rewrite Ep, Es. by cbn. }
    destruct Hst as [E|E]; rewrite E in Ha; cbn in Ha.
    + destruct (bool_decide _); [|done]. apply pair_equal_spec in Ha as [Ha _]. by eapply Hsettle.
    + destruct (in_none_or _ _); [|done]. apply pair_equal_spec in Ha as [Ha _].
      unfold accept_stop_terminal in Ha. destruct (m_reply_to (e_body e)); [|by eapply Hsettle].
      destruct (_ && _); by eapply Hsettle.
  - unfold accept_exec in Ha. rewrite Ep in Ha. destruct (negb _ || _ || _) eqn:G; [done|].
    destruct (negb (offset =? _)) eqn:G1; [done|]. destruct (MAX_OCI_EXEC_OUTPUT_BYTES <? _) eqn:G2; [done|]. bool_norm.
    apply pair_equal_spec in Ha as [<- _]. destruct s0; unfold add_output; cbn; repeat case_bool_decide; try done; split_and!; try done; lia.
  - unfold accept_exec in Ha. rewrite Ep in Ha. destruct (negb _ || _ || _) eqn:G; [done|].
    destruct (negb (stdout_bytes =? _) || _) eqn:G1; [done|]. bool_norm.
    apply pair_equal_spec in Ha as [<- _]. cbn. by split_and!.
Qed.

Lemma sign_message_body m k c e : sign_message m k c = Ok e -> e_body e = m.
Proof. unfold sign_message, envelope_init. intros Hs. inv_ok; done. Qed.

Lemma message_init_stop b attempt nonce epoch wire data request generation reply m :
  message_init (VStr (u "STOP")) b attempt nonce epoch wire data request generation reply = Ok m -> m_kind m = STOP.
Proof.
  unfold message_init. intros Hc. replace (lookup_kind (VStr (u "STOP"))) with (Ok (A := kind) STOP) in Hc by done.
  cbn [result_bind] in Hc. inv_ok.
  all: unfold check_payload, check_stop in *; inv_ok; done.
Qed.

Lemma stop_message_kind s g r m : stop_message s g r = Ok m -> m_kind m = STOP.
Proof. unfold stop_message. apply message_init_stop. Qed.

Lemma message_init_key_ack b attempt nonce epoch wire data request generation reply m :
  message_init (VStr (u "KEY_ACK")) b attempt nonce epoch wire data request generation reply = Ok m -> m_kind m = KEY_ACK.
Proof.
  unfold message_init. intros Hc. replace (lookup_kind (VStr (u "KEY_ACK"))) with (Ok (A := kind) KEY_ACK) in Hc by done.
  cbn [result_bind] in Hc. inv_ok.
  all: unfold check_payload, check_key_ack in *; inv_ok; done.
Qed.

Lemma message_init_hello b attempt nonce epoch wire data request generation reply m :
  message_init (VStr (u "HELLO")) b attempt nonce epoch wire data request generation reply = Ok m -> m_kind m = HELLO.
Proof.
  unfold message_init. intros Hc. replace (lookup_kind (VStr (u "HELLO"))) with (Ok (A := kind) HELLO) in Hc by done.
  cbn [result_bind] in Hc. inv_ok. done.
Qed.

(** What no operation after BOOTSTRAP changes. *)
Definition same_identity (s s' : session) : Prop :=
  key s' = key s /\ boot_generation s' = boot_generation s /\ key_id s' = key_id s /\ s_boot_attempt_id s' = s_boot_attempt_id s.

Lemma exec_effect s argv timeout s' e : exec s argv timeout = (s', Ok e) ->
  same_identity s s' /\ state s' = state s /\ exec_request s' <> None /\ stdout_count s' = 0 /\ stderr_count s' = 0.
Proof.
  unfold exec. intros He. destruct (validate_exec_argv argv); [|done]. destruct (validate_exec_timeout timeout); [|done].
  destruct (key s) eqn:Ek; [|done]. destruct (boot_generation s) eqn:Eg; [|done].
  destruct (_ || _); [done|]. destruct (_ || _); [done|]. destruct (message_init _ _ _ _ _ _ _ _ _ _); [|done].
  destruct (sign_message _ _ _); [|done]. apply pair_equal_spec in He as [<- _]. unfold same_identity. cbn. by rewrite Ek, Eg.
Qed.

Lemma stop_effect s s' e : stop s = (s', Ok e) ->
  same_identity s s' /\ state s' = StopSent /\ exec_request s' = exec_request s /\ stdout_count s' = stdout_count s /\
  stderr_count s' = stderr_count s /\ m_kind (e_body e) = STOP.
Proof.
  unfold stop. intros He. destruct (key s) as [k|] eqn:Ek; [|done]. destruct (boot_generation s) as [g|] eqn:Eg; [|done].
  destruct (bool_decide (state s <> Ready)); [done|].
  destruct (stop_request (stop_attempt s)) as [r|].
  - destruct (stop_message _ g r) as [m|] eqn:Em; [|done]. destruct (sign_message m k CHANNEL_CARRIER) as [e'|] eqn:Es; [|done].
    apply pair_equal_spec in He as [<- He]. apply (inj Ok) in He as <-. apply stop_message_kind in Em. apply sign_message_body in Es.
    rewrite Es. unfold same_identity. cbn. rewrite Ek, Eg. by split_and!.
  - destruct (stop_message _ g _) as [m|] eqn:Em; [|done]. destruct (sign_message m k CHANNEL_CARRIER) as [e'|] eqn:Es; [|done].
    apply pair_equal_spec in He as [<- He]. apply (inj Ok) in He as <-. apply stop_message_kind in Em. apply sign_message_body in Es.
    rewrite Es. unfold same_identity. cbn. rewrite Ek, Eg. by split_and!.
Qed.
End session.

Section inv.
Context `{Hash} {W : Type} `{TransportWorld W} `{TransportView W} `{!TransportLaws W}.
#[local] Notation M := (@M W).
Implicit Types t : transport W.

(** * The invariant *)

(** The frames of the transcript: each was projected under the session's key, and
    its tag is observed. *)
Definition frame_key (s : session) (e : envelope) : option bytes := match m_kind (e_body e) with HELLO => None | _ => key s end.
Definition recorded (fs : list envelope) (t : transport W) : Prop :=
  Forall2 (fun e d => exists encoded, transcript_projection e encoded CHANNEL_CARRIER (frame_key (t_session t) e) = Ok d)
    fs (t_transcript t) /\
  Forall (fun e => match e_tag e with Some tag => tag ∈ t_tags t | None => True end) fs.

Definition kinds (fs : list envelope) : list kind := map (fun e => m_kind (e_body e)) fs.
Definition boot_kinds (stopped : bool) : list kind := [HELLO; BOOTSTRAP; KEY_ACK; READY] ++ if stopped then [STOP] else [].

(** The mailbox and the session agree on the transport's job. *)
Definition linked (t : transport W) : Prop :=
  match t_job t with
  | None => exec_request (t_session t) = None
  | Some j => exists m, t_exec t = Some m /\ holds m j (stdout_count (t_session t)) (stderr_count (t_session t))
  end.

Definition is_taken (t : transport W) : Prop := exists s, t_stop t = Some s /\ sc_taken s = true.

(** The transport after READY: whether its transcript has a STOP, and whether a
    STOP is known to have been taken. *)
Record running (stopped tk : bool) (t : transport W) : Prop := {
  r_state : state (t_session t) = Ready \/ state (t_session t) = StopSent;
  r_box m : t_exec t = Some m -> box_ok m;
  r_linked : linked t;
  r_recorded : exists fs, recorded fs t /\ kinds fs = boot_kinds stopped;
  r_taken : tk = true -> is_taken t;
}.

(** A mailbox refuses the transport only when the job was lost. *)
Definition job_lost (t : transport W) : Prop := exists m j, t_exec t = Some m /\ mb_job m = Some j /\ mb_job_state m = Some JOB_LOST.
Definition failed (f : failure) (t : transport W) : Prop := match f with MailboxFailure _ => job_lost t | _ => True end.

Lemma plain_failed f (P : transport W -> Prop) t : plain f -> P t -> failed f t.
Proof. by destruct f. Qed.

(** ** What the invariant does not see *)

Lemma running_listens stopped tk t t' : running stopped tk t -> listens t t' -> running stopped tk t'.
Proof. intros [] (_ & _ & ->). by split. Qed.

(** The invariant with the state of the decoder. *)
Definition at_rest (I : transport W -> Prop) (got ps : list envelope) (t : transport W) : Prop :=
  I t /\ stream_ok got t /\ t_pending t = ps.

(** Nothing of the decoder changes and nothing is received. *)
Definition deaf (t t' : transport W) : Prop :=
  delivered_bytes (t_world t') = delivered_bytes (t_world t) /\ t_decoder t' = t_decoder t /\ t_pending t' = t_pending t.

Lemma rest_deaf I I' got ps t t' : at_rest I got ps t -> deaf t t' -> I' t' -> at_rest I' got ps t'.
Proof.
  intros (Hi & (Hd & Hp & Hf) & Eps) (Ew & Ed & Ep) Hi'. split; [done|]. split; [|congruence]. split_and!; [congruence|congruence|].
  by rewrite Ew, Ed, Ep.
Qed.

Lemma silent_deaf t t' : silent t t' -> deaf t t'.
Proof. intros [(_ & ? & _) E]. rewrite E. done. Qed.

Lemma sends_deaf t t' pre : sends t t' pre -> deaf t t'.
Proof. intros (E & ? & _). rewrite E. done. Qed.

Section rest.
Context (I : transport W -> Prop) (HI : forall t w, I t -> I (t <| t_world := w |>)).

(** The world alone changed. *)
Lemma rest_world got ps t t' : at_rest I got ps t -> deaf t t' -> t' = t <| t_world := t_world t' |> -> at_rest I got ps t'.
Proof. intros Hr Hd E. apply (rest_deaf I I got ps t); [done|done|]. rewrite E. apply HI, Hr. Qed.

Lemma rest_silent {A} (m : M A) got ps :
  (forall t, let ' (t', r) := m t in silent t t' /\ match r with Raise f => plain f | Value _ => True end) ->
  ensures (at_rest I got ps) m (fun _ => at_rest I got ps) failed.
Proof.
  intros Hm t Ht. specialize (Hm t). destruct (m t) as [t' [a|f]]; destruct Hm as [Hs Hf].
  - apply (rest_world got ps t); [done|by apply silent_deaf|apply Hs].
  - by destruct f.
Qed.

Lemma rest_remaining d got ps : ensures (at_rest I got ps) (remaining d) (fun _ => at_rest I got ps) failed.
Proof. apply rest_silent, remaining_silent. Qed.

Lemma rest_io {A} (f : W -> W * A) got ps : (forall w w' a, f w = (w', a) -> quiet w w') ->
  ensures (at_rest I got ps) (io f) (fun _ => at_rest I got ps) failed.
Proof.
  intros Hq. apply ensures_io. intros t w a Ht Hw%Hq. apply (rest_world got ps t); [done|by apply silent_deaf, silent_world|done].
Qed.

Lemma rest_send fuel payload d before got ps : from_option quiet_callback True before ->
  ensures (at_rest I got ps) (send_all fuel payload d before) (fun _ => at_rest I got ps) failed.
Proof.
  intros Hb t Ht. pose proof (send_all_spec fuel payload d before t Hb) as Hs.
  destruct (send_all fuel payload d _ t) as [t' [a|f]]; destruct Hs as (pre & Hs & _ & Hf).
  - apply (rest_world got ps t); [done|by eapply sends_deaf|apply Hs].
  - by destruct f, Hf.
Qed.
End rest.

(** ** The other threads *)

(** What [sync] does. *)
Definition caught_up (t t' : transport W) : Prop :=
  exists w calls, quiet (t_world t) w /\
    t' = t <| t_world := w |> <| t_stop := (fun s => foldl monitor_stop s calls) <$> t_stop t |>
           <| t_exec := (fun m => foldl monitor_exec m calls) <$> t_exec t |>.

Lemma sync_spec t : exists t', sync t = (t', Value tt) /\ caught_up t t'.
Proof.
  unfold sync. destruct (monitor_calls (t_world t)) as [w calls] eqn:E. apply law_monitor in E. eexists. split; [done|]. by exists w, calls.
Qed.

Lemma caught_up_deaf t t' : caught_up t t' -> deaf t t'.
Proof. intros (w & calls & (_ & ? & _) & ->). done. Qed.

Lemma caught_up_taken t t' : caught_up t t' -> is_taken t -> is_taken t'.
Proof. intros (w & calls & _ & ->) (s & Hs & Ht). exists (foldl monitor_stop s calls). cbn. rewrite Hs. by rewrite monitor_taken. Qed.

Lemma caught_up_running stopped tk t t' : caught_up t t' -> running stopped tk t -> running stopped tk t'.
Proof.
  intros Hc [Hst Hb Hl Hr Hk]. pose proof (caught_up_taken _ _ Hc) as Ht. destruct Hc as (w & calls & _ & ->). split; [done| | |done|]; cbn.
  - intros m. rewrite fmap_Some. intros (m0 & Hm & ->). by apply monitor_box_ok, Hb.
  - unfold linked in *. cbn. destruct (t_job t); [|done]. destruct Hl as (m & -> & Hh). eexists. split; [done|]. by apply monitor_holds.
  - auto.
Qed.

(** A method of the stop control that gives no STOP back. *)
Lemma on_stop_spec {A} (absent : A) f t :
  exists t1, caught_up t t1 /\
    on_stop absent f t = match t_stop t1 with
                         | Some s => let ' (s, a) := f s in (t1 <| t_stop := Some s |>, Value a)
                         | None => (t1, Value absent)
                         end.
Proof. destruct (sync_spec t) as (t1 & Es & Hc). exists t1. split; [done|]. unfold on_stop, bind. by rewrite Es. Qed.

Lemma caught_up_rest stopped tk got ps t t' : caught_up t t' -> at_rest (running stopped tk) got ps t -> at_rest (running stopped tk) got ps t'.
Proof. intros Hc Ht. eapply (rest_deaf _ _ got ps t); [done|by apply caught_up_deaf|by eapply caught_up_running, Ht]. Qed.

Lemma running_stop stopped tk t s s' : running stopped tk t -> t_stop t = Some s -> (sc_taken s = true -> sc_taken s' = true) ->
  running stopped tk (t <| t_stop := Some s' |>).
Proof.
  intros [] Es Hs. split; try done. intros ->. destruct (r_taken0 eq_refl) as (s0 & Hs0 & ?). exists s'. cbn. split; [done|].
  apply Hs. congruence.
Qed.

Lemma rest_on_stop {A} (absent : A) f stopped tk got ps : (forall s, sc_taken s = true -> sc_taken (f s).1 = true) ->
  ensures (at_rest (running stopped tk) got ps) (on_stop absent f) (fun _ => at_rest (running stopped tk) got ps) failed.
Proof.
  intros Hf t Ht. destruct (on_stop_spec absent f t) as (t1 & Hc & ->). pose proof (caught_up_rest _ _ _ _ _ _ Hc Ht) as Hr1.
  destruct (t_stop t1) as [s|] eqn:Es; [|done]. specialize (Hf s). destruct (f s) as [s' a].
  eapply (rest_deaf _ _ got ps t1); [done|done|]. eapply running_stop; [apply Hr1|exact Es|exact Hf].
Qed.

(** A method of the mailbox. *)
Lemma on_exec_spec {A} (absent : A) (f : mailbox -> mailbox * result A) t :
  exists t1, caught_up t t1 /\
    on_exec absent f t = match t_exec t1 with
                         | Some m => let ' (m, r) := f m in (t1 <| t_exec := Some m |>, outcome_of MailboxFailure r)
                         | None => (t1, Value absent)
                         end.
Proof. destruct (sync_spec t) as (t1 & Es & Hc). exists t1. split; [done|]. unfold on_exec, bind. by rewrite Es. Qed.

(** ** A job is started *)

(** The mailbox has handed out [j], which has no output yet. *)
Record starting (stopped tk : bool) (j : exec_job) (t : transport W) : Prop := {
  s_state : state (t_session t) = Ready \/ state (t_session t) = StopSent;
  s_box m : t_exec t = Some m -> box_ok m;
  s_holds : exists m, t_exec t = Some m /\ holds m j 0 0;
  s_job : t_job t = Some j;
  s_recorded : exists fs, recorded fs t /\ kinds fs = boot_kinds stopped;
  s_taken : tk = true -> is_taken t;
}.

Lemma recorded_identity fs t s : same_identity (t_session t) s -> recorded fs t -> recorded fs (t <| t_session := s |>).
Proof. intros (Ek & _) [Hf ?]. split; [|done]. cbn. unfold frame_key in *. by rewrite Ek. Qed.

Lemma start_exec_spec fuel j stopped tk got ps :
  ensures (at_rest (fun t => starting stopped tk j (t <| t_job := Some j |>)) got ps) (start_exec fuel j) (fun _ => at_rest (running stopped tk) got ps) failed.
Proof.
  unfold start_exec. eapply ensures_bind with (R := fun _ => at_rest (starting stopped tk j) got ps).
  { apply ensures_modify. intros t (Hi & ? & ?). by split. }
  intros _. eapply ensures_bind; [apply rest_io; [intros t w []; by split|by intros w w' a []%law_monotonic]|]. intros now. cbv zeta.
  eapply ensures_bind with (R := fun _ => at_rest (starting stopped tk j) got ps).
  { apply ensures_modify. intros t (Hi & ? & ?). split; [|done]. by destruct Hi. }
  intros _. eapply ensures_bind with (R := fun _ => at_rest (running stopped tk) got ps).
  { apply ensures_session; [|done]. intros t s e (Hi & Hrest) He. destruct (exec_effect _ _ _ _ _ He) as (Hid & Hst & _ & Ho & Hr).
    split; [|done]. destruct Hi as [Hs Hb (m & Em & Hm) Hj (fs & Hfs & Hk) Ht]. split; cbn.
    - by rewrite Hst.
    - done.
    - unfold linked. cbn. rewrite Hj, Ho, Hr. by exists m.
    - exists fs. split; [by apply recorded_identity|done].
    - done. }
  assert (forall t w, running stopped tk t -> running stopped tk (t <| t_world := w |>)) as HI by (by intros t w []).
  intros request. eapply ensures_bind with (R := fun _ => at_rest (running stopped tk) got ps); [by apply ensures_lift|].
  intros frame. eapply ensures_bind; [apply rest_io; [done|by intros w w' a []%law_monotonic]|]. intros now'. apply rest_send; [done|exact law_before_stop_send].
Qed.

Lemma take_exec_spec m m' j : take_exec m = (m', Some j) -> box_ok m -> box_ok m' /\ holds m' j 0 0.
Proof.
  unfold take_exec. intros Ht [Hb1 Hb2]. destruct (negb _ || negb _) eqn:G; [done|]. bool_norm.
  apply pair_equal_spec in Ht as [<- Hj]. destruct Hb2 as [Eo Er]; [by right|]. unfold box_ok, holds. cbn. rewrite Hj, Eo, Er.
  split; [split; [done|naive_solver]|]. split; [done|]. by right.
Qed.

Lemma take_exec_none m m' : take_exec m = (m', None) -> box_ok m -> box_ok m' /\ m' = m.
Proof.
  unfold take_exec. intros Ht Hb. destruct (negb _ || negb _) eqn:G; [by apply pair_equal_spec in Ht as [<- _]|]. bool_norm.
  apply pair_equal_spec in Ht as [_ Hj]. destruct Hb as [Hb _]. specialize (Hb Hj). congruence.
Qed.

(** ** Polling *)

Lemma stop_reader_ok {A} (g : stop_control -> A) s : sc_taken s = true -> sc_taken ((fun s => (s, g s)) s).1 = true.
Proof. done. Qed.

Lemma poll_exec_spec fuel stopped tk got ps :
  ensures (at_rest (running stopped tk) got ps) (poll_exec fuel) (fun _ => at_rest (running stopped tk) got ps) failed.
Proof.
  intros t Ht. unfold poll_exec. destruct (has_exec t) eqn:He; [|done]. revert t Ht He.
  cut (ensures (at_rest (running stopped tk) got ps)
    (do accepted <- stop_accepted ;;
     do free <- gets idle ;;
     if negb accepted && free then
       do job <- on_exec None (fun m => let ' (m, job) := take_exec m in (m, Ok job)) ;;
       match job with Some job => start_exec fuel job | None => ret tt end
     else ret tt) (fun _ => at_rest (running stopped tk) got ps) failed); [intros Hc t Ht _; by apply Hc|].
  eapply ensures_bind; [apply rest_on_stop; exact (fun _ Hx => Hx)|]. intros accepted. eapply ensures_bind; [apply ensures_gets|]. intros free.
  apply ensures_if; [|intros _; by apply ensures_ret; intros t [? _]].
  intros Hb. apply andb_true_iff in Hb as [_ ->].
  eapply ensures_bind with (R := fun job => match job with
    | Some j => at_rest (fun t => starting stopped tk j (t <| t_job := Some j |>)) got ps
    | None => at_rest (running stopped tk) got ps end).
  - intros t [Ht Hidle]. destruct (on_exec_spec (A := option exec_job) None (fun m => let ' (m, job) := take_exec m in (m, Ok job)) t) as (t1 & Hc & ->).
    pose proof (caught_up_rest _ _ _ _ _ _ Hc Ht) as Hr1. destruct (t_exec t1) as [m|] eqn:Em; [|done].
    destruct (take_exec m) as [m' job] eqn:Etk. cbn [outcome_of]. destruct Hr1 as ([Hst Hb Hl Hr Hk] & Hs1 & Hp1).
    destruct job as [j|].
    + destruct (take_exec_spec _ _ _ Etk (Hb m Em)) as [Hbox Hh]. split; [|done]. split; cbn; try done.
      * intros m0 [= <-]. done.
      * by exists m'.
    + destruct (take_exec_none _ _ Etk (Hb m Em)) as [Hbox ->]. split; [|done]. split; try done.
      * intros m0 [= <-]. by apply Hb.
      * unfold linked in *. cbn. destruct (t_job t1); [|done]. by rewrite <- Em.
  - intros [j|]; [apply start_exec_spec|by apply ensures_ret].
Qed.

Lemma running_world stopped tk t w : running stopped tk t -> running stopped tk (t <| t_world := w |>).
Proof. by intros []. Qed.

(** The mailbox is told to close; the job of the transport is not lost by STOPPING. *)
Lemma rest_close stopped tk got ps :
  ensures (at_rest (running stopped tk) got ps) (on_exec tt (fun m => close_to_exec m STOPPING)) (fun _ => at_rest (running stopped tk) got ps) failed.
Proof.
  intros t Ht. destruct (on_exec_spec tt (fun m => close_to_exec m STOPPING) t) as (t1 & Hc & ->).
  pose proof (caught_up_rest _ _ _ _ _ _ Hc Ht) as Hr1. destruct (t_exec t1) as [m|] eqn:Em; [|done].
  pose proof (close_to_exec_tr m STOPPING) as Htr.
  assert ((close_to_exec m STOPPING).2 = Ok tt) as Hok by (unfold close_to_exec; cbn [negb]; by destruct (_ && _)).
  destruct (close_to_exec m STOPPING) as [m' r]. cbn [fst snd] in *. subst r. cbn [outcome_of].
  eapply (rest_deaf _ _ got ps t1); [done|done|]. destruct Hr1 as ([Hst Hb Hl Hr Hk] & _). split; try done.
  - intros m0 [= <-]. eapply box_ok_transitions; [exact Htr|auto].
  - unfold linked in *. cbn. destruct (t_job t1) as [j|]; [|done]. destruct Hl as (m0 & Hm0 & Hh). exists m'. split; [done|].
    eapply holds_transitions; [exact Htr|constructor|]. congruence.
Qed.

Lemma recorded_snoc fs t e encoded d tags : recorded fs t ->
  transcript_projection e encoded CHANNEL_CARRIER (frame_key (t_session t) e) = Ok d ->
  (match e_tag e with Some tag => tag ∈ tags | None => True end) -> t_tags t ⊆ tags ->
  recorded (fs ++ [e]) (t <| t_transcript := t_transcript t ++ [d] |> <| t_tags := tags |>).
Proof.
  intros [Hf Ht] Hd Htag Hsub. split; cbn.
  - apply Forall2_app; [done|]. constructor; [by exists encoded|constructor].
  - apply Forall_app. split; [|by apply Forall_singleton]. eapply Forall_impl; [exact Ht|]. intros e' He'. cbn in He'. destruct (e_tag e'); [set_solver|done].
Qed.

(** The tag of a frame is observed, then the frame is recorded. *)
Lemma observe_tag_spec tag t : exists tags, observe_tag tag t = (t <| t_tags := tags |>, Value tt) /\ tag ∈ tags /\ t_tags t ⊆ tags.
Proof.
  unfold observe_tag, modify. case_bool_decide as Hb.
  - exists (t_tags t). split; [by destruct t|done].
  - exists (tag :: t_tags t). split; [done|]. set_solver.
Qed.

Lemma send_stop_spec fuel td got ps :
  ensures (at_rest (running false true) got ps) (send_stop fuel td) (fun _ => at_rest (running true true) got ps) failed.
Proof.
  unfold send_stop. eapply ensures_bind; [apply rest_close|]. intros ?. eapply ensures_bind; [apply rest_on_stop; exact (fun _ Hx => Hx)|].
  intros [dl|]; [|by apply ensures_fail].
  eapply ensures_bind; [by apply rest_remaining; intros; apply running_world|]. intros ?.
  eapply ensures_bind with (R := fun e t => at_rest (running false true) got ps t /\ m_kind (e_body e) = STOP).
  { apply ensures_session; [|done]. intros t s e Ht He. destruct (stop_effect _ _ _ He) as (Hid & Hst & Hx & Ho & Hr & Hk).
    split; [|done]. eapply (rest_deaf _ _ got ps t); [done|done|]. destruct Ht as ([Hs Hb Hl (fs & Hfs & Hkinds) Htk] & _). split; cbn.
    - by right.
    - done.
    - unfold linked in *. cbn. by rewrite Hx, Ho, Hr.
    - exists fs. split; [by apply recorded_identity|done].
    - done. }
  intros e. eapply ensures_bind with (R := fun _ t => at_rest (running false true) got ps t /\ m_kind (e_body e) = STOP); [by apply ensures_lift|].
  intros frame. apply ensures_pure. intros Hk.
  eapply ensures_bind; [apply rest_send; [intros; by apply running_world|exact law_before_stop_send]|]. intros ? t Ht.
  unfold bind. destruct (observe_tag_spec (or_empty (e_tag e)) t) as (tags & -> & Htag & Hsub).
  unfold record_frame. cbn [t_session setter]. rewrite Hk.
  destruct (transcript_projection e frame CHANNEL_CARRIER (key (t_session t))) as [d|] eqn:Ed; [|done].
  destruct Ht as ([Hs Hb Hl (fs & Hfs & Hkinds) Htk] & Hstream & Hp). split; [|done]. split; try done.
  exists (fs ++ [e]). split.
  - assert (recorded (fs ++ [e]) (t <| t_transcript := t_transcript t ++ [d] |> <| t_tags := tags |>)) as Hx; [|by destruct Hx].
    eapply recorded_snoc; [done| | |done]; [unfold frame_key; rewrite Hk; exact Ed|]. by destruct (e_tag e).
  - unfold kinds in *. rewrite map_app, Hkinds. cbn. by rewrite Hk.
Qed.

Lemma poll_stop_spec fuel td b stopped got ps :
  ensures (at_rest (running stopped stopped) got ps) (poll_stop fuel td b)
    (fun _ t => exists stopped, at_rest (running stopped stopped) got ps t) failed.
Proof.
  assert (forall st, ensures (at_rest (running st st) got ps) (ret tt) (fun _ t => exists stopped, at_rest (running stopped stopped) got ps t) failed) as Hret
    by (intros st; apply ensures_ret; eauto).
  assert (forall d, ensures (at_rest (running stopped stopped) got ps)
    (match d with Some _ => do _ <- remaining d ;; ret tt | None => ret tt end) (fun _ => at_rest (running stopped stopped) got ps) failed) as Hrem.
  { intros [d|]; [|by apply ensures_ret]. eapply ensures_bind; [apply rest_remaining; intros; by apply running_world|]. intros ?. by apply ensures_ret. }
  unfold poll_stop. eapply ensures_bind; [apply ensures_gets|]. intros d. eapply ensures_bind.
  { intros t [Ht _]. by apply Hrem. }
  intros ?. eapply ensures_bind; [apply ensures_gets|]. intros st. apply ensures_if; intros _; [by intros t [Ht _]; exists stopped|].
  eapply ensures_bind. { intros t [Ht _]. revert t Ht. apply rest_on_stop; exact (fun _ Hx => Hx). }
  intros dl. eapply ensures_bind; [apply Hrem|]. intros ?. apply ensures_if; intros _; [apply Hret|].
  eapply ensures_bind with (R := fun took : bool => at_rest (running (if took then false else stopped) (if took then true else stopped)) got ps).
  - intros t Ht. destruct (on_stop_spec false take_stop t) as (t1 & Hc & ->). pose proof (caught_up_rest _ _ _ _ _ _ Hc Ht) as Hr1.
    destruct (t_stop t1) as [s|] eqn:Es; [|done]. unfold take_stop. destruct (negb _ || negb _ || sc_taken s) eqn:G.
    + eapply (rest_deaf _ _ got ps t1); [done|done|]. eapply running_stop; [apply Hr1|exact Es|done].
    + bool_norm. destruct Hr1 as ([Hst Hb Hl Hr Hk] & Hs1 & Hp1). split; [|done]. destruct stopped.
      { destruct (Hk eq_refl) as (s0 & E0 & ?). congruence. }
      split; try done. intros ?. eexists. split; [reflexivity|done].
  - intros [|].
    + apply (ensures_weaken _ _ _ _ _ _ _ (send_stop_spec fuel td got ps)); [done| |done]. intros [] t Ht. by exists true.
    + apply (ensures_weaken _ _ _ _ _ _ _ (poll_exec_spec fuel stopped stopped got ps)); [done| |done]. intros [] t Ht. by exists stopped.
Qed.

(** * Results are delivered *)

(** The mailbox is owed the result [e], which the session has just accepted. *)
Definition owed (e : envelope) (t : transport W) : Prop :=
  match m_payload (e_body e) with
  | PExecOutput st offset h => exists j m out err, t_job t = Some j /\ t_exec t = Some m /\ holds m j out err /\
      offset = (match st with Stdout => out | Stderr => err end) /\ out + err + zlen h / 2 <= MAX_EXEC_OUTPUT /\
      stdout_count (t_session t) = out + (if bool_decide (st = Stdout) then zlen h / 2 else 0) /\
      stderr_count (t_session t) = err + (if bool_decide (st = Stderr) then zlen h / 2 else 0)
  | PExecExit _ out err _ => exists j m, t_job t = Some j /\ t_exec t = Some m /\ holds m j out err /\ exec_request (t_session t) = None
  | _ => True
  end.

Record accepted_frame (stopped : bool) (e : envelope) (t : transport W) : Prop := {
  a_state : if is_exec_frame e then state (t_session t) = Ready \/ state (t_session t) = StopSent
            else state (t_session t) = Terminated /\ m_kind (e_body e) = TERMINAL;
  a_box m : t_exec t = Some m -> box_ok m;
  a_payload : exec_payload_ok e;
  a_owed : owed e t;
  a_recorded : exists fs, recorded fs t /\ kinds fs = boot_kinds stopped;
  a_taken : stopped = true -> is_taken t;
}.

Lemma accept_spec e stopped got ps : exec_payload_ok e ->
  ensures (at_rest (running stopped stopped) got ps) (on_session (fun _ => category_failure PROTOCOL_REJECTED) (fun s => accept s e))
    (fun _ => at_rest (accepted_frame stopped e) got ps) failed.
Proof.
  intros Hpay. apply ensures_session; [|done]. intros t s x Ht Ha. destruct Ht as ([Hst Hb Hl (fs & Hfs & Hk) Htk] & Hrest).
  split; [|done]. destruct (accept_after_ready _ _ _ _ Hst Ha) as (Hkey & Hgen & Hid & Hatt & Heff).
  assert (forall P : Prop, t_job t = None \/ (exists j m, t_job t = Some j /\ t_exec t = Some m /\
    holds m j (stdout_count (t_session t)) (stderr_count (t_session t))) -> exec_request (t_session t) <> None ->
    (forall j m, t_job t = Some j -> t_exec t = Some m -> holds m j (stdout_count (t_session t)) (stderr_count (t_session t)) -> P) -> P) as Hjob.
  { intros P [Hn|(j & m & ? & ? & ?)] Hx HP; [|by eapply HP]. unfold linked in Hl. by rewrite Hn in Hl. }
  specialize (fun P => Hjob P ltac:(unfold linked in Hl; destruct (t_job t) as [j|] eqn:Ej; [|by left]; destruct Hl as (m & ? & ?); right; by exists j, m)).
  split; cbn; try done.
  - unfold is_exec_frame, m_kind. destruct (m_payload (e_body e)); try done; destruct Heff as (Hs & _); cbn [payload_kind]; rewrite Hs;
      [rewrite bool_decide_eq_false_2 by set_solver|rewrite bool_decide_eq_true_2 by set_solver..]; done.
  - unfold owed. cbn. destruct (m_payload (e_body e)) as [| | | | | | | | | |st offset h|term out err why]; try done.
    + destruct Heff as (_ & _ & Hx & Ho & H1' & H2' & H3'). apply (Hjob _ Hx). intros j m Ej Em Hm.
      exists j, m, (stdout_count (t_session t)), (stderr_count (t_session t)). split_and!; try done.
    + destruct Heff as (_ & Hx' & Hx & -> & ->). apply (Hjob _ Hx). intros j m Ej Em Hm. by exists j, m.
  - exists fs. split; [|done]. apply recorded_identity; [|done]. done.
Qed.

Lemma exec_terminal_total tm : terminal_ok tm -> exec_terminal (terminal_value tm) = Some tm.
Proof.
  unfold exec_terminal, terminal_value. intros Ht. replace (has_exactly _ _) with true by (by vm_compute).
  assert (forall a b, [(u "exit_code", a); (u "signal", b)].["exit_code"] = a /\ [(u "exit_code", a); (u "signal", b)].["signal"] = b) as Hd
    by (intros; split; by vm_compute).
  rewrite (proj1 (Hd _ _)), (proj2 (Hd _ _)). destruct tm as [[c|] [n|]]; cbn [terminal_ok] in Ht; try done; cbn [t_exit_code t_signal opt_int];
    by rewrite !(proj2 (Z.leb_le _ _)) by lia.
Qed.

(** The mailbox takes what it is owed, unless the job is lost. *)
Lemma append_owed m j st offset data out err : holds m j out err -> offset = (match st with Stdout => out | Stderr => err end) ->
  1 <= zlen data <= MAX_EXEC_CHUNK -> out + err + zlen data <= MAX_EXEC_OUTPUT ->
  match append_output m j (stream_of_frame st) offset data with
  | (m', Ok _) => holds m' j (out + (if bool_decide (st = Stdout) then zlen data else 0)) (err + (if bool_decide (st = Stderr) then zlen data else 0))
  | (m', Err _) => m' = m /\ mb_job_state m = Some JOB_LOST
  end.
Proof.
  intros [Hj Hs] -> Hd Hm. unfold append_output. rewrite bool_decide_eq_true_2 by done. cbn [negb orb].
  destruct Hs as [Hs|(Hs & Ho & He)]; rewrite Hs.
  { by rewrite bool_decide_eq_false_2. }
  rewrite bool_decide_eq_true_2 by done. cbn [negb].
  rewrite (bool_decide_eq_true_2 (_ = zlen _)) by (by destruct st). rewrite !(proj2 (Z.leb_le _ _)) by lia.
  rewrite (proj2 (Z.ltb_ge _ _)) by lia. cbn [negb orb andb]. unfold holds.
  destruct st; cbn; (split; [done|]); right; split_and!; try done; rewrite ?zlen_app; repeat case_bool_decide; try done; lia.
Qed.

Lemma complete_owed m j term out err why : holds m j out err ->
  match term with Some tm => terminal_ok tm | None => why = Cancelled /\ out = 0 /\ err = 0 end ->
  match complete m j (opt_terminal_value term) out err (u (reason_name why)) with
  | (m', Ok _) => True
  | (m', Err _) => m' = m /\ mb_job_state m = Some JOB_LOST
  end.
Proof.
  intros [Hj Hs] Ht. unfold complete.
  assert (bool_decide (u (reason_name why) ∈ COMPLETION_REASONS) = true) as -> by (by destruct why; vm_compute).
  assert ((if is_none (opt_terminal_value term)
           then negb (bool_decide (u (reason_name why) = u "cancelled")) || negb (out =? 0) || negb (err =? 0)
           else bool_decide (exec_terminal (opt_terminal_value term) = None)) = false) as ->.
  { destruct term as [tm|]; cbn [opt_terminal_value].
    - cbn [is_none terminal_value]. apply bool_decide_eq_false_2. change (VDict _) with (terminal_value tm). by rewrite exec_terminal_total.
    - destruct Ht as (-> & -> & ->). cbn [is_none]. by rewrite bool_decide_eq_true_2. }
  cbn [negb]. rewrite bool_decide_eq_true_2 by done. cbn [negb orb]. destruct Hs as [Hs|(Hs & Ho & He)]; rewrite Hs.
  { by rewrite bool_decide_eq_false_2. }
  rewrite bool_decide_eq_true_2 by done. rewrite Ho, He, !Z.eqb_refl. done.
Qed.

Lemma complete_box_ok m j term out err why : box_ok m -> box_ok (complete m j term out err why).1.
Proof.
  intros Hb. unfold complete. exec_if; [done|]. do 2 (match goal with |- context [if ?b then (m, _) else _] => destruct b eqn:? end; [done|]). bool_norm. unfold box_ok. cbn. split; [congruence|]. intros [?|?]; congruence.
Qed.

Lemma append_box_ok m j st offset data : box_ok m -> box_ok (append_output m j st offset data).1.
Proof.
  intros Hb. unfold append_output. exec_if; [done|]. exec_if; [done|]. bool_norm. unfold box_ok.
  destruct st; cbn; (split; [congruence|]); intros [?|?]; congruence.
Qed.

Lemma key_of_hex_total h : exec_data_ok h = true -> exists data, key_of_hex h = Ok data /\ zlen data = zlen h / 2 /\ 1 <= zlen data <= MAX_EXEC_CHUNK.
Proof.
  intros Hh. destruct (fromhex_total h Hh) as (data & Ed & Hl). pose proof (zlen_hex_half h Hh) as Hhalf. exists data. unfold key_of_hex. rewrite Ed.
  split; [done|]. split; [lia|]. unfold exec_data_ok in Hh. bool_norm. unfold MAX_EXEC_CHUNK. lia.
Qed.

(** The other threads leave the transport's job where it is. *)
Lemma caught_up_holds t t' m j out err : caught_up t t' -> t_exec t = Some m -> holds m j out err ->
  exists m', t_exec t' = Some m' /\ holds m' j out err.
Proof. intros (w & calls & _ & ->) Em Hm. cbn. rewrite Em. eexists. split; [done|]. by apply monitor_holds. Qed.

Lemma caught_up_box t t' : caught_up t t' -> (forall m, t_exec t = Some m -> box_ok m) -> forall m, t_exec t' = Some m -> box_ok m.
Proof. intros (w & calls & _ & ->) Hb m. cbn. rewrite fmap_Some. intros (m0 & Hm & ->). by apply monitor_box_ok, Hb. Qed.

Lemma caught_up_same t t' : caught_up t t' -> t_session t' = t_session t /\ t_transcript t' = t_transcript t /\ t_tags t' = t_tags t /\ t_job t' = t_job t.
Proof. by intros (w & calls & _ & ->). Qed.

Lemma recorded_same fs t t' : recorded fs t -> t_session t' = t_session t -> t_transcript t' = t_transcript t -> t_tags t' = t_tags t -> recorded fs t'.
Proof. unfold recorded. by intros [? ?] -> -> ->. Qed.

Lemma deliver_spec e stopped got ps : is_exec_frame e = true ->
  ensures (at_rest (accepted_frame stopped e) got ps) (deliver e) (fun _ => at_rest (running stopped stopped) got ps) failed.
Proof.
  intros Hx t Ht. pose proof Ht as ([Hst Hb Hpay Ho (fs & Hfs & Hk) Htk] & Hrest). rewrite Hx in Hst. unfold deliver, owed, exec_payload_ok in *.
  unfold is_exec_frame, m_kind in Hx. destruct (m_payload (e_body e)) as [| | | | | | | | | |st offset h|term out err why]; try (exfalso; vm_compute in Hx; discriminate Hx).
  - destruct Ho as (j & m & out & err & Ej & Em & Hm & Hoff & Hmax & Hout & Herr). rewrite Ej, Em.
    destruct Hpay as (_ & Hh & _). destruct (key_of_hex_total h Hh) as (data & Ed & Hl & Hd). unfold bind at 1, lift. rewrite Ed. cbn [outcome_of].
    destruct (on_exec_spec tt (fun m => append_output m j (stream_of_frame st) offset data) t) as (t1 & Hc & ->).
    destruct (caught_up_holds _ _ _ _ _ _ Hc Em Hm) as (m1 & Em1 & Hm1). rewrite Em1.
    destruct (caught_up_same _ _ Hc) as (Es & Etr & Etg & Ejob).
    pose proof (append_owed m1 j st offset data out err Hm1 Hoff Hd ltac:(lia)) as Ha.
    pose proof (append_box_ok m1 j (stream_of_frame st) offset data (caught_up_box _ _ Hc Hb m1 Em1)) as Hbox.
    destruct (append_output _ _ _ _ _) as [m' [x|x]]; cbn [outcome_of].
    2: { destruct Ha as [-> Hlost]. exists m1, j. split_and!; [done|apply Hm1|done]. }
    eapply (rest_deaf _ _ got ps t); [exact Ht|by apply caught_up_deaf in Hc|]. split; cbn.
    + by rewrite Es.
    + intros m0 [= <-]. exact Hbox.
    + unfold linked. cbn. rewrite Ejob, Ej, Es, Hout, Herr. exists m'. split; [done|]. by rewrite <- Hl.
    + exists fs. split; [by eapply recorded_same|done].
    + intros Hs. destruct (caught_up_taken _ _ Hc (Htk Hs)) as (s & ? & ?). by exists s.
  - destruct Ho as (j & m & Ej & Em & Hm & Hreq). rewrite Ej, Em. destruct Hpay as (_ & _ & _ & Hterm).
    unfold bind at 1. destruct (on_exec_spec tt (fun m => complete m j (opt_terminal_value term) out err (u (reason_name why))) t) as (t1 & Hc & ->).
    destruct (caught_up_holds _ _ _ _ _ _ Hc Em Hm) as (m1 & Em1 & Hm1). rewrite Em1.
    destruct (caught_up_same _ _ Hc) as (Es & Etr & Etg & Ejob).
    pose proof (complete_owed m1 j term out err why Hm1 Hterm) as Ha.
    pose proof (complete_box_ok m1 j (opt_terminal_value term) out err (u (reason_name why)) (caught_up_box _ _ Hc Hb m1 Em1)) as Hbox.
    destruct (complete _ _ _ _ _ _) as [m' [x|x]]; cbn [outcome_of].
    2: { destruct Ha as [-> Hlost]. exists m1, j. split_and!; [done|apply Hm1|done]. }
    eapply (rest_deaf _ _ got ps t); [exact Ht|by apply caught_up_deaf in Hc|]. split; cbn.
    + by rewrite Es.
    + intros m0 [= <-]. exact Hbox.
    + unfold linked. cbn. by rewrite Es.
    + exists fs. split; [by eapply recorded_same|done].
    + intros Hs. destruct (caught_up_taken _ _ Hc (Htk Hs)) as (s & ? & ?). by exists s.
Qed.

Definition live (t : transport W) : Prop := exists stopped, running stopped stopped t.

Lemma live_receiving got t : (exists stopped ps, at_rest (running stopped stopped) got ps t) <-> receiving live got t.
Proof.
  split.
  - intros (st & ps & Hr & Hs & _). split; [by exists st|done].
  - intros [[st Hr] Hs]. by exists st, (t_pending t).
Qed.

Lemma poll_live fuel td b got (P : list envelope -> Prop) :
  ensures (fun t => receiving live got t /\ P (t_pending t)) (poll_stop fuel td b) (fun _ t => receiving live got t /\ P (t_pending t)) failed.
Proof.
  intros t [[[st Hr] Hs] Hp]. pose proof (poll_stop_spec fuel td b st got (t_pending t) t ltac:(by split)) as Hpoll.
  destruct (poll_stop fuel td b t) as [t' [x|f]]; [|done]. destruct Hpoll as (st' & Hr' & Hs' & ->). split; [|done]. split; [by exists st'|done].
Qed.

Lemma receive_live fuel d inner td got :
  ensures (receiving live got) (receive_one fuel d (Some (poll_stop inner td))) (fun e t => receiving live (got ++ [e]) t /\ exec_payload_ok e) failed.
Proof.
  apply receive_one_spec.
  - intros t t' [st Hr] Hl. exists st. by eapply running_listens.
  - intros f t Hf _. by destruct f.
  - intros f b [= <-]. apply (poll_live _ _ _ got (fun ps => ps = [])).
Qed.

(** The session has ended; the transcript lacks its TERMINAL. *)
Lemma await_terminal_spec inner fuel td : forall after got,
  ensures (receiving live got) (await_terminal inner fuel td after)
    (fun e t => exists stopped ps execs, at_rest (accepted_frame stopped e) (got ++ execs ++ [e]) ps t /\
      Forall (fun e => is_exec_frame e = true) execs /\ is_exec_frame e = false) failed.
Proof.
  induction fuel as [|fuel IH]; intros after got; [by intros t _|]. cbn [await_terminal].
  cut (ensures (receiving live got) (do boundary <- gets at_boundary ;;
       do _ <- poll_stop inner td (boundary && after) ;;
       do e <- receive_one inner td (Some (poll_stop inner td)) ;;
       do _ <- on_session (fun _ => category_failure PROTOCOL_REJECTED) (fun s => accept s e) ;;
       if is_exec_frame e then
         do _ <- deliver e ;; await_terminal inner fuel td (bool_decide (m_kind (e_body e) = EXEC_OUTPUT))
       else ret e) (fun e t => exists stopped ps execs, at_rest (accepted_frame stopped e) (got ++ execs ++ [e]) ps t /\
      Forall (fun e => is_exec_frame e = true) execs /\ is_exec_frame e = false) failed); [intros Hc t Ht; by apply Hc|].
  eapply ensures_bind; [apply ensures_gets|]. intros b. eapply ensures_bind with (R := fun _ => receiving live got).
  { intros t [Ht _]. pose proof (poll_live inner td (b && after) got (fun _ => True) t ltac:(done)) as Hp.
    destruct (poll_stop _ _ _ t) as [t' [x|f]]; [apply Hp|done]. }
  intros []. eapply ensures_bind; [apply receive_live|]. intros e. apply ensures_pure. intros Hpay.
  eapply ensures_bind with (R := fun _ t => exists stopped ps, at_rest (accepted_frame stopped e) (got ++ [e]) ps t).
  { intros t Ht. apply live_receiving in Ht as (st & ps & Ht). pose proof (accept_spec e st (got ++ [e]) ps Hpay t Ht) as Ha.
    destruct (on_session _ _ t) as [t' [x|f]]; [by exists st, ps|done]. }
  intros []. apply ensures_if; intros Hx.
  - eapply ensures_bind with (R := fun _ => receiving live (got ++ [e])).
    + intros t (st & ps & Ht). pose proof (deliver_spec e st (got ++ [e]) ps Hx t Ht) as Hd.
      destruct (deliver e t) as [t' [x|f]]; [|done]. apply live_receiving. by exists st, ps.
    + intros []. eapply ensures_weaken; [apply IH|done| |done]. intros e' t (st & ps & execs & Ha & Hf & Hn).
      exists st, ps, (e :: execs). split; [by rewrite <- app_assoc in Ha|]. split; [by constructor|done].
  - apply ensures_ret. intros t (st & ps & Ht). exists st, ps, []. by split.
Qed.
End inv.

(** * From HELLO to READY and from the last message to the receipt: the shape of a
    handoff that returns. *)

Section session.
Context `{Hash}.

Lemma hello_effect s drawn s' e : hello s drawn = (s', Ok e) ->
  state s' = HelloSent /\ key s' = key s /\ exec_request s' = exec_request s /\ m_kind (e_body e) = HELLO /\ e_tag e = None.
Proof.
  unfold hello, fresh_nonce. intros Hh. destruct (bool_decide (state s <> New)); [done|].
  destruct (MAX_OCI_CONTROL_CONNECTIONS <=? _); [done|]. destruct drawn; try done. destruct (_ || _); [done|].
  match type of Hh with context [message_init ?a ?b ?c ?d ?e ?f ?g ?h ?i ?j] => destruct (message_init a b c d e f g h i j) as [m|] eqn:Em end; [|done].
  apply pair_equal_spec in Hh as [<- Hh]. apply message_init_hello in Em. split_and!; try done.
  all: unfold envelope_init in Hh; rewrite Em in Hh; inv_ok; done.
Qed.

Lemma key_ack_effect s s' e : key_ack s = (s', Ok e) ->
  state s' = KeyAckSent /\ key s' = key s /\ exec_request s' = exec_request s /\ m_kind (e_body e) = KEY_ACK.
Proof.
  unfold key_ack. intros Hh. destruct (key s) as [k|] eqn:Ek; [|done]. destruct (boot_generation s) as [g|] eqn:Eg; [|done].
  destruct (bool_decide (state s <> BootstrapReceived)); [done|].
  match type of Hh with context [message_init ?a ?b ?c ?d ?e ?f ?g ?h ?i ?j] => destruct (message_init a b c d e f g h i j) as [m|] eqn:Em end; [|done].
  destruct (sign_message m k CHANNEL_CARRIER) as [e'|] eqn:Es; [|done].
  apply pair_equal_spec in Hh as [<- Hh]. apply (inj Ok) in Hh as <-. apply message_init_key_ack in Em. apply sign_message_body in Es. rewrite Es. done.
Qed.

Lemma accept_first s e s' x : state s = HelloSent -> key s = None -> accept s e = (s', Ok x) ->
  state s' = BootstrapReceived /\ exec_request s' = exec_request s /\ m_kind (e_body e) = BOOTSTRAP.
Proof.
  intros Hst Hk. unfold accept. destruct (bool_decide _); [done|]. destruct (m_payload (e_body e)) eqn:Ep; intros Ha.
  2: { unfold accept_bootstrap in Ha. destruct (_ || _); [done|]. destruct (_ || _); [done|].
       destruct (key_of_hex _); [|done]. destruct (verify_message_authentication _ _ _); [|done]. destruct (_ || _); [done|].
       apply pair_equal_spec in Ha as [<- _]. unfold m_kind. by rewrite Ep. }
  all: unfold accept_guest in Ha; by rewrite Hk in Ha.
Qed.

Lemma accept_second s e s' x : state s = KeyAckSent -> accept s e = (s', Ok x) ->
  state s' = Ready /\ exec_request s' = exec_request s /\ key s' = key s /\ m_kind (e_body e) = READY.
Proof.
  intros Hst. unfold accept. destruct (bool_decide _); [done|]. destruct (m_payload (e_body e)) eqn:Ep; intros Ha.
  2: { unfold accept_bootstrap in Ha. rewrite Hst in Ha. done. }
  all: unfold accept_guest in Ha; destruct (key s) as [k|] eqn:Ek; [|done]; destruct (boot_generation s) as [g|] eqn:Eg; [|done];
    destruct (verify_message_authentication _ _ _); [|done]; do 2 (destruct (_ || _); [done|]); destruct (_ <=? _); [done|];
    unfold m_kind in *; rewrite Ep in *; cbn [payload_kind] in Ha.
  all: try (unfold accept_exec in Ha; rewrite Hst in Ha; done).
  all: unfold accept_transition in Ha; rewrite Hst, Ep in Ha; cbn [bool_decide andb] in Ha; try (repeat case_bool_decide; done).
  destruct (bool_decide (READY = TERMINAL) && _); [done|]. destruct (bool_decide _); [|done].
  apply pair_equal_spec in Ha as [<- _]. unfold settle. rewrite Ep. by cbn.
Qed.
End session.

Section boot.
Context `{Hash} {W : Type} `{TransportWorld W} `{TransportView W} `{!TransportLaws W}.
Implicit Types t : transport W.

(** * From HELLO to READY *)

(** Before READY: the state of the session and the transcript's frames so far. *)
Record booting (st : sstate) (ks : list kind) (t : transport W) : Prop := {
  b_state : state (t_session t) = st;
  b_exec : exec_request (t_session t) = None;
  b_key : st = New \/ st = HelloSent -> key (t_session t) = None;
  b_box m : t_exec t = Some m -> box_ok m;
  b_job : t_job t = None;
  b_recorded : exists fs, recorded fs t /\ kinds fs = ks;
}.

Lemma booting_listens st ks t t' : booting st ks t -> listens t t' -> booting st ks t'.
Proof. intros [] (_ & _ & ->). by split. Qed.

Lemma booting_world st ks t w : booting st ks t -> booting st ks (t <| t_world := w |>).
Proof. by intros []. Qed.

(** Frames without HELLO alone were recorded under the session's key. *)
Lemma recorded_rekey fs t s : recorded fs t -> kinds fs = [HELLO] \/ kinds fs = [] \/ key s = key (t_session t) -> recorded fs (t <| t_session := s |>).
Proof.
  intros [Hf Ht] Hk. split; [|done]. cbn. destruct Hk as [Hk|[Hk|Hk]].
  - destruct fs as [|e [|? ?]]; try done. unfold kinds in Hk. cbn [map] in Hk. assert (m_kind (e_body e) = HELLO) as Ek by congruence.
    unfold frame_key in *. apply Forall2_cons_inv_l in Hf as (d & ds & He & Hn & ->). apply Forall2_nil_inv_l in Hn as ->.
    rewrite Ek in He. constructor; [by rewrite Ek|constructor].
  - destruct fs; [|done]. apply Forall2_nil_inv_l in Hf as ->. constructor.
  - unfold frame_key in *. by rewrite Hk.
Qed.

Lemma boot_session {A} f (g : session -> session * result A) st st' ks (P : A -> Prop) got :
  (forall s s' a, state s = st -> (st = New \/ st = HelloSent -> key s = None) -> exec_request s = None -> g s = (s', Ok a) ->
    state s' = st' /\ exec_request s' = None /\ (st' = New \/ st' = HelloSent -> key s' = None) /\
    (ks = [HELLO] \/ ks = [] \/ key s' = key s) /\ P a) ->
  (forall e, plain (f e)) ->
  ensures (receiving (booting st ks) got) (on_session f g) (fun a t => receiving (booting st' ks) got t /\ P a) failed.
Proof.
  intros Hg Hf. apply ensures_session.
  - intros t s a Ht Ha. destruct Ht as ([Hst Hx Hk Hb Hj (fs & Hfs & Hks)] & Hrest).
    destruct (Hg _ _ _ Hst Hk Hx Ha) as (? & ? & ? & Hkey & ?). split; [|done]. split; [|done]. split; try done.
    exists fs. split; [|done]. apply recorded_rekey; [done|]. by rewrite Hks.
  - intros t s e _ _. specialize (Hf e). by destruct (f e).
Qed.

Lemma record_spec e encoded st ks got :
  ensures (fun t => receiving (booting st ks) got t /\ (match e_tag e with Some tag => tag ∈ t_tags t | None => True end))
    (record_frame e encoded) (fun _ => receiving (booting st (ks ++ [m_kind (e_body e)])) got) failed.
Proof.
  intros t [Ht Htag]. unfold record_frame.
  destruct (transcript_projection e encoded CHANNEL_CARRIER _) as [d|] eqn:Ed; [|done].
  destruct Ht as ([Hst Hx Hk Hb Hj (fs & Hfs & Hks)] & Hrest). split; [|done]. split; try done.
  exists (fs ++ [e]). split.
  - assert (recorded (fs ++ [e]) (t <| t_transcript := t_transcript t ++ [d] |> <| t_tags := t_tags t |>)) as Hr; [|by destruct Hr].
    by eapply recorded_snoc.
  - unfold kinds in *. by rewrite map_app, Hks.
Qed.

Lemma observe_spec e tag st ks got : (forall x, e_tag e = Some x -> x = tag) ->
  ensures (receiving (booting st ks) got) (observe_tag tag)
    (fun _ t => receiving (booting st ks) got t /\ (match e_tag e with Some tag => tag ∈ t_tags t | None => True end)) failed.
Proof.
  intros Htag t Ht. destruct (observe_tag_spec tag t) as (tags & -> & Hin & Hsub).
  split; [|destruct (e_tag e) as [x|]; [by rewrite (Htag x)|done]].
  destruct Ht as ([Hst Hx Hk Hb Hj (fs & Hfs & Hks)] & Hrest). split; [|done]. split; try done.
  exists fs. split; [|done]. destruct Hfs as [Hf Ht]. split; [done|]. cbn. eapply Forall_impl; [exact Ht|].
  intros e' He'. cbn in He'. destruct (e_tag e'); [set_solver|done].
Qed.

Lemma observe_of_spec e st ks got :
  ensures (receiving (booting st ks) got) (observe_tag_of e)
    (fun _ t => receiving (booting st ks) got t /\ (match e_tag e with Some tag => tag ∈ t_tags t | None => True end)) failed.
Proof.
  unfold observe_tag_of. destruct (e_tag e) as [tag|] eqn:Et; [|by apply ensures_ret].
  pose proof (observe_spec e tag st ks got ltac:(congruence)) as Ho. by rewrite Et in Ho.
Qed.

Lemma boot_receive fuel d st st' k ks got :
  (forall s s' e x, state s = st -> (st = New \/ st = HelloSent -> key s = None) -> exec_request s = None -> accept s e = (s', Ok x) ->
    state s' = st' /\ exec_request s' = None /\ (st' = New \/ st' = HelloSent -> key s' = None) /\
    (ks = [HELLO] \/ ks = [] \/ key s' = key s) /\ m_kind (e_body e) = k) ->
  ensures (receiving (booting st ks) got) (receive_accept fuel d)
    (fun e t => receiving (booting st' ks) (got ++ [e]) t /\ m_kind (e_body e) = k) failed.
Proof.
  intros Ha. unfold receive_accept. eapply ensures_bind.
  { apply receive_one_spec; [intros t t'; apply booting_listens|intros f t Hf _; by destruct f|done]. }
  intros e t [[Hb Hs] _]. 
  pose proof (boot_session (fun _ => category_failure PROTOCOL_REJECTED) (fun s => accept s e) st st' ks (fun _ => m_kind (e_body e) = k) (got ++ [e])) as Hsess.
  specialize (Hsess ltac:(intros ? ? x ? ? ? ?; by eapply Ha) ltac:(done) t ltac:(done)). unfold bind.
  destruct (on_session _ _ t) as [t' [x|f]]; [|done]. done.
Qed.


Lemma receiving_send fuel payload d I got : (forall t w, I t -> I (t <| t_world := w |>)) ->
  ensures (receiving I got) (send_all fuel payload d None) (fun _ => receiving I got) failed.
Proof.
  intros HI t [Hi Hs]. pose proof (rest_send I HI fuel payload d None got (t_pending t) Logic.I t ltac:(done)) as Hr.
  destruct (send_all fuel payload d None t) as [t' [a|f]]; [|done]. by destruct Hr as (? & ? & _).
Qed.

Lemma keep_lift {A} (P : transport W -> Prop) (f : string -> failure) (r : result A) : (forall e, plain (f e)) ->
  ensures P (lift f r) (fun a t => P t /\ r = Ok a) failed.
Proof. intros Hf. apply ensures_lift; [done|]. intros t e _ _. specialize (Hf e). by destruct (f e). Qed.

Lemma make_receipt_spec phase term t : let ' (t', r) := make_receipt phase term t in
  t' = t /\ match r with
            | Value rc => rc_phase rc = phase /\ rc_terminal rc = term /\ rc_transcript rc = t_transcript t /\
                exists serialized, canonical_json_bytes (receipt_value rc) = Ok serialized /\
                  assert_receipt_safe (t_session t) serialized (map VStr (t_tags t)) = Ok tt
            | Raise f => plain f
            end.
Proof.
  unfold make_receipt, bind at 1 2 3, gets. destruct (boot_generation (t_session t)); [|done]. destruct (key_id (t_session t)); [|done].
  unfold bind, lift. destruct (receipt_init _ _ _ _ _ _) as [rc|] eqn:Er; cbn [outcome_of]; [|done].
  destruct (canonical_json_bytes _) as [b|] eqn:Eb; cbn [outcome_of]; [|done].
  destruct (assert_receipt_safe _ _ _) as [[]|] eqn:Ea; cbn [outcome_of]; [|done]. split; [done|].
  unfold receipt_init in Er. inv_ok. cbn. split_and!; try done. by exists b.
Qed.

Lemma boot_spec fuel d :
  ensures (receiving (booting New []) []) (boot fuel d)
    (fun _ t => exists b r, receiving (running false false) [b; r] t /\ kinds [b; r] = [BOOTSTRAP; READY]) failed.
Proof.
  unfold boot. eapply ensures_bind with (R := fun _ => receiving (booting New []) []).
  { apply ensures_io. intros t w a [Hb Hs] Hw%law_nonce. pose proof (silent_world t w Hw) as Hsil.
    split; [by apply booting_world|]. by destruct (silent_stream _ _ [] Hsil Hs). }
  intros drawn. eapply ensures_bind.
  { apply (boot_session other_failure _ New HelloSent [] (fun e => m_kind (e_body e) = HELLO /\ e_tag e = None)); [|done].
    intros s s' e Hst Hk Hx (? & Hk' & Hx' & ? & ?)%hello_effect. rewrite Hk', Hx', Hk, Hx by auto. split_and!; auto. }
  intros e0. apply ensures_pure. intros [Hk0 Htag0]. eapply ensures_bind; [by apply keep_lift|]. intros frame0. apply ensures_pure. intros _.
  eapply ensures_bind; [apply receiving_send; intros; by apply booting_world|]. intros ?.
  eapply ensures_bind; [eapply ensures_weaken; [apply (record_spec e0 frame0 HelloSent [])| |done|done]; intros t Ht; by rewrite Htag0|]. intros ?. cbn [app].
  rewrite Hk0. eapply ensures_bind.
  { apply (boot_receive _ _ HelloSent BootstrapReceived BOOTSTRAP [HELLO]). intros s s' e x Hst Hk Hx Ha.
    destruct (accept_first _ _ _ _ Hst (Hk (or_intror eq_refl)) Ha) as (? & Hx' & ?). rewrite Hx', Hx. split_and!; auto. by intros [|]; congruence. }
  intros b. apply ensures_pure. intros Hkb. eapply ensures_bind; [apply observe_of_spec|]. intros ?.
  eapply ensures_bind; [by apply keep_lift|]. intros frame1. apply ensures_pure. intros _.
  eapply ensures_bind; [apply record_spec|]. intros ?. cbn [app]. rewrite Hkb. eapply ensures_bind.
  { apply (boot_session other_failure _ BootstrapReceived KeyAckSent [HELLO; BOOTSTRAP] (fun e => m_kind (e_body e) = KEY_ACK)); [|done].
    intros s s' e Hst Hk Hx (? & Hk' & Hx' & ?)%key_ack_effect. rewrite Hk', Hx', Hx. split_and!; auto. by intros [|]; congruence. }
  intros e1. apply ensures_pure. intros Hk1. eapply ensures_bind; [by apply keep_lift|]. intros frame2. apply ensures_pure. intros _.
  eapply ensures_bind; [apply receiving_send; intros; by apply booting_world|]. intros ?.
  eapply ensures_bind; [apply (observe_spec e1); by intros x ->|]. intros ?.
  eapply ensures_bind; [apply record_spec|]. intros ?. cbn [app]. rewrite Hk1. eapply ensures_bind.
  { apply (boot_receive _ _ KeyAckSent Ready READY [HELLO; BOOTSTRAP; KEY_ACK]). intros s s' e x Hst Hk Hx Ha.
    destruct (accept_second _ _ _ _ Hst Ha) as (? & Hx' & Hkey & ?). rewrite Hx', Hx. split_and!; auto. by intros [|]; congruence. }
  intros r. apply ensures_pure. intros Hkr. eapply ensures_bind; [apply ensures_gets|]. intros s. apply ensures_if; [by intros ? ? ?|]. intros _.
  eapply ensures_bind; [intros t [Ht _]; revert t Ht; apply observe_of_spec|]. intros ?.
  eapply ensures_bind; [by apply keep_lift|]. intros frame3. apply ensures_pure. intros _.
  eapply ensures_bind; [apply record_spec|]. intros ?. cbn [app]. rewrite Hkr.
  set (Q := receiving _ _). eapply ensures_bind with (R := fun _ => Q).
  { intros t Ht. pose proof (make_receipt_spec PhaseReady None t) as Hm. destruct (make_receipt PhaseReady None t) as [t' [rc|f]]; destruct Hm as [-> Hm]; [done|].
    by destruct f. }
  intros rc. apply ensures_call; [|done]. intros t w [[Hst Hx Hk Hb Hj Hr] Hs] Hw%law_on_ready. exists b, r.
  split; [|by cbn [kinds map]; rewrite Hkb, Hkr]. split; [|by destruct (silent_stream _ _ _ (silent_world t w Hw) Hs)].
  split; cbn; try done; [by left|]. unfold linked. cbn. by rewrite Hj.
Qed.

(** * From the last message to the receipt *)

Definition ending (stopped : bool) (got : list envelope) (t : transport W) : Prop :=
  (exists fs, recorded fs t /\ kinds fs = boot_kinds stopped) /\ stream_ok got t.

Lemma ending_same stopped got t t' : ending stopped got t -> deaf t t' -> t_session t' = t_session t -> t_transcript t' = t_transcript t ->
  t_tags t' = t_tags t -> ending stopped got t'.
Proof.
  intros [(fs & Hfs & Hk) (Hd & Hp & Hf)] (Ew & Ed & Ep) Es Etr Etg. split.
  - exists fs. split; [by eapply recorded_same|done].
  - split_and!; [congruence|congruence|]. by rewrite Ew, Ed, Ep.
Qed.

Lemma ending_stop {A} (absent : A) f stopped got : ensures (ending stopped got) (on_stop absent f) (fun _ => ending stopped got) failed.
Proof.
  intros t Ht. destruct (on_stop_spec absent f t) as (t1 & Hc & ->). destruct (caught_up_same _ _ Hc) as (? & ? & ? & _).
  pose proof (ending_same _ _ t t1 Ht (caught_up_deaf _ _ Hc) ltac:(done) ltac:(done) ltac:(done)) as Hr.
  destruct (t_stop t1) as [s|]; [|done]. by destruct (f s).
Qed.

(** The mailbox, if there is one, is closed. *)
Definition closed_box (t : transport W) : Prop := forall m, t_exec t = Some m -> box_closed m.

Lemma close_reason_ok m reason : reason ∈ [STOPPING; TERMINAL_STATE; CONTROL_LOST] -> (close_to_exec m reason).2 = Ok tt.
Proof.
  intros Hr. unfold close_to_exec. rewrite bool_decide_eq_true_2 by done. cbn [negb].
  match goal with |- context [if ?b then (_ <| mb_job_state := _ |> <| _ := _ |>, _) else _] => by destruct b end.
Qed.

Lemma ending_close stopped got :
  ensures (ending stopped got) (on_exec tt (fun m => close_to_exec m TERMINAL_STATE)) (fun _ t => ending stopped got t /\ closed_box t) failed.
Proof.
  intros t Ht. destruct (on_exec_spec tt (fun m => close_to_exec m TERMINAL_STATE) t) as (t1 & Hc & ->).
  destruct (caught_up_same _ _ Hc) as (? & ? & ? & _).
  pose proof (ending_same _ _ t t1 Ht (caught_up_deaf _ _ Hc) ltac:(done) ltac:(done) ltac:(done)) as Hr.
  destruct (t_exec t1) as [m|] eqn:Em; [|split; [done|]; intros m Hm; congruence].
  pose proof (close_reason_ok m TERMINAL_STATE ltac:(set_solver)) as Hok.
  pose proof (close_to_exec_closes m TERMINAL_STATE ltac:(by right; left)) as Hcl.
  destruct (close_to_exec m TERMINAL_STATE) as [m' x]. cbn [fst snd] in *. subst x. cbn [outcome_of].
  split; [done|]. by intros m0 [= <-].
Qed.

(** What a receipt attests, against the transport that made it. *)
Record attested (rc : receipt) (t : transport W) : Prop := {
  at_phase : rc_phase rc = PhaseTerminal;
  at_frames : exists fs stopped, recorded fs t /\ rc_transcript rc = t_transcript t /\ kinds fs = boot_kinds stopped ++ [TERMINAL];
  at_stream : exists b r execs e, feed_bytes decoder_init (delivered_bytes (t_world t)) = (decoder_init, Ok ([b; r] ++ execs ++ [e])) /\
    kinds [b; r] = [BOOTSTRAP; READY] /\ Forall (fun x => is_exec_frame x = true) execs /\ m_kind (e_body e) = TERMINAL;
  at_safe : exists serialized, canonical_json_bytes (receipt_value rc) = Ok serialized /\
    assert_receipt_safe (t_session t) serialized (map VStr (t_tags t)) = Ok tt;
  at_closed : closed_box t;
}.

Lemma finish_init d : is_ok (finish d) = true -> d = decoder_init.
Proof.
  unfold finish, buffered_bytes. intros Hf. destruct (_ || _) eqn:G; [done|]. bool_norm.
  match goal with Hx : ~ (d_expected d <> None) |- _ => apply dec_stable in Hx as Hexp end.
  pose proof (zlen_nonneg (d_header d)). pose proof (zlen_nonneg (d_payload d)).
  assert (forall l : bytes, zlen l = 0 -> l = []) as Hnil by (intros [|? l]; [done|]; rewrite zlen_cons; pose proof (zlen_nonneg l); lia).
  destruct d as [h p x]. cbn in *. rewrite (Hnil h), (Hnil p), Hexp by lia. done.
Qed.

Lemma observe_of_state e t : exists tags, observe_tag_of e t = (t <| t_tags := tags |>, Value tt) /\
  (match e_tag e with Some tag => tag ∈ tags | None => True end) /\ t_tags t ⊆ tags.
Proof.
  unfold observe_tag_of. destruct (e_tag e) as [tag|]; [apply observe_tag_spec|]. exists (t_tags t). split; [by destruct t|done].
Qed.

Lemma finish_run_spec inner fuel td b r :
  kinds [b; r] = [BOOTSTRAP; READY] ->
  ensures (receiving live [b; r]) (finish_run inner fuel td) attested failed.
Proof.
  intros Hbr. unfold finish_run. eapply ensures_bind; [apply await_terminal_spec|]. intros e.
  eapply ensures_bind; [apply ensures_gets|]. intros s. apply ensures_if; [by intros ? ? ?|]. intros Hguard.
  apply orb_false_iff in Hguard as [_ Hk]. bool_norm.
  eapply ensures_bind with (R := fun _ t => exists stopped execs, ending stopped ([b; r] ++ execs ++ [e]) t /\ Forall (fun x => is_exec_frame x = true) execs).
  { intros t [(stopped & ps & execs & (Ha & Hs & _) & Hx & _) _].
    pose proof (ending_stop tt (fun s => (mark_observed_terminal s, tt)) stopped ([b; r] ++ execs ++ [e]) t) as He.
    specialize (He ltac:(split; [apply Ha|done])). destruct (on_stop _ _ t) as [t' [x|f]]; [|done]. by exists stopped, execs. }
  intros []. eapply ensures_bind with (R := fun _ t => exists stopped execs, ending stopped ([b; r] ++ execs ++ [e]) t /\
    Forall (fun x => is_exec_frame x = true) execs /\ closed_box t).
  { intros t (stopped & execs & He & Hx). pose proof (ending_close stopped ([b; r] ++ execs ++ [e]) t He) as Hc.
    destruct (on_exec _ _ t) as [t' [x|f]]; [|done]. destruct Hc. by exists stopped, execs. }
  intros []. eapply ensures_bind; [apply ensures_gets|]. intros pending. eapply ensures_bind; [apply ensures_gets|]. intros boundary.
  apply ensures_if; [by intros ? ? ?|]. intros Hguard. bool_norm. subst pending boundary.
  intros t [[(stopped & execs & [(fs & Hfs & Hks) (Hd & _ & Hfeed)] & Hx & Hclosed) Hp] Hb].
  rewrite <- Hp, app_nil_r, (finish_init (t_decoder t)) in Hfeed by done.
  unfold bind at 1. destruct (observe_of_state e t) as (tags & -> & Htag & Hsub). unfold bind at 1, lift.
  destruct (encode_frame e) as [frame|]; cbn [outcome_of]; [|done]. unfold bind at 1, record_frame. cbn [t_session setter].
  destruct (transcript_projection e frame CHANNEL_CARRIER _) as [d|] eqn:Ed; [|done].
  assert (recorded (fs ++ [e]) (t <| t_transcript := t_transcript t ++ [d] |> <| t_tags := tags |>)) as Hr by (by eapply recorded_snoc).
  cbn [t_transcript setter transport_eta] in *. unfold bind, lift. destruct (terminal_result e) as [p|]; cbn [outcome_of]; [|done].
  set (t1 := _ <| t_transcript := _ |>). pose proof (make_receipt_spec PhaseTerminal (Some p) t1) as Hm.
  destruct (make_receipt PhaseTerminal (Some p) t1) as [t' [rc|f]]; destruct Hm as [-> Hm]; [|by destruct f].
  destruct Hm as (Hphase & Hterm & Htr & Hsafe). split; try done.
  - exists (fs ++ [e]), stopped. split; [done|]. split; [done|]. unfold kinds in *. by rewrite map_app, Hks; cbn; rewrite Hk.
  - by exists b, r, execs, e.
Qed.
End boot.
