(* ===== verification/TransportTermination.v ===== *)
(** Termination of the lifecycle transport: with deadlines, and without the
    mailbox of executions, a handoff returns.  A send makes progress or waits; a
    receive makes progress in a frame of bounded length or waits. *)
From S2P Require Import Prelude Crypto PyStr PyVal Json Digest ExecControl ExecSession ControlV2Wire ControlV2Message ControlV2Codec ControlV2Session Transport TransportFacts TransportInv.

(** * Progress of the decoder *)

Section decoder.
Context `{Hash}.

(** How far the decoder is in its frame. *)
Definition frame_progress (d : decoder) : Z := match d_expected d with None => zlen (d_header d) | Some _ => 4 + zlen (d_payload d) end.

Lemma frame_progress_bound d : decoder_ok d -> 0 <= frame_progress d <= 65536.
Proof.
  unfold decoder_ok, frame_progress. pose proof (zlen_nonneg (d_header d)). pose proof (zlen_nonneg (d_payload d)).
  destruct (d_expected d); intros (? & ? & ?); unfold MAX_PAYLOAD_BYTES, MAX_OCI_CONTROL_FRAME_BYTES in *; lia.
Qed.

Lemma feed_byte_progress d b d' : decoder_ok d -> feed_byte d b = (d', Ok []) -> frame_progress d' = frame_progress d + 1.
Proof.
  unfold decoder_ok, feed_byte, frame_progress. destruct d as [h p [n|]]; cbn [d_expected d_payload d_header].
  - intros (_ & _ & Hle & Hbad) Hf. destruct (zlen p <? n) eqn:G; bool_norm.
    + destruct (zlen (p ++ [b]) =? n); [destruct (decode_payload (p ++ [b])); congruence|]. apply pair_equal_spec in Hf as [<- _]. cbn. zlen_norm. lia.
    + assert (zlen p = n) as <- by lia. destruct (Hbad eq_refl) as [x Hx]. rewrite Z.eqb_refl, Hx in Hf. congruence.
  - intros (-> & Hh & _) Hf. destruct (zlen (h ++ [b]) =? 4) eqn:G; bool_norm.
    + match type of Hf with context [if ?b then _ else _] => destruct b end; [congruence|]. apply pair_equal_spec in Hf as [<- _]. cbn. zlen_norm. lia.
    + apply pair_equal_spec in Hf as [<- _]. cbn. zlen_norm. lia.
Qed.

Lemma feed_bytes_progress data : forall d d', decoder_ok d -> Forall is_byte data -> feed_bytes d data = (d', Ok []) ->
  frame_progress d' = frame_progress d + zlen data.
Proof.
  induction data as [|b data IH]; intros d d' Hd Hb Hf; cbn [feed_bytes] in Hf.
  - apply pair_equal_spec in Hf as [<- _]. zlen_norm. lia.
  - inversion_clear Hb as [|? ? Hb1 Hb2]. pose proof (feed_byte_ok d b Hd Hb1) as Hd1.
    destruct (feed_byte d b) as [d1 [es|x]] eqn:E1; [|done]. cbn [fst] in Hd1.
    destruct (feed_bytes d1 data) as [d2 [fs|x]] eqn:E2; [|done]. apply pair_equal_spec in Hf as [-> Hf]. apply (inj Ok) in Hf.
    apply app_eq_nil in Hf as [-> ->]. rewrite (IH _ _ Hd1 Hb2 E2), (feed_byte_progress _ _ _ Hd E1). zlen_norm. lia.
Qed.

Lemma encode_frame_length e f : encode_frame e = Ok f -> zlen f <= 65536.
Proof.
  intros (p & _ & _ & Hl & ->)%encode_frame_Ok. rewrite zlen_app. unfold MAX_PAYLOAD_BYTES, MAX_OCI_CONTROL_FRAME_BYTES in *.
  replace (zlen (pack_u32 (zlen p))) with 4 by done. lia.
Qed.
End decoder.

Section termination.
Context `{Hash} {W : Type} `{TransportWorld W} `{TransportView W} `{!TransportLaws W}.
#[local] Notation M := (@M W).
Implicit Types t : transport W.

(** * Computations that end *)

(** No time before [c]: [m] receives nothing and does not run out of fuel. *)
Definition calm (c : Z) {A} (m : M A) : Prop := forall t, c <= clock (t_world t) -> t_exec t = None ->
  let ' (t', r) := m t in deaf t t' /\ t_exec t' = None /\ later (t_world t) (t_world t') /\ r <> Raise OutOfFuel.

Lemma deaf_refl t : deaf t t.
Proof. done. Qed.
Lemma deaf_trans t1 t2 t3 : deaf t1 t2 -> deaf t2 t3 -> deaf t1 t3.
Proof. intros (? & ? & ?) (? & ? & ?). split_and!; congruence. Qed.

Lemma calm_bind c {A B} (m : M A) (k : A -> M B) : calm c m -> (forall a, calm c (k a)) -> calm c (bind m k).
Proof.
  intros Hm Hk t Ht Hx. specialize (Hm t Ht Hx). unfold bind. destruct (m t) as [t1 [a|f]]; destruct Hm as (Hd1 & Hx1 & Hc1 & Hr1).
  - specialize (Hk a t1 ltac:(apply later_clock in Hc1; lia) Hx1). destruct (k a t1) as [t2 r]. destruct Hk as (Hd2 & ? & ? & ?). split_and!; [by eapply deaf_trans|done|by etrans|done].
  - split_and!; [done|done|done|]. intros [= ->]. done.
Qed.

Lemma calm_ret c {A} (a : A) : calm c (ret a).
Proof. intros t _ ?. split_and!; [done|done|reflexivity|done]. Qed.
Lemma calm_fail c {A} f : f <> OutOfFuel -> calm c (fail f : M A).
Proof. intros Hf t _ ?. split_and!; [done|done|reflexivity|congruence]. Qed.
Lemma calm_if c {A} (b : bool) (m n : M A) : calm c m -> calm c n -> calm c (if b then m else n).
Proof. by destruct b. Qed.
Lemma calm_gets c {A} (f : transport W -> A) : calm c (gets f).
Proof. intros t _ ?. split_and!; [done|done|reflexivity|done]. Qed.
Lemma calm_lift c {A} f (r : result A) : (forall e, f e <> OutOfFuel) -> calm c (lift f r : M A).
Proof. intros Hf t _ ?. unfold lift. split_and!; [done|done|reflexivity|]. destruct r; cbn; [done|]. intros [= E]. by apply Hf in E. Qed.
Lemma calm_session c {A} f (g : session -> session * result A) : (forall e, f e <> OutOfFuel) -> calm c (on_session f g : M A).
Proof.
  intros Hf t _ ?. unfold on_session. destruct (g (t_session t)) as [s r]. split_and!; [done|done|reflexivity|]. destruct r; cbn; [done|]. intros [= E]. by apply Hf in E.
Qed.
Lemma calm_io c {A} (f : W -> W * A) : (forall w w' a, f w = (w', a) -> quiet w w') -> calm c (io f).
Proof.
  intros Hf t _ ?. unfold io. destruct (f (t_world t)) as [w a] eqn:E. apply Hf in E as Hq. split_and!; [apply silent_deaf, silent_world, Hq|done|apply Hq|done].
Qed.
Lemma calm_call c (f : W -> W * option raised) : quiet_callback f -> calm c (call f).
Proof.
  intros Hf t _ ?. unfold call. destruct (f (t_world t)) as [w r] eqn:E. apply Hf in E as Hq. split_and!; [apply silent_deaf, silent_world, Hq|done|apply Hq|by destruct r].
Qed.

Lemma calm_silent c {A} (m : M A) :
  (forall t, let ' (t', r) := m t in silent t t' /\ r <> Raise OutOfFuel) -> calm c m.
Proof.
  intros Hm t _ Hx. specialize (Hm t). destruct (m t) as [t' r]. destruct Hm as [Hs Hr]. split_and!; [by apply silent_deaf| |apply Hs|done].
  destruct Hs as [_ ->]. done.
Qed.

Lemma calm_remaining c d : calm c (remaining d).
Proof.
  apply calm_silent. intros t. pose proof (remaining_spec t d) as Hr. destruct (remaining d t) as [t' [z|f]]; destruct Hr as [? Hr]; (split; [done|]); [done|].
  destruct d; [|done]. destruct Hr as [-> _]. done.
Qed.

Lemma calm_pause c d : calm c (pause d wait).
Proof.
  apply calm_silent. intros t. pose proof (pause_spec t d wait law_wait) as Hr. destruct (pause d wait t) as [t' [z|f]]; destruct Hr as [? Hr]; (split; [done|]); [done|].
  by destruct Hr as [x ->].
Qed.

(** The waits before a deadline, of a handoff that begins no earlier than [c] *)
Definition waits (c dl : Z) : Z := (spins W + 1) * Z.max 0 (dl - c) + spins W.

Lemma calm_send c fuel payload dl dl' before : from_option quiet_callback True before -> dl <= dl' -> zlen payload + waits c dl' < Z.of_nat fuel ->
  calm c (send_all fuel payload (Some dl) before).
Proof.
  intros Hb Hdl Hf t Ht Hx. pose proof (send_all_spec fuel payload (Some dl) before t Hb) as Hs.
  destruct (send_all fuel payload (Some dl) before t) as [t' r]. destruct Hs as (pre & Hs & _ & Hr).
  split_and!; [by eapply sends_deaf|by destruct Hs as [-> _]|apply Hs|]. destruct r as [|f]; [done|]. destruct Hr as [_ Hr]. 
  assert (zlen payload + time_left dl t < Z.of_nat fuel) as Hlt; [|by specialize (Hr dl eq_refl Hlt); intros [= ->]].
  pose proof (time_left_bound c dl t Ht). pose proof (law_burst (t_world t)). unfold waits in *. nia.
Qed.

Lemma calm_record c e encoded : calm c (record_frame e encoded).
Proof. intros t _ ?. unfold record_frame. destruct (transcript_projection _ _ _ _); (split_and!; [done|done|reflexivity|done]). Qed.

Lemma calm_observe c tag : calm c (observe_tag tag : M unit).
Proof. intros t _ ?. destruct (observe_tag_spec tag t) as (tags & -> & _). split_and!; [done|done|reflexivity|done]. Qed.

Lemma calm_observe_of c e : calm c (observe_tag_of e : M unit).
Proof. unfold observe_tag_of. destruct (e_tag e); [apply calm_observe|apply calm_ret]. Qed.

Lemma calm_receipt c phase term : calm c (make_receipt phase term).
Proof.
  unfold make_receipt. apply calm_bind; [apply calm_gets|intros s]. do 2 (apply calm_bind; [apply calm_gets|intros ?]). destruct (boot_generation s), (key_id s); try by apply calm_fail.
  apply calm_bind; [by apply calm_lift|]. intros ?. apply calm_bind; [by apply calm_lift|]. intros ?. apply calm_bind; [by apply calm_lift|]. intros ?. apply calm_ret.
Qed.

Lemma calm_on_stop c {A} (absent : A) f : calm c (on_stop absent f).
Proof.
  intros t _ Hx. destruct (on_stop_spec absent f t) as (t1 & Hc & ->). pose proof (caught_up_deaf _ _ Hc) as Hd.
  destruct Hc as (w & calls & (_ & _ & Hq) & ->). cbn in *. destruct (t_stop t) as [s|]; cbn; [destruct (f _)|]; (split_and!; [done|cbn; by rewrite Hx|done|done]).
Qed.

Lemma calm_on_exec c {A} (absent : A) f : calm c (on_exec absent f).
Proof.
  intros t _ Hx. destruct (on_exec_spec absent f t) as (t1 & Hc & ->). pose proof (caught_up_deaf _ _ Hc) as Hd.
  destruct Hc as (w & calls & (_ & _ & Hq) & ->). cbn in *. rewrite Hx in *. cbn. split_and!; [done|cbn; by rewrite ?Hx|done|done].
Qed.

Lemma calm_poll_stop c fuel td b : 65536 + waits c td < Z.of_nat fuel -> calm c (poll_stop fuel (Some td) b).
Proof.
  intros Hf. unfold poll_stop. apply calm_bind; [apply calm_gets|]. intros ed. apply calm_bind.
  { destruct ed; [|apply calm_ret]. apply calm_bind; [apply calm_remaining|]. intros ?. apply calm_ret. }
  intros ?. apply calm_bind; [apply calm_gets|]. intros st. apply calm_if; [apply calm_ret|].
  apply calm_bind; [apply calm_on_stop|]. intros dl. apply calm_bind.
  { destruct dl; [|apply calm_ret]. apply calm_bind; [apply calm_remaining|]. intros ?. apply calm_ret. }
  intros ?. apply calm_if; [apply calm_ret|]. apply calm_bind; [apply calm_on_stop|]. intros took. apply calm_if.
  - unfold send_stop. apply calm_bind; [apply calm_on_exec|]. intros ?. apply calm_bind; [apply calm_on_stop|]. intros [sd|]; [|by apply calm_fail].
    apply calm_bind; [apply calm_remaining|]. intros ?. apply calm_bind; [by apply calm_session|]. intros e.
    intros t Ht Hx. unfold bind at 1, lift. destruct (encode_frame e) as [frame|] eqn:Ef; cbn [outcome_of]; [|split_and!; [done|done|reflexivity|done]].
    revert t Ht Hx. apply encode_frame_length in Ef. apply calm_bind.
    { cbn [min_deadline]. apply (calm_send _ _ _ _ td); [exact law_before_stop_send|lia|lia]. }
    intros ?. apply calm_bind; [apply calm_observe|]. intros ?. apply calm_record.
  - intros t Ht Hx. unfold poll_exec, has_exec. rewrite Hx. split_and!; [done|done|reflexivity|done].
Qed.

(** * Computations that end and may receive *)

Definition ended {A} (c : Z) (R : transport W * outcome A) : Prop :=
  let ' (t, r) := R in decoder_ok (t_decoder t) /\ t_exec t = None /\ c <= clock (t_world t) /\ r <> Raise OutOfFuel.
Definition ends (c : Z) {A} (m : M A) : Prop := forall t, c <= clock (t_world t) -> t_exec t = None -> decoder_ok (t_decoder t) ->
  ended (clock (t_world t)) (m t).

Lemma ended_weaken {A} c c' (R : transport W * outcome A) : c' <= c -> ended c R -> ended c' R.
Proof. destruct R as [t r]. intros ? (? & ? & ? & ?). split_and!; [done|done|lia|done]. Qed.

Lemma ended_snd {A} c (R : transport W * outcome A) : ended c R -> R.2 <> Raise OutOfFuel.
Proof. destruct R. by intros (_ & _ & _ & ?). Qed.

Lemma calm_ends c {A} (m : M A) : calm c m -> ends c m.
Proof. intros Hm t Ht Hx Hd. specialize (Hm t Ht Hx). unfold ended. destruct (m t) as [t' r]. destruct Hm as ((_ & E & _) & ? & ?%later_clock & ?). by rewrite E. Qed.

Lemma ends_bind c {A B} (m : M A) (k : A -> M B) : ends c m -> (forall a, ends c (k a)) -> ends c (bind m k).
Proof.
  intros Hm Hk t Ht Hx Hd. specialize (Hm t Ht Hx Hd). unfold bind. destruct (m t) as [t1 [a|f]]; destruct Hm as (Hd1 & Hx1 & Hc1 & Hr1).
  - eapply ended_weaken; [exact Hc1|]. apply Hk; [lia|done|done].
  - split_and!; [done|done|done|]. congruence.
Qed.

Lemma ends_if c {A} (b : bool) (m n : M A) : ends c m -> ends c n -> ends c (if b then m else n).
Proof. by destruct b. Qed.

(** After a calm computation, at the same place of the frame. *)
Lemma calm_step c {A B} (m : M A) (k : A -> M B) (t : transport W) :
  calm c m -> c <= clock (t_world t) -> t_exec t = None -> decoder_ok (t_decoder t) ->
  (forall a t', m t = (t', Value a) -> deaf t t' -> t_exec t' = None -> later (t_world t) (t_world t') -> ended (clock (t_world t')) (k a t')) ->
  ended (clock (t_world t)) (bind m k t).
Proof.
  intros Hm Ht Hx Hd Hk. specialize (Hm t Ht Hx). unfold bind. destruct (m t) as [t1 [a|f]]; destruct Hm as (Hd1 & Hx1 & Hc1 & Hr1).
  - eapply ended_weaken; [by apply later_clock|]. by apply Hk.
  - destruct Hd1 as (_ & E & _). split_and!; [by rewrite E|done|by apply later_clock|]. congruence.
Qed.

(** The bytes a frame still lacks and the waits left bound the turns of the loop. *)
Definition turns_left (dl : Z) (t : transport W) : Z := 65536 - frame_progress (t_decoder t) + time_left dl t.

Lemma turns_left_deaf dl t t' : deaf t t' -> later (t_world t) (t_world t') -> turns_left dl t' <= turns_left dl t.
Proof. intros (_ & E & _) Hl%(time_left_later dl). unfold turns_left. rewrite E. lia. Qed.

Lemma receive_one_ends c dl poll fuel : (forall f b, poll = Some f -> calm c (f b)) -> forall t, c <= clock (t_world t) -> t_exec t = None ->
  decoder_ok (t_decoder t) -> turns_left dl t < Z.of_nat fuel -> ended (clock (t_world t)) (receive_one fuel (Some dl) poll t).
Proof.
  intros Hpoll. induction fuel as [|fuel IH]; intros t Ht Hx Hd Hfuel; (cbn [receive_one]; destruct (t_pending t) as [|e es] eqn:Ep; [|split_and!; [done|done|cbn; lia|done]]).
  { unfold turns_left in Hfuel. pose proof (frame_progress_bound _ Hd). pose proof (time_left_nonneg dl t). lia. }
  apply (calm_step c); [destruct poll as [f|]; [by apply (Hpoll f)|apply calm_ret]|done|done|done|]. intros _ t1 _ Hdeaf1 Hx1 Hc1.
  pose proof (turns_left_deaf dl _ _ Hdeaf1 Hc1) as Ht1. destruct Hdeaf1 as (_ & Ed1 & Ep1).
  pose proof (later_clock _ _ Hc1). apply (calm_step c); [apply calm_remaining|lia|done|congruence|]. intros z t2 Hrem Hdeaf2 Hx2 Hc2. pose proof (later_clock _ _ Hc2).
  pose proof (turns_left_deaf dl _ _ Hdeaf2 Hc2) as Ht2. destruct Hdeaf2 as (_ & Ed2 & Ep2). clear Hrem z.
  unfold bind at 1, io. destruct (stream_recv (t_world t2)) as [w a] eqn:Er. apply law_recv in Er as (_ & Hl & _ & Hb). pose proof (later_clock _ _ Hl) as Hc.
  set (t3 := t2 <| t_world := w |>). assert (t_decoder t3 = t_decoder t) as Ed3 by (cbn; congruence).
  assert (time_left dl t3 <= time_left dl t2) as Hl3 by (by apply time_left_later). assert (turns_left dl t3 <= turns_left dl t) as Ht3 by (unfold turns_left in *; rewrite Ed2, Ed1, Ed3 in *; lia).
  assert (t_exec t3 = None) as Hx3 by done. assert (decoder_ok (t_decoder t3)) as Hd3 by congruence.
  assert (clock (t_world t3) = clock w) as Ec3 by done. clearbody t3.
  apply (ended_weaken (clock w)); [done|]. rewrite <- Ec3.
  destruct a as [| | |data|]; try (split_and!; [done|done|cbn; lia|done]).
  - apply (calm_step c); [|lia|done|done|].
    { destruct poll as [f|]; [|apply calm_ret]. apply calm_bind; [apply calm_gets|]. intros b. by apply (Hpoll f). }
    intros _ t4 _ Hdeaf4 Hx4 Hc4. pose proof (later_clock _ _ Hc4). apply (time_left_later dl) in Hc4. destruct Hdeaf4 as (_ & Ed4 & _).
    apply (calm_step c); [apply calm_pause|lia|done|congruence|]. intros [] t5 Hpause Hdeaf5 Hx5 Hc5%later_clock.
    pose proof (pause_spec t4 (Some dl) wait law_wait) as Hp. rewrite Hpause in Hp. destruct Hp as [_ Hp]. destruct Hdeaf5 as (_ & Ed5 & _).
    apply IH; [lia|done|congruence|]. unfold turns_left in *. rewrite Ed5, Ed4, Ed3 in *. lia.
  - destruct Hb as [Hb Hne]. unfold bind, feed_pending. rewrite feed_is_feed_bytes by done.
    pose proof (feed_bytes_ok data _ Hd3 Hb) as Hok. pose proof (feed_bytes_progress data (t_decoder t3)) as Hprog.
    destruct (feed_bytes (t_decoder t3) data) as [d' [es|x]]; [|split_and!; [done|done|cbn; lia|done]].
    destruct es as [|e es].
    + rewrite app_nil_r. match goal with |- ended _ (receive_one _ _ _ ?x) => apply (IH x) end; [cbn; lia|done|done|]. specialize (Hprog d' Hd3 Hb eq_refl).
      assert (1 <= zlen data) as Hlen by (destruct data; [done|]; rewrite zlen_cons; pose proof (zlen_nonneg data); lia).
      unfold turns_left in *. cbn [t_decoder setter transport_eta] in *. rewrite Hprog. change (time_left dl _) with (time_left dl t3). lia.
    + destruct fuel; cbn [receive_one t_pending setter transport_eta]; destruct (t_pending t3) as [|? ?]; cbn [app];
        (split_and!; [done|done|cbn; lia|done]).
Qed.

Lemma receive_ends c dl poll fuel : (forall f b, poll = Some f -> calm c (f b)) -> 65536 + waits c dl < Z.of_nat fuel ->
  ends c (receive_one fuel (Some dl) poll).
Proof.
  intros Hp Hf t Ht Hx Hd. apply (receive_one_ends c); try done. unfold turns_left, waits in *. pose proof (frame_progress_bound _ Hd). pose proof (time_left_bound c dl t Ht). lia.
Qed.

(** * The handoff *)

Lemma await_terminal_ends c dl inner fuel after : 65536 + waits c dl < Z.of_nat inner -> (0 < fuel)%nat ->
  ends c (await_terminal inner fuel (Some dl) after).
Proof.
  intros Hin Hf. destruct fuel as [|fuel]; [lia|]. cbn [await_terminal].
  cut (ends c (do boundary <- gets at_boundary ;;
       do _ <- poll_stop inner (Some dl) (boundary && after) ;;
       do e <- receive_one inner (Some dl) (Some (poll_stop inner (Some dl))) ;;
       do _ <- on_session (fun _ => category_failure PROTOCOL_REJECTED) (fun s => accept s e) ;;
       if is_exec_frame e then
         do _ <- deliver e ;; await_terminal inner fuel (Some dl) (bool_decide (m_kind (e_body e) = EXEC_OUTPUT))
       else ret e)); [intros Hc t; apply Hc|].
  apply ends_bind; [apply calm_ends, calm_gets|]. intros b. apply ends_bind; [by apply calm_ends, calm_poll_stop|]. intros _.
  apply ends_bind; [apply receive_ends; [|done]; intros f b' [= <-]; by apply calm_poll_stop|]. intros e.
  apply ends_bind; [by apply calm_ends, calm_session|]. intros _. apply ends_if; [|apply calm_ends, calm_ret].
  intros t Ht Hx Hd. unfold bind, deliver. rewrite Hx. split_and!; [done|done|lia|done].
Qed.

Lemma finish_run_ends c dl inner fuel : 65536 + waits c dl < Z.of_nat inner -> (0 < fuel)%nat ->
  ends c (finish_run inner fuel (Some dl)).
Proof.
  intros Hin Hf. unfold finish_run. apply ends_bind; [by apply await_terminal_ends|]. intros e. apply calm_ends.
  apply calm_bind; [apply calm_gets|]. intros s. apply calm_if; [by apply calm_fail|].
  apply calm_bind; [apply calm_on_stop|]. intros _. apply calm_bind; [apply calm_on_exec|]. intros _.
  apply calm_bind; [apply calm_gets|]. intros p. apply calm_bind; [apply calm_gets|]. intros b. apply calm_if; [by apply calm_fail|].
  apply calm_bind; [apply calm_observe_of|]. intros _. apply calm_bind; [by apply calm_lift|]. intros f.
  apply calm_bind; [apply calm_record|]. intros _. apply calm_bind; [by apply calm_lift|]. intros x. apply calm_receipt.
Qed.

Lemma encoded_bind c {A} e (k : bytes -> M A) : (forall f, zlen f <= 65536 -> ends c (k f)) -> ends c (do f <- lift other_failure (encode_frame e) ;; k f).
Proof.
  intros Hk t Ht Hx Hd. unfold bind, lift. destruct (encode_frame e) as [f|] eqn:Ef; cbn [outcome_of].
  - apply encode_frame_length in Ef. by apply Hk.
  - split_and!; [done|done|lia|done].
Qed.

Lemma boot_ends c dl fuel : 65536 + waits c dl < Z.of_nat fuel -> ends c (boot fuel (Some dl)).
Proof.
  intros Hf. unfold boot, receive_accept. apply ends_bind; [apply calm_ends, calm_io, law_nonce|]. intros drawn.
  apply ends_bind; [by apply calm_ends, calm_session|]. intros e0. apply encoded_bind. intros f0 Hf0.
  apply ends_bind; [apply calm_ends, (calm_send _ _ _ _ dl); [done|lia|lia]|]. intros _. apply ends_bind; [apply calm_ends, calm_record|]. intros _.
  apply ends_bind; [apply ends_bind; [by apply receive_ends|]; intros e; apply ends_bind; [by apply calm_ends, calm_session|]; intros _; apply calm_ends, calm_ret|].
  intros b. apply ends_bind; [apply calm_ends, calm_observe_of|]. intros _. apply encoded_bind. intros f1 Hf1.
  apply ends_bind; [apply calm_ends, calm_record|]. intros _. apply ends_bind; [by apply calm_ends, calm_session|]. intros e1.
  apply encoded_bind. intros f2 Hf2. apply ends_bind; [apply calm_ends, (calm_send _ _ _ _ dl); [done|lia|lia]|]. intros _.
  apply ends_bind; [apply calm_ends, calm_observe|]. intros _. apply ends_bind; [apply calm_ends, calm_record|]. intros _.
  apply ends_bind; [apply ends_bind; [by apply receive_ends|]; intros e; apply ends_bind; [by apply calm_ends, calm_session|]; intros _; apply calm_ends, calm_ret|].
  intros r. apply ends_bind; [apply calm_ends, calm_gets|]. intros s. apply ends_if; [by apply calm_ends, calm_fail|].
  apply ends_bind; [apply calm_ends, calm_observe_of|]. intros _. apply encoded_bind. intros f3 Hf3. apply calm_ends.
  apply calm_bind; [apply calm_record|]. intros _. apply calm_bind; [apply calm_receipt|]. intros x. apply calm_call. intros w w' y. apply law_on_ready.
Qed.
End termination.
