(* ===== verification/TransportDemo.v ===== *)
(** A small world for the lifecycle transport, and a boot in it: the guest answers
    HELLO and KEY_ACK, one command runs, the monitor asks for a STOP, the guest
    ends. *)
From S2P Require Import Prelude Crypto PyStr PyVal Json Digest ExecControl ExecSession ControlV2Wire ControlV2Message ControlV2Codec ControlV2Session ControlV2Theorems Transport TransportFacts.

(** * The world *)

(** A clock, how many waits return at once before it moves, what [recv] will give,
    what the other threads will do and what they did, and the most [send] takes at a
    time. *)
Record demo := Demo {
  dm_clock : Z;
  dm_burst : Z;
  dm_script : list received;
  dm_calls : list (list monitor_call);
  dm_log : list monitor_call;
  dm_quota : Z;
  dm_accepted : bytes;
  dm_delivered : bytes;
}.
#[export] Instance demo_eta : Eta demo := fun d => Demo (dm_clock d) (dm_burst d) (dm_script d) (dm_calls d) (dm_log d) (dm_quota d) (dm_accepted d) (dm_delivered d).

Definition dm_spins : Z := 2.
Definition dm_left (d : demo) : Z := Z.max 0 (Z.min dm_spins (dm_burst d)).
Definition dm_wait (d : demo) (n : Z) : demo * option raised :=
  (if 0 <? dm_left d then d <| dm_burst := dm_left d - 1 |> else d <| dm_clock := dm_clock d + Z.max 1 n |> <| dm_burst := dm_spins |>, None).
Definition dm_still {A} (a : A) (d : demo) : demo * A := (d, a).

Definition dm_send (d : demo) (p : bytes) : demo * sent :=
  if dm_quota d <=? 0 then (d, SendRaised)
  else let n := Z.min (dm_quota d) (zlen p) in (d <| dm_accepted := dm_accepted d ++ take (Z.to_nat n) p |>, SendInt n).

Definition deliverable (b : bytes) : bool := negb (bool_decide (b = [])) && forallb (fun x => (0 <=? x) && (x <? 256)) b.

Definition dm_recv (d : demo) : demo * received :=
  match dm_script d with
  | [] => (d, RecvEnd)
  | RecvBytes b :: script =>
      if deliverable b then (d <| dm_script := script |> <| dm_delivered := dm_delivered d ++ b |>, RecvBytes b) else (d, RecvRaised)
  | a :: script => (d <| dm_script := script |>, a)
  end.

Definition dm_monitor (d : demo) : demo * list monitor_call :=
  match dm_calls d with [] => (d, []) | calls :: rest => (d <| dm_calls := rest |> <| dm_log := dm_log d ++ calls |>, calls) end.

#[export] Instance demo_world : TransportWorld demo := {|
  monotonic d := (d, dm_clock d);
  wait := dm_wait;
  wait_writable := dm_wait;
  stream_send := dm_send;
  stream_recv := dm_recv;
  before_stop_send := dm_still None;
  on_ready d _ := (d, None);
  before_stream_close := dm_still true;
  stream_abort := dm_still true;
  stream_free := dm_still true;
  draw_nonce := dm_still (VStr ex_nonce);
  monitor_calls := dm_monitor;
|}.
#[export] Instance demo_view : TransportView demo :=
  {| clock := dm_clock; burst := dm_left; spins := dm_spins; accepted_bytes := dm_accepted; delivered_bytes := dm_delivered |}.

Lemma dm_still_quiet {A} (a b : A) d d' : dm_still a d = (d', b) -> quiet d d'.
Proof. intros [= <- _]. reflexivity. Qed.

Lemma deliverable_spec b : deliverable b = true -> Forall is_byte b /\ b <> [].
Proof.
  unfold deliverable. rewrite andb_true_iff. intros [Hne Hb]. bool_norm. split; [|by intros ->].
  apply Forall_forall. intros x Hx. rewrite forallb_forall in Hb. unfold is_byte.
  specialize (Hb x ltac:(by apply list_elem_of_In)). apply andb_true_iff in Hb as [? ?]. lia.
Qed.

Lemma dm_send_law d p d' a : dm_send d p = (d', a) ->
  dm_delivered d' = dm_delivered d /\ later d d' /\
  dm_accepted d' = dm_accepted d ++ match a with SendInt n => if n <=? zlen p then take (Z.to_nat n) p else [] | _ => [] end.
Proof.
  unfold dm_send. destruct (dm_quota d <=? 0); intros [= <- <-]; cbn; [by rewrite app_nil_r|].
  rewrite (proj2 (Z.leb_le _ _)) by lia. split_and!; [done|by right|done].
Qed.

Lemma dm_recv_law d d' a : dm_recv d = (d', a) ->
  dm_accepted d' = dm_accepted d /\ later d d' /\
  dm_delivered d' = dm_delivered d ++ match a with RecvBytes b => b | _ => [] end /\
  match a with RecvBytes b => Forall is_byte b /\ b <> [] | _ => True end.
Proof.
  unfold dm_recv. destruct (dm_script d) as [|[| | |b|] script]; try (intros [= <- <-]; cbn; rewrite app_nil_r; split_and!; [done|by right|done|done]).
  destruct (deliverable b) eqn:Hb; intros [= <- <-]; cbn; [|rewrite app_nil_r]; (split; [done|split; [by right|split; [done|]]]); [by apply deliverable_spec|done].
Qed.

Lemma dm_wait_law d n d' r : dm_wait d n = (d', r) -> quiet d d' /\ (r = None -> clock d < clock d' \/ burst d' < burst d).
Proof.
  unfold dm_wait. intros [= <- <-]. unfold quiet, later. cbn. unfold dm_left. case Z.ltb_spec; cbn; intros; (split; [split_and!; [done|done|unfold dm_spins in *; lia]|unfold dm_spins in *; lia]).
Qed.

#[export] Instance demo_laws : TransportLaws demo.
Proof.
  split; cbn.
  - intros d d' z [= <- <-]. split; [reflexivity|done].
  - intros d. unfold dm_left, dm_spins. lia.
  - apply dm_wait_law.
  - apply dm_wait_law.
  - apply dm_send_law.
  - apply dm_recv_law.
  - intros d d' r. apply dm_still_quiet.
  - intros d x d' r [= <- _]. reflexivity.
  - intros d d' r. apply dm_still_quiet.
  - intros d d' r. apply dm_still_quiet.
  - intros d d' r. apply dm_still_quiet.
  - intros d d' r. apply dm_still_quiet.
  - intros d d' r. unfold dm_monitor. destruct (dm_calls d); intros [= <- _]; [reflexivity|]. split_and!; cbn; [done|done|by right].
Qed.

#[export] Instance demo_log : MonitorLog demo.
Proof.
  apply (Build_MonitorLog demo _ dm_log); cbn.
  - intros d d' calls. unfold dm_monitor. destruct (dm_calls d); intros [= <- <-]; [by rewrite app_nil_r|done].
  - by intros d d' z [= <- _].
  - intros d n d' r. unfold dm_wait. intros [= <- _]. by destruct (0 <? dm_left d).
  - intros d n d' r. unfold dm_wait. intros [= <- _]. by destruct (0 <? dm_left d).
  - intros d p d' a. unfold dm_send. destruct (dm_quota d <=? 0); by intros [= <- _].
  - intros d d' a. unfold dm_recv. destruct (dm_script d) as [|[| | |b|] script]; try by intros [= <- _]. destruct (deliverable b); by intros [= <- _].
  - by intros d d' x [= <- _].
  - by intros d q d' x [= <- _].
  - by intros d d' x [= <- _].
Defined.

(** * A boot *)

#[local] Existing Instance checksum_hash.

Definition frame_of (m : message) : bytes := force [] (encode_frame (signed m)).
Definition ex_end : message := Message ex_binding ex_uuid ex_nonce 1 5 (PTerminal (Terminal (Some 0) None)) None (Some ex_generation) None.
Definition ready_worker : worker_view := WorkerView false false false "ready".
Definition ex_token : pyval := VStr ex_uuid.

(** The frame of BOOTSTRAP arrives in two parts, READY in one; the command's
    output and exit arrive together; the monitor stops the guest after it. *)
Definition ex_script : list received :=
  [RecvBytes (take 100 (frame_of ex_bootstrap)); RecvAgain; RecvBytes (drop 100 (frame_of ex_bootstrap));
   RecvBytes (frame_of ex_ready); RecvAgain; RecvBytes (frame_of (ex_output 3 0) ++ frame_of ex_exit); RecvAgain; RecvBytes (frame_of ex_end)].
Definition ex_calls : list (list monitor_call) :=
  [[MStopReady; MServe (Some ready_worker) (OpSubmit (VInt 1) ex_token (VList [VStr (u "id")]) (VInt 1000))];
   []; []; []; []; []; []; [MStopRequest 90000]].
Definition ex_world : demo := Demo 0 1 ex_script ex_calls [] 300 [] [].
Definition ex_config : config := Config true true (Some true) 30000 (Some 60000) true true ex_binding.
Definition ex_transport : transport demo :=
  Transport ex_world ex_new decoder_init [] [] [] (Some stop_control_init) (Some mailbox_init) None None.

(** The same boot when another thread closes the mailbox before the output, and
    when the peer closes the stream at once. *)
Definition ex_lost_calls : list (list monitor_call) := take 7 ex_calls ++ [[MExecClose CONTROL_LOST]].
Definition ex_lost_transport : transport demo := ex_transport <| t_world := ex_world <| dm_calls := ex_lost_calls |> |>.
Definition ex_cut_transport : transport demo := ex_transport <| t_world := ex_world <| dm_script := [] |> |>.
Definition ex_alone_transport : transport demo := ex_transport <| t_exec := None |>.

Definition returned {A} (r : outcome A) : bool := match r with Value _ => true | Raise _ => false end.
Definition mailbox_failed {A} (r : outcome A) : bool := match r with Raise (MailboxFailure _) => true | _ => false end.
