(* ===== verification/TransportTheorems.v ===== *)
(** The properties of the lifecycle transport. *)
From S2P Require Import Prelude Crypto PyStr PyVal Json Digest ExecControl ExecControlFacts ExecSession ControlV2Wire ControlV2Message ControlV2Codec ControlV2Session ControlV2SessionInv ControlV2Theorems Transport TransportFacts TransportInv TransportTermination TransportDemo.

(** * Who lost a job *)

Section owed.
Context `{Hash} {W : Type} `{TransportWorld W} `{!MonitorLog W}.
#[local] Notation M := (@M W).
Implicit Types t : transport W.
(** The world when the handoff began *)
Variable origin : W.

(** Since then another thread has closed the mailbox. *)
Definition other_closed (w : W) : Prop := exists calls, monitor_log w = monitor_log origin ++ calls /\ existsb closes_box calls = true.

(** Unless one has, the job that the transport runs is not lost. *)
Definition owed t : Prop := monitor_log origin `prefix_of` monitor_log (t_world t) /\
  (other_closed (t_world t) \/ t_job t = None \/ forall m, t_exec t = Some m -> mb_job_state m <> Some JOB_LOST).
Definition refused (f : failure) t : Prop := match f with MailboxFailure _ => owed t /\ t_job t <> None | _ => True end.
Definition loyal {A} (m : M A) : Prop := ensures owed m (fun _ => owed) refused.

Lemma plain_refused f t : plain f -> refused f t.
Proof. by destruct f. Qed.

Lemma owed_world t w : monitor_log w = monitor_log (t_world t) -> owed t -> owed (t <| t_world := w |>).
Proof. intros El [Hp Ho]. unfold owed, other_closed. cbn. by rewrite El. Qed.

Lemma loyal_bind {A B} (m : M A) (k : A -> M B) : loyal m -> (forall a, loyal (k a)) -> loyal (bind m k).
Proof. intros Hm Hk. by eapply ensures_bind. Qed.
Lemma loyal_ret {A} (a : A) : loyal (ret a).
Proof. by apply ensures_ret. Qed.
Lemma loyal_fail {A} f : plain f -> loyal (fail f : M A).
Proof. intros Hf. apply ensures_fail. intros t _. by apply plain_refused. Qed.
Lemma loyal_if {A} (b : bool) (m n : M A) : loyal m -> loyal n -> loyal (if b then m else n).
Proof. by destruct b. Qed.
Lemma loyal_gets {A} (f : transport W -> A) : loyal (gets f).
Proof. by intros t Ht. Qed.
Lemma loyal_lift {A} f (r : result A) : (forall e, plain (f e)) -> loyal (lift f r : M A).
Proof. intros Hf. apply ensures_lift; [done|]. intros. by apply plain_refused. Qed.
Lemma loyal_session {A} f (g : session -> session * result A) : (forall e, plain (f e)) -> loyal (on_session f g : M A).
Proof. intros Hf. apply ensures_session; [by intros t s a Ht _|]. intros. by apply plain_refused. Qed.
Lemma loyal_modify f : (forall t, t_world (f t) = t_world t /\ t_exec (f t) = t_exec t /\ (t_job (f t) = t_job t \/ t_job (f t) = None)) -> loyal (modify f : M unit).
Proof.
  intros Hf. apply ensures_modify. intros t [Hp Ho]. destruct (Hf t) as (Ew & Ex & Ej). unfold owed. rewrite Ew, Ex. split; [done|].
  destruct Ho as [?|[Hj|?]]; [by left| |by right; right]. right. left. destruct Ej as [->|?]; done.
Qed.
Lemma loyal_io {A} (f : W -> W * A) : (forall w w' a, f w = (w', a) -> monitor_log w' = monitor_log w) -> loyal (io f).
Proof. intros Hf. apply ensures_io. intros t w a Ht E. apply owed_world; [by eapply Hf|done]. Qed.
Definition loyal_callback (f : W -> W * option raised) : Prop := forall w w' r, f w = (w', r) -> monitor_log w' = monitor_log w.
Lemma loyal_call f : loyal_callback f -> loyal (call f).
Proof. intros Hf. apply ensures_call; [intros t w Ht E; apply owed_world; [by eapply Hf|done]|done]. Qed.

(** What the other threads do meanwhile *)
Lemma loyal_sync : loyal (sync : M unit).
Proof.
  intros t [[old Hold] Ho]. unfold sync. destruct (monitor_calls (t_world t)) as [w calls] eqn:Ec. apply log_calls in Ec. unfold owed. cbn. rewrite Hold, <- app_assoc in Ec. split; [by eexists|].
  destruct (existsb closes_box calls) eqn:Ecl; [left; exists (old ++ calls); split; [done|]; by rewrite existsb_app, Ecl, orb_true_r|].
  destruct Ho as [(cs & Ecs & Hcs)|[Hj|Hm]]; [left|by right; left|right; right].
  - rewrite Hold in Ecs. apply app_inv_head in Ecs as ->. exists (cs ++ calls). split; [done|]. by rewrite existsb_app, Hcs.
  - intros m. rewrite fmap_Some. intros (m0 & Em & ->). by apply monitor_spares, Hm.
Qed.

Lemma loyal_on_stop {A} (absent : A) f : loyal (on_stop absent f).
Proof. apply loyal_bind; [apply loyal_sync|]. intros _ t Ht. destruct (t_stop t); [by destruct (f s)|done]. Qed.

(** A method of the mailbox that keeps its job, and fails only over a job *)
Lemma loyal_on_exec {A} (absent : A) f (P : A -> transport W -> Prop) :
  (forall m, mb_job_state m <> Some JOB_LOST -> mb_job_state (f m).1 <> Some JOB_LOST) ->
  (forall t m a, t_exec t = Some m -> owed (t <| t_exec := Some (f m).1 |>) -> (f m).2 = Ok a -> P a (t <| t_exec := Some (f m).1 |>)) -> (forall t, owed t -> P absent t) ->
  forall J : transport W -> Prop, (forall t, J t -> match sync t with (t', _) => J t' end) -> (forall t m, J t -> (exists e, (f m).2 = Err e) -> t_job t <> None) ->
  ensures (fun t => owed t /\ J t) (on_exec absent f) P refused.
Proof.
  intros Hf Hok Habs J HJ Hj. unfold on_exec. apply (ensures_bind _ _ _ (fun _ t => owed t /\ J t)).
  - intros t [Ht HJt]. pose proof (loyal_sync t Ht) as Hs. specialize (HJ t HJt). destruct (sync t) as [t' [a|e]] eqn:E; [done|]. unfold sync in E. by destruct (monitor_calls _).
  - intros _ t [Ht HJt]. destruct (t_exec t) as [m|] eqn:Em; [|by apply Habs]. specialize (Hf m). specialize (Hok t m). specialize (Hj t m HJt).
    assert (owed (t <| t_exec := Some (f m).1 |>)) as Ho.
    { destruct Ht as [Hp Ho]. split; [done|]. destruct Ho as [?|[?|Hm]]; [by left|by right; left|]. right. right. cbn. intros m' [= <-]. by apply Hf, Hm. }
    destruct (f m) as [m' [a|e]]; cbn [fst snd outcome_of] in *; [by apply Hok|]. split; [done|]. cbn. apply Hj. by eexists.
Qed.

Lemma loyal_exec {A} (absent : A) f : (forall m, mb_job_state m <> Some JOB_LOST -> mb_job_state (f m).1 <> Some JOB_LOST) -> (forall m e, (f m).2 <> Err e) ->
  loyal (on_exec absent f).
Proof.
  intros Hf Hok. apply (ensures_weaken _ (fun t => owed t /\ True) _ _ (fun _ => owed) _ refused); [|by intros t Ht|done|done].
  apply loyal_on_exec; [done|by intros|done|by intros t _; destruct (sync t)|]. intros t m _ [e He]. by apply Hok in He.
Qed.

Lemma sync_job t : match sync t with (t', _) => t_job t' = t_job t end.
Proof. unfold sync. by destruct (monitor_calls (t_world t)). Qed.

Ltac loyally := repeat first
  [ assumption | simple apply loyal_gets | simple apply loyal_ret | (simple apply loyal_fail; exact Logic.I) | (simple apply loyal_lift; intros ?; exact Logic.I)
  | (simple apply loyal_session; intros ?; exact Logic.I) | simple apply loyal_on_stop | (simple apply loyal_bind; [|intros ?]) | simple apply loyal_if
  | (simple apply loyal_io; first [exact log_monotonic | exact log_nonce | exact log_recv | intros ? ? ?; apply log_send]) | match goal with |- loyal (match ?x with _ => _ end) => destruct x end ].

Lemma loyal_remaining d : loyal (remaining d).
Proof. unfold remaining. loyally. Qed.
Lemma loyal_pause d waiter : (forall n, loyal_callback (fun w => waiter w n)) -> loyal (pause d waiter).
Proof. intros Hw. unfold pause. apply loyal_bind; [apply loyal_remaining|]. intros z. by apply loyal_call. Qed.
Lemma loyal_send fuel payload d before : from_option loyal_callback True before -> loyal (send_all fuel payload d before).
Proof.
  intros Hb. revert payload. induction fuel as [|fuel IH]; intros [|b payload]; cbn [send_all]; [apply loyal_ret|by apply loyal_fail|apply loyal_ret|].
  apply loyal_bind; [apply loyal_remaining|intros _]. apply loyal_bind.
  { destruct before; [|apply loyal_ret]. apply loyal_bind; [by apply loyal_call|]. intros _. apply loyal_bind; [apply loyal_remaining|]. intros _. apply loyal_ret. }
  intros _. loyally; [|apply IH..]. apply loyal_pause. intros ? ? ? ?; apply log_wait_writable.
Qed.
Lemma loyal_record e encoded : loyal (record_frame e encoded).
Proof. intros t Ht. unfold record_frame. by destruct (transcript_projection _ _ _ _). Qed.
Lemma loyal_observe tag : loyal (observe_tag tag : M unit).
Proof. apply loyal_modify. intros t. destruct (bool_decide _); cbn; auto. Qed.
Lemma loyal_observe_of e : loyal (observe_tag_of e : M unit).
Proof. unfold observe_tag_of. destruct (e_tag e); [apply loyal_observe|apply loyal_ret]. Qed.
Lemma loyal_receipt phase term : loyal (make_receipt phase term).
Proof. unfold make_receipt. loyally. Qed.

(** A job that was just taken runs. *)
Lemma loyal_poll_exec fuel : loyal (poll_exec fuel).
Proof.
  intros t Ht. unfold poll_exec. destruct (has_exec t); [|done]. revert t Ht. fold (loyal (A := unit)). 
  cut (loyal (do accepted <- stop_accepted ;;
     do free <- gets idle ;;
     if negb accepted && free then
       do job <- on_exec None (fun m => let ' (m, job) := take_exec m in (m, Ok job)) ;;
       match job with Some job => start_exec fuel job | None => ret tt end
     else ret tt)); [done|].
  apply loyal_bind; [apply loyal_on_stop|]. intros accepted. apply loyal_bind; [apply loyal_gets|]. intros free. apply loyal_if; [|apply loyal_ret].
  set (Running := fun t => forall m, t_exec t = Some m -> mb_job_state m <> Some JOB_LOST).
  apply (ensures_bind _ _ _ (fun job t => owed t /\ (job <> None -> Running t))).
  - apply (ensures_weaken _ (fun t => owed t /\ True) _ _ (fun job t => owed t /\ (job <> None -> Running t)) _ refused); [|by intros|done|done].
    apply loyal_on_exec; [| |by split|by intros t _; destruct (sync t)|].
    + intros m Hm. unfold take_exec. by destruct (_ || _).
    + intros t m job Em Ho. unfold take_exec in *. destruct (_ || _); cbn in *; intros E%(inj Ok).
      * subst job. by split.
      * split; [done|]. intros _ m' [= <-]. done.
    + intros t m _ [e He]. unfold take_exec in He. by destruct (_ || _).
  - intros [job|]; [|intros t [Ht _]; apply loyal_ret, Ht]. unfold start_exec.
    apply (ensures_bind _ _ _ (fun _ => owed)).
    { apply ensures_modify. intros t [[Hp _] Hr]. split; [done|]. right. right. by apply Hr. }
    intros _. fold (loyal (A := unit)). change (loyal (do now <- io monotonic ;;
      let deadline := now + job_timeout_ms job + 15000 in
      do _ <- modify (fun t => t <| t_exec_deadline := Some deadline |>) ;;
      do request <- on_session other_failure (fun s => exec s (VTuple (map VStr (job_argv job))) (VInt (job_timeout_ms job))) ;;
      do frame <- lift other_failure (encode_frame request) ;;
      do now <- io monotonic ;;
      send_all fuel frame (Some (Z.min deadline (now + 5000))) (Some before_stop_send))).
    loyally; [apply loyal_modify; auto|]. apply loyal_send. exact log_before_stop_send.
Qed.

Lemma close_to_exec_Ok m reason : reason ∈ [STOPPING; TERMINAL_STATE; CONTROL_LOST] -> (close_to_exec m reason).2 = Ok tt.
Proof. intros Hr. unfold close_to_exec. rewrite (bool_decide_eq_true_2 _ Hr). cbn [negb]. by destruct (_ && _). Qed.

Lemma loyal_send_stop fuel td : loyal (send_stop fuel td).
Proof.
  unfold send_stop, stop_deadline. apply loyal_bind.
  { apply loyal_exec; [intros m; by rewrite close_to_exec_spares|]. intros m e. rewrite close_to_exec_Ok; [done|set_solver]. }
  intros _. loyally; [apply loyal_remaining|apply loyal_send; exact log_before_stop_send|apply loyal_observe|apply loyal_record].
Qed.

Lemma loyal_poll_stop fuel td b : loyal (poll_stop fuel td b).
Proof. unfold poll_stop, stop_deadline. loyally; first [apply loyal_remaining | apply loyal_send_stop | apply loyal_poll_exec]. Qed.

Lemma loyal_receive fuel d poll : from_option (fun f => forall b, loyal (f b)) True poll -> loyal (receive_one fuel d poll).
Proof.
  intros Hpoll. induction fuel as [|fuel IH]; intros t Ht; cbn [receive_one]; (destruct (t_pending t) as [|e es]; [|done]); [done|].
  revert t Ht. match goal with |- forall t, owed t -> match ?m t with _ => _ end => change (loyal m) end.
  apply loyal_bind; [destruct poll; [apply Hpoll|apply loyal_ret]|]. intros _. apply loyal_bind; [apply loyal_remaining|]. intros _.
  apply loyal_bind; [apply loyal_io, log_recv|]. intros [| | |data|]; try by apply loyal_fail.
  - apply loyal_bind; [destruct poll; [apply loyal_bind; [apply loyal_gets|]; intros ?; apply Hpoll|apply loyal_ret]|]. intros _.
    apply loyal_bind; [apply loyal_pause; intros n w w' r; apply log_wait|]. by intros _.
  - apply loyal_bind; [|by intros _]. intros t Ht. unfold feed_pending. by destruct (feed (t_decoder t) data) as [d' [es|x]].
Qed.

(** The results of the job *)
Lemma loyal_deliver e : loyal (deliver e).
Proof.
  intros t Ht. unfold deliver. destruct (t_exec t) as [m|] eqn:Em; [|done]. destruct (t_job t) as [job|] eqn:Ej; [|done].
  assert (forall f, (forall m, mb_job_state m <> Some JOB_LOST -> mb_job_state (f m).1 <> Some JOB_LOST) ->
    ensures (fun t => owed t /\ t_job t = Some job) (on_exec tt f) (fun _ => owed) refused) as Hexec.
  { intros f Hf. apply loyal_on_exec; [done|by intros|done| |congruence]. intros t' Hj. pose proof (sync_job t') as Es. destruct (sync t'). congruence. }
  destruct (m_payload (e_body e)) as [| | | | | | | | | |st offset h|term out err why]; try done.
  - unfold bind, lift. destruct (key_of_hex h) as [data|]; [|done]. apply (Hexec (fun m => append_output m job (stream_of_frame st) offset data)); [|done].
    intros m' Hm'. unfold append_output. destruct (negb _ || _); [done|]. destruct (_ || _ || _); [done|]. cbn. by destruct (stream_of_frame st).
  - apply (ensures_bind (fun t => owed t /\ t_job t = Some job) _ _ (fun _ => owed)); [| |done].
    + apply Hexec. intros m' Hm'. unfold complete. repeat (match goal with |- context [if ?b then _ else _] => destruct b end; try done).
    + intros _. apply loyal_modify. auto.
Qed.

Lemma loyal_await inner fuel td after : loyal (await_terminal inner fuel td after).
Proof.
  revert after. induction fuel as [|fuel IH]; intros after t Ht; cbn [await_terminal]; [done|].
  revert t Ht. match goal with |- forall t, owed t -> match ?m t with _ => _ end => change (loyal m) end.
  apply loyal_bind; [apply loyal_gets|]. intros b. apply loyal_bind; [apply loyal_poll_stop|]. intros _.
  apply loyal_bind; [apply loyal_receive; intros ?; apply loyal_poll_stop|]. intros e. apply loyal_bind; [by apply loyal_session|]. intros _.
  apply loyal_if; [|apply loyal_ret]. apply loyal_bind; [apply loyal_deliver|]. intros _. apply IH.
Qed.

Lemma loyal_boot fuel d : loyal (boot fuel d).
Proof.
  unfold boot, receive_accept. loyally; first [by apply loyal_send | apply loyal_record | by apply loyal_receive | apply loyal_observe_of | apply loyal_observe | apply loyal_receipt | idtac].
  apply loyal_call. intros w w' r. apply log_on_ready.
Qed.

(** What follows TERMINAL never fails over the mailbox. *)
Definition unrefused {A} (m : M A) : Prop := forall t, match (m t).2 with Raise f => plain f | Value _ => True end.
Lemma unrefused_bind {A B} (m : M A) (k : A -> M B) : unrefused m -> (forall a, unrefused (k a)) -> unrefused (bind m k).
Proof. intros Hm Hk t. specialize (Hm t). unfold bind. destruct (m t) as [t' [a|f]]; [apply Hk|done]. Qed.

Lemma loyal_finish inner fuel td : ensures owed (finish_run inner fuel td) (fun _ _ => True) refused.
Proof.
  unfold finish_run. eapply ensures_bind; [apply loyal_await|]. intros e.
  match goal with |- ensures _ ?m _ _ => cut (unrefused m) end.
  { intros Hu t _. specialize (Hu t). match type of Hu with context [?m t] => destruct (m t) as [t' [a|f]] end; [done|by apply plain_refused]. }
  apply unrefused_bind; [done|]. intros s. destruct (_ || _); [done|]. apply unrefused_bind; [intros t; unfold on_stop, bind, sync; destruct (monitor_calls _) as [w calls]; cbn; by destruct (_ <$> _)|].
  intros _. apply unrefused_bind.
  { intros t. unfold on_exec, bind, sync. destruct (monitor_calls _) as [w calls]; cbn. destruct (_ <$> _) as [m|]; [|done].
    pose proof (close_to_exec_Ok m TERMINAL_STATE ltac:(set_solver)) as E. destruct (close_to_exec m TERMINAL_STATE). cbn in E. by subst. }
  intros _. apply unrefused_bind; [done|]. intros p. apply unrefused_bind; [done|]. intros b. destruct (_ || _); [done|].
  assert (forall A (r : result A), unrefused (lift other_failure r : M A)) as Hl by (intros A r t; by destruct r).
  apply unrefused_bind; [intros t; unfold observe_tag_of; by destruct (e_tag e)|]. intros _. apply unrefused_bind; [apply Hl|]. intros f.
  apply unrefused_bind; [intros t; unfold record_frame; by destruct (transcript_projection _ _ _ _)|]. intros _. apply unrefused_bind; [apply Hl|]. intros x.
  unfold make_receipt. apply unrefused_bind; [done|]. intros s'. apply unrefused_bind; [done|]. intros tr. apply unrefused_bind; [done|]. intros tags.
  destruct (boot_generation s'), (key_id s'); try done. apply unrefused_bind; [apply Hl|]. intros rc. apply unrefused_bind; [apply Hl|]. intros ser.
  apply unrefused_bind; [|done]. intros t. unfold lift. by destruct (assert_receipt_safe _ _ _).
Qed.

Lemma loyal_body inner fuel c t : t_world t = origin -> match handoff_body inner fuel c t with (t', Raise f) => refused f t' | _ => True end.
Proof.
  intros Hw.
  cut (ensures (fun t => t_world t = origin) (handoff_body inner fuel c) (fun _ _ => True) refused); [intros Hb; specialize (Hb t Hw); by destruct (handoff_body inner fuel c t) as [t' [a|f]]|].
  unfold handoff_body. apply (ensures_bind _ _ _ (fun _ t => t_world t = origin)); [intros t0 Ht0; unfold check_arguments; by destruct (_ || _)|]. intros _.
  apply (ensures_bind _ _ _ (fun _ t => monitor_log (t_world t) = monitor_log origin)); [apply ensures_io; intros t0 w z -> E; by apply log_monotonic in E|]. intros now.
  apply (ensures_bind _ _ _ (fun _ => owed)); [apply ensures_modify; intros t0 E; split; [cbn; by rewrite E|by right; left]|]. intros _.
  apply (ensures_bind _ _ _ (fun _ => owed)); [apply loyal_gets|]. intros s. apply ensures_if; [by intros _ t0 _|]. intros _.
  apply (ensures_bind _ _ _ (fun _ => owed)); [apply loyal_boot|]. intros _. apply (ensures_bind _ _ _ (fun _ => owed)); [|intros td; apply loyal_finish].
  change (loyal (match c_terminal_timeout c with Some z => do now <- io monotonic ;; ret (Some (now + z)) | None => ret None end)). loyally.
Qed.
End owed.

Section handoff.
Context `{Hash} {W : Type} `{TransportWorld W} `{TransportView W} `{!TransportLaws W}.
Implicit Types t : transport W.

(** * The handoff *)

(** A mailbox the monitor has made and its threads have used. *)
Definition monitor_box (m : mailbox) : Prop := exists calls, m = foldl monitor_exec mailbox_init calls.

(** A handoff that can begin: a new session, a stream nothing has passed on. *)
Record startable (t : transport W) : Prop := {
  st_session : exists b attempt, session_init b attempt = Ok (t_session t);
  st_box m : t_exec t = Some m -> monitor_box m;
  st_stream : delivered_bytes (t_world t) = [];
}.

Lemma monitor_box_ok_init m : monitor_box m -> box_ok m.
Proof. intros [calls ->]. by apply monitor_box_ok. Qed.

Lemma handoff_body_spec inner fuel c : ensures startable (handoff_body inner fuel c) attested failed.
Proof.
  unfold handoff_body. eapply ensures_bind with (R := fun _ => startable).
  { intros t Ht. unfold check_arguments. by destruct (_ || _ || _ || _ || _ || _ || _). }
  intros []. eapply ensures_bind with (R := fun _ => startable).
  { apply ensures_io. intros t w a [Hs Hb Hd] [(_ & Ed & _) _]%law_monotonic. split; [done|done|]. cbn. congruence. }
  intros now. eapply ensures_bind with (R := fun _ => receiving (booting New []) []).
  { apply ensures_modify. intros t [(b & attempt & Hs) Hb Hd]. unfold session_init in Hs.
    destruct (v_uuid attempt _); cbn [result_bind] in Hs; [|done]. apply (inj Ok) in Hs. split; [|split; [apply decoder_init_ok|split; [constructor|cbn; by rewrite Hd]]].
    split; cbn; rewrite <- ?Hs; try done.
    - intros m Hm. by apply monitor_box_ok_init, Hb.
    - exists []. split; [split; constructor|done]. }
  intros []. eapply ensures_bind; [apply ensures_gets|]. intros s. apply ensures_if; [by intros ? ? ?|]. intros _.
  eapply ensures_bind; [intros t [Ht _]; revert t Ht; apply boot_spec|]. intros [].
  set (AtReady := fun t => exists b r, receiving (running false false) [b; r] t /\ kinds [b; r] = [BOOTSTRAP; READY]).
  eapply ensures_bind with (R := fun _ => AtReady).
  { destruct (c_terminal_timeout c) as [z|]; [|by apply ensures_ret].
    eapply ensures_bind with (R := fun _ => AtReady); [|by intros ?; apply ensures_ret].
    apply ensures_io. intros t w a (b & r & [Hr Hs] & Hk) [Hq _]%law_monotonic. exists b, r. split; [|done]. split; [by apply running_world|].
    by destruct (silent_stream _ _ _ (silent_world t w Hq) Hs). }
  intros td t (b & r & [Hr Hs] & Hk). apply (finish_run_spec _ _ _ b r Hk). split; [by exists false|done].
Qed.

(** ** Losing control *)

Definition stop_is_closed (t : transport W) : Prop := forall s, t_stop t = Some s -> stop_closed s.

Lemma caught_up_closed t t' : caught_up t t' -> (closed_box t -> closed_box t') /\ (stop_is_closed t -> stop_is_closed t') /\ (job_lost t -> job_lost t').
Proof.
  intros (w & calls & _ & ->). split_and!.
  - intros Hc m. cbn. rewrite fmap_Some. intros (m0 & Hm & ->). by apply monitor_closed, Hc.
  - intros Hc s. cbn. rewrite fmap_Some. intros (s0 & Hs & ->). by apply monitor_stop_closed, Hc.
  - intros (m & j & Hm & Hj & Hl). exists (foldl monitor_exec m calls), j. cbn. rewrite Hm. split; [done|]. by apply monitor_lost.
Qed.

Lemma lose_stop_spec t : let t' := lose_stop t in stop_is_closed t' /\ (closed_box t -> closed_box t') /\ (job_lost t -> job_lost t').
Proof.
  unfold lose_stop. destruct (on_stop_spec tt (fun s => (mark_control_lost s, tt)) t) as (t1 & Hc & ->).
  destruct (caught_up_closed _ _ Hc) as (Hb & _ & Hl). destruct (t_stop t1) as [s|] eqn:Es; cbn; [|by split; [intros s Hs; congruence|]].
  split; [|done]. intros s' [= <-]. unfold stop_closed, mark_control_lost. case_bool_decide; cbn; [by right|by left].
Qed.

Lemma lose_control_spec t : let t' := lose_control t in stop_is_closed t' /\ closed_box t' /\ (job_lost t -> job_lost t').
Proof.
  unfold lose_control. destruct (lose_stop_spec t) as (Hs & _ & Hl). set (t1 := lose_stop t) in *. clearbody t1.
  destruct (on_exec_spec tt (fun m => close_to_exec m CONTROL_LOST) t1) as (t2 & Hc & ->).
  destruct (caught_up_closed _ _ Hc) as (_ & Hs2 & Hl2). destruct (t_exec t2) as [m|] eqn:Em.
  - pose proof (close_to_exec_closes m CONTROL_LOST ltac:(by right; right)) as Hcl.
    assert (forall j, mb_job m = Some j -> mb_job_state m = Some JOB_LOST -> mb_job (close_to_exec m CONTROL_LOST).1 = Some j /\
      mb_job_state (close_to_exec m CONTROL_LOST).1 = Some JOB_LOST) as Hlost.
    { intros j Hj Hst. eapply lost_transitions; [apply close_to_exec_tr|constructor|done|done]. }
    destruct (close_to_exec m CONTROL_LOST) as [m' r]. cbn [fst snd] in *. split_and!.
    + by apply Hs2.
    + by intros m0 [= <-].
    + intros (m0 & j & Hm0 & Hj & Hst)%Hl%Hl2. rewrite Em in Hm0. apply (inj Some) in Hm0 as ->. exists m', j. split; [done|]. by apply Hlost.
  - split_and!; [by apply Hs2|intros m Hm; cbn in Hm; congruence|]. intros Hx. by apply Hl2, Hl.
Qed.

(** ** Closing the stream *)

Lemma close_with_spec present f t : (forall w w' r, f w = (w', r) -> quiet w w') -> silent t (close_with present f t).1.
Proof.
  intros Hf. unfold close_with. destruct present; [|reflexivity]. destruct (f (t_world t)) as [w ok] eqn:E. apply Hf in E. by apply silent_world.
Qed.

(** What the return of a handoff is made of. *)
Lemma handoff_outcome inner fuel c t t' r : complete_initial_lifecycle_handoff inner fuel c t = (t', r) ->
  exists t1 r1, handoff_body inner fuel c t = (t1, r1) /\
  match r with
  | Value rc => r1 = Value rc /\ silent t1 t'
  | Raise f =>
      exists t2, silent (match r1 with Value _ => t1 | Raise _ => lose_control t1 end) t2 /\
      (r1 = Raise f /\ t' = t2 \/ t' = lose_stop t2 /\ exists x, f = Raised x)
  end.
Proof.
  unfold complete_initial_lifecycle_handoff. destruct (handoff_body inner fuel c t) as [t1 r1]. set (t0 := match r1 with Value _ => t1 | Raise _ => _ end).
  intros E. exists t1, r1. split; [done|].
  pose proof (close_with_spec (c_before_close c) before_stream_close t0 law_before_close) as Hc1.
  destruct (close_with (c_before_close c) before_stream_close t0) as [t2 cleaned]. cbn [fst] in Hc1.
  pose proof (close_with_spec (c_abort c) stream_abort t2 law_abort) as Hc2.
  destruct (close_with (c_abort c) stream_abort t2) as [t3 aborted]. cbn [fst] in Hc2.
  pose proof (close_with_spec (bool_decide (c_free c = Some true)) stream_free t3 law_free) as Hc3.
  destruct (close_with _ stream_free t3) as [t4 freed]. cbn [fst] in Hc3.
  assert (silent t0 t4) as Hs4 by (etrans; [exact Hc1|]; etrans; [exact Hc2|exact Hc3]).
  destruct r1 as [rc|f1].
  - destruct (negb cleaned); [apply pair_equal_spec in E as [<- <-]; exists t2; split; [done|]; right; eauto|].
    destruct (aborted && freed); apply pair_equal_spec in E as [<- <-]; [done|]. exists t4. split; [done|]. right. split; [done|]. by eexists.
  - assert ((t0, Raise f1) = (t', r) \/ (if negb cleaned then (lose_stop t2, Raise (Raised CallbackCleanup)) else (t4, Raise f1)) = (t', r)) as [E'|E'].
    { destruct f1 as [[c1| |x]|x|]; auto. }
    + apply pair_equal_spec in E' as [<- <-]. exists t0. split; [reflexivity|by left].
    + destruct (negb cleaned); apply pair_equal_spec in E' as [<- <-]; [exists t2; split; [done|]; right; eauto|]. exists t4. split; [done|by left].
Qed.

Lemma silent_closed t t' : silent t t' -> (closed_box t -> closed_box t') /\ (stop_is_closed t -> stop_is_closed t') /\ (job_lost t -> job_lost t').
Proof. intros [_ ->]. done. Qed.

Lemma tags_absent serialized tags tag : tags_are_absent serialized (map VStr tags) = Ok tt -> tag ∈ tags -> contains tag serialized = false.
Proof.
  induction tags as [|x tags IH]; [by intros _ ?%not_elem_of_nil|]. cbn [map tags_are_absent]. destruct (negb _); [done|].
  destruct (is_substring x serialized) eqn:E; [done|]. intros Ht [->|Hin]%elem_of_cons; [done|by apply IH].
Qed.

(** C1: a handoff that returns attests one complete boot.  The bytes the stream
    delivered are exactly the frames of BOOTSTRAP, READY, results of executions
    and one last TERMINAL, with nothing left over; the transcript of the receipt
    has one authenticated projection for each of HELLO, BOOTSTRAP, KEY_ACK, READY,
    at most one STOP, and TERMINAL; the serialized receipt has neither the boot key
    nor a tag of any of these frames; and the mailbox of executions is closed. *)
Theorem handoff_attests_boot inner fuel c t t' rc : startable t ->
  complete_initial_lifecycle_handoff inner fuel c t = (t', Value rc) ->
  rc_phase rc = PhaseTerminal /\
  (exists b r execs e, feed_bytes decoder_init (delivered_bytes (t_world t')) = (decoder_init, Ok ([b; r] ++ execs ++ [e])) /\
    kinds [b; r; e] = [BOOTSTRAP; READY; TERMINAL] /\ Forall (fun x => is_exec_frame x = true) execs) /\
  (exists fs (stopped : bool),
    kinds fs = [HELLO; BOOTSTRAP; KEY_ACK; READY] ++ (if stopped then [STOP] else []) ++ [TERMINAL] /\
    Forall2 (fun (e : envelope) d => exists encoded : bytes, transcript_projection e encoded CHANNEL_CARRIER (frame_key (t_session t') e) = Ok d) fs (rc_transcript rc) /\
    exists serialized, canonical_json_bytes (receipt_value rc) = Ok serialized /\
      (forall k, key (t_session t') = Some k -> contains (hex k) serialized = false) /\
      (forall e tag, e ∈ fs -> e_tag e = Some tag -> contains tag serialized = false)) /\
  (forall m, t_exec t' = Some m -> box_closed m).
Proof.
  intros Hst Hh. apply handoff_outcome in Hh as (t1 & r1 & Eb & -> & Hsil).
  pose proof (handoff_body_spec inner fuel c t Hst) as Hbody. rewrite Eb in Hbody. destruct Hbody as [Hph (fs & stopped & [Hf Htags] & Htr & Hk) Hstr (ser & Hser & Hsafe) Hcl].
  destruct Hsil as [(_ & Ed & _) ->]. cbn in *. rewrite Ed. split; [done|]. split; [|split; [|done]].
  - destruct Hstr as (b & r & execs & e & Hfeed & Hbr & Hx & He). exists b, r, execs, e. split; [done|]. split; [|done].
    unfold kinds in *. cbn [map] in *. injection Hbr as -> ->. by rewrite He.
  - exists fs, stopped. split; [by rewrite Hk; destruct stopped|]. split; [by rewrite Htr|]. exists ser. split; [done|].
    unfold assert_receipt_safe in Hsafe. destruct (match key (t_session t1) with Some k => _ | None => false end) eqn:Ekey; [done|]. split.
    + intros k Hk'. by rewrite Hk' in Ekey.
    + intros e tag He Het. rewrite Forall_forall in Htags. specialize (Htags e He). rewrite Het in Htags. by eapply tags_absent.
Qed.

(** C6: a handoff that raises leaves nothing open: the stop control of the monitor
    takes no further STOP and its mailbox takes no further execution, whatever
    raised (the arguments, the stream, the peer, a callback, the mailbox, the
    cleanup of the stream) and whatever the other threads did meanwhile. *)
Theorem handoff_failure_closes inner fuel c t t' f : startable t ->
  complete_initial_lifecycle_handoff inner fuel c t = (t', Raise f) ->
  (forall s, t_stop t' = Some s -> stop_closed s) /\ (forall m, t_exec t' = Some m -> box_closed m).
Proof.
  intros Hst Hh. apply handoff_outcome in Hh as (t1 & r1 & Eb & t2 & Hsil & Hout).
  destruct (silent_closed _ _ Hsil) as (Hbox & Hstop & _). destruct (lose_stop_spec t2) as (Hs2 & Hb2 & _).
  pose proof (handoff_body_spec inner fuel c t Hst) as Hbody. rewrite Eb in Hbody. destruct r1 as [rc|f1].
  - destruct Hout as [[? _]|[-> _]]; [done|]. split; [exact Hs2|]. apply Hb2, Hbox, Hbody.
  - destruct (lose_control_spec t1) as (Hs1 & Hb1 & _). destruct Hout as [[_ ->]|[-> _]].
    + split; [by apply Hstop|by apply Hbox].
    + split; [exact Hs2|by apply Hb2, Hbox].
Qed.

(** C12: the mailbox takes every result of an execution the session has accepted:
    the handoff raises the mailbox's exception only where the job was lost before
    the handoff itself gave up, because another thread had meanwhile closed the
    mailbox: one of the calls of the other threads since the handoff began did. *)
Theorem exec_results_delivered `{!MonitorLog W} inner fuel c t t' x : startable t ->
  complete_initial_lifecycle_handoff inner fuel c t = (t', Raise (MailboxFailure x)) ->
  exists t1, handoff_body inner fuel c t = (t1, Raise (MailboxFailure x)) /\
  (exists m j, t_exec t1 = Some m /\ mb_job m = Some j /\ mb_job_state m = Some JOB_LOST) /\
  exists calls, monitor_log (t_world t1) = monitor_log (t_world t) ++ calls /\ existsb closes_box calls = true.
Proof.
  intros Hst Hh. apply handoff_outcome in Hh as (t1 & r1 & Eb & t2 & Hsil & Hout).
  pose proof (handoff_body_spec inner fuel c t Hst) as Hbody. rewrite Eb in Hbody. pose proof (loyal_body (t_world t) inner fuel c t eq_refl) as Hl. rewrite Eb in Hl.
  destruct Hout as [[-> _]|[_ [y Hy]]]; [|done]. exists t1. split; [done|]. split; [exact Hbody|].
  destruct Hl as [[_ [Ho|[?|Hm]]] Hj]; [exact Ho|done|]. destruct Hbody as (m & j & Em & _ & Hs). by apply Hm in Em.
Qed.

(** ** Termination *)

Lemma waits_bound (w : W) c dl d : dl - c <= d -> 65536 + waits c dl <= 65536 + (spins W + 1) * Z.max 0 d + spins W.
Proof. intros Hd. pose proof (law_burst w). unfold waits. nia. Qed.

Lemma handoff_body_ends inner fuel c z t : t_exec t = None -> c_terminal_timeout c = Some z ->
  65536 + (spins W + 1) * Z.max 0 (Z.max (c_timeout c) z) + spins W < Z.of_nat inner -> (0 < fuel)%nat -> (handoff_body inner fuel c t).2 <> Raise OutOfFuel.
Proof.
  intros Hx Hz Hin Hf. unfold handoff_body, bind at 1. unfold check_arguments. destruct (_ || _ || _ || _ || _ || _ || _); [done|].
  unfold bind at 1, io. destruct (monotonic (t_world t)) as [w now] eqn:Em. apply law_monotonic in Em as [_ ->].
  unfold bind at 1, modify. set (t1 := _ <| t_exec_deadline := None |>).
  cut (ended (clock w) ((do s <- gets t_session ;;
    reject INTERNAL when bool_decide (s_binding s <> c_binding c) || negb (bool_decide (state s = New)) ;;
    do _ <- boot inner (Some (clock w + c_timeout c)) ;;
    do terminal_deadline <- match c_terminal_timeout c with
                            | Some z => do now <- io monotonic ;; ret (Some (now + z))
                            | None => ret None
                            end ;;
    finish_run inner fuel terminal_deadline) t1)).
  { intros Hend%ended_snd. exact Hend. }
  assert (forall m : @M W receipt, ends (clock w) m -> ended (clock w) (m t1)) as Hends.
  { intros m Hm. apply (Hm t1); [cbn; lia|done|apply decoder_init_ok]. }
  apply Hends. apply ends_bind; [apply calm_ends, calm_gets|]. intros s. apply ends_if; [by apply calm_ends, calm_fail|].
  apply ends_bind; [apply boot_ends; eapply Z.le_lt_trans; [apply (waits_bound w (clock w) (clock w + c_timeout c) (Z.max (c_timeout c) z)); lia|exact Hin]|]. intros _. rewrite Hz. intros t2 Hc2 Hx2 Hd2.
  unfold bind at 1, bind at 1, io. destruct (monotonic (t_world t2)) as [w2 now2] eqn:Em2. apply law_monotonic in Em2 as [(_ & _ & Hq%later_clock) ->].
  cbn [ret]. eapply ended_weaken; [exact Hq|]. apply (finish_run_ends (clock w2)); [|done|cbn; lia|done|done].
  eapply Z.le_lt_trans; [apply (waits_bound w (clock w2) (clock w2 + z) (Z.max (c_timeout c) z)); lia|exact Hin].
Qed.

(** C18: with a deadline after READY and without a mailbox of executions, a handoff
    returns: every loop of it ends, whatever the peer sends and however slowly.
    A send takes at least a byte or waits; a receive takes at least a byte of a frame
    of at most 65536 or waits; and each loop looks at the deadline.  Of a wait only
    this is used: it may return at once, as one turn of the event loop in
    production does, but at most [spins] waits in a row return before the clock shows
    another millisecond ([law_wait], [law_burst]).  The fuel is the bound that gives. *)
Theorem handoff_terminates inner fuel c z t : t_exec t = None -> c_terminal_timeout c = Some z ->
  65536 + (spins W + 1) * Z.max 0 (Z.max (c_timeout c) z) + spins W < Z.of_nat inner -> (0 < fuel)%nat ->
  (complete_initial_lifecycle_handoff inner fuel c t).2 <> Raise OutOfFuel.
Proof.
  intros Hx Hz Hin Hf. pose proof (handoff_body_ends inner fuel c z t Hx Hz Hin Hf) as Hb.
  destruct (complete_initial_lifecycle_handoff inner fuel c t) as [t' r] eqn:Eh. apply handoff_outcome in Eh as (t1 & r1 & Eb & Hout).
  rewrite Eb in Hb. cbn [snd] in *. destruct r as [rc|f]; [done|]. destruct Hout as (t2 & _ & [[-> _]|[_ [x ->]]]); [done|done].
Qed.
End handoff.

(** * A boot *)

#[local] Existing Instance checksum_hash.

Lemma ex_startable t : t_session t = ex_new -> t_exec t = Some mailbox_init -> delivered_bytes (t_world t) = [] -> startable t.
Proof.
  intros Hs Hm Hd. split; [|rewrite Hm; intros m [= <-]; by exists []|exact Hd].
  rewrite Hs. exists ex_binding, (VStr ex_uuid). by vm_compute.
Qed.

Lemma handoff_attests_boot_witness : startable ex_transport /\
  exists rc, (complete_initial_lifecycle_handoff 400 10 ex_config ex_transport).2 = Value rc /\ rc_phase rc = PhaseTerminal.
Proof.
  assert (startable ex_transport) as Hs by (by apply ex_startable). split; [exact Hs|].
  assert (returned (complete_initial_lifecycle_handoff 400 10 ex_config ex_transport).2 = true) as Hr by (by vm_compute).
  destruct (complete_initial_lifecycle_handoff 400 10 ex_config ex_transport) as [t' [rc|f]] eqn:E; [|discriminate Hr].
  exists rc. split; [done|]. exact (proj1 (handoff_attests_boot 400 10 ex_config ex_transport t' rc Hs E)).
Defined.

Lemma handoff_failure_closes_witness : startable ex_cut_transport /\
  forall m, t_exec (complete_initial_lifecycle_handoff 400 10 ex_config ex_cut_transport).1 = Some m -> box_closed m.
Proof.
  assert (startable ex_cut_transport) as Hs by (by apply ex_startable). split; [exact Hs|].
  assert (returned (complete_initial_lifecycle_handoff 400 10 ex_config ex_cut_transport).2 = false) as Hr by (by vm_compute).
  destruct (complete_initial_lifecycle_handoff 400 10 ex_config ex_cut_transport) as [t' [rc|f]] eqn:E; [discriminate Hr|].
  exact (proj2 (handoff_failure_closes 400 10 ex_config ex_cut_transport t' f Hs E)).
Defined.

Lemma exec_results_delivered_witness : startable ex_lost_transport /\
  exists x t1, (complete_initial_lifecycle_handoff 400 10 ex_config ex_lost_transport).2 = Raise (MailboxFailure x) /\
    handoff_body 400 10 ex_config ex_lost_transport = (t1, Raise (MailboxFailure x)) /\
    (exists m j, t_exec t1 = Some m /\ mb_job m = Some j /\ mb_job_state m = Some JOB_LOST) /\
    exists calls, monitor_log (t_world t1) = monitor_log (t_world ex_lost_transport) ++ calls /\ existsb closes_box calls = true.
Proof.
  assert (startable ex_lost_transport) as Hs by (by apply ex_startable). split; [exact Hs|].
  assert (mailbox_failed (complete_initial_lifecycle_handoff 400 10 ex_config ex_lost_transport).2 = true) as Hr by (by vm_compute).
  destruct (complete_initial_lifecycle_handoff 400 10 ex_config ex_lost_transport) as [t' [rc|[r|x|]]] eqn:E; try discriminate Hr.
  destruct (exec_results_delivered 400 10 ex_config ex_lost_transport t' x Hs E) as (t1 & Hb & Hj & Hc).
  exists x, t1. split; [exact eq_refl|]. split; [exact Hb|]. split; [exact Hj|exact Hc].
Defined.

Lemma handoff_terminates_witness : t_exec ex_alone_transport = None /\
  (complete_initial_lifecycle_handoff (Z.to_nat 250000) 1 ex_config ex_alone_transport).2 <> Raise OutOfFuel.
Proof.
  split; [reflexivity|]. apply (handoff_terminates (Z.to_nat 250000) 1 ex_config 60000 ex_alone_transport); [reflexivity|reflexivity| |lia].
  rewrite Z2Nat.id by lia. by vm_compute.
Defined.
