(* ===== verification/Names.v ===== *)
(** The names of image sources ([oci_provenance.py]): registry authorities,
    repositories, references and digests, each brought to one canonical text; and
    the text of internet addresses as [ipaddress] of Python 3.12 reads and writes
    it (3.13 writes an IPv4-mapped address in another form). *)
From S2P Require Import Prelude Crypto PyStr PyText PyVal Regex Digest.

(** * Text *)

(** [s.rpartition(c)], and what [s.rsplit(c, 1)] gives where [c] is in [s] *)
Definition rpartition (c : Z) (s : pystr) : pystr * bool * pystr :=
  let ' (after, found, before) := partition c (rev s) in (rev before, found, rev after).

Definition is_text_digits (s : pystr) : bool := negb (bool_decide (s = [])) && forallb is_digit s.

(** [_plain_string] *)
Definition plain_text (value : pyval) (field : string) : result pystr :=
  match value with
  | VStr s =>
      raise (field ++ " must be a nonempty string without surrounding whitespace")%string
        when bool_decide (s = []) || negb (bool_decide (s = strip s)) ;;
      raise (field ++ " cannot contain control characters")%string when existsb (fun c => (c <? 32) || (c =? 127)) s ;;
      Ok s
  | _ => Err (field ++ " must be a nonempty string without surrounding whitespace")%string
  end.

(** [_canonical_digest] *)
Definition canonical_digest (value : pyval) (field : string) : result pystr :=
  match value with
  | VStr s =>
      match require_digest s with
      | Ok d => raise (field ++ " must use canonical sha256:<lowercase-hex> syntax")%string when negb (bool_decide (d = s)) ;; Ok s
      | Err _ => Err (field ++ " must be a canonical sha256 digest")%string
      end
  | _ => Err (field ++ " must be a canonical sha256 digest")%string
  end.

(** * Internet addresses *)

(** [IPv4Address._parse_octet] *)
Definition ipv4_octet (s : pystr) : option Z :=
  if negb (is_text_digits s) || (3 <? zlen s) || (startswith [48] s && negb (bool_decide (s = [48]))) then None
  else let n := digits_value s in if 255 <? n then None else Some n.

(** [IPv4Address(s)] of a text without a slash *)
Definition ipv4_parse (s : pystr) : option (list Z) :=
  match map ipv4_octet (split 46 s) with
  | [Some a; Some b; Some c; Some d] => Some [a; b; c; d]
  | _ => None
  end.
Definition ipv4_text (octets : list Z) : pystr := join [46] (map str_of_int octets).

(** [IPv6Address._parse_hextet]: [int(s, 16)] of up to four hexadecimal digits *)
Definition hextet (s : pystr) : option Z :=
  if bool_decide (s = []) || (4 <? zlen s) then None
  else fold_left (fun a c => match a, hex_value c with Some a, Some d => Some (16 * a + d) | _, _ => None end) s (Some 0).

(** ["%x" % n] for [n < 65536] *)
Definition hex_text (n : Z) : pystr :=
  let a := n / 4096 in let b := n / 256 mod 16 in let c := n / 16 mod 16 in let d := n mod 16 in
  if n <? 16 then [hex_digit d]
  else if n <? 256 then [hex_digit c; hex_digit d]
  else if n <? 4096 then [hex_digit b; hex_digit c; hex_digit d]
  else [hex_digit a; hex_digit b; hex_digit c; hex_digit d].

(** The indices of the empty parts. *)
Fixpoint blanks (i : nat) (parts : list pystr) : list nat :=
  match parts with
  | [] => []
  | p :: parts => if bool_decide (p = []) then i :: blanks (S i) parts else blanks (S i) parts
  end.

(** [for part in parts: ip_int <<= 16; ip_int |= _parse_hextet(part)] *)
Definition shift_in (ip : option Z) (part : pystr) : option Z :=
  match ip, hextet part with Some ip, Some h => Some (Z.lor (Z.shiftl ip 16) h) | _, _ => None end.

(** [IPv6Address._ip_int_from_string], from the parts between colons *)
Definition ipv6_of_parts (parts : list pystr) : option Z :=
  let count := length parts in
  if (9 <? count)%nat then None
  else
    match blanks 1 (removelast (tail parts)) with
    | [] =>
        if negb (count =? 8)%nat || bool_decide (head parts = Some []) || bool_decide (last parts = Some []) then None
        else fold_left shift_in parts (Some 0)
    | [skip] =>
        let hi := skip in
        let lo := (count - skip - 1)%nat in
        let hi := if bool_decide (head parts = Some []) then (hi - 1)%nat else hi in
        let lo' := if bool_decide (last parts = Some []) then (lo - 1)%nat else lo in
        if (bool_decide (head parts = Some []) && negb (hi =? 0)%nat) || (bool_decide (last parts = Some []) && negb (lo' =? 0)%nat)
           || (8 <? hi + lo' + 1)%nat
        then None
        else
          match fold_left shift_in (take hi parts) (Some 0) with
          | Some ip => fold_left shift_in (drop (count - lo') parts) (Some (Z.shiftl ip (16 * (8 - Z.of_nat hi - Z.of_nat lo'))))
          | None => None
          end
    | _ => None
    end.

(** [IPv6Address(s)] of a text with neither a slash nor a scope *)
Definition ipv6_parse (s : pystr) : option Z :=
  let parts := split 58 s in
  if bool_decide (s = []) || (length parts <? 3)%nat then None
  else
    let tail_part := List.last parts [] in
    if bool_decide (46 ∈ tail_part) then
      match ipv4_parse tail_part with
      | Some [a; b; c; d] => ipv6_of_parts (removelast parts ++ [hex_text (256 * a + b); hex_text (256 * c + d)])
      | _ => None
      end
    else ipv6_of_parts parts.

(** The hextets of [_string_from_ip_int], most significant first *)
Definition hextets (ip : Z) : list pystr :=
  map (fun i => hex_text (Z.land (Z.shiftr ip (16 * i)) 65535)) [7; 6; 5; 4; 3; 2; 1; 0].

(** [_compress_hextets]: the loop for the longest run of zeros, the first of its
    length; [(index, (start, length), (best start, best length))] *)
Definition zero_run (acc : nat * (option nat * nat) * (nat * nat)) (h : pystr) : nat * (option nat * nat) * (nat * nat) :=
  let ' (index, (start, len), (best_start, best_len)) := acc in
  if bool_decide (h = [48]) then
    let start := default index start in
    let len := S len in
    (S index, (Some start, len), if (best_len <? len)%nat then (start, len) else (best_start, best_len))
  else (S index, (None, O), (best_start, best_len)).
Definition longest_zeros (hs : list pystr) : nat * nat := (fold_left zero_run hs (O, (None, O), (O, O))).2.

Definition compress_hextets (hs : list pystr) : list pystr :=
  let ' (start, len) := longest_zeros hs in
  if (1 <? len)%nat then
    let stop := (start + len)%nat in
    let hs' := if (stop =? length hs)%nat then hs ++ [[]] else hs in
    let hs' := take start hs' ++ [[]] ++ drop stop hs' in
    if (start =? 0)%nat then [] :: hs' else hs'
  else hs.

(** [address.compressed] *)
Definition ipv6_text (ip : Z) : pystr := join [58] (compress_hextets (hextets ip)).

(** * Registries, repositories, references *)

Definition alnum : list (Z * Z) := [(48, 57); (65, 90); (97, 122)].
Definition low_alnum : list (Z * Z) := [(48, 57); (97, 122)].
Definition host_label_re : re := RCat (RCls alnum) (opt (RCat (upto 61 (RCls ((45, 45) :: alnum))) (RCls alnum))).
Definition repository_component_re : re :=
  RCat (plus (RCls low_alnum))
    (RStar (RCat (RAlt (RCls [(46, 46); (95, 95)]) (RAlt (lit (u "__")) (plus (chr 45)))) (plus (RCls low_alnum)))).
Definition tag_re : re := RCat (RCls ((95, 95) :: alnum)) (upto 127 (RCls ([(45, 46); (95, 95)] ++ alnum))).

Definition with_field (field message : string) : string := (field ++ message)%string.

(** The host of [_registry_authority] and the text of its port. *)
Definition registry_host (authority : pystr) (field : string) : result (pystr * option pystr) :=
  if startswith [91] authority then
    let ' (opened, closed, remainder) := partition 93 authority in
    raise (with_field field " has an invalid bracketed IPv6 host") when negb closed ;;
    let host := drop 1 opened in
    raise (with_field field " has an invalid port")
      when negb (bool_decide (remainder = [])) && (negb (startswith [58] remainder) || bool_decide (drop 1 remainder = [])) ;;
    raise (with_field field " cannot contain an IPv6 scope identifier") when bool_decide (37 ∈ host) ;;
    match ipv6_parse host with
    | Some ip => Ok ([91] ++ lower (ipv6_text ip) ++ [93], if bool_decide (remainder = []) then None else Some (drop 1 remainder))
    | None => Err (with_field field " has an invalid bracketed IPv6 host")
    end
  else
    raise (with_field field " requires brackets around an IPv6 host") when 1 <? count 58 authority ;;
    let ' (host, port) := match rpartition 58 authority with
                          | (host, true, port) => (host, Some port)
                          | _ => (authority, None)
                          end in
    raise (with_field field " has an empty host") when bool_decide (host = []) ;;
    let parts := split 46 host in
    if bool_decide (length parts = 4%nat) && forallb is_text_digits parts then
      match ipv4_parse host with
      | Some octets => Ok (ipv4_text octets, port)
      | None => Err (with_field field " has an invalid IPv4 host")
      end
    else
      raise (with_field field " has an invalid hostname") when (253 <? zlen host) || negb (forallb (fullmatch host_label_re) parts) ;;
      Ok (lower host, port).

(** Its port; [int] refuses more than 4300 digits. *)
Definition registry_port (port : option pystr) (field : string) : result (option pystr) :=
  match port with
  | None => Ok None
  | Some port_text =>
      raise (with_field field " port must be numeric") when negb (is_text_digits port_text) ;;
      let? port := py_int port_text in
      raise (with_field field " port must be between 1 and 65535") when negb ((1 <=? port) && (port <=? 65535)) ;;
      Ok (Some (str_of_int port))
  end.

(** [_registry_authority] *)
Definition registry_authority (value : pyval) (field : string) : result pystr :=
  let? authority := plain_text value field in
  raise (with_field field " must be a registry authority without scheme, userinfo, or path")
    when existsb is_space authority || bool_decide (47 ∈ authority) || bool_decide (92 ∈ authority) || bool_decide (64 ∈ authority) ;;
  let? ' (host, port) := registry_host authority field in
  let? port := registry_port port field in
  Ok (match port with None => host | Some port => host ++ [58] ++ port end).

(** [_repository_name] *)
Definition repository_name (value : pyval) (field : string) : result pystr :=
  let? repository := plain_text value field in
  raise (with_field field " must use Distribution repository syntax") when existsb is_space repository || bool_decide (92 ∈ repository) ;;
  raise (with_field field " must use Distribution repository syntax")
    when negb (forallb (fullmatch repository_component_re) (split 47 repository)) ;;
  Ok repository.

Definition reference_field : string := "source.requested_reference".

(** The digest of a reference: what is before it, and its text with the at sign. *)
Definition split_digest (reference : pystr) : result (pystr * pystr) :=
  if bool_decide (64 ∈ reference) then
    raise (with_field reference_field " contains invalid userinfo or digest syntax") when negb (count 64 reference =? 1) ;;
    let ' (name, _, declared) := rpartition 64 reference in
    let? _ := canonical_digest (VStr declared) (with_field reference_field ".digest") in
    Ok (name, 64 :: declared)
  else Ok (reference, []).

(** The tag: a colon after the last slash. *)
Definition split_tag (name_and_tag : pystr) : result (pystr * pystr) :=
  match rpartition 58 name_and_tag with
  | (name, true, tag) =>
      if bool_decide (47 ∈ tag) then Ok (name_and_tag, [])
      else
        raise (with_field reference_field " has an invalid tag") when negb (fullmatch tag_re tag) ;;
        Ok (name, 58 :: tag)
  | _ => Ok (name_and_tag, [])
  end.

(** No character outside ASCII has a lower case in [localhost]. *)
Definition is_explicit_registry (components : list pystr) : bool :=
  match components with
  | first :: _ :: _ =>
      bool_decide (lower first = u "localhost") || bool_decide (46 ∈ first) || bool_decide (58 ∈ first) || startswith [91] first
  | _ => false
  end.

(** The name with its registry, if it has one, in canonical form. *)
Definition canonical_name (name : pystr) : result pystr :=
  let components := split 47 name in
  if is_explicit_registry components then
    let? registry := registry_authority (VStr (List.hd [] components)) (with_field reference_field ".registry") in
    let? _ := repository_name (VStr (join [47] (tail components))) reference_field in
    Ok (join [47] (registry :: tail components))
  else
    let? _ := repository_name (VStr (join [47] components)) reference_field in
    Ok name.

(** [_requested_reference] *)
Definition requested_reference (value : pyval) : result pystr :=
  let? reference := plain_text value reference_field in
  raise (with_field reference_field " must be a named OCI/Docker reference without a scheme")
    when existsb is_space reference || bool_decide (92 ∈ reference) || contains (u "://") reference ;;
  raise (with_field reference_field " cannot be a local path")
    when existsb (fun p => startswith p reference) [u "/"; u "./"; u "../"; u "~"] ;;
  let? ' (name_and_tag, digest_suffix) := split_digest reference in
  let? ' (name, tag_suffix) := split_tag name_and_tag in
  raise (with_field reference_field " has an empty name") when bool_decide (name = []) ;;
  let? name := canonical_name name in
  Ok (name ++ tag_suffix ++ digest_suffix).
