(* ===== verification/NamesFacts.v ===== *)
(** The canonical names are fixed points: what [_registry_authority] and
    [_requested_reference] return is accepted and returned unchanged. *)
From S2P Require Import Prelude Crypto PyStr PyText PyVal Regex Digest Names.

(** * Text *)

(** Visible ASCII. *)
Definition visible (s : pystr) : Prop := Forall (fun c => 33 <= c <= 126) s.

Lemma visible_app a b : visible (a ++ b) <-> visible a /\ visible b.
Proof. apply Forall_app. Qed.
Lemma visible_cons c s : visible (c :: s) <-> 33 <= c <= 126 /\ visible s.
Proof. unfold visible. by rewrite Forall_cons. Qed.

Lemma visible_space c : 33 <= c <= 126 -> is_space c = false.
Proof.
  intros Hc. unfold is_space, in_cls. cbn [existsb fst snd].
  repeat rewrite orb_false_iff. repeat (split; [apply andb_false_iff; lia|]). done.
Qed.

Lemma visible_no_space s : visible s -> existsb is_space s = false.
Proof. induction 1 as [|c s Hc _ IH]; [done|]. cbn [existsb]. by rewrite visible_space. Qed.

Lemma lstrip_visible s : visible s -> lstrip s = s.
Proof. intros [|c r Hc _]; [done|]. cbn [lstrip]. by rewrite visible_space. Qed.

Lemma plain_text_visible s field : visible s -> s <> [] -> plain_text (VStr s) field = Ok s.
Proof.
  intros Hs Hne. unfold plain_text. rewrite (bool_decide_eq_false_2 (s = [])) by done.
  assert (strip s = s) as -> by (unfold strip; rewrite (lstrip_visible s) by done; rewrite lstrip_visible, rev_involutive by (by apply Forall_rev); done).
  rewrite bool_decide_eq_true_2 by done. cbn [negb orb].
  assert (existsb (fun c => (c <? 32) || (c =? 127)) s = false) as ->; [|done].
  induction Hs as [|c s Hc _ IH]; [done|]. cbn [existsb]. rewrite (proj2 (Z.ltb_ge _ _)), (proj2 (Z.eqb_neq _ _)) by lia. cbn [orb].
  destruct s; [done|by apply IH].
Qed.

Lemma plain_text_Ok v field s : plain_text v field = Ok s -> v = VStr s /\ s <> [].
Proof. unfold plain_text. intros H. inv_ok. bool_norm. done. Qed.

Lemma in_cls_visible l c : forallb (fun r => (33 <=? r.1) && (r.2 <=? 126)) l = true -> in_cls l c = true -> 33 <= c <= 126.
Proof.
  intros Hl Hc. unfold in_cls in Hc. apply existsb_exists in Hc as ([a b] & Hin & Hr). rewrite forallb_forall in Hl.
  specialize (Hl _ Hin). cbn in *. bool_norm. lia.
Qed.

Lemma fullmatch_visible r s : re_within 33 126 r = true -> fullmatch r s = true -> visible s.
Proof. intros Hr Hs. by eapply fullmatch_within. Qed.

(** [lower] keeps the visible characters visible, and what is lower case. *)
Lemma lower_char_visible c : 33 <= c <= 126 -> 33 <= lower_char c <= 126.
Proof. unfold lower_char. destruct ((65 <=? c) && (c <=? 90)) eqn:E; bool_norm; lia. Qed.
Lemma lower_char_idem c : lower_char (lower_char c) = lower_char c.
Proof. unfold lower_char at 2 3. destruct ((65 <=? c) && (c <=? 90)) eqn:E; [|unfold lower_char; by rewrite E]. bool_norm. unfold lower_char. by rewrite (proj2 (Z.leb_gt (c + 32) 90)), andb_false_r by lia. Qed.
Lemma lower_idem s : lower (lower s) = lower s.
Proof. unfold lower. rewrite map_map. apply map_ext, lower_char_idem. Qed.
Lemma lower_visible s : visible s -> visible (lower s).
Proof. unfold visible, lower. rewrite Forall_fmap. intros Hs. eapply Forall_impl; [exact Hs|]. intros c. apply lower_char_visible. Qed.

Lemma lower_char_eq c d : (d < 65 \/ 90 < d) -> (d < 97 \/ 122 < d) -> lower_char c = d <-> c = d.
Proof. unfold lower_char. destruct ((65 <=? c) && (c <=? 90)) eqn:E; bool_norm; lia. Qed.
Lemma elem_of_lower d s : (d < 65 \/ 90 < d) -> (d < 97 \/ 122 < d) -> d ∈ lower s <-> d ∈ s.
Proof.
  intros H1 H2. unfold lower. rewrite list_elem_of_fmap. split.
  - intros (c & E & Hc). symmetry in E. apply lower_char_eq in E as ->; done.
  - intros Hd. exists d. split; [|done]. symmetry. by apply lower_char_eq.
Qed.

(** * Separators *)

Lemma elem_of_rev {A} (c : A) s : c ∈ rev s <-> c ∈ s.
Proof. by rewrite !list_elem_of_In, <- in_rev. Qed.

Lemma partition_rev_free c s : c ∉ s -> rpartition c s = ([], false, s).
Proof.
  intros Hc. unfold rpartition. rewrite partition_missing by (by rewrite elem_of_rev). by rewrite rev_involutive.
Qed.

Lemma rpartition_app c a b : c ∉ b -> rpartition c (a ++ c :: b) = (a, true, b).
Proof.
  intros Hc. unfold rpartition. replace (rev (a ++ c :: b)) with (rev b ++ c :: rev a) by (rewrite rev_app_distr; cbn [rev]; by rewrite <- app_assoc).
  assert (partition c (rev b ++ c :: rev a) = (rev b, true, rev a)) as -> by (apply partition_found; split; [done|by rewrite elem_of_rev]).
  by rewrite !rev_involutive.
Qed.

Lemma rpartition_found c s a b : rpartition c s = (a, true, b) -> s = a ++ c :: b /\ c ∉ b.
Proof.
  unfold rpartition. destruct (partition c (rev s)) as [[x f] y] eqn:E. rewrite !pair_equal_spec. intros [[<- ->] <-].
  apply partition_found in E as [E Hx]. rewrite elem_of_rev. split; [|done]. rewrite <- (rev_involutive s), E, rev_app_distr. cbn [rev]. by rewrite <- app_assoc.
Qed.

Lemma rpartition_missing c s a b : rpartition c s = (a, false, b) -> c ∉ s.
Proof.
  unfold rpartition. destruct (partition c (rev s)) as [[x f] y] eqn:E. rewrite !pair_equal_spec. intros [[_ ->] _] Hc.
  rewrite <- (rev_involutive s), elem_of_rev in Hc. apply list_elem_of_split in Hc as (l1 & l2 & Hl).
  revert E. clear -Hl. rewrite Hl. clear Hl. revert x y. induction l1 as [|z l1 IH]; cbn [app partition]; intros x y.
  - by rewrite Z.eqb_refl.
  - destruct (z =? c); [done|]. destruct (partition c (l1 ++ c :: l2)) as [[x' f'] y'] eqn:E. rewrite !pair_equal_spec. intros [[_ ->] _]. by eapply IH.
Qed.

Lemma count_app c a b : count c (a ++ b) = count c a + count c b.
Proof. unfold count. rewrite List.filter_app, zlen_app. done. Qed.
Lemma count_free c s : c ∉ s -> count c s = 0.
Proof.
  intros Hc. unfold count. replace (List.filter (Z.eqb c) s) with (@nil Z); [done|].
  induction s as [|x s IH]; [done|]. apply not_elem_of_cons in Hc as [? ?]. cbn. rewrite (proj2 (Z.eqb_neq _ _)) by done. by apply IH.
Qed.
Lemma count_pos c s : c ∈ s -> 1 <= count c s.
Proof.
  intros (a & b & ->)%list_elem_of_split. rewrite count_app. unfold count at 2. cbn [List.filter]. rewrite Z.eqb_refl, zlen_cons.
  unfold count. pose proof (zlen_nonneg (List.filter (Z.eqb c) a)). pose proof (zlen_nonneg (List.filter (Z.eqb c) b)). lia.
Qed.
Lemma count_cons_self c s : count c (c :: s) = 1 + count c s.
Proof. unfold count. cbn [List.filter]. by rewrite Z.eqb_refl, zlen_cons. Qed.

(** * Internet addresses: the text of an address is read back as the address. *)

Ltac zdiv := Z.to_euclidean_division_equations; lia.

(** * IPv4 *)

Lemma is_text_digits_spec s : is_text_digits s = true <-> s <> [] /\ Forall (fun c => is_digit c = true) s.
Proof.
  unfold is_text_digits. rewrite andb_true_iff, negb_true_iff, bool_decide_eq_false, forallb_forall, Forall_forall.
  setoid_rewrite list_elem_of_In. done.
Qed.

Lemma is_text_digits_int s : is_text_digits s = true -> int_of_digits s = Some (digits_value s).
Proof.
  unfold is_text_digits, int_of_digits. rewrite andb_true_iff, negb_true_iff, bool_decide_eq_false. intros [Hne ->].
  by rewrite bool_decide_eq_true_2.
Qed.

Lemma ipv4_octet_text s n : ipv4_octet s = Some n -> str_of_int n = s /\ 0 <= n <= 255 /\ is_text_digits s = true.
Proof.
  unfold ipv4_octet. destruct (is_text_digits s) eqn:Hd; [|done]. cbn [negb orb].
  destruct (3 <? zlen s); [done|]. cbn [orb]. destruct (startswith [48] s && _) eqn:Hz; [done|].
  destruct (255 <? digits_value s) eqn:Hv; [done|]. intros [= <-]. bool_norm.
  pose proof (is_text_digits_int s Hd) as Hi. pose proof Hd as Htext. apply is_text_digits_spec in Hd as [Hne Hd].
  pose proof (digits_value_bounds s 0 Hd ltac:(lia)) as Hlo. split; [|split; [unfold digits_value in *; lia|done]].
  apply (str_of_int_of_digits s _ Hi). destruct s as [|c t]; [done|]. destruct (Z.eq_dec c 48) as [->|Hc]; [|right; by exists c, t].
  left. cbn [startswith] in Hz. rewrite Z.eqb_refl in Hz. cbn [andb] in Hz. by bool_norm.
Qed.

Lemma ipv4_parse_text s l : ipv4_parse s = Some l -> ipv4_text l = s /\ (exists a b c d, l = [a; b; c; d]) /\ Forall (fun n => 0 <= n <= 255) l /\
  Forall (fun p => is_text_digits p = true) (split 46 s) /\ length (split 46 s) = 4%nat.
Proof.
  unfold ipv4_parse. destruct (split 46 s) as [|p1 [|p2 [|p3 [|p4 [|? ?]]]]] eqn:Es; cbn [map]; try (repeat case_match; done).
  destruct (ipv4_octet p1) as [a|] eqn:E1; [|done]. destruct (ipv4_octet p2) as [b|] eqn:E2; [|done].
  destruct (ipv4_octet p3) as [c|] eqn:E3; [|done]. destruct (ipv4_octet p4) as [d|] eqn:E4; [|done]. intros [= <-].
  apply ipv4_octet_text in E1 as (T1 & B1 & D1), E2 as (T2 & B2 & D2), E3 as (T3 & B3 & D3), E4 as (T4 & B4 & D4).
  split; [|split; [by exists a, b, c, d|split; [|split; [|done]]]]; [|repeat (apply List.Forall_cons; [done|]); constructor..].
  unfold ipv4_text. cbn [map]. rewrite T1, T2, T3, T4, <- Es. apply join_split.
Qed.

(** * Hextets *)

Lemma hex_digit_inj_zero n : 0 <= n < 16 -> hex_digit n = 48 -> n = 0.
Proof. unfold hex_digit. destruct (n <? 10) eqn:E; bool_norm; lia. Qed.

Lemma hex_digit_range n : 0 <= n < 16 -> in_cls [(48, 57); (97, 102)] (hex_digit n) = true.
Proof. intros Hn. apply in_hex. unfold hex_digit. destruct (n <? 10) eqn:E; bool_norm; lia. Qed.

(** The digits of a number of sixteen bits. *)
Lemma hex_text_digits n : 0 <= n < 65536 -> exists ds, hex_text n = map hex_digit ds /\ Forall (fun d => 0 <= d < 16) ds /\
  (1 <= length ds <= 4)%nat /\ fold_left (fun a d => 16 * a + d) ds 0 = n /\ (n <> 0 -> exists d r, ds = d :: r /\ d <> 0).
Proof.
  intros Hn. unfold hex_text. destruct (n <? 16) eqn:E1; bool_norm; [|destruct (n <? 256) eqn:E2; bool_norm; [|destruct (n <? 4096) eqn:E3; bool_norm]].
  - exists [n mod 16]. split; [done|]. split; [repeat constructor; apply Z.mod_pos_bound; lia|]. split; [cbn; lia|]. cbn [fold_left]. split; [zdiv|].
    intros ?. eexists _, _. split; [done|]. zdiv.
  - exists [n / 16 mod 16; n mod 16]. split; [done|]. split; [repeat constructor; apply Z.mod_pos_bound; lia|]. split; [cbn; lia|]. cbn [fold_left]. split; [zdiv|].
    intros ?. eexists _, _. split; [done|]. zdiv.
  - exists [n / 256 mod 16; n / 16 mod 16; n mod 16]. split; [done|]. split; [repeat constructor; apply Z.mod_pos_bound; lia|]. split; [cbn; lia|]. cbn [fold_left]. split; [zdiv|].
    intros ?. eexists _, _. split; [done|]. zdiv.
  - exists [n / 4096; n / 256 mod 16; n / 16 mod 16; n mod 16]. split; [done|].
    split; [constructor; [zdiv|]; repeat constructor; apply Z.mod_pos_bound; lia|]. split; [cbn; lia|]. cbn [fold_left]. split; [zdiv|].
    intros ?. eexists _, _. split; [done|]. zdiv.
Qed.

Lemma hextet_text n : 0 <= n < 65536 -> hextet (hex_text n) = Some n.
Proof.
  intros Hn. destruct (hex_text_digits n Hn) as (ds & -> & Hd & Hl & Hv & _). unfold hextet.
  rewrite bool_decide_eq_false_2 by (intros E; apply (f_equal length) in E; rewrite length_map in E; cbn in E; lia).
  unfold zlen. rewrite length_map, (proj2 (Z.ltb_ge _ _)) by lia. cbn [orb]. rewrite <- Hv. clear Hv Hl. generalize 0 as a. induction Hd as [|d ds Hd _ IH]; intros a; [done|].
  cbn [map fold_left]. rewrite hex_value_digit by done. apply IH.
Qed.

Lemma hex_text_cls n : 0 <= n < 65536 -> Forall (fun c => in_cls [(48, 57); (97, 102)] c = true) (hex_text n) /\ hex_text n <> [].
Proof.
  intros Hn. destruct (hex_text_digits n Hn) as (ds & -> & Hd & Hl & _). split; [|by destruct ds; cbn in *; [lia|]].
  rewrite Forall_fmap. eapply Forall_impl; [exact Hd|]. intros d. apply hex_digit_range.
Qed.

Lemma hex_text_zero n : 0 <= n < 65536 -> hex_text n = [48] -> n = 0.
Proof.
  intros Hn. destruct (hex_text_digits n Hn) as (ds & -> & Hd & Hl & Hv & Hz). intros E. destruct (Z.eq_dec n 0) as [|Hne]; [done|].
  destruct (Hz Hne) as (d & r & -> & Hd0). cbn [map] in E. apply Forall_cons in Hd as [Hd _].
  exfalso. apply Hd0, hex_digit_inj_zero; [done|]. congruence.
Qed.

(** * The run of zeros *)

Definition zeros_at (hs : list pystr) (start len : nat) : Prop := (start + len <= length hs)%nat /\ forall i, (start <= i < start + len)%nat -> hs !! i = Some [48].

Lemma zeros_at_snoc hs h start len : zeros_at hs start len -> zeros_at (hs ++ [h]) start len.
Proof.
  intros [Hl Hz]. split; [rewrite length_app; cbn; lia|]. intros i Hi. rewrite lookup_app_l by lia. by apply Hz.
Qed.

Lemma longest_zeros_at hs : zeros_at hs (longest_zeros hs).1 (longest_zeros hs).2.
Proof.
  cut (let ' (index, (start, len), (bs, bl)) := fold_left zero_run hs (O, (None, O), (O, O)) in
       index = length hs /\ zeros_at hs bs bl /\ match start with None => len = O | Some s => (s + len)%nat = length hs /\ zeros_at hs s len end).
  { unfold longest_zeros. destruct (fold_left _ _ _) as [[i [s l]] [bs bl]]. by intros (_ & ? & _). }
  induction hs as [|h hs IH] using rev_ind; [split; [done|]; split; [|done]; split; [cbn; lia|lia]|].
  rewrite fold_left_app. destruct (fold_left zero_run hs _) as [[i [s l]] [bs bl]]. destruct IH as (-> & Hb & Hs). cbn [fold_left zero_run].
  rewrite length_app. cbn [length]. case_bool_decide as Hh.
  - subst h. assert (zeros_at (hs ++ [[48]]) (default (length hs) s) (S l) /\ (default (length hs) s + S l)%nat = (length hs + 1)%nat) as [Hz Heq].
    { destruct s as [s|]; cbn [default from_option id]; [destruct Hs as [Hs Hz]|subst l].
      - split; [|lia]. destruct Hz as [Hl Hz]. split; [rewrite length_app; cbn; lia|]. intros j Hj.
        destruct (decide (j < length hs)%nat); [rewrite lookup_app_l by done; apply Hz; lia|]. replace j with (length hs) by lia. by rewrite list_lookup_middle.
      - split; [|lia]. split; [rewrite length_app; cbn; lia|]. intros j Hj. replace j with (length hs) by lia. by rewrite list_lookup_middle. }
    destruct (bl <? S l)%nat; (split; [lia|]); (split; [first [done|by apply zeros_at_snoc]|done]).
  - split; [lia|]. split; [by apply zeros_at_snoc|done].
Qed.

(** The hextets around the run. *)
Lemma zeros_at_split hs start len : zeros_at hs start len -> hs = take start hs ++ replicate len [48] ++ drop (start + len) hs.
Proof.
  intros [Hl Hz]. rewrite <- (take_drop start hs) at 1. f_equal. rewrite <- (take_drop len (drop start hs)), drop_drop. f_equal.
  apply list_eq. intros i. rewrite lookup_take_Some || idtac. destruct (decide (i < len)%nat) as [Hi|Hi].
  - rewrite lookup_take_lt, lookup_drop, lookup_replicate_2 by lia. apply Hz. lia.
  - rewrite !lookup_ge_None_2; [done|rewrite length_replicate; lia|rewrite length_take; lia].
Qed.

(** * IPv6 *)

Definition filled (parts : list pystr) : Prop := Forall (fun p => p <> []) parts.

Lemma blanks_filled X : forall i Y, filled X -> blanks i (X ++ Y) = blanks (i + length X) Y.
Proof.
  induction X as [|x X IH]; intros i Y HX; [cbn; f_equal; lia|]. apply Forall_cons in HX as [Hx HX].
  cbn [app blanks length]. rewrite bool_decide_eq_false_2 by done. rewrite IH by done. f_equal. lia.
Qed.

Lemma shift_in_nonneg parts : forall a b, 0 <= a -> fold_left shift_in parts (Some a) = Some b -> 0 <= b.
Proof.
  induction parts as [|p parts IH]; intros a b Ha; cbn [fold_left]; [by intros [= <-]|]. cbn [shift_in].
  destruct (hextet p) as [h|] eqn:Eh.
  - apply IH, Z.lor_nonneg. split; [by apply Z.shiftl_nonneg|]. unfold hextet in Eh. destruct (_ || _); [done|].
    assert (forall (s : pystr) acc r, 0 <= acc -> fold_left (fun a c => match a, hex_value c with Some a, Some d => Some (16 * a + d) | _, _ => None end) s (Some acc) = Some r -> 0 <= r) as Hf.
    { clear. induction s as [|c s IH]; intros acc r Ha; cbn [fold_left]; [by intros [= <-]|]. destruct (hex_value c) as [d|] eqn:Ed; [|].
      - apply IH. unfold hex_value in Ed. repeat case_match; simplify_eq; bool_norm; lia.
      - intros E. exfalso. revert E. clear. induction s; [done|done]. }
    by eapply Hf in Eh.
  - intros E. exfalso. revert E. clear. induction parts; [done|done].
Qed.

Lemma shift_in_none parts : fold_left shift_in parts None = None.
Proof. by induction parts. Qed.

Lemma shift_in_zeros k : forall a, fold_left shift_in (replicate k [48]) (Some a) = Some (Z.shiftl a (16 * Z.of_nat k)).
Proof.
  induction k as [|k IH]; intros a; [by rewrite Z.shiftl_0_r|]. cbn [replicate fold_left].
  replace (shift_in (Some a) [48]) with (Some (Z.shiftl a 16)) by (unfold shift_in; change (hextet [48]) with (Some 0); cbn match; by rewrite Z.lor_0_r).
  rewrite IH. f_equal. rewrite Z.shiftl_shiftl by lia. f_equal. lia.
Qed.

(** A gap in the parts stands for the zeros that are missing. *)
Lemma ipv6_gap A B k : filled A -> filled B -> (length A + length B + k = 8)%nat -> (1 <= k)%nat ->
  ipv6_of_parts ((if bool_decide (A = []) then [[]] else A) ++ [[]] ++ (if bool_decide (B = []) then [[]] else B)) =
  fold_left shift_in (A ++ replicate k [48] ++ B) (Some 0).
Proof.
  intros HA HB Hlen Hk. rewrite !fold_left_app.
  assert (match fold_left shift_in A (Some 0) with Some ip => fold_left shift_in B (Some (Z.shiftl ip (16 * Z.of_nat k))) | None => None end =
    fold_left shift_in B (fold_left shift_in (replicate k [48]) (fold_left shift_in A (Some 0)))) as <-.
  { destruct (fold_left shift_in A (Some 0)); [by rewrite shift_in_zeros|by rewrite !shift_in_none]. }
  set (A' := if bool_decide (A = []) then _ else A). set (B' := if bool_decide (B = []) then _ else B).
  assert (exists a A0, A' = a :: A0 /\ filled A0 /\ (a = [] <-> A = []) /\ (A = [] -> A0 = []) /\ (A <> [] -> A = a :: A0)) as (a & A0 & EA & FA0 & Ha & HA0 & EA').
  { subst A'. destruct A as [|a A]; [exists [], []; by repeat split|]. apply Forall_cons in HA as [? ?]. rewrite bool_decide_eq_false_2 by done.
    exists a, A. repeat split; done. }
  assert (exists B0 b, B' = B0 ++ [b] /\ filled B0 /\ (b = [] <-> B = []) /\ (B = [] -> B0 = []) /\ (B <> [] -> B = B0 ++ [b])) as (B0 & b & EB & FB0 & Hb & HB0 & EB').
  { subst B'. destruct B as [|b B _] using rev_ind; [exists [], []; by repeat split|]. apply Forall_app in HB as [? Hb]. apply Forall_cons in Hb as [Hb _].
    rewrite bool_decide_eq_false_2 by (by destruct B). exists B, b. repeat split; try done; by destruct B. }
  clearbody A' B'. subst A' B'.
  assert (length A = if bool_decide (a = []) then O else S (length A0)) as LA.
  { destruct (bool_decide (a = [])) eqn:G; bool_norm; [by rewrite (proj1 Ha G)|]. rewrite (EA' ltac:(naive_solver)). done. }
  assert (length B = if bool_decide (b = []) then O else S (length B0)) as LB.
  { destruct (bool_decide (b = [])) eqn:G; bool_norm; [by rewrite (proj1 Hb G)|]. rewrite (EB' ltac:(naive_solver)), length_app. cbn. lia. }
  assert (a = [] -> length A0 = O) as LA0 by (intros G; by rewrite HA0 by (by apply Ha)).
  assert (b = [] -> length B0 = O) as LB0 by (intros G; by rewrite HB0 by (by apply Hb)).
  unfold ipv6_of_parts. cbn [app tail head length]. rewrite !length_app. cbn [length]. rewrite length_app. cbn [length].
  replace (9 <? S (length A0 + S (length B0 + 1)))%nat with false by (symmetry; apply Nat.ltb_ge; destruct (bool_decide (a = [])) eqn:?, (bool_decide (b = [])) eqn:?; bool_norm; try specialize (LA0 ltac:(done)); try specialize (LB0 ltac:(done)); lia).
  assert (removelast (A0 ++ [] :: B0 ++ [b]) = A0 ++ [] :: B0) as ->.
  { replace (A0 ++ [] :: B0 ++ [b]) with ((A0 ++ [] :: B0) ++ [b]) by (by rewrite <- app_assoc). apply removelast_last. }
  rewrite blanks_filled by done. cbn [blanks]. rewrite bool_decide_eq_true_2 by done. replace (blanks _ B0) with (@nil nat).
  2: { symmetry. rewrite <- (app_nil_r B0). by rewrite blanks_filled. }
  assert (last (a :: A0 ++ [] :: B0 ++ [b]) = Some b) as ->.
  { replace (a :: A0 ++ [] :: B0 ++ [b]) with ((a :: A0 ++ [] :: B0) ++ [b]) by (cbn; by rewrite <- app_assoc). apply last_snoc. }
  assert (bool_decide (Some a = Some []) = bool_decide (a = [])) as -> by (apply bool_decide_ext; naive_solver).
  assert (bool_decide (Some b = Some []) = bool_decide (b = [])) as -> by (apply bool_decide_ext; naive_solver).
  assert ((if bool_decide (a = []) then (1 + length A0 - 1)%nat else (1 + length A0)%nat) = length A) as ->.
  { clear -LA LA0. destruct (bool_decide (a = [])) eqn:G; bool_norm; [rewrite LA0 by done|]; lia. }
  assert ((if bool_decide (b = []) then (S (length A0 + S (length B0 + 1)) - (1 + length A0) - 1 - 1)%nat else (S (length A0 + S (length B0 + 1)) - (1 + length A0) - 1)%nat) = length B) as ->.
  { clear -LB LB0. destruct (bool_decide (b = [])) eqn:G; bool_norm; [rewrite LB0 by done|]; lia. }
  assert ((bool_decide (a = []) && negb (length A =? 0)%nat) || (bool_decide (b = []) && negb (length B =? 0)%nat) || (8 <? length A + length B + 1)%nat = false) as ->.
  { rewrite !orb_false_iff, !andb_false_iff. split; [split|apply Nat.ltb_ge; lia].
    - destruct (bool_decide (a = [])) eqn:G; bool_norm; [right|by left]. by rewrite (proj1 Ha G).
    - destruct (bool_decide (b = [])) eqn:G; bool_norm; [right|by left]. by rewrite (proj1 Hb G). }
  assert (take (length A) (a :: A0 ++ [] :: B0 ++ [b]) = A) as ->.
  { destruct (decide (A = [])) as [->|G]; [done|]. rewrite (EA' G). cbn [length take]. by rewrite take_app_length. }
  assert (drop (S (length A0 + S (length B0 + 1)) - length B) (a :: A0 ++ [] :: B0 ++ [b]) = B) as ->.
  { destruct (decide (B = [])) as [->|G].
    - apply drop_ge. cbn [length]. rewrite !length_app. cbn [length]. rewrite length_app. cbn [length]. lia.
    - rewrite (EB' G). replace (a :: A0 ++ [] :: B0 ++ [b]) with ((a :: A0 ++ [[]]) ++ (B0 ++ [b])) by (cbn; by rewrite <- app_assoc).
      replace (S (length A0 + S (length B0 + 1)) - length (B0 ++ [b]))%nat with (length (a :: A0 ++ [[]])) by (cbn [length]; rewrite !length_app; cbn; lia).
      apply drop_app_length. }
  destruct (fold_left shift_in A (Some 0)); [|done]. do 2 f_equal. f_equal. lia.
Qed.

Lemma take_nil_iff {A} n (l : list A) : (n <= length l)%nat -> take n l = [] <-> n = O.
Proof. intros Hn. split; [|by intros ->]. intros E. apply (f_equal length) in E. rewrite length_take in E. cbn in E. lia. Qed.

(** What is compressed stands for what was. *)
Lemma ipv6_of_compressed hs : length hs = 8%nat -> filled hs -> ipv6_of_parts (compress_hextets hs) = fold_left shift_in hs (Some 0).
Proof.
  intros Hl Hf. unfold compress_hextets. pose proof (longest_zeros_at hs) as Hz. destruct (longest_zeros hs) as [start len]. cbn [fst snd] in Hz.
  pose proof (zeros_at_split hs start len Hz) as Es. destruct Hz as [Hle _].
  destruct (1 <? len)%nat eqn:Hlen; [apply Nat.ltb_lt in Hlen|].
  - transitivity (fold_left shift_in (take start hs ++ replicate len [48] ++ drop (start + len) hs) (Some 0)); [|by rewrite <- Es]. clear Es.
    assert (filled (take start hs)) as FA by (by apply Forall_take). assert (filled (drop (start + len) hs)) as FB by (by apply Forall_drop).
    rewrite <- (ipv6_gap (take start hs) (drop (start + len) hs) len FA FB); [|rewrite length_take, length_drop; lia|lia]. f_equal.
    rewrite (bool_decide_ext (take start hs = []) (start = O)) by (apply take_nil_iff; lia).
    assert (bool_decide (drop (start + len) hs = []) = (start + len =? length hs)%nat) as ->.
    { destruct (start + len =? length hs)%nat eqn:G; [apply Nat.eqb_eq in G; apply bool_decide_eq_true_2, drop_ge; lia|].
      apply Nat.eqb_neq in G. apply bool_decide_eq_false_2. intros E. apply (f_equal length) in E. rewrite length_drop in E. cbn in E. lia. }
    destruct (start + len =? length hs)%nat eqn:G.
    + apply Nat.eqb_eq in G. rewrite take_app_le, drop_app_ge, G, Nat.sub_diag by lia. cbn [drop].
      destruct start; [by rewrite bool_decide_eq_true_2|by rewrite bool_decide_eq_false_2].
    + destruct start; [by rewrite bool_decide_eq_true_2|by rewrite bool_decide_eq_false_2].
  - unfold ipv6_of_parts. rewrite Hl. cbn [Nat.ltb Nat.leb Nat.eqb negb orb].
    destruct hs as [|h0 [|h1 [|h2 [|h3 [|h4 [|h5 [|h6 [|h7 [|? ?]]]]]]]]]; try done. unfold filled in Hf. rewrite !Forall_cons in Hf.
    destruct Hf as (? & ? & ? & ? & ? & ? & ? & ? & _). cbn [tail removelast blanks head last].
    rewrite !bool_decide_eq_false_2 by naive_solver. done.
Qed.

Lemma lor_shift a h : 0 <= h < 65536 -> Z.lor (Z.shiftl a 16) h = a * 65536 + h.
Proof.
  intros Hh. rewrite <- Z.lxor_lor, <- Z.add_nocarry_lxor; [by rewrite Z.shiftl_mul_pow2 by lia| |];
    apply Z.bits_inj'; intros n Hn; rewrite Z.land_spec, Z.shiftl_spec, Z.bits_0 by done;
    (destruct (Z.lt_ge_cases n 16); [by rewrite Z.testbit_neg_r by lia|]);
    replace h with (h mod 2 ^ 16) by (by apply Z.mod_small); by rewrite Z.mod_pow2_bits_high, andb_false_r by lia.
Qed.

Lemma shift_in_text a h : 0 <= h < 65536 -> shift_in (Some a) (hex_text h) = Some (a * 65536 + h).
Proof. intros Hh. unfold shift_in. by rewrite hextet_text, lor_shift. Qed.

Lemma hextet_at ip i : 0 <= i -> Z.land (Z.shiftr ip (16 * i)) 65535 = ip / 65536 ^ i mod 65536.
Proof.
  intros Hi. rewrite Z.shiftr_div_pow2, (Z.land_ones _ 16) by lia. replace (65536 ^ i) with (2 ^ (16 * i)); [done|]. by rewrite Z.pow_mul_r by lia.
Qed.

Lemma hextets_value ip : 0 <= ip < 2 ^ 128 -> fold_left shift_in (hextets ip) (Some 0) = Some ip.
Proof.
  intros Hip. unfold hextets. cbn [map fold_left]. rewrite !hextet_at by lia.
  rewrite !shift_in_text by (apply Z.mod_pos_bound; lia). f_equal. change (2 ^ 128) with 340282366920938463463374607431768211456 in Hip.
  change (65536 ^ 7) with 5192296858534827628530496329220096. change (65536 ^ 6) with 79228162514264337593543950336.
  change (65536 ^ 5) with 1208925819614629174706176. change (65536 ^ 4) with 18446744073709551616. change (65536 ^ 3) with 281474976710656.
  change (65536 ^ 2) with 4294967296. change (65536 ^ 1) with 65536. change (65536 ^ 0) with 1. zdiv.
Qed.

(** The hextets are hexadecimal text. *)
Definition hex_part (p : pystr) : Prop := Forall (fun c => in_cls [(48, 57); (97, 102)] c = true) p.

Lemma hextets_parts ip : Forall (fun p => hex_part p /\ p <> []) (hextets ip) /\ length (hextets ip) = 8%nat.
Proof.
  split; [|done]. apply Forall_fmap, Forall_forall. intros i _. cbn. apply hex_text_cls. rewrite (Z.land_ones _ 16) by lia. apply Z.mod_pos_bound. lia.
Qed.

Lemma hextets_filled ip : filled (hextets ip).
Proof. eapply Forall_impl; [apply hextets_parts|]. by intros p [_ ?]. Qed.

Lemma compress_parts hs : length hs = 8%nat -> Forall hex_part hs -> Forall hex_part (compress_hextets hs) /\ (3 <= length (compress_hextets hs))%nat.
Proof.
  intros Hl Hf. unfold compress_hextets. destruct (longest_zeros_at hs) as [Hle _]. destruct (longest_zeros hs) as [start len]. cbn [fst snd] in Hle.
  assert (hex_part []) as H0 by constructor.
  destruct (1 <? len)%nat eqn:G; [apply Nat.ltb_lt in G|by split; [|lia]].
  assert (Forall hex_part (if (start + len =? length hs)%nat then hs ++ [[]] else hs)) as Hf' by (destruct (_ =? _)%nat; [by apply Forall_app; split; [|constructor]|done]).
  assert (Forall hex_part (take start (if (start + len =? length hs)%nat then hs ++ [[]] else hs) ++ [[]] ++ drop (start + len) (if (start + len =? length hs)%nat then hs ++ [[]] else hs))) as Hp.
  { apply Forall_app; split; [by apply Forall_take|]. apply Forall_app; split; [by constructor|by apply Forall_drop]. }
  split; [destruct (start =? 0)%nat; [by constructor|done]|].
  destruct (start + len =? length hs)%nat eqn:Ge; [apply Nat.eqb_eq in Ge|apply Nat.eqb_neq in Ge];
    (destruct (start =? 0)%nat eqn:Gs; [apply Nat.eqb_eq in Gs|apply Nat.eqb_neq in Gs]); cbn [length];
    rewrite !length_app, length_take, length_drop, ?length_app; cbn [length]; lia.
Qed.

Lemma hex_part_free p c : hex_part p -> in_cls [(48, 57); (97, 102)] c = false -> c ∉ p.
Proof. intros Hp Hc Hin. unfold hex_part in Hp. rewrite Forall_forall in Hp. specialize (Hp _ Hin). cbv beta in Hp. congruence. Qed.

(** The parts of the text of an address. *)
Lemma ipv6_text_parts ip : exists parts, ipv6_text ip = join [58] parts /\ Forall hex_part parts /\ (3 <= length parts)%nat /\
  ipv6_of_parts parts = fold_left shift_in (hextets ip) (Some 0).
Proof.
  exists (compress_hextets (hextets ip)). destruct (hextets_parts ip) as [Hp Hl].
  assert (Forall hex_part (hextets ip)) as Hh by (eapply Forall_impl; [exact Hp|]; by intros p [? _]).
  destruct (compress_parts _ Hl Hh) as [? ?]. split; [done|]. split; [done|]. split; [done|]. apply ipv6_of_compressed; [done|apply hextets_filled].
Qed.

Lemma last_in {A} (d : A) l : l <> [] -> List.last l d ∈ l.
Proof.
  induction l as [|a l IH]; [done|]. intros _. destruct l as [|b l]; [by left|]. right. by apply IH.
Qed.

(** The text of an address is read back as the address. *)
Lemma ipv6_parse_text ip : 0 <= ip < 2 ^ 128 -> ipv6_parse (ipv6_text ip) = Some ip.
Proof.
  intros Hip. destruct (ipv6_text_parts ip) as (parts & -> & Hp & Hl & Hv). unfold ipv6_parse.
  rewrite split_join; [|by destruct parts; cbn in Hl; [lia|]|eapply Forall_impl; [exact Hp|]; intros p Hx; by eapply hex_part_free].
  destruct (length parts <? 3)%nat eqn:G; [apply Nat.ltb_lt in G; lia|].
  rewrite bool_decide_eq_false_2.
  2: { intros E. destruct parts as [|p [|q ?]]; cbn in Hl; [lia|lia|]. cbn [join] in E. by destruct p. }
  cbn [orb]. rewrite bool_decide_eq_false_2.
  - rewrite Hv. by apply hextets_value.
  - eapply hex_part_free; [|done]. rewrite Forall_forall in Hp. apply Hp. apply last_in. by destruct parts; cbn in Hl; [lia|].
Qed.

Lemma hextet_bound p h : hextet p = Some h -> 0 <= h < 65536.
Proof.
  unfold hextet. destruct (bool_decide (p = []) || (4 <? zlen p)) eqn:G; [done|]. bool_norm.
  assert (forall (s : pystr) acc r, 0 <= acc -> fold_left (fun a c => match a, hex_value c with Some a, Some d => Some (16 * a + d) | _, _ => None end) s (Some acc) = Some r ->
    0 <= r < (acc + 1) * 16 ^ zlen s) as Hf.
  { clear. induction s as [|c s IH]; intros acc r Ha; cbn [fold_left]; [intros [= <-]; change (zlen (@nil Z)) with 0; lia|]. destruct (hex_value c) as [d|] eqn:Ed.
    - intros E. assert (0 <= d < 16) as Hd by (unfold hex_value in Ed; repeat case_match; simplify_eq; bool_norm; lia).
      apply IH in E; [|lia]. rewrite zlen_cons, Z.pow_add_r by (pose proof (zlen_nonneg s); lia). change (16 ^ 1) with 16.
      assert (0 < 16 ^ zlen s) by (apply Z.pow_pos_nonneg; [lia|apply zlen_nonneg]). nia.
    - intros E. exfalso. revert E. clear. induction s; done. }
  intros E%Hf; [|lia]. split; [lia|]. assert (16 ^ zlen p <= 16 ^ 4) by (apply Z.pow_le_mono_r; lia). change (16 ^ 4) with 65536 in *. lia.
Qed.

(** Each part adds a hextet below. *)
Lemma shift_in_bound parts : forall a k b, 0 <= a < 65536 ^ Z.of_nat k -> fold_left shift_in parts (Some a) = Some b -> 0 <= b < 65536 ^ Z.of_nat (k + length parts).
Proof.
  induction parts as [|p parts IH]; intros a k b Ha; cbn [fold_left]; [intros [= <-]; by rewrite Nat.add_0_r|].
  cbn [shift_in]. destruct (hextet p) as [h|] eqn:Eh; [|by rewrite shift_in_none]. apply hextet_bound in Eh. rewrite lor_shift by done. intros E.
  cbn [length]. replace (k + S (length parts))%nat with (S k + length parts)%nat by lia. eapply IH; [|exact E].
  rewrite Nat2Z.inj_succ, Z.pow_succ_r by lia. lia.
Qed.

Lemma blanks_some i parts : forall k, k ∈ blanks i parts -> (i <= k < i + length parts)%nat.
Proof.
  revert i. induction parts as [|p parts IH]; intros i k; cbn [blanks length]; [by intros ?%not_elem_of_nil|].
  case_bool_decide; [intros [->|Hk]%elem_of_cons; [lia|]|intros Hk]; apply IH in Hk; lia.
Qed.

Lemma ipv6_of_parts_bound parts ip : ipv6_of_parts parts = Some ip -> 0 <= ip < 2 ^ 128.
Proof.
  change (2 ^ 128) with (65536 ^ Z.of_nat 8). unfold ipv6_of_parts. destruct (9 <? length parts)%nat; [done|].
  destruct (blanks 1 _) as [|skip [|? ?]] eqn:Eb; [|clear Eb|done].
  - destruct (negb (length parts =? 8)%nat || _ || _) eqn:G; [done|]. bool_norm. intros E. 
    pose proof (shift_in_bound parts 0 0 ip ltac:(cbn; lia) E) as Hb. match goal with Hl : (length parts =? 8)%nat = true |- _ => apply Nat.eqb_eq in Hl; by rewrite Hl in Hb end.
  - set (hi := if bool_decide (head parts = Some []) then _ else skip). set (lo := if bool_decide (last parts = Some []) then _ else _).
    destruct (_ || _ || (8 <? hi + lo + 1)%nat) eqn:G; [done|]. apply orb_false_iff in G as [_ G]. apply Nat.ltb_ge in G.
    destruct (fold_left shift_in (take hi parts) (Some 0)) as [a|] eqn:Ea; [|done]. intros E.
    apply (shift_in_bound _ 0 0) in Ea; [|cbn; lia]. 
    assert (0 <= Z.shiftl a (16 * (8 - Z.of_nat hi - Z.of_nat lo)) < 65536 ^ Z.of_nat (8 - lo)) as Ha'.
    { rewrite Z.shiftl_mul_pow2 by lia. rewrite Z.pow_mul_r by lia. change (2 ^ 16) with 65536.
      assert (a < 65536 ^ Z.of_nat hi) as Hlt.
      { eapply Z.lt_le_trans; [apply Ea|]. apply Z.pow_le_mono_r; [lia|]. rewrite length_take. lia. }
      assert (0 < 65536 ^ (8 - Z.of_nat hi - Z.of_nat lo)) by (apply Z.pow_pos_nonneg; lia).
      replace (65536 ^ Z.of_nat (8 - lo)) with (65536 ^ Z.of_nat hi * 65536 ^ (8 - Z.of_nat hi - Z.of_nat lo)) by (rewrite <- Z.pow_add_r by lia; f_equal; lia). nia. }
    apply (shift_in_bound _ _ (8 - lo)) in E; [|exact Ha']. split; [lia|]. eapply Z.lt_le_trans; [apply E|]. apply Z.pow_le_mono_r; [lia|].
    rewrite length_drop. lia.
Qed.

Lemma ipv6_parse_bound s ip : ipv6_parse s = Some ip -> 0 <= ip < 2 ^ 128.
Proof.
  unfold ipv6_parse. destruct (_ || _); [done|]. destruct (bool_decide _); [|apply ipv6_of_parts_bound].
  destruct (ipv4_parse _) as [[|? [|? [|? [|? [|? ?]]]]]|]; try done. apply ipv6_of_parts_bound.
Qed.

(** The text: hexadecimal digits and colons, at least two of them. *)
Lemma ipv6_text_chars ip : Forall (fun c => in_cls [(48, 57); (97, 102)] c = true \/ c = 58) (ipv6_text ip) /\ 58 ∈ ipv6_text ip.
Proof.
  destruct (ipv6_text_parts ip) as (parts & -> & Hp & Hl & _). split.
  - clear Hl. induction Hp as [|p parts Hp Hps IH]; [constructor|]. assert (Forall (fun c => in_cls [(48, 57); (97, 102)] c = true \/ c = 58) p) as Hc.
    { eapply Forall_impl; [exact Hp|]. by left. }
    destruct parts as [|q parts]; [exact Hc|]. change (join [58] (p :: q :: parts)) with (p ++ [58] ++ join [58] (q :: parts)).
    apply Forall_app; split; [done|]. apply Forall_app; split; [|done]. constructor; [by right|constructor].
  - destruct parts as [|p [|q parts]]; cbn in Hl; [lia|lia|]. cbn [join]. apply elem_of_app; right. by left.
Qed.

Lemma ipv6_text_lower ip : lower (ipv6_text ip) = ipv6_text ip.
Proof.
  destruct (ipv6_text_chars ip) as [Hc _]. unfold lower. induction Hc as [|c s Hc _ IH]; [done|]. cbn [map]. f_equal; [|done].
  unfold lower_char. destruct ((65 <=? c) && (c <=? 90)) eqn:G; [|done]. bool_norm. destruct Hc as [Hc|]; [apply in_hex in Hc|]; lia.
Qed.

(** * The canonical texts are fixed points: a registry authority and a reference,
    once accepted, are accepted again and returned unchanged. *)

(** * Lower case *)

Definition lower_closed_cls (l : list (Z * Z)) : bool := forallb (fun c => implb (in_cls l c) (in_cls l (c + 32))) (seqZ 65 26).
Fixpoint lower_closed (r : re) : bool :=
  match r with
  | RVoid | REps => true
  | RCls l => lower_closed_cls l
  | RCat r s | RAlt r s => lower_closed r && lower_closed s
  | RStar r => lower_closed r
  end.

Lemma lang_lower r a : lang r a -> lower_closed r = true -> lang r (lower a).
Proof.
  induction 1 as [|l c Hc|r s a b _ IHa _ IHb|r s a _ IH|r s a _ IH|r|r a b _ IHa _ IHb]; cbn [lower_closed]; intros Hl; bool_norm.
  - constructor.
  - cbn [lower map]. constructor. unfold lower_char. destruct ((65 <=? c) && (c <=? 90)) eqn:G; [|done]. bool_norm.
    unfold lower_closed_cls in Hl. rewrite forallb_forall in Hl. specialize (Hl c). rewrite Hc in Hl. apply Hl.
    apply list_elem_of_In, elem_of_seqZ. lia.
  - unfold lower. rewrite map_app. constructor; auto.
  - apply LAltL. auto.
  - apply LAltR. auto.
  - constructor.
  - unfold lower. rewrite map_app. apply LStarS; auto.
Qed.

Lemma split_lower c s : (c < 65 \/ 90 < c) -> (c < 97 \/ 122 < c) -> split c (lower s) = map lower (split c s).
Proof.
  intros H1 H2. induction s as [|x s IH]; [done|]. cbn [lower map split]. change (map lower_char s) with (lower s). rewrite IH.
  destruct (x =? c) eqn:G; bool_norm.
  - subst x. rewrite (proj2 (lower_char_eq c c H1 H2) eq_refl), Z.eqb_refl. done.
  - rewrite (proj2 (Z.eqb_neq _ _)) by (intros E; apply (lower_char_eq x c H1 H2) in E; congruence). by destruct (split c s).
Qed.

Lemma lower_digits s : is_text_digits (lower s) = true -> is_text_digits s = true.
Proof.
  rewrite !is_text_digits_spec. intros [Hne Hd]. split; [by intros ->|]. unfold lower in Hd. rewrite Forall_fmap in Hd.
  eapply Forall_impl; [exact Hd|]. intros c. cbn. unfold lower_char. destruct ((65 <=? c) && (c <=? 90)) eqn:G; [|done].
  unfold is_digit. intros Hc. bool_norm. lia.
Qed.

(** * Registries *)

Definition host_cls : list (Z * Z) := (45, 45) :: alnum.

Lemma host_label_chars p : fullmatch host_label_re p = true -> Forall (fun c => in_cls host_cls c = true) p /\ p <> [].
Proof.
  intros Hp%fullmatch_spec. split; [by eapply lang_in|]. unfold host_label_re in Hp. apply lang_cat_inv in Hp as (a & b & -> & (c & -> & _)%lang_cls & _). done.
Qed.

Lemma in_cls_cons a l c : in_cls (a :: l) c = true <-> (a.1 <= c <= a.2) \/ in_cls l c = true.
Proof. unfold in_cls. cbn [existsb]. rewrite orb_true_iff, andb_true_iff, !Z.leb_le. done. Qed.

(** The characters of the names separated by [c]. *)
Lemma join_chars (P : Z -> Prop) c l : P c -> Forall (Forall P) l -> Forall P (join [c] l).
Proof.
  intros Hc Hl. induction Hl as [|p l Hp Hl IH]; [constructor|]. destruct l as [|q l]; [done|].
  change (join [c] (p :: q :: l)) with (p ++ [c] ++ join [c] (q :: l)). apply Forall_app; split; [done|]. constructor; done.
Qed.

Lemma split_chars (P : Z -> Prop) c s : P c -> Forall (Forall P) (split c s) -> Forall P s.
Proof. intros Hc Hs. rewrite <- (join_split c s). by apply join_chars. Qed.

(** The canonical hosts. *)
Inductive canonical_host : pystr -> Prop :=
| HostV6 ip : 0 <= ip < 2 ^ 128 -> canonical_host ([91] ++ ipv6_text ip ++ [93])
| HostV4 l h : ipv4_parse h = Some l -> canonical_host h
| HostName h : lower h = h -> forallb is_text_digits (split 46 h) && bool_decide (length (split 46 h) = 4%nat) = false -> zlen h <= 253 ->
    forallb (fullmatch host_label_re) (split 46 h) = true -> canonical_host h.

Definition name_char (c : Z) : Prop := in_cls ((46, 46) :: host_cls) c = true.

Definition plain_host (h : pystr) : Prop := (exists l, ipv4_parse h = Some l) \/
  lower h = h /\ forallb is_text_digits (split 46 h) && bool_decide (length (split 46 h) = 4%nat) = false /\ zlen h <= 253 /\
    forallb (fullmatch host_label_re) (split 46 h) = true.

Lemma plain_host_chars h : plain_host h -> Forall name_char h /\ h <> [].
Proof.
  intros [(l & Hh)|(_ & _ & _ & Hh)].
  - apply ipv4_parse_text in Hh as (_ & _ & _ & Hd & Hl). split; [|by intros ->].
    apply (split_chars _ 46); [done|]. eapply Forall_impl; [exact Hd|]. intros p [_ Hp]%is_text_digits_spec. eapply Forall_impl; [exact Hp|].
    intros c Hc. unfold is_digit in Hc. bool_norm. apply in_cls_cons; right. apply in_cls_cons; right. apply in_cls_cons; left. cbn. lia.
  - rewrite forallb_forall in Hh. assert (Forall (fun p => Forall name_char p /\ p <> []) (split 46 h)) as Hp.
    { apply Forall_forall. intros p Hp. destruct (host_label_chars p) as [Hc Hne]; [apply Hh; by apply list_elem_of_In|]. split; [|done].
      eapply Forall_impl; [exact Hc|]. intros c ?. apply in_cls_cons. by right. }
    split; [apply (split_chars _ 46); [done|]; eapply Forall_impl; [exact Hp|]; by intros p [? _]|].
    intros ->. cbn [split] in Hp. apply Forall_cons in Hp as [[_ ?] _]. done.
Qed.

Lemma host_chars h : canonical_host h -> (exists ip, 0 <= ip < 2 ^ 128 /\ h = [91] ++ ipv6_text ip ++ [93]) \/ plain_host h.
Proof.
  intros [ip ?|l h' ?|h' ? ? ? ?]; [left; by exists ip|right; left; by exists l|right; by right].
Qed.

Lemma name_char_visible c : name_char c -> 33 <= c <= 126.
Proof. by apply in_cls_visible. Qed.

Lemma v6_char_visible c : in_cls [(48, 57); (97, 102)] c = true \/ c = 58 -> 33 <= c <= 126.
Proof. intros [Hc| ->]; [by apply in_cls_visible in Hc|lia]. Qed.

Lemma host_visible h : canonical_host h -> visible h /\ h <> [].
Proof.
  intros [(ip & _ & ->)|[Hc Hne]%plain_host_chars]%host_chars.
  - split; [|done]. apply visible_app; split; [by repeat constructor|]. apply visible_app; split; [|by repeat constructor].
    eapply Forall_impl; [apply ipv6_text_chars|]. apply v6_char_visible.
  - split; [|done]. eapply Forall_impl; [exact Hc|]. apply name_char_visible.
Qed.

(** A character no host has. *)
Lemma host_free h c : canonical_host h -> in_cls ([(46, 46); (58, 58); (91, 91); (93, 93)] ++ host_cls) c = false -> c ∉ h.
Proof.
  intros Hh Hc Hin. assert (in_cls ([(46, 46); (58, 58); (91, 91); (93, 93)] ++ host_cls) c = true) as Ht; [|congruence].
  destruct (host_chars h Hh) as [(ip & _ & ->)|[Hn _]%plain_host_chars].
  - apply elem_of_app in Hin as [Hin|[Hin|Hin]%elem_of_app]; [apply list_elem_of_singleton in Hin as ->; done| |apply list_elem_of_singleton in Hin as ->; done].
    destruct (ipv6_text_chars ip) as [Hx _]. rewrite Forall_forall in Hx. destruct (Hx c Hin) as [Hy| ->]; [|done]. apply in_hex in Hy.
    unfold in_cls. cbn. repeat rewrite orb_true_iff. repeat rewrite andb_true_iff. repeat rewrite Z.leb_le. lia.
  - rewrite Forall_forall in Hn. apply Hn in Hin. unfold name_char in Hin. apply in_cls_cons in Hin as [Hin|Hin].
    + unfold in_cls. cbn in *. rewrite (proj2 (Z.leb_le _ _)), (proj2 (Z.leb_le _ _)) by lia. done.
    + unfold in_cls in *. cbn [app existsb] in *. rewrite Hin. by rewrite !orb_true_r.
Qed.

(** The port of an authority: absent, or a decimal without leading zeros. *)
Definition canonical_port (port : option pystr) : Prop := match port with None => True | Some p => exists n, p = str_of_int n /\ 1 <= n <= 65535 end.
Definition port_suffix (port : option pystr) : pystr := match port with None => [] | Some p => [58] ++ p end.

Lemma port_text n : 1 <= n <= 65535 -> is_text_digits (str_of_int n) = true /\ py_int (str_of_int n) = Ok n.
Proof.
  intros Hn. assert (is_text_digits (str_of_int n) = true) as Hd.
  { apply is_text_digits_spec. rewrite str_of_int_nonneg by lia. split; [apply digits_nonempty|apply digits_digits]; lia. }
  split; [done|]. unfold py_int. rewrite (proj2 (Z.ltb_ge _ _)), int_value_str; [done|lia|].
  rewrite str_of_int_nonneg by lia. unfold zlen. pose proof (length_digits n 5 ltac:(lia) ltac:(lia) ltac:(lia)). lia.
Qed.

Lemma registry_port_Ok port f p : registry_port port f = Ok p -> canonical_port p /\ (is_Some p <-> is_Some port).
Proof.
  unfold registry_port. destruct port as [t|]; [|intros [= <-]; done]. intros E. inv_ok. bool_norm. split; [|done]. by eexists.
Qed.

Lemma registry_port_canonical p f : canonical_port p -> registry_port p f = Ok p.
Proof.
  destruct p as [p|]; [|done]. intros (n & -> & Hn). unfold registry_port. destruct (port_text n Hn) as [-> ->]. cbn [negb result_bind].
  by rewrite !(proj2 (Z.leb_le _ _)) by lia.
Qed.

Lemma suffix_chars p : canonical_port p -> Forall (fun c => is_digit c = true \/ c = 58) (port_suffix p).
Proof.
  destruct p as [p|]; [|constructor]. intros (n & -> & Hn). constructor; [by right|]. destruct (port_text n Hn) as [Hd _].
  apply is_text_digits_spec in Hd as [_ Hd]. eapply Forall_impl; [exact Hd|]. by left.
Qed.

Lemma suffix_digits p : canonical_port (Some p) -> Forall (fun c => is_digit c = true) p /\ p <> [].
Proof. intros (n & -> & Hn). destruct (port_text n Hn) as [Hd _]. apply is_text_digits_spec in Hd as [??]. done. Qed.

(** What [registry_host] returns, against what it was given. *)
Lemma registry_host_Ok a f h p : registry_host a f = Ok (h, p) -> canonical_host h /\
  (startswith [91] a = true /\ startswith [91] h = true \/
   startswith [91] a = false /\ exists host, a = host ++ port_suffix p /\ (58 ∈ a -> is_Some p) /\ (h = lower host \/ h = host /\ length (split 46 host) = 4%nat)).
Proof.
  unfold registry_host. destruct (startswith [91] a) eqn:Hb.
  - destruct (partition 93 a) as [[opened closed] rem] eqn:Ep. intros E. destruct (negb closed); [done|].
    destruct (negb (bool_decide (rem = [])) && _); [done|]. destruct (bool_decide (37 ∈ drop 1 opened)); [done|].
    destruct (ipv6_parse (drop 1 opened)) as [ip|] eqn:Eip; [|done]. apply (inj Ok) in E. apply pair_equal_spec in E as [<- _].
    apply ipv6_parse_bound in Eip. rewrite ipv6_text_lower. split; [by apply HostV6|by left].
  - destruct (1 <? count 58 a) eqn:Hcount; [done|]. bool_norm. intros E.
    destruct (rpartition 58 a) as [[host found] port] eqn:Er.
    assert (exists host' p', (if found then (host, Some port) else (a, None)) = (host', p') /\ a = host' ++ port_suffix p' /\ (58 ∈ a -> is_Some p')) as (host' & p' & Eh & Ea & Hp).
    { destruct found.
      - apply rpartition_found in Er as [-> _]. eexists _, _. split; [done|]. done.
      - apply rpartition_missing in Er. exists a, None. by rewrite app_nil_r. }
    assert ((match (if found then (host, Some port) else (a, None)) with (host, port) =>
      raise with_field f " has an empty host" when bool_decide (host = []) ;;
      if bool_decide (length (split 46 host) = 4%nat) && forallb is_text_digits (split 46 host) then
        match ipv4_parse host with Some octets => Ok (ipv4_text octets, port) | None => Err (with_field f " has an invalid IPv4 host") end
      else raise with_field f " has an invalid hostname" when (253 <? zlen host) || negb (forallb (fullmatch host_label_re) (split 46 host)) ;;
        Ok (lower host, port) end) = Ok (h, p)) as E' by (by destruct found).
    rewrite Eh in E'. clear E Eh Er. destruct (bool_decide (host' = [])); [done|].
    destruct (bool_decide (length (split 46 host') = 4%nat) && forallb is_text_digits (split 46 host')) eqn:G4.
    + destruct (ipv4_parse host') as [l|] eqn:E4; [|done]. apply (inj Ok) in E'. apply pair_equal_spec in E' as [<- <-].
      pose proof (ipv4_parse_text _ _ E4) as (Ht & _). rewrite Ht. split; [by eapply HostV4|]. right. split; [done|]. exists host'. split; [done|]. split; [done|]. right.
      bool_norm. done.
    + destruct ((253 <? zlen host') || _) eqn:Gn; [done|]. bool_norm. apply (inj Ok) in E'. apply pair_equal_spec in E' as [<- <-].
      split; [|right; split; [done|]; exists host'; split; [done|]; split; [done|]; by left].
      assert (split 46 (lower host') = map lower (split 46 host')) as Es by (apply split_lower; lia).
      apply HostName; [apply lower_idem| | |].
      * rewrite Es, length_map, andb_comm. destruct (bool_decide (length (split 46 host') = 4%nat)) eqn:Gl; [|done]. cbn [andb] in *.
        apply not_true_iff_false. intros Hall. apply not_true_iff_false in G4. apply G4. rewrite forallb_forall in *. intros q Hq. apply lower_digits, Hall.
        by apply in_map.
      * unfold lower, zlen in *. by rewrite length_map.
      * match goal with Hl : forallb _ (split 46 host') = true |- _ => rewrite forallb_forall in Hl; rename Hl into Hlab end.
        rewrite Es. apply forallb_forall. intros q Hq. apply in_map_iff in Hq as (q' & <- & Hq'). apply fullmatch_spec, lang_lower; [|done].
        apply fullmatch_spec. by apply Hlab.
Qed.

Lemma digit_free c s : Forall (fun c => is_digit c = true) s -> is_digit c = false -> c ∉ s.
Proof. intros Hs Hc Hin. rewrite Forall_forall in Hs. apply Hs in Hin. cbv beta in Hin. congruence. Qed.

Lemma startswith_91 h : name_char (List.hd 0 h) -> startswith [91] h = false.
Proof. destruct h as [|c h]; [done|]. cbn [List.hd startswith]. intros Hc. destruct (91 =? c) eqn:G; [|done]. bool_norm. by subst c. Qed.

Lemma name_head h s : Forall name_char h -> h <> [] -> startswith [91] (h ++ s) = false.
Proof. intros Hh Hne. destruct h as [|c h]; [done|]. apply Forall_cons in Hh as [Hc _]. cbn [app]. by apply startswith_91. Qed.

(** An authority without brackets: its port is after its only colon. *)
Lemma name_rpartition h p : 58 ∉ h -> canonical_port p ->
  (1 <? count 58 (h ++ port_suffix p)) = false /\
  match rpartition 58 (h ++ port_suffix p) with (host, true, port) => (host, Some port) | _ => (h ++ port_suffix p, None) end = (h, p).
Proof.
  intros Hh Hp. rewrite count_app, (count_free 58 h) by done. destruct p as [p|]; cbn [port_suffix].
  - destruct (suffix_digits p Hp) as [Hd _]. assert (58 ∉ p) as Hfree by (by eapply digit_free). cbn [app].
    rewrite count_cons_self, (count_free 58 p) by done. split; [done|]. by rewrite rpartition_app.
  - split; [done|]. rewrite app_nil_r, partition_rev_free by done. done.
Qed.

Lemma registry_host_v6 ip p f : 0 <= ip < 2 ^ 128 -> canonical_port p ->
  registry_host (([91] ++ ipv6_text ip ++ [93]) ++ port_suffix p) f = Ok ([91] ++ ipv6_text ip ++ [93], p).
Proof.
  intros Hip Hp. pose proof (ipv6_parse_text ip Hip) as Hparse. pose proof (ipv6_text_lower ip) as Hlow. destruct (ipv6_text_chars ip) as [Hc _].
  set (t := ipv6_text ip) in *. unfold registry_host. cbn [app]. cbn [startswith]. rewrite Z.eqb_refl. cbn [andb].
  assert (forall c, in_cls [(48, 57); (97, 102)] c = false -> c <> 58 -> c ∉ t) as Hfree.
  { intros c Hx Hy Hin. rewrite Forall_forall in Hc. destruct (Hc c Hin); congruence. }
  assert (partition 93 (91 :: (t ++ [93]) ++ port_suffix p) = (91 :: t, true, port_suffix p)) as ->.
  { apply partition_found. split; [by rewrite <- app_assoc|]. apply not_elem_of_cons. split; [done|]. by apply Hfree. }
  change (drop 1 (91 :: t)) with t. cbn [negb]. rewrite (bool_decide_eq_false_2 (37 ∈ t)) by (by apply Hfree). rewrite Hparse. fold t. rewrite Hlow.
  destruct p as [p|]; cbn [port_suffix app startswith]; [|done]. change (drop 1 (58 :: p)) with p. rewrite Z.eqb_refl.
  destruct (suffix_digits p Hp) as [_ Hne]. rewrite (bool_decide_eq_false_2 (p = [])) by done. done.
Qed.

Lemma registry_host_canonical h p f : canonical_host h -> canonical_port p -> registry_host (h ++ port_suffix p) f = Ok (h, p).
Proof.
  intros Hh Hp. destruct (host_chars h Hh) as [(ip & Hip & ->)|Hplain]; [by apply registry_host_v6|].
  destruct (plain_host_chars h Hplain) as [Hn Hne]. assert (58 ∉ h) as H58.
  { intros Hin. rewrite Forall_forall in Hn. by apply Hn in Hin. }
  unfold registry_host. rewrite name_head by done. destruct (name_rpartition h p H58 Hp) as [-> Hr]. cbn [negb].
  replace (match rpartition 58 (h ++ port_suffix p) with (host, true, port) => (host, Some port) | (host, false, port) => (h ++ port_suffix p, None) end) with (h, p) by done.
  cbn match. rewrite (bool_decide_eq_false_2 (h = [])) by done. destruct Hplain as [(l & Hl)|(Hlow & H4 & Hlen & Hlab)].
  - rewrite Hl. pose proof (ipv4_parse_text h l Hl) as (-> & _ & _ & Hd & Hlen). rewrite bool_decide_eq_true_2 by done.
    assert (forallb is_text_digits (split 46 h) = true) as ->; [|done]. apply forallb_forall. rewrite Forall_forall in Hd. intros q Hq%list_elem_of_In. by apply Hd.
  - rewrite andb_comm, H4, Hlab, (proj2 (Z.ltb_ge _ _)), Hlow by done. done.
Qed.

(** ** Authorities *)

Lemma registry_authority_Ok v f r : registry_authority v f = Ok r -> exists h p, r = h ++ port_suffix p /\ canonical_host h /\ canonical_port p.
Proof.
  unfold registry_authority. intros (a & Ea & E)%result_bind_Ok. destruct (_ || _ || _ || _); [done|].
  apply result_bind_Ok in E as ([h port] & Eh & E). apply result_bind_Ok in E as (p & Ep & E). apply (inj Ok) in E. exists h, p.
  apply registry_host_Ok in Eh as [? _]. apply registry_port_Ok in Ep as [? _]. subst r.
  split; [|done]. destruct p; [done|]. by rewrite app_nil_r.
Qed.

Lemma authority_visible h p : canonical_host h -> canonical_port p -> visible (h ++ port_suffix p) /\ h ++ port_suffix p <> [].
Proof.
  intros Hh Hp. destruct (host_visible h Hh) as [Hv Hne]. split; [|by destruct h].
  apply visible_app; split; [done|]. eapply Forall_impl; [by apply suffix_chars|]. unfold is_digit. intros c [Hc|]; bool_norm; lia.
Qed.

Lemma authority_free h p c : canonical_host h -> canonical_port p -> in_cls ([(46, 46); (58, 58); (91, 91); (93, 93)] ++ host_cls) c = false -> c ∉ h ++ port_suffix p.
Proof.
  intros Hh Hp Hc [Hin|Hin]%elem_of_app; [by eapply host_free|]. pose proof (suffix_chars p Hp) as Hs. rewrite Forall_forall in Hs.
  destruct (Hs c Hin) as [Hd| ->]; [|done]. unfold is_digit in Hd. bool_norm. revert Hc. unfold in_cls. cbn [app existsb fst snd host_cls alnum].
  rewrite (proj2 (Z.leb_le 48 c)), (proj2 (Z.leb_le c 57)) by lia. cbn [andb orb]. rewrite !orb_true_r. done.
Qed.

Lemma authority_canonical h p f : canonical_host h -> canonical_port p -> registry_authority (VStr (h ++ port_suffix p)) f = Ok (h ++ port_suffix p).
Proof.
  intros Hh Hp. destruct (authority_visible h p Hh Hp) as [Hv Hne]. unfold registry_authority. rewrite plain_text_visible by done. cbn [result_bind].
  rewrite visible_no_space by done. rewrite !bool_decide_eq_false_2 by (by apply authority_free). cbn [orb].
  rewrite registry_host_canonical by done. cbn [result_bind]. rewrite registry_port_canonical by done. cbn [result_bind].
  destruct p; [done|]. by rewrite app_nil_r.
Qed.

(** A registry authority is a fixed point. *)
Lemma registry_authority_idem v f r g : registry_authority v f = Ok r -> registry_authority (VStr r) g = Ok r.
Proof. intros (h & p & -> & ? & ?)%registry_authority_Ok. by apply authority_canonical. Qed.

(** ** Repositories *)

Definition repository_cls : list (Z * Z) := [(45, 46); (48, 57); (95, 95); (97, 122)].

Lemma component_chars p : fullmatch repository_component_re p = true ->
  Forall (fun c => in_cls repository_cls c = true) p /\ exists c r, p = c :: r /\ in_cls low_alnum c = true.
Proof.
  intros Hp%fullmatch_spec. split; [by eapply lang_in|]. unfold repository_component_re in Hp.
  apply lang_cat_inv in Hp as (a & b & -> & Ha & _). unfold plus in Ha. apply lang_cat_inv in Ha as (x & y & -> & (c & -> & Hc)%lang_cls & _).
  by exists c, (y ++ b).
Qed.

Definition components_ok (comps : list pystr) : Prop := comps <> [] /\ Forall (fun p => fullmatch repository_component_re p = true) comps.

Lemma components_chars comps : components_ok comps -> Forall (Forall (fun c => in_cls repository_cls c = true)) comps /\ Forall (fun p => p <> []) comps.
Proof.
  intros [_ Hc]. split; (eapply Forall_impl; [exact Hc|]); intros p Hp; destruct (component_chars p Hp) as [? (c & r & -> & _)]; done.
Qed.

Lemma component_free p c : fullmatch repository_component_re p = true -> in_cls repository_cls c = false -> c ∉ p.
Proof. intros [Hp _]%component_chars Hc Hin. rewrite Forall_forall in Hp. apply Hp in Hin. cbv beta in Hin. congruence. Qed.

Lemma components_split comps : components_ok comps -> split 47 (join [47] comps) = comps.
Proof. intros [Hne Hc]. apply split_join; [done|]. eapply Forall_impl; [exact Hc|]. intros p Hp. by eapply component_free. Qed.

Lemma components_visible comps : components_ok comps -> visible (join [47] comps) /\ join [47] comps <> [].
Proof.
  intros Hok. destruct (components_chars comps Hok) as [Hc Hf]. split.
  - apply (join_chars (fun c => 33 <= c <= 126)); [lia|]. eapply Forall_impl; [exact Hc|]. intros p Hp. eapply Forall_impl; [exact Hp|].
    intros c. by apply in_cls_visible.
  - destruct Hok as [Hne _]. destruct comps as [|p comps]; [done|]. apply Forall_cons in Hf as [Hf _]. destruct comps; [done|]. by destruct p.
Qed.

Lemma components_free comps c : components_ok comps -> c <> 47 -> in_cls repository_cls c = false -> c ∉ join [47] comps.
Proof.
  intros Hok Hne Hc Hin. destruct (components_chars comps Hok) as [Hchars _].
  assert (Forall (fun x => x = 47 \/ in_cls repository_cls x = true) (join [47] comps)) as Hj.
  { apply join_chars; [by left|]. eapply Forall_impl; [exact Hchars|]. intros p Hp. eapply Forall_impl; [exact Hp|]. by right. }
  rewrite Forall_forall in Hj. destruct (Hj c Hin); congruence.
Qed.

Lemma repository_name_Ok v f r : repository_name v f = Ok r -> v = VStr r /\ components_ok (split 47 r).
Proof.
  unfold repository_name. intros (a & Ea & E)%result_bind_Ok. apply plain_text_Ok in Ea as [-> _]. destruct (_ || _); [done|].
  destruct (negb _) eqn:G; [done|]. apply (inj Ok) in E as <-. bool_norm. split; [done|]. split; [by destruct a as [|c a]; cbn; [|destruct (c =? 47), (split 47 a)]|].
  rewrite Forall_forall. rewrite forallb_forall in G. intros p Hp%list_elem_of_In. by apply G.
Qed.

Lemma repository_name_components comps f : components_ok comps -> repository_name (VStr (join [47] comps)) f = Ok (join [47] comps).
Proof.
  intros Hok. destruct (components_visible comps Hok) as [Hv Hne]. unfold repository_name. rewrite plain_text_visible by done. cbn [result_bind].
  rewrite visible_no_space by done. rewrite bool_decide_eq_false_2 by (by apply components_free). cbn [orb]. rewrite components_split by done.
  assert (forallb (fullmatch repository_component_re) comps = true) as ->; [|done]. apply forallb_forall. destruct Hok as [_ Hok].
  rewrite Forall_forall in Hok. intros p Hp%list_elem_of_In. by apply Hok.
Qed.

(** ** References *)

Lemma explicit_kept first rest f reg : is_explicit_registry (first :: rest) = true -> registry_authority (VStr first) f = Ok reg ->
  is_explicit_registry (reg :: rest) = true.
Proof.
  unfold registry_authority. intros He (a & Ea & E)%result_bind_Ok. apply plain_text_Ok in Ea as [Ea _]. assert (a = first) as -> by congruence. clear Ea.
  destruct (_ || _ || _ || _); [done|]. apply result_bind_Ok in E as ([h port] & Eh & E). apply result_bind_Ok in E as (p & Ep & E).
  apply (inj Ok) in E as <-. destruct (registry_port_Ok _ _ _ Ep) as [_ Hp]. destruct (registry_host_Ok _ _ _ _ Eh) as [_ Hrel].
  destruct rest as [|r0 rest]; [done|]. cbn [is_explicit_registry] in *.
  destruct Hrel as [[_ Hb]|(Hb & host & -> & H58 & Hh)].
  { apply startswith_spec in Hb as [x ->]. destruct p; rewrite <- ?app_assoc, startswith_app; by rewrite !orb_true_r. }
  rewrite Hb, orb_false_r in He. apply orb_true_iff in He as [He|He]; [apply orb_true_iff in He as [He|He]|]; bool_norm.
  - assert (port = None) as ->.
    { destruct port as [t|]; [|done]. exfalso. assert (58 ∈ u "localhost") as Hx; [|by apply (bool_decide_pack _) in Hx].
      rewrite <- He. apply elem_of_lower; [lia|lia|]. apply elem_of_app; right. by left. }
    assert (p = None) as -> by (destruct p as [p|]; [|done]; destruct (proj1 Hp (mk_is_Some _ _ eq_refl)) as [? Hx]; discriminate Hx). rewrite app_nil_r in He. destruct Hh as [->|[-> H4]].
    + rewrite lower_idem, bool_decide_eq_true_2 by done. done.
    + rewrite bool_decide_eq_true_2 by done. done.
  - apply elem_of_app in He as [He|He].
    + assert (46 ∈ h) as Hin by (destruct Hh as [->|[-> _]]; [by apply elem_of_lower; [lia|lia|]|done]).
      assert (46 ∈ match p with None => h | Some p => h ++ [58] ++ p end) as Hin' by (destruct p; [apply elem_of_app; by left|done]).
      rewrite (bool_decide_eq_true_2 (46 ∈ _)) by done. by rewrite orb_true_r.
    + exfalso. destruct port as [t|]; [|by apply not_elem_of_nil in He]. cbn [port_suffix app] in He. apply elem_of_cons in He as [He|He]; [done|].
      unfold registry_port in Ep. destruct (negb (is_text_digits t)) eqn:Gd; [done|]. bool_norm. apply is_text_digits_spec in Gd as [_ Gd].
      by eapply digit_free in He.
  - apply H58 in He. apply Hp in He. destruct He as [t Ht]. rewrite Ht. rewrite (bool_decide_eq_true_2 (58 ∈ _)) by (apply elem_of_app; right; by left). by rewrite orb_true_r.
Qed.

(** The names: what [canonical_name] returns. *)
Record named (r : pystr) : Prop := {
  n_visible : visible r;
  n_free c : c = 64 \/ c = 92 -> c ∉ r;
  n_comps : exists comps, r = join [47] comps /\ comps <> [] /\ Forall (fun p => p <> [] /\ 47 ∉ p) comps;
  n_head : exists c s, r = c :: s /\ c ∉ [46; 47; 126];
  n_colon : 58 ∈ r -> exists a b, r = a ++ 47 :: b /\ 58 ∉ b;
  n_fixed : canonical_name r = Ok r;
}.

Lemma join_cons_ne c x l : l <> [] -> join [c] (x :: l) = x ++ c :: join [c] l.
Proof. by destruct l. Qed.

Lemma split_head_filled c s p rest : split c s = p :: rest -> p <> [] -> exists d x y, s = d :: y /\ p = d :: x.
Proof. destruct s as [|d s]; cbn [split]; [intros [= <-]; done|]. destruct (d =? c); [intros [= <- _]; done|]. destruct (split c s); intros [= <- _] _; by eexists _, _, _. Qed.

Lemma plain_host_head h : plain_host h -> exists c s, h = c :: s /\ in_cls alnum c = true.
Proof.
  intros Hh. assert (exists p rest c x, split 46 h = p :: rest /\ p = c :: x /\ in_cls alnum c = true) as (p & rest & c & x & Es & -> & Hc).
  { destruct Hh as [(l & Hh)|(_ & _ & _ & Hh)].
    - apply ipv4_parse_text in Hh as (_ & _ & _ & Hd & Hl). destruct (split 46 h) as [|p rest]; [done|]. apply Forall_cons in Hd as [Hd _].
      apply is_text_digits_spec in Hd as [Hne Hd]. destruct p as [|c x]; [done|]. apply Forall_cons in Hd as [Hd _].
      exists (c :: x), rest, c, x. split; [done|]. split; [done|]. unfold is_digit in Hd. bool_norm. apply in_cls_cons. left. cbn. lia.
    - destruct (split 46 h) as [|p rest] eqn:Es; [by apply split_ne in Es|]. cbn [forallb] in Hh. bool_norm.
      match goal with Hp : fullmatch host_label_re p = true |- _ => apply fullmatch_spec in Hp; apply lang_cat_inv in Hp as (a & b & -> & (c & -> & Hc)%lang_cls & _) end.
      by exists (c :: b), rest, c, b. }
  destruct (split_head_filled _ _ _ _ Es ltac:(done)) as (d & x' & y & -> & E). exists d, y. split; [done|]. congruence.
Qed.

Lemma authority_head h p : canonical_host h -> exists c s, h ++ port_suffix p = c :: s /\ c ∉ [46; 47; 126].
Proof.
  intros Hh. destruct (host_chars h Hh) as [(ip & _ & ->)|(c & s & -> & Hc)%plain_host_head]; cbn [app].
  - eexists _, _. split; [done|]. by apply (bool_decide_unpack _).
  - eexists _, _. split; [done|]. intros Hin. revert Hc. rewrite !elem_of_cons in Hin. by destruct Hin as [->|[->|[->|[]%elem_of_nil]]].
Qed.

Lemma components_head comps : components_ok comps -> exists c s, join [47] comps = c :: s /\ c ∉ [46; 47; 126].
Proof.
  intros [Hne Hc]. destruct comps as [|p comps]; [done|]. apply Forall_cons in Hc as [Hp _]. destruct (component_chars p Hp) as [_ (c & x & -> & Hc)].
  exists c. assert (c ∉ [46; 47; 126]) as Hx.
  { intros Hin. revert Hc. rewrite !elem_of_cons in Hin. by destruct Hin as [->|[->|[->|[]%elem_of_nil]]]. }
  destruct comps; by eexists.
Qed.

Lemma components_parts comps : components_ok comps -> Forall (fun p => p <> [] /\ 47 ∉ p) comps.
Proof.
  intros [_ Hc]. eapply Forall_impl; [exact Hc|]. intros p Hp. split; [destruct (component_chars p Hp) as [_ (c & r & -> & _)]; done|by eapply component_free].
Qed.

Lemma canonical_name_named n r : canonical_name n = Ok r -> named r.
Proof.
  intros E0. pose proof E0 as E. unfold canonical_name in E. destruct (is_explicit_registry (split 47 n)) eqn:Hexp.
  - apply result_bind_Ok in E as (reg & Ereg & E). apply result_bind_Ok in E as (rep & Erep & E). apply (inj Ok) in E as <-.
    destruct (split 47 n) as [|first rest] eqn:Es; [done|]. cbn [List.hd tail] in *.
    assert (rest <> []) as Hrest by (intros ->; done).
    assert (components_ok rest) as Hok.
    { apply repository_name_Ok in Erep as [Ev Hok]. assert (rep = join [47] rest) as -> by congruence.
      rewrite split_join in Hok; [done|done|]. pose proof (split_free_parts 47 n) as Hf. rewrite Es in Hf. by apply Forall_cons in Hf as [_ Hf]. }
    pose proof (explicit_kept _ _ _ _ Hexp Ereg) as Hkept. pose proof (registry_authority_idem _ _ _ (with_field reference_field ".registry") Ereg) as Hidem.
    apply registry_authority_Ok in Ereg as (h & p & Ereg & Hh & Hp). rewrite join_cons_ne by done.
    destruct (authority_visible h p Hh Hp) as [Hv Hvne]. destruct (components_visible rest Hok) as [Hw Hwne].
    assert (47 ∉ reg) as H47 by (rewrite Ereg; by apply authority_free).
    split.
    + apply visible_app; split; [by rewrite Ereg|]. constructor; [lia|done].
    + intros c Hc. rewrite Ereg. intros [Hin|[Hin|Hin]%elem_of_cons]%elem_of_app.
      * revert Hin. apply authority_free; [done|done|]. by destruct Hc as [->| ->].
      * subst c. by destruct Hc.
      * revert Hin. apply components_free; [done| |]; by destruct Hc as [->| ->].
    + exists (reg :: rest). split; [by rewrite join_cons_ne|]. split; [done|]. constructor; [split; [by rewrite Ereg|done]|by apply components_parts].
    + destruct (authority_head h p Hh) as (c & s & Ec & Hc). rewrite Ereg, Ec. by exists c, (s ++ 47 :: join [47] rest).
    + intros _. exists reg, (join [47] rest). split; [done|]. by apply components_free.
    + unfold canonical_name. rewrite split_app by done. rewrite components_split by done. rewrite Hkept. cbn [List.hd tail].
      rewrite Hidem. cbn [result_bind]. rewrite repository_name_components by done. cbn [result_bind]. by rewrite join_cons_ne.
  - apply result_bind_Ok in E as (rep & Erep & E). apply (inj Ok) in E as <-. apply repository_name_Ok in Erep as [Ev Hok].
    assert (rep = n) as -> by (rewrite join_split in Ev; congruence).
    set (comps := split 47 n) in *. assert (n = join [47] comps) as En by (symmetry; apply join_split).
    destruct (components_visible comps Hok) as [Hw Hwne]. split.
    + by rewrite En.
    + intros c Hc. rewrite En. apply components_free; [done| |]; by destruct Hc as [->| ->].
    + exists comps. split; [done|]. split; [apply Hok|by apply components_parts].
    + rewrite En. by apply components_head.
    + intros Hin. exfalso. revert Hin. rewrite En. by apply components_free.
    + done.
Qed.

Lemma canonical_digest_Ok v f d : canonical_digest v f = Ok d -> v = VStr d /\ exists h, d = u "sha256:" ++ h /\ length h = 64%nat /\
  Forall (fun c => in_cls [(48, 57); (97, 102)] c = true) h.
Proof.
  unfold canonical_digest. destruct v; try done. destruct (require_digest s) as [x|] eqn:Er; [|done]. destruct (negb _) eqn:G; [done|]. bool_norm. subst x.
  intros E. apply (inj Ok) in E as <-. split; [done|]. apply normalize_digest_inv in Er as (h & _ & Hl & Hf & ->). exists (lower h). split; [done|].
  split; [unfold lower; by rewrite length_map|by apply lower_hex].
Qed.

Lemma canonical_digest_text h f : length h = 64%nat -> Forall (fun c => in_cls [(48, 57); (97, 102)] c = true) h ->
  canonical_digest (VStr (u "sha256:" ++ h)) f = Ok (u "sha256:" ++ h).
Proof.
  intros Hl Hh. unfold canonical_digest, require_digest. rewrite normalize_digest_ok by (done || by apply hex_any). rewrite lower_lower_hex by done.
  by rewrite bool_decide_eq_true_2.
Qed.

Lemma canonical_digest_again v f g d : canonical_digest v f = Ok d -> canonical_digest (VStr d) g = Ok d.
Proof. intros (_ & h & -> & Hl & Hh)%canonical_digest_Ok. by apply canonical_digest_text. Qed.

(** The suffixes of a reference. *)
Definition tag_suffix (tag : pystr) : Prop := tag = [] \/ exists t, tag = 58 :: t /\ fullmatch tag_re t = true.
Definition digest_suffix (dig : pystr) : Prop := dig = [] \/ exists d, dig = 64 :: d /\ (exists v f, canonical_digest v f = Ok d).

Definition tag_cls : list (Z * Z) := [(45, 46); (95, 95)] ++ alnum.
Lemma tag_chars t : fullmatch tag_re t = true -> Forall (fun c => in_cls tag_cls c = true) t.
Proof. intros Ht%fullmatch_spec. by eapply lang_in. Qed.
Lemma tag_free t c : fullmatch tag_re t = true -> in_cls tag_cls c = false -> c ∉ t.
Proof. intros Ht%tag_chars Hc Hin. rewrite Forall_forall in Ht. apply Ht in Hin. cbv beta in Hin. congruence. Qed.

Lemma digest_chars d v f : canonical_digest v f = Ok d -> Forall (fun c => in_cls ((58, 58) :: low_alnum) c = true) d.
Proof.
  intros (_ & h & -> & _ & Hh)%canonical_digest_Ok. apply Forall_app; split; [by repeat constructor|]. eapply Forall_impl; [exact Hh|].
  intros c Hc%in_hex. unfold in_cls. cbn. repeat rewrite orb_true_iff. repeat rewrite andb_true_iff. repeat rewrite Z.leb_le. lia.
Qed.
Lemma digest_free d v f c : canonical_digest v f = Ok d -> in_cls ((58, 58) :: low_alnum) c = false -> c ∉ d.
Proof. intros Hd%digest_chars Hc Hin. rewrite Forall_forall in Hd. apply Hd in Hin. cbv beta in Hin. congruence. Qed.

Lemma split_tag_Ok s n t : split_tag s = Ok (n, t) -> s = n ++ t /\ tag_suffix t.
Proof.
  unfold split_tag. destruct (rpartition 58 s) as [[a f] b] eqn:Er. destruct f.
  - apply rpartition_found in Er as [-> _]. destruct (bool_decide (47 ∈ b)); [|destruct (negb _) eqn:G; [done|]]; intros E; apply (inj Ok) in E;
      apply pair_equal_spec in E as [<- <-]; [rewrite app_nil_r; split; [done|by left]|]. bool_norm. split; [done|]. right. by exists b.
  - intros E. apply (inj Ok) in E. apply pair_equal_spec in E as [<- <-]. rewrite app_nil_r. split; [done|by left].
Qed.

Lemma split_digest_Ok s n d : split_digest s = Ok (n, d) -> s = n ++ d /\ digest_suffix d.
Proof.
  unfold split_digest. destruct (bool_decide (64 ∈ s)) eqn:G.
  - destruct (negb (count 64 s =? 1)); [done|]. destruct (rpartition 64 s) as [[a f] b] eqn:Er. intros (x & Ex & E)%result_bind_Ok.
    apply (inj Ok) in E. apply pair_equal_spec in E as [<- <-]. destruct f; [|exfalso; apply rpartition_missing in Er; by bool_norm].
    apply rpartition_found in Er as [-> _]. split; [done|]. right. exists b. split; [done|]. exists (VStr b), (with_field reference_field ".digest").
    pose proof (canonical_digest_Ok _ _ _ Ex) as [Eb _]. assert (x = b) as -> by congruence. done.
  - intros E. apply (inj Ok) in E. apply pair_equal_spec in E as [<- <-]. rewrite app_nil_r. split; [done|by left].
Qed.

Lemma split_tag_again n t : named n -> tag_suffix t -> split_tag (n ++ t) = Ok (n, t).
Proof.
  intros Hn [->|(x & -> & Hx)]; unfold split_tag.
  - rewrite app_nil_r. destruct (decide (58 ∈ n)) as [Hin|Hin]; [|by rewrite partition_rev_free].
    destruct (rpartition 58 n) as [[a f] b] eqn:Er. destruct f; [|done]. apply rpartition_found in Er as [Er Hb].
    destruct (n_colon n Hn Hin) as (a' & b' & Ea & Hb'). rewrite bool_decide_eq_true_2; [done|].
    rewrite Ea in Er. clear -Er Hb'. revert a Er. induction a' as [|x a' IH]; intros [|y a] Er; cbn [app] in Er.
    + done.
    + injection Er as <- Er. exfalso. apply Hb'. rewrite Er. apply elem_of_app. right. by left.
    + injection Er as -> <-. apply elem_of_app. right. by left.
    + injection Er as _ Er. by apply (IH a).
  - rewrite rpartition_app by (by eapply tag_free). rewrite bool_decide_eq_false_2 by (by eapply tag_free). by rewrite Hx.
Qed.

Lemma suffix_free c n t : named n -> tag_suffix t -> c = 64 \/ c = 92 -> c ∉ n ++ t.
Proof.
  intros Hn Ht Hc [Hin|Hin]%elem_of_app; [by eapply n_free|]. destruct Ht as [->|(x & -> & Hx)]; [by apply not_elem_of_nil in Hin|].
  apply elem_of_cons in Hin as [->|Hin]; [by destruct Hc|]. revert Hin. eapply tag_free; [done|]. by destruct Hc as [->| ->].
Qed.

Lemma split_digest_again n t d : named n -> tag_suffix t -> digest_suffix d -> split_digest (n ++ t ++ d) = Ok (n ++ t, d).
Proof.
  intros Hn Ht Hd. pose proof (suffix_free 64 n t Hn Ht ltac:(by left)) as Hfree. unfold split_digest. rewrite app_assoc.
  destruct Hd as [->|(x & -> & v & f & Hx)].
  - rewrite app_nil_r. by rewrite bool_decide_eq_false_2.
  - assert (64 ∉ x) as Hx64 by (by eapply digest_free). rewrite bool_decide_eq_true_2 by (apply elem_of_app; right; by left).
    rewrite count_app, count_cons_self, !count_free by done. cbn [Z.add Z.eqb Pos.eqb negb]. rewrite rpartition_app by done.
    rewrite (canonical_digest_again _ _ (with_field reference_field ".digest") _ Hx). done.
Qed.

(** A requested reference is a fixed point. *)
Theorem requested_reference_idem v r : requested_reference v = Ok r -> requested_reference (VStr r) = Ok r.
Proof.
  unfold requested_reference at 1. intros (a & _ & E)%result_bind_Ok. destruct (_ || _ || _); [done|]. destruct (existsb _ _); [done|].
  apply result_bind_Ok in E as ([nt d] & Ed & E). apply result_bind_Ok in E as ([n0 t] & Et & E). destruct (bool_decide (n0 = [])); [done|].
  apply result_bind_Ok in E as (n & En & E). apply (inj Ok) in E as <-. apply canonical_name_named in En as Hn.
  apply split_digest_Ok in Ed as [_ Hd]. apply split_tag_Ok in Et as [_ Ht].
  assert (visible (n ++ t ++ d)) as Hv.
  { apply visible_app; split; [apply Hn|]. apply visible_app; split.
    - destruct Ht as [->|(x & -> & Hx)]; [constructor|]. constructor; [lia|]. eapply Forall_impl; [by apply tag_chars|]. intros c. by apply in_cls_visible.
    - destruct Hd as [->|(x & -> & w & f & Hx)]; [constructor|]. constructor; [lia|]. eapply Forall_impl; [by eapply digest_chars|]. intros c. by apply in_cls_visible. }
  destruct (n_head n Hn) as (c & s & Ec & Hc). assert (n <> []) as Hne by (by rewrite Ec).
  assert (92 ∉ n ++ t ++ d) as H92.
  { rewrite app_assoc. intros [Hin|Hin]%elem_of_app; [by eapply (suffix_free 92 n t Hn Ht (or_intror eq_refl))|].
    destruct Hd as [->|(x & -> & w & f & Hx)]; [by apply not_elem_of_nil in Hin|]. apply elem_of_cons in Hin as [?|Hin]; [done|]. by eapply digest_free in Hin. }
  assert (contains (u "://") (n ++ t ++ d) = false) as Hscheme.
  { apply not_true_iff_false. intros (x & y & Hxy)%contains_spec. destruct (n_comps n Hn) as (comps & Ecomps & Hcne & Hcf).
    assert (47 ∉ t ++ d) as H47.
    { intros [Hin|Hin]%elem_of_app.
      - destruct Ht as [->|(z & -> & Hz)]; [by apply not_elem_of_nil in Hin|]. apply elem_of_cons in Hin as [?|Hin]; [done|]. by eapply tag_free in Hin.
      - destruct Hd as [->|(z & -> & w & f & Hz)]; [by apply not_elem_of_nil in Hin|]. apply elem_of_cons in Hin as [?|Hin]; [done|]. by eapply digest_free in Hin. }
    destruct comps as [|lastp comps _] using rev_ind; [done|]. apply Forall_app in Hcf as [Hcf Hlast]. apply Forall_cons in Hlast as [[Hl1 Hl2] _].
    assert (n ++ t ++ d = join [47] (comps ++ [lastp ++ t ++ d])) as Ejoin.
    { rewrite Ecomps, !join_snoc. destruct comps; [done|]. by rewrite <- app_assoc. }
    assert ([] ∈ split 47 (n ++ t ++ d)) as Hbad.
    { rewrite Hxy. change (u "://") with ([58] ++ 47 :: [47]). replace (x ++ ([58] ++ 47 :: [47]) ++ y) with ((x ++ [58]) ++ 47 :: (47 :: y)) by (by rewrite <- !app_assoc).
      rewrite split_app_gen. apply elem_of_app; right. cbn [split]. rewrite Z.eqb_refl. by left. }
    rewrite Ejoin, split_join in Hbad; [|by destruct comps|].
    - apply elem_of_app in Hbad as [Hb|Hb].
      + rewrite Forall_forall in Hcf. by apply Hcf in Hb as [? _].
      + apply list_elem_of_singleton in Hb. by destruct lastp.
    - apply Forall_app; split; [eapply Forall_impl; [exact Hcf|]; by intros p [_ ?]|]. constructor; [|constructor].
      intros [?|?]%elem_of_app; done. }
  assert (existsb (fun p => startswith p (n ++ t ++ d)) [u "/"; u "./"; u "../"; u "~"] = false) as Hlocal.
  { rewrite Ec. cbn [app existsb]. eval_lits. cbn [startswith]. rewrite !not_elem_of_cons in Hc. destruct Hc as (H1 & H2 & H3 & _).
    rewrite !(proj2 (Z.eqb_neq _ c)) by congruence. done. }
  unfold requested_reference. rewrite plain_text_visible by (done || by destruct n). cbn [result_bind].
  rewrite visible_no_space, Hscheme, Hlocal by done. rewrite bool_decide_eq_false_2 by done. cbn [orb].
  rewrite split_digest_again by done. cbn [result_bind]. rewrite split_tag_again by done. cbn [result_bind].
  rewrite (bool_decide_eq_false_2 (n = [])) by done. rewrite (n_fixed n Hn). done.
Qed.
