(* ===== verification/Provenance.v ===== *)
(** Content provenance of a materialised image ([oci_provenance.py]): descriptors,
    platforms, the pinned source, the layers and what they were converted to, the
    chain identity, and the referrer manifest that publishes them. *)
From S2P Require Import Prelude Crypto PyStr PyText PyVal Utf8 Json Regex Digest Process Names.

(** * Media types and profiles *)

Definition OCI_IMAGE_MANIFEST_MEDIA_TYPE : string := "application/vnd.oci.image.manifest.v1+json".
Definition DOCKER_IMAGE_MANIFEST_MEDIA_TYPE : string := "application/vnd.docker.distribution.manifest.v2+json".
Definition OCI_IMAGE_INDEX_MEDIA_TYPE : string := "application/vnd.oci.image.index.v1+json".
Definition DOCKER_MANIFEST_LIST_MEDIA_TYPE : string := "application/vnd.docker.distribution.manifest.list.v2+json".
Definition OCI_IMAGE_CONFIG_MEDIA_TYPE : string := "application/vnd.oci.image.config.v1+json".
Definition DOCKER_IMAGE_CONFIG_MEDIA_TYPE : string := "application/vnd.docker.container.image.v1+json".
Definition OCI_LAYER_MEDIA_TYPE : string := "application/vnd.oci.image.layer.v1.tar".
Definition OCI_LAYER_GZIP_MEDIA_TYPE : string := "application/vnd.oci.image.layer.v1.tar+gzip".
Definition DOCKER_LAYER_GZIP_MEDIA_TYPE : string := "application/vnd.docker.image.rootfs.diff.tar.gzip".
Definition OCI_EMPTY_CONFIG_MEDIA_TYPE : string := "application/vnd.oci.empty.v1+json".
Definition PROVENANCE_ARTIFACT_TYPE : string := "application/vnd.pieroot.palimpsest.provenance.v1+json".
Definition PROVENANCE_BLOB_MEDIA_TYPE : string := PROVENANCE_ARTIFACT_TYPE.
Definition PROVENANCE_DIGEST_ANNOTATION : string := "dev.pieroot.palimpsest.provenance.digest".
Definition RUNTIME_INDEX_MEDIA_TYPE : string := "application/vnd.pieroot.palimpsest.runtime-index.v1+json".
Definition SQUASHFS_DERIVED_LAYER_MEDIA_TYPE : string := "application/vnd.pieroot.palimpsest.layer.squashfs.v1".
Definition EROFS_DERIVED_LAYER_MEDIA_TYPE : string := "application/vnd.pieroot.palimpsest.layer.erofs.v1".
Definition SQUASHFS_ARTIFACT_BACKEND_ID : string := "dev.pieroot.palimpsest.artifact-backend.squashfs-v1".
Definition EROFS_ARTIFACT_BACKEND_ID : string := "dev.pieroot.palimpsest.artifact-backend.erofs-v1".

(** Membership in a frozen set of literals *)
Definition one_of (s : pystr) (names : list string) : bool := bool_decide (s ∈ map u names).
(** [v == s] for a string [s] *)
Definition eq_str (v : pyval) (s : pystr) : bool := match v with VStr t => bool_decide (t = s) | _ => false end.

Definition SUPPORTED_IMAGE_MANIFEST_MEDIA_TYPES : list string := [OCI_IMAGE_MANIFEST_MEDIA_TYPE; DOCKER_IMAGE_MANIFEST_MEDIA_TYPE].
Definition SUPPORTED_IMAGE_INDEX_MEDIA_TYPES : list string := [OCI_IMAGE_INDEX_MEDIA_TYPE; DOCKER_MANIFEST_LIST_MEDIA_TYPE].
Definition SUPPORTED_IMAGE_CONFIG_MEDIA_TYPES : list string := [OCI_IMAGE_CONFIG_MEDIA_TYPE; DOCKER_IMAGE_CONFIG_MEDIA_TYPE].
Definition SUPPORTED_COMPRESSED_LAYER_MEDIA_TYPES : list string :=
  [OCI_LAYER_MEDIA_TYPE; OCI_LAYER_GZIP_MEDIA_TYPE; DOCKER_LAYER_GZIP_MEDIA_TYPE].

Definition platform_component_re : re := RCat (RCls [(97, 122); (48, 57)]) (RStar (RCls [(97, 122); (48, 57); (95, 95); (45, 46)])).
Definition media_char : list (Z * Z) := alnum ++ [(33, 33); (35, 36); (38, 38); (94, 94); (95, 95); (45, 46); (43, 43)].
Definition media_part_re : re := RCat (RCls alnum) (RStar (RCls media_char)).
Definition media_type_re : re := RCat media_part_re (RCat (chr 47) media_part_re).
Definition converter_re (tool : string) : re :=
  RCat (lit (u tool))
    (RCat (opt (RCat (chr 45) (RCat (RCls low_alnum) (opt (RCat (RStar (RCls ([(45, 46); (95, 95)] ++ low_alnum))) (RCls low_alnum))))))
       (RCat (lit (u "@sha256:")) (rep 64 hex_re))).

(** [_ARTIFACT_PROFILES]: the media type, the backend, the converters. *)
Definition artifact_profile (filesystem : pystr) : option (string * string * re) :=
  if bool_decide (filesystem = u "squashfs") then Some (SQUASHFS_DERIVED_LAYER_MEDIA_TYPE, SQUASHFS_ARTIFACT_BACKEND_ID, converter_re "mksquashfs")
  else if bool_decide (filesystem = u "erofs") then Some (EROFS_DERIVED_LAYER_MEDIA_TYPE, EROFS_ARTIFACT_BACKEND_ID, converter_re "mkfs.erofs")
  else None.

(** [_exact_fields] *)
Definition exact_fields (value : pyval) (expected : list string) (field : string) : result (list (pystr * pyval)) :=
  match value with
  | VDict d => if has_exactly (map u expected) d then Ok d else Err ("invalid fields in " ++ field)%string
  | _ => Err (field ++ " must be an object")%string
  end.

(** * Descriptors *)

Record descriptor := Descriptor { d_media_type : pystr; d_digest : pystr; d_size : Z }.
#[export] Instance descriptor_eq_dec : EqDecision descriptor.
Proof. solve_decision. Defined.

Definition media_error : string := "descriptor.media_type must be a valid nonempty media type".

(** [Descriptor.__post_init__] *)
Definition descriptor_init (media_type digest size : pyval) : result descriptor :=
  let? media := plain_text media_type "descriptor.media_type" in
  let components := split 47 media in
  raise media_error
    when negb (bool_decide (length components = 2%nat)) || existsb (fun c => 127 <? zlen c) components || negb (fullmatch media_type_re media) ;;
  let? digest := canonical_digest digest "descriptor.digest" in
  match size with
  | VInt n =>
      raise "descriptor.size must be an exact integer between 0 and 2**63-1" when negb ((0 <=? n) && (n <=? 2 ^ 63 - 1)) ;;
      Ok (Descriptor (lower media) digest n)
  | _ => Err "descriptor.size must be an exact integer between 0 and 2**63-1"
  end.

Definition descriptor_to_dict (d : descriptor) : pyval :=
  VDict [(u "mediaType", VStr (d_media_type d)); (u "digest", VStr (d_digest d)); (u "size", VInt (d_size d))].

Definition descriptor_from_dict (data : pyval) (field : string) : result descriptor :=
  let? value := exact_fields data ["mediaType"; "digest"; "size"] field in
  descriptor_init (value.["mediaType"]) (value.["digest"]) (value.["size"]).

Definition opt_descriptor (d : option descriptor) : pyval := match d with Some d => descriptor_to_dict d | None => VNone end.

(** [EMPTY_CONFIG_DESCRIPTOR] *)
Definition EMPTY_CONFIG_DESCRIPTOR : descriptor :=
  Descriptor (u OCI_EMPTY_CONFIG_MEDIA_TYPE) (u "sha256:44136fa355b3678a1146ad16f7e8649e94fb4fc21fe77e8310c060f61caaff8a") 2.

(** * Platforms *)

Record platform := Platform {
  p_os : pystr;
  p_architecture : pystr;
  p_variant : option pystr;
  p_os_version : option pystr;
  p_os_features : list pystr;
}.
#[export] Instance platform_eq_dec : EqDecision platform.
Proof. solve_decision. Defined.

Definition platform_component (value : pyval) (field : string) : result pystr :=
  let? component := plain_text value field in
  raise (with_field field " has invalid syntax") when negb (fullmatch platform_component_re component) ;; Ok component.

Definition optional {A} (f : pyval -> result A) (value : pyval) : result (option A) :=
  match value with VNone => Ok None | _ => result_map Some (f value) end.

(** [sorted(set(l))] *)
Definition sorted_set (l : list pystr) : list pystr := sorted (remove_dups l).

(** [Platform.__post_init__] *)
Definition platform_init (os architecture variant os_version : pyval) (os_features : list pyval) : result platform :=
  let? os := platform_component os "platform.os" in
  let? architecture := platform_component architecture "platform.architecture" in
  raise "platform.os must be 'linux' for Phase-1 materialization" when negb (bool_decide (os = u "linux")) ;;
  let? variant := optional (fun v => platform_component v "platform.variant") variant in
  let? os_version := optional (fun v => plain_text v "platform.os_version") os_version in
  let? features := map_result (fun v => plain_text v "platform.os_features item") os_features in
  Ok (Platform os architecture variant os_version (sorted_set features)).

Definition platform_to_dict (p : platform) : pyval :=
  VDict [(u "architecture", VStr (p_architecture p)); (u "os", VStr (p_os p));
         (u "os_features", VList (map VStr (p_os_features p))); (u "os_version", opt_pystr (p_os_version p));
         (u "variant", opt_pystr (p_variant p))].

Definition platform_from_dict (data : pyval) : result platform :=
  let? value := exact_fields data ["architecture"; "os"; "os_features"; "os_version"; "variant"] "source.platform" in
  match value.["os_features"] with
  | VList features => platform_init (value.["os"]) (value.["architecture"]) (value.["variant"]) (value.["os_version"]) features
  | _ => Err "source.platform.os_features must be an array"
  end.

(** * The source *)

Record source := Source {
  s_registry : pystr;
  s_repository : pystr;
  s_requested_reference : pystr;
  s_index : option descriptor;
  s_manifest : descriptor;
  s_config : descriptor;
  s_platform : platform;
}.
#[export] Instance source_eq_dec : EqDecision source.
Proof. solve_decision. Defined.

Definition index_supported (index : option descriptor) : bool :=
  match index with Some d => one_of (d_media_type d) SUPPORTED_IMAGE_INDEX_MEDIA_TYPES | None => true end.

(** [ProvenanceSource.__post_init__] *)
Definition source_init (registry repository reference : pyval) (index : option descriptor) (manifest config : descriptor) (p : platform) : result source :=
  let? registry := registry_authority registry "source.registry" in
  let? repository := repository_name repository "source.repository" in
  let? reference := requested_reference reference in
  raise "source.manifest_descriptor has an unsupported image manifest media type"
    when negb (one_of (d_media_type manifest) SUPPORTED_IMAGE_MANIFEST_MEDIA_TYPES) ;;
  raise "source.config_descriptor has an unsupported image config media type"
    when negb (one_of (d_media_type config) SUPPORTED_IMAGE_CONFIG_MEDIA_TYPES) ;;
  raise "source.index_descriptor has an unsupported image index media type" when negb (index_supported index) ;;
  Ok (Source registry repository reference index manifest config p).

Definition source_to_dict (s : source) : pyval :=
  VDict [(u "config_descriptor", descriptor_to_dict (s_config s)); (u "index_descriptor", opt_descriptor (s_index s));
         (u "manifest_descriptor", descriptor_to_dict (s_manifest s)); (u "platform", platform_to_dict (s_platform s));
         (u "registry", VStr (s_registry s)); (u "repository", VStr (s_repository s));
         (u "requested_reference", VStr (s_requested_reference s))].

Definition source_from_dict (data : pyval) : result source :=
  let? value := exact_fields data
    ["config_descriptor"; "index_descriptor"; "manifest_descriptor"; "platform"; "registry"; "repository"; "requested_reference"] "source" in
  let? index := optional (fun v => descriptor_from_dict v "source.index_descriptor") (value.["index_descriptor"]) in
  let? manifest := descriptor_from_dict (value.["manifest_descriptor"]) "source.manifest_descriptor" in
  let? config := descriptor_from_dict (value.["config_descriptor"]) "source.config_descriptor" in
  let? p := platform_from_dict (value.["platform"]) in
  source_init (value.["registry"]) (value.["repository"]) (value.["requested_reference"]) index manifest config p.

(** * Layers *)

Record occurrence := Occurrence {
  o_ordinal : Z;
  o_compressed : descriptor;
  o_diff_id : pystr;
  o_derived : descriptor;
  o_filesystem : pystr;
  o_backend : pystr;
  o_converter : pystr;
}.
#[export] Instance occurrence_eq_dec : EqDecision occurrence.
Proof. solve_decision. Defined.

(** [LayerOccurrence.__post_init__] *)
Definition occurrence_init (ordinal : pyval) (compressed : descriptor) (diff_id : pyval) (derived : descriptor)
    (filesystem backend converter : pyval) : result occurrence :=
  match ordinal with
  | VInt n =>
      raise "occurrence.ordinal must be a nonnegative integer excluding bool" when n <? 0 ;;
      raise "occurrence.compressed has an unsupported compressed layer media type"
        when negb (one_of (d_media_type compressed) SUPPORTED_COMPRESSED_LAYER_MEDIA_TYPES) ;;
      let? diff_id := canonical_digest diff_id "occurrence.diff_id" in
      match filesystem with
      | VStr fs =>
          match artifact_profile fs with
          | None => Err "occurrence artifact profile has an unsupported filesystem"
          | Some (media_type, expected_backend, pattern) =>
              raise "occurrence artifact profile has a contradictory derived media type" when negb (bool_decide (d_media_type derived = u media_type)) ;;
              raise "occurrence artifact profile has a contradictory backend identifier" when negb (eq_str backend (u expected_backend)) ;;
              match converter with
              | VStr c =>
                  raise "occurrence artifact profile has an incompatible converter fingerprint" when negb (fullmatch pattern c) ;;
                  Ok (Occurrence n compressed diff_id derived fs (u expected_backend) c)
              | _ => Err "occurrence artifact profile has an incompatible converter fingerprint"
              end
          end
      | _ => Err "occurrence artifact profile has an unsupported filesystem"
      end
  | _ => Err "occurrence.ordinal must be a nonnegative integer excluding bool"
  end.

Definition occurrence_to_dict (o : occurrence) : pyval :=
  VDict [(u "backend", VStr (o_backend o)); (u "compressed", descriptor_to_dict (o_compressed o)); (u "converter", VStr (o_converter o));
         (u "derived", descriptor_to_dict (o_derived o)); (u "diff_id", VStr (o_diff_id o)); (u "filesystem", VStr (o_filesystem o));
         (u "ordinal", VInt (o_ordinal o))].

Definition occurrence_from_dict (data : pyval) (index : N) : result occurrence :=
  let field := indexed "occurrences" index in
  let? value := exact_fields data ["backend"; "compressed"; "converter"; "derived"; "diff_id"; "filesystem"; "ordinal"] field in
  let? compressed := descriptor_from_dict (value.["compressed"]) (with_field field ".compressed") in
  let? derived := descriptor_from_dict (value.["derived"]) (with_field field ".derived") in
  occurrence_init (value.["ordinal"]) compressed (value.["diff_id"]) derived (value.["filesystem"]) (value.["backend"]) (value.["converter"]).

Fixpoint occurrences_from (index : N) (items : list pyval) : result (list occurrence) :=
  match items with
  | [] => Ok []
  | item :: items =>
      let? o := occurrence_from_dict item index in
      let? rest := occurrences_from (N.succ index) items in
      Ok (o :: rest)
  end.

Section provenance.
Context `{Hash}.

(** [_sha256] of canonical JSON *)
Definition json_digest (v : pyval) : result pystr := result_map digest_text (canonical_json_bytes v).

(** The value [compute_chain_id] hashes. *)
Definition chain_value (occurrences : list occurrence) : pyval :=
  VDict [(u "domain", VStr (u "palimpsest.oci.chain.v1"));
         (u "occurrences", VList (map (fun o => VList [VInt (o_ordinal o); VStr (d_digest (o_compressed o)); VStr (o_diff_id o); VStr (d_digest (o_derived o))]) occurrences))].

Definition compute_chain_id (occurrences : list occurrence) : result pystr := json_digest (chain_value occurrences).

(** * Provenance *)

Record provenance := Provenance { pr_source : source; pr_occurrences : list occurrence; pr_runtime_index : descriptor; pr_schema_version : Z }.

(** [SourceDerivedProvenance.__post_init__] *)
Definition provenance_init (s : source) (occurrences : list occurrence) (runtime_index : descriptor) (schema_version : pyval) : result provenance :=
  match schema_version with
  | VInt n =>
      raise "unsupported provenance schema_version" when negb (n =? 1) ;;
      raise "occurrence ordinals must be contiguous, zero-based, and ordered" when negb (bool_decide (map o_ordinal occurrences = seqZ 0 (zlen occurrences))) ;;
      raise "runtime_index media type is unsupported" when negb (bool_decide (d_media_type runtime_index = u RUNTIME_INDEX_MEDIA_TYPE)) ;;
      Ok (Provenance s occurrences runtime_index n)
  | _ => Err "unsupported provenance schema_version"
  end.

Definition provenance_to_dict (p : provenance) : result pyval :=
  let? chain_id := compute_chain_id (pr_occurrences p) in
  Ok (VDict [(u "chain_id", VStr chain_id); (u "occurrences", VList (map occurrence_to_dict (pr_occurrences p)));
             (u "runtime_index", descriptor_to_dict (pr_runtime_index p)); (u "schema_version", VInt (pr_schema_version p));
             (u "source", source_to_dict (pr_source p))]).

Definition provenance_to_json_bytes (p : provenance) : result bytes :=
  let? d := provenance_to_dict p in canonical_json_bytes d.

(** [digest]: of the bytes *)
Definition provenance_digest (p : provenance) : result pystr := result_map digest_text (provenance_to_json_bytes p).

Definition provenance_from_dict (data : pyval) : result provenance :=
  let? value := exact_fields data ["chain_id"; "occurrences"; "runtime_index"; "schema_version"; "source"] "provenance" in
  match value.["occurrences"] with
  | VList raw =>
      let? s := source_from_dict (value.["source"]) in
      let? occurrences := occurrences_from 0 raw in
      let? runtime_index := descriptor_from_dict (value.["runtime_index"]) "runtime_index" in
      let? p := provenance_init s occurrences runtime_index (value.["schema_version"]) in
      let? declared := canonical_digest (value.["chain_id"]) "chain_id" in
      let? chain_id := compute_chain_id (pr_occurrences p) in
      raise "chain_id mismatch" when negb (bool_decide (declared = chain_id)) ;;
      Ok p
  | _ => Err "occurrences must be an array"
  end.

(** ** Reading JSON *)

Definition duplicate_error : string := "duplicate JSON object key".
Definition constant_error : string := "non-finite JSON number is forbidden".

(** [_reject_duplicate_pairs] *)
Fixpoint reject_duplicates (seen pairs : list (pystr * pyval)) : result (list (pystr * pyval)) :=
  match pairs with
  | [] => Ok seen
  | (key, value) :: pairs =>
      raise duplicate_error when bool_decide (key ∈ dict_keys seen) ;; reject_duplicates (seen ++ [(key, value)]) pairs
  end.

Definition strict_hooks : json_hooks := JsonHooks (reject_duplicates []) (fun _ => Err constant_error).

(** [_load_strict_json] *)
Definition load_strict_json (payload : bytes) (field : string) : result pyval :=
  match utf8_decode payload with
  | None => Err (with_field field " JSON must be UTF-8")
  | Some text =>
      match loads_with strict_hooks text with
      | Ok v => Ok v
      | Err e => if String.eqb e duplicate_error || String.eqb e constant_error then Err e else Err (with_field field " JSON is invalid")
      end
  end.

(** [SourceDerivedProvenance.from_json_bytes], [parse_provenance] *)
Definition parse_provenance (payload : bytes) : result provenance :=
  let? data := load_strict_json payload "provenance" in
  let? p := provenance_from_dict data in
  let? b := provenance_to_json_bytes p in
  raise "provenance JSON must use the canonical UTF-8 encoding" when negb (bool_decide (payload = b)) ;;
  Ok p.

(** * The referrer manifest *)

Record referrer := Referrer { r_subject : descriptor; r_blob : descriptor; r_annotations : list (pystr * pystr) }.

(** The loop over the annotations: no key twice, keys in order. *)
Fixpoint annotations_ordered (seen : list pystr) (previous : option pystr) (items : list (pystr * pystr)) : result unit :=
  match items with
  | [] => Ok tt
  | (key, _) :: items =>
      raise "duplicate referrer annotation" when bool_decide (key ∈ seen) ;;
      raise "referrer annotations must be sorted by key"
        when match previous with Some p => str_leb key p && negb (bool_decide (key = p)) | None => false end ;;
      annotations_ordered (key :: seen) (Some key) items
  end.

(** [ProvenanceReferrerManifest.__post_init__] *)
Definition referrer_init (subject blob : descriptor) (annotations : list (pystr * pystr)) : result referrer :=
  raise "referrer subject has an unsupported image manifest media type"
    when negb (one_of (d_media_type subject) SUPPORTED_IMAGE_MANIFEST_MEDIA_TYPES) ;;
  raise "referrer provenance blob has the wrong media type" when negb (bool_decide (d_media_type blob = u PROVENANCE_BLOB_MEDIA_TYPE)) ;;
  let? _ := annotations_ordered [] None annotations in
  Ok (Referrer subject blob annotations).

Definition annotation_values (annotations : list (pystr * pystr)) : list (pystr * pyval) := map (fun kv => (kv.1, VStr kv.2)) annotations.

Definition referrer_to_dict (r : referrer) : pyval :=
  VDict ([(u "artifactType", VStr (u PROVENANCE_ARTIFACT_TYPE)); (u "config", descriptor_to_dict EMPTY_CONFIG_DESCRIPTOR);
          (u "layers", VList [descriptor_to_dict (r_blob r)]); (u "mediaType", VStr (u OCI_IMAGE_MANIFEST_MEDIA_TYPE));
          (u "schemaVersion", VInt 2); (u "subject", descriptor_to_dict (r_subject r))] ++
         match r_annotations r with [] => [] | _ => [(u "annotations", VDict (annotation_values (r_annotations r)))] end).

Definition referrer_to_json_bytes (r : referrer) : result bytes := canonical_json_bytes (referrer_to_dict r).

Definition annotation_entry (kv : pystr * pyval) : result (pystr * pystr) :=
  match kv.2 with VStr s => Ok (kv.1, s) | _ => Err "referrer annotation keys and values must be JSON strings" end.

(** [sorted] of pairs with distinct keys *)
Definition item_le (a b : pystr * pystr) : Prop := str_le a.1 b.1.
#[export] Instance item_le_dec a b : Decision (item_le a b).
Proof. unfold item_le, str_le. apply _. Defined.
Definition sorted_items (l : list (pystr * pystr)) : list (pystr * pystr) := merge_sort item_le l.

(** [_consumer_annotation_items] *)
Definition consumer_annotation_items (annotations : option (list (pystr * pyval))) : result (list (pystr * pystr)) :=
  match annotations with None => Ok [] | Some d => result_map sorted_items (map_result annotation_entry d) end.

Definition STANDARD_ANNOTATION_WHITELIST : list string :=
  map (fun s => "org.opencontainers.image." ++ s)%string
    ["created"; "authors"; "url"; "documentation"; "source"; "version"; "revision"; "vendor"; "licenses"; "ref.name"; "title";
     "description"; "base.digest"; "base.name"]%string.

(** [_producer_annotation_items] *)
Definition producer_annotation_items (annotations : option (list (pystr * pyval))) : result (list (pystr * pystr)) :=
  let? items := consumer_annotation_items annotations in
  raise "referrer annotation key uses a reserved OCI namespace"
    when existsb (fun kv => negb (one_of kv.1 STANDARD_ANNOTATION_WHITELIST) && startswith (u "org.opencontainers.") kv.1) items ;;
  Ok items.

(** [build_provenance_referrer_manifest] *)
Definition build_referrer (p : provenance) (include_digest : bool) (annotations : option (list (pystr * pyval))) : result bytes :=
  let? merged := producer_annotation_items annotations in
  let? digest := provenance_digest p in
  raise "provenance digest annotation conflicts with the provenance blob"
    when match item_get merged (u PROVENANCE_DIGEST_ANNOTATION) with Some d => negb (bool_decide (d = digest)) | None => false end ;;
  let merged := if include_digest then item_set merged (u PROVENANCE_DIGEST_ANNOTATION) digest else merged in
  let? payload := provenance_to_json_bytes p in
  let? blob := descriptor_init (VStr (u PROVENANCE_BLOB_MEDIA_TYPE)) (VStr digest) (VInt (zlen payload)) in
  let? r := referrer_init (s_manifest (pr_source p)) blob (sorted_items merged) in
  referrer_to_json_bytes r.

(** [base_fields.issubset(actual) and actual.issubset(allowed)] *)
Definition referrer_fields (d : list (pystr * pyval)) : bool :=
  let base := map u ["artifactType"; "config"; "layers"; "mediaType"; "schemaVersion"; "subject"] in
  forallb (fun k => bool_decide (k ∈ dict_keys d)) base && forallb (fun k => bool_decide (k ∈ u "annotations" :: base)) (dict_keys d).

(** [parse_provenance_referrer_manifest] *)
Definition parse_referrer (manifest_payload provenance_payload : bytes) (expected_subject : option descriptor) : result referrer :=
  let? p := parse_provenance provenance_payload in
  let subject := default (s_manifest (pr_source p)) expected_subject in
  let? data := load_strict_json manifest_payload "referrer manifest" in
  match data with
  | VDict d =>
      raise "invalid fields in referrer manifest" when negb (referrer_fields d) ;;
      raise "referrer manifest schemaVersion must be 2" when match d.["schemaVersion"] with VInt n => negb (n =? 2) | _ => true end ;;
      raise "referrer manifest has the wrong mediaType" when negb (eq_str (d.["mediaType"]) (u OCI_IMAGE_MANIFEST_MEDIA_TYPE)) ;;
      raise "referrer manifest has the wrong artifactType" when negb (eq_str (d.["artifactType"]) (u PROVENANCE_ARTIFACT_TYPE)) ;;
      let? config := descriptor_from_dict (d.["config"]) "referrer config" in
      raise "referrer config must be the exact OCI empty JSON descriptor" when negb (bool_decide (config = EMPTY_CONFIG_DESCRIPTOR)) ;;
      match d.["layers"] with
      | VList [layer] =>
          let? blob := descriptor_from_dict layer "referrer layers[0]" in
          let? expected := descriptor_init (VStr (u PROVENANCE_BLOB_MEDIA_TYPE)) (VStr (digest_text provenance_payload)) (VInt (zlen provenance_payload)) in
          raise "referrer provenance descriptor does not match the exact provenance bytes" when negb (bool_decide (blob = expected)) ;;
          let? parsed := descriptor_from_dict (d.["subject"]) "referrer subject" in
          raise "referrer subject does not exactly match the selected platform manifest"
            when negb (bool_decide (parsed = subject)) || negb (bool_decide (parsed = s_manifest (pr_source p))) ;;
          match default (VDict []) (dict_get d (u "annotations")) with
          | VDict raw =>
              let? items := consumer_annotation_items (Some raw) in
              let? digest := provenance_digest p in
              raise "referrer provenance digest annotation is incorrect"
                when match raw.[PROVENANCE_DIGEST_ANNOTATION] with VNone => false | v => negb (eq_str v digest) end ;;
              let? r := referrer_init parsed blob items in
              let? b := referrer_to_json_bytes r in
              raise "referrer manifest JSON must use the canonical UTF-8 encoding" when negb (bool_decide (manifest_payload = b)) ;;
              Ok r
          | _ => Err "referrer annotations must be an object"
          end
      | _ => Err "referrer manifest must contain exactly one provenance layer"
      end
  | _ => Err "referrer manifest must be an object"
  end.
End provenance.
