(* ===== verification/ProvenanceFacts.v ===== *)
(** The values of [Provenance.v] are fixed points of their constructors, can be
    written as JSON, and are read back from what they write. *)
From S2P Require Import Prelude Crypto PyStr PyText PyVal Utf8 Json Regex Digest Process Names NamesFacts Provenance.

(** * Objects of the classes: what some call of the constructor returned *)

Definition built_descriptor (d : descriptor) : Prop := exists media digest size, descriptor_init media digest size = Ok d.
Definition built_platform (p : platform) : Prop :=
  exists os architecture variant os_version features, platform_init os architecture variant os_version features = Ok p.
Definition built_source (s : source) : Prop :=
  exists registry repository reference index manifest config p,
    source_init registry repository reference index manifest config p = Ok s /\
    (forall d, index = Some d -> built_descriptor d) /\ built_descriptor manifest /\ built_descriptor config /\ built_platform p.
Definition built_occurrence (o : occurrence) : Prop :=
  exists ordinal compressed diff_id derived filesystem backend converter,
    occurrence_init ordinal compressed diff_id derived filesystem backend converter = Ok o /\
    built_descriptor compressed /\ built_descriptor derived.
Definition built_provenance (p : provenance) : Prop :=
  exists s occurrences runtime_index version, provenance_init s occurrences runtime_index version = Ok p /\
    built_source s /\ Forall built_occurrence occurrences /\ built_descriptor runtime_index.

(** * Text *)

Definition nonneg (s : pystr) : Prop := Forall (Z.le 0) s.

Lemma plain_text_nonneg v field s : plain_text v field = Ok s -> nonneg s.
Proof.
  unfold plain_text. destruct v as [| | | |t| | |]; try done. destruct (_ || _); [done|]. destruct (existsb _ _) eqn:G; [done|]. intros E.
  apply (inj Ok) in E as <-. apply Forall_forall. intros c Hc%list_elem_of_In. destruct (decide (0 <= c)) as [|Hn]; [done|].
  exfalso. rewrite <- not_true_iff_false in G. apply G, existsb_exists. exists c. split; [done|]. apply orb_true_iff; left. apply Z.ltb_lt. lia.
Qed.

Lemma plain_text_again v field g s : plain_text v field = Ok s -> plain_text (VStr s) g = Ok s.
Proof.
  intros E. destruct (plain_text_Ok _ _ _ E) as [-> _]. revert E. unfold plain_text. destruct (_ || _); [done|]. by destruct (existsb _ _).
Qed.

Lemma visible_nonneg s : visible s -> nonneg s.
Proof. intros Hs. eapply Forall_impl; [exact Hs|]. cbn. lia. Qed.

Lemma canonical_digest_nonneg v f d : canonical_digest v f = Ok d -> nonneg d.
Proof.
  intros Hd%digest_chars. eapply Forall_impl; [exact Hd|]. intros c Hc. apply (in_cls_visible _ c) in Hc; [cbv beta; lia|done].
Qed.

Lemma digest_text_nonneg `{Hash} m : nonneg (digest_text m).
Proof. unfold digest_text. apply Forall_app; split; [apply u_nonneg|]. eapply Forall_impl; [apply (hex_in_hex _ (sha256_bytes m))|]. intros c Hc%in_hex. lia. Qed.

Lemma canonical_digest_digest `{Hash} m f : canonical_digest (VStr (digest_text m)) f = Ok (digest_text m).
Proof. unfold canonical_digest, require_digest. rewrite normalize_digest_text. by rewrite bool_decide_eq_true_2. Qed.

(** * Descriptors *)

Definition descriptor_fixed (d : descriptor) : Prop := descriptor_init (VStr (d_media_type d)) (VStr (d_digest d)) (VInt (d_size d)) = Ok d.

Lemma zlen_lower s : zlen (lower s) = zlen s.
Proof. unfold zlen, lower. by rewrite length_map. Qed.

Lemma media_type_lower m : fullmatch media_type_re m = true -> fullmatch media_type_re (lower m) = true.
Proof. rewrite !fullmatch_spec. intros Hm. by apply lang_lower. Qed.

Lemma media_type_visible m : fullmatch media_type_re m = true -> visible m /\ m <> [].
Proof.
  intros Hm. split; [apply (fullmatch_visible media_type_re); [by vm_compute|done]|]. intros ->. by vm_compute in Hm.
Qed.

Lemma descriptor_init_fixed m dg s d : descriptor_init m dg s = Ok d -> descriptor_fixed d.
Proof.
  unfold descriptor_init. intros (t & Et & E)%result_bind_Ok. destruct (_ || _ || _) eqn:G; [done|].
  apply result_bind_Ok in E as (h & Eh & E). destruct s as [| |n| | | | |]; try done. destruct (negb ((0 <=? n) && _)) eqn:Gn; [done|]. apply (inj Ok) in E as <-.
  unfold descriptor_fixed, descriptor_init. cbn [d_media_type d_digest d_size]. bool_norm.
  match goal with Hm : fullmatch _ t = true |- _ => pose proof (media_type_lower t Hm) as Hl end.
  destruct (media_type_visible _ Hl) as [Hv Hne]. rewrite plain_text_visible by done. cbn [result_bind].
  rewrite split_lower by lia. rewrite length_map. rewrite bool_decide_eq_true_2 by done. cbn [negb orb].
  assert (existsb (fun c => 127 <? zlen c) (map lower (split 47 t)) = false) as ->.
  { match goal with Hx : existsb _ _ = false |- _ => rewrite <- Hx end. generalize (split 47 t) as l. intros l.
    induction l as [|a l IH]; [done|]. cbn [map existsb]. by rewrite zlen_lower, IH. }
  rewrite Hl. cbn [negb orb]. rewrite (canonical_digest_again _ _ _ _ Eh). cbn [result_bind].
  rewrite lower_idem. by rewrite !(proj2 (Z.leb_le _ _)) by lia.
Qed.

Lemma built_descriptor_iff d : built_descriptor d <-> descriptor_fixed d.
Proof. split; [intros (m & dg & s & E); by eapply descriptor_init_fixed|intros E; by eexists _, _, _]. Qed.

Lemma descriptor_from_dict_built v f d : descriptor_from_dict v f = Ok d -> built_descriptor d.
Proof. unfold descriptor_from_dict. intros (x & _ & E)%result_bind_Ok. by eexists _, _, _. Qed.

Lemma descriptor_chars d : descriptor_fixed d -> nonneg (d_media_type d) /\ nonneg (d_digest d) /\ 0 <= d_size d <= 2 ^ 63 - 1.
Proof.
  unfold descriptor_fixed, descriptor_init. intros (t & Et & E)%result_bind_Ok. destruct (_ || _ || _) eqn:G; [done|].
  apply result_bind_Ok in E as (h & Eh & E). destruct (negb ((0 <=? d_size d) && _)) eqn:Gn; [done|]. clear E. bool_norm.
  split; [by eapply plain_text_nonneg; destruct (plain_text_Ok _ _ _ Et) as [[= <-] _]|].
  split; [|lia]. destruct (canonical_digest_Ok _ _ _ Eh) as [Hv _]. assert (d_digest d = h) as -> by congruence. by eapply canonical_digest_nonneg.
Qed.

(** [_exact_fields] as [exact] reads a mapping, and on the JSON read back. *)
Lemma exact_fields_canon d fields f : has_exactly (map u fields) d = true ->
  exact_fields (canon (VDict d)) fields f = Ok (sort_items (canon_items d)).
Proof. intros Hd. cbn [canon exact_fields]. fold (canon_items d). by rewrite has_exactly_canon, Hd. Qed.

Ltac read_fields :=
  rewrite exact_fields_canon by reflexivity; cbn [result_bind];
  repeat (rewrite dict_get_none_canon by (apply NoDup_decide; reflexivity));
  repeat (rewrite dict_get_none_u; cbn [String.eqb Ascii.eqb Bool.eqb]).

Lemma descriptor_read d f : descriptor_fixed d -> descriptor_from_dict (canon (descriptor_to_dict d)) f = Ok d.
Proof. intros Hd. unfold descriptor_from_dict, descriptor_to_dict. read_fields. exact Hd. Qed.

Lemma descriptor_json d : descriptor_fixed d -> jsonable (descriptor_to_dict d).
Proof. intros (? & ? & _)%descriptor_chars. unfold descriptor_to_dict. jsonable_dict; by constructor. Qed.

(** * Platforms *)

Definition platform_fixed (p : platform) : Prop :=
  platform_init (VStr (p_os p)) (VStr (p_architecture p)) (opt_pystr (p_variant p)) (opt_pystr (p_os_version p)) (map VStr (p_os_features p)) = Ok p.

Lemma platform_component_again v f g c : platform_component v f = Ok c -> platform_component (VStr c) g = Ok c /\ nonneg c.
Proof.
  unfold platform_component. intros (t & Et & E)%result_bind_Ok. destruct (negb _) eqn:G; [done|]. apply (inj Ok) in E as <-.
  rewrite (plain_text_again _ _ _ _ Et). cbn [result_bind]. rewrite G. split; [done|by eapply plain_text_nonneg].
Qed.

Lemma optional_again (f : pyval -> result pystr) v o : (forall v s, f v = Ok s -> f (VStr s) = Ok s /\ nonneg s) ->
  optional f v = Ok o -> optional f (opt_pystr o) = Ok o /\ (forall s, o = Some s -> nonneg s).
Proof.
  intros Hf. destruct o as [s|]; cbn [opt_pystr]; [|by destruct v].
  assert (forall v, result_map Some (f v) = Ok (Some s) -> f v = Ok s) as Hmap.
  { intros w. unfold result_map. intros (x & Ex & E)%result_bind_Ok. congruence. }
  intros E. assert (f v = Ok s) as Hs by (destruct v; try done; by apply Hmap). destruct (Hf v s Hs) as [Ha Hn].
  cbn [optional]. rewrite Ha. split; [done|]. by intros ? [= <-].
Qed.

Lemma remove_dups_sorted_set l : sorted_set (sorted_set l) = sorted_set l.
Proof.
  unfold sorted_set. apply sorted_unique. apply NoDup_Permutation; [apply NoDup_remove_dups|apply NoDup_remove_dups|].
  intros x. rewrite !elem_of_remove_dups. by rewrite (sorted_permutation (remove_dups l)), elem_of_remove_dups.
Qed.

Lemma elem_of_sorted_set x l : x ∈ sorted_set l <-> x ∈ l.
Proof. unfold sorted_set. by rewrite sorted_permutation, elem_of_remove_dups. Qed.

Lemma features_Ok vs l f : map_result (fun v => plain_text v f) vs = Ok l -> Forall (fun s => plain_text (VStr s) f = Ok s /\ nonneg s) l.
Proof.
  rewrite map_result_Ok. induction 1 as [|v s vs l Hs _ IH]; [constructor|]. constructor; [|done].
  split; [by eapply plain_text_again|by eapply plain_text_nonneg].
Qed.

Lemma features_again l f : Forall (fun s => plain_text (VStr s) f = Ok s) l -> map_result (fun v => plain_text v f) (map VStr l) = Ok l.
Proof. intros Hl. apply map_result_Ok. induction Hl; by constructor. Qed.

Lemma platform_init_fixed os a v ov fs p : platform_init os a v ov fs = Ok p -> platform_fixed p /\
  nonneg (p_os p) /\ nonneg (p_architecture p) /\ (forall s, p_variant p = Some s -> nonneg s) /\ (forall s, p_os_version p = Some s -> nonneg s) /\
  Forall nonneg (p_os_features p).
Proof.
  unfold platform_init. intros (os' & Eos & E)%result_bind_Ok. apply result_bind_Ok in E as (a' & Ea & E). destruct (negb _) eqn:G; [done|].
  apply result_bind_Ok in E as (v' & Ev & E). apply result_bind_Ok in E as (ov' & Eov & E). apply result_bind_Ok in E as (l & El & E).
  apply (inj Ok) in E as <-. cbn [p_os p_architecture p_variant p_os_version p_os_features].
  destruct (platform_component_again _ _ "platform.os" _ Eos) as [Hos Nos], (platform_component_again _ _ "platform.architecture" _ Ea) as [Ha Na].
  destruct (optional_again _ _ _ (fun v s => platform_component_again v _ "platform.variant" s) Ev) as [Hv Nv].
  destruct (optional_again _ _ _ (fun v s H => conj (plain_text_again v _ _ s H) (plain_text_nonneg v _ s H)) Eov) as [Hov Nov].
  apply features_Ok in El. rewrite Forall_and in El. destruct El as [El Nl].
  assert (Forall (fun s => plain_text (VStr s) "platform.os_features item" = Ok s) (sorted_set l)) as Hl.
  { rewrite Forall_forall in *. intros x. rewrite elem_of_sorted_set. apply El. }
  split; [|repeat split; try done; rewrite Forall_forall in *; intros x; rewrite elem_of_sorted_set; apply Nl].
  unfold platform_fixed, platform_init. cbn [p_os p_architecture p_variant p_os_version p_os_features].
  rewrite Hos, Ha. cbn [result_bind]. rewrite G, Hv. cbn [result_bind]. rewrite Hov. cbn [result_bind]. rewrite features_again by done. cbn [result_bind].
  by rewrite remove_dups_sorted_set.
Qed.

Lemma built_platform_iff p : built_platform p <-> platform_fixed p.
Proof. split; [intros (? & ? & ? & ? & ? & E); by eapply platform_init_fixed|intros E; by eexists _, _, _, _, _]. Qed.

Lemma platform_from_dict_built v p : platform_from_dict v = Ok p -> built_platform p.
Proof. unfold platform_from_dict. intros (x & _ & E)%result_bind_Ok. destruct (x.["os_features"]); try done. by eexists _, _, _, _, _. Qed.

Lemma canon_texts l : map canon (map VStr l) = map VStr l.
Proof. rewrite map_map. by apply map_ext. Qed.

Lemma canon_opt o : canon (opt_pystr o) = opt_pystr o.
Proof. by destruct o. Qed.

Lemma platform_read p : platform_fixed p -> platform_from_dict (canon (platform_to_dict p)) = Ok p.
Proof.
  intros Hp. unfold platform_from_dict, platform_to_dict. read_fields. cbn [canon]. rewrite canon_texts, !canon_opt. exact Hp.
Qed.

Lemma texts_json l : Forall nonneg l -> Forall jsonable (map VStr l).
Proof. intros Hl. rewrite Forall_fmap. eapply Forall_impl; [exact Hl|]. by constructor. Qed.

Lemma opt_json o : (forall s, o = Some s -> nonneg s) -> jsonable (opt_pystr o).
Proof. intros Ho. destruct o; constructor. by apply Ho. Qed.

Lemma platform_json p : platform_fixed p -> jsonable (platform_to_dict p).
Proof.
  intros (_ & ? & ? & ? & ? & ?)%platform_init_fixed. unfold platform_to_dict. jsonable_dict; try (by constructor); try (by apply opt_json).
  constructor. by apply texts_json.
Qed.

(** * The source *)

Lemma repository_name_again v f g r : repository_name v f = Ok r -> repository_name (VStr r) g = Ok r.
Proof. intros [-> Hr]%repository_name_Ok. rewrite <- (join_split 47 r). by apply repository_name_components. Qed.

Lemma plain_start {A} s f (k : pystr -> result A) a : (let? x := plain_text (VStr s) f in k x) = Ok a -> nonneg s.
Proof. intros (t & Et & _)%result_bind_Ok. destruct (plain_text_Ok _ _ _ Et) as [Hs _]. assert (s = t) as -> by congruence. by eapply plain_text_nonneg. Qed.

Lemma registry_nonneg s f a : registry_authority (VStr s) f = Ok a -> nonneg s.
Proof. unfold registry_authority. apply plain_start. Qed.
Lemma repository_nonneg s f a : repository_name (VStr s) f = Ok a -> nonneg s.
Proof. unfold repository_name. apply plain_start. Qed.
Lemma reference_nonneg s a : requested_reference (VStr s) = Ok a -> nonneg s.
Proof. unfold requested_reference. apply plain_start. Qed.

Definition source_parts (s : source) : Prop :=
  (forall d, s_index s = Some d -> descriptor_fixed d) /\ descriptor_fixed (s_manifest s) /\ descriptor_fixed (s_config s) /\ platform_fixed (s_platform s).

Definition source_fixed (s : source) : Prop :=
  source_init (VStr (s_registry s)) (VStr (s_repository s)) (VStr (s_requested_reference s)) (s_index s) (s_manifest s) (s_config s) (s_platform s) = Ok s.

Lemma source_init_fixed r rep ref i m c p s : source_init r rep ref i m c p = Ok s -> source_fixed s /\
  nonneg (s_registry s) /\ nonneg (s_repository s) /\ nonneg (s_requested_reference s) /\
  s_index s = i /\ s_manifest s = m /\ s_config s = c /\ s_platform s = p.
Proof.
  unfold source_init. intros (r' & Er & E)%result_bind_Ok. apply result_bind_Ok in E as (rep' & Erep & E). apply result_bind_Ok in E as (ref' & Eref & E).
  apply (registry_authority_idem _ _ _ "source.registry") in Er. apply (repository_name_again _ _ "source.repository") in Erep. apply requested_reference_idem in Eref.
  destruct (negb (one_of (d_media_type m) _)) eqn:Gm; [done|]. destruct (negb (one_of (d_media_type c) _)) eqn:Gc; [done|]. destruct (negb (index_supported i)) eqn:Gi; [done|].
  apply (inj Ok) in E as <-. cbn [s_registry s_repository s_requested_reference s_index s_manifest s_config s_platform].
  split; [|split; [by eapply registry_nonneg|]; split; [by eapply repository_nonneg|]; split; [by eapply reference_nonneg|done]]. unfold source_fixed, source_init.
  cbn [s_registry s_repository s_requested_reference s_index s_manifest s_config s_platform]. rewrite Er. cbn [result_bind]. rewrite Erep. cbn [result_bind].
  rewrite Eref. cbn [result_bind]. by rewrite Gm, Gc, Gi.
Qed.

Lemma built_source_iff s : built_source s <-> source_fixed s /\ source_parts s.
Proof.
  split.
  - intros (r & rep & ref & i & m & c & p & E & Hi & Hm & Hc & Hp). destruct (source_init_fixed _ _ _ _ _ _ _ _ E) as (Hs & _ & _ & _ & Ei & Em & Ec & Ep).
    split; [done|]. unfold source_parts. rewrite Ei, Em, Ec, Ep. rewrite <- !built_descriptor_iff, <- built_platform_iff. setoid_rewrite <- built_descriptor_iff. done.
  - intros [Hs (Hi & Hm & Hc & Hp)]. exists (VStr (s_registry s)), (VStr (s_repository s)), (VStr (s_requested_reference s)), (s_index s), (s_manifest s), (s_config s), (s_platform s).
    setoid_rewrite built_descriptor_iff. rewrite built_platform_iff. done.
Qed.

Lemma optional_descriptor v f o : optional (fun v => descriptor_from_dict v f) v = Ok o -> forall d, o = Some d -> built_descriptor d.
Proof.
  intros E d ->. assert (descriptor_from_dict v f = Ok d) as Hd; [|by eapply descriptor_from_dict_built].
  destruct v; try done; cbn [optional] in E; unfold result_map in E; apply result_bind_Ok in E as (x & Ex & E); congruence.
Qed.

Lemma source_from_dict_built v s : source_from_dict v = Ok s -> built_source s.
Proof.
  unfold source_from_dict. intros (x & _ & E)%result_bind_Ok. apply result_bind_Ok in E as (i & Ei & E). apply result_bind_Ok in E as (m & Em & E).
  apply result_bind_Ok in E as (c & Ec & E). apply result_bind_Ok in E as (p & Ep & E). eexists _, _, _, i, m, c, p. split; [exact E|].
  split; [by eapply optional_descriptor|]. split; [by eapply descriptor_from_dict_built|]. split; [by eapply descriptor_from_dict_built|by eapply platform_from_dict_built].
Qed.

Lemma opt_descriptor_read o f : (forall d, o = Some d -> descriptor_fixed d) -> optional (fun v => descriptor_from_dict v f) (canon (opt_descriptor o)) = Ok o.
Proof.
  intros Ho. destruct o as [d|]; [|done]. cbn [opt_descriptor]. pose proof (descriptor_read d f (Ho d eq_refl)) as Hd. unfold descriptor_to_dict in *. cbn [canon] in *.
  cbn [optional]. unfold result_map. by rewrite Hd.
Qed.

Lemma source_read s : source_fixed s -> source_parts s -> source_from_dict (canon (source_to_dict s)) = Ok s.
Proof.
  intros Hs (Hi & Hm & Hc & Hp). unfold source_from_dict, source_to_dict. read_fields.
  rewrite opt_descriptor_read by done. cbn [result_bind]. rewrite !descriptor_read by done. cbn [result_bind]. rewrite platform_read by done. exact Hs.
Qed.

Lemma source_json s : source_fixed s -> source_parts s -> jsonable (source_to_dict s).
Proof.
  intros (_ & ? & ? & ? & _)%source_init_fixed (Hi & Hm & Hc & Hp). unfold source_to_dict.
  jsonable_dict; try (by constructor); try (by apply descriptor_json); [|by apply platform_json].
  destruct (s_index s) as [d|]; [by apply descriptor_json, Hi|constructor].
Qed.

(** * Layers *)

Definition occurrence_fixed (o : occurrence) : Prop :=
  occurrence_init (VInt (o_ordinal o)) (o_compressed o) (VStr (o_diff_id o)) (o_derived o) (VStr (o_filesystem o)) (VStr (o_backend o)) (VStr (o_converter o)) = Ok o.
Definition occurrence_parts (o : occurrence) : Prop := descriptor_fixed (o_compressed o) /\ descriptor_fixed (o_derived o).

Lemma artifact_profile_chars fs mt be pat : artifact_profile fs = Some (mt, be, pat) -> nonneg fs /\ re_within 0 127 pat = true.
Proof.
  unfold artifact_profile. destruct (bool_decide (fs = u "squashfs")) eqn:G1; [|destruct (bool_decide (fs = u "erofs")) eqn:G2; [|done]];
    bool_norm; intros [= _ _ <-]; subst fs; (split; [apply u_nonneg|by vm_compute]).
Qed.

Lemma occurrence_init_fixed n c di d fs be cv o : occurrence_init n c di d fs be cv = Ok o -> occurrence_fixed o /\
  o_compressed o = c /\ o_derived o = d /\ nonneg (o_diff_id o) /\ nonneg (o_filesystem o) /\ nonneg (o_backend o) /\ nonneg (o_converter o).
Proof.
  unfold occurrence_init. destruct n as [| |n| | | | |]; try done. destruct (n <? 0) eqn:Gn; [done|]. destruct (negb (one_of (d_media_type c) _)) eqn:Gc; [done|].
  intros (h & Eh & E)%result_bind_Ok. destruct fs as [| | | |fs| | |]; try done. destruct (artifact_profile fs) as [[[mt e] pat]|] eqn:Ep; [|done].
  destruct (negb (bool_decide (d_media_type d = u mt))) eqn:Gm; [done|]. destruct (negb (eq_str be (u e))) eqn:Gb; [done|].
  destruct cv as [| | | |cv| | |]; try done. destruct (negb (fullmatch pat cv)) eqn:Gv; [done|]. apply (inj Ok) in E as <-.
  cbn [o_ordinal o_compressed o_diff_id o_derived o_filesystem o_backend o_converter]. destruct (artifact_profile_chars _ _ _ _ Ep) as [Nf Np].
  split; [|split; [done|]; split; [done|]; split; [by eapply canonical_digest_nonneg|]; split; [done|]; split; [apply u_nonneg|]; apply negb_false_iff in Gv; by eapply fullmatch_nonneg].
  unfold occurrence_fixed, occurrence_init. cbn [o_ordinal o_compressed o_diff_id o_derived o_filesystem o_backend o_converter].
  rewrite Gn, Gc, (canonical_digest_again _ _ _ _ Eh). cbn [result_bind]. rewrite Ep, Gm. cbn [eq_str]. rewrite bool_decide_eq_true_2 by done. cbn [negb]. by rewrite Gv.
Qed.

Lemma built_occurrence_iff o : built_occurrence o <-> occurrence_fixed o /\ occurrence_parts o.
Proof.
  split.
  - intros (n & c & di & d & fs & be & cv & E & Hc & Hd). destruct (occurrence_init_fixed _ _ _ _ _ _ _ _ E) as (Ho & Ec & Ed & _). split; [done|].
    unfold occurrence_parts. rewrite Ec, Ed, <- !built_descriptor_iff. done.
  - intros [Ho [Hc Hd]]. unfold built_occurrence. setoid_rewrite built_descriptor_iff. by eexists _, _, _, _, _, _, _.
Qed.

Lemma occurrence_from_dict_built v i o : occurrence_from_dict v i = Ok o -> built_occurrence o.
Proof.
  unfold occurrence_from_dict. intros (x & _ & E)%result_bind_Ok. apply result_bind_Ok in E as (c & Ec & E). apply result_bind_Ok in E as (d & Ed & E).
  eexists _, c, _, d, _, _, _. split; [exact E|]. split; by eapply descriptor_from_dict_built.
Qed.

Lemma occurrences_from_built vs : forall i os, occurrences_from i vs = Ok os -> Forall built_occurrence os.
Proof.
  induction vs as [|v vs IH]; intros i os; cbn [occurrences_from]; [intros E; apply (inj Ok) in E as <-; constructor|].
  intros (o & Eo & E)%result_bind_Ok. apply result_bind_Ok in E as (rest & Er & E). apply (inj Ok) in E as <-.
  constructor; [by eapply occurrence_from_dict_built|by eapply IH].
Qed.

Lemma occurrence_read o i : occurrence_fixed o -> occurrence_parts o -> occurrence_from_dict (canon (occurrence_to_dict o)) i = Ok o.
Proof.
  intros Ho [Hc Hd]. unfold occurrence_from_dict, occurrence_to_dict. cbv zeta. read_fields. rewrite !descriptor_read by done. exact Ho.
Qed.

Lemma occurrences_read os : forall i, Forall built_occurrence os -> occurrences_from i (map canon (map occurrence_to_dict os)) = Ok os.
Proof.
  induction os as [|o os IH]; intros i; [done|]. intros [[Ho Hp]%built_occurrence_iff Hos]%Forall_cons. cbn [map occurrences_from].
  rewrite occurrence_read by done. cbn [result_bind]. by rewrite IH.
Qed.

Lemma occurrence_json o : occurrence_fixed o -> occurrence_parts o -> jsonable (occurrence_to_dict o).
Proof.
  intros (_ & _ & _ & ? & ? & ? & ?)%occurrence_init_fixed [Hc Hd]. unfold occurrence_to_dict.
  jsonable_dict; first [by constructor|by apply descriptor_json].
Qed.

(** * Provenance *)

Section provenance.
Context `{Hash}.

(** Digests are ASCII: the chain identity always exists. *)
Lemma chain_json os : Forall built_occurrence os -> jsonable (chain_value os).
Proof.
  intros Hos. unfold chain_value. jsonable_dict; [constructor; apply u_nonneg|]. constructor. rewrite Forall_fmap. eapply Forall_impl; [exact Hos|].
  intros o [(_ & _ & _ & Hd & _)%occurrence_init_fixed [Hc Hr]]%built_occurrence_iff. destruct (descriptor_chars _ Hc) as (_ & Nc & _), (descriptor_chars _ Hr) as (_ & Nr & _).
  cbn. constructor. repeat (constructor; [by constructor|]). constructor.
Qed.

Definition provenance_fixed (p : provenance) : Prop := provenance_init (pr_source p) (pr_occurrences p) (pr_runtime_index p) (VInt (pr_schema_version p)) = Ok p.

Lemma built_provenance_iff p : built_provenance p <->
  provenance_fixed p /\ built_source (pr_source p) /\ Forall built_occurrence (pr_occurrences p) /\ built_descriptor (pr_runtime_index p).
Proof.
  split; [|intros (Hp & Hs & Ho & Hr); by eexists _, _, _, _].
  intros (s & os & r & v & E & Hs & Ho & Hr). pose proof E as E0. unfold provenance_init in E. destruct v as [| |n| | | | |]; try done.
  destruct (negb (n =? 1)) eqn:G1; [done|]. destruct (negb (bool_decide (map _ os = _))) eqn:G2; [done|]. destruct (negb (bool_decide (d_media_type r = _))) eqn:G3; [done|].
  apply (inj Ok) in E as <-. done.
Qed.

Lemma provenance_dict_json p d : built_provenance p -> provenance_to_dict p = Ok d -> jsonable d.
Proof.
  intros (_ & [Hs Hsp]%built_source_iff & Ho & Hr%built_descriptor_iff)%built_provenance_iff. unfold provenance_to_dict.
  intros (c & Ec & E)%result_bind_Ok. apply (inj Ok) in E as <-. unfold compute_chain_id, json_digest, result_map in Ec. apply result_bind_Ok in Ec as (b & _ & Ec).
  apply (inj Ok) in Ec as <-. jsonable_dict.
  - constructor. apply digest_text_nonneg.
  - constructor. rewrite Forall_fmap. eapply Forall_impl; [exact Ho|]. intros o [? ?]%built_occurrence_iff. by apply occurrence_json.
  - by apply descriptor_json.
  - constructor.
  - by apply source_json.
Qed.

(** What a provenance writes as a mapping it reads back. *)
Lemma provenance_read p d : built_provenance p -> provenance_to_dict p = Ok d -> provenance_from_dict (canon d) = Ok p.
Proof.
  intros (Hp & [Hs Hsp]%built_source_iff & Ho & Hr%built_descriptor_iff)%built_provenance_iff. unfold provenance_to_dict.
  intros (c & Ec & E)%result_bind_Ok. apply (inj Ok) in E as <-. unfold provenance_from_dict. read_fields. cbn [canon].
  rewrite source_read by done. cbn [result_bind]. rewrite occurrences_read by done. cbn [result_bind]. rewrite descriptor_read by done. cbn [result_bind].
  unfold provenance_fixed in Hp. rewrite Hp. cbn [result_bind].
  assert (canonical_digest (VStr c) "chain_id" = Ok c) as ->.
  { unfold compute_chain_id, json_digest, result_map in Ec. apply result_bind_Ok in Ec as (b & _ & Ec). apply (inj Ok) in Ec as <-. apply canonical_digest_digest. }
  cbn [result_bind]. rewrite Ec. cbn [result_bind]. by rewrite bool_decide_eq_true_2.
Qed.

(** The strict reader accepts what the canonical writer writes. *)
Lemma dict_keys_app a b : dict_keys (a ++ b) = dict_keys a ++ dict_keys b.
Proof. apply map_app. Qed.

Lemma reject_duplicates_none d : forall seen, NoDup (dict_keys (seen ++ d)) -> reject_duplicates seen d = Ok (seen ++ d).
Proof.
  induction d as [|[k v] d IH]; intros seen Hn; cbn [reject_duplicates]; [by rewrite app_nil_r|].
  rewrite bool_decide_eq_false_2; [|]; cycle 1.
  { rewrite dict_keys_app in Hn. apply NoDup_app in Hn as (_ & Hd & _). intros Hk. apply (Hd k Hk). by left. }
  rewrite IH; [by rewrite <- app_assoc|by rewrite <- app_assoc].
Qed.

Lemma load_strict_canonical v b f : jsonable v -> canonical_json_bytes v = Ok b -> load_strict_json b f = Ok (canon v).
Proof.
  intros Hv Hb. destruct (loads_with_canonical strict_hooks v b) as (s & Hs & Hl); [|done|done|].
  - intros d Hd. by apply (reject_duplicates_none d []).
  - unfold load_strict_json. by rewrite Hs, Hl.
Qed.

Lemma provenance_from_dict_built v p : provenance_from_dict v = Ok p -> built_provenance p.
Proof.
  unfold provenance_from_dict. intros (x & _ & E)%result_bind_Ok. destruct (x.["occurrences"]) as [| | | | |raw| |]; try done.
  apply result_bind_Ok in E as (s & Es & E). apply result_bind_Ok in E as (os & Eos & E). apply result_bind_Ok in E as (r & Er & E).
  apply result_bind_Ok in E as (p' & Ep & E). apply result_bind_Ok in E as (dc & _ & E). apply result_bind_Ok in E as (c & _ & E).
  destruct (negb _); [done|]. apply (inj Ok) in E as <-. exists s, os, r, (x.["schema_version"]). split; [done|].
  split; [by eapply source_from_dict_built|]. split; [by eapply occurrences_from_built|by eapply descriptor_from_dict_built].
Qed.

(** Reading is the inverse of writing. *)
Lemma parse_provenance_iff b p : parse_provenance b = Ok p <-> built_provenance p /\ provenance_to_json_bytes p = Ok b.
Proof.
  unfold parse_provenance. split.
  - intros (v & Ev & E)%result_bind_Ok. apply result_bind_Ok in E as (p' & Ep & E). apply result_bind_Ok in E as (b' & Eb & E).
    destruct (negb _) eqn:G; [done|]. apply (inj Ok) in E as ->. bool_norm. subst b'. split; [by eapply provenance_from_dict_built|done].
  - intros [Hp Hb]. pose proof Hb as Hb0. unfold provenance_to_json_bytes in Hb. apply result_bind_Ok in Hb as (d & Ed & Hb).
    rewrite (load_strict_canonical d b _ (provenance_dict_json _ _ Hp Ed) Hb). cbn [result_bind].
    rewrite (provenance_read p d Hp Ed). cbn [result_bind]. rewrite Hb0. cbn [result_bind]. by rewrite bool_decide_eq_true_2.
Qed.
End provenance.
