(* ===== verification/Referrer.v ===== *)
(** The referrer manifest: its annotations as a sorted mapping, and what the
    reader makes of what the writer wrote. *)
From S2P Require Import Prelude Crypto PyStr PyText PyVal Utf8 Json Regex Digest Process Names NamesFacts Provenance ProvenanceFacts.

(** * Items sorted by key *)

#[export] Instance item_le_total : Total item_le.
Proof. intros a b. apply (total str_le). Qed.
#[export] Instance item_le_trans : Transitive item_le.
Proof. intros a b c. apply (transitivity (R := str_le)). Qed.

Notation keys l := (map (fst (A := pystr) (B := pystr)) l).

Lemma sorted_items_perm l : sorted_items l ≡ₚ l.
Proof. apply merge_sort_Permutation. Qed.

Lemma sorted_items_keys l : keys (sorted_items l) = sorted (keys l).
Proof.
  apply (StronglySorted_unique str_le).
  - pose proof (StronglySorted_merge_sort item_le l) as Hs. unfold sorted_items. induction Hs as [|a k Hk IH Ha]; cbn [map]; constructor; [done|].
    rewrite Forall_fmap. eapply Forall_impl; [exact Ha|]. done.
  - apply sorted_StronglySorted.
  - by rewrite sorted_permutation, sorted_items_perm.
Qed.

(** Two arrangements of the same items whose keys are in the same order *)
Lemma same_keys {A} (l k : list (pystr * A)) : l ≡ₚ k -> map fst l = map fst k -> NoDup (map fst l) -> l = k.
Proof.
  revert k. induction l as [|[x v] l IH]; intros [|[y w] k] Hp Hk Hn; try done.
  cbn [map fst] in Hk, Hn. assert (x = y /\ map fst l = map fst k) as [<- Hk'] by (split; congruence). apply NoDup_cons in Hn as [Hx Hn].
  assert ((x, v) ∈ (x, w) :: k) as Hin by (rewrite <- Hp; by left). apply elem_of_cons in Hin as [Hv|Hin].
  - assert (v = w) as <- by congruence. f_equal. apply IH; [|done|done]. by apply Permutation_cons_inv in Hp.
  - destruct Hx. rewrite Hk'. apply list_elem_of_fmap. by exists (x, v).
Qed.

Lemma sorted_items_same l k : l ≡ₚ k -> keys k = sorted (keys k) -> NoDup (keys l) -> sorted_items l = k.
Proof.
  intros Hp Hs Hn. assert (sorted_items l ≡ₚ k) as Hp' by (by rewrite sorted_items_perm). apply same_keys; [done| |].
  - rewrite sorted_items_keys, Hs. apply sorted_unique. by rewrite Hp.
  - by rewrite sorted_items_perm.
Qed.

(** ** As values *)

Lemma entries_of items : map_result annotation_entry (annotation_values items) = Ok items.
Proof. apply map_result_Ok. unfold annotation_values. rewrite Forall2_fmap_l. apply Forall_Forall2_diag, Forall_forall. by intros [k v] _. Qed.

Lemma entries_values d items : map_result annotation_entry d = Ok items -> d = annotation_values items.
Proof.
  rewrite map_result_Ok. induction 1 as [|[k v] [k' s] d items E _ IH]; [done|]. unfold annotation_entry in E. cbn [fst snd] in E.
  destruct v; try done. apply (inj Ok) in E. assert (k = k' /\ s0 = s) as [-> ->] by (split; congruence). by rewrite IH.
Qed.

Lemma annotation_values_keys items : dict_keys (annotation_values items) = keys items.
Proof. unfold dict_keys, annotation_values. rewrite map_map. done. Qed.

Lemma canon_annotations items : canon_items (annotation_values items) = annotation_values items.
Proof. unfold canon_items, annotation_values. rewrite map_map. done. Qed.

Lemma annotation_values_perm items d : d ≡ₚ annotation_values items -> exists items', d = annotation_values items' /\ items' ≡ₚ items.
Proof.
  intros (l & -> & Hl)%Permutation_map_inv. by exists l.
Qed.

(** Reading annotations that were written sorted gives them back. *)
Lemma consumer_read items : keys items = sorted (keys items) -> NoDup (keys items) ->
  consumer_annotation_items (Some (sort_items (canon_items (annotation_values items)))) = Ok items.
Proof.
  intros Hs Hn. rewrite canon_annotations. destruct (annotation_values_perm items (sort_items (annotation_values items))) as (l & -> & Hl); [apply sort_items_perm|].
  unfold consumer_annotation_items, result_map. rewrite entries_of. cbn [result_bind]. f_equal. apply sorted_items_same; [done|done|by rewrite Hl].
Qed.

Lemma item_get_values items k : dict_get (annotation_values items) k = VStr <$> item_get items k.
Proof.
  induction items as [|[k' v] items IH]; [done|]. cbn [annotation_values map dict_get item_get fst snd].
  destruct (decide (k = k')) as [->|Hne]; [by rewrite bool_decide_eq_true_2|]. rewrite bool_decide_eq_false_2 by done. exact IH.
Qed.

Lemma dict_get_annotations items k : NoDup (keys items) -> dict_get (sort_items (canon_items (annotation_values items))) k = VStr <$> item_get items k.
Proof.
  intros Hn. rewrite canon_annotations, <- item_get_values. symmetry. apply dict_get_perm; [by rewrite annotation_values_keys|]. symmetry. apply sort_items_perm.
Qed.

Lemma item_get_perm l k x : NoDup (keys l) -> l ≡ₚ k -> item_get l x = item_get k x.
Proof.
  intros Hn Hp. assert (dict_get (annotation_values l) x = dict_get (annotation_values k) x) as Hd.
  { apply dict_get_perm; [by rewrite annotation_values_keys|]. by apply Permutation_map. }
  rewrite !item_get_values in Hd. by destruct (item_get l x), (item_get k x); cbn in Hd; congruence.
Qed.

Definition text_item (kv : pystr * pystr) : Prop := nonneg kv.1 /\ nonneg kv.2.

Lemma item_set_text l k v : Forall text_item l -> nonneg k -> nonneg v -> Forall text_item (item_set l k v).
Proof.
  intros Hl Hk Hv. induction Hl as [|[k' v'] l [Hk' Hv'] Hl IH]; cbn [item_set]; [by repeat constructor|].
  destruct (bool_decide (k = k')); constructor; done.
Qed.

(** * The manifest *)

(** The loop accepts exactly distinct keys in order. *)
Lemma annotations_ordered_intro items : forall seen previous, NoDup (keys items) -> (forall k, k ∈ seen -> k ∉ keys items) -> StronglySorted str_le (keys items) ->
  (forall p k, previous = Some p -> k ∈ keys items -> str_le p k) -> annotations_ordered seen previous items = Ok tt.
Proof.
  induction items as [|[k v] items IH]; intros seen previous Hn Hseen Hs Hp; [done|]. cbn [annotations_ordered map fst] in *.
  apply NoDup_cons in Hn as [Hk Hn]. inversion Hs as [|? ? Hs' Hle]; subst.
  rewrite bool_decide_eq_false_2 by (intros Hin; apply (Hseen k Hin); by left). destruct (match previous with Some _ => _ | None => _ end) eqn:G.
  - exfalso. destruct previous as [p|]; [|done]. apply andb_true_iff in G as [Gl Ge]. bool_norm. apply Ge. apply (anti_symm str_le); [done|].
    apply Hp; [done|by left].
  - apply IH; [done| |done|].
    + intros x [->|Hx]%elem_of_cons; [done|]. intros Hin. apply (Hseen x Hx). by right.
    + intros p x [= <-] Hx. rewrite Forall_forall in Hle. by apply Hle.
Qed.

Lemma referrer_json r : descriptor_fixed (r_subject r) -> descriptor_fixed (r_blob r) -> Forall text_item (r_annotations r) -> NoDup (keys (r_annotations r)) ->
  jsonable (referrer_to_dict r).
Proof.
  intros Hs Hb Ht Hn. apply descriptor_json in Hs, Hb.
  assert (jsonable (VList [descriptor_to_dict (r_blob r)])) as Hl by (constructor; by constructor).
  assert (jsonable (VDict (annotation_values (r_annotations r)))) as Ha.
  { apply ADict; [by rewrite annotation_values_keys|]. unfold annotation_values. rewrite Forall_fmap. eapply Forall_impl; [exact Ht|].
    intros [k v] [? ?]. split; [done|by constructor]. }
  assert (jsonable (descriptor_to_dict EMPTY_CONFIG_DESCRIPTOR)) as He by (apply descriptor_json; by vm_compute).
  unfold referrer_to_dict. destruct (r_annotations r) as [|a l] eqn:Ea; cbn [app]; jsonable_dict; try done; try (constructor; apply u_nonneg); constructor.
Qed.

(** The members of the manifest; the annotations only where there are some. *)
Definition referrer_members (r : referrer) (annotations : option (list (pystr * pyval))) : list (pystr * pyval) :=
  [(u "artifactType", VStr (u PROVENANCE_ARTIFACT_TYPE)); (u "config", descriptor_to_dict EMPTY_CONFIG_DESCRIPTOR);
   (u "layers", VList [descriptor_to_dict (r_blob r)]); (u "mediaType", VStr (u OCI_IMAGE_MANIFEST_MEDIA_TYPE));
   (u "schemaVersion", VInt 2); (u "subject", descriptor_to_dict (r_subject r))] ++
  match annotations with None => [] | Some d => [(u "annotations", VDict d)] end.

Definition written_annotations (r : referrer) : option (list (pystr * pyval)) :=
  match r_annotations r with [] => None | l => Some (annotation_values l) end.

Lemma referrer_to_dict_members r : referrer_to_dict r = VDict (referrer_members r (written_annotations r)).
Proof. unfold referrer_to_dict, referrer_members, written_annotations. by destruct (r_annotations r). Qed.

Lemma referrer_fields_canon d : referrer_fields (sort_items (canon_items d)) = referrer_fields d.
Proof.
  assert (forall k, k ∈ dict_keys (sort_items (canon_items d)) <-> k ∈ dict_keys d) as Hk.
  { intros k. rewrite <- (dict_keys_canon_items d). unfold dict_keys. by rewrite sort_items_perm. }
  unfold referrer_fields. apply eq_true_iff_eq. rewrite !andb_true_iff, !forallb_forall. setoid_rewrite bool_decide_eq_true. setoid_rewrite <- list_elem_of_In. by setoid_rewrite Hk.
Qed.

Lemma referrer_members_fields r o : referrer_fields (referrer_members r o) = true /\ NoDup (dict_keys (referrer_members r o)).
Proof. destruct o; (split; [by vm_compute|by apply NoDup_decide]). Qed.

Section referrer.
Context `{Hash}.

Definition blob_of (payload : bytes) (d : descriptor) : Prop :=
  descriptor_init (VStr (u PROVENANCE_BLOB_MEDIA_TYPE)) (VStr (digest_text payload)) (VInt (zlen payload)) = Ok d.

(** A referrer for the provenance [p] written as [b]. *)
Record referrer_of (p : provenance) (b : bytes) (r : referrer) : Prop := {
  ro_init : referrer_init (r_subject r) (r_blob r) (r_annotations r) = Ok r;
  ro_subject : r_subject r = s_manifest (pr_source p);
  ro_blob : blob_of b (r_blob r);
  ro_sorted : keys (r_annotations r) = sorted (keys (r_annotations r));
  ro_nodup : NoDup (keys (r_annotations r));
  ro_text : Forall text_item (r_annotations r);
  ro_digest : forall d, item_get (r_annotations r) (u PROVENANCE_DIGEST_ANNOTATION) = Some d -> d = digest_text b;
}.

Lemma blob_of_fixed b d : blob_of b d -> descriptor_fixed d /\ d_digest d = digest_text b /\ d_size d = zlen b.
Proof.
  intros Hd. split; [by eapply descriptor_init_fixed|]. unfold blob_of, descriptor_init in Hd. apply result_bind_Ok in Hd as (t & _ & E).
  destruct (_ || _ || _); [done|]. apply result_bind_Ok in E as (h & Eh & E). rewrite canonical_digest_digest in Eh. apply (inj Ok) in Eh as <-.
  destruct (negb _); [done|]. by apply (inj Ok) in E as <-.
Qed.

Lemma manifest_fixed p : built_provenance p -> descriptor_fixed (s_manifest (pr_source p)).
Proof. by intros (_ & (_ & _ & ? & _)%built_source_iff & _)%built_provenance_iff. Qed.

Lemma provenance_digest_bytes p b : provenance_to_json_bytes p = Ok b -> provenance_digest p = Ok (digest_text b).
Proof. intros E. unfold provenance_digest, result_map. by rewrite E. Qed.

(** The reader accepts such a referrer and returns it. *)
Lemma parse_written p b r m : parse_provenance b = Ok p -> referrer_of p b r -> referrer_to_json_bytes r = Ok m -> parse_referrer m b None = Ok r.
Proof.
  intros Hp Hr Hm. pose proof Hp as [Hbuilt Hbytes]%parse_provenance_iff. pose proof (manifest_fixed p Hbuilt) as Hman.
  destruct Hr as [Hinit Hsub Hblob Hsort Hnd Htext Hdig]. destruct (blob_of_fixed _ _ Hblob) as [Hbf _].
  unfold parse_referrer. rewrite Hp. cbn [result_bind default].
  assert (descriptor_fixed (r_subject r)) as Hsf by (by rewrite Hsub).
  rewrite (load_strict_canonical (referrer_to_dict r) m _ (referrer_json _ Hsf Hbf Htext Hnd) Hm). cbn [result_bind].
  rewrite referrer_to_dict_members. cbn [canon]. fold (canon_items (referrer_members r (written_annotations r))).
  destruct (referrer_members_fields r (written_annotations r)) as [Hf Hk]. rewrite referrer_fields_canon, Hf. cbn [negb].
  rewrite !dict_get_none_canon by done. rewrite dict_get_canon by done.
  unfold referrer_members at 1 2 3 4 5 6. cbn [app].
  repeat (rewrite dict_get_none_u; cbn [String.eqb Ascii.eqb Bool.eqb]). cbn [canon eq_str map].
  rewrite !bool_decide_eq_true_2 by done. cbn [Z.eqb Pos.eqb negb].
  rewrite descriptor_read by (by vm_compute). cbn [result_bind]. rewrite bool_decide_eq_true_2 by done. cbn [negb].
  rewrite descriptor_read by done. cbn [result_bind]. unfold blob_of in Hblob. rewrite Hblob. cbn [result_bind]. rewrite bool_decide_eq_true_2 by done. cbn [negb].
  rewrite descriptor_read by done. cbn [result_bind]. rewrite !bool_decide_eq_true_2 by done. cbn [negb orb].
  assert (default (VDict []) (canon <$> dict_get (referrer_members r (written_annotations r)) (u "annotations")) =
    VDict (sort_items (canon_items (annotation_values (r_annotations r))))) as ->.
  { unfold written_annotations. by destruct (r_annotations r). }
  rewrite consumer_read by done. cbn [result_bind]. rewrite (provenance_digest_bytes p b Hbytes). cbn [result_bind].
  unfold dict_get_none. rewrite dict_get_annotations by done.
  destruct (item_get (r_annotations r) (u PROVENANCE_DIGEST_ANNOTATION)) as [d|] eqn:Ed; cbn [fmap option_fmap option_map].
  - cbn [eq_str]. rewrite (Hdig d eq_refl), bool_decide_eq_true_2 by done. cbn [negb]. rewrite Hinit. cbn [result_bind]. rewrite Hm. cbn [result_bind].
    by rewrite bool_decide_eq_true_2.
  - rewrite Hinit. cbn [result_bind]. rewrite Hm. cbn [result_bind]. by rewrite bool_decide_eq_true_2.
Qed.

(** ** The writer *)

(** The annotations a caller gives: a mapping of text. *)
Definition given_annotations (given : list (pystr * pystr)) : Prop := NoDup (keys given) /\ Forall text_item given.

(** The annotations of the manifest: the given ones, and the digest if it is to be included. *)
Definition written_items (include_digest : bool) (digest : pystr) (given : list (pystr * pystr)) : list (pystr * pystr) :=
  sorted_items (if include_digest then item_set (sorted_items given) (u PROVENANCE_DIGEST_ANNOTATION) digest else sorted_items given).

Lemma written_items_ok inc b given : given_annotations given ->
  NoDup (keys (written_items inc (digest_text b) given)) /\ Forall text_item (written_items inc (digest_text b) given).
Proof.
  intros [Hn Ht]. unfold written_items. rewrite !sorted_items_perm. destruct inc.
  - split; [apply item_set_NoDup; by rewrite sorted_items_perm|]. apply item_set_text; [by rewrite sorted_items_perm|apply u_nonneg|apply digest_text_nonneg].
  - by rewrite sorted_items_perm.
Qed.

Lemma sorted_sorted l : sorted (sorted l) = sorted l.
Proof. apply sorted_unique, sorted_permutation. Qed.

Lemma given_digest inc b given d : given_annotations given ->
  (forall e, item_get (sorted_items given) (u PROVENANCE_DIGEST_ANNOTATION) = Some e -> e = digest_text b) ->
  item_get (written_items inc (digest_text b) given) (u PROVENANCE_DIGEST_ANNOTATION) = Some d -> d = digest_text b.
Proof.
  intros Hg He. destruct (written_items_ok inc b given Hg) as [Hn _]. unfold written_items in *. rewrite sorted_items_perm in Hn.
  erewrite item_get_perm; [|by rewrite sorted_items_perm|apply sorted_items_perm]. destruct inc; [|apply He].
  rewrite item_get_set. by intros [= <-].
Qed.

Lemma build_referrer_of p b inc given m : built_provenance p -> provenance_to_json_bytes p = Ok b -> given_annotations given ->
  build_referrer p inc (Some (annotation_values given)) = Ok m ->
  exists r, referrer_of p b r /\ referrer_to_json_bytes r = Ok m /\ r_annotations r = written_items inc (digest_text b) given.
Proof.
  intros Hp Hb Hg. unfold build_referrer, producer_annotation_items, consumer_annotation_items, result_map. rewrite entries_of. cbn [result_bind].
  destruct (existsb _ _); [done|]. cbn [result_bind]. rewrite (provenance_digest_bytes p b Hb). cbn [result_bind].
  destruct (match item_get _ _ with Some _ => _ | None => _ end) eqn:Gd; [done|]. rewrite Hb. cbn [result_bind].
  intros (d & Ed & E)%result_bind_Ok. apply result_bind_Ok in E as (r & Er & E). fold (written_items inc (digest_text b) given) in Er.
  destruct (written_items_ok inc b given Hg) as [Hn Ht]. unfold referrer_init in Er. pose proof Er as Er0.
  destruct (negb (one_of _ _)) eqn:G1; [done|]. destruct (negb (bool_decide (d_media_type d = _))) eqn:G2; [done|].
  apply result_bind_Ok in Er as (t & Et & Er). apply (inj Ok) in Er. subst r.
  eexists. split; [|split; [exact E|done]]. constructor; cbn [r_subject r_blob r_annotations]; try done.
  - unfold referrer_init. by rewrite G1, G2.
  - unfold written_items. by rewrite sorted_items_keys, sorted_sorted.
  - intros e. apply given_digest; [done|]. intros x Hx. rewrite Hx in Gd. by bool_norm.
Qed.
End referrer.
