(* ===== verification/ProvenanceTheorems.v ===== *)
(** What the provenance contracts promise: one text per provenance and one
    provenance per text, a chain identity that binds the layers, referrers that
    are read back, names that are canonical. *)
From S2P Require Import Prelude Crypto PyStr PyText PyVal Utf8 Json Regex Digest Process Names NamesFacts Provenance ProvenanceFacts Referrer Sha256.

(** * The chain identity *)

(** What identifies a layer in the chain. *)
Definition layer_identity (o : occurrence) : Z * pystr * pystr * pystr :=
  (o_ordinal o, d_digest (o_compressed o), o_diff_id o, d_digest (o_derived o)).

Definition identity_value (i : Z * pystr * pystr * pystr) : pyval :=
  let ' (n, c, d, r) := i in VList [VInt n; VStr c; VStr d; VStr r].

Lemma identity_value_inj i j : identity_value i = identity_value j -> i = j.
Proof. destruct i as [[[n c] d] r], j as [[[n' c'] d'] r']. cbn [identity_value]. congruence. Qed.

Lemma chain_value_identities os : canon (chain_value os) = canon (VDict [(u "domain", VStr (u "palimpsest.oci.chain.v1")); (u "occurrences", VList (map identity_value (map layer_identity os)))]).
Proof. unfold chain_value. by rewrite map_map. Qed.

Lemma identities_of_chain os : dict_get_none (match canon (chain_value os) with VDict d => d | _ => [] end) (u "occurrences") =
  VList (map identity_value (map layer_identity os)).
Proof.
  rewrite chain_value_identities. cbn [canon]. fold (canon_items [(u "domain", VStr (u "palimpsest.oci.chain.v1")); (u "occurrences", VList (map identity_value (map layer_identity os)))]).
  rewrite dict_get_none_canon by (apply NoDup_decide; reflexivity). rewrite !dict_get_none_u. cbn [String.eqb Ascii.eqb Bool.eqb canon]. f_equal.
  rewrite map_map. apply map_ext. by intros [[[n c] d] r].
Qed.

Lemma map_inj {A B} (f : A -> B) l k : (forall a b, f a = f b -> a = b) -> map f l = map f k -> l = k.
Proof. intros Hf. revert k. induction l as [|a l IH]; intros [|b k]; cbn; try done. intros E. f_equal; [apply Hf|apply IH]; congruence. Qed.

(** Canonical text determines the value up to the order of keys. *)
Lemma canonical_inj `{Hash} v w b : jsonable v -> jsonable w -> canonical_json_bytes v = Ok b -> canonical_json_bytes w = Ok b -> canon v = canon w.
Proof.
  intros Hv Hw Ev Ew. pose proof (load_strict_canonical v b "" Hv Ev) as Lv. pose proof (load_strict_canonical w b "" Hw Ew) as Lw. congruence.
Qed.

(** The chain identity binds the layers.  Two sequences of layers with the
    same chain identity have, layer by layer, the same ordinal, compressed
    digest, diff id and derived digest; otherwise their two canonical texts are
    different byte strings with the same SHA-256 digest. *)
Theorem chain_id_binds `{Hash} os1 os2 c : Forall built_occurrence os1 -> Forall built_occurrence os2 ->
  compute_chain_id os1 = Ok c -> compute_chain_id os2 = Ok c ->
  map layer_identity os1 = map layer_identity os2 \/
  exists b1 b2, canonical_json_bytes (chain_value os1) = Ok b1 /\ canonical_json_bytes (chain_value os2) = Ok b2 /\ b1 <> b2 /\ digest_text b1 = digest_text b2.
Proof.
  intros H1 H2. unfold compute_chain_id, json_digest, result_map. intros (b1 & E1 & D1)%result_bind_Ok (b2 & E2 & D2)%result_bind_Ok.
  destruct (decide (b1 = b2)) as [->|Hne]; [left|right; exists b1, b2; split; [done|]; split; [done|]; split; [done|congruence]].
  pose proof (canonical_inj _ _ _ (chain_json _ H1) (chain_json _ H2) E1 E2) as Hc.
  apply (map_inj identity_value); [apply identity_value_inj|]. pose proof (identities_of_chain os1) as I1. rewrite Hc, identities_of_chain in I1. congruence.
Qed.

(** C10: reading provenance is the inverse of writing it.  [parse_provenance]
    returns [p] for a payload exactly when [p] is an object the constructors
    build and the payload is the text [to_json_bytes] gives for it: what was
    written is read back, equal field by field, and no other text (other
    spacing, order of keys, case of digests, spelling of names) is accepted. *)
Theorem provenance_roundtrip `{Hash} p b : parse_provenance b = Ok p <-> built_provenance p /\ provenance_to_json_bytes p = Ok b.
Proof. apply parse_provenance_iff. Qed.

(** A referrer manifest is read back.  For any built provenance, written as
    [b], and any mapping of annotations that the producer accepts, the manifest
    the producer writes is accepted by the consumer against [b], and names the
    provenance's image manifest, the exact bytes [b], and the given annotations
    and no other, besides the digest of [b] where it was to be included. *)
Theorem referrer_roundtrip `{Hash} p b inc given m : built_provenance p -> provenance_to_json_bytes p = Ok b -> given_annotations given ->
  build_referrer p inc (Some (annotation_values given)) = Ok m ->
  exists r, parse_referrer m b None = Ok r /\ r_subject r = s_manifest (pr_source p) /\
    d_digest (r_blob r) = digest_text b /\ d_size (r_blob r) = zlen b /\
    r_annotations r ≡ₚ (if inc then item_set (sorted_items given) (u PROVENANCE_DIGEST_ANNOTATION) (digest_text b) else given).
Proof.
  intros Hp Hb Hg Em. destruct (build_referrer_of p b inc given m Hp Hb Hg Em) as (r & Hr & Er & Ea).
  exists r. split; [eapply parse_written; [by apply parse_provenance_iff|done|done]|]. split; [apply Hr|].
  destruct (blob_of_fixed _ _ (ro_blob _ _ _ Hr)) as (_ & Hd & Hs). split; [done|]. split; [done|]. rewrite Ea. unfold written_items.
  rewrite sorted_items_perm. destruct inc; [done|apply sorted_items_perm].
Qed.

(** Names are canonical.  An accepted registry authority (host name, IPv4 or
    bracketed IPv6 address, port) and an accepted reference are accepted again
    and are their own canonical text. *)
Theorem names_canonical v w f g r q : registry_authority v f = Ok r -> requested_reference w = Ok q ->
  registry_authority (VStr r) g = Ok r /\ requested_reference (VStr q) = Ok q.
Proof. intros Hr Hq. split; [by eapply registry_authority_idem|by eapply requested_reference_idem]. Qed.

(** * A concrete provenance *)

#[local] Existing Instance Sha256.sha256_hash.

Definition ex_digest (c : Z) : pystr := u "sha256:" ++ replicate 64 c.
Definition ex_platform : platform := Platform (u "linux") (u "amd64") None (Some (u "6.1")) [u "a"; u "b"].
Definition ex_source : source :=
  Source (u "[2001:db8::1]:5000") (u "library/web") (u "registry.example:5000/library/web:1.0") None
    (Descriptor (u OCI_IMAGE_MANIFEST_MEDIA_TYPE) (ex_digest 97) 1024) (Descriptor (u OCI_IMAGE_CONFIG_MEDIA_TYPE) (ex_digest 98) 512) ex_platform.
Definition ex_layer (n : Z) (c : Z) : occurrence :=
  Occurrence n (Descriptor (u OCI_LAYER_GZIP_MEDIA_TYPE) (ex_digest c) 4096) (ex_digest 100) (Descriptor (u EROFS_DERIVED_LAYER_MEDIA_TYPE) (ex_digest 101) 8192)
    (u "erofs") (u EROFS_ARTIFACT_BACKEND_ID) (u "mkfs.erofs-1.8@" ++ ex_digest 102).
Definition ex_provenance : provenance :=
  Provenance ex_source [ex_layer 0 48; ex_layer 1 49] (Descriptor (u RUNTIME_INDEX_MEDIA_TYPE) (ex_digest 57) 77) 1.


Lemma ex_built : built_provenance ex_provenance.
Proof.
  apply built_provenance_iff. split; [by vm_compute|]. split; [|split].
  - apply built_source_iff. split; [by vm_compute|]. split; [done|]. split; [by vm_compute|]. split; by vm_compute.
  - repeat (constructor; [apply built_occurrence_iff; split; [by vm_compute|split; by vm_compute]|]). constructor.
  - apply built_descriptor_iff. by vm_compute.
Qed.

Definition ex_payload : bytes := match provenance_to_json_bytes ex_provenance with Ok b => b | Err _ => [] end.
Lemma ex_payload_written : provenance_to_json_bytes ex_provenance = Ok ex_payload.
Proof. by vm_compute. Qed.

Definition ex_given : list (pystr * pystr) := [(u "org.opencontainers.image.title", u "web"); (u "dev.example.team", u "core")].
Definition ex_manifest : bytes := match build_referrer ex_provenance true (Some (annotation_values ex_given)) with Ok b => b | Err _ => [] end.

(** The same layers converted with another converter. *)
Definition ex_relayer (o : occurrence) : occurrence :=
  Occurrence (o_ordinal o) (o_compressed o) (o_diff_id o) (o_derived o) (o_filesystem o) (o_backend o) (u "mkfs.erofs@" ++ ex_digest 102).
Definition ex_layers : list occurrence := pr_occurrences ex_provenance.

Lemma ex_chain : exists c, compute_chain_id ex_layers = Ok c /\ compute_chain_id (map ex_relayer ex_layers) = Ok c.
Proof. eexists. split; by vm_compute. Qed.

Lemma ex_relayers_built : Forall built_occurrence (map ex_relayer ex_layers).
Proof. repeat (constructor; [apply built_occurrence_iff; split; [by vm_compute|split; by vm_compute]|]). constructor. Qed.

Lemma chain_id_binds_witness : map layer_identity ex_layers = map layer_identity (map ex_relayer ex_layers) \/
  exists b1 b2, canonical_json_bytes (chain_value ex_layers) = Ok b1 /\
     canonical_json_bytes (chain_value (map ex_relayer ex_layers)) = Ok b2 /\ b1 <> b2 /\ digest_text b1 = digest_text b2.
Proof.
  destruct ex_chain as (c & Hc & Hd). pose proof ex_built as (_ & _ & Ho & _)%built_provenance_iff.
  exact (chain_id_binds _ _ c Ho ex_relayers_built Hc Hd).
Defined.

Lemma referrer_roundtrip_witness : exists r, parse_referrer ex_manifest ex_payload None = Ok r /\
  r_subject r = s_manifest ex_source /\ d_digest (r_blob r) = digest_text ex_payload.
Proof.
  assert (given_annotations ex_given) as Hg.
  { split; [by apply NoDup_decide; vm_compute|]. repeat (constructor; [split; apply u_nonneg|]). constructor. }
  assert (build_referrer ex_provenance true (Some (annotation_values ex_given)) = Ok ex_manifest) as Hm by by vm_compute.
  destruct (referrer_roundtrip ex_provenance ex_payload true ex_given ex_manifest ex_built ex_payload_written Hg Hm) as (r & Hr & Hs & Hd & _).
  exists r. split; [exact Hr|]. split; [exact Hs|exact Hd].
Defined.

Lemma names_canonical_witness :
  registry_authority (VStr (u "[2001:DB8:0:0::1]:05000")) "r" = Ok (u "[2001:db8::1]:5000") /\
  requested_reference (VStr (u "Registry.Example:05000/library/web:1.0")) = Ok (u "registry.example:5000/library/web:1.0") /\
  registry_authority (VStr (u "[2001:db8::1]:5000")) "r" = Ok (u "[2001:db8::1]:5000") /\
  requested_reference (VStr (u "registry.example:5000/library/web:1.0")) = Ok (u "registry.example:5000/library/web:1.0").
Proof.
  assert (registry_authority (VStr (u "[2001:DB8:0:0::1]:05000")) "r" = Ok (u "[2001:db8::1]:5000")) as Hr by by vm_compute.
  assert (requested_reference (VStr (u "Registry.Example:05000/library/web:1.0")) = Ok (u "registry.example:5000/library/web:1.0")) as Hq by by vm_compute.
  split; [exact Hr|]. split; [exact Hq|]. exact (names_canonical _ _ "r" "r" _ _ Hr Hq).
Defined.
