(* ===== verification/Image.v ===== *)
(** Pinned image graphs ([oci_image.py]): verified blobs, the index, the manifest
    and the configuration of an image, and the receipt of the one image that a
    pinned root names.  The reader that supplies the bytes is a parameter. *)
From S2P Require Import Prelude Crypto PyStr PyText PyVal Utf8 Json Regex Digest Process Names Provenance.

Definition MAX_IMAGE_JSON_BYTES : Z := 4 * 1024 * 1024.
Definition MAX_IMAGE_LAYERS : Z := 128.
Definition RESERVED_PATH_POLICY_ID : string := "dev.pieroot.palimpsest.reserved-root.v1".

(** * JSON documents and blobs *)

Definition image_hooks : json_hooks := JsonHooks (reject_duplicates []) (fun _ => Err constant_error).

(** [_strict_json], [strict_json_object] *)
Definition strict_json_object (payload : bytes) (field : string) : result (list (pystr * pyval)) :=
  raise (with_field field " exceeds the JSON limit") when MAX_IMAGE_JSON_BYTES <? zlen payload ;;
  match utf8_decode payload with
  | None => Err (with_field field " is not strict UTF-8 JSON")
  | Some text =>
      match loads_with image_hooks text with
      | Err e =>
          if String.eqb e duplicate_error then Err (with_field field " contains duplicate object key")
          else if String.eqb e constant_error then Err (with_field field " contains non-JSON numeric constant")
          else Err (with_field field " is not strict UTF-8 JSON")
      | Ok (VDict d) => Ok d
      | Ok _ => Err (with_field field " must be a JSON object")
      end
  end.

Definition size_mismatch : string := "OCI descriptor size mismatch".

Section blobs.
Context `{Hash}.

(** The loop of [verify_blob_chunks]: the total and the bytes hashed so far. *)
Fixpoint blob_chunks (expected_size total : Z) (hasher : bytes) (chunks : list bytes) : result (Z * bytes) :=
  match chunks with
  | [] => Ok (total, hasher)
  | chunk :: chunks =>
      raise "blob chunks must be nonempty" when bool_decide (chunk = []) ;;
      let total := total + zlen chunk in
      raise size_mismatch when expected_size <? total ;;
      blob_chunks expected_size total (hasher ++ chunk) chunks
  end.

Definition verify_blob_chunks (expected_digest expected_size : pyval) (chunks : list bytes) : result unit :=
  let? digest := canonical_digest expected_digest "blob expected_digest" in
  match expected_size with
  | VInt size =>
      raise "blob expected_size must be an exact integer between 0 and 2**63-1" when negb ((0 <=? size) && (size <=? 2 ^ 63 - 1)) ;;
      let? ' (total, hasher) := blob_chunks size 0 [] chunks in
      raise size_mismatch when negb (total =? size) ;;
      raise "OCI descriptor digest mismatch" when negb (bool_decide (digest_text hasher = digest)) ;;
      Ok tt
  | _ => Err "blob expected_size must be an exact integer between 0 and 2**63-1"
  end.

Definition verify_descriptor_bytes (d : descriptor) (payload : bytes) : result bytes :=
  let? _ := verify_blob_chunks (VStr (d_digest d)) (VInt (d_size d)) (match payload with [] => [] | _ => [payload] end) in
  Ok payload.

(** The caller's reader: bytes, or the name or the message of what it raises. *)
Variable reader : descriptor -> result bytes.

Definition read_verified_blob (d : descriptor) : result bytes :=
  match reader d with
  | Ok payload => verify_descriptor_bytes d payload
  | Err e =>
      if String.eqb e "KeyError" || String.eqb e "FileNotFoundError" then Err "OCI image is missing referenced blob"
      else Err e
  end.

Definition read_json_blob (d : descriptor) (field : string) : result (list (pystr * pyval)) :=
  raise (with_field field " exceeds the JSON limit") when MAX_IMAGE_JSON_BYTES <? d_size d ;;
  let? payload := read_verified_blob d in
  strict_json_object payload field.
End blobs.

(** * Receipts *)

(** [OCIImageRef] *)
Record image_ref := ImageRef { i_registry : pystr; i_repository : pystr; i_requested_reference : pystr }.
#[export] Instance image_ref_eq_dec : EqDecision image_ref.
Proof. solve_decision. Defined.

Definition image_ref_init (registry repository reference : pyval) : result image_ref :=
  let? registry := registry_authority registry "source.registry" in
  let? repository := repository_name repository "source.repository" in
  let? reference := requested_reference reference in
  Ok (ImageRef registry repository reference).

Definition image_ref_to_dict (r : image_ref) : pyval :=
  VDict [(u "registry", VStr (i_registry r)); (u "repository", VStr (i_repository r)); (u "requested_reference", VStr (i_requested_reference r))].

(** [OCIConfig] *)
Record image_config := ImageConfig { c_descriptor : descriptor; c_diff_ids : list pystr; c_process : process }.
#[export] Instance image_config_eq_dec : EqDecision image_config.
Proof. solve_decision. Defined.

Fixpoint config_diff_ids (index : N) (values : list pyval) : result (list pystr) :=
  match values with
  | [] => Ok []
  | v :: values =>
      let? d := canonical_digest v (indexed "image config rootfs.diff_ids" index) in
      let? rest := config_diff_ids (N.succ index) values in
      Ok (d :: rest)
  end.

(** Its fields [os], [architecture] and [rootfs_type] have one value each. *)
Definition image_config_init (d : descriptor) (os architecture rootfs_type : pyval) (diff_ids : list pyval) (p : process) : result image_config :=
  raise "image config descriptor has an unsupported media type" when negb (one_of (d_media_type d) SUPPORTED_IMAGE_CONFIG_MEDIA_TYPES) ;;
  raise "Phase-1 image config must target exactly linux/amd64" when negb (eq_str os (u "linux")) || negb (eq_str architecture (u "amd64")) ;;
  raise "image config rootfs.type must be 'layers'" when negb (eq_str rootfs_type (u "layers")) ;;
  let? ids := config_diff_ids 0 diff_ids in
  Ok (ImageConfig d ids p).

Definition image_config_to_dict (c : image_config) : pyval :=
  VDict [(u "architecture", VStr (u "amd64")); (u "descriptor", descriptor_to_dict (c_descriptor c)); (u "os", VStr (u "linux"));
         (u "process", VDict (process_to_dict (c_process c)));
         (u "rootfs", VDict [(u "diff_ids", VList (map VStr (c_diff_ids c))); (u "type", VStr (u "layers"))])].

(** [OCILayerSource] *)
Record layer_source := LayerSource { l_ordinal : Z; l_compressed : descriptor; l_diff_id : pystr }.
#[export] Instance layer_source_eq_dec : EqDecision layer_source.
Proof. solve_decision. Defined.

Definition layer_source_init (ordinal : Z) (compressed : descriptor) (diff_id : pyval) : result layer_source :=
  raise "source layer ordinal must be a nonnegative integer" when ordinal <? 0 ;;
  raise "source layer has an unsupported compressed media type" when negb (one_of (d_media_type compressed) SUPPORTED_COMPRESSED_LAYER_MEDIA_TYPES) ;;
  let? d := canonical_digest diff_id "source layer diff_id" in
  Ok (LayerSource ordinal compressed d).

Definition layer_source_to_dict (l : layer_source) : pyval :=
  VDict [(u "compressed", descriptor_to_dict (l_compressed l)); (u "diff_id", VStr (l_diff_id l)); (u "ordinal", VInt (l_ordinal l))].

(** [OCIImage]; its platform and policy have one value each *)
Record image := Image {
  i_reference : image_ref;
  i_index : option descriptor;
  i_manifest : descriptor;
  i_config : image_config;
  i_platform : platform;
  i_layers : list layer_source;
}.
#[export] Instance image_eq_dec : EqDecision image.
Proof. solve_decision. Defined.

(** [Platform(os="linux", architecture="amd64")] *)
Definition phase1_platform : platform := Platform (u "linux") (u "amd64") None None [].

Definition image_init (reference : image_ref) (index : option descriptor) (manifest : descriptor) (config : image_config) (p : platform)
    (layers : list layer_source) : result image :=
  raise "image index descriptor has an unsupported media type" when negb (index_supported index) ;;
  raise "image manifest descriptor has an unsupported media type" when negb (one_of (d_media_type manifest) SUPPORTED_IMAGE_MANIFEST_MEDIA_TYPES) ;;
  raise "Phase-1 image platform must be exactly linux/amd64" when negb (bool_decide (p = phase1_platform)) ;;
  raise "image must contain between 1 and 128 layers" when negb ((1 <=? zlen layers) && (zlen layers <=? MAX_IMAGE_LAYERS)) ;;
  raise "source layer ordinals must be contiguous, ordered, and zero-based" when negb (bool_decide (map l_ordinal layers = seqZ 0 (zlen layers))) ;;
  raise "source layer DiffIDs must match the image config order" when negb (bool_decide (map l_diff_id layers = c_diff_ids config)) ;;
  Ok (Image reference index manifest config p layers).

(** [OCIImage.source] *)
Definition image_source (i : image) : result source :=
  source_init (VStr (i_registry (i_reference i))) (VStr (i_repository (i_reference i))) (VStr (i_requested_reference (i_reference i)))
    (i_index i) (i_manifest i) (c_descriptor (i_config i)) (i_platform i).

Definition image_to_dict (i : image) : pyval :=
  VDict [(u "config", image_config_to_dict (i_config i)); (u "index_descriptor", opt_descriptor (i_index i));
         (u "layers", VList (map layer_source_to_dict (i_layers i))); (u "manifest_descriptor", descriptor_to_dict (i_manifest i));
         (u "platform", platform_to_dict (i_platform i)); (u "reference", image_ref_to_dict (i_reference i));
         (u "reserved_path_policy", VStr (u RESERVED_PATH_POLICY_ID))].

Definition image_canonical_bytes (i : image) : result bytes := canonical_json_bytes (image_to_dict i).
Definition image_digest `{Hash} (i : image) : result pystr := result_map digest_text (image_canonical_bytes i).

(** * Wire descriptors *)

Record wire_platform := WirePlatform { w_os : pystr; w_architecture : pystr; w_variant : option pystr; w_os_version : option pystr; w_os_features : list pystr }.
#[export] Instance wire_platform_eq_dec : EqDecision wire_platform.
Proof. solve_decision. Defined.

Definition is_str (v : pyval) : bool := match v with VStr _ => true | _ => false end.
Definition text_of (v : pyval) : pystr := match v with VStr s => s | _ => [] end.

(** A nonempty string, or the error; [None] passes where it may. *)
Definition nonempty_text (v : pyval) (error : string) : result pystr :=
  match v with VStr (c :: s) => Ok (c :: s) | _ => Err error end.
Definition optional_text (v : pyval) (error : string) : result (option pystr) :=
  match v with VNone => Ok None | _ => result_map Some (nonempty_text v error) end.

(** [_wire_platform] *)
Definition wire_platform_of (value : pyval) (field : string) : result wire_platform :=
  match value with
  | VDict d =>
      raise (with_field field " is malformed") when negb (bool_decide (u "architecture" ∈ dict_keys d)) || negb (bool_decide (u "os" ∈ dict_keys d)) ;;
      match default (VList []) (dict_get d (u "os.features")) with
      | VList features =>
          raise (with_field field ".os.features must be an array of strings") when negb (forallb is_str features) ;;
          let? os := nonempty_text (d.["os"]) (with_field field " os and architecture must be nonempty strings") in
          let? architecture := nonempty_text (d.["architecture"]) (with_field field " os and architecture must be nonempty strings") in
          let? variant := optional_text (d.["variant"]) (with_field field ".variant must be a nonempty string") in
          let? os_version := optional_text (d.["os.version"]) (with_field field ".os.version must be a nonempty string") in
          Ok (WirePlatform os architecture variant os_version (map text_of features))
      | _ => Err (with_field field ".os.features must be an array of strings")
      end
  | _ => Err (with_field field " must be an object")
  end.

(** [value[key]] of a descriptor *)
Definition wire_member (d : list (pystr * pyval)) (key field : string) : result pyval :=
  match dict_get d (u key) with Some v => Ok v | None => Err (field ++ " is missing '" ++ key ++ "'")%string end.

(** [_wire_descriptor]: the descriptor and the platform of an index entry *)
Definition wire_descriptor (value : pyval) (field : string) (platform_allowed : bool) : result (descriptor * option wire_platform) :=
  match value with
  | VDict d =>
      let? media_type := wire_member d "mediaType" field in
      let? digest := wire_member d "digest" field in
      let? size := wire_member d "size" field in
      let? desc := descriptor_init media_type digest size in
      raise (with_field field ".urls must be an array of strings")
        when match d.["urls"] with VNone => false | VList urls => negb (forallb is_str urls) | _ => true end ;;
      raise (with_field field ".annotations must be a string map")
        when match d.["annotations"] with VNone => false | VDict items => negb (forallb (fun kv => is_str kv.2) items) | _ => true end ;;
      raise (with_field field ".artifactType must be a string")
        when match dict_get d (u "artifactType") with Some v => negb (is_str v) | None => false end ;;
      raise (with_field field " uses unsupported embedded descriptor data") when bool_decide (u "data" ∈ dict_keys d) ;;
      match d.["platform"] with
      | VNone => Ok (desc, None)
      | raw =>
          raise (with_field field " cannot contain a platform") when negb platform_allowed ;;
          let? p := wire_platform_of raw (with_field field ".platform") in
          Ok (desc, Some p)
      end
  | _ => Err (with_field field " must be an OCI descriptor object")
  end.

(** [_exact_phase1_platform] *)
Definition exact_phase1_platform (p : option wire_platform) : bool :=
  bool_decide (p = Some (WirePlatform (u "linux") (u "amd64") None None [])).

Definition is_schema_2 (document : list (pystr * pyval)) : bool := match document.["schemaVersion"] with VInt n => n =? 2 | _ => false end.

(** [_require_document_media_type] *)
Definition document_media_type (document : list (pystr * pyval)) (d : descriptor) (field : string) : result unit :=
  raise (with_field field " mediaType does not match its descriptor") when negb (eq_str (document.["mediaType"]) (d_media_type d)) ;; Ok tt.

(** * Resolution *)

Section resolve.
Context `{Hash}.
Variable reader : descriptor -> result bytes.

(** [_parse_config] *)
Definition parse_image_config (d : descriptor) : result image_config :=
  raise "image config descriptor has an unsupported media type" when negb (one_of (d_media_type d) SUPPORTED_IMAGE_CONFIG_MEDIA_TYPES) ;;
  let? document := read_json_blob reader d "OCI image config" in
  match document.["rootfs"] with
  | VDict rootfs =>
      raise "image config rootfs must contain type and diff_ids"
        when negb (bool_decide (u "type" ∈ dict_keys rootfs)) || negb (bool_decide (u "diff_ids" ∈ dict_keys rootfs)) ;;
      match rootfs.["diff_ids"] with
      | VList diff_ids =>
          let? p := process_from_config (document.["config"]) in
          image_config_init d (document.["os"]) (document.["architecture"]) (rootfs.["type"]) diff_ids p
      | _ => Err "image config rootfs.diff_ids must be an array"
      end
  | _ => Err "image config rootfs must contain type and diff_ids"
  end.

(** The types of one wire profile: of the configuration and of the layers. *)
Definition profile_of (manifest : descriptor) : string * list string :=
  if bool_decide (d_media_type manifest = u OCI_IMAGE_MANIFEST_MEDIA_TYPE)
  then (OCI_IMAGE_CONFIG_MEDIA_TYPE, [OCI_LAYER_MEDIA_TYPE; OCI_LAYER_GZIP_MEDIA_TYPE])
  else (DOCKER_IMAGE_CONFIG_MEDIA_TYPE, [DOCKER_LAYER_GZIP_MEDIA_TYPE]).

(** The loop over the layers of the manifest. *)
Fixpoint compressed_layers (expected : list string) (index : N) (raw : list pyval) : result (list descriptor) :=
  match raw with
  | [] => Ok []
  | v :: raw =>
      let field := indexed "manifest.layers" index in
      let? ' (layer, _) := wire_descriptor v field false in
      raise (with_field field " has an unsupported layer media type") when negb (one_of (d_media_type layer) SUPPORTED_COMPRESSED_LAYER_MEDIA_TYPES) ;;
      raise (with_field field " belongs to a different wire profile") when negb (one_of (d_media_type layer) expected) ;;
      let? rest := compressed_layers expected (N.succ index) raw in
      Ok (layer :: rest)
  end.

Fixpoint source_layers (index : Z) (compressed : list descriptor) (diff_ids : list pystr) : result (list layer_source) :=
  match compressed, diff_ids with
  | layer :: compressed, diff_id :: diff_ids =>
      let? l := layer_source_init index layer (VStr diff_id) in
      let? rest := source_layers (index + 1) compressed diff_ids in
      Ok (l :: rest)
  | _, _ => Ok []
  end.

(** [_resolve_manifest] *)
Definition resolve_manifest (reference : image_ref) (manifest : descriptor) (index : option descriptor) : result image :=
  raise "selected descriptor is not a supported OCI/Docker v2 image manifest" when negb (one_of (d_media_type manifest) SUPPORTED_IMAGE_MANIFEST_MEDIA_TYPES) ;;
  let? document := read_json_blob reader manifest "OCI image manifest" in
  raise "OCI image manifest must use schemaVersion 2" when negb (is_schema_2 document) ;;
  let? _ := document_media_type document manifest "OCI image manifest" in
  let? ' (config_descriptor, _) := wire_descriptor (document.["config"]) "manifest.config" false in
  let ' (expected_config, expected_layers) := profile_of manifest in
  raise "image manifest and config media types belong to different wire profiles" when negb (bool_decide (d_media_type config_descriptor = u expected_config)) ;;
  match document.["layers"] with
  | VList raw_layers =>
      raise "OCI image manifest must contain between 1 and 128 layers" when negb ((1 <=? zlen raw_layers) && (zlen raw_layers <=? MAX_IMAGE_LAYERS)) ;;
      let? compressed := compressed_layers expected_layers 0 raw_layers in
      let? config := parse_image_config config_descriptor in
      raise "image config DiffID count does not match manifest layer count" when negb (zlen (c_diff_ids config) =? zlen compressed) ;;
      let? layers := source_layers 0 compressed (c_diff_ids config) in
      let? p := platform_init (VStr (u "linux")) (VStr (u "amd64")) VNone VNone [] in
      image_init reference index manifest config p layers
  | _ => Err "OCI image manifest layers must be an array"
  end.

Definition manifest_type_of (root : descriptor) : string :=
  if bool_decide (d_media_type root = u OCI_IMAGE_INDEX_MEDIA_TYPE) then OCI_IMAGE_MANIFEST_MEDIA_TYPE else DOCKER_IMAGE_MANIFEST_MEDIA_TYPE.

(** The loop over the manifests of the index. *)
Fixpoint index_matches (expected : string) (index : N) (raw : list pyval) : result (list descriptor) :=
  match raw with
  | [] => Ok []
  | v :: raw =>
      let? ' (d, p) := wire_descriptor v (indexed "index.manifests" index) true in
      if exact_phase1_platform p then
        raise "linux/amd64 index entry is not a supported image manifest" when negb (one_of (d_media_type d) SUPPORTED_IMAGE_MANIFEST_MEDIA_TYPES) ;;
        raise "image index and manifest media types belong to different wire profiles" when negb (bool_decide (d_media_type d = u expected)) ;;
        let? rest := index_matches expected (N.succ index) raw in
        Ok (d :: rest)
      else index_matches expected (N.succ index) raw
  end.

(** [requested_digest != root_descriptor.digest], where the reference has a digest *)
Definition pin_contradicts (reference : image_ref) (root : descriptor) : bool :=
  match rpartition 64 (i_requested_reference reference) with
  | (_, true, requested) => negb (bool_decide (requested = d_digest root))
  | _ => false
  end.

(** [resolve_image] *)
Definition resolve_image (reference : image_ref) (root : descriptor) : result image :=
  raise "requested reference digest does not match the root descriptor"
    when pin_contradicts reference root ;;
  if one_of (d_media_type root) SUPPORTED_IMAGE_MANIFEST_MEDIA_TYPES then resolve_manifest reference root None
  else
    raise "root descriptor is not a supported OCI/Docker v2 image manifest or index" when negb (one_of (d_media_type root) SUPPORTED_IMAGE_INDEX_MEDIA_TYPES) ;;
    let? document := read_json_blob reader root "OCI image index" in
    raise "OCI image index must use schemaVersion 2" when negb (is_schema_2 document) ;;
    let? _ := document_media_type document root "OCI image index" in
    match document.["manifests"] with
    | VList manifests =>
        let? matches := index_matches (manifest_type_of root) 0 manifests in
        match matches with
        | [] => Err "OCI image index has no exact linux/amd64 manifest"
        | [manifest] => resolve_manifest reference manifest (Some root)
        | _ => Err "OCI image index has ambiguous linux/amd64 manifests"
        end
    | _ => Err "OCI image index manifests must be an array"
    end.
End resolve.
