(* ===== verification/ImageFacts.v ===== *)
(** Resolution step by step: verified blobs, the layers of a manifest, the
    matches of an index, and what a resolved image is made of. *)
From S2P Require Import Prelude Crypto PyStr PyText PyVal Utf8 Json Regex Digest Process Names NamesFacts Provenance ProvenanceFacts Image.

Section blobs.
Context `{Hash}.

(** The loop hashes everything, whatever the chunks. *)
Lemma blob_chunks_Ok size chunks : forall total hasher t h, total <= size -> blob_chunks size total hasher chunks = Ok (t, h) <->
  Forall (fun c => c <> []) chunks /\ t = total + zlen (concat chunks) /\ h = hasher ++ concat chunks /\ t <= size.
Proof.
  induction chunks as [|c chunks IH]; intros total hasher t h Ht; cbn [blob_chunks concat].
  - rewrite app_nil_r. split.
    + intros E. apply (inj Ok), pair_equal_spec in E as [<- <-]. split; [constructor|]. zlen_norm. split; [lia|]. by split.
    + intros (_ & -> & -> & _). do 2 f_equal. zlen_norm. lia.
  - destruct (bool_decide (c = [])) eqn:Gc; bool_norm; [split; [done|]; intros [[? _]%Forall_cons _]; done|].
    rewrite Forall_cons, zlen_app. pose proof (zlen_nonneg (concat chunks)). destruct (size <? total + zlen c) eqn:G; bool_norm.
    + split; [done|]. intros (_ & -> & _ & ?). lia.
    + rewrite IH by done. rewrite <- app_assoc, Z.add_assoc. naive_solver.
Qed.

Definition digest_field_ok (dg : pyval) (digest : pystr) : Prop := canonical_digest dg "blob expected_digest" = Ok digest.

(** Streaming verification is the check of the whole content. *)
Lemma verify_blob_chunks_whole dg sz chunks : verify_blob_chunks dg sz chunks = Ok tt <->
  exists digest size, digest_field_ok dg digest /\ sz = VInt size /\ 0 <= size <= 2 ^ 63 - 1 /\ Forall (fun c => c <> []) chunks /\
    zlen (concat chunks) = size /\ digest_text (concat chunks) = digest.
Proof.
  unfold verify_blob_chunks, digest_field_ok. destruct (canonical_digest dg _) as [digest|] eqn:Ed; cbn [result_bind]; [|split; [done|intros (? & ? & ? & _); done]].
  destruct sz as [| |size| | | | |]; try (split; [done|intros (? & ? & _ & ? & _); done]).
  destruct (negb _) eqn:G.
  { split; [done|]. intros (? & s & _ & E & Hs & _). assert (s = size) as -> by congruence. apply negb_true_iff, andb_false_iff in G as [G|G]; bool_norm; lia. }
  bool_norm. destruct (blob_chunks size 0 [] chunks) as [[t h]|e] eqn:E; cbn [result_bind].
  - pose proof E as E'. rewrite blob_chunks_Ok in E' by lia. destruct E' as (Hf & -> & -> & Hle). cbn [app]. rewrite Z.add_0_l.
    destruct (zlen (concat chunks) =? size) eqn:Gs; cbn [negb]; bool_norm.
    + destruct (bool_decide (digest_text (concat chunks) = digest)) eqn:Gd; cbn [negb]; bool_norm.
      * split; [intros _|done]. by exists digest, size.
      * split; [done|]. intros (d' & s' & [= <-] & _ & _ & _ & _ & ?). done.
    + split; [done|]. intros (d' & s' & _ & Es & _ & _ & ? & _). congruence.
  - split; [done|]. intros (d' & s' & _ & Es & _ & Hf & Hl & _). assert (s' = size) as -> by congruence.
    assert (blob_chunks size 0 [] chunks = Ok (zlen (concat chunks), concat chunks)) as Hx; [|congruence].
    rewrite blob_chunks_Ok by lia. cbn [app]. split; [done|]. split; [lia|]. split; [done|lia].
Qed.

(** The bytes a descriptor names. *)
Definition names_bytes (d : descriptor) (b : bytes) : Prop := zlen b = d_size d /\ digest_text b = d_digest d.

Lemma verify_descriptor_Ok d b p : verify_descriptor_bytes d b = Ok p <-> p = b /\ verify_descriptor_bytes d b = Ok b.
Proof.
  unfold verify_descriptor_bytes. destruct (verify_blob_chunks _ _ _); cbn [result_bind]; [|split; [done|intros [_ ?]; done]].
  split; [intros E; apply (inj Ok) in E as <-|intros [-> _]]; done.
Qed.

Lemma verify_descriptor_iff d b : descriptor_fixed d -> verify_descriptor_bytes d b = Ok b <-> names_bytes d b.
Proof.
  intros Hd. unfold verify_descriptor_bytes, names_bytes. assert (concat (match b with [] => [] | _ => [b] end) = b) as Hc by (destruct b; cbn; by rewrite ?app_nil_r).
  assert (Forall (fun c : bytes => c <> []) (match b with [] => [] | _ => [b] end)) as Hf by (destruct b; by repeat constructor).
  assert (digest_field_ok (VStr (d_digest d)) (d_digest d)) as Hdg.
  { unfold descriptor_fixed, descriptor_init in Hd. apply result_bind_Ok in Hd as (t & _ & E). destruct (_ || _ || _); [done|].
    apply result_bind_Ok in E as (h & Eh & _). destruct (canonical_digest_Ok _ _ _ Eh) as [Hv _]. assert (d_digest d = h) as -> by congruence. by eapply canonical_digest_again. }
  destruct (descriptor_chars d Hd) as (_ & _ & Hs).
  pose proof (verify_blob_chunks_whole (VStr (d_digest d)) (VInt (d_size d)) (match b with [] => [] | _ => [b] end)) as Hw. rewrite Hc in Hw.
  destruct (verify_blob_chunks _ _ _) as [[]|e]; cbn [result_bind].
  - split; [intros _|done]. destruct (proj1 Hw eq_refl) as (dg & s & Edg & Es & _ & _ & Hz & Ht). unfold digest_field_ok in *. split; congruence.
  - split; [done|]. intros [Hz Ht]. assert (@Err unit e = Ok tt) as ?; [|done]. apply Hw. exists (d_digest d), (d_size d). done.
Qed.

Lemma verify_digest d b : verify_descriptor_bytes d b = Ok b -> names_bytes d b.
Proof.
  unfold verify_descriptor_bytes. intros (t & E & _)%result_bind_Ok. destruct t. apply verify_blob_chunks_whole in E as (dg & s & Edg & Es & _ & _ & Hz & Ht).
  assert (concat (match b with [] => [] | _ => [b] end) = b) as Hc by (destruct b; cbn; by rewrite ?app_nil_r). rewrite Hc in Hz, Ht.
  destruct (canonical_digest_Ok _ _ _ Edg) as [Hv _]. split; congruence.
Qed.

(** A document: its bytes are the ones the descriptor names. *)
Definition read_document (reader : descriptor -> result bytes) (d : descriptor) (doc : list (pystr * pyval)) : Prop :=
  exists b field, reader d = Ok b /\ names_bytes d b /\ strict_json_object b field = Ok doc.

Lemma read_json_blob_Ok reader d field doc : read_json_blob reader d field = Ok doc -> read_document reader d doc.
Proof.
  unfold read_json_blob. destruct (MAX_IMAGE_JSON_BYTES <? d_size d); [done|]. intros (b & Eb & E)%result_bind_Ok. exists b, field.
  unfold read_verified_blob in Eb. destruct (reader d) as [p|e]; [|by destruct (_ || _)]. apply verify_descriptor_Ok in Eb as [-> Eb].
  split; [done|]. split; [by apply verify_digest|done].
Qed.

(** Two readers that give a descriptor different bytes of the same digest. *)
Definition blob_collision (r1 r2 : descriptor -> result bytes) : Prop :=
  exists d b1 b2, r1 d = Ok b1 /\ r2 d = Ok b2 /\ b1 <> b2 /\ zlen b1 = zlen b2 /\ digest_text b1 = digest_text b2.

Lemma read_json_blob_agree r1 r2 d field : forall doc1 doc2, read_json_blob r1 d field = Ok doc1 -> read_json_blob r2 d field = Ok doc2 ->
  doc1 = doc2 \/ blob_collision r1 r2.
Proof.
  intros doc1 doc2. unfold read_json_blob. destruct (MAX_IMAGE_JSON_BYTES <? d_size d); [done|].
  intros (b1 & E1 & D1)%result_bind_Ok (b2 & E2 & D2)%result_bind_Ok. unfold read_verified_blob in E1, E2.
  destruct (r1 d) as [p1|] eqn:R1; [|by destruct (_ || _)]. destruct (r2 d) as [p2|] eqn:R2; [|by destruct (_ || _)].
  apply verify_descriptor_Ok in E1 as [-> E1]. apply verify_descriptor_Ok in E2 as [-> E2].
  destruct (decide (p1 = p2)) as [->|Hne]; [left; congruence|right]. destruct (verify_digest _ _ E1), (verify_digest _ _ E2). exists d, p1, p2.
  split; [done|]. split; [done|]. split; [done|]. split; congruence.
Qed.
End blobs.

(** * What a resolved image is made of *)

Definition wire (v : pyval) (allowed : bool) (d : descriptor) (p : option wire_platform) : Prop := exists field, wire_descriptor v field allowed = Ok (d, p).

(** The configuration and the layers of a manifest *)
Definition manifest_lists (doc : list (pystr * pyval)) (config : descriptor) (layers : list descriptor) : Prop :=
  (exists p, wire (doc.["config"]) false config p) /\
  exists raw, doc.["layers"] = VList raw /\ Forall2 (fun v d => exists p, wire v false d p) raw layers.

(** The platform and the diff ids of a configuration *)
Definition config_lists (doc : list (pystr * pyval)) (diff_ids : list pystr) : Prop :=
  doc.["os"] = VStr (u "linux") /\ doc.["architecture"] = VStr (u "amd64") /\
  exists rootfs, doc.["rootfs"] = VDict rootfs /\ rootfs.["type"] = VStr (u "layers") /\ rootfs.["diff_ids"] = VList (map VStr diff_ids).

(** Exactly one entry of the index is for linux/amd64. *)
Definition index_selects (doc : list (pystr * pyval)) (manifest : descriptor) : Prop :=
  exists raw entries, doc.["manifests"] = VList raw /\ Forall2 (fun v e => wire v true e.1 e.2) raw entries /\
    List.filter (fun e => exact_phase1_platform e.2) entries = [(manifest, Some (WirePlatform (u "linux") (u "amd64") None None []))].

Definition profile (manifest config : string) (layer_types : list string) (m c : descriptor) (layers : list descriptor) : Prop :=
  d_media_type m = u manifest /\ d_media_type c = u config /\ Forall (fun l => one_of (d_media_type l) layer_types = true) layers.
Definition one_profile (m c : descriptor) (layers : list descriptor) : Prop :=
  profile OCI_IMAGE_MANIFEST_MEDIA_TYPE OCI_IMAGE_CONFIG_MEDIA_TYPE [OCI_LAYER_MEDIA_TYPE; OCI_LAYER_GZIP_MEDIA_TYPE] m c layers \/
  profile DOCKER_IMAGE_MANIFEST_MEDIA_TYPE DOCKER_IMAGE_CONFIG_MEDIA_TYPE [DOCKER_LAYER_GZIP_MEDIA_TYPE] m c layers.

Lemma eq_str_true v s : eq_str v s = true -> v = VStr s.
Proof. destruct v; try done. cbn. intros E. bool_norm. by subst. Qed.

Lemma wire_descriptor_built v f a d p : wire_descriptor v f a = Ok (d, p) -> built_descriptor d.
Proof.
  unfold wire_descriptor. destruct v as [| | | | | | |dd]; try done. intros (m & _ & E)%result_bind_Ok. apply result_bind_Ok in E as (g & _ & E).
  apply result_bind_Ok in E as (s & _ & E). apply result_bind_Ok in E as (x & Ex & E).
  enough (x = d) as -> by (by exists m, g, s). destruct (match dd.["urls"] with VNone => _ | _ => _ end); [done|].
  destruct (match dd.["annotations"] with VNone => _ | _ => _ end); [done|]. destruct (match dict_get dd _ with Some _ => _ | None => _ end); [done|].
  destruct (bool_decide _); [done|].
  assert (forall w, result_bind (wire_platform_of w (with_field f ".platform")) (fun q => Ok (x, Some q)) = Ok (d, p) -> x = d) as Hw.
  { intros w (q & _ & Eq)%result_bind_Ok. apply (inj Ok), pair_equal_spec in Eq as [-> _]. done. }
  destruct (dd.["platform"]); [apply (inj Ok), pair_equal_spec in E as [-> _]; done|..]; (destruct (negb a); [done|by eapply Hw]).
Qed.

Lemma compressed_layers_Ok expected raw : forall i ls, compressed_layers expected i raw = Ok ls ->
  Forall2 (fun v d => exists p, wire v false d p) raw ls /\ Forall (fun l => one_of (d_media_type l) expected = true) ls /\ Forall built_descriptor ls /\
  Forall (fun l => one_of (d_media_type l) SUPPORTED_COMPRESSED_LAYER_MEDIA_TYPES = true) ls.
Proof.
  induction raw as [|v raw IH]; intros i ls; cbn [compressed_layers]; [intros E; apply (inj Ok) in E as <-; repeat constructor|].
  intros ([l p] & El & E)%result_bind_Ok. destruct (negb (one_of _ SUPPORTED_COMPRESSED_LAYER_MEDIA_TYPES)) eqn:G1; [done|]. destruct (negb (one_of _ expected)) eqn:G2; [done|].
  apply result_bind_Ok in E as (rest & Er & E). apply (inj Ok) in E as <-. apply IH in Er as (H1 & H2 & H3 & H4). bool_norm.
  split; [constructor; [by exists p; eexists|done]|]. split; [by constructor|]. split; [constructor; [by eapply wire_descriptor_built|done]|by constructor].
Qed.

Lemma source_layers_Ok ls : forall n ids out, length ids = length ls -> source_layers n ls ids = Ok out ->
  map l_compressed out = ls /\ map l_diff_id out = ids.
Proof.
  induction ls as [|l ls IH]; intros n [|d ids] out Hl; cbn [source_layers]; try done; [intros E; by apply (inj Ok) in E as <-|].
  intros (x & Ex & E)%result_bind_Ok. apply result_bind_Ok in E as (rest & Er & E). apply (inj Ok) in E as <-.
  apply IH in Er as [H1 H2]; [|by injection Hl]. unfold layer_source_init in Ex. destruct (n <? 0); [done|]. destruct (negb _); [done|].
  apply result_bind_Ok in Ex as (h & Eh & Ex). apply (inj Ok) in Ex as <-. destruct (canonical_digest_Ok _ _ _ Eh) as [Hv _].
  cbn [map l_compressed l_diff_id]. split; congruence.
Qed.

Lemma config_diff_ids_Ok vs : forall i ids, config_diff_ids i vs = Ok ids -> vs = map VStr ids.
Proof.
  induction vs as [|v vs IH]; intros i ids; cbn [config_diff_ids]; [intros E; by apply (inj Ok) in E as <-|].
  intros (d & Ed & E)%result_bind_Ok. apply result_bind_Ok in E as (rest & Er & E). apply (inj Ok) in E as <-.
  destruct (canonical_digest_Ok _ _ _ Ed) as [-> _]. cbn [map]. f_equal. by eapply IH.
Qed.

Lemma index_matches_Ok expected raw : forall i ms, index_matches expected i raw = Ok ms -> exists entries,
  Forall2 (fun v e => wire v true e.1 e.2) raw entries /\
  List.filter (fun e => exact_phase1_platform e.2) entries = map (fun m => (m, Some (WirePlatform (u "linux") (u "amd64") None None []))) ms /\
  Forall (fun m => d_media_type m = u expected /\ built_descriptor m) ms.
Proof.
  induction raw as [|v raw IH]; intros i ms; cbn [index_matches]; [intros E; apply (inj Ok) in E as <-; exists []; repeat constructor|].
  intros ([d p] & Ed & E)%result_bind_Ok. destruct (exact_phase1_platform p) eqn:Hp.
  - destruct (negb (one_of _ _)); [done|]. destruct (negb (bool_decide _)) eqn:G; [done|]. apply result_bind_Ok in E as (rest & Er & E). apply (inj Ok) in E as <-.
    apply IH in Er as (es & H1 & H2 & H3). exists ((d, p) :: es). cbn [List.filter snd]. rewrite Hp, H2. unfold exact_phase1_platform in Hp. bool_norm. subst p.
    split; [constructor; [by eexists|done]|]. split; [done|]. constructor; [split; [done|by eapply wire_descriptor_built]|done].
  - apply IH in E as (es & H1 & H2 & H3). exists ((d, p) :: es). cbn [List.filter snd]. rewrite Hp.
    split; [constructor; [by eexists|done]|]. split; done.
Qed.

Section resolve.
Context `{Hash}.

Lemma parse_image_config_Ok reader d c : parse_image_config reader d = Ok c -> c_descriptor c = d /\ exists doc, read_document reader d doc /\
  config_lists doc (c_diff_ids c) /\ process_from_config (doc.["config"]) = Ok (c_process c) /\ one_of (d_media_type d) SUPPORTED_IMAGE_CONFIG_MEDIA_TYPES = true.
Proof.
  unfold parse_image_config. destruct (negb (one_of _ _)) eqn:G; [done|]. intros (doc & Ed & E)%result_bind_Ok. apply read_json_blob_Ok in Ed.
  destruct (doc.["rootfs"]) as [| | | | | | |rootfs] eqn:Er; try done. destruct (_ || _); [done|].
  destruct (rootfs.["diff_ids"]) as [| | | | |ids| |] eqn:Ei; try done. apply result_bind_Ok in E as (p & Ep & E). unfold image_config_init in E.
  rewrite G in E. destruct (_ || _) eqn:Gp; [done|]. destruct (negb (eq_str (rootfs.["type"]) _)) eqn:Gt; [done|]. bool_norm.
  apply result_bind_Ok in E as (l & El & E). apply (inj Ok) in E as <-. cbn [c_descriptor c_diff_ids c_process]. split; [done|]. exists doc.
  split; [done|]. split; [|by bool_norm]. split; [by apply eq_str_true|]. split; [by apply eq_str_true|]. exists rootfs.
  split; [done|]. split; [by apply eq_str_true|]. rewrite Ei. f_equal. by eapply config_diff_ids_Ok.
Qed.

Lemma one_profile_intro m c ls : one_of (d_media_type m) SUPPORTED_IMAGE_MANIFEST_MEDIA_TYPES = true ->
  d_media_type c = u (profile_of m).1 -> Forall (fun l => one_of (d_media_type l) (profile_of m).2 = true) ls -> one_profile m c ls.
Proof.
  unfold profile_of, one_profile, profile. destruct (bool_decide (d_media_type m = u OCI_IMAGE_MANIFEST_MEDIA_TYPE)) eqn:G; bool_norm; cbn [fst snd]; [by left|].
  intros Hm Hc Hl. right. split; [|done]. unfold one_of in Hm. bool_norm. apply elem_of_cons in Hm as [?|Hm]; [done|]. by apply list_elem_of_singleton in Hm.
Qed.

(** The descriptors and the document of the manifest of a resolved image *)
Lemma resolve_manifest_Ok reader ref m index img : resolve_manifest reader ref m index = Ok img ->
  i_reference img = ref /\ i_index img = index /\ i_manifest img = m /\ i_platform img = phase1_platform /\
  (exists doc, read_document reader m doc /\ manifest_lists doc (c_descriptor (i_config img)) (map l_compressed (i_layers img))) /\
  (exists doc, read_document reader (c_descriptor (i_config img)) doc /\ config_lists doc (map l_diff_id (i_layers img)) /\
    process_from_config (doc.["config"]) = Ok (c_process (i_config img))) /\
  one_profile m (c_descriptor (i_config img)) (map l_compressed (i_layers img)) /\
  1 <= zlen (i_layers img) <= MAX_IMAGE_LAYERS /\ map l_ordinal (i_layers img) = seqZ 0 (zlen (i_layers img)) /\
  built_descriptor (c_descriptor (i_config img)) /\ index_supported index = true /\ one_of (d_media_type m) SUPPORTED_IMAGE_MANIFEST_MEDIA_TYPES = true /\
  one_of (d_media_type (c_descriptor (i_config img))) SUPPORTED_IMAGE_CONFIG_MEDIA_TYPES = true.
Proof.
  unfold resolve_manifest. destruct (negb (one_of (d_media_type m) _)) eqn:Gm; [done|]. intros (doc & Ed & E)%result_bind_Ok. apply read_json_blob_Ok in Ed.
  destruct (negb (is_schema_2 doc)); [done|]. apply result_bind_Ok in E as (t & _ & E). apply result_bind_Ok in E as ([cd cp] & Ec & E).
  destruct (profile_of m) as [ec el] eqn:Hprof. destruct (negb (bool_decide (d_media_type cd = u ec))) eqn:Gc; [done|].
  destruct (doc.["layers"]) as [| | | | |raw| |] eqn:El; try done. destruct (negb ((1 <=? zlen raw) && _)); [done|]. apply result_bind_Ok in E as (ls & Els & E).
  apply result_bind_Ok in E as (config & Econf & E). destruct (negb (zlen (c_diff_ids config) =? zlen ls)) eqn:Gl; [done|].
  apply result_bind_Ok in E as (layers & Elay & E). apply result_bind_Ok in E as (p & Ep & E). bool_norm.
  assert (length (c_diff_ids config) = length ls) as Hlen by (unfold zlen in *; lia). apply (source_layers_Ok _ _ _ _ Hlen) in Elay as [Hcomp Hdiff].
  apply parse_image_config_Ok in Econf as (Hcd & cdoc & Hcdoc & Hids & Hproc & Hsup). apply compressed_layers_Ok in Els as (Hwire & Htypes & _ & _).
  pose proof (wire_descriptor_built _ _ _ _ _ Ec) as Hbuilt. unfold image_init in E. destruct (negb (index_supported index)) eqn:Gi; [done|].
  destruct (negb (one_of (d_media_type m) _)) eqn:Gm2; [done|]. destruct (negb (bool_decide (p = phase1_platform))) eqn:Gp; [done|].
  destruct (negb ((1 <=? zlen layers) && _)) eqn:Gn; [done|]. destruct (negb (bool_decide (map l_ordinal layers = _))) eqn:Go; [done|].
  destruct (negb (bool_decide (map l_diff_id layers = _))) eqn:Gd; [done|]. apply (inj Ok) in E as <-. cbn [i_reference i_index i_manifest i_platform i_config i_layers]. bool_norm.
  rewrite Hcomp, Hcd, Hdiff. split; [done|]. split; [done|]. split; [done|]. split; [done|].
  split; [exists doc; split; [done|]; split; [by eexists; eexists|by exists raw]|]. split; [exists cdoc; split; [done|]; by split|].
  split; [apply one_profile_intro; rewrite ?Hprof; done|]. split; [lia|]. split; [done|]. split; [done|]. by split.
Qed.

(** Whatever agrees on the verified bytes resolves alike. *)
Lemma parse_image_config_agree r1 r2 d c1 c2 : parse_image_config r1 d = Ok c1 -> parse_image_config r2 d = Ok c2 -> c1 = c2 \/ blob_collision r1 r2.
Proof.
  unfold parse_image_config. destruct (negb (one_of _ _)); [done|]. intros (d1 & E1 & K1)%result_bind_Ok (d2 & E2 & K2)%result_bind_Ok.
  destruct (read_json_blob_agree r1 r2 _ _ _ _ E1 E2) as [->|?]; [left; congruence|by right].
Qed.

Lemma resolve_manifest_agree r1 r2 ref m index i1 i2 : resolve_manifest r1 ref m index = Ok i1 -> resolve_manifest r2 ref m index = Ok i2 ->
  i1 = i2 \/ blob_collision r1 r2.
Proof.
  unfold resolve_manifest. destruct (negb (one_of (d_media_type m) _)); [done|]. intros (d1 & E1 & K1)%result_bind_Ok (d2 & E2 & K2)%result_bind_Ok.
  destruct (read_json_blob_agree r1 r2 _ _ _ _ E1 E2) as [->|?]; [|by right]. destruct (negb (is_schema_2 d2)); [done|].
  destruct (document_media_type d2 m _); [|done]. cbn [result_bind] in K1, K2. destruct (wire_descriptor _ _ _) as [[cd cp]|]; [|done]. cbn [result_bind] in K1, K2.
  destruct (profile_of m) as [ec el]. destruct (negb (bool_decide (d_media_type cd = u ec))); [done|]. destruct (d2.["layers"]) as [| | | | |raw| |]; try done.
  destruct (negb _); [done|]. destruct (compressed_layers el 0 raw) as [ls|]; [|done]. cbn [result_bind] in K1, K2.
  apply result_bind_Ok in K1 as (c1 & C1 & K1). apply result_bind_Ok in K2 as (c2 & C2 & K2).
  destruct (parse_image_config_agree r1 r2 _ _ _ C1 C2) as [->|?]; [left; congruence|by right].
Qed.

Lemma resolve_image_agree r1 r2 ref root i1 i2 : resolve_image r1 ref root = Ok i1 -> resolve_image r2 ref root = Ok i2 -> i1 = i2 \/ blob_collision r1 r2.
Proof.
  unfold resolve_image. destruct (pin_contradicts ref root); [done|]. destruct (one_of (d_media_type root) SUPPORTED_IMAGE_MANIFEST_MEDIA_TYPES); [apply resolve_manifest_agree|].
  destruct (negb _); [done|]. intros (d1 & E1 & K1)%result_bind_Ok (d2 & E2 & K2)%result_bind_Ok.
  destruct (read_json_blob_agree r1 r2 _ _ _ _ E1 E2) as [->|?]; [|by right]. destruct (negb (is_schema_2 d2)); [done|].
  destruct (document_media_type d2 root _); [|done]. cbn [result_bind] in K1, K2. destruct (d2.["manifests"]) as [| | | | |raw| |]; try done.
  destruct (index_matches _ 0 raw) as [[|m [|]]|]; try done. by eapply resolve_manifest_agree.
Qed.

(** What resolution promises of the image of a root *)
Record resolved (reader : descriptor -> result bytes) (ref : image_ref) (root : descriptor) (img : image) : Prop := {
  rs_reference : i_reference img = ref;
  rs_pinned : forall name digest, i_requested_reference ref = name ++ 64 :: digest -> 64 ∉ digest -> digest = d_digest root;
  rs_manifest : i_index img = None /\ i_manifest img = root \/
    i_index img = Some root /\ exists doc, read_document reader root doc /\ index_selects doc (i_manifest img);
  rs_layers : exists doc, read_document reader (i_manifest img) doc /\ manifest_lists doc (c_descriptor (i_config img)) (map l_compressed (i_layers img));
  rs_config : exists doc, read_document reader (c_descriptor (i_config img)) doc /\ config_lists doc (map l_diff_id (i_layers img)) /\
    process_from_config (doc.["config"]) = Ok (c_process (i_config img));
  rs_profile : one_profile (i_manifest img) (c_descriptor (i_config img)) (map l_compressed (i_layers img));
  rs_count : 1 <= zlen (i_layers img) <= MAX_IMAGE_LAYERS;
  rs_ordinals : map l_ordinal (i_layers img) = seqZ 0 (zlen (i_layers img));
}.

Lemma resolve_image_cases reader ref root img : resolve_image reader ref root = Ok img ->
  (forall name digest, i_requested_reference ref = name ++ 64 :: digest -> 64 ∉ digest -> digest = d_digest root) /\
  (resolve_manifest reader ref root None = Ok img \/
   exists doc m, read_document reader root doc /\ index_selects doc m /\ built_descriptor m /\ resolve_manifest reader ref m (Some root) = Ok img).
Proof.
  unfold resolve_image. destruct (pin_contradicts ref root) eqn:Gr; [done|]. intros E. split.
  { intros name dg Href Hd. unfold pin_contradicts in Gr. rewrite Href, rpartition_app in Gr by done. by bool_norm. }
  destruct (one_of (d_media_type root) SUPPORTED_IMAGE_MANIFEST_MEDIA_TYPES); [by left|right].
  destruct (negb (one_of _ _)); [done|]. apply result_bind_Ok in E as (doc & Ed & E). apply read_json_blob_Ok in Ed. destruct (negb (is_schema_2 doc)); [done|].
  apply result_bind_Ok in E as (t & _ & E). destruct (doc.["manifests"]) as [| | | | |raw| |] eqn:Em; try done. apply result_bind_Ok in E as (ms & Ems & E).
  apply index_matches_Ok in Ems as (es & Hw & Hf & Hb). destruct ms as [|m [|]]; try done. exists doc, m. split; [done|]. split; [by exists raw, es|].
  split; [|done]. apply Forall_cons in Hb as [[_ ?] _]. done.
Qed.

Lemma resolve_image_resolved reader ref root img : resolve_image reader ref root = Ok img -> resolved reader ref root img.
Proof.
  intros (Hpin & [E|(doc & m & Hdoc & Hsel & _ & E)])%resolve_image_cases;
    apply resolve_manifest_Ok in E as (Href & Hi & Hm & _ & Hl & Hc & Hp & Hn & Ho & _); rewrite <- Hm in *; constructor; try done.
  - by left.
  - right. split; [done|]. by exists doc.
Qed.

(** A reference and a root that the constructors built give an image whose
    source is a valid source of provenance. *)
Definition built_image_ref (r : image_ref) : Prop := exists a b c, image_ref_init a b c = Ok r.

Lemma phase1_built : platform_fixed phase1_platform.
Proof. by vm_compute. Qed.

Lemma image_source_built reader ref root img : built_image_ref ref -> built_descriptor root -> resolve_image reader ref root = Ok img ->
  exists s, image_source img = Ok s /\ built_source s.
Proof.
  intros (a & b & c & Eref) Hroot E. apply resolve_image_cases in E as (_ & E).
  assert (exists m index, resolve_manifest reader ref m index = Ok img /\ built_descriptor m /\ (forall d, index = Some d -> built_descriptor d)) as (m & index & Em & Hm & Hi).
  { destruct E as [E|(_ & m & _ & _ & Hm & E)]; [by exists root, None|]. exists m, (Some root). split; [done|]. split; [done|]. by intros d [= <-]. }
  apply resolve_manifest_Ok in Em as (Href & Hidx & Hman & Hplat & _ & _ & _ & _ & _ & Hconf & Hs1 & Hs2 & Hs3).
  unfold image_ref_init in Eref. apply result_bind_Ok in Eref as (rg & Erg & Eref). apply result_bind_Ok in Eref as (rp & Erp & Eref).
  apply result_bind_Ok in Eref as (rr & Err & Eref). apply (inj Ok) in Eref. subst ref.
  apply (registry_authority_idem _ _ _ "source.registry") in Erg. apply (repository_name_again _ _ "source.repository") in Erp. apply requested_reference_idem in Err.
  eexists. assert (image_source img = Ok (Source rg rp rr index m (c_descriptor (i_config img)) phase1_platform)) as Es; [|split; [exact Es|]].
  - unfold image_source. rewrite Href, Hidx, Hman, Hplat. cbn [i_registry i_repository i_requested_reference]. unfold source_init. rewrite Erg. cbn [result_bind].
    rewrite Erp. cbn [result_bind]. rewrite Err. cbn [result_bind]. by rewrite Hs1, Hs2, Hs3.
  - exists (VStr rg), (VStr rp), (VStr rr), index, m, (c_descriptor (i_config img)), phase1_platform. split; [|split; [done|split; [done|split; [done|by apply built_platform_iff, phase1_built]]]].
    unfold source_init. rewrite Erg. cbn [result_bind]. rewrite Erp. cbn [result_bind]. rewrite Err. cbn [result_bind]. by rewrite Hs1, Hs2, Hs3.
Qed.
End resolve.
