(* ===== verification/ImageTheorems.v ===== *)
(** What the resolution of a pinned image promises: the graph is the one the
    verified bytes describe, it depends on nothing but those bytes, and its
    source is a valid source of provenance. *)
From S2P Require Import Prelude Crypto PyStr PyText PyVal Utf8 Json Regex Digest Process Names NamesFacts Provenance ProvenanceFacts Image ImageFacts Sha256.

(** C9: what [resolve_image] returns is what the verified bytes say.  The root
    is the pinned one and is the manifest, or an index with exactly one entry
    for linux/amd64; index, manifest and configuration were read as bytes with
    the size and digest of their descriptors; the layers are the manifest's, in
    its order, numbered from zero, each with the diff id the configuration lists
    at that place; all media types are of one profile; there are 1 to 128
    layers; and the receipt's source is one the provenance contracts accept. *)
Theorem resolve_image_sound `{Hash} reader ref root img : built_image_ref ref -> built_descriptor root -> resolve_image reader ref root = Ok img ->
  resolved reader ref root img /\ exists s, image_source img = Ok s /\ built_source s.
Proof. intros Href Hroot E. split; [by apply resolve_image_resolved|by eapply image_source_built]. Qed.

(** C15: resolution depends on the content and not on the store.  Two readers
    that both let a root resolve give the same image, or else they return, for
    some descriptor, two different byte strings of the same length and the same
    SHA-256 digest. *)
Theorem resolve_image_content_addressed `{Hash} r1 r2 ref root i1 i2 :
  resolve_image r1 ref root = Ok i1 -> resolve_image r2 ref root = Ok i2 -> i1 = i2 \/ blob_collision r1 r2.
Proof. apply resolve_image_agree. Qed.

(** Streaming verification is whole-content verification.  A digest and a
    size are accepted for a sequence of chunks exactly when the digest is
    canonical, the size is in range, no chunk is empty, and the chunks joined
    have that size and that SHA-256 digest, wherever the content was cut. *)
Theorem verify_blob_chunks_iff `{Hash} dg sz chunks : verify_blob_chunks dg sz chunks = Ok tt <->
  exists digest size, canonical_digest dg "blob expected_digest" = Ok digest /\ sz = VInt size /\ 0 <= size <= 2 ^ 63 - 1 /\
    Forall (fun c => c <> []) chunks /\ zlen (concat chunks) = size /\ digest_text (concat chunks) = digest.
Proof. apply verify_blob_chunks_whole. Qed.

(** * A concrete image *)

#[local] Existing Instance Sha256.sha256_hash.

Definition json_bytes (v : pyval) : bytes := match canonical_json_bytes v with Ok b => b | Err _ => [] end.
Definition describe (media : string) (b : bytes) : descriptor := Descriptor (u media) (digest_text b) (zlen b).
Definition fake_digest (c : Z) : pystr := u "sha256:" ++ replicate 64 c.

Definition ex_config_bytes : bytes := json_bytes
  (VDict [(u "os", VStr (u "linux")); (u "architecture", VStr (u "amd64"));
          (u "rootfs", VDict [(u "type", VStr (u "layers")); (u "diff_ids", VList [VStr (fake_digest 97); VStr (fake_digest 98)])]);
          (u "config", VDict [(u "Cmd", VList [VStr (u "/bin/sh")])])]).
Definition ex_config : descriptor := describe OCI_IMAGE_CONFIG_MEDIA_TYPE ex_config_bytes.
Definition ex_blob (c n : Z) : descriptor := Descriptor (u OCI_LAYER_GZIP_MEDIA_TYPE) (fake_digest c) n.

Definition ex_manifest_bytes : bytes := json_bytes
  (VDict [(u "schemaVersion", VInt 2); (u "mediaType", VStr (u OCI_IMAGE_MANIFEST_MEDIA_TYPE)); (u "config", descriptor_to_dict ex_config);
          (u "layers", VList [descriptor_to_dict (ex_blob 99 10); descriptor_to_dict (ex_blob 100 20)])]).
Definition ex_manifest : descriptor := describe OCI_IMAGE_MANIFEST_MEDIA_TYPE ex_manifest_bytes.

(** An index entry for a platform. *)
Definition ex_entry (d : descriptor) (architecture : string) : pyval :=
  VDict [(u "mediaType", VStr (d_media_type d)); (u "digest", VStr (d_digest d)); (u "size", VInt (d_size d));
         (u "platform", VDict [(u "os", VStr (u "linux")); (u "architecture", VStr (u architecture))])].
Definition ex_index_bytes : bytes := json_bytes
  (VDict [(u "schemaVersion", VInt 2); (u "mediaType", VStr (u OCI_IMAGE_INDEX_MEDIA_TYPE));
          (u "manifests", VList [ex_entry (Descriptor (u OCI_IMAGE_MANIFEST_MEDIA_TYPE) (fake_digest 48) 7) "arm64"; ex_entry ex_manifest "amd64"])]).
Definition ex_index : descriptor := describe OCI_IMAGE_INDEX_MEDIA_TYPE ex_index_bytes.

Definition ex_reader (d : descriptor) : result bytes :=
  match List.find (fun b => bool_decide (digest_text b = d_digest d)) [ex_index_bytes; ex_manifest_bytes; ex_config_bytes] with
  | Some b => Ok b
  | None => Err "KeyError"
  end.

Definition ex_ref : image_ref := ImageRef (u "registry.example") (u "library/web") (u "registry.example/library/web:1.0@" ++ d_digest ex_index).

Definition ex_process : process := match process_from_config (VDict [(u "Cmd", VList [VStr (u "/bin/sh")])]) with Ok p => p | Err _ => Process [] [] [] (OCIUser [] None) 0 end.
Definition ex_image : image :=
  Image ex_ref (Some ex_index) ex_manifest (ImageConfig ex_config [fake_digest 97; fake_digest 98] ex_process) phase1_platform
    [LayerSource 0 (ex_blob 99 10) (fake_digest 97); LayerSource 1 (ex_blob 100 20) (fake_digest 98)].

Lemma ex_resolves : resolve_image ex_reader ex_ref ex_index = Ok ex_image.
Proof. by vm_compute. Qed.

Lemma ex_ref_built : built_image_ref ex_ref.
Proof. exists (VStr (i_registry ex_ref)), (VStr (i_repository ex_ref)), (VStr (i_requested_reference ex_ref)). by vm_compute. Qed.

Lemma ex_index_built : built_descriptor ex_index.
Proof. apply built_descriptor_iff. by vm_compute. Qed.

Lemma resolve_image_sound_witness : i_manifest ex_image = ex_manifest /\ resolved ex_reader ex_ref ex_index ex_image /\
  exists s, image_source ex_image = Ok s /\ built_source s.
Proof. split; [reflexivity|]. exact (resolve_image_sound ex_reader ex_ref ex_index ex_image ex_ref_built ex_index_built ex_resolves). Defined.

(** A store that also answers for a blob the image does not name. *)
Definition ex_other_reader (d : descriptor) : result bytes := if bool_decide (d_size d = 0) then Ok [] else ex_reader d.

Lemma resolve_image_content_addressed_witness : resolve_image ex_other_reader ex_ref ex_index = Ok ex_image /\
  (ex_image = ex_image \/ blob_collision ex_reader ex_other_reader).
Proof.
  assert (resolve_image ex_other_reader ex_ref ex_index = Ok ex_image) as E by by vm_compute.
  split; [exact E|]. exact (resolve_image_content_addressed ex_reader ex_other_reader ex_ref ex_index ex_image ex_image ex_resolves E).
Defined.
