(* ===== verification/Yaml.v ===== *)
(** The YAML subset of project files ([project.py]): comments, scalars, flow
    collections, blocks and literal blocks. *)
From S2P Require Import Prelude Crypto PyStr PyText PyVal Utf8 Json Regex Names.

Definition MAX_PROJECT_BYTES : Z := 1024 * 1024.
Definition MAX_YAML_DEPTH : nat := 32.
Definition MAX_YAML_NODES : Z := 10000.

(** * Text *)

Definition is_break (c : Z) : bool := in_cls [(10, 13); (28, 30); (133, 133); (8232, 8233)] c.

(** [str.splitlines]; [cur] is the line read so far, backwards. *)
Fixpoint splitlines_from (cur s : pystr) : list pystr :=
  match s with
  | [] => match cur with [] => [] | _ => [rev cur] end
  | c :: r =>
      if is_break c then
        rev cur :: match r with d :: r' => if (c =? 13) && (d =? 10) then splitlines_from [] r' else splitlines_from [] r | [] => [] end
      else splitlines_from (c :: cur) r
  end.
Definition splitlines (s : pystr) : list pystr := splitlines_from [] s.

(** * Values *)

(** [literal] marks a [_NoInterpolationString]. *)
Inductive yval : Type :=
| YNull
| YBool (b : bool)
| YInt (z : Z)
| YStr (literal : bool) (s : pystr)
| YList (l : list yval)
| YMap (d : list (pystr * yval)).

Definition plain_key_re : re := plus (RCls ([(45, 46); (95, 95)] ++ alnum)).
Definition int_re : re := RCat (opt (chr 45)) (RAlt (chr 48) (RCat (RCls [(49, 57)]) (RStar (RCls [(48, 57)])))).

(** * Quotes, comments and keys *)

(** The loop that [_strip_inline_comment] and [_split_mapping_entry] share: the
    text before the first character outside quotes and brackets at which
    [stop], told the character before it, holds, and the text from there on. *)
Fixpoint scan (stop : option Z -> pystr -> bool) (quote : option Z) (escaped : bool) (depth : Z) (before : option Z) (s : pystr) : option (pystr * pystr) :=
  match s with
  | [] => None
  | c :: r =>
      let next quote escaped depth :=
        match scan stop quote escaped depth (Some c) r with Some (a, b) => Some (c :: a, b) | None => None end in
      if escaped then next quote false depth
      else if bool_decide (quote = Some 34) && (c =? 92) then next quote true depth
      else match quote with
           | Some q => next (if c =? q then None else quote) false depth
           | None =>
               if (c =? 34) || (c =? 39) then next (Some c) false depth
               else if (c =? 91) || (c =? 123) then next None false (depth + 1)
               else if (c =? 93) || (c =? 125) then next None false (depth - 1)
               else if (depth =? 0) && stop before s then Some ([], s)
               else next None false depth
           end
  end.

Definition at_comment (before : option Z) (s : pystr) : bool :=
  match s with c :: _ => (c =? 35) && match before with None => true | Some p => is_space p end | [] => false end.
Definition at_colon (before : option Z) (s : pystr) : bool :=
  match s with c :: r => (c =? 58) && match r with [] => true | n :: _ => is_space n end | [] => false end.

(** [_strip_inline_comment] *)
Definition strip_inline_comment (value : pystr) : pystr :=
  match scan at_comment None false 0 None value with Some (a, _) => rstrip a | None => rstrip value end.

(** [s.replace("''", "'")] *)
Fixpoint unquote_single (s : pystr) : pystr :=
  match s with
  | c :: r => match r with d :: r' => if (c =? 39) && (d =? 39) then 39 :: unquote_single r' else c :: unquote_single r | [] => [c] end
  | [] => []
  end.

(** The quoted cases of [_parse_scalar]: whether the text is literal, and the text *)
Definition quoted_scalar (value : pystr) : result (bool * pystr) :=
  if startswith [34] value then
    match loads Ok value with
    | Ok (VStr s) => Ok (false, s)
    | Ok _ => Err "double-quoted scalar must contain a string"
    | Err _ => Err "invalid double-quoted scalar"
    end
  else
    raise "unterminated single-quoted scalar" when (zlen value <? 2) || negb (endswith [39] value) ;;
    Ok (true, unquote_single (take (length value - 2) (drop 1 value))).

Definition is_quote (c : Z) : bool := (c =? 34) || (c =? 39).

(** [_split_mapping_entry]; a key that starts with a quote is a quoted scalar *)
Definition split_mapping_entry (content : pystr) : result (pystr * pystr) :=
  match scan at_colon None false 0 None content with
  | None => Err "expected a 'key: value' mapping entry"
  | Some (before, after) =>
      let raw_key := strip before in
      let value := strip (drop 1 after) in
      let? key :=
        match raw_key with
        | [] => Err "mapping key cannot be empty"
        | c :: _ =>
            if is_quote c then let? ' (_, key) := quoted_scalar (strip_inline_comment raw_key) in Ok key
            else raise "unsupported mapping key" when negb (fullmatch plain_key_re raw_key) ;; Ok raw_key
        end in
      raise "YAML merge keys are not supported" when bool_decide (key = u "<<") ;;
      Ok (key, value)
  end.

(** [re.search(r"(?:^|\s)[&*!][^\s]+", value)] *)
Fixpoint anchor_like (fresh : bool) (s : pystr) : bool :=
  match s with
  | c :: r =>
      (fresh && bool_decide (c ∈ u "&*!") && match r with d :: _ => negb (is_space d) | [] => false end) || anchor_like (is_space c) r
  | [] => false
  end.

(** [_parse_plain_scalar] *)
Definition parse_plain_scalar (value : pystr) : result yval :=
  match value with
  | [] => Err "scalar cannot be empty"
  | c :: _ =>
      if bool_decide (value ∈ map u ["null"; "Null"; "NULL"; "~"]) then Ok YNull
      else if bool_decide (value ∈ map u ["true"; "True"; "TRUE"]) then Ok (YBool true)
      else if bool_decide (value ∈ map u ["false"; "False"; "FALSE"]) then Ok (YBool false)
      else if fullmatch int_re value then
        let digits := if startswith [45] value then drop 1 value else value in
        raise "integer scalar exceeds the 20-digit safety limit" when 20 <? zlen digits ;;
        Ok (YInt (if startswith [45] value then - digits_value digits else digits_value digits))
      else
        raise "unsupported YAML scalar syntax" when bool_decide (c ∈ u "&*!%@`>|") ;;
        raise "YAML anchors, aliases, and tags are not supported" when anchor_like true value ;;
        raise "control characters are not allowed" when bool_decide (0 ∈ value) || bool_decide (13 ∈ value) || bool_decide (10 ∈ value) ;;
        Ok (YStr false value)
  end.

(** * Flow collections *)

Definition RECURSION : string := "RecursionError".

(** One more node; the same counter for the whole file *)
Definition count_node (nodes : Z) : result Z :=
  raise "project exceeds the YAML node limit" when MAX_YAML_NODES <? nodes + 1 ;; Ok (nodes + 1).

(** [_FlowParser._quoted], after the opening quote: the text up to and with the closing one *)
Fixpoint flow_quoted (quote : Z) (escaped : bool) (s : pystr) : option (pystr * pystr) :=
  match s with
  | [] => None
  | c :: r =>
      let next escaped := match flow_quoted quote escaped r with Some (a, b) => Some (c :: a, b) | None => None end in
      if (quote =? 34) && (c =? 92) && negb escaped then next true
      else if (c =? quote) && negb escaped then Some ([c], r)
      else next false
  end.

Definition flow_string (quote : Z) (s : pystr) : result (bool * pystr * pystr) :=
  match flow_quoted quote false s with
  | None => Err "unterminated quoted scalar"
  | Some (token, rest) => let? ' (literal, text) := quoted_scalar (strip_inline_comment (quote :: token)) in Ok (literal, text, rest)
  end.

(** A key of a flow mapping and what follows it *)
Definition flow_key (s : pystr) : result (pystr * pystr) :=
  match s with
  | [] => Err "unterminated flow mapping"
  | c :: r =>
      if is_quote c then let? ' (_, key, rest) := flow_string c r in Ok (key, rest)
      else
        let (token, rest) := span (fun c => negb (c =? 58)) s in
        raise "unsupported flow mapping key" when negb (fullmatch plain_key_re (strip token)) ;;
        Ok (strip token, rest)
  end.

(** [_value], [_sequence] and [_mapping] from an element on; the result is the
    value, the nodes counted and the text left. *)
Fixpoint flow_value (fuel depth : nat) (nodes : Z) (s : pystr) {struct fuel} : result (yval * Z * pystr) :=
  match fuel with
  | O => Err RECURSION
  | S fuel =>
      raise "flow nesting exceeds the limit" when (MAX_YAML_DEPTH <? depth)%nat ;;
      let? nodes := count_node nodes in
      match lstrip s with
      | [] => Err "flow collection contains an empty value"
      | c :: r =>
          if c =? 91 then
            if startswith [93] (lstrip r) then Ok (YList [], nodes, drop 1 (lstrip r))
            else let? ' (l, nodes, r) := flow_items fuel depth nodes (lstrip r) in Ok (YList l, nodes, r)
          else if c =? 123 then
            if startswith [125] (lstrip r) then Ok (YMap [], nodes, drop 1 (lstrip r))
            else let? ' (d, nodes, r) := flow_members fuel depth nodes [] (lstrip r) in Ok (YMap d, nodes, r)
          else if is_quote c then
            let? ' (literal, text, r) := flow_string c r in Ok (YStr literal text, nodes, r)
          else
            let (token, r) := span (fun c => negb (bool_decide (c ∈ u ",]}"))) (c :: r) in
            let? v := parse_plain_scalar (strip token) in Ok (v, nodes, r)
      end
  end
with flow_items (fuel depth : nat) (nodes : Z) (s : pystr) {struct fuel} : result (list yval * Z * pystr) :=
  match fuel with
  | O => Err RECURSION
  | S fuel =>
      let? ' (v, nodes, r) := flow_value fuel (S depth) nodes s in
      match lstrip r with
      | [] => Err "unterminated flow sequence"
      | c :: r =>
          if c =? 93 then Ok ([v], nodes, r)
          else if c =? 44 then let? ' (l, nodes, r) := flow_items fuel depth nodes r in Ok (v :: l, nodes, r)
          else Err "flow sequence requires ',' separators"
      end
  end
with flow_members (fuel depth : nat) (nodes : Z) (seen : list (pystr * yval)) (s : pystr) {struct fuel} : result (list (pystr * yval) * Z * pystr) :=
  match fuel with
  | O => Err RECURSION
  | S fuel =>
      let? ' (key, r) := flow_key (lstrip s) in
      match lstrip r with
      | [] => Err "flow mapping requires ':' after each key"
      | c :: r =>
          raise "flow mapping requires ':' after each key" when negb (c =? 58) ;;
          raise "duplicate mapping key" when bool_decide (key ∈ map fst seen) ;;
          let? ' (v, nodes, r) := flow_value fuel (S depth) nodes r in
          let seen := seen ++ [(key, v)] in
          match lstrip r with
          | [] => Err "unterminated flow mapping"
          | c :: r =>
              if c =? 125 then Ok (seen, nodes, r)
              else if c =? 44 then flow_members fuel depth nodes seen r
              else Err "flow mapping requires ',' separators"
          end
      end
  end.

(** Twice the text and one more is enough for the recursion. *)
Definition flow_fuel (s : pystr) : nat := 2 * length s + 2.

Definition flow_parse (nodes : Z) (s : pystr) : result (yval * Z) :=
  let? ' (v, nodes, r) := flow_value (flow_fuel s) 0 nodes s in
  match lstrip r with [] => Ok (v, nodes) | _ => Err "unexpected flow syntax" end.

(** [_parse_scalar] *)
Definition parse_scalar (nodes : Z) (raw : pystr) : result (yval * Z) :=
  let value := strip_inline_comment raw in
  match value with
  | c :: _ =>
      if is_quote c then let? ' (literal, text) := quoted_scalar value in Ok (YStr literal text, nodes)
      else if (c =? 91) || (c =? 123) then flow_parse nodes value
      else let? v := parse_plain_scalar value in Ok (v, nodes)
  | [] => let? v := parse_plain_scalar value in Ok (v, nodes)
  end.

(** * Blocks *)

Record yline := YLine { y_number : nat; y_indent : nat; y_content : pystr }.

(** [_StrictYamlParser.__init__], from line [number] on *)
Fixpoint read_lines (number : nat) (raw_lines : list pystr) : result (list yline) :=
  match raw_lines with
  | [] => Ok []
  | raw :: raw_lines =>
      raise "tabs are forbidden in YAML indentation" when bool_decide (9 ∈ take (length raw - length (lstrip_of [32; 9] raw)) raw) ;;
      match utf8_encode raw with
      | None => Err "UnicodeEncodeError"
      | Some encoded =>
          raise "line exceeds the 64 KiB safety limit" when 65536 <? zlen encoded ;;
          let stripped := lstrip_of [32] raw in
          if bool_decide (stripped = []) || startswith [35] stripped then read_lines (S number) raw_lines
          else
            raise "YAML directives and document markers are not supported"
              when bool_decide (stripped = u "---") || bool_decide (stripped = u "...") || startswith (u "%YAML") stripped ;;
            let indent := (length raw - length stripped)%nat in
            raise "indentation must use multiples of two spaces" when Nat.odd indent ;;
            let? rest := read_lines (S number) raw_lines in
            Ok (YLine number indent (strip_inline_comment stripped) :: rest)
      end
  end.

Definition is_item (content : pystr) : bool := bool_decide (content = [45]) || startswith [45; 32] content.
Definition is_literal_mark (raw_value : pystr) : bool := bool_decide (raw_value = [124]) || bool_decide (raw_value = [124; 45]).

(** The loop of [_literal]: indentation and text of the raw lines of the block,
    and the number of lines. *)
Fixpoint literal_lines (parent : nat) (raw_lines : list pystr) : list (nat * pystr) :=
  match raw_lines with
  | [] => []
  | raw :: raw_lines =>
      if bool_decide (strip raw = []) then ((parent + 2)%nat, []) :: literal_lines parent raw_lines
      else
        let rest := lstrip_of [32] raw in
        let leading := (length raw - length rest)%nat in
        if (leading <=? parent)%nat then [] else (leading, rest) :: literal_lines parent raw_lines
  end.

Definition min_indent (parent : nat) (collected : list (nat * pystr)) : nat :=
  match map fst (List.filter (fun iv : nat * pystr => negb (bool_decide (iv.2 = []))) collected) with
  | [] => (parent + 2)%nat
  | i :: l => fold_left Nat.min l i
  end.

(** The structural lines that a literal block covers are passed over. *)
Fixpoint skip_lines (last_line : nat) (lines : list yline) : list yline :=
  match lines with
  | line :: rest => if (y_number line <=? last_line)%nat then skip_lines last_line rest else lines
  | [] => []
  end.

Section block.
Variable raw_lines : list pystr.

(** [_literal]: its text, and the structural lines after it *)
Definition literal_block (parent number : nat) (keep_final_newline : bool) (lines : list yline) : result (pystr * list yline) :=
  let collected := literal_lines parent (drop number raw_lines) in
  let required := min_indent parent collected in
  raise "literal block indentation is invalid" when (required <? parent + 2)%nat || Nat.odd required ;;
  let rendered := map (fun iv : nat * pystr => replicate (iv.1 - required) 32 ++ iv.2) collected in
  let value := rstrip_of [10] (join [10] rendered) in
  Ok (if keep_final_newline then value ++ [10] else value, skip_lines (number + length collected) lines).

(** The value of a key or an item, the nodes counted, the lines left *)
Definition parsed : Type := result (yval * Z * list yline).
Definition block_parser : Type := nat -> nat -> Z -> list yline -> parsed.

(** [_nested_or_null] *)
Definition nested_or_null (blk : block_parser) (indent depth : nat) (nodes : Z) (lines : list yline) : parsed :=
  match lines with
  | [] => Ok (YNull, nodes, lines)
  | child :: _ =>
      if (y_indent child <=? indent)%nat then Ok (YNull, nodes, lines)
      else
        raise "nested content must be indented exactly two spaces" when negb (y_indent child =? indent + 2)%nat ;;
        blk (indent + 2)%nat (S depth) nodes lines
  end.

(** The value after [key:] *)
Definition entry_value (blk : block_parser) (indent depth number : nat) (raw_value : pystr) (nodes : Z) (lines : list yline) : parsed :=
  if is_literal_mark raw_value then
    let? ' (text, lines) := literal_block indent number (bool_decide (raw_value = [124])) lines in Ok (YStr false text, nodes, lines)
  else
    match raw_value with
    | [] => nested_or_null blk indent depth nodes lines
    | _ => let? ' (v, nodes) := parse_scalar nodes raw_value in Ok (v, nodes, lines)
    end.

(** An item of a sequence after [-]; [members] reads a mapping *)
Definition sequence_item (blk : block_parser) (members : nat -> nat -> Z -> list yline -> result (list (pystr * yval) * Z * list yline))
    (indent depth number : nat) (raw_item : pystr) (nodes : Z) (rest : list yline) : parsed :=
  match raw_item with
  | [] => nested_or_null blk indent depth nodes rest
  | _ =>
      match split_mapping_entry raw_item with
      | Err _ => let? ' (v, nodes) := parse_scalar nodes raw_item in Ok (v, nodes, rest)
      | Ok (key, raw_value) =>
          let? ' (v, nodes, rest) := entry_value blk indent depth number raw_value nodes rest in
          match rest with
          | continuation :: _ =>
              if (indent <? y_indent continuation)%nat then
                raise "sequence mapping must use two more spaces" when negb (y_indent continuation =? indent + 2)%nat ;;
                let? ' (more, nodes, rest) := members (indent + 2)%nat (S depth) nodes rest in
                raise "duplicate mapping key" when bool_decide (key ∈ map fst more) ;;
                Ok (YMap ((key, v) :: more), nodes, rest)
              else Ok (YMap [(key, v)], nodes, rest)
          | [] => Ok (YMap [(key, v)], nodes, rest)
          end
      end
  end.

(** [_block], [_mapping] and [_sequence]; [seen] is the mapping read so far *)
Fixpoint block (fuel indent depth : nat) (nodes : Z) (lines : list yline) {struct fuel} : parsed :=
  match fuel with
  | O => Err RECURSION
  | S fuel =>
      raise "YAML nesting exceeds the limit" when (MAX_YAML_DEPTH <? depth)%nat ;;
      match lines with
      | [] => Ok (YNull, nodes, lines)
      | line :: _ =>
          raise "unexpected indentation" when negb (y_indent line =? indent)%nat ;;
          if is_item (y_content line) then let? ' (l, nodes, lines) := block_sequence fuel indent depth nodes lines in Ok (YList l, nodes, lines)
          else let? ' (d, nodes, lines) := block_mapping fuel indent depth nodes [] lines in Ok (YMap d, nodes, lines)
      end
  end
with block_mapping (fuel indent depth : nat) (nodes : Z) (seen : list (pystr * yval)) (lines : list yline) {struct fuel} : result (list (pystr * yval) * Z * list yline) :=
  match fuel with
  | O => Err RECURSION
  | S fuel =>
      match lines with
      | [] => Ok (seen, nodes, lines)
      | line :: rest =>
          if (y_indent line <? indent)%nat then Ok (seen, nodes, lines)
          else
            raise "unexpected indentation" when (indent <? y_indent line)%nat ;;
            if is_item (y_content line) then Ok (seen, nodes, lines)
            else
              let? ' (key, raw_value) := split_mapping_entry (y_content line) in
              raise "duplicate mapping key" when bool_decide (key ∈ map fst seen) ;;
              let? nodes := count_node nodes in
              let? ' (v, nodes, rest) := entry_value (block fuel) indent depth (y_number line) raw_value nodes rest in
              block_mapping fuel indent depth nodes (seen ++ [(key, v)]) rest
      end
  end
with block_sequence (fuel indent depth : nat) (nodes : Z) (lines : list yline) {struct fuel} : result (list yval * Z * list yline) :=
  match fuel with
  | O => Err RECURSION
  | S fuel =>
      match lines with
      | [] => Ok ([], nodes, lines)
      | line :: rest =>
          if (y_indent line <? indent)%nat then Ok ([], nodes, lines)
          else if negb (y_indent line =? indent)%nat || negb (is_item (y_content line)) then
            raise "unexpected indentation" when (indent <? y_indent line)%nat ;; Ok ([], nodes, lines)
          else
            let? nodes := count_node nodes in
            let? ' (item, nodes, rest) :=
              sequence_item (block fuel) (fun indent depth nodes lines => block_mapping fuel indent depth nodes [] lines)
                indent depth (y_number line) (strip (drop 1 (y_content line))) nodes rest in
            let? ' (l, nodes, rest) := block_sequence fuel indent depth nodes rest in
            Ok (item :: l, nodes, rest)
      end
  end.
End block.

(** Twice the lines and two more is enough for the recursion. *)
Definition block_fuel (lines : list yline) : nat := 2 * length lines + 2.

(** [_StrictYamlParser.parse] *)
Definition parse_lines (raw_lines : list pystr) (lines : list yline) : result yval :=
  match lines with
  | [] => Err "project file is empty"
  | line :: _ =>
      raise "top-level mapping must start at column 1" when negb (y_indent line =? 0)%nat ;;
      let? ' (v, _, rest) := block raw_lines (block_fuel lines) 0 0 0 lines in
      match rest with [] => Ok v | _ => Err "unexpected trailing YAML content" end
  end.

(** [parse_yaml_subset] *)
Definition parse_yaml_subset (text : pystr) : result yval :=
  match utf8_encode text with
  | None => Err "UnicodeEncodeError"
  | Some encoded =>
      raise "project file exceeds the byte limit" when MAX_PROJECT_BYTES <? zlen encoded ;;
      raise "project file contains a NUL byte" when bool_decide (0 ∈ text) ;;
      let raw_lines := splitlines text in
      let? lines := read_lines 1 raw_lines in
      parse_lines raw_lines lines
  end.
