(* ===== verification/YamlFacts.v ===== *)
(** The YAML subset: the recursion ends, and what is read is bounded and has
    each key of a mapping once. *)
From S2P Require Import Prelude Crypto PyStr PyText PyVal Utf8 Json Regex Names NamesFacts Yaml.

(** * Measures of values *)

Definition total (l : list Z) : Z := fold_right Z.add 0 l.
Definition deepest (l : list nat) : nat := fold_right Nat.max 0%nat l.

Fixpoint y_nodes (v : yval) : Z :=
  match v with
  | YList l => 1 + total (map y_nodes l)
  | YMap d => 1 + total (map (fun kv => y_nodes kv.2) d)
  | _ => 1
  end.

(** The nesting of collections *)
Fixpoint y_depth (v : yval) : nat :=
  match v with
  | YList l => S (deepest (map y_depth l))
  | YMap d => S (deepest (map (fun kv => y_depth kv.2) d))
  | _ => 0
  end.

(** Every mapping has each key once. *)
Fixpoint distinct (v : yval) : Prop :=
  match v with
  | YList l => fold_right (fun v P => distinct v /\ P) True l
  | YMap d => NoDup (map fst d) /\ fold_right (fun kv P => distinct kv.2 /\ P) True d
  | _ => True
  end.

Notation values d := (map snd (B := yval) d).

Lemma distinct_list l : distinct (YList l) <-> Forall distinct l.
Proof. cbn [distinct]. induction l as [|v l IH]; cbn [fold_right]; [split; [constructor|done]|]. by rewrite IH, Forall_cons. Qed.
Lemma distinct_map d : distinct (YMap d) <-> NoDup (map fst d) /\ Forall distinct (values d).
Proof.
  cbn [distinct]. apply and_iff_compat_l. induction d as [|[k v] d IH]; cbn [fold_right map snd]; [split; [constructor|done]|]. by rewrite IH, Forall_cons.
Qed.
Lemma y_nodes_map d : y_nodes (YMap d) = 1 + total (map y_nodes (values d)).
Proof. cbn [y_nodes]. by rewrite map_map. Qed.
Lemma y_depth_map d : y_depth (YMap d) = S (deepest (map y_depth (values d))).
Proof. cbn [y_depth]. by rewrite map_map. Qed.

Lemma deepest_le l n : Forall (fun x => (x <= n)%nat) l -> (deepest l <= n)%nat.
Proof. induction 1; cbn [deepest fold_right] in *; [lia|]. unfold deepest in *. lia. Qed.

Lemma total_app a b : total (a ++ b) = total a + total b.
Proof. induction a as [|x a IH]; [done|]. cbn [app total fold_right]. unfold total in *. lia. Qed.

Lemma y_nodes_pos v : 1 <= y_nodes v.
Proof.
  revert v. fix IH 1. intros [| | | |l|d]; cbn [y_nodes]; try lia.
  - enough (0 <= total (map y_nodes l)) by lia. induction l as [|v l IHl]; cbn [map total fold_right]; [done|]. pose proof (IH v). unfold total in IHl. lia.
  - enough (0 <= total (map (fun kv => y_nodes kv.2) d)) by lia. induction d as [|[k v] d IHd]; cbn [map total fold_right snd]; [done|]. pose proof (IH v). unfold total in IHd. lia.
Qed.

(** * Text only gets shorter *)

Lemma lstrip_length s : (length (lstrip s) <= length s)%nat.
Proof. induction s as [|c s IH]; cbn [lstrip]; [lia|]. destruct (is_space c); cbn [length]; lia. Qed.

Lemma flow_quoted_length q s : forall e a b, flow_quoted q e s = Some (a, b) -> (length b < length s)%nat.
Proof.
  induction s as [|c s IH]; intros e a b; cbn [flow_quoted]; [done|].
  assert (forall e', match flow_quoted q e' s with Some (a, b) => Some (c :: a, b) | None => None end = Some (a, b) -> (length b < length (c :: s))%nat) as Hn.
  { intros e'. destruct (flow_quoted q e' s) as [[a' b']|] eqn:E; [|done]. intros Eq. assert (b = b') as -> by congruence. apply IH in E. cbn [length]. lia. }
  destruct (_ && _ && _); [apply Hn|]. destruct (_ && _); [|apply Hn]. intros Eq. assert (b = s) as -> by congruence. cbn [length]. lia.
Qed.

Lemma quoted_scalar_error value : quoted_scalar value <> Err RECURSION.
Proof. unfold quoted_scalar. destruct (startswith [34] value); [destruct (loads Ok value) as [[]|]|destruct (_ || _)]; done. Qed.

Lemma flow_string_ok q s : match flow_string q s with Ok (_, r) => (length r < length s)%nat | Err e => e <> RECURSION end.
Proof.
  unfold flow_string. destruct (flow_quoted q false s) as [[token rest]|] eqn:E; [|done]. apply flow_quoted_length in E.
  pose proof (quoted_scalar_error (strip_inline_comment (q :: token))) as Hq. destruct (quoted_scalar _) as [[l t]|e]; cbn [result_bind]; [done|congruence].
Qed.

Lemma flow_key_ok s : match flow_key s with Ok (_, r) => (length r <= length s)%nat | Err e => e <> RECURSION end.
Proof.
  unfold flow_key. destruct s as [|c s]; [done|]. destruct (is_quote c).
  - pose proof (flow_string_ok c s) as Hf. destruct (flow_string c s) as [[[l t] r]|e]; cbn [result_bind]; [cbn [length]; lia|done].
  - destruct (span (fun c => negb (c =? 58)) (c :: s)) as [token rest] eqn:E. apply span_length in E. destruct (negb _); [done|]. cbn [length] in *. lia.
Qed.

Lemma plain_scalar_ok value : match parse_plain_scalar value with
  | Ok v => value <> [] /\ y_nodes v = 1 /\ y_depth v = 0%nat /\ distinct v
  | Err e => e <> RECURSION end.
Proof.
  unfold parse_plain_scalar, negb. destruct value as [|c value]; [done|]. cbv zeta.
  repeat match goal with |- context [if ?b then _ else _] => destruct b end; done.
Qed.

(** * Flow collections *)

(** Values read below [depth], from [nodes] nodes on *)
Definition within (depth : nat) (nodes nodes' : Z) (l : list yval) : Prop :=
  nodes' = nodes + total (map y_nodes l) /\ nodes' <= MAX_YAML_NODES /\ Forall (fun v => (y_depth v + depth <= S MAX_YAML_DEPTH)%nat) l /\ Forall distinct l.

Definition flow_good {A} (vals : A -> list yval) (depth : nat) (nodes : Z) (s : pystr) (x : result (A * Z * pystr)) : Prop :=
  match x with Ok (a, nodes', r) => (length r < length s)%nat /\ within depth nodes nodes' (vals a) | Err e => e <> RECURSION end.

Lemma count_node_ok nodes : match count_node nodes with Ok n => n = nodes + 1 /\ n <= MAX_YAML_NODES | Err e => e <> RECURSION end.
Proof. unfold count_node. destruct (MAX_YAML_NODES <? nodes + 1) eqn:G; [done|]. bool_norm. done. Qed.

Lemma within_one depth nodes nodes' v : nodes' = nodes + y_nodes v -> nodes' <= MAX_YAML_NODES -> (y_depth v + depth <= S MAX_YAML_DEPTH)%nat -> distinct v ->
  within depth nodes nodes' [v].
Proof. intros. split; [cbn; lia|]. split; [done|]. split; (apply Forall_cons; split; [done|constructor]). Qed.

Lemma within_collection depth nodes nodes' v l : (depth <= MAX_YAML_DEPTH)%nat -> y_nodes v = 1 + total (map y_nodes l) -> y_depth v = S (deepest (map y_depth l)) ->
  (Forall distinct l -> distinct v) -> within (S depth) (nodes + 1) nodes' l -> within depth nodes nodes' [v].
Proof.
  intros Hd Hn Hy Hk (E & Hm & Hl & Hdi). apply within_one; [lia|done| |by apply Hk]. rewrite Hy.
  assert (deepest (map y_depth l) <= MAX_YAML_DEPTH - depth)%nat; [|lia]. apply deepest_le. apply Forall_fmap. eapply Forall_impl; [exact Hl|]. unfold compose. intros v' Hv'. lia.
Qed.

Lemma within_nil depth nodes : nodes <= MAX_YAML_NODES -> within depth nodes nodes [].
Proof. intros. split; [cbn; lia|]. split; [done|]. split; constructor. Qed.

Lemma within_app depth n0 n1 n2 l k : within depth n0 n1 l -> within depth n1 n2 k -> within depth n0 n2 (l ++ k).
Proof.
  intros (E1 & _ & H1 & D1) (E2 & M2 & H2 & D2). split; [rewrite map_app, total_app; lia|]. split; [done|]. rewrite !Forall_app. done.
Qed.

Definition one (v : yval) : list yval := [v].
Definition same (l : list yval) : list yval := l.

Lemma flow_fuel_ok fuel :
  (forall depth nodes s, (2 * length s + 1 <= fuel)%nat -> flow_good one depth nodes s (flow_value fuel depth nodes s)) /\
  (forall depth nodes s, (2 * length s + 2 <= fuel)%nat -> flow_good same (S depth) nodes s (flow_items fuel depth nodes s)) /\
  (forall depth nodes seen s, (2 * length s + 2 <= fuel)%nat -> NoDup (map fst seen) -> Forall distinct (values seen) ->
    match flow_members fuel depth nodes seen s with
    | Ok (d, nodes', r) => (length r < length s)%nat /\ NoDup (map fst d) /\ exists more, d = seen ++ more /\ within (S depth) nodes nodes' (values more)
    | Err e => e <> RECURSION
    end).
Proof.
  induction fuel as [|fuel (IHv & IHi & IHm)]; [split; [|split]; intros; lia|]. split; [|split].
  - intros depth nodes s Hs. cbn [flow_value]. destruct (MAX_YAML_DEPTH <? depth)%nat eqn:Gd; [done|]. apply Nat.ltb_ge in Gd.
    pose proof (count_node_ok nodes) as Hc. destruct (count_node nodes) as [n1|e]; cbn [result_bind]; [|done]. destruct Hc as [-> Hn].
    pose proof (lstrip_length s) as Hls. destruct (lstrip s) as [|c r]; [done|]. cbn [length] in Hls. pose proof (lstrip_length r) as Hr.
    destruct (c =? 91).
    { assert (flow_good one depth nodes s (let? ' (l, nodes, r) := flow_items fuel depth (nodes + 1) (lstrip r) in Ok (YList l, nodes, r))) as Hi.
      { specialize (IHi depth (nodes + 1) (lstrip r) ltac:(lia)). destruct (flow_items _ _ _ _) as [[[l n] r']|e]; cbn [result_bind]; [|done].
        destruct IHi as [Hl Hw]. split; [lia|]. apply (within_collection _ _ _ _ l); [done|done|done|by intros; apply distinct_list|done]. }
      assert (flow_good one depth nodes s (Ok (YList [], nodes + 1, drop 1 (lstrip r)))) as He.
      { split; [rewrite length_drop; lia|]. apply within_one; [done|done|cbn [y_depth deepest fold_right map]; lia|done]. }
      destruct (startswith [93] (lstrip r)) eqn:G; [exact He|exact Hi]. }
    destruct (c =? 123).
    { assert (flow_good one depth nodes s (let? ' (d, nodes, r) := flow_members fuel depth (nodes + 1) [] (lstrip r) in Ok (YMap d, nodes, r))) as Hi.
      { specialize (IHm depth (nodes + 1) [] (lstrip r) ltac:(lia) ltac:(constructor) ltac:(constructor)).
        destruct (flow_members _ _ _ _ _) as [[[d n] r']|e]; cbn [result_bind]; [|done]. destruct IHm as (Hl & Hn' & more & -> & Hw).
        split; [lia|]. apply (within_collection _ _ _ _ (values more)); [done|apply y_nodes_map|apply y_depth_map|by intros; apply distinct_map|done]. }
      assert (flow_good one depth nodes s (Ok (YMap [], nodes + 1, drop 1 (lstrip r)))) as He.
      { split; [rewrite length_drop; lia|]. apply within_one; [done|done|cbn [y_depth deepest fold_right map]; lia|]. split; [constructor|done]. }
      destruct (startswith [125] (lstrip r)) eqn:G; [exact He|exact Hi]. }
    destruct (is_quote c).
    { pose proof (flow_string_ok c r) as Hf. destruct (flow_string c r) as [[[l t] r']|e]; cbn [result_bind]; [|done].
      split; [lia|]. apply within_one; [done|done|cbn [y_depth]; lia|done]. }
    destruct (span _ (c :: r)) as [token r'] eqn:E. apply span_length in E. pose proof (plain_scalar_ok (strip token)) as Hp.
    destruct (parse_plain_scalar (strip token)) as [v|e]; cbn [result_bind]; [|done]. destruct Hp as (Hne & Hy & Hdp & Hdi).
    split; [|apply within_one; [lia|done|lia|done]]. destruct token; [done|]. cbn [length] in *. lia.
  - intros depth nodes s Hs. cbn [flow_items]. specialize (IHv (S depth) nodes s ltac:(lia)).
    destruct (flow_value fuel (S depth) nodes s) as [[[v n] r]|e]; cbn [result_bind]; [|done]. destruct IHv as [Hl Hw].
    pose proof (lstrip_length r) as Hr. destruct (lstrip r) as [|c r1]; [done|]. cbn [length] in Hr.
    destruct (c =? 93); [by split; [lia|]|]. destruct (c =? 44); [|done]. specialize (IHi depth n r1 ltac:(lia)).
    destruct (flow_items fuel depth n r1) as [[[l n'] r']|e]; cbn [result_bind]; [|done]. destruct IHi as [Hl' Hw']. split; [lia|].
    by apply (within_app _ _ n _ [v]).
  - intros depth nodes seen s Hs Hnd Hdi. cbn [flow_members]. pose proof (lstrip_length s) as Hls. pose proof (flow_key_ok (lstrip s)) as Hk.
    destruct (flow_key (lstrip s)) as [[key r]|e]; cbn [result_bind]; [|done]. pose proof (lstrip_length r) as Hr.
    destruct (lstrip r) as [|c r1]; [done|]. cbn [length] in Hr. destruct (negb (c =? 58)); [done|]. destruct (bool_decide (key ∈ map fst seen)) eqn:Gk; [done|]. bool_norm.
    specialize (IHv (S depth) nodes r1 ltac:(lia)). destruct (flow_value fuel (S depth) nodes r1) as [[[v n] r2]|e]; cbn [result_bind]; [|done].
    destruct IHv as [Hl Hw]. pose proof (lstrip_length r2) as Hr2. destruct (lstrip r2) as [|c2 r3]; [done|]. cbn [length] in Hr2.
    assert (NoDup (map fst (seen ++ [(key, v)]))) as Hn'.
    { rewrite map_app. apply NoDup_app. split; [done|]. split; [intros x Hx ->%list_elem_of_singleton; done|apply NoDup_singleton]. }
    destruct (c2 =? 125); [split; [lia|]; split; [done|]; by exists [(key, v)]|]. destruct (c2 =? 44); [|done].
    destruct Hw as (E1 & M1 & D1 & K1). specialize (IHm depth n (seen ++ [(key, v)]) r3 ltac:(lia) Hn').
    assert (Forall distinct (values (seen ++ [(key, v)]))) as Hd'. { rewrite map_app. apply Forall_app. split; [done|exact K1]. }
    specialize (IHm Hd'). destruct (flow_members fuel depth n _ r3) as [[[d n'] r']|e]; [|done]. destruct IHm as (Hl' & Hnd' & more & -> & Hw').
    split; [lia|]. split; [done|]. exists ((key, v) :: more). split; [by rewrite <- app_assoc|]. apply (within_app _ _ n _ [v]); [by split|done].
Qed.

Lemma flow_parse_ok nodes s : match flow_parse nodes s with
  | Ok (v, nodes') => within 0 nodes nodes' [v]
  | Err e => e <> RECURSION end.
Proof.
  unfold flow_parse, flow_fuel. destruct (flow_fuel_ok (2 * length s + 2)) as (Hv & _ & _). specialize (Hv 0%nat nodes s ltac:(lia)).
  destruct (flow_value _ _ _ _) as [[[v n] r]|e]; cbn [result_bind]; [|done]. by destruct Hv, (lstrip r).
Qed.

(** * Blocks *)

(** Values read from [nodes] nodes on: [extra] of them were not counted, and a
    mapping inside a sequence is counted once for the item and its first key. *)
Definition grown (extra : Z) (bound : nat) (nodes nodes' : Z) (l : list yval) : Prop :=
  nodes <= nodes' <= MAX_YAML_NODES /\ total (map y_nodes l) <= extra + 2 * (nodes' - nodes) /\ Forall (fun v => (y_depth v <= bound)%nat) l /\ Forall distinct l.

(** The nesting of a block at [depth] *)
Definition block_bound (depth : nat) : nat := Nat.max 33 (99 - 2 * depth).

Lemma grown_one extra bound nodes nodes' v : nodes <= nodes' <= MAX_YAML_NODES -> y_nodes v <= extra + 2 * (nodes' - nodes) -> (y_depth v <= bound)%nat -> distinct v ->
  grown extra bound nodes nodes' [v].
Proof. intros. split; [done|]. split; [cbn [map total fold_right]; lia|]. split; (apply Forall_cons; split; [done|constructor]). Qed.

Lemma grown_inv extra bound nodes nodes' v : grown extra bound nodes nodes' [v] ->
  nodes <= nodes' <= MAX_YAML_NODES /\ y_nodes v <= extra + 2 * (nodes' - nodes) /\ (y_depth v <= bound)%nat /\ distinct v.
Proof. intros (H & Hn & Hd & Hk). split; [done|]. cbn [map total fold_right] in Hn. split; [lia|]. apply Forall_cons in Hd as [? _]. by apply Forall_cons in Hk as [? _]. Qed.

Lemma grown_app a b bound n0 n1 n2 l k : grown a bound n0 n1 l -> grown b bound n1 n2 k -> grown (a + b) bound n0 n2 (l ++ k).
Proof.
  intros (H1 & T1 & D1 & K1) (H2 & T2 & D2 & K2). split; [lia|]. split; [rewrite map_app, total_app; lia|]. rewrite !Forall_app. done.
Qed.

Lemma grown_collection extra b v l nodes nodes' bound : grown extra b nodes nodes' l -> y_nodes v = 1 + total (map y_nodes l) -> y_depth v = S (deepest (map y_depth l)) ->
  (Forall distinct l -> distinct v) -> (S b <= bound)%nat -> grown (1 + extra) bound nodes nodes' [v].
Proof.
  intros (H & Hn & Hd & Hk) En Ed Hv Hb. apply grown_one; [done|lia| |by apply Hv].
  rewrite Ed. enough (deepest (map y_depth l) <= b)%nat by lia. apply deepest_le. apply Forall_fmap. eapply Forall_impl; [exact Hd|]. done.
Qed.

Lemma grown_weaken a b bound nodes nodes' l e d : grown a bound nodes nodes' l -> a <= b + 2 * e -> 0 <= e -> d = nodes - e -> forall bound', (bound <= bound')%nat -> grown b bound' d nodes' l.
Proof.
  intros (H & Hn & Hd & Hk) Ha He -> bound' Hb. split; [lia|]. split; [lia|]. split; [|done]. eapply Forall_impl; [exact Hd|]. cbv beta. intros. lia.
Qed.

Definition parsed_ok {A} (extra : Z) (bound : nat) (vals : A -> list yval) (nodes : Z) (n : nat) (x : result (A * Z * list yline)) : Prop :=
  match x with Ok (a, nodes', lines) => (length lines <= n)%nat /\ grown extra bound nodes nodes' (vals a) | Err e => e <> RECURSION end.

Lemma scalar_ok nodes raw : nodes <= MAX_YAML_NODES -> match parse_scalar nodes raw with
  | Ok (v, nodes') => grown 1 33 nodes nodes' [v]
  | Err e => e <> RECURSION end.
Proof.
  intros Hn. unfold parse_scalar. cbv zeta.
  assert (match (let? v := parse_plain_scalar (strip_inline_comment raw) in Ok (v, nodes)) with Ok (v, nodes') => grown 1 33 nodes nodes' [v] | Err e => e <> RECURSION end) as Hp.
  { pose proof (plain_scalar_ok (strip_inline_comment raw)) as Hp. destruct (parse_plain_scalar _) as [v|e]; cbn [result_bind]; [|done]. destruct Hp as (_ & ? & ? & ?).
    apply grown_one; [lia|lia|lia|done]. }
  destruct (strip_inline_comment raw) as [|c r]; [exact Hp|]. destruct (is_quote c).
  { pose proof (quoted_scalar_error (c :: r)) as Hq. destruct (quoted_scalar (c :: r)) as [[l t]|e]; cbn [result_bind]; [|congruence].
    apply grown_one; [lia|cbn [y_nodes]; lia|cbn [y_depth]; lia|done]. }
  destruct ((c =? 91) || (c =? 123)); [|exact Hp]. pose proof (flow_parse_ok nodes (c :: r)) as Hf. destruct (flow_parse nodes (c :: r)) as [[v n]|e]; [|done].
  destruct Hf as (E & M & D & K). cbn [map total fold_right] in E. apply Forall_cons in D as [D _]. apply Forall_cons in K as [K _]. pose proof (y_nodes_pos v).
  unfold MAX_YAML_DEPTH in D. apply grown_one; [lia|lia|lia|done].
Qed.

Lemma skip_lines_length n lines : (length (skip_lines n lines) <= length lines)%nat.
Proof. induction lines as [|l lines IH]; cbn [skip_lines]; [lia|]. destruct (_ <=? n)%nat; cbn [length]; lia. Qed.

Section blocks.
Variable raw_lines : list pystr.

Lemma literal_block_ok parent number keep lines : match literal_block raw_lines parent number keep lines with
  | Ok (_, lines') => (length lines' <= length lines)%nat
  | Err e => e <> RECURSION end.
Proof. unfold literal_block. cbv zeta. destruct (_ || _); [done|]. apply skip_lines_length. Qed.

Definition blk_ok (blk : block_parser) (depth n : nat) : Prop :=
  forall indent nodes lines, (length lines <= n)%nat -> nodes <= MAX_YAML_NODES -> parsed_ok 1 (block_bound depth) one nodes (length lines) (blk indent depth nodes lines).

Lemma nested_ok blk indent depth nodes lines : blk_ok blk (S depth) (length lines) -> nodes <= MAX_YAML_NODES ->
  parsed_ok 1 (block_bound (S depth)) one nodes (length lines) (nested_or_null blk indent depth nodes lines).
Proof.
  intros Hb Hn. unfold nested_or_null. assert (parsed_ok 1 (block_bound (S depth)) one nodes (length lines) (Ok (YNull, nodes, lines))) as H0.
  { split; [lia|]. apply grown_one; [lia|cbn [y_nodes]; lia|cbn [y_depth]; lia|done]. }
  destruct lines as [|child lines]; [exact H0|]. destruct (_ <=? indent)%nat; [exact H0|]. destruct (negb _); [done|].
  specialize (Hb (indent + 2)%nat nodes (child :: lines) ltac:(lia) Hn). destruct (blk _ _ _ _) as [[[v n] r]|e]; [|done]. destruct Hb as [Hl Hg]. split; [done|].
  exact Hg.
Qed.

Lemma entry_value_ok blk indent depth number raw nodes lines : blk_ok blk (S depth) (length lines) -> nodes <= MAX_YAML_NODES ->
  parsed_ok 1 (block_bound (S depth)) one nodes (length lines) (entry_value raw_lines blk indent depth number raw nodes lines).
Proof.
  intros Hb Hn. unfold entry_value. destruct (is_literal_mark raw).
  - pose proof (literal_block_ok indent number (bool_decide (raw = [124])) lines) as Hl. destruct (literal_block _ _ _ _ _) as [[t r]|e]; cbn [result_bind]; [|done].
    split; [done|]. apply grown_one; [lia|cbn [y_nodes]; lia|cbn [y_depth]; lia|done].
  - destruct raw as [|c raw]; [by apply nested_ok|]. pose proof (scalar_ok nodes (c :: raw) Hn) as Hs. destruct (parse_scalar _ _) as [[v n]|e]; cbn [result_bind]; [|done].
    split; [lia|]. eapply (grown_weaken 1 1 _ _ _ _ 0); [exact Hs|lia|lia|lia|unfold block_bound; lia].
Qed.
Definition item_bound (depth : nat) : nat := S (block_bound (S depth)).

Definition mapping_ok (seen : list (pystr * yval)) (depth : nat) (nodes : Z) (n : nat) (x : result (list (pystr * yval) * Z * list yline)) : Prop :=
  match x with
  | Ok (d, nodes', lines) => (length lines <= n)%nat /\ NoDup (map fst d) /\ exists more, d = seen ++ more /\ grown 0 (block_bound (S depth)) nodes nodes' (values more)
  | Err e => e <> RECURSION
  end.

Lemma grown_nil bound nodes : nodes <= MAX_YAML_NODES -> grown 0 bound nodes nodes [].
Proof. intros. split; [lia|]. split; [cbn; lia|]. split; constructor. Qed.

Lemma NoDup_keys_snoc (seen : list (pystr * yval)) key v : NoDup (map fst seen) -> key ∉ map fst seen -> NoDup (map fst (seen ++ [(key, v)])).
Proof. intros Hn Hk. rewrite map_app. apply NoDup_app. split; [done|]. split; [intros x Hx ->%list_elem_of_singleton; done|apply NoDup_singleton]. Qed.

Lemma mapping_done seen depth nodes n lines : nodes <= MAX_YAML_NODES -> NoDup (map fst seen) -> (length lines <= n)%nat -> mapping_ok seen depth nodes n (Ok (seen, nodes, lines)).
Proof. intros Hn Hs Hl. split; [done|]. split; [done|]. exists []. split; [by rewrite app_nil_r|]. by apply grown_nil. Qed.

Lemma split_entry_error content : split_mapping_entry content <> Err RECURSION.
Proof.
  unfold split_mapping_entry. destruct (scan _ _ _ _ _ _) as [[b a]|]; [|done]. cbv zeta.
  assert (forall x : result pystr, x <> Err RECURSION -> (let? key := x in raise "YAML merge keys are not supported" when bool_decide (key = u "<<") ;; Ok (key, strip (drop 1 a))) <> Err RECURSION) as Hx.
  { intros [key|e] He; cbn [result_bind]; [by destruct (bool_decide _)|congruence]. }
  apply Hx. destruct (strip b) as [|c k]; [done|]. destruct (is_quote c); [|by destruct (negb _)].
  pose proof (quoted_scalar_error (strip_inline_comment (c :: k))) as Hq. destruct (quoted_scalar _) as [[l t]|e]; cbn [result_bind]; [done|congruence].
Qed.

Lemma mapping_step (f : nat) indent depth nodes seen lines :
  blk_ok (block raw_lines f) (S depth) (length lines - 1) ->
  (forall nodes seen rest, (length rest < length lines)%nat -> nodes <= MAX_YAML_NODES -> NoDup (map fst seen) ->
    mapping_ok seen depth nodes (length rest) (block_mapping raw_lines f indent depth nodes seen rest)) ->
  nodes <= MAX_YAML_NODES -> NoDup (map fst seen) ->
  mapping_ok seen depth nodes (length lines) (block_mapping raw_lines (S f) indent depth nodes seen lines).
Proof.
  intros Hb Hm Hn Hs. cbn [block_mapping]. destruct lines as [|line rest]; [by apply mapping_done|]. cbn [length] in *. rewrite Nat.sub_succ, Nat.sub_0_r in Hb.
  destruct (_ <? indent)%nat; [by apply mapping_done|]. destruct (indent <? _)%nat; [done|]. destruct (is_item _); [by apply mapping_done|].
  pose proof (split_entry_error (y_content line)) as He. destruct (split_mapping_entry _) as [[key raw]|e]; cbn [result_bind]; [|congruence].
  destruct (bool_decide (key ∈ map fst seen)) eqn:Gk; [done|]. bool_norm. pose proof (count_node_ok nodes) as Hc. destruct (count_node nodes) as [n1|e]; cbn [result_bind]; [|done].
  destruct Hc as [-> Hn1]. pose proof (entry_value_ok (block raw_lines f) indent depth (y_number line) raw (nodes + 1) rest Hb Hn1) as Hv.
  destruct (entry_value _ _ _ _ _ _ _ _) as [[[v n2] rest']|e]; cbn [result_bind]; [|done]. destruct Hv as [Hl Hv].
  specialize (Hm n2 (seen ++ [(key, v)]) rest' ltac:(lia)). assert (n2 <= MAX_YAML_NODES) as Hn2 by (destruct Hv; lia).
  specialize (Hm Hn2 (NoDup_keys_snoc _ _ _ Hs ltac:(done))). destruct (block_mapping _ _ _ _ _ _ _) as [[[d n3] r]|e]; [|done].
  destruct Hm as (Hl' & Hd & more & -> & Hg). split; [cbn [length]; lia|]. split; [done|]. exists ((key, v) :: more). split; [by rewrite <- app_assoc|].
  apply (grown_app 0 0 _ _ n2 _ [v]); [|done]. eapply (grown_weaken 1 0 _ _ _ _ 1); [exact Hv|lia|lia|lia|lia].
Qed.

Lemma block_bound_S depth : (block_bound (S depth) <= block_bound depth)%nat.
Proof. unfold block_bound. lia. Qed.

Lemma sequence_item_ok blk members indent depth number raw_item nodes rest :
  blk_ok blk (S depth) (length rest) ->
  (forall nodes rest', (length rest' <= length rest)%nat -> nodes <= MAX_YAML_NODES ->
    mapping_ok [] (S depth) nodes (length rest') (members (indent + 2)%nat (S depth) nodes rest')) ->
  nodes <= MAX_YAML_NODES ->
  parsed_ok 2 (item_bound depth) one nodes (length rest) (sequence_item raw_lines blk members indent depth number raw_item nodes rest).
Proof.
  intros Hb Hm Hn. unfold sequence_item. destruct raw_item as [|c r].
  { pose proof (nested_ok blk indent depth nodes rest Hb Hn) as Hi. destruct (nested_or_null _ _ _ _ _) as [[[v n] r]|e]; [|done]. destruct Hi as [Hl Hg].
    split; [done|]. eapply (grown_weaken 1 2 _ _ _ _ 0); [exact Hg|lia|lia|lia|unfold item_bound; lia]. }
  destruct (split_mapping_entry (c :: r)) as [[key raw]|e].
  2:{ pose proof (scalar_ok nodes (c :: r) Hn) as Hs. destruct (parse_scalar _ _) as [[v n]|e']; cbn [result_bind]; [|done]. split; [lia|].
      eapply (grown_weaken 1 2 _ _ _ _ 0); [exact Hs|lia|lia|lia|unfold item_bound, block_bound; lia]. }
  pose proof (entry_value_ok blk indent depth number raw nodes rest Hb Hn) as Hv. destruct (entry_value _ _ _ _ _ _ _ _) as [[[v n] rest']|e']; cbn [result_bind]; [|done].
  destruct Hv as [Hl Hv]. assert (n <= MAX_YAML_NODES) as Hn' by (destruct Hv; lia).
  assert (parsed_ok 2 (item_bound depth) one nodes (length rest) (Ok (YMap [(key, v)], n, rest'))) as H1.
  { split; [done|]. eapply (grown_collection 1 _ _ [v]); [exact Hv|apply (y_nodes_map [(key, v)])|apply (y_depth_map [(key, v)])| |unfold item_bound; lia].
    intros. apply (distinct_map [(key, v)]). split; [apply NoDup_singleton|done]. }
  destruct rest' as [|k rest']; [exact H1|]. destruct (indent <? _)%nat; [|exact H1]. destruct (negb _); [done|].
  specialize (Hm n (k :: rest') ltac:(done) Hn'). destruct (members _ _ _ _) as [[[d n'] r']|e']; cbn [result_bind]; [|done].
  destruct Hm as (Hl' & Hd & more & -> & Hg). cbn [app] in *. destruct (bool_decide (key ∈ map fst more)) eqn:G; [done|]. bool_norm. split; [lia|].
  assert (grown 1 (block_bound (S depth)) nodes n' (v :: values more)) as Hg'.
  { apply (grown_app 1 0 _ _ n _ [v]); [done|]. eapply (grown_weaken 0 0 _ _ _ _ 0); [exact Hg|lia|lia|lia|apply block_bound_S]. }
  eapply (grown_collection 1 _ _ (v :: values more)); [exact Hg'|apply (y_nodes_map ((key, v) :: more))|apply (y_depth_map ((key, v) :: more))| |unfold item_bound; lia].
  intros. apply (distinct_map ((key, v) :: more)). split; [by apply NoDup_cons|done].
Qed.

Lemma block_fuel_ok fuel :
  (forall depth n, (2 * n + 2 <= fuel)%nat -> blk_ok (block raw_lines fuel) depth n) /\
  (forall indent depth nodes seen lines, (2 * length lines + 1 <= fuel)%nat -> nodes <= MAX_YAML_NODES -> NoDup (map fst seen) ->
    mapping_ok seen depth nodes (length lines) (block_mapping raw_lines fuel indent depth nodes seen lines)) /\
  (forall indent depth nodes lines, (2 * length lines + 1 <= fuel)%nat -> nodes <= MAX_YAML_NODES ->
    parsed_ok 0 (item_bound depth) same nodes (length lines) (block_sequence raw_lines fuel indent depth nodes lines)).
Proof.
  induction fuel as [|f (IHb & IHm & IHs)]; [split; [|split]; intros; lia|]. split; [|split].
  - intros depth n Hf indent nodes lines Hl Hn. cbn [block]. destruct (MAX_YAML_DEPTH <? depth)%nat eqn:Gd; [done|]. apply Nat.ltb_ge in Gd. unfold MAX_YAML_DEPTH in Gd.
    destruct lines as [|line rest] eqn:El; [split; [done|apply grown_one; [lia|cbn [y_nodes]; lia|cbn [y_depth]; lia|done]]|]. rewrite <- El in *. destruct (negb _); [done|].
    destruct (is_item _).
    + specialize (IHs indent depth nodes lines ltac:(lia) Hn). destruct (block_sequence _ _ _ _ _ _) as [[[l n'] r]|e]; cbn [result_bind]; [|done]. destruct IHs as [Hr Hg].
      split; [done|]. eapply (grown_collection 0); [exact Hg|done|done|apply distinct_list|unfold item_bound, block_bound; lia].
    + specialize (IHm indent depth nodes [] lines ltac:(lia) Hn ltac:(constructor)). destruct (block_mapping _ _ _ _ _ _ _) as [[[d n'] r]|e]; cbn [result_bind]; [|done].
      destruct IHm as (Hr & Hd & more & -> & Hg). split; [done|].
      eapply (grown_collection 0); [exact Hg|apply y_nodes_map|apply y_depth_map|by intros; apply distinct_map|unfold block_bound; lia].
  - intros indent depth nodes seen lines Hf Hn Hs. destruct lines as [|line rest] eqn:El; [by apply mapping_done|]. rewrite <- El in *.
    assert (length lines = S (length rest)) as Hlen by (by rewrite El). apply mapping_step; [apply IHb; lia| |done|done]. intros. apply IHm; [lia|done|done].
  - intros indent depth nodes lines Hf Hn. cbn [block_sequence]. assert (parsed_ok 0 (item_bound depth) same nodes (length lines) (Ok ([], nodes, lines))) as H0 by (split; [done|by apply grown_nil]).
    destruct lines as [|line rest]; [exact H0|]. cbn [length] in Hf. destruct (_ <? indent)%nat; [exact H0|]. destruct (_ || _); [by destruct (indent <? _)%nat|].
    pose proof (count_node_ok nodes) as Hc. destruct (count_node nodes) as [n1|e]; cbn [result_bind]; [|done]. destruct Hc as [-> Hn1]. cbv zeta.
    pose proof (sequence_item_ok (block raw_lines f) (fun indent depth nodes lines => block_mapping raw_lines f indent depth nodes [] lines) indent depth (y_number line) (strip (drop 1 (y_content line))) (nodes + 1) rest ltac:(apply IHb; lia) ltac:(intros; apply IHm; [lia|done|constructor]) Hn1) as Hi.
    destruct (sequence_item _ _ _ _ _ _ _ _ _) as [[[v n2] rest']|e]; cbn [result_bind]; [|done]. destruct Hi as [Hl Hi].
    specialize (IHs indent depth n2 rest' ltac:(lia) ltac:(destruct Hi; lia)). destruct (block_sequence _ _ _ _ _ rest') as [[[l n3] r]|e]; cbn [result_bind]; [|done].
    destruct IHs as [Hl' Hg]. split; [cbn [length]; lia|]. apply (grown_app 0 0 _ _ n2 _ [v]); [|done]. eapply (grown_weaken 2 0 _ _ _ _ 1); [exact Hi|lia|lia|lia|lia].
Qed.
End blocks.

Lemma read_lines_error number lines : read_lines number lines <> Err RECURSION.
Proof.
  revert number. induction lines as [|raw lines IH]; intros number; cbn [read_lines]; [done|]. destruct (bool_decide _); [done|]. destruct (utf8_encode raw); [|done].
  destruct (65536 <? _); [done|]. cbv zeta. destruct (_ || _); [apply IH|]. destruct (_ || _); [done|]. destruct (Nat.odd _); [done|].
  specialize (IH (S number)). destruct (read_lines (S number) lines); cbn [result_bind]; [done|congruence].
Qed.

Lemma parse_lines_ok raw_lines lines : match parse_lines raw_lines lines with
  | Ok v => y_nodes v <= 2 * MAX_YAML_NODES + 1 /\ (y_depth v <= 99)%nat /\ distinct v
  | Err e => e <> RECURSION end.
Proof.
  unfold parse_lines. destruct lines as [|line rest] eqn:El; [done|]. rewrite <- El in *. destruct (negb _); [done|].
  destruct (block_fuel_ok raw_lines (block_fuel lines)) as [Hb _]. specialize (Hb 0%nat (length lines) ltac:(unfold block_fuel; lia) 0%nat 0 lines ltac:(lia) ltac:(done)).
  destruct (block _ _ _ _ _ _) as [[[v n] r]|e]; cbn [result_bind]; [|done]. destruct Hb as [_ (? & ? & ? & ?)%grown_inv]. destruct r; [|done].
  unfold block_bound in *. split; [lia|]. split; [lia|done].
Qed.

(** * The YAML subset reads back what a block-style writer writes. *)

(** * A writer *)

(** A single-quoted text has its quotes doubled. *)
Definition double (c : Z) : pystr := if c =? 39 then [39; 39] else [c].

(** Scalars and empty collections stand on the line of their key or dash; a
    literal text is single-quoted. *)
Definition leaf (v : yval) : option pystr :=
  match v with
  | YNull => Some (u "null")
  | YBool b => Some (u (if b then "true" else "false"))
  | YInt z => Some (str_of_int z)
  | YStr false s => Some (dumps_str s)
  | YStr true s => Some (39 :: flat_map double s ++ [39])
  | YList [] => Some (u "[]")
  | YMap [] => Some (u "{}")
  | _ => None
  end.

Definition entry_lines (indent : nat) (head : pystr) (v : yval) (below : list (nat * pystr)) : list (nat * pystr) :=
  match leaf v with Some t => [(indent, head ++ 32 :: t)] | None => (indent, head) :: below end.

(** Indentation and content of the lines of a collection *)
Fixpoint shown (indent : nat) (v : yval) : list (nat * pystr) :=
  match v with
  | YList l => flat_map (fun v => entry_lines indent [45] v (shown (indent + 2) v)) l
  | YMap d => flat_map (fun kv => entry_lines indent (dumps_str kv.1 ++ [58]) kv.2 (shown (indent + 2) kv.2)) d
  | _ => []
  end.

Definition yaml_line (ic : nat * pystr) : pystr := replicate ic.1 32 ++ ic.2.
Definition yaml_lines (v : yval) : list pystr := map yaml_line (shown 0 v).
Definition yaml_text (v : yval) : pystr := flat_map (fun l => l ++ [10]) (yaml_lines v).

(** The nodes the parser counts *)
Fixpoint counted (v : yval) : Z :=
  match v with
  | YList [] | YMap [] => 1
  | YList l => total (map (fun v => 1 + counted v) l)
  | YMap d => total (map (fun kv => 1 + counted kv.2) d)
  | _ => 0
  end.

Definition line_char (c : Z) : Prop := 0 <= c /\ c <> 133 /\ c <> 8232 /\ c <> 8233.
Definition key_ok (k : pystr) : Prop := Forall line_char k /\ k <> u "<<".

Inductive writable : yval -> Prop :=
| WNull : writable YNull
| WBool b : writable (YBool b)
| WInt z : - 10 ^ 20 < z < 10 ^ 20 -> writable (YInt z)
| WText s : Forall line_char s -> writable (YStr false s)
| WLiteral s : Forall (fun c => line_char c /\ 32 <= c) s -> writable (YStr true s)
| WList l : Forall writable l -> writable (YList l)
| WMap d : NoDup (map fst d) -> Forall (fun kv => key_ok kv.1 /\ writable kv.2) d -> writable (YMap d).

(** * Scanning *)

Definition pref (p : pystr) (x : option (pystr * pystr)) : option (pystr * pystr) := match x with Some (a, b) => Some (p ++ a, b) | None => None end.

Lemma pref_app p q x : pref p (pref q x) = pref (p ++ q) x.
Proof. destruct x as [[a b]|]; cbn [pref]; [by rewrite app_assoc|done]. Qed.

(** The scan goes through [t] from outside quotes to outside quotes. *)
Definition passes (stop : option Z -> pystr -> bool) (t : pystr) : Prop :=
  forall before r, exists before', scan stop None false 0 before (t ++ r) = pref t (scan stop None false 0 before' r).

Lemma passes_app stop s t : passes stop s -> passes stop t -> passes stop (s ++ t).
Proof. intros Hs Ht b r. rewrite <- app_assoc. destruct (Hs b (t ++ r)) as [b1 ->]. destruct (Ht b1 r) as [b2 ->]. exists b2. apply pref_app. Qed.

Lemma passes_nil stop : passes stop [].
Proof. intros b r. exists b. cbn [app]. by destruct (scan _ _ _ _ _ r) as [[]|]. Qed.

Lemma passes_None stop t before : passes stop t -> scan stop None false 0 before t = None.
Proof. intros H. destruct (H before []) as [b E]. rewrite app_nil_r in E. by rewrite E. Qed.

Definition inert (c : Z) : Prop := c <> 34 /\ c <> 39 /\ c <> 91 /\ c <> 93 /\ c <> 123 /\ c <> 125.

Lemma passes_char (stop : option Z -> pystr -> bool) c : inert c -> (forall b r, stop b (c :: r) = false) -> passes stop [c].
Proof.
  intros (H1 & H2 & H3 & H4 & H5 & H6) Hs b r. exists (Some c). cbn [app scan]. rewrite Hs.
  by rewrite (proj2 (Z.eqb_neq c 34)), (proj2 (Z.eqb_neq c 39)), (proj2 (Z.eqb_neq c 91)), (proj2 (Z.eqb_neq c 93)), (proj2 (Z.eqb_neq c 123)), (proj2 (Z.eqb_neq c 125)).
Qed.

Lemma passes_chars (stop : option Z -> pystr -> bool) t : Forall (fun c => inert c /\ forall b r, stop b (c :: r) = false) t -> passes stop t.
Proof. induction 1 as [|c t [Hi Hs] _ IH]; [apply passes_nil|]. apply (passes_app _ [c]); [by apply passes_char|done]. Qed.

Lemma scan_step_quoted stop q c b r : c <> q -> (q = 34 -> c <> 92) -> scan stop (Some q) false 0 b (c :: r) = pref [c] (scan stop (Some q) false 0 (Some c) r).
Proof.
  intros H1 H2. cbn [scan]. rewrite (proj2 (Z.eqb_neq c q)) by done.
  assert (bool_decide (Some q = Some 34) && (c =? 92) = false) as ->; [|done].
  apply andb_false_iff. destruct (decide (q = 34)) as [->|]; [right; apply Z.eqb_neq; auto|left; apply bool_decide_eq_false; congruence].
Qed.

Lemma hex_digit_text_range n : 0 <= n < 16 -> 48 <= hex_digit n <= 57 \/ 97 <= hex_digit n <= 102.
Proof. intros. unfold hex_digit. destruct (n <? 10) eqn:G; bool_norm; lia. Qed.

Lemma esc_char_cases c : 0 <= c ->
  (exists e, esc_char c = [92; e] /\ 34 <= e < 128) \/
  (exists a b, esc_char c = [92; 117; 48; 48; a; b] /\ 48 <= a <= 102 /\ 48 <= b <= 102 /\ a <> 92 /\ b <> 92) \/
  (esc_char c = [c] /\ 32 <= c /\ c <> 34 /\ c <> 92).
Proof.
  intros Hc. unfold esc_char.
  repeat match goal with |- context [if c =? ?k then _ else _] => destruct (Z.eqb_spec c k); [left; eexists; split; [reflexivity|lia]|] end.
  destruct (Z.ltb_spec c 32); [|by right; right]. right; left. eexists _, _. split; [reflexivity|].
  pose proof (hex_digit_text_range (c / 16) ltac:(divmod)). pose proof (hex_digit_text_range (c mod 16) ltac:(divmod)). lia.
Qed.

Lemma scan_step_escape stop e b r : scan stop (Some 34) false 0 b (92 :: e :: r) = pref [92; e] (scan stop (Some 34) false 0 (Some e) r).
Proof. cbn [scan]. rewrite bool_decide_eq_true_2 by done. rewrite Z.eqb_refl. cbn [andb]. by destruct (scan stop (Some 34) false 0 (Some e) r) as [[]|]. Qed.

Lemma scan_escaped stop c b r : 0 <= c -> exists b', scan stop (Some 34) false 0 b (esc_char c ++ r) = pref (esc_char c) (scan stop (Some 34) false 0 b' r).
Proof.
  intros Hc. destruct (esc_char_cases c Hc) as [(e & -> & He)|[(x & y & -> & Hx & Hy & Hx' & Hy')|(-> & H32 & H34 & H92)]]; eexists; cbn [app].
  - apply scan_step_escape.
  - rewrite scan_step_escape, !(scan_step_quoted _ 34) by lia. by rewrite !pref_app.
  - by apply scan_step_quoted.
Qed.

Lemma scan_open stop q b r : q = 34 \/ q = 39 -> scan stop None false 0 b (q :: r) = pref [q] (scan stop (Some q) false 0 (Some q) r).
Proof. intros [-> | ->]; reflexivity. Qed.

Lemma scan_close stop q b r : q = 34 \/ q = 39 -> scan stop (Some q) false 0 b (q :: r) = pref [q] (scan stop None false 0 (Some q) r).
Proof. intros [-> | ->]; reflexivity. Qed.

Lemma passes_text stop s : Forall (Z.le 0) s -> passes stop (dumps_str s).
Proof.
  intros Hs b r. exists (Some 34). unfold dumps_str.
  assert (forall b, scan stop (Some 34) false 0 b (flat_map esc_char s ++ 34 :: r) = pref (flat_map esc_char s ++ [34]) (scan stop None false 0 (Some 34) r)) as H.
  { clear b. induction Hs as [|c s Hc _ IH]; intros b; [cbn [flat_map app]; by rewrite scan_close by auto|].
    cbn [flat_map]. rewrite <- !app_assoc. destruct (scan_escaped stop c b (flat_map esc_char s ++ 34 :: r) Hc) as [b' ->]. by rewrite IH, pref_app, app_assoc. }
  cbn [app]. rewrite <- app_assoc. cbn [app]. by rewrite scan_open, H, pref_app by auto.
Qed.

Lemma passes_literal stop s : passes stop (39 :: flat_map double s ++ [39]).
Proof.
  intros b r. exists (Some 39).
  assert (forall b, scan stop (Some 39) false 0 b (flat_map double s ++ 39 :: r) = pref (flat_map double s ++ [39]) (scan stop None false 0 (Some 39) r)) as H.
  { clear b. induction s as [|c s IH]; intros b; [cbn [flat_map app]; by rewrite scan_close by auto|]. cbn [flat_map]. rewrite <- !app_assoc. unfold double at 1 3.
    destruct (Z.eqb_spec c 39) as [->|Hc]; cbn [app].
    - by rewrite scan_close, scan_open, IH, !pref_app by auto.
    - by rewrite scan_step_quoted, IH, pref_app by (done || lia). }
  cbn [app]. rewrite <- app_assoc. cbn [app]. by rewrite scan_open, H, pref_app by auto.
Qed.

Lemma unquote_double s : unquote_single (flat_map double s) = s.
Proof.
  induction s as [|c s IH]; [done|]. cbn [flat_map]. unfold double at 1. destruct (Z.eqb_spec c 39) as [->|Hc]; cbn [app unquote_single].
  - rewrite Z.eqb_refl. cbn [andb]. by rewrite IH.
  - rewrite (proj2 (Z.eqb_neq c 39)) by done. rewrite IH. cbn [andb]. by destruct (flat_map double s) eqn:E; [cbn in IH; subst s|].
Qed.

(** * Text that has nothing to strip *)

(** It starts and ends with characters that are not spaces. *)
Definition solid (s : pystr) : Prop := exists a m z, s = a :: m /\ is_space a = false /\ last (a :: m) = Some z /\ is_space z = false.

Lemma solid_lstrip s : solid s -> lstrip s = s.
Proof. intros (a & m & z & -> & Ha & _). cbn [lstrip]. by rewrite Ha. Qed.

Lemma solid_rev s : solid s -> solid (rev s).
Proof.
  intros (a & m & z & -> & Ha & Hl & Hz). destruct (proj1 (last_Some _ _) Hl) as [m' E]. rewrite E in *. rewrite rev_unit.
  exists z, (rev m'), a. split; [done|]. split; [done|]. split; [|done]. destruct m' as [|a' m']; [by cbn in *; simplify_eq|].
  assert (a = a') as <- by (cbn [app] in E; congruence). cbn [rev]. rewrite app_comm_cons. by rewrite last_snoc.
Qed.

Lemma solid_strip s : solid s -> strip s = s.
Proof. intros Hs. unfold strip. by rewrite (solid_lstrip s), solid_lstrip, rev_involutive by auto using solid_rev. Qed.
Lemma solid_rstrip s : solid s -> rstrip s = s.
Proof. intros Hs. unfold rstrip. by rewrite solid_lstrip, rev_involutive by auto using solid_rev. Qed.

Lemma solid_app s t : solid s -> solid t -> forall m, solid (s ++ m ++ t).
Proof.
  intros (a & s' & _ & -> & Ha & _) (b & t' & z & -> & _ & Hl & Hz) m. exists a, (s' ++ m ++ b :: t'), z. split; [done|]. split; [done|]. split; [|done].
  destruct (proj1 (last_Some _ _) Hl) as [x E]. rewrite E. by rewrite !app_assoc, app_comm_cons, last_snoc.
Qed.

Lemma solid_snoc a m z : is_space a = false -> is_space z = false -> solid (a :: m ++ [z]).
Proof. intros. exists a, (m ++ [z]), z. split; [done|]. split; [done|]. split; [|done]. by rewrite app_comm_cons, last_snoc. Qed.

Lemma solid_Forall s : s <> [] -> Forall (fun c => is_space c = false) s -> solid s.
Proof.
  intros Hne Hf. destruct s as [|a m]; [done|]. destruct (last (a :: m)) as [z|] eqn:E; [|by apply last_None in E].
  exists a, m, z. apply last_Some_elem_of in E as Hz. rewrite Forall_forall in Hf. split; [done|]. split; [apply Hf, elem_of_cons; by left|]. split; [done|]. by apply Hf.
Qed.

Lemma strip_comment_solid s : passes at_comment s -> solid s -> strip_inline_comment s = s.
Proof. intros Hp Hs. unfold strip_inline_comment. rewrite passes_None by done. by apply solid_rstrip. Qed.

(** * Scalars *)

(** What the parser needs of the text of a value *)
Record leaf_ok (v : yval) (t : pystr) : Prop := LeafOk {
  leaf_comment : passes at_comment t;
  leaf_colon : passes at_colon t;
  leaf_solid : solid t;
  leaf_chars : Forall (fun c => is_break c = false /\ c <> 0) t;
  leaf_mark : is_literal_mark t = false;
  leaf_reads : forall nodes, nodes + counted v <= MAX_YAML_NODES -> parse_scalar nodes t = Ok (v, nodes + counted v) }.

Lemma parse_scalar_plain nodes t v : passes at_comment t -> solid t -> match t with [] => True | c :: _ => is_quote c || ((c =? 91) || (c =? 123)) = false end ->
  parse_plain_scalar t = Ok v -> parse_scalar nodes t = Ok (v, nodes + 0).
Proof.
  intros Hc Hs Hh Hp. unfold parse_scalar. rewrite strip_comment_solid by done. cbv zeta. rewrite Z.add_0_r. destruct t as [|c t]; [by rewrite Hp|].
  apply orb_false_iff in Hh as [-> ->]. by rewrite Hp.
Qed.

Lemma inert_range c : 42 <= c <= 57 \/ 65 <= c <= 90 \/ 95 <= c <= 122 -> inert c /\ is_break c = false /\ is_space c = false /\ c <> 0 /\
  (forall b r, at_comment b (c :: r) = false) /\ (forall b r, at_colon b (c :: r) = false).
Proof.
  intros Hc. split; [unfold inert; lia|]. split; [|split; [|split; [lia|split]]].
  - unfold is_break, in_cls. cbn [existsb fst snd]. repeat (rewrite andb_false_iff || rewrite orb_false_iff || rewrite Z.leb_gt). lia.
  - unfold is_space, in_cls. cbn [existsb fst snd]. repeat (rewrite andb_false_iff || rewrite orb_false_iff || rewrite Z.leb_gt). lia.
  - intros b r. cbn [at_comment]. by rewrite (proj2 (Z.eqb_neq c 35)) by lia.
  - intros b r. cbn [at_colon]. by rewrite (proj2 (Z.eqb_neq c 58)) by lia.
Qed.

(** Texts of letters, digits and signs *)
Definition word_char (c : Z) : Prop := 42 <= c <= 57 \/ 65 <= c <= 90 \/ 95 <= c <= 122.

Lemma leaf_word v t : t <> [] -> Forall word_char t -> counted v = 0 -> parse_plain_scalar t = Ok v -> leaf_ok v t.
Proof.
  intros Hne Hw Hc Hp.
  assert (forall stop : option Z -> pystr -> bool, (forall c, word_char c -> forall b r, stop b (c :: r) = false) -> passes stop t) as Hpass.
  { intros stop Hs. apply passes_chars. eapply Forall_impl; [exact Hw|]. cbv beta. intros c Hcc. split; [by apply inert_range|by apply Hs]. }
  assert (passes at_comment t) as H1 by (apply Hpass; intros c Hcc; by apply inert_range).
  assert (solid t) as H3. { apply solid_Forall; [done|]. eapply Forall_impl; [exact Hw|]. intros c Hcc. by apply inert_range. }
  split; [done| |done| | |].
  - apply Hpass. intros c Hcc b r. by apply inert_range.
  - eapply Forall_impl; [exact Hw|]. intros c Hcc. pose proof (inert_range c Hcc). tauto.
  - unfold is_literal_mark. apply orb_false_iff. split; apply bool_decide_eq_false; intros ->; apply Forall_cons in Hw as [Hw _]; unfold word_char in Hw; lia.
  - intros nodes _. rewrite Hc. apply parse_scalar_plain; [done|done| |done]. destruct t as [|c t]; [done|]. apply Forall_cons in Hw as [Hw _]. unfold word_char in Hw.
    unfold is_quote. rewrite !orb_false_iff, !Z.eqb_neq. lia.
Qed.

Lemma int_text z : Forall (fun c => 45 <= c <= 57) (str_of_int z) /\ str_of_int z <> [].
Proof.
  assert (forall n, 0 <= n -> Forall (fun c => 45 <= c <= 57) (digits n)) as Hd.
  { intros n Hn. eapply Forall_impl; [by apply digits_digits|]. cbv beta. intros c Hc. unfold is_digit in Hc. bool_norm. lia. }
  destruct (str_of_int_cases z) as [[Hz ->]|[Hz ->]]; split; [auto|by apply digits_nonempty|constructor; [lia|apply Hd; lia]|done].
Qed.

Lemma digits_int_re n : 0 <= n -> lang (RAlt (chr 48) (RCat (RCls [(49, 57)]) (RStar (RCls [(48, 57)])))) (digits n).
Proof.
  intros Hn. apply lang_alt_inv. destruct (digits_cases n Hn) as [[-> ->]|(c & t & E & Hc)]; [left; by apply lang_chr|]. right. pose proof (digits_digits n Hn) as Hd. rewrite E in *.
  apply lang_cat_inv. exists [c], t. split; [done|]. split; [apply lang_cls; exists c; split; [done|]|].
  - unfold in_cls. cbn [existsb fst snd]. rewrite orb_false_r, andb_true_iff, !Z.leb_le. lia.
  - apply lang_star_cls. apply Forall_cons in Hd as [_ Hd]. eapply Forall_impl; [exact Hd|]. cbv beta. intros d Hdd. apply in_digit. unfold is_digit in Hdd. bool_norm. lia.
Qed.

Lemma parse_int z : - 10 ^ 20 < z < 10 ^ 20 -> parse_plain_scalar (str_of_int z) = Ok (YInt z).
Proof.
  intros Hz. destruct (int_text z) as [Ht Hne]. unfold parse_plain_scalar. cbv zeta.
  assert (forall l, Forall (fun s => Exists (fun c => 57 < c) s) l -> bool_decide (str_of_int z ∈ l) = false) as Hnot.
  { intros l Hl. apply bool_decide_eq_false. intros Hin. rewrite Forall_forall in Hl. apply Hl in Hin. apply Exists_exists in Hin as (c & Hin & Hc).
    rewrite Forall_forall in Ht. apply Ht in Hin. lia. }
  rewrite !Hnot by (vm_compute; repeat constructor). clear Hnot.
  assert (fullmatch int_re (str_of_int z) = true) as ->.
  { apply fullmatch_spec, lang_cat_inv. destruct (str_of_int_cases z) as [[Hp ->]|[Hp ->]].
    - exists [], (digits z). split; [done|]. split; [apply lang_alt_inv; left; by apply lang_eps|by apply digits_int_re].
    - exists [45], (digits (- z)). split; [done|]. split; [apply lang_alt_inv; right; by apply lang_chr|apply digits_int_re; lia]. }
  destruct (str_of_int z) as [|c t] eqn:E; [done|]. rewrite <- E. clear Hne Ht.
  destruct (str_of_int_cases z) as [[Hp ->]|[Hp ->]].
  - destruct (digits_head_digit z Hp) as (d & r & Ed & Hd). assert (startswith [45] (digits z) = false) as ->.
    { rewrite Ed. cbn [startswith]. by rewrite (proj2 (Z.eqb_neq 45 d)) by lia. }
    pose proof (length_digits z 20 Hp ltac:(lia) ltac:(lia)). rewrite digits_value_digits by done. unfold zlen. by rewrite (proj2 (Z.ltb_ge 20 _)) by lia.
  - cbn [startswith drop]. rewrite Z.eqb_refl. cbn [andb]. rewrite drop_0. pose proof (length_digits (- z) 20 ltac:(lia) ltac:(lia) ltac:(lia)).
    rewrite digits_value_digits by lia. unfold zlen. rewrite (proj2 (Z.ltb_ge 20 _)) by lia. do 2 f_equal. lia.
Qed.

Lemma shown_char c : 32 <= c -> line_char c -> is_break c = false /\ c <> 0.
Proof.
  intros Hc (_ & H1 & H2 & H3). split; [|lia]. unfold is_break, in_cls. cbn [existsb fst snd].
  repeat (rewrite andb_false_iff || rewrite orb_false_iff || rewrite Z.leb_gt). lia.
Qed.

Lemma text_chars s : Forall line_char s -> Forall (fun c => is_break c = false /\ c <> 0) (dumps_str s).
Proof.
  intros Hs. assert (forall c, 32 <= c < 128 -> is_break c = false /\ c <> 0) as Ha by (intros; apply shown_char; unfold line_char; lia).
  unfold dumps_str. constructor; [apply Ha; lia|]. apply Forall_app. split; [|constructor; [apply Ha; lia|constructor]].
  induction Hs as [|c s Hc _ IH]; [constructor|]. cbn [flat_map]. apply Forall_app. split; [|done].
  destruct (esc_char_cases c ltac:(apply Hc)) as [(e & -> & He)|[(x & y & -> & Hx & Hy & _)|(-> & H32 & _)]];
    repeat (apply Forall_cons; split; [apply Ha; lia|]); try constructor; [by apply shown_char|constructor].
Qed.

Lemma dumps_solid s : solid (dumps_str s).
Proof. by apply solid_snoc. Qed.

Lemma quoted_text s : Forall (Z.le 0) s -> quoted_scalar (dumps_str s) = Ok (false, s).
Proof.
  intros Hs. unfold quoted_scalar. assert (startswith [34] (dumps_str s) = true) as -> by done.
  by rewrite (loads_dumps_raw Ok (VStr s)) by (done || by constructor).
Qed.

Lemma line_nonneg s : Forall line_char s -> Forall (Z.le 0) s.
Proof. intros Hs. eapply Forall_impl; [exact Hs|]. intros c Hc. apply Hc. Qed.

Lemma leaf_text s : Forall line_char s -> leaf_ok (YStr false s) (dumps_str s).
Proof.
  intros Hs. pose proof (line_nonneg s Hs) as Hp. split; [by apply passes_text|by apply passes_text|apply dumps_solid|by apply text_chars|done|].
  intros nodes _. cbn [counted]. unfold parse_scalar. rewrite strip_comment_solid by (apply dumps_solid || by apply passes_text).
  change (dumps_str s) with (34 :: flat_map esc_char s ++ [34]) at 1. cbv zeta iota beta. change (is_quote 34) with true. cbv iota.
  change (34 :: flat_map esc_char s ++ [34]) with (dumps_str s). rewrite quoted_text by done. cbn [result_bind]. by rewrite Z.add_0_r.
Qed.

Lemma quoted_literal s : quoted_scalar (39 :: flat_map double s ++ [39]) = Ok (true, s).
Proof.
  unfold quoted_scalar. assert (startswith [34] (39 :: flat_map double s ++ [39]) = false) as -> by done.
  assert (zlen (39 :: flat_map double s ++ [39]) <? 2 = false) as ->. { apply Z.ltb_ge. zlen_norm. pose proof (zlen_nonneg (flat_map double s)). lia. }
  assert (endswith [39] (39 :: flat_map double s ++ [39]) = true) as ->. { unfold endswith. rewrite app_comm_cons, rev_unit. done. }
  cbn [orb negb drop length]. rewrite length_app, drop_0. cbn [length]. replace (S (length (flat_map double s) + 1) - 2)%nat with (length (flat_map double s)) by lia.
  by rewrite take_app_length, unquote_double.
Qed.

Lemma leaf_literal s : Forall (fun c => line_char c /\ 32 <= c) s -> leaf_ok (YStr true s) (39 :: flat_map double s ++ [39]).
Proof.
  intros Hs. assert (solid (39 :: flat_map double s ++ [39])) as Hsol by by apply solid_snoc.
  split; [apply passes_literal|apply passes_literal|done| |done|].
  - assert (is_break 39 = false /\ 39 <> 0) as H39 by done. constructor; [done|]. apply Forall_app. split; [|constructor; [done|constructor]].
    induction Hs as [|c s [Hc H32] _ IH]; [constructor|]. cbn [flat_map]. apply Forall_app. split; [|apply IH; by apply solid_snoc].
    unfold double. destruct (c =? 39); repeat (constructor; [done|]); [constructor|]. constructor; [by apply shown_char|constructor].
  - intros nodes _. cbn [counted]. unfold parse_scalar. rewrite strip_comment_solid by (done || apply passes_literal). cbv zeta iota beta. change (is_quote 39) with true. cbv iota.
    rewrite quoted_literal. cbn [result_bind]. by rewrite Z.add_0_r.
Qed.

Lemma passes_brackets stop o c : o = 91 /\ c = 93 \/ o = 123 /\ c = 125 -> passes stop [o; c].
Proof.
  intros Hoc b r. exists (Some c).
  assert (scan stop None false 0 b ([o; c] ++ r) = pref [o] (pref [c] (scan stop None false 0 (Some c) r))) as ->; [|apply pref_app].
  by destruct Hoc as [[-> ->]|[-> ->]].
Qed.

Lemma leaf_empty (v : yval) (t : pystr) : (v, t) = (YList [], u "[]") \/ (v, t) = (YMap [], u "{}") -> leaf_ok v t.
Proof.
  intros Hv. assert (forall stop, passes stop t) as Hp by (intros stop; destruct Hv as [[= -> ->]|[= -> ->]]; apply passes_brackets; auto).
  split; [apply Hp|apply Hp| | | |].
  - by destruct Hv as [[= -> ->]|[= -> ->]]; apply (solid_snoc _ []).
  - by destruct Hv as [[= -> ->]|[= -> ->]]; eval_lits; repeat constructor.
  - by destruct Hv as [[= -> ->]|[= -> ->]].
  - intros nodes Hn. unfold parse_scalar. rewrite strip_comment_solid by (done || by destruct Hv as [[= -> ->]|[= -> ->]]; apply (solid_snoc _ [])). cbv zeta.
    assert (count_node nodes = Ok (nodes + 1)) as Hc.
    { assert (counted v = 1) as E by (by destruct Hv as [[= -> ->]|[= -> ->]]). unfold count_node. by rewrite (proj2 (Z.ltb_ge _ _)) by lia. }
    assert (flow_value 6 0 nodes t = let? n := count_node nodes in Ok (v, n, [])) as Hf by (by destruct Hv as [[= -> ->]|[= -> ->]]).
    rewrite Hc in Hf. assert (flow_parse nodes t = Ok (v, nodes + 1)) as Hp'.
    { unfold flow_parse. assert (flow_fuel t = 6%nat) as -> by (by destruct Hv as [[= -> ->]|[= -> ->]]). by rewrite Hf. }
    by destruct Hv as [[= -> ->]|[= -> ->]].
Qed.

Lemma leaf_parses v t : writable v -> leaf v = Some t -> leaf_ok v t.
Proof.
  intros Hv Hl. destruct Hv as [|b|z Hz|s Hs|s Hs|l Hl'|d Hd Hd']; cbn [leaf] in Hl.
  - assert (t = u "null") as -> by congruence. apply leaf_word; [done|eval_lits; repeat constructor; unfold word_char; lia|done|done].
  - assert (t = u (if b then "true" else "false")) as -> by congruence. destruct b; (apply leaf_word; [done|eval_lits; repeat constructor; unfold word_char; lia|done|done]).
  - assert (t = str_of_int z) as -> by congruence. destruct (int_text z) as [Ht Hne]. apply leaf_word; [done| |done|by apply parse_int].
    eapply Forall_impl; [exact Ht|]. cbv beta. unfold word_char. intros. lia.
  - assert (t = dumps_str s) as -> by congruence. by apply leaf_text.
  - assert (t = 39 :: flat_map double s ++ [39]) as -> by congruence. by apply leaf_literal.
  - destruct l; [|done]. apply leaf_empty. left. congruence.
  - destruct d; [|done]. apply leaf_empty. right. congruence.
Qed.

(** * Lines *)

(** What follows a key or a dash on its line, and the lines below it *)
Definition suffix (v : yval) : pystr := match leaf v with Some t => 32 :: t | None => [] end.
Definition raw_of (v : yval) : pystr := match leaf v with Some t => t | None => [] end.
Definition below (indent : nat) (v : yval) : list (nat * pystr) := match leaf v with Some _ => [] | None => shown (indent + 2) v end.

Lemma entry_lines_eq indent head v : entry_lines indent head v (shown (indent + 2) v) = (indent, head ++ suffix v) :: below indent v.
Proof. unfold entry_lines, suffix, below. destruct (leaf v); [done|by rewrite app_nil_r]. Qed.

Definition items_lines (indent : nat) (l : list yval) : list (nat * pystr) := flat_map (fun v => (indent, [45] ++ suffix v) :: below indent v) l.
Definition members_lines (indent : nat) (d : list (pystr * yval)) : list (nat * pystr) :=
  flat_map (fun kv => (indent, (dumps_str kv.1 ++ [58]) ++ suffix kv.2) :: below indent kv.2) d.

Lemma shown_list indent l : shown indent (YList l) = items_lines indent l.
Proof. cbn [shown]. unfold items_lines. apply flat_map_ext. intros v. apply entry_lines_eq. Qed.
Lemma shown_map indent d : shown indent (YMap d) = members_lines indent d.
Proof. cbn [shown]. unfold members_lines. apply flat_map_ext. intros kv. apply entry_lines_eq. Qed.

Fixpoint number (n : nat) (l : list (nat * pystr)) : list yline :=
  match l with [] => [] | (i, c) :: l => YLine n i c :: number (S n) l end.

Lemma number_app n a b : number n (a ++ b) = number n a ++ number (n + length a) b.
Proof. revert n. induction a as [|[i c] a IH]; intros n; cbn [number app length]; [by rewrite Nat.add_0_r|]. rewrite IH. by rewrite Nat.add_succ_r. Qed.

Lemma length_number n l : length (number n l) = length l.
Proof. revert n. induction l as [|[i c] l IH]; intros n; cbn [number length]; [done|]. by rewrite IH. Qed.

(** The lines after a block belong to an enclosing one. *)
Definition outside (indent : nat) (tail : list yline) : Prop := match tail with [] => True | l :: _ => (y_indent l < indent)%nat end.

Lemma outside_more a b tail : (a <= b)%nat -> outside a tail -> outside b tail.
Proof. destruct tail; cbn [outside]; [done|lia]. Qed.

Lemma outside_number b n indent l tail : (indent < b)%nat -> outside b tail -> Forall (fun ic => ic.1 = indent) (take 1 l) -> outside b (number n l ++ tail).
Proof. intros Hi Ht Hl. destruct l as [|[i c] l]; [done|]. cbn [number app outside y_indent take] in *. apply Forall_cons in Hl as [Hl _]. cbn [fst] in Hl. lia. Qed.

Lemma raw_strip v : writable v -> strip (suffix v) = raw_of v.
Proof.
  intros Hv. unfold suffix, raw_of. destruct (leaf v) as [t|] eqn:E; [|done]. apply leaf_parses in E as [_ _ Hs _ _ _]; [|done].
  unfold strip. cbn [lstrip]. change (is_space 32) with true. cbv iota. fold (strip t). by apply solid_strip.
Qed.

Lemma split_entry k v : key_ok k -> writable v -> split_mapping_entry ((dumps_str k ++ [58]) ++ suffix v) = Ok (k, raw_of v).
Proof.
  intros [Hk Hm] Hv. apply line_nonneg in Hk. unfold split_mapping_entry.
  assert (scan at_colon None false 0 None ((dumps_str k ++ [58]) ++ suffix v) = Some (dumps_str k, 58 :: suffix v)) as ->.
  { rewrite <- app_assoc. destruct (passes_text at_colon k Hk None ([58] ++ suffix v)) as [b ->]. assert (scan at_colon None false 0 b ([58] ++ suffix v) = Some ([], 58 :: suffix v)) as -> by (unfold suffix; by destruct (leaf v)). cbn [pref]. by rewrite app_nil_r. }
  cbv zeta. rewrite (solid_strip _ (dumps_solid k)). change (drop 1 (58 :: suffix v)) with (suffix v). rewrite raw_strip by done.
  change (dumps_str k) with (34 :: flat_map esc_char k ++ [34]) at 1. cbv iota. change (is_quote 34) with true. cbv iota.
  change (34 :: flat_map esc_char k ++ [34]) with (dumps_str k). rewrite strip_comment_solid by (apply dumps_solid || by apply passes_text).
  rewrite quoted_text by done. cbn [result_bind]. by rewrite bool_decide_eq_false_2.
Qed.

Section reads.
Variable raw_lines : list pystr.

Definition wf_entry (depth : nat) (v : yval) : Prop := writable v /\ (y_depth v + S depth <= S MAX_YAML_DEPTH)%nat.

(** A parser of blocks that reads the collections whose lines are few enough *)
Definition reads_blocks (blk : block_parser) (size : nat) : Prop :=
  forall v indent depth nodes n tail, writable v -> leaf v = None -> (length (shown indent v) <= size)%nat -> (y_depth v + depth <= S MAX_YAML_DEPTH)%nat ->
    nodes + counted v <= MAX_YAML_NODES -> outside indent tail ->
    blk indent depth nodes (number n (shown indent v) ++ tail) = Ok (v, nodes + counted v, tail).

Lemma shown_head indent v : leaf v = None -> exists c rest, shown indent v = (indent, c) :: rest.
Proof.
  destruct v as [| | |[]|[|v l]|[|[k v] d]]; try done; intros _; [rewrite shown_list|rewrite shown_map]; cbn [items_lines members_lines flat_map app fst snd]; eauto.
Qed.

Lemma below_reads blk size indent depth nodes n v tail : reads_blocks blk size -> wf_entry depth v -> leaf v = None -> (length (below indent v) <= size)%nat ->
  nodes + counted v <= MAX_YAML_NODES -> outside (indent + 2) tail ->
  nested_or_null blk indent depth nodes (number n (below indent v) ++ tail) = Ok (v, nodes + counted v, tail).
Proof.
  intros Hb [Hv Hd] El Hs Hn Ht. unfold below in *. rewrite El in *. specialize (Hb v (indent + 2)%nat (S depth) nodes n tail Hv El Hs Hd Hn Ht).
  destruct (shown_head (indent + 2) v El) as (c & rest & E). rewrite E in *. cbn [number app nested_or_null y_indent] in *.
  rewrite (proj2 (Nat.leb_gt _ _)) by lia. rewrite Nat.eqb_refl. cbn [negb]. exact Hb.
Qed.

Lemma entry_reads blk size indent depth num nodes n v tail : reads_blocks blk size -> wf_entry depth v -> (length (below indent v) <= size)%nat ->
  nodes + counted v <= MAX_YAML_NODES -> outside (indent + 2) tail ->
  entry_value raw_lines blk indent depth num (raw_of v) nodes (number n (below indent v) ++ tail) = Ok (v, nodes + counted v, tail).
Proof.
  intros Hb Hw Hs Hn Ht. unfold entry_value. destruct (leaf v) as [t|] eqn:El.
  - destruct (leaf_parses v t (proj1 Hw) El) as [_ _ (a & m & z & -> & _) _ Hm Hr]. unfold raw_of, below. rewrite El, Hm, Hr by done. done.
  - assert (raw_of v = []) as -> by (unfold raw_of; by rewrite El). by apply (below_reads _ size).
Qed.

Lemma item_reads blk members size indent depth num nodes n v tail : reads_blocks blk size -> wf_entry depth v -> (length (below indent v) <= size)%nat ->
  nodes + counted v <= MAX_YAML_NODES -> outside (indent + 2) tail ->
  sequence_item raw_lines blk members indent depth num (raw_of v) nodes (number n (below indent v) ++ tail) = Ok (v, nodes + counted v, tail).
Proof.
  intros Hb Hw Hs Hn Ht. unfold sequence_item. destruct (leaf v) as [t|] eqn:El.
  - destruct (leaf_parses v t (proj1 Hw) El) as [_ Hc (a & m & z & -> & _) _ Hm Hr]. unfold raw_of, below. rewrite El.
    assert (exists e, split_mapping_entry (a :: m) = Err e) as [e ->]. { unfold split_mapping_entry. rewrite passes_None by done. eauto. }
    by rewrite Hr.
  - assert (raw_of v = []) as -> by (unfold raw_of; by rewrite El). by apply (below_reads _ size).
Qed.

Lemma counted_nonneg v : 0 <= counted v.
Proof.
  revert v. fix IH 1. assert (forall l, 0 <= total (map (fun v => 1 + counted v) l)) as Hl.
  { intros l. induction l as [|v l IHl]; cbn [map total fold_right]; [done|]. pose proof (IH v). unfold total in IHl. lia. }
  assert (forall d, 0 <= total (map (fun kv : pystr * yval => 1 + counted kv.2) d)) as Hd.
  { intros d. induction d as [|[k v] d IHd]; cbn [map total fold_right snd]; [done|]. pose proof (IH v). unfold total in IHd. lia. }
  intros [| | | |l|d]; cbn [counted]; try lia; [destruct l|destruct d]; try lia; [apply (Hl (y :: l))|apply (Hd (p :: d))].
Qed.

Lemma count_ok nodes : nodes + 1 <= MAX_YAML_NODES -> count_node nodes = Ok (nodes + 1).
Proof. intros. unfold count_node. by rewrite (proj2 (Z.ltb_ge _ _)) by lia. Qed.

Notation counts l := (total (map (fun v => 1 + counted v) l)).
Notation member_counts d := (total (map (fun kv : pystr * yval => 1 + counted kv.2) d)).

Lemma counts_nonneg l : 0 <= counts l.
Proof. induction l as [|v l IH]; cbn [map total fold_right]; [done|]. pose proof (counted_nonneg v). unfold total in IH. lia. Qed.
Lemma member_counts_nonneg d : 0 <= member_counts d.
Proof. induction d as [|[k v] d IH]; cbn [map total fold_right snd]; [done|]. pose proof (counted_nonneg v). unfold total in IH. lia. Qed.

Lemma items_head indent l : Forall (fun ic => ic.1 = indent) (take 1 (items_lines indent l)).
Proof. destruct l; cbn [items_lines flat_map app take]; repeat constructor. Qed.
Lemma members_head indent d : Forall (fun ic => ic.1 = indent) (take 1 (members_lines indent d)).
Proof. destruct d; cbn [members_lines flat_map app take]; repeat constructor. Qed.

Lemma suffix_item v : writable v -> is_item ([45] ++ suffix v) = true /\ strip (drop 1 ([45] ++ suffix v)) = raw_of v.
Proof. intros Hv. split; [unfold suffix; by destruct (leaf v)|]. change (drop 1 ([45] ++ suffix v)) with (suffix v). by apply raw_strip. Qed.

Lemma sequence_reads f size indent depth : reads_blocks (block raw_lines f) size ->
  (forall l nodes n tail, (2 * length (items_lines indent l) + 1 <= f)%nat -> (length (items_lines indent l) <= size)%nat -> Forall (wf_entry depth) l -> nodes + counts l <= MAX_YAML_NODES -> outside indent tail ->
    block_sequence raw_lines f indent depth nodes (number n (items_lines indent l) ++ tail) = Ok (l, nodes + counts l, tail)) ->
  forall l nodes n tail, (2 * length (items_lines indent l) + 1 <= S f)%nat -> (length (items_lines indent l) <= S size)%nat -> Forall (wf_entry depth) l -> nodes + counts l <= MAX_YAML_NODES -> outside indent tail ->
    block_sequence raw_lines (S f) indent depth nodes (number n (items_lines indent l) ++ tail) = Ok (l, nodes + counts l, tail).
Proof.
  intros Hb IH l nodes n tail Hf Hs Hw Hn Ht. cbn [block_sequence]. destruct l as [|v l].
  { cbn [items_lines flat_map number app map total fold_right]. rewrite Z.add_0_r. destruct tail as [|line tail]; [done|]. cbn [outside] in Ht. by rewrite (proj2 (Nat.ltb_lt _ _)) by lia. }
  apply Forall_cons in Hw as [Hv Hw]. cbn [map total fold_right] in Hn. pose proof (counts_nonneg l) as Hc. pose proof (counted_nonneg v). unfold total in *.
  change (items_lines indent (v :: l)) with (((indent, [45] ++ suffix v) :: below indent v) ++ items_lines indent l) in *.
  rewrite length_app in Hf, Hs. rewrite number_app, <- app_assoc. cbn [length number app] in Hf, Hs |- *. cbn [y_indent y_content y_number].
  rewrite Nat.ltb_irrefl, Nat.eqb_refl. destruct (suffix_item v (proj1 Hv)) as [Hi Hr]. cbn [app] in Hi, Hr. rewrite Hi, Hr. cbn [negb orb].
  rewrite count_ok by lia. cbn [result_bind].
  rewrite (item_reads _ _ size) by (done || lia || (apply (outside_number _ _ indent); [lia|by apply (outside_more indent); [lia|]|apply items_head])).
  cbn [result_bind]. rewrite IH by (done || lia). cbn [result_bind map fold_right]. do 3 f_equal. lia.
Qed.

Lemma mapping_reads f size indent depth : reads_blocks (block raw_lines f) size ->
  (forall d seen nodes n tail, (2 * length (members_lines indent d) + 1 <= f)%nat -> (length (members_lines indent d) <= size)%nat ->
    Forall (fun kv => key_ok kv.1 /\ wf_entry depth kv.2) d -> NoDup (map fst (seen ++ d)) -> nodes + member_counts d <= MAX_YAML_NODES -> outside indent tail ->
    block_mapping raw_lines f indent depth nodes seen (number n (members_lines indent d) ++ tail) = Ok (seen ++ d, nodes + member_counts d, tail)) ->
  forall d seen nodes n tail, (2 * length (members_lines indent d) + 1 <= S f)%nat -> (length (members_lines indent d) <= S size)%nat ->
    Forall (fun kv => key_ok kv.1 /\ wf_entry depth kv.2) d -> NoDup (map fst (seen ++ d)) -> nodes + member_counts d <= MAX_YAML_NODES -> outside indent tail ->
    block_mapping raw_lines (S f) indent depth nodes seen (number n (members_lines indent d) ++ tail) = Ok (seen ++ d, nodes + member_counts d, tail).
Proof.
  intros Hb IH d seen nodes n tail Hf Hs Hw Hk Hn Ht. cbn [block_mapping]. destruct d as [|[k v] d].
  { cbn [members_lines flat_map number app map total fold_right]. rewrite Z.add_0_r, app_nil_r. destruct tail as [|line tail]; [done|]. cbn [outside] in Ht. by rewrite (proj2 (Nat.ltb_lt _ _)) by lia. }
  apply Forall_cons in Hw as [[Hkey Hv] Hw]. cbn [fst snd] in *. cbn [map total fold_right snd] in Hn. pose proof (member_counts_nonneg d) as Hc. pose proof (counted_nonneg v). unfold total in *.
  change (members_lines indent ((k, v) :: d)) with (((indent, (dumps_str k ++ [58]) ++ suffix v) :: below indent v) ++ members_lines indent d) in *.
  rewrite length_app in Hf, Hs. rewrite number_app, <- app_assoc. cbn [length] in Hf, Hs. cbn [number]. rewrite <- app_comm_cons. cbn [y_indent y_content y_number].
  rewrite Nat.ltb_irrefl. assert (is_item ((dumps_str k ++ [58]) ++ suffix v) = false) as -> by done.
  rewrite split_entry by (done || apply Hv). cbn [result_bind].
  assert (k ∉ map fst seen) as Hnew. { rewrite map_app in Hk. apply NoDup_app in Hk as (_ & Hk & _). intros Hin. apply (Hk k Hin). cbn [map fst]. apply elem_of_cons. by left. }
  rewrite bool_decide_eq_false_2 by done. rewrite count_ok by lia. cbn [result_bind].
  rewrite (entry_reads _ size) by (done || lia || (apply (outside_number _ _ indent); [lia|by apply (outside_more indent); [lia|]|apply members_head])).
  cbn [result_bind length]. rewrite IH by (done || lia || (by rewrite <- app_assoc)). rewrite <- app_assoc. cbn [app map fold_right snd]. do 3 f_equal. lia.
Qed.

Lemma le_deepest x l : x ∈ l -> (x <= deepest l)%nat.
Proof. induction 1 as [x l|x y l _ IH]; cbn [deepest fold_right]; unfold deepest in *; lia. Qed.

Lemma wf_list depth l : Forall writable l -> (S (deepest (map y_depth l)) + depth <= S MAX_YAML_DEPTH)%nat -> Forall (wf_entry depth) l.
Proof.
  intros Hl Hd. apply Forall_forall. intros v Hv. rewrite Forall_forall in Hl. split; [by apply Hl|]. pose proof (le_deepest (y_depth v) (map y_depth l)) as H.
  specialize (H ltac:(apply list_elem_of_fmap; eauto)). lia.
Qed.

Lemma wf_map depth d : Forall (fun kv => key_ok kv.1 /\ writable kv.2) d -> (y_depth (YMap d) + depth <= S MAX_YAML_DEPTH)%nat ->
  Forall (fun kv => key_ok kv.1 /\ wf_entry depth kv.2) d.
Proof.
  rewrite y_depth_map. intros Hl Hd. assert (Forall (wf_entry depth) (values d)) as Hw.
  { apply wf_list; [|lia]. apply Forall_fmap. eapply Forall_impl; [exact Hl|]. intros kv Hkv. apply Hkv. }
  apply Forall_forall. intros kv Hkv. rewrite Forall_forall in Hl. rewrite Forall_forall in Hw. split; [by apply Hl|]. apply Hw. apply list_elem_of_fmap. eauto.
Qed.

Lemma reads_pred blk n f : (forall size, (2 * size + 2 <= f)%nat -> reads_blocks blk size) -> (2 * n <= f)%nat -> reads_blocks blk (n - 1).
Proof.
  intros H Hf. destruct n as [|n]; [|apply H; lia]. intros v indent depth nodes num tail _ El Hl.
  destruct (shown_head indent v El) as (c & r & E). rewrite E in Hl. cbn [length] in Hl. lia.
Qed.

Lemma blocks_read fuel :
  (forall size, (2 * size + 2 <= fuel)%nat -> reads_blocks (block raw_lines fuel) size) /\
  (forall indent depth l nodes n tail, (2 * length (items_lines indent l) + 1 <= fuel)%nat -> Forall (wf_entry depth) l -> nodes + counts l <= MAX_YAML_NODES -> outside indent tail ->
    block_sequence raw_lines fuel indent depth nodes (number n (items_lines indent l) ++ tail) = Ok (l, nodes + counts l, tail)) /\
  (forall indent depth d seen nodes n tail, (2 * length (members_lines indent d) + 1 <= fuel)%nat ->
    Forall (fun kv => key_ok kv.1 /\ wf_entry depth kv.2) d -> NoDup (map fst (seen ++ d)) -> nodes + member_counts d <= MAX_YAML_NODES -> outside indent tail ->
    block_mapping raw_lines fuel indent depth nodes seen (number n (members_lines indent d) ++ tail) = Ok (seen ++ d, nodes + member_counts d, tail)).
Proof.
  induction fuel as [|f (IHb & IHs & IHm)]; [split; [|split]; intros; lia|]. split; [|split].
  - intros size Hf v indent depth nodes n tail Hv El Hs Hd Hn Ht. cbn [block].
    assert (1 <= y_depth v)%nat as H1 by (destruct v as [| | |[]|l|d]; try done; cbn [y_depth]; lia). rewrite (proj2 (Nat.ltb_ge _ _)) by lia. clear H1.
    destruct (shown_head indent v El) as (c & rest & E).
    assert (number n (shown indent v) ++ tail = YLine n indent c :: number (S n) rest ++ tail) as En by (by rewrite E). rewrite En. cbn [y_indent y_content]. rewrite Nat.eqb_refl. cbn [negb]. rewrite <- En.
    destruct Hv as [|b|z Hz|s Hs'|s Hs'|l Hl|d Hk Hl]; try done.
    + rewrite shown_list in *. destruct l as [|v l]; [done|]. assert (c = [45] ++ suffix v) as -> by exact (eq_sym (f_equal (fun l => (List.hd (0%nat, []) l).2) E)).
      rewrite (proj1 (suffix_item v (Forall_inv Hl))), IHs; [done|lia| |done|done].
      by apply wf_list.
    + rewrite shown_map in *. destruct d as [|[k v] d]; [done|]. assert (c = (dumps_str k ++ [58]) ++ suffix v) as -> by exact (eq_sym (f_equal (fun l => (List.hd (0%nat, []) l).2) E)).
      assert (is_item ((dumps_str k ++ [58]) ++ suffix v) = false) as -> by done.
      rewrite IHm; [done|lia| |done|done|done]. by apply wf_map.
  - intros indent depth l nodes n tail Hf. apply (sequence_reads f (length (items_lines indent l) - 1)); try lia; [apply (reads_pred _ _ f); [done|lia]|]. intros. by apply IHs.
  - intros indent depth d seen nodes n tail Hf. apply (mapping_reads f (length (members_lines indent d) - 1)); try lia; [apply (reads_pred _ _ f); [done|lia]|]. intros. by apply IHm.
Qed.
End reads.

(** * The whole text *)

Lemma splitlines_line cur l r : Forall (fun c => is_break c = false) l -> splitlines_from cur (l ++ 10 :: r) = (rev cur ++ l) :: splitlines r.
Proof.
  intros Hl. revert cur. induction Hl as [|c l Hc _ IH]; intros cur; cbn [app splitlines_from].
  - change (is_break 10) with true. cbv iota. rewrite app_nil_r. f_equal. change (10 =? 13) with false. cbn [andb]. by destruct r.
  - rewrite Hc, IH. cbn [rev]. by rewrite <- app_assoc.
Qed.

Lemma splitlines_text ls : Forall (Forall (fun c => is_break c = false)) ls -> splitlines (flat_map (fun l => l ++ [10]) ls) = ls.
Proof. induction 1 as [|l ls Hl _ IH]; [done|]. cbn [flat_map]. rewrite <- app_assoc. cbn [app]. unfold splitlines at 1. rewrite splitlines_line by done. cbn [rev app]. by rewrite IH. Qed.

(** The text fits in so many bytes of UTF-8. *)
Definition encoded_within (n : Z) (s : pystr) : Prop := exists b, utf8_encode s = Some b /\ zlen b <= n.

Record content_ok (s : pystr) : Prop := ContentOk {
  content_comment : passes at_comment s;
  content_solid : solid s;
  content_head : (exists r, s = 34 :: r) \/ s = [45] \/ exists r, s = 45 :: 32 :: r;
  content_chars : Forall (fun c => is_break c = false /\ c <> 0) s }.

Lemma passes_dash : passes at_comment [45].
Proof. apply passes_char; [unfold inert; lia|done]. Qed.
Lemma passes_colon : passes at_comment [58].
Proof. apply passes_char; [unfold inert; lia|done]. Qed.
Lemma passes_space : passes at_comment [32].
Proof. apply passes_char; [unfold inert; lia|done]. Qed.

Lemma suffix_ok v : writable v -> passes at_comment (suffix v) /\ Forall (fun c => is_break c = false /\ c <> 0) (suffix v) /\ (suffix v = [] \/ exists t, suffix v = 32 :: t /\ solid t).
Proof.
  intros Hv. unfold suffix. destruct (leaf v) as [t|] eqn:E; [|split; [apply passes_nil|]; split; [constructor|by left]].
  destruct (leaf_parses v t Hv E) as [Hc _ Hs Hch _ _]. split; [apply (passes_app _ [32]); [apply passes_space|done]|]. split; [by constructor|]. right. eauto.
Qed.

Lemma solid_suffix s v : writable v -> solid s -> solid (s ++ suffix v).
Proof.
  intros Hv Hs. destruct (suffix_ok v Hv) as (_ & _ & [->|(t & -> & Ht)]); [by rewrite app_nil_r|]. exact (solid_app s t Hs Ht [32]).
Qed.

Lemma item_content v : writable v -> content_ok ([45] ++ suffix v).
Proof.
  intros Hv. destruct (suffix_ok v Hv) as (Hp & Hc & Hs). split; [apply passes_app; [apply passes_dash|done]|apply solid_suffix; [done|by apply solid_Forall; [|repeat constructor]]| |by constructor].
  right. destruct Hs as [->|(t & -> & _)]; [by left|right; by exists t].
Qed.

Lemma key_content k v : Forall line_char k -> writable v -> content_ok ((dumps_str k ++ [58]) ++ suffix v).
Proof.
  intros Hk Hv. destruct (suffix_ok v Hv) as (Hp & Hc & _). split.
  - apply passes_app; [apply passes_app; [by apply passes_text, line_nonneg|apply passes_colon]|done].
  - apply solid_suffix; [done|]. apply (solid_app (dumps_str k) [58]) with (m := []); [apply dumps_solid|]. apply solid_Forall; [done|repeat constructor].
  - left. unfold dumps_str. cbn [app]. eauto.
  - apply Forall_app. split; [|done]. apply Forall_app. split; [by apply text_chars|by repeat constructor].
Qed.

Definition line_ok (ic : nat * pystr) : Prop := Nat.even ic.1 = true /\ content_ok ic.2.

Lemma shown_ok v : forall indent, writable v -> Nat.even indent = true -> Forall line_ok (shown indent v).
Proof.
  revert v. fix IH 1. intros v indent Hv Hi.
  assert (forall v, (Nat.even (indent + 2) = true -> Forall line_ok (shown (indent + 2) v)) -> Forall line_ok (below indent v)) as Hb.
  { intros w Hw. unfold below. destruct (leaf w); [constructor|]. apply Hw. by rewrite Nat.even_add, Hi. }
  destruct v as [| | | |l|d]; [constructor|constructor|constructor|constructor|rewrite shown_list; inversion Hv as [| | | | |? Hl|]|rewrite shown_map; inversion Hv as [| | | | | |? _ Hl]]; subst; clear Hv.
  - unfold items_lines. induction l as [|w l IHl]; [constructor|]. apply Forall_cons in Hl as [Hw Hl]. cbn [flat_map app]. constructor; [split; [done|by apply item_content]|].
    apply Forall_app. split; [|by apply IHl]. apply Hb. intros He. by apply (IH w).
  - unfold members_lines. induction d as [|[k w] d IHd]; [constructor|]. apply Forall_cons in Hl as [[[Hk _] Hw] Hl]. cbn [flat_map app fst snd]. constructor; [split; [done|by apply key_content]|].
    apply Forall_app. split; [|by apply IHd]. apply Hb. intros He. by apply (IH w).
Qed.

Lemma lstrip_spaces chars i s : 32 ∈ chars -> match s with c :: _ => c ∉ chars | [] => False end -> lstrip_of chars (replicate i 32 ++ s) = s.
Proof.
  intros H32 Hs. induction i as [|i IH]; cbn [replicate app lstrip_of]; [|by rewrite bool_decide_eq_true_2].
  destruct s as [|c s]; [done|]. cbn [lstrip_of]. by rewrite bool_decide_eq_false_2.
Qed.

Lemma read_shown l : Forall (fun ic => line_ok ic /\ encoded_within 65536 (yaml_line ic)) l -> forall n, read_lines n (map yaml_line l) = Ok (number n l).
Proof.
  induction 1 as [|[i s] l [[Hi [Hc Hs Hh _]] (b & Eb & Hb)] _ IH]; intros n; [done|]. cbn [map read_lines number fst snd] in *.
  assert (forall chars, 32 ∈ chars -> 34 ∉ chars -> 45 ∉ chars -> lstrip_of chars (yaml_line (i, s)) = s) as Hl.
  { intros chars H1 H2 H3. unfold yaml_line. cbn [fst snd]. apply lstrip_spaces; [done|]. destruct Hh as [(r & ->)|[->|(r & ->)]]; done. }
  rewrite !Hl by (by apply (bool_decide_unpack _); vm_compute).
  assert (length (yaml_line (i, s)) - length s = i)%nat as Ei by (unfold yaml_line; cbn [fst snd]; rewrite length_app, length_replicate; lia). rewrite Ei.
  assert (take i (yaml_line (i, s)) = replicate i 32) as ->. { unfold yaml_line. cbn [fst snd]. rewrite take_app_le, take_ge; rewrite ?length_replicate; done. }
  rewrite (bool_decide_eq_false_2 (9 ∈ replicate i 32)) by (intros [? _]%elem_of_replicate; done).
  rewrite Eb. rewrite (proj2 (Z.ltb_ge 65536 _)) by done. cbv zeta.
  assert (bool_decide (s = []) || startswith [35] s = false) as -> by (by destruct Hh as [(r & ->)|[->|(r & ->)]]).
  assert (bool_decide (s = u "---") || bool_decide (s = u "...") || startswith (u "%YAML") s = false) as -> by (by destruct Hh as [(r & ->)|[->|(r & ->)]]).
  assert (Nat.odd i = false) as -> by (by rewrite <- Nat.negb_even, Hi). rewrite IH. cbn [result_bind]. by rewrite strip_comment_solid.
Qed.

Lemma written_is_read v : leaf v = None -> writable v -> (y_depth v <= S MAX_YAML_DEPTH)%nat -> counted v <= MAX_YAML_NODES ->
  encoded_within MAX_PROJECT_BYTES (yaml_text v) -> Forall (encoded_within 65536) (yaml_lines v) -> parse_yaml_subset (yaml_text v) = Ok v.
Proof.
  intros El Hv Hd Hn (b & Eb & Hb) Hlines. pose proof (shown_ok v 0 Hv eq_refl) as Hok. unfold parse_yaml_subset. rewrite Eb, (proj2 (Z.ltb_ge _ _)) by done.
  assert (Forall (Forall (fun c => is_break c = false /\ c <> 0)) (yaml_lines v)) as Hch.
  { apply Forall_map. eapply Forall_impl; [exact Hok|]. intros [i s] [_ Hs]. unfold compose, yaml_line. cbn [fst snd] in *. apply Forall_app. split; [by apply Forall_replicate|apply Hs]. }
  assert (0 ∉ yaml_text v) as H0.
  { unfold yaml_text. intros (l & Hl & Hin)%list_elem_of_In%in_flat_map. apply list_elem_of_In in Hl. rewrite Forall_forall in Hch. specialize (Hch l Hl).
    apply list_elem_of_In, elem_of_app in Hin as [Hin|Hin%list_elem_of_singleton]; [|done]. rewrite Forall_forall in Hch. by apply (Hch 0 Hin). }
  rewrite bool_decide_eq_false_2 by done. unfold yaml_text. rewrite splitlines_text.
  2:{ eapply Forall_impl; [exact Hch|]. intros l Hl. eapply Forall_impl; [exact Hl|]. by intros c []. }
  unfold yaml_lines at 1. rewrite read_shown. 2:{ unfold yaml_lines in Hlines. apply (Forall_map yaml_line) in Hlines. apply Forall_and. split; [exact Hok|exact Hlines]. }
  cbn [result_bind]. unfold parse_lines. destruct (shown_head 0 v El) as (c & rest & E).
  assert (number 1 (shown 0 v) = YLine 1 0 c :: number 2 rest) as En by (by rewrite E). rewrite En. cbn [y_indent]. rewrite Nat.eqb_refl. cbn [negb]. rewrite <- En.
  destruct (blocks_read (yaml_lines v) (block_fuel (number 1 (shown 0 v)))) as [Hr _].
  specialize (Hr (length (shown 0 v)) ltac:(unfold block_fuel; rewrite length_number; lia) v 0%nat 0%nat 0 1%nat [] Hv El ltac:(lia) ltac:(lia) ltac:(lia) I).
  rewrite app_nil_r in Hr. by rewrite Hr.
Qed.
