(* ===== verification/YamlTheorems.v ===== *)
(** The properties of the reader of project files. *)
From S2P Require Import Prelude Crypto PyStr PyText PyVal Utf8 Json Regex Names NamesFacts Yaml YamlFacts.

(** C34: Reading a text as the YAML subset ends with a value or a rejection, never
    with an exhausted recursion.  A value has at most twice the node limit and one
    more nodes (a mapping inside a sequence is counted once), is nested at most 99
    deep, and every mapping in it has each key once. *)
Theorem yaml_bounded text : match parse_yaml_subset text with
  | Ok v => y_nodes v <= 2 * MAX_YAML_NODES + 1 /\ (y_depth v <= 99)%nat /\ distinct v
  | Err e => e <> RECURSION
  end.
Proof.
  unfold parse_yaml_subset. destruct (utf8_encode text) as [encoded|]; [|done]. destruct (MAX_PROJECT_BYTES <? _); [done|].
  destruct (bool_decide _); [done|]. cbv zeta. pose proof (read_lines_error 1 (splitlines text)) as Hr.
  destruct (read_lines 1 (splitlines text)) as [lines|e]; cbn [result_bind]; [apply parse_lines_ok|congruence].
Qed.

(** C20: The reader inverts a writer of block style.  The document is a non-empty
    mapping or sequence of nulls, booleans, integers below 10^20, texts, literal
    texts, mappings and sequences, nested at most 33 deep, of at most 10000 nodes;
    its text is at most MAX_PROJECT_BYTES bytes in UTF-8 and each line at most
    65536.  The keys of a mapping differ, and none is ["<<"].  No text or key has one
    of the line separators U+0085, U+2028 and U+2029, which JSON leaves unescaped
    and which end a line of the reader; a literal text, which is written without
    escapes, has no control character below U+0020 either.  Otherwise texts and keys
    are arbitrary (quotes, backslashes, colons, hashes, brackets, interpolations,
    and line breaks where they are escaped), and each text keeps its mark of
    literalness. *)
Theorem yaml_roundtrip v : leaf v = None -> writable v -> (y_depth v <= S MAX_YAML_DEPTH)%nat -> counted v <= MAX_YAML_NODES ->
  encoded_within MAX_PROJECT_BYTES (yaml_text v) -> Forall (encoded_within 65536) (yaml_lines v) ->
  parse_yaml_subset (yaml_text v) = Ok v.
Proof. apply written_is_read. Qed.

Definition ex_document : yval :=
  YMap [(u "version", YStr false (u "1"));
        (u "services", YMap [(u "db: #1", YMap [(u "image", YStr true (u "it's ${NOT}")); (u "ports", YList [YInt (-7); YNull; YList [YBool true; YMap []]])])])].

#[local] Ltac chars := eval_lits; repeat (apply Forall_cons; split; [unfold line_char; lia|]); apply Forall_nil; exact I.
#[local] Ltac shows_writable := cbn [fst snd];
  lazymatch goal with
  | |- writable (YMap _) => apply WMap; [apply (bool_decide_unpack _); by vm_compute|];
      repeat (apply Forall_cons; split; [split; [split; [chars|apply (bool_decide_unpack _); by vm_compute]|shows_writable]|]); apply Forall_nil; exact I
  | |- writable (YList _) => apply WList; repeat (apply Forall_cons; split; [shows_writable|]); apply Forall_nil; exact I
  | |- writable (YStr false _) => apply WText; chars
  | |- writable (YStr true _) => apply WLiteral; chars
  | |- writable (YInt _) => apply WInt; lia
  | |- writable _ => constructor
  end.

Lemma yaml_roundtrip_witness : parse_yaml_subset (yaml_text ex_document) = Ok ex_document.
Proof.
  apply (yaml_roundtrip ex_document).
  - reflexivity.
  - unfold ex_document. shows_writable.
  - vm_compute. lia.
  - by vm_compute.
  - eexists. split; [vm_compute; reflexivity|by vm_compute].
  - let ls := eval vm_compute in (yaml_lines ex_document) in change (yaml_lines ex_document) with ls. repeat (apply Forall_cons; split; [eexists; split; [vm_compute; reflexivity|by vm_compute]|]). apply Forall_nil. exact I.
Defined.
