(* ===== verification/Template.v ===== *)
(** Templates of projects ([project.py]): interpolation, and what is shaped like
    a secret. *)
From S2P Require Import Prelude Crypto PyStr PyText PyVal Utf8 Json Regex Digest Names Yaml.

(** * Interpolation *)

Definition var_name_re : re := RCat (RCls [(65, 90); (97, 122); (95, 95)]) (RStar (RCls ((95, 95) :: alnum))).

(** [_INTERPOLATION_RE]: the name, whether [:-] or [:?] follows, the operand *)
Inductive operator := ODefault | ORequired.
#[export] Instance operator_eq_dec : EqDecision operator.
Proof. solve_decision. Defined.
Record expression := Expression { x_name : pystr; x_operator : option operator; x_operand : pystr }.

Definition is_name_char (c : Z) : bool := in_cls ((95, 95) :: alnum) c.

Definition parse_expression (s : pystr) : option expression :=
  let (name, rest) := span is_name_char s in
  if negb (fullmatch var_name_re name) then None
  else
    match rest with
    | [] => Some (Expression name None [])
    | c :: o :: operand =>
        if negb (c =? 58) then None
        else if bool_decide (123 ∈ operand) || bool_decide (125 ∈ operand) || bool_decide (36 ∈ operand) then None
        else if o =? 45 then Some (Expression name (Some ODefault) operand)
        else if o =? 63 then Some (Expression name (Some ORequired) operand)
        else None
    | _ => None
    end.

(** A scalar: whether it was single-quoted, and its text *)
Definition template : Type := bool * pystr.

(** The variables of the process, or of a file *)
Definition variables : Type := pystr -> option pystr.

Definition scope_over (outer : variables) (inner : list (pystr * pystr)) : variables :=
  fun k => match item_get inner k with Some v => Some v | None => outer k end.
Definition no_variables : variables := fun _ => None.

Definition only_supports : string := "interpolation only supports ${VAR}, ${VAR:-default}, ${VAR:?error}, and $$".

(** What follows [${]: the expression and the text after the closing brace *)
Definition expression_at (r : pystr) : result (expression * pystr) :=
  match partition 125 r with
  | (text, true, rest) =>
      match parse_expression text with
      | Some x => Ok (x, rest)
      | None => Err "unsupported interpolation expression"
      end
  | _ => Err "unterminated ${...} interpolation"
  end.

(** The loop of [interpolation_variables]; one turn consumes a character or more. *)
Fixpoint variables_from (fuel : nat) (s : pystr) : result (list pystr) :=
  match fuel with
  | O => Err RECURSION
  | S fuel =>
      match s with
      | [] => Ok []
      | c :: r =>
          if negb (c =? 36) then variables_from fuel r
          else match r with
               | d :: r =>
                   if d =? 36 then variables_from fuel r
                   else if d =? 123 then
                     let? ' (x, rest) := expression_at r in
                     let? names := variables_from fuel rest in
                     Ok (x_name x :: names)
                   else Err only_supports
               | [] => Err only_supports
               end
      end
  end.

(** [interpolation_variables]: each name once, in order of first use *)
Fixpoint dedupe (seen l : list pystr) : list pystr :=
  match l with
  | [] => []
  | x :: l => if bool_decide (x ∈ seen) then dedupe seen l else x :: dedupe (x :: seen) l
  end.
Definition interpolation_variables (t : template) : result (list pystr) :=
  if t.1 then Ok [] else result_map (dedupe []) (variables_from (S (length t.2)) t.2).

(** The value of one expression *)
Definition expression_value (env : variables) (x : expression) : result pystr :=
  let present := match env (x_name x) with Some v => negb (bool_decide (v = [])) | None => false end in
  let value := default [] (env (x_name x)) in
  match x_operator x with
  | Some ODefault => Ok (if present then value else x_operand x)
  | Some ORequired => raise "required" when negb present ;; Ok value
  | None => match env (x_name x) with Some v => Ok v | None => Err "environment variable is not set" end
  end.

(** The loop of [interpolate] *)
Fixpoint interpolate_from (fuel : nat) (env : variables) (s : pystr) : result pystr :=
  match fuel with
  | O => Err RECURSION
  | S fuel =>
      match s with
      | [] => Ok []
      | c :: r =>
          if negb (c =? 36) then let? out := interpolate_from fuel env r in Ok (c :: out)
          else match r with
               | d :: r =>
                   if d =? 36 then let? out := interpolate_from fuel env r in Ok (36 :: out)
                   else if d =? 123 then
                     let? ' (x, rest) := expression_at r in
                     let? value := expression_value env x in
                     let? out := interpolate_from fuel env rest in
                     Ok (value ++ out)
                   else Err only_supports
               | [] => Err only_supports
               end
      end
  end.

Definition encodable (s : pystr) : bool := match utf8_encode s with Some _ => true | None => false end.

(** [interpolate] *)
Definition interpolate (t : template) (env : variables) : result pystr :=
  if t.1 then Ok t.2
  else
    let? out := interpolate_from (S (length t.2)) env t.2 in
    raise "interpolation result contains a control character" when bool_decide (0 ∈ out) || bool_decide (13 ∈ out) ;;
    raise "interpolation result must be valid UTF-8" when negb (encodable out) ;;
    Ok out.

(** * Secrets *)

(** The letter that [re.IGNORECASE] compares: the ASCII letters have four more. *)
Definition fold_char (c : Z) : Z :=
  if (65 <=? c) && (c <=? 90) then c + 32
  else if (c =? 304) || (c =? 305) then 105 else if c =? 383 then 115 else if c =? 8490 then 107 else c.
Definition fold (s : pystr) : pystr := map fold_char s.

(** The complement of sorted ranges *)
Fixpoint complement (lo : Z) (l : list (Z * Z)) : list (Z * Z) :=
  match l with [] => [(lo, 1114111)] | (a, b) :: l => (lo, a - 1) :: complement (b + 1) l end.
Definition space_cls : list (Z * Z) :=
  [(9, 13); (28, 32); (133, 133); (160, 160); (5760, 5760); (8192, 8202); (8232, 8233); (8239, 8239); (8287, 8287); (12288, 12288)].
Definition any_re : re := RStar (RCls [(0, 1114111)]).

(** A match of [r] that starts where [first], told the character before, holds
    and whose rest satisfies [after], told the character before the rest *)
Fixpoint search_from (first : option Z -> bool) (r : re) (after : option Z -> pystr -> bool) (before : option Z) (s : pystr) : bool :=
  (first before &&
   existsb (fun n => fullmatch r (take n s) && after (match take n s with [] => before | m => last m end) (drop n s)) (List.seq 0 (S (length s)))) ||
  match s with c :: rest => search_from first r after (Some c) rest | [] => false end.
Definition always {A} (a : A) : bool := true.
Definition search (first : option Z -> bool) (r : re) (after : option Z -> pystr -> bool) (s : pystr) : bool := search_from first r after None s.

Definition one_of_re (words : list string) : re := fold_right (fun w r => RAlt (lit (u w)) r) RVoid words.
Definition secret_word_re : re :=
  RAlt (one_of_re ["password"; "passwd"; "token"; "secret"; "credential"])
    (RAlt (RCat (lit (u "private")) (RCat (opt (RCls [(45, 45); (95, 95)])) (lit (u "key"))))
          (RCat (lit (u "api")) (RCat (opt (RCls [(45, 45); (95, 95)])) (lit (u "key"))))).

(** [_SECRET_WORD_RE]: the word between characters that are not letters or digits *)
Definition not_low_alnum (c : option Z) : bool := match c with None => true | Some c => negb (in_cls low_alnum c) end.
Definition secret_word (s : pystr) : bool :=
  search not_low_alnum secret_word_re (fun _ rest => not_low_alnum (head rest)) (fold s).

(** [re.sub(r"([a-z])([A-Z])", r"\1_\2", key)] *)
Fixpoint split_words (s : pystr) : pystr :=
  match s with
  | c :: r =>
      match r with
      | d :: _ => if in_cls [(97, 122)] c && in_cls [(65, 90)] d then c :: 95 :: split_words r else c :: split_words r
      | [] => [c]
      end
  | [] => []
  end.

(** [str.lower] up to characters that no pattern of this file tells apart *)
Definition lower_char_text (c : Z) : pystr := if c =? 304 then [105; 775] else if c =? 8490 then [107] else [lower_char c].
Definition lower_text (s : pystr) : pystr := flat_map lower_char_text s.

(** [_is_sensitive_key] *)
Definition is_sensitive_key (key : pystr) : bool := secret_word (lower_text (split_words key)).

(** [_PURE_INTERPOLATION_RE] *)
Definition pure_interpolation (s : pystr) : bool :=
  startswith [36; 123] s &&
  match partition 125 (drop 2 s) with
  | (text, true, []) => match parse_expression text with Some x => negb (bool_decide (x_operator x = Some ODefault)) | None => false end
  | _ => false
  end.

(** [_is_external_secret_reference] *)
Definition is_external_secret_reference (t : template) : bool := negb t.1 && pure_interpolation t.2.

(** The words of [\w]: the letters and digits beyond ASCII are those of the
    interpreter's Unicode database. *)
Class UnicodeDB := unicode_alnum : Z -> bool.

Section secrets.
Context `{UnicodeDB}.

Definition is_word (c : Z) : bool := if c <? 128 then in_cls ((95, 95) :: alnum) c else unicode_alnum c.
Definition word_at (c : option Z) : bool := match c with Some c => is_word c | None => false end.
(** [\b] before a word character, and between two characters *)
Definition not_word (c : option Z) : bool := negb (word_at c).
Definition boundary (before : option Z) (rest : pystr) : bool := negb (Bool.eqb (word_at before) (word_at (head rest))).

Definition private_key_re : re := RCat (lit (u "-----BEGIN ")) (RCat (RStar (RCls [(32, 32); (65, 90)])) (lit (u "PRIVATE KEY-----"))).
Definition bearer_re : re :=
  RCat (lit (u "bearer")) (RCat (plus (RCls space_cls)) (rep 12 (RCls ([(43, 43); (45, 47); (61, 61); (95, 95); (126, 126)] ++ low_alnum)))).
Definition token_re : re :=
  RCat (RAlt (one_of_re ["ghp"; "github_pat"; "glpat"]) (RCat (lit (u "xox")) (RCls [(97, 98); (112, 112); (114, 115)])))
    (RCat (chr 45) (let c := RCls ([(45, 45); (95, 95)] ++ alnum) in RCat (rep 12 c) (RStar c))).
Definition credential_url_re : re :=
  RCat (RCls [(97, 122)])
    (RCat (RStar (RCls ([(43, 43); (45, 46)] ++ low_alnum)))
       (RCat (lit (u "://"))
          (RCat (plus (RCls (complement 0 [(9, 13); (28, 32); (47, 47); (58, 58); (64, 64); (133, 133); (160, 160); (5760, 5760); (8192, 8202);
                                            (8232, 8233); (8239, 8239); (8287, 8287); (12288, 12288)])))
             (RCat (chr 58)
                (RCat (plus (RCls (complement 0 [(9, 13); (28, 32); (47, 47); (64, 64); (133, 133); (160, 160); (5760, 5760); (8192, 8202);
                                                  (8232, 8233); (8239, 8239); (8287, 8287); (12288, 12288)])))
                   (chr 64)))))).
Definition assignment_re : re := RCat secret_word_re (RCat (RStar (RCls space_cls)) (RCls [(58, 58); (61, 61)])).

(** [\s*(?!\$\{)(?=[^\s#])] *)
Definition given_value (rest : pystr) : bool :=
  match lstrip rest with c :: r => negb (c =? 35) && negb (startswith [36; 123] (c :: r)) | [] => false end.
Definition assignment_start (before : option Z) : bool :=
  match before with None => true | Some c => is_space c || bool_decide (c ∈ u ",{;") end.

(** Some pattern of [_SECRET_VALUE_PATTERNS] is found. *)
Definition secret_value (s : pystr) : bool :=
  search always private_key_re (fun _ => always) s
  || search not_word bearer_re (fun _ => always) (fold s)
  || search not_word token_re boundary s
  || search always credential_url_re (fun _ => always) (fold s)
  || search assignment_start assignment_re (fun _ => given_value) (fold s).

(** [_reject_secret_value] *)
Definition reject_secret_value (value : pystr) : result unit :=
  raise "secret-shaped material; use an environment reference or env_file" when secret_value value ;; Ok tt.

(** * Checked scalars *)

(** [_string] *)
Definition string_of (value : yval) (nonempty : bool) : result template :=
  match value with
  | YStr literal s =>
      raise "contains a control character" when bool_decide (0 ∈ s) || bool_decide (13 ∈ s) ;;
      raise "must contain valid UTF-8 text" when negb (encodable s) ;;
      raise "cannot be empty" when nonempty && bool_decide (strip s = []) ;;
      Ok (literal, s)
  | _ => Err "must be a string"
  end.

(** [_resolved_string] with [nonempty], its only use *)
Definition resolved_string (value : yval) (env : option variables) : result pystr :=
  let? t := string_of value true in
  let? text :=
    if t.1 then Ok t.2
    else
      let? names := interpolation_variables t in
      raise "requires an interpolation environment" when negb (bool_decide (names = [])) && match env with None => true | Some _ => false end ;;
      interpolate t (default no_variables env) in
  let? _ := reject_secret_value text in
  raise "cannot resolve to an empty string" when bool_decide (strip text = []) ;;
  Ok text.

(** [_validate_template] *)
Definition validate_template (t : template) (env : option variables) : result unit :=
  let? _ := string_of (YStr t.1 t.2) false in
  if t.1 then reject_secret_value t.2
  else
    let? _ := interpolation_variables t in
    let? _ := match env with Some env => result_map (fun _ => tt) (interpolate t env) | None => Ok tt end in
    reject_secret_value t.2.
End secrets.
