(* ===== verification/TemplateFacts.v ===== *)
(** Interpolation is the evaluation of a small grammar. *)
From S2P Require Import Prelude Crypto PyStr PyText PyVal Utf8 Json Regex Digest Names NamesFacts Yaml Template.

(** A template is a sequence of characters, escaped dollars and expressions. *)
Inductive piece := PText (c : Z) | PDollar | PExpr (x : expression).

Definition expression_text (x : expression) : pystr :=
  x_name x ++ match x_operator x with None => [] | Some o => 58 :: (match o with ODefault => 45 | ORequired => 63 end) :: x_operand x end.
Definition piece_text (p : piece) : pystr :=
  match p with PText c => [c] | PDollar => [36; 36] | PExpr x => 36 :: 123 :: expression_text x ++ [125] end.
Definition wf_expression (x : expression) : Prop :=
  lang var_name_re (x_name x) /\ 123 ∉ x_operand x /\ 125 ∉ x_operand x /\ 36 ∉ x_operand x /\ (x_operator x = None -> x_operand x = []).
Definition wf_piece (p : piece) : Prop := match p with PText c => c <> 36 | PDollar => True | PExpr x => wf_expression x end.
Definition piece_names (p : piece) : list pystr := match p with PExpr x => [x_name x] | _ => [] end.
Definition piece_value (env : variables) (p : piece) : result pystr :=
  match p with PText c => Ok [c] | PDollar => Ok [36] | PExpr x => expression_value env x end.

(** The reference semantics: the values of the pieces in order, up to the first failure *)
Definition evaluate (env : variables) (ps : list piece) : result pystr := result_map (@concat Z) (map_result (piece_value env) ps).
Definition template_text (ps : list piece) : pystr := flat_map piece_text ps.

Lemma evaluate_cons env p ps : evaluate env (p :: ps) = let? v := piece_value env p in let? out := evaluate env ps in Ok (v ++ out).
Proof. unfold evaluate, result_map. cbn [map_result]. destruct (piece_value env p) as [v|e]; cbn [result_bind]; [|done]. by destruct (map_result _ ps). Qed.

Lemma span_spec f s a b : span f s = (a, b) -> s = a ++ b.
Proof. revert a b. induction s as [|c s IH]; intros a b; cbn [span]; [intros E; by simplify_eq|]. destruct (f c); [|intros E; by simplify_eq]. destruct (span f s) as [a' b'] eqn:E'. intros E. simplify_eq. cbn [app]. f_equal. by apply IH. Qed.

Lemma parse_expression_sound s x : parse_expression s = Some x -> s = expression_text x /\ wf_expression x.
Proof.
  unfold parse_expression. destruct (span is_name_char s) as [name rest] eqn:Es. apply span_spec in Es as ->.
  destruct (fullmatch var_name_re name) eqn:Hn; cbn [negb]; [|done]. apply fullmatch_spec in Hn.
  destruct rest as [|c [|o operand]]; [|done|].
  - intros E. assert (x = Expression name None []) as -> by congruence. split; [done|]. by split; [|split; [apply not_elem_of_nil|split; [apply not_elem_of_nil|split; [apply not_elem_of_nil|]]]].
  - destruct (Z.eqb_spec c 58) as [->|]; cbn [negb]; [|done].
    destruct (bool_decide (123 ∈ operand) || bool_decide (125 ∈ operand) || bool_decide (36 ∈ operand)) eqn:G; [done|]. bool_norm.
    intros E. assert (exists op, x = Expression name (Some op) operand /\ o = match op with ODefault => 45 | ORequired => 63 end) as (op & -> & ->).
    { destruct (Z.eqb_spec o 45) as [->|]; [exists ODefault; split; [congruence|done]|]. destruct (Z.eqb_spec o 63) as [->|]; [|done]. exists ORequired. split; [congruence|done]. }
    split; [done|]. by split.
Qed.

Lemma expression_at_ok r : match expression_at r with
  | Ok (x, rest) => r = expression_text x ++ 125 :: rest /\ wf_expression x
  | Err e => e <> RECURSION end.
Proof.
  unfold expression_at. destruct (partition 125 r) as [[text found] rest] eqn:E. destruct found; [|done].
  destruct (parse_expression text) as [x|] eqn:Ex; [|done]. apply parse_expression_sound in Ex as [-> Hx]. split; [|done].
  by apply partition_found in E as [-> _].
Qed.

Lemma expression_value_error env x : expression_value env x <> Err RECURSION.
Proof. unfold expression_value. cbv zeta. by destruct (x_operator x) as [[]|], (env (x_name x)) as [v|]; try destruct (bool_decide (v = [])). Qed.

(** What one loop returns, in terms of the other *)
Definition agree (s : pystr) (names : result (list pystr)) (value : variables -> result pystr) : Prop :=
  match names with
  | Ok names => exists ps, Forall wf_piece ps /\ s = template_text ps /\ names = flat_map piece_names ps /\ forall env, value env = evaluate env ps
  | Err e => e <> RECURSION /\ forall env, exists e', value env = Err e' /\ e' <> RECURSION
  end.

Lemma agree_err s e : e <> RECURSION -> agree s (Err e) (fun _ => Err e).
Proof. split; [done|]. by exists e. Qed.

(** One more piece in front *)
Lemma agree_piece p s names value : wf_piece p -> (forall env, piece_value env p <> Err RECURSION) -> agree s names value ->
  agree (piece_text p ++ s) (let? l := names in Ok (piece_names p ++ l)) (fun env => let? v := piece_value env p in let? out := value env in Ok (v ++ out)).
Proof.
  intros Hp Hv Ha. destruct names as [names|e]; cbn [result_bind agree] in *.
  - destruct Ha as (ps & Hps & -> & -> & Ha). exists (p :: ps). split; [by constructor|]. split; [done|]. split; [done|]. intros env. rewrite evaluate_cons. by rewrite Ha.
  - destruct Ha as [He Ha]. split; [done|]. intros env. destruct (Ha env) as (e' & Ev & He'). specialize (Hv env). destruct (piece_value env p) as [v|e1]; cbn [result_bind].
    + rewrite Ev. by exists e'.
    + exists e1. split; [done|congruence].
Qed.

Lemma agree_ext s s' names names' value value' : s' = s -> names' = names -> (forall env, value' env = value env) -> agree s names value -> agree s' names' value'.
Proof.
  intros -> -> Hv. unfold agree. destruct names as [names|e].
  - intros (ps & H1 & H2 & H3 & H4). exists ps. repeat (split; [done|]). intros env. by rewrite Hv.
  - intros [He Ha]. split; [done|]. intros env. rewrite Hv. apply Ha.
Qed.

(** The two loops read the pieces of a template, or both reject it. *)
Lemma loops_agree fuel s : (length s < fuel)%nat -> agree s (variables_from fuel s) (fun env => interpolate_from fuel env s).
Proof.
  revert s. induction fuel as [|fuel IH]; intros s Hs; [lia|]. cbn [variables_from interpolate_from].
  destruct s as [|c r]; [by exists []|]. cbn [length] in Hs.
  destruct (Z.eqb_spec c 36) as [->|Hc]; cbn [negb].
  2:{ eapply agree_ext; [..|apply (agree_piece (PText c)); [done|done|apply (IH r); lia]]; [done| |done]. by destruct (variables_from fuel r). }
  destruct r as [|d r]; [by apply agree_err|]. cbn [length] in Hs. destruct (Z.eqb_spec d 36) as [->|Hd].
  { eapply agree_ext; [..|apply (agree_piece PDollar); [done|done|apply (IH r); lia]]; [done| |done]. by destruct (variables_from fuel r). }
  destruct (Z.eqb_spec d 123) as [->|]; [|by apply agree_err].
  pose proof (expression_at_ok r) as Hx. destruct (expression_at r) as [[x rest]|e]; cbn [result_bind]; [|by apply agree_err]. destruct Hx as [-> Hx].
  rewrite length_app in Hs. cbn [length] in Hs.
  eapply agree_ext; [..|apply (agree_piece (PExpr x)); [done|intros env; apply expression_value_error|apply (IH rest); lia]]; [|done|done].
  cbn [piece_text]. by rewrite !app_comm_cons, <- app_assoc.
Qed.

Lemma elem_of_dedupe l : forall seen x, x ∈ dedupe seen l <-> x ∈ l /\ x ∉ seen.
Proof.
  induction l as [|y l IH]; intros seen x; cbn [dedupe]; [split; [by intros ?%not_elem_of_nil|by intros [?%not_elem_of_nil _]]|].
  case_bool_decide as E; rewrite ?elem_of_cons, IH; rewrite ?elem_of_cons; split.
  - naive_solver.
  - intros [[->|H] Hn]; naive_solver.
  - intros [->|[H Hn]]; [naive_solver|]. split; [by right|]. naive_solver.
  - intros [[->|H] Hn]; [by left|]. destruct (decide (x = y)) as [->|]; [by left|]. right. split; [done|]. naive_solver.
Qed.

Lemma NoDup_dedupe l : forall seen, NoDup (dedupe seen l).
Proof.
  induction l as [|y l IH]; intros seen; cbn [dedupe]; [constructor|]. case_bool_decide; [done|]. constructor; [|done].
  rewrite elem_of_dedupe, elem_of_cons. naive_solver.
Qed.

Lemma evaluate_local env env' ps : (forall x, x ∈ flat_map piece_names ps -> env x = env' x) -> evaluate env ps = evaluate env' ps.
Proof.
  induction ps as [|p ps IH]; intros Hl; [done|]. rewrite !evaluate_cons. cbn [flat_map] in Hl. rewrite IH by (intros x Hx; apply Hl, elem_of_app; by right).
  f_equal. destruct p as [c| |x]; try done. cbn [piece_value]. unfold expression_value. rewrite (Hl (x_name x)); [done|]. apply elem_of_app. left. by apply list_elem_of_singleton.
Qed.
