(* ===== verification/ProjectFiles.v ===== *)
(** What a project names ([project.py]): the names of its parts, files below its
    root, dotenv files, paths in the guest, and the names of its machines. *)
From S2P Require Import Prelude Crypto PyStr PyText PyVal Utf8 Json Regex Digest Names Yaml Template.

Definition MAX_ENV_FILE_BYTES : Z := 256 * 1024.

(** [_NAME_RE], [_ENV_KEY_RE] *)
Definition name_re : re := RCat (RCls low_alnum) (upto 62 (RCls ([(45, 46); (95, 95)] ++ low_alnum))).
Definition env_key_re : re := var_name_re.

(** [_name] of a text, and of a value *)
Definition checked_name (s : pystr) : result pystr :=
  let? t := string_of (YStr false s) true in
  raise "must match the name pattern" when negb (fullmatch name_re t.2) ;; Ok t.2.

(** [_mapping], [_only_keys] *)
Definition mapping_of (value : yval) : result (list (pystr * yval)) :=
  match value with YMap d => Ok d | _ => Err "must be a mapping" end.
Definition only_keys (d : list (pystr * yval)) (allowed : list string) : result unit :=
  raise "contains unsupported key(s)" when negb (forallb (fun kv => bool_decide (kv.1 ∈ map u allowed)) d) ;; Ok tt.

(** [_string_list] *)
Definition string_list (value : yval) : result (list template) :=
  match value with
  | YStr _ _ => let? t := string_of value true in Ok [t]
  | YList l => map_result (fun v => string_of v true) l
  | _ => Err "must be a string or sequence of strings"
  end.
Definition of_template (t : template) : yval := YStr t.1 t.2.

(** [set(l)] has as many elements as [l] *)
Fixpoint has_dup {A} `{EqDecision A} (l : list A) : bool :=
  match l with [] => false | x :: l => bool_decide (x ∈ l) || has_dup l end.

(** * Numbers *)

(** [str.isdigit]: the decimal digits, and digits that [int] refuses *)
Definition other_digit_cls : list (Z * Z) :=
  [(178, 179); (185, 185); (4969, 4977); (6618, 6618); (8304, 8304); (8308, 8313); (8320, 8329); (9312, 9320); (9332, 9340); (9352, 9360);
   (9450, 9450); (9461, 9469); (9471, 9471); (10102, 10110); (10112, 10120); (10122, 10130); (68160, 68163); (69216, 69224);
   (69714, 69722); (127232, 127242)].
Definition isdigit (s : pystr) : bool :=
  negb (bool_decide (s = [])) && forallb (fun c => bool_decide (is_Some (decimal c)) || in_cls other_digit_cls c) s.
(** [int(s)] of such a text *)
Definition int_of_text (s : pystr) : result Z :=
  if isdecimal s then Ok (int_value s) else Err "ValueError".

(** [_port_number] *)
Definition port_number (value : yval) : result Z :=
  let? value :=
    match value with
    | YStr _ s =>
        if isdigit s then raise "numeric component exceeds 10 digits" when 10 <? zlen s ;; result_map YInt (int_of_text s) else Ok value
    | _ => Ok value
    end in
  match value with
  | YInt n => raise "must be an integer between 1 and 65535" when negb ((1 <=? n) && (n <=? 65535)) ;; Ok n
  | _ => Err "must be an integer between 1 and 65535"
  end.

(** [_MEMORY_RE]: the digits and the unit; the letters of the unit in any case *)
Definition memory_parts (s : pystr) : option (pystr * pystr) :=
  let (number, unit) := span is_digit s in
  if match number with c :: _ => negb (c =? 48) | [] => false end && bool_decide (fold unit ∈ map u ["mib"; "gib"]) then Some (number, unit) else None.

(** [_memory_mib] *)
Definition memory_mib (value : yval) (minimum maximum : Z) : result Z :=
  let? n :=
    match value with
    | YInt n => Ok n
    | YStr _ s =>
        match memory_parts s with
        | Some (number, unit) =>
            raise "numeric component exceeds 10 digits" when 10 <? zlen number ;;
            Ok (digits_value number * (if bool_decide (lower_text unit = u "gib") then 1024 else 1))
        | None => Err "must be an integer MiB value or a string such as '512MiB' or '4GiB'"
        end
    | _ => Err "must be an integer MiB value or a MiB/GiB string"
    end in
  raise "is out of range" when negb ((minimum <=? n) && (n <=? maximum)) ;; Ok n.
Definition MAX_MEMORY_MIB : Z := 16 * 1024 * 1024.

(** [ipaddress.ip_address(raw).compressed]; an IPv6 address may name its scope *)
Definition ip_address (raw : pystr) : option pystr :=
  match ipv4_parse raw with
  | Some octets => Some (ipv4_text octets)
  | None =>
      if bool_decide (47 ∈ raw) then None
      else
        let ' (address, scoped, scope) := partition 37 raw in
        if scoped && (bool_decide (scope = []) || bool_decide (37 ∈ scope)) then None
        else match ipv6_parse address with
             | Some ip => Some (ipv6_text ip ++ (if scoped then 37 :: scope else []))
             | None => None
             end
  end.

(** [normalize_host_ip] *)
Definition normalize_host_ip (value : yval) : result pystr :=
  let? t := string_of value true in
  match ip_address t.2 with Some ip => Ok ip | None => Err "must be a literal IPv4 or IPv6 address" end.

(** * Paths in the guest *)

(** [PurePosixPath(s).parts] without the root *)
Definition posix_parts (s : pystr) : list pystr := List.filter (fun p => negb (bool_decide (p = [])) && negb (bool_decide (p = [46]))) (split 47 s).

(** [_guest_path] *)
Definition guest_path (value : pystr) : result pystr :=
  let? t := string_of (YStr false value) true in
  raise "must be a normalized absolute guest path" when negb (startswith [47] value) || bool_decide (dotdot ∈ posix_parts value) ;;
  let normalized := 47 :: join [47] (posix_parts value) in
  raise "must be a normalized absolute guest path" when startswith [47; 47] value || negb (bool_decide (normalized = value)) ;;
  raise "cannot mount over the guest root" when bool_decide (normalized = [47]) ;;
  Ok normalized.

Definition below (parent path : pystr) : bool := startswith (parent ++ [47]) path.

(** [_reserved_guest_path] *)
Definition reserved_guest_path (path : pystr) : bool :=
  existsb (fun item => bool_decide (path = item) || below item path || below path item)
    (map u ["/dev"; "/proc"; "/sys"; "/etc/palimpsest"; "/opt/layers"; "/mnt/palimpsest"])
  || existsb (fun parent => bool_decide (parent = path) || below path parent ||
                (below parent path && startswith (u "palimpsest-") (List.hd [] (split 47 (drop (S (length parent)) path)))))
       (map u ["/usr/local/libexec"; "/etc/systemd/system"]).

(** * Files below the project root *)

(** What [lstat] finds at a path below the resolved root; the files do not
    change while the project is read. [None] cannot be read. *)
Inductive file_node := NRegular (content : option bytes) | NDirectory | NSymlink | NOther.
Definition project_fs : Type := list pystr -> option file_node.

Record project_file := ProjectFile { f_reference : pystr; f_path : list pystr; f_sha256 : option pystr }.
#[export] Instance project_file_eq_dec : EqDecision project_file.
Proof. solve_decision. Defined.

Inductive path_kind := KFile | KDirectory.

(** The newlines of [read_text]: each of \r\n and \r reads as \n. *)
Fixpoint universal_newlines (s : pystr) : pystr :=
  match s with
  | c :: r =>
      if c =? 13 then match r with d :: r' => if d =? 10 then 10 :: universal_newlines r' else 10 :: universal_newlines r | [] => [10] end
      else c :: universal_newlines r
  | [] => []
  end.

Section files.
Context `{Hash} `{UnicodeDB}.
Variable fs : project_fs.

(** The loop over the parts: none is missing, none is a symbolic link. *)
Fixpoint check_parts (current parts : list pystr) : result unit :=
  match parts with
  | [] => Ok tt
  | part :: parts =>
      match fs (current ++ [part]) with
      | None => Err "cannot access path"
      | Some NSymlink => Err "cannot traverse a symlink"
      | Some _ => check_parts (current ++ [part]) parts
      end
  end.

(** [_safe_project_path] *)
Definition safe_project_path (raw : pystr) (kind : path_kind) (max_bytes : option Z) : result project_file :=
  let? t := string_of (YStr false raw) true in
  raise "must use portable '/' path separators" when bool_decide (92 ∈ raw) ;;
  let parts := posix_parts raw in
  raise "must be a normalized project-relative path without '.' or '..'"
    when startswith [47] raw || bool_decide (parts = []) || bool_decide (dotdot ∈ parts) ;;
  let? _ := check_parts [] parts in
  match kind, fs parts with
  | KFile, Some (NRegular None) => Err "cannot read path"
  | KFile, Some (NRegular (Some content)) =>
      raise "exceeds the byte limit" when match max_bytes with Some m => m <? zlen content | None => false end ;;
      let chunk_size := match max_bytes with Some m => Z.min 1048576 (m + 1) | None => 1048576 end in
      Ok (ProjectFile raw parts (digest_file content chunk_size))
  | KFile, _ => Err "must reference a regular file"
  | KDirectory, Some NDirectory => Ok (ProjectFile raw parts None)
  | KDirectory, _ => Err "must reference a directory"
  end.

(** [read_text(encoding="utf-8")] of a regular file, and the check of its digest *)
Definition read_project_text (f : project_file) (changed : string) : result pystr :=
  match fs (f_path f) with
  | Some (NRegular (Some content)) =>
      match utf8_decode content with
      | None => Err "cannot read as UTF-8"
      | Some text =>
          let text := universal_newlines text in
          match utf8_encode text with
          | None => Err "UnicodeEncodeError"
          | Some encoded =>
              raise changed when match f_sha256 f with Some d => negb (bool_decide (digest_text encoded = d)) | None => false end ;;
              Ok text
          end
      end
  | _ => Err "cannot read as UTF-8"
  end.

(** [_validate_template] and the check of the name of the variable *)
Definition checked_variable (key : pystr) (t : template) : result unit :=
  let? _ := validate_template t None in
  raise "is secret-shaped and must be an environment-only reference" when is_sensitive_key key && negb (is_external_secret_reference t) ;;
  Ok tt.

(** The value of a line of a dotenv file *)
Definition dotenv_value (value : pystr) : result template :=
  match value with c :: _ => if is_quote c then quoted_scalar value else Ok (false, value) | [] => Ok (false, value) end.

Fixpoint dotenv_lines (result_so_far : list (pystr * template)) (lines : list pystr) : result (list (pystr * template)) :=
  match lines with
  | [] => Ok result_so_far
  | raw_line :: lines =>
      match utf8_encode raw_line with
      | None => Err "UnicodeEncodeError"
      | Some encoded =>
          raise "line exceeds 64 KiB" when 65536 <? zlen encoded ;;
          let stripped := strip raw_line in
          if bool_decide (stripped = []) || startswith [35] stripped then dotenv_lines result_so_far lines
          else
            let ' (key, separator, raw_value) := partition 61 raw_line in
            let key := strip key in
            raise "expected KEY=VALUE" when negb separator || negb (fullmatch env_key_re key) ;;
            raise "duplicate environment key" when bool_decide (key ∈ map fst result_so_far) ;;
            let? value := dotenv_value (strip_inline_comment (strip raw_value)) in
            let? _ := checked_variable key value in
            dotenv_lines (result_so_far ++ [(key, value)]) lines
      end
  end.

(** [_read_env_file_templates] *)
Definition read_env_file_templates (f : project_file) : result (list (pystr * template)) :=
  match fs (f_path f) with
  | None => Err "env_file changed, disappeared, or is inaccessible"
  | Some (NRegular content) =>
      raise "env_file exceeds the byte limit" when match content with Some b => MAX_ENV_FILE_BYTES <? zlen b | None => false end ;;
      let? text := read_project_text f "env_file changed after project validation" in
      raise "env_file contains forbidden control characters" when bool_decide (0 ∈ text) || bool_decide (13 ∈ text) ;;
      dotenv_lines [] (splitlines text)
  | Some _ => Err "env_file must remain a regular non-symlink file"
  end.
End files.

(** * Names of machines *)

Section names.
Context `{Hash}.

(** [re.sub(r"[^a-z0-9-]+", "-", s)] *)
Fixpoint dashes (in_run : bool) (s : pystr) : pystr :=
  match s with
  | [] => []
  | c :: r =>
      if in_cls ((45, 45) :: low_alnum) c then c :: dashes false r
      else if in_run then dashes true r else 45 :: dashes true r
  end.

(** [_runtime_slug]; the suffix has 8 characters *)
Definition runtime_slug (raw collision_key : pystr) : result pystr :=
  let slug := rstrip_of [45] (lstrip_of [45] (dashes false (lower_text raw))) in
  let slug := match slug with [] => u "project" | _ => slug end in
  if negb (bool_decide (slug = raw)) || (63 <? zlen slug) then
    match utf8_encode collision_key with
    | None => Err "UnicodeEncodeError"
    | Some key => Ok (take 63 (rstrip_of [45] (take 54 slug) ++ [45] ++ take 8 (hex (sha256 key))))
    end
  else Ok (take 63 slug).

(** [deterministic_project_name], of the name and the text of the resolved directory *)
Definition deterministic_project_name (directory_name directory : pystr) (declared : option pystr) : result pystr :=
  match declared with
  | Some name => let? _ := checked_name name in runtime_slug name name
  | None => runtime_slug directory_name directory
  end.

(** [deterministic_service_name] *)
Definition deterministic_service_name (project_name service_name : pystr) (replica : Z) : result pystr :=
  let? _ := checked_name project_name in
  let? _ := checked_name service_name in
  raise "service replica must be a positive integer" when replica <? 1 ;;
  let raw := project_name ++ [45] ++ service_name ++ [45] ++ str_of_int replica in
  runtime_slug raw raw.
End names.
