(* ===== verification/ProjectDoc.v ===== *)
(** Projects ([project.py]): the validation of a decoded document into networks,
    volumes and services, the canonical payload, and the values resolved for
    execution.  The graph of the services is [ProjectGraph]. *)
From S2P Require Import Prelude Crypto PyStr PyText PyVal Utf8 Json Regex Digest Network Names Yaml Template ProjectFiles ProjectGraph.

(** * Specifications *)

Inductive network_driver := DNat | DBridge | DIsolated.
#[export] Instance network_driver_eq_dec : EqDecision network_driver.
Proof. solve_decision. Defined.

Record network_spec := NetworkSpec { n_name : pystr; n_driver : network_driver; n_external : bool; n_external_name : option pystr }.
Record volume_spec := VolumeSpec { v_name : pystr; v_size_mib : Z; v_external : bool; v_external_name : option pystr }.
(** A mount of a volume; no other type is accepted. *)
Record mount_spec := MountSpec { m_source : pystr; m_target : pystr; m_read_only : bool }.
Record write_file := WriteFile { wf_path : pystr; wf_content : template; wf_permissions : pystr }.
Record cloud_init_spec := CloudInit { ci_packages : list template; ci_write_files : list write_file; ci_runcmd : list (list template); ci_source : option project_file }.
Record service_spec := ServiceSpec {
  sv_name : pystr;
  sv_image : option pystr;
  sv_bundle : option project_file;
  sv_layers : list pystr;
  sv_memory_mib : Z;
  sv_vcpus : Z;
  sv_networks : list pystr;
  sv_volumes : list mount_spec;
  sv_ports : list port_spec;
  sv_environment : list (pystr * template);
  sv_env_files : list project_file;
  sv_cloud_init : option cloud_init_spec;
  sv_depends_on : list pystr;
}.
Record project := Project {
  pj_version : pystr;
  pj_name : pystr;
  pj_services : list (pystr * service_spec);
  pj_networks : list (pystr * network_spec);
  pj_volumes : list (pystr * volume_spec);
}.

(** [config.get(key, default)] *)
Definition get_default (d : list (pystr * yval)) (key : string) (default_value : yval) : yval :=
  match item_get d (u key) with Some v => v | None => default_value end.
Definition has_key (d : list (pystr * yval)) (key : string) : bool := bool_decide (u key ∈ map fst d).
Definition text (s : string) : yval := YStr false (u s).

(** [dict(sorted(d.items()))], of distinct keys *)
Definition key_order {A} (a b : pystr * A) : Prop := str_le a.1 b.1.
#[export] Instance key_order_dec {A} (a b : pystr * A) : Decision (key_order a b).
Proof. unfold key_order, str_le. apply _. Defined.
Definition sorted_keys {A} (d : list (pystr * A)) : list (pystr * A) := merge_sort key_order d.

Section parse.
Context `{Hash} `{UnicodeDB}.
Variable fs : project_fs.
(** The variables for structural values; [None] where a document has none *)
Variable environment : option variables.

Definition resolve_value (value : yval) : result pystr := resolved_string value environment.

(** [_resolved_boolean] *)
Definition resolved_boolean (value : yval) : result bool :=
  match value with
  | YBool b => Ok b
  | _ =>
      let? s := resolve_value value in
      if bool_decide (lower s = u "true") then Ok true
      else if bool_decide (lower s = u "false") then Ok false
      else Err "must resolve to true or false"
  end.

(** The name of an external network or volume *)
Definition external_name_of (config : list (pystr * yval)) : result (option pystr) :=
  match get_default config "name" YNull with
  | YNull => Ok None
  | value => let? s := resolve_value value in result_map Some (checked_name s)
  end.

(** A network or volume without a mapping has the defaults. *)
Definition config_of (raw : yval) : result (list (pystr * yval)) := match raw with YNull => Ok [] | _ => mapping_of raw end.

Definition driver_of (s : pystr) : result network_driver :=
  if bool_decide (s = u "nat") then Ok DNat else if bool_decide (s = u "bridge") then Ok DBridge
  else if bool_decide (s = u "isolated") then Ok DIsolated else Err "driver must be nat, bridge, or isolated".

Definition parse_network (raw_name : pystr) (raw : yval) : result (pystr * network_spec) :=
  let? name := checked_name raw_name in
  let? config := config_of raw in
  let? _ := only_keys config ["driver"; "external"; "name"] in
  let? driver := resolve_value (get_default config "driver" (text "nat")) in
  let? driver := driver_of driver in
  let? external := resolved_boolean (get_default config "external" (YBool false)) in
  let? external_name := external_name_of config in
  raise "name requires external: true" when bool_decide (is_Some external_name) && negb external ;;
  Ok (name, NetworkSpec name driver external external_name).

(** [_parse_networks] *)
Definition parse_networks (value : yval) : result (list (pystr * network_spec)) :=
  let? raw := config_of value in
  let? l := map_result (fun kv => parse_network kv.1 kv.2) raw in
  Ok (if bool_decide (u "default" ∈ map fst l) then l else l ++ [(u "default", NetworkSpec (u "default") DNat false None)]).

Definition parse_volume (raw_name : pystr) (raw : yval) : result (pystr * volume_spec) :=
  let? name := checked_name raw_name in
  let? config := config_of raw in
  let? _ := only_keys config ["driver"; "size"; "external"; "name"] in
  let? driver := resolve_value (get_default config "driver" (text "block")) in
  raise "driver must be block" when negb (bool_decide (driver = u "block")) ;;
  let? raw_size := match get_default config "size" (text "10GiB") with
                   | YStr l s => result_map (YStr false) (resolve_value (YStr l s))
                   | v => Ok v
                   end in
  let? size_mib := memory_mib raw_size 16 MAX_MEMORY_MIB in
  let? external := resolved_boolean (get_default config "external" (YBool false)) in
  let? external_name := external_name_of config in
  raise "name requires external: true" when bool_decide (is_Some external_name) && negb external ;;
  raise "size cannot be set for an external volume" when external && has_key config "size" ;;
  Ok (name, VolumeSpec name size_mib external external_name).

(** [_parse_volumes] *)
Definition parse_volumes (value : yval) : result (list (pystr * volume_spec)) :=
  let? raw := config_of value in map_result (fun kv => parse_volume kv.1 kv.2) raw.

(** ** Mounts and ports *)

(** The type ([true] for a volume), source, target and mode of a mount *)
Definition mount_parts (raw : yval) : result (bool * pystr * pystr * bool) :=
  match raw with
  | YStr l s =>
      let? resolved := resolve_value (YStr l s) in
      let parts := split 58 resolved in
      raise "must use source:target[:ro|rw] syntax" when existsb (fun p => bool_decide (p = [])) parts ;;
      let? ' (source, target, mode) := match parts with
                                       | [source; target] => Ok (source, target, u "rw")
                                       | [source; target; mode] => Ok (source, target, mode)
                                       | _ => Err "must use source:target[:ro|rw] syntax"
                                       end in
      raise "mount mode must be ro or rw" when negb (bool_decide (mode = u "ro")) && negb (bool_decide (mode = u "rw")) ;;
      Ok (negb (startswith [46] source), source, target, bool_decide (mode = u "ro"))
  | _ =>
      let? config := mapping_of raw in
      let? _ := only_keys config ["type"; "source"; "target"; "read_only"] in
      let? type := resolve_value (get_default config "type" (text "volume")) in
      raise "type must be volume or bind" when negb (bool_decide (type = u "volume")) && negb (bool_decide (type = u "bind")) ;;
      let? source := resolve_value (get_default config "source" YNull) in
      let? target := resolve_value (get_default config "target" YNull) in
      let? read_only := resolved_boolean (get_default config "read_only" (YBool false)) in
      Ok (bool_decide (type = u "volume"), source, target, read_only)
  end.

(** [_parse_mount] *)
Definition parse_mount (volumes : list pystr) (raw : yval) : result mount_spec :=
  let? ' (is_volume, source, target, read_only) := mount_parts raw in
  let? guest_target := guest_path target in
  raise "target overlaps a Palimpsest- or kernel-owned guest path" when reserved_guest_path guest_target ;;
  if is_volume then
    let? volume_name := checked_name source in
    raise "references undefined top-level volume" when negb (bool_decide (volume_name ∈ volumes)) ;;
    Ok (MountSpec volume_name guest_target read_only)
  else Err "type bind is unsupported; use a named top-level block volume".

Definition resolve_text (value : yval) : result yval :=
  match value with YStr l s => result_map (YStr false) (resolve_value (YStr l s)) | v => Ok v end.

(** The published and target ports, the protocol and the host address *)
Definition port_parts (raw : yval) : result (yval * yval * pystr * pystr) :=
  match raw with
  | YStr l s =>
      let? resolved := resolve_value (YStr l s) in
      let ' (value, separator, protocol) := partition 47 resolved in
      let protocol := if separator then protocol else u "tcp" in
      match split 58 value with
      | [published; target] => Ok (YStr false published, YStr false target, protocol, u "127.0.0.1")
      | [host_ip; published; target] => Ok (YStr false published, YStr false target, protocol, host_ip)
      | _ => Err "must use [host_ip:]host_port:guest_port[/tcp|udp] syntax"
      end
  | _ =>
      let? config := mapping_of raw in
      let? _ := only_keys config ["target"; "published"; "protocol"; "host_ip"] in
      raise "requires target and published" when negb (has_key config "target") || negb (has_key config "published") ;;
      let? target := resolve_text (get_default config "target" YNull) in
      let? published := resolve_text (get_default config "published" YNull) in
      let? protocol := resolve_value (get_default config "protocol" (text "tcp")) in
      let? host_ip := resolve_value (get_default config "host_ip" (text "127.0.0.1")) in
      Ok (published, target, protocol, host_ip)
  end.

(** [_parse_port] *)
Definition parse_port (raw : yval) : result port_spec :=
  let? ' (published, target, protocol, host_ip) := port_parts raw in
  raise "protocol must be tcp in project schema v1" when negb (bool_decide (protocol = u "tcp")) ;;
  let? host_port := port_number published in
  let? guest_port := port_number target in
  let? host_ip := normalize_host_ip (YStr false host_ip) in
  Ok (PortSpec host_port guest_port TCP host_ip).

(** ** Environments *)

Definition required_template (key : pystr) : pystr := u "${" ++ key ++ u ":?" ++ key ++ u " is required}".

Definition environment_entry (key : pystr) (raw : yval) : result (pystr * template) :=
  let raw := match raw with
             | YNull => YStr false (required_template key)
             | YBool b => text (if b then "true" else "false")
             | YInt n => YStr false (str_of_int n)
             | v => v
             end in
  let? t := string_of raw false in Ok (key, t).

Definition environment_item (item : yval) : result (pystr * template) :=
  let? t := string_of item true in
  let ' (key, separator, raw_value) := partition 61 t.2 in
  Ok (key, (t.1, if separator then raw_value else required_template key)).

(** The loop over the pairs *)
Fixpoint check_variables (result_so_far : list (pystr * template)) (pairs : list (pystr * template)) : result (list (pystr * template)) :=
  match pairs with
  | [] => Ok result_so_far
  | (key, t) :: pairs =>
      raise "contains invalid environment key" when negb (fullmatch env_key_re key) ;;
      raise "contains duplicate environment key" when bool_decide (key ∈ map fst result_so_far) ;;
      let? _ := checked_variable key t in
      check_variables (result_so_far ++ [(key, t)]) pairs
  end.

(** [_parse_environment], called without variables *)
Definition parse_environment (value : yval) : result (list (pystr * template)) :=
  let? pairs := match value with
                | YNull => Ok []
                | YMap d => map_result (fun kv => environment_entry kv.1 kv.2) d
                | YList l => map_result environment_item l
                | _ => Err "must be a mapping or KEY=value sequence"
                end in
  let? checked := check_variables [] pairs in
  Ok (sorted_keys checked).

(** ** Cloud-init *)

Definition package_re : re := RCat (RCls alnum) (upto 127 (RCls ([(43, 43); (45, 47); (58, 58); (64, 64); (95, 95)] ++ alnum))).
Definition permissions_re : re := RCat (chr 48) (rep 3 (RCls [(48, 55)])).

Definition check_package (t : template) : result unit :=
  let? _ := validate_template t None in
  let? names := interpolation_variables t in
  raise "packages contains an invalid package name" when bool_decide (names = []) && negb (fullmatch package_re t.2) ;; Ok tt.

(** No line of a file has a literal value for a secret-shaped field. *)
Definition literal_secret_line (line : pystr) : bool :=
  let ' (key, separator, raw_value) := partition 58 (strip line) in
  separator && is_sensitive_key key && negb (bool_decide (strip raw_value = [])) && negb (contains (u "${") raw_value).

Definition encoded_size (s : pystr) : result Z := match utf8_encode s with Some b => Ok (zlen b) | None => Err "UnicodeEncodeError" end.

Definition parse_write_file (raw : yval) : result write_file :=
  let? write := mapping_of raw in
  let? _ := only_keys write ["path"; "content"; "permissions"] in
  raise "requires path and content" when negb (has_key write "path") || negb (has_key write "content") ;;
  let? path := resolve_value (get_default write "path" YNull) in
  let? path := guest_path path in
  raise "path overlaps a Palimpsest- or kernel-owned guest path" when reserved_guest_path path ;;
  let? content := string_of (get_default write "content" YNull) false in
  let? size := encoded_size content.2 in
  raise "content exceeds the 64 KiB limit" when 64 * 1024 <? size ;;
  let? permissions := resolve_value (get_default write "permissions" (text "0644")) in
  raise "permissions must be a four-digit octal string such as '0644'" when negb (fullmatch permissions_re permissions) ;;
  let? _ := validate_template content None in
  raise "content contains literal secret-shaped field" when existsb literal_secret_line (splitlines content.2) ;;
  Ok (WriteFile path content permissions).

Definition list_of (value : yval) (error : string) : result (list yval) := match value with YList l => Ok l | _ => Err error end.

Definition parse_command (raw : yval) : result (list template) :=
  match raw with
  | YList (_ :: _ as raw) =>
      raise "supports at most 64 arguments" when 64 <? zlen raw ;;
      let? argv := map_result (fun v => string_of v true) raw in
      let? _ := map_result (fun t => validate_template t None) argv in
      Ok argv
  | _ => Err "must be a nonempty argv sequence; shell strings are forbidden"
  end.

(** The typed mapping of a cloud-init, inline or from a file *)
Definition cloud_init_source (config : list (pystr * yval)) : result (option project_file * list (pystr * yval)) :=
  if has_key config "file" then
    let? reference := resolve_value (get_default config "file" YNull) in
    let? source := safe_project_path fs reference KFile (Some (256 * 1024)) in
    let? text := read_project_text fs source "file changed during project validation" in
    let? document := parse_yaml_subset text in
    let? typed := mapping_of document in
    Ok (Some source, typed)
  else
    let? typed := mapping_of (get_default config "inline" YNull) in Ok (None, typed).

(** [_parse_cloud_init] *)
Definition parse_cloud_init (value : yval) : result cloud_init_spec :=
  let? config := mapping_of value in
  let? _ := only_keys config ["inline"; "file"] in
  raise "requires exactly one of inline or file" when Bool.eqb (has_key config "inline") (has_key config "file") ;;
  let? ' (source, typed) := cloud_init_source config in
  let? _ := only_keys typed ["packages"; "write_files"; "runcmd"] in
  let? packages := string_list (get_default typed "packages" (YList [])) in
  raise "packages supports at most 128 entries" when 128 <? zlen packages ;;
  raise "packages cannot contain duplicates" when has_dup (map snd packages) ;;
  let? _ := map_result check_package packages in
  let? raw_files := list_of (get_default typed "write_files" (YList [])) "write_files must be a sequence" in
  raise "write_files supports at most 64 entries" when 64 <? zlen raw_files ;;
  let? files := map_result parse_write_file raw_files in
  raise "write_files cannot contain duplicate guest paths" when has_dup (map wf_path files) ;;
  let? raw_commands := list_of (get_default typed "runcmd" (YList [])) "runcmd must be a sequence of argv sequences" in
  raise "runcmd supports at most 64 commands" when 64 <? zlen raw_commands ;;
  let? commands := map_result parse_command raw_commands in
  Ok (CloudInit packages files commands source).

(** ** Services *)

Definition SERVICE_KEYS : list string :=
  ["image"; "bundle"; "layers"; "memory"; "vcpus"; "networks"; "volumes"; "ports"; "environment"; "env_file"; "cloud_init"; "depends_on"].

Definition resolved_digest (t : template) : result pystr := let? s := resolve_value (of_template t) in require_digest s.

Definition parse_vcpus (value : yval) : result Z :=
  let? value :=
    match value with
    | YStr l s =>
        let? s := resolve_value (YStr l s) in
        if isdigit s then raise "vcpus numeric component exceeds 10 digits" when 10 <? zlen s ;; result_map YInt (int_of_text s)
        else Ok (YStr false s)
    | v => Ok v
    end in
  match value with
  | YInt n => raise "vcpus must be an integer between 1 and 256" when negb ((1 <=? n) && (n <=? 256)) ;; Ok n
  | _ => Err "vcpus must be an integer between 1 and 256"
  end.

(** The image, or the bundle *)
Definition parse_root (config : list (pystr * yval)) : result (option pystr * option project_file) :=
  if has_key config "image" then
    let? s := resolve_value (get_default config "image" YNull) in
    let? image := require_digest s in Ok (Some image, None)
  else
    let? reference := resolve_value (get_default config "bundle" YNull) in
    let? bundle := safe_project_path fs reference KDirectory None in Ok (None, Some bundle).

Definition parse_service_networks (networks : list pystr) (value : yval) : result (list pystr) :=
  let? raw := string_list value in
  let? attached := map_result (fun t => resolve_value (of_template t)) raw in
  raise "networks cannot be empty" when bool_decide (attached = []) ;;
  raise "networks supports exactly one attachment in project schema v1" when 1 <? zlen attached ;;
  let? _ := map_result (fun n => let? _ := checked_name n in raise "networks references undefined network" when negb (bool_decide (n ∈ networks)) ;; Ok tt) attached in
  Ok attached.

Definition parse_env_files (value : yval) : result (list project_file) :=
  let? raw := string_list value in
  let? files := map_result (fun t => let? s := resolve_value (of_template t) in safe_project_path fs s KFile (Some MAX_ENV_FILE_BYTES)) raw in
  raise "env_file cannot contain duplicates" when has_dup (map f_path files) ;;
  let? _ := map_result (read_env_file_templates fs) files in
  Ok files.

(** [_parse_service] *)
Definition parse_service (name : pystr) (raw : yval) (networks volumes : list pystr) : result service_spec :=
  let? config := mapping_of raw in
  let? _ := only_keys config SERVICE_KEYS in
  raise "requires exactly one of image or bundle" when Bool.eqb (has_key config "image") (has_key config "bundle") ;;
  let? ' (image, bundle) := parse_root config in
  let? raw_layers := if has_key config "layers" then string_list (get_default config "layers" YNull) else Ok [] in
  let? layers := map_result resolved_digest raw_layers in
  raise "layers supports at most 25 entries" when 25 <? zlen layers ;;
  raise "layers cannot contain duplicate digests" when has_dup layers ;;
  let? raw_memory := resolve_text (get_default config "memory" (text "4GiB")) in
  let? memory := memory_mib raw_memory 256 1048576 in
  let? vcpus := parse_vcpus (get_default config "vcpus" (YInt 2)) in
  let? attached := parse_service_networks networks (get_default config "networks" (YList [text "default"])) in
  let? raw_mounts := list_of (get_default config "volumes" (YList [])) "volumes must be a sequence" in
  let? mounts := map_result (parse_mount volumes) raw_mounts in
  raise "volumes contains duplicate guest mount targets" when has_dup (map m_target mounts) ;;
  let? raw_ports := list_of (get_default config "ports" (YList [])) "ports must be a sequence" in
  let? ports := map_result parse_port raw_ports in
  raise "ports contains duplicate guest port/protocol mappings" when has_dup (map (fun p => (ps_guest_port p, ps_protocol p)) ports) ;;
  let? env_files := parse_env_files (get_default config "env_file" (YList [])) in
  let? cloud_init := if has_key config "cloud_init" then result_map Some (parse_cloud_init (get_default config "cloud_init" YNull)) else Ok None in
  let? raw_depends := string_list (get_default config "depends_on" (YList [])) in
  let? depends_on := map_result (fun t => resolve_value (of_template t)) raw_depends in
  raise "depends_on cannot contain duplicates" when has_dup depends_on ;;
  let? env := parse_environment (get_default config "environment" YNull) in
  Ok (ServiceSpec name image bundle layers memory vcpus attached mounts ports env env_files cloud_init depends_on).

(** ** The document *)

(** What [_validate_dependencies] and [_validate_host_port_collisions] read *)
Definition graph_of (services : list (pystr * service_spec)) : services_map :=
  map (fun ns => (ns.1, Service (sv_ports ns.2) (sv_depends_on ns.2))) services.

Definition parse_version (value : yval) : result pystr :=
  let? s := match value with
            | YInt n => resolve_value (YStr false (str_of_int n))
            | YStr l s => resolve_value (YStr l s)
            | _ => Err "project.version must be '1'"
            end in
  raise "project.version must be '1'" when negb (bool_decide (s = u "1")) ;; Ok s.

Definition parse_services (networks volumes : list pystr) (raw : list (pystr * yval)) : result (list (pystr * service_spec)) :=
  map_result (fun kv => let? name := checked_name kv.1 in let? s := parse_service name kv.2 networks volumes in Ok (name, s)) raw.

(** [parse_project_document], below a resolved directory with a name *)
Definition parse_project_document (directory_name directory : pystr) (document : yval) : result project :=
  let? root := mapping_of document in
  let? _ := only_keys root ["version"; "name"; "services"; "networks"; "volumes"] in
  raise "project.services is required" when negb (has_key root "services") ;;
  let? version := parse_version (get_default root "version" (text "1")) in
  let? declared := match get_default root "name" YNull with
                   | YNull => Ok None
                   | value => let? s := resolve_value value in result_map Some (checked_name s)
                   end in
  let? name := deterministic_project_name directory_name directory declared in
  let? networks := parse_networks (get_default root "networks" YNull) in
  let? volumes := parse_volumes (get_default root "volumes" YNull) in
  let? raw_services := mapping_of (get_default root "services" YNull) in
  raise "project.services cannot be empty" when bool_decide (length raw_services = 0%nat) ;;
  raise "project.services supports at most 128 services" when 128 <? zlen raw_services ;;
  let? services := parse_services (map fst networks) (map fst volumes) raw_services in
  let? _ := validate_dependencies (graph_of services) in
  let? _ := validate_host_port_collisions (graph_of services) in
  Ok (Project version name (sorted_keys services) (sorted_keys networks) (sorted_keys volumes)).

(** [parse_project_text] *)
Definition parse_project_text (directory_name directory : pystr) (source : pystr) : result project :=
  let? document := parse_yaml_subset source in parse_project_document directory_name directory document.
End parse.

(** [load_project], from the bytes of a regular file *)
Definition load_project `{Hash} `{UnicodeDB} (fs : project_fs) (environment : variables) (directory_name directory : pystr) (content : bytes) : result project :=
  raise "project file exceeds the byte limit" when MAX_PROJECT_BYTES <? zlen content ;;
  match utf8_decode content with
  | None => Err "cannot read project file as UTF-8"
  | Some source => parse_project_text fs (Some environment) directory_name directory (universal_newlines source)
  end.
