(* ===== verification/ProjectFacts.v ===== *)
(** What an accepted project is: names that the runtime can use, references that
    exist, values in range. *)
From S2P Require Import Prelude Crypto PyStr PyText PyVal Utf8 Json Regex Digest Network Names NamesFacts Yaml YamlFacts Template ProjectFiles ProjectGraph ProjectTheorems ProjectDoc.

(** * Names of machines *)

Definition name_char (c : Z) : Prop := in_cls ((45, 45) :: low_alnum) c = true.
Record machine_name (s : pystr) : Prop := MachineName {
  mn_length : (1 <= length s <= 63)%nat;
  mn_chars : Forall name_char s;
  mn_head : head s <> Some 45;
  mn_last : last s <> Some 45 }.

Lemma lstrip_of_suffix chars s : exists p, s = p ++ lstrip_of chars s /\ match lstrip_of chars s with c :: _ => c ∉ chars | [] => True end.
Proof.
  induction s as [|c s (p & E & H)]; cbn [lstrip_of]; [by exists []|]. case_bool_decide as Hc; [|by exists []].
  exists (c :: p). split; [cbn [app]; by f_equal|done].
Qed.

Lemma rstrip_of_prefix chars s : exists p, s = rstrip_of chars s ++ p /\ match last (rstrip_of chars s) with Some c => c ∉ chars | None => True end.
Proof.
  unfold rstrip_of. destruct (lstrip_of_suffix chars (rev s)) as (p & E & H). exists (rev p).
  split; [rewrite <- rev_app_distr, <- E; by rewrite rev_involutive|]. destruct (lstrip_of chars (rev s)) as [|c r]; [done|]. cbn [rev]. by rewrite last_snoc.
Qed.

Lemma dashes_chars s : forall b, Forall name_char (dashes b s).
Proof.
  induction s as [|c s IH]; intros b; cbn [dashes]; [constructor|]. destruct (in_cls _ c) eqn:G; [by constructor|]. destruct b; [done|]. by constructor.
Qed.

Lemma Forall_prefix {A} (P : A -> Prop) l a b : l = a ++ b -> Forall P l -> Forall P a /\ Forall P b.
Proof. intros ->. apply Forall_app. Qed.

(** The stripped text of the words of a name *)
Lemma slug_text raw : let slug := rstrip_of [45] (lstrip_of [45] (dashes false (lower_text raw))) in
  Forall name_char slug /\ head slug <> Some 45 /\ last slug <> Some 45.
Proof.
  intros slug. destruct (lstrip_of_suffix [45] (dashes false (lower_text raw))) as (p & E & Hh).
  destruct (Forall_prefix _ _ _ _ E (dashes_chars _ _)) as [_ Hf]. destruct (rstrip_of_prefix [45] (lstrip_of [45] (dashes false (lower_text raw)))) as (q & E' & Hl).
  fold slug in E', Hl. destruct (Forall_prefix _ _ _ _ E' Hf) as [Hs _]. split; [done|]. split.
  - destruct slug as [|c r]; [done|]. rewrite E' in Hh. cbn [app] in Hh. cbn. rewrite list_elem_of_singleton in Hh. congruence.
  - destruct (last slug) as [c|]; [|done]. rewrite list_elem_of_singleton in Hl. congruence.
Qed.

Lemma rstrip_of_head chars s : match head s with Some c => c ∉ chars -> head (rstrip_of chars s) = Some c | None => True end.
Proof.
  destruct s as [|c s]; [done|]. cbn [head]. intros Hc. unfold rstrip_of. destruct (lstrip_of_suffix chars (rev (c :: s))) as (p & E & H).
  assert (c :: s = rev (lstrip_of chars (rev (c :: s))) ++ rev p) as E' by (rewrite <- rev_app_distr, <- E; by rewrite rev_involutive).
  destruct (rev (lstrip_of chars (rev (c :: s)))) as [|c' r] eqn:Er; [|cbn [app head] in *; congruence].
  (* all of the text was stripped *)
  exfalso. cbn [app] in E'. assert (lstrip_of chars (rev (c :: s)) = []) as E0 by (rewrite <- (rev_involutive (lstrip_of _ _)), Er; done).
  clear E E' Er H p. cbn [rev] in E0. induction (rev s) as [|d t IH]; cbn [app lstrip_of] in E0; [by rewrite bool_decide_eq_false_2 in E0|].
  case_bool_decide; [by apply IH|done].
Qed.

Section slug.
Context `{Hash}.

Lemma runtime_slug_ok raw key s : runtime_slug raw key = Ok s -> machine_name s.
Proof.
  unfold runtime_slug. cbv zeta. destruct (slug_text raw) as (Hf & Hh & Hl). set (slug := rstrip_of _ _) in *.
  assert (exists t, match slug with [] => u "project" | _ => slug end = t /\ t <> [] /\ Forall name_char t /\ head t <> Some 45 /\ last t <> Some 45) as (t & -> & Hne & Hf' & Hh' & Hl').
  { destruct slug as [|c r] eqn:E; [|by exists (c :: r)]. exists (u "project"). eval_lits. repeat split; try done. repeat constructor. }
  destruct (negb (bool_decide (t = raw)) || (63 <? zlen t)) eqn:G.
  - destruct (utf8_encode key) as [k|]; [|done]. intros E. apply (inj Ok) in E. subst s.
    destruct t as [|c t]; [done|]. cbn [head] in Hh'. pose proof (rstrip_of_head [45] (take 54 (c :: t))) as Hr. cbn [take head] in Hr.
    specialize (Hr ltac:(rewrite list_elem_of_singleton; congruence)). destruct (rstrip_of_prefix [45] (c :: take 53 t)) as (q & Eq & _).
    change (take 54 (c :: t)) with (c :: take 53 t). set (base := rstrip_of [45] (c :: take 53 t)) in *.
    assert (length base <= 54)%nat as Hb. { apply (f_equal length) in Eq. rewrite length_app in Eq. cbn [length] in Eq. rewrite length_take in Eq. lia. }
    pose proof (length_hex (sha256 k)) as Hlen. rewrite sha256_length in Hlen.
    rewrite take_ge by (rewrite !length_app, length_take; cbn [length]; lia).
    assert (Forall name_char base) as Hbase. { apply (Forall_prefix _ _ _ _ Eq). apply Forall_cons in Hf' as [Hc Ht]. constructor; [done|]. by apply Forall_take. }
    assert (Forall name_char (take 8 (hex (sha256 k)))) as Hhex.
    { apply Forall_take. eapply Forall_impl; [apply hex_in_hex, sha256_bytes|]. cbv beta. intros d Hd. unfold name_char. rewrite in_hex in Hd.
      unfold in_cls, low_alnum. cbn [existsb fst snd]. rewrite !orb_true_iff, !andb_true_iff, !Z.leb_le. lia. }
    split.
    + rewrite !length_app, length_take. cbn [length]. lia.
    + apply Forall_app. split; [done|]. by constructor.
    + destruct base as [|b base]; [done|]. cbn [app head] in *. congruence.
    + rewrite app_assoc, last_app. destruct (last (take 8 (hex (sha256 k)))) as [d|] eqn:Ed.
      * intros [= ->]. apply last_Some_elem_of in Ed. rewrite Forall_forall in Hhex. pose proof (hex_in_hex (sha256 k) (sha256_bytes k)) as Hx. rewrite Forall_forall in Hx.
        assert (45 ∈ hex (sha256 k)) as Hin by by apply (subseteq_take 8). apply Hx, in_hex in Hin. lia.
      * apply last_None in Ed. apply (f_equal length) in Ed. rewrite length_take in Ed. cbn [length] in Ed. lia.
  - bool_norm. intros E. apply (inj Ok) in E. subst s. unfold zlen in *. rewrite take_ge by lia. split; try done. destruct t; [done|]. cbn [length] in *. lia.
Qed.
End slug.

Lemma name_char_lower c : name_char c -> lower_char_text c = [c].
Proof.
  unfold name_char, in_cls, low_alnum. cbn [existsb fst snd]. rewrite !orb_true_iff, !andb_true_iff, !Z.leb_le. intros Hc.
  unfold lower_char_text. rewrite (proj2 (Z.eqb_neq c 304)), (proj2 (Z.eqb_neq c 8490)) by lia. unfold lower_char.
  destruct ((65 <=? c) && (c <=? 90)) eqn:G; [bool_norm; lia|done].
Qed.

Lemma lower_text_names s : Forall name_char s -> lower_text s = s.
Proof. induction 1 as [|c s Hc _ IH]; [done|]. unfold lower_text in *. cbn [flat_map]. by rewrite name_char_lower, IH. Qed.

Lemma dashes_names s : Forall name_char s -> dashes false s = s.
Proof. induction 1 as [|c s Hc _ IH]; [done|]. cbn [dashes]. unfold name_char in Hc. by rewrite Hc, IH. Qed.

Lemma lstrip_of_head chars s : match head s with Some c => c ∉ chars | None => True end -> lstrip_of chars s = s.
Proof. destruct s as [|c s]; [done|]. cbn [head lstrip_of]. intros Hc. rewrite bool_decide_eq_false_2; done. Qed.

Lemma head_rev {A} (s : list A) : head (rev s) = last s.
Proof. destruct s as [|x s _] using rev_ind; [done|]. by rewrite rev_unit, last_snoc. Qed.

(** A name that is already one is kept. *)
Lemma runtime_slug_id `{Hash} raw key : machine_name raw -> runtime_slug raw key = Ok raw.
Proof.
  intros [Hlen Hc Hh Hl]. unfold runtime_slug. rewrite lower_text_names, dashes_names by done.
  assert (forall o : option Z, o <> Some 45 -> match o with Some c => c ∉ [45] | None => True end) as Hn.
  { intros [c|] Hc'; [|done]. rewrite list_elem_of_singleton. congruence. }
  rewrite lstrip_of_head by (by apply Hn). assert (rstrip_of [45] raw = raw) as ->.
  { unfold rstrip_of. rewrite lstrip_of_head by (rewrite head_rev; by apply Hn). apply rev_involutive. }
  cbv zeta. assert (match raw with [] => u "project" | _ => raw end = raw) as -> by (by destruct raw; [cbn [length] in Hlen; lia|]).
  rewrite bool_decide_eq_true_2 by done. cbn [negb orb]. unfold zlen. rewrite (proj2 (Z.ltb_ge _ _)) by lia. by rewrite take_ge by lia.
Qed.

(** * Services *)

(** One call of a chain, or one guard *)
Tactic Notation "call" hyp(H) ident(p) := apply result_bind_Ok in H as (p & _ & H).
Tactic Notation "call" hyp(H) ident(p) "as" ident(E) := apply result_bind_Ok in H as (p & E & H).
Tactic Notation "passed" hyp(H) ident(G) := match type of H with (if ?b then Err _ else _) = Ok _ => destruct b eqn:G; [discriminate H|] end.

Lemma has_dup_false {A} `{EqDecision A} (l : list A) : has_dup l = false -> NoDup l.
Proof. induction l as [|x l IH]; cbn [has_dup]; [constructor|]. rewrite orb_false_iff, bool_decide_eq_false. intros [Hx Hl]. constructor; auto. Qed.

Lemma map_result_each {A B} (f : A -> result B) (P : B -> Prop) l k : (forall a b, f a = Ok b -> P b) -> map_result f l = Ok k -> Forall P k.
Proof. intros Hf. rewrite map_result_Ok. induction 1; constructor; eauto. Qed.

Record mount_ok (volumes : list pystr) (m : mount_spec) : Prop := MountOk {
  mo_source : m_source m ∈ volumes;
  mo_target : guest_path (m_target m) = Ok (m_target m);
  mo_reserved : reserved_guest_path (m_target m) = false }.

Definition port_ok (p : port_spec) : Prop :=
  1 <= ps_host_port p <= 65535 /\ 1 <= ps_guest_port p <= 65535 /\ ps_protocol p = TCP /\ exists raw, ip_address raw = Some (ps_host_ip p).

Record service_ok (networks volumes : list pystr) (name : pystr) (s : service_spec) : Prop := ServiceOk {
  so_name : sv_name s = name;
  so_root : is_Some (sv_image s) <-> sv_bundle s = None;
  so_layers : (length (sv_layers s) <= 25)%nat /\ NoDup (sv_layers s);
  so_memory : 256 <= sv_memory_mib s <= 1048576;
  so_vcpus : 1 <= sv_vcpus s <= 256;
  so_networks : exists n, sv_networks s = [n] /\ n ∈ networks;
  so_mounts : Forall (mount_ok volumes) (sv_volumes s) /\ NoDup (map m_target (sv_volumes s));
  so_ports : Forall port_ok (sv_ports s) /\ NoDup (map ps_guest_port (sv_ports s));
  so_environment : NoDup (map fst (sv_environment s)) /\ Forall (fun kt => fullmatch env_key_re kt.1 = true) (sv_environment s) /\
    Forall (fun kt => is_sensitive_key kt.1 = true -> is_external_secret_reference kt.2 = true) (sv_environment s);
  so_depends : NoDup (sv_depends_on s) }.

Section services.
Context `{Hash} `{UnicodeDB}.
Variable fs : project_fs.
Variable environment : option variables.

Lemma string_of_text s nonempty t : string_of (YStr false s) nonempty = Ok t -> t = (false, s).
Proof. unfold string_of. intros E. passed E G1. passed E G2. passed E G3. by apply (inj Ok) in E. Qed.

Lemma guest_path_ok raw p : guest_path raw = Ok p -> p = raw.
Proof. intros E. unfold guest_path in E. call E t. passed E G1. cbv zeta in E. passed E G2. passed E G3. apply (inj Ok) in E. bool_norm. congruence. Qed.

Lemma checked_name_ok s n : checked_name s = Ok n -> n = s /\ fullmatch name_re n = true.
Proof. unfold checked_name. intros E. call E t as Et. apply string_of_text in Et as ->. cbn [snd] in E. passed E G. bool_norm. apply (inj Ok) in E. by subst n. Qed.

Lemma parse_mount_ok volumes raw m : parse_mount environment volumes raw = Ok m -> mount_ok volumes m.
Proof.
  unfold parse_mount. intros E. call E parts. destruct parts as [[[is_volume source] target] read_only]. call E guest_target as Et. passed E G.
  destruct is_volume; [|done]. call E volume_name as En. passed E G'. apply (inj Ok) in E. subst m. bool_norm. pose proof (guest_path_ok _ _ Et) as ->. by split.
Qed.

Lemma port_number_ok v n : port_number v = Ok n -> 1 <= n <= 65535.
Proof. unfold port_number. intros E. call E v'. destruct v'; try done. passed E G. apply (inj Ok) in E. subst n. bool_norm. lia. Qed.

Lemma parse_port_ok raw p : parse_port environment raw = Ok p -> port_ok p.
Proof.
  unfold parse_port. intros E. call E parts. destruct parts as [[[published target] protocol] host_ip]. passed E G. call E host_port as Eh.
  call E guest_port as Eg. call E ip as Ei. apply (inj Ok) in E. subst p. unfold port_ok. cbn [ps_host_port ps_guest_port ps_protocol ps_host_ip].
  split; [by eapply port_number_ok|]. split; [by eapply port_number_ok|]. split; [done|]. unfold normalize_host_ip in Ei. call Ei t.
  destruct (ip_address t.2) as [a|] eqn:Ea; [|done]. apply (inj Ok) in Ei. subst a. eauto.
Qed.

Definition variable_ok (kt : pystr * template) : Prop :=
  fullmatch env_key_re kt.1 = true /\ (is_sensitive_key kt.1 = true -> is_external_secret_reference kt.2 = true) /\ validate_template kt.2 None = Ok tt.

Lemma checked_variable_ok key t : checked_variable key t = Ok tt ->
  (is_sensitive_key key = true -> is_external_secret_reference t = true) /\ validate_template t None = Ok tt.
Proof.
  unfold checked_variable. intros E. call E v as Ev. destruct v. passed E G. split; [|done]. intros Hk. rewrite Hk in G. by apply negb_false_iff in G.
Qed.

Lemma check_variables_ok pairs : forall seen d, NoDup (map fst seen) -> Forall variable_ok seen -> check_variables seen pairs = Ok d -> NoDup (map fst d) /\ Forall variable_ok d.
Proof.
  induction pairs as [|[key t] pairs IH]; intros seen d Hn Hf; cbn [check_variables]; [intros E; apply (inj Ok) in E; by subst d|].
  intros E. passed E G1. passed E G2. call E v as Ev. destruct v. bool_norm. apply checked_variable_ok in Ev as [Hs Hv]. apply (IH (seen ++ [(key, t)])); [| |exact E].
  - rewrite map_app. apply NoDup_app. split; [done|]. split; [intros x Hx ->%list_elem_of_singleton; done|apply NoDup_singleton].
  - apply Forall_app. split; [done|]. constructor; [by split|constructor].
Qed.

Lemma sorted_keys_permutation {A} (d : list (pystr * A)) : sorted_keys d ≡ₚ d.
Proof. apply merge_sort_Permutation. Qed.

Lemma parse_environment_ok v d : parse_environment v = Ok d -> NoDup (map fst d) /\ Forall variable_ok d.
Proof.
  unfold parse_environment. intros E. call E pairs. call E checked as Ec. apply (inj Ok) in E. subst d.
  apply check_variables_ok in Ec as [Hn Hf]; [|constructor|constructor]. by rewrite sorted_keys_permutation.
Qed.

Lemma memory_mib_ok v lo hi n : memory_mib v lo hi = Ok n -> lo <= n <= hi.
Proof. unfold memory_mib. intros E. call E m. passed E G. apply (inj Ok) in E. subst m. bool_norm. lia. Qed.

Lemma parse_vcpus_ok v n : parse_vcpus environment v = Ok n -> 1 <= n <= 256.
Proof. unfold parse_vcpus. intros E. call E v'. destruct v'; try done. passed E G. apply (inj Ok) in E. subst n. bool_norm. lia. Qed.

Lemma parse_root_ok config image bundle : parse_root fs environment config = Ok (image, bundle) -> is_Some image <-> bundle = None.
Proof.
  unfold parse_root. intros E. destruct (has_key config "image"); call E s; call E r; apply (inj Ok) in E; simplify_eq; split; try done.
Qed.

Lemma parse_service_networks_ok networks v l : parse_service_networks environment networks v = Ok l -> exists n, l = [n] /\ n ∈ networks.
Proof.
  unfold parse_service_networks. intros E. call E raw. call E attached. passed E G1. passed E G2. call E us as Eu.
  apply (inj Ok) in E. subst attached. bool_norm. destruct l as [|n [|n' l]]; [done| |unfold zlen in *; cbn [length] in *; lia]. exists n. split; [done|].
  cbn [map_result] in Eu. call Eu x as Ex. call Ex nm. passed Ex G. by bool_norm.
Qed.

Lemma parse_service_ok name raw networks volumes s : parse_service fs environment name raw networks volumes = Ok s -> service_ok networks volumes name s.
Proof.
  unfold parse_service. intros E. call E config. call E keys. passed E G1. call E root as Er. destruct root as [image bundle].
  call E raw_layers. call E layers. passed E Gl. passed E Gd. call E raw_memory. call E memory as Em.
  call E vcpus as Ev. call E attached as Ea. call E raw_mounts. call E mounts as Emo. passed E Gm.
  call E raw_ports. call E ports as Ep. passed E Gp. call E env_files. call E cloud_init.
  call E raw_depends. call E depends_on. passed E Gdep. call E env as Ee. apply (inj Ok) in E. subst s. bool_norm.
  apply parse_environment_ok in Ee as [Hn Hf]. pose proof (map_result_each _ _ _ _ parse_port_ok Ep) as Hports.
  split; cbn [sv_name sv_image sv_bundle sv_layers sv_memory_mib sv_vcpus sv_networks sv_volumes sv_ports sv_environment sv_depends_on]; try done.
  - by eapply parse_root_ok.
  - split; [unfold zlen in *; lia|by apply has_dup_false].
  - by eapply memory_mib_ok.
  - by eapply parse_vcpus_ok.
  - by eapply parse_service_networks_ok.
  - split; [by eapply map_result_each; [apply parse_mount_ok|]|by apply has_dup_false].
  - split; [done|]. apply has_dup_false in Gp. clear -Hports Gp. induction ports as [|p ports IH]; [constructor|]. apply Forall_cons in Hports as [Hp Hports]. cbn [map] in *.
    apply NoDup_cons in Gp as [Gp Gps]. constructor; [|by apply IH]. intros (q & Eq & Hq)%list_elem_of_fmap. apply Gp, list_elem_of_fmap. exists q. split; [|done].
    rewrite Forall_forall in Hports. destruct Hp as (_ & _ & -> & _), (Hports q Hq) as (_ & _ & -> & _). by rewrite Eq.
  - split; [done|]. split; eapply Forall_impl; try exact Hf; intros kt Hkt; apply Hkt.
  - by apply has_dup_false.
Qed.
End services.
