(* ===== verification/ProjectPayload.v ===== *)
(** What leaves a project ([project.py]): its canonical payload, which holds
    templates and no secrets, and the environments and cloud-init resolved for
    execution. *)
From S2P Require Import Prelude Crypto PyStr PyText PyVal Utf8 Json Regex Digest Network Names Yaml Template ProjectFiles ProjectGraph ProjectDoc.

(** * The canonical payload *)

Definition opt_text (o : option pystr) : yval := match o with Some s => YStr false s | None => YNull end.
Definition texts_of (l : list pystr) : yval := YList (map (YStr false) l).
Definition templates_of (l : list template) : yval := YList (map of_template l).

Definition driver_text (d : network_driver) : string := match d with DNat => "nat" | DBridge => "bridge" | DIsolated => "isolated" end.
Definition network_payload (n : network_spec) : yval :=
  YMap [(u "driver", text (driver_text (n_driver n))); (u "external", YBool (n_external n)); (u "name", opt_text (n_external_name n))].
Definition volume_payload (v : volume_spec) : yval :=
  YMap [(u "driver", text "block"); (u "external", YBool (v_external v)); (u "name", opt_text (v_external_name v)); (u "size_mib", YInt (v_size_mib v))].
Definition mount_payload (m : mount_spec) : yval :=
  YMap [(u "read_only", YBool (m_read_only m)); (u "source", YStr false (m_source m)); (u "target", YStr false (m_target m)); (u "type", text "volume")].
Definition protocol_text (p : port_protocol) : string := match p with TCP => "tcp" | UDP => "udp" end.
Definition port_payload (p : port_spec) : yval :=
  YMap [(u "guest_port", YInt (ps_guest_port p)); (u "host_ip", YStr false (ps_host_ip p)); (u "host_port", YInt (ps_host_port p));
        (u "protocol", text (protocol_text (ps_protocol p)))].
Definition write_file_payload (w : write_file) : yval :=
  YMap [(u "content", of_template (wf_content w)); (u "path", YStr false (wf_path w)); (u "permissions", YStr false (wf_permissions w))].
Definition cloud_init_payload (c : cloud_init_spec) : yval :=
  YMap [(u "packages", templates_of (ci_packages c)); (u "runcmd", YList (map templates_of (ci_runcmd c)));
        (u "source", opt_text (option_map f_reference (ci_source c))); (u "write_files", YList (map write_file_payload (ci_write_files c)))].

(** [service_payload] *)
Definition service_payload (s : service_spec) : yval :=
  YMap [(u "bundle", opt_text (option_map f_reference (sv_bundle s)));
        (u "cloud_init", match sv_cloud_init s with Some c => cloud_init_payload c | None => YNull end);
        (u "depends_on", texts_of (sv_depends_on s)); (u "env_file", texts_of (map f_reference (sv_env_files s)));
        (u "environment", YMap (map (fun kt => (kt.1, of_template kt.2)) (sv_environment s)));
        (u "image", opt_text (sv_image s)); (u "layers", texts_of (sv_layers s)); (u "memory_mib", YInt (sv_memory_mib s));
        (u "networks", texts_of (sv_networks s)); (u "ports", YList (map port_payload (sv_ports s))); (u "vcpus", YInt (sv_vcpus s));
        (u "volumes", YList (map mount_payload (sv_volumes s)))].

Definition payload_of (p : project) : yval :=
  YMap [(u "name", YStr false (pj_name p));
        (u "networks", YMap (map (fun kn => (kn.1, network_payload kn.2)) (pj_networks p)));
        (u "services", YMap (map (fun ks => (ks.1, service_payload ks.2)) (pj_services p)));
        (u "version", YStr false (pj_version p));
        (u "volumes", YMap (map (fun kv => (kv.1, volume_payload kv.2)) (pj_volumes p)))].

(** The value as [json.dumps] writes it *)
Fixpoint json_of (v : yval) : pyval :=
  match v with
  | YNull => VNone
  | YBool b => VBool b
  | YInt z => VInt z
  | YStr _ s => VStr s
  | YList l => VList (map json_of l)
  | YMap d => VDict (map (fun kv => (kv.1, json_of kv.2)) d)
  end.

(** The first error of a sequence of checks *)
Fixpoint each {A} (f : A -> result unit) (l : list A) : result unit :=
  match l with [] => Ok tt | x :: l => let? _ := f x in each f l end.

Section payload.
Context `{Hash} `{UnicodeDB}.

(** [_assert_state_safe] *)
Fixpoint assert_state_safe (key : option pystr) (v : yval) : result unit :=
  match v with
  | YMap d => each (fun kv => assert_state_safe (Some kv.1) kv.2) d
  | YList l => each (assert_state_safe key) l
  | YStr literal s =>
      let? _ := reject_secret_value s in
      raise "secret-shaped field cannot be serialized into project state"
        when match key with Some k => is_sensitive_key k && negb (is_external_secret_reference (literal, s)) | None => false end ;;
      Ok tt
  | _ => Ok tt
  end.

(** [canonical_project_payload], [canonical_project_json], [project_config_digest] *)
Definition canonical_project_payload (p : project) : result yval :=
  let? _ := assert_state_safe None (payload_of p) in Ok (payload_of p).
Definition canonical_project_json (p : project) : result pystr :=
  let? payload := canonical_project_payload p in
  match dumps (json_of payload) with Some s => Ok (s ++ [10]) | None => Err "ValueError" end.
Definition project_config_digest (p : project) : result pystr :=
  let? s := canonical_project_json p in
  match utf8_encode s with Some b => Ok (digest_text b) | None => Err "UnicodeEncodeError" end.

(** * Resolution for execution *)

(** Each template in the scope of what was resolved before it *)
Fixpoint resolve_in_order (scope : list (pystr * pystr) -> variables) (resolved : list (pystr * pystr)) (templates : list (pystr * template)) : result (list (pystr * pystr)) :=
  match templates with
  | [] => Ok resolved
  | (key, t) :: templates =>
      let? value := interpolate t (scope resolved) in
      resolve_in_order scope (item_set resolved key value) templates
  end.

(** The files in order, each read when its turn comes *)
Fixpoint resolve_files (fs : project_fs) (scope : list (pystr * pystr) -> variables) (resolved : list (pystr * pystr)) (files : list project_file) : result (list (pystr * pystr)) :=
  match files with
  | [] => Ok resolved
  | f :: files =>
      let? templates := read_env_file_templates fs f in
      let? resolved := resolve_in_order scope resolved templates in
      resolve_files fs scope resolved files
  end.

Definition update (resolved more : list (pystr * pystr)) : list (pystr * pystr) := fold_left (fun d kv => item_set d kv.1 kv.2) more resolved.

(** [resolve_service_environment] *)
Definition resolve_service_environment (fs : project_fs) (s : service_spec) (environment : variables) : result (list (pystr * pystr)) :=
  let? resolved := resolve_files fs (scope_over environment) [] (sv_env_files s) in
  let? inline := map_result (fun kt => let? v := interpolate kt.2 (scope_over environment resolved) in Ok (kt.1, v)) (sv_environment s) in
  Ok (update resolved inline).

(** The files named for interpolation, checked and read one after the other *)
Fixpoint interpolation_files (fs : project_fs) (scope : list (pystr * pystr) -> variables) (resolved : list (pystr * pystr)) (names : list pystr) : result (list (pystr * pystr)) :=
  match names with
  | [] => Ok resolved
  | name :: names =>
      let? f := safe_project_path fs name KFile (Some MAX_ENV_FILE_BYTES) in
      let? templates := read_env_file_templates fs f in
      let? resolved := resolve_in_order scope resolved templates in
      interpolation_files fs scope resolved names
  end.

(** [load_interpolation_environment]; [base] has each name once *)
Definition load_interpolation_environment (fs : project_fs) (files : list pystr) (base : list (pystr * pystr)) : result (list (pystr * pystr)) :=
  let scope := fun resolved => scope_over (fun k => item_get resolved k) base in
  let? resolved := interpolation_files fs scope [] files in
  Ok (update resolved base).

(** What is resolved is an ordinary string, whether its template was literal or not. *)
Definition resolve_template (environment : variables) (t : template) : result template := result_map (pair false) (interpolate t environment).

(** [resolve_cloud_init] *)
Definition resolve_cloud_init (c : cloud_init_spec) (environment : variables) : result cloud_init_spec :=
  let? packages := map_result (resolve_template environment) (ci_packages c) in
  raise "resolved cloud_init package is invalid" when negb (forallb (fun t => fullmatch package_re t.2) packages) ;;
  raise "resolved cloud_init packages cannot contain duplicates" when has_dup (map snd packages) ;;
  let? files := map_result (fun w => let? content := resolve_template environment (wf_content w) in Ok (WriteFile (wf_path w) content (wf_permissions w))) (ci_write_files c) in
  let? sizes := map_result (fun w => encoded_size (wf_content w).2) files in
  raise "resolved cloud_init content exceeds 64 KiB" when existsb (fun n => 64 * 1024 <? n) sizes ;;
  let? commands := map_result (map_result (resolve_template environment)) (ci_runcmd c) in
  raise "resolved cloud_init executable cannot be empty" when existsb (fun command => match command with t :: _ => bool_decide (t.2 = []) | [] => false end) commands ;;
  Ok (CloudInit packages files commands (ci_source c)).
End payload.
