(* ===== verification/ProjectDocTheorems.v ===== *)
(** The properties of project files: interpolation, the validated project, names
    of machines, the canonical payload. *)
From S2P Require Import Prelude Crypto Sha256 PyStr PyText PyVal Utf8 Json Regex Digest Network Names NamesFacts Yaml YamlFacts Template TemplateFacts ProjectFiles ProjectGraph ProjectTheorems ProjectDoc ProjectFacts ProjectPayload.

(** * The graph of the services does not depend on their order *)

Lemma service_of_perm l k name : NoDup (names l) -> l ≡ₚ k -> service_of l name = service_of k name.
Proof.
  intros Hn Hp. assert (NoDup (names k)) as Hn' by (unfold names in *; by rewrite <- Hp).
  destruct (service_of l name) as [s|] eqn:E.
  - symmetry. apply service_of_Some; [done|]. apply service_of_Some in E; [|done]. by rewrite <- Hp.
  - symmetry. apply service_of_None. apply service_of_None in E. unfold names in *. by rewrite <- Hp.
Qed.

Section order.
Variables l k : services_map.
Hypothesis Hl : NoDup (names l).
Hypothesis Hp : l ≡ₚ k.

Lemma names_perm : names l ≡ₚ names k.
Proof using Hp. unfold names. by rewrite Hp. Qed.

Lemma sorted_names_perm : sorted (names l) = sorted (names k).
Proof using Hp. apply sorted_unique. apply names_perm. Qed.

Lemma dep_perm x y : dep l x y <-> dep k x y.
Proof using Hl Hp. unfold dep, deps_of. by rewrite (service_of_perm l k x). Qed.

Lemma tc_perm x y : tc (dep k) x y -> tc (dep l) x y.
Proof using Hl Hp. induction 1 as [x y H|x y z H _ IH]; [apply tc_once; by apply dep_perm|]. eapply tc_l; [by apply dep_perm|done]. Qed.

Lemma dependencies_perm : validate_dependencies l = Ok tt -> validate_dependencies k = Ok tt.
Proof using Hl Hp.
  assert (NoDup (names k)) as Hk by (by rewrite <- names_perm). rewrite !dependencies_accepted_iff by done. intros [Hr Ha]. split.
  - intros x d Hd. apply dep_perm in Hd. rewrite <- names_perm. by apply Hr.
  - intros x Hx. by apply (Ha x), tc_perm.
Qed.

Lemma host_ports_perm : validate_host_port_collisions l = validate_host_port_collisions k.
Proof using Hl Hp.
  unfold validate_host_port_collisions, project_ports. rewrite sorted_names_perm. f_equal. f_equal. apply flat_map_ext. intros name. by rewrite (service_of_perm l k name).
Qed.
End order.

(** * The document *)

Lemma distinct_get d key : distinct (YMap d) -> distinct (get_default d key YNull).
Proof.
  intros [_ Hd]%distinct_map. unfold get_default. destruct (item_get d (u key)) as [v|] eqn:E; [|done]. apply item_get_Some in E.
  rewrite Forall_forall in Hd. apply Hd. apply list_elem_of_fmap. by exists (u key, v).
Qed.

Record project_ok (p : project) : Prop := ProjectOk {
  po_name : machine_name (pj_name p);
  po_version : pj_version p = u "1";
  po_count : (1 <= length (pj_services p) <= 128)%nat;
  po_names : NoDup (map fst (pj_services p)) /\ Forall (fun ns => fullmatch name_re ns.1 = true) (pj_services p);
  po_services : Forall (fun ns => service_ok (map fst (pj_networks p)) (map fst (pj_volumes p)) ns.1 ns.2) (pj_services p);
  po_network : u "default" ∈ map fst (pj_networks p);
  po_dependencies : validate_dependencies (graph_of (pj_services p)) = Ok tt;
  po_ports : validate_host_port_collisions (graph_of (pj_services p)) = Ok tt }.

Section document.
Context `{Hash} `{UnicodeDB}.
Variable fs : project_fs.
Variable environment : option variables.

Lemma parse_services_ok networks volumes raw services : parse_services fs environment networks volumes raw = Ok services ->
  map fst services = map fst raw /\ Forall (fun ns => fullmatch name_re ns.1 = true) services /\ Forall (fun ns => service_ok networks volumes ns.1 ns.2) services.
Proof.
  unfold parse_services. rewrite map_result_Ok. induction 1 as [|[n v] ns raw services E _ (IH1 & IH2 & IH3)]; [done|]. cbn [fst snd] in E.
  call E name as En. call E s as Es. apply (inj Ok) in E. subst ns. apply checked_name_ok in En as [-> Hn]. cbn [map fst]. split; [by rewrite IH1|].
  split; (constructor; [|done]); [done|]. cbn [fst snd]. by eapply parse_service_ok.
Qed.

Lemma default_network v networks : parse_networks environment v = Ok networks -> u "default" ∈ map fst networks.
Proof.
  unfold parse_networks. intros E. call E raw. call E l. apply (inj Ok) in E. case_bool_decide as Hd; subst networks; [done|].
  rewrite map_app. apply elem_of_app. right. by apply list_elem_of_singleton.
Qed.

Lemma graph_of_names services : names (graph_of services) = map fst services.
Proof. unfold names, graph_of. by rewrite map_map. Qed.

Lemma parse_document_ok directory_name directory document p : distinct document ->
  parse_project_document fs environment directory_name directory document = Ok p -> project_ok p.
Proof.
  intros Hd. unfold parse_project_document. intros E. call E root as Er. destruct document as [| | | | |d]; try done. apply (inj Ok) in Er. subst root.
  call E keys. passed E G1. call E version as Ev. call E declared. call E name as En. call E networks as Enet. call E volumes. call E raw_services as Eraw.
  passed E G2. passed E G3. call E services as Es. call E deps as Edeps. call E ports as Eports. apply (inj Ok) in E. subst p. destruct deps, ports.
  apply parse_services_ok in Es as (Ekeys & Hnames & Hok). pose proof (distinct_get d "services" Hd) as Hds.
  destruct (get_default d "services" YNull) as [| | | | |sd]; try done. apply (inj Ok) in Eraw. subst raw_services. apply distinct_map in Hds as [Hds _]. rewrite <- Ekeys in Hds.
  assert (graph_of services ≡ₚ graph_of (sorted_keys services)) as Hg. { unfold graph_of. by rewrite (sorted_keys_permutation services). }
  assert (NoDup (names (graph_of services))) as Hgn by (by rewrite graph_of_names).
  assert (length services = length sd) as El by (by rewrite <- (length_map fst services), Ekeys, length_map).
  split; cbn [pj_name pj_version pj_services pj_networks pj_volumes].
  - unfold deterministic_project_name in En. destruct declared; [call En nm|]; by eapply runtime_slug_ok.
  - unfold parse_version in Ev. call Ev s. passed Ev G. apply (inj Ok) in Ev. by bool_norm; subst.
  - rewrite (Permutation_length (sorted_keys_permutation services)), El. bool_norm. unfold zlen in *. lia.
  - rewrite (sorted_keys_permutation services). done.
  - rewrite (sorted_keys_permutation services). eapply Forall_impl; [exact Hok|]. intros [n s] Hs. cbn [fst snd] in *.
    destruct Hs as [? ? ? ? ? (net & ? & Hnet) [Hm ?] ? ? ?]. split; try done; [exists net; split; [done|]|split; [|done]].
    + by rewrite (sorted_keys_permutation networks).
    + eapply Forall_impl; [exact Hm|]. intros m []. split; try done. by rewrite (sorted_keys_permutation volumes).
  - rewrite (sorted_keys_permutation networks). by eapply default_network.
  - by eapply dependencies_perm.
  - by rewrite <- (host_ports_perm _ _ Hgn Hg).
Qed.
End document.

(** * The properties *)

Definition rejected_controls (out : pystr) : result pystr :=
  raise "interpolation result contains a control character" when bool_decide (0 ∈ out) || bool_decide (13 ∈ out) ;;
  raise "interpolation result must be valid UTF-8" when negb (encodable out) ;;
  Ok out.

(** C31: A double-quoted or plain template either is a sequence of characters,
    escaped dollars and well-formed expressions, and then its value is the
    concatenation of theirs, up to the first expression without a value; or it is
    rejected, by [interpolation_variables] and by [interpolate] in any environment.
    The variables reported are those of its expressions, each once, and the value
    depends on no others. *)
Theorem interpolation_spec (s : pystr) : match interpolation_variables (false, s) with
  | Ok names =>
      NoDup names /\
      (exists ps, Forall wf_piece ps /\ s = template_text ps /\ (forall x, x ∈ names <-> x ∈ flat_map piece_names ps) /\
        forall env, interpolate (false, s) env = let? out := evaluate env ps in rejected_controls out) /\
      forall env env', (forall x, x ∈ names -> env x = env' x) -> interpolate (false, s) env = interpolate (false, s) env'
  | Err e => e <> RECURSION /\ forall env, exists e', interpolate (false, s) env = Err e' /\ e' <> RECURSION
  end.
Proof.
  unfold interpolation_variables, interpolate. cbn [fst snd]. pose proof (loops_agree (S (length s)) s ltac:(lia)) as Ha.
  destruct (variables_from (S (length s)) s) as [names|e]; cbn [result_map result_bind agree] in *.
  - destruct Ha as (ps & Hps & E & En & Hv). assert (forall x, x ∈ dedupe [] names <-> x ∈ flat_map piece_names ps) as Hx.
    { intros x. rewrite elem_of_dedupe, En. split; [by intros [? _]|]. split; [done|apply not_elem_of_nil]. }
    split; [apply NoDup_dedupe|]. split; [exists ps; repeat (split; [done|]); intros env; by rewrite Hv|].
    intros env env' He. rewrite !Hv. rewrite (evaluate_local env env' ps); [done|]. intros x Hx'. by apply He, Hx.
  - destruct Ha as [He Hv]. split; [done|]. intros env. destruct (Hv env) as (e' & -> & He'). by exists e'.
Qed.

Section properties.
Context `{Hash} `{UnicodeDB}.

(** C24: A project that is accepted from the text of its file is well formed: its
    name is one of machines, its services have distinct names of the pattern,
    every service has one root, memory, processors and ports in range, one
    network and only volumes that the project defines, distinct mount targets that
    are normalized and not reserved, distinct guest ports on literal addresses,
    valid environment names whose secret-shaped ones are only references; and its
    services, in the order they are kept, pass the checks of dependencies and of
    host ports. *)
Theorem project_well_formed fs environment directory_name directory source p :
  parse_project_text fs environment directory_name directory source = Ok p -> project_ok p.
Proof.
  unfold parse_project_text. intros E. call E document as Ed. pose proof Ed as Hb. unfold parse_yaml_subset in Ed.
  assert (distinct document) as Hd.
  { clear -Hb. unfold parse_yaml_subset in Hb. destruct (utf8_encode source); [|done]. passed Hb G1. passed Hb G2. call Hb lines.
    pose proof (parse_lines_ok (splitlines source) lines) as Hl. rewrite Hb in Hl. apply Hl. }
  by eapply parse_document_ok.
Qed.

(** The name of every machine is one to 63 lower-case letters, digits and
    dashes, with no dash at its ends; a raw name that is already so is kept, and only a
    collision key that has no UTF-8 encoding is refused. *)
Theorem machine_names_safe raw key : 
  (forall s, runtime_slug raw key = Ok s -> machine_name s) /\
  (machine_name raw -> runtime_slug raw key = Ok raw) /\
  (is_Some (utf8_encode key) -> is_ok (runtime_slug raw key) = true).
Proof.
  split; [apply runtime_slug_ok|]. split; [apply runtime_slug_id|]. intros [k Hk]. unfold runtime_slug. cbv zeta. rewrite Hk. by destruct (_ || _).
Qed.

(** The texts that a value holds, each with the key it is under *)
Inductive holds : option pystr -> yval -> option pystr -> template -> Prop :=
| HoldsText key literal s : holds key (YStr literal s) key (literal, s)
| HoldsItem key l v key' t : v ∈ l -> holds key v key' t -> holds key (YList l) key' t
| HoldsEntry key d k v key' t : (k, v) ∈ d -> holds (Some k) v key' t -> holds key (YMap d) key' t.

Definition safe_text (key : option pystr) (t : template) : Prop :=
  secret_value t.2 = false /\ forall k, key = Some k -> is_sensitive_key k = true -> is_external_secret_reference t = true.

Lemma each_Ok {A} (f : A -> result unit) l : each f l = Ok tt <-> Forall (fun x => f x = Ok tt) l.
Proof.
  induction l as [|x l IH]; cbn [each]; [split; [constructor|done]|]. rewrite Forall_cons, <- IH, result_bind_Ok. split.
  - intros ([] & ? & ?). done.
  - intros [? ?]. by exists tt.
Qed.

Lemma assert_state_safe_ok v : forall key, assert_state_safe key v = Ok tt <-> forall key' t, holds key v key' t -> safe_text key' t.
Proof.
  revert v. fix IH 1. intros v key. destruct v as [|b|z|literal s|l|d]; cbn [assert_state_safe]; try (split; [intros _ key' t Ht; inversion Ht|done]).
  - unfold reject_secret_value. split.
    + intros E key' t Ht. inversion Ht; subst; clear Ht. destruct (secret_value s) eqn:Gs; [done|]. split; [done|].
      intros k -> Hk. cbn [result_bind] in E. rewrite Hk in E. cbn [andb] in E. passed E G. by apply negb_false_iff in G.
    + intros Hh. destruct (Hh key (literal, s) (HoldsText _ _ _)) as [Hs Hk]. cbn [snd] in Hs. rewrite Hs. cbn [result_bind].
      destruct key as [k|]; [|done]. destruct (is_sensitive_key k) eqn:G; [|done]. by rewrite (Hk k eq_refl G).
  - rewrite each_Ok. transitivity (Forall (fun v => forall key' t, holds key v key' t -> safe_text key' t) l).
    + induction l as [|w l IHl]; [done|]. by rewrite !Forall_cons, IHl, IH.
    + rewrite Forall_forall. split; [intros Hf key' t Ht; inversion Ht; subst; by eapply Hf|]. intros Hh w Hw key' t Ht. eapply Hh. by eapply HoldsItem.
  - rewrite each_Ok. transitivity (Forall (fun kv => forall key' t, holds (Some kv.1) kv.2 key' t -> safe_text key' t) d).
    + induction d as [|[k w] d IHd]; [done|]. by rewrite !Forall_cons, IHd, IH.
    + rewrite Forall_forall. split; [intros Hf key' t Ht; inversion Ht as [| |? ? k w ? ? Hin Hw]; subst; by eapply (Hf (k, w))|].
      intros Hh [k w] Hw key' t Ht. eapply Hh. by eapply HoldsEntry.
Qed.

(** C37: The canonical payload of a project is given out exactly when it is safe to
    store: no text in it is shaped like a secret, and a text under a secret-shaped
    key is a reference to a variable that must be set, without a default. *)
Theorem canonical_payload_safe p v :
  canonical_project_payload p = Ok v <-> v = payload_of p /\ forall key t, holds None v key t -> safe_text key t.
Proof.
  unfold canonical_project_payload. rewrite result_bind_Ok. split.
  - intros ([] & Hs & E). apply (inj Ok) in E. subst v. split; [done|]. by apply assert_state_safe_ok.
  - intros [-> Hs]. exists tt. split; [|done]. by apply assert_state_safe_ok.
Qed.
End properties.

(** * A concrete project *)

#[local] Existing Instance Sha256.sha256_hash.
#[local] Instance ascii_words : UnicodeDB := fun _ => false.

Definition ex_source : pystr :=
  join [10] (map u
    ["name: shop";
     "services:";
     "  web: # the front";
     "    bundle: 'app'";
     "    memory: 512MiB";
     "    ports: ['0.0.0.0:8080:80']";
     "    depends_on: [db]";
     "    environment:";
     "      DB_TOKEN: ${DB_TOKEN:?set}";
     "  db:";
     "    bundle: ${DB:-app}";
     "    volumes:";
     "      - data:/var/lib/db:rw";
     "volumes:";
     "  data: {size: 2GiB}"]).

Definition ex_files : project_fs := fun path => if bool_decide (path = [u "app"]) then Some NDirectory else None.
Definition ex_project : result project := parse_project_text ex_files (Some no_variables) (u "shop") (u "/srv/shop") ex_source.

Lemma ex_project_accepted : is_ok ex_project = true.
Proof. by vm_compute. Qed.

Lemma project_well_formed_witness : exists p, ex_project = Ok p /\ project_ok p.
Proof.
  destruct ex_project as [p|e] eqn:E; [|pose proof ex_project_accepted as Ha; rewrite E in Ha; discriminate Ha].
  exists p. split; [done|]. apply (project_well_formed ex_files (Some no_variables) (u "shop") (u "/srv/shop") ex_source). exact E.
Defined.
