(* ===== verification/ExecRecord.v ===== *)
(** The artifacts of a durable exec record ([oci_exec_record.py]): the values of
    its three files, their encoding and the checks of its reader. *)
From S2P Require Import Prelude Crypto PyStr PyVal Utf8 Json Digest ExecControl ControlV2Wire ControlV2Codec ExecSession.

Definition SCHEMA : pystr := u "palimpsest.oci-exec-record".
Definition VERSION : Z := 1.
Definition MAX_ARTIFACT_BYTES : Z := 4096.
Definition MAX_JSON_DEPTH : Z := 8.
Definition MAX_JSON_NODES : Z := 64.
Definition MAX_INTEGER_DIGITS : Z := 20.

(** [_PHASES], [_FINAL_NAMES] *)
Inductive phase := Pending | Observed | Confirmed.
#[export] Instance phase_eq_dec : EqDecision phase.
Proof. solve_decision. Defined.
Definition PHASES : list phase := [Pending; Observed; Confirmed].
Definition phase_name (p : phase) : string := match p with Pending => "pending" | Observed => "observed" | Confirmed => "confirmed" end.
Definition phase_index (p : phase) : nat := match p with Pending => 0 | Observed => 1 | Confirmed => 2 end.
Definition final_name (p : phase) : pystr := u (phase_name p) ++ u ".json".
Definition FINAL_NAMES : list pystr := map final_name PHASES.
(** [_PHASES[: _PHASES.index(phase)]] *)
Definition predecessors (p : phase) : list phase := take (phase_index p) PHASES.

Definition GUIDANCE : pystr :=
  u "Local historical metadata only; it grants no run or monitor authority and is not proof that replay is safe.".

(** [_validate_record_id]: the text of a random (version 4) UUID as [str] writes it *)
Definition rfc4122_v4 (s : pystr) : bool :=
  bool_decide (nth 14 s 0 = 52) && bool_decide (nth 19 s 0 ∈ u "89ab").
Definition validate_record_id (value : pyval) : result pystr :=
  let invalid := "record ID is invalid" in
  match value with
  | VStr s =>
      raise invalid when negb (zlen s =? 36) ;;
      raise invalid when negb (bool_decide (uuid_str s = Some s)) || negb (rfc4122_v4 s) ;;
      Ok s
  | _ => Err invalid
  end.

(** * Results and observations *)

(** [ProcessExitCategory] *)
Inductive exit_category := EXITED | SIGNALED | CANCELLED | TRANSPORT_ERROR.
#[export] Instance exit_category_eq_dec : EqDecision exit_category.
Proof. solve_decision. Defined.
Definition category_name (c : exit_category) : string :=
  match c with EXITED => "exited" | SIGNALED => "signaled" | CANCELLED => "cancelled" | TRANSPORT_ERROR => "transport-error" end.
Definition category_of (s : pystr) : option exit_category :=
  List.find (fun c => bool_decide (s = u (category_name c))) [EXITED; SIGNALED; CANCELLED; TRANSPORT_ERROR].

(** [ProcessExit.__post_init__] *)
Definition process_exit_check (p : process_exit) (category : exit_category) : result unit :=
  if 0 <=? pe_returncode p then
    raise "exited process result has inconsistent fields"
      when negb (bool_decide (pe_exit_code p = Some (pe_returncode p))) || negb (bool_decide (pe_signal p = None)) ;;
    raise "exited process result has an invalid category" when negb (bool_decide (category ∈ [EXITED; CANCELLED; TRANSPORT_ERROR])) ;;
    Ok tt
  else
    raise "signaled process result has inconsistent fields"
      when negb (bool_decide (pe_exit_code p = None)) || negb (bool_decide (pe_signal p = Some (- pe_returncode p))) ;;
    raise "signaled process result has an invalid category" when negb (bool_decide (category ∈ [SIGNALED; CANCELLED])) ;;
    Ok tt.

(** The category of a result an observation accepts. *)
Definition pe_category (p : process_exit) : exit_category := match pe_exit_code p with Some _ => EXITED | None => SIGNALED end.

(** [_validate_observation]: the constructors' checks, again *)
Definition validate_observation (o : observation) (confirmed : bool) : result observation :=
  raise "OCI exec record observation is invalid" when negb (Bool.eqb (ob_confirmed o) confirmed) ;;
  let? o := observation_init (ob_terminal o) (ob_reason o) (ob_stdout_bytes o) (ob_stderr_bytes o) (ob_confirmed o) in
  match ob_terminal o with
  | Some p => let? _ := process_exit_check p (pe_category p) in Ok o
  | None => Ok o
  end.

Definition acknowledgement_name (confirmed : bool) : pystr := u (if confirmed then "confirmed" else "unconfirmed").
Definition phase_confirmed (p : phase) : bool := bool_decide (p = Confirmed).

(** [_terminal_to_dict], [_observation_to_dict] *)
Definition terminal_value (t : option process_exit) : pyval :=
  match t with
  | None => VNone
  | Some p =>
      VDict [(u "returncode", VInt (pe_returncode p)); (u "exit_code", opt_int (pe_exit_code p));
             (u "signal_number", opt_int (pe_signal p)); (u "category", VStr (u (category_name (pe_category p))))]
  end.
Definition observation_value (o : observation) : pyval :=
  VDict [(u "terminal", terminal_value (ob_terminal o)); (u "reason", VStr (ob_reason o));
         (u "stdout_bytes", VInt (ob_stdout_bytes o)); (u "stderr_bytes", VInt (ob_stderr_bytes o));
         (u "acknowledgement", VStr (acknowledgement_name (ob_confirmed o)))].
Definition opt_observation_value (o : option observation) : pyval := match o with Some o => observation_value o | None => VNone end.

(** * Writing *)

(** [_artifact_dict] *)
Definition artifact_value (record_id : pystr) (p : phase) (o : option observation) : pyval :=
  VDict [(u "schema", VStr SCHEMA); (u "version", VInt VERSION); (u "record_id", VStr record_id);
         (u "phase", VStr (u (phase_name p))); (u "observation", opt_observation_value o)].
Definition artifact_dict (record_id : pystr) (p : phase) (o : option observation) : result pyval :=
  let? _ := validate_record_id (VStr record_id) in
  match p, o with
  | Pending, None => Ok (artifact_value record_id p None)
  | Pending, Some _ => Err "pending record cannot contain an observation"
  | _, None => Err "OCI exec record observation is invalid"
  | _, Some o =>
      let? o := validate_observation o (phase_confirmed p) in
      Ok (artifact_value record_id p (Some o))
  end.

(** [_encode_artifact]: the texts of a record are ASCII, so [ensure_ascii]
    changes nothing. *)
Definition encode_artifact (record_id : pystr) (p : phase) (o : option observation) : result bytes :=
  let? value := artifact_dict record_id p o in
  let? text := canonical_json_bytes value in
  let payload := text ++ [10] in
  raise "OCI exec record artifact is too large" when MAX_ARTIFACT_BYTES <? zlen payload ;;
  Ok payload.

(** * Reading *)

(** [_parse_integer], for every integer of a document.  (The reader of the model
    applies it after the document is read: which of the two refusals comes first
    does not show.) *)
Definition parse_integer (z : Z) : result Z :=
  raise "JSON integer is too large" when MAX_INTEGER_DIGITS <? zlen (digits (Z.abs z)) ;; Ok z.
Fixpoint integers (v : pyval) : list Z :=
  match v with
  | VInt z => [z]
  | VList l | VTuple l => flat_map integers l
  | VDict d => flat_map (fun kv => integers kv.2) d
  | _ => []
  end.

(** [_bound_json]: answers the number of values seen so far. *)
Fixpoint bound_json (depth : Z) (v : pyval) (count : Z) : result Z :=
  let count := count + 1 in
  raise "JSON structure is too large" when (MAX_JSON_DEPTH <? depth) || (MAX_JSON_NODES <? count) ;;
  match v with
  | VDict d =>
      (fix items d count :=
         match d with
         | [] => Ok count
         | (key, item) :: d =>
             raise "JSON key is invalid" when 64 <? zlen key ;;
             let? count := bound_json (depth + 1) item count in items d count
         end) d count
  | VList l =>
      (fix elems l count :=
         match l with
         | [] => Ok count
         | item :: l => let? count := bound_json (depth + 1) item count in elems l count
         end) l count
  | VStr s => raise "JSON string is too large" when 256 <? zlen s ;; Ok count
  | VNone | VInt _ | VBool _ => Ok count
  | VFloat _ | VTuple _ => Err "JSON scalar is invalid"
  end.

Definition is_int_or_none (v : pyval) : bool := match v with VNone | VInt _ => true | _ => false end.
Definition as_int (v : pyval) : option Z := match v with VInt z => Some z | _ => None end.

(** The terminal of [_decode_observation]: a [ProcessExit] and its category *)
Definition decode_terminal (v : pyval) : result (option (process_exit * exit_category)) :=
  match v with
  | VNone => Ok None
  | VDict d =>
      raise "terminal schema is invalid" when negb (has_exactly [u "returncode"; u "exit_code"; u "signal_number"; u "category"] d) ;;
      raise "terminal integer is invalid"
        when negb (is_int_or_none (d.["returncode"])) || negb (is_int_or_none (d.["exit_code"])) || negb (is_int_or_none (d.["signal_number"])) ;;
      match d.["category"] with
      | VStr name =>
          match category_of name, d.["returncode"] with
          | Some category, VInt code =>
              let p := ProcessExit code (as_int (d.["exit_code"])) (as_int (d.["signal_number"])) in
              let? _ := process_exit_check p category in Ok (Some (p, category))
          | Some _, _ => Err "process return code must be an integer"
          | None, _ => Err "ValueError"
          end
      | _ => Err "terminal category is invalid"
      end
  | _ => Err "terminal schema is invalid"
  end.

(** [_decode_observation].  The constructor of the observation refuses the other
    two categories. *)
Definition decode_observation (v : pyval) (confirmed : bool) : result observation :=
  match v with
  | VDict d =>
      raise "observation schema is invalid"
        when negb (has_exactly [u "terminal"; u "reason"; u "stdout_bytes"; u "stderr_bytes"; u "acknowledgement"] d) ;;
      raise "observation acknowledgement is invalid"
        when negb (py_eqb (d.["acknowledgement"]) (VStr (acknowledgement_name confirmed))) ;;
      let? terminal := decode_terminal (d.["terminal"]) in
      match d.["stdout_bytes"], d.["stderr_bytes"], d.["reason"] with
      | VInt out, VInt err, VStr reason =>
          raise "OCI exec completion observation terminal is invalid"
            when match terminal with Some (p, category) => negb (bool_decide (category = pe_category p)) | None => false end ;;
          let? o := observation_init (option_map fst terminal) reason out err confirmed in
          validate_observation o confirmed
      | VInt _, VInt _, _ => Err "observation string is invalid"
      | _, _, _ => Err "observation byte count is invalid"
      end
  | _ => Err "observation schema is invalid"
  end.

Definition record_hooks : json_hooks := JsonHooks reject_pairs (fun _ => Err "non-finite JSON value").

(** [_decode_artifact] *)
Definition decode_artifact (payload : bytes) (expected : phase) : result (pystr * option observation) :=
  raise "artifact framing is invalid" when (zlen payload =? 0) || (MAX_ARTIFACT_BYTES <? zlen payload) ;;
  match utf8_decode payload with
  | None => Err "artifact JSON is invalid"
  | Some text =>
      let? value := loads_with record_hooks text in
      let? _ := map_result parse_integer (integers value) in
      let? _ := bound_json 0 value 0 in
      match value with
      | VDict d =>
          raise "artifact schema is invalid"
            when negb (has_exactly [u "schema"; u "version"; u "record_id"; u "phase"; u "observation"] d) ;;
          raise "artifact version is invalid"
            when negb (py_eqb (d.["schema"]) (VStr SCHEMA)) || negb (bool_decide (as_int (d.["version"]) = Some VERSION)) ;;
          raise "artifact phase is invalid" when negb (py_eqb (d.["phase"]) (VStr (u (phase_name expected)))) ;;
          let? record_id := validate_record_id (d.["record_id"]) in
          let? o := match expected with
                    | Pending => raise "pending artifact is invalid" when negb (is_none (d.["observation"])) ;; Ok None
                    | p => let? o := decode_observation (d.["observation"]) (phase_confirmed p) in Ok (Some o)
                    end in
          let? canonical := encode_artifact record_id expected o in
          raise "artifact encoding is not canonical" when negb (bool_decide (payload = canonical)) ;;
          Ok (record_id, o)
      | _ => Err "artifact schema is invalid"
      end
  end.

(** * Snapshots *)

(** [OCIExecRecordSnapshot] *)
Record snapshot := Snapshot { sn_record_id : pystr; sn_phase : phase; sn_observation : option observation }.

(** [__post_init__] *)
Definition snapshot_init (record_id : pystr) (p : phase) (o : option observation) : result snapshot :=
  let? record_id := validate_record_id (VStr record_id) in
  raise "OCI exec record snapshot is inconsistent" when negb (Bool.eqb (bool_decide (p = Pending)) (bool_decide (o = None))) ;;
  match o with
  | None => Ok (Snapshot record_id p None)
  | Some o => let? o := validate_observation o (phase_confirmed p) in Ok (Snapshot record_id p (Some o))
  end.

(** [to_dict] *)
Definition snapshot_value (s : snapshot) : pyval :=
  VDict [(u "schema", VStr SCHEMA); (u "version", VInt VERSION); (u "record_id", VStr (sn_record_id s));
         (u "phase", VStr (u (phase_name (sn_phase s)))); (u "observation", opt_observation_value (sn_observation s));
         (u "classification", VStr (u "local-historical-metadata")); (u "guidance", VStr GUIDANCE)].

(** [replace(observed, acknowledgement="confirmed")] *)
Definition confirm (o : observation) : observation := o <| ob_confirmed := true |>.

#[export] Instance observation_eq_dec : EqDecision observation.
Proof. solve_decision. Defined.

(** The end of [read_exec_record]: what the artifacts found say together. *)
Definition snapshot_of (pending observed confirmed : option (pystr * option observation)) : result snapshot :=
  match pending with
  | None => Err "record phase chain is incomplete"
  | Some (record_id, _) =>
      raise "record phase chain is incomplete"
        when match confirmed, observed with Some _, None => true | _, _ => false end ;;
      raise "record identity mismatch"
        when negb (forallb (fun item => bool_decide (fst item = record_id)) (option_list observed ++ option_list confirmed)) ;;
      match confirmed, observed with
      | Some (_, c), Some (_, o) =>
          raise "confirmed facts do not match observed facts" when negb (bool_decide (c = option_map confirm o)) ;;
          snapshot_init record_id Confirmed c
      | _, Some (_, o) => snapshot_init record_id Observed o
      | _, None => snapshot_init record_id Pending None
      end
  end.
