(* ===== verification/ExecRecordFacts.v ===== *)
(** The artifacts of a durable exec record are read back, and only they are read. *)
From S2P Require Import Prelude Crypto PyStr PyVal Utf8 Json Digest ExecControl ControlV2Wire ControlV2Message ControlV2Codec ExecSession ExecRecord.

(** * Valid records *)

Definition terminal_ok (p : process_exit) : Prop :=
  (exists code, 0 <= code <= 255 /\ p = ProcessExit code (Some code) None) \/
  (exists number, 1 <= number <= 64 /\ p = ProcessExit (- number) None (Some number)).

Definition observation_ok (o : observation) : Prop :=
  ob_reason o ∈ COMPLETION_REASONS /\ 0 <= ob_stdout_bytes o /\ 0 <= ob_stderr_bytes o /\
  ob_stdout_bytes o + ob_stderr_bytes o <= MAX_EXEC_OUTPUT /\
  match ob_terminal o with
  | None => ob_reason o = u "cancelled" /\ ob_stdout_bytes o = 0 /\ ob_stderr_bytes o = 0
  | Some p => terminal_ok p
  end.

Definition record_id_ok (s : pystr) : Prop := is_uuid s /\ rfc4122_v4 s = true.

(** An observation for each phase but the first, acknowledged in the last. *)
Definition phase_observation (p : phase) (o : option observation) : Prop :=
  match o with
  | None => p = Pending
  | Some o => p <> Pending /\ ob_confirmed o = phase_confirmed p /\ observation_ok o
  end.

Lemma process_exit_check_Ok p : process_exit_check p (pe_category p) = Ok tt ->
  (0 <= pe_returncode p /\ pe_exit_code p = Some (pe_returncode p) /\ pe_signal p = None) \/
  (pe_returncode p < 0 /\ pe_exit_code p = None /\ pe_signal p = Some (- pe_returncode p)).
Proof.
  unfold process_exit_check. destruct p as [code e s]. cbn [pe_returncode pe_exit_code pe_signal].
  destruct (0 <=? code) eqn:G; intros Hc; inv_ok; bool_norm; subst; [by left|right; done].
Qed.

Lemma validate_observation_Ok o c o' : validate_observation o c = Ok o' <-> o' = o /\ ob_confirmed o = c /\ observation_ok o.
Proof.
  unfold validate_observation, observation_init, observation_ok, terminal_ok. destruct o as [t reason out err k].
  cbn [ob_terminal ob_reason ob_stdout_bytes ob_stderr_bytes ob_confirmed]. split.
  - intros Hv. destruct (negb (Bool.eqb k c)) eqn:G1; [done|]. cbn [result_bind] in Hv.
    destruct (negb (bool_decide (reason ∈ COMPLETION_REASONS))) eqn:G2; [done|]. cbn [result_bind] in Hv.
    destruct ((out <? 0) || (err <? 0) || (MAX_EXEC_OUTPUT <? out + err)) eqn:G3; [done|]. cbn [result_bind] in Hv. bool_norm. subst.
    destruct t as [p|]; cbn [result_bind ob_terminal] in Hv.
    + destruct (negb _) eqn:G4 in Hv; [done|]. cbn [result_bind ob_terminal] in Hv. bool_norm.
      destruct (process_exit_check p (pe_category p)) as [[]|] eqn:E; [|done]. apply process_exit_check_Ok in E.
      cbn [result_bind] in Hv. apply (inj Ok) in Hv as <-. split_and!; [done|by destruct k, c|done|lia|lia|lia|].
      destruct p as [code e n]. cbn [pe_returncode pe_exit_code pe_signal] in *.
      destruct E as [(Hp & -> & ->)|(Hp & -> & ->)]; bool_norm; [left; exists code; split; [lia|done]|].
      right. exists (- code). split; [lia|]. by rewrite Z.opp_involutive.
    + destruct (_ || _) eqn:G4 in Hv; [done|]. cbn [result_bind ob_terminal] in Hv. bool_norm. apply (inj Ok) in Hv as <-.
      split_and!; try done; try lia. by destruct k, c.
  - intros (-> & <- & Hr & Ho & He & Hs & Ht). rewrite eqb_reflx. cbn [negb].
    rewrite bool_decide_eq_true_2 by done. cbn [negb]. rewrite !(proj2 (Z.ltb_ge _ _)) by lia. cbn [orb].
    destruct t as [p|].
    + destruct Ht as [(code & Hc & ->)|(number & Hn & ->)]; cbn [pe_exit_code pe_signal].
      * rewrite !(proj2 (Z.leb_le _ _)) by lia. cbn [andb negb result_bind ob_terminal pe_category pe_exit_code process_exit_check].
        unfold process_exit_check. cbn [pe_returncode pe_exit_code pe_signal]. rewrite !(proj2 (Z.leb_le _ _)) by lia.
        by rewrite !bool_decide_eq_true_2 by done.
      * rewrite !(proj2 (Z.leb_le _ _)) by lia. cbn [andb negb result_bind ob_terminal pe_category pe_exit_code process_exit_check].
        unfold process_exit_check. cbn [pe_returncode pe_exit_code pe_signal]. rewrite (proj2 (Z.leb_gt _ _)) by lia.
        by rewrite Z.opp_involutive, !bool_decide_eq_true_2 by done.
    + destruct Ht as (-> & -> & ->). reflexivity.
Qed.

(** * Record identifiers *)

Definition hyphen_hex (c : Z) : Prop := c = 45 \/ 48 <= c <= 57 \/ 97 <= c <= 102.

Lemma is_uuid_chars s : is_uuid s -> length s = 36%nat /\ Forall hyphen_hex s.
Proof.
  unfold is_uuid, uuid_str. destruct (_ && forallb is_hex_digit (uuid_hex s)) eqn:E; [|done].
  intros Hs. apply (inj Some) in Hs. apply andb_true_iff in E as [Hlen%Nat.eqb_eq Hf]. rewrite forallb_forall in Hf.
  assert (length (lower (uuid_hex s)) = 32%nat) as Hl by (unfold lower; by rewrite length_map).
  rewrite <- Hs. split.
  { unfold hyphenate. repeat (rewrite length_app || rewrite length_take || rewrite length_drop || cbn [length]). rewrite Hl. lia. }
  assert (Forall hyphen_hex (lower (uuid_hex s))) as Hh.
  { unfold lower. rewrite Forall_fmap. apply Forall_forall. intros c Hc.
    specialize (Hf c (proj1 (list_elem_of_In _ _) Hc)).
    simpl. unfold hyphen_hex. unfold is_hex_digit, hex_value in Hf. unfold lower_char. repeat case_match; try done; bool_norm; lia. }
  unfold hyphenate.
  repeat first [apply Forall_app; split | apply List.Forall_cons; [by left|] | apply Forall_take | apply Forall_drop]; exact Hh.
Qed.

Lemma validate_record_id_Ok v s : validate_record_id v = Ok s <-> v = VStr s /\ record_id_ok s.
Proof.
  unfold validate_record_id, record_id_ok. split.
  - destruct v; try done. intros Hv. inv_ok. bool_norm. unfold is_uuid. done.
  - intros [-> [Hu Hv]]. pose proof (is_uuid_chars s Hu) as [Hl _]. unfold zlen. rewrite Hl. cbn [Z.eqb negb Z.of_nat Pos.of_succ_nat Pos.eqb].
    rewrite bool_decide_eq_true_2 by exact Hu. by rewrite Hv.
Qed.

Lemma hyphen_hex_plain c : hyphen_hex c -> esc_char c = [c] /\ 0 <= c < 128.
Proof. unfold hyphen_hex, esc_char. intros Hc. repeat rewrite (proj2 (Z.eqb_neq c _)) by lia. rewrite (proj2 (Z.ltb_ge c _)) by lia. split; [done|lia]. Qed.

(** * Writing never fails on a valid record *)

Definition ascii (s : list Z) : Prop := Forall (fun c => 0 <= c < 128) s.

Lemma ascii_digits z : ascii (str_of_int z).
Proof.
  destruct (str_of_int_cases z) as [[Hz ->]|[Hz ->]]; [|apply List.Forall_cons; [lia|]];
    (eapply Forall_impl; [apply digits_digits; lia|]); intros c Hc; unfold is_digit in Hc; bool_norm; lia.
Qed.

Lemma length_str_of_int z : -10000 < z < 100000 -> (length (str_of_int z) <= 6)%nat.
Proof.
  intros Hz. destruct (str_of_int_cases z) as [[? ->]|[? ->]]; cbn [length].
  - etrans; [apply (length_digits z 5); lia|lia].
  - apply le_n_S, length_digits; lia.
Qed.

(** A value whose text is ASCII, of at most [n] characters. *)
Definition written (v : pyval) (n : Z) : Prop := exists t, dumps_raw v = Some t /\ ascii t /\ zlen t <= n.

(** A text with nothing to escape. *)
Definition unescaped (s : pystr) : Prop := Forall (fun c => esc_char c = [c] /\ 0 <= c < 128) s.
Definition unescaped_b (s : pystr) : bool := forallb (fun c => bool_decide (esc_char c = [c]) && (0 <=? c) && (c <? 128)) s.

Lemma unescaped_decide s : unescaped_b s = true -> unescaped s.
Proof.
  unfold unescaped_b. rewrite forallb_forall. intros Hs. apply Forall_forall. intros c Hc%list_elem_of_In. apply Hs in Hc. bool_norm. done.
Qed.

Lemma hyphen_hex_unescaped s : Forall hyphen_hex s -> unescaped s.
Proof. intros Hs. eapply Forall_impl; [exact Hs|]. intros c. apply hyphen_hex_plain. Qed.

Lemma dumps_str_unescaped s : unescaped s -> dumps_str s = 34 :: s ++ [34].
Proof.
  intros Hs. unfold dumps_str. do 2 f_equal. induction Hs as [|c s [Hc _] _ IH]; [done|]. cbn [flat_map]. by rewrite IH, Hc.
Qed.

Lemma ascii_quoted s : unescaped s -> ascii (dumps_str s).
Proof.
  intros Hs. rewrite dumps_str_unescaped by done. apply List.Forall_cons; [lia|]. apply Forall_app. split; [|by repeat constructor].
  eapply Forall_impl; [exact Hs|]. by intros c [_ ?].
Qed.

Lemma written_str s n : unescaped s -> zlen s + 2 <= n -> written (VStr s) n.
Proof.
  intros Hs Hn. exists (dumps_str s). split; [done|]. split; [by apply ascii_quoted|]. rewrite dumps_str_unescaped by done. zlen_norm. lia.
Qed.

Lemma written_int z : -10000 < z < 100000 -> written (VInt z) 6.
Proof. intros Hz. exists (str_of_int z). split; [done|]. split; [apply ascii_digits|]. pose proof (length_str_of_int z Hz). unfold zlen. lia. Qed.

Lemma written_none : written VNone 4.
Proof. exists (u "null"). split; [done|]. split; [|done]. apply Forall_forall. intros c Hc. by repeat (apply elem_of_cons in Hc as [->|Hc]; [done|]); apply elem_of_nil in Hc. Qed.

Lemma written_weaken v n m : written v n -> n <= m -> written v m.
Proof. intros (t & ? & ? & ?) ?. exists t. split_and!; [done..|lia]. Qed.

Fixpoint members_weight (d : list (pystr * pyval)) (ns : list Z) : Z :=
  match d, ns with (k, _) :: d, n :: ns => zlen k + 4 + n + members_weight d ns | _, _ => 0 end.

Lemma written_dict d ns : Forall2 (fun kv n => unescaped kv.1 /\ written kv.2 n) d ns -> written (VDict d) (2 + members_weight d ns).
Proof.
  intros Hd. assert (exists ts, member_texts dumps_raw d = Some ts /\ ascii (join [44] ts) /\ zlen (join [44] ts) <= members_weight d ns) as (ts & Et & Ha & Hl).
  { induction Hd as [|[k v] n d ns [Hk (t & Et & Ha & Hn)] Hd IH]; [exists []; split_and!; [done|apply List.Forall_nil|done]|].
    destruct IH as (ts & Es & Has & Hl). cbn [member_texts fst snd] in *. rewrite Et, Es. eexists. split; [done|].
    cbn [members_weight] in *.
    assert (ascii (dumps_str k ++ 58 :: t)) as Hh by (apply Forall_app; split; [by apply ascii_quoted|apply List.Forall_cons; [lia|done]]).
    assert (zlen (dumps_str k ++ 58 :: t) <= zlen k + 3 + n) as Hz.
    { rewrite dumps_str_unescaped by done. zlen_norm. lia. }
    destruct ts as [|t' ts]; cbn [join]; cbn [join] in Has, Hl.
    - split; [done|]. rewrite zlen_nil in Hl. lia.
    - split; [apply Forall_app; split; [done|apply List.Forall_cons; [lia|done]]|]. zlen_norm. lia. }
  exists (123 :: join [44] ts ++ [125]). cbn [dumps_raw]. rewrite Et. split; [done|]. split; [|zlen_norm; lia].
  apply List.Forall_cons; [lia|]. apply Forall_app. split; [done|]. by repeat constructor.
Qed.

Lemma canon_terminal p : canon (terminal_value (Some p)) =
  VDict [(u "category", VStr (u (category_name (pe_category p)))); (u "exit_code", opt_int (pe_exit_code p));
         (u "returncode", VInt (pe_returncode p)); (u "signal_number", opt_int (pe_signal p))].
Proof. destruct p as [c [e|] [s|]]; vm_compute; reflexivity. Qed.
Lemma canon_observation o : canon (observation_value o) =
  VDict [(u "acknowledgement", VStr (acknowledgement_name (ob_confirmed o))); (u "reason", VStr (ob_reason o));
         (u "stderr_bytes", VInt (ob_stderr_bytes o)); (u "stdout_bytes", VInt (ob_stdout_bytes o));
         (u "terminal", canon (terminal_value (ob_terminal o)))].
Proof. destruct o. vm_compute. reflexivity. Qed.
Lemma canon_artifact r p o : canon (artifact_value r p o) =
  VDict [(u "observation", canon (opt_observation_value o)); (u "phase", VStr (u (phase_name p))); (u "record_id", VStr r);
         (u "schema", VStr SCHEMA); (u "version", VInt VERSION)].
Proof. destruct p; vm_compute; reflexivity. Qed.

Ltac written_literal := apply written_str; [by apply unescaped_decide|by vm_compute].
Ltac written_members :=
  repeat first [apply List.Forall2_nil | apply List.Forall2_cons; [split; [by apply unescaped_decide|cbn [snd]]|]].

Lemma terminal_ok_range p : terminal_ok p -> -100 < pe_returncode p < 1000 /\
  from_option (fun z => -100 < z < 1000) True (pe_exit_code p) /\ from_option (fun z => -100 < z < 1000) True (pe_signal p).
Proof. intros [(code & ? & ->)|(number & ? & ->)]; cbn; split_and!; lia. Qed.

Lemma written_opt_int o : from_option (fun z => -100 < z < 1000) True o -> written (opt_int o) 6.
Proof. destruct o; cbn; intros ?; [apply written_int; lia|]. eapply written_weaken; [apply written_none|lia]. Qed.

Lemma written_terminal t : from_option terminal_ok True t -> written (canon (terminal_value t)) 90.
Proof.
  destruct t as [p|]; cbn [from_option]; intros Ht; [|eapply written_weaken; [apply written_none|lia]]. rewrite canon_terminal.
  apply terminal_ok_range in Ht as (Hc & He & Hs).
  eapply written_weaken; [apply (written_dict _ [10; 6; 6; 6])|by vm_compute].
  written_members.
  - unfold pe_category. destruct (pe_exit_code p); written_literal.
  - by apply written_opt_int.
  - apply written_int. lia.
  - by apply written_opt_int.
Qed.

Lemma reason_unescaped r : r ∈ COMPLETION_REASONS -> written (VStr r) 14.
Proof.
  unfold COMPLETION_REASONS. intros Hr. repeat (apply elem_of_cons in Hr as [->|Hr]; [written_literal|]). by apply elem_of_nil in Hr.
Qed.

Lemma written_observation o : observation_ok o -> written (canon (observation_value o)) 250.
Proof.
  intros (Hr & Ho & He & Hs & Ht). unfold MAX_EXEC_OUTPUT in Hs. rewrite canon_observation.
  eapply written_weaken; [apply (written_dict _ [14; 14; 6; 6; 90])|by vm_compute].
  written_members.
  - destruct (ob_confirmed o); written_literal.
  - by apply reason_unescaped.
  - apply written_int. lia.
  - apply written_int. lia.
  - apply written_terminal. by destruct (ob_terminal o).
Qed.

Lemma written_artifact r p o : record_id_ok r -> phase_observation p o -> written (canon (artifact_value r p o)) 500.
Proof.
  intros [Hr _] Ho. rewrite canon_artifact. apply is_uuid_chars in Hr as [Hl Hc].
  eapply written_weaken; [apply (written_dict _ [250; 11; 38; 40; 6])|by vm_compute].
  written_members.
  - destruct o as [o|]; cbn [opt_observation_value canon]; [apply written_observation, Ho|].
    eapply written_weaken; [apply written_none|lia].
  - destruct p; written_literal.
  - apply written_str; [by apply hyphen_hex_unescaped|]. unfold zlen. rewrite Hl. lia.
  - written_literal.
  - apply written_int. unfold VERSION. lia.
Qed.

(** * Reading back *)

(** [json.loads] of a mapping and a line feed *)
Lemma loads_with_line hook d t : (forall d, NoDup (dict_keys d) -> pairs_hook hook d = Ok d) -> json_val (VDict d) ->
  dumps_raw (VDict d) = Some t -> d <> [] -> loads_with hook (t ++ [10]) = Ok (VDict d).
Proof.
  intros Hh Hv Ht Hne. unfold loads_with. rewrite (skip_ws_text (VDict d)) by done. inversion Hv as [| | | | |? Hk Hd]; subst.
  cbn [dumps_raw] in Ht. destruct (member_texts dumps_raw d) as [ts|] eqn:E; [|done]. apply (inj Some) in Ht as <-.
  assert (Forall (fun kv => reads hook kv.2) d) as Hr.
  { eapply Forall_impl; [exact Hd|]. intros kv [_ Hj]. by apply (reads_json hook Hh). }
  replace (2 * length ((123%Z :: join [44%Z] ts ++ [125%Z]) ++ [10%Z]) + 1)%nat with (S (2 * length (join [44%Z] ts) + 6))%nat
    by (rewrite length_app; cbn [length]; rewrite length_app; cbn [length]; lia).
  destruct (parse_members_texts hook d ts (2 * length (join [44%Z] ts) + 6) [10] Hne Hd Hr E ltac:(lia)) as (s & Es & Hp).
  rewrite Es in Hp |- *. remember (2 * length (34%Z :: s) + 6)%nat as fuel. rewrite <- !app_comm_cons, <- app_assoc.
  cbn [parse_value Z.eqb Pos.eqb app skip_ws is_ws orb]. rewrite Hp. cbn [result_bind].
  rewrite Hh by done. reflexivity.
Qed.

Lemma category_of_name c : category_of (u (category_name c)) = Some c.
Proof. destruct c; vm_compute; reflexivity. Qed.

Lemma as_int_opt o : as_int (opt_int o) = o /\ is_int_or_none (opt_int o) = true.
Proof. by destruct o. Qed.

Lemma decode_terminal_value t : from_option terminal_ok True t ->
  decode_terminal (canon (terminal_value t)) = Ok (option_map (fun p => (p, pe_category p)) t).
Proof.
  destruct t as [p|]; [|done]. cbn [from_option]. intros Hp. rewrite canon_terminal. cbn [decode_terminal].
  match goal with |- context [has_exactly ?f ?d] => replace (has_exactly f d) with true by (vm_compute; reflexivity) end. cbn [negb].
  match goal with |- context [(?d .["category"])%py] =>
    change (d.["category"]) with (VStr (u (category_name (pe_category p)))); change (d.["returncode"]) with (VInt (pe_returncode p));
    change (d.["exit_code"]) with (opt_int (pe_exit_code p)); change (d.["signal_number"]) with (opt_int (pe_signal p)) end.
  rewrite !(proj2 (as_int_opt _)), !(proj1 (as_int_opt _)), category_of_name. cbn [negb orb is_int_or_none].
  assert (process_exit_check p (pe_category p) = Ok tt) as Hc.
  { destruct Hp as [(code & Hc & ->)|(number & Hn & ->)]; unfold process_exit_check, pe_category; cbn [pe_returncode pe_exit_code pe_signal].
    - rewrite (proj2 (Z.leb_le _ _)) by lia. by rewrite !bool_decide_eq_true_2 by done.
    - rewrite (proj2 (Z.leb_gt _ _)) by lia. by rewrite Z.opp_involutive, !bool_decide_eq_true_2 by done. }
  destruct p as [code e s]. cbn [pe_returncode pe_exit_code pe_signal]. by rewrite Hc.
Qed.

Lemma decode_observation_value o c : ob_confirmed o = c -> observation_ok o -> decode_observation (canon (observation_value o)) c = Ok o.
Proof.
  intros Hc Ho. assert (validate_observation o c = Ok o) as Hv by (by apply validate_observation_Ok).
  rewrite canon_observation. cbn [decode_observation].
  match goal with |- context [has_exactly ?f ?d] => replace (has_exactly f d) with true by (vm_compute; reflexivity) end. cbn [negb].
  match goal with |- context [(?d .["acknowledgement"])%py] =>
    change (d.["acknowledgement"]) with (VStr (acknowledgement_name (ob_confirmed o))); change (d.["terminal"]) with (canon (terminal_value (ob_terminal o)));
    change (d.["stdout_bytes"]) with (VInt (ob_stdout_bytes o)); change (d.["stderr_bytes"]) with (VInt (ob_stderr_bytes o));
    change (d.["reason"]) with (VStr (ob_reason o)) end.
  rewrite Hc, (proj2 (py_eqb_str _ _)) by done. cbn [negb].
  rewrite decode_terminal_value; [|by destruct Ho as (_ & _ & _ & _ & Ht); destruct (ob_terminal o)]. cbn [result_bind].
  assert (match option_map (fun p => (p, pe_category p)) (ob_terminal o) with Some (p, category) => negb (bool_decide (category = pe_category p)) | None => false end = false) as ->.
  { destruct (ob_terminal o); cbn [option_map]; [|done]. by rewrite bool_decide_eq_true_2. }
  assert (option_map fst (option_map (fun p => (p, pe_category p)) (ob_terminal o)) = ob_terminal o) as -> by (by destruct (ob_terminal o)).
  pose proof Hv as Hi. unfold validate_observation in Hi. rewrite Hc, eqb_reflx in Hi. cbn [negb result_bind] in Hi.
  destruct (observation_init _ _ _ _ _) as [o'|] eqn:E; [|done]. cbn [result_bind] in *.
  assert (o' = o) as -> by (destruct (ob_terminal o') as [p|]; [destruct (process_exit_check p _)|]; cbn [result_bind] in Hi; congruence).
  done.
Qed.

Lemma jsonable_opt_int' o : jsonable (opt_int o).
Proof. destruct o; constructor. Qed.

Lemma jsonable_artifact r p o : record_id_ok r -> phase_observation p o -> jsonable (artifact_value r p o).
Proof.
  intros [Hr _] Ho. unfold artifact_value. jsonable_dict; try (constructor; apply u_nonneg).
  - constructor. by apply is_uuid_nonneg.
  - destruct o as [o|]; [|constructor]. destruct Ho as (_ & _ & Hr' & _ & _ & _ & Ht). cbn [opt_observation_value]. unfold observation_value.
    jsonable_dict; try constructor.
    + destruct (ob_terminal o) as [q|]; cbn [terminal_value]; [|constructor]. jsonable_dict; try apply jsonable_opt_int'; constructor. apply u_nonneg.
    + unfold COMPLETION_REASONS in Hr'. repeat (apply elem_of_cons in Hr' as [->|Hr']; [apply u_nonneg|]). by apply elem_of_nil in Hr'.
    + apply u_nonneg.
Qed.

Lemma artifact_dict_Ok r p o v : artifact_dict r p o = Ok v <-> record_id_ok r /\ phase_observation p o /\ v = artifact_value r p o.
Proof.
  unfold artifact_dict. split.
  - destruct (validate_record_id (VStr r)) as [r'|] eqn:E; [|done]. apply validate_record_id_Ok in E as [E Hr]. assert (r' = r) as -> by congruence. cbn [result_bind].
    assert (forall q, q <> Pending -> match o with None => Err "OCI exec record observation is invalid" | Some o => let? o := validate_observation o (phase_confirmed q) in Ok (artifact_value r q (Some o)) end = Ok v ->
      record_id_ok r /\ phase_observation q o /\ v = artifact_value r q o) as Hq.
    { intros q Hq. destruct o as [o|]; [|done]. destruct (validate_observation o _) eqn:E2; [|done]. apply validate_observation_Ok in E2 as (-> & ? & ?).
      cbn [result_bind]. intros Hv. apply (inj Ok) in Hv as <-. done. }
    destruct p; [destruct o; [done|]; intros Hv; apply (inj Ok) in Hv as <-; done| |]; intros Hv; by apply Hq.
  - intros (Hr & Ho & ->). rewrite (proj2 (validate_record_id_Ok _ r)) by done. cbn [result_bind].
    destruct o as [o|]; cbn [phase_observation] in Ho; [|by subst p]. destruct Ho as (Hp & Hc & Ho).
    rewrite (proj2 (validate_observation_Ok o _ o)) by done. by destruct p.
Qed.

(** What [encode_artifact] writes. *)
Definition artifact_text (r : pystr) (p : phase) (o : option observation) (b : bytes) : Prop :=
  exists t, dumps (artifact_value r p o) = Some t /\ ascii t /\ zlen t <= 500 /\ b = t ++ [10].

Lemma artifact_text_exists r p o : record_id_ok r -> phase_observation p o -> exists b, artifact_text r p o b.
Proof. intros Hr Ho. destruct (written_artifact r p o Hr Ho) as (t & Ht & Ha & Hl). exists (t ++ [10]), t. done. Qed.

Lemma encode_artifact_Ok r p o b : encode_artifact r p o = Ok b <-> record_id_ok r /\ phase_observation p o /\ artifact_text r p o b.
Proof.
  assert (forall t, ascii t -> zlen t <= 500 -> (let? text := match utf8_encode t with None => Err "value is not canonical JSON data" | Some payload => Ok payload end in
    let payload := text ++ [10] in raise "OCI exec record artifact is too large" when MAX_ARTIFACT_BYTES <? zlen payload ;; Ok payload) = Ok (t ++ [10])) as Hw.
  { intros t Ha Hl. rewrite utf8_encode_ascii by done. cbn [result_bind]. unfold MAX_ARTIFACT_BYTES. rewrite (proj2 (Z.ltb_ge _ _)); [done|]. zlen_norm. lia. }
  unfold encode_artifact. split.
  - destruct (artifact_dict r p o) as [v|] eqn:E; [|done]. apply artifact_dict_Ok in E as (Hr & Ho & ->). cbn [result_bind]. intros He.
    split; [done|]. split; [done|]. destruct (written_artifact r p o Hr Ho) as (t & Ht & Ha & Hl). exists t. split; [done|]. split; [done|]. split; [done|].
    unfold canonical_json_bytes, dumps in He. rewrite Ht, Hw in He by done. by apply (inj Ok) in He.
  - intros (Hr & Ho & t & Ht & Ha & Hl & ->). rewrite (proj2 (artifact_dict_Ok r p o _)) by done. cbn [result_bind].
    unfold canonical_json_bytes. rewrite Ht. by apply Hw.
Qed.

Lemma length_cases {A} n (l : list A) : length l = S n -> exists a k, l = a :: k /\ length k = n.
Proof. destruct l as [|a l]; [done|]. cbn. intros [= E]. by exists a, l. Qed.

Lemma bound_artifact r p o : record_id_ok r -> phase_observation p o -> exists n, bound_json 0 (canon (artifact_value r p o)) 0 = Ok n.
Proof.
  intros [Hr _] Ho. apply is_uuid_chars in Hr as [Hl _]. repeat (apply length_cases in Hl as (? & ? & -> & Hl)). apply nil_length_inv in Hl as ->.
  destruct o as [o|].
  - destruct Ho as (_ & _ & Hr & _). rewrite canon_artifact. cbn [opt_observation_value]. rewrite canon_observation. destruct o as [t reason out err c].
    cbn [ob_reason ob_terminal] in *. unfold COMPLETION_REASONS in Hr.
    repeat (apply elem_of_cons in Hr as [->|Hr];
      [destruct p, c, t as [[code [e|] [g|]]|]; eexists; vm_compute; reflexivity|]). by apply elem_of_nil in Hr.
  - destruct p; eexists; vm_compute; reflexivity.
Qed.

Lemma parse_integers l : Forall (fun z => -100000 < z < 100000) l -> exists k, map_result parse_integer l = Ok k.
Proof.
  induction 1 as [|z l Hz _ [k IH]]; [by eexists|]. cbn [map_result]. unfold parse_integer at 1, MAX_INTEGER_DIGITS.
  rewrite (proj2 (Z.ltb_ge _ _)); [cbn [result_bind]; rewrite IH; by eexists|].
  assert (length (digits (Z.abs z)) <= 5)%nat by (apply length_digits; lia). unfold zlen. lia.
Qed.

Lemma integers_artifact r p o : phase_observation p o -> Forall (fun z => -100000 < z < 100000) (integers (canon (artifact_value r p o))).
Proof.
  intros Ho. rewrite canon_artifact. cbn [integers flat_map snd app]. unfold VERSION. apply Forall_app. split; [|by repeat constructor].
  destruct o as [o|]; [|apply List.Forall_nil]. destruct Ho as (_ & _ & _ & Ho & He & Hs & Ht). unfold MAX_EXEC_OUTPUT in Hs.
  cbn [opt_observation_value]. rewrite canon_observation. cbn [integers flat_map snd app]. do 2 (apply List.Forall_cons; [lia|]). rewrite app_nil_r.
  destruct (ob_terminal o) as [t|]; [|apply List.Forall_nil]. rewrite canon_terminal.
  destruct Ht as [(code & Hc & ->)|(number & Hn & ->)]; cbn [integers flat_map snd app opt_int pe_exit_code pe_returncode pe_signal];
    repeat (apply List.Forall_cons; [lia|]); apply List.Forall_nil.
Qed.

(** Whatever is written is read back. *)
Lemma decode_artifact_encode r p o b : encode_artifact r p o = Ok b -> decode_artifact b p = Ok (r, o) /\ 0 < zlen b <= MAX_ARTIFACT_BYTES.
Proof.
  intros He. pose proof He as (Hr & Ho & t & Ht & Ha & Hl & ->)%encode_artifact_Ok.
  assert (0 < zlen (t ++ [10]) <= MAX_ARTIFACT_BYTES) as Hz by (unfold MAX_ARTIFACT_BYTES; pose proof (zlen_nonneg t); zlen_norm; lia).
  split; [|done]. unfold decode_artifact. rewrite (proj2 (Z.eqb_neq _ _)), (proj2 (Z.ltb_ge _ _)) by lia. cbn [orb].
  assert (ascii (t ++ [10])) as Ha' by (apply Forall_app; split; [done|by repeat constructor]).
  rewrite (utf8_decode_encode _ _ (utf8_encode_ascii _ Ha')).
  destruct (bound_artifact r p o Hr Ho) as [n Hn]. destruct (parse_integers _ (integers_artifact r p o Ho)) as [k Hk].
  pose proof (canon_json _ (jsonable_artifact r p o Hr Ho)) as Hj. unfold dumps in Ht. rewrite canon_artifact in Hj, Ht, Hn, Hk.
  rewrite (loads_with_line record_hooks _ t reject_pairs_NoDup Hj Ht ltac:(discriminate)). cbn [result_bind]. rewrite Hk. cbn [result_bind]. rewrite Hn. cbn [result_bind].
  match goal with |- context [has_exactly ?f ?d] => replace (has_exactly f d) with true by (vm_compute; reflexivity) end. cbn [negb].
  match goal with |- context [(?d .["schema"])%py] =>
    change (d.["schema"]) with (VStr SCHEMA); change (d.["version"]) with (VInt VERSION); change (d.["phase"]) with (VStr (u (phase_name p)));
    change (d.["record_id"]) with (VStr r); change (d.["observation"]) with (canon (opt_observation_value o)) end.
  rewrite !(proj2 (py_eqb_str _ _)) by done. cbn [as_int]. rewrite bool_decide_eq_true_2 by done. cbn [negb orb].
  rewrite (proj2 (validate_record_id_Ok _ r)) by done. cbn [result_bind].
  assert (match p with
          | Pending => raise "pending artifact is invalid" when negb (is_none (canon (opt_observation_value o))) ;; Ok None
          | p => let? o := decode_observation (canon (opt_observation_value o)) (phase_confirmed p) in Ok (Some o)
          end = Ok o) as Hd.
  { destruct o as [o|]; [|by rewrite Ho]. destruct Ho as (Hp & Hc & Ho). cbn [opt_observation_value].
    rewrite decode_observation_value by done. by destruct p. }
  replace (match p with
           | Pending => raise "pending artifact is invalid" when negb (is_none (canon (opt_observation_value o))) ;; Ok None
           | _ => let? o0 := decode_observation (canon (opt_observation_value o)) (phase_confirmed p) in Ok (Some o0)
           end) with (Ok o : result (option observation)) by (by rewrite <- Hd; destruct p).
  cbn [result_bind]. rewrite He. cbn [result_bind]. by rewrite bool_decide_eq_true_2.
Qed.

(** What is read is what would be written. *)
Lemma decode_artifact_Ok b p r o : decode_artifact b p = Ok (r, o) -> encode_artifact r p o = Ok b.
Proof.
  unfold decode_artifact. destruct (_ || _); [done|]. destruct (utf8_decode b); [|done]. destruct (loads_with _ _) as [v|]; [|done]. cbn [result_bind].
  destruct (map_result _ _); [|done]. cbn [result_bind]. destruct (bound_json _ _ _); [|done]. cbn [result_bind]. destruct v; try done.
  destruct (negb (has_exactly _ _)); [done|]. destruct (_ || _); [done|]. destruct (negb _); [done|]. destruct (validate_record_id _) as [r'|]; [|done].
  cbn [result_bind]. destruct (match p with Pending => _ | _ => _ end) as [o'|]; [|done]. cbn [result_bind].
  destruct (encode_artifact r' p o') as [c|] eqn:E; [|done]. cbn [result_bind]. destruct (negb (bool_decide (b = c))) eqn:G; [done|].
  bool_norm. subst c. intros Hx. apply (inj Ok), pair_equal_spec in Hx as [-> ->]. done.
Qed.
