(* ===== verification/ExecRecordOS.v ===== *)
(** The directory of a durable exec record ([oci_exec_record.py]): the system calls,
    the chain of directories that leads to it, the checks of owners, modes and access
    lists, and the reader [read_exec_record]. *)
From S2P Require Import Prelude Crypto PyStr PyVal Regex Utf8 ExecSession ExecRecord.

(** * Computations *)

(** What a call raises: an [Exception] (the module never shows which), its own
    [OCIExecRecordError], or a [BaseException] that is not an [Exception]. *)
Inductive exn := Failure | RecordError (stage : string) | Interrupt.
Inductive answer (A : Type) := Return (a : A) | Throw (e : exn).
Arguments Return {A}. Arguments Throw {A}.

Definition prog (S A : Type) : Type := S -> S * answer A.

Section prog.
Context {S : Type}.
Definition pret {A} (a : A) : prog S A := fun s => (s, Return a).
Definition throw {A} (e : exn) : prog S A := fun s => (s, Throw e).
Definition pbind {A B} (m : prog S A) (k : A -> prog S B) : prog S B :=
  fun s => match m s with (s, Return a) => k a s | (s, Throw e) => (s, Throw e) end.
Definition pgets {A} (f : S -> A) : prog S A := fun s => (s, Return (f s)).
Definition pmodify (f : S -> S) : prog S unit := fun s => (f s, Return tt).
(** The [Exception]s of pure code *)
Definition pure {A} (r : result A) : prog S A := match r with Ok a => pret a | Err _ => throw Failure end.
(** [try: m except BaseException: pass] *)
Definition suppress {A} (m : prog S A) : prog S unit := fun s => ((m s).1, Return tt).
(** [try: m except Exception: raise OCIExecRecordError(stage)] *)
Definition or_record_error {A} (stage : string) (m : prog S A) : prog S A :=
  fun s => match m s with (s, Throw Interrupt) => (s, Throw Interrupt) | (s, Throw _) => (s, Throw (RecordError stage)) | r => r end.
(** ... where an [OCIExecRecordError] passes *)
Definition or_stage {A} (stage : string) (m : prog S A) : prog S A :=
  fun s => match m s with (s, Throw Failure) => (s, Throw (RecordError stage)) | r => r end.
(** [try: m finally: after], for an [after] that does not raise *)
Definition finally {A} (m : prog S A) (after : prog S unit) : prog S A := fun s => let (s, r) := m s in ((after s).1, r).
(** [try: m except BaseException: after; raise] *)
Definition on_error {A} (m : prog S A) (after : prog S unit) : prog S A :=
  fun s => match m s with (s, Throw e) => ((after s).1, Throw e) | r => r end.
End prog.

Notation "'do' x <- m ;; k" := (pbind m (fun x => k)) (at level 100, x binder, m at next level, right associativity) : py_scope.
Notation "'refuse' b ;; k" := (if b then throw Failure else k) (at level 100, b at next level, right associativity) : py_scope.

(** * The system *)

(** [os.stat_result] *)
Record stat_result := Stat {
  st_dev : Z; st_ino : Z; st_mode : Z; st_uid : Z; st_gid : Z; st_nlink : Z; st_size : Z; st_mtime_ns : Z; st_ctime_ns : Z;
}.

(** A call at a descriptor of a directory takes the descriptor first.  [open_dir]
    opens a directory and [open_file] a file, neither through a link; [create]
    makes a file that is not there; [rename] does not replace.  [scandir] gives
    what the iterator yields, names or an exception; [uuid4] thirty-two digits. *)
Class RecordOS (W : Type) := {
  on_linux : bool;
  fs_encode : pystr -> option bytes;
  getpid : W -> Z;
  geteuid : W -> Z;
  open_root : W -> W * answer Z;
  open_dir : W -> Z -> pystr -> W * answer Z;
  open_file : W -> Z -> pystr -> W * answer Z;
  create : W -> Z -> pystr -> W * answer Z;
  mkdir : W -> Z -> pystr -> W * answer unit;
  stat : W -> Z -> pystr -> W * answer stat_result;
  fstat : W -> Z -> W * answer stat_result;
  listxattr : W -> Z -> W * answer (list pystr);
  fgetxattr : W -> Z -> pystr -> Z -> W * answer bytes;
  read : W -> Z -> Z -> W * answer bytes;
  write : W -> Z -> bytes -> W * answer Z;
  fsync : W -> Z -> W * answer unit;
  rename : W -> Z -> pystr -> pystr -> W * answer unit;
  unlink : W -> Z -> pystr -> W * answer unit;
  scandir : W -> Z -> W * answer (list (answer pystr));
  close : W -> Z -> W * answer unit;
  uuid4 : W -> W * answer pystr;
}.

(** * Metadata *)

Definition S_IFMT (mode : Z) : Z := Z.land mode 61440.
Definition S_IMODE (mode : Z) : Z := Z.land mode 4095.
Definition S_ISDIR (mode : Z) : bool := S_IFMT mode =? 16384.
Definition S_ISREG (mode : Z) : bool := S_IFMT mode =? 32768.

Definition same_inode (left right : stat_result) : bool := (st_dev left =? st_dev right) && (st_ino left =? st_ino right).
Definition identity_of (m : stat_result) : Z * Z := (st_dev m, st_ino m).
Definition entry_signature (m : stat_result) : list Z :=
  [st_dev m; st_ino m; st_mode m; st_uid m; st_gid m; st_nlink m; st_size m; st_mtime_ns m; st_ctime_ns m].

Definition check_directory (m : stat_result) (uid : Z) (root_or_user immediate : bool) : result unit :=
  let mode := S_IMODE (st_mode m) in
  raise "not a directory" when negb (S_ISDIR (st_mode m)) ;;
  if immediate then
    raise "private parent is unsafe" when negb (st_uid m =? uid) || negb (mode =? 448) ;; Ok tt
  else
    raise "directory owner is unsafe" when root_or_user && negb ((st_uid m =? 0) || (st_uid m =? uid)) ;;
    raise "directory mode is unsafe"
      when negb (Z.land mode 18 =? 0) && negb ((st_uid m =? 0) && negb (Z.land mode 512 =? 0)) ;;
    Ok tt.

Definition safe_file (m : stat_result) (uid : Z) (permit_empty : bool) : result unit :=
  raise "record file metadata is unsafe"
    when negb (S_ISREG (st_mode m)) || negb (st_uid m =? uid) || negb (S_IMODE (st_mode m) =? 384) || negb (st_nlink m =? 1)
         || negb (((if permit_empty then 0 else 1) <=? st_size m) && (st_size m <=? MAX_ARTIFACT_BYTES)) ;;
  Ok tt.

(** [struct.unpack_from("<I", payload, offset)]; ["<HHI"] *)
Definition le (n offset : nat) (payload : bytes) : Z := fold_right (fun b acc => b + 256 * acc) 0 (take n (drop offset payload)).
Definition acl_entry (payload : bytes) (offset : nat) : Z * Z * Z := (le 2 offset payload, le 2 (offset + 2) payload, le 4 (offset + 4) payload).

(** An access list that says no more than the mode. *)
Definition acl_is_mode (payload : bytes) (mode : Z) : bool :=
  let mode := S_IMODE mode in
  bool_decide (map (acl_entry payload) [4%nat; 12%nat; 20%nat] =
    [(1, Z.land (Z.shiftr mode 6) 7, 4294967295); (4, Z.land (Z.shiftr mode 3) 7, 4294967295); (32, Z.land mode 7, 4294967295)]).

Section directories.
Context {W : Type} `{RecordOS W}.
#[local] Notation M := (prog W).

Definition sys_open_root : M Z := open_root.
Definition sys_open_dir (d : Z) (name : pystr) : M Z := fun w => open_dir w d name.
Definition sys_open_file (d : Z) (name : pystr) : M Z := fun w => open_file w d name.
Definition sys_create (d : Z) (name : pystr) : M Z := fun w => create w d name.
Definition sys_mkdir (d : Z) (name : pystr) : M unit := fun w => mkdir w d name.
Definition sys_stat (d : Z) (name : pystr) : M stat_result := fun w => stat w d name.
Definition sys_fstat (fd : Z) : M stat_result := fun w => fstat w fd.
Definition sys_read (fd n : Z) : M bytes := fun w => read w fd n.
Definition sys_write (fd : Z) (b : bytes) : M Z := fun w => write w fd b.
Definition sys_fsync (fd : Z) : M unit := fun w => fsync w fd.
Definition sys_unlink (d : Z) (name : pystr) : M unit := fun w => unlink w d name.
Definition sys_close (fd : Z) : M unit := fun w => close w fd.

(** [_rename_noreplace] *)
Definition rename_noreplace (d : Z) (source target : pystr) : M unit := fun w => rename w d source target.

(** [_read_xattr_bounded] *)
Definition read_xattr_bounded (fd : Z) (name : pystr) : M bytes :=
  do payload <- (fun w => fgetxattr w fd name (MAX_ARTIFACT_BYTES + 1)) ;;
  refuse MAX_ARTIFACT_BYTES <? zlen payload ;;
  pret payload.

Definition encoded_size (names : list pystr) : option Z :=
  fold_right (fun name acc => match utf8_encode name, acc with Some b, Some n => Some (zlen b + n) | _, _ => None end) (Some 0) names.

(** [_check_no_acl] *)
Definition check_no_acl (fd : Z) : M unit :=
  do names <- (fun w => listxattr w fd) ;;
  refuse (64 <? zlen names) || match encoded_size names with Some n => MAX_ARTIFACT_BYTES <? n | None => true end ;;
  refuse bool_decide (u "system.posix_acl_default" ∈ names) ;;
  if negb (bool_decide (u "system.posix_acl_access" ∈ names)) then pret tt
  else
    do payload <- read_xattr_bounded fd (u "system.posix_acl_access") ;;
    refuse negb (zlen payload =? 28) || negb (le 4 0 payload =? 2) ;;
    do metadata <- sys_fstat fd ;;
    refuse negb (acl_is_mode payload (st_mode metadata)) ;;
    pret tt.

(** * The chain of directories *)

(** [_DirectoryChain] *)
Record chain := Chain { ch_fds : list Z; ch_names : list pystr; ch_secure : bool; ch_private_tail : Z }.

(** [fds[-1]], [fds[-2]]: a chain is never empty *)
Definition chain_fd (c : chain) : Z := List.last (ch_fds c) (-1).
Definition chain_parent_fd (c : chain) : Z := List.last (removelast (ch_fds c)) (-1).

(** The loop of [revalidate]: the names from the [index]-th on, below [parent]. *)
Fixpoint revalidate_links (secure : bool) (uid private_start index parent : Z) (fds : list Z) (names : list pystr) : M unit :=
  match names, fds with
  | [], _ => pret tt
  | _ :: _, [] => throw Failure
  | name :: names, fd :: fds =>
      do visible <- sys_stat parent name ;;
      do held <- sys_fstat fd ;;
      refuse negb (S_ISDIR (st_mode visible)) || negb (same_inode visible held) ;;
      do _ <- (if secure then
                 let immediate := private_start <=? index in
                 do _ <- pure (check_directory visible uid true immediate) ;;
                 do _ <- pure (check_directory held uid true immediate) ;;
                 check_no_acl fd
               else pret tt) ;;
      revalidate_links secure uid private_start (index + 1) fd fds names
  end.

(** [revalidate] *)
Definition revalidate (c : chain) : M unit :=
  do uid <- pgets geteuid ;;
  match ch_fds c with
  | [] => throw Failure
  | root :: fds =>
      do _ <- (if ch_secure c then
                 do held <- sys_fstat root ;;
                 do _ <- pure (check_directory held uid true false) ;;
                 check_no_acl root
               else pret tt) ;;
      revalidate_links (ch_secure c) uid (zlen (ch_fds c) - ch_private_tail c) 1 root fds (ch_names c)
  end.

(** [_DirectoryChain.close]: the last descriptor first *)
Fixpoint close_all (fds : list Z) : M unit :=
  match fds with [] => pret tt | fd :: fds => do _ <- close_all fds ;; suppress (sys_close fd) end.
Definition chain_close (c : chain) : M unit := close_all (ch_fds c).

(** [_path_components] *)
Definition component_ok (component : pystr) : bool :=
  negb (bool_decide (component ∈ [[]; u "."; u ".."])) &&
  match fs_encode component with Some b => zlen b <=? 255 | None => false end.
Definition path_components (raw : pystr) : result (list pystr) :=
  let invalid := "invalid path" in
  raise invalid when negb (startswith (u "/") raw) || bool_decide (raw = u "/") || bool_decide (0 ∈ raw) ;;
  match fs_encode raw with
  | None => Err invalid
  | Some encoded =>
      let components := drop 1 (split 47 raw) in
      raise invalid
        when (4096 <? zlen encoded) || negb ((1 <=? zlen components) && (zlen components <=? 64)) || negb (forallb component_ok components) ;;
      Ok components
  end.

(** [_open_chain]: what is open is closed again when a step raises. *)
Fixpoint open_links (uid : Z) (c : chain) (components : list pystr) : M chain :=
  match components with
  | [] => do _ <- on_error (revalidate c) (chain_close c) ;; pret c
  | component :: components =>
      do child <- on_error (sys_open_dir (chain_fd c) component) (chain_close c) ;;
      let c' := Chain (ch_fds c ++ [child]) (ch_names c ++ [component]) (ch_secure c) (ch_private_tail c) in
      do _ <- on_error
        (do held <- sys_fstat child ;;
         do visible <- sys_stat (chain_fd c) component ;;
         refuse negb (same_inode held visible) ;;
         if ch_secure c then do _ <- pure (check_directory held uid true false) ;; check_no_acl child else pret tt)
        (chain_close c') ;;
      open_links uid c' components
  end.
Definition open_chain (path : pystr) (secure : bool) : M chain :=
  do components <- pure (path_components path) ;;
  do root_fd <- sys_open_root ;;
  let c := Chain [root_fd] [] secure 0 in
  do uid <- pgets geteuid ;;
  do _ <- (if secure then
             on_error (do held <- sys_fstat root_fd ;; do _ <- pure (check_directory held uid true false) ;; check_no_acl root_fd) (chain_close c)
           else pret tt) ;;
  open_links uid c components.

(** * Files *)

(** [finally: os.close(fd)], whose exception shows when there is no other *)
Definition closing {A} (fd : Z) (m : M A) : M A := fun w =>
  let (w, r) := m w in
  let (w, c) := sys_close fd w in
  (w, match r, c with Return _, Throw e => Throw e | _, _ => r end).

(** [_TEMPORARY] *)
Definition random_hex_re : re := rep 32 (RCls [(48, 57); (97, 102)]).
Definition temporary_re : re :=
  RCat (lit (u ".")) (RCat (RAlt (lit (u "pending")) (RAlt (lit (u "observed")) (lit (u "confirmed"))))
    (RCat (lit (u ".")) (RCat random_hex_re (lit (u ".tmp"))))).
Definition is_final (name : pystr) : bool := bool_decide (name ∈ FINAL_NAMES).

(** One entry of [_enumerate] *)
Definition enumerate_entry (d : Z) (name : pystr) : M (list Z) :=
  do metadata <- sys_stat d name ;;
  do uid <- pgets geteuid ;;
  do _ <- pure (safe_file metadata uid (negb (is_final name))) ;;
  do fd <- sys_open_file d name ;;
  do _ <- closing fd
    (do held <- sys_fstat fd ;;
     refuse negb (same_inode metadata held) ;;
     do uid <- pgets geteuid ;;
     do _ <- pure (safe_file held uid (negb (is_final name))) ;;
     check_no_acl fd) ;;
  pret (entry_signature metadata).

Fixpoint enumerate_names (d : Z) (names : list (answer pystr)) (entries : list (pystr * list Z)) (temporaries : Z) : M (list (pystr * list Z)) :=
  match names with
  | [] => pret entries
  | Throw e :: _ => throw e
  | Return name :: names =>
      refuse (16 <=? zlen entries) || match utf8_encode name with Some b => 80 <? zlen b | None => true end ;;
      refuse negb (is_final name) && negb (fullmatch temporary_re name) ;;
      let temporaries := if is_final name then temporaries else temporaries + 1 in
      refuse negb (is_final name) && (8 <? temporaries) ;;
      do signature <- enumerate_entry d name ;;
      enumerate_names d names (item_set entries name signature) temporaries
  end.
Definition enumerate (d : Z) : M (list (pystr * list Z)) :=
  do names <- (fun w => scandir w d) ;;
  enumerate_names d names [] 0.

(** The loop of [_read_artifact].  Each chunk has a byte at least and no more than
    was asked: [MAX_ARTIFACT_BYTES + 2] turns are enough. *)
Fixpoint read_chunks (fuel : nat) (fd remaining : Z) (payload : bytes) : M bytes :=
  match fuel with
  | O => throw Failure
  | S fuel =>
      if remaining =? 0 then pret payload
      else
        do chunk <- sys_read fd remaining ;;
        match chunk with
        | [] => pret payload
        | _ :: _ => read_chunks fuel fd (remaining - zlen chunk) (payload ++ chunk)
        end
  end.

(** [_read_artifact] *)
Definition read_artifact (d : Z) (name : pystr) : M bytes :=
  do before <- sys_stat d name ;;
  do uid <- pgets geteuid ;;
  do _ <- pure (safe_file before uid false) ;;
  do fd <- sys_open_file d name ;;
  closing fd
    (do held <- sys_fstat fd ;;
     refuse negb (same_inode before held) ;;
     do uid <- pgets geteuid ;;
     do _ <- pure (safe_file held uid false) ;;
     do _ <- check_no_acl fd ;;
     do payload <- read_chunks (Z.to_nat (MAX_ARTIFACT_BYTES + 2)) fd (MAX_ARTIFACT_BYTES + 1) [] ;;
     do after <- sys_fstat fd ;;
     refuse negb (bool_decide (entry_signature held = entry_signature after)) || (MAX_ARTIFACT_BYTES <? zlen payload) ;;
     pret payload).

(** * The reader *)

(** [before != after]: two dicts are equal whatever their order. *)
Definition entries_eqb (a b : list (pystr * list Z)) : bool :=
  (length a =? length b)%nat && forallb (fun '(k, v) => bool_decide (item_get b k = Some v)) a.

Definition read_phase (d : Z) (entries : list (pystr * list Z)) (p : phase) : M (option (pystr * option observation)) :=
  match item_get entries (final_name p) with
  | None => pret None
  | Some _ =>
      do payload <- read_artifact d (final_name p) ;;
      do decoded <- pure (decode_artifact payload p) ;;
      pret (Some decoded)
  end.

(** [try: chain.revalidate() except Exception: raise OCIExecRecordError("changed")] *)
Definition revalidate_again (c : chain) : M unit := or_record_error "changed" (revalidate c).

(** The body of [read_exec_record], once the chain is open *)
Definition inspect (c : chain) : M snapshot :=
  refuse zlen (ch_fds c) <? 2 ;;
  let c := Chain (ch_fds c) (ch_names c) (ch_secure c) 2 in
  do _ <- revalidate c ;;
  do before <- enumerate (chain_fd c) ;;
  do pending <- read_phase (chain_fd c) before Pending ;;
  do observed <- read_phase (chain_fd c) before Observed ;;
  do confirmed <- read_phase (chain_fd c) before Confirmed ;;
  do _ <- revalidate_again c ;;
  do after <- enumerate (chain_fd c) ;;
  if negb (entries_eqb before after) then throw (RecordError "changed")
  else
    do _ <- revalidate_again c ;;
    pure (snapshot_of pending observed confirmed).

Definition read_exec_record (path : pystr) : M snapshot :=
  or_stage "read"
    (refuse negb on_linux ;;
     do c <- open_chain path true ;;
     finally (inspect c) (chain_close c)).
End directories.
