(* ===== verification/ExecRecordWriter.v ===== *)
(** The writer of a durable exec record ([OCIExecRecordWriter] of
    [oci_exec_record.py]): the reservation of its directory and the publication of
    its three files. *)
From S2P Require Import Prelude Crypto PyStr PyVal ControlV2Wire ExecSession ExecRecord ExecRecordOS.

(** [OCIExecRecordWriter.__init__] *)
Record writer := Writer {
  wr_chain : chain;
  wr_record_id : pystr;
  wr_pid : Z;
  wr_closed : bool;
  wr_poisoned : bool;
  wr_observed : option observation;
  wr_published : list (phase * (list Z * bytes));
}.
#[export] Instance writer_eta : Eta writer := fun w =>
  Writer (wr_chain w) (wr_record_id w) (wr_pid w) (wr_closed w) (wr_poisoned w) (wr_observed w) (wr_published w).

Definition published (w : writer) (p : phase) : option (list Z * bytes) :=
  option_map snd (List.find (fun kv => bool_decide (fst kv = p)) (wr_published w)).

(** The local variables of [_publish] that its handlers read. *)
Record frame (W : Type) := Frame { fr_world : W; fr_temporary : option pystr; fr_fd : option Z; fr_identity : option (Z * Z) }.
Arguments Frame {W}. Arguments fr_world {W}. Arguments fr_temporary {W}. Arguments fr_fd {W}. Arguments fr_identity {W}.
#[export] Instance frame_eta {W} : Eta (frame W) := fun f => Frame (fr_world f) (fr_temporary f) (fr_fd f) (fr_identity f).

Definition sys {W A} (m : prog W A) : prog (frame W) A := fun f => let (w, r) := m (fr_world f) in (f <| fr_world := w |>, r).

Section writer.
Context {W : Type} `{RecordOS W}.
#[local] Notation M := (prog W).

(** [_ensure_active] *)
Definition ensure_active (w : writer) (world : W) : answer unit :=
  if negb (getpid world =? wr_pid w) then Throw (RecordError "forked")
  else if wr_closed w then Throw (RecordError "closed")
  else if wr_poisoned w then Throw (RecordError "poisoned")
  else Return tt.

Definition writer_fd (w : writer) : Z := chain_fd (wr_chain w).

(** [close] *)
Definition writer_close (w : writer) (world : W) : W * writer :=
  if wr_closed w then (world, w)
  else ((chain_close (wr_chain w) world).1,
        w <| wr_closed := true |> <| wr_chain := Chain [] (ch_names (wr_chain w)) (ch_secure (wr_chain w)) (ch_private_tail (wr_chain w)) |>).

(** [_cleanup_exact] *)
Definition cleanup_exact (w : writer) (name : option pystr) (identity : option (Z * Z)) : M unit :=
  match name, identity with
  | Some name, Some identity =>
      suppress
        (do visible <- sys_stat (writer_fd w) name ;;
         if bool_decide (identity_of visible = identity) then sys_unlink (writer_fd w) name else pret tt)
  | _, _ => pret tt
  end.

(** [_validate_predecessors] *)
Definition validate_predecessor (w : writer) (p : phase) : M unit :=
  match published w p with
  | None => throw Failure
  | Some (expected_signature, expected_payload) =>
      do visible <- sys_stat (writer_fd w) (final_name p) ;;
      refuse negb (bool_decide (entry_signature visible = expected_signature)) ;;
      do payload <- read_artifact (writer_fd w) (final_name p) ;;
      refuse negb (bool_decide (payload = expected_payload)) ;;
      do decoded <- pure (decode_artifact payload p) ;;
      refuse negb (bool_decide (fst decoded = wr_record_id w)) ;;
      refuse bool_decide (p = Pending) && negb (bool_decide (snd decoded = None)) ;;
      refuse bool_decide (p = Observed) && negb (bool_decide (snd decoded = wr_observed w)) ;;
      pret tt
  end.
Fixpoint validate_each (w : writer) (ps : list phase) : M unit :=
  match ps with [] => pret tt | p :: ps => do _ <- validate_predecessor w p ;; validate_each w ps end.
Definition validate_predecessors (w : writer) (p : phase) : M unit := validate_each w (predecessors p).

(** [_validate_temporary] *)
Definition validate_temporary (w : writer) (name : pystr) (fd : Z) (identity : Z * Z) (payload_size : Z) : M unit :=
  do held <- sys_fstat fd ;;
  do visible <- sys_stat (writer_fd w) name ;;
  refuse negb (same_inode held visible) || negb (bool_decide (identity_of held = identity)) ;;
  do uid <- pgets geteuid ;;
  do _ <- pure (safe_file held uid false) ;;
  do _ <- pure (safe_file visible uid false) ;;
  refuse negb (st_size held =? payload_size) || negb (st_size visible =? payload_size) ;;
  check_no_acl fd.

(** The loop that writes: a turn takes a byte at least, so the length of the
    payload bounds the turns. *)
Fixpoint write_all (fuel : nat) (fd : Z) (payload : bytes) : M unit :=
  match payload, fuel with
  | [], _ => pret tt
  | _ :: _, O => throw Failure
  | _ :: _, S fuel =>
      do written <- sys_write fd payload ;;
      refuse written <=? 0 ;;
      write_all fuel fd (drop (Z.to_nat written) payload)
  end.

Definition temporary_name (p : phase) (hex : pystr) : pystr := u "." ++ u (phase_name p) ++ u "." ++ hex ++ u ".tmp".

(** The [try] of [_publish] *)
Definition publish_body (w : writer) (p : phase) (o : option observation) : prog (frame W) (list Z * bytes) :=
  let d := writer_fd w in
  do hex <- sys uuid4 ;;
  let temporary := temporary_name p hex in
  do _ <- pmodify (fun f => f <| fr_temporary := Some temporary |>) ;;
  do payload <- pure (encode_artifact (wr_record_id w) p o) ;;
  do _ <- sys (revalidate (wr_chain w)) ;;
  do _ <- sys (validate_predecessors w p) ;;
  do fd <- sys (sys_create d temporary) ;;
  do _ <- pmodify (fun f => f <| fr_fd := Some fd |>) ;;
  do metadata <- sys (sys_fstat fd) ;;
  let identity := identity_of metadata in
  do _ <- pmodify (fun f => f <| fr_identity := Some identity |>) ;;
  do uid <- sys (pgets geteuid) ;;
  do _ <- pure (safe_file metadata uid true) ;;
  do _ <- sys (check_no_acl fd) ;;
  do _ <- sys (write_all (length payload) fd payload) ;;
  do _ <- sys (sys_fsync fd) ;;
  do _ <- sys (validate_temporary w temporary fd identity (zlen payload)) ;;
  do _ <- sys (revalidate (wr_chain w)) ;;
  do _ <- sys (validate_predecessors w p) ;;
  do _ <- sys (validate_temporary w temporary fd identity (zlen payload)) ;;
  do _ <- sys (rename_noreplace d temporary (final_name p)) ;;
  do visible <- sys (sys_stat d (final_name p)) ;;
  refuse negb (bool_decide (identity_of visible = identity)) ;;
  do uid <- sys (pgets geteuid) ;;
  do _ <- pure (safe_file visible uid false) ;;
  do _ <- sys (sys_fsync d) ;;
  do _ <- sys (revalidate (wr_chain w)) ;;
  do _ <- sys (validate_predecessors w p) ;;
  do after_sync <- sys (sys_stat d (final_name p)) ;;
  refuse negb (bool_decide (entry_signature after_sync = entry_signature visible)) ;;
  do _ <- sys (check_no_acl fd) ;;
  do _ <- sys (sys_close fd) ;;
  do _ <- pmodify (fun f => f <| fr_fd := None |>) ;;
  pret (entry_signature after_sync, payload).

(** The [except] and the [finally] of [_publish] *)
Definition publish_failed (w : writer) (p : phase) (f : frame W) (e : exn) : W * (writer * answer unit) :=
  let w := w <| wr_poisoned := true |> in
  let world := (cleanup_exact w (fr_temporary f) (fr_identity f) (fr_world f)).1 in
  let (world, w) := match e with Interrupt => writer_close w world | _ => (world, w) end in
  let world := match fr_fd f with Some fd => (suppress (sys_close fd) world).1 | None => world end in
  (world, (w, Throw match e with Interrupt => Interrupt | _ => RecordError (phase_name p) end)).

(** [_publish] *)
Definition publish (w : writer) (p : phase) (o : option observation) (world : W) : W * (writer * answer unit) :=
  match ensure_active w world with
  | Throw e => (world, (w, Throw e))
  | Return _ =>
      match publish_body w p o (Frame world None None None) with
      | (f, Return entry) => (fr_world f, (w <| wr_published := (p, entry) :: wr_published w |>, Return tt))
      | (f, Throw e) => publish_failed w p f e
      end
  end.

(** [publish_observed] *)
Definition publish_observed (w : writer) (o : observation) (world : W) : W * (writer * answer unit) :=
  match publish w Observed (Some o) world with
  | (world, (w, Return _)) => (world, (w <| wr_observed := Some o |>, Return tt))
  | r => r
  end.

(** [publish_confirmed] *)
Definition publish_confirmed (w : writer) (o : observation) (world : W) : W * (writer * answer unit) :=
  match ensure_active w world with
  | Throw e => (world, (w, Throw e))
  | Return _ =>
      match validate_observation o true with
      | Ok confirmed =>
          if bool_decide (Some confirmed = option_map confirm (wr_observed w)) then publish w Confirmed (Some confirmed) world
          else (world, (w <| wr_poisoned := true |>, Throw (RecordError "confirmed")))
      | Err _ => (world, (w <| wr_poisoned := true |>, Throw (RecordError "confirmed")))
      end
  end.

(** * [reserve] *)

Definition fd_identity (fd : Z) : M (Z * Z) :=
  do a <- sys_fstat fd ;; do b <- sys_fstat fd ;; pret (st_dev a, st_ino b).
Fixpoint any_identity (fds : list Z) (identity : Z * Z) : M bool :=
  match fds with
  | [] => pret false
  | fd :: fds => do i <- fd_identity fd ;; if bool_decide (i = identity) then pret true else any_identity fds identity
  end.

(** The directory made and opened, below the chain of its parent *)
Definition make_directory (c : chain) (managed : Z * Z) (name : pystr) : M Z :=
  do inside <- any_identity (ch_fds c) managed ;;
  refuse inside ;;
  do parent <- sys_fstat (chain_fd c) ;;
  do uid <- pgets geteuid ;;
  do _ <- pure (check_directory parent uid true true) ;;
  do _ <- sys_mkdir (chain_fd c) name ;;
  do created <- sys_stat (chain_fd c) name ;;
  do _ <- pure (check_directory created uid true true) ;;
  do child <- sys_open_dir (chain_fd c) name ;;
  do _ <- on_error
    (do held <- sys_fstat child ;;
     do visible <- sys_stat (chain_fd c) name ;;
     refuse negb (same_inode created held) || negb (same_inode held visible) ;;
     do _ <- pure (check_directory held uid true true) ;;
     do _ <- pure (check_directory visible uid true true) ;;
     check_no_acl child)
    (suppress (sys_close child)) ;;
  pret child.

(** The two directories made durable, and the identifier drawn *)
Definition prepare_record (c : chain) : M pystr :=
  do _ <- revalidate c ;;
  do _ <- sys_fsync (chain_fd c) ;;
  do _ <- sys_fsync (chain_parent_fd c) ;;
  do _ <- revalidate c ;;
  do hex <- uuid4 ;;
  pret (hyphenate hex).

Definition publish_pending (w : writer) : M writer := fun world =>
  match publish w Pending None world with
  | (world, (w, Return _)) => (world, Return w)
  | (world, (w, Throw e)) => ((writer_close w world).1, Throw e)
  end.

Definition reserve (path managed_state : pystr) : M writer :=
  or_stage "reserve"
    (refuse negb on_linux ;;
     do components <- pure (path_components path) ;;
     let parent_path := 47 :: join [47] (removelast components) in
     let name := List.last components [] in
     do managed_chain <- open_chain managed_state false ;;
     finally
       (do managed <- fd_identity (chain_fd managed_chain) ;;
        do c <- open_chain parent_path true ;;
        do child <- on_error (make_directory c managed name) (chain_close c) ;;
        let c := Chain (ch_fds c ++ [child]) (ch_names c ++ [name]) (ch_secure c) 2 in
        do record_id <- on_error (prepare_record c) (chain_close c) ;;
        do pid <- pgets getpid ;;
        publish_pending (Writer c record_id pid false false None []))
       (chain_close managed_chain)).

(** [record_id] *)
Definition get_record_id (w : writer) (world : W) : answer pystr :=
  match ensure_active w world with Return _ => Return (wr_record_id w) | Throw e => Throw e end.
End writer.
