(* ===== verification/ExecRecordDisk.v ===== *)
(** What the calls of a record's writer leave on the disk: the events of its
    directory, their replay, and the laws of the system calls. *)
From stdpp Require Import gmap.
From S2P Require Import Prelude Crypto PyStr PyVal ControlV2Wire ExecSession ExecRecord ExecRecordFacts ExecRecordOS ExecRecordWriter.

(** * Events *)

(** A call that took effect.  [Synced] of a directory makes its entries durable,
    of a file its bytes. *)
Inductive disk_event :=
| Made (d : Z) (name : pystr)
| OpenedDir (fd : Z)
| OpenedFile (fd : Z)
| Created (d : Z) (name : pystr) (fd : Z)
| Wrote (fd : Z) (data : bytes)
| Synced (fd : Z)
| Renamed (d : Z) (source target : pystr)
| Unlinked (d : Z) (name : pystr)
| Closed (fd : Z).
#[export] Instance disk_event_eq_dec : EqDecision disk_event.
Proof. solve_decision. Defined.

(** The descriptors the process was given and has not closed *)
Definition in_use_step (fds : list Z) (e : disk_event) : list Z :=
  match e with
  | OpenedDir fd | OpenedFile fd | Created _ _ fd => fd :: fds
  | Closed fd => List.filter (fun x => negb (x =? fd)) fds
  | _ => fds
  end.
Definition in_use (l : list disk_event) : list Z := fold_left in_use_step l [].

(** A directory known by its descriptor: its entries, those that are durable, and
    the files: their bytes, and whether they are all durable. *)
Record disk := Disk { dk_entries : gmap pystr nat; dk_durable : gmap pystr nat; dk_files : list (bytes * bool); dk_fds : gmap Z nat }.
#[export] Instance disk_eta : Eta disk := fun s => Disk (dk_entries s) (dk_durable s) (dk_files s) (dk_fds s).

Definition empty_disk : disk := Disk ∅ ∅ [] ∅.

Definition change_file (s : disk) (fd : Z) (f : bytes * bool -> bytes * bool) : disk :=
  match dk_fds s !! fd with Some i => s <| dk_files := alter f i (dk_files s) |> | None => s end.

(** The directory is new when its descriptor is opened. *)
Definition disk_step (D : Z) (s : disk) (e : disk_event) : disk :=
  match e with
  | Made _ _ => s
  | OpenedDir fd => if fd =? D then empty_disk else s <| dk_fds := delete fd (dk_fds s) |>
  | OpenedFile fd | Closed fd => s <| dk_fds := delete fd (dk_fds s) |>
  | Created d name fd =>
      if d =? D then
        s <| dk_entries := <[name := length (dk_files s)]> (dk_entries s) |> <| dk_files := dk_files s ++ [([], false)] |>
          <| dk_fds := <[fd := length (dk_files s)]> (dk_fds s) |>
      else s <| dk_fds := delete fd (dk_fds s) |>
  | Wrote fd data => change_file s fd (fun f => (fst f ++ data, false))
  | Synced fd => if fd =? D then s <| dk_durable := dk_entries s |> else change_file s fd (fun f => (fst f, true))
  | Renamed d source target =>
      if d =? D then
        match dk_entries s !! source with
        | Some i => s <| dk_entries := <[target := i]> (delete source (dk_entries s)) |>
        | None => s
        end
      else s
  | Unlinked d name => if d =? D then s <| dk_entries := delete name (dk_entries s) |> else s
  end.
Definition replay (D : Z) (l : list disk_event) : disk := fold_left (disk_step D) l empty_disk.

Lemma replay_app D l k : replay D (l ++ k) = fold_left (disk_step D) k (replay D l).
Proof. apply fold_left_app. Qed.
Lemma in_use_app l k : in_use (l ++ k) = fold_left in_use_step k (in_use l).
Proof. apply fold_left_app. Qed.

(** * The laws *)

Class RecordView (W : Type) := log : W -> list disk_event.

Section laws.
Context {W : Type} `{RecordView W}.

(** A call that returns took effect; one that raises may have. *)
Definition logs (w : W) (c : W * answer unit) (e : disk_event) : Prop :=
  match c.2 with
  | Return _ => log c.1 = log w ++ [e]
  | Throw _ => log c.1 = log w \/ log c.1 = log w ++ [e]
  end.

(** An open answers a descriptor that is not in use. *)
Definition opens (w : W) (c : W * answer Z) (e : Z -> disk_event) : Prop :=
  match c.2 with
  | Return fd => fd ∉ in_use (log w) /\ log c.1 = log w ++ [e fd]
  | Throw _ => log c.1 = log w \/ exists fd, fd ∉ in_use (log w) /\ log c.1 = log w ++ [e fd]
  end.

Definition silent {A} (w : W) (c : W * answer A) : Prop := log c.1 = log w.

(** A [write] takes the front of its bytes; [renameat2] with [RENAME_NOREPLACE]
    takes effect where the target is not there.  The directory of a record is
    private: nothing else acts in it. *)
Class RecordLaws `{RecordOS W} := {
  law_open_root w : opens w (open_root w) OpenedDir;
  law_open_dir w d name : opens w (open_dir w d name) OpenedDir;
  law_open_file w d name : opens w (open_file w d name) OpenedFile;
  law_create w d name : opens w (create w d name) (Created d name);
  law_mkdir w d name : logs w (mkdir w d name) (Made d name);
  law_write w fd b :
    match (write w fd b).2 with
    | Return n => n <= zlen b /\ log (write w fd b).1 = log w ++ [Wrote fd (take (Z.to_nat n) b)]
    | Throw _ => log (write w fd b).1 = log w \/ exists n, log (write w fd b).1 = log w ++ [Wrote fd (take n b)]
    end;
  law_fsync w fd : logs w (fsync w fd) (Synced fd);
  law_rename w d source target : logs w (rename w d source target) (Renamed d source target) /\
    (log (rename w d source target).1 <> log w -> dk_entries (replay d (log w)) !! target = None);
  law_unlink w d name : logs w (unlink w d name) (Unlinked d name);
  law_close w fd : logs w (close w fd) (Closed fd);
  law_stat w d name : silent w (stat w d name);
  law_fstat w fd : silent w (fstat w fd);
  law_listxattr w fd : silent w (listxattr w fd);
  law_fgetxattr w fd name n : silent w (fgetxattr w fd name n);
  law_read w fd n : silent w (read w fd n);
  law_scandir w d : silent w (scandir w d);
  law_uuid4 w : silent w (uuid4 w);
}.
End laws.
Arguments RecordLaws W {_ _}.

(** * Calls that leave the disk as it is *)

(** Other descriptors come and go. *)
Definition noise (used : list Z) (e : disk_event) : Prop :=
  match e with OpenedDir fd | OpenedFile fd | Closed fd => fd ∉ used | _ => False end.
Definition quiet (l l' : list disk_event) : Prop := exists k, l' = l ++ k /\ Forall (noise (in_use l)) k.

Lemma in_use_step_keep fd used e : fd ∈ used -> (match e with Closed x => x <> fd | _ => True end) -> fd ∈ in_use_step used e.
Proof.
  intros Hf He. destruct e; cbn [in_use_step]; try done; try by right.
  apply list_elem_of_In, filter_In. split; [by apply list_elem_of_In|]. apply negb_true_iff, Z.eqb_neq. congruence.
Qed.

Lemma in_use_noise fd k : forall used used', fd ∈ used -> fd ∈ used' -> Forall (noise used) k -> fd ∈ fold_left in_use_step k used'.
Proof.
  induction k as [|e k IH]; intros used used' Hf Hf' Hk; [done|]. apply Forall_cons in Hk as [He Hk]. cbn [fold_left].
  apply (IH used); [done| |done]. apply in_use_step_keep; [done|]. destruct e; try done. cbn in He. congruence.
Qed.

Lemma quiet_in_use l l' fd : quiet l l' -> fd ∈ in_use l -> fd ∈ in_use l'.
Proof. intros (k & -> & Hk) Hf. rewrite in_use_app. by eapply in_use_noise. Qed.

#[export] Instance quiet_preorder : PreOrder quiet.
Proof.
  split.
  - intros l. exists []. by rewrite app_nil_r.
  - intros l1 l2 l3 H1 (k2 & -> & H2). pose proof H1 as (k1 & -> & Hk1). exists (k1 ++ k2). split; [by rewrite app_assoc|].
    apply Forall_app. split; [done|]. eapply Forall_impl; [exact H2|]. intros e He.
    destruct e; try done; cbn in *; intros Hf; apply He; by eapply quiet_in_use.
Qed.

Lemma quiet_one l e : noise (in_use l) e -> quiet l (l ++ [e]).
Proof. intros He. exists [e]. split; [done|]. apply List.Forall_cons; [done|apply List.Forall_nil]. Qed.

(** The disk is the same, and so are the descriptors in use. *)
Definition same_disk (used : list Z) (s s' : disk) : Prop :=
  dk_entries s' = dk_entries s /\ dk_durable s' = dk_durable s /\ dk_files s' = dk_files s /\
  forall fd, fd ∈ used -> dk_fds s' !! fd = dk_fds s !! fd.

Lemma noise_same_disk D used s e : D ∈ used -> noise used e -> same_disk used s (disk_step D s e).
Proof.
  intros HD He. destruct e as [| fd|fd| | | | | |fd]; try done; cbn in He; cbn [disk_step].
  1: destruct (fd =? D) eqn:G; bool_norm; [congruence|].
  all: split_and!; try done; cbn; intros x Hx; apply lookup_delete_ne; congruence.
Qed.

Lemma same_disk_trans used s1 s2 s3 : same_disk used s1 s2 -> same_disk used s2 s3 -> same_disk used s1 s3.
Proof.
  intros (E1 & D1 & F1 & Hf1) (E2 & D2 & F2 & Hf2). split_and!; [congruence..|]. intros fd Hf. by rewrite Hf2, Hf1.
Qed.

Lemma noise_replay D used k : forall s, D ∈ used -> Forall (noise used) k -> same_disk used s (fold_left (disk_step D) k s).
Proof.
  induction k as [|e k IH]; intros s HD Hk; [by split_and!|]. apply Forall_cons in Hk as [He Hk]. cbn [fold_left].
  eapply same_disk_trans; [by apply noise_same_disk|by apply IH].
Qed.

Lemma quiet_replay D l l' : quiet l l' -> D ∈ in_use l -> same_disk (in_use l) (replay D l) (replay D l').
Proof. intros (k & -> & Hk) HD. rewrite replay_app. by apply noise_replay. Qed.

Section quiet.
Context {W : Type} `{RecordView W} `{RecordOS W} `{!RecordLaws W}.

Definition quiet_prog {A} (m : prog W A) : Prop := forall w, quiet (log w) (log (m w).1).

Lemma quiet_pret {A} (a : A) : quiet_prog (pret a).
Proof. by intros w. Qed.
Lemma quiet_throw {A} e : quiet_prog (throw (A := A) e).
Proof. by intros w. Qed.
Lemma quiet_pure {A} (r : result A) : quiet_prog (pure r).
Proof. destruct r; [apply quiet_pret|apply quiet_throw]. Qed.
Lemma quiet_pgets {A} (f : W -> A) : quiet_prog (pgets f).
Proof. by intros w. Qed.
Lemma quiet_bind {A B} (m : prog W A) (k : A -> prog W B) : quiet_prog m -> (forall a, quiet_prog (k a)) -> quiet_prog (pbind m k).
Proof.
  intros Hm Hk w. unfold pbind. specialize (Hm w). destruct (m w) as [w1 [a|e]]; cbn [fst] in *; [|done]. etrans; [exact Hm|apply Hk].
Qed.
Lemma quiet_if {A} (b : bool) (m n : prog W A) : quiet_prog m -> quiet_prog n -> quiet_prog (if b then m else n).
Proof. by destruct b. Qed.
Lemma quiet_silent {A} (m : prog W A) : (forall w, silent w (m w)) -> quiet_prog m.
Proof. intros Hm w. by rewrite (Hm w). Qed.
Lemma quiet_or_record_error {A} s (m : prog W A) : quiet_prog m -> quiet_prog (or_record_error s m).
Proof. intros Hm w. unfold or_record_error. specialize (Hm w). by destruct (m w) as [w1 [a|[| |]]]. Qed.

(** A file opened for a while *)
Lemma quiet_open_closing {A B} d name (m : Z -> prog W A) (k : A -> prog W B) : (forall fd, quiet_prog (m fd)) -> (forall a, quiet_prog (k a)) ->
  quiet_prog (do fd <- sys_open_file d name ;; do a <- closing fd (m fd) ;; k a).
Proof.
  intros Hm Hk w. unfold pbind at 1, sys_open_file. pose proof (law_open_file w d name) as Ho. unfold opens in Ho.
  destruct (open_file w d name) as [w1 [fd|e]]; cbn [fst snd] in *.
  2: { destruct Ho as [->|(fd & Hf & ->)]; [done|by apply quiet_one]. }
  destruct Ho as [Hf E1]. unfold pbind, closing. specialize (Hm fd w1). destruct (m fd w1) as [w2 r]. cbn [fst] in Hm.
  unfold sys_close. pose proof (law_close w2 fd) as Hc. unfold logs in Hc. destruct (close w2 fd) as [w3 c]. cbn [fst snd] in *.
  destruct Hm as (k2 & E2 & H2). rewrite E1 in E2, H2.
  assert (quiet (log w) (log w3)) as Hq.
  { assert (quiet (log w) (log w2)) as Hq2.
    { rewrite E2. exists ([OpenedFile fd] ++ k2). split; [by rewrite app_assoc|]. apply Forall_app. split; [by apply List.Forall_cons|].
      eapply Forall_impl; [exact H2|]. intros e He. rewrite in_use_app in He. destruct e; try done; cbn in *; intros Hx; apply He; by right. }
    assert (log w3 = log w2 \/ log w3 = log w2 ++ [Closed fd]) as [->| ->] by (destruct c; tauto); [done|].
    destruct Hq2 as (k3 & -> & H3). exists (k3 ++ [Closed fd]). split; [by rewrite app_assoc|]. apply Forall_app. split; [done|]. by apply List.Forall_cons. }
  destruct r as [a|e]; [|by destruct c]. destruct c; [|done]. etrans; [exact Hq|apply Hk].
Qed.

Lemma quiet_open_last {A} d name (m : Z -> prog W A) : (forall fd, quiet_prog (m fd)) ->
  quiet_prog (do fd <- sys_open_file d name ;; closing fd (m fd)).
Proof.
  intros Hm w. pose proof (quiet_open_closing d name m pret Hm quiet_pret w) as Hq. unfold pbind, pret in *.
  destruct (sys_open_file d name w) as [w1 [fd|e]]; [|done]. by destruct (closing fd (m fd) w1) as [w2 [a|e]].
Qed.

#[local] Hint Resolve quiet_pret quiet_throw quiet_pure quiet_pgets quiet_silent quiet_or_record_error : quiet.
#[local] Hint Resolve law_stat law_fstat law_listxattr law_fgetxattr law_read law_scandir law_uuid4 : quiet.
#[local] Hint Extern 2 (quiet_prog (pbind _ _)) => apply quiet_bind : quiet.
#[local] Hint Extern 2 (quiet_prog (if _ then _ else _)) => apply quiet_if : quiet.
#[local] Hint Extern 2 (quiet_prog (match ?x with _ => _ end)) => destruct x : quiet.
#[local] Hint Extern 1 (quiet_prog (sys_stat _ _)) => apply quiet_silent; intros ?; apply law_stat : quiet.
#[local] Hint Extern 1 (quiet_prog (sys_fstat _)) => apply quiet_silent; intros ?; apply law_fstat : quiet.
#[local] Hint Extern 1 (quiet_prog (sys_read _ _)) => apply quiet_silent; intros ?; apply law_read : quiet.
Ltac quiet := repeat (intros; first [solve [auto with quiet] | apply quiet_bind | apply quiet_if]).

Lemma quiet_check_no_acl fd : quiet_prog (check_no_acl fd).
Proof. unfold check_no_acl, read_xattr_bounded. quiet. Qed.
#[local] Hint Resolve quiet_check_no_acl : quiet.

Lemma quiet_revalidate_links secure uid start names : forall index parent fds, quiet_prog (revalidate_links secure uid start index parent fds names).
Proof. induction names as [|name names IH]; intros index parent [|fd fds]; cbn [revalidate_links]; quiet. Qed.
#[local] Hint Resolve quiet_revalidate_links : quiet.

Lemma quiet_revalidate c : quiet_prog (revalidate c).
Proof. unfold revalidate. quiet. destruct (ch_fds c); quiet. Qed.

Lemma quiet_enumerate_entry d name : quiet_prog (enumerate_entry d name).
Proof.
  unfold enumerate_entry. do 3 (apply quiet_bind; [quiet|intros ?]). apply (quiet_open_closing d name _ (fun _ => pret _)); quiet.
Qed.
#[local] Hint Resolve quiet_enumerate_entry : quiet.

Lemma quiet_enumerate_names d names : forall entries n, quiet_prog (enumerate_names d names entries n).
Proof.
  induction names as [|[name|e] names IH]; intros entries n; cbn [enumerate_names]; auto with quiet.
Qed.
Lemma quiet_enumerate d : quiet_prog (enumerate d).
Proof. unfold enumerate. apply quiet_bind; [apply quiet_silent; intros ?; apply law_scandir|]. intros ?. apply quiet_enumerate_names. Qed.

Lemma quiet_read_chunks fuel fd : forall remaining payload, quiet_prog (read_chunks fuel fd remaining payload).
Proof. induction fuel as [|fuel IH]; intros remaining payload; cbn [read_chunks]; quiet. Qed.
#[local] Hint Resolve quiet_read_chunks : quiet.

Lemma quiet_read_artifact d name : quiet_prog (read_artifact d name).
Proof. unfold read_artifact. do 3 (apply quiet_bind; [quiet|intros ?]). apply quiet_open_last; quiet. Qed.
End quiet.
Ltac quiet := repeat (intros; first [solve [auto with quiet] | apply quiet_bind | apply quiet_if]).
#[export] Hint Resolve quiet_pret quiet_throw quiet_pure quiet_pgets quiet_or_record_error quiet_check_no_acl quiet_revalidate quiet_read_artifact : quiet.
#[export] Hint Extern 1 (quiet_prog (sys_stat _ _)) => apply quiet_silent; intros ?; apply law_stat : quiet.
#[export] Hint Extern 1 (quiet_prog (sys_fstat _)) => apply quiet_silent; intros ?; apply law_fstat : quiet.

(** * The publications of a durable exec record and its disk: what holds after every
    event of the writer, whether or not its calls return. *)

(** * The disk of a record *)

(** Each file under a final name is complete and durable, after those of the
    phases before it, whose entries are durable; the confirmed facts are the
    observed ones. *)
Record disk_ok (r : pystr) (s : disk) : Prop := {
  ok_final p i : dk_entries s !! final_name p = Some i ->
    exists b o, dk_files s !! i = Some (b, true) /\ encode_artifact r p o = Ok b;
  ok_before p q i : dk_entries s !! final_name p = Some i -> q ∈ predecessors p ->
    exists j, dk_entries s !! final_name q = Some j /\ dk_durable s !! final_name q = Some j;
  ok_confirmed i j : dk_entries s !! final_name Observed = Some i -> dk_entries s !! final_name Confirmed = Some j ->
    exists o b c, dk_files s !! i = Some (b, true) /\ encode_artifact r Observed (Some o) = Ok b /\
      dk_files s !! j = Some (c, true) /\ encode_artifact r Confirmed (Some (confirm o)) = Ok c;
}.

(** A published file stays as it is, and durable. *)
Definition keeps (s s' : disk) : Prop :=
  (forall p i f, dk_entries s !! final_name p = Some i -> dk_files s !! i = Some f ->
    dk_entries s' !! final_name p = Some i /\ dk_files s' !! i = Some f) /\
  forall p i, dk_durable s !! final_name p = Some i -> dk_durable s' !! final_name p = Some i.

#[export] Instance keeps_preorder : PreOrder keeps.
Proof. split; [by intros s|]. intros s1 s2 s3 [H1 D1] [H2 D2]. split; [|auto]. intros p i f E F. destruct (H1 p i f E F). by apply H2. Qed.

(** After every event since [l0] *)
Inductive safe (r : pystr) (D : Z) (l0 : list disk_event) : list disk_event -> Prop :=
| safe_start : disk_ok r (replay D l0) -> safe r D l0 l0
| safe_event l e : safe r D l0 l -> disk_ok r (replay D (l ++ [e])) -> keeps (replay D l) (replay D (l ++ [e])) -> safe r D l0 (l ++ [e]).

Lemma safe_now r D l0 l : safe r D l0 l -> disk_ok r (replay D l).
Proof. by destruct 1. Qed.

Lemma safe_extends r D l0 l : safe r D l0 l -> l0 `prefix_of` l.
Proof. induction 1; [done|]. etrans; [done|]. by apply prefix_app_r. Qed.

Lemma prefix_snoc_cases {A} (l1 l : list A) e : l1 `prefix_of` l ++ [e] -> l1 = l ++ [e] \/ l1 `prefix_of` l.
Proof.
  intros [k E]. destruct k as [|x k _] using rev_ind; [left; by rewrite app_nil_r in E|right].
  rewrite app_assoc in E. apply app_inj_tail in E as [-> _]. by apply prefix_app_r.
Qed.

(** Any two moments *)
Lemma safe_between r D l0 l : safe r D l0 l -> forall l1, l0 `prefix_of` l1 -> l1 `prefix_of` l ->
  disk_ok r (replay D l1) /\ keeps (replay D l1) (replay D l).
Proof.
  induction 1 as [Hok|l e Hs IH Hok Hk]; intros l1 H0 H1.
  - assert (l1 = l0) as -> by (by apply (anti_symm prefix)). by split.
  - destruct (prefix_snoc_cases l1 l e H1) as [->|H1']; [by split|]. destruct (IH l1 H0 H1'). split; [done|]. by etrans.
Qed.

Lemma safe_prefix r D l0 l : safe r D l0 l -> forall l1, l0 `prefix_of` l1 -> l1 `prefix_of` l -> safe r D l0 l1.
Proof.
  induction 1 as [Hok|l e Hs IH Hok Hk]; intros l1 H0 H1.
  - assert (l1 = l0) as -> by (by apply (anti_symm prefix)). by apply safe_start.
  - destruct (prefix_snoc_cases l1 l e H1) as [->|H1']; [by apply safe_event|by apply IH].
Qed.

Lemma safe_trans r D l0 l1 l2 : safe r D l0 l1 -> safe r D l1 l2 -> safe r D l0 l2.
Proof. intros H1. induction 1; [done|]. by apply safe_event. Qed.

(** ** Steps that do not touch what is published *)

(** The same final entries, the same files behind them *)
Definition same_finals (s s' : disk) : Prop :=
  (forall p, dk_entries s' !! final_name p = dk_entries s !! final_name p) /\
  (forall p i, dk_entries s !! final_name p = Some i -> dk_files s' !! i = dk_files s !! i) /\
  (forall p i, dk_durable s !! final_name p = Some i -> dk_durable s' !! final_name p = Some i).

Lemma same_finals_ok r s s' : same_finals s s' -> disk_ok r s -> disk_ok r s'.
Proof.
  intros (He & Hf & Hd) [H1 H2 H3]. split.
  - intros p i. rewrite He. intros E. rewrite (Hf p i E). by apply (H1 p).
  - intros p q i. rewrite He. intros E Hq. destruct (H2 p q i E Hq) as (j & Ej & Dj). exists j. rewrite He. split; [done|]. by apply Hd.
  - intros i j. rewrite !He. intros Ei Ej. rewrite (Hf _ i Ei), (Hf _ j Ej). by apply H3.
Qed.

Lemma same_finals_keeps s s' : same_finals s s' -> keeps s s'.
Proof. intros (He & Hf & Hd). split; [|done]. intros p i f E F. rewrite He, (Hf p i E). done. Qed.

Lemma safe_same r D l0 l e : safe r D l0 l -> same_finals (replay D l) (replay D (l ++ [e])) -> safe r D l0 (l ++ [e]).
Proof. intros Hs Hf. apply safe_event; [done| |]; [eapply same_finals_ok; [done|by eapply safe_now]|by apply same_finals_keeps]. Qed.

Lemma same_disk_finals used s s' : same_disk used s s' -> same_finals s s'.
Proof. intros (E & D & F & _). unfold same_finals. rewrite E, D, F. by split_and!. Qed.

Lemma replay_snoc D l e : replay D (l ++ [e]) = disk_step D (replay D l) e.
Proof. by rewrite replay_app. Qed.

Lemma safe_quiet r D l0 l l' : D ∈ in_use l -> quiet l l' -> safe r D l0 l -> safe r D l0 l'.
Proof.
  intros HD (k & -> & Hk) Hs. induction k as [|e k IH] using rev_ind; [by rewrite app_nil_r|].
  apply Forall_app in Hk as [Hk He]. apply Forall_cons in He as [He _]. rewrite app_assoc. apply safe_same; [by apply IH|].
  rewrite replay_snoc. apply (same_disk_finals (in_use l)). apply noise_same_disk; [exact HD|exact He].
Qed.

(** Closing descriptors *)
Lemma safe_closed r D l0 l fd : safe r D l0 l -> safe r D l0 (l ++ [Closed fd]).
Proof. intros Hs. apply safe_same; [done|]. rewrite replay_snoc. by split_and!. Qed.

Lemma final_name_inj p q : final_name p = final_name q -> p = q.
Proof. by destruct p, q. Qed.

Lemma temporary_not_final p q hex : temporary_name p hex <> final_name q.
Proof. by destruct q. Qed.

Lemma lookup_delete_temporary {A} (m : gmap pystr A) p q hex : delete (temporary_name p hex) m !! final_name q = m !! final_name q.
Proof. apply lookup_delete_ne, temporary_not_final. Qed.
Lemma lookup_insert_temporary {A} (m : gmap pystr A) p q hex i : <[temporary_name p hex := i]> m !! final_name q = m !! final_name q.
Proof. apply lookup_insert_ne, temporary_not_final. Qed.

Lemma safe_unlinked r D l0 l p hex : safe r D l0 l -> safe r D l0 (l ++ [Unlinked D (temporary_name p hex)]).
Proof.
  intros Hs. apply safe_same; [done|]. rewrite replay_snoc. cbn [disk_step]. rewrite Z.eqb_refl. split_and!; cbn; [|done|done].
  intros q. by rewrite lookup_delete_temporary.
Qed.

(** * The rename that publishes *)

(** What a publication of [o] in phase [p] relies on. *)
Definition ready (r : pystr) (s : disk) (p : phase) (o : option observation) : Prop :=
  (forall q, q ∈ predecessors p -> exists j, dk_entries s !! final_name q = Some j /\ dk_durable s !! final_name q = Some j) /\
  (p = Confirmed -> exists seen j c, dk_entries s !! final_name Observed = Some j /\ dk_files s !! j = Some (c, true) /\
    encode_artifact r Observed (Some seen) = Ok c /\ o = Some (confirm seen)).

Lemma renamed_ok r D s p o hex i b :
  disk_ok r s -> dk_entries s !! final_name p = None -> dk_entries s !! temporary_name p hex = Some i ->
  dk_files s !! i = Some (b, true) -> encode_artifact r p o = Ok b -> ready r s p o ->
  let s' := disk_step D s (Renamed D (temporary_name p hex) (final_name p)) in disk_ok r s' /\ keeps s s'.
Proof.
  intros [H1 H2 H3] Hn Ht Hf He [Hp Hc]. cbn [disk_step]. rewrite Z.eqb_refl, Ht. cbn zeta.
  assert (forall q j, <[final_name p:=i]> (delete (temporary_name p hex) (dk_entries s)) !! final_name q = Some j <->
    (q = p /\ j = i) \/ (q <> p /\ dk_entries s !! final_name q = Some j)) as Hl.
  { intros q j. destruct (decide (q = p)) as [->|Hq]; [rewrite lookup_insert_eq; naive_solver|].
    rewrite lookup_insert_ne by (intros E; by apply final_name_inj in E). rewrite lookup_delete_temporary. naive_solver. }
  split.
  - split; cbn.
    + intros q j [[-> ->]|[_ Hq]]%Hl; [by exists b, o|by apply (H1 q)].
    + intros q q' j [[-> ->]|[_ Hq]]%Hl Hin.
      * destruct (Hp q' Hin) as (k & Ek & Dk). exists k. split; [|done]. apply Hl. right. split; [|done]. intros ->. congruence.
      * destruct (H2 q q' j Hq Hin) as (k & Ek & Dk). exists k. split; [|done]. apply Hl. right. split; [|done]. intros ->. congruence.
    + intros j k Hj Hk. apply Hl in Hj, Hk. destruct Hk as [[Ep ->]|[Hne Ek]].
      * destruct Hj as [[? _]|[_ Ej]]; [congruence|]. destruct (Hc (eq_sym Ep)) as (seen & j' & c & Ej' & Fc & Ec & ->).
        assert (j' = j) as -> by congruence. exists seen, c, b. by subst p.
      * destruct Hj as [[Ep ->]|[_ Ej]]; [|by apply H3].
        destruct (H2 Confirmed Observed k Ek) as (j & Ej & _); [by apply list_elem_of_In; right; left|]. congruence.
  - split; [|done]. intros q j f Eq Ef. cbn. split; [|done]. apply Hl. right. split; [|done]. intros ->. congruence.
Qed.

Lemma lookup_last {A} (l : list A) x : (l ++ [x]) !! length l = Some x.
Proof. by rewrite lookup_app_r, Nat.sub_diag by lia. Qed.
Lemma alter_last {A} (l : list A) x f : alter f (length l) (l ++ [x]) = l ++ [f x].
Proof. induction l as [|y l IH]; [done|]. cbn. f_equal. apply IH. Qed.

(** ** Closing *)

Section closing.
Context {W : Type} `{RecordView W} `{RecordOS W} `{!RecordLaws W}.

Lemma safe_close_fd r D base fd x : safe r D base (log x) -> safe r D base (log ((suppress (sys_close fd) x).1)).
Proof.
  intros Hs. unfold suppress, sys_close. pose proof (law_close x fd) as Hl. unfold logs in Hl. destruct (close x fd) as [y [a|ex]]; cbn [fst snd] in *.
  - rewrite Hl. by apply safe_closed.
  - destruct Hl as [->| ->]; [done|by apply safe_closed].
Qed.

Lemma safe_close_all r D base fds : forall x, safe r D base (log x) -> safe r D base (log ((close_all fds x).1)).
Proof.
  induction fds as [|fd fds IH]; intros x Hs; [done|]. cbn [close_all]. unfold pbind. specialize (IH x Hs).
  destruct (close_all fds x) as [y [a|e]]; cbn [fst] in *; [by apply safe_close_fd|done].
Qed.

End closing.

(** * Assertions on the log *)

Section publication.
Context {W : Type} `{RecordView W} `{RecordOS W} `{!RecordLaws W}.
(** The writer and the log its record starts at *)
Context (w : writer) (base : list disk_event).
Let r := wr_record_id w.
Let D := writer_fd w.

Definition assertion := list disk_event -> Prop.

(** An assertion that holds while the calls are quiet *)
Record stable (P : assertion) : Prop := {
  stable_safe l : P l -> safe r D base l;
  stable_quiet l l' : P l -> quiet l l' -> P l';
}.

Definition triple {A} (P : assertion) (m : prog W A) (Q : A -> assertion) : Prop := forall x, P (log x) ->
  match m x with (y, Return a) => Q a (log y) | (y, Throw _) => safe r D base (log y) end.

(** The same of [publish_body]: the temporary name is one. *)
Definition named (f : frame W) : Prop := forall n, fr_temporary f = Some n -> exists p hex, n = temporary_name p hex.
Definition ftriple {A} (P : assertion) (m : prog (frame W) A) (Q : A -> assertion) : Prop := forall f, named f -> P (log (fr_world f)) ->
  match m f with (g, Return a) => named g /\ Q a (log (fr_world g)) | (g, Throw _) => named g /\ safe r D base (log (fr_world g)) end.

Lemma triple_quiet {A} P (m : prog W A) : quiet_prog m -> stable P -> triple P m (fun _ => P).
Proof.
  intros Hm [Hs Hq] x Hx. specialize (Hm x). destruct (m x) as [y [a|e]]; cbn in Hm; [by eapply Hq|]. by eapply Hs, Hq.
Qed.

Lemma ftriple_sys {A} P (m : prog W A) Q : triple P m Q -> ftriple P (sys m) Q.
Proof. intros Hm f Hn Hf. unfold sys. specialize (Hm _ Hf). by destruct (m (fr_world f)) as [y [a|e]]. Qed.

Lemma ftriple_bind {A B} P (m : prog (frame W) A) R (k : A -> prog (frame W) B) Q :
  ftriple P m R -> (forall a, ftriple (R a) (k a) Q) -> ftriple P (pbind m k) Q.
Proof.
  intros Hm Hk f Hn Hf. unfold pbind. specialize (Hm f Hn Hf). destruct (m f) as [g [a|e]]; destruct Hm as [Hg Hr]; [by apply Hk|done].
Qed.

Lemma ftriple_quiet {A B} P (m : prog W A) (k : A -> prog (frame W) B) Q : quiet_prog m -> stable P ->
  (forall a, ftriple P (k a) Q) -> ftriple P (pbind (sys m) k) Q.
Proof. intros Hm HP Hk. eapply ftriple_bind; [by apply ftriple_sys, triple_quiet|exact Hk]. Qed.

Lemma ftriple_pure {A B} P (x : result A) (k : A -> prog (frame W) B) Q : stable P ->
  (forall a, x = Ok a -> ftriple P (k a) Q) -> ftriple P (pbind (pure x) k) Q.
Proof. intros [Hs _] Hk f Hn Hf. destruct x as [a|]; [by apply (Hk a)|]. split; [done|by apply Hs]. Qed.

Lemma ftriple_refuse {B} P (b : bool) (k : prog (frame W) B) Q : stable P ->
  (b = false -> ftriple P k Q) -> ftriple P (if b then throw Failure else k) Q.
Proof. intros [Hs _] Hk. destruct b; [|by apply Hk]. intros f Hn Hf. split; [done|by apply Hs]. Qed.

Lemma ftriple_fact {B} (X : Prop) P (k : prog (frame W) B) Q : (X -> ftriple P k Q) -> ftriple (fun l => X /\ P l) k Q.
Proof. intros Hk f Hn [Hx Hf]. by apply Hk. Qed.

Lemma ftriple_modify {B} P g (k : unit -> prog (frame W) B) Q :
  (forall f, named f -> named (g f) /\ fr_world (g f) = fr_world f) -> ftriple P (k tt) Q -> ftriple P (pbind (pmodify g) k) Q.
Proof. intros Hg Hk f Hn Hf. unfold pbind, pmodify. destruct (Hg f Hn) as [Hn' E]. apply Hk; [done|by rewrite E]. Qed.

(** ** The disk at each step *)

(** The disk of the record, and the file open for writing *)
Definition at_disk (entries durable : gmap pystr nat) (files : list (bytes * bool)) (open : option (Z * nat)) : assertion := fun l =>
  safe r D base l /\ D ∈ in_use l /\ dk_entries (replay D l) = entries /\ dk_durable (replay D l) = durable /\ dk_files (replay D l) = files /\
  match open with Some (fd, i) => fd ∈ in_use l /\ fd <> D /\ dk_fds (replay D l) !! fd = Some i | None => True end.

Lemma at_disk_stable e du fs open : stable (at_disk e du fs open).
Proof.
  split; [by intros l (? & _)|]. intros l l' (Hs & HD & He & Hd & Hf & Ho) Hq.
  pose proof (quiet_replay D l l' Hq HD) as (Ee & Ed & Ef & Efd). split_and!; [by eapply safe_quiet|by eapply quiet_in_use|congruence..|].
  destruct open as [[fd i]|]; [|done]. destruct Ho as (Hin & Hne & Hfd). split_and!; [by eapply quiet_in_use|done|]. by rewrite Efd.
Qed.

(** A file that no final name leads to *)
Definition hidden (e : gmap pystr nat) (n : nat) : Prop := forall q j, e !! final_name q = Some j -> (j < n)%nat.

(** A call that changes the hidden file *)
Lemma change_last e du fs fd x l f l' ev :
  at_disk e du (fs ++ [x]) (Some (fd, length fs)) l -> hidden e (length fs) -> disk_step D (replay D l) ev = change_file (replay D l) fd f ->
  in_use_step (in_use l) ev = in_use l -> l' = l ++ [ev] -> at_disk e du (fs ++ [f x]) (Some (fd, length fs)) l'.
Proof.
  intros (Hs & HD & He & Hd & Hf & Hin & Hne & Hfd) Hh Hev Hu ->. unfold change_file in Hev. rewrite Hfd in Hev.
  assert (in_use (l ++ [ev]) = in_use l) as Eu by (by rewrite in_use_app).
  unfold at_disk. rewrite Eu, replay_snoc, Hev. cbn. rewrite Hf, alter_last. split_and!; try done. apply safe_same; [done|].
  rewrite replay_snoc, Hev. split_and!; cbn; [done| |done]. intros q j Hj. rewrite Hf, alter_last. rewrite He in Hj. apply Hh in Hj.
  by rewrite !lookup_app_l.
Qed.

Lemma triple_create e du fs p hex : hidden e (length fs) ->
  triple (at_disk e du fs None) (sys_create D (temporary_name p hex))
    (fun fd => at_disk (<[temporary_name p hex := length fs]> e) du (fs ++ [([], false)]) (Some (fd, length fs))).
Proof.
  intros Hh x (Hs & HD & He & Hd & Hf & _). unfold sys_create. pose proof (law_create x D (temporary_name p hex)) as Hl. unfold opens in Hl.
  assert (forall fd, safe r D base (log x ++ [Created D (temporary_name p hex) fd])) as Hsafe.
  { intros fd. apply safe_same; [done|]. rewrite replay_snoc. cbn [disk_step]. rewrite Z.eqb_refl. split_and!; cbn; [| |done].
    - intros q. by rewrite lookup_insert_temporary.
    - intros q i Hi. rewrite He in Hi. apply Hh in Hi. rewrite Hf. by rewrite lookup_app_l. }
  destruct (create _ _ _) as [y [fd|ex]]; cbn [fst snd] in Hl; [|by destruct Hl as [->|(fd & _ & ->)]].
  destruct Hl as [Hfd ->]. unfold at_disk. rewrite replay_snoc, in_use_app. cbn [disk_step fold_left in_use_step]. rewrite Z.eqb_refl. cbn.
  rewrite He, Hd, Hf. split_and!; try done; [by right|by left|congruence|apply lookup_insert_eq].
Qed.

Lemma write_all_S n fd b payload : write_all (S n) fd (b :: payload) =
  (do written <- sys_write fd (b :: payload) ;; refuse written <=? 0 ;; write_all n fd (drop (Z.to_nat written) (b :: payload))).
Proof. reflexivity. Qed.

Lemma triple_write_all e du fs fd n : hidden e (length fs) -> forall payload b,
  triple (at_disk e du (fs ++ [(b, false)]) (Some (fd, length fs))) (write_all n fd payload)
    (fun _ => at_disk e du (fs ++ [(b ++ payload, false)]) (Some (fd, length fs))).
Proof.
  intros Hh. induction n as [|n IH]; intros payload b x Hx; (destruct payload as [|c payload]; [by rewrite app_nil_r|]).
  { by destruct Hx. }
  rewrite write_all_S. set (all := c :: payload). unfold pbind at 1, sys_write. pose proof (law_write x fd all) as Hl.
  assert (forall k y, log y = log x ++ [Wrote fd (take k all)] -> at_disk e du (fs ++ [(b ++ take k all, false)]) (Some (fd, length fs)) (log y)) as Hstep.
  { intros k y Ey. by apply (change_last e du fs fd (b, false) (log x) (fun f => (fst f ++ take k all, false)) (log y) (Wrote fd (take k all))). }
  destruct (write x fd all) as [y [k|ex]]; cbn [fst snd] in Hl.
  2: { destruct Hl as [->|[k Hk]]; [by destruct Hx|]. by destruct (Hstep k y Hk). }
  destruct Hl as [Hk Hl]. destruct (k <=? 0) eqn:G; [by destruct (Hstep _ _ Hl)|]. bool_norm.
  specialize (IH (drop (Z.to_nat k) all) (b ++ take (Z.to_nat k) all) y (Hstep _ _ Hl)). rewrite <- app_assoc, take_drop in IH. exact IH.
Qed.

Lemma triple_fsync_file e du fs fd b : hidden e (length fs) ->
  triple (at_disk e du (fs ++ [(b, false)]) (Some (fd, length fs))) (sys_fsync fd) (fun _ => at_disk e du (fs ++ [(b, true)]) (Some (fd, length fs))).
Proof.
  intros Hh x Hx. unfold sys_fsync. pose proof (law_fsync x fd) as Hl. unfold logs in Hl. pose proof Hx as (_ & _ & _ & _ & _ & _ & Hne & _).
  assert (forall l', l' = log x ++ [Synced fd] -> at_disk e du (fs ++ [(b, true)]) (Some (fd, length fs)) l') as Hstep.
  { intros l' E. apply (change_last e du fs fd (b, false) (log x) (fun f => (fst f, true)) l' (Synced fd)); try done.
    cbn [disk_step]. by rewrite (proj2 (Z.eqb_neq fd D)). }
  destruct (fsync x fd) as [y [a|ex]]; cbn [fst snd] in Hl; [by apply Hstep|]. destruct Hl as [->|Hl]; [by destruct Hx|by destruct (Hstep _ Hl)].
Qed.

Lemma triple_rename e du fs fd p o hex b : hidden e (length fs) -> e !! temporary_name p hex = Some (length fs) ->
  encode_artifact r p o = Ok b -> ready r (Disk e du fs ∅) p o ->
  triple (at_disk e du (fs ++ [(b, true)]) (Some (fd, length fs))) (rename_noreplace D (temporary_name p hex) (final_name p))
    (fun _ l => e !! final_name p = None /\
       at_disk (<[final_name p := length fs]> (delete (temporary_name p hex) e)) du (fs ++ [(b, true)]) (Some (fd, length fs)) l).
Proof.
  intros Hh Ht He Hr x Hx. pose proof Hx as (Hs & HD & Ee & Ed & Ef & Hin & Hne & Hfd). unfold rename_noreplace.
  destruct (law_rename x D (temporary_name p hex) (final_name p)) as [Hl Hn]. unfold logs in Hl.
  assert (dk_entries (replay D (log x)) !! final_name p = None -> safe r D base (log x ++ [Renamed D (temporary_name p hex) (final_name p)])) as Hsafe.
  { intros Hnone. assert (ready r (replay D (log x)) p o) as Hr'.
    { destruct Hr as [H1 H2]. cbn in H1, H2. unfold ready. rewrite Ee, Ed, Ef. split; [done|]. intros Hp.
      destruct (H2 Hp) as (seen & j & c & Ej & Fj & Ec & Eo). exists seen, j, c. split_and!; try done. by apply lookup_app_l_Some. }
    destruct (renamed_ok r D (replay D (log x)) p o hex (length fs) b) as [Hok Hk]; try done; [by eapply safe_now|by rewrite Ee|rewrite Ef; apply lookup_last|].
    apply safe_event; [done|by rewrite replay_snoc..]. }
  destruct (rename _ _ _ _) as [y [a|ex]]; cbn [fst snd] in Hl, Hn.
  - assert (log y <> log x) as Hc.
    { rewrite Hl. intros E. apply (f_equal length) in E. rewrite length_app in E. cbn in E. lia. }
    specialize (Hn Hc). split; [by rewrite <- Ee|]. rewrite Hl. unfold at_disk. rewrite replay_snoc, in_use_app. cbn [disk_step fold_left in_use_step].
    rewrite Z.eqb_refl, Ee, Ht. cbn. split_and!; try done. by apply Hsafe.
  - destruct Hl as [->|Hl]; [done|]. rewrite Hl. apply Hsafe, Hn. rewrite Hl. intros E. apply (f_equal length) in E. rewrite length_app in E. cbn in E. lia.
Qed.

(** The entries become durable: those of the files published before stay so. *)
Lemma triple_fsync_directory e du fs open : (forall q i, du !! final_name q = Some i -> e !! final_name q = Some i) ->
  triple (at_disk e du fs open) (sys_fsync D) (fun _ => at_disk e e fs open).
Proof.
  intros Hd x (Hs & HD & Ee & Ed & Ef & Ho). unfold sys_fsync. pose proof (law_fsync x D) as Hl. unfold logs in Hl.
  assert (safe r D base (log x ++ [Synced D])) as Hsafe.
  { apply safe_same; [done|]. rewrite replay_snoc. cbn [disk_step]. rewrite Z.eqb_refl. split_and!; cbn; [done|done|]. intros q i. rewrite Ed, Ee. apply Hd. }
  destruct (fsync x D) as [y [a|ex]]; cbn [fst snd] in Hl; [|by destruct Hl as [->| ->]].
  rewrite Hl. unfold at_disk. rewrite replay_snoc, in_use_app. cbn [disk_step fold_left in_use_step]. rewrite Z.eqb_refl. cbn. rewrite Ee, Ef. by split_and!.
Qed.

Lemma triple_close_file e du fs fd i : triple (at_disk e du fs (Some (fd, i))) (sys_close fd) (fun _ => at_disk e du fs None).
Proof.
  intros x (Hs & HD & Ee & Ed & Ef & Hin & Hne & _). unfold sys_close. pose proof (law_close x fd) as Hl. unfold logs in Hl.
  destruct (close x fd) as [y [a|ex]]; cbn [fst snd] in Hl; [|destruct Hl as [->| ->]; [done|by apply safe_closed]].
  rewrite Hl. unfold at_disk. rewrite replay_snoc, in_use_app. cbn. split_and!; try done; [by apply safe_closed|].
  apply list_elem_of_In, filter_In. split; [by apply list_elem_of_In|]. apply negb_true_iff, Z.eqb_neq. congruence.
Qed.

(** ** One publication *)

Lemma validate_predecessors_published p x y : validate_predecessors w p x = (y, Return tt) -> forall q, q ∈ predecessors p -> published w q <> None.
Proof.
  unfold validate_predecessors. intros Hv q Hq. revert x Hv. induction (predecessors p) as [|q' ps IH]; intros x Hv; [by apply elem_of_nil in Hq|].
  cbn [validate_each] in Hv. unfold pbind in Hv. destruct (validate_predecessor w q' x) as [x' [[]|e]] eqn:E; [|done].
  apply elem_of_cons in Hq as [->|Hq]; [|by eapply IH]. unfold validate_predecessor in E. by destruct (published w q').
Qed.

Lemma quiet_validate_predecessors p : quiet_prog (validate_predecessors w p).
Proof.
  unfold validate_predecessors. induction (predecessors p) as [|q ps IH]; cbn [validate_each]; [apply quiet_pret|]. apply quiet_bind; [|done].
  unfold validate_predecessor. destruct (published w q) as [[signature payload]|]; quiet.
Qed.

Lemma quiet_validate_temporary name fd identity n : quiet_prog (validate_temporary w name fd identity n).
Proof. unfold validate_temporary. quiet. Qed.

Lemma ftriple_predecessors {B} P p (k : unit -> prog (frame W) B) Q : stable P ->
  ((forall q, q ∈ predecessors p -> published w q <> None) -> ftriple P (k tt) Q) -> ftriple P (pbind (sys (validate_predecessors w p)) k) Q.
Proof.
  intros HP Hk f Hn Hf. unfold pbind, sys. pose proof (triple_quiet P _ (quiet_validate_predecessors p) HP _ Hf) as Ht.
  destruct (validate_predecessors w p (fr_world f)) as [y [[]|e]] eqn:E; [|by split]. apply Hk; [by eapply validate_predecessors_published|done|done].
Qed.

(** What has been published is on the disk. *)
Definition on_disk (e du : gmap pystr nat) (fs : list (bytes * bool)) : Prop :=
  (forall q i, e !! final_name q = Some i -> (i < length fs)%nat) /\
  (forall q i, du !! final_name q = Some i -> e !! final_name q = Some i) /\
  (forall q entry, published w q = Some entry -> exists i o, e !! final_name q = Some i /\ du !! final_name q = Some i /\
     fs !! i = Some (snd entry, true) /\ encode_artifact r q o = Ok (snd entry)) /\
  (forall seen, wr_observed w = Some seen -> exists entry, published w Observed = Some entry /\ encode_artifact r Observed (Some seen) = Ok (snd entry)).

(** The disk after a publication *)
Definition published_entries (p : phase) (hex : pystr) (e : gmap pystr nat) (n : nat) : gmap pystr nat :=
  <[final_name p := n]> (delete (temporary_name p hex) (<[temporary_name p hex := n]> e)).

Lemma publish_body_spec p o e du fs : on_disk e du fs -> (p = Confirmed -> exists seen, wr_observed w = Some seen /\ o = Some (confirm seen)) ->
  ftriple (at_disk e du fs None) (publish_body w p o) (fun entry l => encode_artifact r p o = Ok (snd entry) /\ e !! final_name p = None /\
    exists hex, let e' := published_entries p hex e (length fs) in at_disk e' e' (fs ++ [(snd entry, true)]) None l).
Proof.
  intros (Hlow & Hdu & Hpub & Hobs) Hconf. unfold publish_body. fold D.
  apply ftriple_quiet; [apply quiet_silent; intros ?; apply law_uuid4|apply at_disk_stable|intros hex].
  apply ftriple_modify; [intros f Hn; split; [intros n [= <-]; by eauto|done]|].
  apply ftriple_pure; [apply at_disk_stable|intros payload He]. fold r in He.
  apply ftriple_quiet; [auto with quiet|apply at_disk_stable|intros _].
  apply ftriple_predecessors; [apply at_disk_stable|intros Hpre].
  assert (hidden e (length fs)) as Hh by exact Hlow.
  eapply ftriple_bind; [apply ftriple_sys, (triple_create e du fs p hex Hh)|cbn beta; intros fd].
  set (e1 := <[temporary_name p hex := length fs]> e). set (f1 := fs ++ [([], false)]).
  assert (hidden e1 (length fs)) as Hh1 by (intros q j; unfold e1; rewrite lookup_insert_temporary; apply Hlow).
  assert (ready r (Disk e1 du fs ∅) p o) as Hready.
  { split; cbn.
    - intros q Hq. destruct (published w q) as [entry|] eqn:Eq; [|by apply Hpre in Hq]. destruct (Hpub q entry Eq) as (i & _ & Ei & Di & _).
      exists i. unfold e1. by rewrite lookup_insert_temporary.
    - intros Hp. destruct (Hconf Hp) as (seen & Hs & Eo). destruct (Hobs seen Hs) as (entry & Ep & Ee). destruct (Hpub _ _ Ep) as (i & _ & Ei & _ & Fi & _).
      exists seen, i, (snd entry). unfold e1. by rewrite lookup_insert_temporary. }
  apply ftriple_modify; [done|]. apply ftriple_quiet; [auto with quiet|apply at_disk_stable|intros metadata].
  apply ftriple_modify; [done|]. apply ftriple_quiet; [apply quiet_pgets|apply at_disk_stable|intros uid].
  apply ftriple_pure; [apply at_disk_stable|intros [] _]. apply ftriple_quiet; [auto with quiet|apply at_disk_stable|intros _].
  eapply ftriple_bind; [apply ftriple_sys, (triple_write_all e1 du fs fd (length payload) Hh1 payload [])|cbn beta; intros _].
  eapply ftriple_bind; [apply ftriple_sys, (triple_fsync_file e1 du fs fd payload Hh1)|cbn beta; intros _].
  apply ftriple_quiet; [apply quiet_validate_temporary|apply at_disk_stable|intros _].
  apply ftriple_quiet; [auto with quiet|apply at_disk_stable|intros _]. apply ftriple_predecessors; [apply at_disk_stable|intros _].
  apply ftriple_quiet; [apply quiet_validate_temporary|apply at_disk_stable|intros _].
  eapply ftriple_bind; [apply ftriple_sys, (triple_rename e1 du fs fd p o hex payload Hh1); [apply lookup_insert_eq|exact He|exact Hready]|cbn beta; intros _].
  set (e2 := <[final_name p := length fs]> (delete (temporary_name p hex) e1)).
  apply ftriple_fact. intros Hnone. unfold e1 in Hnone. rewrite lookup_insert_temporary in Hnone.
  apply ftriple_quiet; [auto with quiet|apply at_disk_stable|intros visible].
  apply ftriple_refuse; [apply at_disk_stable|intros _]. apply ftriple_quiet; [apply quiet_pgets|apply at_disk_stable|intros uid'].
  apply ftriple_pure; [apply at_disk_stable|intros [] _].
  eapply ftriple_bind; [apply ftriple_sys, (triple_fsync_directory e2 du)|cbn beta; intros _].
  { intros q i Hi. apply Hdu in Hi as Hi'. unfold e2. rewrite lookup_insert_ne by (intros E; apply final_name_inj in E as <-; congruence).
    unfold e1. by rewrite lookup_delete_temporary, lookup_insert_temporary. }
  apply ftriple_quiet; [auto with quiet|apply at_disk_stable|intros _]. apply ftriple_predecessors; [apply at_disk_stable|intros _].
  apply ftriple_quiet; [auto with quiet|apply at_disk_stable|intros after]. apply ftriple_refuse; [apply at_disk_stable|intros _].
  apply ftriple_quiet; [auto with quiet|apply at_disk_stable|intros _].
  eapply ftriple_bind; [apply ftriple_sys, triple_close_file|cbn beta; intros _]. apply ftriple_modify; [done|].
  intros f Hn Hf. split; [done|]. cbn. split; [done|]. split; [done|]. by exists hex.
Qed.

(** ** The handlers *)

Lemma safe_cleanup name identity x : (forall n, name = Some n -> exists p hex, n = temporary_name p hex) ->
  safe r D base (log x) -> safe r D base (log ((cleanup_exact w name identity x).1)).
Proof.
  intros Hn Hs. unfold cleanup_exact. destruct name as [n|]; [|done]. destruct identity as [i|]; [|done]. destruct (Hn n eq_refl) as (p & hex & ->).
  unfold suppress, pbind, sys_stat. pose proof (law_stat x (writer_fd w) (temporary_name p hex)) as Hq. unfold silent in Hq.
  destruct (stat x _ _) as [y [m|e]]; cbn [fst snd] in *; [|by rewrite Hq]. case_bool_decide; [|cbn; by rewrite Hq].
  unfold sys_unlink. pose proof (law_unlink y (writer_fd w) (temporary_name p hex)) as Hl. unfold logs in Hl. fold D in Hl |- *.
  destruct (unlink y D (temporary_name p hex)) as [z [a|ex]]; cbn [fst snd] in *.
  - rewrite Hl, Hq. by apply safe_unlinked.
  - destruct Hl as [->| ->]; rewrite Hq; [done|by apply safe_unlinked].
Qed.
End publication.

Section writer_ops.
Context {W : Type} `{RecordView W} `{RecordOS W} `{!RecordLaws W}.
Implicit Types (w : writer) (x : W).

Definition active w : Prop := wr_closed w = false /\ wr_poisoned w = false.

(** The log is safe, and while the writer is active its record is as it published. *)
Definition writer_ok (r : pystr) (D : Z) (base : list disk_event) (w : writer) (l : list disk_event) : Prop :=
  safe r D base l /\ wr_record_id w = r /\
  (active w -> writer_fd w = D /\ exists e du fs, at_disk w base e du fs None l /\ on_disk w e du fs).

Lemma ensure_active_Return w x : ensure_active w x = Return tt -> active w.
Proof. unfold ensure_active, active. destruct (negb _), (wr_closed w), (wr_poisoned w); done. Qed.

(** [close] *)
Lemma writer_close_ok r D base w x : writer_ok r D base w (log x) ->
  writer_ok r D base (writer_close w x).2 (log (writer_close w x).1) /\ ~ active (writer_close w x).2.
Proof.
  intros (Hs & Hr & Ha). unfold writer_close. destruct (wr_closed w) eqn:E; cbn [fst snd].
  - split; [done|]. intros [E' _]. congruence.
  - split; [|by intros [? _]]. split; [unfold chain_close; by apply safe_close_all|]. split; [done|by intros [? _]].
Qed.

(** [_publish] that fails *)
Lemma publish_failed_ok r D base w p f ex : writer_fd w = D -> wr_record_id w = r -> named f -> safe r D base (log (fr_world f)) ->
  let '(y, (w', a)) := publish_failed w p f ex in writer_ok r D base w' (log y) /\ ~ active w' /\ exists e, a = Throw e.
Proof.
  intros <- <- Hn Hs. unfold publish_failed. set (w1 := w <| wr_poisoned := true |>).
  pose proof (safe_cleanup w1 base (fr_temporary f) (fr_identity f) (fr_world f) Hn Hs) as Hc. set (y := (cleanup_exact _ _ _ _).1) in *.
  assert (writer_ok (wr_record_id w) (writer_fd w) base w1 (log y)) as Hw by (split; [done|]; split; [done|by intros [_ ?]]).
  destruct (match ex with Interrupt => _ | _ => _ end) as [z w2] eqn:E.
  assert (writer_ok (wr_record_id w) (writer_fd w) base w2 (log z) /\ ~ active w2) as [Hz Hna].
  { destruct ex; [..|pose proof (writer_close_ok _ _ _ w1 y Hw) as Hx; by rewrite E in Hx];
      apply pair_equal_spec in E as [<- <-]; (split; [done|by intros [_ ?]]). }
  split; [|split; [done|by eexists]]. destruct (fr_fd f) as [fd|]; [|done]. destruct Hz as (Hz & Hr & Ha). split; [by apply safe_close_fd|].
  split; [done|]. intros Hx. by destruct Hna.
Qed.

(** What a successful publication leaves: the file, durable. *)
Definition durably (r : pystr) (D : Z) (p : phase) (o : option observation) (l : list disk_event) : Prop :=
  exists i b, dk_entries (replay D l) !! final_name p = Some i /\ dk_durable (replay D l) !! final_name p = Some i /\
    dk_files (replay D l) !! i = Some (b, true) /\ encode_artifact r p o = Ok b.

Lemma published_cons w p q entry : published (w <| wr_published := (p, entry) :: wr_published w |>) q = if bool_decide (p = q) then Some entry else published w q.
Proof. unfold published. cbn. by destruct (bool_decide (p = q)). Qed.

(** [_publish] *)
Lemma publish_ok r D base w p o x : writer_ok r D base w (log x) ->
  (p = Confirmed -> exists seen, wr_observed w = Some seen /\ o = Some (confirm seen)) ->
  let '(y, (w', a)) := publish w p o x in writer_ok r D base w' (log y) /\ wr_observed w' = wr_observed w /\
  match a with
  | Return _ => active w' /\ durably r D p o (log y) /\ exists entry, published w' p = Some entry /\ encode_artifact r p o = Ok (snd entry)
  | Throw _ => (w' = w /\ y = x) \/ ~ active w'
  end.
Proof.
  intros Hw Hc. unfold publish. destruct (ensure_active w x) as [[]|ex] eqn:Ea; [|split; [done|]; split; [done|by left]].
  apply ensure_active_Return in Ea. pose proof Hw as (Hs & Hr & Ha). destruct (Ha Ea) as (HD & e & du & fs & Hat & Hon).
  pose proof (publish_body_spec w base p o e du fs Hon Hc (Frame x None None None)) as Hb.
  assert (named (Frame x None None None)) as Hn by (by intros n).
  specialize (Hb Hn Hat). destruct (publish_body w p o (Frame x None None None)) as [f [entry|ex]]; destruct Hb as [Hf Hb].
  2: { rewrite HD, Hr in Hb. pose proof (publish_failed_ok r D base w p f ex HD Hr Hf Hb) as Hp.
       assert (wr_observed (publish_failed w p f ex).2.1 = wr_observed w) as Ho.
       { unfold publish_failed, writer_close. destruct ex; cbn; try done. by destruct (wr_closed w). }
       destruct (publish_failed w p f ex) as [y [w' a]]. destruct Hp as (Hp & Hna & e' & ->). split; [done|]. split; [done|]. by right. }
  destruct Hb as (He & Hnone & hex & Hat'). set (w' := w <| wr_published := (p, entry) :: wr_published w |>).
  destruct Hon as (Hlow & Hdu & Hpub & Hobs). unfold published_entries in Hat'. set (e' := <[_ := _]> (delete _ _)) in Hat'.
  assert (forall q, q <> p -> e' !! final_name q = e !! final_name q) as Hne.
  { intros q Hq. unfold e'. rewrite lookup_insert_ne by (intros E; apply final_name_inj in E; by subst q). by rewrite lookup_delete_temporary, lookup_insert_temporary. }
  assert (e' !! final_name p = Some (length fs)) as Hep by apply lookup_insert_eq.
  assert (forall q i, e !! final_name q = Some i -> q <> p) as Hqp by (intros q i Hq ->; congruence).
  split; [|split; [done|]].
  - split; [by rewrite <- HD, <- Hr; destruct Hat'|]. split; [done|]. intros _. split; [done|]. exists e', e', (fs ++ [(snd entry, true)]). split; [exact Hat'|].
    split_and!.
    + intros q i Hq. rewrite length_app. cbn [length]. destruct (decide (q = p)) as [->|Hq']; [rewrite Hep in Hq; assert (i = length fs) by congruence; lia|].
      rewrite Hne in Hq by done. apply Hlow in Hq. lia.
    + done.
    + intros q entry'. unfold w'. rewrite published_cons. case_bool_decide as Hq.
      * intros E. apply (inj Some) in E as <-. subst q. exists (length fs), o. split_and!; [done|done|apply lookup_last|done].
      * intros E. destruct (Hpub q entry' E) as (i & o' & Ei & Di & Fi & Ee). exists i, o'. rewrite Hne by done. split_and!; try done. by apply lookup_app_l_Some.
    + intros seen Hseen. destruct (Hobs seen Hseen) as (entry' & Ep & Ee). exists entry'. split; [|done]. unfold w'. rewrite published_cons.
      destruct (Hpub _ _ Ep) as (i & _ & Ei & _). rewrite bool_decide_eq_false_2; [done|]. intros ->. by apply Hqp in Ei.
  - split; [by destruct Ea|]. destruct Hat' as (_ & _ & E1 & E2 & E3 & _). split.
    + exists (length fs), (snd entry). rewrite <- HD, <- Hr, E1, E2, E3. split_and!; [done|done|apply lookup_last|done].
    + exists entry. unfold w'. rewrite published_cons, bool_decide_eq_true_2 by done. by rewrite <- Hr.
Qed.
End writer_ops.

(** * The reservation of a record's directory, and any run of its writer. *)

(** * Calls before the record *)

(** Events that write nothing, and leave in use what was. *)
Definition plain (e : disk_event) : Prop :=
  match e with Made _ _ | OpenedDir _ | OpenedFile _ | Synced _ | Closed _ => True | _ => False end.
Definition plainly (l l' : list disk_event) : Prop := exists k, l' = l ++ k /\ Forall plain k.
Definition openly (l l' : list disk_event) : Prop := plainly l l' /\ forall fd, fd ∈ in_use l -> fd ∈ in_use l'.

#[export] Instance plainly_preorder : PreOrder plainly.
Proof.
  split.
  - intros l. exists []. by rewrite app_nil_r.
  - intros l1 l2 l3 (k1 & -> & H1) (k2 & -> & H2). exists (k1 ++ k2). split; [by rewrite app_assoc|]. by apply Forall_app.
Qed.
#[export] Instance openly_preorder : PreOrder openly.
Proof. split; [by split|]. intros l1 l2 l3 [P1 I1] [P2 I2]. split; [by etrans|auto]. Qed.

Lemma plainly_one l e : plain e -> plainly l (l ++ [e]).
Proof. intros He. exists [e]. split; [done|]. by apply List.Forall_cons. Qed.

Lemma quiet_openly l l' : quiet l l' -> openly l l'.
Proof.
  intros Hq. split; [|intros fd; by apply quiet_in_use]. destruct Hq as (k & -> & Hk). exists k. split; [done|].
  eapply Forall_impl; [exact Hk|]. by intros [].
Qed.

Lemma opened_openly l e fd : e = OpenedDir fd \/ e = OpenedFile fd -> openly l (l ++ [e]).
Proof. intros He. split; [apply plainly_one; by destruct He as [->| ->]|]. intros x Hx. rewrite in_use_app. destruct He as [->| ->]; by right. Qed.

Section reserve.
Context {W : Type} `{RecordView W} `{RecordOS W} `{!RecordLaws W}.

Lemma closed_plainly fd x : plainly (log x) (log ((suppress (sys_close fd) x).1)).
Proof.
  unfold suppress, sys_close. pose proof (law_close x fd) as Hl. unfold logs in Hl. destruct (close x fd) as [y [a|ex]]; cbn [fst snd] in *.
  - rewrite Hl. by apply plainly_one.
  - destruct Hl as [->| ->]; [done|by apply plainly_one].
Qed.

Lemma close_all_plainly fds : forall x, plainly (log x) (log ((close_all fds x).1)).
Proof.
  induction fds as [|fd fds IH]; intros x; [done|]. cbn [close_all]. unfold pbind. specialize (IH x).
  destruct (close_all fds x) as [y [a|e]]; cbn [fst] in *; [|done]. etrans; [exact IH|apply closed_plainly].
Qed.

(** A computation that opens: what it answers satisfies [Q]. *)
Definition opening {A} (m : prog W A) (Q : A -> list disk_event -> Prop) (x : W) : Prop :=
  match m x with
  | (y, Return a) => openly (log x) (log y) /\ Q a (log y)
  | (y, Throw _) => plainly (log x) (log y)
  end.

Lemma opening_quiet {A} (m : prog W A) x : quiet_prog m -> opening m (fun _ _ => True) x.
Proof. intros Hm. specialize (Hm x). unfold opening. apply quiet_openly in Hm. destruct (m x) as [y [a|e]]; [by split|apply Hm]. Qed.

Lemma opening_on_error {A} (m : prog W A) fds x : quiet_prog m -> opening (on_error m (close_all fds)) (fun _ _ => True) x.
Proof.
  intros Hm. pose proof (opening_quiet m x Hm) as Ho. unfold opening, on_error in *. destruct (m x) as [y [a|e]]; [done|].
  etrans; [exact Ho|apply close_all_plainly].
Qed.

Lemma opening_bind {A B} (m : prog W A) (k : A -> prog W B) Q R x : opening m Q x ->
  (forall a y, openly (log x) (log y) -> Q a (log y) -> opening (k a) R y) -> opening (pbind m k) R x.
Proof.
  unfold opening, pbind. intros Hm Hk. destruct (m x) as [y [a|e]]; [|done]. destruct Hm as [Ho Hq]. specialize (Hk a y Ho Hq).
  destruct (k a y) as [z [b|e]]; [split; [etrans; [exact Ho|apply Hk]|apply Hk]|]. etrans; [apply Ho|exact Hk].
Qed.

(** Every descriptor of the chain is in use. *)
Definition held (c : chain) (l : list disk_event) : Prop := forall fd, fd ∈ ch_fds c -> fd ∈ in_use l.

Lemma held_openly c l l' : held c l -> openly l l' -> held c l'.
Proof. intros Hc [_ Ho] fd Hf. by apply Ho, Hc. Qed.

Lemma opening_open_dir c d name x : held c (log x) ->
  opening (on_error (sys_open_dir d name) (chain_close c)) (fun fd l => held (Chain (ch_fds c ++ [fd]) (ch_names c ++ [name]) (ch_secure c) (ch_private_tail c)) l) x.
Proof.
  intros Hc. unfold opening, on_error, sys_open_dir. pose proof (law_open_dir x d name) as Hl. unfold opens in Hl.
  destruct (open_dir x d name) as [y [fd|e]]; cbn [fst snd] in Hl.
  - destruct Hl as [Hf Hl]. assert (openly (log x) (log y)) as Ho by (rewrite Hl; apply (opened_openly _ _ fd); by left). split; [done|].
    intros g Hg. cbn in Hg. apply elem_of_app in Hg as [Hg|Hg]; [by apply (held_openly c _ _ Hc Ho)|]. apply list_elem_of_singleton in Hg as ->. rewrite Hl, in_use_app. by left.
  - etrans; [|apply close_all_plainly]. destruct Hl as [->|(fd & _ & ->)]; [done|by apply plainly_one].
Qed.

Lemma opening_links uid components : forall c x, held c (log x) -> opening (open_links uid c components) held x.
Proof.
  induction components as [|name components IH]; intros c x Hc; cbn [open_links].
  - apply (opening_bind _ _ _ _ _ (opening_on_error _ _ x (quiet_revalidate c))). intros _ y Ho _. unfold opening, pret. split; [done|]. by eapply held_openly.
  - apply (opening_bind _ _ _ _ _ (opening_open_dir c (chain_fd c) name x Hc)). intros fd y Ho Hh. cbv beta in Hh |- *.
    eapply opening_bind; [apply opening_on_error|].
    + quiet.
    + intros _ z Hz _. apply IH. by eapply held_openly.
Qed.

Lemma opening_chain path secure x : opening (open_chain path secure) held x.
Proof.
  unfold open_chain. eapply opening_bind; [apply opening_quiet, quiet_pure|]. intros components y _ _.
  assert (opening sys_open_root (fun fd l => fd ∈ in_use l) y) as Hr.
  { unfold opening, sys_open_root. pose proof (law_open_root y) as Hl. unfold opens in Hl. destruct (open_root y) as [z [fd|e]]; cbn [fst snd] in Hl.
    - destruct Hl as [_ ->]. split; [apply (opened_openly _ _ fd); by left|]. rewrite in_use_app. by left.
    - destruct Hl as [->|(fd & _ & ->)]; [done|by apply plainly_one]. }
  apply (opening_bind _ _ _ _ _ Hr). intros root z _ Hroot. cbv zeta.
  assert (forall w, openly (log z) (log w) -> held (Chain [root] [] secure 0) (log w)) as Hh.
  { intros w [_ Ho] fd Hf. cbn in Hf. apply list_elem_of_singleton in Hf as ->. by apply Ho. }
  eapply opening_bind; [apply opening_quiet, quiet_pgets|]. intros uid w Hw _.
  eapply opening_bind.
  - destruct secure; [apply opening_on_error; quiet|apply opening_quiet, quiet_pret].
  - intros _ v Hv _. apply opening_links. apply Hh. by etrans.
Qed.

(** ** The new directory *)

Lemma quiet_fd_identity fd : quiet_prog (fd_identity fd).
Proof. unfold fd_identity. quiet. Qed.
#[local] Hint Resolve quiet_fd_identity : quiet.

Lemma quiet_any_identity fds identity : quiet_prog (any_identity fds identity).
Proof. induction fds as [|fd fds IH]; cbn [any_identity]; quiet. Qed.
#[local] Hint Resolve quiet_any_identity : quiet.

(** A directory opened as [D] at [base] after the plain events [k], of which [K] *)
Definition opened_at (K : list disk_event -> Prop) (l : list disk_event) (D : Z) (base : list disk_event) : Prop :=
  exists k, base = l ++ k ++ [OpenedDir D] /\ Forall plain k /\ K k /\ forall fd, fd ∈ in_use l -> fd <> D /\ fd ∈ in_use base.

Definition opens_new (K : list disk_event -> Prop) (m : prog W Z) (x : W) : Prop :=
  match m x with
  | (y, Return child) => exists base, opened_at K (log x) child base /\ quiet base (log y)
  | (y, Throw _) => plainly (log x) (log y)
  end.

Lemma opened_openly_at (K K' : list disk_event -> Prop) l k D base : Forall plain k -> (forall fd, fd ∈ in_use l -> fd ∈ in_use (l ++ k)) ->
  (forall k', K' k' -> K (k ++ k')) -> opened_at K' (l ++ k) D base -> opened_at K l D base.
Proof.
  intros Hk Ho HK (k' & -> & Hk' & HK' & Hf). exists (k ++ k'). rewrite <- !app_assoc in *. split; [done|]. split; [by apply Forall_app|].
  split; [by apply HK|]. intros fd Hfd. by apply Hf, Ho.
Qed.

Lemma opens_new_quiet {A} (K : list disk_event -> Prop) (m : prog W A) k x : quiet_prog m -> (forall k k', K k' -> K (k ++ k')) ->
  (forall a y, opens_new K (k a) y) -> opens_new K (pbind m k) x.
Proof.
  intros Hm HK Hk. unfold opens_new, pbind. specialize (Hm x). apply quiet_openly in Hm. destruct (m x) as [y [a|e]]; cbn [fst] in Hm; [|apply Hm].
  specialize (Hk a y). unfold opens_new in Hk. destruct (k a y) as [z [child|e]]; [|by etrans; [apply Hm|]].
  destruct Hk as (base & Hat & Hz). exists base. split; [|done]. destruct Hm as [(k0 & E & Hp) Ho]. rewrite E in Hat, Ho.
  by eapply opened_openly_at; [..|exact Hat]; [| |auto].
Qed.

Lemma opens_new_refuse K (b : bool) (k : prog W Z) x : opens_new K k x -> opens_new K (if b then throw Failure else k) x.
Proof. destruct b; [|done]. intros _. exact (reflexivity (R := plainly) (log x)). Qed.

Lemma opens_new_mkdir d name k x : (forall y, opens_new (fun _ => True) (k tt) y) -> opens_new (fun l => Made d name ∈ l) (pbind (sys_mkdir d name) k) x.
Proof.
  intros Hk. unfold opens_new, pbind, sys_mkdir. pose proof (law_mkdir x d name) as Hl. unfold logs in Hl.
  destruct (mkdir x d name) as [y [[]|e]]; cbn [fst snd] in Hl; [|destruct Hl as [->| ->]; [done|by apply plainly_one]].
  specialize (Hk y). unfold opens_new in Hk. destruct (k tt y) as [z [child|e]].
  - destruct Hk as (base & Hat & Hz). exists base. split; [|done]. rewrite Hl in Hat.
    eapply opened_openly_at; [..|exact Hat]; [by apply List.Forall_cons|intros fd Hf; by rewrite in_use_app|]. intros k' _. by left.
  - etrans; [|exact Hk]. rewrite Hl. by apply plainly_one.
Qed.

Lemma opens_new_open d name (check : Z -> prog W unit) x : (forall fd, quiet_prog (check fd)) ->
  opens_new (fun _ => True) (do child <- sys_open_dir d name ;; do _ <- on_error (check child) (suppress (sys_close child)) ;; pret child) x.
Proof.
  intros Hc. unfold opens_new, pbind, sys_open_dir. pose proof (law_open_dir x d name) as Hl. unfold opens in Hl.
  destruct (open_dir x d name) as [y [fd|e]]; cbn [fst snd] in Hl.
  2: { destruct Hl as [->|(fd & _ & ->)]; [done|by apply plainly_one]. }
  destruct Hl as [Hf Hl]. unfold on_error. specialize (Hc fd y). destruct (check fd y) as [z [[]|e]]; cbn [fst] in Hc.
  - exists (log y). split; [|done]. exists []. split; [by rewrite Hl|]. split; [done|]. split; [done|]. intros g Hg. split; [congruence|].
    rewrite Hl, in_use_app. by right.
  - etrans; [|apply closed_plainly]. etrans; [|apply quiet_openly, Hc]. rewrite Hl. by apply plainly_one.
Qed.

Lemma make_directory_spec c managed name x : opens_new (fun l => Made (chain_fd c) name ∈ l) (make_directory c managed name) x.
Proof.
  assert (forall k k', Made (chain_fd c) name ∈ k' -> Made (chain_fd c) name ∈ k ++ k') as HK by (intros k k' Hk; apply elem_of_app; by right).
  unfold make_directory. apply opens_new_quiet; [auto with quiet|done|intros inside y1]. apply opens_new_refuse.
  do 3 (apply opens_new_quiet; [auto with quiet|done|intros ? ?]). apply opens_new_mkdir. intros z.
  do 2 (apply opens_new_quiet; [auto with quiet|done|intros ? ?]). apply opens_new_open. intros child. quiet.
Qed.

(** ** The first publication *)

Lemma replay_opened base0 D : replay D (base0 ++ [OpenedDir D]) = empty_disk.
Proof. rewrite replay_snoc. cbn. by rewrite Z.eqb_refl. Qed.

Lemma empty_disk_ok r : disk_ok r empty_disk.
Proof. by split. Qed.

(** The disk of a writer that has published nothing *)
Definition blank (w : writer) (base : list disk_event) : assertion := at_disk w base ∅ ∅ [] None.

Lemma blank_start w base0 : blank w (base0 ++ [OpenedDir (writer_fd w)]) (base0 ++ [OpenedDir (writer_fd w)]).
Proof.
  unfold blank, at_disk. rewrite replay_opened. split_and!; try done; [|rewrite in_use_app; by left].
  apply safe_start. rewrite replay_opened. apply empty_disk_ok.
Qed.

Lemma triple_blank_fsync w base fd : triple w base (blank w base) (sys_fsync fd) (fun _ => blank w base).
Proof.
  intros x (Hs & HD & He & Hd & Hf & _). unfold sys_fsync. pose proof (law_fsync x fd) as Hl. unfold logs in Hl.
  assert (blank w base (log x ++ [Synced fd])) as Hb.
  { assert (let s := replay (writer_fd w) (log x ++ [Synced fd]) in dk_entries s = ∅ /\ dk_durable s = ∅ /\ dk_files s = []) as (E1 & E2 & E3).
    { cbv zeta. rewrite replay_snoc. cbn [disk_step]. destruct (fd =? writer_fd w); [cbn; by rewrite He, Hf|]. unfold change_file.
      destruct (dk_fds _ !! fd) as [i|]; [|done]. cbn. by rewrite He, Hd, Hf. }
    assert (writer_fd w ∈ in_use (log x ++ [Synced fd])) by (by rewrite in_use_app).
    unfold blank, at_disk. split_and!; try done. apply safe_same; [done|]. unfold same_finals. rewrite E1, E2, He, Hd. split_and!; [done|intros p i; by rewrite lookup_empty..]. }
  destruct (fsync x fd) as [y [a|ex]]; cbn [fst snd] in Hl; [by rewrite Hl|]. destruct Hl as [->| ->]; [done|apply Hb].
Qed.

Lemma triple_bind {A B} w base P (m : prog W A) R (k : A -> prog W B) Q :
  triple w base P m R -> (forall a, triple w base (R a) (k a) Q) -> triple w base P (pbind m k) Q.
Proof. intros Hm Hk x Hx. unfold pbind. specialize (Hm x Hx). destruct (m x) as [y [a|e]]; [by apply Hk|done]. Qed.

Lemma triple_on_error {A} w base P (m : prog W A) fds Q : triple w base P m Q -> triple w base P (on_error m (close_all fds)) Q.
Proof.
  intros Hm x Hx. unfold on_error. specialize (Hm x Hx). destruct (m x) as [y [a|e]]; [done|]. by apply safe_close_all.
Qed.

Lemma triple_prepare w base : triple w base (blank w base) (prepare_record (wr_chain w)) (fun _ => blank w base).
Proof.
  unfold prepare_record. assert (stable w base (blank w base)) as Hst by apply at_disk_stable.
  eapply triple_bind; [apply triple_quiet; [auto with quiet|done]|cbn beta; intros _]. eapply triple_bind; [apply triple_blank_fsync|cbn beta; intros _].
  eapply triple_bind; [apply triple_blank_fsync|cbn beta; intros _]. eapply triple_bind; [apply triple_quiet; [auto with quiet|done]|cbn beta; intros _].
  eapply triple_bind; [apply triple_quiet; [apply quiet_silent; intros ?; apply law_uuid4|done]|cbn beta; intros hex]. by apply triple_quiet; [apply quiet_pret|].
Qed.

Lemma blank_writer_ok w base l : wr_published w = [] -> wr_observed w = None -> blank w base l -> writer_ok (wr_record_id w) (writer_fd w) base w l.
Proof.
  intros Hp Ho Hb. split; [by destruct Hb|]. split; [done|]. intros _. split; [done|]. exists ∅, ∅, []. split; [exact Hb|].
  unfold on_disk, published. rewrite Hp, Ho. split_and!; [intros q i; by rewrite lookup_empty..|done|done].
Qed.

Lemma publish_pending_ok w base x : wr_published w = [] -> wr_observed w = None -> blank w base (log x) ->
  match publish_pending w x with
  | (y, Return w') => writer_ok (wr_record_id w) (writer_fd w) base w' (log y) /\ active w' /\ durably (wr_record_id w) (writer_fd w) Pending None (log y)
  | (y, Throw _) => safe (wr_record_id w) (writer_fd w) base (log y)
  end.
Proof.
  intros Hp Ho Hb. unfold publish_pending. pose proof (publish_ok _ _ base w Pending None x (blank_writer_ok w base _ Hp Ho Hb)) as Hpub.
  specialize (Hpub ltac:(done)). destruct (publish w Pending None x) as [y [w' [[]|e]]]; destruct Hpub as (Hw & _ & Ha).
  - destruct Ha as (Ha & Hd & _). done.
  - destruct (writer_close_ok _ _ _ w' y Hw) as [(Hs & _) _]. done.
Qed.

(** ** The whole reservation *)

Lemma writer_ok_closed r D base w l fd : fd <> D -> writer_ok r D base w l -> writer_ok r D base w (l ++ [Closed fd]).
Proof.
  intros Hne (Hs & Hr & Ha). split; [by apply safe_closed|]. split; [done|]. intros Hw. destruct (Ha Hw) as (HD & e & du & fs & Hat & Hon).
  split; [done|]. exists e, du, fs. split; [|done]. destruct Hat as (Hs' & HD' & He & Hd & Hf & _). unfold at_disk. rewrite replay_snoc, in_use_app. cbn.
  split_and!; try done; [by apply safe_closed|]. apply list_elem_of_In, filter_In. split; [by apply list_elem_of_In|]. apply negb_true_iff, Z.eqb_neq. congruence.
Qed.

Lemma durably_closed r D p o l fd : durably r D p o l -> durably r D p o (l ++ [Closed fd]).
Proof. intros (i & b & H1 & H2 & H3 & H4). exists i, b. rewrite replay_snoc. done. Qed.

Lemma close_all_keep (Q : list disk_event -> Prop) fds : (forall l fd, fd ∈ fds -> Q l -> Q (l ++ [Closed fd])) ->
  forall x, Q (log x) -> Q (log ((close_all fds x).1)).
Proof.
  induction fds as [|fd fds IH]; intros Hq x Hx; [done|]. cbn [close_all]. unfold pbind.
  specialize (IH ltac:(intros l g Hg; apply Hq; by right) x Hx). destruct (close_all fds x) as [y [a|e]]; cbn [fst] in *; [|done].
  unfold suppress, sys_close. pose proof (law_close y fd) as Hl. unfold logs in Hl. destruct (close y fd) as [z [a'|ex]]; cbn [fst snd] in *.
  - rewrite Hl. apply Hq; [by left|done].
  - destruct Hl as [->| ->]; [done|]. apply Hq; [by left|done].
Qed.

(** What a reservation gives: a record started at [base], in a new directory. *)
Definition reserved (l : list disk_event) (r : pystr) (D : Z) (base : list disk_event) : Prop :=
  exists d name, opened_at (fun k => Made d name ∈ k) l D base.

Lemma chain_fd_snoc fds fd names secure tail : chain_fd (Chain (fds ++ [fd]) names secure tail) = fd.
Proof. apply List.last_last. Qed.

Definition reserve_post (l : list disk_event) (out : W * answer writer) : Prop :=
  match out with
  | (y, Return w) => exists base, reserved l (wr_record_id w) (writer_fd w) base /\
      writer_ok (wr_record_id w) (writer_fd w) base w (log y) /\ active w /\ durably (wr_record_id w) (writer_fd w) Pending None (log y)
  | (y, Throw _) => plainly l (log y) \/ exists r D base, reserved l r D base /\ safe r D base (log y)
  end.

Lemma reserved_openly l l' r D base : openly l l' -> reserved l' r D base -> reserved l r D base.
Proof.
  intros [(k & -> & Hk) Ho] (d & name & Hat). exists d, name. eapply opened_openly_at; [exact Hk|exact Ho| |exact Hat].
  intros k' Hin. apply elem_of_app. by right.
Qed.

Lemma reserve_post_openly l l' out : openly l l' -> reserve_post l' out -> reserve_post l out.
Proof.
  intros Ho. destruct out as [y [w|e]]; cbn.
  - intros (base & Hr & Hp). exists base. split; [by eapply reserved_openly|done].
  - intros [Hp|(r & D & base & Hr & Hs)]; [left; by etrans; [apply Ho|]|right; exists r, D, base; split; [by eapply reserved_openly|done]].
Qed.

Lemma reserve_post_bind {A} l (m : prog W A) (k : A -> prog W writer) Q x : openly l (log x) -> opening m Q x ->
  (forall a y, openly l (log y) -> openly (log x) (log y) -> Q a (log y) -> reserve_post (log y) (k a y)) -> reserve_post l (pbind m k x).
Proof.
  intros Hl Ho Hk. unfold opening in Ho. unfold pbind. destruct (m x) as [y [a|e]].
  - destruct Ho as [Ho Hq]. assert (openly l (log y)) as Hl' by (by etrans). eapply reserve_post_openly; [exact Hl'|]. by apply Hk.
  - left. etrans; [apply Hl|exact Ho].
Qed.

(** From the new directory on *)
Lemma reserve_directory c managed name x : held c (log x) ->
  reserve_post (log x)
    ((do child <- on_error (make_directory c managed name) (chain_close c) ;;
      do record_id <- on_error (prepare_record (Chain (ch_fds c ++ [child]) (ch_names c ++ [name]) (ch_secure c) 2))
                        (chain_close (Chain (ch_fds c ++ [child]) (ch_names c ++ [name]) (ch_secure c) 2)) ;;
      do pid <- pgets getpid ;;
      publish_pending (Writer (Chain (ch_fds c ++ [child]) (ch_names c ++ [name]) (ch_secure c) 2) record_id pid false false None [])) x).
Proof.
  intros Hc. unfold pbind at 1, on_error at 1. pose proof (make_directory_spec c managed name x) as Hm. unfold opens_new in Hm.
  destruct (make_directory c managed name x) as [y [child|e]].
  2: { left. etrans; [exact Hm|apply close_all_plainly]. }
  destruct Hm as (base & Hat & Hy). set (c' := Chain _ _ _ _). set (w0 := fun r pid => Writer c' r pid false false None []).
  assert (forall r pid, writer_fd (w0 r pid) = child) as HD by (intros; apply chain_fd_snoc).
  assert (forall r, reserved (log x) r child base) as Hres by (intros r; by exists (chain_fd c), name).
  assert (forall r, blank (w0 r 0) base (log y)) as Hb.
  { intros r. eapply stable_quiet; [apply at_disk_stable| |exact Hy]. destruct Hat as (k & -> & _). rewrite app_assoc, <- (HD r 0). apply blank_start. }
  unfold pbind at 1.
  pose proof (fun r => triple_on_error _ _ _ _ (ch_fds c') _ (triple_prepare (w0 r 0) base) y (Hb r)) as Hprep. cbn [wr_chain w0] in Hprep. unfold chain_close.
  destruct (on_error (prepare_record c') (close_all (ch_fds c')) y) as [z [record_id|e]].
  2: { right. exists [], child, base. split; [done|]. rewrite <- (HD [] 0). exact (Hprep []). }
  specialize (Hprep record_id). unfold pbind, pgets.
  pose proof (publish_pending_ok (w0 record_id (getpid z)) base z eq_refl eq_refl Hprep) as Hp. fold (w0 record_id (getpid z)).
  destruct (publish_pending _ z) as [v [w'|e]]; rewrite HD in Hp; cbn [wr_record_id w0] in Hp.
  - destruct Hp as (Hw & Ha & Hd). pose proof Hw as (_ & Er & HD'). destruct (HD' Ha) as [ED _]. cbn. rewrite Er, ED. exists base. by split_and!.
  - right. exists record_id, child, base. done.
Qed.

Lemma reserve_ok path managed x : reserve_post (log x) (reserve path managed x).
Proof.
  unfold reserve. set (m := if negb on_linux then _ else _).
  assert (reserve_post (log x) (m x)) as Hm.
  2: { unfold or_stage. destruct (m x) as [y [w|[| |]]]; exact Hm. }
  unfold m. clear m. destruct (negb on_linux); [left; exact (reflexivity (R := plainly) (log x))|].
  eapply reserve_post_bind; [reflexivity|apply opening_quiet, quiet_pure|]. intros components y1 _ _ _. cbv zeta.
  eapply reserve_post_bind; [reflexivity|apply opening_chain|]. intros mc y2 _ _ Hmc.
  set (body := do managed0 <- fd_identity (chain_fd mc) ;; _).
  assert (reserve_post (log y2) (body y2)) as Hbody.
  { unfold body. eapply reserve_post_bind; [reflexivity|apply opening_quiet, quiet_fd_identity|]. intros identity y3 _ _ _.
    eapply reserve_post_bind; [reflexivity|apply opening_chain|]. intros c y4 _ _ Hc. by apply reserve_directory. }
  unfold finally. destruct (body y2) as [y [w|e]]; cbn [fst snd].
  - destruct Hbody as (base & Hres & Hw & Ha & Hd). exists base. split; [done|].
    pose proof (close_all_keep (fun l => writer_ok (wr_record_id w) (writer_fd w) base w l /\ durably (wr_record_id w) (writer_fd w) Pending None l) (ch_fds mc)) as Hk.
    destruct (Hk) with (x := y) as [Hw' Hd']; [|done|by split_and!].
    intros l fd Hfd [Hw' Hd']. destruct Hres as (d & name & k & _ & _ & _ & Hin). destruct (Hin fd (Hmc fd Hfd)) as [Hne _].
    split; [by apply writer_ok_closed|by apply durably_closed].
  - destruct Hbody as [Hp|(r & D & base & Hres & Hs)].
    + left. etrans; [exact Hp|apply close_all_plainly].
    + right. exists r, D, base. split; [done|]. by apply safe_close_all.
Qed.

(** * Runs of a writer *)

Inductive writer_op := DoObserved (o : observation) | DoConfirmed (o : observation) | DoClose.

Definition writer_step (op : writer_op) (w : writer) (x : W) : W * (writer * answer unit) :=
  match op with
  | DoObserved o => publish_observed w o x
  | DoConfirmed o => publish_confirmed w o x
  | DoClose => let (y, w) := writer_close w x in (y, (w, Return tt))
  end.

Definition op_record (op : writer_op) : option (phase * option observation) :=
  match op with DoObserved o => Some (Observed, Some o) | DoConfirmed o => Some (Confirmed, Some o) | DoClose => None end.

(** A call that returns has made its record durable; one that raises leaves the
    writer unusable, or did nothing. *)
Definition step_post (r : pystr) (D : Z) (base : list disk_event) (op : writer_op) (w : writer) (x : W) (out : W * (writer * answer unit)) : Prop :=
  let '(y, (w', a)) := out in writer_ok r D base w' (log y) /\
  match a, op_record op with
  | Return _, Some (p, o) => active w' /\ durably r D p o (log y)
  | Return _, None => ~ active w'
  | Throw _, _ => (w' = w /\ y = x) \/ ~ active w'
  end.

Lemma writer_step_ok r D base op w x : writer_ok r D base w (log x) -> step_post r D base op w x (writer_step op w x).
Proof.
  intros Hw. destruct op as [o|o|]; cbn [writer_step].
  - unfold publish_observed. pose proof (publish_ok r D base w Observed (Some o) x Hw ltac:(done)) as Hp.
    destruct (publish w Observed (Some o) x) as [y [w' [[]|e]]]; destruct Hp as (Hw' & Ho & Ha); [|by split].
    destruct Ha as (Ha & Hd & entry & Ep & Ee). split; [|by split]. destruct Hw' as (Hs & Hr & Ha'). split; [done|]. split; [done|]. intros _.
    destruct (Ha' Ha) as (HD & e & du & fs & Hat & (H1 & H2 & H3 & _)). split; [done|]. exists e, du, fs. split; [exact Hat|].
    split; [exact H1|]. split; [exact H2|]. split; [exact H3|]. intros seen Hseen. apply (inj Some) in Hseen as <-. exists entry. split; [done|]. cbn. by rewrite Hr.
  - unfold publish_confirmed. destruct (ensure_active w x) as [[]|e] eqn:Ea; [|split; [done|by left]].
    assert (step_post r D base (DoConfirmed o) w x (x, (w <| wr_poisoned := true |>, Throw (RecordError "confirmed")))) as Hpoison.
    { assert (~ active (w <| wr_poisoned := true |>)) as Hna by (by intros [_ ?]). split; [|by right]. destruct Hw as (Hs & Hr & _).
      split; [done|]. split; [done|]. intros Hx. by destruct Hna. }
    destruct (validate_observation o true) as [o'|] eqn:Ev; [|exact Hpoison]. apply validate_observation_Ok in Ev as (-> & _).
    case_bool_decide as Hc; [|exact Hpoison]. pose proof (publish_ok r D base w Confirmed (Some o) x Hw) as Hp.
    destruct (publish w Confirmed (Some o) x) as [y [w' a]].
    destruct Hp as (Hw' & _ & Ha); [intros _; destruct (wr_observed w) as [seen|]; [exists seen; by split; [|apply (inj Some) in Hc as ->]|done]|].
    split; [done|]. destruct a; [|done]. by destruct Ha as (? & ? & _).
  - pose proof (writer_close_ok r D base w x Hw) as [H1 H2]. destruct (writer_close w x) as [y w']. by split.
Qed.

Fixpoint writer_run (ops : list writer_op) (w : writer) (x : W) : W * writer :=
  match ops with
  | [] => (x, w)
  | op :: ops => let '(y, (w, _)) := writer_step op w x in writer_run ops w y
  end.

Lemma writer_run_ok r D base ops : forall w x, writer_ok r D base w (log x) ->
  writer_ok r D base (writer_run ops w x).2 (log (writer_run ops w x).1).
Proof.
  induction ops as [|op ops IH]; intros w x Hw; [done|]. cbn [writer_run]. pose proof (writer_step_ok r D base op w x Hw) as Hp.
  destruct (writer_step op w x) as [y [w' a]]. destruct Hp as [Hw' _]. by apply IH.
Qed.

(** The log only grows. *)
Lemma writer_run_grows r D base ops w x : writer_ok r D base w (log x) -> log x `prefix_of` log (writer_run ops w x).1.
Proof.
  intros (Hs & Hr & Ha). assert (writer_ok r D (log x) w (log x)) as Hw.
  { assert (safe r D (log x) (log x)) as Hnow by (apply safe_start; by eapply safe_now). split; [done|]. split; [done|]. intros Hact.
    destruct (Ha Hact) as (<- & e & du & fs & (_ & Hat) & Hon). split; [done|]. exists e, du, fs. split; [|done]. split; [by subst r|done]. }
  destruct (writer_run_ok r D (log x) ops w x Hw) as [Hrun _]. by eapply safe_extends.
Qed.
End reserve.
