(* ===== verification/ExecRecordReader.v ===== *)
(** What the reader of a durable exec record finds on a disk: after a crash of the
    writer, and on a directory at rest. *)
From stdpp Require Import gmap.
From S2P Require Import Prelude Crypto PyStr PyVal ControlV2Wire ExecSession ExecRecord ExecRecordFacts ExecRecordOS ExecRecordWriter ExecRecordDisk.

(** * The record on a disk *)

Definition file_of (s : disk) (p : phase) : option bytes :=
  match dk_entries s !! final_name p with Some i => fst <$> dk_files s !! i | None => None end.

Definition found (files : phase -> option bytes) (p : phase) : result (option (pystr * option observation)) :=
  match files p with None => Ok None | Some b => let? decoded := decode_artifact b p in Ok (Some decoded) end.

(** [read_exec_record] on the bytes of the three files *)
Definition inspect_files (files : phase -> option bytes) : result snapshot :=
  let? pending := found files Pending in
  let? observed := found files Observed in
  let? confirmed := found files Confirmed in
  snapshot_of pending observed confirmed.

(** * Crashes *)

(** A disk a crash may leave: the entries that were durable are there, those that
    were not may be; a durable file has its bytes. *)
Record crash_image (s c : disk) : Prop := {
  image_durable p i : dk_durable s !! final_name p = Some i -> dk_entries c !! final_name p = Some i;
  image_entries p i : dk_entries c !! final_name p = Some i -> dk_entries s !! final_name p = Some i;
  image_files i b : dk_files s !! i = Some (b, true) -> dk_files c !! i = Some (b, true);
}.

(** No file of the record, or a record that reads as [r]. *)
Definition consistent (r : pystr) (c : disk) : Prop :=
  (forall p, file_of c p = None) \/ exists s, inspect_files (file_of c) = Ok s /\ sn_record_id s = r.

(** The files of a sound record, as far as it goes. *)
Definition phases_of (r : pystr) (files : phase -> option bytes) (last : phase) (o : option observation) : Prop :=
  match last with
  | Pending => exists b, files Pending = Some b /\ encode_artifact r Pending None = Ok b /\ files Observed = None /\ files Confirmed = None /\ o = None
  | Observed => exists a b seen, files Pending = Some a /\ encode_artifact r Pending None = Ok a /\
      files Observed = Some b /\ encode_artifact r Observed (Some seen) = Ok b /\ files Confirmed = None /\ o = Some seen
  | Confirmed => exists a b c seen, files Pending = Some a /\ encode_artifact r Pending None = Ok a /\
      files Observed = Some b /\ encode_artifact r Observed (Some seen) = Ok b /\
      files Confirmed = Some c /\ encode_artifact r Confirmed (Some (confirm seen)) = Ok c /\ o = Some (confirm seen)
  end.

Lemma found_encoded files p b r o : files p = Some b -> encode_artifact r p o = Ok b -> found files p = Ok (Some (r, o)).
Proof. intros Hf He. unfold found. rewrite Hf. apply decode_artifact_encode in He as [-> _]. done. Qed.

Lemma found_missing files p : files p = None -> found files p = Ok None.
Proof. intros Hf. unfold found. by rewrite Hf. Qed.

Lemma snapshot_init_ok r p o : record_id_ok r -> phase_observation p o -> snapshot_init r p o = Ok (Snapshot r p o).
Proof.
  intros Hr Ho. unfold snapshot_init. rewrite (proj2 (validate_record_id_Ok _ r)) by done. cbn [result_bind].
  destruct o as [o|]; cbn [phase_observation] in Ho.
  - destruct Ho as (Hp & Hc & Ho). rewrite !bool_decide_eq_false_2 by done. cbn [Bool.eqb negb].
    by rewrite (proj2 (validate_observation_Ok o _ o)) by done.
  - subst p. by rewrite !bool_decide_eq_true_2 by done.
Qed.

Lemma encode_artifact_parts r p o b : encode_artifact r p o = Ok b -> record_id_ok r /\ phase_observation p o.
Proof. by intros (? & ? & _)%encode_artifact_Ok. Qed.

Lemma phases_of_inspect r files last o : phases_of r files last o -> inspect_files files = Ok (Snapshot r last o).
Proof.
  unfold inspect_files. destruct last; cbn [phases_of].
  - intros (b & Fp & Ep & Fo & Fc & ->). rewrite (found_encoded _ _ _ _ _ Fp Ep), (found_missing _ _ Fo), (found_missing _ _ Fc). cbn [result_bind].
    destruct (encode_artifact_parts _ _ _ _ Ep). by apply snapshot_init_ok.
  - intros (a & b & seen & Fp & Ep & Fo & Eo & Fc & ->). rewrite (found_encoded _ _ _ _ _ Fp Ep), (found_encoded _ _ _ _ _ Fo Eo), (found_missing _ _ Fc).
    cbn [result_bind]. destruct (encode_artifact_parts _ _ _ _ Eo). unfold snapshot_of. cbn. rewrite bool_decide_eq_true_2 by done. by apply snapshot_init_ok.
  - intros (a & b & c & seen & Fp & Ep & Fo & Eo & Fc & Ec & ->).
    rewrite (found_encoded _ _ _ _ _ Fp Ep), (found_encoded _ _ _ _ _ Fo Eo), (found_encoded _ _ _ _ _ Fc Ec). cbn [result_bind].
    destruct (encode_artifact_parts _ _ _ _ Ec). unfold snapshot_of. cbn. rewrite !bool_decide_eq_true_2 by done. by apply snapshot_init_ok.
Qed.

(** A crash leaves the phases of one record. *)
Lemma image_phases r s c : disk_ok r s -> crash_image s c ->
  (forall p, file_of c p = None) \/ exists last o, phases_of r (file_of c) last o.
Proof.
  intros [H1 H2 H3] [I1 I2 I3].
  assert (forall p, (dk_entries c !! final_name p = None /\ file_of c p = None) \/
    exists i b o, dk_entries s !! final_name p = Some i /\ dk_entries c !! final_name p = Some i /\ dk_files s !! i = Some (b, true) /\
      encode_artifact r p o = Ok b /\ file_of c p = Some b) as Hp.
  { intros p. unfold file_of. destruct (dk_entries c !! final_name p) as [i|] eqn:E; [right|by left]. apply I2 in E as Es.
    destruct (H1 p i Es) as (b & o & Fi & Ee). exists i, b, o. by rewrite (I3 i b Fi). }
  assert (forall p q i, dk_entries s !! final_name p = Some i -> q ∈ predecessors p -> exists j, dk_entries c !! final_name q = Some j) as Hpre.
  { intros p q i E Hq. destruct (H2 p q i E Hq) as (j & _ & Dj). exists j. by apply I1. }
  destruct (Hp Pending) as [[Ep Fp]|(i & a & o & Es & Ep & Fi & Ea & Fp)].
  - left. intros p. destruct (Hp p) as [[_ ?]|(j & b & o & Ej & _)]; [done|]. destruct p; [congruence| |];
      (destruct (Hpre _ Pending j Ej) as [k Ek]; [by left|congruence]).
  - right. assert (o = None) as -> by (destruct (encode_artifact_parts _ _ _ _ Ea) as [_ Ho]; by destruct o; [destruct Ho|]).
    destruct (Hp Observed) as [[Eo Fo]|(j & b & ob & Ejs & Eo & Fj & Eb & Fo)].
    + exists Pending, None, a. split_and!; try done. destruct (Hp Confirmed) as [[_ ?]|(k & d & od & Ek & _)]; [done|].
      destruct (Hpre _ Observed k Ek) as [m Em]; [by right; left|congruence].
    + assert (exists seen, ob = Some seen) as [seen ->].
      { destruct (encode_artifact_parts _ _ _ _ Eb) as [_ Ho]. destruct ob as [seen|]; [by exists seen|done]. }
      destruct (Hp Confirmed) as [[Ec Fc]|(k & d & od & Eks & Ec & Fk & Ed & Fc)].
      * exists Observed, (Some seen), a, b, seen. by split_and!.
      * destruct (H3 j k Ejs Eks) as (seen' & b' & d' & Fj' & Eb' & Fk' & Ed'). assert (b' = b) as -> by congruence. assert (d' = d) as -> by congruence.
        exists Confirmed, (Some (confirm seen')), a, b, d, seen'. by split_and!.
Qed.

Lemma image_consistent r s c : disk_ok r s -> crash_image s c -> consistent r c.
Proof.
  intros Hs Hc. destruct (image_phases r s c Hs Hc) as [?|(last & o & Hp)]; [by left|right].
  exists (Snapshot r last o). split; [by apply phases_of_inspect|done].
Qed.

(** What the reader finds includes a record [o] of phase [p]. *)
Definition includes (s : snapshot) (p : phase) (o : option observation) : Prop :=
  match sn_phase s, p with
  | Confirmed, Observed => sn_observation s = option_map confirm o
  | q, _ => (phase_index p <= phase_index q)%nat /\ (q = p -> sn_observation s = o)
  end.

Lemma encode_artifact_inj r r' p o o' b : encode_artifact r p o = Ok b -> encode_artifact r' p o' = Ok b -> r = r' /\ o = o'.
Proof. intros [E _]%decode_artifact_encode [E' _]%decode_artifact_encode. rewrite E in E'. by apply (inj Ok), pair_equal_spec in E'. Qed.

(** A durable publication is found after any crash. *)
Lemma image_includes r s c p o i b : disk_ok r s -> crash_image s c ->
  dk_durable s !! final_name p = Some i -> dk_files s !! i = Some (b, true) -> encode_artifact r p o = Ok b ->
  exists v, inspect_files (file_of c) = Ok v /\ sn_record_id v = r /\ includes v p o.
Proof.
  intros Hs Hc Hd Hf He. assert (file_of c p = Some b) as Fb.
  { unfold file_of. rewrite (image_durable s c Hc p i Hd), (image_files s c Hc i b Hf). done. }
  destruct (image_phases r s c Hs Hc) as [Hn|(last & o' & Hp)]; [by rewrite Hn in Fb|].
  exists (Snapshot r last o'). split; [by apply phases_of_inspect|]. split; [done|]. unfold includes. cbn [sn_phase sn_observation].
  destruct last; cbn [phases_of] in Hp.
  - destruct Hp as (a & Fa & Ea & Fo & Fc & ->). destruct p; [|congruence..]. split; [done|]. intros _. assert (a = b) as -> by congruence.
    by destruct (encode_artifact_inj _ _ _ _ _ _ He Ea) as [_ ->].
  - destruct Hp as (a & d & seen & Fa & Ea & Fo & Eo & Fc & ->). destruct p; [split; [cbn; lia|done]|split; [done|]|congruence]. intros _.
    assert (d = b) as -> by congruence. by destruct (encode_artifact_inj _ _ _ _ _ _ He Eo) as [_ ->].
  - destruct Hp as (a & d & e & seen & Fa & Ea & Fo & Eo & Fc & Ec & ->). destruct p; [split; [cbn; lia|done]| |split; [done|]; intros _].
    + assert (d = b) as -> by congruence. by destruct (encode_artifact_inj _ _ _ _ _ _ He Eo) as [_ ->].
    + assert (e = b) as -> by congruence. by destruct (encode_artifact_inj _ _ _ _ _ _ He Ec) as [_ ->].
Qed.

(** * The reader of a durable exec record: what it answers for any answers of the
    system, and on a directory at rest. *)

(** A step of a computation that returned *)
Lemma pbind_Return {S A B} (m : prog S A) (k : A -> prog S B) s t b : pbind m k s = (t, Return b) -> exists a u, m s = (u, Return a) /\ k a u = (t, Return b).
Proof. unfold pbind. destruct (m s) as [u [a|e]]; [by exists a, u|done]. Qed.
Lemma refuse_Return {S A} (b : bool) (k : prog S A) s t a : (if b then throw Failure else k) s = (t, Return a) -> b = false /\ k s = (t, Return a).
Proof. by destruct b. Qed.
Lemma pure_Return {S A} (r : result A) (s t : S) a : pure r s = (t, Return a) -> r = Ok a /\ t = s.
Proof. destruct r; cbn; [|done]. intros E. apply pair_equal_spec in E as [-> E]. split; [f_equal|done]. by injection E. Qed.

Ltac returned H := first [apply pbind_Return in H as (? & ? & ? & H) | apply refuse_Return in H as [? H]].

Section reader.
Context {W : Type} `{RecordOS W}.

(** * The answer *)

Lemma snapshot_of_Ok pending observed confirmed s : snapshot_of pending observed confirmed = Ok s ->
  (forall a, pending = Some a -> phase_observation Pending (snd a) /\ record_id_ok (fst a)) ->
  (forall a, observed = Some a -> phase_observation Observed (snd a)) -> (forall a, confirmed = Some a -> phase_observation Confirmed (snd a)) ->
  pending = Some (sn_record_id s, None) /\
  match sn_phase s with
  | Pending => observed = None /\ confirmed = None /\ sn_observation s = None
  | Observed => observed = Some (sn_record_id s, sn_observation s) /\ confirmed = None
  | Confirmed => exists seen, observed = Some (sn_record_id s, Some seen) /\ confirmed = Some (sn_record_id s, sn_observation s) /\ sn_observation s = Some (confirm seen)
  end.
Proof.
  intros Hs Hp Ho Hc. unfold snapshot_of in Hs. destruct pending as [[r po]|]; [|done]. destruct (Hp _ eq_refl) as [Hpo Hr].
  assert (po = None) as -> by (destruct po; [by destruct Hpo|done]).
  destruct (match confirmed, observed with Some _, None => true | _, _ => false end) eqn:G1; [done|]. destruct (negb (forallb _ _)) eqn:G2; [done|].
  apply negb_false_iff in G2. rewrite forallb_app in G2. apply andb_true_iff in G2 as [G2 G3].
  destruct observed as [[ro o]|]; cbn in G2; [|destruct confirmed; [done|]; rewrite snapshot_init_ok in Hs by done; apply (inj Ok) in Hs as <-; done].
  rewrite andb_true_r in G2. apply bool_decide_eq_true in G2 as ->.
  specialize (Ho _ eq_refl) as Ho'. cbn in Ho'.
  destruct confirmed as [[rc c]|]; cbn in G3.
  - rewrite andb_true_r in G3. apply bool_decide_eq_true in G3 as ->. destruct (negb (bool_decide (c = option_map confirm o))) eqn:G4; [done|].
    apply negb_false_iff, bool_decide_eq_true in G4 as ->. specialize (Hc _ eq_refl). cbn in Hc. rewrite snapshot_init_ok in Hs by done. apply (inj Ok) in Hs as <-.
    split; [done|]. cbn. destruct o as [seen|]; [by exists seen|done].
  - rewrite snapshot_init_ok in Hs by done. apply (inj Ok) in Hs as <-. done.
Qed.

(** [p] was read as [b] and decodes. *)
Definition read_as (d : Z) (p : phase) (decoded : option (pystr * option observation)) : Prop :=
  match decoded with
  | None => True
  | Some (r, o) => exists x y b, read_artifact d (final_name p) x = (y, Return b) /\ encode_artifact r p o = Ok b
  end.

Lemma read_phase_as d entries p x y decoded : read_phase d entries p x = (y, Return decoded) ->
  read_as d p decoded /\ (decoded = None <-> item_get entries (final_name p) = None).
Proof.
  unfold read_phase. destruct (item_get entries (final_name p)) as [sig|]; intros Hr.
  - apply pbind_Return in Hr as (b & x1 & Hb & Hr). apply pbind_Return in Hr as ([r o] & x2 & [Hd ->]%pure_Return & Hr).
    unfold pret in Hr. apply pair_equal_spec in Hr as [_ Hr]. assert (decoded = Some (r, o)) as -> by congruence.
    split; [|done]. exists x, x1, b. split; [done|]. by apply decode_artifact_Ok.
  - unfold pret in Hr. apply pair_equal_spec in Hr as [_ Hr]. by assert (decoded = None) as -> by congruence.
Qed.

(** [read_exec_record] once it returned: the last step *)
Lemma inspect_Return c x y s : inspect c x = (y, Return s) -> exists before x1 x2 x3 x4 x5 pending observed confirmed,
  enumerate (chain_fd c) x1 = (x2, Return before) /\
  read_phase (chain_fd c) before Pending x2 = (x3, Return pending) /\ read_phase (chain_fd c) before Observed x3 = (x4, Return observed) /\
  read_phase (chain_fd c) before Confirmed x4 = (x5, Return confirmed) /\ snapshot_of pending observed confirmed = Ok s.
Proof.
  unfold inspect. intros Hr. apply refuse_Return in Hr as [_ Hr]. cbv zeta in Hr.
  apply pbind_Return in Hr as ([] & x1 & _ & Hr). apply pbind_Return in Hr as (before & x2 & Hb & Hr).
  apply pbind_Return in Hr as (pending & x3 & Hp & Hr). apply pbind_Return in Hr as (observed & x4 & Ho & Hr).
  apply pbind_Return in Hr as (confirmed & x5 & Hc & Hr). apply pbind_Return in Hr as ([] & x6 & _ & Hr). apply pbind_Return in Hr as (after & x7 & _ & Hr).
  destruct (negb (entries_eqb before after)); [done|]. apply pbind_Return in Hr as ([] & x8 & _ & Hr). apply pure_Return in Hr as [Hs ->].
  exists before, x1, x2, x3, x4, x5, pending, observed, confirmed. done.
Qed.

Lemma read_as_phase d p a : read_as d p (Some a) -> phase_observation p (snd a) /\ record_id_ok (fst a).
Proof. destruct a as [r o]. intros (x & y & b & _ & He). by destruct (encode_artifact_parts _ _ _ _ He). Qed.

(** What [read_exec_record] answers was read from artifacts of one record. *)
Lemma read_exec_record_sound path x y s : read_exec_record path x = (y, Return s) -> exists d,
  record_id_ok (sn_record_id s) /\ phase_observation (sn_phase s) (sn_observation s) /\
  read_as d Pending (Some (sn_record_id s, None)) /\
  match sn_phase s with
  | Pending => sn_observation s = None
  | Observed => read_as d Observed (Some (sn_record_id s, sn_observation s))
  | Confirmed => exists seen, sn_observation s = Some (confirm seen) /\
      read_as d Observed (Some (sn_record_id s, Some seen)) /\ read_as d Confirmed (Some (sn_record_id s, Some (confirm seen)))
  end.
Proof.
  unfold read_exec_record, or_stage. set (m := if negb on_linux then _ else _). intros Hr.
  assert (m x = (y, Return s)) as Hm by (destruct (m x) as [z [a|[| |]]]; done). clear Hr. unfold m in Hm. apply refuse_Return in Hm as [_ Hm].
  apply pbind_Return in Hm as (c & z & _ & Hm). unfold finally in Hm. destruct (inspect c z) as [v r] eqn:Hi. apply pair_equal_spec in Hm as [_ ->].
  apply inspect_Return in Hi as (before & x1 & x2 & x3 & x4 & x5 & pending & observed & confirmed & _ & Hp & Ho & Hc & Hs).
  apply read_phase_as in Hp as [Hp _], Ho as [Ho _], Hc as [Hc _]. set (d := chain_fd c) in *. exists d.
  destruct (snapshot_of_Ok _ _ _ _ Hs) as [-> Hrest].
  { intros a ->. by apply read_as_phase in Hp. }
  { intros a ->. by apply read_as_phase in Ho as [? _]. }
  { intros a ->. by apply read_as_phase in Hc as [? _]. }
  destruct (read_as_phase _ _ _ Hp) as [_ Hid]. cbn in Hid. split; [done|].
  destruct (sn_phase s).
  - destruct Hrest as (_ & _ & ->). done.
  - destruct Hrest as (-> & _). destruct (read_as_phase _ _ _ Ho) as [Hob _]. done.
  - destruct Hrest as (seen & -> & -> & Es). rewrite Es in Hc |- *. destruct (read_as_phase _ _ _ Hc) as [Hcf _]. split; [done|]. split; [done|]. by exists seen.
Qed.
End reader.

(** * A directory at rest *)

(** The record directory [d] holds [files]: an open file gives its bytes front to
    back ([unread] is what is left), and the names are those of the files. *)
Class RestingLaws (W : Type) `{RecordOS W} (d : Z) (files : phase -> option bytes) := {
  unread : W -> Z -> bytes;
  rest_open_file w p w' fd : open_file w d (final_name p) = (w', Return fd) -> files p = Some (unread w' fd);
  rest_read w fd n w' b : 0 < n -> read w fd n = (w', Return b) -> unread w fd = b ++ unread w' fd /\ zlen b <= n /\ (b = [] -> unread w fd = []);
  rest_fstat w fd g : unread (fstat w fd).1 g = unread w g;
  rest_listxattr w fd g : unread (listxattr w fd).1 g = unread w g;
  rest_fgetxattr w fd name n g : unread (fgetxattr w fd name n).1 g = unread w g;
  rest_scandir w w' names : scandir w d = (w', Return names) -> forall p, Return (final_name p) ∈ names <-> files p <> None;
}.

Section resting.
Context {W : Type} `{HO : RecordOS W} (d : Z) (files : phase -> option bytes) `{HR : !RestingLaws W d files}.

(** ** The loop of [_read_artifact] *)

Lemma read_chunks_spec fuel fd : forall remaining acc x y payload, 0 <= remaining -> read_chunks fuel fd remaining acc x = (y, Return payload) ->
  exists k, payload = acc ++ k /\ unread x fd = k ++ unread y fd /\ (unread y fd = [] \/ zlen k = remaining).
Proof.
  induction fuel as [|fuel IH]; intros remaining acc x y payload Hrem; [done|]. cbn [read_chunks]. destruct (remaining =? 0) eqn:G; bool_norm.
  - intros E. apply pair_equal_spec in E as [-> E]. exists []. rewrite app_nil_r. split_and!; [congruence|done|right; by subst remaining].
  - intros E. apply pbind_Return in E as (b & z & Hb & E). unfold sys_read in Hb. apply rest_read in Hb as (Hu & Hl & Hn); [|lia].
    destruct b as [|c b].
    + apply pair_equal_spec in E as [-> E]. exists []. rewrite app_nil_r. split_and!; [congruence|done|]. left. cbn in Hu. by rewrite <- Hu, Hn.
    + apply IH in E as (k & -> & Hk & He); [|lia]. exists ((c :: b) ++ k). rewrite app_assoc, Hu, Hk, app_assoc. split_and!; [done|done|].
      destruct He as [?|He]; [by left|right]. zlen_norm. lia.
Qed.

(** The fuel is enough: a turn reads a byte at least. *)
Lemma read_chunks_fuel fuel fd : forall fuel' remaining acc x, (0 <= remaining < Z.of_nat fuel) -> (fuel <= fuel')%nat ->
  read_chunks fuel' fd remaining acc x = read_chunks fuel fd remaining acc x.
Proof.
  induction fuel as [|fuel IH]; intros fuel' remaining acc x Hr Hf; [lia|]. destruct fuel' as [|fuel']; [lia|]. cbn [read_chunks].
  destruct (remaining =? 0) eqn:G; [done|]. bool_norm. unfold pbind, sys_read. destruct (read x fd remaining) as [y [b|e]] eqn:Eb; [|done].
  apply rest_read in Eb as (_ & Hl & _); [|lia]. destruct b as [|c b]; [done|]. zlen_norm. pose proof (zlen_nonneg b). apply IH; lia.
Qed.

Lemma check_no_acl_unread fd x g : unread ((check_no_acl fd x).1) g = unread x g.
Proof.
  unfold check_no_acl, pbind at 1. pose proof (rest_listxattr x fd g) as H1. destruct (listxattr x fd) as [x1 [names|e]]; cbn [fst] in *; [|done].
  destruct (_ || _); [done|]. destruct (bool_decide _); [done|]. destruct (negb _); [done|].
  unfold pbind at 1, read_xattr_bounded, pbind at 1.
  match goal with |- context [fgetxattr x1 fd ?n ?k] => pose proof (rest_fgetxattr x1 fd n k g) as H2; destruct (fgetxattr x1 fd n k) as [x2 [payload|e]] end;
    cbn [fst] in *; [|congruence].
  destruct (MAX_ARTIFACT_BYTES <? zlen payload); cbn; [congruence|]. destruct (_ || _); cbn; [congruence|].
  unfold pbind, sys_fstat. pose proof (rest_fstat x2 fd g) as H3. destruct (fstat x2 fd) as [x3 [m|e]]; cbn [fst] in *; [|congruence].
  destruct (negb _); cbn; congruence.
Qed.

(** [_read_artifact] answers the whole file. *)
Lemma read_artifact_file p x y b : read_artifact d (final_name p) x = (y, Return b) -> files p = Some b.
Proof.
  unfold read_artifact. intros Hr. apply pbind_Return in Hr as (before & x1 & _ & Hr). apply pbind_Return in Hr as (uid & x2 & _ & Hr).
  apply pbind_Return in Hr as ([] & x3 & _ & Hr). apply pbind_Return in Hr as (fd & x4 & Hf & Hr). unfold sys_open_file in Hf. apply rest_open_file in Hf. rewrite Hf.
  unfold closing in Hr. match type of Hr with (let (_, _) := ?m x4 in _) = _ => destruct (m x4) as [x5 r] eqn:Hm end.
  destruct (sys_close fd x5) as [x6 [u|e]]; apply pair_equal_spec in Hr as [_ Hr]; [|by destruct r]. assert (r = Return b) as -> by (by destruct r). clear Hr.
  apply pbind_Return in Hm as (held & x7 & Hh & Hm). assert (unread x7 fd = unread x4 fd) as E1.
  { unfold sys_fstat in Hh. pose proof (rest_fstat x4 fd fd) as E. by rewrite Hh in E. }
  apply refuse_Return in Hm as [_ Hm]. apply pbind_Return in Hm as (uid' & x8 & Hu & Hm). unfold pgets in Hu. apply pair_equal_spec in Hu as [<- _].
  apply pbind_Return in Hm as ([] & x9 & [_ ->]%pure_Return & Hm). apply pbind_Return in Hm as ([] & x10 & Ha & Hm).
  assert (unread x10 fd = unread x7 fd) as E2 by (pose proof (check_no_acl_unread fd x7 fd) as E; by rewrite Ha in E).
  apply pbind_Return in Hm as (payload & x11 & Hc & Hm). apply read_chunks_spec in Hc as (k & -> & Hk & He); [|by vm_compute].
  apply pbind_Return in Hm as (after & x12 & _ & Hm). apply refuse_Return in Hm as [Hlen Hm]. apply orb_false_iff in Hlen as [_ Hlen].
  apply pair_equal_spec in Hm as [_ Hm]. assert (b = k) as -> by (cbn in Hm; congruence). cbn [app] in Hlen. bool_norm.
  destruct He as [He|He]; [|lia]. by rewrite <- E1, <- E2, Hk, He, app_nil_r.
Qed.

Lemma enumerate_names_keys names : forall entries n x y after, enumerate_names d names entries n x = (y, Return after) ->
  forall k, item_get after k = None <-> item_get entries k = None /\ Return k ∉ names.
Proof.
  induction names as [|[name|e] names IH]; intros entries n x y after Hr k; cbn [enumerate_names] in Hr; [| |done].
  - apply pair_equal_spec in Hr as [_ Hr]. assert (after = entries) as -> by congruence. split; [intros E; split; [done|apply not_elem_of_nil]|by intros [? _]].
  - do 3 (apply refuse_Return in Hr as [_ Hr]). apply pbind_Return in Hr as (signature & z & _ & Hr). rewrite (IH _ _ _ _ _ Hr), not_elem_of_cons.
    destruct (decide (k = name)) as [->|Hne].
    + rewrite item_get_set. split; [by intros [? _]|by intros (_ & Hx & _)].
    + rewrite item_get_set_ne by done. split; [intros [? ?]; split; [done|]; split; [congruence|done]|by intros (? & _ & ?)].
Qed.

Lemma read_phase_found before p x1 x2 x y r : enumerate d x1 = (x2, Return before) -> read_phase d before p x = (y, Return r) -> found files p = Ok r.
Proof.
  intros He Hr. unfold enumerate in He. apply pbind_Return in He as (names & x3 & Hs & He).
  pose proof (rest_scandir _ _ _ Hs p) as Hn. pose proof (enumerate_names_keys _ _ _ _ _ _ He (final_name p)) as Hk. cbn [item_get] in Hk.
  unfold read_phase in Hr. unfold found. destruct (item_get before (final_name p)) as [signature|].
  - apply pbind_Return in Hr as (b & x4 & Hb & Hr). apply read_artifact_file in Hb as ->. apply pbind_Return in Hr as (decoded & x5 & [-> _]%pure_Return & Hr).
    apply pair_equal_spec in Hr as [_ Hr]. cbn. by assert (r = Some decoded) as -> by congruence.
  - apply pair_equal_spec in Hr as [_ Hr]. assert (r = None) as -> by congruence. destruct (files p) as [b|]; [|done].
    destruct Hk as [Hk _]. destruct (Hk eq_refl) as [_ Hk']. by destruct Hk'; apply Hn.
Qed.

(** The body of the reader answers what the files say. *)
Lemma inspect_files_refined c x y s : chain_fd c = d -> inspect c x = (y, Return s) -> inspect_files files = Ok s.
Proof.
  intros Hd Hi. apply inspect_Return in Hi as (before & x1 & x2 & x3 & x4 & x5 & pending & observed & confirmed & He & Hp & Ho & Hc & Hs).
  rewrite Hd in *. unfold inspect_files.
  by rewrite (read_phase_found _ _ _ _ _ _ _ He Hp), (read_phase_found _ _ _ _ _ _ _ He Ho), (read_phase_found _ _ _ _ _ _ _ He Hc).
Qed.
End resting.
