(* ===== verification/ExecRecordTheorems.v ===== *)
(** Two small systems on which the record of an execution is run: one with files
    and directories, which satisfies the laws of the writer, and a directory at
    rest, which satisfies those of the reader. *)
From stdpp Require Import gmap.
From S2P Require Import Prelude Crypto PyStr PyVal ControlV2Wire ExecSession ExecRecord ExecRecordFacts ExecRecordOS ExecRecordWriter ExecRecordDisk ExecRecordReader.

(** * A file system *)

Record dworld := DW {
  dw_log : list disk_event;
  dw_dirs : list (Z * list pystr);
  dw_made : list (list pystr);
  dw_names : list (list pystr * nat);
  dw_files : list bytes;
  dw_open : list (Z * (nat * nat));
  dw_draws : Z;
}.
#[export] Instance dworld_eta : Eta dworld := fun w =>
  DW (dw_log w) (dw_dirs w) (dw_made w) (dw_names w) (dw_files w) (dw_open w) (dw_draws w).

Definition find_key {K A} `{EqDecision K} (l : list (K * A)) (k : K) : option A :=
  option_map snd (List.find (fun x => bool_decide (fst x = k)) l).
Definition remove_key {K A} `{EqDecision K} (l : list (K * A)) (k : K) : list (K * A) := List.filter (fun x => negb (bool_decide (fst x = k))) l.

Definition fresh_fd (w : dworld) : Z := 1 + fold_right Z.max 2 (in_use (dw_log w)).
Definition index_of {A} `{EqDecision A} (x : A) (l : list A) : option nat :=
  (fix go l n := match l with [] => None | y :: l => if bool_decide (x = y) then Some n else go l (S n) end) l 0%nat.

Definition path_of (w : dworld) (d : Z) (name : pystr) : list pystr := match find_key (dw_dirs w) d with Some p => p ++ [name] | None => [u "?"; name] end.
Definition dir_stat (w : dworld) (p : list pystr) : option stat_result :=
  option_map (fun i => Stat 1 (Z.of_nat i) 16832 0 0 2 0 0 0) (index_of p (dw_made w)).
Definition file_stat (w : dworld) (ino : nat) : stat_result := Stat 1 (1000 + Z.of_nat ino) 33152 0 0 1 (zlen (nth ino (dw_files w) [])) 0 0.

Definition demo_stat (w : dworld) (p : list pystr) : answer stat_result :=
  match dir_stat w p, find_key (dw_names w) p with
  | Some m, _ => Return m
  | None, Some ino => Return (file_stat w ino)
  | None, None => Throw Failure
  end.
Definition demo_fstat (w : dworld) (fd : Z) : answer stat_result :=
  match find_key (dw_dirs w) fd, find_key (dw_open w) fd with
  | Some p, _ => match dir_stat w p with Some m => Return m | None => Throw Failure end
  | None, Some (ino, _) => Return (file_stat w ino)
  | None, None => Throw Failure
  end.

Definition event (w : dworld) (e : disk_event) : dworld := w <| dw_log := dw_log w ++ [e] |>.

Definition demo_open_dir (w : dworld) (p : list pystr) : dworld * answer Z :=
  if bool_decide (p ∈ dw_made w) then let fd := fresh_fd w in (event (w <| dw_dirs := (fd, p) :: dw_dirs w |>) (OpenedDir fd), Return fd)
  else (w, Throw Failure).
Definition demo_open_file (w : dworld) (p : list pystr) : dworld * answer Z :=
  match find_key (dw_names w) p with
  | Some ino => let fd := fresh_fd w in (event (w <| dw_open := (fd, (ino, 0%nat)) :: dw_open w |>) (OpenedFile fd), Return fd)
  | None => (w, Throw Failure)
  end.
Definition demo_create (w : dworld) (d : Z) (name : pystr) : dworld * answer Z :=
  match find_key (dw_names w) (path_of w d name) with
  | Some _ => (w, Throw Failure)
  | None =>
      let fd := fresh_fd w in
      let ino := length (dw_files w) in
      (event (w <| dw_names := (path_of w d name, ino) :: dw_names w |> <| dw_files := dw_files w ++ [[]] |>
                <| dw_open := (fd, (ino, 0%nat)) :: dw_open w |>) (Created d name fd), Return fd)
  end.
Definition demo_rename (w : dworld) (d : Z) (source target : pystr) : dworld * answer unit :=
  match find_key (dw_names w) (path_of w d source), dk_entries (replay d (dw_log w)) !! target with
  | Some ino, None =>
      (event (w <| dw_names := (path_of w d target, ino) :: remove_key (dw_names w) (path_of w d source) |>) (Renamed d source target), Return tt)
  | _, _ => (w, Throw Failure)
  end.
Definition demo_write (w : dworld) (fd : Z) (b : bytes) : dworld * answer Z :=
  match find_key (dw_open w) fd with
  | Some (ino, _) => (event (w <| dw_files := alter (fun f => f ++ b) ino (dw_files w) |>) (Wrote fd b), Return (zlen b))
  | None => (w, Throw Failure)
  end.
Definition demo_read (w : dworld) (fd n : Z) : dworld * answer bytes :=
  match find_key (dw_open w) fd with
  | Some (ino, at_) =>
      let chunk := take (Z.to_nat n) (drop at_ (nth ino (dw_files w) [])) in
      (w <| dw_open := (fd, (ino, (at_ + length chunk)%nat)) :: remove_key (dw_open w) fd |>, Return chunk)
  | None => (w, Throw Failure)
  end.
Definition demo_close (w : dworld) (fd : Z) : dworld * answer unit :=
  (event (w <| dw_open := remove_key (dw_open w) fd |> <| dw_dirs := remove_key (dw_dirs w) fd |>) (Closed fd), Return tt).
Definition demo_scandir (w : dworld) (d : Z) : list (answer pystr) :=
  match find_key (dw_dirs w) d with
  | Some p => flat_map (fun x => if bool_decide (removelast (fst x) = p) then [Return (List.last (fst x) [])] else []) (dw_names w)
  | None => []
  end.
Definition demo_uuid (w : dworld) : pystr := u "0123456789ab4def8123456789abcde" ++ [48 + dw_draws w mod 10].

#[export] Instance demo_os : RecordOS dworld := {|
  on_linux := true;
  fs_encode := fun s => Some s;
  getpid := fun _ => 7;
  geteuid := fun _ => 0;
  open_root := fun w => let fd := fresh_fd w in (event (w <| dw_dirs := (fd, []) :: dw_dirs w |>) (OpenedDir fd), Return fd);
  open_dir := fun w d name => demo_open_dir w (path_of w d name);
  open_file := fun w d name => demo_open_file w (path_of w d name);
  create := demo_create;
  mkdir := fun w d name =>
    if bool_decide (path_of w d name ∈ dw_made w) then (w, Throw Failure)
    else (event (w <| dw_made := dw_made w ++ [path_of w d name] |>) (Made d name), Return tt);
  stat := fun w d name => (w, demo_stat w (path_of w d name));
  fstat := fun w fd => (w, demo_fstat w fd);
  listxattr := fun w _ => (w, Return []);
  fgetxattr := fun w _ _ _ => (w, Throw Failure);
  read := demo_read;
  write := demo_write;
  fsync := fun w fd => (event w (Synced fd), Return tt);
  rename := demo_rename;
  unlink := fun w d name => (event (w <| dw_names := remove_key (dw_names w) (path_of w d name) |>) (Unlinked d name), Return tt);
  scandir := fun w d => (w, Return (demo_scandir w d));
  close := demo_close;
  uuid4 := fun w => (w <| dw_draws := dw_draws w + 1 |>, Return (demo_uuid w));
|}.
#[export] Instance demo_view : RecordView dworld := dw_log.

Lemma fresh_fd_fresh w : fresh_fd w ∉ in_use (dw_log w).
Proof.
  unfold fresh_fd. generalize (in_use (dw_log w)). intros l Hin.
  assert (forall x, x ∈ l -> x <= fold_right Z.max 2 l) as Hle.
  { clear Hin. induction l as [|y l IH]; intros x Hx; [by apply elem_of_nil in Hx|]. cbn. apply elem_of_cons in Hx as [->|Hx]; [lia|]. specialize (IH x Hx). lia. }
  apply Hle in Hin. lia.
Qed.

#[export] Instance demo_laws : RecordLaws dworld.
Proof.
  pose proof fresh_fd_fresh as Hf.
  split; intros w *; cbn [open_root open_dir open_file create mkdir write fsync rename unlink close stat fstat listxattr fgetxattr read scandir uuid4 demo_os];
    unfold opens, logs, silent, log, demo_view.
  - cbn. split; [apply Hf|done].
  - unfold demo_open_dir. case_bool_decide; cbn; [split; [apply Hf|done]|by left].
  - unfold demo_open_file. destruct (find_key _ _); cbn; [split; [apply Hf|done]|by left].
  - unfold demo_create. destruct (find_key _ _); cbn; [by left|split; [apply Hf|done]].
  - case_bool_decide; cbn; [by left|done].
  - unfold demo_write. destruct (find_key _ _) as [[ino a]|]; cbn; [|by left]. split; [done|]. by rewrite to_nat_zlen, firstn_all.
  - done.
  - unfold demo_rename. destruct (find_key _ _); [|cbn; split; [by left|done]]. destruct (dk_entries _ !! _) eqn:E; cbn; [split; [by left|done]|by split].
  - done.
  - done.
  - done.
  - done.
  - done.
  - done.
  - unfold demo_read. by destruct (find_key _ _) as [[ino a]|].
  - done.
  - done.
Qed.

(** ** A run *)

Definition demo_start : dworld := DW [] [] [[]; [u "m"]; [u "r"]] [] [] [] 0.
Definition demo_path : pystr := u "/r/x".
Definition demo_managed : pystr := u "/m".
Definition demo_observation : observation := Observation (Some (ProcessExit 3 (Some 3) None)) (u "completed") 5 0 false.

(** * A directory at rest *)

(** The files that are open, and what is left to read of each *)
Definition rworld : Type := list (Z * (phase * bytes)).

Definition rest_id : pystr := u "01234567-89ab-4def-8123-456789abcde0".
Definition rest_files (p : phase) : option bytes :=
  match p with
  | Confirmed => None
  | _ => match encode_artifact rest_id p (if bool_decide (p = Pending) then None else Some demo_observation) with Ok b => Some b | Err _ => None end
  end.
Definition phase_of_name (name : pystr) : option phase := List.find (fun p => bool_decide (final_name p = name)) PHASES.
Definition rest_dir_stat : stat_result := Stat 1 1 16832 0 0 2 0 0 0.
Definition rest_file_stat (p : phase) : stat_result :=
  Stat 1 (10 + Z.of_nat (phase_index p)) 33152 0 0 1 (match rest_files p with Some b => zlen b | None => 0 end) 0 0.

#[export] Instance rest_os : RecordOS rworld := {|
  on_linux := true;
  fs_encode := fun s => Some s;
  getpid := fun _ => 7;
  geteuid := fun _ => 0;
  open_root := fun w => (w, Throw Failure);
  open_dir := fun w _ _ => (w, Throw Failure);
  open_file := fun w _ name =>
    match phase_of_name name with
    | Some p => match rest_files p with Some b => let fd := 3 + zlen w in ((fd, (p, b)) :: w, Return fd) | None => (w, Throw Failure) end
    | None => (w, Throw Failure)
    end;
  create := fun w _ _ => (w, Throw Failure);
  mkdir := fun w _ _ => (w, Throw Failure);
  stat := fun w _ name => (w, match phase_of_name name with Some p => Return (rest_file_stat p) | None => Return rest_dir_stat end);
  fstat := fun w fd => (w, match find_key w fd with Some (p, _) => Return (rest_file_stat p) | None => Return rest_dir_stat end);
  listxattr := fun w _ => (w, Return []);
  fgetxattr := fun w _ _ _ => (w, Throw Failure);
  read := fun w fd n =>
    match find_key w fd with
    | Some (p, b) => ((fd, (p, drop (Z.to_nat n) b)) :: w, Return (take (Z.to_nat n) b))
    | None => (w, Return [])
    end;
  write := fun w _ _ => (w, Throw Failure);
  fsync := fun w _ => (w, Throw Failure);
  rename := fun w _ _ _ => (w, Throw Failure);
  unlink := fun w _ _ => (w, Throw Failure);
  scandir := fun w _ => (w, Return (map (fun p => Return (final_name p)) [Observed; Pending]));
  close := fun w fd => (w, Return tt);
  uuid4 := fun w => (w, Throw Failure);
|}.

Definition rest_unread (w : rworld) (fd : Z) : bytes := match find_key w fd with Some (_, b) => b | None => [] end.

Lemma find_key_cons {A} (l : list (Z * A)) fd a : find_key ((fd, a) :: l) fd = Some a.
Proof. unfold find_key. cbn. by rewrite bool_decide_eq_true_2. Qed.

Lemma phase_of_final p : phase_of_name (final_name p) = Some p.
Proof. by destruct p. Qed.

#[export] Instance rest_laws : RestingLaws rworld 1 rest_files.
Proof.
  refine {| unread := rest_unread |}; cbn [open_file read fstat listxattr fgetxattr scandir rest_os].
  - intros w p w' fd. rewrite phase_of_final. destruct (rest_files p) as [b|]; [|done]. intros E. apply pair_equal_spec in E as [<- E].
    assert (fd = 3 + zlen w) as -> by congruence. unfold rest_unread. by rewrite find_key_cons.
  - intros w fd n w' b Hn. unfold rest_unread at 1 3. destruct (find_key w fd) as [[p k]|] eqn:E; intros Ep; apply pair_equal_spec in Ep as [<- Ep].
    + assert (b = take (Z.to_nat n) k) as -> by congruence. unfold rest_unread. rewrite find_key_cons, take_drop. split; [done|]. unfold zlen. rewrite length_take.
      split; [lia|]. intros Ht. apply nil_length_inv. apply (f_equal length) in Ht. rewrite length_take in Ht. cbn in Ht. lia.
    + assert (b = []) as -> by congruence. unfold rest_unread. rewrite E. unfold zlen. cbn. split_and!; [done|lia|done].
  - done.
  - done.
  - done.
  - intros w w' names E. apply pair_equal_spec in E as [_ E]. assert (names = map (fun p => Return (final_name p)) [Observed; Pending]) as -> by congruence.
    intros p. split.
    + intros Hp. assert (p <> Confirmed) as Hc.
      { intros ->. cbn in Hp. by repeat (apply elem_of_cons in Hp as [Hp|Hp]; [done|]); apply elem_of_nil in Hp. }
      destruct p; [by vm_compute|by vm_compute|done].
    + destruct p; intros Hp; [right; left|left|by destruct Hp].
Defined.

(** * The properties of durable exec records: their codec, what a crash leaves, what
    an acknowledged publication guarantees, failures, and the reader. *)

(** * Artifacts *)

(** C16: The bytes of an artifact and the facts it records determine each other: the
    reader accepts exactly the encodings of valid facts, in canonical form and in
    bounds, and writing fails on no valid fact. *)
Theorem artifact_codec r p o :
  (forall b, decode_artifact b p = Ok (r, o) <-> encode_artifact r p o = Ok b) /\
  (forall b, encode_artifact r p o = Ok b -> 0 < zlen b <= MAX_ARTIFACT_BYTES) /\
  ((exists b, encode_artifact r p o = Ok b) <-> record_id_ok r /\ phase_observation p o).
Proof.
  split_and!.
  - intros b. split; [apply decode_artifact_Ok|]. by intros [Hd _]%decode_artifact_encode.
  - by intros b [_ Hb]%decode_artifact_encode.
  - split; [intros [b Hb]; by apply encode_artifact_parts in Hb|]. intros [Hr Ho].
    destruct (artifact_text_exists r p o Hr Ho) as [b Hb]. exists b. by apply encode_artifact_Ok.
Qed.

(** * Crashes *)

Section crash.
Context {W : Type} `{RecordView W} `{RecordOS W} `{!RecordLaws W}.

Lemma safe_consistent r D base l0 l c : safe r D base l0 -> base `prefix_of` l -> l `prefix_of` l0 -> crash_image (replay D l) c -> consistent r c.
Proof. intros Hs H1 H2 Hc. destruct (safe_between _ _ _ _ Hs l H1 H2) as [Hok _]. by eapply image_consistent. Qed.

(** What a record durable at [l1] leaves after a crash at any later [l]. *)
Lemma durably_included r D base l0 l1 l c p o : safe r D base l1 -> safe r D base l0 -> durably r D p o l1 -> l1 `prefix_of` l -> l `prefix_of` l0 ->
  crash_image (replay D l) c -> exists s, inspect_files (file_of c) = Ok s /\ sn_record_id s = r /\ includes s p o.
Proof.
  intros Hs1 Hs0 (i & b & Ei & Di & Fi & Ee) Hl Hl0 Hc. apply safe_extends in Hs1 as Hb.
  assert (base `prefix_of` l) as Hbl by (by etrans). destruct (safe_between _ _ _ _ Hs0 l Hbl Hl0) as [Hok _].
  assert (safe r D base l) as Hsl by (by eapply safe_prefix). destruct (safe_between _ _ _ _ Hsl l1 Hb Hl) as [_ [Hk Hd]].
  destruct (Hk p i _ Ei Fi) as [Ei' Fi']. apply Hd in Di. by eapply image_includes.
Qed.

(** C3: Whatever the system does, a crash at any moment of a reservation and of any
    run of its writer leaves no file of the record, or one record under the drawn
    identifier that the reader accepts, whichever of the entries not yet durable
    survive; once [reserve] returned there is one. *)
Theorem record_crash_consistent path managed x ops :
  match reserve path managed x with
  | (y, Return w) => exists base, reserved (log x) (wr_record_id w) (writer_fd w) base /\ base `prefix_of` log y /\
      forall l c, base `prefix_of` l -> l `prefix_of` log (writer_run ops w y).1 -> crash_image (replay (writer_fd w) l) c ->
        consistent (wr_record_id w) c /\
        (log y `prefix_of` l -> exists s, inspect_files (file_of c) = Ok s /\ sn_record_id s = wr_record_id w)
  | (y, Throw _) => plainly (log x) (log y) \/ exists r D base, reserved (log x) r D base /\
      forall l c, base `prefix_of` l -> l `prefix_of` log y -> crash_image (replay D l) c -> consistent r c
  end.
Proof.
  pose proof (reserve_ok path managed x) as Hr. destruct (reserve path managed x) as [y [w|e]]; cbn [reserve_post] in Hr.
  - destruct Hr as (base & Hres & Hw & Ha & Hd). exists base. split; [done|]. pose proof Hw as [Hs _]. split; [by eapply safe_extends|].
    pose proof (writer_run_ok _ _ _ ops w y Hw) as [Hrun _]. intros l c Hl Hl' Hc. split; [by eapply safe_consistent|]. intros Hy.
    destruct (durably_included _ _ _ _ _ l c Pending None Hs Hrun Hd Hy Hl' Hc) as (s & ? & ? & _). by exists s.
  - destruct Hr as [?|(r & D & base & Hres & Hs)]; [by left|right]. exists r, D, base. split; [done|]. intros l c Hl Hl' Hc. by eapply safe_consistent.
Qed.

(** C7: Once [publish_observed] or [publish_confirmed] returned, a crash at any later
    moment leaves a record that the reader accepts and that includes what was
    published. *)
Theorem publication_survives path managed x before op later :
  match reserve path managed x with
  | (y, Return w) =>
      let '(z, w1) := writer_run before w y in
      match writer_step op w1 z, op_record op with
      | (z', (w2, Return _)), Some (p, o) =>
          forall l c, log z' `prefix_of` l -> l `prefix_of` log (writer_run later w2 z').1 -> crash_image (replay (writer_fd w) l) c ->
            exists s, inspect_files (file_of c) = Ok s /\ sn_record_id s = wr_record_id w /\ includes s p o
      | _, _ => True
      end
  | _ => True
  end.
Proof.
  pose proof (reserve_ok path managed x) as Hr. destruct (reserve path managed x) as [y [w|e]]; cbn [reserve_post] in Hr; [|done].
  destruct Hr as (base & _ & Hw & _). pose proof (writer_run_ok _ _ _ before w y Hw) as Hrun. destruct (writer_run before w y) as [z w1]. cbn [fst snd] in Hrun.
  pose proof (writer_step_ok _ _ _ op w1 z Hrun) as Hstep. unfold step_post in Hstep. destruct (writer_step op w1 z) as [z' [w2 [[]|e]]]; [|done].
  destruct (op_record op) as [[p o]|]; [|done]. destruct Hstep as (Hw2 & _ & Hd). intros l c Hl Hl' Hc.
  pose proof (writer_run_ok _ _ _ later w2 z' Hw2) as [Hlast _]. destruct Hw2 as [Hs2 _]. exact (durably_included _ _ base _ _ l c p o Hs2 Hlast Hd Hl Hl' Hc).
Qed.
End crash.

(** * Failures *)

Section failures.
Context {W : Type} `{RecordOS W}.

(** A writer whose every publication raises, without a call of the system. *)
Definition inert (w : writer) : Prop := forall op (z : W), op <> DoClose -> exists stage, writer_step op w z = (z, (w, Throw (RecordError stage))).

Lemma inert_inactive (w : writer) : ~ active w -> inert w.
Proof.
  intros Hna op z Hop. assert (exists stage, ensure_active w z = Throw (RecordError stage)) as [stage Hs].
  { unfold ensure_active. destruct (negb _); [by eexists|]. destruct (wr_closed w) eqn:E1; [by eexists|]. destruct (wr_poisoned w) eqn:E2; [by eexists|]. by destruct Hna. }
  exists stage. destruct op as [o|o|]; [|by cbn; unfold publish_confirmed; rewrite Hs|done]. cbn. unfold publish_observed, publish. by rewrite Hs.
Qed.

Lemma publish_failed_inert w p f e : let '(y, (w', a)) := publish_failed (W := W) w p f e in
  inert w' /\ a = Throw match e with Interrupt => Interrupt | _ => RecordError (phase_name p) end.
Proof.
  unfold publish_failed. destruct (match e with Interrupt => _ | _ => _ end) as [world w'] eqn:E. split; [|done]. apply inert_inactive. intros [_ Hp].
  destruct e; [apply pair_equal_spec in E as [_ <-]; done..|]. unfold writer_close in E. destruct (wr_closed _); apply pair_equal_spec in E as [_ <-]; done.
Qed.

Lemma publish_throw w p o x y w' e : publish w p o x = (y, (w', Throw e)) ->
  e <> Failure /\ ((w' = w /\ y = x) \/ (inert w' /\ (e = RecordError (phase_name p) \/ e = Interrupt))).
Proof.
  unfold publish. destruct (ensure_active w x) as [u|e'] eqn:Ea.
  - destruct (publish_body w p o _) as [f [entry|e']]; [by intros ?|]. intros Hp. pose proof (publish_failed_inert w p f e') as Hi. rewrite Hp in Hi.
    destruct Hi as [Hi E]. assert (e = match e' with Interrupt => Interrupt | _ => RecordError (phase_name p) end) as -> by congruence.
    destruct e'; (split; [done|right; split; [done|]]); [by left|by left|by right].
  - intros E. apply pair_equal_spec in E as [-> E]. apply pair_equal_spec in E as [-> E]. assert (e = e') as -> by congruence. split; [|by left].
    unfold ensure_active in Ea. destruct (negb _); [congruence|]. destruct (wr_closed w'); [congruence|]. destruct (wr_poisoned w'); congruence.
Qed.

(** C32: A publication that raises raises an error of the module or what is not an
    [Exception]; it did nothing, or it leaves a writer that never calls the system
    again, but to close. *)
Theorem writer_fail_stop op w x y w' e : writer_step op w x = (y, (w', Throw e)) ->
  e <> Failure /\ ((w' = w /\ y = x) \/ inert w').
Proof.
  destruct op as [o|o|]; cbn [writer_step].
  - unfold publish_observed. destruct (publish w Observed (Some o) x) as [z [w1 [u|e1]]] eqn:Ep; [by intros ?|]. intros E.
    apply pair_equal_spec in E as [-> E]. apply pair_equal_spec in E as [-> E]. assert (e1 = e) as -> by congruence.
    apply publish_throw in Ep as [He Hw]. split; [done|]. destruct Hw as [?|[? _]]; [by left|by right].
  - unfold publish_confirmed. destruct (ensure_active w x) as [u|e1] eqn:Ea.
    + assert (inert (w <| wr_poisoned := true |>)) as Hi by (apply inert_inactive; by intros [_ ?]).
      assert (forall r : W * (writer * answer unit), r = (x, (w <| wr_poisoned := true |>, Throw (RecordError "confirmed"))) -> r = (y, (w', Throw e)) ->
        e <> Failure /\ ((w' = w /\ y = x) \/ inert w')) as Hpoison.
      { intros r -> E. apply pair_equal_spec in E as [_ E]. apply pair_equal_spec in E as [<- E]. split; [congruence|by right]. }
      destruct (validate_observation o true) as [o'|]; [|by apply Hpoison]. case_bool_decide; [|by apply Hpoison].
      intros [He Hw]%publish_throw. split; [done|]. destruct Hw as [?|[? _]]; [by left|by right].
    + intros E. apply pair_equal_spec in E as [-> E]. apply pair_equal_spec in E as [-> E]. assert (e = e1) as -> by congruence. split; [|by left].
      unfold ensure_active in Ea. destruct (negb _); [congruence|]. destruct (wr_closed w'); [congruence|]. destruct (wr_poisoned w'); congruence.
  - by destruct (writer_close w x).
Qed.
End failures.

(** * The reader *)

(** C22: A snapshot the reader answers is valid, and was read, whatever the system
    answers, from complete artifacts of its one record: that of its phase and those
    of the phases before, the confirmed facts being the observed ones. *)
Theorem read_exec_record_valid {W} `{RecordOS W} path (x y : W) s : read_exec_record path x = (y, Return s) -> exists d,
  record_id_ok (sn_record_id s) /\ phase_observation (sn_phase s) (sn_observation s) /\
  read_as d Pending (Some (sn_record_id s, None)) /\
  match sn_phase s with
  | Pending => sn_observation s = None
  | Observed => read_as d Observed (Some (sn_record_id s, sn_observation s))
  | Confirmed => exists seen, sn_observation s = Some (confirm seen) /\
      read_as d Observed (Some (sn_record_id s, Some seen)) /\ read_as d Confirmed (Some (sn_record_id s, Some (confirm seen)))
  end.
Proof. apply read_exec_record_sound. Qed.

(** C26: On a directory at rest the reader, however its reads are cut, answers what
    the bytes of the three files say; its loops of reads end. *)
Theorem inspect_refines {W} `{HO : RecordOS W} d files `{HR : !RestingLaws W d files} c (x : W) : chain_fd c = d ->
  (forall y s, inspect c x = (y, Return s) -> inspect_files files = Ok s) /\
  (forall fuel fd acc z, (Z.to_nat (MAX_ARTIFACT_BYTES + 2) <= fuel)%nat ->
     read_chunks fuel fd (MAX_ARTIFACT_BYTES + 1) acc z = read_chunks (Z.to_nat (MAX_ARTIFACT_BYTES + 2)) fd (MAX_ARTIFACT_BYTES + 1) acc z).
Proof.
  intros Hd. split; [intros y s; by apply (inspect_files_refined d files)|]. intros fuel fd acc z Hf.
  apply (read_chunks_fuel d files); [|done]. rewrite Z2Nat.id by done. unfold MAX_ARTIFACT_BYTES. lia.
Qed.

(** * Runs *)

Definition demo_ops : list writer_op := [DoObserved demo_observation; DoConfirmed (confirm demo_observation)].

(** A disk whose entries are durable is its own image. *)
Definition settled (s : disk) : bool := forallb (fun p => bool_decide (dk_durable s !! final_name p = dk_entries s !! final_name p)) PHASES.

Lemma settled_image s : settled s = true -> crash_image s s.
Proof.
  unfold settled. rewrite forallb_forall. intros Hs. split; [|done|done]. intros p i. specialize (Hs p).
  rewrite bool_decide_eq_true in Hs. rewrite Hs; [done|]. by destruct p; cbn; tauto.
Qed.

Definition demo_check (out : dworld * answer writer) : bool :=
  match out with
  | (y, Return w) => settled (replay (writer_fd w) (log (writer_run demo_ops w y).1))
  | _ => false
  end.
Lemma demo_check_true : demo_check (reserve demo_path demo_managed demo_start) = true.
Proof. by vm_compute. Qed.

(** The first publication returns, and a second one of its phase does not. *)
Definition demo_step (out : dworld * answer writer) : bool :=
  match out with
  | (y, Return w) => match writer_step (DoObserved demo_observation) w y with (_, (_, Return _)) => true | _ => false end
  | _ => false
  end.
Lemma demo_step_true : demo_step (reserve demo_path demo_managed demo_start) = true.
Proof. by vm_compute. Qed.
Definition demo_again (out : dworld * answer writer) : bool :=
  match out with
  | (y, Return w) => let (z, w2) := writer_run [DoObserved demo_observation] w y in
      match writer_step (DoObserved demo_observation) w2 z with (_, (_, Throw _)) => true | _ => false end
  | _ => false
  end.
Lemma demo_again_true : demo_again (reserve demo_path demo_managed demo_start) = true.
Proof. by vm_compute. Qed.

Lemma record_crash_consistent_witness :
  match (reserve demo_path demo_managed demo_start) with
  | (y, Return w) => exists s, inspect_files (file_of (replay (writer_fd w) (log (writer_run demo_ops w y).1))) = Ok s /\ sn_record_id s = wr_record_id w
  | _ => False
  end.
Proof.
  pose proof (record_crash_consistent demo_path demo_managed demo_start demo_ops) as Ht. pose proof demo_check_true as Hc.
  pose proof (reserve_ok demo_path demo_managed demo_start) as Hr.
  destruct (reserve demo_path demo_managed demo_start) as [y [w|e]]; [|done]. destruct Ht as (base & _ & Hb & Ht).
  destruct Hr as (base' & _ & Hw & _). pose proof (writer_run_grows _ _ _ demo_ops w y Hw) as Hg.
  destruct (Ht (log (writer_run demo_ops w y).1) _ ltac:(by etrans) ltac:(done) (settled_image _ Hc)) as [_ Hx]. by apply Hx.
Defined.

Lemma publication_survives_witness :
  match (reserve demo_path demo_managed demo_start) with
  | (y, Return w) =>
      match writer_step (DoObserved demo_observation) w y with
      | (z, (w2, Return _)) => exists s, inspect_files (file_of (replay (writer_fd w) (log (writer_run [DoConfirmed (confirm demo_observation)] w2 z).1))) = Ok s /\
          includes s Observed (Some demo_observation)
      | _ => False
      end
  | _ => False
  end.
Proof.
  pose proof (publication_survives demo_path demo_managed demo_start [] (DoObserved demo_observation) [DoConfirmed (confirm demo_observation)]) as Ht.
  pose proof demo_check_true as Hc. pose proof demo_step_true as Hd.
  pose proof (reserve_ok demo_path demo_managed demo_start) as Hr.
  destruct (reserve demo_path demo_managed demo_start) as [y [w|e]]; [|done]. cbn [writer_run op_record] in Ht. cbn [demo_check] in Hc. cbn [demo_step] in Hd. unfold demo_ops in Hc. cbn [writer_run] in Hc. destruct Hr as (base & _ & Hw & _).
  pose proof (writer_step_ok _ _ _ (DoObserved demo_observation) w y Hw) as Hs.
  destruct (writer_step (DoObserved demo_observation) w y) as [z [w2 [u|e]]]; [|done]. destruct Hs as [Hw2 _].
  pose proof (writer_run_grows _ _ _ [DoConfirmed (confirm demo_observation)] w2 z Hw2) as Hg.
  destruct (Ht _ _ Hg ltac:(done) (settled_image _ Hc)) as (s & ? & _ & ?). by exists s.
Defined.

(** A writer whose record was observed refuses to observe again, and stops. *)
Lemma writer_fail_stop_witness :
  match (reserve demo_path demo_managed demo_start) with
  | (y, Return w) => forall z w2, writer_run [DoObserved demo_observation] w y = (z, w2) ->
      match writer_step (DoObserved demo_observation) w2 z with
      | (z', (w3, Throw e)) => e <> Failure /\ ((w3 = w2 /\ z' = z) \/ inert (W := dworld) w3)
      | _ => False
      end
  | _ => False
  end.
Proof.
  pose proof demo_again_true as Hd. destruct (reserve demo_path demo_managed demo_start) as [y [w|e]]; [|done].
  intros z w2 E. cbn [demo_again] in Hd. rewrite E in Hd. destruct (writer_step (DoObserved demo_observation) w2 z) as [z' [w3 [u|e]]] eqn:Es; [done|]. by apply (writer_fail_stop _ _ _ _ _ _ Es).
Defined.

(** The whole life of a record, read back *)
Definition demo_snapshot (out : dworld * answer writer) : answer snapshot :=
  match out with (y, Return w) => (read_exec_record demo_path (writer_run demo_ops w y).1).2 | (_, Throw e) => Throw e end.
Lemma read_exec_record_valid_witness :
  demo_snapshot (reserve demo_path demo_managed demo_start) = Return (Snapshot rest_id Confirmed (Some (confirm demo_observation))) /\
  forall s, demo_snapshot (reserve demo_path demo_managed demo_start) = Return s -> record_id_ok (sn_record_id s).
Proof.
  split; [by vm_compute|]. intros s. destruct (reserve demo_path demo_managed demo_start) as [y [w|e]]; [|done]. cbn [demo_snapshot].
  destruct (read_exec_record demo_path (writer_run demo_ops w y).1) as [z a] eqn:E. intros Ea. cbn in Ea. subst a.
  by destruct (read_exec_record_valid _ _ _ _ E) as (d & Hid & _).
Defined.

Definition rest_chain : chain := Chain [0; 1] [u "x"] true 0.
Lemma inspect_refines_witness : (inspect rest_chain ([] : rworld)).2 = Return (Snapshot rest_id Observed (Some demo_observation)) /\
  inspect_files rest_files = Ok (Snapshot rest_id Observed (Some demo_observation)).
Proof.
  assert ((inspect rest_chain ([] : rworld)).2 = Return (Snapshot rest_id Observed (Some demo_observation))) as E by by vm_compute.
  split; [done|]. destruct (inspect rest_chain ([] : rworld)) as [y a] eqn:Ei. cbn [snd] in E. subst a.
  by apply (proj1 (inspect_refines 1 rest_files rest_chain ([] : rworld) eq_refl) y).
Defined.
