(* ===== verification/HostJournal.v ===== *)
(** The journal of host commands ([host_journal.py]): a file that several commands
    append to at once.  A command is a program that makes one call of the system
    after another; the machine runs the programs of all commands, one call at a
    time in any order, and calls may fail at any moment. *)
From S2P Require Import Prelude Crypto PyStr PyVal Utf8 Json Digest.

Definition SCHEMA : pystr := u "palimpsest.host-command-journal.v1".
Definition MAX_RECORD : Z := 512.
(** [_LOCK_SECONDS] and the pause of [time.sleep], in microseconds *)
Definition LOCK_MICROSECONDS : Z := 50000.
Definition LOCK_PAUSE : Z := 2000.
Definition MAX_FILE : Z := 64 * 1024 * 1024.
Definition FAMILIES : list pystr :=
  map u ["image"; "layer"; "bundle"; "oci"; "registry"; "run"; "exec"; "stop"; "rm"; "ps"; "inspect"; "logs"; "shell"; "compose"; "build"; "store"; "docker"].

(** * Programs *)

(** The exceptions that are not [Exception]s *)
Definition is_exception (e : string) : bool := negb (bool_decide (e ∈ ["KeyboardInterrupt"; "SystemExit"; "GeneratorExit"])).

(** [os.stat_result], as far as it is read *)
Record metadata := Metadata { md_mode : Z; md_uid : Z; md_nlink : Z; md_identity : Z * Z }.

(** The calls of the system *)
Inductive call : Type -> Type :=
| OpenRoot : call Z
| OpenDirectory (d : Z) (name : pystr) : call Z
| CreateFile (d : Z) : call Z
| OpenFile (d : Z) : call Z
| Fstat (fd : Z) : call metadata
| Stat (d : Z) : call metadata
| Fsync (fd : Z) : call unit
| Monotonic : call Z
| Sleep (microseconds : Z) : call unit
| Flock (fd : Z) : call unit
| SeekEnd (fd : Z) : call Z
| Pread (fd n offset : Z) : call bytes
| Write (fd : Z) (data : bytes) : call Z
| Close (fd : Z) : call unit
| UtcNow : call pystr
| MonotonicNs : call Z
| Uuid : call pystr
| Warn : call unit.

Inductive program (A : Type) : Type :=
| Done (r : result A)
| Call {R : Type} (c : call R) (k : result R -> program A).
Arguments Done {A}. Arguments Call {A R}.

Fixpoint bind {A B} (p : program A) (f : A -> program B) : program B :=
  match p with
  | Done (Ok a) => f a
  | Done (Err e) => Done (Err e)
  | Call c k => Call c (fun r => bind (k r) f)
  end.
(** [try: p except: handler], the handler being given what [p] gave *)
Fixpoint attempt {A B} (p : program A) (f : result A -> program B) : program B :=
  match p with Done r => f r | Call c k => Call c (fun r => attempt (k r) f) end.

Definition ret {A} (a : A) : program A := Done (Ok a).
Definition fail {A} (e : string) : program A := Done (Err e).
Definition sys {R} (c : call R) : program R := Call c Done.
(** [try: p finally: q], [try: p except BaseException: q; raise] *)
Definition finally {A} (p : program A) (q : program unit) : program A := attempt p (fun r => bind q (fun _ => Done r)).
Definition on_error {A} (p : program A) (q : program unit) : program A :=
  attempt p (fun r => match r with Ok a => ret a | Err e => bind q (fun _ => fail e) end).

Declare Scope journal_scope.
Notation "'do' x <- m ;; k" := (bind m (fun x => k)) (at level 100, x binder, m at next level, right associativity) : journal_scope.
Notation "'refuse' e 'when' b ;; k" := (if b then fail e else k) (at level 100, b at next level, right associativity) : journal_scope.
#[local] Open Scope journal_scope.

(** * Paths *)

Definition path_parts (s : pystr) : list pystr := List.filter (fun p => negb (bool_decide (p ∈ [[]; u "."]))) (split 47 s).
Definition is_absolute (s : pystr) : bool := startswith [47] s.

(** [_root]: the directory, and whether it is invalid; [override] is
    [PALIMPSEST_LOG_HOME]. *)
Definition root_of (override : option pystr) (linux : bool) : option pystr * bool :=
  match override with
  | Some s =>
      if bool_decide (s = []) || bool_decide (0 ∈ s) then (None, true) else (Some s, negb (is_absolute s))
  | None => if linux then (Some (u "/var/log/palimpsest"), false) else (None, false)
  end.

(** * Opening *)

(** [_metadata_ok] *)
Definition metadata_ok (m : metadata) (euid : Z) (directory : bool) : bool :=
  (Z.land (md_mode m) 61440 =? (if directory then 16384 else 32768)) && (md_uid m =? euid)
  && (Z.land (md_mode m) 4095 =? (if directory then 448 else 384)) && (directory || (md_nlink m =? 1)).

(** The loop of [_open_directory]: below [descriptor] *)
Fixpoint open_parts (descriptor : Z) (parts : list pystr) : program Z :=
  match parts with
  | [] => ret descriptor
  | part :: parts =>
      do child <- on_error (do child <- sys (OpenDirectory descriptor part) ;; do _ <- sys (Close descriptor) ;; ret child) (sys (Close descriptor)) ;;
      open_parts child parts
  end.

(** [_open_directory] *)
Definition open_directory (root : pystr) : program Z :=
  refuse "OSError" when negb (is_absolute root) || bool_decide (u ".." ∈ path_parts root) ;;
  do descriptor <- sys OpenRoot ;;
  open_parts descriptor (path_parts root).

(** [_open_file]: the descriptor, and whether the file is new *)
Definition open_file (directory : Z) : program (Z * bool) :=
  attempt (sys (CreateFile directory)) (fun r =>
    match r with
    | Ok fd => ret (fd, true)
    | Err e => if bool_decide (e = "FileExistsError") then do fd <- sys (OpenFile directory) ;; ret (fd, false) else fail e
    end).

(** * Records *)

Inductive journal_phase := StartPhase | EndPhase.
Definition phase_text (p : journal_phase) : pystr := u (match p with StartPhase => "start" | EndPhase => "end" end).
Inductive command_result := Success | Error.
Definition result_text (r : command_result) : pystr := u (match r with Success => "success" | Error => "error" end).

Record entry := Entry {
  en_sequence : Z;
  en_invocation : pystr;
  en_observed : pystr;
  en_monotonic : Z;
  en_phase : journal_phase;
  en_family : pystr;
  en_result : option command_result;
}.

Definition entry_value (r : entry) : pyval :=
  VDict ([(u "schema", VStr SCHEMA); (u "sequence", VInt (en_sequence r)); (u "invocation_id", VStr (en_invocation r));
          (u "observed_at", VStr (en_observed r)); (u "monotonic_ns", VInt (en_monotonic r)); (u "phase", VStr (phase_text (en_phase r)));
          (u "family", VStr (en_family r))] ++
         match en_result r with Some x => [(u "result", VStr (result_text x))] | None => [] end).

(** A line of the journal.  Its texts are ASCII: [ensure_ascii] changes nothing. *)
Definition line (r : entry) : result bytes := let? text := canonical_json_bytes (entry_value r) in Ok (text ++ [10]).

(** [bytes.splitlines] *)
Fixpoint splitlines (b : bytes) : list bytes :=
  match b with
  | [] => []
  | c :: rest =>
      if c =? 10 then [] :: splitlines rest
      else if c =? 13 then
        match rest with
        | d :: rest' => if d =? 10 then [] :: splitlines rest' else [] :: splitlines rest
        | [] => [[]]
        end
      else match splitlines rest with l :: ls => (c :: l) :: ls | [] => [[c]] end
  end.

(** The keys of a JSON object: the last of equal ones counts. *)
Definition last_wins (pairs : list (pystr * pyval)) : result (list (pystr * pyval)) :=
  Ok (fold_left (fun d kv => item_set d (fst kv) (snd kv)) pairs []).

(** The sequence number after the last line of [tail].  ([json.loads] also reads
    UTF-16 and UTF-32, which are refused here.) *)
Definition next_sequence (tail : bytes) (start : Z) : result Z :=
  raise "OSError" when negb (bool_decide (List.last tail 0 = 10)) || bool_decide (tail = []) ;;
  let lines := splitlines tail in
  raise "OSError" when bool_decide (lines = []) || (negb (start =? 0) && (zlen lines <? 2)) ;;
  match utf8_decode (List.last lines []) with
  | None => Err "UnicodeDecodeError"
  | Some text =>
      let? previous := loads last_wins text in
      match previous with
      | VDict d =>
          raise "OSError" when negb (py_eqb (d.["schema"]) (VStr SCHEMA)) ;;
          match dict_get d (u "sequence") with
          | Some (VInt n) => raise "OSError" when negb ((1 <=? n) && (n <? 2 ^ 64 - 1)) ;; Ok (n + 1)
          | Some _ => Err "OSError"
          | None => Err "KeyError"
          end
      | _ => Err "AttributeError"
      end
  end.

(** * [_append] *)

(** The loop that takes the lock.  It pauses between two attempts, so that it ends
    by its deadline within [LOCK_MICROSECONDS / LOCK_PAUSE + 1] turns. *)
Fixpoint take_lock (fuel : nat) (fd deadline : Z) : program unit :=
  match fuel with
  | O => fail "OutOfFuel"
  | S fuel =>
      attempt (sys (Flock fd)) (fun r =>
        match r with
        | Ok _ => ret tt
        | Err e =>
            if bool_decide (e = "BlockingIOError") then
              do now <- sys Monotonic ;;
              refuse "TimeoutError" when deadline <=? now ;;
              do _ <- sys (Sleep LOCK_PAUSE) ;;
              take_lock fuel fd deadline
            else fail e
        end)
  end.
Definition lock_fuel : nat := Z.to_nat (LOCK_MICROSECONDS / LOCK_PAUSE + 1).

Section command.
(** [os.geteuid()] *)
Variable euid : Z.

(** With the lock: the record is written at the end of the file. *)
Definition append_locked (descriptor : Z) (p : journal_phase) (family invocation : pystr) (res : option command_result) : program unit :=
  do end_ <- sys (SeekEnd descriptor) ;;
  refuse "OSError" when MAX_FILE <? end_ ;;
  do sequence <-
    (if end_ =? 0 then ret 1
     else
       let start := Z.max 0 (end_ - MAX_RECORD) in
       do tail <- sys (Pread descriptor (end_ - start) start) ;;
       Done (next_sequence tail start)) ;;
  do observed <- sys UtcNow ;;
  do monotonic <- sys MonotonicNs ;;
  do payload <- Done (line (Entry sequence invocation observed monotonic p family res)) ;;
  refuse "OSError" when (MAX_RECORD <? zlen payload) || (MAX_FILE <? end_ + zlen payload) ;;
  do written <- sys (Write descriptor payload) ;;
  refuse "OSError" when negb (written =? zlen payload) ;;
  ret tt.

(** What follows the write: the record is made durable, the paths still lead here. *)
Definition append_check (root : pystr) (directory descriptor : Z) : program unit :=
  do _ <- sys (Fsync descriptor) ;;
  do _ <- sys (Fsync directory) ;;
  do visible <- sys (Stat directory) ;;
  do device <- sys (Fstat descriptor) ;;
  do inode <- sys (Fstat descriptor) ;;
  refuse "OSError" when negb (bool_decide (md_identity visible = (fst (md_identity device), snd (md_identity inode)))) ;;
  do current <- open_directory root ;;
  do _ <- finally
    (do a <- sys (Fstat current) ;;
     do b <- sys (Fstat current) ;;
     do c <- sys (Fstat directory) ;;
     do d <- sys (Fstat directory) ;;
     refuse "OSError" when negb (bool_decide ((fst (md_identity a), snd (md_identity b)) = (fst (md_identity c), snd (md_identity d)))) ;;
     ret tt)
    (sys (Close current)) ;;
  do held <- sys (Fstat descriptor) ;;
  refuse "OSError" when negb (metadata_ok held euid false) ;;
  ret tt.

(** [_append] *)
Definition append (root : pystr) (p : journal_phase) (family invocation : pystr) (res : option command_result) : program unit :=
  do directory <- open_directory root ;;
  attempt
    (do m <- sys (Fstat directory) ;;
     refuse "OSError" when negb (metadata_ok m euid true) ;;
     open_file directory)
    (fun opened =>
       match opened with
       | Err e => do _ <- sys (Close directory) ;; fail e
       | Ok (descriptor, created) =>
           finally
             (do _ <- (if created : bool then sys (Fsync directory) else ret tt) ;;
              do m <- sys (Fstat descriptor) ;;
              refuse "OSError" when negb (metadata_ok m euid false) ;;
              do now <- sys Monotonic ;;
              do _ <- take_lock lock_fuel descriptor (now + LOCK_MICROSECONDS) ;;
              do _ <- append_locked descriptor p family invocation res ;;
              append_check root directory descriptor)
             (do _ <- sys (Close descriptor) ;; sys (Close directory))
       end).

(** * [CommandJournal] *)

Record journal := Journal { jn_family : pystr; jn_root : option pystr; jn_warned : bool; jn_invalid : bool; jn_invocation : pystr }.

(** [self.warned = True] *)
Definition set_warned (j : journal) : journal := Journal (jn_family j) (jn_root j) true (jn_invalid j) (jn_invocation j).

(** The [except Exception] clause of [_record] *)
Definition record_failed (j : journal) (e : string) : program journal :=
  refuse e when negb (is_exception e) ;;
  if jn_warned j then ret j
  else
    attempt (sys Warn) (fun w =>
      match w with
      | Ok _ => ret (set_warned j)
      | Err e => refuse e when negb (is_exception e) ;; ret (set_warned j)
      end).

(** [_record] *)
Definition record (j : journal) (p : journal_phase) (res : option command_result) : program journal :=
  match jn_root j, jn_invalid j with
  | None, false => ret j
  | root, invalid =>
      attempt
        (match root, invalid with
         | Some root, false => append root p (jn_family j) (jn_invocation j) res
         | _, _ => fail "OSError"
         end)
        (fun r => match r with Ok _ => ret j | Err e => record_failed j e end)
  end.

(** [finish] *)
Definition finish (j : journal) (res : command_result) : program journal := record j EndPhase (Some res).

(** [begin] *)
Definition begin (family : pyval) (override : option pystr) (linux : bool) : program journal :=
  let safe := match family with VStr f => if bool_decide (f ∈ FAMILIES) then f else u "unknown" | _ => u "unknown" end in
  let '(root, invalid) := root_of override linux in
  attempt (sys Uuid) (fun r =>
    match r with
    | Ok id => record (Journal safe root false invalid id) StartPhase None
    | Err e => if is_exception e then record (Journal safe root false true []) StartPhase None else fail e
    end).

(** A command: its record at the start and at the end *)
Definition command (family : pyval) (override : option pystr) (linux : bool) (res : command_result) : program journal :=
  do j <- begin family override linux ;;
  finish j res.
End command.

(** * The machine *)

Inductive descriptor := DirectoryFd | FileFd.
(** What a command has left to do, its descriptors, the warnings it began to print *)
Record process := Process { pr_program : program journal; pr_fds : list (Z * descriptor); pr_warnings : nat }.

(** The file, the descriptor whose [flock] is taken, the clock in microseconds *)
Record machine := Machine { mc_file : option bytes; mc_lock : option (nat * Z); mc_clock : Z; mc_processes : list process }.
#[export] Instance machine_eta : Eta machine := fun m => Machine (mc_file m) (mc_lock m) (mc_clock m) (mc_processes m).

Definition file_bytes (m : machine) : bytes := match mc_file m with Some b => b | None => [] end.

(** A command, as it is started *)
Record invocation := Invocation { iv_euid : Z; iv_family : pyval; iv_override : option pystr; iv_linux : bool; iv_result : command_result }.
Definition start (c : invocation) : process := Process (command (iv_euid c) (iv_family c) (iv_override c) (iv_linux c) (iv_result c)) [] 0.
Definition initial (file : option bytes) (commands : list invocation) : machine := Machine file None 0 (map start commands).

(** What the system chooses: a descriptor, metadata, a count, a text, a time *)
Record oracle := Oracle { or_fd : Z; or_metadata : metadata; or_count : Z; or_text : pystr; or_time : Z }.

Definition fd_kind (fds : list (Z * descriptor)) (fd : Z) : option descriptor := option_map snd (List.find (fun x => fst x =? fd) fds).
Definition without_fd (fds : list (Z * descriptor)) (fd : Z) : list (Z * descriptor) := List.filter (fun x => negb (fst x =? fd)) fds.

(** The descriptor is new to the process. *)
Definition give (m : machine) (fds : list (Z * descriptor)) (fd : Z) (k : descriptor) : option (machine * list (Z * descriptor) * Z) :=
  match fd_kind fds fd with None => Some (m, (fd, k) :: fds, fd) | Some _ => None end.

Definition ascii_text (s : pystr) : bool := forallb (fun c => (0 <=? c) && (c <? 128)) s.

(** A call of the [i]-th process that takes effect *)
Definition serve (i : nat) (fds : list (Z * descriptor)) (o : oracle) (m : machine) {R} (c : call R) : option (machine * list (Z * descriptor) * R) :=
  match c in call R return option (machine * list (Z * descriptor) * R) with
  | OpenRoot => give m fds (or_fd o) DirectoryFd
  | OpenDirectory _ _ => give m fds (or_fd o) DirectoryFd
  | CreateFile _ => match mc_file m with Some _ => None | None => give (m <| mc_file := Some [] |>) fds (or_fd o) FileFd end
  | OpenFile _ => match mc_file m with Some _ => give m fds (or_fd o) FileFd | None => None end
  | Fstat _ | Stat _ => Some (m, fds, or_metadata o)
  | Fsync _ => Some (m, fds, tt)
  | Monotonic => Some (m, fds, mc_clock m)
  | Sleep n => Some (m <| mc_clock := mc_clock m + Z.max 0 n |>, fds, tt)
  | Flock fd =>
      match fd_kind fds fd, mc_lock m with
      | Some FileFd, None => Some (m <| mc_lock := Some (i, fd) |>, fds, tt)
      | _, _ => None
      end
  | SeekEnd fd => match fd_kind fds fd with Some FileFd => Some (m, fds, zlen (file_bytes m)) | _ => None end
  | Pread fd n offset => match fd_kind fds fd with Some FileFd => Some (m, fds, take (Z.to_nat n) (drop (Z.to_nat offset) (file_bytes m))) | _ => None end
  | Write fd data =>
      match fd_kind fds fd with
      | Some FileFd =>
          let n := Z.max 0 (Z.min (or_count o) (zlen data)) in
          Some (m <| mc_file := Some (file_bytes m ++ take (Z.to_nat n) data) |>, fds, n)
      | _ => None
      end
  | Close fd => Some (if bool_decide (mc_lock m = Some (i, fd)) then m <| mc_lock := None |> else m, without_fd fds fd, tt)
  | UtcNow => if ascii_text (or_text o) then Some (m, fds, or_text o) else None
  | MonotonicNs => Some (m, fds, or_time o)
  | Uuid => if ascii_text (or_text o) then Some (m, fds, or_text o) else None
  | Warn => Some (m, fds, tt)
  end.

(** A choice of the machine: a call of a process returns, raises without an effect,
    or takes effect and raises; a process is killed; time passes. *)
Inductive choice :=
| Runs (i : nat) (o : oracle)
| Raises (i : nat) (e : string)
| RunsRaises (i : nat) (o : oracle) (e : string)
| Killed (i : nat)
| Ticks (n : Z).

Definition set_process (m : machine) (i : nat) (p : process) : machine := m <| mc_processes := <[i := p]> (mc_processes m) |>.

Definition warns {R} (c : call R) : nat := match c with Warn => 1 | _ => 0 end.

Definition step (ch : choice) (m : machine) : machine :=
  match ch with
  | Runs i o =>
      match mc_processes m !! i with
      | Some (Process (Call c k) fds n) =>
          match serve i fds o m c with Some (m, fds, r) => set_process m i (Process (k (Ok r)) fds (warns c + n)) | None => m end
      | _ => m
      end
  | Raises i e =>
      match mc_processes m !! i with Some (Process (Call c k) fds n) => set_process m i (Process (k (Err e)) fds (warns c + n)) | _ => m end
  | RunsRaises i o e =>
      match mc_processes m !! i with
      | Some (Process (Call c k) fds n) =>
          match serve i fds o m c with Some (m, fds, _) => set_process m i (Process (k (Err e)) fds (warns c + n)) | None => m end
      | _ => m
      end
  | Killed i =>
      match mc_processes m !! i with
      | Some (Process _ _ n) =>
          let m := if match mc_lock m with Some (j, _) => (j =? i)%nat | None => false end then m <| mc_lock := None |> else m in
          set_process m i (Process (fail "SIGKILL") [] n)
      | None => m
      end
  | Ticks n => m <| mc_clock := mc_clock m + Z.max 0 n |>
  end.

Definition run (choices : list choice) (m : machine) : machine := fold_left (fun m ch => step ch m) choices m.
