(* ===== verification/HostJournalTheorems.v ===== *)
(** The properties of the journal of host commands: what the file holds whatever the
    order of the calls and the failures, what a command that ends in silence has
    recorded, and that journaling never fails a command. *)
From S2P Require Import Prelude Crypto PyStr PyVal Utf8 Json Digest HostJournal.
#[local] Open Scope journal_scope.

(** * Lines *)

Definition printable (s : list Z) : Prop := Forall (fun c => 32 <= c < 128) s.
Definition ascii (s : list Z) : Prop := Forall (fun c => 0 <= c < 128) s.

(** A value whose texts are ASCII *)
Inductive ascii_value : pyval -> Prop :=
| AVInt z : ascii_value (VInt z)
| AVStr s : ascii s -> ascii_value (VStr s)
| AVDict d : Forall (fun kv => ascii kv.1 /\ ascii_value kv.2) d -> ascii_value (VDict d).

Lemma printable_esc c : 0 <= c < 128 -> printable (esc_char c).
Proof.
  intros Hc. assert (forallb (fun n => forallb (fun c => (32 <=? c) && (c <? 128)) (esc_char (Z.of_nat n))) (seq 0 128) = true) as Hall by by vm_compute.
  rewrite forallb_forall in Hall. specialize (Hall (Z.to_nat c) ltac:(apply in_seq; lia)). rewrite Z2Nat.id in Hall by lia.
  rewrite forallb_forall in Hall. apply Forall_forall. intros x Hx%list_elem_of_In. apply Hall in Hx. bool_norm. lia.
Qed.

Lemma printable_dumps_str s : ascii s -> printable (dumps_str s).
Proof.
  intros Hs. unfold dumps_str. apply List.Forall_cons; [lia|]. apply Forall_app. split; [|by repeat constructor].
  induction Hs as [|c s Hc _ IH]; [apply List.Forall_nil|]. cbn [flat_map]. apply Forall_app. split; [by apply printable_esc|done].
Qed.

Lemma printable_int z : printable (str_of_int z).
Proof.
  destruct (str_of_int_cases z) as [[Hz ->]|[Hz ->]]; [|apply List.Forall_cons; [lia|]];
    (eapply Forall_impl; [apply digits_digits; lia|]); intros c Hc; unfold is_digit in Hc; bool_norm; lia.
Qed.

Lemma printable_dumps v : ascii_value v -> exists t, dumps_raw v = Some t /\ printable t.
Proof.
  induction v as [| |z| |s| | |d IH] using pyval_ind'; inversion 1 as [|? Hs|? Hd]; subst; cbn [dumps_raw].
  - eexists. split; [done|apply printable_int].
  - eexists. split; [done|by apply printable_dumps_str].
  - assert (exists ts, member_texts dumps_raw d = Some ts /\ printable (join [44] ts)) as (ts & -> & Ht).
    { clear H. induction d as [|[k v] d IHd]; [exists []; split; [done|apply List.Forall_nil]|]. apply Forall_cons in IH as [IHv IH]. apply Forall_cons in Hd as [[Hk Hv] Hd].
      destruct (IHv Hv) as (t & Et & Ht). destruct (IHd IH Hd) as (ts & Ets & Hts). cbn [member_texts fst snd] in *. rewrite Et, Ets. eexists. split; [done|].
      assert (printable (dumps_str k ++ 58 :: t)) as Hkt by (apply Forall_app; split; [by apply printable_dumps_str|apply List.Forall_cons; [lia|done]]).
      destruct ts as [|t' ts]; cbn [join]; [done|]. apply Forall_app. split; [done|]. by apply List.Forall_cons. }
    eexists. split; [done|]. apply List.Forall_cons; [lia|]. apply Forall_app. split; [done|]. by repeat constructor.
Qed.

Lemma last_wins_NoDup d : NoDup (dict_keys d) -> last_wins d = Ok d.
Proof.
  intros Hn. unfold last_wins. f_equal. assert (forall e, NoDup (dict_keys (e ++ d)) -> fold_left (fun d kv => item_set d (fst kv) (snd kv)) d e = e ++ d) as Hall.
  { clear Hn. induction d as [|[k v] d IH]; intros e He; [by rewrite app_nil_r|]. cbn [fold_left fst snd].
    assert (item_set e k v = e ++ [(k, v)]) as ->.
    { unfold dict_keys in He. rewrite map_app in He. apply NoDup_app in He as (_ & Hd & _). assert (k ∉ map fst e) as Hk by (intros Hk; apply (Hd k Hk); by left).
      clear Hd IH. induction e as [|[k' v'] e IHe]; [done|]. cbn [item_set map fst] in *. apply not_elem_of_cons in Hk as [? ?]. rewrite bool_decide_eq_false_2 by done.
      by rewrite IHe. }
    rewrite IH, <- app_assoc; [done|]. by rewrite <- app_assoc. }
  by apply (Hall []).
Qed.

(** The texts of an entry the code writes *)
Definition entry_ok (r : entry) : Prop :=
  1 <= en_sequence r /\ ascii (en_invocation r) /\ ascii (en_observed r) /\ (en_family r ∈ FAMILIES \/ en_family r = u "unknown").

Lemma ascii_u s : ascii_text (u s) = true -> ascii (u s).
Proof. unfold ascii_text. rewrite forallb_forall. intros Hs. apply Forall_forall. intros c Hc%list_elem_of_In. apply Hs in Hc. bool_norm. lia. Qed.

Lemma ascii_family f : f ∈ FAMILIES \/ f = u "unknown" -> ascii f.
Proof.
  intros [Hf| ->]; [|by apply ascii_u]. unfold FAMILIES in Hf. cbn [map] in Hf.
  repeat (apply elem_of_cons in Hf as [->|Hf]; [by apply ascii_u|]). by apply elem_of_nil in Hf.
Qed.

Definition sorted_entry (r : entry) : list (pystr * pyval) :=
  [(u "family", VStr (en_family r)); (u "invocation_id", VStr (en_invocation r)); (u "monotonic_ns", VInt (en_monotonic r));
   (u "observed_at", VStr (en_observed r)); (u "phase", VStr (phase_text (en_phase r)))] ++
  match en_result r with Some x => [(u "result", VStr (result_text x))] | None => [] end ++
  [(u "schema", VStr SCHEMA); (u "sequence", VInt (en_sequence r))].

Lemma canon_entry r : canon (entry_value r) = VDict (sorted_entry r).
Proof. destruct r as [? ? ? ? ? ? [x|]]; vm_compute; reflexivity. Qed.

Lemma sorted_entry_sequence r : dict_get (sorted_entry r) (u "sequence") = Some (VInt (en_sequence r)).
Proof. destruct r as [? ? ? ? ? ? [x|]]; vm_compute; reflexivity. Qed.

Lemma line_Ok r : entry_ok r -> exists t, line r = Ok (t ++ [10]) /\ printable t /\ loads last_wins t = Ok (VDict (sorted_entry r)) /\ utf8_decode t = Some t /\ t <> [].
Proof.
  intros (_ & Hi & Ho & Hf). apply ascii_family in Hf.
  assert (ascii_value (canon (entry_value r))) as Hv.
  { rewrite canon_entry. constructor. unfold sorted_entry.
    repeat first [apply List.Forall_nil | apply List.Forall_cons; [split; cbn [fst snd]; [by apply ascii_u|]|] | apply Forall_app; split]; try (constructor; done).
    - constructor. by destruct (en_phase r); apply ascii_u.
    - destruct (en_result r) as [x|]; [|apply List.Forall_nil]. apply List.Forall_cons; [|apply List.Forall_nil]. split; [by apply ascii_u|].
      constructor. by destruct x; apply ascii_u.
    - constructor. by apply ascii_u. }
  assert (json_val (canon (entry_value r))) as Hj.
  { assert (forall s, ascii s -> Forall (Z.le 0) s) as Hnn by (intros s Hs; eapply Forall_impl; [exact Hs|]; cbn; intros; lia).
    apply canon_json. unfold entry_value. apply ADict; [by destruct (en_result r); apply NoDup_decide|].
    apply Forall_app. split; [|destruct (en_result r); [|apply List.Forall_nil]];
      repeat first [apply List.Forall_nil | apply List.Forall_cons; [split; cbn [fst snd]; [apply u_nonneg|]|]]; constructor; try apply u_nonneg; by apply Hnn. }
  destruct (printable_dumps _ Hv) as (t & Et & Ht). exists t.
  assert (ascii t) as Ha by (eapply Forall_impl; [exact Ht|]; cbn; intros; lia).
  split; [unfold line, canonical_json_bytes, dumps; rewrite Et, utf8_encode_ascii by done; done|]. split; [done|].
  split; [rewrite <- canon_entry; apply loads_dumps_raw; [apply last_wins_NoDup|done|done]|].
  split; [by apply utf8_decode_encode, utf8_encode_ascii|]. intros ->. rewrite canon_entry in Et. cbn [dumps_raw] in Et. by destruct (member_texts _ _).
Qed.

(** * The file *)

(** The lines of complete entries, numbered from 1 *)
Inductive journal_bytes : list entry -> bytes -> Prop :=
| jb_nil : journal_bytes [] []
| jb_snoc rs b r l : journal_bytes rs b -> entry_ok r -> en_sequence r = zlen rs + 1 -> line r = Ok l -> journal_bytes (rs ++ [r]) (b ++ l).

(** ... and what is left of a write that was cut short, after which nothing is
    appended *)
Definition sound_with (rs : list entry) (b : bytes) : Prop :=
  exists a torn, journal_bytes rs a /\ b = a ++ torn /\ (torn = [] \/ exists r l, entry_ok r /\ line r = Ok l /\ torn `prefix_of` l /\ torn <> l).
Definition sound (b : bytes) : Prop := exists rs, sound_with rs b.

(** [r] is the entry that continues a journal of [rs], [data] its line. *)
Definition next_entry (rs : list entry) (r : entry) (data : bytes) : Prop := entry_ok r /\ en_sequence r = zlen rs + 1 /\ line r = Ok data.

Lemma sound_nil : sound [].
Proof. exists [], [], []. split; [constructor|]. split; [done|by left]. Qed.

Lemma sound_with_complete rs b : journal_bytes rs b -> sound_with rs b.
Proof. intros Hb. exists b, []. split; [done|]. split; [by rewrite app_nil_r|by left]. Qed.

Lemma next_entry_sound rs b r data : journal_bytes rs b -> next_entry rs r data -> sound_with (rs ++ [r]) (b ++ data).
Proof. intros Hb (Hr & Hs & Hl). apply sound_with_complete. by constructor. Qed.

Lemma next_entry_torn rs b r data n : journal_bytes rs b -> next_entry rs r data -> (n < length data)%nat -> sound_with rs (b ++ take n data).
Proof.
  intros Hb (Hr & Hs & Hl) Hn. exists b, (take n data). split; [done|]. split; [done|]. right. exists r, data. split; [done|]. split; [done|].
  split; [exists (drop n data); by rewrite take_drop|]. intros E. apply (f_equal length) in E. rewrite length_take in E. lia.
Qed.

Lemma last_cons {A} (l : list A) x d : l <> [] -> List.last (x :: l) d = List.last l d.
Proof. by destruct l. Qed.
Lemma last_app_ne {A} (k l : list A) d : l <> [] -> List.last (k ++ l) d = List.last l d.
Proof. induction k as [|x k IH]; [done|]. intros Hl. cbn [app]. rewrite last_cons; [by apply IH|]. by destruct k, l. Qed.
Lemma last_elem {A} (l : list A) d : l <> [] -> List.last l d ∈ l.
Proof. induction l as [|x l IH]; [done|]. intros _. destruct l as [|y l]; [by left|]. rewrite last_cons by done. right. by apply IH. Qed.

Lemma printable_not_10 s : printable s -> s <> [] -> List.last s 0 <> 10.
Proof. intros Hs Hne E. unfold printable in Hs. rewrite Forall_forall in Hs. pose proof (Hs _ (last_elem s 0 Hne)) as Hb. cbn in Hb. lia. Qed.

(** A file that ends with a line feed is complete. *)
Lemma sound_complete rs b : sound_with rs b -> List.last b 0 = 10 -> journal_bytes rs b.
Proof.
  intros (a & torn & Ha & -> & Ht) Hl. destruct (decide (torn = [])) as [->|Hne]; [by rewrite app_nil_r|].
  destruct Ht as [?|(r & l & Hr & Hline & [k Hk] & Hneq)]; [done|]. rewrite last_app_ne in Hl by done. destruct (line_Ok r Hr) as (t & Ht & Hp & _).
  assert (l = t ++ [10]) as -> by congruence. destruct k as [|x k _] using rev_ind; [by rewrite app_nil_r in Hk|].
  rewrite app_assoc in Hk. apply app_inj_tail in Hk as [-> _]. apply Forall_app in Hp as [Hp _]. by apply printable_not_10 in Hl.
Qed.

(** ** Reading the last line *)

Lemma splitlines_printable s : printable s -> s <> [] -> splitlines (s ++ [10]) = [s].
Proof.
  induction 1 as [|c s Hc Hs IH]; [done|]. intros _. cbn [app splitlines]. rewrite !(proj2 (Z.eqb_neq c _)) by lia.
  destruct s as [|d s]; [done|]. by rewrite IH.
Qed.

(** A printable text after a line feed is the last of at least two lines. *)
Lemma splitlines_last n : forall a s, (length a <= n)%nat -> printable s -> s <> [] ->
  let ls := splitlines (a ++ 10 :: s ++ [10]) in List.last ls [] = s /\ (2 <= length ls)%nat.
Proof.
  cbv zeta. induction n as [|n IH]; intros a s Hn Hs Hne.
  - destruct a; [|cbn in Hn; lia]. cbn [app splitlines Z.eqb Pos.eqb]. by rewrite splitlines_printable.
  - destruct a as [|c a]; [cbn [app splitlines Z.eqb Pos.eqb]; by rewrite splitlines_printable|].
    cbn [length] in Hn. destruct (IH a s ltac:(lia) Hs Hne) as [E1 E2]. cbn [app splitlines].
    assert (forall ls : list bytes, (2 <= length ls)%nat -> List.last ls [] = s -> List.last ([] :: ls) [] = s /\ (2 <= length ([] :: ls))%nat) as Hcons.
    { intros ls Hls E. rewrite last_cons by (by destruct ls; cbn in Hls; [lia|]). split; [done|cbn; lia]. }
    destruct (c =? 10); [by apply Hcons|]. destruct (c =? 13).
    + destruct a as [|d a]; cbn [app].
      * cbn [Z.eqb Pos.eqb]. rewrite splitlines_printable by done. split; [done|cbn; lia].
      * cbn [length] in Hn. destruct (IH a s ltac:(lia) Hs Hne) as [E3 E4]. by destruct (d =? 10); apply Hcons.
    + destruct (splitlines (a ++ 10 :: s ++ [10])) as [|l [|l' ls]]; cbn [length] in *; [lia|lia|]. split; [done|cbn; lia].
Qed.

(** What is not empty and complete ends with a line. *)
Lemma journal_bytes_last rs b : journal_bytes rs b -> b <> [] ->
  exists rs' r b' t, rs = rs' ++ [r] /\ b = b' ++ t ++ [10] /\ journal_bytes rs' b' /\ en_sequence r = zlen rs' + 1 /\ entry_ok r /\ line r = Ok (t ++ [10]).
Proof. destruct 1 as [|rs b r l Hb Hr Hs Hl]; [done|]. intros _. destruct (line_Ok r Hr) as (t & Ht & _). assert (l = t ++ [10]) as -> by congruence. by exists rs, r, b, t. Qed.

Lemma journal_bytes_ends rs b : journal_bytes rs b -> b <> [] -> exists c, b = c ++ [10].
Proof. intros Hb Hne. destruct (journal_bytes_last rs b Hb Hne) as (_ & _ & b' & t & _ & -> & _). exists (b' ++ t). by rewrite app_assoc. Qed.

Lemma printable_app a b : printable (a ++ b) -> printable b.
Proof. intros H. by apply Forall_app in H as [_ H]. Qed.

(** The last line of the end of a journal that shows at least one line more, or all
    of it *)
Lemma tail_last_line rs' b' t pre tail : journal_bytes rs' b' -> printable t -> t <> [] -> b' ++ t ++ [10] = pre ++ tail -> tail <> [] ->
  pre = [] \/ (2 <= length (splitlines tail))%nat -> List.last (splitlines tail) [] = t.
Proof.
  intros Hb Ht Hne E Htail Hlines.
  assert ((exists y, tail = y ++ 10 :: t ++ [10]) \/ tail = t ++ [10] \/ (exists s p, t = p ++ s /\ p <> [] /\ tail = s ++ [10])) as [[y ->]|[->|(s & p & -> & Hp & ->)]].
  { apply app_eq_inv in E as [(k & -> & E2)|(k & -> & E2)].
    - destruct (decide (k = [])) as [->|Hk]; [by right; left; rewrite E2|]. left.
      assert (exists c, pre ++ k = c ++ [10]) as [c Ec] by (apply (journal_bytes_ends rs'); [done|]; by destruct pre, k).
      destruct k as [|x k _] using rev_ind; [done|]. rewrite app_assoc in Ec. apply app_inj_tail in Ec as [_ ->]. exists k. rewrite E2, <- app_assoc. done.
    - destruct (decide (k = [])) as [->|Hk]; [right; left; exact (eq_sym E2)|]. right. right.
      destruct tail as [|x tail _] using rev_ind; [done|]. rewrite app_assoc in E2. apply app_inj_tail in E2 as [-> ->]. by exists tail, k. }
  - by apply (splitlines_last (length y)).
  - by rewrite splitlines_printable.
  - destruct Hlines as [->|Hlines].
    + exfalso. apply (f_equal length) in E. rewrite !length_app in E. cbn in E. destruct p; [done|]. cbn in E. lia.
    + exfalso. destruct (decide (s = [])) as [->|Hs]; [cbn in Hlines; lia|]. rewrite splitlines_printable in Hlines by (done || by apply printable_app in Ht). cbn in Hlines. lia.
Qed.

(** The bytes that [_append] reads *)
Definition tail_of (b : bytes) : bytes * Z := let start := Z.max 0 (zlen b - MAX_RECORD) in (take (Z.to_nat (zlen b - start)) (drop (Z.to_nat start) b), start).

(** The number [next_sequence] gives for the end of a sound file: the file is
    complete, and this is the number of its next line. *)
Lemma next_sequence_sound rs b n : sound_with rs b -> b <> [] -> next_sequence (tail_of b).1 (tail_of b).2 = Ok n ->
  journal_bytes rs b /\ n = zlen rs + 1.
Proof.
  intros Hb Hne. unfold tail_of. cbn [fst snd]. set (start := Z.max 0 (zlen b - MAX_RECORD)).
  assert (0 <= start <= zlen b) as Hstart by (unfold start, zlen, MAX_RECORD; lia).
  rewrite take_ge by (rewrite length_drop; unfold zlen in *; lia). set (tail := drop (Z.to_nat start) b).
  assert (b = take (Z.to_nat start) b ++ tail) as Eb by (unfold tail; by rewrite take_drop).
  unfold next_sequence. destruct (bool_decide (List.last tail 0 = 10)) eqn:E10; [|done]. apply bool_decide_eq_true in E10.
  destruct (bool_decide (tail = [])) eqn:Et; [done|]. apply bool_decide_eq_false in Et. cbn [negb orb].
  destruct (bool_decide (splitlines tail = []) || (negb (start =? 0) && (zlen (splitlines tail) <? 2))) eqn:El; [done|].
  apply orb_false_iff in El as [El1 El2]. apply bool_decide_eq_false in El1.
  assert (List.last b 0 = 10) as Hlast by (rewrite Eb, last_app_ne; done). pose proof (sound_complete rs b Hb Hlast) as Hrs.
  destruct (journal_bytes_last rs b Hrs Hne) as (rs' & r & b' & t & -> & -> & Hb' & Hs & Hr & Hline).
  destruct (line_Ok r Hr) as (t' & Ht' & Hp & Hload & Hutf & Htne). assert (t' = t) as -> by (rewrite Hline in Ht'; apply (inj Ok), app_inj_tail in Ht' as [? _]; done).
  rewrite (tail_last_line rs' b' t (take (Z.to_nat start) (b' ++ t ++ [10])) tail Hb' Hp Htne Eb Et).
  2: { apply andb_false_iff in El2 as [E|E]; [left|right; unfold zlen in E; bool_norm; lia]. apply negb_false_iff, Z.eqb_eq in E. by rewrite E. }
  rewrite Hutf, Hload. cbn [result_bind]. intros Hn. split; [done|].
  destruct (negb (py_eqb _ _)); [done|]. rewrite sorted_entry_sequence in Hn. destruct (negb ((1 <=? en_sequence r) && (en_sequence r <? _))); [done|].
  apply (inj Ok) in Hn. rewrite <- Hn, Hs. unfold zlen. rewrite length_app. cbn [length]. lia.
Qed.

(** * Logics of programs *)

Section wp.
(** A state that the calls change, and what is needed for a call so that [K] holds
    of whatever it gives *)
Context {S : Type} (call_wp : S -> forall R, call R -> (result R -> S -> Prop) -> Prop).

Fixpoint wp {A} (Q : result A -> S -> Prop) (s : S) (p : program A) : Prop :=
  match p with
  | Done r => Q r s
  | Call c k => call_wp s _ c (fun r s' => wp Q s' (k r))
  end.

Hypothesis call_mono : forall s R (c : call R) (K K' : result R -> S -> Prop), (forall r s', K r s' -> K' r s') -> call_wp s R c K -> call_wp s R c K'.

Lemma wp_weaken {A} (Q Q' : result A -> S -> Prop) p : (forall r s, Q r s -> Q' r s) -> forall s, wp Q s p -> wp Q' s p.
Proof. intros HQ. induction p as [r|R c k IH]; intros s; cbn [wp]; [apply HQ|]. apply call_mono. intros r s' H. by apply IH. Qed.

Lemma wp_attempt {A B} (Q : result A -> S -> Prop) (Q' : result B -> S -> Prop) p (f : result A -> program B) :
  (forall r s, Q r s -> wp Q' s (f r)) -> forall s, wp Q s p -> wp Q' s (attempt p f).
Proof. intros Hf. induction p as [r|R c k IH]; intros s; cbn [wp attempt]; [apply Hf|]. apply call_mono. intros r s' H. by apply IH. Qed.

Lemma bind_attempt {A B} p (f : A -> program B) s Q :
  wp Q s (attempt p (fun r => match r with Ok a => f a | Err e => Done (Err e) end)) -> wp Q s (bind p f).
Proof. revert s. induction p as [[a|e]|R c k IH]; intros s; cbn [wp attempt bind]; [done|done|]. apply call_mono. intros r s' H. by apply IH. Qed.

Lemma wp_bind {A B} (Q : result A -> S -> Prop) (Q' : result B -> S -> Prop) p (f : A -> program B) s :
  wp Q s p -> (forall a s, Q (Ok a) s -> wp Q' s (f a)) -> (forall e s, Q (Err e) s -> Q' (Err e) s) -> wp Q' s (bind p f).
Proof. intros Hp Hf He. apply bind_attempt. revert Hp. apply wp_attempt. intros [a|e] s' H; [by apply Hf|by apply He]. Qed.

Lemma wp_finally {A} (Q : result A -> S -> Prop) (Q' : result A -> S -> Prop) p q s :
  wp Q s p -> (forall r s, Q r s -> wp (fun x s' => match x with Ok _ => Q' r s' | Err e => Q' (Err e) s' end) s q) -> wp Q' s (finally p q).
Proof.
  intros Hp Hq. unfold finally. revert Hp. apply wp_attempt. intros r s' H. apply (wp_bind _ _ _ _ _ (Hq r s' H)); [by intros []|done].
Qed.

Lemma wp_on_error {A} (Q : result A -> S -> Prop) (Q' : result A -> S -> Prop) p q s :
  wp Q s p -> (forall a s, Q (Ok a) s -> Q' (Ok a) s) ->
  (forall e s, Q (Err e) s -> wp (fun x s' => match x with Ok _ => Q' (Err e) s' | Err e' => Q' (Err e') s' end) s q) -> wp Q' s (on_error p q).
Proof.
  intros Hp Ha He. unfold on_error. revert Hp. apply wp_attempt. intros [a|e] s' H; [by apply Ha|].
  apply (wp_bind _ _ _ _ _ (He e s' H)); [by intros []|done].
Qed.

(** Programs that only move the state upwards *)
Context (le : S -> S -> Prop) `{!PreOrder le}.
Definition moves {A} (p : program A) : Prop := forall s, wp (fun _ s' => le s s') s p.

Lemma moves_wp {A} (p : program A) (Q : result A -> S -> Prop) s : moves p -> (forall r s', le s s' -> Q r s') -> wp Q s p.
Proof. intros Hp HQ. apply (wp_weaken (fun _ s' => le s s')); [apply HQ|apply Hp]. Qed.

Lemma moves_done {A} (r : result A) : moves (Done r).
Proof. intros s. by cbn. Qed.
Lemma moves_ret {A} (a : A) : moves (ret a).
Proof. apply moves_done. Qed.
Lemma moves_fail {A} e : moves (fail (A := A) e).
Proof. apply moves_done. Qed.
Lemma moves_attempt {A B} (p : program A) (f : result A -> program B) : moves p -> (forall r, moves (f r)) -> moves (attempt p f).
Proof.
  intros Hp Hf s. apply (wp_attempt (fun _ s' => le s s')); [|apply Hp]. intros r s' Hs. apply (moves_wp _ _ s' (Hf r)). intros r' s'' Hs'. by transitivity s'.
Qed.
Lemma moves_bind {A B} (p : program A) (f : A -> program B) : moves p -> (forall a, moves (f a)) -> moves (bind p f).
Proof. intros Hp Hf s. apply bind_attempt, moves_attempt; [done|]. intros [a|e]; [apply Hf|apply moves_done]. Qed.
Lemma moves_if {A} (b : bool) (p q : program A) : moves p -> moves q -> moves (if b then p else q).
Proof. by destruct b. Qed.
Lemma moves_finally {A} (p : program A) q : moves p -> moves q -> moves (finally p q).
Proof. intros Hp Hq. apply moves_attempt; [done|]. intros r. apply moves_bind; [done|]. intros _. apply moves_done. Qed.
Lemma moves_on_error {A} (p : program A) q : moves p -> moves q -> moves (on_error p q).
Proof. intros Hp Hq. apply moves_attempt; [done|]. intros [a|e]; [apply moves_done|]. apply moves_bind; [done|]. intros _. apply moves_done. Qed.

Definition plain {R} (c : call R) : Prop := match c with Flock _ | Write _ _ | Warn => False | _ => True end.
Hypothesis moves_plain : forall R (c : call R), plain c -> moves (sys c).

#[local] Ltac moving := repeat first
  [ assumption | simple apply moves_done | simple apply moves_ret | simple apply moves_fail | (simple apply moves_plain; exact I) | simple apply moves_if
  | simple apply moves_finally | simple apply moves_on_error | (simple apply moves_bind; [|intros ?]) | (simple apply moves_attempt; [|intros [?|?]])
  | match goal with |- moves (match ?x with _ => _ end) => destruct x end ].

Lemma moves_open_directory root : moves (open_directory root).
Proof.
  unfold open_directory. moving. generalize (path_parts root). intros parts. revert a. induction parts as [|part parts IH]; intros d; cbn [open_parts]; moving. apply IH.
Qed.
Lemma moves_open_file d : moves (open_file d).
Proof. unfold open_file. moving. Qed.
Lemma moves_append_check euid root directory descriptor : moves (append_check euid root directory descriptor).
Proof. unfold append_check. moving. apply moves_open_directory. Qed.

Hypothesis moves_flock : forall fd, moves (sys (Flock fd)).
Hypothesis moves_write : forall fd data, moves (sys (Write fd data)).

Lemma moves_take_lock fuel fd deadline : moves (take_lock fuel fd deadline).
Proof. induction fuel as [|fuel IH]; cbn [take_lock]; moving. apply moves_flock. Qed.
Lemma moves_append_locked fd p family invocation res : moves (append_locked fd p family invocation res).
Proof. unfold append_locked. moving. apply moves_write. Qed.
Lemma moves_append euid root p family invocation res : moves (append euid root p family invocation res).
Proof.
  unfold append. moving; [apply moves_open_directory|apply moves_open_file|apply moves_take_lock|apply moves_append_locked|apply moves_append_check].
Qed.
End wp.

(** ** What a command knows of the file *)

(** The descriptor by which it holds the lock and what the file is then; the entries
    it knows to be there *)
Record view := View { v_held : option (Z * bytes); v_known : list entry }.

Definition is_err {A} (r : result A) : Prop := match r with Ok _ => False | Err _ => True end.

Definition view_wp (v : view) R (c : call R) : (result R -> view -> Prop) -> Prop :=
  match c in call R return (result R -> view -> Prop) -> Prop with
  | Flock fd => fun K => (forall e, K (Err e) v) /\ forall b rs r, v_known v `prefix_of` rs -> sound_with rs b -> K r (View (Some (fd, b)) rs)
  | Close fd => fun K => (forall e, K (Err e) v) /\ forall r, K r (View None (v_known v))
  | SeekEnd fd => fun K => (forall e, K (Err e) v) /\ forall n, (forall b, v_held v = Some (fd, b) -> n = zlen b) -> K (Ok n) v
  | Pread fd n offset => fun K => (forall e, K (Err e) v) /\
      forall d, (forall b, v_held v = Some (fd, b) -> d = take (Z.to_nat n) (drop (Z.to_nat offset) b)) -> K (Ok d) v
  | Write fd data => fun K => exists b e, v_held v = Some (fd, b) /\ journal_bytes (v_known v) b /\ next_entry (v_known v) e data /\
      (forall e, K (Err e) v) /\
      (forall n r, 0 <= n < zlen data -> r = Ok n \/ is_err r -> K r (View (Some (fd, b ++ take (Z.to_nat n) data)) (v_known v))) /\
      (forall r, r = Ok (zlen data) \/ is_err r -> K r (View (Some (fd, b ++ data)) (v_known v ++ [e])))
  | UtcNow | Uuid => fun K => (forall e, K (Err e) v) /\ forall s, ascii s -> K (Ok s) v
  | _ => fun K => forall r, K r v
  end.

Lemma view_mono v R (c : call R) (K K' : result R -> view -> Prop) : (forall r v', K r v' -> K' r v') -> view_wp v R c K -> view_wp v R c K'.
Proof. intros HK. destruct c; cbn [view_wp]; try (intros []; split; by eauto); try by eauto. intros (b & e & ? & ? & ? & ? & ? & ?). exists b, e. split_and!; by eauto. Qed.

Definition knows {A} := wp (A := A) view_wp.

(** Programs that neither take the lock nor write *)
#[local] Notation keeps := (moves view_wp (fun v v' => v_known v' = v_known v)).
#[export] Instance keeps_preorder : PreOrder (fun v v' => v_known v' = v_known v).
Proof. split; [done|]. intros v1 v2 v3 E1 E2. by rewrite E2, E1. Qed.

Lemma keeps_plain R (c : call R) : plain c -> keeps (sys c).
Proof. intros Hc v. destruct c; cbn [plain sys wp view_wp] in *; try done; split; by intros. Qed.

Definition keeps_open_directory := moves_open_directory view_wp view_mono _ keeps_plain.
Definition keeps_open_file := moves_open_file view_wp view_mono _ keeps_plain.
Definition keeps_append_check := moves_append_check view_wp view_mono _ keeps_plain.
Definition keeps_bind {A B} := moves_bind (A := A) (B := B) view_wp view_mono (fun v v' => v_known v' = v_known v).
Definition keeps_if {A} := moves_if (A := A) view_wp (fun v v' => v_known v' = v_known v).
Definition keeps_done {A} := moves_done (A := A) view_wp (fun v v' => v_known v' = v_known v).
Definition keeps_fail {A} := moves_fail (A := A) view_wp (fun v v' => v_known v' = v_known v).
Ltac keep := repeat first
  [ simple apply keeps_open_directory | simple apply keeps_open_file | simple apply keeps_append_check | (simple apply keeps_plain; exact I)
  | (simple apply keeps_bind; [|intros ?]) | simple apply keeps_if | simple apply keeps_done | simple apply keeps_fail ].

Lemma keeps_knows {A} (p : program A) Q v : keeps p -> (forall r v', v_known v' = v_known v -> Q r v') -> knows Q v p.
Proof. apply (moves_wp view_wp view_mono (fun v v' => v_known v' = v_known v)). Qed.

Definition entry_is (p : journal_phase) (family invocation : pystr) (res : option command_result) (e : entry) : Prop :=
  en_phase e = p /\ en_family e = family /\ en_invocation e = invocation /\ en_result e = res.

(** What is known after an attempt to append an entry: no less than before, and the
    entry if it succeeded *)
Definition appended {A} (v : view) (E : entry -> Prop) (r : result A) (v' : view) : Prop :=
  v_known v `prefix_of` v_known v' /\ (forall a, r = Ok a -> exists rs e, v_known v `prefix_of` rs /\ v_known v' = rs ++ [e] /\ E e).

Lemma appended_err {A} v E e v' : v_known v `prefix_of` v_known v' -> appended (A := A) v E (Err e) v'.
Proof. by split. Qed.

Definition locked (fd : Z) (v : view) (r : result unit) (v' : view) : Prop :=
  v_known v `prefix_of` v_known v' /\ (r = Ok tt -> exists b, v_held v' = Some (fd, b) /\ sound_with (v_known v') b).

Lemma knows_take_lock fuel fd deadline v : knows (locked fd v) v (take_lock fuel fd deadline).
Proof.
  unfold knows. revert v. induction fuel as [|fuel IH]; intros v; cbn [take_lock]; [by split|].
  apply (wp_attempt view_wp view_mono (locked fd v)).
  - intros [a|e] v' [Hk Hl]; [by split; [|destruct a]|]. destruct (bool_decide (e = _)); [|by split].
    cbn [bind sys wp view_wp]. intros [now|e']; [|by split]. cbn [bind]. destruct (deadline <=? now); [by split|].
    cbn [bind sys wp view_wp]. intros [?|e']; [|by split]. cbn [bind]. apply (wp_weaken view_wp view_mono (locked fd v')); [|apply IH].
    intros r w [? ?]. split; [by transitivity (v_known v')|done].
  - cbn [sys wp view_wp]. split; [by split|]. intros b rs r Hk Hs. split; [done|]. intros _. by exists b.
Qed.

Lemma knows_append_locked fd p family invocation res b v :
  v_held v = Some (fd, b) -> sound_with (v_known v) b -> ascii invocation -> family ∈ FAMILIES \/ family = u "unknown" ->
  knows (appended v (entry_is p family invocation res)) v (append_locked fd p family invocation res).
Proof.
  intros Hh Hs Hi Hf. unfold knows, append_locked. cbn [bind sys wp view_wp]. split; [intros e; by apply appended_err|]. intros end_ He. rewrite (He b Hh). clear He end_. cbn [bind].
  destruct (MAX_FILE <? zlen b); [by apply appended_err|].
  apply (wp_bind view_wp view_mono (fun r v' => v' = v /\ forall n, r = Ok n -> journal_bytes (v_known v) b /\ n = zlen (v_known v) + 1)).
  - destruct (zlen b =? 0) eqn:Eb.
    + split; [done|]. intros n En%(inj Ok). apply Z.eqb_eq in Eb. assert (b = []) as -> by (destruct b; [done|unfold zlen in Eb; cbn in Eb; lia]).
      destruct Hs as (a & torn & Ha & E & _). symmetry in E. apply app_nil in E as [-> ->]. split; [done|]. inversion Ha as [|? ? ? ? ? ? ? ? E]; [by subst|].
      exfalso. subst. destruct (line_Ok r) as (t & Ht & _); [done|]. assert (l = t ++ [10]) as -> by congruence. by destruct b, t.
    + cbn [bind sys wp view_wp]. split; [done|]. intros d Hd. cbn [bind wp]. split; [done|]. intros n Hn. rewrite (Hd b Hh) in Hn.
      apply (next_sequence_sound (v_known v) b n Hs); [intros ->; done|done].
  - intros n v' [-> Hn]. destruct (Hn n eq_refl) as [Hb ->]. cbn [bind sys wp view_wp]. split; [intros e; by apply appended_err|]. intros observed Hobs. cbn [bind wp view_wp].
    intros [monotonic|e]; [|by apply appended_err]. cbn [bind].
    set (e := Entry _ _ _ _ _ _ _). assert (entry_ok e) as Hok by (split_and!; [cbn [e en_sequence]; unfold zlen; lia|done..]).
    destruct (line_Ok e Hok) as (t & Et & _). rewrite Et. cbn [bind]. destruct (_ || _); [by apply appended_err|].
    cbn [bind sys wp view_wp]. exists b, e. split; [done|]. split; [done|]. split; [done|]. split; [intros ?; by apply appended_err|]. split.
    + intros n r Hlt Hr. destruct r as [m|?]; [|by apply appended_err]. destruct Hr as [Hr|[]]. apply (inj Ok) in Hr as ->. cbn [bind].
      rewrite (proj2 (Z.eqb_neq n _)) by lia. by apply appended_err.
    + intros r Hr. assert (v_known v `prefix_of` v_known v ++ [e]) as Hpre by (by exists [e]). destruct r as [m|?]; [|by apply appended_err]. destruct Hr as [Hr|[]]. apply (inj Ok) in Hr as ->. cbn [bind].
      rewrite Z.eqb_refl. split; [done|]. intros _ _. exists (v_known v), e. done.
  - intros e v' [-> _]. by apply appended_err.
Qed.

Lemma knows_bind_keeps {A B} (p : program A) (f : A -> program B) Q v :
  keeps p -> (forall a w, v_known w = v_known v -> knows Q w (f a)) -> (forall e w, v_known w = v_known v -> Q (Err e) w) -> knows Q v (bind p f).
Proof. intros Hp Hf He. by apply (wp_bind view_wp view_mono (fun _ w => v_known w = v_known v)); [apply Hp|..]. Qed.

Lemma knows_append euid root p family invocation res v : ascii invocation -> family ∈ FAMILIES \/ family = u "unknown" ->
  knows (appended v (entry_is p family invocation res)) v (append euid root p family invocation res).
Proof.
  intros Hi Hf. set (E := entry_is p family invocation res). unfold append.
  assert (forall e w, v_known v `prefix_of` v_known w -> appended (A := unit) v E (Err e) w) as Herr by (intros e w Hw; by apply appended_err).
  apply knows_bind_keeps; [keep| |by intros e w Hw; apply Herr; rewrite Hw].
  intros directory v1 H1. apply (wp_attempt view_wp view_mono (fun _ w => v_known w = v_known v)).
  2: { apply keeps_knows; [keep|]. intros r w ->. done. }
  intros [[descriptor created]|e] v2 H2.
  2: { apply knows_bind_keeps; [keep|..]; [intros _ w Hw|intros e' w Hw]; apply Herr; by rewrite Hw, H2. }
  apply (wp_finally view_wp view_mono (appended v E)).
  - apply knows_bind_keeps; [by destruct created; keep| |by intros e w Hw; apply Herr; rewrite Hw, H2]. intros _ v3 H3.
    apply knows_bind_keeps; [keep| |by intros e w Hw; apply Herr; rewrite Hw, H3, H2]. intros m v4 H4.
    destruct (negb _); [by apply Herr; rewrite H4, H3, H2|].
    apply knows_bind_keeps; [keep| |by intros e w Hw; apply Herr; rewrite Hw, H4, H3, H2]. intros now v5 H5.
    assert (v_known v5 = v_known v) as H6 by congruence. clear H1 H2 H3 H4 H5 v1 v2 v3 v4.
    apply (wp_bind view_wp view_mono _ _ _ _ _ (knows_take_lock _ _ _ _)); [|by intros e w [Hw _]; apply Herr; rewrite <- H6].
    intros [] v6 [Hk Hl]. destruct (Hl eq_refl) as (b & Hh & Hs). rewrite H6 in Hk.
    apply (wp_bind view_wp view_mono _ _ _ _ _ (knows_append_locked descriptor p family invocation res b v6 Hh Hs Hi Hf)).
    + intros a w [Hw Ha]. apply keeps_knows; [keep|]. intros r w' Hw'. split; [rewrite Hw'; by transitivity (v_known v6)|].
      intros _ _. rewrite Hw'. destruct (Ha a eq_refl) as (rs & e & ? & ? & ?). exists rs, e. split; [by transitivity (v_known v6)|done].
    + intros e w [Hw _]. apply Herr. by transitivity (v_known v6).
  - intros r w [Hk Hr]. apply keeps_knows; [keep|]. intros x w' Hw'. destruct x; [|apply Herr; by rewrite Hw']. split; [by rewrite Hw'|].
    intros y Hy. rewrite Hw'. by apply (Hr y).
Qed.

Definition same_journal (j j' : journal) : Prop :=
  jn_family j' = jn_family j /\ jn_root j' = jn_root j /\ jn_invalid j' = jn_invalid j /\ jn_invocation j' = jn_invocation j /\ (jn_warned j = true -> jn_warned j' = true).

(** What a call of [record] leaves: it warned, or the entry is there *)
Definition recorded (j : journal) (v : view) (p : journal_phase) (res : option command_result) (r : result journal) (v' : view) : Prop :=
  v_known v `prefix_of` v_known v' /\ forall j', r = Ok j' -> same_journal j j' /\
    (jn_warned j' = true \/ jn_root j = None \/ exists rs e, v_known v `prefix_of` rs /\ v_known v' = rs ++ [e] /\ entry_is p (jn_family j) (jn_invocation j) res e).

Lemma same_journal_refl j : same_journal j j.
Proof. by split_and!. Qed.
Lemma same_journal_warned j : same_journal j (set_warned j).
Proof. by split_and!. Qed.

Lemma recorded_warned j v p res w j' : v_known v `prefix_of` v_known w -> same_journal j j' -> jn_warned j' = true -> recorded j v p res (Ok j') w.
Proof. intros Hw Hj Hj'. split; [done|]. intros j'' E. apply (inj Ok) in E. subst j''. split; [done|by left]. Qed.

Lemma knows_record_failed j p res e v w : v_known v `prefix_of` v_known w -> knows (recorded j v p res) w (record_failed j e).
Proof.
  intros Hw. unfold record_failed. destruct (negb _); [by split|]. destruct (jn_warned j) eqn:Ew; [by apply recorded_warned; [..|apply same_journal_refl|]|].
  intros [?|e']; [by apply recorded_warned; [..|apply same_journal_warned|]|]. cbn [attempt]. destruct (is_exception e'); [|by split]. by apply recorded_warned; [..|apply same_journal_warned|].
Qed.

Lemma knows_record euid j p res v : ascii (jn_invocation j) -> jn_family j ∈ FAMILIES \/ jn_family j = u "unknown" ->
  knows (recorded j v p res) v (record euid j p res).
Proof.
  intros Hi Hf. unfold record. set (E := entry_is p (jn_family j) (jn_invocation j) res).
  assert (forall q : program unit, knows (appended v E) v q -> knows (recorded j v p res) v (attempt q (fun r => match r with Ok _ => ret j | Err e => record_failed j e end))) as Hmain.
  { intros q. apply (wp_attempt view_wp view_mono (appended v E)). intros [a|e] w [Hw Ha]; [|by apply knows_record_failed].
    split; [done|]. intros j' Hj'%(inj Ok). subst j'. split; [apply same_journal_refl|]. right. right. by apply (Ha a). }
  destruct (jn_root j) eqn:Er, (jn_invalid j) eqn:Einv; first [by apply Hmain, knows_append | apply Hmain; by apply appended_err | idtac].
  split; [done|]. intros j' Hj'%(inj Ok). subst j'. split; [apply same_journal_refl|]. right. by left.
Qed.

(** The start and the end of the command of [j], in this order *)
Definition both_recorded (j : journal) (res : command_result) (rs : list entry) : Prop :=
  exists rs1 e1 rs2 e2 rs3, rs = rs1 ++ e1 :: rs2 ++ e2 :: rs3 /\
    entry_is StartPhase (jn_family j) (jn_invocation j) None e1 /\ entry_is EndPhase (jn_family j) (jn_invocation j) (Some res) e2.

Lemma both_recorded_prefix j res rs rs' : rs `prefix_of` rs' -> both_recorded j res rs -> both_recorded j res rs'.
Proof.
  intros [k ->] (rs1 & e1 & rs2 & e2 & rs3 & -> & H). exists rs1, e1, rs2, e2, (rs3 ++ k). split; [|done]. rewrite <- !app_assoc. cbn [app]. by rewrite <- app_assoc.
Qed.

Definition command_result_of (res : command_result) (r : result journal) (v : view) : Prop :=
  forall j, r = Ok j -> jn_warned j = false -> jn_root j <> None -> both_recorded j res (v_known v).

Definition safe_family (family : pyval) : pystr := match family with VStr f => if bool_decide (f ∈ FAMILIES) then f else u "unknown" | _ => u "unknown" end.
Lemma safe_family_ok family : safe_family family ∈ FAMILIES \/ safe_family family = u "unknown".
Proof. unfold safe_family. destruct family; try by right. destruct (bool_decide _) eqn:E; [left; by apply bool_decide_eq_true in E|by right]. Qed.

Lemma knows_command euid family override linux res v : knows (command_result_of res) v (command euid family override linux res).
Proof.
  unfold command. apply (wp_bind view_wp view_mono (fun r w => forall j, r = Ok j -> ascii (jn_invocation j) /\ (jn_family j ∈ FAMILIES \/ jn_family j = u "unknown") /\
    (jn_warned j = true \/ jn_root j = None \/ exists rs e, v_known w = rs ++ [e] /\ entry_is StartPhase (jn_family j) (jn_invocation j) None e))).
  - unfold begin. destruct (root_of override linux) as [root invalid].
    assert (forall w inv id, ascii id -> let j0 := Journal (safe_family family) root false inv id in
      knows (fun r w => forall j, r = Ok j -> ascii (jn_invocation j) /\ (jn_family j ∈ FAMILIES \/ jn_family j = u "unknown") /\
        (jn_warned j = true \/ jn_root j = None \/ exists rs e, v_known w = rs ++ [e] /\ entry_is StartPhase (jn_family j) (jn_invocation j) None e))
        w (record euid j0 StartPhase None)) as Hrec.
    { intros w inv id Hid j0. apply (wp_weaken view_wp view_mono (recorded j0 w StartPhase None)); [|by apply knows_record; [|apply safe_family_ok]].
      intros r w' [Hw Hr] j Hj. destruct (Hr j Hj) as [(-> & -> & _ & -> & _) Hc]. split; [done|]. split; [apply safe_family_ok|]. destruct Hc as [?|[?|(rs & e & _ & ? & ?)]]; eauto 6. }
    apply (wp_attempt view_wp view_mono (fun r w => forall s, r = Ok s -> ascii s)).
    + intros [id|e] w Hid; [by apply Hrec, Hid|]. destruct (is_exception e); [by apply Hrec, Forall_nil|done].
    + cbn [sys wp view_wp]. split; [done|]. intros s Hs s' E. apply (inj Ok) in E. by subst s'.
  - intros j w Hj. destruct (Hj j eq_refl) as (Hi & Hf & Hc). unfold finish. apply (wp_weaken view_wp view_mono (recorded j w EndPhase (Some res))); [|by apply knows_record].
    intros r w' [Hw Hr] j' Hj' Hwarn Hroot. destruct (Hr j' Hj') as [(E1 & E2 & _ & E3 & Hmono) Hc']. rewrite E2 in Hroot.
    destruct Hc' as [?|[?|(rs' & e' & [k Hk] & Ew' & He')]]; [congruence|done|].
    destruct Hc as [Hw1|[?|(rs & e & Ew & He)]]; [specialize (Hmono Hw1); congruence|done|].
    exists rs, e, k, e', []. rewrite Ew', Hk, Ew, E1, E3, <- !app_assoc. done.
  - done.
Qed.

(** * The machine *)

(** The view [v] of the [i]-th command is true of the machine, whose file holds the
    entries [G]. *)
Definition view_true (i : nat) (G : list entry) (m : machine) (v : view) : Prop :=
  v_known v `prefix_of` G /\ forall fd b, v_held v = Some (fd, b) -> mc_lock m = Some (i, fd) /\ file_bytes m = b /\ v_known v = G.

(** What a call of another command leaves alone *)
Definition kept_for (i : nat) (G G' : list entry) (m m' : machine) : Prop :=
  G `prefix_of` G' /\ file_bytes m `prefix_of` file_bytes m' /\ forall j fd, j <> i -> mc_lock m = Some (j, fd) -> mc_lock m' = Some (j, fd) /\ file_bytes m' = file_bytes m /\ G' = G.

Lemma kept_for_refl i G m m' : mc_lock m' = mc_lock m -> file_bytes m' = file_bytes m -> kept_for i G G m m'.
Proof. intros El Ef. split; [done|]. split; [by rewrite Ef|]. intros j fd _ E. by rewrite El, Ef. Qed.

Lemma view_true_kept i j G G' m m' v : j <> i -> kept_for i G G' m m' -> view_true j G m v -> view_true j G' m' v.
Proof.
  intros Hij (HG & _ & Hk) [Hp Hh]. split; [by transitivity G|]. intros fd b Hv. destruct (Hh fd b Hv) as (El & Ef & Ek). destruct (Hk j fd Hij El) as (-> & -> & ->). done.
Qed.

Lemma view_true_same i G m m' v : mc_lock m' = mc_lock m -> file_bytes m' = file_bytes m -> view_true i G m v -> view_true i G m' v.
Proof. intros El Ef [Hp Hh]. split; [done|]. by rewrite El, Ef. Qed.

Lemma view_true_none i G m v : v_known v `prefix_of` G -> v_held v = None -> view_true i G m v.
Proof. intros Hp Hh. split; [done|]. by rewrite Hh. Qed.

Lemma ascii_text_spec s : ascii_text s = true -> ascii s.
Proof. unfold ascii_text. rewrite forallb_forall. intros Hs. apply Forall_forall. intros c Hc%list_elem_of_In. apply Hs in Hc. bool_norm. lia. Qed.

(** The lock holder writes a part of its line, or all of it. *)
Lemma write_true i fd data n G m v (K : result Z -> view -> Prop) r :
  sound_with G (file_bytes m) -> view_true i G m v -> view_wp v _ (Write fd data) K -> 0 <= n <= zlen data -> r = Ok n \/ is_err r ->
  let m' := m <| mc_file := Some (file_bytes m ++ take (Z.to_nat n) data) |> in
  exists G' v', sound_with G' (file_bytes m') /\ kept_for i G G' m m' /\ view_true i G' m' v' /\ K r v' /\ mc_processes m' = mc_processes m.
Proof.
  intros HG [Hp Hh] (b & e & Hheld & Hb & He & _ & Hpart & Hall) Hn Hr. destruct (Hh fd b Hheld) as (El & Ef & <-). cbv zeta.
  set (m' := m <| mc_file := _ |>). assert (file_bytes m' = b ++ take (Z.to_nat n) data) as Ef' by (unfold m'; by rewrite <- Ef).
  assert (mc_lock m' = Some (i, fd) /\ mc_processes m' = mc_processes m) as [El' Em] by done. clearbody m'. rewrite Ef in HG. rewrite Ef'.
  assert (forall G', v_known v `prefix_of` G' -> kept_for i (v_known v) G' m m') as Hkept.
  { intros G' HG'. split; [done|]. split; [rewrite Ef', Ef; by eexists|]. intros j fd' Hj E. congruence. }
  assert (forall G', view_true i G' m' (View (Some (fd, b ++ take (Z.to_nat n) data)) G')) as Hv'.
  { intros G'. split; [done|]. intros fd' b' E. cbn in E. by simplify_eq. }
  destruct (decide (n = zlen data)) as [->|Hne].
  - rewrite take_ge in * by (unfold zlen; lia). exists (v_known v ++ [e]), (View (Some (fd, b ++ data)) (v_known v ++ [e])).
    split; [by apply next_entry_sound|]. split; [apply Hkept; by eexists|]. split; [apply Hv'|]. split; [by apply Hall|done].
  - exists (v_known v), (View (Some (fd, b ++ take (Z.to_nat n) data)) (v_known v)).
    split; [apply (next_entry_torn _ _ e); [done..|unfold zlen in *; lia]|]. split; [by apply Hkept|]. split; [apply Hv'|]. split; [apply Hpart; [lia|done]|done].
Qed.

(** A call that takes effect, whatever it then returns or raises *)
Lemma serve_true i fds o m R (c : call R) m' fds' r0 G v (K : result R -> view -> Prop) r :
  serve i fds o m c = Some (m', fds', r0) -> sound_with G (file_bytes m) -> view_true i G m v -> view_wp v R c K -> r = Ok r0 \/ is_err r ->
  exists G' v', sound_with G' (file_bytes m') /\ kept_for i G G' m m' /\ view_true i G' m' v' /\ K r v' /\ mc_processes m' = mc_processes m.
Proof.
  intros Hs HG Hv HK Hr.
  assert (forall m', mc_lock m' = mc_lock m -> file_bytes m' = file_bytes m -> mc_processes m' = mc_processes m -> K r v ->
    exists G' v', sound_with G' (file_bytes m') /\ kept_for i G G' m m' /\ view_true i G' m' v' /\ K r v' /\ mc_processes m' = mc_processes m) as Hquiet.
  { intros w El Ef Ep Hk. exists G, v. split; [by rewrite Ef|]. split; [by apply kept_for_refl|]. split; [by apply (view_true_same i G m)|done]. }
  assert (forall b, v_held v = Some b -> mc_lock m = Some (i, fst b) /\ file_bytes m = snd b /\ v_known v = G) as Hheld by (intros [fd b]; apply Hv).
  destruct c; cbn [serve view_wp] in *; unfold give in *;
    repeat match type of Hs with context [match ?x with _ => _ end] => lazymatch x with bool_decide _ => fail | _ => destruct x eqn:?; try done end end;
    simplify_eq; try (apply Hquiet; [by try done..|first [by apply HK | destruct HK as [HKe HKn], r as [x|e]; [|by apply HKe]; destruct Hr as [Hr|[]]; apply (inj Ok) in Hr; subst x; apply HKn]]).
  - apply Hquiet; [done| |done|by apply HK]. unfold file_bytes. cbn. by rewrite Heqo0.
  - destruct HK as [_ HK]. exists G, (View (Some (fd, file_bytes m)) G). split; [done|]. split; [split; [done|]; split; [done|]; intros; congruence|].
    split; [|split; [apply HK; [apply Hv|done]|done]]. split; [done|]. intros fd' b E. cbn in E. by simplify_eq.
  - intros b Hb. by destruct (Hheld _ Hb) as (_ & -> & _).
  - intros b Hb. by destruct (Hheld _ Hb) as (_ & -> & _).
  - apply (write_true i fd data _ G m v K r); [done..|unfold zlen; lia|done].
  - exists G, (View None (v_known v)). destruct Hv as [Hp _], HK as [_ HK]. case_bool_decide; (split; [done|]; split; [|split; [by apply view_true_none|by split]]); [|by apply kept_for_refl].
    split; [done|]. split; [done|]. intros j fd' Hj E. congruence.
  - by apply ascii_text_spec.
  - by apply ascii_text_spec.
Qed.

Lemma view_wp_err v R (c : call R) K e : view_wp v R c K -> K (Err e) v.
Proof. destruct c; cbn [view_wp]; try (by intros []); try by intros HK. by intros (? & ? & _ & _ & _ & HK & _). Qed.

(** What is true of the machine while it runs [commands] *)
Definition holds (commands : list invocation) (G : list entry) (m : machine) : Prop :=
  sound_with G (file_bytes m) /\ length (mc_processes m) = length commands /\
  forall i c p fds n, commands !! i = Some c -> mc_processes m !! i = Some (Process p fds n) ->
    exists v, view_true i G m v /\ knows (command_result_of (iv_result c)) v p.

Lemma holds_update commands G G' m m1 i p fds n v :
  holds commands G m -> sound_with G' (file_bytes m1) -> kept_for i G G' m m1 -> mc_processes m1 = mc_processes m -> view_true i G' m1 v ->
  (forall c, commands !! i = Some c -> knows (command_result_of (iv_result c)) v p) -> holds commands G' (set_process m1 i (Process p fds n)).
Proof.
  intros (_ & Hlen & Hp) Hs Hk Em Hv Hc. split; [done|]. split; [unfold set_process; cbn; by rewrite length_insert, Em|]. intros j c q fds' n' Ej. unfold set_process at 1. cbn.
  destruct (decide (j = i)) as [->|Hne].
  - rewrite list_lookup_insert_Some. intros [(_ & E & _)|[? _]]; [|done]. apply (f_equal pr_program) in E. cbn in E. subst q. exists v. split; [by apply (view_true_same i G' m1)|by apply Hc].
  - rewrite list_lookup_insert_ne by done. rewrite Em. intros E. destruct (Hp j c q fds' n' Ej E) as (w & Hw & Hq). exists w. split; [|done].
    apply (view_true_same j G' m1); [done..|]. by apply (view_true_kept i j G G' m m1).
Qed.

Lemma step_holds commands G m ch : holds commands G m -> exists G', holds commands G' (step ch m) /\ G `prefix_of` G' /\ file_bytes m `prefix_of` file_bytes (step ch m).
Proof.
  intros Hm. assert (exists G', holds commands G' m /\ G `prefix_of` G' /\ file_bytes m `prefix_of` file_bytes m) as Hsame by (by exists G).
  pose proof Hm as (Hs & Hlen & Hp).
  assert (forall i p fds n, mc_processes m !! i = Some (Process p fds n) -> exists c v, commands !! i = Some c /\ view_true i G m v /\ knows (command_result_of (iv_result c)) v p) as Hproc.
  { intros i p fds n E. destruct (lookup_lt_is_Some_2 commands i) as [c Ec]; [rewrite <- Hlen; by eapply lookup_lt_Some|].
    destruct (Hp i c p fds n Ec E) as (v & Hv & Hk). by exists c, v. }
  destruct ch as [i o|i e|i o e|i|n]; cbn [step].
  - destruct (mc_processes m !! i) as [[[r|R c k] fds n]|] eqn:E; try done. destruct (serve i fds o m c) as [[[m' fds'] r]|] eqn:Es; [|done].
    destruct (Hproc _ _ _ _ E) as (cm & v & Ec & Hv & Hk). destruct (serve_true _ _ _ _ _ _ _ _ _ _ _ _ (Ok r) Es Hs Hv Hk (or_introl eq_refl)) as (G' & v' & Hs' & Hk' & Hv' & Hr & Em).
    exists G'. split; [|by destruct Hk' as (? & ? & _)]. apply (holds_update commands G G' m m' i _ _ _ v'); try done. intros c' Ec'. by assert (c' = cm) as -> by congruence.
  - destruct (mc_processes m !! i) as [[[r|R c k] fds n]|] eqn:E; try done. destruct (Hproc _ _ _ _ E) as (cm & v & Ec & Hv & Hk).
    exists G. split; [|done]. apply (holds_update commands G G m m i _ _ _ v); try done. intros c' Ec'. assert (c' = cm) as -> by congruence. by apply (view_wp_err v R c _ e Hk).
  - destruct (mc_processes m !! i) as [[[r|R c k] fds n]|] eqn:E; try done. destruct (serve i fds o m c) as [[[m' fds'] r]|] eqn:Es; [|done].
    destruct (Hproc _ _ _ _ E) as (cm & v & Ec & Hv & Hk). destruct (serve_true _ _ _ _ _ _ _ _ _ _ _ _ (Err e) Es Hs Hv Hk (or_intror I)) as (G' & v' & Hs' & Hk' & Hv' & Hr & Em).
    exists G'. split; [|by destruct Hk' as (? & ? & _)]. apply (holds_update commands G G' m m' i _ _ _ v'); try done. intros c' Ec'. by assert (c' = cm) as -> by congruence.
  - destruct (mc_processes m !! i) as [[p fds n]|] eqn:E; [|done].
    set (m' := if match mc_lock m with Some (j, _) => (j =? i)%nat | None => false end then m <| mc_lock := None |> else m).
    assert (file_bytes m' = file_bytes m /\ mc_processes m' = mc_processes m) as [Ef Em] by (unfold m'; destruct (mc_lock m) as [[j ?]|]; [destruct (j =? i)%nat|]; done).
    exists G. split; [|split; [done|]; change (file_bytes m `prefix_of` file_bytes m'); by rewrite Ef].
    apply (holds_update commands G G m m' i _ _ _ (View None [])); [done|by rewrite Ef| |done|apply view_true_none; [apply prefix_nil|done]|done].
    split; [done|]. split; [by rewrite Ef|]. intros j fd Hj El. split; [|done]. unfold m'. rewrite El. destruct (Nat.eqb_spec j i); [done|by rewrite El].
  - exists G. split; [|done]. split; [done|]. split; [done|]. intros i c p fds k Ec E. destruct (Hp i c p fds k Ec E) as (v & Hv & Hk). exists v. split; [by apply (view_true_same i G m)|done].
Qed.

Lemma run_holds commands choices : forall G m, holds commands G m ->
  exists G', holds commands G' (run choices m) /\ G `prefix_of` G' /\ file_bytes m `prefix_of` file_bytes (run choices m).
Proof.
  induction choices as [|ch choices IH]; intros G m Hm; [by exists G|]. destruct (step_holds commands G m ch Hm) as (G1 & H1 & Hg1 & Hf1).
  destruct (IH G1 _ H1) as (G2 & H2 & Hg2 & Hf2). exists G2. split; [done|]. split; by etransitivity.
Qed.

Lemma initial_holds file commands rs : sound_with rs (match file with Some b => b | None => [] end) -> holds commands rs (initial file commands).
Proof.
  intros Hs. split; [done|]. split; [cbn; by rewrite length_map|]. intros i c p fds n Ec E. cbn in E. rewrite list_lookup_fmap, Ec in E. cbn in E.
  apply (inj Some), (f_equal pr_program) in E. cbn in E. subst p. exists (View None rs). split; [by apply view_true_none|]. apply knows_command.
Qed.

(** ** Failures and warnings *)

(** The state: how many warnings the command began to print *)
Definition warn_wp (n : nat) R (c : call R) (K : result R -> nat -> Prop) : Prop := forall r, K r (warns c + n)%nat.
Lemma warn_mono n R (c : call R) (K K' : result R -> nat -> Prop) : (forall r s, K r s -> K' r s) -> warn_wp n R c K -> warn_wp n R c K'.
Proof. intros HK H r. by apply HK. Qed.

(** What a journal has printed, where it records, and no exception but those that
    stop the process *)
Definition open_result (root : option pystr) (r : result journal) (n : nat) : Prop :=
  match r with
  | Ok j => n = (if jn_warned j then 1 else 0)%nat /\ jn_root j = root
  | Err e => (n <= 1)%nat /\ (e = "SIGKILL" \/ is_exception e = false)
  end.

Lemma warn_append euid root p family invocation res n : wp warn_wp (fun _ n' => n = n') n (append euid root p family invocation res).
Proof.
  revert n. apply (moves_append warn_wp warn_mono eq); [intros R c Hc n; by destruct c|by intros fd n|by intros fd data n].
Qed.

Lemma warn_record euid j p res n : n = (if jn_warned j then 1 else 0)%nat -> wp warn_wp (open_result (jn_root j)) n (record euid j p res).
Proof.
  intros Hn. unfold record.
  assert (forall q : program unit, wp warn_wp (fun _ n' => n = n') n q ->
    wp warn_wp (open_result (jn_root j)) n (attempt q (fun r => match r with Ok _ => ret j | Err e => record_failed j e end))) as Hmain.
  { intros q. apply (wp_attempt warn_wp warn_mono). intros [a|e] n' <-; [done|]. unfold record_failed.
    destruct (is_exception e) eqn:Ee; cbn [negb]; [|split; [destruct (jn_warned j); lia|by right]].
    destruct (jn_warned j) eqn:Ew; [cbn; by rewrite Ew|]. subst n. intros [?|e']; cbn [attempt]; [done|].
    destruct (is_exception e') eqn:Ee'; cbn [negb]; [done|]. split; [cbn; lia|by right]. }
  destruct (jn_root j) eqn:Er, (jn_invalid j); first [by apply Hmain, warn_append | by apply Hmain | by split].
Qed.

Lemma warn_begin euid family override linux : wp warn_wp (open_result (fst (root_of override linux))) 0%nat (begin euid family override linux).
Proof.
  unfold begin. destruct (root_of override linux) as [root invalid].
  assert (forall f inv id, wp warn_wp (open_result root) 0%nat (record euid (Journal f root false inv id) StartPhase None)) as Hr by (intros f inv id; by apply (warn_record euid (Journal f root false inv id))).
  intros [id|e]; cbn [attempt]; [apply Hr|]. destruct (is_exception e) eqn:Ee; [apply Hr|]. split; [cbn; lia|by right].
Qed.

Lemma warn_command euid family override linux res : wp warn_wp (open_result (fst (root_of override linux))) 0%nat (command euid family override linux res).
Proof.
  unfold command. apply (wp_bind warn_wp warn_mono (open_result (fst (root_of override linux)))); [apply warn_begin| |by intros e n Hn].
  intros j n [Hn <-]. by apply warn_record.
Qed.

(** ** Termination *)

Fixpoint calls_at_most {A} (n : nat) (p : program A) {struct p} : Prop :=
  match p with Done _ => True | Call c k => match n with O => False | S n => forall r, calls_at_most n (k r) end end.

Lemma calls_weaken {A} (p : program A) : forall n n', calls_at_most n p -> (n <= n')%nat -> calls_at_most n' p.
Proof. induction p as [r|R c k IH]; intros [|n] [|n']; cbn; try done; try lia. intros Hp Hn r. apply (IH r n); [done|lia]. Qed.
Lemma calls_attempt {A B} (p : program A) (f : result A -> program B) a b : calls_at_most a p -> (forall r, calls_at_most b (f r)) -> calls_at_most (a + b) (attempt p f).
Proof.
  revert a. induction p as [r|R c k IH]; intros a; cbn [attempt]; [intros _ Hf; apply (calls_weaken _ b); [done|lia]|].
  destruct a as [|a]; [done|]. intros Hp Hf r. by apply IH.
Qed.
Lemma calls_bind {A B} (p : program A) (f : A -> program B) a b : calls_at_most a p -> (forall x, calls_at_most b (f x)) -> calls_at_most (a + b) (bind p f).
Proof.
  revert a. induction p as [[x|e]|R c k IH]; intros a; cbn [bind]; [intros _ Hf; apply (calls_weaken _ b); [done|lia]|by intros; exact I|].
  destruct a as [|a]; [done|]. intros Hp Hf r. by apply IH.
Qed.
(** The second part may use what holds of the result of the first. *)
Lemma calls_then {A B} (p : program A) (f : A -> program B) b : forall a n, calls_at_most a p ->
  wp warn_wp (fun r _ => match r with Ok x => calls_at_most b (f x) | Err _ => True end) n p -> calls_at_most (a + b) (bind p f).
Proof.
  induction p as [[x|e]|R c k IH]; intros a n; cbn [bind wp]; [intros _ Hf; apply (calls_weaken _ b); [done|lia]|by intros; exact I|].
  destruct a as [|a]; [done|]. intros Hp Hf r. by apply (IH r a _ (Hp r) (Hf r)).
Qed.
Lemma calls_done {A} (r : result A) : calls_at_most 0 (Done r).
Proof. done. Qed.
Lemma calls_ret {A} (a : A) : calls_at_most 0 (ret a).
Proof. done. Qed.
Lemma calls_fail {A} e : calls_at_most 0 (fail (A := A) e).
Proof. done. Qed.
Lemma calls_sys {R} (c : call R) : calls_at_most 1 (sys c).
Proof. done. Qed.
Lemma calls_if {A} (b : bool) (p q : program A) m n : calls_at_most m p -> calls_at_most n q -> calls_at_most (Nat.max m n) (if b then p else q).
Proof. intros Hp Hq. destruct b; [apply (calls_weaken _ m)|apply (calls_weaken _ n)]; first [done | lia]. Qed.
Lemma calls_result {A B} (r : result A) (f : A -> program B) g m n :
  (forall a, calls_at_most m (f a)) -> (forall e, calls_at_most n (g e)) -> calls_at_most (Nat.max m n) (match r with Ok a => f a | Err e => g e end).
Proof. intros Hp Hq. destruct r; [apply (calls_weaken _ m)|apply (calls_weaken _ n)]; first [done | lia]. Qed.
Lemma calls_finally {A} (p : program A) q a b : calls_at_most a p -> calls_at_most b q -> calls_at_most (a + b) (finally p q).
Proof.
  intros Hp Hq. apply calls_attempt; [done|]. intros r. apply (calls_weaken _ (b + 0)); [|lia]. apply calls_bind; [done|]. intros _. apply calls_done.
Qed.
Lemma calls_on_error {A} (p : program A) q a b : calls_at_most a p -> calls_at_most b q -> calls_at_most (a + b) (on_error p q).
Proof.
  intros Hp Hq. apply calls_attempt; [done|]. intros [x|e]; [apply (calls_weaken _ 0); [done|lia]|]. apply (calls_weaken _ (b + 0)); [|lia].
  apply calls_bind; [done|]. intros _. apply calls_done.
Qed.

Ltac count := first
  [ simple apply calls_done | simple apply calls_ret | simple apply calls_fail | simple apply calls_sys | (simple eapply calls_if; count)
  | (simple eapply calls_finally; count) | (simple eapply calls_on_error; count) | (simple eapply calls_bind; [count|intros ?; count])
  | (simple eapply calls_attempt; [count|intros ?; count]) | (simple eapply calls_result; intros ?; count) | eassumption | idtac ].
Ltac counted := eapply calls_weaken; [count|].

Lemma calls_open_parts parts : forall d, calls_at_most (3 * length parts) (open_parts d parts).
Proof. induction parts as [|part parts IH]; intros d; cbn [open_parts length]; [done|]. counted; [apply IH|lia]. Qed.
Lemma calls_open_directory root : calls_at_most (3 * length (path_parts root) + 1) (open_directory root).
Proof. unfold open_directory. counted; [apply calls_open_parts|lia]. Qed.
Lemma calls_open_file d : calls_at_most 2 (open_file d).
Proof. unfold open_file. counted. lia. Qed.
Lemma calls_take_lock fuel fd deadline : calls_at_most (3 * fuel) (take_lock fuel fd deadline).
Proof. induction fuel as [|fuel IH]; cbn [take_lock]; [done|]. counted. lia. Qed.
Lemma calls_append_locked fd p family invocation res : calls_at_most 5 (append_locked fd p family invocation res).
Proof. unfold append_locked. counted. lia. Qed.
Lemma calls_append_check euid root directory descriptor : calls_at_most (3 * length (path_parts root) + 13) (append_check euid root directory descriptor).
Proof. unfold append_check. counted; [apply calls_open_directory|lia]. Qed.

Definition append_calls (root : pystr) : nat := 3 * length (path_parts root) + 1 + (3 * length (path_parts root) + 13) + 3 * lock_fuel + 14.
Lemma calls_append euid root p family invocation res : calls_at_most (append_calls root) (append euid root p family invocation res).
Proof.
  unfold append. counted; [apply calls_open_directory|apply calls_open_file| |].
  { destruct a as [descriptor created]. count; [apply calls_take_lock|apply calls_append_locked|apply calls_append_check]. }
  unfold append_calls. lia.
Qed.

Definition root_calls (root : option pystr) : nat := match root with Some root => append_calls root + 1 | None => 1 end.
Lemma calls_record euid j p res : calls_at_most (root_calls (jn_root j)) (record euid j p res).
Proof.
  assert (forall e, calls_at_most 1 (record_failed j e)) as Hf by (intros e; unfold record_failed; counted; lia).
  unfold record. destruct (jn_root j) as [root|], (jn_invalid j); cbn [root_calls]; try (counted; [apply Hf|lia]); [|done].
  counted; [apply calls_append|apply Hf|lia].
Qed.

Definition command_calls (override : option pystr) (linux : bool) : nat := 1 + 2 * root_calls (fst (root_of override linux)).
Lemma calls_command euid family override linux res : calls_at_most (command_calls override linux) (command euid family override linux res).
Proof.
  assert (calls_at_most (1 + root_calls (fst (root_of override linux))) (begin euid family override linux)) as Hb.
  { unfold begin. destruct (root_of override linux) as [root invalid]. cbn [fst].
    assert (forall f inv id, calls_at_most (root_calls root) (record euid (Journal f root false inv id) StartPhase None)) as Hr by (intros f inv id; apply (calls_record euid (Journal f root false inv id))).
    counted; [apply Hr|apply Hr|lia]. }
  apply (calls_weaken _ (1 + root_calls (fst (root_of override linux)) + root_calls (fst (root_of override linux)))); [|unfold command_calls; lia].
  apply (calls_then _ _ _ _ 0%nat); [done|]. apply (wp_weaken warn_wp warn_mono (open_result (fst (root_of override linux)))); [|apply (warn_begin euid family override linux)].
  intros [j|e] n; [|done]. intros [_ <-]. apply calls_record.
Qed.

(** The state: a time that the clock has reached.  A clock that is read later shows
    no less, and a pause takes its time. *)
Definition time_wp (t : Z) R (c : call R) (K : result R -> Z -> Prop) : Prop :=
  (forall e t', t <= t' -> e <> "OutOfFuel" -> K (Err e) t') /\
  match c in call R return (result R -> Z -> Prop) -> Prop with
  | Monotonic => fun K => forall now t', t <= now <= t' -> K (Ok now) t'
  | Sleep n => fun K => forall t', t + n <= t' -> K (Ok tt) t'
  | _ => fun K => forall a t', t <= t' -> K (Ok a) t'
  end K.

Lemma time_mono t R (c : call R) (K K' : result R -> Z -> Prop) : (forall r s, K r s -> K' r s) -> time_wp t R c K -> time_wp t R c K'.
Proof. intros HK [He Hc]. split; [by eauto|]. destruct c; cbn in *; by eauto. Qed.

Definition in_fuel {A} (r : result A) (t : Z) : Prop := r <> Err "OutOfFuel".

Lemma take_lock_fuel fuel fd deadline : forall t, deadline - t <= LOCK_PAUSE * Z.of_nat fuel -> wp time_wp in_fuel t (take_lock (S fuel) fd deadline).
Proof.
  induction fuel as [|fuel IH]; intros t Ht.
  all: apply (wp_attempt time_wp time_mono (fun r t' => t <= t' /\ in_fuel r t')); [|split; [intros e t' Hle He; split; [done|]; unfold in_fuel; congruence|intros a t' Hle; by split]].
  all: intros [a|e] t' [Hle He]; [done|]; destruct (bool_decide (e = _)); [|exact He].
  all: split; [intros e' t2 _ He'; unfold in_fuel; congruence|]; intros now t2 Hnow; cbn [bind]; destruct (deadline <=? now) eqn:Ed; [done|]; bool_norm.
  - unfold LOCK_PAUSE in Ht. lia.
  - split; [intros e' t3 _ He'; unfold in_fuel; congruence|]. intros t3 Ht3. apply IH. unfold LOCK_PAUSE in *. lia.
Qed.

Lemma lock_in_time fd t : wp time_wp in_fuel t (do now <- sys Monotonic ;; take_lock lock_fuel fd (now + LOCK_MICROSECONDS)).
Proof.
  split; [intros e t' _ He; unfold in_fuel; congruence|]. intros now t' Hnow. apply (take_lock_fuel 25). unfold LOCK_MICROSECONDS, LOCK_PAUSE. lia.
Qed.

(** ** Every command of the machine *)

Lemma warn_le {A} (Q : result A -> nat -> Prop) p : (forall r n, Q r n -> (n <= 1)%nat) -> forall n, wp warn_wp Q n p -> (n <= 1)%nat.
Proof.
  intros HQ. induction p as [r|R c k IH]; intros n; cbn [wp]; [apply HQ|]. intros H. specialize (IH (Err "") _ (H (Err ""))). lia.
Qed.

Definition process_open (c : invocation) (p : process) : Prop := wp warn_wp (open_result (fst (root_of (iv_override c) (iv_linux c)))) (pr_warnings p) (pr_program p).

Lemma serve_processes i fds o m R (c : call R) m' fds' r : serve i fds o m c = Some (m', fds', r) -> mc_processes m' = mc_processes m.
Proof.
  intros Hs. destruct c; cbn [serve] in Hs; unfold give in Hs;
    repeat match type of Hs with context [match ?x with _ => _ end] => destruct x; try done end; by simplify_eq.
Qed.

Lemma step_open commands ch m : Forall2 process_open commands (mc_processes m) -> Forall2 process_open commands (mc_processes (step ch m)).
Proof.
  intros Hm. assert (forall i p q m', mc_processes m !! i = Some p -> mc_processes m' = mc_processes m -> (forall c, process_open c p -> process_open c q) ->
    Forall2 process_open commands (mc_processes (set_process m' i q))) as Hset.
  { intros i p q m' E Em Hq. unfold set_process. cbn. rewrite Em. apply Forall2_same_length_lookup. split; [rewrite length_insert; by eapply Forall2_length|].
    intros j c p' Ec. destruct (decide (j = i)) as [->|Hne].
    - rewrite list_lookup_insert_Some. intros [(_ & <- & _)|[? _]]; [|done]. apply Hq. by apply (Forall2_lookup_lr _ _ _ _ _ _ Hm Ec E).
    - rewrite list_lookup_insert_ne by done. by apply (Forall2_lookup_lr _ _ _ _ _ _ Hm Ec). }
  destruct ch as [i o|i e|i o e|i|n]; cbn [step]; [..|done]; (destruct (mc_processes m !! i) as [[p fds n]|] eqn:E; [|done]).
  4: { apply (Hset i (Process p fds n)); [done|destruct (mc_lock m) as [[j ?]|]; [destruct (j =? i)%nat|]; done|]. intros c Hc. split; [|by left].
       apply (warn_le _ _) in Hc; [done|]. intros [j|e] k; [intros [-> _]; destruct (jn_warned j); lia|by intros []]. }
  all: destruct p as [r|R c k]; try done.
  1, 3: destruct (serve i fds o m c) as [[[m' fds'] r]|] eqn:Es; [|done]; apply serve_processes in Es.
  all: eapply Hset; [exact E|done|]; intros cm Hc; apply Hc.
Qed.

Lemma run_open commands choices : forall m, Forall2 process_open commands (mc_processes m) -> Forall2 process_open commands (mc_processes (run choices m)).
Proof. induction choices as [|ch choices IH]; intros m Hm; [done|]. by apply IH, step_open. Qed.

Lemma initial_open file commands : Forall2 process_open commands (mc_processes (initial file commands)).
Proof. cbn. induction commands as [|c commands IH]; [constructor|]. constructor; [apply warn_command|done]. Qed.

(** * The properties *)

(** The entries of the machine's file, and what is left of a torn write *)
Definition journal_holds (m : machine) (rs : list entry) : Prop := sound_with rs (file_bytes m).

(** C19: The journal stays sound, and only grows.  Whatever commands run at once, in
    whatever order their calls are made, whichever of them fail, before or after
    they took effect, and whichever commands are killed: the file is a sequence of
    complete lines numbered from 1, after which there is at most the beginning of
    one more, and what it held at the start it holds still. *)
Theorem journal_sound file commands choices :
  let b := match file with Some b => b | None => [] end in
  sound b -> let m := run choices (initial file commands) in sound (file_bytes m) /\ b `prefix_of` file_bytes m.
Proof.
  cbv zeta. intros [rs Hs]. destruct (run_holds commands choices rs _ (initial_holds file commands rs Hs)) as (G & (HG & _) & _ & Hf). split; [by exists G|done].
Qed.

(** C29: A command that ends without a warning, and has a directory to record in, is
    in the journal: the file holds its start and, later, its end with the result it
    gave, under its family and its invocation. *)
Theorem journal_recorded file commands choices i c j fds n :
  sound (match file with Some b => b | None => [] end) -> commands !! i = Some c ->
  mc_processes (run choices (initial file commands)) !! i = Some (Process (Done (Ok j)) fds n) -> jn_warned j = false -> jn_root j <> None ->
  exists rs, journal_holds (run choices (initial file commands)) rs /\ both_recorded j (iv_result c) rs.
Proof.
  intros [rs Hs] Ec E Hw Hr. destruct (run_holds commands choices rs _ (initial_holds file commands rs Hs)) as (G & (HG & _ & Hp) & _).
  destruct (Hp i c _ fds n Ec E) as (v & [Hv _] & Hk). exists G. split; [done|]. apply (both_recorded_prefix _ _ (v_known v)); [done|]. by apply Hk.
Qed.

(** C35: Journaling never fails a command.  Whatever the calls answer, a command ends
    with its journal, having begun to print the warning once if the journal is
    marked and never else; or by an exception that is not an [Exception], or killed. *)
Theorem journal_fail_open file commands choices i c p :
  commands !! i = Some c -> mc_processes (run choices (initial file commands)) !! i = Some p ->
  (pr_warnings p <= 1)%nat /\
  match pr_program p with
  | Done (Ok j) => pr_warnings p = (if jn_warned j then 1 else 0)%nat /\ jn_root j = fst (root_of (iv_override c) (iv_linux c))
  | Done (Err e) => e = "SIGKILL" \/ is_exception e = false
  | Call _ _ => True
  end.
Proof.
  intros Ec Ep. pose proof (Forall2_lookup_lr _ _ _ _ _ _ (run_open commands choices _ (initial_open file commands)) Ec Ep) as Ho. unfold process_open in Ho. split.
  - apply warn_le in Ho; [done|]. intros [j|e] k; [intros [-> _]; destruct (jn_warned j); lia|by intros []].
  - destruct (pr_program p) as [[j|e]|]; [done|apply Ho|done].
Qed.

(** C40: Journaling takes a bounded number of calls: three for each part of the
    directory's path, each time it is opened, and a number that is fixed.  It is the
    loop that waits for the lock that ends by its clock: on a clock that does not go
    back, and with pauses that last, it takes the lock or fails within the turns
    [lock_fuel] allows. *)
Theorem journal_terminates euid family override linux res :
  calls_at_most (command_calls override linux) (command euid family override linux res) /\
  forall fd t, wp time_wp in_fuel t (do now <- sys Monotonic ;; take_lock lock_fuel fd (now + LOCK_MICROSECONDS)).
Proof. split; [apply calls_command|apply lock_in_time]. Qed.

(** * Two commands at once *)

Definition demo_commands : list invocation :=
  [Invocation 0 (VStr (u "run")) (Some (u "/var/log/p")) true Success; Invocation 0 (VStr (u "frob")) None true Error].

(** The call that a process makes next takes effect, unless it waits for the lock. *)
Definition turn (i : nat) (m : machine) : choice :=
  match mc_processes m !! i with
  | Some (Process (Call c _) fds _) =>
      let directory := Metadata (16384 + 448) 0 2 (1, 2) in
      let file := Metadata (32768 + 384) 0 1 (1, 3) in
      let oracle md := Oracle (1 + fold_right Z.max 2 (map fst fds)) md 1000 (if (i =? 0)%nat then u "aa" else u "bb") 7 in
      match c with
      | Flock _ => if mc_lock m then Raises i "BlockingIOError" else Runs i (oracle file)
      | CreateFile _ => if mc_file m then Raises i "FileExistsError" else Runs i (oracle file)
      | Fstat fd => Runs i (oracle (match fd_kind fds fd with Some DirectoryFd => directory | _ => file end))
      | _ => Runs i (oracle file)
      end
  | _ => Ticks 1
  end.
Fixpoint schedule (turns : list nat) (m : machine) : list choice :=
  match turns with [] => [] | i :: turns => turn i m :: schedule turns (step (turn i m) m) end.

(** The first command is in the middle of its start when the second begins. *)
Definition demo_choices : list choice := schedule (repeat 0%nat 19 ++ repeat 1%nat 30 ++ repeat 0%nat 20 ++ repeat 1%nat 30 ++ repeat 0%nat 100 ++ repeat 1%nat 100) (initial None demo_commands).

(** The families and the numbers of the lines of a file *)
Definition demo_lines (b : bytes) : list (pystr * Z) :=
  map (fun l => match loads last_wins l with
    | Ok (VDict d) => match dict_get d (u "family"), dict_get d (u "sequence") with Some (VStr s), Some (VInt n) => (s, n) | _, _ => ([], 0) end
    | _ => ([], 0) end) (splitlines b).
(** The line of the second command comes between the lines of the first. *)
Definition demo_interleaved (m : machine) : bool :=
  bool_decide (demo_lines (file_bytes m) =
    [(u "run", 1); (u "unknown", 2); (u "run", 3); (u "unknown", 4)]).

Lemma journal_sound_witness :
  demo_interleaved (run demo_choices (initial None demo_commands)) = true /\
  sound (file_bytes (run demo_choices (initial None demo_commands))) /\ [] `prefix_of` file_bytes (run demo_choices (initial None demo_commands)).
Proof. split; [by vm_compute|]. exact (journal_sound None demo_commands demo_choices sound_nil). Defined.

(** The [i]-th command ended in silence. *)
Definition demo_silent (i : nat) (m : machine) : bool :=
  match mc_processes m !! i with
  | Some (Process (Done (Ok j)) _ n) => negb (jn_warned j) && match jn_root j with Some _ => true | None => false end && (n =? 0)%nat
  | _ => false
  end.

Lemma journal_recorded_witness :
  exists j fds n rs, mc_processes (run demo_choices (initial None demo_commands)) !! 1%nat = Some (Process (Done (Ok j)) fds n) /\
    journal_holds (run demo_choices (initial None demo_commands)) rs /\ both_recorded j Error rs.
Proof.
  assert (demo_silent 1 (run demo_choices (initial None demo_commands)) = true) as Hd by by vm_compute. unfold demo_silent in Hd.
  destruct (mc_processes (run demo_choices (initial None demo_commands)) !! 1%nat) as [[[[j|e]|R c k] fds n]|] eqn:E; [|discriminate Hd..].
  apply andb_prop in Hd as [[Hw Hr]%andb_prop _]. apply negb_true_iff in Hw.
  destruct (journal_recorded None demo_commands demo_choices 1 (Invocation 0 (VStr (u "frob")) None true Error) j fds n sound_nil eq_refl E Hw) as (rs & H1 & H2).
  { destruct (jn_root j); [discriminate|discriminate Hr]. }
  exists j, fds, n, rs. exact (conj eq_refl (conj H1 H2)).
Defined.

(** Every call of the command fails: it warns once. *)
Definition demo_failing : list choice := repeat (Raises 0 "OSError") 10.
Lemma journal_fail_open_witness :
  exists p, mc_processes (run demo_failing (initial None demo_commands)) !! 0%nat = Some p /\ pr_warnings p = 1%nat /\ (pr_warnings p <= 1)%nat.
Proof.
  assert (match mc_processes (run demo_failing (initial None demo_commands)) !! 0%nat with Some p => (pr_warnings p =? 1)%nat | None => false end = true) as Hd by by vm_compute.
  destruct (mc_processes (run demo_failing (initial None demo_commands)) !! 0%nat) as [p|] eqn:E; [|discriminate Hd]. exists p. split; [reflexivity|]. split; [exact (proj1 (Nat.eqb_eq _ _) Hd)|].
  exact (proj1 (journal_fail_open None demo_commands demo_failing 0 _ p eq_refl E)).
Defined.
